(* ===== verification/_CoqProject ===== *)
-Q . S2P
Prelude.v
PyString.v
Triples.v
Types.v
ApiManifest.v
Chunk.v
LocalManifest.v
FileOperations.v
FileContent.v
Storage.v
FileTransactions.v
FileRefinement.v
FileProperties.v
Merging.v
MergingProperties.v
EntryTransactions.v
EntryProperties.v
SyncTransactions.v
SyncProperties.v
Backend.v
BlockCache.v
Certif.v
BackendUser.v
BackendMessage.v
BackendVlob.v
BackendVlobProofs.v
BackendRealm.v
BlockStore.v
BlockStoreProperties.v
BackendBlock.v
BackendOrganization.v
BackendSystem.v
BackendVlobSpec.v
BackendRealmSpec.v
BackendEffects.v
BackendGrowth.v
BackendExample.v
BackendProperties.v
BackendUserProperties.v
Invite.v
InviteProperties.v
Trustchain.v
TrustchainProperties.v
RemoteDevices.v
RemoteLoader.v
RemoteLoaderProofs.v
RemoteLoaderProperties.v
ClientServer.v
ClientServerExample.v
ClientServerProperties.v
ReencryptionJob.v
ReencryptionProperties.v
WorkspaceFS.v
WorkspaceFSProofs.v
WorkspaceFSProperties.v
Sas.v
InviteClient.v
InviteClientProperties.v
WorkspaceFile.v
WorkspaceFileProperties.v
WorkspacePaths.v
WorkspacePathsProperties.v
Handshake.v
HandshakeProperties.v
Versioning.v
VersioningProofs.v
VersioningProperties.v
UserFS.v
SyncMonitor.v
SyncMonitorProofs.v
SyncMonitorProperties.v
UserExample.v
UserFSProofs.v
UserFSProperties.v
SharingProperties.v
Url.v
BackendAddr.v
BackendAddrProperties.v
HttpComponent.v
HttpProperties.v
