(* ===== verification/Prelude.v ===== *)
(** * guardata: a verification library

    guardata is an end-to-end encrypted file share: a server that only sees
    certificates and ciphertexts, and clients that keep files locally, check what
    the server gives them and synchronize. This library models the logic of both
    sides in Rocq and proves what makes it right. Python's ints are [Z]; bytes are
    lists of bytes; sets and dicts whose order does not matter are [gset] and
    [gmap], a dict whose order matters is an [odict] (an association list that
    [d[k] = v] updates in place); dates are microseconds ([Z]); an exception is the
    [Err] of a [result], and code that changes objects is a function of the state
    in the monad [stM] (state after an exception included). Each coroutine of the
    server's memory components runs without a suspension point between its checks
    and its writes, so that a handler is one step of the state.

    ** The client's files

    - [Chunk], [ApiManifest], [LocalManifest]: [client/types/manifest.py] and
      [api/data/manifest.py]. A file is a list of blocks, a block a list of chunks,
      a chunk a window on the data stored under an id; folders keep their children
      and the entries that are confined to the machine.
    - [FileOperations] is [fs/workspacefs/file_operations.py], definition by
      definition; [FileContent] says which bytes a manifest and a chunk store
      denote and proves that write, resize, reshape and read do to these bytes
      what their names say.
    - [Storage] is [fs/storage/*]: manifests and chunks in a cache and in a
      database, the clean-up that is delayed, the file descriptors.
    - [FileTransactions] is [file_transactions.py] on this storage;
      [FileRefinement] lifts the results on bytes to it and [FileProperties] states
      them ([fd_write], [fd_read], [fd_resize], [fd_flush]). [fd_read_loop] has
      fuel for its attempts: one is enough when no block is missing, and a
      theorem says so.
    - [EntryTransactions] is [entry_transactions.py], the paths of
      [types/base.py] and the rights; [EntryProperties] shows that paths round
      trip, and that creating and renaming entries keep the tree a tree and move
      exactly the entry that was named.
    - [Merging] and [SyncTransactions] are [sync_transactions.py] and
      [userfs/merging.py]: the merge of three versions of a folder, names for
      conflicts (the fuel of [get_conflict_filename] is one more than the number
      of names, and a theorem says that it suffices), a synchronization step,
      whose walk up to the root has fuel ([parent_chain], enough when it is not
      less than the depth of the entry), and the copy of a file in conflict. [MergingProperties] and
      [SyncProperties] have the theorems.

    ** The server

    - [Backend]: the state of the memory components and the monad of the handlers;
      [Certif]: [api/data/certif.py] and [base.py], over an interface [CertifApi]
      (signatures and deserializers); [BackendUser], [BackendMessage],
      [BackendVlob], [BackendRealm], [BackendBlock], [BackendOrganization]: the
      handlers [api_*] of the file of the same name and the operations of
      [memory/*] that they call; [BlockStore]: the memory store and the RAID
      stores over an interface of stores. [BackendSystem] makes the requests of
      connected clients the steps of a state machine.
    - The files of the components and [BackendVlobProofs] prove invariants and
      effects of the operations; [BackendVlobSpec] and [BackendRealmSpec] say what a history of versions and
      a reencryption are; [BackendEffects] and [BackendGrowth] say what a step may
      change. [BackendProperties], [BackendUserProperties] and
      [BlockStoreProperties] state the theorems; [BackendExample] is a run on
      which they are tried. The walk over the creators of a device has fuel
      [trust_fuel], and a theorem says that it ends.
    - [Invite] is the conduit of [invite.py] with its memory component: two peers
      that exchange payloads in a fixed order; [InviteProperties] proves that each
      one gets the other's payload whatever the order of the requests.

    ** Trust

    - [Trustchain] is [client/trustchain.py]: the caches and the check of the
      certificates that come with a user, with lemmas that follow the recursion along
      the signatures; [TrustchainProperties] states what is guaranteed and
      shows with a run what is not. The fuel stands for Python's recursion limit: a
      theorem says that one more than the number of device certificates suffices.

    ** The client and the server

    - [Triples] has Hoare triples for the state monad with exceptions.
      [RemoteDevices] is [remote_devices_manager.py] and [RemoteLoader] is
      [fs/remote_loader.py], over an interface [BackendCmds] of the requests of a
      client, which may be any server, and [LoaderApi] (ciphers and manifest
      schemas). [RemoteLoaderProofs] and [RemoteLoaderProperties] show what has been
      verified whatever the server answers.
    - [ClientServer] makes the handlers of [Backend*] an instance of [BackendCmds];
      it proves that the log of the roles of a realm is right in every reachable
      state, and signed with the keys that the server has when its clients have the
      key of their device ([signed_step]), and follows a manifest from the upload of a client to the download of
      another one. [ClientServerProperties] has the theorems, on the run of
      [ClientServerExample], and two attacks or mishaps that the code allows.

    ** The workspaces of a user

    - [WorkspaceFS] is the synchronization of [workspacefs.py] on top of the
      transactions and of the remote loader: the loop on an entry, the uploads of
      its blocks and placeholders, the recursion over the children, the filter, the
      roles and the need of a reencryption. [sync_loop], [sync_by_id],
      [wf_file_reshape] and [recursive_apply_filter] have fuel and say when it was
      not enough; [WorkspaceFSProofs] and [WorkspaceFSProperties] show that two
      turns are enough when nobody else writes, with a server that is the one of
      this library.
    - [UserFS] is [userfs/userfs.py] with the messages of [api/data/message.py]:
      the user manifest, its synchronization, the sharing and what a message may
      change. [UserFSProofs] frames each operation; [UserFSProperties] states the
      invariant of every sequence of operations and what justifies a change;
      [SharingProperties] follows a sharing from the owner through the server to
      the recipient, on the run of [UserExample].
    - [ReencryptionJob] is the job of the same name and the loop of the interface
      over its batches; [ReencryptionProperties] runs it on the server, up to the
      end of the maintenance (as many batches as there are versions are enough),
      and shows how one version stops it.
    - [BlockCache] bounds the cache of blocks of [chunk_storage.py].
    - [SyncMonitor] is a context of [client/sync_monitor.py]: the changes, their
      due times, the load of the changes, a tick. The clock is a sequence of dates;
      the events that come at each wait are a parameter, as is what is
      synchronized ([SyncTarget]). The recursion over the confined entries has as
      fuel one more than their number. [SyncMonitorProofs] has the invariant and
      [SyncMonitorProperties] the theorems: the date of a first change stays until
      the entry is synchronized, the context wakes up in time, no change is forgotten
      by a tick, but one notification may be lost while the changes are loaded.
    - [WorkspaceFile] is [workspacefile.py]: the file object that a workspace gives,
      with its mode and its position; [WorkspaceFileProperties] shows that it is a
      string of bytes with a position, up to the blocks that are uploaded, by the
      rules of the code, and says when these are the documented ones.
    - [WorkspacePaths] is the rest of [workspacefs.py]: the operations by path, the
      copies and the moves, also between workspaces. Its loops and recursions have
      fuel; [WorkspacePathsProperties] gives how much is enough for a file.
    - [Versioning] is [versioning_helpers.py], the versions that a path had: the
      caches, the counter of downloads, the heap of tasks, run by one worker;
      [VersioningProofs] has the invariant of the tree of tasks and
      [VersioningProperties] shows that the list is exact, for any order of the tasks.
      The fuel of [execute] is a number of tasks, and the theorem says that some
      number is enough.

    ** Connections, invitations and addresses

    - [Handshake] has both sides of [api/protocol/handshake.py] with
      [backendService/handshake.py] and [backend_connection/transport.py]: the state
      machine of the server, the four kinds of answers and the clients;
      [HandshakeProperties] says to whom the server gives a context, and runs a
      client against it.
    - [Sas] is [api/data/invite.py], the codes that the users compare and the sealed
      data; [InviteClient] is [client/invite/*] over the requests of [Invite]: the
      greeter and the claimer are programs whose requests interleave in any order;
      [InviteClientProperties] runs them against the server to the end, the deletion
      of the invitation by the greeter included.
    - [Url] has what the addresses use of [urllib.parse], [base64] and [uuid], with
      the lemmas on printing and reading; [BackendAddr] is
      [client/types/backend_address.py] with the identifiers, and
      [BackendAddrProperties] shows that what is printed is read, and which hosts and
      ports are not.
    - [HttpComponent] is [backendService/http.py], the pages of the server;
      [HttpProperties] follows an invitation through the redirection to the client,
      and a group from its creation to the address in the reply.

    ** Parameters

    What is not in this repository is a parameter: signatures, hashes and
    encryption (libsodium), the deserializers (marshmallow, msgpack), regular
    expressions ([fnmatch]), the byte stores below RAID, the random ids, the tables of
    Unicode, the templates of the pages. Each theorem names what it assumes of them.

    ** Not modelled

    The Qt interface, the command line, FUSE and WinFSP, PostgreSQL (SQL text), S3
    and Swift, the sockets and the framing of HTTP and of websockets, e-mail and
    webhooks are calls of other systems with little logic of their own. Locks of the client and the interleaving of its
    tasks are not modelled: a transaction runs alone. *)

From stdpp Require Export base gmap sets list strings sorting numbers list_numbers pretty.
From Stdlib Require Strings.Byte.

#[global] Open Scope Z_scope.
#[export] Set Warnings "-clear-no-such-hyp".

(** ** Results and state-passing code *)

(** A Python call that returns a value or raises: the exception type comes
    first, so that [result E] is a monad. *)
Inductive result (E A : Type) : Type :=
| Ok (a : A)
| Err (e : E).
Arguments Ok {E A} a.
Arguments Err {E A} e.

#[export] Instance result_ret E : MRet (result E) := λ A, Ok.
#[export] Instance result_throw E : MThrow E (result E) := λ A e, Err e.
#[export] Instance result_bind E : MBind (result E) := λ A B k m,
  match m with Ok a => k a | Err e => Err e end.
#[export] Instance result_fmap E : FMap (result E) := λ A B f m,
  match m with Ok a => Ok (f a) | Err e => Err e end.
#[export] Instance result_eq_dec `{EqDecision E, EqDecision A} : EqDecision (result E A).
Proof. solve_decision. Defined.

Lemma result_bind_Ok {E A B} (r : result E A) (f : A → result E B) b :
  (r ≫= f) = Ok b → ∃ a, r = Ok a ∧ f a = Ok b.
Proof. destruct r; cbn; [eauto|done]. Qed.
Lemma result_bind_not_Err {E A B} (r : result E A) (f : A → result E B) e :
  r ≠ Err e → (∀ a, r = Ok a → f a ≠ Err e) → (r ≫= f) ≠ Err e.
Proof. destruct r; cbn; naive_solver. Qed.

(** Code that mutates a state [S] and may raise: the state reached when an
    exception is raised is kept, as Python keeps the mutations done before it. *)
Definition stM (S E A : Type) : Type := S → S * result E A.

Section stM.
Context {S E : Type}.

#[export] Instance stM_ret : MRet (stM S E) := λ A a s, (s, Ok a).
#[export] Instance stM_throw : MThrow E (stM S E) := λ A e s, (s, Err e).
#[export] Instance stM_bind : MBind (stM S E) := λ A B k m s,
  match m s with
  | (s', Ok a) => k a s'
  | (s', Err e) => (s', Err e)
  end.
#[export] Instance stM_fmap : FMap (stM S E) := λ A B f m s,
  match m s with
  | (s', Ok a) => (s', Ok (f a))
  | (s', Err e) => (s', Err e)
  end.

(** Reading and updating the state. *)
Definition gets {A} (f : S → A) : stM S E A := λ s, (s, Ok (f s)).
Definition modify (f : S → S) : stM S E unit := λ s, (f s, Ok tt).
(** [if b: raise e] *)
Definition raise_if (b : bool) (e : E) : stM S E unit := λ s,
  (s, if b then Err e else Ok tt).
(** An option whose [None] is the exception [e]. *)
Definition of_option {A} (e : E) (o : option A) : stM S E A := λ s,
  (s, match o with Some a => Ok a | None => Err e end).
(** A call that reads no state. *)
Definition lift_result {A} (r : result E A) : stM S E A := λ s, (s, r).
(** [try: m except e: h e] *)
Definition try_catch {A} (m : stM S E A) (h : E → stM S E A) : stM S E A := λ s,
  match m s with
  | (s', Err e) => h e s'
  | r => r
  end.
(** [try: m finally: f]: the exception of [f] replaces the one of [m]. *)
Definition try_finally {A} (m : stM S E A) (f : stM S E unit) : stM S E A := λ s,
  let '(s1, r) := m s in
  match f s1 with
  | (s2, Ok _) => (s2, r)
  | (s2, Err e) => (s2, Err e)
  end.
End stM.

(** *** Computing with results *)

Section stM_eq.
Context {S E : Type}.
Lemma bind_Ok {A B} (m : stM S E A) (f : A → stM S E B) s s' a :
  m s = (s', Ok a) → (m ≫= f) s = f a s'.
Proof. unfold mbind, stM_bind. by intros ->. Qed.
Lemma bind_Err {A B} (m : stM S E A) (f : A → stM S E B) s s' e :
  m s = (s', Err e) → (m ≫= f) s = (s', Err e).
Proof. unfold mbind, stM_bind. by intros ->. Qed.
Lemma bind_inv {A B} (m : stM S E A) (f : A → stM S E B) s s' r :
  (m ≫= f) s = (s', r) →
  (∃ a s1, m s = (s1, Ok a) ∧ f a s1 = (s', r)) ∨
  (∃ e, m s = (s', Err e) ∧ r = Err e).
Proof. unfold mbind, stM_bind. destruct (m s) as [s1 [a|e]]; naive_solver. Qed.
Lemma bind_inv_Ok {A B} (m : stM S E A) (f : A → stM S E B) s s' b :
  (m ≫= f) s = (s', Ok b) → ∃ a s1, m s = (s1, Ok a) ∧ f a s1 = (s', Ok b).
Proof. intros [?|(?&?&?)]%bind_inv; [done|discriminate]. Qed.
Lemma gets_eq {A} (f : S → A) s : gets (E := E) f s = (s, Ok (f s)).
Proof. done. Qed.
Lemma raise_if_false (e : E) (s : S) : raise_if false e s = (s, Ok tt).
Proof. done. Qed.
Lemma raise_if_inv b (e : E) (s s' : S) r :
  raise_if b e s = (s', r) → s' = s ∧ (b = true ∧ r = Err e ∨ b = false ∧ r = Ok tt).
Proof. unfold raise_if. destruct b; naive_solver. Qed.
Lemma of_option_inv {A} (e : E) (o : option A) (s s' : S) r :
  of_option e o s = (s', r) →
  s' = s ∧ (o = None ∧ r = Err e ∨ ∃ a, o = Some a ∧ r = Ok a).
Proof. unfold of_option. destruct o; naive_solver. Qed.
End stM_eq.

(** [for x in l: f x] *)
Fixpoint for_each {S E A} (f : A → stM S E unit) (l : list A) : stM S E unit :=
  match l with
  | [] => mret tt
  | x :: l => f x ≫= λ _, for_each f l
  end.

(** ** Python integers, slices and ranges *)

(** Bytes strings. *)
Abbreviation byte := Byte.byte (only parsing).
Abbreviation bytes := (list Byte.byte) (only parsing).

#[export] Instance byte_eq_dec : EqDecision Byte.byte := Byte.byte_eq_dec.

(** [b"\x00" * n] *)
Definition zeros (n : Z) : bytes := replicate (Z.to_nat n) Byte.x00.

(** The position a slice bound denotes in a sequence of length [n]: a negative
    bound counts from the end, and both ends are clipped. *)
Definition slice_bound (n : nat) (i : Z) : nat :=
  if i <? 0 then Z.to_nat (Z.max 0 (Z.of_nat n + i))
  else Nat.min (Z.to_nat i) n.

(** [l[i:j]] *)
Definition py_slice {A} (l : list A) (i j : Z) : list A :=
  let i' := slice_bound (length l) i in
  let j' := slice_bound (length l) j in
  take (j' - i')%nat (drop i' l).

(** [l[i]]; [None] is the [IndexError]. *)
Definition py_index {A} (l : list A) (i : Z) : option A :=
  let n := Z.of_nat (length l) in
  if i <? 0 then (if 0 <=? n + i then l !! Z.to_nat (n + i) else None)
  else l !! Z.to_nat i.

(** [l[i] = x]; [None] is the [IndexError]. *)
Definition py_set {A} (l : list A) (i : Z) (x : A) : option (list A) :=
  let n := Z.of_nat (length l) in
  let i' := if i <? 0 then n + i else i in
  if (0 <=? i') && (i' <? n) then Some (<[Z.to_nat i' := x]> l) else None.

(** The loop of [bisect.bisect_left] and [bisect.bisect_right]: [left x] is the
    test that sends the search to the left of an element [x]. The interval
    [lo, hi) shrinks at each turn, so that [length l] turns are enough. *)
Fixpoint bisect_loop {A} (left : A → bool) (l : list A) (fuel lo hi : nat) : nat :=
  match fuel with
  | O => lo
  | S fuel =>
      if (lo <? hi)%nat then
        let mid := ((lo + hi) / 2)%nat in
        match l !! mid with
        | Some x =>
            if left x then bisect_loop left l fuel lo mid
            else bisect_loop left l fuel (S mid) hi
        | None => lo
        end
      else lo
  end.
Definition bisect {A} (left : A → bool) (l : list A) : nat :=
  bisect_loop left l (length l) 0 (length l).

(** [range(i, j)] *)
Definition py_range (i j : Z) : list Z := seqZ i (j - i).

(** [enumerate(l, i)] *)
Fixpoint enumerate_from {A} (i : Z) (l : list A) : list (Z * A) :=
  match l with
  | [] => []
  | x :: l => (i, x) :: enumerate_from (i + 1) l
  end.

Section slices.
Context {A : Type}.
Implicit Types l : list A.

Lemma slice_bound_nonneg n i : 0 <= i → slice_bound n i = Nat.min (Z.to_nat i) n.
Proof. intros. unfold slice_bound. destruct (Z.ltb_spec i 0); lia. Qed.

Lemma py_slice_take l j : 0 <= j → py_slice l 0 j = take (Z.to_nat j) l.
Proof.
  intros. unfold py_slice. rewrite !slice_bound_nonneg by lia.
  rewrite Nat.min_0_l, drop_0, Nat.sub_0_r.
  destruct (decide (Z.to_nat j ≤ length l)%nat).
  - by rewrite Nat.min_l by lia.
  - by rewrite Nat.min_r, !take_ge by lia.
Qed.

Lemma py_slice_nonneg l i j :
  0 <= i → 0 <= j → py_slice l i j = take (Z.to_nat (j - i)) (drop (Z.to_nat i) l).
Proof.
  intros. unfold py_slice. rewrite !slice_bound_nonneg by lia.
  destruct (decide (length l <= Z.to_nat i)%nat).
  { rewrite !(drop_ge l) by lia. by rewrite !take_nil. }
  rewrite (Nat.min_l (Z.to_nat i)) by lia.
  destruct (decide (Z.to_nat j ≤ length l)%nat).
  - f_equal. lia.
  - rewrite !take_ge; [done|rewrite length_drop; lia..].
Qed.

Lemma py_slice_drop l i :
  0 <= i → py_slice l i (Z.of_nat (length l)) = drop (Z.to_nat i) l.
Proof.
  intros. rewrite py_slice_nonneg by lia.
  apply take_ge. rewrite length_drop. lia.
Qed.

Lemma py_index_nonneg l i : 0 <= i → py_index l i = l !! Z.to_nat i.
Proof. intros. unfold py_index. destruct (Z.ltb_spec i 0); [lia|done]. Qed.

Lemma py_set_nonneg l i x :
  0 <= i < Z.of_nat (length l) → py_set l i x = Some (<[Z.to_nat i := x]> l).
Proof.
  intros. unfold py_set. destruct (Z.ltb_spec i 0); [lia|].
  by destruct (Z.leb_spec 0 i), (Z.ltb_spec i (Z.of_nat (length l))); try lia.
Qed.

Lemma bisect_loop_spec (left : A → bool) l1 l2 fuel lo hi :
  Forall (λ x, left x = false) l1 → Forall (λ x, left x = true) l2 →
  (lo <= length l1 <= hi)%nat → (hi <= length (l1 ++ l2))%nat → (hi - lo <= fuel)%nat →
  bisect_loop left (l1 ++ l2) fuel lo hi = length l1.
Proof.
  intros H1 H2. revert lo hi. induction fuel as [|fuel IH]; intros lo hi ? Hhi ?; cbn [bisect_loop].
  { lia. }
  destruct (Nat.ltb_spec lo hi); [|lia].
  assert (lo <= (lo + hi) / 2 < hi)%nat as Hmid.
  { split; [apply Nat.div_le_lower_bound|apply Nat.Div0.div_lt_upper_bound]; lia. }
  destruct (lookup_lt_is_Some_2 (l1 ++ l2) ((lo + hi) / 2)) as [x Hx]; [lia|].
  rewrite Hx. apply lookup_app_Some in Hx as [Hx|[Hge Hx]].
  - rewrite Forall_lookup in H1. rewrite (H1 _ _ Hx).
    apply lookup_lt_Some in Hx. apply IH; lia.
  - rewrite Forall_lookup in H2. rewrite (H2 _ _ Hx). apply IH; lia.
Qed.

(** On a list that the test splits, the search finds where. *)
Lemma bisect_spec (left : A → bool) l1 l2 :
  Forall (λ x, left x = false) l1 → Forall (λ x, left x = true) l2 →
  bisect left (l1 ++ l2) = length l1.
Proof. intros. apply bisect_loop_spec; rewrite ?length_app; auto with lia. Qed.

Lemma length_enumerate_from i l : length (enumerate_from i l) = length l.
Proof. revert i. induction l; intros; simpl; auto. Qed.

Lemma lookup_enumerate_from i l k :
  enumerate_from i l !! k = pair (i + Z.of_nat k) <$> l !! k.
Proof.
  revert i k. induction l as [|x l IH]; intros i [|k]; simpl; try done.
  - by rewrite Z.add_0_r.
  - rewrite IH. do 2 f_equal. lia.
Qed.
End slices.

Lemma length_zeros n : length (zeros n) = Z.to_nat n.
Proof. apply length_replicate. Qed.

Lemma zeros_nonpos n : n <= 0 → zeros n = [].
Proof. intros. unfold zeros. by rewrite Z2Nat.nonpos. Qed.

Lemma length_py_range i j : length (py_range i j) = Z.to_nat (j - i).
Proof. apply length_seqZ. Qed.

Lemma elem_of_py_range i j k : k ∈ py_range i j ↔ i <= k < j.
Proof. unfold py_range. rewrite elem_of_seqZ. lia. Qed.

Lemma lookup_py_range i j k x :
  py_range i j !! k = Some x ↔ x = i + Z.of_nat k ∧ x < j.
Proof. unfold py_range. rewrite lookup_seqZ. lia. Qed.

(** ** Dictionaries whose iteration order is observable *)

(** A Python dict as its items in insertion order. *)
Definition odict (K V : Type) := list (K * V).

Section odict.
Context {K V : Type} `{EqDecision K}.
Implicit Types d : odict K V.

(** [d.get(k)] *)
Fixpoint od_get d (k : K) : option V :=
  match d with
  | [] => None
  | (k', v) :: d => if decide (k = k') then Some v else od_get d k
  end.
(** [d[k] = v]: a key that is there keeps its position. *)
Fixpoint od_set d (k : K) (v : V) : odict K V :=
  match d with
  | [] => [(k, v)]
  | (k', v') :: d => if decide (k = k') then (k, v) :: d else (k', v') :: od_set d k v
  end.
(** [d.pop(k, None)], [del d[k]] *)
Fixpoint od_del d (k : K) : odict K V :=
  match d with
  | [] => []
  | (k', v') :: d => if decide (k = k') then od_del d k else (k', v') :: od_del d k
  end.
Definition od_keys d : list K := d.*1.
Definition od_values d : list V := d.*2.
(** [k in d] *)
Definition od_mem d (k : K) : bool := bool_decide (is_Some (od_get d k)).
(** [{**d, **items}], [d.update(items)] *)
Definition od_update d (items : list (K * V)) : odict K V :=
  foldl (λ d kv, od_set d kv.1 kv.2) d items.

Lemma od_get_set d k v : od_get (od_set d k v) k = Some v.
Proof. induction d as [|[k' v'] d IH]; simpl; repeat (case_decide; simpl; try done). Qed.

Lemma od_get_set_ne d k k' v : k ≠ k' → od_get (od_set d k v) k' = od_get d k'.
Proof.
  intros. induction d as [|[k2 v2] d IH]; simpl; repeat (case_decide; simplify_eq/=; try done).
Qed.

Lemma od_get_elem d k v : od_get d k = Some v → (k, v) ∈ d.
Proof.
  induction d as [|[k' v'] d IH]; simpl; [done|]. case_decide; intros; simplify_eq; set_solver.
Qed.

Lemma od_get_None d k : od_get d k = None ↔ k ∉ od_keys d.
Proof.
  induction d as [|[k' v'] d IH]; simpl; [set_solver|].
  case_decide; subst; rewrite ?not_elem_of_cons; naive_solver.
Qed.

Lemma od_elem_get d k v : NoDup (od_keys d) → (k, v) ∈ d → od_get d k = Some v.
Proof.
  induction d as [|[k' v'] d IH]; simpl; [set_solver|].
  rewrite NoDup_cons, elem_of_cons. intros [Hk ?] [?|Hin]; simplify_eq.
  - by case_decide.
  - case_decide as E; [|auto]. subst. destruct Hk.
    apply list_elem_of_fmap. by exists (k', v).
Qed.

Lemma od_keys_set d k v :
  od_keys (od_set d k v) = if decide (k ∈ od_keys d) then od_keys d else od_keys d ++ [k].
Proof.
  induction d as [|[k' v'] d IH]; simpl; [done|].
  destruct (decide (k = k')) as [->|Hk]; simpl.
  - by rewrite decide_True by (apply elem_of_cons; auto).
  - rewrite IH. repeat case_decide; set_solver.
Qed.

Lemma od_set_NoDup d k v : NoDup (od_keys d) → NoDup (od_keys (od_set d k v)).
Proof.
  rewrite od_keys_set. case_decide; [done|]. intros. apply NoDup_app.
  split_and!; [done|set_solver|apply NoDup_singleton].
Qed.

Lemma od_elem_del d k k' v : (k', v) ∈ od_del d k ↔ k' ≠ k ∧ (k', v) ∈ d.
Proof.
  induction d as [|[k2 v2] d IH]; simpl; [set_solver|].
  case_decide; subst; rewrite ?elem_of_cons, IH; naive_solver.
Qed.

Lemma od_keys_del d k k' : k' ∈ od_keys (od_del d k) ↔ k' ≠ k ∧ k' ∈ od_keys d.
Proof.
  induction d as [|[k2 v2] d IH]; simpl; [set_solver|].
  case_decide; subst; simpl; rewrite ?elem_of_cons, IH; naive_solver.
Qed.

Lemma od_get_del d k : od_get (od_del d k) k = None.
Proof. apply od_get_None. rewrite od_keys_del. naive_solver. Qed.

Lemma od_get_del_ne d k k' : k ≠ k' → od_get (od_del d k) k' = od_get d k'.
Proof.
  intros. induction d as [|[k2 v2] d IH]; simpl; [done|]; repeat (case_decide; simplify_eq/=; try done).
Qed.

Lemma od_del_NoDup d k : NoDup (od_keys d) → NoDup (od_keys (od_del d k)).
Proof.
  induction d as [|[k' v'] d IH]; simpl; [done|]. rewrite NoDup_cons. intros [??].
  case_decide; simpl; [auto|]. rewrite NoDup_cons, od_keys_del. naive_solver.
Qed.

Lemma od_mem_true d k : od_mem d k = true ↔ is_Some (od_get d k).
Proof. apply bool_decide_eq_true. Qed.

Lemma od_update_NoDup d items : NoDup (od_keys d) → NoDup (od_keys (od_update d items)).
Proof.
  unfold od_update. revert d. induction items; intros; simpl; [done|]. auto using od_set_NoDup.
Qed.

Lemma od_get_Some d k v : NoDup (od_keys d) → od_get d k = Some v ↔ (k, v) ∈ d.
Proof. split; [apply od_get_elem|by apply od_elem_get]. Qed.

Lemma od_get_set_case d k k' v :
  od_get (od_set d k v) k' = if decide (k' = k) then Some v else od_get d k'.
Proof. case_decide; subst; [apply od_get_set|by apply od_get_set_ne]. Qed.

Lemma od_get_is_Some d k : is_Some (od_get d k) ↔ k ∈ od_keys d.
Proof.
  destruct (decide (k ∈ od_keys d)) as [Hk|Hk].
  - split; [done|]. intros _. destruct (od_get d k) eqn:E; [eauto|].
    by apply od_get_None in E.
  - apply od_get_None in Hk as Hn. rewrite Hn. split; [by intros [? [=]]|done].
Qed.

Lemma od_set_fresh d k v : k ∉ od_keys d → od_set d k v = d ++ [(k, v)].
Proof.
  induction d as [|[k' v'] d IH]; cbn; [done|]. rewrite not_elem_of_cons.
  intros [Hk Hd]. rewrite decide_False by done. by rewrite IH.
Qed.

Lemma od_set_same d k v : od_get d k = Some v → od_set d k v = d.
Proof.
  induction d as [|[k' v'] d IH]; cbn; [done|].
  case_decide as E; intros Hv; [subst; by injection Hv as ->|]. by rewrite IH.
Qed.

Lemma od_keys_length d : length (od_keys d) = length d.
Proof. apply length_map. Qed.

(** A dict made of items whose keys are distinct is these items. *)
Lemma od_update_fresh d items :
  NoDup (od_keys d ++ items.*1) → od_update d items = d ++ items.
Proof.
  revert d. induction items as [|[k v] items IH]; intros d Hd; cbn; [by rewrite app_nil_r|].
  change (od_update (od_set d k v) items = d ++ (k, v) :: items).
  assert (k ∉ od_keys d) as Hk.
  { apply NoDup_app in Hd as (_ & Hd & _). intros ?. eapply Hd; [done|]. by left. }
  rewrite od_set_fresh by done. rewrite IH.
  - by rewrite <-app_assoc.
  - unfold od_keys in *. by rewrite fmap_app, <-app_assoc.
Qed.
End odict.

#[global] Instance odict_eq_dec {K V} `{EqDecision K, EqDecision V} : EqDecision (odict K V).
Proof. unfold odict. apply _. Defined.

(** ** [sorted] *)

Section py_sorted.
Context {A : Type} (leb : A → A → bool).

(** [x] goes after the elements that are not greater than it, so that the sort
    is stable as Python's is. *)
Fixpoint sorted_insert (x : A) (l : list A) : list A :=
  match l with
  | [] => [x]
  | y :: l => if leb y x then y :: sorted_insert x l else x :: y :: l
  end.
Definition py_sorted (l : list A) : list A := foldl (flip sorted_insert) [] l.

Lemma sorted_insert_Permutation x l : sorted_insert x l ≡ₚ x :: l.
Proof.
  induction l as [|y l IH]; simpl; [done|]. destruct (leb y x); [|done].
  rewrite IH. apply Permutation_swap.
Qed.

Lemma py_sorted_snoc l x : py_sorted (l ++ [x]) = sorted_insert x (py_sorted l).
Proof. unfold py_sorted. by rewrite foldl_app. Qed.

Lemma py_sorted_Permutation l : py_sorted l ≡ₚ l.
Proof.
  induction l as [|x l IH] using rev_ind; [done|].
  rewrite py_sorted_snoc, sorted_insert_Permutation, IH. apply Permutation_cons_append.
Qed.

Lemma elem_of_py_sorted x l : x ∈ py_sorted l ↔ x ∈ l.
Proof. by rewrite py_sorted_Permutation. Qed.

(** Inserting splits the list where it inserts. *)
Lemma sorted_insert_split x l :
  ∃ l1 l2, l = l1 ++ l2 ∧ sorted_insert x l = l1 ++ x :: l2.
Proof.
  induction l as [|y l IH]; simpl; [by exists [], []|].
  destruct (leb y x); [|by exists [], (y :: l)].
  destruct IH as (l1&l2&->&->). by exists (y :: l1), l2.
Qed.

Context (leb_total : ∀ x y, leb x y = true ∨ leb y x = true)
  (leb_trans : ∀ x y z, leb x y = true → leb y z = true → leb x z = true).

Lemma sorted_insert_last x l : (∀ y, y ∈ l → leb y x = true) → sorted_insert x l = l ++ [x].
Proof.
  induction l as [|y l IH]; simpl; intros Hl; [done|].
  rewrite Hl by set_solver. rewrite IH; [done|set_solver].
Qed.

Lemma py_sorted_sorted l : StronglySorted (λ x y, leb x y = true) (py_sorted l).
Proof.
  induction l as [|x l IH] using rev_ind; [constructor|]. rewrite py_sorted_snoc.
  induction IH as [|y l' Hs IH2 Hy]; simpl; [repeat constructor|].
  destruct (leb y x) eqn:Hyx.
  - constructor; [done|]. rewrite sorted_insert_Permutation. by constructor.
  - assert (leb x y = true) as Hxy by (destruct (leb_total x y); congruence).
    constructor; [by constructor|]. constructor; [done|].
    eapply Forall_impl; [done|]. eauto.
Qed.

(** A list that is sorted already is left as it is. *)
Lemma py_sorted_id l : StronglySorted (λ x y, leb x y = true) l → py_sorted l = l.
Proof.
  induction l as [|x l IH] using rev_ind; [done|]. intros Hs.
  rewrite py_sorted_snoc, IH.
  - apply sorted_insert_last. intros y Hy.
    clear IH. induction l as [|z l IH]; [set_solver|]. simpl in Hs.
    apply StronglySorted_inv in Hs as [Hs Hz]. apply elem_of_cons in Hy as [->|Hy]; [|auto].
    rewrite Forall_app, Forall_singleton in Hz. apply Hz.
  - clear IH. induction l as [|z l IH]; [constructor|]. simpl in Hs.
    apply StronglySorted_inv in Hs as [Hs Hz]. constructor; [auto|].
    by apply Forall_app in Hz as [? _].
Qed.
End py_sorted.
