(* ===== verification/PyString.v ===== *)
(** Python strings as the code uses them: [in], [split], [join] and [startswith],
    with the lemmas on concatenation that the names of the entries need. *)

From Stdlib Require Import Ascii.
From S2P Require Import Prelude.

#[local] Open Scope string_scope.

(** Characters the code looks for. *)
Definition chr_dot : ascii := "."%char.
Definition chr_paren : ascii := "("%char.
Definition chr_slash : ascii := "/"%char.
Definition chr_null : ascii := "000"%char.

(** [c in s] for a character. *)
Fixpoint str_has (c : ascii) (s : string) : bool :=
  match s with
  | EmptyString => false
  | String a s => bool_decide (c = a) || str_has c s
  end.

(** [s[1:]] *)
Definition str_tail (s : string) : string :=
  match s with EmptyString => "" | String _ s => s end.

(** [s.split(c)] for a separator of one character. *)
Fixpoint split_on (c : ascii) (s : string) : list string :=
  match s with
  | EmptyString => [""]
  | String a s =>
      if bool_decide (a = c) then "" :: split_on c s
      else match split_on c s with
           | w :: l => String a w :: l
           | [] => [String a ""]
           end
  end.

(** [c.join(l)] *)
Fixpoint str_join (sep : string) (l : list string) : string :=
  match l with
  | [] => ""
  | [w] => w
  | w :: l => w +:+ sep +:+ str_join sep l
  end.

(** [s.startswith(p)], and the rest of the string when it does. *)
Fixpoint strip_prefix (p s : string) : option string :=
  match p, s with
  | EmptyString, _ => Some s
  | String a p, String b s => if bool_decide (a = b) then strip_prefix p s else None
  | String _ _, EmptyString => None
  end.

(** ** Concatenation *)

Lemma str_app_cons x (a b : string) : String x a +:+ b = String x (a +:+ b).
Proof. done. Qed.

Lemma str_app_empty (b : string) : "" +:+ b = b.
Proof. done. Qed.

(** [simpl] for concatenation, which stdpp keeps folded. *)
Ltac str_simpl := repeat progress (cbn; rewrite ?str_app_cons, ?str_app_empty in * ).

Lemma str_app_assoc (a b c : string) : (a +:+ b) +:+ c = a +:+ b +:+ c.
Proof. induction a as [|x a IH]; str_simpl; [done|]. by rewrite ?IH. Qed.

Lemma str_app_nil_r (a : string) : a +:+ "" = a.
Proof. induction a as [|x a IH]; str_simpl; [done|]. by rewrite ?IH. Qed.

Lemma str_length_app (a b : string) :
  String.length (a +:+ b) = (String.length a + String.length b)%nat.
Proof. induction a as [|x a IH]; str_simpl; [done|]. by rewrite ?IH. Qed.

Lemma str_app_inj (a a' b b' : string) :
  String.length a = String.length a' → a +:+ b = a' +:+ b' → a = a' ∧ b = b'.
Proof.
  revert a'. induction a as [|x a IH]; intros [|x' a'] Hl; cbn in Hl; str_simpl; try done.
  intros [= -> E]. injection Hl as Hl. by destruct (IH a' Hl E) as [-> ->].
Qed.

Lemma str_app_inj_r (a a' b : string) : a +:+ b = a' +:+ b → a = a'.
Proof.
  intros E. apply (str_app_inj a a' b b); [|done].
  apply (f_equal String.length) in E. rewrite !str_length_app in E. lia.
Qed.

Lemma strip_prefix_Some p s r : strip_prefix p s = Some r ↔ s = p +:+ r.
Proof.
  revert s. induction p as [|a p IH]; intros s; str_simpl; [naive_solver|].
  destruct s as [|b s]; [by split|]. case_bool_decide; subst; [rewrite IH|]; naive_solver.
Qed.

Lemma strip_prefix_app p r : strip_prefix p (p +:+ r) = Some r.
Proof. by apply strip_prefix_Some. Qed.

(** ** Characters *)

Lemma str_has_app c (a b : string) : str_has c (a +:+ b) = str_has c a || str_has c b.
Proof. induction a as [|x a IH]; str_simpl; [done|]. by rewrite IH, orb_assoc. Qed.

(** A string is cut at the first occurrence of a character in one way. *)
Lemma str_cut_unique c (a a' b b' : string) :
  str_has c a = false → str_has c a' = false →
  a +:+ String c b = a' +:+ String c b' → a = a' ∧ b = b'.
Proof.
  revert a'. induction a as [|x a IH]; intros [|x' a'] Ha Ha' E; cbn in Ha, Ha'; str_simpl.
  - by injection E.
  - injection E as <- _. by rewrite bool_decide_eq_true_2 in Ha'.
  - injection E as -> _. by rewrite bool_decide_eq_true_2 in Ha.
  - injection E as -> E. apply orb_false_iff in Ha as [_ Ha], Ha' as [_ Ha'].
    by destruct (IH a' Ha Ha' E) as [-> ->].
Qed.

Lemma str_has_cut c (s : string) :
  str_has c s = true → ∃ a b, s = a +:+ String c b ∧ str_has c a = false.
Proof.
  induction s as [|x s IH]; cbn; [done|]. intros H.
  destruct (decide (c = x)) as [->|Hx].
  - by exists "", s.
  - rewrite bool_decide_eq_false_2 in H by done.
    destruct (IH H) as (a & b & -> & Ha). exists (String x a), b. split; [done|].
    cbn. by rewrite bool_decide_eq_false_2.
Qed.

(** ** [split] and [join] *)

Lemma split_on_not_nil c s : split_on c s ≠ [].
Proof. destruct s as [|a s]; cbn; [done|]. repeat case_match; done. Qed.

Lemma split_on_none c s : str_has c s = false → split_on c s = [s].
Proof.
  induction s as [|a s IH]; cbn; [done|]. intros [Ha Hs]%orb_false_iff.
  rewrite bool_decide_eq_false in Ha. rewrite bool_decide_eq_false_2 by congruence.
  by rewrite IH.
Qed.

Lemma split_on_app c a b :
  str_has c a = false → split_on c (a +:+ String c b) = a :: split_on c b.
Proof.
  induction a as [|x a IH]; str_simpl; [by rewrite bool_decide_eq_true_2|].
  intros [Ha Hs]%orb_false_iff. rewrite bool_decide_eq_false in Ha.
  rewrite bool_decide_eq_false_2 by congruence. by rewrite IH.
Qed.

Lemma str_join_cons sep w l :
  l ≠ [] → str_join sep (w :: l) = w +:+ sep +:+ str_join sep l.
Proof. by destruct l. Qed.

Lemma join_split c s : str_join (String c "") (split_on c s) = s.
Proof.
  induction s as [|a s IH]; cbn; [done|]. case_bool_decide; subst.
  - rewrite str_join_cons by apply split_on_not_nil. str_simpl. by rewrite IH.
  - destruct (split_on c s) as [|w l] eqn:E; [by apply split_on_not_nil in E|].
    rewrite <-IH. by destruct l.
Qed.

Lemma split_join c l :
  l ≠ [] → Forall (λ w, str_has c w = false) l → split_on c (str_join (String c "") l) = l.
Proof.
  intros Hl. induction 1 as [|w l Hw Hws IH]; [done|]. destruct l as [|w' l].
  - cbn. by apply split_on_none.
  - rewrite str_join_cons, str_app_cons, str_app_empty by done.
    rewrite split_on_app by done. by rewrite IH.
Qed.

Lemma split_on_parts c s : Forall (λ w, str_has c w = false) (split_on c s).
Proof.
  induction s as [|a s IH]; cbn; [by repeat constructor|].
  case_bool_decide as Ha; [by constructor|].
  destruct (split_on c s) as [|w l]; cbn.
  - repeat constructor. cbn. by rewrite bool_decide_eq_false_2 by congruence.
  - apply Forall_cons in IH as [Hw Hl]. constructor; [|done]. cbn.
    by rewrite bool_decide_eq_false_2 by congruence.
Qed.
