(* ===== verification/Triples.v ===== *)
(** Hoare triples for state-passing code that may raise: the state reached has the
    first postcondition after a value, the second one after an exception. *)

From S2P Require Import Prelude.

Section triple.
Context {S E : Type}.

Definition triple {A} (P : S → Prop) (m : stM S E A) (Q : A → S → Prop) (X : E → S → Prop) : Prop :=
  ∀ s, P s → match m s with (s', Ok a) => Q a s' | (s', Err e) => X e s' end.

Lemma triple_run {A} P (m : stM S E A) Q X s s' r :
  triple P m Q X → P s → m s = (s', r) → match r with Ok a => Q a s' | Err e => X e s' end.
Proof. intros Hm HP Hr. specialize (Hm s HP). rewrite Hr in Hm. by destruct r. Qed.

Lemma triple_conseq {A} (P P' : S → Prop) (m : stM S E A) (Q Q' : A → S → Prop) (X X' : E → S → Prop) :
  (∀ s, P' s → P s) → (∀ a s, Q a s → Q' a s) → (∀ e s, X e s → X' e s) →
  triple P m Q X → triple P' m Q' X'.
Proof.
  intros HP HQ HX Hm s Hs. specialize (Hm s (HP s Hs)). destruct (m s) as [s' [a|e]]; auto.
Qed.

Lemma triple_pre {A} (P P' : S → Prop) (m : stM S E A) Q X :
  (∀ s, P' s → P s) → triple P m Q X → triple P' m Q X.
Proof. intros HP Hm s Hs. by apply Hm, HP. Qed.
Lemma triple_post {A} P (m : stM S E A) (Q Q' : A → S → Prop) X :
  triple P m Q X → (∀ a s, Q a s → Q' a s) → triple P m Q' X.
Proof. intros Hm HQ. by eapply triple_conseq; [| | |apply Hm]. Qed.

Lemma triple_bind {A B} P (m : stM S E A) (f : A → stM S E B) R Q X :
  triple P m R X → (∀ a, triple (R a) (f a) Q X) → triple P (m ≫= f) Q X.
Proof.
  intros Hm Hf s Hs. specialize (Hm s Hs). unfold mbind, stM_bind.
  destruct (m s) as [s' [a|e]]; [by apply Hf|done].
Qed.
Lemma triple_ret {A} (a : A) (Q : A → S → Prop) X : triple (Q a) (mret a) Q X.
Proof. by intros s Hs. Qed.
Lemma triple_ret' {A} (a : A) (P : S → Prop) (Q : A → S → Prop) X :
  (∀ s, P s → Q a s) → triple P (mret a) Q X.
Proof. intros HQ s Hs. by apply HQ. Qed.
Lemma triple_throw {A} (e : E) P (Q : A → S → Prop) X :
  (∀ s, P s → X e s) → triple P (mthrow e) Q X.
Proof. intros HX s Hs. by apply HX. Qed.
Lemma triple_gets {A} (f : S → A) P (X : E → S → Prop) :
  triple P (gets f) (λ a s, P s ∧ a = f s) X.
Proof. by intros s Hs. Qed.
Lemma triple_modify (f : S → S) P Q (X : E → S → Prop) :
  (∀ s, P s → Q tt (f s)) → triple P (modify f) Q X.
Proof. intros HQ s Hs. by apply HQ. Qed.
Lemma triple_raise_if b (e : E) (P : S → Prop) X :
  (∀ s, P s → X e s) → triple P (raise_if b e) (λ _ s, P s ∧ b = false) X.
Proof. intros HX s Hs. unfold raise_if. destruct b; cbn; auto. Qed.
Lemma triple_of_option {A} (e : E) (o : option A) (P : S → Prop) X :
  (∀ s, P s → X e s) → triple P (of_option e o) (λ a s, P s ∧ o = Some a) X.
Proof. intros HX s Hs. unfold of_option. destruct o; cbn; auto. Qed.
Lemma triple_lift_result {A} (r : result E A) (P : S → Prop) X :
  (∀ s e, P s → X e s) → triple P (lift_result r) (λ a s, P s ∧ r = Ok a) X.
Proof. intros HX s Hs. unfold lift_result. destruct r; cbn; auto. Qed.
Lemma triple_pure {A} (φ : Prop) P (m : stM S E A) Q X :
  (φ → triple P m Q X) → triple (λ s, P s ∧ φ) m Q X.
Proof. intros Hm s [Hs Hφ]. by apply Hm. Qed.
Lemma triple_for_each {A} (I : S → Prop) (f : A → stM S E unit) l X :
  (∀ x, x ∈ l → triple I (f x) (λ _, I) X) → triple I (for_each f l) (λ _, I) X.
Proof.
  induction l as [|x l IH]; cbn; intros Hf; [by apply triple_ret'|].
  eapply triple_bind; [apply Hf; by left|]. intros []. apply IH. intros y Hy. apply Hf. by right.
Qed.
End triple.
