(* ===== verification/Types.v ===== *)
(** Identifiers and enumerations shared by the client and the server:
    [guardata/types.py], [guardata/api/protocol/types.py],
    [guardata/api/protocol/realm.py], [guardata/api/data/certif.py] and the
    time comparison of [guardata/utils.py]. *)

From S2P Require Import Prelude.

(** A UUID is a 128-bit number; [EntryID], [BlockID], [ChunkID] and the ids of
    vlobs, blocks, realms and invitations are all UUIDs. *)
Abbreviation UUID := N (only parsing).
Abbreviation EntryID := N (only parsing).
Abbreviation BlockID := N (only parsing).
Abbreviation ChunkID := N (only parsing).

(** [OrganizationID], [UserID], [DeviceName] and [EntryName] are validated
    strings. *)
Abbreviation OrganizationID := string (only parsing).
Abbreviation UserID := string (only parsing).
Abbreviation DeviceName := string (only parsing).
Abbreviation EntryName := string (only parsing).

(** A point in time, in microseconds. *)
Abbreviation DateTime := Z (only parsing).

(** [DeviceID]: the string [user_id@device_name], kept as its two parts. *)
Record DeviceID := mkDeviceID { user_id : UserID; device_name : DeviceName }.

#[export] Instance DeviceID_eq_dec : EqDecision DeviceID.
Proof. solve_decision. Defined.
#[export] Instance DeviceID_countable : Countable DeviceID.
Proof.
  refine (inj_countable' (λ d, (user_id d, device_name d))
            (λ p, mkDeviceID p.1 p.2) _); by intros [].
Defined.

(** [str(device_id)] *)
Definition device_id_str (d : DeviceID) : string :=
  user_id d +:+ "@" +:+ device_name d.

(** [UserID.to_device_id] *)
Definition to_device_id (u : UserID) (name : DeviceName) : DeviceID := mkDeviceID u name.

Inductive RealmRole := OWNER | MANAGER | CONTRIBUTOR | READER.
#[export] Instance RealmRole_eq_dec : EqDecision RealmRole.
Proof. solve_decision. Defined.

Inductive MaintenanceType := GARBAGE_COLLECTION | REENCRYPTION.
#[export] Instance MaintenanceType_eq_dec : EqDecision MaintenanceType.
Proof. solve_decision. Defined.

Inductive UserProfile := ADMIN | STANDARD | OUTSIDER.
#[export] Instance UserProfile_eq_dec : EqDecision UserProfile.
Proof. solve_decision. Defined.

(** [HumanHandle]: two handles are equal when their emails are. *)
Record HumanHandle := mkHumanHandle { email : string; label : string }.
#[export] Instance HumanHandle_eq_dec : EqDecision HumanHandle.
Proof. solve_decision. Defined.

(** [HumanHandle.__eq__] *)
Definition human_handle_eqb (a b : HumanHandle) : bool := bool_decide (email a = email b).

(** [x in (r1, r2, ...)] for a role that may be [None]. *)
Definition role_in (r : option RealmRole) (allowed : list RealmRole) : bool :=
  match r with
  | Some r => bool_decide (r ∈ allowed)
  | None => false
  end.

(** [timestamps_in_the_ballpark]: the difference is below [TIMESTAMP_MAX_DT]
    seconds. *)
Definition TIMESTAMP_MAX_DT : Z := 30 * 60.
Definition timestamps_in_the_ballpark (ts1 ts2 : DateTime) : bool :=
  Z.abs (ts1 - ts2) <? TIMESTAMP_MAX_DT * 1000000.

Lemma role_in_spec r l : role_in r l = true ↔ ∃ x, r = Some x ∧ x ∈ l.
Proof.
  destruct r; simpl; [rewrite bool_decide_eq_true|]; naive_solver.
Qed.

Lemma ballpark_sym ts1 ts2 :
  timestamps_in_the_ballpark ts1 ts2 = timestamps_in_the_ballpark ts2 ts1.
Proof. unfold timestamps_in_the_ballpark. f_equal. lia. Qed.
