(* ===== verification/ApiManifest.v ===== *)
(** The data the server stores, encrypted, for each entry: the remote manifests
    of [guardata/api/data/manifest.py]. *)

From S2P Require Import Prelude Types.

(** [SecretKey] and [HashDigest] wrap libsodium values: byte strings here. *)
Abbreviation SecretKey := bytes (only parsing).
Abbreviation HashDigest := bytes (only parsing).

(** [BlockAccess]: where a block of an uploaded file is, and how to read it. *)
Record BlockAccess := mkBlockAccess {
  access_id : BlockID;
  access_key : SecretKey;
  access_offset : Z;
  access_size : Z;
  access_digest : HashDigest }.
#[export] Instance BlockAccess_eq_dec : EqDecision BlockAccess.
Proof. solve_decision. Defined.

(** [WorkspaceEntry] *)
Record WorkspaceEntry := mkWorkspaceEntry {
  we_name : string;
  we_id : EntryID;
  we_key : SecretKey;
  we_encryption_revision : Z;
  we_encrypted_on : DateTime;
  we_role_cached_on : DateTime;
  we_role : option RealmRole }.
#[export] Instance WorkspaceEntry_eq_dec : EqDecision WorkspaceEntry.
Proof. solve_decision. Defined.

(** [WorkspaceEntry.new]: the id, the key and the time are what [EntryID()],
    [SecretKey.generate()] and [pendulum_now()] return. *)
Definition workspace_entry_new (name : string) (id : EntryID) (key : SecretKey)
    (now : DateTime) : WorkspaceEntry :=
  {| we_name := name; we_id := id; we_key := key; we_encryption_revision := 1;
     we_encrypted_on := now; we_role_cached_on := now; we_role := Some OWNER |}.

(** [WorkspaceEntry.is_revoked] *)
Definition workspace_entry_is_revoked (we : WorkspaceEntry) : bool :=
  bool_decide (we_role we = None).

(** [FileManifest] *)
Record FileManifest := mkFileManifest {
  fim_author : DeviceID;
  fim_timestamp : DateTime;
  fim_id : EntryID;
  fim_parent : EntryID;
  fim_version : Z;
  fim_created : DateTime;
  fim_updated : DateTime;
  fim_size : Z;
  fim_blocksize : Z;
  fim_blocks : list BlockAccess }.
#[export] Instance FileManifest_eq_dec : EqDecision FileManifest.
Proof. solve_decision. Defined.

(** [FolderManifest] *)
Record FolderManifest := mkFolderManifest {
  fom_author : DeviceID;
  fom_timestamp : DateTime;
  fom_id : EntryID;
  fom_parent : EntryID;
  fom_version : Z;
  fom_created : DateTime;
  fom_updated : DateTime;
  fom_children : gmap EntryName EntryID }.
#[export] Instance FolderManifest_eq_dec : EqDecision FolderManifest.
Proof. solve_decision. Defined.

(** [WorkspaceManifest]: a folder without a parent, the root of its tree. *)
Record WorkspaceManifest := mkWorkspaceManifest {
  wm_author : DeviceID;
  wm_timestamp : DateTime;
  wm_id : EntryID;
  wm_version : Z;
  wm_created : DateTime;
  wm_updated : DateTime;
  wm_children : gmap EntryName EntryID }.
#[export] Instance WorkspaceManifest_eq_dec : EqDecision WorkspaceManifest.
Proof. solve_decision. Defined.

(** [UserManifest] *)
Record UserManifest := mkUserManifest {
  um_author : DeviceID;
  um_timestamp : DateTime;
  um_id : EntryID;
  um_version : Z;
  um_created : DateTime;
  um_updated : DateTime;
  um_last_processed_message : Z;
  um_workspaces : list WorkspaceEntry }.
#[export] Instance UserManifest_eq_dec : EqDecision UserManifest.
Proof. solve_decision. Defined.

(** [UserManifest.get_workspace_entry] *)
Definition um_get_workspace_entry (m : UserManifest) (workspace_id : EntryID)
    : option WorkspaceEntry :=
  head (filter (λ w, we_id w = workspace_id) (um_workspaces m)).

(** [BaseManifest] as the union of its subclasses. *)
Inductive RemoteManifest :=
| RFile (m : FileManifest)
| RFolder (m : FolderManifest)
| RWorkspace (m : WorkspaceManifest)
| RUser (m : UserManifest).
#[export] Instance RemoteManifest_eq_dec : EqDecision RemoteManifest.
Proof. solve_decision. Defined.
