(* ===== verification/Chunk.v ===== *)
(** Chunks of file data: class [Chunk] of [guardata/client/types/manifest.py],
    and the exceptions the client's file system code raises. *)

From S2P Require Import Prelude Types ApiManifest.

(** Python's own exceptions and those of [guardata/client/fs/exceptions.py]. *)
Inductive FSExn :=
| AssertionError
| IndexError
| KeyError
| TypeError
| AttributeError
| ValueError
| FSLocalMissError (id : UUID)
| FSInvalidFileDescriptor (fd : Z)
| FSEndOfFileError
| FSRemoteError
| FSFileConflictError (parent : EntryID) (remote : RemoteManifest)
| FSReshapingRequiredError (id : EntryID)
| FSNoAccessError | FSReadOnlyError | FSPermissionError | FSCrossDeviceError
| FSNotADirectoryError | FSIsADirectoryError | FSFileNotFoundError | FSFileExistsError
| FSDirectoryNotEmptyError
| FSError | FSRemoteOperationError | FSRemoteSyncError (id : EntryID)
| FSRemoteManifestNotFound (id : EntryID) | FSRemoteManifestNotFoundBadVersion (id : EntryID)
| FSRemoteManifestNotFoundBadTimestamp (id : EntryID)
| FSRemoteBlockNotFound (access : BlockAccess) | FSBackendOfflineError
| FSWorkspaceInMaintenance | FSBadEncryptionRevision
| FSWorkspaceNoAccess | FSWorkspaceNoReadAccess | FSWorkspaceNoWriteAccess
| FSUserNotFoundError | FSDeviceNotFoundError | FSInvalidTrustchainEror
| FSWorkspaceNotFoundError | FSSharingNotAllowedError | FSWorkspaceNotInMaintenance
| FSNoSynchronizationRequired (id : EntryID) | FSInvalidArgumentError
| FSWorkspaceTimestampedTooEarly | FSUnsupportedOperation | FSOffsetError
| NotImplementedError | FileExistsError | FSLocalStorageClosedError
| CryptoError | DataErrorRaised | BackendConnectionError | PythonRecursionError.
#[export] Instance FSExn_eq_dec : EqDecision FSExn.
Proof. solve_decision. Defined.

(** [assert b] *)
Definition py_assert (b : bool) : result FSExn unit :=
  if b then Ok tt else Err AssertionError.

(** [Chunk]: the raw data is stored under [c_id], spans
    [raw_offset, raw_offset + raw_size), and the chunk uses
    [start, stop) of it; all offsets are file offsets. *)
Record Chunk := mkChunk {
  c_id : ChunkID;
  c_start : Z;
  c_stop : Z;
  c_raw_offset : Z;
  c_raw_size : Z;
  c_access : option BlockAccess }.
#[export] Instance Chunk_eq_dec : EqDecision Chunk.
Proof. solve_decision. Defined.

(** [Chunk.is_pseudo_block] *)
Definition is_pseudo_block (c : Chunk) : bool :=
  if negb (c_start c =? c_raw_offset c) then false
  else if negb (c_stop c =? c_raw_offset c + c_raw_size c) then false
  else true.

(** [Chunk.is_block] *)
Definition is_block (c : Chunk) : bool :=
  match c_access c with
  | None => false
  | Some a =>
      if negb (is_pseudo_block c) then false
      else if negb (c_raw_offset c =? access_offset a) then false
      else if negb (c_raw_size c =? access_size a) then false
      else true
  end.

(** [Chunk.new]: [id] is what [ChunkID()] draws. *)
Definition chunk_new (id : ChunkID) (start stop : Z) : result FSExn Chunk :=
  _ ← py_assert (start <? stop);
  Ok {| c_id := id; c_start := start; c_stop := stop; c_raw_offset := start;
        c_raw_size := stop - start; c_access := None |}.

(** [Chunk.from_block_acess] *)
Definition from_block_acess (a : BlockAccess) : Chunk :=
  {| c_id := access_id a; c_raw_offset := access_offset a; c_raw_size := access_size a;
     c_start := access_offset a; c_stop := access_offset a + access_size a;
     c_access := Some a |}.

(** [chunk.evolve(start=...)], [chunk.evolve(stop=...)] and
    [chunk.evolve(access=...)]. *)
Definition evolve_start (c : Chunk) (start : Z) : Chunk :=
  mkChunk (c_id c) start (c_stop c) (c_raw_offset c) (c_raw_size c) (c_access c).
Definition evolve_stop (c : Chunk) (stop : Z) : Chunk :=
  mkChunk (c_id c) (c_start c) stop (c_raw_offset c) (c_raw_size c) (c_access c).
Definition evolve_access (c : Chunk) (a : BlockAccess) : Chunk :=
  mkChunk (c_id c) (c_start c) (c_stop c) (c_raw_offset c) (c_raw_size c) (Some a).

Section crypto.
(** [HashDigest.from_data], a libsodium hash. *)
Context (digest : bytes → HashDigest).

(** [Chunk.evolve_as_block]: [key] is what [SecretKey.generate()] draws. *)
Definition evolve_as_block (key : SecretKey) (c : Chunk) (data : bytes) : result FSExn Chunk :=
  if is_block c then Ok c
  else if negb (c_raw_offset c =? c_start c) then Err TypeError
  else
    Ok (evolve_access c
          {| access_id := c_id c; access_key := key; access_offset := c_start c;
             access_size := c_stop c - c_start c; access_digest := digest data |}).
End crypto.

(** [Chunk.get_block_access]: a block has an access, so that the last case is
    the one of [is_block] already. *)
Definition get_block_access (c : Chunk) : result FSExn BlockAccess :=
  if negb (is_block c) then Err TypeError
  else match c_access c with Some a => Ok a | None => Err TypeError end.

(** The rule of the class comment:
    [raw_offset <= start < stop <= raw_offset + raw_size]. *)
Definition chunk_ok (c : Chunk) : Prop :=
  c_raw_offset c <= c_start c < c_stop c ∧ c_stop c <= c_raw_offset c + c_raw_size c.

Lemma is_block_spec c :
  is_block c = true ↔
  ∃ a, c_access c = Some a ∧ c_start c = access_offset a ∧
       c_stop c = access_offset a + access_size a ∧
       c_raw_offset c = access_offset a ∧ c_raw_size c = access_size a.
Proof.
  unfold is_block, is_pseudo_block.
  destruct (c_access c) as [a|]; [|naive_solver].
  repeat match goal with |- context [?x =? ?y] => destruct (Z.eqb_spec x y) end; simpl.
  all: split; [try done|intros (a'&[= <-]&?&?&?&?); (done || lia)].
  intros _. exists a. split_and!; try done; lia.
Qed.
