(* ===== verification/LocalManifest.v ===== *)
(** The manifests the client keeps for each entry: [guardata/client/types/manifest.py].
    A file manifest lists the chunks of each block of the file; folder and
    workspace manifests share the code of [LocalFolderishManifestMixin], and are
    one record here whose [base] says which of the two they are; the user
    manifest lists the workspaces of the user. *)

From S2P Require Import Prelude Types ApiManifest Chunk.

(** ** [LocalFileManifest] *)

Record LocalFileManifest := mkLocalFileManifest {
  lf_base : FileManifest;
  lf_need_sync : bool;
  lf_updated : DateTime;
  lf_size : Z;
  lf_blocksize : Z;
  lf_blocks : list (list Chunk) }.
#[export] Instance LocalFileManifest_eq_dec : EqDecision LocalFileManifest.
Proof. solve_decision. Defined.

(** [BaseLocalManifest.id], [parent], [created], [base_version] and
    [is_placeholder], for a file. *)
Definition lf_id (m : LocalFileManifest) : EntryID := fim_id (lf_base m).
Definition lf_parent (m : LocalFileManifest) : EntryID := fim_parent (lf_base m).
Definition lf_created (m : LocalFileManifest) : DateTime := fim_created (lf_base m).
Definition lf_base_version (m : LocalFileManifest) : Z := fim_version (lf_base m).
Definition lf_is_placeholder (m : LocalFileManifest) : bool := lf_base_version m =? 0.

(** [LocalFileManifest.new_placeholder]: [id] is the given or the drawn id. *)
Definition file_new_placeholder (author : DeviceID) (parent id : EntryID) (now : DateTime)
    (blocksize : Z) : LocalFileManifest :=
  {| lf_base :=
       {| fim_author := author; fim_timestamp := now; fim_id := id; fim_parent := parent;
          fim_version := 0; fim_created := now; fim_updated := now;
          fim_size := 0; fim_blocksize := blocksize; fim_blocks := [] |};
     lf_need_sync := true; lf_updated := now; lf_blocksize := blocksize;
     lf_size := 0; lf_blocks := [] |}.

(** [manifest.evolve(blocks=...)], and
    [manifest.evolve_and_mark_updated(size=..., blocks=...)] at time [now]. *)
Definition file_evolve_blocks (m : LocalFileManifest) (blocks : list (list Chunk))
    : LocalFileManifest :=
  {| lf_base := lf_base m; lf_need_sync := lf_need_sync m; lf_updated := lf_updated m;
     lf_size := lf_size m; lf_blocksize := lf_blocksize m; lf_blocks := blocks |}.
Definition file_evolve_and_mark_updated (now : DateTime) (m : LocalFileManifest) (size : Z)
    (blocks : list (list Chunk)) : LocalFileManifest :=
  {| lf_base := lf_base m; lf_need_sync := true; lf_updated := now;
     lf_size := size; lf_blocksize := lf_blocksize m; lf_blocks := blocks |}.

(** [LocalFileManifest.get_chunks] *)
Definition get_chunks (m : LocalFileManifest) (block : Z) : list Chunk :=
  match py_index (lf_blocks m) block with
  | Some chunks => chunks
  | None => []
  end.

(** [LocalFileManifest.is_reshaped] *)
Definition is_reshaped (m : LocalFileManifest) : bool :=
  forallb (λ chunks,
    match chunks with
    | [c] => is_block c
    | _ => false
    end) (lf_blocks m).

(** [LocalFileManifest.assert_integrity]: the inner loop threads [current]
    over the chunks of a block, the outer one over the blocks. *)
Fixpoint assert_chunks_integrity (current : Z) (chunks : list Chunk) : result FSExn Z :=
  match chunks with
  | [] => Ok current
  | c :: chunks =>
      _ ← py_assert (c_start c =? current);
      _ ← py_assert (c_start c <? c_stop c);
      _ ← py_assert (c_raw_offset c <=? c_start c);
      _ ← py_assert (c_stop c <=? c_raw_offset c + c_raw_size c);
      assert_chunks_integrity (c_stop c) chunks
  end.
Fixpoint assert_blocks_integrity (blocksize : Z) (current : Z)
    (blocks : list (Z * list Chunk)) : result FSExn Z :=
  match blocks with
  | [] => Ok current
  | (i, chunks) :: blocks =>
      _ ← py_assert (i * blocksize =? current);
      _ ← py_assert (0 <? Z.of_nat (length chunks));
      current ← assert_chunks_integrity current chunks;
      assert_blocks_integrity blocksize current blocks
  end.
Definition assert_integrity (m : LocalFileManifest) : result FSExn unit :=
  current ← assert_blocks_integrity (lf_blocksize m) 0 (enumerate_from 0 (lf_blocks m));
  py_assert (current =? lf_size m).

(** [LocalFileManifest.from_remote] *)
Definition file_from_remote (remote : FileManifest) : LocalFileManifest :=
  {| lf_base := remote; lf_need_sync := false; lf_updated := fim_updated remote;
     lf_size := fim_size remote; lf_blocksize := fim_blocksize remote;
     lf_blocks := (λ a, [from_block_acess a]) <$> fim_blocks remote |}.

(** [tuple(chunks[0].get_block_access() for chunks in blocks)] *)
Fixpoint block_accesses (blocks : list (list Chunk)) : result FSExn (list BlockAccess) :=
  match blocks with
  | [] => Ok []
  | [] :: _ => Err IndexError
  | (c :: _) :: blocks =>
      a ← get_block_access c;
      l ← block_accesses blocks;
      Ok (a :: l)
  end.

(** [LocalFileManifest.to_remote] *)
Definition file_to_remote (m : LocalFileManifest) (author : DeviceID) (timestamp : DateTime)
    : result FSExn FileManifest :=
  _ ← assert_integrity m;
  _ ← py_assert (is_reshaped m);
  blocks ← block_accesses (lf_blocks m);
  Ok {| fim_author := author; fim_timestamp := timestamp; fim_id := lf_id m;
        fim_parent := lf_parent m; fim_version := lf_base_version m + 1;
        fim_created := lf_created m; fim_updated := lf_updated m;
        fim_size := lf_size m; fim_blocksize := lf_blocksize m; fim_blocks := blocks |}.

(** [remote.evolve(version=...)] *)
Definition fim_evolve_version (m : FileManifest) (version : Z) : FileManifest :=
  {| fim_author := fim_author m; fim_timestamp := fim_timestamp m; fim_id := fim_id m;
     fim_parent := fim_parent m; fim_version := version; fim_created := fim_created m;
     fim_updated := fim_updated m; fim_size := fim_size m;
     fim_blocksize := fim_blocksize m; fim_blocks := fim_blocks m |}.

(** [LocalFileManifest.match_remote] *)
Definition file_match_remote (m : LocalFileManifest) (remote : FileManifest)
    : result FSExn bool :=
  if negb (is_reshaped m) then Ok false
  else
    reference ← file_to_remote m (fim_author remote) (fim_timestamp remote);
    Ok (bool_decide (fim_evolve_version reference (fim_version remote) = remote)).

(** ** [LocalFolderManifest] and [LocalWorkspaceManifest] *)

Inductive FolderishBase :=
| BFolder (m : FolderManifest)
| BWorkspace (m : WorkspaceManifest).
#[export] Instance FolderishBase_eq_dec : EqDecision FolderishBase.
Proof. solve_decision. Defined.

Record LocalFolderish := mkLocalFolderish {
  fd_base : FolderishBase;
  fd_need_sync : bool;
  fd_updated : DateTime;
  fd_children : gmap EntryName EntryID;
  fd_confined_entries : gset EntryID;
  fd_filtered_entries : gset EntryID }.
#[export] Instance LocalFolderish_eq_dec : EqDecision LocalFolderish.
Proof. solve_decision. Defined.

(** The attributes of [base] the mixin and [BaseLocalManifest] read. *)
Definition base_children (b : FolderishBase) : gmap EntryName EntryID :=
  match b with BFolder m => fom_children m | BWorkspace m => wm_children m end.
Definition base_updated (b : FolderishBase) : DateTime :=
  match b with BFolder m => fom_updated m | BWorkspace m => wm_updated m end.
Definition base_id (b : FolderishBase) : EntryID :=
  match b with BFolder m => fom_id m | BWorkspace m => wm_id m end.
Definition base_version (b : FolderishBase) : Z :=
  match b with BFolder m => fom_version m | BWorkspace m => wm_version m end.
Definition base_created (b : FolderishBase) : DateTime :=
  match b with BFolder m => fom_created m | BWorkspace m => wm_created m end.
Definition base_author (b : FolderishBase) : DeviceID :=
  match b with BFolder m => fom_author m | BWorkspace m => wm_author m end.
Definition base_timestamp (b : FolderishBase) : DateTime :=
  match b with BFolder m => fom_timestamp m | BWorkspace m => wm_timestamp m end.

Definition fd_id (m : LocalFolderish) : EntryID := base_id (fd_base m).
Definition fd_base_version (m : LocalFolderish) : Z := base_version (fd_base m).
Definition fd_is_placeholder (m : LocalFolderish) : bool := fd_base_version m =? 0.

(** [LocalFolderManifest.new_placeholder] *)
Definition folder_new_placeholder (author : DeviceID) (parent id : EntryID) (now : DateTime)
    : LocalFolderish :=
  {| fd_base := BFolder
       {| fom_author := author; fom_timestamp := now; fom_id := id; fom_parent := parent;
          fom_version := 0; fom_created := now; fom_updated := now; fom_children := ∅ |};
     fd_need_sync := true; fd_updated := now; fd_children := ∅;
     fd_confined_entries := ∅; fd_filtered_entries := ∅ |}.

(** [LocalWorkspaceManifest.new_placeholder] *)
Definition workspace_new_placeholder (author : DeviceID) (id : EntryID) (now : DateTime)
    : LocalFolderish :=
  {| fd_base := BWorkspace
       {| wm_author := author; wm_timestamp := now; wm_id := id;
          wm_version := 0; wm_created := now; wm_updated := now; wm_children := ∅ |};
     fd_need_sync := true; fd_updated := now; fd_children := ∅;
     fd_confined_entries := ∅; fd_filtered_entries := ∅ |}.

(** [self.evolve(children=..., confined_entries=..., filtered_entries=...)] *)
Definition fd_evolve (m : LocalFolderish) (children : gmap EntryName EntryID)
    (confined filtered : gset EntryID) : LocalFolderish :=
  {| fd_base := fd_base m; fd_need_sync := fd_need_sync m; fd_updated := fd_updated m;
     fd_children := children; fd_confined_entries := confined;
     fd_filtered_entries := filtered |}.
(** [self.evolve_and_mark_updated(children=..., confined_entries=...)] *)
Definition fd_evolve_and_mark_updated (now : DateTime) (m : LocalFolderish)
    (children : gmap EntryName EntryID) (confined : gset EntryID) : LocalFolderish :=
  {| fd_base := fd_base m; fd_need_sync := true; fd_updated := now;
     fd_children := children; fd_confined_entries := confined;
     fd_filtered_entries := fd_filtered_entries m |}.

Section pattern_filter.
(** [pattern_filter.match], the user's compiled regular expression, and the
    time [pendulum_now()] returns. *)
Context (pattern_match : EntryName → bool) (now : DateTime).

(** The state of the loops of [evolve_children_and_mark_updated]: [updated],
    [new_children] and [new_confined_entries]. *)
Definition EvolveState : Type := bool * gmap EntryName EntryID * gset EntryID.

(** One turn of "Deal with removal first". *)
Definition evolve_remove (st : EvolveState) (item : EntryName * option EntryID)
    : EvolveState :=
  let '(updated, new_children, new_confined) := st in
  match new_children !! item.1 with
  | None => st
  | Some old_entry_id =>
      let new_children := delete item.1 new_children in
      if decide (old_entry_id ∈ new_confined)
      then (updated, new_children, new_confined ∖ {[old_entry_id]})
      else (true, new_children, new_confined)
  end.

(** One turn of "Deal with additions second". *)
Definition evolve_add (st : EvolveState) (item : EntryName * option EntryID) : EvolveState :=
  let '(updated, new_children, new_confined) := st in
  match item.2 with
  | None => st
  | Some entry_id =>
      let new_children := <[item.1 := entry_id]> new_children in
      if pattern_match item.1
      then (updated, new_children, {[entry_id]} ∪ new_confined)
      else (true, new_children, new_confined)
  end.

(** [set(data.values()).intersection(new_children.values())] is empty. *)
Definition values_disjoint (data : list (EntryName * option EntryID))
    (children : gmap EntryName EntryID) : bool :=
  forallb (λ item,
    match item.2 with
    | None => true
    | Some id => negb (bool_decide (id ∈ (map_to_list children).*2))
    end) data.

(** [evolve_children_and_mark_updated]: [data] lists the items of the dict. *)
Definition evolve_children_and_mark_updated (m : LocalFolderish)
    (data : list (EntryName * option EntryID)) : result FSExn LocalFolderish :=
  let st := foldl evolve_remove (false, fd_children m, fd_confined_entries m) data in
  _ ← py_assert (values_disjoint data st.1.2);
  let '(updated, new_children, new_confined) := foldl evolve_add st data in
  Ok (if negb updated
      then fd_evolve m new_children new_confined (fd_filtered_entries m)
      else fd_evolve_and_mark_updated now m new_children new_confined).

(** [_filter_confined_entries] *)
Definition filter_confined_entries (m : LocalFolderish) : LocalFolderish :=
  if decide (fd_confined_entries m = ∅) then m
  else
    fd_evolve m (filter (λ ni, ni.2 ∉ fd_confined_entries m) (fd_children m))
      ∅ (fd_filtered_entries m).

(** [_restore_confined_entries] *)
Definition restore_confined_entries (m other : LocalFolderish) : result FSExn LocalFolderish :=
  if decide (fd_confined_entries other = ∅ ∧ fd_filtered_entries m = ∅) then Ok m
  else
    let previously_confined_entries :=
      filter (λ ni, ni.2 ∈ fd_confined_entries other ∨ ni.2 ∈ fd_filtered_entries m)
        (fd_children other) in
    evolve_children_and_mark_updated m
      ((λ ni, (ni.1, Some ni.2)) <$> map_to_list previously_confined_entries).

(** [_filter_remote_entries] *)
Definition filter_remote_entries (m : LocalFolderish) : LocalFolderish :=
  let filtered_entries : gset EntryID :=
    list_to_set (map_to_list (filter (λ ni, pattern_match ni.1 = true) (fd_children m))).*2 in
  if decide (filtered_entries = ∅) then m
  else
    fd_evolve m (filter (λ ni, ni.2 ∉ filtered_entries) (fd_children m))
      (fd_confined_entries m) filtered_entries.

(** [_restore_filtered_entries] *)
Definition restore_filtered_entries (m : LocalFolderish) : LocalFolderish :=
  if decide (fd_filtered_entries m = ∅) then m
  else
    fd_evolve m
      (filter (λ ni, ni.2 ∈ fd_filtered_entries m) (base_children (fd_base m))
         ∪ fd_children m)
      (fd_confined_entries m) ∅.

(** [apply_filter] *)
Definition apply_filter (m : LocalFolderish) : result FSExn LocalFolderish :=
  let result := filter_confined_entries m in
  let result := restore_filtered_entries result in
  let result := filter_remote_entries result in
  restore_confined_entries result m.

(** [LocalFolderManifest.from_remote] and [LocalWorkspaceManifest.from_remote]
    have the same body, up to the class of [base]. *)
Definition folderish_from_remote (remote : FolderishBase)
    (local_manifest : option LocalFolderish) : result FSExn LocalFolderish :=
  let result :=
    {| fd_base := remote; fd_need_sync := false; fd_updated := base_updated remote;
       fd_children := base_children remote; fd_confined_entries := ∅;
       fd_filtered_entries := ∅ |} in
  let result := filter_remote_entries result in
  match local_manifest with
  | None => Ok result
  | Some local_manifest => restore_confined_entries result local_manifest
  end.
Definition folder_from_remote (remote : FolderManifest) (local_manifest : option LocalFolderish)
    : result FSExn LocalFolderish :=
  folderish_from_remote (BFolder remote) local_manifest.
Definition workspace_from_remote (remote : WorkspaceManifest)
    (local_manifest : option LocalFolderish) : result FSExn LocalFolderish :=
  folderish_from_remote (BWorkspace remote) local_manifest.

(** [to_remote]; the two classes differ in the [parent] attribute only. *)
Definition folderish_to_remote (m : LocalFolderish) (author : DeviceID) (timestamp : DateTime)
    : FolderishBase :=
  let processed_manifest := filter_confined_entries m in
  let processed_manifest := restore_filtered_entries processed_manifest in
  match fd_base m with
  | BFolder b => BFolder
      {| fom_author := author; fom_timestamp := timestamp; fom_id := fom_id b;
         fom_parent := fom_parent b; fom_version := fom_version b + 1;
         fom_created := fom_created b; fom_updated := fd_updated m;
         fom_children := fd_children processed_manifest |}
  | BWorkspace b => BWorkspace
      {| wm_author := author; wm_timestamp := timestamp; wm_id := wm_id b;
         wm_version := wm_version b + 1;
         wm_created := wm_created b; wm_updated := fd_updated m;
         wm_children := fd_children processed_manifest |}
  end.

(** [reference.evolve(version=...)] *)
Definition base_evolve_version (b : FolderishBase) (version : Z) : FolderishBase :=
  match b with
  | BFolder b => BFolder
      (mkFolderManifest (fom_author b) (fom_timestamp b) (fom_id b) (fom_parent b) version
         (fom_created b) (fom_updated b) (fom_children b))
  | BWorkspace b => BWorkspace
      (mkWorkspaceManifest (wm_author b) (wm_timestamp b) (wm_id b) version
         (wm_created b) (wm_updated b) (wm_children b))
  end.

(** [BaseLocalManifest.match_remote], for a folder or a workspace. *)
Definition folderish_match_remote (m : LocalFolderish) (remote : FolderishBase) : bool :=
  let reference := folderish_to_remote m (base_author remote) (base_timestamp remote) in
  bool_decide (base_evolve_version reference (base_version remote) = remote).
End pattern_filter.

(** ** [LocalUserManifest] *)

Record LocalUserManifest := mkLocalUserManifest {
  lu_base : UserManifest;
  lu_need_sync : bool;
  lu_updated : DateTime;
  lu_last_processed_message : Z;
  lu_workspaces : list WorkspaceEntry }.
#[export] Instance LocalUserManifest_eq_dec : EqDecision LocalUserManifest.
Proof. solve_decision. Defined.

Definition lu_base_version (m : LocalUserManifest) : Z := um_version (lu_base m).
Definition lu_is_placeholder (m : LocalUserManifest) : bool := lu_base_version m =? 0.

(** [LocalUserManifest.new_placeholder] *)
Definition user_new_placeholder (author : DeviceID) (id : EntryID) (now : DateTime)
    : LocalUserManifest :=
  {| lu_base :=
       {| um_author := author; um_timestamp := now; um_id := id; um_version := 0;
          um_created := now; um_updated := now; um_last_processed_message := 0;
          um_workspaces := [] |};
     lu_need_sync := true; lu_updated := now; lu_last_processed_message := 0;
     lu_workspaces := [] |}.

(** [LocalUserManifest.get_workspace_entry] *)
Definition lu_get_workspace_entry (m : LocalUserManifest) (workspace_id : EntryID)
    : option WorkspaceEntry :=
  head (filter (λ w, we_id w = workspace_id) (lu_workspaces m)).

(** [{**{w.id: w for w in l1}, **{w.id: w for w in l2}}.values()] *)
Definition update_workspaces (l1 l2 : list WorkspaceEntry) : list WorkspaceEntry :=
  od_values (od_update (od_update [] ((λ w, (we_id w, w)) <$> l1))
               ((λ w, (we_id w, w)) <$> l2)).

(** [evolve_workspaces_and_mark_updated] and [evolve_workspaces] *)
Definition evolve_workspaces_and_mark_updated (now : DateTime) (m : LocalUserManifest)
    (data : list WorkspaceEntry) : LocalUserManifest :=
  {| lu_base := lu_base m; lu_need_sync := true; lu_updated := now;
     lu_last_processed_message := lu_last_processed_message m;
     lu_workspaces := update_workspaces (lu_workspaces m) data |}.
Definition evolve_workspaces (m : LocalUserManifest) (data : list WorkspaceEntry)
    : LocalUserManifest :=
  {| lu_base := lu_base m; lu_need_sync := lu_need_sync m; lu_updated := lu_updated m;
     lu_last_processed_message := lu_last_processed_message m;
     lu_workspaces := update_workspaces (lu_workspaces m) data |}.

(** [LocalUserManifest.from_remote] *)
Definition user_from_remote (remote : UserManifest) : LocalUserManifest :=
  {| lu_base := remote; lu_need_sync := false; lu_updated := um_updated remote;
     lu_last_processed_message := um_last_processed_message remote;
     lu_workspaces := um_workspaces remote |}.

(** [LocalUserManifest.to_remote] *)
Definition user_to_remote (m : LocalUserManifest) (author : DeviceID) (timestamp : DateTime)
    : UserManifest :=
  {| um_author := author; um_timestamp := timestamp; um_id := um_id (lu_base m);
     um_version := um_version (lu_base m) + 1; um_created := um_created (lu_base m);
     um_updated := lu_updated m;
     um_last_processed_message := lu_last_processed_message m;
     um_workspaces := lu_workspaces m |}.

(** ** [BaseLocalManifest] *)

Inductive LocalManifest :=
| LFile (m : LocalFileManifest)
| LFolderish (m : LocalFolderish)
| LUser (m : LocalUserManifest).
#[export] Instance LocalManifest_eq_dec : EqDecision LocalManifest.
Proof. solve_decision. Defined.

(** The properties of [BaseLocalManifest]. *)
Definition lm_id (m : LocalManifest) : EntryID :=
  match m with
  | LFile m => lf_id m | LFolderish m => fd_id m | LUser m => um_id (lu_base m)
  end.
Definition lm_base_version (m : LocalManifest) : Z :=
  match m with
  | LFile m => lf_base_version m | LFolderish m => fd_base_version m
  | LUser m => lu_base_version m
  end.
Definition lm_need_sync (m : LocalManifest) : bool :=
  match m with
  | LFile m => lf_need_sync m | LFolderish m => fd_need_sync m | LUser m => lu_need_sync m
  end.
Definition lm_is_placeholder (m : LocalManifest) : bool := lm_base_version m =? 0.
Definition lm_parent (m : LocalManifest) : option EntryID :=
  match m with
  | LFile m => Some (lf_parent m)
  | LFolderish m => match fd_base m with BFolder b => Some (fom_parent b) | _ => None end
  | LUser _ => None
  end.
