(* ===== verification/FileOperations.v ===== *)
(** Reading, writing, resizing and reshaping a file manifest:
    [guardata/client/fs/workspacefs/file_operations.py]. The operations decide
    which chunks of data make up the file; no data is read or written here. *)

From S2P Require Import Prelude Types ApiManifest Chunk LocalManifest.

(** ** Helpers *)

(** [locate] *)
Definition locate (offset blocksize : Z) : Z * Z :=
  (offset / blocksize, offset mod blocksize).

(** [locate_range] *)
Definition locate_range (start stop blocksize : Z) : list (Z * Z * Z) :=
  let start_block := (locate start blocksize).1 in
  let stop_block := (locate (stop - 1) blocksize).1 in
  (λ block,
    let blockstart := block * blocksize in
    let substart := Z.max start blockstart in
    let substop := Z.min stop (blockstart + blocksize) in
    (block, substart, substop)) <$> py_range start_block (stop_block + 1).

(** [index_of_chunk_before_start]: [bisect_right] goes left of the chunks that
    start after [start]. *)
Definition index_of_chunk_before_start (chunks : list Chunk) (start : Z) : Z :=
  Z.of_nat (bisect (λ c, start <? c_start c) chunks) - 1.

(** [index_of_chunk_after_stop]: [bisect_left] goes right of the chunks that
    start before [stop]. *)
Definition index_of_chunk_after_stop (chunks : list Chunk) (stop : Z) : Z :=
  Z.of_nat (bisect (λ c, negb (c_start c <? stop)) chunks).

(** [chunk_id_set] *)
Definition chunk_id_set (chunks : list Chunk) : gset ChunkID :=
  list_to_set (c_id <$> chunks).

(** ** Read functions *)

(** [split_read] *)
Definition split_read (length offset blocksize : Z) : list (Z * Z * Z) :=
  (λ '(block, start, stop), (block, stop - start, start))
    <$> locate_range offset (offset + length) blocksize.

(** [block_read] *)
Definition block_read (chunks : list Chunk) (size start : Z) : list Chunk :=
  let stop := start + size in
  let start_index := index_of_chunk_before_start chunks start in
  let stop_index := index_of_chunk_after_stop chunks stop in
  (λ c, evolve_stop (evolve_start c (Z.max (c_start c) start)) (Z.min (c_stop c) stop))
    <$> py_slice chunks start_index stop_index.

(** [prepare_read] *)
Definition prepare_read (manifest : LocalFileManifest) (size offset : Z) : list Chunk :=
  let offset := Z.min offset (lf_size manifest) in
  let size := Z.min size (lf_size manifest - offset) in
  concat ((λ '(block, length, start), block_read (get_chunks manifest block) length start)
            <$> split_read size offset (lf_blocksize manifest)).

(** ** Write functions *)

(** [split_write] *)
Definition split_write (size offset blocksize : Z) : list (Z * Z * Z * Z) :=
  (λ '(block, start, stop), (block, stop - start, start, start - offset))
    <$> locate_range offset (offset + size) blocksize.

(** [chunks[i]], where an [IndexError] is raised. *)
Definition index_or_raise {A} (l : list A) (i : Z) : result FSExn A :=
  match py_index l i with Some x => Ok x | None => Err IndexError end.

(** [block_write] *)
Definition block_write (chunks : list Chunk) (size start : Z) (new_chunk : Chunk)
    : result FSExn (list Chunk * gset ChunkID) :=
  let stop := start + size in
  match chunks with
  | [] => Ok ([new_chunk], ∅)
  | _ =>
      let start_index := index_of_chunk_before_start chunks start in
      let stop_index := index_of_chunk_after_stop chunks stop in
      let removed_ids := chunk_id_set (py_slice chunks start_index stop_index) in
      let result := py_slice chunks 0 start_index in
      start_chunk ← index_or_raise chunks start_index;
      let '(result, removed_ids) :=
        if c_start start_chunk <? start
        then (result ++ [evolve_stop start_chunk start], removed_ids ∖ {[c_id start_chunk]})
        else (result, removed_ids) in
      let result := result ++ [new_chunk] in
      stop_chunk ← index_or_raise chunks (stop_index - 1);
      let '(result, removed_ids) :=
        if stop <? c_stop stop_chunk
        then (result ++ [evolve_start stop_chunk stop], removed_ids ∖ {[c_id stop_chunk]})
        else (result, removed_ids) in
      let result := result ++ py_slice chunks stop_index (Z.of_nat (length chunks)) in
      let removed_ids := removed_ids ∖ chunk_id_set result in
      Ok (result, removed_ids)
  end.

(** The variables the loop of [prepare_write] updates. *)
Record WriteState := mkWriteState {
  ws_blocks : list (list Chunk);
  ws_operations : list (Chunk * Z);
  ws_removed_ids : gset ChunkID }.

(** One turn of the loop; [id] is the id [Chunk.new] draws. *)
Definition write_step (manifest : LocalFileManifest) (padding : Z) (id : ChunkID)
    (op : Z * Z * Z * Z) (st : WriteState) : result FSExn WriteState :=
  let '(block, subsize, start, content_offset) := op in
  new_chunk ← chunk_new id start (start + subsize);
  let write_operations := ws_operations st ++ [(new_chunk, content_offset - padding)] in
  let chunks := get_chunks manifest block in
  '(new_chunks, more_removed_ids) ← block_write chunks subsize start new_chunk;
  let removed_ids := ws_removed_ids st ∪ more_removed_ids in
  blocks ←
    (if Z.of_nat (length (ws_blocks st)) =? block
     then Ok (ws_blocks st ++ [new_chunks])
     else match py_set (ws_blocks st) block new_chunks with
          | Some blocks => Ok blocks
          | None => Err IndexError
          end);
  Ok (mkWriteState blocks write_operations removed_ids).

(** The loop: its [k]th turn draws the id [fresh k]. *)
Fixpoint write_loop (manifest : LocalFileManifest) (padding : Z) (fresh : nat → ChunkID)
    (k : nat) (ops : list (Z * Z * Z * Z)) (st : WriteState) : result FSExn WriteState :=
  match ops with
  | [] => Ok st
  | op :: ops =>
      st ← write_step manifest padding (fresh k) op st;
      write_loop manifest padding fresh (S k) ops st
  end.

(** [prepare_write] *)
Definition prepare_write (now : DateTime) (fresh : nat → ChunkID)
    (manifest : LocalFileManifest) (size offset : Z)
    : result FSExn (LocalFileManifest * list (Chunk * Z) * gset ChunkID) :=
  let '(padding, size, offset) :=
    if lf_size manifest <? offset
    then (offset - lf_size manifest, size + (offset - lf_size manifest), lf_size manifest)
    else (0, size, offset) in
  st ← write_loop manifest padding fresh 0
         (split_write size offset (lf_blocksize manifest))
         (mkWriteState (lf_blocks manifest) [] ∅);
  let new_size := Z.max (lf_size manifest) (offset + size) in
  let new_manifest := file_evolve_and_mark_updated now manifest new_size (ws_blocks st) in
  Ok (new_manifest, ws_operations st, ws_removed_ids st).

(** ** Resize *)

(** [prepare_truncate] *)
Definition prepare_truncate (now : DateTime) (manifest : LocalFileManifest) (size : Z)
    : result FSExn (LocalFileManifest * gset ChunkID) :=
  let '(block, remainder) := locate size (lf_blocksize manifest) in
  let all_blocks := lf_blocks manifest in
  chunks ← index_or_raise all_blocks block;
  let removed_ids := chunk_id_set chunks in
  let blocks := py_slice all_blocks 0 block in
  '(blocks, removed_ids) ←
    (if negb (remainder =? 0) then
       let stop_index := index_of_chunk_after_stop chunks size in
       last_chunk ← index_or_raise chunks (stop_index - 1);
       let chunks := py_slice chunks 0 (stop_index - 1) ++ [evolve_stop last_chunk size] in
       Ok (blocks ++ [chunks], removed_ids ∖ chunk_id_set chunks)
     else Ok (blocks, removed_ids));
  let removed_ids :=
    foldl (λ removed_ids chunks, removed_ids ∪ chunk_id_set chunks) removed_ids
      (py_slice all_blocks (block + 1) (Z.of_nat (length all_blocks))) in
  Ok (file_evolve_and_mark_updated now manifest size blocks, removed_ids).

(** [prepare_resize] *)
Definition prepare_resize (now : DateTime) (fresh : nat → ChunkID)
    (manifest : LocalFileManifest) (size : Z)
    : result FSExn (LocalFileManifest * list (Chunk * Z) * gset ChunkID) :=
  if lf_size manifest <=? size then prepare_write now fresh manifest 0 size
  else
    '(manifest, removed_ids) ← prepare_truncate now manifest size;
    Ok (manifest, [], removed_ids).

(** ** Reshape *)

(** What [prepare_reshape] yields: the chunks to read, the chunk to write, the
    block that [update_manifest] replaces and the ids to remove. *)
Record ReshapeOp := mkReshapeOp {
  rs_source : list Chunk;
  rs_destination : Chunk;
  rs_block : Z;
  rs_removed_ids : gset ChunkID }.

(** [update_manifest] *)
Definition update_manifest (block : Z) (manifest : LocalFileManifest) (new_chunk : Chunk)
    : result FSExn LocalFileManifest :=
  match py_set (lf_blocks manifest) block [new_chunk] with
  | Some blocks => Ok (file_evolve_blocks manifest blocks)
  | None => Err IndexError
  end.

(** [Chunk.new] and the [yield] after it. *)
Definition yield_new_block (id : ChunkID) (block : Z) (chunks : list Chunk)
    : result FSExn ReshapeOp :=
  first_chunk ← index_or_raise chunks 0;
  last_chunk ← index_or_raise chunks (-1);
  new_chunk ← chunk_new id (c_start first_chunk) (c_stop last_chunk);
  Ok (mkReshapeOp chunks new_chunk block (chunk_id_set chunks)).

(** One turn of the loop of [prepare_reshape]: [None] is [continue]. *)
Definition reshape_step (id : ChunkID) (block : Z) (chunks : list Chunk)
    : option (result FSExn ReshapeOp) :=
  match chunks with
  | [c] =>
      if is_block c then None
      else if is_pseudo_block c then Some (Ok (mkReshapeOp chunks c block ∅))
      else Some (yield_new_block id block chunks)
  | _ => Some (yield_new_block id block chunks)
  end.

(** What the generator yields; an exception ends it. The block [k] uses the id
    [fresh k] if it needs one. *)
Fixpoint reshape_loop (fresh : nat → ChunkID) (k : nat) (blocks : list (Z * list Chunk))
    : list (result FSExn ReshapeOp) :=
  match blocks with
  | [] => []
  | (block, chunks) :: blocks =>
      match reshape_step (fresh k) block chunks with
      | None => reshape_loop fresh (S k) blocks
      | Some (Ok op) => Ok op :: reshape_loop fresh (S k) blocks
      | Some (Err e) => [Err e]
      end
  end.

(** [prepare_reshape] *)
Definition prepare_reshape (fresh : nat → ChunkID) (manifest : LocalFileManifest)
    : list (result FSExn ReshapeOp) :=
  reshape_loop fresh 0 (enumerate_from 0 (lf_blocks manifest)).

(** ** Contiguous chunks *)

(** [chunks] covers the file from [a] to [b] without a hole or an overlap. *)
Fixpoint contig (a : Z) (chunks : list Chunk) (b : Z) : Prop :=
  match chunks with
  | [] => a = b
  | c :: chunks => c_start c = a ∧ chunk_ok c ∧ contig (c_stop c) chunks b
  end.

(** The chunks cut to what they hold before, and from, the position [x]. *)
Fixpoint cs_take (chunks : list Chunk) (x : Z) : list Chunk :=
  match chunks with
  | [] => []
  | c :: chunks =>
      if c_stop c <=? x then c :: cs_take chunks x
      else if c_start c <? x then [evolve_stop c x] else []
  end.
Fixpoint cs_drop (chunks : list Chunk) (x : Z) : list Chunk :=
  match chunks with
  | [] => []
  | c :: chunks =>
      if c_stop c <=? x then cs_drop chunks x
      else if c_start c <? x then evolve_start c x :: chunks else c :: chunks
  end.

Lemma contig_app a l1 l2 b :
  contig a (l1 ++ l2) b ↔ ∃ m, contig a l1 m ∧ contig m l2 b.
Proof.
  revert a. induction l1 as [|c l1 IH]; intros a; simpl; [naive_solver|].
  rewrite IH. naive_solver.
Qed.

Lemma contig_le a cs b : contig a cs b → a <= b.
Proof.
  revert a. induction cs as [|c cs IH]; intros a; simpl; [lia|].
  intros (<-&Hc&?%IH). destruct Hc. lia.
Qed.

Lemma contig_bounds a cs b :
  contig a cs b → Forall (λ c, a <= c_start c ∧ chunk_ok c ∧ c_stop c <= b) cs.
Proof.
  revert a. induction cs as [|c cs IH]; intros a; simpl; [done|].
  intros (<-&Hc&Hcs). constructor.
  - apply contig_le in Hcs. split_and!; [lia|done|lia].
  - eapply Forall_impl; [by apply IH|].
    destruct Hc. intros d (?&?&?). split_and!; (done || lia).
Qed.

(** Where the chunks that start before [x] end. *)
Lemma contig_split a cs b x :
  contig a cs b →
  ∃ l1 l2, cs = l1 ++ l2 ∧ Forall (λ c, c_start c < x) l1 ∧ Forall (λ c, x <= c_start c) l2.
Proof.
  revert a. induction cs as [|c cs IH]; intros a; [by exists [], []|].
  intros (<-&Hc&Hcs). destruct (decide (c_start c < x)).
  - destruct (IH _ Hcs) as (l1&l2&->&?&?). exists (c :: l1), l2. auto.
  - exists [], (c :: cs). split_and!; [done..|]. constructor; [lia|].
    eapply Forall_impl; [by eapply contig_bounds|].
    destruct Hc. intros d (?&?&?). lia.
Qed.

Lemma index_of_chunk_after_stop_app l1 l2 x :
  Forall (λ c, c_start c < x) l1 → Forall (λ c, x <= c_start c) l2 →
  index_of_chunk_after_stop (l1 ++ l2) x = Z.of_nat (length l1).
Proof.
  intros H1 H2. unfold index_of_chunk_after_stop. f_equal.
  apply bisect_spec; eapply Forall_impl; try done; simpl; intros c ?.
  all: destruct (Z.ltb_spec (c_start c) x); simpl; (done || lia).
Qed.

Lemma index_of_chunk_before_start_after chunks x :
  index_of_chunk_before_start chunks x = index_of_chunk_after_stop chunks (x + 1) - 1.
Proof.
  unfold index_of_chunk_before_start, index_of_chunk_after_stop. do 2 f_equal.
  assert (∀ c, (x <? c_start c) = negb (c_start c <? x + 1)) as Heq.
  { intros c. destruct (Z.ltb_spec x (c_start c)), (Z.ltb_spec (c_start c) (x + 1)); simpl; (done || lia). }
  unfold bisect. generalize (length chunks) at 1 3. intros fuel.
  generalize 0%nat (length chunks). revert fuel.
  induction fuel as [|fuel IH]; intros lo hi; cbn [bisect_loop]; [done|].
  destruct (lo <? hi)%nat; [|done]. destruct (chunks !! _) as [c|]; [|done].
  rewrite Heq. by destruct (negb _).
Qed.

Lemma contig_cons_bounds a c cs b :
  contig a (c :: cs) b → Forall (λ d, c_stop c <= c_start d) cs.
Proof.
  intros (?&?&Hcs). eapply Forall_impl; [by eapply contig_bounds|]. simpl. lia.
Qed.

Lemma contig_snoc_bounds a cs c b :
  contig a (cs ++ [c]) b → Forall (λ d, c_stop d <= c_start c) cs ∧ c_stop c = b.
Proof.
  intros (m&Hcs&?&?&?)%contig_app. simpl in *. subst. split; [|done].
  eapply Forall_impl; [by eapply contig_bounds|]. simpl. lia.
Qed.

Lemma cs_take_app l1 l2 x :
  Forall (λ c, c_stop c <= x) l1 → cs_take (l1 ++ l2) x = l1 ++ cs_take l2 x.
Proof.
  induction 1 as [|c l1 Hc _ IH]; simpl; [done|].
  destruct (Z.leb_spec (c_stop c) x); [|lia]. by rewrite IH.
Qed.

Lemma cs_drop_app l1 l2 x :
  Forall (λ c, c_stop c <= x) l1 → cs_drop (l1 ++ l2) x = cs_drop l2 x.
Proof.
  induction 1 as [|c l1 Hc _ IH]; simpl; [done|].
  by destruct (Z.leb_spec (c_stop c) x); [|lia].
Qed.

Lemma cs_take_nil l x : Forall (λ c, x <= c_start c ∧ chunk_ok c) l → cs_take l x = [].
Proof.
  destruct 1 as [|c l [? []] _]; simpl; [done|].
  destruct (Z.leb_spec (c_stop c) x), (Z.ltb_spec (c_start c) x); (done || lia).
Qed.

Lemma cs_take_app_r l1 l2 x :
  Forall (λ c, x <= c_start c ∧ chunk_ok c) l2 → cs_take (l1 ++ l2) x = cs_take l1 x.
Proof.
  intros H2. induction l1 as [|c l1 IH]; simpl; [by apply cs_take_nil|]. by rewrite IH.
Qed.

Lemma cs_drop_id l x : Forall (λ c, x <= c_start c ∧ chunk_ok c) l → cs_drop l x = l.
Proof.
  destruct 1 as [|c l [? []] _]; simpl; [done|].
  destruct (Z.leb_spec (c_stop c) x), (Z.ltb_spec (c_start c) x); (done || lia).
Qed.

Lemma cs_take_all a l b x : contig a l b → b <= x → cs_take l x = l.
Proof.
  intros Hl ?. rewrite <-(app_nil_r l) at 1. rewrite cs_take_app; simpl; [apply app_nil_r|].
  eapply Forall_impl; [by eapply contig_bounds|]. simpl. lia.
Qed.

Lemma cs_drop_none a l b x : contig a l b → b <= x → cs_drop l x = [].
Proof.
  intros Hl ?. rewrite <-(app_nil_r l) at 1. rewrite cs_drop_app; simpl; [done|].
  eapply Forall_impl; [by eapply contig_bounds|]. simpl. lia.
Qed.

Lemma evolve_stop_id c : evolve_stop c (c_stop c) = c.
Proof. by destruct c. Qed.
Lemma evolve_start_id c : evolve_start c (c_start c) = c.
Proof. by destruct c. Qed.

Lemma contig_take a l b x : contig a l b → a <= x <= b → contig a (cs_take l x) x.
Proof.
  revert a. induction l as [|c l IH]; intros a; simpl; [lia|].
  intros (<-&[]&Hl) ?. destruct (Z.leb_spec (c_stop c) x).
  - simpl. split_and!; [done|split; lia|apply IH; [done|lia]].
  - destruct (Z.ltb_spec (c_start c) x); simpl; [|lia].
    split_and!; try done; split; simpl; lia.
Qed.

Lemma contig_drop a l b x : contig a l b → a <= x <= b → contig x (cs_drop l x) b.
Proof.
  revert a. induction l as [|c l IH]; intros a; simpl; [lia|].
  intros (<-&[]&Hl) ?. destruct (Z.leb_spec (c_stop c) x).
  - apply (IH (c_stop c)); [done|lia].
  - destruct (Z.ltb_spec (c_start c) x); simpl.
    + split_and!; try done; split; simpl; lia.
    + assert (c_start c = x) as <- by lia. split_and!; try done; split; lia.
Qed.

(** The chunk that [index_of_chunk_before_start] designates. *)
Lemma contig_before_start a cs b x :
  contig a cs b → cs ≠ [] → a <= x <= b →
  ∃ l1 c l2, cs = l1 ++ c :: l2 ∧ index_of_chunk_before_start cs x = Z.of_nat (length l1) ∧
    Forall (λ d, c_stop d <= c_start c) l1 ∧ c_start c <= x <= c_stop c ∧
    Forall (λ d, x < c_start d ∧ chunk_ok d) l2 ∧
    cs_take cs x = l1 ++ if c_start c <? x then [evolve_stop c x] else [].
Proof.
  intros Hcs Hne ?. destruct (contig_split _ _ _ (x + 1) Hcs) as (l1&l2&->&H1&H2).
  destruct l1 as [|c l1 _] using rev_ind.
  { destruct l2 as [|c l2]; [done|]. destruct Hcs. apply Forall_inv in H2. lia. }
  rewrite <-app_assoc in Hcs. pose proof Hcs as Hcs'.
  rewrite app_assoc in Hcs'. apply contig_app in Hcs' as (m&Hl&Hr).
  apply contig_snoc_bounds in Hl as [Hl ?].
  assert (c_start c <= x <= c_stop c) as Hc.
  { split; [apply Forall_app in H1 as [_ H1]; apply Forall_inv in H1; lia|].
    destruct l2 as [|d l2]; simpl in Hr; [lia|]. destruct Hr as (?&?&?).
    apply Forall_inv in H2. lia. }
  assert (Forall (λ d, x < c_start d ∧ chunk_ok d) l2) as Hl2.
  { apply Forall_and. split.
    - eapply Forall_impl; [exact H2|]. simpl. lia.
    - eapply Forall_impl; [by eapply contig_bounds|]. simpl. naive_solver. }
  exists l1, c, l2. split_and!; try done; try lia.
  - by rewrite <-app_assoc.
  - rewrite index_of_chunk_before_start_after, index_of_chunk_after_stop_app by done.
    rewrite length_app. simpl. lia.
  - rewrite <-app_assoc, cs_take_app by (eapply Forall_impl; [done|simpl; lia]).
    f_equal. simpl. assert (cs_take l2 x = []) as ->.
    { apply cs_take_nil. eapply Forall_impl; [done|]. simpl. intros d []. split; (done || lia). }
    destruct (Z.leb_spec (c_stop c) x), (Z.ltb_spec (c_start c) x); try done; try lia.
    + assert (x = c_stop c) as -> by lia. by rewrite evolve_stop_id.
    + assert (chunk_ok c) as [] by (apply contig_app in Hcs as (?&?&?&?&?); done). lia.
Qed.

(** The chunk before [index_of_chunk_after_stop]. *)
Lemma contig_after_stop a cs b x :
  contig a cs b → cs ≠ [] → a < x →
  ∃ l1 c l2, cs = l1 ++ c :: l2 ∧ index_of_chunk_after_stop cs x = Z.of_nat (length l1) + 1 ∧
    Forall (λ d, c_stop d < x) l1 ∧ c_start c < x ∧
    cs_drop cs x = (if x <? c_stop c then [evolve_start c x] else []) ++ l2.
Proof.
  intros Hcs Hne ?. destruct (contig_split _ _ _ x Hcs) as (l1&l2&->&H1&H2).
  destruct l1 as [|c l1 _] using rev_ind.
  { destruct l2 as [|c l2]; [done|]. destruct Hcs. apply Forall_inv in H2. lia. }
  rewrite <-app_assoc in Hcs. pose proof Hcs as Hcs'.
  rewrite app_assoc in Hcs'. apply contig_app in Hcs' as (m&Hl&Hr).
  apply contig_snoc_bounds in Hl as [Hl ?].
  pose proof H1 as H1'. apply Forall_app in H1' as [_ Hc]. apply Forall_inv in Hc.
  exists l1, c, l2. split_and!; try done.
  - by rewrite <-app_assoc.
  - rewrite index_of_chunk_after_stop_app by done. rewrite length_app. simpl. lia.
  - eapply Forall_impl; [done|]. simpl. lia.
  - rewrite <-app_assoc, cs_drop_app by (eapply Forall_impl; [done|simpl; lia]). simpl.
    assert (cs_drop l2 x = l2) as ->.
    { apply cs_drop_id, Forall_and. split; [done|].
      eapply Forall_impl; [by eapply contig_bounds|]. naive_solver. }
    by destruct (Z.leb_spec (c_stop c) x), (Z.ltb_spec (c_start c) x),
      (Z.ltb_spec x (c_stop c)); try lia.
Qed.

Lemma py_index_app {A} (l1 l2 : list A) x :
  py_index (l1 ++ x :: l2) (Z.of_nat (length l1)) = Some x.
Proof. rewrite py_index_nonneg, Nat2Z.id by lia. by apply list_lookup_middle. Qed.

Lemma index_or_raise_app {A} (l1 l2 : list A) x :
  index_or_raise (l1 ++ x :: l2) (Z.of_nat (length l1)) = Ok x.
Proof. unfold index_or_raise. by rewrite py_index_app. Qed.

Lemma py_slice_prefix {A} (l1 l2 : list A) :
  py_slice (l1 ++ l2) 0 (Z.of_nat (length l1)) = l1.
Proof. rewrite py_slice_take, Nat2Z.id by lia. by rewrite take_app_length. Qed.

Lemma py_slice_suffix {A} (l1 l2 : list A) :
  py_slice (l1 ++ l2) (Z.of_nat (length l1)) (Z.of_nat (length (l1 ++ l2))) = l2.
Proof. rewrite py_slice_drop, Nat2Z.id by lia. by rewrite drop_app_length. Qed.

Lemma elem_of_py_slices {A} (l : list A) i j x :
  0 <= i → 0 <= j →
  x ∈ l → x ∈ py_slice l 0 i ∨ x ∈ py_slice l i j ∨ x ∈ py_slice l j (Z.of_nat (length l)).
Proof.
  intros ?? [k Hk]%list_elem_of_lookup. pose proof (lookup_lt_Some _ _ _ Hk).
  rewrite py_slice_take, py_slice_nonneg, py_slice_drop by lia.
  setoid_rewrite list_elem_of_lookup.
  destruct (decide (Z.of_nat k < i)); [left; exists k; rewrite lookup_take_lt; [done|lia]|].
  right. destruct (decide (Z.of_nat k < j)).
  - left. exists (k - Z.to_nat i)%nat. rewrite lookup_take_lt, lookup_drop by lia.
    rewrite <-Hk. f_equal. lia.
  - right. exists (k - Z.to_nat j)%nat. rewrite lookup_drop, <-Hk. f_equal. lia.
Qed.

Lemma elem_of_chunk_id_set id cs : id ∈ chunk_id_set cs ↔ ∃ c, c ∈ cs ∧ c_id c = id.
Proof.
  unfold chunk_id_set. rewrite elem_of_list_to_set, list_elem_of_fmap. naive_solver.
Qed.

Lemma chunk_id_set_app l1 l2 : chunk_id_set (l1 ++ l2) = chunk_id_set l1 ∪ chunk_id_set l2.
Proof. apply set_eq. intros id. rewrite elem_of_union, !elem_of_chunk_id_set. set_solver. Qed.

Lemma chunk_id_set_cons c l : chunk_id_set (c :: l) = {[c_id c]} ∪ chunk_id_set l.
Proof. done. Qed.

Lemma chunk_id_set_slices (cs : list Chunk) i j :
  0 <= i → 0 <= j →
  chunk_id_set cs ⊆ chunk_id_set (py_slice cs 0 i) ∪ chunk_id_set (py_slice cs i j)
                     ∪ chunk_id_set (py_slice cs j (Z.of_nat (length cs))).
Proof.
  intros Hi Hj id. rewrite !elem_of_union, !elem_of_chunk_id_set.
  intros (c&Hc&<-). destruct (elem_of_py_slices _ _ _ _ Hi Hj Hc) as [?|[?|?]]; naive_solver.
Qed.

Lemma py_slice_subset {A} (l : list A) i j x : x ∈ py_slice l i j → x ∈ l.
Proof.
  unfold py_slice. intros [k [Hk _]%lookup_take_Some]%list_elem_of_lookup.
  rewrite lookup_drop in Hk. by eapply list_elem_of_lookup_2.
Qed.

(** [block_write] replaces what the block holds from [start] to
    [start + size] by the new chunk, whatever the chunks it finds there. *)
Lemma block_write_chunks a cs b size start new :
  contig a cs b → a <= start <= b → 0 < size →
  block_write cs size start new
    = Ok (cs_take cs start ++ [new] ++ cs_drop cs (start + size),
          chunk_id_set cs
            ∖ chunk_id_set (cs_take cs start ++ [new] ++ cs_drop cs (start + size))).
Proof.
  intros Hcs Ha Hsize. destruct (decide (cs = [])) as [->|Hne].
  { simpl. do 2 f_equal. set_solver. }
  destruct (contig_before_start _ _ _ start Hcs Hne Ha) as (l1&c&l2&Hl&Hi&_&_&_&Htake).
  destruct (contig_after_stop _ _ _ (start + size) Hcs Hne) as (k1&d&k2&Hk&Hj&_&_&Hdrop);
    [lia|].
  assert (py_slice cs 0 (Z.of_nat (length l1)) = l1) as Hpre
    by (by rewrite Hl, py_slice_prefix).
  assert (cs = (k1 ++ [d]) ++ k2) as Hk' by by rewrite <-app_assoc.
  assert (py_slice cs (Z.of_nat (length k1) + 1) (Z.of_nat (length cs)) = k2) as Hsuf.
  { replace (Z.of_nat (length k1) + 1) with (Z.of_nat (length (k1 ++ [d])))
      by (rewrite length_app; simpl; lia).
    by rewrite Hk', py_slice_suffix. }
  assert (index_or_raise cs (Z.of_nat (length l1)) = Ok c) as Hc
    by by rewrite Hl, index_or_raise_app.
  assert (index_or_raise cs (Z.of_nat (length k1)) = Ok d) as Hd
    by by rewrite Hk, index_or_raise_app.
  pose proof (chunk_id_set_slices cs (Z.of_nat (length l1)) (Z.of_nat (length k1) + 1)
    ltac:(lia) ltac:(lia)) as Hsub.
  assert (chunk_id_set (py_slice cs (Z.of_nat (length l1)) (Z.of_nat (length k1) + 1))
            ⊆ chunk_id_set cs) as Hsub'.
  { intros id. rewrite !elem_of_chunk_id_set. intros (x&?%py_slice_subset&?). eauto. }
  rewrite Hpre, Hsuf in Hsub.
  unfold block_write. destruct cs as [|c0 cs'] eqn:E; [done|]. rewrite <-E in *.
  rewrite Hi, Hj, Z.add_simpl_r, Hc. simpl. rewrite Hd, Hpre, Hsuf, Htake, Hdrop.
  generalize dependent (chunk_id_set (py_slice cs (Z.of_nat (length l1)) (Z.of_nat (length k1) + 1))).
  intros S ? ?.
  destruct (c_start c <? start); simpl; destruct (start + size <? c_stop d); simpl;
    rewrite <-?app_assoc; simpl; f_equal; f_equal.
  all: rewrite !chunk_id_set_app, ?chunk_id_set_cons in *; simpl; set_solver.
Qed.

(** What [block_read] yields for one chunk. *)
Definition clip (start stop : Z) (c : Chunk) : Chunk :=
  evolve_stop (evolve_start c (Z.max (c_start c) start)) (Z.min (c_stop c) stop).

Lemma clip_take a cs b start stop :
  contig a cs b → start <= a → a < stop →
  Forall (λ c, c_start c < stop) cs → clip start stop <$> cs = cs_take cs stop.
Proof.
  revert a. induction cs as [|c cs IH]; intros a Hcs ?? Hlt; simpl; [done|].
  pose proof (contig_cons_bounds _ _ _ _ Hcs) as Hcs'. destruct Hcs as (<-&[]&Hcs).
  apply Forall_cons in Hlt as [? Hlt]. destruct c as [id s e ro rs ac]; simpl in *.
  unfold clip at 1. unfold evolve_stop, evolve_start. simpl. rewrite Z.max_l by lia.
  destruct (Z.leb_spec e stop), (Z.ltb_spec s stop); try lia.
  - rewrite Z.min_l by lia. f_equal. destruct cs as [|c2 cs]; [done|].
    apply (IH e); try done; [lia|]. destruct Hcs. apply Forall_inv in Hlt. lia.
  - rewrite Z.min_r by lia. f_equal. destruct cs; [done|].
    apply Forall_inv in Hcs', Hlt. lia.
Qed.

Lemma clip_chunks a cs b start stop :
  contig a cs b → cs ≠ [] → start < stop → a <= start →
  Forall (λ c, start < c_stop c ∧ c_start c < stop) cs →
  clip start stop <$> cs = cs_drop (cs_take cs stop) start.
Proof.
  destruct cs as [|c cs]; [done|]. intros Hcs _ ?? Hlt.
  pose proof (contig_cons_bounds _ _ _ _ Hcs) as Hcs'. destruct Hcs as (<-&[]&Hcs).
  apply Forall_cons in Hlt as [? Hlt].
  assert (clip start stop <$> cs = cs_take cs stop) as Hrest.
  { destruct cs as [|c2 cs]; [done|]. apply (clip_take (c_stop c) _ b); try done; [lia| |].
    - destruct Hcs. apply Forall_inv in Hlt. lia.
    - eapply Forall_impl; [exact Hlt|]. simpl. lia. }
  rewrite fmap_cons, Hrest. destruct c as [id s e ro rs ac]; simpl in *.
  unfold clip, evolve_stop, evolve_start. simpl. rewrite Z.max_r by lia.
  destruct (Z.leb_spec e stop), (Z.ltb_spec s stop); simpl; try lia.
  - destruct (Z.leb_spec e start), (Z.ltb_spec s start); try lia.
    + by rewrite Z.min_l by lia.
    + rewrite Z.min_l by lia. by assert (start = s) as -> by lia.
  - destruct cs as [|c2 cs]; [|apply Forall_inv in Hcs', Hlt; simpl in *; lia].
    destruct (Z.leb_spec stop start), (Z.ltb_spec s start); try lia; simpl.
    + by rewrite Z.min_r by lia.
    + rewrite Z.min_r by lia. by assert (start = s) as -> by lia.
Qed.

(** [block_read] yields the chunks of the block cut to the bytes read. *)
Lemma block_read_chunks a cs b size start :
  contig a cs b → a <= start → 0 < size → start + size <= b →
  block_read cs size start = cs_drop (cs_take cs (start + size)) start.
Proof.
  intros Hcs ???. assert (cs ≠ []) as Hne by (intros ->; simpl in *; lia).
  destruct (contig_before_start _ _ _ start Hcs Hne) as (l1&c&l2&Hl&Hi&Hl1&Hc&Hl2&_); [lia|].
  destruct (contig_split _ _ _ (start + size) Hcs) as (k1&k2&Hk&Hk1&Hk2).
  assert (∃ m, k1 = l1 ++ c :: m ∧ l2 = m ++ k2) as (m&->&->).
  { rewrite Hk in Hl. apply app_eq_inv in Hl as [(k&->&Hkk)|(k&->&Hkk)].
    - destruct k as [|c' m]; simplify_eq/=; [|eauto].
      apply Forall_inv in Hk2. lia.
    - subst. apply Forall_app in Hk2 as [_ Hk2]. apply Forall_inv in Hk2. lia. }
  rewrite app_comm_cons, app_assoc in Hl.
  unfold block_read. rewrite Hi. rewrite Hl at 2.
  rewrite index_of_chunk_after_stop_app by done.
  assert (py_slice cs (Z.of_nat (length l1)) (Z.of_nat (length (l1 ++ c :: m))) = c :: m) as ->.
  { rewrite py_slice_nonneg by lia. rewrite Hl, <-app_assoc, Nat2Z.id, drop_app_length.
    rewrite length_app. replace (Z.to_nat _) with (length (c :: m)) by lia.
    by rewrite take_app_length. }
  pose proof Hcs as Hcs'. rewrite Hl in Hcs'. rewrite <-app_assoc in Hcs'.
  apply contig_app in Hcs' as (x&Hx&(y&Hy&Hy')%contig_app).
  assert (x = c_start c) as -> by (symmetry; apply Hy).
  transitivity (clip start (start + size) <$> (c :: m)); [done|].
  assert (start < c_stop c).
  { destruct (decide (c_stop c = start)); [|lia]. destruct Hy as (_&_&Hm).
    assert (contig (c_stop c) (m ++ k2) b) as Hmk by (apply contig_app; eauto).
    destruct (m ++ k2) as [|d l]; simpl in Hmk; [lia|].
    destruct Hmk. apply Forall_inv in Hl2. lia. }
  rewrite (clip_chunks (c_start c) (c :: m) y); try done; try lia.
  - rewrite Hl, <-app_assoc, cs_take_app, cs_drop_app; try (eapply Forall_impl; [done|simpl; lia]).
    f_equal. symmetry. apply (cs_take_app_r (c :: m)). apply Forall_and. split; [done|].
    eapply Forall_impl; [by eapply contig_bounds|]. naive_solver.
  - apply Forall_app in Hk1 as [_ Hk1]. apply Forall_and. split; [|exact Hk1].
    apply Forall_cons. split; [done|]. apply Forall_app in Hl2 as [Hl2 _].
    eapply Forall_impl; [exact Hl2|]. simpl. intros d [? []]. lia.
Qed.

(** Reading no byte yields at most a chunk of no byte. *)
Lemma block_read_empty a cs b start :
  contig a cs b → a <= start <= b →
  block_read cs 0 start = [] ∨
  ∃ d, d ∈ cs ∧ c_start d <= start <= c_stop d ∧
    block_read cs 0 start = [evolve_stop (evolve_start d start) start].
Proof.
  intros Hcs Ha. unfold block_read. rewrite Z.add_0_r.
  destruct (decide (cs = [])) as [->|Hne].
  { left. unfold py_slice. by rewrite drop_nil, take_nil. }
  destruct (contig_before_start _ _ _ start Hcs Hne Ha) as (l1&d&l2&Hl&Hi&Hl1&Hd&Hl2&_).
  assert (Forall (λ c, c_start c < c_start d) l1) as Hl1'.
  { rewrite Hl in Hcs. apply contig_app in Hcs as (x&Hx&_).
    apply contig_bounds in Hx. eapply Forall_impl; [exact (proj2 (Forall_and _ _) (conj Hx Hl1))|].
    simpl. intros c [(_&[]&_) ?]. lia. }
  assert (Forall (λ c, start <= c_start c) l2) as Hl2'
    by (eapply Forall_impl; [exact Hl2|]; simpl; lia).
  rewrite Hi. destruct (decide (c_start d = start)) as [Heq|].
  - left. rewrite Hl at 2. rewrite index_of_chunk_after_stop_app.
    + unfold py_slice. by rewrite Nat.sub_diag.
    + eapply Forall_impl; [exact Hl1'|]. simpl. lia.
    + constructor; [lia|done].
  - right. exists d. split_and!; try lia; [rewrite Hl; set_solver|].
    assert (cs = (l1 ++ [d]) ++ l2) as Hl' by by rewrite <-app_assoc.
    rewrite Hl' at 2. rewrite index_of_chunk_after_stop_app; [|  |done].
    + rewrite py_slice_nonneg, Hl, Nat2Z.id, drop_app_length by lia.
      rewrite length_app. simpl. replace (Z.to_nat _) with 1%nat by lia. simpl.
      by rewrite Z.max_r, Z.min_r by (simpl; lia).
    + apply Forall_app. split.
      * eapply Forall_impl; [exact Hl1'|]. simpl. lia.
      * constructor; [lia|done].
Qed.
