(* ===== verification/FileContent.v ===== *)
(** What a file manifest means: a well-formed manifest covers its file block by
    block, and, with a store of the chunks' data, denotes the bytes of the
    file. The operations of FileOperations.v preserve the first and have the
    expected effect on the second. *)

From S2P Require Import Prelude Types ApiManifest Chunk LocalManifest FileOperations.

(** ** Well-formed manifests *)

(** The block [i] of a file holds its bytes from [i * bs] to [(i + 1) * bs], or to
    the end of the file; there are as many blocks as the size needs. *)
Definition blocks_wf (bs size : Z) (blocks : list (list Chunk)) : Prop :=
  0 < bs ∧ 0 <= size ∧
  size <= Z.of_nat (length blocks) * bs < size + bs ∧
  ∀ (i : nat) cs, blocks !! i = Some cs →
    contig (Z.of_nat i * bs) cs (Z.min size ((Z.of_nat i + 1) * bs)).
Definition lf_wf (m : LocalFileManifest) : Prop :=
  blocks_wf (lf_blocksize m) (lf_size m) (lf_blocks m).

(** All the chunks of a file, in order. *)
Definition all_chunks (m : LocalFileManifest) : list Chunk := concat (lf_blocks m).

(** No chunk is shared by two blocks. *)
Definition ids_disjoint (blocks : list (list Chunk)) : Prop :=
  ∀ i j bi bj id, blocks !! i = Some bi → blocks !! j = Some bj →
    id ∈ chunk_id_set bi → id ∈ chunk_id_set bj → i = j.

Lemma contig_inj a cs b b' : contig a cs b → contig a cs b' → b = b'.
Proof. revert a. induction cs; simpl; intros; [congruence|naive_solver]. Qed.

Lemma contig_concat_take bs size blocks k :
  blocks_wf bs size blocks → (k <= length blocks)%nat →
  contig 0 (concat (take k blocks)) (Z.min size (Z.of_nat k * bs)).
Proof.
  intros (Hbs&Hsize&Hlen&Hblocks). induction k as [|k IH]; intros Hk; simpl; [lia|].
  destruct (lookup_lt_is_Some_2 blocks k) as [cs Hcs]; [lia|].
  rewrite (take_S_r _ _ _ Hcs), concat_app. apply contig_app. simpl. rewrite app_nil_r.
  exists (Z.of_nat k * bs). split.
  - replace (Z.of_nat k * bs) with (Z.min size (Z.of_nat k * bs)) by nia. apply IH. lia.
  - apply Hblocks in Hcs. by replace (Z.of_nat (S k)) with (Z.of_nat k + 1) by lia.
Qed.

Lemma blocks_wf_contig bs size blocks :
  blocks_wf bs size blocks → contig 0 (concat blocks) size.
Proof.
  intros Hwf. pose proof (contig_concat_take _ _ _ (length blocks) Hwf (le_n _)) as H.
  rewrite firstn_all in H. destruct Hwf as (?&?&?&_). by rewrite Z.min_l in H by lia.
Qed.

(** A file around one of its blocks. *)
Lemma blocks_wf_middle bs size A B C :
  blocks_wf bs size (A ++ B :: C) →
  contig 0 (concat A) (Z.of_nat (length A) * bs) ∧
  contig (Z.of_nat (length A) * bs) B (Z.min size ((Z.of_nat (length A) + 1) * bs)) ∧
  contig (Z.min size ((Z.of_nat (length A) + 1) * bs)) (concat C) size ∧
  (C ≠ [] → (Z.of_nat (length A) + 1) * bs < size).
Proof.
  intros Hwf. pose proof (contig_concat_take _ _ _ (length A) Hwf) as HA.
  pose proof (blocks_wf_contig _ _ _ Hwf) as Hall.
  destruct Hwf as (?&?&Hlen&Hblocks). rewrite length_app in *. simpl in *.
  rewrite take_app_length in HA. rewrite Z.min_r in HA by nia.
  specialize (Hblocks (length A) B (list_lookup_middle _ _ _ _ eq_refl)).
  rewrite concat_app in Hall. simpl in Hall.
  apply contig_app in Hall as (x&Hx&(y&Hy&Hy')%contig_app).
  specialize (HA ltac:(lia)). rewrite (contig_inj _ _ _ _ Hx HA) in Hy.
  rewrite (contig_inj _ _ _ _ Hy Hblocks) in Hy'.
  split_and!; try done. destruct C; [done|]. simpl in *. nia.
Qed.

Lemma cs_drop_app_r l1 l2 x :
  Forall (λ c, x <= c_start c ∧ chunk_ok c) l2 → cs_drop (l1 ++ l2) x = cs_drop l1 x ++ l2.
Proof.
  intros H2. induction l1 as [|c l1 IH]; simpl; [by apply cs_drop_id|].
  repeat case_match; [done|..]; done.
Qed.

Lemma cs_drop_drop l x y : x <= y → cs_drop (cs_drop l x) y = cs_drop l y.
Proof.
  intros. induction l as [|c l IH]; simpl; [done|]. destruct c as [id s e ro rs ac]; simpl.
  destruct (Z.leb_spec e x); [destruct (Z.leb_spec e y); [done|lia]|].
  destruct (Z.ltb_spec s x); simpl; [|done].
  destruct (Z.leb_spec e y); [done|].
  destruct (Z.ltb_spec x y), (Z.ltb_spec s y); try done; try lia.
  by assert (x = y) as -> by lia.
Qed.

Lemma contig_starts_after a cs b x :
  contig a cs b → x <= a → Forall (λ c, x <= c_start c ∧ chunk_ok c) cs.
Proof.
  intros Hcs ?. eapply Forall_impl; [by eapply contig_bounds|]. simpl.
  intros c (?&?&?). split; [lia|done].
Qed.
Lemma contig_stops_before a cs b x :
  contig a cs b → b <= x → Forall (λ c, c_stop c <= x) cs.
Proof. intros Hcs ?. eapply Forall_impl; [by eapply contig_bounds|]. simpl. lia. Qed.

Lemma contig_write a cs b start stop new :
  contig a cs b → a <= start <= b → contig start [new] stop →
  contig a (cs_take cs start ++ [new] ++ cs_drop cs stop) (Z.max b stop).
Proof.
  intros Hcs ? Hnew. pose proof (contig_le _ _ _ Hnew).
  apply contig_app. exists start. split; [by eapply contig_take|].
  apply contig_app. exists stop. split; [done|].
  destruct (decide (stop <= b)).
  - rewrite Z.max_l by lia. eapply contig_drop; [done|lia].
  - rewrite Z.max_r, (cs_drop_none _ _ _ _ Hcs) by lia. done.
Qed.

(** The file after a write of [new] in its block [i], or right after its last
    block. *)
Definition write_block (blocks : list (list Chunk)) (i : nat) (B : list Chunk)
    : list (list Chunk) :=
  if decide (length blocks = i) then blocks ++ [B] else <[i := B]> blocks.

Lemma write_block_append bs size blocks stop new :
  blocks_wf bs size blocks → Z.of_nat (length blocks) * bs = size →
  contig size [new] stop → stop <= size + bs →
  blocks_wf bs stop (blocks ++ [[new]]) ∧
  concat (blocks ++ [[new]])
    = cs_take (concat blocks) size ++ [new] ++ cs_drop (concat blocks) stop.
Proof.
  intros Hwf Heq Hnew ?. pose proof (blocks_wf_contig _ _ _ Hwf) as Hall.
  destruct Hwf as (Hbs&?&Hlen&Hblocks).
  assert (size < stop) by (destruct Hnew as (<-&[]&<-); lia).
  rewrite (cs_take_all _ _ _ _ Hall), (cs_drop_none _ _ _ _ Hall) by lia.
  split; [|by rewrite concat_app].
  split_and!; [done|lia|rewrite length_app; simpl; nia|rewrite length_app; simpl; nia|].
  intros k cs [Hk|[? Hk]]%lookup_app_Some.
  - pose proof (lookup_lt_Some _ _ _ Hk). apply Hblocks in Hk.
    by replace (Z.min stop _) with (Z.min size ((Z.of_nat k + 1) * bs)) by nia.
  - destruct (k - length blocks)%nat eqn:?; simplify_eq/=.
    replace (Z.of_nat k * bs) with (Z.of_nat (length blocks) * bs) by nia.
    by replace (Z.min _ _) with stop by nia.
Qed.

Lemma write_block_insert bs size A B C start stop new :
  blocks_wf bs size (A ++ B :: C) → start <= size →
  Z.of_nat (length A) * bs <= start < stop → stop <= (Z.of_nat (length A) + 1) * bs →
  contig start [new] stop →
  let B' := cs_take B start ++ [new] ++ cs_drop B stop in
  blocks_wf bs (Z.max size stop) (A ++ B' :: C) ∧
  concat (A ++ B' :: C)
    = cs_take (concat (A ++ B :: C)) start ++ [new] ++ cs_drop (concat (A ++ B :: C)) stop.
Proof.
  intros Hwf ??? Hnew B'.
  destruct (blocks_wf_middle _ _ _ _ _ Hwf) as (HA&HB&HC&HC').
  destruct Hwf as (Hbs&?&Hlen&Hblocks). rewrite length_app in Hlen. simpl in Hlen.
  assert (C ≠ [] → stop <= size) as HC'' by (intros ?%HC'; lia).
  split; [split_and!; [done|lia|..]|].
  1,2: rewrite length_app; simpl; destruct C; [|specialize (HC' ltac:(done))]; simpl in *; nia.
  - intros k cs Hk. destruct (decide (k = length A)) as [->|].
    + rewrite list_lookup_middle in Hk by done. simplify_eq.
      replace (Z.min (Z.max size stop) _)
        with (Z.max (Z.min size ((Z.of_nat (length A) + 1) * bs)) stop) by nia.
      apply contig_write; [done|nia|done].
    + assert ((A ++ B :: C) !! k = Some cs) as Hk'.
      { destruct (decide (k < length A)%nat).
        - rewrite lookup_app_l in Hk |- * by done. done.
        - rewrite lookup_app_r in Hk |- * by lia. by destruct (k - length A)%nat eqn:?; [lia|]. }
      apply lookup_lt_Some in Hk. rewrite length_app in Hk. simpl in Hk.
      apply Hblocks in Hk'.
      replace (Z.min (Z.max _ _) _) with (Z.min size ((Z.of_nat k + 1) * bs)); [done|].
      destruct C; [simpl in *; nia|]. specialize (HC'' ltac:(done)). nia.
  - assert (Forall (λ c, stop <= c_start c ∧ chunk_ok c) (concat C)) as HCs.
    { destruct C as [|B1 C]; [constructor|]. eapply contig_starts_after; [done|].
      specialize (HC' ltac:(done)). lia. }
    assert (Forall (λ c, start <= c_start c ∧ chunk_ok c) (concat C)) as HCs'.
    { eapply Forall_impl; [exact HCs|]. simpl. intros c []. split; [lia|done]. }
    rewrite !concat_app. simpl.
    rewrite cs_take_app by (by eapply contig_stops_before; [exact HA|lia]).
    rewrite cs_take_app_r by done.
    rewrite cs_drop_app by (by eapply contig_stops_before; [exact HA|lia]).
    rewrite cs_drop_app_r by done. unfold B'. by rewrite <-!app_assoc.
Qed.

Lemma write_block_wf bs size blocks (i : nat) start stop new B :
  blocks_wf bs size blocks → start <= size →
  Z.of_nat i * bs <= start < stop → stop <= (Z.of_nat i + 1) * bs →
  B = default [] (blocks !! i) → contig start [new] stop →
  let blocks' := write_block blocks i (cs_take B start ++ [new] ++ cs_drop B stop) in
  (i <= length blocks)%nat ∧
  (∃ b, contig (Z.of_nat i * bs) B b ∧ start <= b) ∧
  blocks_wf bs (Z.max size stop) blocks' ∧
  concat blocks' = cs_take (concat blocks) start ++ [new] ++ cs_drop (concat blocks) stop.
Proof.
  intros Hwf ??? HB Hnew blocks'. pose proof Hwf as (Hbs&?&Hlen&_).
  assert (i <= length blocks)%nat as Hi by nia.
  split; [done|]. unfold blocks', write_block. destruct (decide (length blocks = i)) as [Heq|Hne].
  - rewrite lookup_ge_None_2 in HB by lia. simpl in HB. subst B. simpl.
    assert (start = size) as -> by nia. rewrite Z.max_r by nia.
    split; [exists (Z.of_nat i * bs); split; [done|nia]|].
    apply (write_block_append bs); [done|nia|done|nia].
  - destruct (lookup_lt_is_Some_2 blocks i) as [B0 HB0]; [lia|].
    rewrite HB0 in HB. simpl in HB. subst B0.
    apply list_elem_of_split_length in HB0 as (A&C&->&->).
    rewrite insert_app_r_alt, Nat.sub_diag by lia. simpl.
    split; [|by apply write_block_insert].
    destruct (blocks_wf_middle _ _ _ _ _ Hwf) as (_&HBc&_). eexists. split; [done|nia].
Qed.

Lemma lookup_write_block blocks i B j :
  (i <= length blocks)%nat →
  write_block blocks i B !! j = if decide (j = i) then Some B else blocks !! j.
Proof.
  intros. unfold write_block. destruct (decide (length blocks = i)) as [<-|].
  - case_decide; subst; [by apply list_lookup_middle|].
    destruct (decide (j < length blocks)%nat); [by rewrite lookup_app_l|].
    rewrite lookup_app_r, (lookup_ge_None_2 blocks) by lia.
    by destruct (j - length blocks)%nat eqn:?; [lia|].
  - case_decide; subst; [apply list_lookup_insert_eq; lia|by apply list_lookup_insert_ne].
Qed.

(** ** The identifiers of the chunks of a file *)

Lemma elem_of_concat_ids id blocks :
  id ∈ chunk_id_set (concat blocks) ↔ ∃ i b, blocks !! i = Some b ∧ id ∈ chunk_id_set b.
Proof.
  setoid_rewrite elem_of_chunk_id_set. setoid_rewrite list_elem_of_In at 1.
  setoid_rewrite in_concat. setoid_rewrite <-list_elem_of_In.
  setoid_rewrite list_elem_of_lookup at 1. naive_solver.
Qed.

Lemma chunk_id_set_take cs x : chunk_id_set (cs_take cs x) ⊆ chunk_id_set cs.
Proof.
  induction cs as [|c cs IH]; simpl; [done|]. rewrite chunk_id_set_cons.
  repeat case_match; rewrite ?chunk_id_set_cons; simpl; set_solver.
Qed.
Lemma chunk_id_set_drop cs x : chunk_id_set (cs_drop cs x) ⊆ chunk_id_set cs.
Proof.
  induction cs as [|c cs IH]; simpl; [done|]. rewrite chunk_id_set_cons.
  repeat case_match; rewrite ?chunk_id_set_cons; simpl; set_solver.
Qed.

(** The ids [fresh 0], [fresh 1], ... are distinct and new to the file. *)
Definition fresh_for (fresh : nat → ChunkID) (m : LocalFileManifest) : Prop :=
  Inj eq eq fresh ∧ ∀ k, fresh k ∉ chunk_id_set (all_chunks m).

(** What holds of the ids after [k] new chunks are written. *)
Record ids_inv (m : LocalFileManifest) (fresh : nat → ChunkID) (k : nat)
    (blocks : list (list Chunk)) (removed : gset ChunkID) : Prop := {
  ii_disjoint : ids_disjoint blocks;
  ii_known : ∀ id, id ∈ chunk_id_set (concat blocks) →
    id ∈ chunk_id_set (all_chunks m) ∨ ∃ j, (j < k)%nat ∧ id = fresh j;
  ii_removed : ∀ id, id ∈ removed ↔
    id ∈ chunk_id_set (all_chunks m) ∧ id ∉ chunk_id_set (concat blocks) }.

Lemma ids_inv_init m fresh : ids_disjoint (lf_blocks m) → ids_inv m fresh 0 (lf_blocks m) ∅.
Proof. intros. split; [done|by left|]. unfold all_chunks. set_solver. Qed.

Lemma ids_inv_step m fresh k blocks removed i B B' :
  fresh_for fresh m → ids_inv m fresh k blocks removed → (i <= length blocks)%nat →
  B = default [] (blocks !! i) → blocks !! i = lf_blocks m !! i →
  chunk_id_set B' ⊆ chunk_id_set B ∪ {[fresh k]} →
  ids_inv m fresh (S k) (write_block blocks i B')
    (removed ∪ chunk_id_set B ∖ chunk_id_set B').
Proof.
  intros [Hinj Hfresh] [Hdisj Hknown Hrem] Hi HB Horig HB'.
  assert (∀ id, id ∈ chunk_id_set B → ∃ b, blocks !! i = Some b ∧ id ∈ chunk_id_set b) as HBin.
  { intros id. rewrite HB. destruct (blocks !! i) as [b|]; simpl; [eauto|set_solver]. }
  assert (fresh k ∉ chunk_id_set (concat blocks)) as Hnew.
  { intros [?|(j&?&Heq%Hinj)]%Hknown; [by eapply Hfresh|lia]. }
  assert (∀ j b, blocks !! j = Some b → ∀ id, id ∈ chunk_id_set b → id ∈ chunk_id_set B' → j = i)
    as Hother.
  { intros j b Hj id Hid [Hin|Hs%elem_of_singleton]%HB'%elem_of_union; [|subst id].
    - apply HBin in Hin as (b'&?&?). by eapply (Hdisj j i b b' id).
    - destruct Hnew. apply elem_of_concat_ids. eauto. }
  assert (∀ id, id ∈ chunk_id_set (concat (write_block blocks i B')) ↔
    id ∈ chunk_id_set B' ∨ ∃ j b, j ≠ i ∧ blocks !! j = Some b ∧ id ∈ chunk_id_set b) as Hin.
  { intros id. rewrite elem_of_concat_ids. setoid_rewrite lookup_write_block; [|done]. split.
    - intros (j&b&Hj&?). case_decide; simplify_eq; eauto 10.
    - intros [?|(j&b&?&?&?)]; [exists i, B'|exists j, b]; by case_decide. }
  split.
  - intros j1 j2 b1 b2 id. rewrite !lookup_write_block by done.
    repeat case_decide; simplify_eq; intros; simplify_eq; try done.
    + symmetry. by eapply Hother.
    + by eapply Hother.
    + by eapply (Hdisj j1 j2 b1 b2 id).
  - intros id. rewrite Hin. intros [[Hid|Hs%elem_of_singleton]%HB'%elem_of_union|(j&b&?&?&?)];
          [|subst id|].
    + apply HBin in Hid as (b&?&?). destruct (Hknown id) as [?|(j'&?&?)]; [|by left|].
      { apply elem_of_concat_ids. eauto. } right. exists j'. split; [lia|done].
    + right. exists k. split; [lia|done].
    + destruct (Hknown id) as [?|(j'&?&?)]; [|by left|].
      { apply elem_of_concat_ids. eauto. } right. exists j'. split; [lia|done].
  - intros id. rewrite elem_of_union, elem_of_difference, Hrem, Hin.
    rewrite (elem_of_concat_ids id blocks).
    assert (id ∈ chunk_id_set B → id ∈ chunk_id_set (all_chunks m)) as HBm.
    { intros (b&?&?)%HBin. apply elem_of_concat_ids. exists i, b. by rewrite <-Horig. }
    split.
    + intros [[? Hno]|[HidB HidB']].
      * split; [done|]. intros [[Hid|Hs%elem_of_singleton]%HB'%elem_of_union|(j&b&?&?&?)];
          [|subst id|].
        -- apply HBin in Hid as (b&?&?). eauto.
        -- by eapply Hfresh.
        -- eauto.
      * split; [auto|]. intros [?|(j&b&Hj&?&?)]; [done|].
        apply HBin in HidB as (b'&?&?). apply Hj. by eapply (Hdisj j i b b' id).
    + intros [? Hno]. destruct (decide (id ∈ chunk_id_set B)) as [|HidB].
      { right. split; [done|]. intros ?. apply Hno. by left. }
      left. split; [done|]. intros (j&b&Hj&?). apply Hno. right. exists j, b.
      split_and!; try done. intros ->. apply HidB. rewrite HB, Hj. done.
Qed.

(** ** [prepare_write] *)

(** The chunk [Chunk.new(start, stop)] returns. *)
Definition fresh_chunk (id : ChunkID) (start stop : Z) : Chunk :=
  mkChunk id start stop start (stop - start) None.

Lemma chunk_new_ok id start stop :
  start < stop → chunk_new id start stop = Ok (fresh_chunk id start stop).
Proof. intros. unfold chunk_new, py_assert. by destruct (Z.ltb_spec start stop); [|lia]. Qed.

Lemma fresh_chunk_contig id start stop :
  start < stop → contig start [fresh_chunk id start stop] stop.
Proof. intros. simpl. split_and!; [done| |done]. split; simpl; lia. Qed.

(** What one turn of the loop does, on a file whose block [i] is written from
    [start] to [stop]. *)
Lemma write_step_ok m padding id (i : nat) start stop co st :
  blocks_wf (lf_blocksize m) (Z.max (lf_size m) start) (ws_blocks st) →
  Z.of_nat i * lf_blocksize m <= start < stop →
  stop <= (Z.of_nat i + 1) * lf_blocksize m →
  ws_blocks st !! i = lf_blocks m !! i →
  let B := default [] (ws_blocks st !! i) in
  let new := fresh_chunk id start stop in
  let B' := cs_take B start ++ [new] ++ cs_drop B stop in
  write_step m padding id (Z.of_nat i, stop - start, start, co) st
    = Ok (mkWriteState (write_block (ws_blocks st) i B')
            (ws_operations st ++ [(new, co - padding)])
            (ws_removed_ids st ∪ chunk_id_set B ∖ chunk_id_set B')).
Proof.
  intros Hwf Hstart Hstop Hi B new B'.
  destruct (write_block_wf _ _ _ i start stop new B Hwf) as (Hlen&(b&HB&Hb)&_);
    try done; try lia; [by apply fresh_chunk_contig; lia|].
  unfold write_step. rewrite Z.add_sub_assoc, Z.add_simpl_l. rewrite chunk_new_ok by lia. simpl.
  assert (get_chunks m (Z.of_nat i) = B) as ->.
  { unfold get_chunks, B. rewrite py_index_nonneg, Nat2Z.id, Hi by lia. by destruct (_ !! _). }
  rewrite (block_write_chunks (Z.of_nat i * lf_blocksize m) B b) by (done || lia). simpl.
  rewrite Z.add_sub_assoc, Z.add_simpl_l. fold new. fold B'.
  unfold write_block. destruct (Z.eqb_spec (Z.of_nat (length (ws_blocks st))) (Z.of_nat i)).
  - rewrite decide_True by lia. done.
  - rewrite decide_False by lia. rewrite py_set_nonneg, Nat2Z.id by lia. done.
Qed.

(** What holds before the turn that writes from [cur], after [k] turns of a
    write that starts at [offset]; [o] is the file position of the first byte
    of the data. *)
Record write_inv (m : LocalFileManifest) (fresh : nat → ChunkID) (o offset : Z)
    (k : nat) (cur : Z) (st : WriteState) : Prop := {
  wi_wf : blocks_wf (lf_blocksize m) (Z.max (lf_size m) cur) (ws_blocks st);
  wi_take : cs_take (concat (ws_blocks st)) cur
              = cs_take (all_chunks m) offset ++ (ws_operations st).*1;
  wi_drop : cs_drop (concat (ws_blocks st)) cur = cs_drop (all_chunks m) cur;
  wi_glue : (k > 0)%nat → concat (ws_blocks st)
              = cs_take (concat (ws_blocks st)) cur ++ cs_drop (concat (ws_blocks st)) cur;
  wi_length : length (ws_operations st) = k;
  wi_news : contig offset (ws_operations st).*1 cur;
  wi_ops : ∀ j c co, ws_operations st !! j = Some (c, co) →
    c = fresh_chunk (fresh j) (c_start c) (c_stop c) ∧ co = c_start c - o;
  wi_ids : fresh_for fresh m → ids_disjoint (lf_blocks m) →
    ids_inv m fresh k (ws_blocks st) (ws_removed_ids st) }.

Lemma write_inv_init m fresh o offset :
  lf_wf m → 0 <= offset <= lf_size m →
  write_inv m fresh o offset 0 offset (mkWriteState (lf_blocks m) [] ∅).
Proof.
  intros Hwf ?. split; simpl; try done.
  - by rewrite Z.max_l by lia.
  - by rewrite app_nil_r.
  - lia.
  - intros. by apply ids_inv_init.
Qed.

Lemma cs_drop_starts_after a cs b x :
  contig a cs b → a <= x → Forall (λ c, x <= c_start c ∧ chunk_ok c) (cs_drop cs x).
Proof.
  intros Hcs ?. destruct (decide (x <= b)).
  - eapply contig_starts_after; [by eapply contig_drop|lia].
  - rewrite (cs_drop_none _ _ _ _ Hcs) by lia. constructor.
Qed.

(** Cutting, at the end of the new chunk, a list of chunks written to. *)
Lemma cs_write_cut a cs b start stop new :
  contig a cs b → a <= start <= b → contig start [new] stop →
  let cs' := cs_take cs start ++ [new] ++ cs_drop cs stop in
  cs_take cs' stop = cs_take cs start ++ [new] ∧ cs_drop cs' stop = cs_drop cs stop.
Proof.
  intros Hcs ? Hnew cs'. pose proof (contig_le _ _ _ Hnew).
  assert (contig a (cs_take cs start ++ [new]) stop) as Hfst.
  { apply contig_app. exists start. split; [by eapply contig_take|done]. }
  assert (Forall (λ c, stop <= c_start c ∧ chunk_ok c) (cs_drop cs stop)) as Hsnd
    by (eapply cs_drop_starts_after; [done|lia]).
  unfold cs'. rewrite app_assoc. split.
  - rewrite cs_take_app_r by done. by eapply cs_take_all; [|reflexivity].
  - rewrite cs_drop_app_r by done. by rewrite (cs_drop_none _ _ _ _ Hfst).
Qed.

Lemma write_inv_step m padding fresh o offset k cur st (i : nat) stop :
  write_inv m fresh o offset k cur st → 0 <= offset <= lf_size m → offset + padding = o →
  Z.of_nat i * lf_blocksize m <= cur < stop → stop <= (Z.of_nat i + 1) * lf_blocksize m →
  ws_blocks st !! i = lf_blocks m !! i →
  ∃ st',
    write_step m padding (fresh k) (Z.of_nat i, stop - cur, cur, cur - offset) st = Ok st' ∧
    write_inv m fresh o offset (S k) stop st' ∧
    ∀ j, j ≠ i → ws_blocks st' !! j = ws_blocks st !! j.
Proof.
  intros [Hwf Htake Hdrop Hglue Hlen Hnews Hops Hids] Hoff Ho Hcur Hstop Hi.
  pose proof (write_step_ok m padding (fresh k) i cur stop (cur - offset) st Hwf Hcur Hstop Hi)
    as Hstep. cbv zeta in Hstep.
  set (B := default [] (ws_blocks st !! i)) in *.
  set (new := fresh_chunk (fresh k) cur stop) in *.
  set (B' := cs_take B cur ++ [new] ++ cs_drop B stop) in *.
  assert (contig cur [new] stop) as Hnew by (apply fresh_chunk_contig; lia).
  destruct (write_block_wf _ _ _ i cur stop new B Hwf) as (Hilen&_&Hwf'&Hconcat);
    try done; try lia. fold B' in Hwf', Hconcat.
  pose proof (blocks_wf_contig _ _ _ Hwf) as Hall. pose proof (contig_le _ _ _ Hnews).
  destruct (cs_write_cut _ _ _ cur stop new Hall) as [Htake' Hdrop']; [lia|done|].
  rewrite <-Hconcat in Htake', Hdrop'.
  eexists. split; [exact Hstep|]. split; [split; cbn [ws_blocks ws_operations ws_removed_ids]|].
  - by replace (Z.max (lf_size m) stop) with (Z.max (Z.max (lf_size m) cur) stop) by lia.
  - rewrite Htake', Htake, fmap_app. by rewrite app_assoc.
  - rewrite Hdrop'. rewrite <-(cs_drop_drop _ cur), Hdrop by lia. apply cs_drop_drop. lia.
  - intros _. rewrite Htake', Hdrop', Hconcat. by rewrite <-app_assoc.
  - rewrite length_app. simpl. lia.
  - rewrite fmap_app. apply contig_app. eauto.
  - intros j c co [Hj|[? Hj]]%lookup_app_Some; [by eapply Hops|].
    apply list_lookup_singleton_Some in Hj as [? [= <- <-]].
    replace j with k by lia. split; [done|]. unfold new. simpl. lia.
  - intros Hfresh Hd. apply ids_inv_step; auto.
    unfold B'. rewrite !chunk_id_set_app, chunk_id_set_cons.
    pose proof (chunk_id_set_take B cur). pose proof (chunk_id_set_drop B stop).
    assert (chunk_id_set [] = ∅) by done. set_solver.
  - intros j ?. simpl. rewrite lookup_write_block by done. by case_decide.
Qed.

(** The operations of the blocks from [i] on. *)
Definition write_ops (bs offset size : Z) (i : nat) (n : nat) : list (Z * Z * Z * Z) :=
  (λ i, let start := Z.max offset (i * bs) in
        let stop := Z.min (offset + size) ((i + 1) * bs) in
        (i, stop - start, start, start - offset)) <$> seqZ (Z.of_nat i) (Z.of_nat n).

Lemma split_write_ops size offset bs :
  0 < bs → 0 <= offset → 0 < size →
  split_write size offset bs
    = write_ops bs offset size (Z.to_nat (offset / bs))
        (Z.to_nat ((offset + size - 1) / bs - offset / bs + 1)).
Proof.
  intros. assert (0 <= offset / bs) by (apply Z.div_pos; lia).
  assert (offset / bs <= (offset + size - 1) / bs) by (apply Z.div_le_mono; lia).
  unfold split_write, locate_range, write_ops, py_range. simpl.
  rewrite <-list_fmap_compose, !Z2Nat.id by lia.
  replace (_ + 1 - _) with ((offset + size - 1) / bs - offset / bs + 1) by lia.
  apply list_fmap_ext. intros _ i _. simpl. by replace (i * bs + bs) with ((i + 1) * bs) by lia.
Qed.

Lemma write_loop_ok m padding fresh o offset size n i k cur st :
  write_inv m fresh o offset k cur st → 0 < lf_blocksize m → 0 <= offset <= lf_size m →
  offset + padding = o →
  cur = Z.max offset (Z.of_nat i * lf_blocksize m) →
  (∀ j, (i <= j)%nat → ws_blocks st !! j = lf_blocks m !! j) →
  (0 < n)%nat → cur < (Z.of_nat i + 1) * lf_blocksize m →
  (Z.of_nat i + Z.of_nat n - 1) * lf_blocksize m < offset + size
    <= (Z.of_nat i + Z.of_nat n) * lf_blocksize m →
  cur < offset + size →
  ∃ st', write_loop m padding fresh k (write_ops (lf_blocksize m) offset size i n) st = Ok st' ∧
    write_inv m fresh o offset (k + n) (offset + size) st'.
Proof.
  revert i k cur st. induction n as [|n IH]; intros i k cur st Hinv Hbs Hoff Ho Hcur Hrest Hn Hlt Hend Hs;
    [lia|].
  unfold write_ops. rewrite seqZ_cons by lia. rewrite fmap_cons. cbn [write_loop].
  rewrite <-Hcur.
  destruct (write_inv_step m padding fresh o offset k cur st i
              (Z.min (offset + size) ((Z.of_nat i + 1) * lf_blocksize m)))
    as (st'&->&Hinv'&Hother); try done; try nia; [by apply Hrest|].
  simpl. destruct n as [|n].
  - simpl. exists st'. split; [done|]. rewrite Nat.add_1_r.
    by replace (offset + size) with (Z.min (offset + size) ((Z.of_nat i + 1) * lf_blocksize m)) by nia.
  - replace (Z.pred _) with (Z.of_nat (S n)) by lia.
    replace (Z.succ _) with (Z.of_nat (S i)) by lia.
    replace (k + S (S n))%nat with (S k + S n)%nat by lia.
    eapply (IH (S i) (S k) _ st' Hinv'); try done; try nia.
    intros j ?. rewrite Hother by lia. apply Hrest. lia.
Qed.

(** What a write returns: the new manifest is well-formed, its chunks are those
    of the old one around the new chunks, which are to be filled with the data
    from [c_start c - offset] on, and the ids to remove are those that the
    manifest does not use any more. *)
Record write_spec (now : DateTime) (fresh : nat → ChunkID) (m : LocalFileManifest)
    (size offset : Z) (m' : LocalFileManifest) (ops : list (Chunk * Z))
    (removed : gset ChunkID) : Prop := {
  wr_wf : lf_wf m';
  wr_manifest : m' = file_evolve_and_mark_updated now m
                       (Z.max (lf_size m) (offset + size)) (lf_blocks m');
  wr_chunks : all_chunks m' = cs_take (all_chunks m) (Z.min offset (lf_size m))
                ++ ops.*1 ++ cs_drop (all_chunks m) (offset + size);
  wr_news : contig (Z.min offset (lf_size m)) ops.*1 (offset + size);
  wr_ops : ∀ j c co, ops !! j = Some (c, co) →
    c = fresh_chunk (fresh j) (c_start c) (c_stop c) ∧ co = c_start c - offset;
  wr_ids : fresh_for fresh m → ids_disjoint (lf_blocks m) →
    ids_disjoint (lf_blocks m') ∧
    removed = chunk_id_set (all_chunks m) ∖ chunk_id_set (all_chunks m') }.

Lemma write_spec_of_inv now fresh m size offset k st :
  write_inv m fresh offset (Z.min offset (lf_size m)) (S k) (offset + size) st →
  write_spec now fresh m size offset
    (file_evolve_and_mark_updated now m (Z.max (lf_size m) (offset + size)) (ws_blocks st))
    (ws_operations st) (ws_removed_ids st).
Proof.
  intros [Hwf Htake Hdrop Hglue Hlen Hnews Hops Hids].
  split; try done; unfold all_chunks at 1; cbn [lf_blocks file_evolve_and_mark_updated].
  - rewrite Hglue, Htake, Hdrop by lia. by rewrite <-app_assoc.
  - intros Hf Hd. destruct (Hids Hf Hd) as [Hdis _ Hrem]. split; [done|].
    apply set_eq. intros id. rewrite Hrem, elem_of_difference. done.
Qed.

Lemma prepare_write_ok now fresh m size offset :
  lf_wf m → 0 <= offset → 0 <= size → (0 < size ∨ lf_size m < offset) →
  ∃ m' ops removed,
    prepare_write now fresh m size offset = Ok (m', ops, removed) ∧
    write_spec now fresh m size offset m' ops removed.
Proof.
  intros Hwf Hoff Hsize Hne.
  set (off := Z.min offset (lf_size m)). set (padding := offset - off).
  assert (prepare_write now fresh m size offset =
    st ← write_loop m padding fresh 0
           (split_write (size + padding) off (lf_blocksize m))
           (mkWriteState (lf_blocks m) [] ∅);
    Ok (file_evolve_and_mark_updated now m (Z.max (lf_size m) (offset + size)) (ws_blocks st),
        ws_operations st, ws_removed_ids st)) as ->.
  { unfold prepare_write, padding, off. destruct (Z.ltb_spec (lf_size m) offset).
    - rewrite Z.min_r by lia. by replace (lf_size m + _) with (offset + size) by lia.
    - rewrite Z.min_l by lia. by rewrite Z.sub_diag, Z.add_0_r. }
  pose proof Hwf as (Hbs&Hms&Hlen&_).
  assert (0 <= off <= lf_size m) as Ho by lia.
  rewrite split_write_ops by lia.
  pose proof (Z.div_mod off (lf_blocksize m) ltac:(lia)). pose proof (Z.mod_pos_bound off (lf_blocksize m) ltac:(lia)).
  pose proof (Z.div_mod (off + (size + padding) - 1) (lf_blocksize m) ltac:(lia)).
  pose proof (Z.mod_pos_bound (off + (size + padding) - 1) (lf_blocksize m) ltac:(lia)).
  assert (0 <= off / (lf_blocksize m)) by (apply Z.div_pos; lia).
  assert (off / (lf_blocksize m) <= (off + (size + padding) - 1) / (lf_blocksize m)) by (apply Z.div_le_mono; lia).
  destruct (write_loop_ok m padding fresh offset off (size + padding)
    (Z.to_nat ((off + (size + padding) - 1) / (lf_blocksize m) - off / (lf_blocksize m) + 1)) (Z.to_nat (off / (lf_blocksize m))) 0 off
    (mkWriteState (lf_blocks m) [] ∅)) as (st&Hloop&Hinv); try done; try nia.
  { apply write_inv_init; [done|lia]. }
  rewrite Hloop. simpl. do 3 eexists. split; [done|].
  rewrite Nat.add_0_l in Hinv.
  destruct (Z.to_nat _) as [|k] eqn:Hk in Hinv; [lia|].
  apply (write_spec_of_inv _ _ _ _ _ k). fold off.
  by replace (offset + size) with (off + (size + padding)) by lia.
Qed.

(** ** [prepare_truncate] *)

Lemma cs_take_last a cs b x :
  contig a cs b → a < x < b →
  ∃ l1 c l2, cs = l1 ++ c :: l2 ∧
    index_of_chunk_after_stop cs x = Z.of_nat (length l1) + 1 ∧
    cs_take cs x = l1 ++ [evolve_stop c x].
Proof.
  intros Hcs ?. assert (cs ≠ []) as Hne by (intros ->; simpl in *; lia).
  destruct (contig_split _ _ _ x Hcs) as (k1&k2&Hk&Hk1&Hk2).
  destruct (contig_after_stop _ _ _ x Hcs Hne) as (l1&c&l2&Hl&Hi&Hl1&Hc&Hdrop); [lia|].
  exists l1, c, l2. split_and!; [done..|].
  rewrite Hl, cs_take_app by (eapply Forall_impl; [exact Hl1|]; simpl; lia).
  f_equal. simpl. pose proof (index_of_chunk_after_stop_app k1 k2 x Hk1 Hk2) as Hj.
  rewrite <-Hk, Hi in Hj.
  assert (l2 = k2) as ->.
  { rewrite Hl in Hk. replace (l1 ++ c :: l2) with ((l1 ++ [c]) ++ l2) in Hk
      by by rewrite <-app_assoc.
    apply app_inj_1 in Hk as [_ ?]; [done|]. rewrite length_app. simpl. lia. }
  assert (x <= c_stop c).
  { rewrite Hl in Hcs. apply contig_app in Hcs as (y&_&_&_&Hr).
    destruct k2 as [|d k2]; simpl in Hr; [lia|].
    apply Forall_inv in Hk2. destruct Hr. lia. }
  assert (cs_take k2 x = []) as ->.
  { apply cs_take_nil, Forall_and. split; [exact Hk2|].
    rewrite Hl in Hcs. apply contig_app in Hcs as (y&_&_&_&Hr%contig_bounds).
    eapply Forall_impl; [exact Hr|]. simpl. naive_solver. }
  destruct (Z.leb_spec (c_stop c) x), (Z.ltb_spec (c_start c) x); try done; try lia.
  assert (x = c_stop c) as -> by lia. by rewrite evolve_stop_id.
Qed.

(** The ids of the chunks a truncation drops. *)
Lemma foldl_chunk_id_set blocks removed :
  foldl (λ removed_ids chunks, removed_ids ∪ chunk_id_set chunks) removed blocks
    = removed ∪ chunk_id_set (concat blocks).
Proof.
  revert removed. induction blocks as [|b blocks IH]; intros removed; simpl.
  - assert (chunk_id_set [] = ∅) as -> by done. by rewrite union_empty_r_L.
  - by rewrite IH, chunk_id_set_app, union_assoc_L.
Qed.

Lemma prepare_truncate_blocks now m size A B C :
  lf_blocks m = A ++ B :: C → lf_wf m → 0 <= size < lf_size m →
  size / lf_blocksize m = Z.of_nat (length A) →
  let B' := if size mod lf_blocksize m =? 0 then [] else [cs_take B size] in
  prepare_truncate now m size
    = Ok (file_evolve_and_mark_updated now m size (A ++ B'),
          chunk_id_set B ∖ chunk_id_set (concat B') ∪ chunk_id_set (concat C)).
Proof.
  intros Hblocks Hwf Hsize Hdiv B'. unfold lf_wf in Hwf. rewrite Hblocks in Hwf.
  pose proof (blocks_wf_middle _ _ _ _ _ Hwf) as (HA&HB&HC&_). destruct Hwf as (Hbs&_).
  unfold prepare_truncate, locate. rewrite Hdiv, Hblocks.
  rewrite index_or_raise_app. cbn -[Z.modulo Z.add]. rewrite py_slice_prefix.
  assert (py_slice (A ++ B :: C) (Z.of_nat (length A) + 1)
            (Z.of_nat (length (A ++ B :: C))) = C) as ->.
  { replace (A ++ B :: C) with ((A ++ [B]) ++ C) by by rewrite <-app_assoc.
    replace (Z.of_nat (length A) + 1) with (Z.of_nat (length (A ++ [B])))
      by (rewrite length_app; simpl; lia).
    apply py_slice_suffix. }
  unfold B'. pose proof (Z.div_mod size (lf_blocksize m) ltac:(lia)).
  pose proof (Z.mod_pos_bound size (lf_blocksize m) ltac:(lia)).
  destruct (Z.eqb_spec (size mod lf_blocksize m) 0); simpl.
  - rewrite app_nil_r, foldl_chunk_id_set.
    assert (chunk_id_set [] = ∅) as -> by done. by rewrite difference_empty_L.
  - destruct (cs_take_last _ _ _ size HB) as (l1&c&l2&Hl&Hi&Htake); [nia|].
    rewrite Hi, Z.add_simpl_r. rewrite Hl at 1. rewrite index_or_raise_app. simpl.
    assert (py_slice B 0 (Z.of_nat (length l1)) = l1) as -> by by rewrite Hl, py_slice_prefix.
    by rewrite foldl_chunk_id_set, Htake, app_nil_r.
Qed.

(** The file a truncation leaves. *)
Lemma truncate_blocks_wf bs msize size A B C :
  blocks_wf bs msize (A ++ B :: C) → 0 <= size < msize → size / bs = Z.of_nat (length A) →
  let B' := if size mod bs =? 0 then [] else [cs_take B size] in
  blocks_wf bs size (A ++ B') ∧ concat (A ++ B') = cs_take (concat (A ++ B :: C)) size.
Proof.
  intros Hwf Hsize Hdiv B'.
  destruct (blocks_wf_middle _ _ _ _ _ Hwf) as (HA&HB&HC&_).
  destruct Hwf as (Hbs&?&Hlen&Hblocks).
  pose proof (Z.div_mod size bs ltac:(lia)). pose proof (Z.mod_pos_bound size bs ltac:(lia)).
  split.
  - split_and!; [done|lia|..].
    1,2: rewrite length_app; unfold B'; destruct (Z.eqb_spec (size mod bs) 0); simpl; nia.
    intros k cs [Hk|[? Hk]]%lookup_app_Some.
    + pose proof (lookup_lt_Some _ _ _ Hk).
      pose proof (Hblocks k cs ltac:(by apply lookup_app_l_Some)) as Hcs.
      by replace (Z.min size _) with (Z.min msize ((Z.of_nat k + 1) * bs)) by nia.
    + unfold B' in Hk. destruct (Z.eqb_spec (size mod bs) 0); [done|].
      apply list_lookup_singleton_Some in Hk as [? <-].
      replace (Z.of_nat k) with (Z.of_nat (length A)) by lia.
      replace (Z.min size _) with size by nia. eapply contig_take; [done|nia].
  - rewrite !concat_app. simpl. symmetry.
    rewrite cs_take_app by (by eapply contig_stops_before; [exact HA|nia]). f_equal.
    assert (concat B' = cs_take B size) as ->.
    { unfold B'. destruct (Z.eqb_spec (size mod bs) 0); simpl; [|by rewrite app_nil_r].
      rewrite cs_take_nil; [done|]. eapply contig_starts_after; [done|nia]. }
    apply cs_take_app_r. eapply contig_starts_after; [done|nia].
Qed.

Record truncate_spec (now : DateTime) (m : LocalFileManifest) (size : Z)
    (m' : LocalFileManifest) (removed : gset ChunkID) : Prop := {
  tr_wf : lf_wf m';
  tr_manifest : m' = file_evolve_and_mark_updated now m size (lf_blocks m');
  tr_chunks : all_chunks m' = cs_take (all_chunks m) size;
  tr_ids : ids_disjoint (lf_blocks m) →
    ids_disjoint (lf_blocks m') ∧
    removed = chunk_id_set (all_chunks m) ∖ chunk_id_set (all_chunks m') }.

Lemma truncate_ids A B C B' :
  ids_disjoint (A ++ B :: C) → (B' = [] ∨ ∃ b, B' = [b] ∧ chunk_id_set b ⊆ chunk_id_set B) →
  ids_disjoint (A ++ B') ∧
  chunk_id_set B ∖ chunk_id_set (concat B') ∪ chunk_id_set (concat C)
    = chunk_id_set (concat (A ++ B :: C)) ∖ chunk_id_set (concat (A ++ B')).
Proof.
  intros Hd HB'.
  assert (∀ k b, (A ++ B') !! k = Some b →
    ∃ b0, (A ++ B :: C) !! k = Some b0 ∧ chunk_id_set b ⊆ chunk_id_set b0 ∧ (k <= length A)%nat)
    as Hsub.
  { intros k b [Hk|[? Hk]]%lookup_app_Some.
    - exists b. split_and!; [by apply lookup_app_l_Some|done|].
      apply lookup_lt_Some in Hk. lia.
    - destruct HB' as [->|(b0&->&?)]; [done|].
      apply list_lookup_singleton_Some in Hk as [? <-]. exists B.
      assert (k = length A) as -> by lia. split_and!; [by apply list_lookup_middle|done|lia]. }
  split.
  - intros i j bi bj id (b1&Hi&Hs1&_)%Hsub (b2&Hj&Hs2&_)%Hsub ??.
    eapply (Hd i j b1 b2 id); auto.
  - apply set_eq. intros id. rewrite elem_of_union, !elem_of_difference, !concat_app.
    simpl. rewrite !chunk_id_set_app, !elem_of_union.
    assert (id ∈ chunk_id_set (concat B') → id ∈ chunk_id_set B).
    { destruct HB' as [->|(b&->&?)]; simpl; rewrite ?app_nil_r; set_solver. }
    assert (id ∈ chunk_id_set (concat A) → id ∈ chunk_id_set B ∨ id ∈ chunk_id_set (concat C)
      → False) as HA.
    { intros (i&b&Hi&?)%elem_of_concat_ids.
      pose proof (lookup_lt_Some _ _ _ Hi).
      apply (lookup_app_l_Some _ (B :: C)) in Hi. intros [?|(j&c&Hj&?)%elem_of_concat_ids].
      - assert (i = length A); [|lia].
        eapply (Hd _ _ b B id); try done. by apply list_lookup_middle.
      - assert (i = length A + S j)%nat; [|lia].
        eapply (Hd _ _ b c id); try done. rewrite lookup_app_r by lia.
        by replace (_ - _)%nat with (S j) by lia. }
    assert (id ∈ chunk_id_set (concat C) → id ∈ chunk_id_set B → False).
    { intros (j&c&Hj&?)%elem_of_concat_ids ?.
      assert (length A = length A + S j)%nat; [|lia].
      eapply (Hd _ _ B c id); try done; [by apply list_lookup_middle|].
      rewrite lookup_app_r by lia. by replace (_ - _)%nat with (S j) by lia. }
    tauto.
Qed.

Lemma prepare_truncate_ok now m size :
  lf_wf m → 0 <= size < lf_size m →
  ∃ m' removed, prepare_truncate now m size = Ok (m', removed) ∧
    truncate_spec now m size m' removed.
Proof.
  intros Hwf Hsize. pose proof Hwf as (Hbs&_&Hlen&_).
  pose proof (Z.div_mod size (lf_blocksize m) ltac:(lia)).
  pose proof (Z.mod_pos_bound size (lf_blocksize m) ltac:(lia)).
  assert (0 <= size / lf_blocksize m) by (apply Z.div_pos; lia).
  destruct (lookup_lt_is_Some_2 (lf_blocks m) (Z.to_nat (size / lf_blocksize m))) as [B HB];
    [nia|].
  apply list_elem_of_split_length in HB as (A&C&Hblocks&HA).
  assert (size / lf_blocksize m = Z.of_nat (length A)) as Hdiv by lia.
  rewrite (prepare_truncate_blocks now m size A B C) by done.
  unfold lf_wf in Hwf. rewrite Hblocks in Hwf.
  destruct (truncate_blocks_wf _ _ size A B C Hwf Hsize Hdiv) as [Hwf' Hconcat].
  do 2 eexists. split; [done|].
  split; unfold all_chunks; simpl; rewrite ?Hblocks; try done.
  intros Hd. apply truncate_ids; [done|].
  destruct (_ =? 0); [by left|right]. eexists. split; [done|]. apply chunk_id_set_take.
Qed.

(** ** The bytes of a file *)

(** What the client can read: the data stored under each chunk id. *)
Abbreviation Store := (ChunkID → option bytes) (only parsing).

(** The part of its stored data that a chunk uses, [FileTransactions._read_chunk]. *)
Definition slice_chunk (c : Chunk) (data : bytes) : bytes :=
  py_slice data (c_start c - c_raw_offset c) (c_stop c - c_raw_offset c).
Definition chunk_bytes (σ : Store) (c : Chunk) : bytes :=
  match σ (c_id c) with Some data => slice_chunk c data | None => [] end.
Definition chunks_bytes (σ : Store) (cs : list Chunk) : bytes :=
  concat (chunk_bytes σ <$> cs).

(** The data of a chunk is stored, with the size the chunk says. *)
Definition stored (σ : Store) (c : Chunk) : Prop :=
  ∃ data, σ (c_id c) = Some data ∧ Z.of_nat (length data) = c_raw_size c.

(** The content of a file. *)
Definition content (σ : Store) (m : LocalFileManifest) : bytes := chunks_bytes σ (all_chunks m).
Definition all_stored (σ : Store) (m : LocalFileManifest) : Prop :=
  Forall (stored σ) (all_chunks m).

Lemma chunks_bytes_app σ l1 l2 : chunks_bytes σ (l1 ++ l2) = chunks_bytes σ l1 ++ chunks_bytes σ l2.
Proof. unfold chunks_bytes. by rewrite fmap_app, concat_app. Qed.

Lemma chunks_bytes_cons σ c l : chunks_bytes σ (c :: l) = chunk_bytes σ c ++ chunks_bytes σ l.
Proof. done. Qed.

Lemma chunk_bytes_eq σ c data :
  σ (c_id c) = Some data → Z.of_nat (length data) = c_raw_size c → chunk_ok c →
  chunk_bytes σ c = take (Z.to_nat (c_stop c - c_start c))
                      (drop (Z.to_nat (c_start c - c_raw_offset c)) data).
Proof.
  intros Hσ Hlen []. unfold chunk_bytes, slice_chunk. rewrite Hσ.
  rewrite py_slice_nonneg by lia. f_equal. lia.
Qed.

Lemma length_chunk_bytes σ c :
  stored σ c → chunk_ok c → Z.of_nat (length (chunk_bytes σ c)) = c_stop c - c_start c.
Proof.
  intros (data&Hσ&Hlen) Hok. rewrite (chunk_bytes_eq _ _ data) by done.
  destruct Hok. rewrite length_take, length_drop. lia.
Qed.

Lemma chunk_bytes_evolve_stop σ c x :
  stored σ c → chunk_ok c → c_start c < x <= c_stop c →
  chunk_bytes σ (evolve_stop c x) = take (Z.to_nat (x - c_start c)) (chunk_bytes σ c).
Proof.
  intros (data&Hσ&Hlen) Hok ?. rewrite !(chunk_bytes_eq _ _ data); try done.
  - simpl. rewrite take_take. f_equal. lia.
  - destruct Hok. split; simpl; lia.
Qed.

Lemma chunk_bytes_evolve_start σ c x :
  stored σ c → chunk_ok c → c_start c <= x < c_stop c →
  chunk_bytes σ (evolve_start c x) = drop (Z.to_nat (x - c_start c)) (chunk_bytes σ c).
Proof.
  intros (data&Hσ&Hlen) Hok ?. pose proof Hok as []. rewrite !(chunk_bytes_eq _ _ data); try done.
  - simpl. rewrite skipn_firstn_comm, drop_drop. f_equal; [lia|]. f_equal. lia.
  - split; simpl; lia.
Qed.

Lemma length_chunks_bytes σ a cs b :
  contig a cs b → Forall (stored σ) cs → Z.of_nat (length (chunks_bytes σ cs)) = b - a.
Proof.
  revert a. induction cs as [|c cs IH]; intros a; simpl; [lia|].
  intros (<-&Hok&Hcs) [Hst Hsts]%Forall_cons. rewrite chunks_bytes_cons, length_app, Nat2Z.inj_add, length_chunk_bytes by done.
  rewrite (IH _ Hcs Hsts). lia.
Qed.

(** Cutting the chunks cuts the bytes. *)
Lemma chunks_bytes_take σ a cs b x :
  contig a cs b → Forall (stored σ) cs → a <= x →
  chunks_bytes σ (cs_take cs x) = take (Z.to_nat (x - a)) (chunks_bytes σ cs).
Proof.
  revert a. induction cs as [|c cs IH]; intros a; [intros; symmetry; apply take_nil|].
  intros (<-&Hok&Hcs) [Hst Hsts]%Forall_cons ?. pose proof Hok as [].
  pose proof (length_chunk_bytes σ c Hst Hok). simpl.
  rewrite chunks_bytes_cons. destruct (Z.leb_spec (c_stop c) x).
  - rewrite ?chunks_bytes_cons, (IH _ Hcs Hsts) by lia. rewrite take_app, (take_ge (chunk_bytes _ _)) by lia.
    do 2 f_equal. lia.
  - destruct (Z.ltb_spec (c_start c) x).
    + rewrite chunks_bytes_cons, chunk_bytes_evolve_stop, app_nil_r by (done || lia).
      by rewrite take_app_le by lia.
    + by replace (Z.to_nat (x - c_start c)) with 0%nat by lia.
Qed.

Lemma chunks_bytes_drop σ a cs b x :
  contig a cs b → Forall (stored σ) cs → a <= x →
  chunks_bytes σ (cs_drop cs x) = drop (Z.to_nat (x - a)) (chunks_bytes σ cs).
Proof.
  revert a. induction cs as [|c cs IH]; intros a; [intros; symmetry; apply drop_nil|].
  intros (<-&Hok&Hcs) [Hst Hsts]%Forall_cons ?. pose proof Hok as [].
  pose proof (length_chunk_bytes σ c Hst Hok). simpl.
  rewrite chunks_bytes_cons. destruct (Z.leb_spec (c_stop c) x).
  - rewrite ?chunks_bytes_cons, (IH _ Hcs Hsts) by lia. rewrite drop_app, (drop_ge (chunk_bytes _ _)) by lia.
    simpl. f_equal. lia.
  - destruct (Z.ltb_spec (c_start c) x); rewrite chunks_bytes_cons.
    + rewrite chunk_bytes_evolve_start by (done || lia). by rewrite drop_app_le by lia.
    + by replace (Z.to_nat (x - c_start c)) with 0%nat by lia.
Qed.

Lemma stored_take σ cs x : Forall (stored σ) cs → Forall (stored σ) (cs_take cs x).
Proof. induction 1; simpl; repeat case_match; auto. Qed.
Lemma stored_drop σ cs x : Forall (stored σ) cs → Forall (stored σ) (cs_drop cs x).
Proof. induction 1; simpl; repeat case_match; auto. Qed.

Lemma length_content σ m :
  lf_wf m → all_stored σ m → Z.of_nat (length (content σ m)) = lf_size m.
Proof.
  intros ?%blocks_wf_contig ?. unfold content, all_chunks in *.
  rewrite (length_chunks_bytes _ 0 _ (lf_size m)) by done. lia.
Qed.

Lemma chunks_bytes_ext σ σ' cs :
  (∀ id, id ∈ chunk_id_set cs → σ' id = σ id) → chunks_bytes σ' cs = chunks_bytes σ cs.
Proof.
  intros Hσ. unfold chunks_bytes. f_equal. apply list_fmap_ext. intros i c Hc.
  unfold chunk_bytes. rewrite Hσ; [done|]. apply elem_of_chunk_id_set.
  exists c. split; [by eapply list_elem_of_lookup_2|done].
Qed.

Lemma stored_ext σ σ' cs :
  (∀ id, id ∈ chunk_id_set cs → σ' id = σ id) → Forall (stored σ) cs → Forall (stored σ') cs.
Proof.
  intros Hσ. rewrite !Forall_forall. intros Hst c Hc. destruct (Hst c Hc) as (d&?&?).
  exists d. rewrite Hσ; [done|]. apply elem_of_chunk_id_set. eauto.
Qed.

(** [padded_data] of [guardata/client/fs/workspacefs/file_transactions.py] *)
Definition padded_data (data : bytes) (start stop : Z) : result FSExn bytes :=
  _ ← py_assert (start <=? stop);
  if (start <=? stop) && (stop <=? 0) then Ok (zeros (stop - start))
  else if (0 <=? start) && (start <=? stop) then Ok (py_slice data start stop)
  else Ok (zeros (0 - start) ++ py_slice data 0 stop).

(** The bytes [padded_data] returns, as a part of the data with [n] null bytes
    before it. *)
Definition padded_part (n : Z) (data : bytes) (start stop : Z) : bytes :=
  take (Z.to_nat (stop - start)) (drop (Z.to_nat (start + n)) (zeros n ++ data)).

Lemma padded_data_ok n data start stop :
  0 <= n → - n <= start <= stop → stop <= Z.of_nat (length data) →
  padded_data data start stop = Ok (padded_part n data start stop).
Proof.
  intros. unfold padded_data, py_assert, padded_part, zeros.
  destruct (Z.leb_spec start stop); [|lia]. simpl.
  destruct (Z.leb_spec stop 0); [|destruct (Z.leb_spec 0 start)]; simpl; f_equal.
  - rewrite drop_app_le, take_app_le by (rewrite ?length_drop, ?length_replicate; lia).
    rewrite drop_replicate, take_replicate. f_equal. lia.
  - rewrite py_slice_nonneg, drop_app_ge, length_replicate by (rewrite ?length_replicate; lia).
    f_equal. f_equal. lia.
  - rewrite py_slice_take, drop_app_le by (rewrite ?length_replicate; lia).
    rewrite drop_replicate, take_app_ge, length_replicate by (rewrite ?length_replicate; lia).
    f_equal; f_equal; lia.
Qed.

Lemma length_padded_part n data start stop :
  0 <= n → - n <= start <= stop → stop <= Z.of_nat (length data) →
  Z.of_nat (length (padded_part n data start stop)) = stop - start.
Proof.
  intros. unfold padded_part, zeros. rewrite length_take, length_drop, length_app, length_replicate. lia.
Qed.

Lemma padded_part_app n data a b c :
  0 <= n → - n <= a <= b → b <= c →
  padded_part n data a b ++ padded_part n data b c = padded_part n data a c.
Proof.
  intros. unfold padded_part. set (l := zeros n ++ data).
  replace (Z.to_nat (c - a)) with (Z.to_nat (b - a) + Z.to_nat (c - b))%nat by lia.
  rewrite <-take_take_drop, drop_drop. do 3 f_equal. lia.
Qed.

(** The data of the write operations is stored as [_write_chunk] does. *)
Definition written (σ : Store) (data : bytes) (ops : list (Chunk * Z)) : Prop :=
  ∀ c co, (c, co) ∈ ops →
    ∃ d, padded_data data co (co + c_stop c - c_start c) = Ok d ∧ σ (c_id c) = Some d.

(** A file written at [offset]: a hole before it is filled with null bytes. *)
Definition write_at (old data : bytes) (offset : Z) : bytes :=
  take (Z.to_nat offset) (old ++ zeros (offset - Z.of_nat (length old)))
    ++ data ++ drop (Z.to_nat (offset + Z.of_nat (length data))) old.

(** The bytes of the new chunks. *)
Lemma news_bytes σ data ops n o a b :
  contig a ops.*1 b → 0 <= n → - n <= a - o → b - o <= Z.of_nat (length data) →
  (∀ c co, (c, co) ∈ ops → ∃ id,
     c = fresh_chunk id (c_start c) (c_stop c) ∧ co = c_start c - o) →
  written σ data ops →
  Forall (stored σ) ops.*1 ∧
  chunks_bytes σ ops.*1 = padded_part n data (a - o) (b - o).
Proof.
  revert a. induction ops as [|[c co] ops IH]; intros a; csimpl.
  { intros -> ?????. split; [constructor|]. unfold padded_part. by rewrite Z.sub_diag. }
  intros (<-&Hok&Hcs) ??? Hops Hw. pose proof Hok as [_ _]. pose proof (contig_le _ _ _ Hcs).
  destruct (Hops c co) as (j&Hc&Hco); [set_solver|].
  destruct (Hw c co) as (d&Hd&Hσ); [set_solver|].
  assert (c_start c < c_stop c) by (destruct Hok; lia).
  rewrite (padded_data_ok n) in Hd by lia. injection Hd as <-.
  assert (c_raw_offset c = c_start c ∧ c_raw_size c = c_stop c - c_start c) as [Hro Hrs]
    by (by rewrite Hc).
  pose proof (length_padded_part n data co (co + c_stop c - c_start c)) as Hlen.
  assert (stored σ c) as Hst by (eexists; split; [exact Hσ|rewrite Hlen by lia; lia]).
  destruct (IH (c_stop c)) as [Hsts Hbytes]; try done; try lia.
  { intros c' co' ?. apply Hops. set_solver. } { intros c' co' ?. apply Hw. set_solver. }
  split; [by constructor|]. rewrite chunks_bytes_cons, Hbytes.
  rewrite (chunk_bytes_eq _ _ _ Hσ) by (done || (rewrite Hlen by lia; lia)).
  rewrite Hro, Z.sub_diag. simpl. rewrite drop_0, take_ge by (specialize (Hlen); lia).
  replace (co + c_stop c - c_start c) with (c_stop c - o) by lia. rewrite Hco.
  apply padded_part_app; lia.
Qed.

(** A write, with its data in place. *)
Lemma write_spec_content now fresh m data offset m' ops removed σ σ' :
  write_spec now fresh m (Z.of_nat (length data)) offset m' ops removed →
  lf_wf m → all_stored σ m → 0 <= offset →
  (∀ id, id ∈ chunk_id_set (all_chunks m) → σ' id = σ id) → written σ' data ops →
  all_stored σ' m' ∧ content σ' m' = write_at (content σ m) data offset.
Proof.
  intros [Hwf' _ Hchunks Hnews Hops _] Hwf Hst Hoff Hext Hw.
  set (size := lf_size m) in *. set (off := Z.min offset size) in *.
  pose proof (blocks_wf_contig _ _ _ Hwf) as Hall. fold size (all_chunks m) in Hall.
  pose proof (length_content σ m Hwf Hst) as Hlen. fold size in Hlen.
  pose proof Hwf as (_&Hsize&_). fold size in Hsize.
  pose proof (stored_ext _ _ _ Hext Hst) as Hst'.
  destruct (news_bytes σ' data ops (offset - off) offset off
              (offset + Z.of_nat (length data))) as [Hstn Hbytes]; try done; try lia.
  { intros c co [j Hj]%list_elem_of_lookup. exists (fresh j). by apply Hops. }
  unfold all_stored, content. rewrite Hchunks. split.
  - apply Forall_app. split; [by apply stored_take|].
    apply Forall_app. split; [done|by apply stored_drop].
  - rewrite !chunks_bytes_app, Hbytes.
    rewrite (chunks_bytes_take _ _ _ _ _ Hall), (chunks_bytes_drop _ _ _ _ _ Hall) by (done || lia).
    rewrite (chunks_bytes_ext σ σ') by done. fold (content σ m). unfold write_at.
    rewrite !Z.sub_0_r. set (old := content σ m) in *.
    rewrite Hlen. unfold padded_part.
    replace (off - offset + (offset - off)) with 0 by lia. rewrite drop_0.
    rewrite (take_ge (zeros _ ++ data)) by (rewrite length_app, length_zeros; lia).
    rewrite <-!app_assoc, app_assoc. f_equal.
    destruct (decide (offset <= size)).
    + replace off with offset by lia. rewrite Z.sub_diag.
      rewrite !zeros_nonpos by lia. by rewrite !app_nil_r.
    + replace off with size by lia. rewrite !take_ge; [done|..];
        rewrite ?length_app, ?length_zeros; lia.
Qed.

(** ** [prepare_read] *)

(** The reads of the [n] blocks from [i] on. *)
Definition read_ops (bs offset size : Z) (i n : nat) : list (Z * Z * Z) :=
  (λ i, let start := Z.max offset (i * bs) in
        let stop := Z.min (offset + size) ((i + 1) * bs) in
        (i, stop - start, start)) <$> seqZ (Z.of_nat i) (Z.of_nat n).

Lemma split_read_ops size offset bs :
  0 < bs → 0 <= offset → 0 < size →
  split_read size offset bs
    = read_ops bs offset size (Z.to_nat (offset / bs))
        (Z.to_nat ((offset + size - 1) / bs - offset / bs + 1)).
Proof.
  intros. assert (0 <= offset / bs) by (apply Z.div_pos; lia).
  assert (offset / bs <= (offset + size - 1) / bs) by (apply Z.div_le_mono; lia).
  unfold split_read, locate_range, read_ops, py_range. simpl.
  rewrite <-list_fmap_compose, !Z2Nat.id by lia.
  replace (_ + 1 - _) with ((offset + size - 1) / bs - offset / bs + 1) by lia.
  apply list_fmap_ext. intros _ i _. simpl. by replace (i * bs + bs) with ((i + 1) * bs) by lia.
Qed.

Lemma cs_take_contig_all a cs b x : contig a cs b → a <= x → contig a (cs_take cs x) (Z.min b x).
Proof.
  intros Hcs ?. destruct (decide (x <= b)).
  - rewrite Z.min_r by lia. eapply contig_take; [done|lia].
  - rewrite Z.min_l, (cs_take_all _ _ _ _ Hcs) by lia. done.
Qed.

Lemma blocks_wf_drop bs size blocks i B :
  blocks_wf bs size blocks → blocks !! i = Some B →
  drop i blocks = B :: drop (S i) blocks ∧ Z.of_nat i * bs < size ∧
  contig (Z.of_nat i * bs) B (Z.min size ((Z.of_nat i + 1) * bs)) ∧
  contig (Z.min size ((Z.of_nat i + 1) * bs)) (concat (drop (S i) blocks)) size.
Proof.
  intros Hwf HB. split; [by apply drop_S|]. pose proof (lookup_lt_Some _ _ _ HB).
  apply list_elem_of_split_length in HB as (A&C&->&->).
  destruct (blocks_wf_middle _ _ _ _ _ Hwf) as (_&?&?&_). destruct Hwf as (?&?&?&_).
  split; [nia|]. split; [done|].
  replace (A ++ B :: C) with ((A ++ [B]) ++ C) by by rewrite <-app_assoc.
  replace (S (length A)) with (length (A ++ [B])) by (rewrite length_app; simpl; lia).
  by rewrite drop_app_length.
Qed.

Lemma read_blocks m size offset n i :
  lf_wf m → 0 <= offset → offset + size <= lf_size m → (0 < n)%nat →
  offset < (Z.of_nat i + 1) * lf_blocksize m →
  (Z.of_nat i + Z.of_nat n - 1) * lf_blocksize m < offset + size
    <= (Z.of_nat i + Z.of_nat n) * lf_blocksize m →
  0 < size →
  concat ((λ '(block, length, start), block_read (get_chunks m block) length start)
            <$> read_ops (lf_blocksize m) offset size i n)
    = cs_drop (cs_take (concat (drop i (lf_blocks m))) (offset + size))
        (Z.max offset (Z.of_nat i * lf_blocksize m)).
Proof.
  intros Hwf ??. revert i. induction n as [|n IH]; intros i Hn Hi Hend Hsize; [lia|].
  unfold read_ops. rewrite seqZ_cons by lia. rewrite !fmap_cons. cbn [concat].
  pose proof Hwf as (Hbs&_&Hlen&_).
  destruct (lookup_lt_is_Some_2 (lf_blocks m) i) as [B HB]; [nia|].
  destruct (blocks_wf_drop _ _ _ _ _ Hwf HB) as (Hdrop&?&HBc&HC). rewrite Hdrop.
  unfold get_chunks at 1. rewrite py_index_nonneg, Nat2Z.id, HB by lia. cbn [concat].
  set (start := Z.max offset (Z.of_nat i * lf_blocksize m)).
  set (stop := Z.min (offset + size) ((Z.of_nat i + 1) * lf_blocksize m)).
  rewrite (block_read_chunks _ _ _ _ _ HBc) by nia.
  replace (start + (stop - start)) with stop by lia.
  destruct n as [|n].
  - simpl. rewrite app_nil_r. f_equal. replace stop with (offset + size) by nia.
    symmetry. apply cs_take_app_r. eapply contig_starts_after; [done|nia].
  - replace (Z.pred _) with (Z.of_nat (S n)) by lia.
    replace (Z.succ _) with (Z.of_nat (S i)) by lia.
    pose proof (IH (S i)) as IH'. unfold read_ops in IH'. rewrite IH' by nia. clear IH IH'.
    assert ((Z.of_nat i + 1) * lf_blocksize m < offset + size) by nia.
    replace stop with ((Z.of_nat i + 1) * lf_blocksize m) by nia.
    rewrite Z.min_r in HBc, HC by lia.
    rewrite (cs_take_app B) by (eapply contig_stops_before; [done|lia]).
    rewrite (cs_take_all _ _ _ _ HBc) by lia.
    pose proof (cs_take_contig_all _ _ _ (offset + size) HC ltac:(lia)) as HC'.
    rewrite cs_drop_app_r by (eapply contig_starts_after; [done|nia]). f_equal.
    apply cs_drop_id. eapply contig_starts_after; [done|nia].
Qed.

Lemma prepare_read_chunks m size offset :
  lf_wf m → 0 <= offset → 0 < size → offset < lf_size m →
  prepare_read m size offset
    = cs_drop (cs_take (all_chunks m) (offset + size)) offset.
Proof.
  intros Hwf Hoff Hsize ?. unfold prepare_read. rewrite (Z.min_l offset) by lia.
  set (sz := Z.min size (lf_size m - offset)).
  pose proof (blocks_wf_contig _ _ _ Hwf) as Hall. fold (all_chunks m) in Hall.
  pose proof Hwf as (Hbs&_&Hlen&_). rewrite split_read_ops by lia.
  pose proof (Z.div_mod offset (lf_blocksize m) ltac:(lia)).
  pose proof (Z.mod_pos_bound offset (lf_blocksize m) ltac:(lia)).
  pose proof (Z.div_mod (offset + sz - 1) (lf_blocksize m) ltac:(lia)).
  pose proof (Z.mod_pos_bound (offset + sz - 1) (lf_blocksize m) ltac:(lia)).
  assert (0 <= offset / lf_blocksize m) by (apply Z.div_pos; lia).
  assert (offset / lf_blocksize m <= (offset + sz - 1) / lf_blocksize m)
    by (apply Z.div_le_mono; lia).
  rewrite read_blocks by (done || nia). rewrite Z2Nat.id by lia. rewrite Z.max_l by nia.
  assert (cs_take (all_chunks m) (offset + sz) = cs_take (all_chunks m) (offset + size)) as <-.
  { destruct (decide (offset + size <= lf_size m)).
    - by replace sz with size by lia.
    - by rewrite !(cs_take_all _ _ _ _ Hall) by lia. }
  set (i := Z.to_nat (offset / lf_blocksize m)).
  unfold all_chunks at 1. rewrite <-(take_drop i (lf_blocks m)) at 2. rewrite concat_app.
  pose proof (contig_concat_take _ _ _ i Hwf) as HA.
  rewrite cs_take_app, cs_drop_app; [done|..];
    (eapply contig_stops_before; [apply HA; nia|nia]).
Qed.

(** A read of no byte, or from the end of the file on, yields at most one
    chunk, of no byte. *)
Lemma prepare_read_empty m size offset :
  lf_wf m → 0 <= offset → 0 <= size → (size = 0 ∨ lf_size m <= offset) →
  prepare_read m size offset = [] ∨
  ∃ d x, d ∈ all_chunks m ∧ c_start d <= x <= c_stop d ∧
    prepare_read m size offset = [evolve_stop (evolve_start d x) x].
Proof.
  intros Hwf Hoff Hsize Hempty. pose proof Hwf as (Hbs&Hms&Hlen&_).
  unfold prepare_read. set (off := Z.min offset (lf_size m)).
  replace (Z.min size (lf_size m - off)) with 0 by lia.
  unfold split_read, locate_range, py_range. rewrite Z.add_0_r. simpl.
  pose proof (Z.div_mod off (lf_blocksize m) ltac:(lia)).
  pose proof (Z.mod_pos_bound off (lf_blocksize m) ltac:(lia)).
  assert (0 <= off / lf_blocksize m) by (apply Z.div_pos; lia).
  destruct (decide (off mod lf_blocksize m = 0)) as [Hz|].
  - left. rewrite <-(Z.div_unique_pos (off - 1) (lf_blocksize m)
      (off / lf_blocksize m - 1) (lf_blocksize m - 1)) by lia.
    by replace (off / lf_blocksize m - 1 + 1 - off / lf_blocksize m) with 0 by lia.
  - rewrite <-(Z.div_unique_pos (off - 1) (lf_blocksize m)
      (off / lf_blocksize m) (off mod lf_blocksize m - 1)) by lia.
    replace (off / lf_blocksize m + 1 - off / lf_blocksize m) with 1 by lia.
    rewrite (seqZ_cons _ 1) by lia. simpl. rewrite app_nil_r.
    set (i := Z.to_nat (off / lf_blocksize m)).
    destruct (lookup_lt_is_Some_2 (lf_blocks m) i) as [B HB]; [nia|].
    destruct (blocks_wf_drop _ _ _ _ _ Hwf HB) as (_&?&HBc&_).
    replace (off / lf_blocksize m) with (Z.of_nat i) in * by lia.
    unfold get_chunks. rewrite py_index_nonneg, Nat2Z.id, HB by lia.
    replace (Z.max off (Z.of_nat i * lf_blocksize m)) with off by nia.
    replace (Z.min off (Z.of_nat i * lf_blocksize m + lf_blocksize m)) with off by nia.
    rewrite Z.sub_diag.
    destruct (block_read_empty _ _ _ off HBc) as [->|(d&Hd&?&->)]; [nia|by left|].
    right. exists d, off. split_and!; try lia; [|done].
    unfold all_chunks. apply list_elem_of_In, in_concat. exists B.
    rewrite <-!list_elem_of_In. split; [by eapply list_elem_of_lookup_2|done].
Qed.

Lemma chunk_bytes_empty σ c x :
  c_raw_offset c <= x → chunk_bytes σ (evolve_stop (evolve_start c x) x) = [].
Proof.
  intros. unfold chunk_bytes, slice_chunk. simpl. destruct (σ _); [|done].
  rewrite py_slice_nonneg, Z.sub_diag by lia. done.
Qed.

Lemma prepare_read_bytes σ m size offset :
  lf_wf m → all_stored σ m → 0 <= offset → 0 <= size →
  chunks_bytes σ (prepare_read m size offset)
    = take (Z.to_nat size) (drop (Z.to_nat offset) (content σ m)).
Proof.
  intros Hwf Hst Hoff Hsize. pose proof (length_content σ m Hwf Hst) as Hlen.
  pose proof (blocks_wf_contig _ _ _ Hwf) as Hall. fold (all_chunks m) in Hall.
  destruct (decide (0 < size ∧ offset < lf_size m)) as [[]|].
  - rewrite prepare_read_chunks by done.
    pose proof (cs_take_contig_all _ _ _ (offset + size) Hall ltac:(lia)) as Ht.
    rewrite (chunks_bytes_drop _ 0 _ _ _ Ht) by (lia || by apply stored_take).
    rewrite (chunks_bytes_take _ _ _ _ _ Hall) by (done || lia).
    rewrite skipn_firstn_comm. rewrite !Z.sub_0_r. f_equal. lia.
  - transitivity (@nil Byte.byte).
    + destruct (prepare_read_empty m size offset) as [->|(d&x&Hd&?&->)]; try done; [lia|].
      unfold chunks_bytes. simpl. rewrite chunk_bytes_empty; [done|].
      apply contig_bounds in Hall. rewrite Forall_forall in Hall.
      destruct (Hall _ Hd) as (_&[]&_). lia.
    + destruct (decide (size = 0)) as [->|]; [done|].
      rewrite drop_ge by lia. by rewrite take_nil.
Qed.

Lemma truncate_spec_content now m size m' removed σ :
  truncate_spec now m size m' removed → lf_wf m → all_stored σ m → 0 <= size →
  all_stored σ m' ∧ content σ m' = take (Z.to_nat size) (content σ m).
Proof.
  intros [_ _ Hchunks _] Hwf Hst ?. unfold all_stored, content. rewrite Hchunks.
  pose proof (blocks_wf_contig _ _ _ Hwf) as Hall. split; [by apply stored_take|].
  rewrite (chunks_bytes_take _ 0 _ (lf_size m)) by (done || lia). by rewrite Z.sub_0_r.
Qed.

(** ** The checks of the code *)

Lemma assert_chunks_integrity_Ok a cs b :
  assert_chunks_integrity a cs = Ok b ↔ contig a cs b.
Proof.
  revert a. induction cs as [|c cs IH]; intros a; cbn [assert_chunks_integrity contig].
  { naive_solver. }
  unfold py_assert, chunk_ok.
  destruct (Z.eqb_spec (c_start c) a), (Z.ltb_spec (c_start c) (c_stop c)),
    (Z.leb_spec (c_raw_offset c) (c_start c)),
    (Z.leb_spec (c_stop c) (c_raw_offset c + c_raw_size c)); simpl; rewrite ?IH;
    split; (done || lia || tauto || (intros (?&?&?); lia)).
Qed.

(** What the loop over the blocks checks. *)
Fixpoint blocks_checked (bs i cur : Z) (blocks : list (list Chunk)) (size : Z) : Prop :=
  match blocks with
  | [] => cur = size
  | B :: blocks =>
      cur = i * bs ∧ B ≠ [] ∧ ∃ next, contig cur B next ∧ blocks_checked bs (i + 1) next blocks size
  end.

Lemma assert_blocks_integrity_Ok bs i cur blocks size :
  assert_blocks_integrity bs cur (enumerate_from i blocks) = Ok size ↔
  blocks_checked bs i cur blocks size.
Proof.
  revert i cur. induction blocks as [|B blocks IH]; intros i cur; simpl; [naive_solver|].
  unfold py_assert. destruct (Z.eqb_spec (i * bs) cur); simpl; [|naive_solver].
  destruct (Z.ltb_spec 0 (Z.of_nat (length B))); simpl.
  - destruct (assert_chunks_integrity cur B) as [next|ex] eqn:HB; simpl.
    + apply assert_chunks_integrity_Ok in HB. rewrite IH. split.
      * intros ?. split_and!; [done|by intros ->|eauto].
      * intros (_&_&next'&Hn&?). by rewrite (contig_inj _ _ _ _ HB Hn).
    + split; [done|]. intros (_&_&next&Hn%assert_chunks_integrity_Ok&_). congruence.
  - split; [done|]. destruct B; [|simpl in *; lia]. naive_solver.
Qed.

Lemma blocks_checked_contig bs i cur blocks size :
  blocks_checked bs i cur blocks size → cur <= size.
Proof.
  revert i cur. induction blocks as [|B blocks IH]; simpl; intros i cur; [lia|].
  intros (_&_&next&?%contig_le&?%IH). lia.
Qed.

Lemma blocks_checked_wf bs i cur blocks size :
  0 < bs → 0 <= cur → (blocks = [] → i * bs = cur) →
  blocks_checked bs i cur blocks size → size <= (i + Z.of_nat (length blocks)) * bs →
  cur = i * bs ∧ (i + Z.of_nat (length blocks)) * bs < size + bs ∧
  ∀ (k : nat) cs, blocks !! k = Some cs →
    contig ((i + Z.of_nat k) * bs) cs (Z.min size ((i + Z.of_nat k + 1) * bs)).
Proof.
  revert i cur. induction blocks as [|B blocks IH]; intros i cur ??; simpl.
  { intros Hi <- ?. specialize (Hi eq_refl). split_and!; [lia|lia|done]. }
  intros _ (->&HB&next&Hn&Hchk) Hsize. split; [done|].
  assert (i * bs < next) by (destruct B as [|c B]; [done|];
    destruct Hn as (?&[]&?%contig_le); lia).
  destruct blocks as [|B2 blocks].
  - simpl in *. subst. split; [lia|]. intros [|k] cs; simpl; [|done]. intros [= <-].
    rewrite Z.add_0_r. by rewrite Z.min_l by lia.
  - destruct (IH (i + 1) next) as (->&?&Hrest); try done; try lia.
    split; [simpl in *; lia|]. intros [|k] cs Hk.
    + injection Hk as <-. rewrite Z.add_0_r.
      pose proof (blocks_checked_contig _ _ _ _ _ Hchk). by rewrite Z.min_r by lia.
    + replace (i + Z.of_nat (S k)) with (i + 1 + Z.of_nat k) by lia. by apply Hrest.
Qed.

Lemma wf_blocks_checked bs i blocks size :
  0 < bs → i * bs <= size →
  size <= (i + Z.of_nat (length blocks)) * bs < size + bs →
  (∀ (k : nat) cs, blocks !! k = Some cs →
    contig ((i + Z.of_nat k) * bs) cs (Z.min size ((i + Z.of_nat k + 1) * bs))) →
  blocks_checked bs i (i * bs) blocks size.
Proof.
  revert i. induction blocks as [|B blocks IH]; intros i ?? Hlen Hblocks; simpl in *; [lia|].
  split; [done|]. specialize (Hblocks) as Hrest. specialize (Hblocks 0%nat B eq_refl).
  rewrite Z.add_0_r in Hblocks.
  assert (i * bs < size) by nia.
  split; [intros ->; simpl in Hblocks; nia|]. eexists. split; [exact Hblocks|].
  destruct (decide ((i + 1) * bs <= size)).
  - rewrite Z.min_r by lia. apply IH; [done..|lia|]. intros k cs Hk.
    replace (i + 1 + Z.of_nat k) with (i + Z.of_nat (S k)) by lia. by apply Hrest.
  - assert (length blocks = 0%nat) as ->%nil_length_inv by nia. simpl. lia.
Qed.

(** [assert_integrity] accepts the well-formed manifests, and only those, among
    the manifests whose last block is not larger than the block size. *)
Lemma assert_integrity_wf m :
  0 < lf_blocksize m →
  lf_wf m ↔ assert_integrity m = Ok tt
            ∧ lf_size m <= Z.of_nat (length (lf_blocks m)) * lf_blocksize m.
Proof.
  intros Hbs. unfold assert_integrity. rewrite <-(Z.mul_0_l (lf_blocksize m)) at 1.
  split.
  - intros (_&?&?&Hblocks). split; [|lia].
    rewrite (proj2 (assert_blocks_integrity_Ok _ _ _ _ (lf_size m))).
    + simpl. unfold py_assert. by rewrite Z.eqb_refl.
    + by apply wf_blocks_checked.
  - intros [Hok Hsize].
    destruct (assert_blocks_integrity _ _ _) as [cur|e] eqn:Hcur; simpl in Hok; [|done].
    unfold py_assert in Hok. destruct (Z.eqb_spec cur (lf_size m)) as [->|]; [|done].
    apply assert_blocks_integrity_Ok in Hcur.
    destruct (blocks_checked_wf (lf_blocksize m) 0 (0 * lf_blocksize m) (lf_blocks m) (lf_size m))
      as (_&?&?); try done; try lia.
    pose proof (blocks_checked_contig _ _ _ _ _ Hcur).
    split_and!; try lia. done.
Qed.
