(* ===== verification/Storage.v ===== *)
(** The local storage of a workspace: [guardata/client/fs/storage/manifest_storage.py],
    [chunk_storage.py] and [workspace_storage.py]. The SQLite tables are maps by
    primary key; what is encrypted with the device's local key before it is
    written is kept here as it is in memory. Locks are not modelled: each
    operation runs alone on its entry. *)

From S2P Require Import Prelude Types ApiManifest Chunk LocalManifest.

(** ** State *)

(** A row of the table [vlobs]. *)
Record VlobRow := mkVlobRow {
  vr_blob : LocalManifest;
  vr_need_sync : bool;
  vr_base_version : Z;
  vr_remote_version : Z }.

(** A row of the table [chunks] of the block cache. *)
Record BlockRow := mkBlockRow { br_accessed_on : Z; br_data : bytes }.

Record Storage := mkStorage {
  (* ManifestStorage *)
  st_cache : gmap EntryID LocalManifest;
  st_ahead : gmap EntryID (gset ChunkID);
  st_vlobs : gmap EntryID VlobRow;
  st_checkpoint : option Z;
  (* ChunkStorage of the data database *)
  st_chunks : gmap ChunkID bytes;
  (* BlockStorage of the cache database, and the clock [time.time()] reads:
     only the order of the times matters *)
  st_blocks : gmap ChunkID BlockRow;
  st_clock : Z;
  (* BaseWorkspaceStorage *)
  st_open_fds : gmap Z EntryID;
  st_fd_counter : Z }.

Definition set_cache (f : gmap EntryID LocalManifest → gmap EntryID LocalManifest) (s : Storage)
    : Storage :=
  mkStorage (f (st_cache s)) (st_ahead s) (st_vlobs s) (st_checkpoint s) (st_chunks s)
    (st_blocks s) (st_clock s) (st_open_fds s) (st_fd_counter s).
Definition set_ahead (f : gmap EntryID (gset ChunkID) → gmap EntryID (gset ChunkID)) (s : Storage)
    : Storage :=
  mkStorage (st_cache s) (f (st_ahead s)) (st_vlobs s) (st_checkpoint s) (st_chunks s)
    (st_blocks s) (st_clock s) (st_open_fds s) (st_fd_counter s).
Definition set_vlobs (f : gmap EntryID VlobRow → gmap EntryID VlobRow) (s : Storage) : Storage :=
  mkStorage (st_cache s) (st_ahead s) (f (st_vlobs s)) (st_checkpoint s) (st_chunks s)
    (st_blocks s) (st_clock s) (st_open_fds s) (st_fd_counter s).
Definition set_checkpoint (c : Z) (s : Storage) : Storage :=
  mkStorage (st_cache s) (st_ahead s) (st_vlobs s) (Some c) (st_chunks s)
    (st_blocks s) (st_clock s) (st_open_fds s) (st_fd_counter s).
Definition set_chunks (f : gmap ChunkID bytes → gmap ChunkID bytes) (s : Storage) : Storage :=
  mkStorage (st_cache s) (st_ahead s) (st_vlobs s) (st_checkpoint s) (f (st_chunks s))
    (st_blocks s) (st_clock s) (st_open_fds s) (st_fd_counter s).
Definition set_blocks (f : gmap ChunkID BlockRow → gmap ChunkID BlockRow) (s : Storage) : Storage :=
  mkStorage (st_cache s) (st_ahead s) (st_vlobs s) (st_checkpoint s) (st_chunks s)
    (f (st_blocks s)) (st_clock s) (st_open_fds s) (st_fd_counter s).
Definition tick (s : Storage) : Storage :=
  mkStorage (st_cache s) (st_ahead s) (st_vlobs s) (st_checkpoint s) (st_chunks s)
    (st_blocks s) (st_clock s + 1) (st_open_fds s) (st_fd_counter s).
Definition set_open_fds (f : gmap Z EntryID → gmap Z EntryID) (s : Storage) : Storage :=
  mkStorage (st_cache s) (st_ahead s) (st_vlobs s) (st_checkpoint s) (st_chunks s)
    (st_blocks s) (st_clock s) (f (st_open_fds s)) (st_fd_counter s).
Definition incr_fd_counter (s : Storage) : Storage :=
  mkStorage (st_cache s) (st_ahead s) (st_vlobs s) (st_checkpoint s) (st_chunks s)
    (st_blocks s) (st_clock s) (st_open_fds s) (st_fd_counter s + 1).

Abbreviation storageM := (stM Storage FSExn) (only parsing).

(** ** [ManifestStorage] *)

(** [_ensure_manifest_persistent]: a [KeyError] of the cache cannot happen, an
    entry that is ahead of the database is in the cache. *)
Definition ensure_persistent (entry_id : EntryID) : storageM unit := λ s,
  match st_ahead s !! entry_id with
  | None => (s, Ok tt)
  | Some removed_ids =>
      match st_cache s !! entry_id with
      | None => (s, Err KeyError)
      | Some manifest =>
          let remote_version :=
            match st_vlobs s !! entry_id with Some r => vr_remote_version r | None => 0 end in
          let row := {| vr_blob := manifest; vr_need_sync := lm_need_sync manifest;
                        vr_base_version := lm_base_version manifest;
                        vr_remote_version := Z.max (lm_base_version manifest) remote_version |} in
          let s := set_vlobs (<[entry_id := row]>) s in
          let s := set_chunks (filter (λ c, c.1 ∉ removed_ids)) s in
          (set_ahead (delete entry_id) s, Ok tt)
      end
  end.

(** [ensure_manifest_persistent] *)
Definition ensure_manifest_persistent (entry_id : EntryID) : storageM unit :=
  ahead ← gets st_ahead;
  if decide (is_Some (ahead !! entry_id)) then ensure_persistent entry_id else mret tt.

(** [_flush_cache_ahead_of_persistance]: each turn takes an entry out of the
    dict, so that as many turns as the dict has entries are enough. *)
Fixpoint flush_cache_ahead_of_persistance (fuel : nat) : storageM unit :=
  match fuel with
  | O => mret tt
  | S fuel =>
      ahead ← gets st_ahead;
      match map_to_list ahead with
      | [] => mret tt
      | (entry_id, _) :: _ =>
          _ ← ensure_persistent entry_id;
          flush_cache_ahead_of_persistance fuel
      end
  end.

(** [clear_memory_cache] *)
Definition clear_memory_cache (flush : bool) : storageM unit :=
  ahead ← gets st_ahead;
  _ ← (if flush then flush_cache_ahead_of_persistance (size ahead) else mret tt);
  _ ← modify (set_ahead (λ _, ∅));
  modify (set_cache (λ _, ∅)).

(** [get_manifest] *)
Definition get_manifest (entry_id : EntryID) : storageM LocalManifest := λ s,
  match st_cache s !! entry_id with
  | Some m => (s, Ok m)
  | None =>
      match st_vlobs s !! entry_id with
      | None => (s, Err (FSLocalMissError entry_id))
      | Some row => (set_cache (<[entry_id := vr_blob row]>) s, Ok (vr_blob row))
      end
  end.

(** [set_manifest]: [removed_ids] is empty when it is not given. *)
Definition set_manifest (entry_id : EntryID) (manifest : LocalManifest) (cache_only : bool)
    (removed_ids : gset ChunkID) : storageM unit :=
  _ ← modify (set_cache (<[entry_id := manifest]>));
  _ ← modify (set_ahead (λ ahead, <[entry_id := default ∅ (ahead !! entry_id) ∪ removed_ids]> ahead));
  if negb cache_only then ensure_persistent entry_id else mret tt.

(** [clear_manifest] *)
Definition clear_manifest (entry_id : EntryID) : storageM unit := λ s,
  let in_cache := bool_decide (is_Some (st_cache s !! entry_id)) in
  let deleted := bool_decide (is_Some (st_vlobs s !! entry_id)) in
  let pending_chunk_ids := default ∅ (st_ahead s !! entry_id) in
  let s := set_cache (delete entry_id) s in
  let s := set_vlobs (delete entry_id) s in
  let s := set_ahead (delete entry_id) s in
  let s := set_chunks (filter (λ c, c.1 ∉ pending_chunk_ids)) s in
  (s, if negb deleted && negb in_cache then Err (FSLocalMissError entry_id) else Ok tt).

(** [get_realm_checkpoint] *)
Definition get_realm_checkpoint : storageM Z := gets (λ s, default 0 (st_checkpoint s)).

(** [update_realm_checkpoint]: an [UPDATE] only changes the rows that exist. *)
Definition update_remote_version (item : EntryID * Z) (vlobs : gmap EntryID VlobRow)
    : gmap EntryID VlobRow :=
  alter (λ r, mkVlobRow (vr_blob r) (vr_need_sync r) (vr_base_version r) item.2) item.1 vlobs.
Definition update_realm_checkpoint (new_checkpoint : Z) (changed_vlobs : list (EntryID * Z))
    : storageM unit :=
  _ ← modify (set_vlobs (λ vlobs, foldl (flip update_remote_version) vlobs changed_vlobs));
  modify (set_checkpoint new_checkpoint).

(** [get_need_sync_entries]: the local and the remote changes. *)
Definition get_need_sync_entries : storageM (gset EntryID * gset EntryID) := gets (λ s,
  (dom (filter (λ em, lm_need_sync em.2 = true) (st_cache s))
     ∪ dom (filter (λ er, vr_need_sync er.2 = true) (st_vlobs s)),
   dom (filter (λ er, vr_base_version er.2 ≠ vr_remote_version er.2) (st_vlobs s)))).

(** ** [ChunkStorage] and [BlockStorage] *)

(** [ChunkStorage.get_chunk], [set_chunk] and [clear_chunk], on the data
    database; the access times are not read there. *)
Definition chunk_storage_get (chunk_id : ChunkID) : storageM bytes :=
  chunks ← gets st_chunks;
  of_option (FSLocalMissError chunk_id) (chunks !! chunk_id).
Definition chunk_storage_set (chunk_id : ChunkID) (raw : bytes) : storageM unit :=
  modify (set_chunks (<[chunk_id := raw]>)).
Definition chunk_storage_clear (chunk_id : ChunkID) : storageM unit :=
  chunks ← gets st_chunks;
  _ ← modify (set_chunks (delete chunk_id));
  raise_if (bool_decide (chunks !! chunk_id = None)) (FSLocalMissError chunk_id).

(** [ChunkStorage.get_chunk] on the cache database. *)
Definition block_storage_get (chunk_id : ChunkID) : storageM bytes := λ s,
  match st_blocks s !! chunk_id with
  | None => (s, Err (FSLocalMissError chunk_id))
  | Some row =>
      (tick (set_blocks (<[chunk_id := mkBlockRow (st_clock s) (br_data row)]>) s),
       Ok (br_data row))
  end.

(** [BlockStorage.clear_old_blocks]: [ORDER BY accessed_on ASC LIMIT limit]; a
    negative limit is no limit. *)
Definition older (r1 r2 : ChunkID * BlockRow) : Prop :=
  br_accessed_on r1.2 <= br_accessed_on r2.2.
#[export] Instance older_dec : RelDecision older.
Proof. intros r1 r2. unfold older. apply _. Defined.
Definition clear_old_blocks (limit : Z) (blocks : gmap ChunkID BlockRow) : gmap ChunkID BlockRow :=
  let rows := merge_sort older (map_to_list blocks) in
  let old := if limit <? 0 then rows else take (Z.to_nat limit) rows in
  foldl (λ blocks r, delete r.1 blocks) blocks old.

(** [DEFAULT_BLOCK_SIZE] and [BlockStorage.block_limit] *)
Definition DEFAULT_BLOCK_SIZE : Z := 4096 * 1024.
Definition block_limit (cache_size : Z) : Z := cache_size / DEFAULT_BLOCK_SIZE.

(** [BlockStorage.set_chunk] *)
Definition block_storage_set (cache_size : Z) (chunk_id : ChunkID) (raw : bytes)
    : storageM unit := λ s,
  let blocks := <[chunk_id := mkBlockRow (st_clock s) raw]> (st_blocks s) in
  let extra_blocks := Z.of_nat (size blocks) - block_limit cache_size in
  let blocks :=
    if 0 <? extra_blocks
    then clear_old_blocks (extra_blocks + block_limit cache_size / 10) blocks
    else blocks in
  (tick (set_blocks (λ _, blocks) s), Ok tt).

(** ** [BaseWorkspaceStorage] *)

(** [get_chunk]: the data database first, then the block cache. *)
Definition get_chunk (chunk_id : ChunkID) : storageM bytes :=
  try_catch (chunk_storage_get chunk_id) (λ e,
    match e with
    | FSLocalMissError _ => block_storage_get chunk_id
    | _ => mthrow e
    end).
Definition set_chunk (chunk_id : ChunkID) (block : bytes) : storageM unit :=
  chunk_storage_set chunk_id block.
Definition clear_chunk (chunk_id : ChunkID) (miss_ok : bool) : storageM unit :=
  try_catch (chunk_storage_clear chunk_id) (λ e,
    match e with
    | FSLocalMissError _ => raise_if (negb miss_ok) e
    | _ => mthrow e
    end).
Definition set_clean_block (cache_size : Z) (block_id : BlockID) (block : bytes) : storageM unit :=
  block_storage_set cache_size block_id block.
Definition get_dirty_block (block_id : BlockID) : storageM bytes := chunk_storage_get block_id.
(** [clear_clean_block] *)
Definition clear_clean_block (block_id : BlockID) : storageM unit :=
  modify (set_blocks (delete block_id)).

(** [create_file_descriptor] *)
Definition create_file_descriptor (manifest : LocalManifest) : storageM Z :=
  _ ← (match manifest with LFile _ => mret tt | _ => mthrow AssertionError end);
  _ ← modify incr_fd_counter;
  fd ← gets st_fd_counter;
  _ ← modify (set_open_fds (<[fd := lm_id manifest]>));
  mret fd.

(** [load_file_descriptor] *)
Definition load_file_descriptor (fd : Z) : storageM LocalFileManifest :=
  fds ← gets st_open_fds;
  entry_id ← of_option (FSInvalidFileDescriptor fd) (fds !! fd);
  manifest ← get_manifest entry_id;
  match manifest with
  | LFile m => mret m
  | _ => mthrow AssertionError
  end.

(** [remove_file_descriptor] *)
Definition remove_file_descriptor (fd : Z) : storageM unit :=
  fds ← gets st_open_fds;
  _ ← raise_if (bool_decide (fds !! fd = None)) (FSInvalidFileDescriptor fd);
  modify (set_open_fds (delete fd)).
