(* ===== verification/FileTransactions.v ===== *)
(** Reading and writing open files: [guardata/client/fs/workspacefs/file_transactions.py],
    on top of the file operations and of the local storage. A transaction holds
    the lock of its entry from end to end, and is one function here. *)

From S2P Require Import Prelude Types ApiManifest Chunk LocalManifest FileOperations.
From S2P Require Import FileContent Storage.

(** ** State *)

(** [ft_write_count] is the [defaultdict] of the class; [ft_drawn] counts the
    random ids drawn so far; [ft_events] are the ids of the
    [FS_ENTRY_UPDATED] events sent, the last one first. *)
Record FTState := mkFTState {
  ft_storage : Storage;
  ft_write_count : gmap Z Z;
  ft_drawn : nat;
  ft_events : list EntryID }.

Abbreviation ftM := (stM FTState FSExn) (only parsing).

(** A call on [self.local_storage]. *)
Definition on_storage {A} (m : stM Storage FSExn A) : ftM A := λ s,
  let '(st, r) := m (ft_storage s) in
  (mkFTState st (ft_write_count s) (ft_drawn s) (ft_events s), r).

Definition set_write_count (f : gmap Z Z → gmap Z Z) (s : FTState) : FTState :=
  mkFTState (ft_storage s) (f (ft_write_count s)) (ft_drawn s) (ft_events s).
Definition draw (n : nat) (s : FTState) : FTState :=
  mkFTState (ft_storage s) (ft_write_count s) (ft_drawn s + n) (ft_events s).

(** [_send_event(ClientEvent.FS_ENTRY_UPDATED, id=...)] *)
Definition send_event (id : EntryID) : ftM unit :=
  modify (λ s, mkFTState (ft_storage s) (ft_write_count s) (ft_drawn s) (id :: ft_events s)).

(** [normalize_argument] *)
Definition normalize_argument (arg : Z) (manifest : LocalFileManifest) : Z :=
  if arg <? 0 then lf_size manifest else arg.

(** [l[i:j] = x] for [0 <= i] and [0 <= j]. *)
Definition py_slice_set {A} (l : list A) (i j : Z) (x : list A) : list A :=
  take (Z.to_nat i) l ++ x ++ drop (Z.to_nat (Z.max i j)) l.

(** [_read_chunk] *)
Definition read_chunk (c : Chunk) : ftM bytes :=
  data ← on_storage (get_chunk (c_id c));
  mret (slice_chunk c data).

(** [_write_chunk] *)
Definition write_chunk (c : Chunk) (content : bytes) (offset : Z) : ftM Z :=
  data ← lift_result (padded_data content offset (offset + c_stop c - c_start c));
  _ ← on_storage (set_chunk (c_id c) data);
  mret (Z.of_nat (length data)).

(** One turn of the loop of [_build_data]. *)
Definition build_step (start : Z) (c : Chunk) (acc : bytes * list BlockAccess)
    : ftM (bytes * list BlockAccess) :=
  try_catch
    (data ← read_chunk c;
     mret (py_slice_set acc.1 (c_start c - start) (c_stop c - start) data, acc.2))
    (λ e, match e with
          | FSLocalMissError _ =>
              match c_access c with
              | Some access => mret (acc.1, acc.2 ++ [access])
              | None => mthrow AssertionError
              end
          | _ => mthrow e
          end).
Fixpoint build_loop (start : Z) (chunks : list Chunk) (acc : bytes * list BlockAccess)
    : ftM (bytes * list BlockAccess) :=
  match chunks with
  | [] => mret acc
  | c :: chunks => acc ← build_step start c acc; build_loop start chunks acc
  end.

(** [_build_data] *)
Definition build_data (chunks : list Chunk) : ftM (bytes * list BlockAccess) :=
  match chunks, last chunks with
  | c0 :: _, Some cn =>
      let start := c_start c0 in
      let stop := c_stop cn in
      build_loop start chunks (zeros (stop - start), [])
  | _, _ => mret ([], [])
  end.

Section transactions.
(** The time, the random ids and keys, and the hash function of libsodium. *)
Context (now : DateTime) (fresh : nat → ChunkID) (key : SecretKey) (digest : bytes → HashDigest).
(** [RemoteLoader.load_block] up to the storing of the block: the download,
    the decryption and the check of the digest. *)
Context (download : BlockAccess → result FSExn bytes) (cache_size : Z).

(** The ids drawn from now on. *)
Definition next_ids (s : FTState) : nat → ChunkID := λ k, fresh (ft_drawn s + k)%nat.

(** [RemoteLoader.load_blocks] *)
Definition load_block (a : BlockAccess) : ftM unit :=
  block ← lift_result (download a);
  on_storage (set_clean_block cache_size (access_id a) block).
Definition load_blocks (accesses : list BlockAccess) : ftM unit := for_each load_block accesses.

(** [fd_close] *)
Definition fd_close (fd : Z) : ftM unit :=
  manifest ← on_storage (load_file_descriptor fd);
  _ ← on_storage (ensure_manifest_persistent (lf_id manifest));
  _ ← on_storage (remove_file_descriptor fd);
  modify (set_write_count (delete fd)).

(** The loop of [_manifest_reshape] over what [prepare_reshape] yields. *)
Fixpoint reshape_ops (manifest : LocalFileManifest) (missing : list BlockAccess)
    (ops : list (result FSExn ReshapeOp)) : ftM (LocalFileManifest * list BlockAccess) :=
  match ops with
  | [] => mret (manifest, missing)
  | op :: ops =>
      op ← lift_result op;
      '(data, extra_missing) ← build_data (rs_source op);
      match extra_missing with
      | _ :: _ => reshape_ops manifest (missing ++ extra_missing) ops
      | [] =>
          new_chunk ← lift_result (evolve_as_block digest key (rs_destination op) data);
          _ ← (if bool_decide (rs_source op = [rs_destination op]) then mret 0
               else write_chunk new_chunk data 0);
          manifest ← lift_result (update_manifest (rs_block op) manifest new_chunk);
          _ ← on_storage (set_manifest (lf_id manifest) (LFile manifest) true (rs_removed_ids op));
          reshape_ops manifest missing ops
      end
  end.

(** The whole loop, on the blocks of [manifest]. *)
Definition reshape_blocks (manifest : LocalFileManifest)
    : ftM (LocalFileManifest * list BlockAccess) :=
  ids ← gets next_ids;
  _ ← modify (draw (length (lf_blocks manifest)));
  reshape_ops manifest [] (prepare_reshape ids manifest).

(** [_manifest_reshape] *)
Definition manifest_reshape (manifest : LocalFileManifest) (cache_only : bool)
    : ftM (list BlockAccess) :=
  '(manifest, missing) ← reshape_blocks manifest;
  _ ← (if negb cache_only then on_storage (ensure_manifest_persistent (lf_id manifest))
       else mret tt);
  mret missing.

(** [self._write_count[fd] += n] *)
Definition add_write_count (fd n : Z) : ftM unit :=
  modify (set_write_count (λ counts, <[fd := default 0 (counts !! fd) + n]> counts)).

(** The writing loop of [fd_write], and the one of [_manifest_resize]. *)
Definition write_op (fd : Z) (content : bytes) (op : Chunk * Z) : ftM unit :=
  n ← write_chunk op.1 content op.2;
  add_write_count fd n.
Definition resize_op (op : Chunk * Z) : ftM unit :=
  _ ← write_chunk op.1 [] op.2;
  mret tt.

(** [fd_write], once the content is known not to be empty. *)
Definition fd_write_content (fd : Z) (manifest : LocalFileManifest) (content : bytes) (offset : Z)
    : ftM Z :=
  let offset := normalize_argument offset manifest in
  ids ← gets next_ids;
  '(manifest, write_operations, removed_ids) ←
    lift_result (prepare_write now ids manifest (Z.of_nat (length content)) offset);
  _ ← modify (draw (length write_operations));
  _ ← for_each (write_op fd content) write_operations;
  _ ← on_storage (set_manifest (lf_id manifest) (LFile manifest) true removed_ids);
  counts ← gets ft_write_count;
  _ ← (if lf_blocksize manifest <=? default 0 (counts !! fd) then
         _ ← manifest_reshape manifest true;
         modify (set_write_count (delete fd))
       else mret tt);
  _ ← send_event (lf_id manifest);
  mret (Z.of_nat (length content)).

(** [fd_write] *)
Definition fd_write (fd : Z) (content : bytes) (offset : Z) (constrained : bool) : ftM Z :=
  manifest ← on_storage (load_file_descriptor fd);
  let content :=
    if constrained then
      let end_offset := Z.min (lf_size manifest) (offset + Z.of_nat (length content)) in
      let length := Z.max (end_offset - offset) 0 in
      py_slice content 0 length
    else content in
  match content with
  | [] => mret 0
  | _ => fd_write_content fd manifest content offset
  end.

(** [_manifest_resize] *)
Definition manifest_resize (manifest : LocalFileManifest) (length : Z) (cache_only : bool)
    : ftM unit :=
  if lf_size manifest =? length then mret tt
  else
    ids ← gets next_ids;
    '(manifest, write_operations, removed_ids) ←
      lift_result (prepare_resize now ids manifest length);
    _ ← modify (draw (List.length write_operations));
    _ ← for_each resize_op write_operations;
    on_storage (set_manifest (lf_id manifest) (LFile manifest) cache_only removed_ids).

(** [fd_resize] *)
Definition fd_resize (fd : Z) (length : Z) (truncate_only : bool) : ftM unit :=
  manifest ← on_storage (load_file_descriptor fd);
  if truncate_only && (lf_size manifest <=? length) then mret tt
  else
    _ ← manifest_resize manifest length true;
    send_event (lf_id manifest).

(** [fd_read]: [None] says that [fuel] attempts were not enough. *)
Fixpoint fd_read_loop (fuel : nat) (fd size offset : Z) (raise_eof : bool)
    (missing : list BlockAccess) : ftM (option bytes) :=
  match fuel with
  | O => mret None
  | S fuel =>
      _ ← load_blocks missing;
      manifest ← on_storage (load_file_descriptor fd);
      _ ← raise_if (raise_eof && (lf_size manifest <=? offset)) FSEndOfFileError;
      let offset := normalize_argument offset manifest in
      let size := normalize_argument size manifest in
      if lf_size manifest <? offset then mret (Some [])
      else
        '(data, missing) ← build_data (prepare_read manifest size offset);
        match missing with
        | [] => mret (Some data)
        | _ => fd_read_loop fuel fd size offset raise_eof missing
        end
  end.
Definition fd_read (fuel : nat) (fd size offset : Z) (raise_eof : bool) : ftM (option bytes) :=
  fd_read_loop fuel fd size offset raise_eof [].

(** [fd_flush] *)
Definition fd_flush (fd : Z) : ftM unit :=
  manifest ← on_storage (load_file_descriptor fd);
  _ ← manifest_reshape manifest false;
  on_storage (ensure_manifest_persistent (lf_id manifest)).
End transactions.
