(* ===== verification/FileRefinement.v ===== *)
(** The transactions on open files implement reads, writes and resizes of a
    byte string: the abstract state of an open file is its content, which its
    manifest and the local storage represent. *)

From S2P Require Import Prelude Types ApiManifest Chunk LocalManifest FileOperations.
From S2P Require Import FileContent Storage FileTransactions.

(** ** What the local storage holds *)

(** The data [get_chunk] finds, and the manifest [get_manifest] finds. *)
Definition view (s : Storage) : ChunkID → option bytes := λ id,
  match st_chunks s !! id with
  | Some data => Some data
  | None => br_data <$> st_blocks s !! id
  end.
Definition current (s : Storage) (e : EntryID) : option LocalManifest :=
  match st_cache s !! e with
  | Some m => Some m
  | None => vr_blob <$> st_vlobs s !! e
  end.
(** The chunks to remove once the entry is written to the database. *)
Definition pending (s : Storage) (e : EntryID) : gset ChunkID := default ∅ (st_ahead s !! e).

(** Nothing changed but the access times of the cached blocks and the cache of
    the manifests. *)
Record quiet (s s' : Storage) : Prop := {
  q_view : ∀ id, view s' id = view s id;
  q_current : ∀ e, current s' e = current s e;
  q_cache : ∀ e m, st_cache s !! e = Some m → st_cache s' !! e = Some m;
  q_ahead : st_ahead s' = st_ahead s;
  q_vlobs : st_vlobs s' = st_vlobs s;
  q_chunks : st_chunks s' = st_chunks s;
  q_fds : st_open_fds s' = st_open_fds s }.

#[export] Instance quiet_refl : Reflexive quiet.
Proof. by split. Qed.
#[export] Instance quiet_trans : Transitive quiet.
Proof. intros s1 s2 s3 [] []. split; intros; try congruence. auto. Qed.

Record ft_quiet (s s' : FTState) : Prop := {
  fq_storage : quiet (ft_storage s) (ft_storage s');
  fq_count : ft_write_count s' = ft_write_count s;
  fq_drawn : ft_drawn s' = ft_drawn s;
  fq_events : ft_events s' = ft_events s }.
#[export] Instance ft_quiet_refl : Reflexive ft_quiet.
Proof. by split. Qed.
#[export] Instance ft_quiet_trans : Transitive ft_quiet.
Proof. intros s1 s2 s3 [] []. split; [by etrans|congruence..]. Qed.

Lemma get_chunk_ok s id data :
  view s id = Some data → ∃ s', get_chunk id s = (s', Ok data) ∧ quiet s s'.
Proof.
  unfold get_chunk, try_catch, chunk_storage_get, view. intros Hv. simpl.
  unfold mbind, stM_bind, gets, of_option. destruct (st_chunks s !! id) as [d|] eqn:Hc.
  - simplify_eq. by exists s.
  - unfold block_storage_get. destruct (st_blocks s !! id) as [row|] eqn:Hb; simplify_eq/=.
    eexists. split; [done|]. split; try done. intros id'. unfold view. simpl.
    destruct (st_chunks s !! id'); [done|].
    destruct (decide (id = id')) as [->|]; [by rewrite lookup_insert_eq, Hb|].
    by rewrite lookup_insert_ne.
Qed.

Lemma get_chunk_miss s id :
  view s id = None → get_chunk id s = (s, Err (FSLocalMissError id)).
Proof.
  unfold get_chunk, try_catch, chunk_storage_get, view. intros Hv.
  unfold mbind, stM_bind, gets, of_option. destruct (st_chunks s !! id); [done|].
  unfold block_storage_get. by destruct (st_blocks s !! id).
Qed.

Lemma get_manifest_ok s e m :
  current s e = Some m → ∃ s', get_manifest e s = (s', Ok m) ∧ quiet s s'.
Proof.
  unfold current, get_manifest. intros Hc. destruct (st_cache s !! e) as [m'|] eqn:He.
  - simplify_eq. by exists s.
  - destruct (st_vlobs s !! e) as [row|] eqn:Hv; simplify_eq/=. eexists. split; [done|].
    split; try done; intros e'.
    + unfold current. simpl.
      destruct (decide (e = e')) as [->|]; [by rewrite lookup_insert_eq, He, Hv|].
      by rewrite lookup_insert_ne.
    + intros m Hm. simpl. rewrite lookup_insert_ne; [done|]. congruence.
Qed.

Lemma load_file_descriptor_ok s fd e m :
  st_open_fds (ft_storage s) !! fd = Some e → current (ft_storage s) e = Some (LFile m) →
  ∃ s', on_storage (load_file_descriptor fd) s = (s', Ok m) ∧ ft_quiet s s'.
Proof.
  intros Hfd Hm. destruct (get_manifest_ok _ _ _ Hm) as (st'&Hget&?).
  unfold on_storage, load_file_descriptor, mbind, stM_bind, gets, of_option.
  rewrite Hfd, Hget. eexists. split; [done|]. by split.
Qed.

(** ** Reading *)

Lemma read_chunk_ok s c data :
  view (ft_storage s) (c_id c) = Some data →
  ∃ s', read_chunk c s = (s', Ok (slice_chunk c data)) ∧ ft_quiet s s'.
Proof.
  intros (st'&Hget&?)%get_chunk_ok.
  unfold read_chunk, on_storage, mbind, stM_bind. rewrite Hget.
  eexists. split; [done|]. by split.
Qed.

Lemma build_step_ok s start c acc data :
  view (ft_storage s) (c_id c) = Some data →
  ∃ s', build_step start c acc s
          = (s', Ok (py_slice_set acc.1 (c_start c - start) (c_stop c - start)
                       (slice_chunk c data), acc.2)) ∧ ft_quiet s s'.
Proof.
  intros Hv. destruct (read_chunk_ok s c data Hv) as (s'&Hr&?).
  exists s'. split; [|done]. unfold build_step, try_catch, mbind, stM_bind. by rewrite Hr.
Qed.

Lemma stored_quiet s s' cs :
  quiet s s' → Forall (stored (view s)) cs → Forall (stored (view s')) cs.
Proof. intros [Hv _ _ _ _ _]. apply stored_ext. auto. Qed.

Lemma content_quiet s s' m : quiet s s' → content (view s') m = content (view s) m.
Proof. intros [Hv _ _ _ _ _]. apply chunks_bytes_ext. auto. Qed.

Lemma build_loop_ok s start cur cs stop pre missing :
  contig cur cs stop → Forall (stored (view (ft_storage s))) cs → start <= cur →
  Z.of_nat (length pre) = cur - start →
  ∃ s', build_loop start cs (pre ++ zeros (stop - cur), missing) s
          = (s', Ok (pre ++ chunks_bytes (view (ft_storage s)) cs, missing)) ∧ ft_quiet s s'.
Proof.
  revert s cur pre. induction cs as [|c cs IH]; intros s cur pre; simpl.
  { intros <- ???. exists s. rewrite Z.sub_diag. done. }
  intros (<-&Hok&Hcs) [Hst Hsts]%Forall_cons ? Hpre.
  pose proof Hok as []. pose proof (contig_le _ _ _ Hcs).
  pose proof Hst as (data&Hv&Hlen).
  destruct (build_step_ok s start c (pre ++ zeros (stop - c_start c), missing) data Hv)
    as (s1&Hstep&Hq).
  unfold mbind, stM_bind. rewrite Hstep.
  assert (slice_chunk c data = chunk_bytes (view (ft_storage s)) c) as ->
    by (unfold chunk_bytes; by rewrite Hv).
  pose proof (length_chunk_bytes _ _ Hst Hok) as Hcl.
  set (cb := chunk_bytes (view (ft_storage s)) c) in *.
  assert (py_slice_set (pre ++ zeros (stop - c_start c)) (c_start c - start) (c_stop c - start) cb
            = (pre ++ cb) ++ zeros (stop - c_stop c)) as Hset.
  { unfold py_slice_set. rewrite take_app_length' by lia.
    rewrite Z.max_r, drop_app_ge by lia. unfold zeros. rewrite drop_replicate, <-app_assoc.
    do 3 f_equal. lia. }
  cbn [fst snd]. rewrite Hset.
  destruct (IH s1 (c_stop c) (pre ++ cb)) as (s2&Hloop&Hq2); try done.
  - eapply stored_quiet; [apply Hq|done].
  - lia.
  - rewrite length_app. lia.
  - exists s2. rewrite Hloop. split; [|by etrans].
    rewrite <-app_assoc. do 4 f_equal. rewrite chunks_bytes_cons. f_equal.
    apply chunks_bytes_ext. intros. apply Hq.
Qed.

Lemma contig_last a cs b c : contig a (c :: cs) b → ∃ d, last (c :: cs) = Some d ∧ c_stop d = b.
Proof.
  revert a c. induction cs as [|c' cs IH]; intros a c.
  - intros (_&_&<-). by exists c.
  - intros (_&_&Hcs). apply IH in Hcs. by rewrite last_cons_cons.
Qed.

Lemma build_data_ok s a cs b :
  contig a cs b → Forall (stored (view (ft_storage s))) cs →
  ∃ s', build_data cs s = (s', Ok (chunks_bytes (view (ft_storage s)) cs, [])) ∧ ft_quiet s s'.
Proof.
  intros Hcs Hst. destruct cs as [|c cs]; [by exists s|].
  destruct (contig_last _ _ _ _ Hcs) as (d&Hd&<-). unfold build_data. rewrite Hd.
  pose proof Hcs as (<-&_).
  by apply (build_loop_ok s (c_start c) (c_start c) (c :: cs) (c_stop d) [] []);
    rewrite ?Z.sub_diag.
Qed.

(** Reading no byte of a chunk. *)
Lemma build_data_empty s c x :
  stored (view (ft_storage s)) c → c_raw_offset c <= x →
  ∃ s', build_data [evolve_stop (evolve_start c x) x] s = (s', Ok ([], [])) ∧ ft_quiet s s'.
Proof.
  intros (data&Hv&_) Hx. unfold build_data. simpl. rewrite Z.sub_diag. simpl.
  destruct (build_step_ok s x (evolve_stop (evolve_start c x) x) (zeros 0, []) data Hv)
    as (s'&Hstep&?).
  unfold mbind, stM_bind. rewrite Hstep. exists s'. split; [|done]. simpl.
  unfold slice_chunk. simpl. rewrite py_slice_nonneg, !Z.sub_diag by lia. done.
Qed.

(** A read builds the bytes asked for. *)
Lemma build_data_read s m size offset :
  lf_wf m → all_stored (view (ft_storage s)) m → 0 <= offset → 0 <= size →
  ∃ s', build_data (prepare_read m size offset) s
          = (s', Ok (take (Z.to_nat size) (drop (Z.to_nat offset)
                                             (content (view (ft_storage s)) m)), []))
        ∧ ft_quiet s s'.
Proof.
  intros Hwf Hst Hoff Hsize. rewrite <-prepare_read_bytes by done.
  pose proof (blocks_wf_contig _ _ _ Hwf) as Hall. fold (all_chunks m) in Hall.
  destruct (decide (0 < size ∧ offset < lf_size m)) as [[]|].
  - rewrite prepare_read_chunks by done.
    pose proof (cs_take_contig_all _ _ _ (offset + size) Hall ltac:(lia)) as Ht.
    eapply build_data_ok; [eapply (contig_drop 0); [exact Ht|lia]|].
    by apply stored_drop, stored_take.
  - destruct (prepare_read_empty m size offset) as [->|(d&x&Hd&?&->)]; try done; [lia|by exists s|].
    apply contig_bounds in Hall. rewrite Forall_forall in Hall.
    destruct (Hall _ Hd) as (_&[]&_). unfold all_stored in Hst. rewrite Forall_forall in Hst.
    rewrite chunks_bytes_cons, chunk_bytes_empty by lia.
    apply build_data_empty; [by apply Hst|lia].
Qed.

(** The file descriptor [fd] is open on the file [m], whose data is there. *)
Record open_on (s : FTState) (fd : Z) (m : LocalFileManifest) : Prop := {
  oo_fd : st_open_fds (ft_storage s) !! fd = Some (lf_id m);
  oo_current : current (ft_storage s) (lf_id m) = Some (LFile m);
  oo_wf : lf_wf m;
  oo_stored : all_stored (view (ft_storage s)) m }.

Lemma open_on_quiet s s' fd m : ft_quiet s s' → open_on s fd m → open_on s' fd m.
Proof.
  intros [Hq _ _ _] [Hfd Hcur Hwf Hst]. split; try done.
  - by rewrite (q_fds _ _ Hq).
  - by rewrite (q_current _ _ Hq).
  - eapply stored_quiet; [apply Hq|done].
Qed.

(** What [fd_read] returns, as a function of the content. *)
Definition read_result (old : bytes) (size offset : Z) (raise_eof : bool)
    : result FSExn (option bytes) :=
  let n := Z.of_nat (length old) in
  if raise_eof && (n <=? offset) then Err FSEndOfFileError
  else Ok (Some (take (Z.to_nat (if size <? 0 then n else size))
                   (drop (Z.to_nat (if offset <? 0 then n else offset)) old))).

Lemma fd_read_local download cache_size fuel s fd m size offset raise_eof :
  open_on s fd m → (0 < fuel)%nat →
  ∃ s', fd_read download cache_size fuel fd size offset raise_eof s
          = (s', read_result (content (view (ft_storage s)) m) size offset raise_eof)
        ∧ ft_quiet s s'.
Proof.
  intros Hopen ?. pose proof Hopen as [Hfd Hcur Hwf Hst].
  destruct fuel as [|fuel]; [lia|]. unfold fd_read. cbn [fd_read_loop].
  destruct (load_file_descriptor_ok s fd _ m Hfd Hcur) as (s1&Hload&Hq1).
  pose proof (open_on_quiet _ _ _ _ Hq1 Hopen) as [_ _ _ Hst1].
  unfold load_blocks, for_each, mbind, stM_bind, mret, stM_ret. rewrite Hload.
  unfold raise_if. pose proof (length_content _ m Hwf Hst) as Hlen.
  unfold read_result. rewrite Hlen.
  destruct (raise_eof && (lf_size m <=? offset)); [by exists s1|].
  unfold normalize_argument.
  set (off := if offset <? 0 then lf_size m else offset).
  set (sz := if size <? 0 then lf_size m else size).
  pose proof Hwf as (_&Hms&_).
  assert (0 <= off) by (unfold off; destruct (Z.ltb_spec offset 0); lia).
  assert (0 <= sz) by (unfold sz; destruct (Z.ltb_spec size 0); lia).
  destruct (Z.ltb_spec (lf_size m) off).
  - exists s1. split; [|done]. rewrite drop_ge by lia. by rewrite take_nil.
  - destruct (build_data_read s1 m sz off) as (s2&->&Hq2); try done.
    exists s2. split; [|by etrans]. by rewrite (content_quiet _ _ m (fq_storage _ _ Hq1)).
Qed.

(** ** Writing *)

(** Only the data of the chunks [ids] changed. *)
Record stores (ids : gset ChunkID) (s s' : FTState) : Prop := {
  so_view : ∀ id, id ∉ ids → view (ft_storage s') id = view (ft_storage s) id;
  so_current : ∀ e, current (ft_storage s') e = current (ft_storage s) e;
  so_cache : ∀ e m, st_cache (ft_storage s) !! e = Some m → st_cache (ft_storage s') !! e = Some m;
  so_vlobs : st_vlobs (ft_storage s') = st_vlobs (ft_storage s);
  so_ahead : st_ahead (ft_storage s') = st_ahead (ft_storage s);
  so_fds : st_open_fds (ft_storage s') = st_open_fds (ft_storage s);
  so_drawn : ft_drawn s' = ft_drawn s;
  so_events : ft_events s' = ft_events s }.

Lemma stores_refl ids s : stores ids s s.
Proof. by split. Qed.
Lemma stores_trans ids1 ids2 s1 s2 s3 :
  stores ids1 s1 s2 → stores ids2 s2 s3 → stores (ids1 ∪ ids2) s1 s3.
Proof.
  intros [] []. split; intros; try congruence; auto. rewrite elem_of_union in *.
  transitivity (view (ft_storage s2) id); auto.
Qed.
Lemma quiet_stores ids s s' : ft_quiet s s' → stores ids s s'.
Proof. intros [[] ? ? ?]. by split; auto. Qed.

Lemma write_chunk_ok s c content co d :
  padded_data content co (co + c_stop c - c_start c) = Ok d →
  ∃ s', write_chunk c content co s = (s', Ok (Z.of_nat (length d))) ∧
    stores {[c_id c]} s s' ∧ view (ft_storage s') (c_id c) = Some d ∧
    ft_write_count s' = ft_write_count s.
Proof.
  intros Hd. unfold write_chunk, mbind, stM_bind, lift_result. rewrite Hd.
  eexists. split; [done|]. split; [split; try done|split; [|done]].
  - intros id Hid. unfold view. simpl. rewrite lookup_insert_ne; [done|]. set_solver.
  - unfold view. simpl. by rewrite lookup_insert_eq.
Qed.

(** A loop that writes the chunk of each operation. *)
Definition writes_one (content : bytes) (f : Chunk * Z → stM FTState FSExn unit) : Prop :=
  ∀ c co d s, padded_data content co (co + c_stop c - c_start c) = Ok d →
    ∃ s', f (c, co) s = (s', Ok tt) ∧ stores {[c_id c]} s s' ∧
      view (ft_storage s') (c_id c) = Some d.

Lemma write_op_writes fd content : writes_one content (write_op fd content).
Proof.
  intros c co d s Hd. destruct (write_chunk_ok s c content co d Hd) as (s'&Hw&[]&Hv&_).
  unfold write_op, mbind, stM_bind. cbn [fst snd]. rewrite Hw. eexists. split; [done|]. split; [|done].
  by split.
Qed.
Lemma resize_op_writes : writes_one [] resize_op.
Proof.
  intros c co d s Hd. destruct (write_chunk_ok s c [] co d Hd) as (s'&Hw&?&Hv&_).
  unfold resize_op, mbind, stM_bind. cbn [fst snd]. rewrite Hw. by exists s'.
Qed.

Lemma for_each_writes content f ops s :
  writes_one content f → NoDup (c_id <$> ops.*1) →
  (∀ c co, (c, co) ∈ ops → ∃ d, padded_data content co (co + c_stop c - c_start c) = Ok d) →
  ∃ s', for_each f ops s = (s', Ok tt) ∧
    stores (chunk_id_set ops.*1) s s' ∧ written (view (ft_storage s')) content ops.
Proof.
  intros Hf. revert s. induction ops as [|[c co] ops IH]; intros s Hnd Hpad.
  { exists s. split; [done|]. split; [apply stores_refl|]. intros c co. set_solver. }
  apply NoDup_cons in Hnd as [Hc Hnd]. destruct (Hpad c co) as (d&Hd); [set_solver|].
  destruct (Hf c co d s Hd) as (s1&Hs1&Hst1&Hv1).
  destruct (IH s1 Hnd) as (s2&Hs2&Hst2&Hw2); [intros; apply Hpad; set_solver|].
  exists s2. cbn [for_each]. unfold mbind, stM_bind. rewrite Hs1, Hs2. split; [done|].
  rewrite fmap_cons, chunk_id_set_cons. split; [by eapply stores_trans|].
  intros c' co' [[= -> ->]|Hin]%elem_of_cons; [|by apply Hw2].
  exists d. split; [done|]. rewrite (so_view _ _ _ Hst2); [done|].
  unfold chunk_id_set. by rewrite elem_of_list_to_set.
Qed.

Lemma set_manifest_cached s e m removed :
  ∃ s', on_storage (set_manifest e m true removed) s = (s', Ok tt) ∧
    (∀ id, view (ft_storage s') id = view (ft_storage s) id) ∧
    (∀ e', current (ft_storage s') e' = if decide (e' = e) then Some m
                                        else current (ft_storage s) e') ∧
    st_cache (ft_storage s') !! e = Some m ∧
    is_Some (st_ahead (ft_storage s') !! e) ∧
    (∀ e', pending (ft_storage s') e' = if decide (e' = e) then pending (ft_storage s) e ∪ removed
                                        else pending (ft_storage s) e') ∧
    st_open_fds (ft_storage s') = st_open_fds (ft_storage s) ∧
    ft_drawn s' = ft_drawn s ∧ ft_events s' = ft_events s ∧
    ft_write_count s' = ft_write_count s.
Proof.
  eexists. split; [done|]. split_and!; try done; try intros e'.
  - unfold current. simpl. case_decide; subst; [by rewrite lookup_insert_eq|].
    by rewrite lookup_insert_ne.
  - simpl. apply lookup_insert_eq.
  - simpl. by rewrite lookup_insert_eq.
  - unfold pending. simpl. case_decide; subst; [by rewrite lookup_insert_eq|].
    by rewrite lookup_insert_ne.
Qed.

(** ** The invariant of an open file *)

Section invariant.
Context (fresh : nat → ChunkID) `{!Inj (=) (=) fresh}.

(** The file descriptor [fd] is open on a file whose data is there; its blocks
    share no chunk; the chunks that wait to be removed are not its own; and the
    ids to be drawn are not in use. *)
Record file_inv (s : FTState) (fd : Z) (m : LocalFileManifest) : Prop := {
  fi_open : open_on s fd m;
  fi_disjoint : ids_disjoint (lf_blocks m);
  fi_cached : is_Some (st_ahead (ft_storage s) !! lf_id m) →
    st_cache (ft_storage s) !! lf_id m = Some (LFile m);
  fi_durable : st_ahead (ft_storage s) !! lf_id m = None →
    vr_blob <$> st_vlobs (ft_storage s) !! lf_id m = Some (LFile m);
  fi_pending : pending (ft_storage s) (lf_id m) ## chunk_id_set (all_chunks m);
  fi_fresh : ∀ k, (ft_drawn s <= k)%nat →
    fresh k ∉ chunk_id_set (all_chunks m) ∧ fresh k ∉ pending (ft_storage s) (lf_id m) }.

#[local] Instance next_ids_inj s : Inj (=) (=) (next_ids fresh s).
Proof. intros i j Heq. unfold next_ids in Heq. apply (inj fresh) in Heq. lia. Qed.

Lemma file_inv_fresh_for s fd m : file_inv s fd m → fresh_for (next_ids fresh s) m.
Proof.
  intros [_ _ _ _ _ Hf]. split; [apply _|]. intros k. apply Hf. lia.
Qed.

Lemma file_inv_quiet s s' fd m : ft_quiet s s' → file_inv s fd m → file_inv s' fd m.
Proof.
  intros Hq [Ho Hd Hca Hdu Hp Hf]. pose proof Hq as [[_ _ Hc Ha Hvl _] _ Hdr _].
  split; [by eapply open_on_quiet|done|..]; unfold pending in *; rewrite Ha;
    [auto|by rewrite Hvl|done|].
  by rewrite Hdr.
Qed.

(** The chunks a write creates have distinct ids, and can be filled. *)
Lemma write_spec_ops ids now m data offset m' ops removed :
  write_spec now ids m (Z.of_nat (length data)) offset m' ops removed → Inj (=) (=) ids →
  0 <= offset →
  NoDup (c_id <$> ops.*1) ∧
  (∀ c co, (c, co) ∈ ops → ∃ d, padded_data data co (co + c_stop c - c_start c) = Ok d) ∧
  (∀ id, id ∈ chunk_id_set ops.*1 → ∃ j, (j < length ops)%nat ∧ id = ids j).
Proof.
  intros [_ _ _ Hnews Hops _] ? Hoff. split_and!.
  - apply NoDup_alt. intros i j id Hi Hj.
    rewrite !list_lookup_fmap in Hi, Hj.
    destruct (ops !! i) as [[ci coi]|] eqn:Ei; [|done].
    destruct (ops !! j) as [[cj coj]|] eqn:Ej; [|done].
    destruct (Hops _ _ _ Ei) as [Hci _]. destruct (Hops _ _ _ Ej) as [Hcj _].
    simpl in Hi, Hj. rewrite Hci in Hi. rewrite Hcj in Hj. simpl in Hi, Hj.
    apply (inj ids). congruence.
  - intros c co Hin. pose proof Hin as [j Hj]%list_elem_of_lookup.
    destruct (Hops _ _ _ Hj) as [_ Hco]. apply contig_bounds in Hnews.
    rewrite Forall_forall in Hnews.
    destruct (Hnews c) as (?&[]&?); [apply list_elem_of_fmap; by exists (c, co)|].
    eexists. apply (padded_data_ok (offset - Z.min offset (lf_size m))); lia.
  - intros id (c&Hc&<-)%elem_of_chunk_id_set. apply list_elem_of_fmap in Hc as ([c' co]&->&Hin).
    apply list_elem_of_lookup in Hin as [j Hj]. exists j. split; [by eapply lookup_lt_Some|].
    destruct (Hops _ _ _ Hj) as [Hc _]. simpl. by rewrite Hc.
Qed.

(** Between [s] and [s'], only new chunks were written, and only the entry [e]
    changed. *)
Record framed (e : EntryID) (s s' : FTState) : Prop := {
  fr_view : ∀ id, (∀ k, (ft_drawn s <= k)%nat → id ≠ fresh k) →
    view (ft_storage s') id = view (ft_storage s) id;
  fr_current : ∀ e', e' ≠ e → current (ft_storage s') e' = current (ft_storage s) e';
  fr_pending : ∀ e', e' ≠ e → pending (ft_storage s') e' = pending (ft_storage s) e';
  fr_fds : st_open_fds (ft_storage s') = st_open_fds (ft_storage s);
  fr_drawn : (ft_drawn s <= ft_drawn s')%nat }.

Lemma framed_quiet e s s' : ft_quiet s s' → framed e s s'.
Proof.
  intros [[? ? ? Ha ? ?] ? ? ?]. split; auto; [|lia]. intros e' _. unfold pending. by rewrite Ha.
Qed.
Lemma framed_trans e s1 s2 s3 : framed e s1 s2 → framed e s2 s3 → framed e s1 s3.
Proof.
  intros [Hv1 Hc1 Hp1 Hf1 Hd1] [Hv2 Hc2 Hp2 Hf2 Hd2]. split.
  - intros id Hid. rewrite Hv2; [by apply Hv1|]. intros k ?. apply Hid. lia.
  - intros e' ?. rewrite Hc2; auto.
  - intros e' ?. rewrite Hp2; auto.
  - congruence.
  - lia.
Qed.

(** Storing the data of a write, then its manifest. *)
Lemma write_manifest_ok now s fd m data offset m' ops removed f :
  file_inv s fd m → 0 <= offset → writes_one data f →
  write_spec now (next_ids fresh s) m (Z.of_nat (length data)) offset m' ops removed →
  ∃ s1 s', for_each f ops (draw (length ops) s) = (s1, Ok tt) ∧
    on_storage (set_manifest (lf_id m') (LFile m') true removed) s1 = (s', Ok tt) ∧
    file_inv s' fd m' ∧ framed (lf_id m) s s' ∧ ft_write_count s' = ft_write_count s1 ∧
    content (view (ft_storage s')) m' = write_at (content (view (ft_storage s)) m) data offset.
Proof.
  intros Hinv Hoff Hf Hspec. pose proof (file_inv_fresh_for _ _ _ Hinv) as Hff.
  destruct Hinv as [[Hfd Hcur Hwf Hst] Hdis _ _ Hpend Hfresh].
  destruct (write_spec_ops _ _ _ _ _ _ _ _ Hspec _ Hoff) as (Hnd&Hpad&Hids).
  pose proof Hspec as [Hwf' Hm' Hchunks _ _ Hremoved].
  destruct (Hremoved Hff Hdis) as [Hdis' Hrem].
  assert (lf_id m' = lf_id m) as Hid by (by rewrite Hm').
  destruct (for_each_writes data f ops (draw (length ops) s) Hf Hnd Hpad) as (s1&Hs1&[]&Hw).
  simpl in *.
  destruct (set_manifest_cached s1 (lf_id m') (LFile m') removed)
    as (s'&Hs'&Hv&Hc&Hca&[R HR]&Hp&Hfds&Hdr&_&Hwc).
  assert (∀ id, (∀ k, (ft_drawn s <= k)%nat → id ≠ fresh k) →
    view (ft_storage s') id = view (ft_storage s) id) as Hframe.
  { intros id Hid'. rewrite Hv. apply so_view0. intros (j&?&->)%Hids.
    apply (Hid' (ft_drawn s + j)%nat); [lia|done]. }
  assert (∀ id, id ∈ chunk_id_set (all_chunks m) →
    view (ft_storage s') id = view (ft_storage s) id) as Hkeep.
  { intros id Hin. apply Hframe. intros k Hk ->. by destruct (Hfresh k Hk). }
  assert (written (view (ft_storage s')) data ops) as Hw'.
  { intros c co Hin. destruct (Hw c co Hin) as (d&?&?). exists d. by rewrite Hv. }
  destruct (write_spec_content _ _ _ _ _ _ _ _ _ _ Hspec Hwf Hst Hoff Hkeep Hw') as [Hst' Hcont].
  assert (∀ id, id ∈ chunk_id_set (all_chunks m') → id ∈ chunk_id_set (all_chunks m) ∨
    ∃ j, (j < length ops)%nat ∧ id = next_ids fresh s j) as Hknown.
  { intros id. rewrite Hchunks, !chunk_id_set_app, !elem_of_union.
    intros [Hin|[Hin|Hin]]; [|by right; apply Hids|]; left;
      eapply elem_of_weaken; eauto using chunk_id_set_take, chunk_id_set_drop. }
  exists s1, s'. split; [done|]. split; [done|]. split; [|split_and!; [|done|done]].
  - split.
    + split; [by rewrite Hfds, so_fds0, Hid|rewrite Hc; by case_decide|done|done].
    + done.
    + done.
    + congruence.
    + rewrite Hp. case_decide; [|done]. unfold pending. rewrite so_ahead0, Hid, Hrem.
      intros id [Hin|Hin]%elem_of_union Hin'; [|set_solver].
      destruct (Hknown id Hin') as [?|(j&?&->)]; [by eapply Hpend|].
      eapply (Hfresh (ft_drawn s + j)%nat); [lia|done].
    + intros k. rewrite Hdr, so_drawn0, Hp. intros Hk. case_decide; [|done].
      unfold pending. rewrite so_ahead0, Hid, Hrem. destruct (Hfresh k) as [Hk1 Hk2]; [lia|].
      split; [|unfold pending in Hk2; set_solver].
      intros [?|(j&?&Heq)]%Hknown; [done|]. unfold next_ids in Heq. apply (inj fresh) in Heq. lia.
  - split; [done|..].
    + intros e' He. rewrite Hc. case_decide; [congruence|]. by rewrite so_current0.
    + intros e' He. rewrite Hp. case_decide; [congruence|]. unfold pending. by rewrite so_ahead0.
    + by rewrite Hfds.
    + rewrite Hdr, so_drawn0. lia.
Qed.

(** ** Reshaping *)

Context (key : SecretKey) (digest : bytes → HashDigest).

(** A block made of one chunk that has its access. *)
Definition block_reshaped (B : list Chunk) : Prop := ∃ c, B = [c] ∧ is_block c = true.

Lemma is_reshaped_spec m : is_reshaped m = true ↔ Forall block_reshaped (lf_blocks m).
Proof.
  unfold is_reshaped. rewrite forallb_forall, Forall_forall. setoid_rewrite list_elem_of_In.
  split; intros H B HB; specialize (H B HB).
  - destruct B as [|c [|]]; try done. by exists c.
  - destruct H as (c&->&?). done.
Qed.

Lemma reshape_step_cases id i B a b :
  contig a B b → a < b →
  (reshape_step id i B = None ∧ block_reshaped B) ∨
  (∃ c, B = [c] ∧ is_block c = false ∧ is_pseudo_block c = true ∧
     reshape_step id i B = Some (Ok (mkReshapeOp B c i ∅))) ∨
  ((∀ c, B = [c] → is_pseudo_block c = false) ∧
   reshape_step id i B = Some (Ok (mkReshapeOp B (fresh_chunk id a b) i (chunk_id_set B)))).
Proof.
  intros HB Hab.
  assert (yield_new_block id i B = Ok (mkReshapeOp B (fresh_chunk id a b) i (chunk_id_set B)))
    as Hyield.
  { destruct B as [|c B]; [simpl in HB; lia|].
    destruct (contig_last _ _ _ _ HB) as (d&Hd&Hb). pose proof HB as (Ha&_).
    unfold yield_new_block, index_or_raise, py_index.
    rewrite last_lookup in Hd. simpl in Hd |- *.
    destruct (Z.leb_spec 0 (Z.of_nat (S (length B)) + -1)); [|lia].
    replace (Z.to_nat _) with (length B) by lia. rewrite Hd.
    cbn [mbind result_bind]. rewrite Ha, Hb, chunk_new_ok by lia. done. }
  unfold reshape_step. destruct B as [|c [|c' B]].
  - simpl in HB. lia.
  - destruct (is_block c) eqn:Hblk; [left; split; [done|by exists c]|].
    destruct (is_pseudo_block c) eqn:Hps; right; [left; by exists c|right].
    split; [by intros ? [= <-]|by rewrite Hyield].
  - right. right. split; [done|by rewrite Hyield].
Qed.

(** The chunk a reshape puts in the place of a block. *)
Lemma evolve_as_block_ok c data :
  is_block c = false → is_pseudo_block c = true →
  ∃ c', evolve_as_block digest key c data = Ok c' ∧ is_block c' = true ∧
    c_id c' = c_id c ∧ c_start c' = c_start c ∧ c_stop c' = c_stop c ∧
    c_raw_offset c' = c_raw_offset c ∧ c_raw_size c' = c_raw_size c.
Proof.
  intros Hblk Hps. unfold evolve_as_block. rewrite Hblk. unfold is_pseudo_block in Hps.
  destruct (Z.eqb_spec (c_start c) (c_raw_offset c)) as [Hs|]; [|done].
  destruct (Z.eqb_spec (c_stop c) (c_raw_offset c + c_raw_size c)); [|done].
  rewrite (proj2 (Z.eqb_eq _ _)) by done. simpl. eexists. split; [done|]. split; [|done].
  apply is_block_spec. eexists. split_and!; try done; simpl; lia.
Qed.

Lemma is_pseudo_fresh id a b : is_pseudo_block (fresh_chunk id a b) = true.
Proof.
  unfold is_pseudo_block. simpl. rewrite Z.eqb_refl. simpl.
  by rewrite (proj2 (Z.eqb_eq _ _)) by lia.
Qed.

(** The block [k] of [m], its new chunk and its bytes. *)
Lemma replace_block_wf σ σ' m k B c' e :
  lf_wf m → all_stored σ m → lf_blocks m !! k = Some B →
  contig (Z.of_nat k * lf_blocksize m) B e →
  contig (Z.of_nat k * lf_blocksize m) [c'] e →
  (∀ i B', i ≠ k → lf_blocks m !! i = Some B' →
     ∀ id, id ∈ chunk_id_set B' → σ' id = σ id) →
  stored σ' c' → chunk_bytes σ' c' = chunks_bytes σ B →
  let m' := file_evolve_blocks m (<[k := [c']]> (lf_blocks m)) in
  lf_wf m' ∧ all_stored σ' m' ∧ content σ' m' = content σ m.
Proof.
  intros Hwf Hst HB HBc Hc' Hother Hst' Hbytes m'.
  pose proof (lookup_lt_Some _ _ _ HB) as Hk.
  split.
  - destruct Hwf as (?&?&?&Hblocks). unfold m', lf_wf. simpl.
    split_and!; try done; [rewrite length_insert; lia..|].
    intros i cs. rewrite list_lookup_insert_Some. intros [(<-&<-&_)|(?&?)]; [|by apply Hblocks].
    by rewrite (contig_inj _ _ _ _ (Hblocks _ _ HB) HBc).
  - assert (∀ l, (∀ i B', l !! i = Some B' → ∀ id, id ∈ chunk_id_set B' → σ' id = σ id) →
      ∀ id, id ∈ chunk_id_set (concat l) → σ' id = σ id) as Hconcat.
    { intros l Hl id (i&B'&?&?)%elem_of_concat_ids. by eapply Hl. }
    unfold all_stored, content, all_chunks, m' in *. simpl.
    apply list_elem_of_split_length in HB as (A&C&HAC&->). rewrite HAC in *.
    rewrite insert_app_r_alt, Nat.sub_diag by lia. simpl. rewrite !concat_app in *. simpl in *.
    apply Forall_app in Hst as [HstA [HstB HstC]%Forall_app].
    assert (∀ id, id ∈ chunk_id_set (concat A) → σ' id = σ id) as HA.
    { apply Hconcat. intros i B' Hi. pose proof (lookup_lt_Some _ _ _ Hi).
      apply (Hother i); [lia|]. by apply lookup_app_l_Some. }
    assert (∀ id, id ∈ chunk_id_set (concat C) → σ' id = σ id) as HC.
    { apply Hconcat. intros i B' Hi. apply (Hother (length A + S i)%nat); [lia|].
      rewrite lookup_app_r by lia. by replace (_ - _)%nat with (S i) by lia. }
    split.
    + apply Forall_app. split; [by eapply stored_ext|]. constructor; [done|by eapply stored_ext].
    + rewrite !chunks_bytes_app, (chunks_bytes_ext σ σ' (concat A)) by done.
      f_equal. rewrite chunks_bytes_cons, Hbytes. f_equal. by apply chunks_bytes_ext.
Qed.

(** What holds after the loop of [_manifest_reshape] did the blocks before [k]:
    [m0] and [s0] are the manifest and the state it started with. *)
Record reshape_inv (ids : nat → ChunkID) (s0 : FTState) (fd : Z) (m0 : LocalFileManifest)
    (k : nat) (s : FTState) (m : LocalFileManifest) : Prop := {
  rv_same : m = file_evolve_blocks m0 (lf_blocks m);
  rv_open : open_on s fd m;
  rv_cached : is_Some (st_ahead (ft_storage s) !! lf_id m0) →
    st_cache (ft_storage s) !! lf_id m0 = Some (LFile m);
  rv_durable : st_ahead (ft_storage s) !! lf_id m0 = None →
    vr_blob <$> st_vlobs (ft_storage s) !! lf_id m0 = Some (LFile m);
  rv_content : content (view (ft_storage s)) m = content (view (ft_storage s0)) m0;
  rv_ids : ∃ removed, ids_inv m0 ids k (lf_blocks m) removed ∧
    pending (ft_storage s) (lf_id m0) = pending (ft_storage s0) (lf_id m0) ∪ removed;
  rv_done : ∀ i B, (i < k)%nat → lf_blocks m !! i = Some B → block_reshaped B;
  rv_rest : ∀ i, (k <= i)%nat → lf_blocks m !! i = lf_blocks m0 !! i;
  rv_view : ∀ id, (∀ j, id ≠ ids j) →
    view (ft_storage s) id = view (ft_storage s0) id;
  rv_current : ∀ e, e ≠ lf_id m0 → current (ft_storage s) e = current (ft_storage s0) e;
  rv_pending : ∀ e, e ≠ lf_id m0 → pending (ft_storage s) e = pending (ft_storage s0) e;
  rv_fds : st_open_fds (ft_storage s) = st_open_fds (ft_storage s0);
  rv_drawn : ft_drawn s = ft_drawn s0;
  rv_count : ft_write_count s = ft_write_count s0;
  rv_events : ft_events s = ft_events s0 }.

Lemma reshape_inv_init ids s fd m :
  open_on s fd m → ids_disjoint (lf_blocks m) →
  (is_Some (st_ahead (ft_storage s) !! lf_id m) →
   st_cache (ft_storage s) !! lf_id m = Some (LFile m)) →
  (st_ahead (ft_storage s) !! lf_id m = None →
   vr_blob <$> st_vlobs (ft_storage s) !! lf_id m = Some (LFile m)) →
  reshape_inv ids s fd m 0 s m.
Proof.
  intros Hopen Hd ??. split; try done; [by destruct m| |lia].
  exists ∅. split; [by apply ids_inv_init|set_solver].
Qed.

Lemma reshape_inv_quiet ids s0 fd m0 k s s' m :
  ft_quiet s s' → reshape_inv ids s0 fd m0 k s m → reshape_inv ids s0 fd m0 k s' m.
Proof.
  intros Hq []. pose proof Hq as [Hqs ???]. pose proof Hqs as [].
  assert (∀ e, pending (ft_storage s') e = pending (ft_storage s) e) as Hp
    by (intros e; unfold pending; by rewrite q_ahead0).
  split; try congruence; try done.
  - by eapply open_on_quiet.
  - rewrite q_ahead0. auto.
  - by rewrite q_ahead0, q_vlobs0.
  - by rewrite (content_quiet _ _ m Hqs).
  - by rewrite Hp.
  - intros id ?. rewrite q_view0. auto.
  - intros e ?. rewrite q_current0. auto.
  - intros e ?. rewrite Hp. auto.
Qed.

(** A block that needs nothing. *)
Lemma reshape_inv_skip ids s0 fd m0 k s m B :
  reshape_inv ids s0 fd m0 k s m → fresh_for ids m0 → lf_blocks m !! k = Some B →
  block_reshaped B → reshape_inv ids s0 fd m0 (S k) s m.
Proof.
  intros [] Hf HB HBr. split; try done.
  - destruct rv_ids0 as (removed&[Hd Hk Hr]&Hp). exists removed. split; [|done].
    split; try done. intros id [?|(j&?&?)]%Hk; [by left|right]. exists j. split; [lia|done].
  - intros i B' ? HB'. destruct (decide (i = k)) as [->|]; [by simplify_eq|].
    eapply rv_done0; [|done]. lia.
  - intros. apply rv_rest0. lia.
Qed.

(** A block whose new chunk is in place: [s1] is the state when its data is
    stored, [s2] the state when the manifest is set. *)
Lemma reshape_inv_set ids s0 fd m0 k s s1 s2 m B c' e :
  reshape_inv ids s0 fd m0 k s m → fresh_for ids m0 → lf_blocks m !! k = Some B →
  contig (Z.of_nat k * lf_blocksize m) B e →
  contig (Z.of_nat k * lf_blocksize m) [c'] e →
  is_block c' = true → chunk_id_set [c'] ⊆ chunk_id_set B ∪ {[ids k]} →
  stores {[ids k]} s s1 → ft_write_count s1 = ft_write_count s →
  stored (view (ft_storage s1)) c' →
  chunk_bytes (view (ft_storage s1)) c' = chunks_bytes (view (ft_storage s)) B →
  let m' := file_evolve_blocks m (<[k := [c']]> (lf_blocks m)) in
  on_storage (set_manifest (lf_id m) (LFile m') true
                (chunk_id_set B ∖ chunk_id_set [c'])) s1 = (s2, Ok tt) →
  reshape_inv ids s0 fd m0 (S k) s2 m'.
Proof.
  intros [] Hf HB HBc Hc' Hblk Hids Hst Hwc Hst' Hbytes m' Hset.
  destruct (set_manifest_cached s1 (lf_id m) (LFile m') (chunk_id_set B ∖ chunk_id_set [c']))
    as (s2'&Hset'&Hv&Hc&Hca&[R HR]&Hp&Hfds&Hdr&Hev&Hwc').
  rewrite Hset' in Hset. injection Hset as ->. destruct Hst.
  assert (lf_id m = lf_id m0) as Hid by by rewrite rv_same0.
  destruct rv_open0 as [Hfd Hcur Hwf Hsts].
  destruct rv_ids0 as (removed&Hinv&Hpend).
  pose proof (lookup_lt_Some _ _ _ HB) as Hk.
  assert (∀ i B', i ≠ k → lf_blocks m !! i = Some B' → ∀ id, id ∈ chunk_id_set B' →
    view (ft_storage s2) id = view (ft_storage s) id) as Hother.
  { intros i B' Hi HB' id Hin. rewrite Hv. apply so_view0. rewrite elem_of_singleton. intros ->.
    destruct (ii_known _ _ _ _ _ Hinv (ids k)) as [?|(j&?&Hj)].
    - apply elem_of_concat_ids. eauto.
    - by eapply (proj2 Hf).
    - apply (proj1 Hf) in Hj. lia. }
  destruct (replace_block_wf (view (ft_storage s)) (view (ft_storage s2)) m k B c' e)
    as (Hwf'&Hsts'&Hcont'); try done.
  { destruct Hst' as (d&?&?). exists d. by rewrite Hv. }
  { rewrite <-Hbytes. unfold chunk_bytes. by rewrite Hv. }
  fold m' in Hwf', Hsts', Hcont'.
  pose proof (ids_inv_step m0 ids k (lf_blocks m) removed k B [c'] Hf Hinv ltac:(lia)
    ltac:(by rewrite HB) ltac:(by apply rv_rest0) Hids) as Hinv'.
  unfold write_block in Hinv'. rewrite decide_False in Hinv' by lia.
  split; try congruence.
  - unfold m'. rewrite rv_same0. done.
  - split; [by rewrite Hfds, so_fds0|rewrite Hc; by case_decide|done..].
  - eexists. split; [exact Hinv'|]. rewrite Hp, Hid, decide_True by done.
    unfold pending in *. rewrite so_ahead0, Hpend. set_solver.
  - intros i B' Hi. simpl. rewrite list_lookup_insert_Some.
    intros [(<-&<-&_)|(?&?)]; [by exists c'|]. apply (rv_done0 i); [lia|done].
  - intros i Hi. simpl. rewrite list_lookup_insert_ne by lia. apply rv_rest0. lia.
  - intros id Hid'. rewrite Hv, so_view0; [auto|]. rewrite elem_of_singleton. auto.
  - intros e' ?. rewrite Hc, decide_False by congruence. rewrite so_current0. auto.
  - intros e' ?. rewrite Hp, decide_False by congruence. unfold pending. rewrite so_ahead0. by apply rv_pending0.
Qed.

Lemma padded_data_all data : padded_data data 0 (Z.of_nat (length data)) = Ok data.
Proof.
  rewrite (padded_data_ok 0) by lia. unfold padded_part. simpl.
  rewrite drop_0, take_ge; [done|lia].
Qed.

(** The operation that [prepare_reshape] yields for the block [k] of [m]. *)
Record reshape_op_ok (ids : nat → ChunkID) (k : nat) (m : LocalFileManifest) (B : list Chunk)
    (a e : Z) (d : Chunk) : Prop := {
  ro_block : lf_blocks m !! k = Some B;
  ro_contig : contig a B e;
  ro_dest : contig a [d] e;
  ro_pseudo : is_pseudo_block d = true;
  ro_not_block : is_block d = false;
  ro_case : B = [d] ∨ B ≠ [d] ∧ c_id d = ids k }.

Lemma is_pseudo_raw c :
  is_pseudo_block c = true → c_raw_offset c = c_start c ∧ c_raw_size c = c_stop c - c_start c.
Proof.
  unfold is_pseudo_block. destruct (Z.eqb_spec (c_start c) (c_raw_offset c)); [|done].
  destruct (Z.eqb_spec (c_stop c) (c_raw_offset c + c_raw_size c)); [|done]. simpl. lia.
Qed.

(** Storing the data of the operation, in the state [s1]. *)
Lemma reshape_store_ok ids s0 fd m0 k s m B d a e data c' :
  reshape_inv ids s0 fd m0 k s m → reshape_op_ok ids k m B a e d →
  Forall (stored (view (ft_storage s))) B → data = chunks_bytes (view (ft_storage s)) B →
  c_id c' = c_id d → c_start c' = c_start d → c_stop c' = c_stop d →
  c_raw_offset c' = c_raw_offset d → c_raw_size c' = c_raw_size d →
  ∃ s1 n, (if bool_decide (B = [d]) then mret 0 else write_chunk c' data 0) s = (s1, Ok n) ∧
    stores {[ids k]} s s1 ∧ ft_write_count s1 = ft_write_count s ∧
    stored (view (ft_storage s1)) c' ∧ chunk_bytes (view (ft_storage s1)) c' = data.
Proof.
  intros Hinv [HB HBc Hd Hps _ Hcase] Hst Hdata Hid Hsta Hsto Hro Hrs.
  pose proof (is_pseudo_raw _ Hps) as [Hr1 Hr2].
  pose proof Hd as (Ha&Hok&He). simpl in He.
  destruct Hcase as [->|[Hne Hids]].
  - rewrite bool_decide_true by done. exists s, 0. split; [done|].
    split; [apply stores_refl|]. split; [done|]. apply Forall_inv in Hst as (d0&Hv&Hl). split.
    + exists d0. rewrite Hid, Hrs. done.
    + rewrite Hdata. unfold chunks_bytes. simpl. rewrite app_nil_r.
      unfold chunk_bytes, slice_chunk. by rewrite Hid, Hsta, Hsto, Hro.
  - rewrite bool_decide_false by done.
    pose proof (length_chunks_bytes _ _ _ _ HBc Hst) as Hlen. rewrite <-Hdata in Hlen.
    destruct (write_chunk_ok s c' data 0 data) as (s1&Hw&Hsto'&Hv&Hwc).
    { replace (0 + c_stop c' - c_start c') with (Z.of_nat (length data)) by lia.
      apply padded_data_all. }
    exists s1, (Z.of_nat (length data)). split; [done|].
    split; [by rewrite <-Hids, <-Hid|]. split; [done|].
    assert (Z.of_nat (length data) = c_raw_size c') by lia.
    split; [by exists data|]. rewrite (chunk_bytes_eq _ _ _ Hv); [|done|].
    + replace (c_start c' - c_raw_offset c') with 0 by lia. rewrite drop_0, take_ge by lia. done.
    + destruct Hok. split; lia.
Qed.

Lemma reshape_one_ok ids s0 fd m0 k s m B d e ops :
  reshape_inv ids s0 fd m0 k s m → fresh_for ids m0 →
  reshape_op_ok ids k m B (Z.of_nat k * lf_blocksize m) e d →
  Forall (stored (view (ft_storage s))) B →
  ∃ s' m', reshape_inv ids s0 fd m0 (S k) s' m' ∧
    reshape_ops key digest m []
      (Ok (mkReshapeOp B d (Z.of_nat k) (chunk_id_set B ∖ chunk_id_set [d])) :: ops) s
    = reshape_ops key digest m' [] ops s'.
Proof.
  intros Hinv Hf Hop Hst. pose proof Hop as [HB HBc Hd Hps Hnb Hcase].
  destruct (build_data_ok s _ _ _ HBc Hst) as (s1&Hbuild&Hq).
  pose proof (reshape_inv_quiet _ _ _ _ _ _ _ _ Hq Hinv) as Hinv1.
  pose proof (stored_quiet _ _ _ (fq_storage _ _ Hq) Hst) as Hst1.
  assert (chunks_bytes (view (ft_storage s)) B = chunks_bytes (view (ft_storage s1)) B) as Hb1
    by (symmetry; apply chunks_bytes_ext; intros; apply Hq).
  rewrite Hb1 in Hbuild. set (data := chunks_bytes (view (ft_storage s1)) B) in *.
  destruct (evolve_as_block_ok d data Hnb Hps) as (c'&Hev&Hblk&Hid&Hsta&Hsto&Hro&Hrs).
  destruct (reshape_store_ok ids s0 fd m0 k s1 m B d _ e data c' Hinv1 Hop Hst1 eq_refl
    Hid Hsta Hsto Hro Hrs) as (s2&n&Hstore&Hstores&Hwc&Hst2&Hb2).
  assert (contig (Z.of_nat k * lf_blocksize m) [c'] e) as Hc'.
  { destruct Hd as (?&[]&?). split; [congruence|]. split; [split; lia|]. simpl in *. congruence. }
  assert (chunk_id_set [c'] = chunk_id_set [d]) as Hids
    by (unfold chunk_id_set; simpl; by rewrite Hid).
  set (m' := file_evolve_blocks m (<[k := [c']]> (lf_blocks m))).
  destruct (set_manifest_cached s2 (lf_id m) (LFile m') (chunk_id_set B ∖ chunk_id_set [c']))
    as (s3&Hset&_).
  exists s3, m'. split.
  - eapply (reshape_inv_set _ _ _ _ _ s1 s2); try done.
    rewrite Hids. unfold chunk_id_set. simpl.
    destruct Hcase as [->|[_ ->]]; simpl; set_solver.
  - cbn [reshape_ops]. unfold mbind, stM_bind, lift_result. cbn [rs_source].
    rewrite Hbuild. cbn [rs_destination]. rewrite Hev, Hstore.
    unfold update_manifest. cbn [rs_block].
    pose proof (lookup_lt_Some _ _ _ HB).
    rewrite py_set_nonneg, Nat2Z.id by lia. cbn [rs_removed_ids].
    rewrite <-Hids. change (lf_id (file_evolve_blocks m _)) with (lf_id m). fold m'. by rewrite Hset.
Qed.

Lemma reshape_ops_ok ids s0 fd m0 rest k s m :
  reshape_inv ids s0 fd m0 k s m → fresh_for ids m0 → drop k (lf_blocks m0) = rest →
  ∃ s' m', reshape_ops key digest m [] (reshape_loop ids k (enumerate_from (Z.of_nat k) rest)) s
             = (s', Ok (m', [])) ∧
    reshape_inv ids s0 fd m0 (k + length rest) s' m'.
Proof.
  revert k s m. induction rest as [|B rest IH]; intros k s m Hinv Hf Hrest.
  { exists s, m. simpl. by rewrite Nat.add_0_r. }
  assert (lf_blocks m !! k = Some B) as HB.
  { rewrite (rv_rest _ _ _ _ _ _ _ Hinv k) by lia. rewrite <-(Nat.add_0_r k).
    by rewrite <-lookup_drop, Hrest. }
  assert (drop (S k) (lf_blocks m0) = rest) as Hrest'.
  { replace (S k) with (k + 1)%nat by lia. by rewrite <-drop_drop, Hrest. }
  replace (k + length (B :: rest))%nat with (S k + length rest)%nat by (simpl; lia).
  pose proof (rv_open _ _ _ _ _ _ _ Hinv) as [_ _ Hwf Hst].
  destruct (blocks_wf_drop _ _ _ _ _ Hwf HB) as (_&Hlt&HBc&_).
  set (e := Z.min (lf_size m) ((Z.of_nat k + 1) * lf_blocksize m)) in *.
  assert (Z.of_nat k * lf_blocksize m < e) as Hlt' by (destruct Hwf; lia).
  assert (Forall (stored (view (ft_storage s))) B) as HstB.
  { unfold all_stored, all_chunks in Hst. rewrite Forall_forall in Hst |- *. intros c Hc.
    apply Hst, list_elem_of_In, in_concat. exists B. rewrite <-!list_elem_of_In.
    split; [by eapply list_elem_of_lookup_2|done]. }
  assert (lf_id m0 = lf_id m) as Hidm
    by (by rewrite (rv_same _ _ _ _ _ _ _ Hinv)).
  cbn [enumerate_from reshape_loop]. replace (Z.of_nat k + 1) with (Z.of_nat (S k)) by lia.
  destruct (reshape_step_cases (ids k) (Z.of_nat k) B _ _ HBc Hlt')
    as [(->&HBr)|[(c&->&Hnb&Hps&->)|[Hnp ->]]].
  - apply IH; [by eapply reshape_inv_skip|done..].
  - replace ∅ with (chunk_id_set [c] ∖ chunk_id_set [c]) by set_solver.
    edestruct (reshape_one_ok ids s0 fd m0 k s m [c] c e) as (s'&m'&Hinv'&->); try done.
    { split; try done. by left. }
    by apply IH.
  - assert (ids k ∉ chunk_id_set B) as Hnew.
    { intros Hin. destruct (rv_ids _ _ _ _ _ _ _ Hinv) as (removed&[_ Hknown _]&_).
      destruct (Hknown (ids k)) as [?|(j&?&Hj)].
      - apply elem_of_concat_ids. eauto.
      - by eapply (proj2 Hf).
      - apply (proj1 Hf) in Hj. lia. }
    assert (B ≠ [fresh_chunk (ids k) (Z.of_nat k * lf_blocksize m) e]) as HBne.
    { intros HBeq. specialize (Hnp _ HBeq). by rewrite is_pseudo_fresh in Hnp. }
    replace (chunk_id_set B) with
      (chunk_id_set B ∖ chunk_id_set [fresh_chunk (ids k) (Z.of_nat k * lf_blocksize m) e])
      by (unfold chunk_id_set in *; simpl; set_solver).
    edestruct (reshape_one_ok ids s0 fd m0 k s m B) as (s'&m'&Hinv'&->); try done.
    { split; try done; [by apply fresh_chunk_contig|apply is_pseudo_fresh|by right]. }
    by apply IH.
Qed.

Lemma reshape_blocks_ok s fd m :
  file_inv s fd m →
  ∃ s' m', reshape_blocks fresh key digest m s = (s', Ok (m', [])) ∧
    file_inv s' fd m' ∧ framed (lf_id m) s s' ∧
    m' = file_evolve_blocks m (lf_blocks m') ∧ is_reshaped m' = true ∧
    content (view (ft_storage s')) m' = content (view (ft_storage s)) m ∧
    ft_write_count s' = ft_write_count s ∧ ft_events s' = ft_events s.
Proof.
  intros Hinv. pose proof (file_inv_fresh_for _ _ _ Hinv) as Hf.
  destruct Hinv as [Hopen Hdis Hca Hdu Hpend Hfresh]. set (ids := next_ids fresh s) in *.
  set (n := length (lf_blocks m)). set (s0 := draw n s).
  assert (reshape_inv ids s0 fd m 0 s0 m) as Hinit.
  { apply reshape_inv_init; [|done..]. by destruct Hopen. }
  destruct (reshape_ops_ok ids s0 fd m (lf_blocks m) 0 s0 m Hinit Hf (drop_0 _))
    as (s'&m'&Hops&[]). change (Z.of_nat 0) with 0 in Hops.
  exists s', m'. fold n in rv_ids0, rv_done0, rv_rest0.
  destruct rv_ids0 as (removed&[Hd' Hk Hr]&Hp).
  assert (lf_id m' = lf_id m) as Hid by by rewrite rv_same0.
  assert (length (lf_blocks m') = n) as Hlen.
  { apply Nat.le_antisymm.
    - apply Nat.nlt_ge. intros ?. destruct (lookup_lt_is_Some_2 (lf_blocks m') n) as [B HB]; [done|].
      rewrite rv_rest0 in HB by lia. apply lookup_lt_Some in HB. unfold n in *. lia.
    - apply Nat.nlt_ge. intros Hlt.
      destruct (rv_open0) as [_ _ (_&_&?&_) _]. rewrite rv_same0 in H. simpl in H.
      destruct (oo_wf _ _ _ Hopen) as (?&_&?&_). fold n in H1. nia. }
  split; [|split; [|split; [|split_and!]]]; try done.
  - split; try done.
    + by rewrite Hid.
    + by rewrite Hid.
    + rewrite Hid, Hp. intros id [Hin|Hin]%elem_of_union Hin'; [|by apply Hr in Hin as []].
      destruct (Hk id Hin') as [?|(j&?&->)]; [by eapply Hpend|].
      eapply (Hfresh (ft_drawn s + j)%nat); [lia|done].
    + intros k. rewrite rv_drawn0, Hid, Hp. simpl. intros Hge.
      destruct (Hfresh k) as [Hk1 Hk2]; [lia|]. split.
      * intros [?|(j&?&Heq)]%Hk; [done|]. unfold ids, next_ids in Heq.
        apply (inj fresh) in Heq. unfold n in *. lia.
      * rewrite elem_of_union. intros [?|[? _]%Hr]; done.
  - split.
    + intros id Hid'. rewrite rv_view0; [done|]. intros j. apply Hid'. lia.
    + done.
    + done.
    + done.
    + rewrite rv_drawn0. simpl. lia.
  - apply is_reshaped_spec. apply Forall_lookup. intros i B HB.
    eapply rv_done0; [|done]. apply lookup_lt_Some in HB. unfold n in *. lia.
Qed.

(** ** The transactions *)

Lemma file_inv_count f s fd m : file_inv s fd m → file_inv (set_write_count f s) fd m.
Proof. intros [[] ? ? ? ? ?]. by split. Qed.
Lemma framed_count e s s' f : framed e s s' → framed e s (set_write_count f s').
Proof. intros []. by split. Qed.
Lemma file_inv_event id s fd m :
  file_inv s fd m →
  file_inv (mkFTState (ft_storage s) (ft_write_count s) (ft_drawn s) (id :: ft_events s)) fd m.
Proof. intros [[] ? ? ? ? ?]. by split. Qed.
Lemma framed_event id e s s' :
  framed e s s' →
  framed e s (mkFTState (ft_storage s') (ft_write_count s') (ft_drawn s') (id :: ft_events s')).
Proof. intros []. by split. Qed.

(** The blocks and the size apart, a transaction keeps the manifest. *)
Definition same_file (m m' : LocalFileManifest) : Prop :=
  lf_base m' = lf_base m ∧ lf_blocksize m' = lf_blocksize m.

Lemma fd_write_content_ok now s fd m data offset :
  file_inv s fd m → data ≠ [] →
  ∃ s' m', fd_write_content now fresh key digest fd m data offset s
             = (s', Ok (Z.of_nat (length data))) ∧
    file_inv s' fd m' ∧ framed (lf_id m) s s' ∧ same_file m m' ∧ lf_need_sync m' = true ∧
    content (view (ft_storage s')) m'
      = write_at (content (view (ft_storage s)) m) data (normalize_argument offset m).
Proof.
  intros Hinv Hne. pose proof (oo_wf _ _ _ (fi_open _ _ _ Hinv)) as Hwf.
  set (off := normalize_argument offset m).
  assert (0 <= off) as Hoff.
  { unfold off, normalize_argument. destruct Hwf as (_&?&_). destruct (Z.ltb_spec offset 0); lia. }
  assert (0 < Z.of_nat (length data)) by (destruct data; [done|simpl; lia]).
  destruct (prepare_write_ok now (next_ids fresh s) m (Z.of_nat (length data)) off)
    as (m1&ops&removed&Hprep&Hspec); [done|lia|lia|by left|].
  destruct (write_manifest_ok now s fd m data off m1 ops removed (write_op fd data) Hinv Hoff
    (write_op_writes _ _) Hspec) as (s1&s2&Hs1&Hs2&Hinv2&Hfr2&Hwc&Hcont2).
  pose proof (wr_manifest _ _ _ _ _ _ _ _ Hspec) as Hm1.
  assert (lf_id m1 = lf_id m) as Hid by by rewrite Hm1.
  unfold fd_write_content, mbind, stM_bind, gets, lift_result, modify. fold off.
  rewrite Hprep, Hs1, Hs2.
  destruct (lf_blocksize m1 <=? _).
  - destruct (reshape_blocks_ok _ _ _ Hinv2) as (s3&m'&Hs3&Hinv3&Hfr3&Hm'&_&Hcont3&_&_).
    unfold manifest_reshape, mbind, stM_bind. rewrite Hs3. eexists _, m'. split; [done|].
    split; [apply file_inv_event, file_inv_count; done|].
    split; [apply framed_event, framed_count; eapply framed_trans; [done|by rewrite <-Hid]|].
    split; [split; by rewrite Hm', Hm1|]. split; [by rewrite Hm', Hm1|]. simpl. congruence.
  - eexists _, m1. split; [done|].
    split; [by apply file_inv_event|]. split; [by apply framed_event|].
    split; [split; by rewrite Hm1|]. split; [by rewrite Hm1|]. done.
Qed.

(** The bytes a constrained write keeps: those inside the file. *)
Definition constrained_data (n : Z) (data : bytes) (offset : Z) : bytes :=
  take (Z.to_nat (Z.min n (offset + Z.of_nat (length data)) - offset)) data.
Definition write_result (old data : bytes) (offset : Z) : bytes :=
  match data with
  | [] => old
  | _ => write_at old data (if offset <? 0 then Z.of_nat (length old) else offset)
  end.

Lemma fd_write_ok now s fd m data offset (constrained : bool) :
  file_inv s fd m →
  let old := content (view (ft_storage s)) m in
  let data' := if constrained then constrained_data (Z.of_nat (length old)) data offset else data in
  ∃ s' m', fd_write now fresh key digest fd data offset constrained s
             = (s', Ok (Z.of_nat (length data'))) ∧
    file_inv s' fd m' ∧ framed (lf_id m) s s' ∧ same_file m m' ∧
    content (view (ft_storage s')) m' = write_result old data' offset.
Proof.
  intros Hinv old data'. pose proof (fi_open _ _ _ Hinv) as [Hfd Hcur Hwf Hst].
  destruct (load_file_descriptor_ok s fd _ m Hfd Hcur) as (s1&Hload&Hq).
  pose proof (file_inv_quiet _ _ _ _ Hq Hinv) as Hinv1.
  assert (Z.of_nat (length old) = lf_size m) as Hlen by by apply length_content.
  assert (content (view (ft_storage s1)) m = old) as Hold
    by (by rewrite (content_quiet _ _ m (fq_storage _ _ Hq))).
  unfold fd_write, mbind, stM_bind. rewrite Hload.
  assert ((if constrained then py_slice data 0
             (Z.max (Z.min (lf_size m) (offset + Z.of_nat (length data)) - offset) 0) else data)
          = data') as ->.
  { unfold data', constrained_data. destruct constrained; [|done].
    rewrite py_slice_take, Hlen by lia. f_equal. lia. }
  destruct (decide (data' = [])) as [Hnil|Hne].
  - rewrite Hnil. exists s1, m. split; [done|]. split; [done|].
    split; [by apply framed_quiet|]. by split.
  - destruct (fd_write_content_ok now s1 fd m data' offset Hinv1 Hne)
      as (s2&m'&Hs2&Hinv2&Hfr&Hsame&_&Hcont).
    exists s2, m'. split; [by destruct data'|]. split; [done|].
    split; [eapply framed_trans; [by apply framed_quiet|done]|]. split; [done|].
    rewrite Hcont, Hold. unfold write_result, normalize_argument. rewrite Hlen.
    by destruct data'.
Qed.

(** The file cut, or filled with null bytes, to a length. *)
Definition resize_to (old : bytes) (length : Z) : bytes :=
  take (Z.to_nat length) (old ++ zeros (length - Z.of_nat (List.length old))).

Lemma manifest_resize_ok now s fd m length :
  file_inv s fd m → 0 <= length →
  ∃ s' m', manifest_resize now fresh m length true s = (s', Ok tt) ∧
    file_inv s' fd m' ∧ framed (lf_id m) s s' ∧ same_file m m' ∧ lf_size m' = length ∧
    content (view (ft_storage s')) m' = resize_to (content (view (ft_storage s)) m) length.
Proof.
  intros Hinv Hl. pose proof (fi_open _ _ _ Hinv) as [Hfd Hcur Hwf Hst].
  pose proof (length_content _ _ Hwf Hst) as Hlen. unfold manifest_resize.
  destruct (Z.eqb_spec (lf_size m) length) as [<-|Hne].
  { exists s, m. split; [done|]. split; [done|]. split; [by apply framed_quiet|].
    split; [done|]. split; [done|]. unfold resize_to.
    rewrite Hlen, Z.sub_diag, app_nil_r, take_ge by (done || lia). done. }
  unfold mbind, stM_bind, gets, lift_result, modify, prepare_resize.
  destruct (Z.leb_spec (lf_size m) length).
  - destruct (prepare_write_ok now (next_ids fresh s) m 0 length)
      as (m1&ops&removed&Hprep&Hspec); [done|lia|lia|right; lia|].
    destruct (write_manifest_ok now s fd m [] length m1 ops removed resize_op Hinv Hl
      resize_op_writes Hspec) as (s1&s2&Hs1&Hs2&Hinv2&Hfr2&_&Hcont2).
    rewrite Hprep, Hs1, Hs2. pose proof (wr_manifest _ _ _ _ _ _ _ _ Hspec) as Hm1.
    exists s2, m1. split; [done|]. split; [done|]. split; [done|].
    split; [split; by rewrite Hm1|]. split; [rewrite Hm1; simpl; lia|].
    rewrite Hcont2. unfold write_at, resize_to. simpl.
    rewrite drop_ge by lia. by rewrite app_nil_r.
  - destruct (prepare_truncate_ok now m length Hwf) as (m1&removed&Hprep&Hspec); [lia|].
    simpl. rewrite Hprep. simpl. pose proof Hspec as [Hwf' Hm1 Hchunks Hids].
    pose proof (fi_disjoint _ _ _ Hinv) as Hdis. destruct (Hids Hdis) as [Hdis' Hrem].
    destruct Hinv as [_ _ Hca Hdu Hpend Hfresh].
    assert (lf_id m1 = lf_id m) as Hid by by rewrite Hm1.
    destruct (truncate_spec_content now m length m1 removed (view (ft_storage s)) Hspec Hwf Hst Hl)
      as [Hst' Hcont].
    destruct (set_manifest_cached (draw 0 s) (lf_id m1) (LFile m1) removed)
      as (s2&Hs2&Hv&Hc&Hca2&[R HR]&Hp&Hfds&Hdr&_&Hwc). simpl in *.
    assert (chunk_id_set (all_chunks m1) ⊆ chunk_id_set (all_chunks m)) as Hsub
      by (rewrite Hchunks; apply chunk_id_set_take).
    rewrite Hs2. exists s2, m1. split; [done|]. split; [|split; [|split; [|split]]].
    + split; [split| | | | |]; try done; try congruence.
      * rewrite Hc. by case_decide.
      * eapply stored_ext; [|exact Hst']. intros. apply Hv.
      * rewrite Hp, decide_True by done. unfold pending. rewrite Hid, Hrem. simpl.
        intros id [Hin|[_ Hin]%elem_of_difference]%elem_of_union Hin'; [|done].
        eapply Hpend; [exact Hin|]. by eapply elem_of_weaken.
      * intros k Hk. rewrite Hp, decide_True, Hid by done. destruct (Hfresh k) as [Hk1 Hk2]; [lia|].
        split; [intros ?; apply Hk1; by eapply elem_of_weaken|].
        intros [?|Hin]%elem_of_union; [done|]. rewrite Hrem in Hin.
        by apply elem_of_difference in Hin as [? _].
    + split; [done|..].
      * intros e' ?. rewrite Hc. by rewrite decide_False by congruence.
      * intros e' ?. rewrite Hp. by rewrite decide_False by congruence.
      * done.
      * lia.
    + split; by rewrite Hm1.
    + by rewrite Hm1.
    + transitivity (content (view (ft_storage s)) m1); [apply chunks_bytes_ext; auto|].
      rewrite Hcont. unfold resize_to. by rewrite take_app_le by lia.
Qed.

Lemma fd_resize_ok now s fd m length (truncate_only : bool) :
  file_inv s fd m → 0 <= length →
  let old := content (view (ft_storage s)) m in
  ∃ s' m', fd_resize now fresh fd length truncate_only s = (s', Ok tt) ∧
    file_inv s' fd m' ∧ framed (lf_id m) s s' ∧ same_file m m' ∧
    content (view (ft_storage s')) m'
      = if truncate_only && (Z.of_nat (List.length old) <=? length) then old
        else resize_to old length.
Proof.
  intros Hinv Hl old. pose proof (fi_open _ _ _ Hinv) as [Hfd Hcur Hwf Hst].
  destruct (load_file_descriptor_ok s fd _ m Hfd Hcur) as (s1&Hload&Hq).
  pose proof (file_inv_quiet _ _ _ _ Hq Hinv) as Hinv1.
  assert (content (view (ft_storage s1)) m = old) as Hold
    by (by rewrite (content_quiet _ _ m (fq_storage _ _ Hq))).
  unfold fd_resize, mbind, stM_bind. rewrite Hload. unfold old.
  rewrite (length_content _ _ Hwf Hst). destruct (truncate_only && _).
  - exists s1, m. split; [done|]. split; [done|]. split; [by apply framed_quiet|]. by split.
  - destruct (manifest_resize_ok now s1 fd m length Hinv1 Hl)
      as (s2&m'&->&Hinv2&Hfr&Hsame&_&Hcont).
    eexists _, m'. split; [done|]. split; [by apply file_inv_event|].
    split; [apply framed_event; eapply framed_trans; [by apply framed_quiet|done]|].
    split; [done|]. rewrite Hold in Hcont. exact Hcont.
Qed.

(** Writing the manifest of an entry to the database removes the chunks that
    wait for it, and no other. *)
Lemma ensure_persistent_ok s fd m :
  file_inv s fd m →
  ∃ s', on_storage (ensure_manifest_persistent (lf_id m)) s = (s', Ok tt) ∧
    file_inv s' fd m ∧
    content (view (ft_storage s')) m = content (view (ft_storage s)) m ∧
    st_ahead (ft_storage s') !! lf_id m = None ∧
    (∀ id, id ∉ pending (ft_storage s) (lf_id m) →
       view (ft_storage s') id = view (ft_storage s) id) ∧
    (∀ id, id ∈ pending (ft_storage s) (lf_id m) → st_chunks (ft_storage s') !! id = None) ∧
    ft_write_count s' = ft_write_count s ∧ ft_drawn s' = ft_drawn s.
Proof.
  intros Hinv. pose proof Hinv as [[Hfd Hcur Hwf Hst] Hdis Hca Hdu Hpend Hfresh].
  unfold on_storage, ensure_manifest_persistent, mbind, stM_bind, gets.
  destruct (st_ahead (ft_storage s) !! lf_id m) as [R|] eqn:HR.
  - rewrite decide_True by done. unfold ensure_persistent. rewrite HR, Hca by done.
    assert (pending (ft_storage s) (lf_id m) = R) as HpR by (unfold pending; by rewrite HR).
    rewrite HpR in *. eexists. split; [done|].
    match goal with |- file_inv ?s' _ _ ∧ _ => set (s2 := s') end.
    assert (∀ id, id ∉ R → view (ft_storage s2) id = view (ft_storage s) id) as Hview.
    { intros id Hid. unfold view, s2. simpl. rewrite map_lookup_filter.
      destruct (st_chunks (ft_storage s) !! id); simpl; [|done]. by rewrite option_guard_True. }
    assert (∀ id, id ∈ chunk_id_set (all_chunks m) →
      view (ft_storage s2) id = view (ft_storage s) id) as Hkeep.
    { intros id Hin. apply Hview. intros ?. by eapply Hpend. }
    assert (st_ahead (ft_storage s2) !! lf_id m = None) as Hah
      by (unfold s2; simpl; apply lookup_delete_eq).
    assert (pending (ft_storage s2) (lf_id m) = ∅) as Hp2 by (unfold pending; by rewrite Hah).
    split; [|split; [by apply chunks_bytes_ext|split; [done|split; [done|split; [|done]]]]].
    + split; [split|..]; try done.
      * unfold current, s2. simpl. by rewrite Hca.
      * by eapply stored_ext.
      * intros [? H]. congruence.
      * intros _. unfold s2. simpl. by rewrite lookup_insert_eq.
      * rewrite Hp2. set_solver.
      * intros k Hk. rewrite Hp2. destruct (Hfresh k Hk). split; [done|set_solver].
    + intros id Hid. unfold s2. simpl. rewrite map_lookup_filter.
      destruct (st_chunks (ft_storage s) !! id); simpl; [|done]. by rewrite option_guard_False by auto.
  - rewrite decide_False by (intros [? H]; congruence).
    assert (pending (ft_storage s) (lf_id m) = ∅) as Hp by (unfold pending; by rewrite HR).
    exists s. destruct s as [st cnt dr ev]. simpl in *. split; [done|]. split; [done|].
    split; [done|]. split; [done|]. split; [done|]. split; [|done]. rewrite Hp. set_solver.
Qed.

Lemma fd_flush_ok s fd m :
  file_inv s fd m →
  ∃ s' m', fd_flush fresh key digest fd s = (s', Ok tt) ∧
    file_inv s' fd m' ∧ m' = file_evolve_blocks m (lf_blocks m') ∧ is_reshaped m' = true ∧
    content (view (ft_storage s')) m' = content (view (ft_storage s)) m ∧
    vr_blob <$> st_vlobs (ft_storage s') !! lf_id m = Some (LFile m').
Proof.
  intros Hinv. pose proof (fi_open _ _ _ Hinv) as [Hfd Hcur Hwf Hst].
  destruct (load_file_descriptor_ok s fd _ m Hfd Hcur) as (s1&Hload&Hq).
  pose proof (file_inv_quiet _ _ _ _ Hq Hinv) as Hinv1.
  assert (content (view (ft_storage s1)) m = content (view (ft_storage s)) m) as Hold
    by (by rewrite (content_quiet _ _ m (fq_storage _ _ Hq))).
  destruct (reshape_blocks_ok s1 fd m Hinv1)
    as (s2&m'&Hre&Hinv2&_&Hm'&Hr&Hcont2&_).
  assert (lf_id m' = lf_id m) as Hid by by rewrite Hm'.
  destruct (ensure_persistent_ok s2 fd m' Hinv2) as (s3&Hens&Hinv3&Hcont3&_&_).
  destruct (ensure_persistent_ok s3 fd m' Hinv3) as (s4&Hens4&Hinv4&Hcont4&Hah4&_).
  rewrite Hid in Hens4.
  exists s4, m'. split.
  - unfold fd_flush, manifest_reshape, mbind, stM_bind. rewrite Hload, Hre. simpl.
    by rewrite Hens.
  - split; [done|]. split; [done|]. split; [done|]. split; [congruence|].
    rewrite <-Hid. apply (fi_durable _ _ _ Hinv4). done.
Qed.
End invariant.
