(* ===== verification/FileProperties.v ===== *)
(** What the file layer of the client guarantees: the theorems on file
    manifests, file operations and transactions, each with an instance on a
    small file. *)

From S2P Require Import Prelude Types ApiManifest Chunk LocalManifest FileOperations.
From S2P Require Import FileContent Storage FileTransactions FileRefinement.
From Stdlib Require Import Strings.Byte.

(** ** A small file, for the instances of the theorems *)

Definition ex_device : DeviceID := mkDeviceID "alice" "laptop".
Definition ex_base : FileManifest :=
  lf_base (file_new_placeholder ex_device 1%N 2%N 0 8).
Definition ex_fresh (k : nat) : ChunkID := (N.of_nat k + 100)%N.
Definition ex_chunk (id : ChunkID) (start stop : Z) : Chunk :=
  mkChunk id start stop start (stop - start) None.
(** Ten bytes in two blocks of eight. *)
Definition ex_file : LocalFileManifest :=
  mkLocalFileManifest ex_base true 0 10 8 [[ex_chunk 5 0 3; ex_chunk 6 3 8]; [ex_chunk 7 8 10]].
Definition ex_chunks : gmap ChunkID bytes :=
  {[5%N := [x61; x62; x63]; 6%N := [x64; x65; x66; x67; x68]; 7%N := [x69; x6a]]}.
Definition ex_storage : Storage :=
  mkStorage {[2%N := LFile ex_file]} {[2%N := {[4%N]}]} ∅ None ex_chunks ∅ 0 {[1 := 2%N]} 1.
Definition ex_state : FTState := mkFTState ex_storage ∅ 0 [].

Lemma ex_file_wf : lf_wf ex_file.
Proof.
  split_and!; try (vm_compute; congruence || lia).
  intros [|[|i]] cs; simpl; intros; simplify_eq; repeat split; simpl; lia.
Qed.
Lemma ex_file_stored : all_stored (view ex_storage) ex_file.
Proof. repeat constructor; eexists; split; reflexivity. Qed.
Lemma ex_file_disjoint : ids_disjoint (lf_blocks ex_file).
Proof.
  intros [|[|i]] [|[|j]] bi bj id; simpl; intros Hi Hj; simplify_eq; try done;
    unfold chunk_id_set; simpl; set_solver.
Qed.
Lemma ex_file_ids k : ex_fresh k ∉ chunk_id_set (all_chunks ex_file).
Proof.
  unfold ex_fresh, chunk_id_set. simpl. rewrite !elem_of_union, !elem_of_singleton.
  rewrite elem_of_empty. lia.
Qed.
#[export] Instance ex_fresh_inj : Inj (=) (=) ex_fresh.
Proof. intros i j. unfold ex_fresh. lia. Qed.
Lemma ex_file_fresh : fresh_for ex_fresh ex_file.
Proof. split; [apply _|apply ex_file_ids]. Qed.
Lemma ex_state_inv : file_inv ex_fresh ex_state 1 ex_file.
Proof.
  split; [split|..]; try done; try apply ex_file_wf; try apply ex_file_stored;
    try apply ex_file_disjoint.
  - change (pending (ft_storage ex_state) (lf_id ex_file)) with ({[4%N]} : gset ChunkID).
    intros id Hid%elem_of_singleton. subst. unfold chunk_id_set. simpl. set_solver.
  - intros k _. split; [apply ex_file_ids|]. unfold ex_fresh.
    change (pending (ft_storage ex_state) (lf_id ex_file)) with ({[4%N]} : gset ChunkID).
    intros Hk%elem_of_singleton. lia.
Qed.

(** ** Manifests *)

(** C1: [assert_integrity] accepts exactly the manifests that cover the file
    block by block, without a hole or an overlap, when the last block is not
    larger than the block size. *)
Theorem assert_integrity_correct m :
  0 < lf_blocksize m →
  lf_wf m ↔ assert_integrity m = Ok tt
            ∧ lf_size m <= Z.of_nat (length (lf_blocks m)) * lf_blocksize m.
Proof. apply assert_integrity_wf. Qed.
Lemma assert_integrity_witness :
  lf_wf ex_file ↔ assert_integrity ex_file = Ok tt
    ∧ lf_size ex_file <= Z.of_nat (length (lf_blocks ex_file)) * lf_blocksize ex_file.
Proof. apply assert_integrity_correct. reflexivity. Defined.

Lemma from_block_acess_is_block a : is_block (from_block_acess a) = true.
Proof. apply is_block_spec. by exists a. Qed.

Lemma block_accesses_from_remote l :
  block_accesses ((λ a, [from_block_acess a]) <$> l) = Ok l.
Proof.
  induction l as [|a l IH]; [done|]. cbn [fmap list_fmap block_accesses].
  unfold get_block_access. rewrite from_block_acess_is_block. simpl.
  fold (@fmap list _ _ _ (λ a, [from_block_acess a]) l). by rewrite IH.
Qed.

Lemma is_reshaped_from_remote r : is_reshaped (file_from_remote r) = true.
Proof.
  apply is_reshaped_spec. simpl. apply Forall_fmap, Forall_true. intros a.
  eexists. split; [done|]. apply from_block_acess_is_block.
Qed.

(** C2: a remote file manifest that passes the integrity check survives the way
    to a local manifest and back: the next version has the same content, and the
    local manifest matches the remote one. *)
Theorem file_remote_roundtrip r author timestamp :
  assert_integrity (file_from_remote r) = Ok tt →
  file_to_remote (file_from_remote r) author timestamp
    = Ok {| fim_author := author; fim_timestamp := timestamp; fim_id := fim_id r;
            fim_parent := fim_parent r; fim_version := fim_version r + 1;
            fim_created := fim_created r; fim_updated := fim_updated r;
            fim_size := fim_size r; fim_blocksize := fim_blocksize r;
            fim_blocks := fim_blocks r |}
  ∧ file_match_remote (file_from_remote r) r = Ok true.
Proof.
  intros Hok.
  assert (∀ a t, file_to_remote (file_from_remote r) a t
    = Ok {| fim_author := a; fim_timestamp := t; fim_id := fim_id r;
            fim_parent := fim_parent r; fim_version := fim_version r + 1;
            fim_created := fim_created r; fim_updated := fim_updated r;
            fim_size := fim_size r; fim_blocksize := fim_blocksize r;
            fim_blocks := fim_blocks r |}) as Hto.
  { intros a t. unfold file_to_remote. rewrite Hok, is_reshaped_from_remote.
    simpl. by rewrite block_accesses_from_remote. }
  split; [apply Hto|]. unfold file_match_remote.
  rewrite is_reshaped_from_remote, Hto. simpl.
  rewrite bool_decide_true; [done|]. by destruct r.
Qed.
Definition ex_remote : FileManifest :=
  mkFileManifest ex_device 3 2%N 1%N 4 0 3 10 8
    [mkBlockAccess 5%N [] 0 8 []; mkBlockAccess 6%N [] 8 2 []].
Lemma file_remote_roundtrip_witness :
  file_match_remote (file_from_remote ex_remote) ex_remote = Ok true.
Proof. apply (file_remote_roundtrip ex_remote ex_device 7). reflexivity. Defined.

(** ** File operations *)

(** A write of a non-empty string anywhere in a well-formed file succeeds;
    its manifest is well-formed, the ids it says to remove are exactly those the
    manifest does not use any more, and, once the write operations are done, the
    content is the old one with the new bytes at the offset, a hole in front of
    them being filled with null bytes. *)
Theorem prepare_write_correct now fresh m σ data offset :
  lf_wf m → all_stored σ m → ids_disjoint (lf_blocks m) → fresh_for fresh m →
  0 <= offset → data ≠ [] →
  ∃ m' ops removed,
    prepare_write now fresh m (Z.of_nat (length data)) offset = Ok (m', ops, removed) ∧
    lf_wf m' ∧ ids_disjoint (lf_blocks m') ∧
    lf_size m' = Z.max (lf_size m) (offset + Z.of_nat (length data)) ∧
    removed = chunk_id_set (all_chunks m) ∖ chunk_id_set (all_chunks m') ∧
    ∀ σ', (∀ id, id ∈ chunk_id_set (all_chunks m) → σ' id = σ id) → written σ' data ops →
      all_stored σ' m' ∧ content σ' m' = write_at (content σ m) data offset.
Proof.
  intros Hwf Hst Hdis Hf Hoff Hne.
  assert (0 < Z.of_nat (length data)) by (destruct data; [done|simpl; lia]).
  destruct (prepare_write_ok now fresh m (Z.of_nat (length data)) offset)
    as (m'&ops&removed&Hprep&Hspec); [done|lia|lia|by left|].
  destruct (wr_ids _ _ _ _ _ _ _ _ Hspec Hf Hdis).
  exists m', ops, removed. split_and!; try done.
  - by apply (wr_wf _ _ _ _ _ _ _ _ Hspec).
  - by rewrite (wr_manifest _ _ _ _ _ _ _ _ Hspec).
  - intros σ' ??. by eapply write_spec_content.
Qed.
Lemma prepare_write_witness :
  ∃ m' ops removed,
    prepare_write 1 ex_fresh ex_file 6 12 = Ok (m', ops, removed) ∧ lf_wf m' ∧
    lf_size m' = 18.
Proof.
  destruct (prepare_write_correct 1 ex_fresh ex_file (view ex_storage)
    [x61; x62; x63; x64; x65; x66] 12) as (m'&ops&removed&H&Hwf&_&Hsize&_).
  - exact ex_file_wf.
  - exact ex_file_stored.
  - exact ex_file_disjoint.
  - exact ex_file_fresh.
  - lia.
  - done.
  - exists m', ops, removed. split; [exact H|]. split; [exact Hwf|exact Hsize].
Defined.

(** Resizing a well-formed file to another length succeeds; the content is
    cut, or completed with null bytes, the manifest stays well-formed, and the
    ids to remove are exactly those the manifest does not use any more. *)
Theorem prepare_resize_correct now fresh m σ length :
  lf_wf m → all_stored σ m → ids_disjoint (lf_blocks m) → fresh_for fresh m →
  0 <= length → length ≠ lf_size m →
  ∃ m' ops removed,
    prepare_resize now fresh m length = Ok (m', ops, removed) ∧
    lf_wf m' ∧ ids_disjoint (lf_blocks m') ∧ lf_size m' = length ∧
    removed = chunk_id_set (all_chunks m) ∖ chunk_id_set (all_chunks m') ∧
    ∀ σ', (∀ id, id ∈ chunk_id_set (all_chunks m) → σ' id = σ id) → written σ' [] ops →
      all_stored σ' m' ∧ content σ' m' = resize_to (content σ m) length.
Proof.
  intros Hwf Hst Hdis Hf Hl Hne. pose proof (length_content _ _ Hwf Hst) as Hlen.
  unfold prepare_resize. destruct (Z.leb_spec (lf_size m) length).
  - destruct (prepare_write_ok now fresh m 0 length)
      as (m'&ops&removed&Hprep&Hspec); [done|lia|lia|right; lia|].
    destruct (wr_ids _ _ _ _ _ _ _ _ Hspec Hf Hdis).
    exists m', ops, removed. split_and!; try done.
    + by apply (wr_wf _ _ _ _ _ _ _ _ Hspec).
    + rewrite (wr_manifest _ _ _ _ _ _ _ _ Hspec). simpl. lia.
    + intros σ' Hext Hw.
      destruct (write_spec_content now fresh m [] length m' ops removed σ σ' Hspec)
        as [Hst' Hcont]; try done.
      split; [done|]. rewrite Hcont. unfold write_at, resize_to. simpl.
      rewrite drop_ge by lia. by rewrite app_nil_r.
  - destruct (prepare_truncate_ok now m length Hwf) as (m'&removed&Hprep&Hspec); [lia|].
    destruct (tr_ids _ _ _ _ _ Hspec Hdis). exists m', [], removed. rewrite Hprep.
    split_and!; try done.
    + by apply (tr_wf _ _ _ _ _ Hspec).
    + by rewrite (tr_manifest _ _ _ _ _ Hspec).
    + intros σ' Hext _.
      destruct (truncate_spec_content now m length m' removed σ Hspec Hwf Hst Hl) as [Hst' Hcont].
      assert (∀ id, id ∈ chunk_id_set (all_chunks m') → σ' id = σ id) as Hext'.
      { intros id Hid. apply Hext. rewrite (tr_chunks _ _ _ _ _ Hspec) in Hid.
        eapply elem_of_weaken; [exact Hid|apply chunk_id_set_take]. }
      split; [by eapply stored_ext|]. unfold content at 1.
      rewrite (chunks_bytes_ext σ σ') by done. fold (content σ m'). rewrite Hcont.
      unfold resize_to. by rewrite take_app_le by lia.
Qed.
Lemma prepare_resize_witness :
  ∃ m' ops removed,
    prepare_resize 1 ex_fresh ex_file 4 = Ok (m', ops, removed) ∧ lf_wf m' ∧ lf_size m' = 4.
Proof.
  destruct (prepare_resize_correct 1 ex_fresh ex_file (view ex_storage) 4)
    as (m'&ops&removed&H&Hwf&_&Hsize&_).
  - exact ex_file_wf.
  - exact ex_file_stored.
  - exact ex_file_disjoint.
  - exact ex_file_fresh.
  - lia.
  - done.
  - exists m', ops, removed. split; [exact H|]. split; [exact Hwf|exact Hsize].
Defined.

(** The chunks a read returns hold exactly the bytes asked for, up to the
    end of the file. *)
Theorem prepare_read_correct σ m size offset :
  lf_wf m → all_stored σ m → 0 <= offset → 0 <= size →
  chunks_bytes σ (prepare_read m size offset)
    = take (Z.to_nat size) (drop (Z.to_nat offset) (content σ m)).
Proof. apply prepare_read_bytes. Qed.
Lemma prepare_read_witness :
  chunks_bytes (view ex_storage) (prepare_read ex_file 6 2) = [x63; x64; x65; x66; x67; x68].
Proof.
  rewrite (prepare_read_correct (view ex_storage) ex_file 6 2).
  - reflexivity.
  - exact ex_file_wf.
  - exact ex_file_stored.
  - lia.
  - lia.
Defined.

(** ** Transactions on open files *)

(** [fd_write] on an open file whose data is local succeeds, returns the
    number of bytes it kept, and leaves a file with those bytes written at the
    offset (at the end of the file for a negative offset); the other entries and
    the other chunks are untouched, whether or not the write count made it
    reshape the file. *)
Theorem fd_write_correct fresh key digest now s fd m data offset (constrained : bool) :
  Inj (=) (=) fresh → file_inv fresh s fd m →
  let old := content (view (ft_storage s)) m in
  let data' := if constrained then constrained_data (Z.of_nat (length old)) data offset else data in
  ∃ s' m', fd_write now fresh key digest fd data offset constrained s
             = (s', Ok (Z.of_nat (length data'))) ∧
    file_inv fresh s' fd m' ∧ framed fresh (lf_id m) s s' ∧ same_file m m' ∧
    content (view (ft_storage s')) m' = write_result old data' offset.
Proof. intros ??. by apply fd_write_ok. Qed.
Lemma fd_write_witness :
  ∃ s' m', fd_write 1 ex_fresh [] (λ d, d) 1 [x7a; x7a] 9 false ex_state = (s', Ok 2) ∧
    content (view (ft_storage s')) m'
      = [x61; x62; x63; x64; x65; x66; x67; x68; x69; x7a; x7a].
Proof.
  destruct (fd_write_correct ex_fresh [] (λ d, d) 1 ex_state 1 ex_file [x7a; x7a] 9 false)
    as (s'&m'&H&_&_&_&Hc).
  - exact ex_fresh_inj.
  - exact ex_state_inv.
  - exists s', m'. split; [exact H|]. rewrite Hc. reflexivity.
Defined.

(** [fd_read] on an open file whose data is local returns, at its first
    attempt, the bytes asked for, a negative size or offset standing for the
    size of the file; with [raise_eof] it raises [FSEndOfFileError] from the end
    of the file on. It changes nothing but access times. *)
Theorem fd_read_correct download cache_size fuel s fd m size offset raise_eof :
  open_on s fd m → (0 < fuel)%nat →
  ∃ s', fd_read download cache_size fuel fd size offset raise_eof s
          = (s', read_result (content (view (ft_storage s)) m) size offset raise_eof)
        ∧ ft_quiet s s'.
Proof. apply fd_read_local. Qed.
Lemma fd_read_witness :
  ∃ s', fd_read (λ _, Err FSRemoteError) 0 1 1 4 2 true ex_state
          = (s', Ok (Some [x63; x64; x65; x66])).
Proof.
  destruct (fd_read_correct (λ _, Err FSRemoteError) 0 1 ex_state 1 ex_file 4 2 true)
    as (s'&H&_).
  - exact (fi_open _ _ _ _ ex_state_inv).
  - lia.
  - exists s'. rewrite H. reflexivity.
Defined.

(** [fd_resize] cuts the file, or completes it with null bytes; with
    [truncate_only] it never makes it longer. *)
Theorem fd_resize_correct fresh now s fd m length (truncate_only : bool) :
  Inj (=) (=) fresh → file_inv fresh s fd m → 0 <= length →
  let old := content (view (ft_storage s)) m in
  ∃ s' m', fd_resize now fresh fd length truncate_only s = (s', Ok tt) ∧
    file_inv fresh s' fd m' ∧ framed fresh (lf_id m) s s' ∧ same_file m m' ∧
    content (view (ft_storage s')) m'
      = if truncate_only && (Z.of_nat (List.length old) <=? length) then old
        else resize_to old length.
Proof. intros ???. by apply fd_resize_ok. Qed.
Lemma fd_resize_witness :
  ∃ s' m', fd_resize 1 ex_fresh 1 4 true ex_state = (s', Ok tt) ∧
    content (view (ft_storage s')) m' = [x61; x62; x63; x64].
Proof.
  destruct (fd_resize_correct ex_fresh 1 ex_state 1 ex_file 4 true) as (s'&m'&H&_&_&_&Hc).
  - exact ex_fresh_inj.
  - exact ex_state_inv.
  - lia.
  - exists s', m'. split; [exact H|]. rewrite Hc. reflexivity.
Defined.

(** [fd_flush] turns every block of the file into one uploadable block with
    the same bytes, and leaves the manifest in the database: the content is not
    affected by the chunks it removes there. *)
Theorem fd_flush_correct fresh key digest s fd m :
  Inj (=) (=) fresh → file_inv fresh s fd m →
  ∃ s' m', fd_flush fresh key digest fd s = (s', Ok tt) ∧
    file_inv fresh s' fd m' ∧ m' = file_evolve_blocks m (lf_blocks m') ∧ is_reshaped m' = true ∧
    content (view (ft_storage s')) m' = content (view (ft_storage s)) m ∧
    vr_blob <$> st_vlobs (ft_storage s') !! lf_id m = Some (LFile m').
Proof. intros ??. by apply fd_flush_ok. Qed.
Lemma fd_flush_witness :
  ∃ s' m', fd_flush ex_fresh [] (λ d, d) 1 ex_state = (s', Ok tt) ∧ is_reshaped m' = true ∧
    content (view (ft_storage s')) m'
      = [x61; x62; x63; x64; x65; x66; x67; x68; x69; x6a].
Proof.
  destruct (fd_flush_correct ex_fresh [] (λ d, d) ex_state 1 ex_file)
    as (s'&m'&H&_&_&Hr&Hc&_).
  - exact ex_fresh_inj.
  - exact ex_state_inv.
  - exists s', m'. split; [exact H|]. split; [exact Hr|]. rewrite Hc. reflexivity.
Defined.
