(* ===== verification/Merging.v ===== *)
(** How the local and the remote changes of an entry are merged:
    [guardata/client/fs/workspacefs/sync_transactions.py] (the helpers) and
    [guardata/client/fs/userfs/merging.py]. *)

From S2P Require Import Prelude PyString Types ApiManifest Chunk LocalManifest.

#[local] Open Scope string_scope.

(** ** Names *)

(** [get_filename] *)
Definition get_filename (children : odict EntryName EntryID) (entry_id : EntryID)
    : option EntryName :=
  head (filter (λ ni, ni.2 = entry_id) children).*1.

(** [full_name] *)
Definition full_name (name : EntryName) (suffixes : list string) : EntryName :=
  match suffixes with
  | [] => name
  | _ =>
      let suffix_string := str_join "" ((λ suffix, " (" +:+ suffix +:+ ")") <$> suffixes) in
      if negb (str_has chr_dot (str_tail name)) then name +:+ suffix_string
      else match split_on chr_dot name with
           | first_name :: ext => str_join "." ((first_name +:+ suffix_string) :: ext)
           | [] => name
           end
  end.

(** [get_conflict_filename]: [i] is the counter. The name is free after at most
    as many turns as there are names. *)
Definition conflict_suffix (author : DeviceID) : string :=
  "conflicting with " +:+ device_id_str author.
Definition conflict_suffix_n (author : DeviceID) (i : N) : string :=
  conflict_suffix author +:+ " - " +:+ pretty i.
Fixpoint conflict_loop (fuel : nat) (filename : EntryName) (filenames : list EntryName)
    (author : DeviceID) (new_filename : EntryName) (i : N) : option EntryName :=
  if bool_decide (new_filename ∈ filenames) then
    match fuel with
    | O => None
    | S fuel =>
        conflict_loop fuel filename filenames author
          (full_name filename [conflict_suffix_n author i]) (i + 1)%N
    end
  else Some new_filename.
Definition get_conflict_filename (fuel : nat) (filename : EntryName) (filenames : list EntryName)
    (author : DeviceID) : option EntryName :=
  conflict_loop fuel filename filenames author (full_name filename [conflict_suffix author]) 2.

(** ** [merge_folder_children] *)

(** [{entry_id: name for name, entry_id in children.items()}] *)
Definition reverse_children (children : odict EntryName EntryID) : odict EntryID EntryName :=
  od_update [] ((λ ni, (ni.2, ni.1)) <$> children).

(** The entries of [solved_local_children] and [solved_remote_children]: the id
    and the suffixes. *)
Abbreviation solved_children := (odict EntryName (EntryID * list string)) (only parsing).

Definition renamed_suffix (author : DeviceID) : string :=
  "renamed by " +:+ device_id_str author.

(** Where the loop over [ids] puts an entry. *)
Inductive Solution :=
| SolvedLocal (name : EntryName)
| SolvedRemote (name : EntryName) (suffixes : list string)
| SolvedRemoved.
#[export] Instance Solution_eq_dec : EqDecision Solution.
Proof. solve_decision. Defined.

Definition solve_id (author : DeviceID) (base_name local_name remote_name : option EntryName)
    : Solution :=
  match base_name, local_name, remote_name with
  | None, Some local_name, _ => SolvedLocal local_name
  | None, None, Some remote_name => SolvedRemote remote_name []
  | _, None, _ => SolvedRemoved
  | _, _, None => SolvedRemoved
  | Some base_name, Some local_name, Some remote_name =>
      if decide (local_name = remote_name) then SolvedLocal local_name
      else if decide (base_name = remote_name) then SolvedLocal local_name
      else if decide (base_name = local_name) then SolvedRemote remote_name []
      else SolvedRemote remote_name [renamed_suffix author]
  end.

(** One turn of the loop; [local_children[local_name]] is there, the name comes
    from the items of the dict. *)
Definition solve_step (author : DeviceID) (base local remote : odict EntryName EntryID)
    (acc : solved_children * solved_children) (id : EntryID)
    : solved_children * solved_children :=
  match solve_id author (od_get (reverse_children base) id) (od_get (reverse_children local) id)
          (od_get (reverse_children remote) id) with
  | SolvedLocal name => (od_set acc.1 name (default id (od_get local name), []), acc.2)
  | SolvedRemote name suffixes =>
      (acc.1, od_set acc.2 name (default id (od_get remote name), suffixes))
  | SolvedRemoved => acc
  end.

(** The two loops of "Merge mappings and fix conflicting names". *)
Definition add_remote (children : odict EntryName EntryID)
    (item : EntryName * (EntryID * list string)) : odict EntryName EntryID :=
  od_set children (full_name item.1 item.2.2) item.2.1.
Definition add_local (author : DeviceID) (children : odict EntryName EntryID)
    (item : EntryName * (EntryID * list string)) : odict EntryName EntryID :=
  let suffixes :=
    if od_mem children item.1 then (item.2.2 ++ [conflict_suffix author])%list else item.2.2 in
  od_set children (full_name item.1 suffixes) item.2.1.

(** The set of the ids that might remain, and the whole function; [order] lists
    the set in the order in which Python iterates on it. *)
Definition merged_ids (local remote : odict EntryName EntryID) : gset EntryID :=
  list_to_set (od_keys (reverse_children local)) ∪ list_to_set (od_keys (reverse_children remote)).
Definition merge_folder_children (order : gset EntryID → list EntryID)
    (base_children local_children remote_children : odict EntryName EntryID)
    (remote_device_name : DeviceID) : odict EntryName EntryID :=
  let '(solved_local, solved_remote) :=
    foldl (solve_step remote_device_name base_children local_children remote_children) ([], [])
      (order (merged_ids local_children remote_children)) in
  foldl (add_local remote_device_name) (foldl add_remote [] solved_remote) solved_local.

(** ** [merge_manifests] *)

(** The attributes of a remote manifest. *)
Definition rm_version (m : RemoteManifest) : Z :=
  match m with
  | RFile m => fim_version m | RFolder m => fom_version m | RWorkspace m => wm_version m
  | RUser m => um_version m
  end.
Definition rm_author (m : RemoteManifest) : DeviceID :=
  match m with
  | RFile m => fim_author m | RFolder m => fom_author m | RWorkspace m => wm_author m
  | RUser m => um_author m
  end.
Definition rm_id (m : RemoteManifest) : EntryID :=
  match m with
  | RFile m => fim_id m | RFolder m => fom_id m | RWorkspace m => wm_id m
  | RUser m => um_id m
  end.
Definition remote_folderish (m : RemoteManifest) : option FolderishBase :=
  match m with
  | RFolder m => Some (BFolder m)
  | RWorkspace m => Some (BWorkspace m)
  | _ => None
  end.
Definition remote_of_folderish (b : FolderishBase) : RemoteManifest :=
  match b with BFolder m => RFolder m | BWorkspace m => RWorkspace m end.

#[local] Close Scope string_scope.

Section merge_manifests.
(** The user's pattern, the time, the order of the sets and the one of the
    items of the dicts, which are maps in the manifests. *)
Context (pattern_match : EntryName → bool) (now : DateTime)
  (order : gset EntryID → list EntryID)
  (items : gmap EntryName EntryID → odict EntryName EntryID).

(** [BaseLocalManifest.from_remote]; a folder whose local manifest is not one
    has no [confined_entries]. *)
Definition lm_from_remote (remote : RemoteManifest) (local_manifest : option LocalManifest)
    : result FSExn LocalManifest :=
  match remote with
  | RFile remote => Ok (LFile (file_from_remote remote))
  | RFolder remote =>
      local ← (match local_manifest with
               | None => Ok None
               | Some (LFolderish m) => Ok (Some m)
               | Some _ => Err AttributeError
               end);
      LFolderish <$> folder_from_remote pattern_match now remote local
  | RWorkspace remote =>
      local ← (match local_manifest with
               | None => Ok None
               | Some (LFolderish m) => Ok (Some m)
               | Some _ => Err AttributeError
               end);
      LFolderish <$> workspace_from_remote pattern_match now remote local
  | RUser remote => Ok (LUser (user_from_remote remote))
  end.

(** [local_manifest.to_remote] *)
Definition lm_to_remote (m : LocalManifest) (author : DeviceID) (timestamp : DateTime)
    : result FSExn RemoteManifest :=
  match m with
  | LFile m => RFile <$> file_to_remote m author timestamp
  | LFolderish m => Ok (remote_of_folderish (folderish_to_remote m author timestamp))
  | LUser m => Ok (RUser (user_to_remote m author timestamp))
  end.

(** [local_manifest.match_remote]: manifests of two classes are different. *)
Definition lm_match_remote (m : LocalManifest) (remote : RemoteManifest) : result FSExn bool :=
  match m, remote with
  | LFile m, RFile remote => file_match_remote m remote
  | LFolderish m, RFolder remote => Ok (folderish_match_remote m (BFolder remote))
  | LFolderish m, RWorkspace remote => Ok (folderish_match_remote m (BWorkspace remote))
  | _, _ => Ok false
  end.

(** [local_manifest.evolve(base=remote_manifest)]: the base of a local manifest
    has its class, and the ids of the entries are never used for another class;
    what Python would build then is not represented. *)
Definition lm_evolve_base (m : LocalManifest) (remote : RemoteManifest)
    : result FSExn LocalManifest :=
  match m, remote with
  | LFile m, RFile remote =>
      Ok (LFile (mkLocalFileManifest remote (lf_need_sync m) (lf_updated m) (lf_size m)
                   (lf_blocksize m) (lf_blocks m)))
  | LFolderish m, _ =>
      match remote_folderish remote with
      | Some base => Ok (LFolderish (mkLocalFolderish base (fd_need_sync m) (fd_updated m)
                           (fd_children m) (fd_confined_entries m) (fd_filtered_entries m)))
      | None => Err TypeError
      end
  | _, _ => Err TypeError
  end.

(** The end of [merge_manifests]: "Solve the folder conflict". *)
Definition merge_folders (local remote : LocalFolderish) (author : DeviceID) : LocalFolderish :=
  let new_children :=
    merge_folder_children order (items (base_children (fd_base local))) (items (fd_children local))
      (items (fd_children remote)) author in
  {| fd_base := fd_base remote; fd_need_sync := true; fd_updated := now;
     fd_children := list_to_map new_children;
     fd_confined_entries := fd_confined_entries remote;
     fd_filtered_entries := fd_filtered_entries remote |}.

(** [merge_manifests]; of the manifests that a [FSFileConflictError] carries, its
    handler reads the parent of the local one, and the remote one. *)
Definition merge_manifests (local_author : DeviceID) (local_manifest : LocalManifest)
    (remote_manifest : option RemoteManifest) (force_filter : bool) : result FSExn LocalManifest :=
  local_manifest ←
    (if force_filter then
       match local_manifest with
       | LFile m => Ok local_manifest
       | LFolderish m => LFolderish <$> apply_filter pattern_match now m
       | LUser _ => Err AttributeError
       end
     else Ok local_manifest);
  match remote_manifest with
  | None => Ok local_manifest
  | Some remote_manifest =>
      if rm_version remote_manifest <=? lm_base_version local_manifest then Ok local_manifest
      else
        local_from_remote ← lm_from_remote remote_manifest (Some local_manifest);
        if negb (lm_need_sync local_manifest) then Ok local_from_remote
        else
          matches ← lm_match_remote local_manifest remote_manifest;
          if matches : bool then Ok local_from_remote
          else if bool_decide (rm_author remote_manifest = local_author)
          then lm_evolve_base local_manifest remote_manifest
          else
            match local_manifest, local_from_remote with
            | LFile local, _ => Err (FSFileConflictError (lf_parent local) remote_manifest)
            | LFolderish local, LFolderish remote =>
                Ok (LFolderish (merge_folders local remote (rm_author remote_manifest)))
            | _, _ => Err AttributeError
            end
  end.
End merge_manifests.

(** ** The user manifest *)

(** [merge_workspace_entry] *)
Definition merge_workspace_entry (base : option WorkspaceEntry) (diverged target : WorkspaceEntry)
    : result FSExn WorkspaceEntry :=
  _ ← py_assert (bool_decide (we_id diverged = we_id target));
  _ ← py_assert (match base with
                 | None => true
                 | Some base => bool_decide (we_id base = we_id target)
                 end);
  let name :=
    match base with
    | Some base =>
        if decide (we_name base ≠ we_name target) then we_name target
        else if decide (we_name base ≠ we_name diverged) then we_name diverged
        else we_name target
    | None => we_name target
    end in
  let latest :=
    if we_encryption_revision diverged <? we_encryption_revision target then target else diverged in
  let '(role, role_cached_on) :=
    if decide (we_role target = we_role diverged)
    then (we_role target, Z.max (we_role_cached_on target) (we_role_cached_on diverged))
    else if we_role_cached_on diverged <? we_role_cached_on target
    then (we_role target, we_role_cached_on target)
    else (we_role diverged, we_role_cached_on diverged) in
  Ok {| we_name := name; we_id := we_id target; we_key := we_key latest;
        we_encryption_revision := we_encryption_revision latest;
        we_encrypted_on := we_encrypted_on latest;
        we_role_cached_on := role_cached_on; we_role := role |}.

Definition entry_ids (l : list WorkspaceEntry) : gset EntryID := list_to_set (we_id <$> l).
Definition find_entry (l : list WorkspaceEntry) (id : EntryID) : option WorkspaceEntry :=
  head (filter (λ we, we_id we = id) l).

(** One turn of the loop of [merge_workspace_entries]. *)
Definition merge_entry_step (base : list WorkspaceEntry) (resolved : odict EntryID WorkspaceEntry)
    (d_entry : WorkspaceEntry) : result FSExn (odict EntryID WorkspaceEntry) :=
  match od_get resolved (we_id d_entry) with
  | None => Ok (od_set resolved (we_id d_entry) d_entry)
  | Some t_entry =>
      if decide (t_entry = d_entry) then Ok resolved
      else
        merged_entry ← merge_workspace_entry (find_entry base (we_id d_entry)) d_entry t_entry;
        Ok (od_set resolved (we_id d_entry) merged_entry)
  end.
Fixpoint merge_entry_loop (base : list WorkspaceEntry) (resolved : odict EntryID WorkspaceEntry)
    (diverged : list WorkspaceEntry) : result FSExn (odict EntryID WorkspaceEntry) :=
  match diverged with
  | [] => Ok resolved
  | d_entry :: diverged =>
      resolved ← merge_entry_step base resolved d_entry;
      merge_entry_loop base resolved diverged
  end.

(** [merge_workspace_entries]; [base] is empty when there is none. *)
Definition name_leb (x y : WorkspaceEntry) : bool := String.leb (we_name x) (we_name y).
Definition merge_workspace_entries (base diverged target : list WorkspaceEntry)
    : result FSExn (list WorkspaceEntry * bool) :=
  _ ← py_assert (bool_decide (entry_ids base ∖ entry_ids diverged = ∅));
  _ ← py_assert (bool_decide (entry_ids base ∖ entry_ids target = ∅));
  resolved ← merge_entry_loop base (od_update [] ((λ we, (we_id we, we)) <$> target)) diverged;
  let need_sync := bool_decide (list_to_set (od_keys resolved) ≠ entry_ids target) in
  Ok (py_sorted name_leb (od_values resolved), need_sync).

(** [merge_local_user_manifests] *)
Definition merge_local_user_manifests (diverged : LocalUserManifest) (target : UserManifest)
    : result FSExn LocalUserManifest :=
  _ ← py_assert (bool_decide (um_id (lu_base diverged) = um_id target));
  _ ← py_assert (lu_base_version diverged <? um_version target);
  _ ← py_assert ((lu_base_version diverged =? 0) ||
                 (um_created (lu_base diverged) =? um_created target));
  '(workspaces, need_sync) ←
    merge_workspace_entries (um_workspaces (lu_base diverged)) (lu_workspaces diverged)
      (um_workspaces target);
  let last_processed_message :=
    Z.max (lu_last_processed_message diverged) (um_last_processed_message target) in
  let need_sync :=
    need_sync || negb (last_processed_message =? um_last_processed_message target) in
  let updated :=
    if negb need_sync then um_updated target
    else if lu_updated diverged <? um_updated target then um_updated target
    else lu_updated diverged in
  Ok {| lu_base := target; lu_need_sync := need_sync; lu_updated := updated;
        lu_last_processed_message := last_processed_message; lu_workspaces := workspaces |}.

(** * Lemmas

    Lemmas on the names of the conflicts and on the merge of the children of a
    folder. *)

(** ** The names the merge makes *)

(** A name without a parenthesis is not one that [full_name] makes. *)
Definition plain (name : EntryName) : Prop := str_has chr_paren name = false.

Lemma full_name_one name :
  ∃ stem ext, name = stem +:+ ext ∧
    ∀ s, full_name name [s] = stem +:+ " (" +:+ s +:+ ")" +:+ ext.
Proof.
  unfold full_name. cbn [fmap list_fmap str_join].
  destruct (str_has chr_dot (str_tail name)) eqn:E; cbn [negb].
  - assert (str_has chr_dot name = true) as Hd.
    { destruct name; cbn in *; [done|]. by rewrite E, orb_true_r. }
    destruct (str_has_cut _ _ Hd) as (a & b & -> & Ha).
    exists a, (String chr_dot b). split; [done|]. intros s.
    rewrite split_on_app by done. cbn [fmap list_fmap str_join].
    rewrite <-(join_split chr_dot b) at 2.
    destruct (split_on chr_dot b) eqn:E2; [by apply split_on_not_nil in E2|].
    by rewrite !str_app_assoc.
  - exists name, "". split; [by rewrite str_app_nil_r|]. intros s. by rewrite str_app_nil_r.
Qed.

Lemma full_name_not_plain name s : ¬ plain (full_name name [s]).
Proof.
  destruct (full_name_one name) as (stem & ext & _ & ->). unfold plain.
  rewrite !str_has_app. cbn. by rewrite orb_true_r.
Qed.

(** What is around the suffix gives the name back, and where the suffix begins. *)
Lemma full_name_inj name name' s s' :
  plain name → plain name' → full_name name [s] = full_name name' [s'] →
  (s = s' → name = name') ∧ ∃ t t', s +:+ t = s' +:+ t'.
Proof.
  destruct (full_name_one name) as (stem & ext & -> & ->).
  destruct (full_name_one name') as (stem' & ext' & -> & ->).
  unfold plain. rewrite !str_has_app. intros [Hs _]%orb_false_iff [Hs' _]%orb_false_iff E.
  change (" (" +:+ s +:+ ")" +:+ ext) with (" " +:+ String chr_paren (s +:+ ")" +:+ ext)) in E.
  change (" (" +:+ s' +:+ ")" +:+ ext') with (" " +:+ String chr_paren (s' +:+ ")" +:+ ext')) in E.
  rewrite <-!str_app_assoc in E.
  apply str_cut_unique in E as [E1 E2]; [|by rewrite str_has_app, ?Hs, ?Hs'..].
  apply str_app_inj_r in E1 as ->. rewrite !str_app_assoc in E2. split; [|eauto].
  intros ->. do 2 apply String.app_inj in E2. by subst.
Qed.

Lemma full_name_suffix_inj name s s' : full_name name [s] = full_name name [s'] → s = s'.
Proof.
  destruct (full_name_one name) as (stem & ext & _ & E). rewrite !E.
  intros H. do 2 apply (inj _) in H. by apply str_app_inj_r in H.
Qed.

Lemma renamed_ne_conflict author author' t t' :
  renamed_suffix author +:+ t ≠ conflict_suffix author' +:+ t'.
Proof. unfold renamed_suffix, conflict_suffix. rewrite !str_app_assoc. discriminate. Qed.

(** ** [get_conflict_filename] *)

Section conflict_filename.
Context (filename : EntryName) (filenames : list EntryName) (author : DeviceID).

(** The [k]-th name that is tried. *)
Definition conflict_name (k : nat) : EntryName :=
  full_name filename
    [match k with O => conflict_suffix author | S k => conflict_suffix_n author (N.of_nat k + 2) end].

#[export] Instance conflict_name_inj : Inj (=) (=) conflict_name.
Proof.
  intros k k' H. apply full_name_suffix_inj in H. unfold conflict_suffix_n in H.
  destruct k as [|k], k' as [|k']; [done| | |].
  - apply (f_equal String.length) in H. rewrite !str_length_app in H.
    change (String.length " - ") with 3%nat in H. lia.
  - apply (f_equal String.length) in H. rewrite !str_length_app in H.
    change (String.length " - ") with 3%nat in H. lia.
  - do 2 apply String.app_inj in H. apply (inj pretty) in H. lia.
Qed.

Lemma conflict_loop_finds fuel k :
  (∀ j, (j < k)%nat → conflict_name j ∈ filenames) → (length filenames <= fuel + k)%nat →
  ∃ k', conflict_loop fuel filename filenames author (conflict_name k) (N.of_nat k + 2)
        = Some (conflict_name k') ∧
    conflict_name k' ∉ filenames ∧ ∀ j, (j < k')%nat → conflict_name j ∈ filenames.
Proof.
  revert k. induction fuel as [|fuel IH]; intros k Hk Hlen; cbn [conflict_loop];
    case_bool_decide as Hin; [|by eauto| |by eauto].
  - exfalso.
    assert (NoDup (conflict_name <$> seq 0 (S k))) as Hnd by (apply (NoDup_fmap_2 _); apply NoDup_seq).
    assert (conflict_name <$> seq 0 (S k) ⊆+ filenames) as Hsub%submseteq_length.
    { apply NoDup_submseteq; [done|]. intros n (j & -> & Hj)%list_elem_of_fmap.
      apply elem_of_seq in Hj. destruct (decide (j = k)) as [->|]; [done|]. apply Hk. lia. }
    rewrite length_fmap, length_seq in Hsub. lia.
  - destruct (IH (S k)) as (k' & E & H).
    + intros j Hj. destruct (decide (j = k)) as [->|]; [done|]. apply Hk. lia.
    + lia.
    + exists k'. split; [|done]. rewrite <-E.
      replace (N.of_nat (S k) + 2)%N with (N.of_nat k + 2 + 1)%N by lia. done.
Qed.
End conflict_filename.

(** ** [merge_folder_children] *)

(** The children of a folder: a dict in which an entry has one name. *)
Definition valid_children (c : odict EntryName EntryID) : Prop := NoDup c.*1 ∧ NoDup c.*2.

Lemma reverse_children_valid c :
  valid_children c → reverse_children c = (λ ni, (ni.2, ni.1)) <$> c.
Proof.
  intros [_ Hc]. unfold reverse_children. rewrite od_update_fresh; [done|].
  cbn. by rewrite <-list_fmap_compose.
Qed.

Lemma reverse_get c n id :
  valid_children c → od_get (reverse_children c) id = Some n ↔ (n, id) ∈ c.
Proof.
  intros Hc. rewrite reverse_children_valid, od_get_Some by
    first [done | unfold od_keys; rewrite <-list_fmap_compose; apply Hc].
  rewrite list_elem_of_fmap. split; [by intros ([??]&[= -> ->]&?)|].
  intros. by exists (n, id).
Qed.

Lemma reverse_get_None c id :
  valid_children c → od_get (reverse_children c) id = None ↔ id ∉ c.*2.
Proof.
  intros Hc. rewrite od_get_None, reverse_children_valid by done. unfold od_keys.
  by rewrite <-list_fmap_compose.
Qed.

Lemma reverse_get_perm c c' id :
  valid_children c → valid_children c' → c ≡ₚ c' →
  od_get (reverse_children c) id = od_get (reverse_children c') id.
Proof.
  intros Hc Hc' Hp. apply option_eq. intros n. rewrite !reverse_get by done. by rewrite Hp.
Qed.

Lemma valid_name c n n' id :
  valid_children c → (n, id) ∈ c → (n', id) ∈ c → n = n'.
Proof. intros Hc ?%reverse_get ?%reverse_get; [congruence|done..]. Qed.

Lemma valid_id c n id id' :
  valid_children c → (n, id) ∈ c → (n, id') ∈ c → id = id'.
Proof. intros [Hc _] ?%od_elem_get ?%od_elem_get; [congruence|done..]. Qed.

Section merge.
Context (author : DeviceID) (base local remote : odict EntryName EntryID).
Context (Hbase : valid_children base) (Hlocal : valid_children local)
  (Hremote : valid_children remote).

Definition solution (id : EntryID) : Solution :=
  solve_id author (od_get (reverse_children base) id) (od_get (reverse_children local) id)
    (od_get (reverse_children remote) id).
Definition local_item (id : EntryID) : option (EntryName * (EntryID * list string)) :=
  match solution id with SolvedLocal n => Some (n, (id, [])) | _ => None end.
Definition remote_item (id : EntryID) : option (EntryName * (EntryID * list string)) :=
  match solution id with SolvedRemote n s => Some (n, (id, s)) | _ => None end.

Lemma solution_local id n : solution id = SolvedLocal n → (n, id) ∈ local.
Proof.
  unfold solution, solve_id. intros. apply reverse_get; [done|]. by repeat case_match; simplify_eq.
Qed.

Lemma solution_remote id n s : solution id = SolvedRemote n s → (n, id) ∈ remote.
Proof.
  unfold solution, solve_id. intros. apply reverse_get; [done|]. by repeat case_match; simplify_eq.
Qed.

Lemma solution_suffixes id n s :
  solution id = SolvedRemote n s → s = [] ∨ s = [renamed_suffix author].
Proof. unfold solution, solve_id. intros. repeat case_match; simplify_eq; auto. Qed.

(** The entries that remain. *)
Definition survives (id : EntryID) : Prop :=
  (id ∈ local.*2 ∧ id ∈ remote.*2) ∨ ((id ∈ local.*2 ∨ id ∈ remote.*2) ∧ id ∉ base.*2).

Lemma solution_survives id : solution id ≠ SolvedRemoved ↔ survives id.
Proof.
  unfold solution, survives.
  destruct (od_get (reverse_children base) id) as [b|] eqn:Eb,
    (od_get (reverse_children local) id) as [l|] eqn:El,
    (od_get (reverse_children remote) id) as [r|] eqn:Er;
  repeat match goal with
  | H : od_get _ id = Some _ |- _ =>
      apply reverse_get in H; [|done]; apply (list_elem_of_fmap_2 snd) in H; cbn in H
  | H : od_get _ id = None |- _ => apply reverse_get_None in H; [|done]
  end; cbn; repeat case_decide; set_solver.
Qed.

Lemma solve_fold ids acc1 acc2 :
  foldl (solve_step author base local remote) (acc1, acc2) ids
  = (od_update acc1 (omap local_item ids), od_update acc2 (omap remote_item ids)).
Proof.
  revert acc1 acc2. induction ids as [|id ids IH]; intros; cbn; [done|].
  unfold solve_step at 2. fold (solution id). cbn. unfold local_item, remote_item.
  destruct (solution id) as [n|n s|] eqn:E; rewrite IH; [| |done].
  - apply solution_local in E. by rewrite (od_elem_get _ _ _ (proj1 Hlocal) E).
  - apply solution_remote in E. by rewrite (od_elem_get _ _ _ (proj1 Hremote) E).
Qed.

(** The items in the order of [ids], and the names they get. *)
Definition place_remote (item : EntryName * (EntryID * list string)) : EntryName * EntryID :=
  (full_name item.1 item.2.2, item.2.1).
Definition place_local (taken : list EntryName) (item : EntryName * (EntryID * list string))
    : EntryName * EntryID :=
  (full_name item.1 (if bool_decide (item.1 ∈ taken) then item.2.2 ++ [conflict_suffix author]
                     else item.2.2)%list, item.2.1).

Lemma add_remote_update c items :
  foldl add_remote c items = od_update c (place_remote <$> items).
Proof. revert c. induction items as [|x items IH]; intros c; [done|]. apply IH. Qed.

Lemma add_local_update c items :
  Forall (λ item, item.2.2 = []) items →
  NoDup (c.*1 ++ (place_local c.*1 <$> items).*1) →
  foldl (add_local author) c items = (c ++ (place_local c.*1 <$> items))%list.
Proof.
  induction items as [|x items IH] using rev_ind; intros Hs Hnd; [by rewrite app_nil_r|].
  apply Forall_app in Hs as [Hs [Hx _]%Forall_cons].
  rewrite !fmap_app, app_assoc in Hnd.
  apply NoDup_app in Hnd as (Hnd & Hnew & _).
  rewrite foldl_app, IH by done. rewrite fmap_app, app_assoc. cbn.
  assert (od_mem (c ++ (place_local c.*1 <$> items))%list x.1 = bool_decide (x.1 ∈ c.*1)) as Hmem.
  { unfold od_mem. apply bool_decide_ext. rewrite od_get_is_Some. unfold od_keys.
    rewrite fmap_app, elem_of_app. split; [|by left]. intros [?|Hin]; [done|].
    destruct (decide (x.1 ∈ c.*1)) as [|Hni]; [done|]. exfalso.
    apply (Hnew x.1); [by apply elem_of_app; right|].
    cbn. unfold place_local. rewrite bool_decide_eq_false_2 by done. rewrite Hx. by left. }
  unfold add_local. rewrite Hmem, od_set_fresh.
  - done.
  - unfold od_keys. rewrite fmap_app. intros Hin. eapply Hnew; [exact Hin|].
    by left.
Qed.

(** The names of the items of each side are distinct. *)
Lemma local_items_keys ids : NoDup ids → NoDup (omap (local_item) ids).*1.
Proof.
  induction 1 as [|id ids Hid Hids IH]; cbn; [constructor|].
  unfold local_item at 1. destruct (solution id) as [n| |] eqn:E; try done. cbn.
  apply NoDup_cons. split; [|done].
  intros ([n' [id' s']] & -> & Hin)%list_elem_of_fmap.
  apply list_elem_of_omap in Hin as (id2 & Hin & Hitem). unfold local_item in Hitem.
  destruct (solution id2) eqn:E2; simplify_eq. cbn in *.
  apply solution_local in E, E2. by rewrite (valid_id _ _ _ _ Hlocal E E2) in Hid.
Qed.

Lemma remote_items_ids ids : NoDup ids → NoDup (place_remote <$> omap remote_item ids).*2.
Proof.
  induction 1 as [|id ids Hid Hids IH]; cbn; [constructor|].
  unfold remote_item at 1. destruct (solution id) as [|n s|] eqn:E; try done. cbn.
  apply NoDup_cons. split; [|done].
  intros (p & -> & Hin)%list_elem_of_fmap.
  apply list_elem_of_fmap in Hin as ([n' [id' s']] & -> & Hin).
  apply list_elem_of_omap in Hin as (id2 & Hin & Hitem). unfold remote_item in Hitem.
  destruct (solution id2) eqn:E2; by simplify_eq/=.
Qed.

Lemma local_items_ids taken ids :
  NoDup ids → NoDup (place_local taken <$> omap local_item ids).*2.
Proof.
  induction 1 as [|id ids Hid Hids IH]; cbn; [constructor|].
  unfold local_item at 1. destruct (solution id) as [n| |] eqn:E; try done. cbn.
  apply NoDup_cons. split; [|done].
  intros (p & -> & Hin)%list_elem_of_fmap.
  apply list_elem_of_fmap in Hin as ([n' [id' s']] & -> & Hin).
  apply list_elem_of_omap in Hin as (id2 & Hin & Hitem). unfold local_item in Hitem.
  destruct (solution id2) eqn:E2; by simplify_eq/=.
Qed.

Lemma elem_of_local_items x (ids : list EntryID) :
  x ∈ omap local_item ids ↔ ∃ id n, id ∈ ids ∧ solution id = SolvedLocal n ∧ x = (n, (id, [])).
Proof.
  rewrite list_elem_of_omap. unfold local_item. split.
  - intros (id & Hid & E). destruct (solution id) eqn:?; naive_solver.
  - intros (id & n & Hid & E & ->). exists id. by rewrite E.
Qed.

Lemma elem_of_remote_items x (ids : list EntryID) :
  x ∈ omap remote_item ids ↔
  ∃ id n s, id ∈ ids ∧ solution id = SolvedRemote n s ∧ x = (n, (id, s)).
Proof.
  rewrite list_elem_of_omap. unfold remote_item. split.
  - intros (id & Hid & E). destruct (solution id) eqn:?; naive_solver.
  - intros (id & n & s & Hid & E & ->). exists id. by rewrite E.
Qed.

Section ids.
Context (ids : list EntryID) (Hids : NoDup ids).
Let remote_items := place_remote <$> omap remote_item ids.
Let local_items := place_local remote_items.*1 <$> omap local_item ids.

(** What the merge is when the names it makes are distinct. *)
Lemma merge_fold_eq :
  NoDup (remote_items.*1 ++ local_items.*1) →
  (let '(solved_local, solved_remote) :=
     foldl (solve_step author base local remote) ([], []) ids in
   foldl (add_local author) (foldl add_remote [] solved_remote) solved_local)
  = (remote_items ++ local_items)%list.
Proof.
  intros Hnd. rewrite solve_fold.
  rewrite (od_update_fresh [] (omap local_item ids)) by (cbn; by apply local_items_keys).
  assert (NoDup (omap remote_item ids).*1) as Hr.
  { pose proof (remote_items_ids ids Hids) as H2%NoDup_fmap_1%NoDup_fmap_1.
    apply NoDup_fmap_2_strong; [|done].
    intros x y (id & n & s & _ & E & ->)%elem_of_remote_items
      (id' & n' & s' & _ & E' & ->)%elem_of_remote_items. cbn. intros <-.
    apply solution_remote in E as H, E' as H'.
    assert (id = id') as <- by eauto using valid_id. congruence. }
  rewrite (od_update_fresh [] (omap remote_item ids)) by done. cbn.
  rewrite add_remote_update, od_update_fresh by (apply NoDup_app in Hnd as [Hnd _]; exact Hnd).
  cbn. apply add_local_update; [|done].
  apply Forall_forall. by intros x (id & n & _ & _ & ->)%elem_of_local_items.
Qed.

(** The names are distinct when no name has a parenthesis. *)
Lemma merge_names_plain :
  Forall plain local.*1 → Forall plain remote.*1 →
  NoDup (remote_items.*1 ++ local_items.*1).
Proof.
  rewrite !Forall_forall. intros Hl Hr. subst remote_items local_items.
  rewrite <-!list_fmap_compose. apply NoDup_app. split_and!.
  - apply NoDup_fmap_2_strong; [|by eapply NoDup_fmap_1, NoDup_fmap_1, remote_items_ids].
    intros x y (id & n & s & _ & E & ->)%elem_of_remote_items
      (id' & n' & s' & _ & E' & ->)%elem_of_remote_items. cbn. intros Hn.
    apply solution_remote in E as H, E' as H'.
    assert (plain n ∧ plain n') as [Hp Hp'].
    { split; apply Hr; [by apply (list_elem_of_fmap_2 fst) in H
                       |by apply (list_elem_of_fmap_2 fst) in H']. }
    assert (n = n') as <-.
    { apply solution_suffixes in E as [->| ->], E' as [->| ->]; cbn in Hn.
      - done.
      - subst. by apply full_name_not_plain in Hp.
      - subst. by apply full_name_not_plain in Hp'.
      - by apply full_name_inj in Hn as [-> _]. }
    assert (id = id') as <- by eauto using valid_id. congruence.
  - intros name (x & -> & (id & n & s & Hid & E & ->)%elem_of_remote_items)%list_elem_of_fmap
      (y & Hn & (id' & n' & _ & E' & ->)%elem_of_local_items)%list_elem_of_fmap.
    cbn in Hn. apply solution_remote in E as H. apply solution_local in E' as H'.
    apply (list_elem_of_fmap_2 fst), Hr in H. apply (list_elem_of_fmap_2 fst), Hl in H'.
    case_bool_decide as Hin.
    + apply solution_suffixes in E as [->| ->]; cbn in Hn.
      * subst. by apply full_name_not_plain in H.
      * apply full_name_inj in Hn as (_ & t & t' & Ht); [|done..].
        by apply renamed_ne_conflict in Ht.
    + cbn in Hn. subst. apply Hin, list_elem_of_fmap. exists (n, (id, s)). split; [done|].
      apply elem_of_remote_items. eauto 10.
  - apply NoDup_fmap_2_strong; [|by eapply NoDup_fmap_1, NoDup_fmap_1, (local_items_ids [])].
    intros x y (id & n & _ & E & ->)%elem_of_local_items
      (id' & n' & _ & E' & ->)%elem_of_local_items. cbn. intros Hn.
    apply solution_local in E as H, E' as H'.
    assert (plain n ∧ plain n') as [Hp Hp'].
    { split; apply Hl; [by apply (list_elem_of_fmap_2 fst) in H
                       |by apply (list_elem_of_fmap_2 fst) in H']. }
    assert (n = n') as <-.
    { repeat case_bool_decide; cbn in Hn.
      - by apply full_name_inj in Hn as [-> _].
      - subst. by apply full_name_not_plain in Hp'.
      - subst. by apply full_name_not_plain in Hp.
      - done. }
    assert (id = id') as <- by eauto using valid_id. congruence.
Qed.

(** No local name is taken when the names are names of one side. *)
Lemma side_not_taken (side : odict EntryName EntryID) id l :
  valid_children side →
  (∀ id n, solution id = SolvedLocal n → (n, id) ∈ side) →
  (∀ id n s, solution id = SolvedRemote n s → s = [] ∧ (n, id) ∈ side) →
  solution id = SolvedLocal l → l ∉ remote_items.*1.
Proof.
  intros Hside Hl Hr E. unfold remote_items. rewrite <-list_fmap_compose.
  intros (z & Hz & (id2 & n2 & s2 & _ & E2 & ->)%elem_of_remote_items)%list_elem_of_fmap.
  destruct (Hr _ _ _ E2) as [-> H2]. cbn in Hz. subst n2.
  assert (id = id2) as <- by eauto using valid_id. congruence.
Qed.

(** The names are distinct when they are names of one side. *)
Lemma merge_names_side (side : odict EntryName EntryID) :
  valid_children side →
  (∀ id n, solution id = SolvedLocal n → (n, id) ∈ side) →
  (∀ id n s, solution id = SolvedRemote n s → s = [] ∧ (n, id) ∈ side) →
  NoDup (remote_items.*1 ++ local_items.*1).
Proof.
  intros Hside Hl Hr. unfold local_items, remote_items.
  rewrite <-!list_fmap_compose. apply NoDup_app. split_and!.
  - apply NoDup_fmap_2_strong; [|by eapply NoDup_fmap_1, NoDup_fmap_1, remote_items_ids].
    intros x y (id & n & s & _ & E & ->)%elem_of_remote_items
      (id' & n' & s' & _ & E' & ->)%elem_of_remote_items. cbn.
    destruct (Hr _ _ _ E) as [-> H], (Hr _ _ _ E') as [-> H']. cbn. intros <-.
    by rewrite (valid_id _ _ _ _ Hside H H').
  - intros name (x & -> & (id & n & s & Hid & E & ->)%elem_of_remote_items)%list_elem_of_fmap
      (y & Hn & (id' & n' & _ & E' & ->)%elem_of_local_items)%list_elem_of_fmap.
    destruct (Hr _ _ _ E) as [-> H]. pose proof (Hl _ _ E') as H'. cbn in Hn.
    rewrite bool_decide_eq_false_2 in Hn.
    2: { rewrite list_fmap_compose. by eapply side_not_taken. }
    cbn in Hn. subst n'. assert (id = id') as <- by eauto using valid_id. congruence.
  - apply NoDup_fmap_2_strong; [|by eapply NoDup_fmap_1, NoDup_fmap_1, (local_items_ids [])].
    intros x y (id & n & _ & E & ->)%elem_of_local_items
      (id' & n' & _ & E' & ->)%elem_of_local_items. cbn.
    rewrite !bool_decide_eq_false_2 by (rewrite list_fmap_compose; by eapply side_not_taken).
    cbn. intros <-.
    assert (id = id') as <- by eauto using valid_id. done.
Qed.

(** The items of the result. *)
Lemma elem_of_merge n id :
  (n, id) ∈ (remote_items ++ local_items)%list ↔ id ∈ ids ∧
    match solution id with
    | SolvedRemote r s => n = full_name r s
    | SolvedLocal l =>
        n = full_name l (if bool_decide (l ∈ remote_items.*1) then [conflict_suffix author] else [])
    | SolvedRemoved => False
    end.
Proof.
  unfold local_items, remote_items at 1. rewrite elem_of_app, !list_elem_of_fmap. split.
  - intros [([n' [id' s']] & Heq & (id2 & n2 & s2 & Hid & E & [= -> -> ->])%elem_of_remote_items)
           |([n' [id' s']] & Heq & (id2 & n2 & Hid & E & [= -> -> ->])%elem_of_local_items)];
      injection Heq as -> ->; by rewrite E.
  - intros [Hid H]. destruct (solution id) as [l|r s|] eqn:E; [right|left|done].
    + exists (l, (id, [])). split; [by rewrite H|]. apply elem_of_local_items. eauto.
    + exists (r, (id, s)). split; [by rewrite H|]. apply elem_of_remote_items. eauto 10.
Qed.

Lemma merge_ids_NoDup : NoDup (remote_items ++ local_items)%list.*2.
Proof.
  rewrite fmap_app. apply NoDup_app. split_and!.
  - by apply remote_items_ids.
  - intros id Hr Hl. unfold remote_items, local_items in Hr, Hl.
    rewrite <-list_fmap_compose, list_elem_of_fmap in Hr, Hl.
    destruct Hr as (x & -> & (id1 & n1 & s1 & _ & E & ->)%elem_of_remote_items).
    destruct Hl as (y & Hy & (id2 & n2 & _ & E' & ->)%elem_of_local_items).
    cbn in Hy. congruence.
  - by apply local_items_ids.
Qed.
End ids.
End merge.

#[local] Close Scope string_scope.

(** ** The folders without filtered names *)

Section folders.
Context (pattern_match : EntryName → bool) (now : DateTime).

Lemma evolve_children_base m data m' :
  evolve_children_and_mark_updated pattern_match now m data = Ok m' → fd_base m' = fd_base m.
Proof.
  unfold evolve_children_and_mark_updated. cbv zeta.
  destruct (py_assert _); cbn; [|done].
  destruct (foldl (evolve_add pattern_match) _ data) as [[[] ?] ?]; by intros [= <-].
Qed.

Lemma restore_confined_base m other m' :
  restore_confined_entries pattern_match now m other = Ok m' → fd_base m' = fd_base m.
Proof.
  unfold restore_confined_entries. case_decide; [by intros [= ->]|]. apply evolve_children_base.
Qed.

Lemma filter_remote_base m : fd_base (filter_remote_entries pattern_match m) = fd_base m.
Proof. unfold filter_remote_entries. by case_decide. Qed.

Lemma folderish_from_remote_base remote local m :
  folderish_from_remote pattern_match now remote local = Ok m → fd_base m = remote.
Proof.
  unfold folderish_from_remote. destruct local.
  - intros ->%restore_confined_base. by rewrite filter_remote_base.
  - intros [= <-]. by rewrite filter_remote_base.
Qed.

(** A folder none of whose names the filter of the user matches. *)
Definition unfiltered (m : LocalFolderish) : Prop :=
  fd_confined_entries m = ∅ ∧ fd_filtered_entries m = ∅ ∧
  ∀ n, n ∈ dom (fd_children m) → pattern_match n = false.
Definition names_unmatched (remote : FolderishBase) : Prop :=
  ∀ n, n ∈ dom (base_children remote) → pattern_match n = false.

(** The local manifest of a remote one. *)
Definition folderish_of (remote : FolderishBase) : LocalFolderish :=
  {| fd_base := remote; fd_need_sync := false; fd_updated := base_updated remote;
     fd_children := base_children remote; fd_confined_entries := ∅; fd_filtered_entries := ∅ |}.

Lemma filter_remote_unmatched m :
  (∀ n, n ∈ dom (fd_children m) → pattern_match n = false) →
  filter_remote_entries pattern_match m = m.
Proof.
  intros Hn. unfold filter_remote_entries.
  assert (filter (λ ni, pattern_match ni.1 = true) (fd_children m) = ∅) as ->.
  { apply map_empty. intros n. apply map_lookup_filter_None_2. right. intros id Hid. cbn.
    rewrite Hn; [done|].
    by eapply elem_of_dom_2. }
  by rewrite map_to_list_empty, decide_True.
Qed.

Lemma from_remote_unfiltered remote local :
  names_unmatched remote → (∀ m, local = Some m → unfiltered m) →
  folderish_from_remote pattern_match now remote local = Ok (folderish_of remote).
Proof.
  intros Hr Hl. unfold folderish_from_remote.
  rewrite filter_remote_unmatched by done. destruct local as [m|]; [|done].
  destruct (Hl m eq_refl) as (Hc & _). unfold restore_confined_entries.
  by rewrite Hc, decide_True.
Qed.

Lemma to_remote_children m author timestamp :
  unfiltered m → base_children (folderish_to_remote m author timestamp) = fd_children m.
Proof.
  intros (Hc & Hf & _). unfold folderish_to_remote, filter_confined_entries.
  rewrite decide_True by done. unfold restore_filtered_entries. rewrite decide_True by done.
  by destruct (fd_base m).
Qed.

Lemma to_remote_version m author timestamp :
  base_version (folderish_to_remote m author timestamp) = fd_base_version m + 1.
Proof. unfold folderish_to_remote, fd_base_version. by destruct (fd_base m). Qed.

Lemma to_remote_author m author timestamp :
  base_author (folderish_to_remote m author timestamp) = author.
Proof. unfold folderish_to_remote. by destruct (fd_base m). Qed.

(** What is uploaded is what the local manifest says. *)
Lemma match_to_remote m author timestamp :
  folderish_match_remote m (folderish_to_remote m author timestamp) = true.
Proof.
  unfold folderish_match_remote. apply bool_decide_eq_true.
  unfold folderish_to_remote. by destruct (fd_base m).
Qed.
End folders.

(** ** The files that are uploaded *)

(** A chunk with an access is the block of that access. *)
Definition chunks_named (m : LocalFileManifest) : Prop :=
  Forall (Forall (λ c, ∀ a, c_access c = Some a → access_id a = c_id c)) (lf_blocks m).

Lemma get_block_access_inv c a :
  get_block_access c = Ok a → (∀ a, c_access c = Some a → access_id a = c_id c) →
  from_block_acess a = c.
Proof.
  unfold get_block_access, is_block. intros H Hid.
  destruct c as [id start stop off size [a'|]]; cbn in *; [|done].
  unfold is_pseudo_block in H. cbn in H.
  destruct (Z.eqb_spec start off), (Z.eqb_spec stop (off + size)),
    (Z.eqb_spec off (access_offset a')), (Z.eqb_spec size (access_size a'));
    cbn in H; try done.
  injection H as ->. unfold from_block_acess. f_equal; [by apply Hid|lia..].
Qed.

Lemma block_accesses_inv blocks l :
  forallb (λ chunks, match chunks with [c] => is_block c | _ => false end) blocks = true →
  Forall (Forall (λ c, ∀ a, c_access c = Some a → access_id a = c_id c)) blocks →
  block_accesses blocks = Ok l → (λ a, [from_block_acess a]) <$> l = blocks.
Proof.
  revert l. induction blocks as [|chunks blocks IH]; intros l.
  { by intros _ _ [= <-]. }
  destruct chunks as [|c [|c' chunks]]; cbn; try done.
  intros [_ Hr]%andb_true_iff [Hc Hn]%Forall_cons.
  destruct (get_block_access c) as [a|] eqn:Ea; cbn; [|done].
  destruct (block_accesses blocks) as [l'|] eqn:El; cbn; [|done]. intros [= <-]. cbn.
  rewrite (IH l') by done. by rewrite (get_block_access_inv c a) by by inversion Hc.
Qed.

Lemma file_to_remote_inv m author timestamp r :
  chunks_named m → file_to_remote m author timestamp = Ok r →
  is_reshaped m = true ∧ fim_author r = author ∧ fim_version r = lf_base_version m + 1 ∧
  fim_size r = lf_size m ∧ fim_blocksize r = lf_blocksize m ∧
  lf_blocks (file_from_remote r) = lf_blocks m ∧ file_match_remote m r = Ok true.
Proof.
  intros Hn. unfold file_match_remote. unfold file_to_remote.
  destruct (assert_integrity m); cbn; [|done].
  destruct (is_reshaped m) eqn:Hr; cbn; [|done].
  destruct (block_accesses (lf_blocks m)) as [l|] eqn:El; cbn; [|done]. intros [= <-].
  split_and!; try done.
  - by apply block_accesses_inv.
  - f_equal. by apply bool_decide_eq_true.
Qed.

(** ** The workspaces of the user manifest *)

Lemma find_entry_Some l id e :
  find_entry l id = Some e → e ∈ l ∧ we_id e = id.
Proof.
  unfold find_entry. intros H%head_Some_elem_of%list_elem_of_filter. naive_solver.
Qed.

Lemma find_entry_elem l e :
  NoDup (we_id <$> l) → e ∈ l → find_entry l (we_id e) = Some e.
Proof.
  unfold find_entry. induction l as [|x l IH]; [set_solver|]. rewrite fmap_cons.
  intros [Hx Hl]%NoDup_cons [->|He]%elem_of_cons.
  - by rewrite filter_cons_True.
  - rewrite filter_cons_False; [by apply IH|].
    intros Hid. apply Hx. rewrite Hid. by apply list_elem_of_fmap_2.
Qed.

Lemma find_entry_None l id : find_entry l id = None ↔ id ∉ we_id <$> l.
Proof.
  unfold find_entry. split.
  - intros H (e & -> & He)%list_elem_of_fmap. apply head_None in H.
    assert (e ∈ filter (λ we, we_id we = we_id e) l) as Hf by by apply list_elem_of_filter.
    rewrite H in Hf. set_solver.
  - intros H. apply head_None. destruct (filter _ l) as [|e l'] eqn:E; [done|].
    assert (e ∈ e :: l') as He by left. rewrite <-E in He.
    apply list_elem_of_filter in He as [Hid He]. destruct H. rewrite <-Hid.
    by apply list_elem_of_fmap_2.
Qed.

Lemma find_entry_is_Some l id : is_Some (find_entry l id) ↔ id ∈ we_id <$> l.
Proof.
  destruct (decide (id ∈ we_id <$> l)) as [H|H].
  - split; [done|]. intros _. destruct (find_entry l id) eqn:E; [eauto|].
    by apply find_entry_None in E.
  - apply find_entry_None in H as E. rewrite E. split; [by intros [? [=]]|done].
Qed.

(** Two entries of a workspace are merged into one that has the last key and the
    last role known. *)
(** What two versions [d] (the local one) and [t] (the remote one) of the entry of a
    workspace become: a name that only the local side changed is kept, the
    encryption is the one of the last revision, and the role is the one that was seen
    last, the local one if both were seen at the same time. *)
Record merged_as (b : option WorkspaceEntry) (d t e : WorkspaceEntry) : Prop := {
  ma_id : we_id e = we_id t;
  ma_name : we_name e =
    match b with
    | Some b => if decide (we_name b = we_name t) then we_name d else we_name t
    | None => we_name t
    end;
  ma_revision : we_encryption_revision e = Z.max (we_encryption_revision d) (we_encryption_revision t);
  ma_target : we_encryption_revision d < we_encryption_revision t →
    we_key e = we_key t ∧ we_encrypted_on e = we_encrypted_on t;
  ma_local : we_encryption_revision t <= we_encryption_revision d →
    we_key e = we_key d ∧ we_encrypted_on e = we_encrypted_on d;
  ma_cached_on : we_role_cached_on e = Z.max (we_role_cached_on d) (we_role_cached_on t);
  ma_target_role : we_role_cached_on d < we_role_cached_on t → we_role e = we_role t;
  ma_local_role : we_role_cached_on t <= we_role_cached_on d → we_role e = we_role d }.
Lemma merge_workspace_entry_ok b d t :
  we_id d = we_id t → (∀ e, b = Some e → we_id e = we_id t) →
  ∃ e, merge_workspace_entry b d t = Ok e ∧ we_id e = we_id t ∧
    we_encryption_revision e = Z.max (we_encryption_revision d) (we_encryption_revision t) ∧
    merged_as b d t e.
Proof.
  intros Hid Hb. unfold merge_workspace_entry.
  rewrite bool_decide_eq_true_2 by done. cbn.
  assert (match b with None => true | Some e => bool_decide (we_id e = we_id t) end = true) as ->.
  { destruct b; [|done]. apply bool_decide_eq_true_2. auto. }
  cbn.
  destruct (Z.ltb_spec (we_encryption_revision d) (we_encryption_revision t));
    destruct (decide (we_role t = we_role d));
    try destruct (Z.ltb_spec (we_role_cached_on d) (we_role_cached_on t));
    (eexists; split; [reflexivity|]); cbn; (split; [done|]); (split; [lia|]);
    (split; cbn; [done| |lia|done || lia|done || lia|lia|done || lia|done || lia]);
    (destruct b as [e'|]; [|done]); repeat case_decide; congruence.
Qed.

Lemma merge_workspace_entry_self b e :
  (∀ e', b = Some e' → we_id e' = we_id e) → merge_workspace_entry b e e = Ok e.
Proof.
  intros Hb. unfold merge_workspace_entry. rewrite bool_decide_eq_true_2 by done. cbn.
  assert (match b with None => true | Some e' => bool_decide (we_id e' = we_id e) end = true) as ->.
  { destruct b; [|done]. apply bool_decide_eq_true_2. auto. }
  cbn. rewrite !Z.ltb_irrefl, Z.max_id.
  destruct e, b; cbn; repeat case_decide; simplify_eq/=; done.
Qed.

(** What an entry becomes. *)
Definition merged_entry (base : list WorkspaceEntry) (d t : option WorkspaceEntry)
    (e : option WorkspaceEntry) : Prop :=
  match d, t with
  | Some d, Some t => ∃ e', e = Some e' ∧
      merge_workspace_entry (find_entry base (we_id d)) d t = Ok e'
  | Some d, None => e = Some d
  | None, t => e = t
  end.

Lemma merge_entry_loop_ok base diverged resolved :
  NoDup (we_id <$> diverged) → NoDup (od_keys resolved) →
  (∀ id e, od_get resolved id = Some e → we_id e = id) →
  ∃ resolved', merge_entry_loop base resolved diverged = Ok resolved' ∧
    NoDup (od_keys resolved') ∧
    (∀ id e, od_get resolved' id = Some e → we_id e = id) ∧
    ∀ id, merged_entry base (find_entry diverged id) (od_get resolved id) (od_get resolved' id).
Proof.
  revert resolved. induction diverged as [|d diverged IH]; intros resolved Hd Hk Hid.
  { exists resolved. by split_and!. }
  rewrite fmap_cons in Hd. apply NoDup_cons in Hd as [Hnew Hd].
  assert (∃ e, merge_entry_step base resolved d = Ok (od_set resolved (we_id d) e) ∧
    we_id e = we_id d ∧ merged_entry base (Some d) (od_get resolved (we_id d)) (Some e))
    as (e & Hstep & He & Hm).
  { unfold merge_entry_step. destruct (od_get resolved (we_id d)) as [t|] eqn:Ht; [|by exists d].
    apply Hid in Ht as Hidt. case_decide as Heq.
    - subst t. exists d. split_and!; [|done|].
      + by rewrite od_set_same.
      + exists d. split; [done|]. apply merge_workspace_entry_self.
        by intros e' [_ ?]%find_entry_Some.
    - destruct (merge_workspace_entry_ok (find_entry base (we_id d)) d t) as (e & E & He & _);
        [done|by intros e' [_ ->]%find_entry_Some|].
      rewrite E. exists e. split_and!; [done|congruence|]. by exists e.
  }
  destruct (IH (od_set resolved (we_id d) e)) as (resolved' & E & Hk' & Hid' & Hall).
  { done. }
  { by apply od_set_NoDup. }
  { intros id e'. rewrite od_get_set_case. case_decide; [|apply Hid]. intros [= <-]. congruence. }
  exists resolved'. split_and!; [|done|done|].
  { cbn [merge_entry_loop]. by rewrite Hstep. }
  intros id. specialize (Hall id). unfold find_entry in *. rewrite od_get_set_case in Hall.
  destruct (decide (we_id d = id)) as [<-|Hne].
  - rewrite filter_cons_True by done. cbn [head]. rewrite decide_True in Hall by done.
    assert (find_entry diverged (we_id d) = None) as Hnone by by apply find_entry_None.
    unfold find_entry in Hnone. rewrite Hnone in Hall. cbn in Hall. by rewrite Hall.
  - rewrite filter_cons_False by done. by rewrite decide_False in Hall by done.
Qed.

Lemma find_entry_iff l id e :
  NoDup (we_id <$> l) → find_entry l id = Some e ↔ e ∈ l ∧ we_id e = id.
Proof. intros Hl. split; [apply find_entry_Some|]. intros [He <-]. by apply find_entry_elem. Qed.

Lemma entry_ids_elem l id : id ∈ entry_ids l ↔ id ∈ we_id <$> l.
Proof. unfold entry_ids. by rewrite elem_of_list_to_set. Qed.

(** A dict of entries by id, and the sorted list of its values. *)
Lemma resolved_entries (resolved : odict EntryID WorkspaceEntry) ws :
  NoDup (od_keys resolved) → (∀ id e, od_get resolved id = Some e → we_id e = id) →
  ws ≡ₚ od_values resolved →
  we_id <$> ws ≡ₚ od_keys resolved ∧ ∀ id, find_entry ws id = od_get resolved id.
Proof.
  intros Hk Hid Hws.
  assert (we_id <$> ws ≡ₚ od_keys resolved) as Hperm.
  { rewrite Hws. unfold od_values, od_keys. rewrite <-list_fmap_compose.
    assert (we_id ∘ snd <$> resolved = fst <$> resolved) as ->; [|done].
    apply list_fmap_ext. intros i [id e] Hin%list_elem_of_lookup_2. cbn.
    apply Hid. by apply od_elem_get. }
  split; [done|]. intros id. apply option_eq. intros e.
  rewrite find_entry_iff by by rewrite Hperm. rewrite od_get_Some by done. rewrite Hws.
  unfold od_values. rewrite list_elem_of_fmap. split.
  - intros [([id' e'] & -> & Hin) <-]. cbn.
    rewrite (Hid id' e') by by apply od_elem_get. done.
  - intros Hin. split; [by exists (id, e)|]. apply Hid. by apply od_elem_get.
Qed.

Lemma merge_workspace_entries_ok base diverged target :
  NoDup (we_id <$> diverged) → NoDup (we_id <$> target) →
  entry_ids base ⊆ entry_ids diverged ∩ entry_ids target →
  ∃ ws need_sync, merge_workspace_entries base diverged target = Ok (ws, need_sync) ∧
    NoDup (we_id <$> ws) ∧ StronglySorted (λ x y, name_leb x y = true) ws ∧
    (∀ id, merged_entry base (find_entry diverged id) (find_entry target id) (find_entry ws id)) ∧
    (need_sync = true ↔ ∃ id, id ∈ we_id <$> diverged ∧ id ∉ we_id <$> target).
Proof.
  intros Hd Ht Hkept. unfold merge_workspace_entries.
  rewrite (bool_decide_eq_true_2 (entry_ids base ∖ entry_ids diverged = ∅)) by set_solver.
  rewrite (bool_decide_eq_true_2 (entry_ids base ∖ entry_ids target = ∅)) by set_solver.
  cbn [py_assert mbind result_bind].
  set (items := (λ we, (we_id we, we)) <$> target).
  assert (items.*1 = we_id <$> target) as Hkeys by (unfold items; by rewrite <-list_fmap_compose).
  assert (od_update [] items = items) as ->.
  { apply (od_update_fresh []). cbn. by rewrite Hkeys. }
  destruct (resolved_entries items target) as [_ Hfind].
  { unfold od_keys. by rewrite Hkeys. }
  { intros id e (we & [= -> ->] & _)%od_get_elem%list_elem_of_fmap. done. }
  { unfold od_values, items. rewrite <-list_fmap_compose. by rewrite list_fmap_id. }
  destruct (merge_entry_loop_ok base diverged items) as (resolved & -> & Hk & Hid & Hm).
  { done. }
  { unfold od_keys. by rewrite Hkeys. }
  { intros id e (we & [= -> ->] & _)%od_get_elem%list_elem_of_fmap. done. }
  cbn. eexists _, _. split; [done|].
  destruct (resolved_entries resolved (py_sorted name_leb (od_values resolved))) as [Hperm Hget];
    [done|done|apply py_sorted_Permutation|].
  split_and!.
  - by rewrite Hperm.
  - apply py_sorted_sorted.
    + intros x y. apply String.leb_total.
    + intros x y z Hxy Hyz. apply Is_true_true. unfold name_leb.
      change (String.le (we_name x) (we_name z)).
      etrans; apply Is_true_true; [exact Hxy|exact Hyz].
  - intros id. by rewrite Hfind, Hget.
  - rewrite bool_decide_eq_true.
    assert (∀ id, id ∈ od_keys resolved ↔ id ∈ we_id <$> diverged ∨ id ∈ we_id <$> target) as Hin.
    { intros id. rewrite <-od_get_is_Some, <-!find_entry_is_Some. specialize (Hm id).
      rewrite <-Hfind in Hm. unfold is_Some.
      destruct (find_entry diverged id), (find_entry target id); cbn in Hm;
        [destruct Hm as (? & -> & _)|rewrite Hm..]; naive_solver. }
    split.
    + intros Hne. destruct (decide (entry_ids diverged ⊆ entry_ids target)) as [Hsub|Hsub].
      * destruct Hne. apply set_eq. intros id.
        rewrite elem_of_list_to_set, entry_ids_elem, Hin. specialize (Hsub id).
        rewrite !entry_ids_elem in Hsub. naive_solver.
      * destruct (set_choose_L (entry_ids diverged ∖ entry_ids target)) as [id Hdiff];
          [by intros ?%empty_difference_subseteq_L|]. exists id. rewrite elem_of_difference, !entry_ids_elem in Hdiff. done.
    + intros (id & H1 & H2) Heq. apply H2. rewrite <-entry_ids_elem, <-Heq, elem_of_list_to_set, Hin.
      by left.
Qed.

Lemma merge_workspace_entries_err base diverged target :
  ¬ entry_ids base ⊆ entry_ids diverged ∩ entry_ids target →
  merge_workspace_entries base diverged target = Err AssertionError.
Proof.
  intros Hkept. unfold merge_workspace_entries.
  destruct (decide (entry_ids base ∖ entry_ids diverged = ∅)) as [H1|H1];
    [rewrite (bool_decide_eq_true_2 _ H1)|by rewrite (bool_decide_eq_false_2 _ H1)].
  destruct (decide (entry_ids base ∖ entry_ids target = ∅)) as [H2|H2];
    [|by rewrite (bool_decide_eq_false_2 _ H2)].
  destruct Hkept. apply empty_difference_subseteq_L in H1, H2.
  intros id Hid. apply elem_of_intersection. auto.
Qed.
