(* ===== verification/MergingProperties.v ===== *)
(** What the merges of the client guarantee: a folder that both sides changed
    loses no entry, a merge always moves the base of a manifest to the remote
    one, and the user manifest keeps every workspace. *)

From S2P Require Import Prelude PyString Types ApiManifest Chunk LocalManifest Merging.

(** ** The children of a folder *)

Section merge.
Context (order : gset EntryID → list EntryID) (author : DeviceID)
  (base local remote : odict EntryName EntryID).
Context (Horder : ∀ X, order X ≡ₚ elements X) (Hbase : valid_children base)
  (Hlocal : valid_children local) (Hremote : valid_children remote).
Let ids := order (merged_ids local remote).
Let remote_items := place_remote <$> omap (remote_item author base local remote) ids.
Let local_items :=
  place_local author remote_items.*1 <$> omap (local_item author base local remote) ids.

Lemma ids_NoDup : NoDup ids.
Proof. unfold ids. rewrite Horder. apply NoDup_elements. Qed.

Lemma elem_of_ids id : id ∈ ids ↔ id ∈ local.*2 ∨ id ∈ remote.*2.
Proof.
  unfold ids, merged_ids. rewrite Horder, elem_of_elements, elem_of_union, !elem_of_list_to_set.
  rewrite !reverse_children_valid by done. unfold od_keys. by rewrite <-!list_fmap_compose.
Qed.

Lemma survives_ids id : survives base local remote id → id ∈ ids.
Proof. unfold survives. rewrite elem_of_ids. naive_solver. Qed.

(** What the result is made of, when the names are distinct. *)
Lemma merge_spec :
  NoDup (remote_items.*1 ++ local_items.*1) →
  let merged := merge_folder_children order base local remote author in
  valid_children merged ∧
  (∀ id, id ∈ merged.*2 ↔ survives base local remote id) ∧
  (∀ n id, (n, id) ∈ merged ↔
     match solution author base local remote id with
     | SolvedRemote r s => n = full_name r s
     | SolvedLocal l =>
         n = full_name l (if bool_decide (l ∈ remote_items.*1)
                          then [conflict_suffix author] else [])
     | SolvedRemoved => False
     end).
Proof.
  intros Hnd merged.
  assert (merged = remote_items ++ local_items) as Heq.
  { apply (merge_fold_eq author base local remote); auto using ids_NoDup. }
  assert (∀ n id, (n, id) ∈ merged ↔ match solution author base local remote id with
     | SolvedRemote r s => n = full_name r s
     | SolvedLocal l =>
         n = full_name l (if bool_decide (l ∈ remote_items.*1)
                          then [conflict_suffix author] else [])
     | SolvedRemoved => False
     end) as Helem.
  { intros n id. rewrite Heq. unfold local_items, remote_items. rewrite elem_of_merge.
    split; [by intros [_ ?]|]. intros H. split; [|done].
    apply survives_ids, (solution_survives author); [done..|]. by intros E; rewrite E in H. }
  split_and!; [split| |done].
  - rewrite Heq. by rewrite fmap_app.
  - rewrite Heq. by apply (merge_ids_NoDup author base local remote), ids_NoDup.
  - intros id. rewrite <-(solution_survives author) by done. split.
    + intros ([n id'] & -> & Hin)%list_elem_of_fmap. apply Helem in Hin. cbn.
      by destruct (solution author base local remote id').
    + intros H. destruct (solution author base local remote id) as [l|r s|] eqn:E; [| |done].
      all: eapply (list_elem_of_fmap_2 snd merged (_, id)), Helem; by rewrite E.
Qed.
End merge.

(** C26: merging the children of a folder. When no name has a parenthesis, the
    result is a folder whose entries are exactly the ones that both sides kept
    or that a side added; an entry that only the remote side added or renamed has
    its remote name, one that both renamed has the remote name with a suffix, and
    the others their local name, or the local name with a suffix when a remote
    entry has it. *)
Theorem merge_children_correct order author base local remote
    (Horder : ∀ X, order X ≡ₚ elements X) (Hbase : valid_children base)
    (Hlocal : valid_children local) (Hremote : valid_children remote)
    (Hpl : Forall plain local.*1) (Hpr : Forall plain remote.*1) :
  let merged := merge_folder_children order base local remote author in
  valid_children merged ∧
  (∀ id, id ∈ merged.*2 ↔ survives base local remote id) ∧
  (∀ r id, (r, id) ∈ remote → id ∉ base.*2 → id ∉ local.*2 → (r, id) ∈ merged) ∧
  (∀ n r id, (n, id) ∈ base → (n, id) ∈ local → (r, id) ∈ remote → n ≠ r → (r, id) ∈ merged) ∧
  (∀ b l r id, (b, id) ∈ base → (l, id) ∈ local → (r, id) ∈ remote → b ≠ l → b ≠ r → l ≠ r →
     (full_name r [renamed_suffix author], id) ∈ merged) ∧
  (∀ l id, (l, id) ∈ local → survives base local remote id →
     id ∉ base.*2 ∨ (l, id) ∈ remote ∨ (∃ b, (b, id) ∈ base ∧ (b, id) ∈ remote) →
     (l, id) ∈ merged ∨
     (full_name l [conflict_suffix author], id) ∈ merged ∧
       ∃ id', id' ≠ id ∧ (l, id') ∈ remote ∧ (l, id') ∈ merged).
Proof.
  cbv zeta.
  destruct (merge_spec order author base local remote Horder Hbase Hlocal Hremote)
    as (Hv & Hs & Helem).
  { apply merge_names_plain; auto using ids_NoDup. }
  split_and!; [done|done| | | |].
  - intros r id Hr Hb Hl. apply Helem. unfold solution.
    apply reverse_get_None in Hb as ->, Hl as ->; [|done..]. apply reverse_get in Hr as ->; [|done].
    done.
  - intros n r id Hb Hl Hr Hn. apply Helem. unfold solution.
    apply reverse_get in Hb as ->, Hl as ->, Hr as ->; [|done..]. cbn.
    by repeat case_decide.
  - intros b l r id Hb Hl Hr ???. apply Helem. unfold solution.
    apply reverse_get in Hb as ->, Hl as ->, Hr as ->; [|done..]. cbn.
    by repeat case_decide; simplify_eq.
  - intros l id Hl Hsv Hcase.
    assert (solution author base local remote id = SolvedLocal l) as E.
    { apply (solution_survives author) in Hsv; [|done..].
      revert Hsv. unfold solution. apply reverse_get in Hl as ->; [|done].
      destruct Hcase as [Hb|[Hr|(b & Hb & Hr)]].
      - by apply reverse_get_None in Hb as ->.
      - apply reverse_get in Hr as ->; [|done].
        destruct (od_get (reverse_children base) id); cbn; by repeat case_decide.
      - apply reverse_get in Hb as ->, Hr as ->; [|done..]. cbn. by repeat case_decide. }
    set (merged := merge_folder_children _ _ _ _ _) in *.
    pose proof (λ n, proj2 (Helem n id)) as Hin. rewrite E in Hin.
    specialize (Hin _ eq_refl). case_bool_decide as Ht; [right|by left]. split; [done|].
    rewrite <-list_fmap_compose in Ht.
    apply list_elem_of_fmap in Ht as (x & Hx & (id2 & r & s & _ & E2 & ->)%elem_of_remote_items).
    cbn in Hx. pose proof (solution_remote _ _ _ _ Hremote _ _ _ E2) as Hr.
    assert (s = []) as ->.
    { destruct (solution_suffixes _ _ _ _ _ _ _ E2) as [?| ->]; [done|]. exfalso.
      eapply full_name_not_plain. rewrite <-Hx.
      rewrite Forall_forall in Hpl. apply Hpl. by apply (list_elem_of_fmap_2 fst) in Hl. }
    cbn in Hx. subst r. exists id2. split_and!; [congruence|done|].
    apply Helem. by rewrite E2.
Qed.

(** A folder that only one side changed gets the children of that side,
    whatever their names. *)
Theorem merge_children_one_side order author base local remote
    (Horder : ∀ X, order X ≡ₚ elements X) (Hbase : valid_children base)
    (Hlocal : valid_children local) (Hremote : valid_children remote) :
  (local ≡ₚ base → merge_folder_children order base local remote author ≡ₚ remote) ∧
  (remote ≡ₚ base → merge_folder_children order base local remote author ≡ₚ local).
Proof.
  assert (∀ side : odict EntryName EntryID, valid_children side →
    (∀ id, survives base local remote id ↔ id ∈ side.*2) →
    (∀ id n, solution author base local remote id = SolvedLocal n → (n, id) ∈ side) →
    (∀ id n s, solution author base local remote id = SolvedRemote n s → s = [] ∧ (n, id) ∈ side) →
    merge_folder_children order base local remote author ≡ₚ side) as Hside.
  { intros side Hv Hsv Hl Hr.
    destruct (merge_spec order author base local remote Horder Hbase Hlocal Hremote)
      as ((Hn & Hi) & Hs & Helem); [eapply merge_names_side; eauto using ids_NoDup|].
    apply NoDup_Permutation; [by eapply NoDup_fmap_1|by eapply NoDup_fmap_1, Hv|].
    assert (∀ n id, (n, id) ∈ merge_folder_children order base local remote author →
      (n, id) ∈ side) as Hin.
    { intros n id Hm. apply Helem in Hm.
      destruct (solution author base local remote id) as [l|r s|] eqn:E; [| |done].
      - rewrite bool_decide_eq_false_2 in Hm by by eapply side_not_taken. subst. by apply Hl.
      - destruct (Hr _ _ _ E) as [-> ?]. by subst. }
    intros [n id]. split; [apply Hin|]. intros H.
    apply (list_elem_of_fmap_2 snd) in H as H2. apply Hsv, Hs, list_elem_of_fmap in H2 as ([m id'] & Hid & Hm).
    cbn in Hid. subst id'. by rewrite (valid_name _ _ _ _ Hv H (Hin _ _ Hm)). }
  split; intros Hperm; apply Hside; try done.
  - intros id. unfold survives. rewrite Hperm. destruct (decide (id ∈ base.*2)); naive_solver.
  - intros id n E. apply reverse_get; [done|]. revert E. unfold solution, solve_id.
    rewrite (reverse_get_perm local base) by done. intros. by repeat case_match; simplify_eq.
  - intros id n s E. split; [|by eapply solution_remote]. revert E. unfold solution, solve_id.
    rewrite (reverse_get_perm local base) by done. intros. by repeat case_match; simplify_eq.
  - intros id. unfold survives. rewrite Hperm. destruct (decide (id ∈ base.*2)); naive_solver.
  - intros id n E. by eapply solution_local.
  - intros id n s. unfold solution, solve_id.
    rewrite (reverse_get_perm remote base) by done. intros. by repeat case_match; simplify_eq.
Qed.

(** The hypothesis on the names is needed: the name made for a local entry may be
    the one of a remote entry, which is lost. *)
Theorem merge_children_collision :
  let author := mkDeviceID "bob" "pc" in
  let base : odict EntryName EntryID := [] in
  let local : odict EntryName EntryID := [("a"%string, 1%N)] in
  let remote : odict EntryName EntryID :=
    [("a"%string, 2%N); (full_name "a" [conflict_suffix author], 3%N)] in
  valid_children local ∧ valid_children remote ∧ survives base local remote 3 ∧
  3%N ∉ (merge_folder_children elements base local remote author).*2.
Proof.
  cbv zeta. split_and!.
  - split; apply (bool_decide_unpack _); vm_compute; exact I.
  - split; apply (bool_decide_unpack _); vm_compute; exact I.
  - right. split; [right|]; cbn; set_solver.
  - apply (bool_decide_unpack _). vm_compute. exact I.
Qed.

(** [get_conflict_filename] always ends, with a name that no entry has: the
    first one that is free among the name with the author and the ones with the
    author and a counter. *)
Theorem get_conflict_filename_correct fuel filename filenames author
    (Hfuel : (length filenames <= fuel)%nat) :
  ∃ k, get_conflict_filename fuel filename filenames author
       = Some (conflict_name filename author k) ∧
    conflict_name filename author k ∉ filenames ∧
    (∀ j, (j < k)%nat → conflict_name filename author j ∈ filenames) ∧ (k <= length filenames)%nat.
Proof.
  destruct (conflict_loop_finds filename filenames author fuel 0) as (k & E & Hk & Hj); [lia|lia|].
  exists k. split_and!; [exact E|done|done|].
  assert (NoDup (conflict_name filename author <$> seq 0 k)) as Hnd.
  { apply (NoDup_fmap_2 _), NoDup_seq. }
  assert (conflict_name filename author <$> seq 0 k ⊆+ filenames) as Hs%submseteq_length.
  { apply NoDup_submseteq; [done|]. intros n (j & -> & Hin)%list_elem_of_fmap.
    apply elem_of_seq in Hin. apply Hj. lia. }
  by rewrite length_fmap, length_seq in Hs.
Qed.

(** ** [merge_manifests] *)

(** The remote manifest a local one is made from, and what the user sees of it:
    the size and the chunks of a file, or the children of a folder. *)
Definition lm_base (m : LocalManifest) : RemoteManifest :=
  match m with
  | LFile m => RFile (lf_base m)
  | LFolderish m => remote_of_folderish (fd_base m)
  | LUser m => RUser (lu_base m)
  end.
Definition lm_content (m : LocalManifest)
    : (Z * list (list Chunk)) + gmap EntryName EntryID + list WorkspaceEntry :=
  match m with
  | LFile m => inl (inl (lf_size m, lf_blocks m))
  | LFolderish m => inl (inr (fd_children m))
  | LUser m => inr (lu_workspaces m)
  end.
(** A manifest of a workspace: a file whose chunks have the id of their access, or
    a folder none of whose names the filter matches. *)
Definition mergeable (pattern_match : EntryName → bool) (m : LocalManifest) : Prop :=
  match m with
  | LFile m => chunks_named m
  | LFolderish m => unfiltered pattern_match m
  | LUser _ => False
  end.
(** A remote manifest of the same class, none of whose names the filter matches. *)
Definition remote_of_class (pattern_match : EntryName → bool) (m : LocalManifest)
    (r : RemoteManifest) : Prop :=
  match m, r with
  | LFile _, RFile _ => True
  | LFolderish m, RFolder r => names_unmatched pattern_match (BFolder r)
  | LFolderish m, RWorkspace r => names_unmatched pattern_match (BWorkspace r)
  | _, _ => False
  end.

Section manifests.
Context (pattern_match : EntryName → bool) (now : DateTime)
  (order : gset EntryID → list EntryID)
  (items : gmap EntryName EntryID → odict EntryName EntryID).
#[local] Abbreviation merge := (merge_manifests pattern_match now order items).

(** What a remote manifest becomes. *)
Lemma lm_from_remote_ok m r :
  mergeable pattern_match m → remote_of_class pattern_match m r →
  ∃ m', lm_from_remote pattern_match now r (Some m) = Ok m' ∧ lm_base m' = r ∧
    lm_need_sync m' = false ∧
    match r, m' with
    | RFile r, LFile f => f = file_from_remote r
    | RFolder r, LFolderish f => f = folderish_of (BFolder r)
    | RWorkspace r, LFolderish f => f = folderish_of (BWorkspace r)
    | _, _ => False
    end.
Proof.
  destruct m as [f|f|], r as [r|r|r|]; try done; intros Hm Hr.
  - cbn. eauto.
  - exists (LFolderish (folderish_of (BFolder r))). split; [|done].
    unfold lm_from_remote, folder_from_remote. cbn [mbind result_bind].
    by rewrite from_remote_unfiltered; [|done|intros ? [= <-]].
  - exists (LFolderish (folderish_of (BWorkspace r))). split; [|done].
    unfold lm_from_remote, workspace_from_remote. cbn [mbind result_bind].
    by rewrite from_remote_unfiltered; [|done|intros ? [= <-]].
Qed.

Lemma lm_from_remote_None m r m' :
  remote_of_class pattern_match m r →
  match r, m' with
  | RFile r, LFile f => f = file_from_remote r
  | RFolder r, LFolderish f => f = folderish_of (BFolder r)
  | RWorkspace r, LFolderish f => f = folderish_of (BWorkspace r)
  | _, _ => False
  end → lm_from_remote pattern_match now r None = Ok m'.
Proof.
  destruct m as [f|f|], r, m' as [f'|f'|]; try done; intros Hr ->; unfold lm_from_remote;
    [done|unfold folder_from_remote|unfold workspace_from_remote]; cbn [mbind result_bind];
    by rewrite from_remote_unfiltered.
Qed.

(** The upload of a manifest matches it, and has its content. *)
Lemma lm_to_remote_inv m author timestamp r m' :
  mergeable pattern_match m → lm_to_remote m author timestamp = Ok r →
  match r, m' with
  | RFile r, LFile f => f = file_from_remote r
  | RFolder r, LFolderish f => f = folderish_of (BFolder r)
  | RWorkspace r, LFolderish f => f = folderish_of (BWorkspace r)
  | _, _ => False
  end → lm_match_remote m r = Ok true ∧ lm_content m' = lm_content m.
Proof.
  destruct m as [f|f|]; intros Hm; cbn; [| |done].
  - destruct (file_to_remote f author timestamp) as [r'|] eqn:E; [|done]. intros [= <-].
    destruct m' as [f'| |]; try done. intros ->. cbn [lm_content].
    destruct (file_to_remote_inv _ _ _ _ Hm E) as (? & ? & ? & Hs & ? & Hb & Hmt).
    split; [done|]. by rewrite Hb, <-Hs.
  - intros [= <-]. pose proof (match_to_remote f author timestamp) as Hmt.
    pose proof (to_remote_children pattern_match f author timestamp Hm) as Hc.
    destruct (folderish_to_remote f author timestamp) as [b|b];
      destruct m' as [|f'|]; try done; intros ->; cbn in *; by rewrite Hmt, <-Hc.
Qed.

(** The branches of [merge_manifests]; the comment of the theorem says it in
    full. *)
Lemma merge_manifests_branches author m r
    (Hm : mergeable pattern_match m) (Hr : remote_of_class pattern_match m r) :
  (rm_version r <= lm_base_version m → merge author m (Some r) false = Ok m) ∧
  (lm_base_version m < rm_version r →
    (∀ m', merge author m (Some r) false = Ok m' → lm_base m' = r) ∧
    (lm_need_sync m = false → ∃ m', merge author m (Some r) false = Ok m' ∧
       lm_from_remote pattern_match now r None = Ok m' ∧ lm_need_sync m' = false) ∧
    (∀ author' timestamp, lm_to_remote m author' timestamp = Ok r →
       ∃ m', merge author m (Some r) false = Ok m' ∧ lm_need_sync m' = false ∧
         lm_content m' = lm_content m) ∧
    (lm_need_sync m = true → lm_match_remote m r = Ok false →
       (rm_author r = author → ∃ m', merge author m (Some r) false = Ok m' ∧
          lm_need_sync m' = true ∧ lm_content m' = lm_content m) ∧
       (rm_author r ≠ author →
          match m with
          | LFile f => merge author m (Some r) false = Err (FSFileConflictError (lf_parent f) r)
          | LFolderish f => ∃ f' b, merge author m (Some r) false = Ok (LFolderish f') ∧
              remote_folderish r = Some b ∧ fd_need_sync f' = true ∧
              fd_children f' = list_to_map (merge_folder_children order
                (items (base_children (fd_base f))) (items (fd_children f))
                (items (base_children b)) (rm_author r))
          | LUser _ => False
          end))).
Proof.
  split.
  { intros Hle. unfold merge_manifests. cbn. by apply Z.leb_le in Hle as ->. }
  intros Hlt%Z.leb_gt. unfold merge_manifests. cbn. rewrite Hlt.
  destruct (lm_from_remote_ok m r Hm Hr) as (m' & -> & Hb & Hn & Hshape). cbn.
  split_and!.
  - intros m2. destruct (negb (lm_need_sync m)); [by intros [= <-]|].
    destruct (lm_match_remote m r) as [[|]|]; cbn; [by intros [= <-]| |done].
    case_bool_decide.
    + destruct m as [f|f|], r; try done; by intros [= <-].
    + destruct m as [f|f|], r, m' as [f'|f'|]; try done; intros [= <-]; by rewrite <-Hb.
  - intros ->. cbn. exists m'. split_and!; [done| |done]. by apply (lm_from_remote_None m).
  - intros author' timestamp Hto.
    destruct (lm_to_remote_inv m author' timestamp r m' Hm Hto Hshape) as [Hmatch Hcontent].
    exists m'. destruct (negb (lm_need_sync m)); [done|]. by rewrite Hmatch.
  - intros Hns Hmt. rewrite Hns, Hmt. cbn. split.
    + intros ->. rewrite bool_decide_eq_true_2 by done.
      destruct m as [f|f|], r; try done; cbn; eauto.
    + intros Ha. rewrite bool_decide_eq_false_2 by done.
      destruct m as [f|f|], r, m' as [f'|f'|]; try done; subst; cbn; eauto 10.
Qed.

(** Merging a manifest with a remote one. An old remote manifest changes
    nothing; otherwise the base of the result is the remote manifest. The upload of
    the local manifest makes it synchronized, with the same content; an upload that
    the device made before the last changes keeps these changes to be uploaded; a
    change of another device is taken as it is when there is no local change, is a
    conflict for a file, and is merged in a folder that must be uploaded. *)
Theorem merge_manifests_correct author m r
    (Hm : mergeable pattern_match m) (Hr : remote_of_class pattern_match m r) :
  (rm_version r <= lm_base_version m → merge author m (Some r) false = Ok m) ∧
  (lm_base_version m < rm_version r →
    (∀ m', merge author m (Some r) false = Ok m' → lm_base m' = r) ∧
    (lm_need_sync m = false → ∃ m', merge author m (Some r) false = Ok m' ∧
       lm_from_remote pattern_match now r None = Ok m' ∧ lm_need_sync m' = false) ∧
    (∀ author' timestamp, lm_to_remote m author' timestamp = Ok r →
       ∃ m', merge author m (Some r) false = Ok m' ∧ lm_need_sync m' = false ∧
         lm_content m' = lm_content m) ∧
    (lm_need_sync m = true → lm_match_remote m r = Ok false →
       (rm_author r = author → ∃ m', merge author m (Some r) false = Ok m' ∧
          lm_need_sync m' = true ∧ lm_content m' = lm_content m) ∧
       (rm_author r ≠ author →
          match m with
          | LFile f => merge author m (Some r) false = Err (FSFileConflictError (lf_parent f) r)
          | LFolderish f => ∃ f' b, merge author m (Some r) false = Ok (LFolderish f') ∧
              remote_folderish r = Some b ∧ fd_need_sync f' = true ∧
              fd_children f' = list_to_map (merge_folder_children order
                (items (base_children (fd_base f))) (items (fd_children f))
                (items (base_children b)) (rm_author r))
          | LUser _ => False
          end))).
Proof. by apply merge_manifests_branches. Qed.
End manifests.

(** ** The user manifest *)

(** C27: merging the user manifest. When no side removed a workspace of the base,
    the result has the workspaces of both sides, sorted by name; a workspace of one
    side is as it was, and one of both sides has the encryption of the last revision,
    the role that was seen last, the local one if both were seen at the same time, and
    the remote name, or the local one where only the local side changed it. The result
    is to be uploaded exactly when the local side added a workspace or read more
    messages, and then has the last of the two dates, and else the remote date. When a workspace was removed, the merge raises
    an [AssertionError]. *)
Theorem merge_user_manifests_correct diverged target
    (Hd : NoDup (we_id <$> lu_workspaces diverged)) (Ht : NoDup (we_id <$> um_workspaces target))
    (Hid : um_id (lu_base diverged) = um_id target)
    (Hver : lu_base_version diverged < um_version target)
    (Hcreated : lu_base_version diverged = 0 ∨ um_created (lu_base diverged) = um_created target) :
  let kept := entry_ids (um_workspaces (lu_base diverged))
                ⊆ entry_ids (lu_workspaces diverged) ∩ entry_ids (um_workspaces target) in
  (kept → ∃ m, merge_local_user_manifests diverged target = Ok m ∧ lu_base m = target ∧
     NoDup (we_id <$> lu_workspaces m) ∧
     StronglySorted (λ x y, name_leb x y = true) (lu_workspaces m) ∧
     (∀ id, id ∈ we_id <$> lu_workspaces m ↔
        id ∈ we_id <$> lu_workspaces diverged ∨ id ∈ we_id <$> um_workspaces target) ∧
     (∀ d, d ∈ lu_workspaces diverged → we_id d ∉ we_id <$> um_workspaces target →
        d ∈ lu_workspaces m) ∧
     (∀ t, t ∈ um_workspaces target → we_id t ∉ we_id <$> lu_workspaces diverged →
        t ∈ lu_workspaces m) ∧
     (∀ d t, d ∈ lu_workspaces diverged → t ∈ um_workspaces target → we_id d = we_id t →
        ∃ e, e ∈ lu_workspaces m ∧ (d = t → e = d) ∧
          merged_as (find_entry (um_workspaces (lu_base diverged)) (we_id t)) d t e) ∧
     lu_updated m = (if lu_need_sync m then Z.max (lu_updated diverged) (um_updated target)
                     else um_updated target) ∧
     lu_last_processed_message m
       = Z.max (lu_last_processed_message diverged) (um_last_processed_message target) ∧
     (lu_need_sync m = true ↔
        (∃ id, id ∈ we_id <$> lu_workspaces diverged ∧ id ∉ we_id <$> um_workspaces target) ∨
        um_last_processed_message target < lu_last_processed_message diverged)) ∧
  (¬ kept → merge_local_user_manifests diverged target = Err AssertionError).
Proof.
  intros kept. unfold merge_local_user_manifests.
  rewrite (bool_decide_eq_true_2 _ Hid). apply Z.ltb_lt in Hver as ->.
  assert ((lu_base_version diverged =? 0)
    || (um_created (lu_base diverged) =? um_created target) = true) as ->.
  { apply orb_true_iff. rewrite !Z.eqb_eq. done. }
  cbn [py_assert mbind result_bind].
  split; [|intros Hkept; by rewrite merge_workspace_entries_err]. intros Hkept.
  destruct (merge_workspace_entries_ok (um_workspaces (lu_base diverged)) (lu_workspaces diverged)
    (um_workspaces target)) as (ws & need_sync & -> & Hnd & Hsorted & Hm & Hns); [done..|].
  cbn. eexists. split; [done|]. cbn. split_and!; [done|done|done| | | | | |done|].
  - intros id. rewrite <-!find_entry_is_Some. specialize (Hm id). unfold is_Some.
    destruct (find_entry (lu_workspaces diverged) id), (find_entry (um_workspaces target) id);
      cbn in Hm; [destruct Hm as (? & -> & _)|rewrite Hm..]; naive_solver.
  - intros d Hin Hout. specialize (Hm (we_id d)). apply find_entry_None in Hout.
    rewrite find_entry_elem, Hout in Hm by done. by apply find_entry_Some in Hm as [? _].
  - intros t Hin Hout. specialize (Hm (we_id t)). apply find_entry_None in Hout.
    rewrite Hout, find_entry_elem in Hm by done. by apply find_entry_Some in Hm as [? _].
  - intros d t Hdin Htin Heq. specialize (Hm (we_id t)).
    rewrite <-Heq, find_entry_elem in Hm by done. rewrite Heq, find_entry_elem in Hm by done.
    destruct Hm as (e & [He _]%find_entry_Some & Hmerge).
    assert (∀ b e', find_entry b (we_id d) = Some e' → we_id e' = we_id t) as Hb.
    { by intros b e' [_ ->]%find_entry_Some. }
    destruct (merge_workspace_entry_ok (find_entry (um_workspaces (lu_base diverged)) (we_id d)) d t)
      as (e' & He' & _ & _ & Has); [done|apply Hb|].
    rewrite Hmerge in He'. injection He' as <-. exists e.
    rewrite <-Heq. split_and!; [done| |done].
    intros ->. rewrite merge_workspace_entry_self in Hmerge by apply Hb. by injection Hmerge.
  - match goal with |- context [negb ?b] => destruct b end; cbn; [|done].
    destruct (Z.ltb_spec (lu_updated diverged) (um_updated target)); lia.
  - rewrite orb_true_iff, Hns, negb_true_iff, Z.eqb_neq.
    split; (intros [?|?]; [by left|right; lia]).
Qed.

(** ** Witnesses *)

Definition ex_bob : DeviceID := mkDeviceID "bob" "pc".
Definition ex_alice : DeviceID := mkDeviceID "alice" "pc".
Definition ex_base : odict EntryName EntryID := [("b"%string, 1%N); ("k"%string, 2%N)].
Definition ex_local : odict EntryName EntryID :=
  [("l"%string, 1%N); ("k"%string, 2%N); ("a.txt"%string, 3%N)].
Definition ex_remote : odict EntryName EntryID :=
  [("r"%string, 1%N); ("k"%string, 2%N); ("a.txt"%string, 4%N)].

Lemma elements_order (X : gset EntryID) : elements X ≡ₚ elements X.
Proof. done. Qed.

Lemma merge_children_witness :
  let merged := merge_folder_children elements ex_base ex_local ex_remote ex_bob in
  valid_children merged ∧ ("r (renamed by bob@pc)"%string, 1%N) ∈ merged.
Proof.
  assert (valid_children ex_base) as Hb by (split; apply (bool_decide_unpack _); exact I).
  assert (valid_children ex_local) as Hl by (split; apply (bool_decide_unpack _); exact I).
  assert (valid_children ex_remote) as Hr by (split; apply (bool_decide_unpack _); exact I).
  destruct (merge_children_correct elements ex_bob ex_base ex_local ex_remote elements_order Hb Hl Hr)
    as (Hv & _ & _ & _ & Hren & _).
  - repeat constructor.
  - repeat constructor.
  - split; [exact Hv|]. apply (Hren "b"%string "l"%string "r"%string 1%N).
    + by left.
    + by left.
    + by left.
    + discriminate.
    + discriminate.
    + discriminate.
Defined.

Lemma merge_children_one_side_witness :
  merge_folder_children elements ex_base ex_base ex_remote ex_bob ≡ₚ ex_remote.
Proof.
  apply (merge_children_one_side elements ex_bob ex_base ex_base ex_remote elements_order).
  - split; apply (bool_decide_unpack _); exact I.
  - split; apply (bool_decide_unpack _); exact I.
  - split; apply (bool_decide_unpack _); exact I.
  - reflexivity.
Defined.

Lemma get_conflict_filename_witness :
  ∃ k, get_conflict_filename 2 "a.txt" ["a.txt"; "a (conflicting with bob@pc).txt"] ex_bob
       = Some (conflict_name "a.txt" ex_bob k) ∧ (k <= 2)%nat.
Proof.
  destruct (get_conflict_filename_correct 2 "a.txt"
    ["a.txt"; "a (conflicting with bob@pc).txt"]%string ex_bob) as (k & H & _ & _ & Hk).
  - cbn. lia.
  - exists k. split; [exact H|exact Hk].
Defined.

Definition ex_folder : LocalFolderish :=
  {| fd_base := BFolder (mkFolderManifest ex_alice 1 7 1 1 0 0 {[ "k"%string := 2%N ]});
     fd_need_sync := true; fd_updated := 5;
     fd_children := <[ "a"%string := 3%N ]> {[ "k"%string := 2%N ]};
     fd_confined_entries := ∅; fd_filtered_entries := ∅ |}.
Definition ex_remote_folder : FolderManifest :=
  mkFolderManifest ex_bob 4 7 1 2 0 3 (<[ "b"%string := 4%N ]> {[ "k"%string := 2%N ]}).

Lemma merge_manifests_witness :
  ∃ f, merge_manifests (λ _, false) 6 elements map_to_list ex_alice (LFolderish ex_folder)
         (Some (RFolder ex_remote_folder)) false = Ok (LFolderish f) ∧
    fd_children f !! "a"%string = Some 3%N ∧ fd_children f !! "b"%string = Some 4%N.
Proof.
  destruct (merge_manifests_correct (λ _, false) 6 elements map_to_list ex_alice
    (LFolderish ex_folder) (RFolder ex_remote_folder)) as [_ Hnew].
  - split_and!; [reflexivity|reflexivity|done].
  - intros n Hn. reflexivity.
  - destruct Hnew as (_ & _ & _ & Hchanged); [reflexivity|].
    destruct Hchanged as [_ Hother]; [reflexivity|reflexivity|].
    destruct Hother as (f & b & E & Hb & _ & Hc); [discriminate|].
    exists f. split; [exact E|]. injection Hb as <-. rewrite Hc.
    split; vm_compute; reflexivity.
Defined.

Definition ex_entry (name : string) (id : EntryID) (revision : Z) : WorkspaceEntry :=
  mkWorkspaceEntry name id [] revision 0 0 (Some OWNER).
Definition ex_user : LocalUserManifest :=
  {| lu_base := mkUserManifest ex_alice 1 9 1 0 0 0 [ex_entry "w" 1 1];
     lu_need_sync := true; lu_updated := 3; lu_last_processed_message := 2;
     lu_workspaces := [ex_entry "w" 1 2; ex_entry "v" 2 1] |}.
Definition ex_target : UserManifest :=
  mkUserManifest ex_bob 2 9 2 0 2 0 [ex_entry "x" 1 1].

Lemma merge_user_manifests_witness :
  ∃ m, merge_local_user_manifests ex_user ex_target = Ok m ∧ lu_base m = ex_target ∧
    ex_entry "v" 2 1 ∈ lu_workspaces m ∧ lu_last_processed_message m = 2.
Proof.
  destruct (merge_user_manifests_correct ex_user ex_target) as [Hok _].
  - apply (bool_decide_unpack _). exact I.
  - apply (bool_decide_unpack _). exact I.
  - reflexivity.
  - reflexivity.
  - right. reflexivity.
  - destruct Hok as (m & E & Hb & _ & _ & _ & Hd & _ & _ & _ & Hl & _).
    + apply (bool_decide_unpack _). vm_compute. exact I.
    + exists m. split; [exact E|]. split; [exact Hb|]. split; [|exact Hl].
      apply Hd; [right; left|]. apply (bool_decide_unpack _). vm_compute. exact I.
Defined.
