(* ===== verification/EntryTransactions.v ===== *)
(** Paths and the transactions on the entries of a workspace:
    [FsPath] of [guardata/client/types/base.py] and
    [guardata/client/fs/workspacefs/entry_transactions.py]. A transaction holds
    the locks of the manifests it changes from end to end, and is one function. *)

From S2P Require Import Prelude PyString Types ApiManifest Chunk LocalManifest FileOperations.
From S2P Require Import FileContent Storage FileTransactions Merging.

(** ** [FsPath] *)

(** A path is its parts. *)
Abbreviation FsPath := (list EntryName) (only parsing).

(** [EntryName(raw)]: the string is in its normal form already. *)
Definition entry_name (raw : string) : result FSExn EntryName :=
  let length := String.length raw in
  if negb ((0 <? length)%nat && (length <? 256)%nat) || bool_decide (raw = ".") ||
     bool_decide (raw = "..") || str_has chr_slash raw || str_has chr_null raw
  then Err ValueError else Ok raw.

(** The loop of [FsPath.__init__] over [raw.split("/")]. *)
Definition path_part (parts : FsPath) (raw_part : string) : result FSExn FsPath :=
  if bool_decide (raw_part = "." ∨ raw_part = "")%string then Ok parts
  else if bool_decide (raw_part = "..")%string then Ok (removelast parts)
  else name ← entry_name raw_part; Ok (parts ++ [name]).
Fixpoint path_loop (parts : FsPath) (raw_parts : list string) : result FSExn FsPath :=
  match raw_parts with
  | [] => Ok parts
  | raw_part :: raw_parts => parts ← path_part parts raw_part; path_loop parts raw_parts
  end.
(** [FsPath(raw)] for a string. *)
Definition fs_path (raw : string) : result FSExn FsPath :=
  match strip_prefix "/" raw with
  | None => Err ValueError
  | Some _ => path_loop [] (split_on chr_slash raw)
  end.
(** [str(path)] *)
Definition path_str (path : FsPath) : string := ("/" +:+ str_join "/" path)%string.
(** [path.parent], [path.is_root()] and [path.name], an [IndexError] for the root. *)
Definition path_parent (path : FsPath) : FsPath := removelast path.
Definition path_is_root (path : FsPath) : bool := bool_decide (path = []).
Definition path_name (path : FsPath) : result FSExn EntryName :=
  match last path with Some n => Ok n | None => Err IndexError end.
(** [path / entry] *)
Definition path_div (path : FsPath) (entry : EntryName) : FsPath := path ++ [entry].

(** ** [EntryTransactions] *)

Definition WRITE_RIGHT_ROLES : list RealmRole := [OWNER; MANAGER; CONTRIBUTOR].

Definition is_file_manifest (m : LocalManifest) : bool :=
  match m with LFile _ => true | _ => false end.
Definition is_folder_manifest (m : LocalManifest) : bool :=
  match m with
  | LFolderish m => match fd_base m with BFolder _ => true | BWorkspace _ => false end
  | _ => false
  end.

Section entry_transactions.
(** The workspace, the role of the user in it, the device, the filter of the
    user, the time, the random ids and [RemoteLoader.load_manifest]. *)
Context (workspace_id : EntryID) (role : option RealmRole) (local_author : DeviceID)
  (pattern_match : EntryName → bool) (now : DateTime) (fresh : nat → EntryID)
  (load_remote : EntryID → result FSExn RemoteManifest).

(** [check_read_rights] and [check_write_rights] *)
Definition check_read_rights : ftM unit :=
  raise_if (bool_decide (role = None)) FSNoAccessError.
Definition check_write_rights : ftM unit :=
  _ ← check_read_rights;
  raise_if (negb (role_in role WRITE_RIGHT_ROLES)) FSReadOnlyError.

(** [_get_manifest]: what is downloaded is not stored. *)
Definition entry_get_manifest (entry_id : EntryID) : ftM LocalManifest :=
  try_catch (on_storage (get_manifest entry_id)) (λ e,
    match e with
    | FSLocalMissError id =>
        remote_manifest ← lift_result (load_remote id);
        lift_result (lm_from_remote pattern_match now remote_manifest None)
    | e => mthrow e
    end).

(** [_load_and_lock_manifest] and [_load_manifest] *)
Definition load_manifest (entry_id : EntryID) : ftM LocalManifest :=
  try_catch (on_storage (get_manifest entry_id)) (λ e,
    match e with
    | FSLocalMissError id =>
        remote_manifest ← lift_result (load_remote id);
        local_manifest ← lift_result (lm_from_remote pattern_match now remote_manifest None);
        _ ← on_storage (set_manifest entry_id local_manifest false ∅);
        mret local_manifest
    | e => mthrow e
    end).

(** [_entry_id_from_path]; a user manifest has no [children]. *)
Fixpoint follow_path (path : FsPath) (entry_id : EntryID) (confined : bool)
    : ftM (EntryID * bool) :=
  match path with
  | [] => mret (entry_id, confined)
  | name :: path =>
      manifest ← load_manifest entry_id;
      match manifest with
      | LFile _ => mthrow FSNotADirectoryError
      | LUser _ => mthrow FSFileNotFoundError
      | LFolderish manifest =>
          entry_id ← of_option FSFileNotFoundError (fd_children manifest !! name);
          follow_path path entry_id
            (confined || bool_decide (entry_id ∈ fd_confined_entries manifest))
      end
  end.
Definition entry_id_from_path (path : FsPath) : ftM (EntryID * bool) :=
  follow_path path workspace_id false.

(** [_lock_manifest_from_path] and [_get_manifest_from_path] *)
Definition lock_manifest_from_path (path : FsPath) : ftM LocalManifest :=
  '(entry_id, _) ← entry_id_from_path path;
  load_manifest entry_id.
Definition get_manifest_from_path (path : FsPath) : ftM (LocalManifest * bool) :=
  '(entry_id, confined) ← entry_id_from_path path;
  manifest ← load_manifest entry_id;
  mret (manifest, confined).

(** [_lock_parent_manifest_from_path]: [None] says that [fuel] attempts were not
    enough. *)
Fixpoint lock_parent_loop (fuel : nat) (path : FsPath)
    : ftM (option (LocalFolderish * option LocalManifest)) :=
  match fuel with
  | O => mret None
  | S fuel =>
      parent ← lock_manifest_from_path (path_parent path);
      match parent with
      | LFile _ => mthrow FSNotADirectoryError
      | LUser _ => mthrow AttributeError
      | LFolderish parent =>
          name ← lift_result (path_name path);
          match fd_children parent !! name with
          | None => mret (Some (parent, None))
          | Some entry_id =>
              child ← try_catch
                (manifest ← on_storage (get_manifest entry_id); mret (Some manifest))
                (λ e, match e with
                      | FSLocalMissError _ => mret None
                      | e => mthrow e
                      end);
              match child with
              | Some manifest => mret (Some (parent, Some manifest))
              | None =>
                  _ ← load_manifest entry_id;
                  lock_parent_loop fuel path
              end
          end
      end
  end.
(** The second attempt finds the child that the first one downloaded. *)
Definition PARENT_ATTEMPTS : nat := 2.
Definition lock_parent_manifest_from_path (path : FsPath)
    : ftM (LocalFolderish * option LocalManifest) :=
  _ ← raise_if (path_is_root path) FSPermissionError;
  r ← lock_parent_loop PARENT_ATTEMPTS path;
  of_option AssertionError r.

(** [to_stats]: the dates apart; a key that is not there is [None]. *)
Inductive EntryType := FILE | FOLDER.
#[export] Instance EntryType_eq_dec : EqDecision EntryType.
Proof. solve_decision. Defined.
Definition str_le (x y : string) : Prop := String.leb x y = true.
#[export] Instance str_le_dec : RelDecision str_le.
Proof. intros x y. unfold str_le. apply _. Defined.
Record EntryStats := mkEntryStats {
  es_id : EntryID; es_base_version : Z; es_is_placeholder : bool; es_need_sync : bool;
  es_type : option EntryType; es_children : option (list EntryName); es_size : option Z;
  es_confined : bool }.
Definition to_stats (manifest : LocalManifest) (confined : bool) : EntryStats :=
  {| es_id := lm_id manifest; es_base_version := lm_base_version manifest;
     es_is_placeholder := lm_is_placeholder manifest;
     es_need_sync := lm_need_sync manifest;
     es_type := match manifest with
                | LFile _ => Some FILE
                | LFolderish _ => Some FOLDER
                | LUser _ => None
                end;
     es_children := match manifest with
                    | LFolderish m => Some (merge_sort str_le (map_to_list (fd_children m)).*1)
                    | _ => None
                    end;
     es_size := match manifest with LFile m => Some (lf_size m) | _ => None end;
     es_confined := confined |}.
(** [entry_info] *)
Definition entry_info (path : FsPath) : ftM EntryStats :=
  _ ← check_read_rights;
  '(manifest, confined) ← get_manifest_from_path path;
  mret (to_stats manifest confined).

(** [self.local_storage.set_manifest(parent.id, parent.evolve_children_...(data))] *)
Definition update_parent (parent : LocalFolderish) (data : list (EntryName * option EntryID))
    : ftM unit :=
  new_parent ← lift_result (evolve_children_and_mark_updated pattern_match now parent data);
  on_storage (set_manifest (fd_id parent) (LFolderish new_parent) false ∅).

(** The checks of "Overwrite logic". *)
Definition check_overwrite (source_manifest child : LocalManifest) : result FSExn unit :=
  if is_file_manifest source_manifest && is_folder_manifest child then Err FSIsADirectoryError
  else if is_folder_manifest source_manifest then
    if is_file_manifest child then Err FSNotADirectoryError
    else match child with
         | LFolderish child =>
             if bool_decide (fd_children child ≠ ∅) then Err FSDirectoryNotEmptyError else Ok tt
         | _ => Err AttributeError
         end
  else Ok tt.

(** [entry_rename] *)
Definition entry_rename (source destination : FsPath) (overwrite : bool) : ftM (option EntryID) :=
  _ ← check_write_rights;
  _ ← raise_if (path_is_root source) FSPermissionError;
  _ ← raise_if (path_is_root destination) FSPermissionError;
  _ ← raise_if (bool_decide (path_parent source ≠ path_parent destination)) FSCrossDeviceError;
  _ ← (if overwrite then _ ← get_manifest_from_path source; mret tt else mret tt);
  '(parent, child) ← lock_parent_manifest_from_path destination;
  source_name ← lift_result (path_name source);
  destination_name ← lift_result (path_name destination);
  source_entry_id ← of_option FSFileNotFoundError (fd_children parent !! source_name);
  if bool_decide (source_name = destination_name) then mret None
  else
    _ ← raise_if (negb overwrite && bool_decide (is_Some child)) FSFileExistsError;
    _ ← (match child with
         | Some child =>
             if overwrite then
               source_manifest ← entry_get_manifest source_entry_id;
               lift_result (check_overwrite source_manifest child)
             else mret tt
         | None => mret tt
         end);
    _ ← update_parent parent [(destination_name, Some source_entry_id); (source_name, None)];
    _ ← send_event (fd_id parent);
    mret (Some source_entry_id).

(** [folder_delete] and [file_delete] *)
Definition folder_delete (path : FsPath) : ftM EntryID :=
  _ ← check_write_rights;
  '(parent, child) ← lock_parent_manifest_from_path path;
  child ← of_option FSFileNotFoundError child;
  match child with
  | LFile _ => mthrow FSNotADirectoryError
  | LUser _ => mthrow AttributeError
  | LFolderish folder =>
      _ ← raise_if (bool_decide (fd_children folder ≠ ∅)) FSDirectoryNotEmptyError;
      name ← lift_result (path_name path);
      _ ← update_parent parent [(name, None)];
      _ ← send_event (fd_id parent);
      mret (lm_id child)
  end.
Definition file_delete (path : FsPath) : ftM EntryID :=
  _ ← check_write_rights;
  '(parent, child) ← lock_parent_manifest_from_path path;
  child ← of_option FSFileNotFoundError child;
  _ ← raise_if (negb (is_file_manifest child)) FSIsADirectoryError;
  name ← lift_result (path_name path);
  _ ← update_parent parent [(name, None)];
  _ ← send_event (fd_id parent);
  mret (lm_id child).

(** What [folder_create] and [file_create] share: the child is registered in its
    parent and both manifests are stored. *)
Definition create_entry (path : FsPath) (new_child : EntryID → EntryID → LocalManifest)
    : ftM LocalManifest :=
  _ ← check_write_rights;
  '(parent, child) ← lock_parent_manifest_from_path path;
  _ ← raise_if (bool_decide (is_Some child)) FSFileExistsError;
  drawn ← gets ft_drawn;
  _ ← modify (draw 1);
  let child := new_child (fd_id parent) (fresh drawn) in
  name ← lift_result (path_name path);
  new_parent ← lift_result
    (evolve_children_and_mark_updated pattern_match now parent [(name, Some (lm_id child))]);
  _ ← on_storage (set_manifest (lm_id child) child false ∅);
  _ ← on_storage (set_manifest (fd_id parent) (LFolderish new_parent) false ∅);
  _ ← send_event (fd_id parent);
  mret child.
Definition folder_create (path : FsPath) : ftM EntryID :=
  child ← create_entry path
    (λ parent id, LFolderish (folder_new_placeholder local_author parent id now));
  _ ← send_event (lm_id child);
  mret (lm_id child).
(** [file_create]: the descriptor is created before the events are sent, which
    nothing else sees. *)
Definition file_create (path : FsPath) (open : bool) : ftM (EntryID * option Z) :=
  child ← create_entry path
    (λ parent id, LFile (file_new_placeholder local_author parent id now DEFAULT_BLOCK_SIZE));
  fd ← (if open then Some <$> on_storage (create_file_descriptor child) else mret None);
  _ ← send_event (lm_id child);
  mret (lm_id child, fd).

(** [file_open] and [file_resize] *)
Definition file_open (path : FsPath) (write_mode : bool) : ftM (EntryID * Z) :=
  _ ← (if write_mode then check_write_rights else check_read_rights);
  manifest ← lock_manifest_from_path path;
  _ ← raise_if (negb (is_file_manifest manifest)) FSIsADirectoryError;
  fd ← on_storage (create_file_descriptor manifest);
  mret (lm_id manifest, fd).
Definition file_resize (path : FsPath) (length : Z) : ftM EntryID :=
  _ ← check_write_rights;
  manifest ← lock_manifest_from_path path;
  match manifest with
  | LFile manifest =>
      _ ← manifest_resize now fresh manifest length false;
      mret (lf_id manifest)
  | _ => mthrow FSIsADirectoryError
  end.
End entry_transactions.
