(* ===== verification/EntryProperties.v ===== *)
(** The transactions on entries act on the tree of the manifests that the local
    storage holds: what is found by a path, what an operation changes in it, and
    which error it raises. *)

From S2P Require Import Prelude PyString Types ApiManifest Chunk LocalManifest FileOperations.
From S2P Require Import FileContent Storage FileTransactions FileRefinement Merging EntryTransactions.

(** ** Paths *)

Definition valid_name (n : EntryName) : Prop := entry_name n = Ok n.

Lemma valid_name_inv n :
  valid_name n → str_has chr_slash n = false ∧ n ≠ "."%string ∧ n ≠ ""%string ∧ n ≠ ".."%string.
Proof.
  unfold valid_name, entry_name. intros H.
  destruct (_ || _) eqn:E in H; [done|].
  rewrite !orb_false_iff, negb_false_iff, andb_true_iff, Nat.ltb_lt in E.
  destruct E as ((((Hl & H1) & H2) & H3) & _).
  rewrite bool_decide_eq_false in H1, H2. split_and!; try done.
  intros ->. cbn in Hl. lia.
Qed.

Lemma path_loop_valid acc path : Forall valid_name path → path_loop acc path = Ok (acc ++ path).
Proof.
  intros Hp. revert acc. induction Hp as [|n path Hn _ IH]; intros acc; cbn.
  { by rewrite app_nil_r. }
  destruct (valid_name_inv n Hn) as (_ & H1 & H2 & H3).
  unfold path_part. rewrite bool_decide_eq_false_2 by naive_solver.
  rewrite bool_decide_eq_false_2 by done. rewrite Hn. cbn. rewrite IH. by rewrite <-app_assoc.
Qed.

Lemma path_loop_Forall l acc path :
  Forall valid_name acc → path_loop acc l = Ok path → Forall valid_name path.
Proof.
  revert acc. induction l as [|w l IH]; intros acc Hacc; cbn; [by intros [= <-]|].
  unfold path_part. case_bool_decide; [by apply IH|]. case_bool_decide.
  - cbn. apply IH. destruct acc as [|x acc _] using rev_ind; [done|].
    rewrite removelast_last. by apply Forall_app in Hacc as [Hacc _].
  - destruct (entry_name w) as [n|] eqn:E; cbn; [|done]. apply IH.
    apply Forall_app. split; [done|]. apply Forall_singleton.
    assert (n = w) as -> by (unfold entry_name in E; destruct (_ || _) in E; congruence). done.
Qed.

(** A path survives its writing: the string of a path whose names are valid
    is parsed into the same path. A path that is parsed was written with a leading
    slash, and its names are valid: what is parsed can be written and parsed again. *)
Theorem fs_path_roundtrip :
  (∀ path, Forall valid_name path → fs_path (path_str path) = Ok path) ∧
  (∀ raw path, fs_path raw = Ok path →
     Forall valid_name path ∧ (∃ rest, raw = ("/" +:+ rest)%string) ∧
     fs_path (path_str path) = Ok path).
Proof.
  assert (∀ path, Forall valid_name path → fs_path (path_str path) = Ok path) as Hto.
  { intros path Hp. unfold fs_path, path_str. rewrite strip_prefix_app.
    change ("/" +:+ str_join "/" path)%string
      with ("" +:+ String chr_slash (str_join (String chr_slash "") path))%string.
    rewrite split_on_app by done. destruct path as [|n path]; [done|].
    rewrite split_join; [|done|].
    - change (path_loop [] (n :: path) = Ok (n :: path)). by apply (path_loop_valid []).
    - eapply Forall_impl; [exact Hp|]. by intros ? []%valid_name_inv. }
  split; [done|]. intros raw path H. unfold fs_path in H.
  destruct (strip_prefix "/" raw) as [r|] eqn:E; [|done].
  apply path_loop_Forall in H; [|constructor]. split_and!; [done| |by apply Hto].
  exists r. by apply strip_prefix_Some.
Qed.

Lemma fs_path_witness :
  fs_path (path_str ["a"; "b.txt"]) = Ok ["a"; "b.txt"]%string.
Proof.
  apply (proj1 fs_path_roundtrip ["a"; "b.txt"]%string). repeat constructor.
Defined.

(** ** The tree of the local manifests *)

(** The entry a path leads to from [id], when all the folders on the way are
    there. *)
Fixpoint resolves (view : EntryID → option LocalManifest) (path : FsPath) (id : EntryID)
    : option EntryID :=
  match path with
  | [] => Some id
  | name :: path =>
      match view id with
      | Some (LFolderish m) => fd_children m !! name ≫= resolves view path
      | _ => None
      end
  end.

(** The manifests of a state. *)
Definition tree (s : FTState) : EntryID → option LocalManifest := current (ft_storage s).

Lemma resolves_ext view view' path id :
  (∀ e, view' e = view e) → resolves view' path id = resolves view path id.
Proof.
  intros Hv. revert id. induction path as [|n path IH]; intros id; cbn; [done|].
  rewrite Hv. destruct (view id) as [[|m|]|]; try done.
  destruct (fd_children m !! n); cbn; [apply IH|done].
Qed.

(** A path that leads somewhere does so when folders get more children. *)
Lemma resolves_mono view view' path id id' :
  (∀ e m, view e = Some (LFolderish m) →
     ∃ m', view' e = Some (LFolderish m') ∧ fd_children m ⊆ fd_children m') →
  resolves view path id = Some id' → resolves view' path id = Some id'.
Proof.
  intros Hv. revert id. induction path as [|n path IH]; intros id; cbn; [done|].
  destruct (view id) as [[|m|]|] eqn:E; try done.
  destruct (Hv _ _ E) as (m' & -> & Hsub).
  destruct (fd_children m !! n) as [c|] eqn:Hc; [|done]. cbn.
  rewrite (lookup_weaken _ _ _ _ Hc Hsub). apply IH.
Qed.

Lemma resolves_app view p q id :
  resolves view (p ++ q) id = resolves view p id ≫= resolves view q.
Proof.
  revert id. induction p as [|n p IH]; intros id; cbn; [done|].
  destruct (view id) as [[|m|]|]; try done.
  destruct (fd_children m !! n); cbn; [apply IH|done].
Qed.

Section transactions.
Context (workspace_id : EntryID) (pattern_match : EntryName → bool) (now : DateTime)
  (load_remote : EntryID → result FSExn RemoteManifest).

#[local] Abbreviation load := (load_manifest pattern_match now load_remote).
#[local] Abbreviation lock := (lock_manifest_from_path workspace_id pattern_match now load_remote).
#[local] Abbreviation lock_parent :=
  (lock_parent_manifest_from_path workspace_id pattern_match now load_remote).

Lemma on_storage_get_ok s e m :
  tree s e = Some m → ∃ s', on_storage (get_manifest e) s = (s', Ok m) ∧ ft_quiet s s'.
Proof.
  intros (st & E & Hq)%get_manifest_ok. unfold on_storage. rewrite E.
  eexists. split; [done|]. by split.
Qed.

Lemma load_ok s e m :
  tree s e = Some m → ∃ s', load e s = (s', Ok m) ∧ ft_quiet s s'.
Proof.
  intros (s' & E & Hq)%on_storage_get_ok. exists s'. split; [|done].
  unfold load_manifest, try_catch. by rewrite E.
Qed.

Lemma tree_quiet s s' e : ft_quiet s s' → tree s' e = tree s e.
Proof. intros [Hq _ _ _]. apply Hq. Qed.

Lemma follow_ok s path id c id' :
  resolves (tree s) path id = Some id' →
  ∃ s' c', follow_path pattern_match now load_remote path id c s = (s', Ok (id', c')) ∧
    ft_quiet s s'.
Proof.
  revert s id c. induction path as [|n path IH]; intros s id c; cbn.
  { intros [= ->]. by exists s, c. }
  destruct (tree s id) as [[|m|]|] eqn:E; try done.
  destruct (fd_children m !! n) as [i|] eqn:Hi; [|done]. cbn. intros Hr.
  destruct (load_ok s id _ E) as (s1 & Hl & Hq).
  destruct (IH s1 i (c || bool_decide (i ∈ fd_confined_entries m))) as (s2 & c2 & E2 & Hq2).
  { erewrite resolves_ext; [exact Hr|]. intros e. by apply tree_quiet. }
  exists s2, c2. split; [|by etrans].
  unfold mbind, stM_bind in *. rewrite Hl. unfold of_option. rewrite Hi. exact E2.
Qed.

Lemma lock_ok s path id m :
  resolves (tree s) path workspace_id = Some id → tree s id = Some m →
  ∃ s', lock path s = (s', Ok m) ∧ ft_quiet s s'.
Proof.
  intros Hr Hm. destruct (follow_ok s path workspace_id false id Hr) as (s1 & c & E1 & Hq1).
  destruct (load_ok s1 id m) as (s2 & E2 & Hq2); [by rewrite (tree_quiet s)|].
  exists s2. split; [|by etrans].
  unfold lock_manifest_from_path, entry_id_from_path, mbind, stM_bind. by rewrite E1, E2.
Qed.

Lemma get_manifest_from_path_ok s path id m :
  resolves (tree s) path workspace_id = Some id → tree s id = Some m →
  ∃ s' c, get_manifest_from_path workspace_id pattern_match now load_remote path s
            = (s', Ok (m, c)) ∧ ft_quiet s s'.
Proof.
  intros Hr Hm. destruct (follow_ok s path workspace_id false id Hr) as (s1 & c & E1 & Hq1).
  destruct (load_ok s1 id m) as (s2 & E2 & Hq2); [by rewrite (tree_quiet s)|].
  exists s2, c. split; [|by etrans].
  unfold get_manifest_from_path, entry_id_from_path, mbind, stM_bind. by rewrite E1, E2.
Qed.

(** Locking a parent and its child, when both are there. *)
Lemma lock_parent_ok s path name pid parent child :
  resolves (tree s) path workspace_id = Some pid → tree s pid = Some (LFolderish parent) →
  match fd_children parent !! name with
  | None => child = None
  | Some id => ∃ m, tree s id = Some m ∧ child = Some m
  end →
  ∃ s', lock_parent (path ++ [name]) s = (s', Ok (parent, child)) ∧ ft_quiet s s'.
Proof.
  intros Hr Hp Hc. destruct (lock_ok s path pid _ Hr Hp) as (s1 & E1 & Hq1).
  assert (path_is_root (path ++ [name]) = false) as Hroot.
  { apply bool_decide_eq_false_2. by destruct path. }
  assert (path_parent (path ++ [name]) = path) as Hpp by apply removelast_last.
  assert (path_name (path ++ [name]) = Ok name) as Hn by (unfold path_name; by rewrite last_snoc).
  unfold lock_parent_manifest_from_path, mbind, stM_bind, raise_if. rewrite Hroot.
  unfold PARENT_ATTEMPTS. cbn [lock_parent_loop]. rewrite Hpp.
  unfold mbind, stM_bind, lift_result. rewrite E1, Hn.
  destruct (fd_children parent !! name) as [id|] eqn:Hid.
  - destruct Hc as (m & Hm & ->).
    destruct (on_storage_get_ok s1 id m) as (s2 & E2 & Hq2); [by rewrite (tree_quiet s)|].
    unfold try_catch, mbind, stM_bind. rewrite E2. exists s2. split; [done|by etrans].
  - subst child. by exists s1.
Qed.

End transactions.

(** Storing a manifest changes this entry only. *)
Lemma set_manifest_current s e m removed :
  ∃ s', on_storage (set_manifest e m false removed) s = (s', Ok tt) ∧
    (∀ e', tree s' e' = if decide (e' = e) then Some m else tree s e') ∧
    ft_drawn s' = ft_drawn s ∧ ft_events s' = ft_events s ∧
    st_open_fds (ft_storage s') = st_open_fds (ft_storage s) ∧
    (∀ e', pending (ft_storage s') e' ⊆ pending (ft_storage s) e') ∧
    (∀ id, id ∉ removed → id ∉ pending (ft_storage s) e →
       view (ft_storage s') id = view (ft_storage s) id).
Proof.
  eexists. split.
  { unfold on_storage, set_manifest, mbind, stM_bind, modify. cbn [negb].
    unfold ensure_persistent. cbn. rewrite !lookup_insert_eq. cbn. reflexivity. }
  split_and!; try done.
  - intros e'. unfold tree, current. cbn.
    case_decide as He; [subst; by rewrite lookup_insert_eq|].
    by rewrite !lookup_insert_ne by done.
  - intros e'. unfold pending. cbn. destruct (decide (e' = e)) as [->|].
    + rewrite lookup_delete_eq. set_solver.
    + by rewrite lookup_delete_ne, lookup_insert_ne by done.
  - intros id Hr Hp. unfold view, pending in *. cbn.
    assert (filter (λ c : ChunkID * bytes, c.1 ∉ default ∅ (st_ahead (ft_storage s) !! e) ∪ removed)
      (st_chunks (ft_storage s)) !! id = st_chunks (ft_storage s) !! id) as ->; [|done].
    apply option_eq. intros data. rewrite map_lookup_filter_Some. set_solver.
Qed.

(** It is in the database, and nothing waits for it. *)
Lemma set_manifest_saved e m removed s s' :
  on_storage (set_manifest e m false removed) s = (s', Ok tt) →
  st_ahead (ft_storage s') !! e = None ∧ vr_blob <$> st_vlobs (ft_storage s') !! e = Some m ∧
  (∀ e', e' ≠ e → st_ahead (ft_storage s') !! e' = st_ahead (ft_storage s) !! e' ∧
     st_vlobs (ft_storage s') !! e' = st_vlobs (ft_storage s) !! e').
Proof.
  unfold on_storage, set_manifest, mbind, stM_bind, modify. cbn [negb]. unfold ensure_persistent. cbn.
  rewrite !lookup_insert_eq. cbn. intros [= <-]. cbn. split_and!.
  - apply lookup_delete_eq.
  - by rewrite lookup_insert_eq.
  - intros e' He. by rewrite lookup_delete_ne, !lookup_insert_ne by done.
Qed.

(** ** [evolve_children_and_mark_updated] *)

Definition remove_names (c : gmap EntryName EntryID) (data : list (EntryName * option EntryID))
    : gmap EntryName EntryID :=
  foldl (λ c item, delete item.1 c) c data.
Definition add_names (c : gmap EntryName EntryID) (data : list (EntryName * option EntryID))
    : gmap EntryName EntryID :=
  foldl (λ c item, match item.2 with Some id => <[item.1 := id]> c | None => c end) c data.

Lemma fold_remove_children st data :
  (foldl evolve_remove st data).1.2 = remove_names st.1.2 data.
Proof.
  revert st. induction data as [|[n o] data IH]; intros [[u c] f]; cbn; [done|].
  rewrite IH. f_equal. destruct (c !! n) eqn:E; [by case_decide|]. cbn.
  by rewrite delete_id.
Qed.

Lemma fold_add_children pattern_match st data :
  (foldl (evolve_add pattern_match) st data).1.2 = add_names st.1.2 data.
Proof.
  revert st. induction data as [|[n o] data IH]; intros [[u c] f]; cbn; [done|].
  rewrite IH. f_equal. destruct o; cbn; [by destruct (pattern_match n)|done].
Qed.

Lemma evolve_children_ok pattern_match now m data :
  (∀ n id n', (n, Some id) ∈ data → remove_names (fd_children m) data !! n' ≠ Some id) →
  ∃ m', evolve_children_and_mark_updated pattern_match now m data = Ok m' ∧
    fd_children m' = add_names (remove_names (fd_children m) data) data ∧
    fd_base m' = fd_base m ∧ (fd_need_sync m = true → fd_need_sync m' = true).
Proof.
  intros Hd. unfold evolve_children_and_mark_updated. cbv zeta.
  rewrite fold_remove_children. cbn [fst snd].
  assert (values_disjoint data (remove_names (fd_children m) data) = true) as ->.
  { apply forallb_forall. intros [n o] Hin%list_elem_of_In. cbn. destruct o as [id|]; [|done].
    apply negb_true_iff, bool_decide_eq_false_2.
    intros ([n' id'] & -> & Hl%elem_of_map_to_list)%list_elem_of_fmap. by eapply Hd. }
  cbn [py_assert mbind result_bind].
  pose proof (fold_add_children pattern_match
    (foldl evolve_remove (false, fd_children m, fd_confined_entries m) data) data) as Hc.
  rewrite fold_remove_children in Hc. cbn [fst snd] in Hc.
  destruct (foldl (evolve_add pattern_match) _ data) as [[u c] f]. cbn in Hc. subst c.
  destruct u; cbn; eexists; (split; [reflexivity|]); by split_and!.
Qed.

(** A folder that gives one name to each entry. *)
Definition injective_children (m : LocalFolderish) : Prop :=
  ∀ n n' id, fd_children m !! n = Some id → fd_children m !! n' = Some id → n = n'.

Section operations.
Context (workspace_id : EntryID) (role : option RealmRole) (local_author : DeviceID)
  (pattern_match : EntryName → bool) (now : DateTime) (fresh : nat → EntryID)
  (load_remote : EntryID → result FSExn RemoteManifest).

(** The user may write, and the parent [path] is a local folder. *)
Record writable (s : FTState) (path : FsPath) (pid : EntryID) (parent : LocalFolderish) : Prop := {
  wr_role : role_in role WRITE_RIGHT_ROLES = true;
  wr_path : resolves (tree s) path workspace_id = Some pid;
  wr_parent : tree s pid = Some (LFolderish parent);
  wr_id : fd_id parent = pid;
  wr_injective : injective_children parent }.

Lemma check_write_rights_ok s :
  role_in role WRITE_RIGHT_ROLES = true → check_write_rights role s = (s, Ok tt).
Proof.
  intros Hr. unfold check_write_rights, check_read_rights, mbind, stM_bind, raise_if.
  rewrite Hr. by destruct role.
Qed.

(** The entry that a creation makes. *)
Definition created (s s' : FTState) (path : FsPath) (name : EntryName) (pid id : EntryID)
    (parent : LocalFolderish) (child : LocalManifest) : Prop :=
  tree s' id = Some child ∧
  (∃ parent', tree s' pid = Some (LFolderish parent') ∧
     fd_children parent' = <[name := id]> (fd_children parent) ∧
     fd_base parent' = fd_base parent ∧ injective_children parent') ∧
  (∀ e, e ≠ pid → e ≠ id → tree s' e = tree s e) ∧
  resolves (tree s') (path ++ [name]) workspace_id = Some id.

Lemma create_entry_ok s path name pid parent new_child :
  writable s path pid parent → fd_children parent !! name = None →
  let id := fresh (ft_drawn s) in
  (∀ n, fd_children parent !! n ≠ Some id) → tree s id = None → lm_id (new_child pid id) = id →
  ∃ s', create_entry workspace_id role pattern_match now fresh load_remote (path ++ [name])
          new_child s = (s', Ok (new_child pid id)) ∧
    created s s' path name pid id parent (new_child pid id) ∧
    ft_events s' = pid :: ft_events s ∧
    st_open_fds (ft_storage s') = st_open_fds (ft_storage s) ∧
    st_ahead (ft_storage s') !! id = None ∧
    vr_blob <$> st_vlobs (ft_storage s') !! id = Some (new_child pid id) ∧
    ft_drawn s' = S (ft_drawn s).
Proof.
  intros [Hrole Hpath Hparent Hpid Hinj] Hname id Hfresh Hid Hlm.
  assert (pid ≠ id) as Hne by congruence.
  destruct (lock_parent_ok workspace_id pattern_match now load_remote s path name pid parent None)
    as (s1 & E1 & Hq1); [done|done|by rewrite Hname|].
  assert (remove_names (fd_children parent) [(name, Some id)] = fd_children parent) as Hrm.
  { cbn. by rewrite delete_id. }
  destruct (evolve_children_ok pattern_match now parent [(name, Some id)])
    as (parent' & Eev & Hc & Hb & _).
  { intros n i n' [= -> ->]%list_elem_of_singleton. rewrite Hrm. apply Hfresh. }
  rewrite Hrm in Hc. cbn in Hc.
  set (s2 := draw 1 s1).
  destruct (set_manifest_current s2 id (new_child pid id) ∅) as (s3 & E3 & Ht3 & Hd3 & He3 & Hf3 & _ & _).
  destruct (set_manifest_current s3 pid (LFolderish parent') ∅)
    as (s4 & E4 & Ht4 & Hd4 & He4 & Hf4 & _ & _).
  destruct (set_manifest_saved _ _ _ _ _ E3) as (Hah3 & Hvl3 & _).
  destruct (set_manifest_saved _ _ _ _ _ E4) as (_ & _ & Hsv4).
  destruct (Hsv4 id ltac:(done)) as [Hah4 Hvl4].
  set (s5 := mkFTState (ft_storage s4) (ft_write_count s4) (ft_drawn s4) (pid :: ft_events s4)).
  assert (∀ e, tree s5 e = if decide (e = pid) then Some (LFolderish parent')
                           else if decide (e = id) then Some (new_child pid id) else tree s e) as Ht.
  { intros e. change (tree s5 e) with (tree s4 e). rewrite Ht4, Ht3.
    repeat case_decide; try done. apply (tree_quiet s s1 e Hq1). }
  exists s5. split.
  { unfold create_entry, mbind, stM_bind. rewrite check_write_rights_ok, E1 by done.
    unfold raise_if, gets, modify, lift_result. rewrite bool_decide_eq_false_2 by by intros [].
    assert (path_name (path ++ [name]) = Ok name) as -> by (unfold path_name; by rewrite last_snoc).
    rewrite (fq_drawn _ _ Hq1). fold id. rewrite Hpid, Hlm, Eev. fold s2. rewrite E3, E4.
    reflexivity. }
  split_and!; [split_and!| | | | |].
  - by rewrite Ht, decide_False, decide_True.
  - exists parent'. split_and!; [|done|done|].
    + by rewrite Ht, decide_True.
    + intros n n' i. rewrite Hc, !lookup_insert_Some. unfold injective_children in Hinj.
      naive_solver.
  - intros e ??. by rewrite Ht, !decide_False.
  - rewrite resolves_app, (resolves_mono (tree s) (tree s5) path workspace_id pid); [|clear Hpath|done].
    + cbn. rewrite Ht, decide_True by done. by rewrite Hc, lookup_insert_eq.
    + intros e m He. rewrite Ht. destruct (decide (e = pid)) as [->|].
      * exists parent'. split; [done|]. rewrite Hparent in He. injection He as <-.
        rewrite Hc. by apply insert_subseteq.
      * rewrite decide_False by (intros ->; congruence). by exists m.
  - unfold s5. cbn [ft_events]. rewrite He4, He3. cbn. by rewrite (fq_events _ _ Hq1).
  - unfold s5. cbn [ft_storage]. rewrite Hf4, Hf3. apply (q_fds _ _ (fq_storage _ _ Hq1)).
  - unfold s5. cbn [ft_storage]. by rewrite Hah4.
  - unfold s5. cbn [ft_storage]. by rewrite Hvl4.
  - unfold s5. cbn [ft_drawn]. rewrite Hd4, Hd3. cbn. rewrite (fq_drawn _ _ Hq1). lia.
Qed.

(** C28: creating a folder or a file. A user that may write gets a new entry: the
    path leads to it, its manifest is the one of an empty placeholder whose parent
    is the folder, the folder has this child more and still gives one name to each
    entry, no other entry changes, and a file is open when it is asked for. A name
    that is taken is refused, and nothing changes. *)
Theorem entry_create_correct s path name pid parent (open : bool)
    (Hw : writable s path pid parent)
    (Hfresh : ∀ n, fd_children parent !! n ≠ Some (fresh (ft_drawn s)))
    (Hnew : tree s (fresh (ft_drawn s)) = None) :
  let id := fresh (ft_drawn s) in
  let folder_create := folder_create workspace_id role local_author pattern_match now fresh load_remote in
  let file_create := file_create workspace_id role local_author pattern_match now fresh load_remote in
  (fd_children parent !! name = None →
     (∃ s', folder_create (path ++ [name]) s = (s', Ok id) ∧
        created s s' path name pid id parent
          (LFolderish (folder_new_placeholder local_author pid id now)) ∧
        ft_events s' = id :: pid :: ft_events s) ∧
     (∃ s' fd, file_create (path ++ [name]) open s = (s', Ok (id, fd)) ∧
        created s s' path name pid id parent
          (LFile (file_new_placeholder local_author pid id now DEFAULT_BLOCK_SIZE)) ∧
        match fd with
        | Some fd => open = true ∧
            st_open_fds (ft_storage s') = <[fd := id]> (st_open_fds (ft_storage s))
        | None => open = false ∧ st_open_fds (ft_storage s') = st_open_fds (ft_storage s)
        end)) ∧
  (∀ old m, fd_children parent !! name = Some old → tree s old = Some m →
     ∃ s', folder_create (path ++ [name]) s = (s', Err FSFileExistsError) ∧
       file_create (path ++ [name]) open s = (s', Err FSFileExistsError) ∧ ft_quiet s s').
Proof.
  intros id folder_create' file_create'. split.
  - intros Hname. split.
    + destruct (create_entry_ok s path name pid parent
        (λ parent id, LFolderish (folder_new_placeholder local_author parent id now)))
        as (s' & E & Hcr & Hev & _); [done..|].
      eexists. unfold folder_create', folder_create, mbind, stM_bind. rewrite E.
      split; [reflexivity|]. split; [done|]. cbn. by rewrite Hev.
    + destruct (create_entry_ok s path name pid parent
        (λ parent id, LFile (file_new_placeholder local_author parent id now DEFAULT_BLOCK_SIZE)))
        as (s' & E & Hcr & Hev & Hfds & _); [done..|].
      unfold file_create', file_create, mbind, stM_bind. rewrite E. destruct open.
      * eexists _, _. split; [reflexivity|]. split; [exact Hcr|]. cbn. by rewrite Hfds.
      * eexists _, _. split; [reflexivity|]. split; [exact Hcr|]. done.
  - intros old m Hold Hm. destruct Hw as [Hrole Hpath Hparent _ _].
    destruct (lock_parent_ok workspace_id pattern_match now load_remote s path name pid parent (Some m))
      as (s1 & E1 & Hq1); [done|done|rewrite Hold; eauto|].
    exists s1. split_and!; [| |done].
    + unfold folder_create', folder_create, create_entry, mbind, stM_bind.
      by rewrite check_write_rights_ok, E1.
    + unfold file_create', file_create, create_entry, mbind, stM_bind.
      by rewrite check_write_rights_ok, E1.
Qed.

(** The folder is not one of its own ancestors. *)
Definition not_ancestor (s : FTState) (path : FsPath) (pid : EntryID) : Prop :=
  ∀ p q, path = p ++ q → q ≠ [] → resolves (tree s) p workspace_id ≠ Some pid.

Lemma resolves_not_ancestor s s' path pid :
  not_ancestor s path pid → (∀ e, e ≠ pid → tree s' e = tree s e) →
  resolves (tree s) path workspace_id = Some pid → resolves (tree s') path workspace_id = Some pid.
Proof.
  unfold not_ancestor. intros Hna Ht. generalize workspace_id as root, Hna. clear Hna.
  induction path as [|n path IH]; intros root Hna; cbn; [done|].
  assert (root ≠ pid) as Hne.
  { intros ->. by apply (Hna [] (n :: path)). }
  rewrite Ht by done. destruct (tree s root) as [[|m|]|] eqn:E; try done.
  destruct (fd_children m !! n) as [i|] eqn:Hi; [|done]. cbn. apply IH.
  intros p q -> Hq. specialize (Hna (n :: p) q eq_refl Hq). cbn in Hna.
  by rewrite E, Hi in Hna.
Qed.

Lemma rename_children parent src dst sid :
  injective_children parent → src ≠ dst → fd_children parent !! src = Some sid →
  let data := [(dst, Some sid); (src, None)] in
  (∀ n id n', (n, Some id) ∈ data → remove_names (fd_children parent) data !! n' ≠ Some id) ∧
  add_names (remove_names (fd_children parent) data) data
    = <[dst := sid]> (delete src (fd_children parent)).
Proof.
  intros Hinj Hne Hsrc data. cbn. split.
  - intros n id n' Hin. unfold data in Hin. rewrite !elem_of_cons in Hin.
    destruct Hin as [[= -> ->]|[?|Hin]]; [|done|by apply elem_of_nil in Hin].
    intros [Hs [Hd Hl]%lookup_delete_Some]%lookup_delete_Some.
    apply Hs. by eapply Hinj.
  - rewrite delete_delete. by rewrite insert_delete_eq.
Qed.

(** What a rename knows before it checks anything about the child. *)
Lemma rename_prefix s path src dst pid parent sid sm overwrite :
  writable s path pid parent → fd_children parent !! src = Some sid → tree s sid = Some sm →
  (∀ id, fd_children parent !! dst = Some id → is_Some (tree s id)) →
  ∃ s', ft_quiet s s' ∧
    entry_rename workspace_id role pattern_match now load_remote (path ++ [src]) (path ++ [dst])
      overwrite s
    = (if bool_decide (src = dst) then mret None
       else
         _ ← raise_if (negb overwrite &&
               bool_decide (is_Some (fd_children parent !! dst ≫= tree s))) FSFileExistsError;
         _ ← (match fd_children parent !! dst ≫= tree s with
              | Some child =>
                  if overwrite then
                    source_manifest ← entry_get_manifest pattern_match now load_remote sid;
                    lift_result (check_overwrite source_manifest child)
                  else mret tt
              | None => mret tt
              end);
         _ ← update_parent pattern_match now parent [(dst, Some sid); (src, None)];
         _ ← send_event pid;
         mret (Some sid)) s'.
Proof.
  intros [Hrole Hpath Hparent Hpid Hinj] Hsrc Hsm Hdst.
  assert (∃ s1, (if overwrite then
      _ ← get_manifest_from_path workspace_id pattern_match now load_remote (path ++ [src]); mret tt
      else mret tt) s = (s1, Ok tt) ∧ ft_quiet s s1) as (s1 & E1 & Hq1).
  { destruct overwrite; [|by exists s].
    destruct (get_manifest_from_path_ok workspace_id pattern_match now load_remote s
      (path ++ [src]) sid sm) as (s1 & c & E & Hq); [|done|].
    - rewrite resolves_app, Hpath. cbn. by rewrite Hparent, Hsrc.
    - exists s1. unfold mbind, stM_bind. by rewrite E. }
  destruct (lock_parent_ok workspace_id pattern_match now load_remote s1 path dst pid parent
    (fd_children parent !! dst ≫= tree s)) as (s2 & E2 & Hq2).
  { rewrite (resolves_ext (tree s)); [done|]. intros. by apply tree_quiet. }
  { by rewrite (tree_quiet s). }
  { destruct (fd_children parent !! dst) as [id|] eqn:Hd; [|done]. cbn.
    destruct (Hdst id eq_refl) as [m Hm]. exists m. by rewrite (tree_quiet s). }
  exists s2. split; [by etrans|].
  unfold entry_rename, mbind, stM_bind in *. rewrite check_write_rights_ok by done.
  unfold raise_if, path_is_root, path_parent.
  rewrite !(bool_decide_eq_false_2 (_ ++ _ = [])) by by destruct path.
  rewrite !removelast_last, (bool_decide_eq_false_2 (path ≠ path)) by naive_solver.
  rewrite E1, E2. unfold lift_result, path_name. rewrite !last_snoc.
  unfold of_option. rewrite Hsrc, Hpid. by case_bool_decide.
Qed.

(** The change of a rename. *)
Definition renamed (s s' : FTState) (path : FsPath) (src dst : EntryName) (pid sid : EntryID)
    (parent : LocalFolderish) : Prop :=
  (∃ parent', tree s' pid = Some (LFolderish parent') ∧
     fd_children parent' = <[dst := sid]> (delete src (fd_children parent)) ∧
     injective_children parent') ∧
  (∀ e, e ≠ pid → tree s' e = tree s e) ∧
  resolves (tree s') (path ++ [dst]) workspace_id = Some sid ∧
  resolves (tree s') (path ++ [src]) workspace_id = None ∧
  ft_events s' = pid :: ft_events s.

Lemma rename_update_ok s s2 path src dst pid parent sid :
  writable s path pid parent → not_ancestor s path pid →
  fd_children parent !! src = Some sid → src ≠ dst → ft_quiet s s2 →
  ∃ s', (_ ← update_parent pattern_match now parent [(dst, Some sid); (src, None)];
         _ ← send_event pid;
         mret (Some sid)) s2 = (s', Ok (Some sid)) ∧ renamed s s' path src dst pid sid parent.
Proof.
  intros [Hrole Hpath Hparent Hpid Hinj] Hna Hsrc Hne Hq.
  destruct (rename_children parent src dst sid Hinj Hne Hsrc) as [Hd Hadd].
  destruct (evolve_children_ok pattern_match now parent _ Hd) as (parent' & Eev & Hc & Hb & _).
  rewrite Hadd in Hc.
  destruct (set_manifest_current s2 pid (LFolderish parent') ∅) as (s3 & E3 & Ht3 & _ & He3 & _ & _).
  set (s4 := mkFTState (ft_storage s3) (ft_write_count s3) (ft_drawn s3) (pid :: ft_events s3)).
  assert (∀ e, tree s4 e = if decide (e = pid) then Some (LFolderish parent') else tree s e) as Ht.
  { intros e. change (tree s4 e) with (tree s3 e). rewrite Ht3. case_decide; [done|].
    by apply tree_quiet. }
  assert (∀ e, e ≠ pid → tree s4 e = tree s e) as Hother.
  { intros e ?. by rewrite Ht, decide_False. }
  pose proof (resolves_not_ancestor s s4 path pid Hna Hother Hpath) as Hpath'.
  exists s4. split.
  { unfold update_parent, mbind, stM_bind, lift_result. rewrite Eev, Hpid, E3. reflexivity. }
  split_and!.
  - exists parent'. split_and!; [by rewrite Ht, decide_True|done|].
    intros n n' i. rewrite Hc, !lookup_insert_Some, !lookup_delete_Some.
    unfold injective_children in Hinj. naive_solver.
  - done.
  - rewrite resolves_app, Hpath'. cbn. rewrite Ht, decide_True by done.
    by rewrite Hc, lookup_insert_eq.
  - rewrite resolves_app, Hpath'. cbn. rewrite Ht, decide_True by done.
    by rewrite Hc, lookup_insert_ne, lookup_delete_eq.
  - unfold s4. cbn [ft_events]. by rewrite He3, (fq_events _ _ Hq).
Qed.

(** Renaming an entry in its folder. A rename onto itself does nothing. A
    rename onto a name that is taken is refused without [overwrite]; with it, the
    entry that is there is replaced unless one of the two is a file and the other
    a folder, or it is a folder with children. Otherwise the new path leads to the
    entry, the old name is free, the other names and entries are as they were, and
    each entry still has one name. *)
Theorem entry_rename_correct s path src dst pid parent sid sm (overwrite : bool)
    (Hw : writable s path pid parent) (Hna : not_ancestor s path pid)
    (Hsrc : fd_children parent !! src = Some sid) (Hsm : tree s sid = Some sm)
    (Hdst : ∀ id, fd_children parent !! dst = Some id → is_Some (tree s id)) :
  let rename := entry_rename workspace_id role pattern_match now load_remote
                  (path ++ [src]) (path ++ [dst]) overwrite in
  let refused e := ∃ s', rename s = (s', Err e) ∧ ft_quiet s s' in
  let accepted := ∃ s', rename s = (s', Ok (Some sid)) ∧ renamed s s' path src dst pid sid parent in
  (src = dst → ∃ s', rename s = (s', Ok None) ∧ ft_quiet s s') ∧
  (src ≠ dst →
     match fd_children parent !! dst ≫= tree s with
     | None => accepted
     | Some child =>
         if overwrite then
           (is_file_manifest sm = true → is_folder_manifest child = true →
              refused FSIsADirectoryError) ∧
           (is_folder_manifest sm = true → is_file_manifest child = true →
              refused FSNotADirectoryError) ∧
           (∀ d, is_folder_manifest sm = true → child = LFolderish d → fd_children d ≠ ∅ →
              refused FSDirectoryNotEmptyError) ∧
           (is_file_manifest sm = true → is_file_manifest child = true → accepted) ∧
           (∀ d, is_folder_manifest sm = true → child = LFolderish d → fd_children d = ∅ → accepted)
         else refused FSFileExistsError
     end).
Proof.
  intros rename refused accepted.
  destruct (rename_prefix s path src dst pid parent sid sm overwrite Hw Hsrc Hsm Hdst)
    as (s1 & Hq1 & E1).
  split.
  { intros Heq. exists s1. unfold rename. rewrite E1, bool_decide_eq_true_2 by done. done. }
  intros Hne. rewrite bool_decide_eq_false_2 in E1 by done.
  assert (∀ s2, ft_quiet s s2 → rename s = (_ ← update_parent pattern_match now parent
      [(dst, Some sid); (src, None)]; _ ← send_event pid; mret (Some sid)) s2 → accepted) as Hacc.
  { intros s2 Hq2 E. unfold accepted. rewrite E. by eapply rename_update_ok. }
  clear Hdst. revert E1. generalize (fd_children parent !! dst ≫= tree s).
  intros [child|] E1; unfold mbind, stM_bind, raise_if in E1, Hacc.
  - rewrite bool_decide_eq_true_2 in E1 by eauto.
    destruct overwrite; cbn [negb andb] in E1.
    + destruct (on_storage_get_ok s1 sid sm) as (s2 & E2 & Hq2); [by rewrite (tree_quiet s)|].
      unfold entry_get_manifest, try_catch, lift_result in E1. rewrite E2 in E1.
      assert (match check_overwrite sm child with
              | Err e => refused e | Ok _ => accepted end) as Hcheck.
      { destruct (check_overwrite sm child).
        - eapply Hacc; [|exact E1]. by etrans.
        - exists s2. split; [exact E1|by etrans]. }
      clear -Hcheck. unfold check_overwrite in Hcheck.
      clearbody refused accepted.
      split_and!; intros; unfold is_folder_manifest, is_file_manifest in *;
        repeat (case_match || case_bool_decide); simplify_eq/=; done.
    + exists s1. done.
  - rewrite bool_decide_eq_false_2, andb_false_r in E1 by by intros [].
    by eapply Hacc.
Qed.
End operations.

(** ** Witnesses *)

Definition ex_author : DeviceID := mkDeviceID "alice" "pc".
Definition ex_file : LocalManifest := LFile (file_new_placeholder ex_author 1 2 0 DEFAULT_BLOCK_SIZE).
Definition ex_root : LocalFolderish :=
  {| fd_base := BWorkspace (mkWorkspaceManifest ex_author 0 1 1 0 0 {[ "a"%string := 2%N ]});
     fd_need_sync := false; fd_updated := 0; fd_children := {[ "a"%string := 2%N ]};
     fd_confined_entries := ∅; fd_filtered_entries := ∅ |}.
Definition ex_state : FTState :=
  mkFTState (mkStorage {[ 1%N := LFolderish ex_root; 2%N := ex_file ]} ∅ ∅ None ∅ ∅ 0 ∅ 0) ∅ 0 [].
Definition ex_fresh (k : nat) : EntryID := N.of_nat (100 + k).
Definition ex_load (_ : EntryID) : result FSExn RemoteManifest := Err FSRemoteError.

Lemma ex_injective : injective_children ex_root.
Proof.
  intros n n' id H H'. cbn in H, H'.
  apply lookup_singleton_Some in H as [<- _], H' as [<- _]. done.
Qed.

Lemma entry_create_witness :
  ∃ s', folder_create 1 (Some OWNER) ex_author (λ _, false) 5 ex_fresh ex_load ["d"%string] ex_state
        = (s', Ok 100%N) ∧ resolves (tree s') ["d"%string] 1 = Some 100%N.
Proof.
  destruct (entry_create_correct 1 (Some OWNER) ex_author (λ _, false) 5 ex_fresh ex_load ex_state
    [] "d"%string 1 ex_root true) as [Hc _].
  - split.
    + reflexivity.
    + reflexivity.
    + reflexivity.
    + reflexivity.
    + exact ex_injective.
  - intros n H. cbn in H. apply lookup_singleton_Some in H as [_ H]. discriminate H.
  - reflexivity.
  - destruct Hc as [(s' & E & (_ & _ & _ & Hr) & _) _]; [reflexivity|].
    exists s'. split; [exact E|exact Hr].
Defined.

Lemma entry_rename_witness :
  ∃ s', entry_rename 1 (Some OWNER) (λ _, false) 5 ex_load ["a"%string] ["b"%string] true ex_state
        = (s', Ok (Some 2%N)) ∧ resolves (tree s') ["b"%string] 1 = Some 2%N.
Proof.
  destruct (entry_rename_correct 1 (Some OWNER) (λ _, false) 5 ex_load ex_state [] "a"%string
    "b"%string 1 ex_root 2 ex_file true) as [_ Hr].
  - split.
    + reflexivity.
    + reflexivity.
    + reflexivity.
    + reflexivity.
    + exact ex_injective.
  - intros p q H Hq. destruct p; [|discriminate H]. destruct q; [|discriminate H]. destruct (Hq eq_refl).
  - reflexivity.
  - reflexivity.
  - intros id H. cbn in H. apply lookup_singleton_Some in H as [H _]. discriminate H.
  - destruct Hr as (s' & E & Hren); [discriminate|]. exists s'. split; [exact E|apply Hren].
Defined.
