(* ===== verification/SyncTransactions.v ===== *)
(** The synchronization of the entries of a workspace:
    [guardata/client/fs/workspacefs/sync_transactions.py]. A transaction holds the
    locks of the manifests it changes from end to end, and is one function. *)

From S2P Require Import Prelude PyString Types ApiManifest Chunk LocalManifest FileOperations.
From S2P Require Import FileContent Storage FileTransactions Merging EntryTransactions.

(** ** State *)

(** The events of the synchronization, the last one first. *)
Inductive SyncEvent :=
| FS_ENTRY_CONFINED (entry_id cause_id : EntryID)
| FS_ENTRY_DOWNSYNCED (id : EntryID)
| FS_ENTRY_SYNCED (id : EntryID)
| FS_ENTRY_FILE_CONFLICT_RESOLVED (id backup_id : EntryID).
Record SyncState := mkSyncState {
  ss_ft : FTState;
  ss_events : list SyncEvent }.
Abbreviation syncM := (stM SyncState FSExn) (only parsing).

(** A file transaction, and a call on the local storage. *)
Definition on_ft {A} (m : stM FTState FSExn A) : syncM A := λ s,
  let '(ft, r) := m (ss_ft s) in (mkSyncState ft (ss_events s), r).
Definition on_local {A} (m : stM Storage FSExn A) : syncM A := on_ft (on_storage m).
Definition sync_event (e : SyncEvent) : syncM unit :=
  modify (λ s, mkSyncState (ss_ft s) (e :: ss_events s)).

Definition is_workspace_manifest (m : LocalManifest) : bool :=
  match m with
  | LFolderish m => match fd_base m with BWorkspace _ => true | BFolder _ => false end
  | _ => false
  end.

(** The children of a remote manifest. *)
Definition rm_children (m : RemoteManifest) : gmap EntryName EntryID :=
  match remote_folderish m with Some b => base_children b | None => ∅ end.

(** [manifest.base] *)
Definition local_base (m : LocalManifest) : RemoteManifest :=
  match m with
  | LFile m => RFile (lf_base m)
  | LFolderish m => remote_of_folderish (fd_base m)
  | LUser m => RUser (lu_base m)
  end.
(** [base.evolve(author=..., timestamp=..., version=1)] *)
Definition rm_evolve_first (author : DeviceID) (timestamp : DateTime) (m : RemoteManifest)
    : RemoteManifest :=
  match m with
  | RFile m => RFile (mkFileManifest author timestamp (fim_id m) (fim_parent m) 1 (fim_created m)
                        (fim_updated m) (fim_size m) (fim_blocksize m) (fim_blocks m))
  | RFolder m => RFolder (mkFolderManifest author timestamp (fom_id m) (fom_parent m) 1
                            (fom_created m) (fom_updated m) (fom_children m))
  | RWorkspace m => RWorkspace (mkWorkspaceManifest author timestamp (wm_id m) 1 (wm_created m)
                                  (wm_updated m) (wm_children m))
  | RUser m => RUser (mkUserManifest author timestamp (um_id m) 1 (um_created m) (um_updated m)
                        (um_last_processed_message m) (um_workspaces m))
  end.

Section sync_transactions.
Context (local_author : DeviceID) (pattern_match : EntryName → bool) (now : DateTime)
  (fresh : nat → UUID) (key : SecretKey) (digest : bytes → HashDigest)
  (download : BlockAccess → result FSExn bytes) (cache_size : Z)
  (order : gset EntryID → list EntryID)
  (items : gmap EntryName EntryID → odict EntryName EntryID).

(** [get_placeholder_children]: the ids it yields. *)
Fixpoint placeholder_children (children : list EntryID) : syncM (list EntryID) :=
  match children with
  | [] => mret []
  | child :: children =>
      m ← try_catch (m ← on_local (get_manifest child); mret (Some m))
            (λ e, match e with FSLocalMissError _ => mret None | e => mthrow e end);
      l ← placeholder_children children;
      mret (match m with
            | Some m => if lm_is_placeholder m then child :: l else l
            | None => l
            end)
  end.
Definition get_placeholder_children (remote_manifest : RemoteManifest) : syncM (list EntryID) :=
  placeholder_children (items (rm_children remote_manifest)).*2.

(** [get_minimal_remote_manifest] *)
Definition get_minimal_remote_manifest (entry_id : EntryID) : syncM (option RemoteManifest) :=
  manifest ← on_local (get_manifest entry_id);
  mret (if negb (lm_is_placeholder manifest) then None
        else Some (rm_evolve_first local_author now (local_base manifest))).

(** [apply_filter] *)
Definition sync_apply_filter (entry_id : EntryID) : syncM unit :=
  local_manifest ← on_local (get_manifest entry_id);
  match local_manifest with
  | LFolderish m =>
      new_m ← lift_result (apply_filter pattern_match now m);
      if decide (new_m ≠ m) then on_local (set_manifest entry_id (LFolderish new_m) false ∅)
      else mret tt
  | _ => mthrow AttributeError
  end.

(** "Go through the parent chain": [Some (Some cause)] when an ancestor confines
    an entry of the chain, [None] when [fuel] steps were not enough. *)
Fixpoint parent_chain (fuel : nat) (current : LocalManifest) : syncM (option (option EntryID)) :=
  if is_workspace_manifest current then mret (Some None)
  else
    match fuel with
    | O => mret None
    | S fuel =>
        parent ← of_option AttributeError (lm_parent current);
        parent_manifest ← on_local (get_manifest parent);
        match parent_manifest with
        | LFolderish p =>
            if bool_decide (lm_id current ∈ fd_confined_entries p) then mret (Some (Some (fd_id p)))
            else parent_chain fuel parent_manifest
        | _ => mthrow AttributeError
        end
    end.

(** "Sync cannot be performed yet": the local manifest, reshaped. *)
Definition reshape_before_sync (entry_id : EntryID) (final : bool) (local_manifest : LocalManifest)
    : syncM LocalManifest :=
  match local_manifest with
  | LFile m =>
      if negb final && negb (is_reshaped m) then
        missing ← on_ft (manifest_reshape fresh key digest m false);
        match missing with
        | _ :: _ => mthrow (FSReshapingRequiredError entry_id)
        | [] =>
            local_manifest ← on_local (get_manifest entry_id);
            match local_manifest with
            | LFile m =>
                _ ← lift_result (py_assert (is_reshaped m));
                mret local_manifest
            | _ => mthrow AttributeError
            end
        end
      else mret local_manifest
  | _ => mret local_manifest
  end.

(** The end of [synchronization_step], from the merge on. *)
Definition merge_and_store (entry_id : EntryID) (local_manifest : LocalManifest)
    (remote_manifest : option RemoteManifest) (force_filter final : bool)
    : syncM (option RemoteManifest) :=
  new_local_manifest ← lift_result (merge_manifests pattern_match now order items local_author
    local_manifest remote_manifest force_filter);
  let base_author := rm_author (local_base local_manifest) in
  let remote_author :=
    match remote_manifest with None => base_author | Some r => rm_author r end in
  let base_version := lm_base_version local_manifest in
  let new_base_version := lm_base_version new_local_manifest in
  _ ← (if decide (new_local_manifest ≠ local_manifest)
       then on_local (set_manifest entry_id new_local_manifest false ∅) else mret tt);
  _ ← (if negb (base_version =? new_base_version) && bool_decide (remote_author ≠ local_author)
       then sync_event (FS_ENTRY_DOWNSYNCED entry_id) else mret tt);
  _ ← (if lm_need_sync local_manifest && negb (lm_need_sync new_local_manifest)
       then sync_event (FS_ENTRY_SYNCED entry_id) else mret tt);
  if final || negb (lm_need_sync new_local_manifest) then mret None
  else Some <$> lift_result (lm_to_remote new_local_manifest local_author now).

(** [synchronization_step]; [fuel] bounds the depth of the entry, and [None] says
    that it was not enough. [force_filter] says that the filter of the user was
    not applied to all the entries yet. *)
Definition synchronization_step (fuel : nat) (entry_id : EntryID)
    (remote_manifest : option RemoteManifest) (force_filter final : bool)
    : syncM (option (option RemoteManifest)) :=
  local_manifest ← on_local (get_manifest entry_id);
  chain ← parent_chain fuel local_manifest;
  match chain with
  | None => mret None
  | Some (Some cause_id) =>
      _ ← sync_event (FS_ENTRY_CONFINED entry_id cause_id);
      mret (Some None)
  | Some None =>
      local_manifest ← reshape_before_sync entry_id final local_manifest;
      Some <$> merge_and_store entry_id local_manifest remote_manifest force_filter final
  end.

(** [file_reshape]: [false] says that [fuel] attempts were not enough. *)
Fixpoint file_reshape (fuel : nat) (entry_id : EntryID) : syncM bool :=
  match fuel with
  | O => mret false
  | S fuel =>
      manifest ← on_local (get_manifest entry_id);
      match manifest with
      | LFile m =>
          missing ← on_ft (manifest_reshape fresh key digest m false);
          match missing with
          | [] => mret true
          | _ =>
              _ ← on_ft (load_blocks download cache_size missing);
              file_reshape fuel entry_id
          end
      | _ => mthrow AttributeError
      end
  end.

(** The loop "Copy blocks" of [file_conflict]: the data of each chunk is copied
    under a new id, and the list that is built has the chunks of the file. *)
Definition copy_chunk (alone : bool) (chunk : Chunk) : syncM Chunk :=
  data ← on_local (get_chunk (c_id chunk));
  drawn ← gets (λ s, ft_drawn (ss_ft s));
  _ ← on_ft (modify (draw 1));
  new_chunk ← lift_result (chunk_new (fresh drawn) (c_start chunk) (c_stop chunk));
  _ ← on_local (set_chunk (c_id new_chunk) data);
  _ ← (if alone then
         new_chunk ← lift_result (evolve_as_block digest key new_chunk data);
         mret tt
       else mret tt);
  mret chunk.
Fixpoint copy_chunks (alone : bool) (chunks : list Chunk) : syncM (list Chunk) :=
  match chunks with
  | [] => mret []
  | chunk :: chunks =>
      chunk ← copy_chunk alone chunk;
      l ← copy_chunks alone chunks;
      mret (chunk :: l)
  end.
Fixpoint copy_blocks (blocks : list (list Chunk)) : syncM (list (list Chunk)) :=
  match blocks with
  | [] => mret []
  | chunks :: blocks =>
      chunks ← copy_chunks (bool_decide (length chunks = 1%nat)) chunks;
      l ← copy_blocks blocks;
      mret (chunks :: l)
  end.

(** [file_conflict]; [parent_id] is [local_manifest.parent], the only thing of
    the argument that is read, and a name is free after as many attempts as the
    parent has children. *)
Definition file_conflict (entry_id parent_id : EntryID) (remote_manifest : RemoteManifest)
    : syncM unit :=
  parent_manifest ← on_local (get_manifest parent_id);
  current_manifest ← on_local (get_manifest entry_id);
  match parent_manifest with
  | LFolderish parent =>
      match get_filename (items (fd_children parent)) entry_id with
      | None => mret tt
      | Some filename =>
          match current_manifest with
          | LFile current =>
              new_blocks ← copy_blocks (lf_blocks current);
              let filenames := (items (fd_children parent)).*1 in
              new_name ← of_option AssertionError
                (get_conflict_filename (length filenames) filename filenames
                   (rm_author remote_manifest));
              drawn ← gets (λ s, ft_drawn (ss_ft s));
              _ ← on_ft (modify (draw 1));
              let placeholder :=
                file_new_placeholder local_author parent_id (fresh drawn) now DEFAULT_BLOCK_SIZE in
              let new_manifest :=
                mkLocalFileManifest (lf_base placeholder) (lf_need_sync placeholder)
                  (lf_updated placeholder) (lf_size current) (lf_blocksize placeholder) new_blocks in
              new_parent_manifest ← lift_result
                (evolve_children_and_mark_updated pattern_match now parent
                   [(new_name, Some (lf_id new_manifest))]);
              other_manifest ← lift_result
                (match remote_manifest with
                 | RFile r => Ok (LFile (file_from_remote r))
                 | RUser r => Ok (LUser (user_from_remote r))
                 | _ => Err AssertionError
                 end);
              _ ← on_local (set_manifest (lf_id new_manifest) (LFile new_manifest) false ∅);
              _ ← on_local (set_manifest parent_id (LFolderish new_parent_manifest) false ∅);
              _ ← on_local (set_manifest entry_id other_manifest false ∅);
              _ ← on_ft (send_event (lf_id new_manifest));
              _ ← on_ft (send_event parent_id);
              sync_event (FS_ENTRY_FILE_CONFLICT_RESOLVED entry_id (lf_id new_manifest))
          | _ => mthrow AttributeError
          end
      end
  | _ => mthrow AttributeError
  end.
End sync_transactions.
