(* ===== verification/SyncProperties.v ===== *)
(** What the synchronization of an entry guarantees: what a step gives to upload
    is the local manifest, the step after the upload synchronizes the entry, and
    resolving the conflict of a file keeps both contents. *)

From S2P Require Import Prelude PyString Types ApiManifest Chunk LocalManifest FileOperations.
From S2P Require Import FileContent Storage FileTransactions FileRefinement Merging.
From S2P Require Import MergingProperties EntryTransactions EntryProperties SyncTransactions.

(** The manifests of a state. *)
Definition sync_tree (s : SyncState) : EntryID → option LocalManifest := tree (ss_ft s).

(** Only access times and the cache changed. *)
Definition sync_quiet (s s' : SyncState) : Prop :=
  ft_quiet (ss_ft s) (ss_ft s') ∧ ss_events s' = ss_events s.
#[export] Instance sync_quiet_refl : Reflexive sync_quiet.
Proof. by split. Qed.
#[export] Instance sync_quiet_trans : Transitive sync_quiet.
Proof. intros s1 s2 s3 [] []. split; [by etrans|congruence]. Qed.

Lemma sync_tree_quiet s s' e : sync_quiet s s' → sync_tree s' e = sync_tree s e.
Proof. intros [Hq _]. by apply tree_quiet. Qed.

Lemma on_local_get_ok s e m :
  sync_tree s e = Some m → ∃ s', on_local (get_manifest e) s = (s', Ok m) ∧ sync_quiet s s'.
Proof.
  intros (ft & E & Hq)%on_storage_get_ok. unfold on_local, on_ft. rewrite E.
  eexists. split; [done|]. by split.
Qed.

Lemma on_local_set s e m :
  ∃ s', on_local (set_manifest e m false ∅) s = (s', Ok tt) ∧
    (∀ e', sync_tree s' e' = if decide (e' = e) then Some m else sync_tree s e') ∧
    ss_events s' = ss_events s ∧
    (∀ e', pending (ft_storage (ss_ft s')) e' ⊆ pending (ft_storage (ss_ft s)) e') ∧
    (∀ id, id ∉ pending (ft_storage (ss_ft s)) e →
       view (ft_storage (ss_ft s')) id = view (ft_storage (ss_ft s)) id).
Proof.
  destruct (set_manifest_current (ss_ft s) e m ∅) as (ft & E & Ht & _ & _ & _ & Hp & Hv).
  unfold on_local, on_ft. rewrite E. eexists. split; [done|]. split_and!; [exact Ht|done|done|].
  intros id Hid. apply Hv; [set_solver|done].
Qed.

(** An entry all of whose ancestors are there, none of which confines the next
    entry; [n] is the number of ancestors. *)
Inductive unconfined (view : EntryID → option LocalManifest) : nat → LocalManifest → Prop :=
| unconfined_workspace n m : is_workspace_manifest m = true → unconfined view n m
| unconfined_parent n m parent p :
    is_workspace_manifest m = false → lm_parent m = Some parent →
    view parent = Some (LFolderish p) → lm_id m ∉ fd_confined_entries p →
    unconfined view n (LFolderish p) → unconfined view (S n) m.

Lemma unconfined_ext view view' n m :
  (∀ e, view' e = view e) → unconfined view n m → unconfined view' n m.
Proof.
  intros Hv. induction 1 as [|n m parent p ??? ?? IH]; [by constructor|].
  econstructor; [done|done|by rewrite Hv|done|done].
Qed.

Lemma parent_chain_ok s n m :
  unconfined (sync_tree s) n m →
  ∃ s', parent_chain n m s = (s', Ok (Some None)) ∧ sync_quiet s s'.
Proof.
  revert s m. induction n as [|n IH]; intros s m Hu; inversion Hu as [? ? Hw|? ? parent p Hw Hp Hv Hc Hu'];
    subst; cbn [parent_chain]; rewrite Hw; try by exists s.
  destruct (on_local_get_ok s parent _ Hv) as (s1 & E1 & Hq1).
  destruct (IH s1 (LFolderish p)) as (s2 & E2 & Hq2).
  { eapply unconfined_ext; [|done]. intros. by apply sync_tree_quiet. }
  exists s2. split; [|by etrans].
  unfold mbind, stM_bind, of_option in *. rewrite Hp, E1, bool_decide_eq_false_2 by done. exact E2.
Qed.

Lemma lm_to_remote_version m author timestamp r :
  lm_to_remote m author timestamp = Ok r →
  rm_version r = lm_base_version m + 1 ∧ rm_author r = author.
Proof.
  destruct m as [f|f|u]; cbn; [| |by intros [= <-]].
  - unfold file_to_remote. destruct (assert_integrity f), (is_reshaped f); cbn; try done.
    destruct (block_accesses (lf_blocks f)); cbn; [by intros [= <-]|done].
  - intros [= <-]. unfold fd_base_version, folderish_to_remote. by destruct (fd_base f).
Qed.

Section sync.
Context (local_author : DeviceID) (pattern_match : EntryName → bool) (now : DateTime)
  (fresh : nat → UUID) (key : SecretKey) (digest : bytes → HashDigest)
  (order : gset EntryID → list EntryID)
  (items : gmap EntryName EntryID → odict EntryName EntryID).
#[local] Abbreviation step :=
  (synchronization_step local_author pattern_match now fresh key digest order items).

(** An entry that can be synchronized: its ancestors do not confine it, and a
    file is reshaped. *)
Definition ready (s : SyncState) (n : nat) (e : EntryID) (m : LocalManifest) : Prop :=
  sync_tree s e = Some m ∧ unconfined (sync_tree s) n m ∧ mergeable pattern_match m ∧
  match m with LFile f => is_reshaped f = true | _ => True end.

Lemma step_prefix s n e m remote force final :
  ready s n e m →
  ∃ s', sync_quiet s s' ∧
    step n e remote force final s =
    (Some <$> merge_and_store local_author pattern_match now order items e m remote force final) s'.
Proof.
  intros (Hm & Hu & _ & Hr).
  destruct (on_local_get_ok s e m Hm) as (s1 & E1 & Hq1).
  destruct (parent_chain_ok s1 n m) as (s2 & E2 & Hq2).
  { eapply unconfined_ext; [|done]. intros. by apply sync_tree_quiet. }
  exists s2. split; [by etrans|].
  unfold synchronization_step, mbind, stM_bind. rewrite E1, E2.
  assert (reshape_before_sync fresh key digest e final m s2 = (s2, Ok m)) as ->; [|done].
  unfold reshape_before_sync. destruct m as [f| |]; [|done..].
  by rewrite Hr, andb_false_r.
Qed.

(** Storing the result of a merge: the entry has it, and nothing else changes. *)
Lemma merge_and_store_ok s e m remote force final m' :
  sync_tree s e = Some m →
  merge_manifests pattern_match now order items local_author m remote force = Ok m' →
  ∃ s', merge_and_store local_author pattern_match now order items e m remote force final s
        = (s', if final || negb (lm_need_sync m') then Ok None
               else Some <$> lm_to_remote m' local_author now) ∧
    (∀ e', sync_tree s' e' = if decide (e' = e) then Some m' else sync_tree s e') ∧
    (lm_need_sync m = true → lm_need_sync m' = false →
       FS_ENTRY_SYNCED e ∈ ss_events s').
Proof.
  intros Hm Hmerge. unfold merge_and_store, mbind, stM_bind, lift_result. rewrite Hmerge.
  assert (∃ s1, (if decide (m' ≠ m) then on_local (set_manifest e m' false ∅) else mret tt) s
      = (s1, Ok tt) ∧
    (∀ e', sync_tree s1 e' = if decide (e' = e) then Some m' else sync_tree s e') ∧
    ss_events s1 = ss_events s) as (s1 & E1 & Ht & He).
  { destruct (decide (m' = m)) as [->|Hne].
    - rewrite decide_False by auto. exists s. split_and!; [done| |done].
      intros e'. case_decide; [by subst|done].
    - rewrite decide_True by done.
      destruct (on_local_set s e m') as (s1 & ? & ? & ? & _). eauto. }
  rewrite E1.
  set (b := negb (lm_base_version m =? lm_base_version m') && _).
  assert (∃ s2, (if b then sync_event (FS_ENTRY_DOWNSYNCED e) else mret tt) s1 = (s2, Ok tt) ∧
    (∀ e', sync_tree s2 e' = sync_tree s1 e')) as (s2 & E2 & Ht2).
  { destruct b; by eexists. }
  rewrite E2.
  assert (∃ s3, (if lm_need_sync m && negb (lm_need_sync m') then sync_event (FS_ENTRY_SYNCED e)
      else mret tt) s2 = (s3, Ok tt) ∧ (∀ e', sync_tree s3 e' = sync_tree s2 e') ∧
      (lm_need_sync m = true → lm_need_sync m' = false → FS_ENTRY_SYNCED e ∈ ss_events s3))
    as (s3 & E3 & Ht3 & Hev).
  { destruct (lm_need_sync m) eqn:H1, (lm_need_sync m') eqn:H2; cbn; eexists;
      (split; [reflexivity|]); (split; [done|]); try done. intros _ _. by left. }
  rewrite E3. exists s3. split_and!; [|intros e'; by rewrite Ht3, Ht2, Ht|done].
  destruct (final || negb (lm_need_sync m')); [done|].
  unfold fmap, stM_fmap. by destruct (lm_to_remote m' local_author now).
Qed.

(** The first step of an entry with local changes gives its next version. *)
Lemma sync_step_upload s n e m r :
  ready s n e m → lm_need_sync m = true → lm_to_remote m local_author now = Ok r →
  ∃ s', step n e None false false s = (s', Ok (Some (Some r))) ∧ sync_quiet s s'.
Proof.
  intros Hready Hneed Hupload.
  destruct (step_prefix s n e m None false false Hready) as (s1 & Hq & E).
  assert (merge_and_store local_author pattern_match now order items e m None false false s1
    = (s1, Ok (Some r))) as E2.
  { unfold merge_and_store, mbind, stM_bind, lift_result. cbn. rewrite decide_False by auto. cbn.
    rewrite Z.eqb_refl, Hneed. cbn. unfold fmap, stM_fmap. by rewrite Hupload. }
  exists s1. split; [|done]. rewrite E. unfold fmap, stM_fmap. by rewrite E2.
Qed.

(** The step with the version that was uploaded ends the synchronization. *)
Lemma sync_step_ack s n e m r t final :
  ready s n e m → lm_need_sync m = true → lm_to_remote m local_author t = Ok r →
  remote_of_class pattern_match m r →
  ∃ s' m', step n e (Some r) false final s = (s', Ok (Some None)) ∧
    (∀ e', sync_tree s' e' = if decide (e' = e) then Some m' else sync_tree s e') ∧
    lm_need_sync m' = false ∧ lm_base m' = r ∧ lm_content m' = lm_content m ∧
    FS_ENTRY_SYNCED e ∈ ss_events s'.
Proof.
  intros Hready Hneed Hupload Hclass.
  destruct (lm_to_remote_version m local_author t r Hupload) as [Hver Hauthor].
  destruct (step_prefix s n e m (Some r) false final Hready) as (s1 & Hq & E).
  destruct Hready as (Hm & _ & Hmg & _).
  destruct (merge_manifests_branches pattern_match now order items local_author m r Hmg Hclass)
    as (_ & (Hbase & _ & Hup & _)); [lia|].
  destruct (Hup _ _ Hupload) as (m' & Hmerge & Hns & Hcontent).
  destruct (merge_and_store_ok s1 e m (Some r) false final m') as (s2 & E2 & Ht & Hev);
    [by rewrite (sync_tree_quiet s)|done|].
  rewrite Hns, orb_true_r in E2. exists s2, m'. split_and!; try done; [|intros e'| |].
  - rewrite E. unfold fmap, stM_fmap. by rewrite E2.
  - rewrite Ht. case_decide; [done|by apply sync_tree_quiet].
  - by apply Hbase.
  - by apply Hev.
Qed.

(** C29: synchronizing an entry with local changes. The first step gives the next
    version of the entry, as the device sees it, and changes no manifest. Once it is
    uploaded, the next step with it ends the synchronization: the entry has no
    change left, the same content, and this version as its base; when the entry was
    changed in the meantime, this step keeps the change and gives the version after
    it to upload. No other entry changes. *)
Theorem synchronization_correct s n e m r
    (Hready : ready s n e m) (Hneed : lm_need_sync m = true)
    (Hupload : lm_to_remote m local_author now = Ok r) :
  (∃ s', step n e None false false s = (s', Ok (Some (Some r))) ∧
     (∀ e', sync_tree s' e' = sync_tree s e') ∧
     rm_version r = lm_base_version m + 1 ∧ rm_author r = local_author) ∧
  (∀ final, remote_of_class pattern_match m r →
     ∃ s' m', step n e (Some r) false final s = (s', Ok (Some None)) ∧
     (∀ e', sync_tree s' e' = if decide (e' = e) then Some m' else sync_tree s e') ∧
     lm_need_sync m' = false ∧ lm_base m' = r ∧ lm_content m' = lm_content m ∧
     FS_ENTRY_SYNCED e ∈ ss_events s') ∧
  (∀ s2 m2, ready s2 n e m2 → lm_need_sync m2 = true →
     lm_base_version m2 = lm_base_version m → remote_of_class pattern_match m2 r →
     lm_match_remote m2 r = Ok false →
     ∃ s' m', step n e (Some r) false false s2
                = (s', (λ r2, Some (Some r2)) <$> lm_to_remote m' local_author now) ∧
       (∀ e', sync_tree s' e' = if decide (e' = e) then Some m' else sync_tree s2 e') ∧
       lm_need_sync m' = true ∧ lm_base m' = r ∧ lm_content m' = lm_content m2 ∧
       ∀ r2, lm_to_remote m' local_author now = Ok r2 → rm_version r2 = rm_version r + 1).
Proof.
  destruct (lm_to_remote_version m local_author now r Hupload) as [Hver Hauthor].
  split_and!; [| |].
  - destruct (sync_step_upload s n e m r Hready Hneed Hupload) as (s1 & E & Hq).
    exists s1. split_and!; [done| |done..]. intros e'. by apply sync_tree_quiet.
  - intros final Hclass. by eapply sync_step_ack.
  - intros s2 m2 Hready2 Hneed2 Hver2 Hclass Hmatch.
    destruct (step_prefix s2 n e m2 (Some r) false false Hready2) as (s3 & Hq & E).
    destruct Hready2 as (Hm2 & _ & Hmg & _).
    destruct (merge_manifests_branches pattern_match now order items local_author m2 r Hmg Hclass)
      as (_ & (Hbase & _ & _ & Hch)); [lia|].
    destruct (Hch Hneed2 Hmatch) as [Hours _].
    destruct (Hours Hauthor) as (m' & Hmerge & Hns & Hcontent).
    destruct (merge_and_store_ok s3 e m2 (Some r) false false m') as (s4 & E4 & Ht & _);
      [by rewrite (sync_tree_quiet s2)|done|].
    rewrite Hns in E4. cbn in E4. exists s4, m'. split_and!; try done; [|intros e'| |].
    + rewrite E. unfold fmap, stM_fmap. rewrite E4. by destruct (lm_to_remote m' local_author now).
    + rewrite Ht. case_decide; [done|by apply sync_tree_quiet].
    + by apply Hbase.
    + intros r2 Hr2. destruct (lm_to_remote_version _ _ _ _ Hr2) as [-> _].
      rewrite <-(Hbase m' Hmerge). destruct m' as [f|f|]; cbn; [done| |done].
      unfold fd_base_version. by destruct (fd_base f).
Qed.

(** ** The conflict of a file *)

(** Only data under new ids was written. *)
Record copied (s s' : SyncState) : Prop := {
  co_tree : ∀ e, sync_tree s' e = sync_tree s e;
  co_view : ∀ id, (∀ k, (ft_drawn (ss_ft s) <= k)%nat → id ≠ fresh k) →
    view (ft_storage (ss_ft s')) id = view (ft_storage (ss_ft s)) id;
  co_drawn : (ft_drawn (ss_ft s) <= ft_drawn (ss_ft s'))%nat;
  co_pending : ∀ e, pending (ft_storage (ss_ft s')) e = pending (ft_storage (ss_ft s)) e }.
#[local] Instance copied_refl : Reflexive copied.
Proof. by split. Qed.
#[local] Instance copied_trans : Transitive copied.
Proof.
  intros s1 s2 s3 [Ht1 Hv1 Hd1 Hp1] [Ht2 Hv2 Hd2 Hp2]. split.
  - intros e. by rewrite Ht2, Ht1.
  - intros id Hid. rewrite Hv2; [by apply Hv1|]. intros k ?. apply Hid. lia.
  - lia.
  - intros e. by rewrite Hp2, Hp1.
Qed.
Lemma copied_quiet s s' : sync_quiet s s' → copied s s'.
Proof.
  intros Hq. pose proof Hq as [[[Hv _ _ Ha _ _] _ Hd _] _]. split.
  - intros e. by apply sync_tree_quiet.
  - intros id _. apply Hv.
  - by rewrite Hd.
  - intros e. unfold pending. by rewrite Ha.
Qed.

(** The data of a chunk is there, under an id that is not drawn again. *)
Definition chunk_here (s : SyncState) (c : Chunk) : Prop :=
  is_Some (view (ft_storage (ss_ft s)) (c_id c)) ∧ c_start c < c_stop c ∧
  ∀ k, (ft_drawn (ss_ft s) <= k)%nat → c_id c ≠ fresh k.

Lemma chunk_here_copied s s' c : copied s s' → chunk_here s c → chunk_here s' c.
Proof.
  intros [_ Hv Hd _] (? & ? & Hf). split_and!; [by rewrite Hv|done|]. intros k ?. apply Hf. lia.
Qed.

Lemma copy_chunk_ok s alone c :
  chunk_here s c → ∃ s', copy_chunk fresh key digest alone c s = (s', Ok c) ∧ copied s s'.
Proof.
  intros ([data Hdata] & Hlt%Z.ltb_lt & Hf).
  destruct (get_chunk_ok _ _ _ Hdata) as (st & E & Hq).
  unfold copy_chunk, mbind, stM_bind, on_local, on_ft, on_storage, gets, modify, lift_result.
  rewrite E. unfold chunk_new. cbn [ss_ft ft_drawn]. rewrite Hlt. cbn.
  set (s1 := mkSyncState _ _).
  assert (copied s s1) as Hc.
  { split.
    - intros e. unfold sync_tree, tree, s1. cbn. apply (q_current _ _ Hq).
    - intros id Hid. unfold s1, view. cbn.
      rewrite lookup_insert_ne by (intros Heq; by apply (Hid (ft_drawn (ss_ft s)))).
      apply (q_view _ _ Hq).
    - unfold s1. cbn. lia.
    - intros e. unfold pending, s1. cbn. by rewrite (q_ahead _ _ Hq). }
  destruct alone; [|by exists s1].
  unfold evolve_as_block. cbn. rewrite Z.eqb_refl. by exists s1.
Qed.

Lemma copy_chunks_ok s alone cs :
  Forall (chunk_here s) cs →
  ∃ s', copy_chunks fresh key digest alone cs s = (s', Ok cs) ∧ copied s s'.
Proof.
  revert s. induction cs as [|c cs IH]; intros s; [by exists s|].
  intros [Hc Hcs]%Forall_cons.
  destruct (copy_chunk_ok s alone c Hc) as (s1 & E1 & H1).
  destruct (IH s1) as (s2 & E2 & H2).
  { eapply Forall_impl; [exact Hcs|]. intros. by eapply chunk_here_copied. }
  exists s2. split; [|by etrans]. cbn. unfold mbind, stM_bind in *. by rewrite E1, E2.
Qed.

Lemma copy_blocks_ok s blocks :
  Forall (Forall (chunk_here s)) blocks →
  ∃ s', copy_blocks fresh key digest blocks s = (s', Ok blocks) ∧ copied s s'.
Proof.
  revert s. induction blocks as [|cs blocks IH]; intros s; [by exists s|].
  intros [Hc Hcs]%Forall_cons.
  destruct (copy_chunks_ok s (bool_decide (length cs = 1%nat)) cs Hc) as (s1 & E1 & H1).
  destruct (IH s1) as (s2 & E2 & H2).
  { do 2 (eapply Forall_impl; [eassumption|]; intros). by eapply chunk_here_copied. }
  exists s2. split; [|by etrans]. cbn. unfold mbind, stM_bind in *. by rewrite E1, E2.
Qed.

Lemma create_child parent name id :
  fd_children parent !! name = None → (∀ n, fd_children parent !! n ≠ Some id) →
  ∃ parent', evolve_children_and_mark_updated pattern_match now parent [(name, Some id)]
               = Ok parent' ∧ fd_children parent' = <[name := id]> (fd_children parent).
Proof.
  intros Hname Hid.
  assert (remove_names (fd_children parent) [(name, Some id)] = fd_children parent) as Hrm.
  { cbn. by rewrite delete_id. }
  destruct (evolve_children_ok pattern_match now parent [(name, Some id)])
    as (parent' & E & Hc & _).
  { intros n i n' [= -> ->]%list_elem_of_singleton. rewrite Hrm. apply Hid. }
  rewrite Hrm in Hc. eauto.
Qed.

(** The name for the copy exists, and is free. *)
Lemma free_conflict_name parent filename author (Hitems : ∀ c, items c ≡ₚ map_to_list c) :
  let filenames := (items (fd_children parent)).*1 in
  ∃ new_name, get_conflict_filename (length filenames) filename filenames author = Some new_name ∧
    fd_children parent !! new_name = None.
Proof.
  intros filenames.
  destruct (conflict_loop_finds filename filenames author (length filenames) 0)
    as (k & Ek & Hk & _); [lia|lia|].
  exists (conflict_name filename author k). split; [exact Ek|].
  destruct (fd_children parent !! _) as [i|] eqn:Hi; [|done]. destruct Hk.
  unfold filenames. rewrite Hitems. apply elem_of_map_to_list in Hi.
  by apply (list_elem_of_fmap_2 fst) in Hi.
Qed.
(** The manifests of the copy, of the parent and of the entry are stored. *)
Lemma store_conflict s new_id parent_id entry_id new parent' file :
  ∃ s5 s6 s7,
    on_local (set_manifest new_id (LFile new) false ∅) s = (s5, Ok tt) ∧
    on_local (set_manifest parent_id (LFolderish parent') false ∅) s5 = (s6, Ok tt) ∧
    on_local (set_manifest entry_id (LFile file) false ∅) s6 = (s7, Ok tt) ∧
    (∀ e, sync_tree s7 e =
      if decide (e = entry_id) then Some (LFile file)
      else if decide (e = parent_id) then Some (LFolderish parent')
      else if decide (e = new_id) then Some (LFile new) else sync_tree s e) ∧
    (∀ id, (∀ e, id ∉ pending (ft_storage (ss_ft s)) e) →
       view (ft_storage (ss_ft s7)) id = view (ft_storage (ss_ft s)) id).
Proof.
  destruct (on_local_set s new_id (LFile new)) as (s5 & E5 & Ht5 & He5 & Hp5 & Hv5).
  destruct (on_local_set s5 parent_id (LFolderish parent')) as (s6 & E6 & Ht6 & He6 & Hp6 & Hv6).
  destruct (on_local_set s6 entry_id (LFile file)) as (s7 & E7 & Ht7 & He7 & Hp7 & Hv7).
  exists s5, s6, s7. split_and!; [done..| |].
  - intros e. rewrite Ht7, Ht6, Ht5. by repeat case_decide.
  - intros id Hp.
    rewrite Hv7, Hv6, Hv5; [done|by apply Hp|intros ?%Hp5; by eapply Hp|intros ?%Hp6%Hp5; by eapply Hp].
Qed.

(** C30: resolving the conflict of a file. When the data of the local file is
    there, the file takes the remote version, and its folder gets a new file, under
    a name that was free, with the size and the bytes the local file had, still to
    be uploaded. No other entry changes. *)
Theorem file_conflict_correct s entry_id parent_id parent current filename r
    (Hitems : ∀ c, items c ≡ₚ map_to_list c)
    (Hparent : sync_tree s parent_id = Some (LFolderish parent))
    (Hcurrent : sync_tree s entry_id = Some (LFile current))
    (Hname : get_filename (items (fd_children parent)) entry_id = Some filename)
    (Hdata : Forall (Forall (chunk_here s)) (lf_blocks current))
    (Hpending : ∀ e c, c ∈ all_chunks current → c_id c ∉ pending (ft_storage (ss_ft s)) e)
    (Hfresh : ∀ k, (ft_drawn (ss_ft s) <= k)%nat →
       fresh k ≠ entry_id ∧ fresh k ≠ parent_id ∧ sync_tree s (fresh k) = None ∧
       ∀ n, fd_children parent !! n ≠ Some (fresh k))
    (Hne : entry_id ≠ parent_id) :
  ∃ s' new_id new_name new parent',
    file_conflict local_author pattern_match now fresh key digest items entry_id parent_id (RFile r) s
      = (s', Ok tt) ∧
    sync_tree s new_id = None ∧
    (∀ e, sync_tree s' e =
       if decide (e = entry_id) then Some (LFile (file_from_remote r))
       else if decide (e = parent_id) then Some (LFolderish parent')
       else if decide (e = new_id) then Some (LFile new) else sync_tree s e) ∧
    fd_children parent !! new_name = None ∧
    fd_children parent' = <[new_name := new_id]> (fd_children parent) ∧
    lf_size new = lf_size current ∧ lf_need_sync new = true ∧
    content (view (ft_storage (ss_ft s'))) new = content (view (ft_storage (ss_ft s))) current ∧
    FS_ENTRY_FILE_CONFLICT_RESOLVED entry_id new_id ∈ ss_events s'.
Proof.
  destruct (on_local_get_ok s parent_id _ Hparent) as (s1 & E1 & Hq1).
  destruct (on_local_get_ok s1 entry_id (LFile current)) as (s2 & E2 & Hq2);
    [by rewrite (sync_tree_quiet s)|].
  assert (copied s s2) as H02 by (apply copied_quiet; by etrans).
  destruct (copy_blocks_ok s2 (lf_blocks current)) as (s3 & E3 & H23).
  { do 2 (eapply Forall_impl; [eassumption|]; intros). by eapply chunk_here_copied. }
  assert (copied s s3) as H03 by by etrans.
  set (new_id := fresh (ft_drawn (ss_ft s3))).
  destruct (Hfresh _ (co_drawn _ _ H03)) as (Hnid1 & Hnid2 & Hnid3 & Hnid4). fold new_id in Hnid1, Hnid2, Hnid3, Hnid4.
  destruct (free_conflict_name parent filename (fim_author r) Hitems) as (new_name & Ek' & Hfree).
  destruct (create_child parent new_name new_id Hfree Hnid4)
    as (parent' & Eev & Hc).
  set (s4 := mkSyncState (draw 1 (ss_ft s3)) (ss_events s3)).
  set (new := mkLocalFileManifest (lf_base (file_new_placeholder local_author parent_id new_id now
    DEFAULT_BLOCK_SIZE)) true now (lf_size current) DEFAULT_BLOCK_SIZE (lf_blocks current)).
  destruct (store_conflict s4 new_id parent_id entry_id new parent' (file_from_remote r))
    as (s5 & s6 & s7 & E5 & E6 & E7 & Ht & Hv).
  eexists _, new_id, new_name, new, parent'. split.
  { unfold file_conflict, mbind, stM_bind, lift_result, of_option, gets in *.
    rewrite E1, E2, Hname, E3. cbn [rm_author].
    rewrite Ek'. fold new_id.
    unfold modify, on_ft at 1. cbn [ss_ft ss_events]. fold s4. fold new.
    cbn [lf_id lf_base file_new_placeholder fim_id]. rewrite Eev.
    change (on_local (set_manifest new_id (LFile _) false ∅) s4)
      with (on_local (set_manifest new_id (LFile new) false ∅) s4).
    rewrite E5, E6, E7. reflexivity. }
  split_and!; [done| |done|done|done|done| |by left].
  { intros e. etrans; [apply Ht|]. repeat case_decide; try done.
    change (sync_tree s4 e) with (sync_tree s3 e). apply (co_tree _ _ H03). }
  apply chunks_bytes_ext. intros id (c & Hin & <-)%elem_of_chunk_id_set.
  change (all_chunks new) with (all_chunks current) in Hin.
  etrans; [apply Hv; intros e; change (pending (ft_storage (ss_ft s4)) e)
    with (pending (ft_storage (ss_ft s3)) e); rewrite (co_pending _ _ H03); by apply Hpending|].
  change (view (ft_storage (ss_ft s4)) (c_id c)) with (view (ft_storage (ss_ft s3)) (c_id c)).
  apply (co_view _ _ H03). unfold all_chunks in Hin.
  apply list_elem_of_In, in_concat in Hin as (cs & Hcs%list_elem_of_In & Hin%list_elem_of_In).
  rewrite Forall_forall in Hdata. specialize (Hdata _ Hcs). rewrite Forall_forall in Hdata.
  by destruct (Hdata _ Hin) as (_ & _ & ?).
Qed.
End sync.

(** ** Witnesses *)

Definition ex_sync_root : LocalFolderish :=
  {| fd_base := BWorkspace (mkWorkspaceManifest ex_author 0 1 1 0 0 {[ "a"%string := 2%N ]});
     fd_need_sync := true; fd_updated := 3;
     fd_children := <[ "b"%string := 3%N ]> {[ "a"%string := 2%N ]};
     fd_confined_entries := ∅; fd_filtered_entries := ∅ |}.
Definition ex_chunk : Chunk := mkChunk 7 0 3 0 3 None.
Definition ex_sync_file : LocalFileManifest :=
  mkLocalFileManifest (mkFileManifest ex_author 0 2 1 1 0 0 0 8 []) true 4 3 8 [[ex_chunk]].
Definition ex_sync_state : SyncState :=
  mkSyncState (mkFTState (mkStorage
    {[ 1%N := LFolderish ex_sync_root; 2%N := LFile ex_sync_file ]} ∅ ∅ None
    {[ 7%N := [Byte.x61; Byte.x62; Byte.x63] ]} ∅ 0 ∅ 0) ∅ 0 []) [].

Lemma synchronization_witness :
  ∃ r s', synchronization_step ex_bob (λ _, false) 6 ex_fresh [] (λ _, []) elements map_to_list
            0 1 None false false ex_sync_state = (s', Ok (Some (Some r))) ∧
    rm_version r = 2.
Proof.
  destruct (synchronization_correct ex_bob (λ _, false) 6 ex_fresh [] (λ _, []) elements map_to_list
    ex_sync_state 0 1 (LFolderish ex_sync_root)
    (remote_of_folderish (folderish_to_remote ex_sync_root ex_bob 6))) as [(s' & E & _ & Hv & _) _].
  - split; [reflexivity|]. split; [constructor; reflexivity|]. split; [|exact I].
    split; [reflexivity|]. split; [reflexivity|]. intros n _. reflexivity.
  - reflexivity.
  - reflexivity.
  - eexists _, s'. split; [exact E|exact Hv].
Defined.

Lemma map_to_list_items (c : gmap EntryName EntryID) : map_to_list c ≡ₚ map_to_list c.
Proof. done. Qed.

Lemma file_conflict_witness :
  ∃ s', file_conflict ex_author (λ _, false) 6 ex_fresh [] (λ _, []) map_to_list 2 1
          (RFile (mkFileManifest ex_bob 5 2 1 2 0 5 0 8 [])) ex_sync_state = (s', Ok tt).
Proof.
  destruct (file_conflict_correct ex_author (λ _, false) 6 ex_fresh [] (λ _, []) map_to_list
    ex_sync_state 2 1 ex_sync_root ex_sync_file "a"%string
    (mkFileManifest ex_bob 5 2 1 2 0 5 0 8 [])) as (s' & _ & _ & _ & _ & E & _).
  - exact map_to_list_items.
  - reflexivity.
  - reflexivity.
  - vm_compute. reflexivity.
  - constructor; [|constructor]. constructor; [|constructor]. split; [eexists; reflexivity|].
    split; [reflexivity|]. intros k _. unfold ex_fresh. cbn [c_id ex_chunk]. lia.
  - intros e c _ H. cbn in H. set_solver.
  - intros k _. unfold ex_fresh. split; [lia|]. split; [lia|]. split.
    + unfold sync_tree, tree, current, ex_sync_state. cbn [ss_ft ft_storage st_cache st_vlobs].
      rewrite lookup_insert_ne, lookup_singleton_ne by lia. reflexivity.
    + intros n H. cbn in H. apply lookup_insert_Some in H as [[_ H]|[_ H]]; [lia|].
      apply lookup_singleton_Some in H as [_ H]. lia.
  - discriminate.
  - exists s'. exact E.
Defined.
