(* ===== verification/Backend.v ===== *)
(** The state of the server: the data of the components of
    [backendService/memory/], the events they send, the exceptions they raise and
    the replies of their API. The components share one state here, as they hold
    references to each other in the code. *)

From S2P Require Import Prelude Types.

(** ** Users: [backendService/user.py] *)

Record Device := mkDevice {
  d_device_id : DeviceID;
  d_device_label : option string;
  d_device_certificate : bytes;
  d_redacted_device_certificate : bytes;
  d_device_certifier : option DeviceID;
  d_created_on : DateTime }.
#[export] Instance Device_eq_dec : EqDecision Device.
Proof. solve_decision. Defined.

Record User := mkUser {
  u_user_id : UserID;
  u_human_handle : option HumanHandle;
  u_user_certificate : bytes;
  u_redacted_user_certificate : bytes;
  u_user_certifier : option DeviceID;
  u_profile : UserProfile;
  u_created_on : DateTime;
  u_revoked_on : option DateTime;
  u_revoked_user_certificate : option bytes;
  u_revoked_user_certifier : option DeviceID }.
#[export] Instance User_eq_dec : EqDecision User.
Proof. solve_decision. Defined.

(** [User.is_revoked] at time [now] *)
Definition user_is_revoked (now : DateTime) (u : User) : bool :=
  match u_revoked_on u with
  | Some revoked_on => revoked_on <=? now
  | None => false
  end.

(** [UserInvitation] and [DeviceInvitation] *)
Record UserInvitation := mkUserInvitation {
  ui_user_id : UserID; ui_creator : DeviceID; ui_created_on : DateTime }.
Record DeviceInvitation := mkDeviceInvitation {
  di_device_id : DeviceID; di_creator : DeviceID; di_created_on : DateTime }.

(** [OrganizationStore]: handles are keys by their email, as their [__eq__] and
    [__hash__] are; [invitations] has user ids and device ids as keys. *)
Record OrganizationStore := mkOrganizationStore {
  os_human_handle_to_user_id : gmap string UserID;
  os_users : gmap UserID User;
  os_devices : gmap UserID (gmap DeviceName Device);
  os_user_invitations : gmap UserID UserInvitation;
  os_device_invitations : gmap DeviceID DeviceInvitation }.
Definition empty_organization_store : OrganizationStore := mkOrganizationStore ∅ ∅ ∅ ∅ ∅.

(** ** Realms: [backendService/realm.py], [backendService/memory/realm.py] *)

Record RealmGrantedRole := mkRealmGrantedRole {
  gr_certificate : bytes;
  gr_realm_id : UUID;
  gr_user_id : UserID;
  gr_role : option RealmRole;
  gr_granted_by : DeviceID;
  gr_granted_on : DateTime }.
#[export] Instance RealmGrantedRole_eq_dec : EqDecision RealmGrantedRole.
Proof. solve_decision. Defined.

Record RealmStatus := mkRealmStatus {
  rs_maintenance_type : option MaintenanceType;
  rs_maintenance_started_on : option DateTime;
  rs_maintenance_started_by : option DeviceID;
  rs_encryption_revision : Z }.
#[export] Instance RealmStatus_eq_dec : EqDecision RealmStatus.
Proof. solve_decision. Defined.

(** [RealmStatus.in_maintenance] *)
Definition in_maintenance (s : RealmStatus) : bool :=
  match rs_maintenance_type s with Some _ => true | None => false end.

Record Realm := mkRealm {
  r_status : RealmStatus;
  r_checkpoint : Z;
  r_granted_roles : list RealmGrantedRole }.
(** The defaults of [Realm]. *)
Definition new_realm (granted_roles : list RealmGrantedRole) : Realm :=
  mkRealm (mkRealmStatus None None None 1) 0 granted_roles.

(** One turn of the loops that compute the roles. *)
Definition apply_role (roles : gmap UserID RealmRole) (x : RealmGrantedRole)
    : gmap UserID RealmRole :=
  match gr_role x with
  | None => delete (gr_user_id x) roles
  | Some role => <[gr_user_id x := role]> roles
  end.
(** [Realm.roles]: the roles in the order of their dates. *)
Definition granted_leb (x y : RealmGrantedRole) : bool := gr_granted_on x <=? gr_granted_on y.
Definition realm_roles (r : Realm) : gmap UserID RealmRole :=
  foldl apply_role ∅ (py_sorted granted_leb (r_granted_roles r)).
(** The loop of [get_current_roles]: the roles in the order they were added. *)
Definition current_roles (r : Realm) : gmap UserID RealmRole :=
  foldl apply_role ∅ (r_granted_roles r).

(** ** Vlobs: [backendService/memory/vlob.py] *)

(** One version of a vlob: its blob, its author and its timestamp. *)
Abbreviation VlobVersion := (bytes * DeviceID * DateTime)%type (only parsing).
Record Vlob := mkVlob { v_realm_id : UUID; v_data : list VlobVersion }.
#[export] Instance Vlob_eq_dec : EqDecision Vlob.
Proof. solve_decision. Defined.
(** [Vlob.current_version] *)
Definition current_version (v : Vlob) : Z := Z.of_nat (length (v_data v)).

(** [Reencryption]: [_original_vlobs] refers to the objects of the vlob store,
    and is the list of their ids here. *)
Record Reencryption := mkReencryption {
  re_realm_id : UUID;
  re_original_vlobs : list UUID;
  re_todo : odict (UUID * Z) bytes;
  re_done : odict (UUID * Z) bytes;
  re_total : Z }.
Record Changes := mkChanges {
  ch_checkpoint : Z;
  ch_changes : gmap UUID (DeviceID * Z * Z);
  ch_reencryption : option Reencryption }.
Definition empty_changes : Changes := mkChanges 0 ∅ None.

(** ** Blocks and organizations *)

Record BlockMeta := mkBlockMeta { bm_realm_id : UUID; bm_size : Z }.
#[export] Instance BlockMeta_eq_dec : EqDecision BlockMeta.
Proof. solve_decision. Defined.

(** A [VerifyKey] wraps a libsodium value: a byte string here. *)
Abbreviation VerifyKey := bytes (only parsing).
Record Organization := mkOrganization {
  o_organization_id : OrganizationID;
  o_bootstrap_token : string;
  o_expiration_date : option DateTime;
  o_root_verify_key : option VerifyKey }.
#[export] Instance Organization_eq_dec : EqDecision Organization.
Proof. solve_decision. Defined.

(** ** Events, exceptions and replies *)

Inductive BackendEvent :=
| USER_CREATED (org : OrganizationID) (user_id : UserID) (user_certificate : bytes)
    (first_device_id : DeviceID) (first_device_certificate : bytes)
| USER_REVOKED (org : OrganizationID) (user_id : UserID)
| USER_CLAIMED (org : OrganizationID) (user_id : UserID) (encrypted_claim : bytes)
| USER_INVITATION_CANCELLED (org : OrganizationID) (user_id : UserID)
| DEVICE_CLAIMED (org : OrganizationID) (device_id : DeviceID) (encrypted_claim : bytes)
| DEVICE_INVITATION_CANCELLED (org : OrganizationID) (device_id : DeviceID)
| MESSAGE_RECEIVED (org : OrganizationID) (author : DeviceID) (recipient : UserID) (index : Z)
| REALM_ROLES_UPDATED (org : OrganizationID) (author : DeviceID) (realm_id : UUID)
    (user : UserID) (role : option RealmRole)
| REALM_MAINTENANCE_STARTED (org : OrganizationID) (author : DeviceID) (realm_id : UUID)
    (encryption_revision : Z)
| REALM_MAINTENANCE_FINISHED (org : OrganizationID) (author : DeviceID) (realm_id : UUID)
    (encryption_revision : Z)
| REALM_VLOBS_UPDATED (org : OrganizationID) (author : DeviceID) (realm_id : UUID)
    (checkpoint : Z) (src_id : UUID) (src_version : Z).
#[export] Instance BackendEvent_eq_dec : EqDecision BackendEvent.
Proof. solve_decision. Defined.

(** The exception classes of the components, and Python's own. *)
Inductive BackendExn :=
| BAssertionError | BKeyError | BIndexError | BRecursionError | BStructError
| UserNotFoundError | UserAlreadyExistsError | UserAlreadyRevokedError
| RealmAccessError | RealmIncompatibleProfileError | RealmNotFoundError
| RealmAlreadyExistsError | RealmRoleAlreadyGranted | RealmEncryptionRevisionError
| RealmParticipantsMismatchError | RealmInMaintenanceError | RealmNotInMaintenanceError
| RealmMaintenanceError
| VlobAccessError | VlobVersionError | VlobTimestampError | VlobNotFoundError
| VlobAlreadyExistsError | VlobEncryptionRevisionError | VlobInMaintenanceError
| VlobNotInMaintenanceError | VlobMaintenanceError
| BlockAlreadyExistsError | BlockNotFoundError | BlockTimeoutError | BlockAccessError
| BlockInMaintenanceError
| OrganizationAlreadyExistsError | OrganizationAlreadyBootstrappedError
| OrganizationNotFoundError | OrganizationInvalidBootstrapTokenError
| OrganizationFirstUserCreationError.
#[export] Instance BackendExn_eq_dec : EqDecision BackendExn.
Proof. solve_decision. Defined.

(** A reply of the API: its data, or a status other than ["ok"]. *)
Inductive reply (A : Type) :=
| RepOk (a : A)
| RepError (status : string).
Arguments RepOk {A} a.
Arguments RepError {A} status.
#[export] Instance reply_eq_dec `{EqDecision A} : EqDecision (reply A).
Proof. solve_decision. Defined.

(** ** The state *)

Record Backend := mkBackend {
  be_orgstores : gmap OrganizationID OrganizationStore;
  be_messages : gmap (OrganizationID * UserID) (list (DeviceID * DateTime * bytes));
  be_realms : gmap (OrganizationID * UUID) Realm;
  be_vlobs : odict (OrganizationID * UUID) Vlob;
  be_changes : gmap (OrganizationID * UUID) Changes;
  be_blockmetas : gmap (OrganizationID * UUID) BlockMeta;
  be_blocks : gmap (OrganizationID * UUID) bytes;
  be_organizations : gmap OrganizationID Organization;
  be_events : list BackendEvent }.
Definition empty_backend : Backend := mkBackend ∅ ∅ ∅ [] ∅ ∅ ∅ ∅ [].

Abbreviation backendM := (stM Backend BackendExn) (only parsing).

Definition set_orgstores f (s : Backend) : Backend :=
  mkBackend (f (be_orgstores s)) (be_messages s) (be_realms s) (be_vlobs s) (be_changes s)
    (be_blockmetas s) (be_blocks s) (be_organizations s) (be_events s).
Definition set_messages f (s : Backend) : Backend :=
  mkBackend (be_orgstores s) (f (be_messages s)) (be_realms s) (be_vlobs s) (be_changes s)
    (be_blockmetas s) (be_blocks s) (be_organizations s) (be_events s).
Definition set_realms f (s : Backend) : Backend :=
  mkBackend (be_orgstores s) (be_messages s) (f (be_realms s)) (be_vlobs s) (be_changes s)
    (be_blockmetas s) (be_blocks s) (be_organizations s) (be_events s).
Definition set_be_vlobs f (s : Backend) : Backend :=
  mkBackend (be_orgstores s) (be_messages s) (be_realms s) (f (be_vlobs s)) (be_changes s)
    (be_blockmetas s) (be_blocks s) (be_organizations s) (be_events s).
Definition set_changes f (s : Backend) : Backend :=
  mkBackend (be_orgstores s) (be_messages s) (be_realms s) (be_vlobs s) (f (be_changes s))
    (be_blockmetas s) (be_blocks s) (be_organizations s) (be_events s).
Definition set_blockmetas f (s : Backend) : Backend :=
  mkBackend (be_orgstores s) (be_messages s) (be_realms s) (be_vlobs s) (be_changes s)
    (f (be_blockmetas s)) (be_blocks s) (be_organizations s) (be_events s).
Definition set_be_blocks f (s : Backend) : Backend :=
  mkBackend (be_orgstores s) (be_messages s) (be_realms s) (be_vlobs s) (be_changes s)
    (be_blockmetas s) (f (be_blocks s)) (be_organizations s) (be_events s).
Definition set_organizations f (s : Backend) : Backend :=
  mkBackend (be_orgstores s) (be_messages s) (be_realms s) (be_vlobs s) (be_changes s)
    (be_blockmetas s) (be_blocks s) (f (be_organizations s)) (be_events s).
(** [self._send_event(event)]: the last event comes first. *)
Definition add_event (e : BackendEvent) (s : Backend) : Backend :=
  mkBackend (be_orgstores s) (be_messages s) (be_realms s) (be_vlobs s) (be_changes s)
    (be_blockmetas s) (be_blocks s) (be_organizations s) (e :: be_events s).
Definition send_backend_event (e : BackendEvent) : backendM unit := modify (add_event e).

(** [assert b] *)
Definition be_assert (b : bool) : backendM unit := raise_if (negb b) BAssertionError.

(** [self._organizations[organization_id]] of the user component, a
    [defaultdict]. *)
Definition orgstore (s : Backend) (org : OrganizationID) : OrganizationStore :=
  default empty_organization_store (be_orgstores s !! org).
Definition set_orgstore (org : OrganizationID) (f : OrganizationStore → OrganizationStore)
    : backendM unit :=
  modify (λ s, set_orgstores <[org := f (orgstore s org)]> s).

(** [MemoryRealmComponent._get_realm] *)
Definition get_realm (org : OrganizationID) (realm_id : UUID) : backendM Realm :=
  realms ← gets be_realms;
  of_option RealmNotFoundError (realms !! (org, realm_id)).

(** The context of an authenticated client. *)
Record ClientCtx := mkClientCtx {
  cc_organization_id : OrganizationID;
  cc_device_id : DeviceID;
  cc_profile : UserProfile;
  cc_verify_key : VerifyKey }.
Definition cc_user_id (c : ClientCtx) : UserID := user_id (cc_device_id c).

(** [try: a = m; return ok(a) except E: return {"status": ...}]: [status] gives
    the status of the exceptions that are caught. *)
Definition reply_of {A B} (m : backendM A) (status : BackendExn → option string) (ok : A → B)
    : backendM (reply B) :=
  try_catch (a ← m; mret (RepOk (ok a))) (λ e,
    match status e with
    | Some st => mret (RepError st)
    | None => mthrow e
    end).

(** ** Computing with results *)

(** What a handler does to the state is what its body does. *)
Lemma reply_of_inv {A B} (m : backendM A) status (ok : A → B) s s' r :
  reply_of m status ok s = (s', r) →
  ∃ r', m s = (s', r') ∧
    r = match r' with
        | Ok a => Ok (RepOk (ok a))
        | Err e => match status e with Some st => Ok (RepError st) | None => Err e end
        end.
Proof.
  unfold reply_of, try_catch, mbind, stM_bind. destruct (m s) as [s1 [a|e]]; cbn.
  - intros [= <- <-]. by eexists.
  - destruct (status e) eqn:E; intros [= <- <-]; eexists; (split; [done|cbn; by rewrite E]).
Qed.
Lemma try_catch_inv {S E A} (m : stM S E A) h s s' r :
  try_catch m h s = (s', r) →
  (∃ a, m s = (s', Ok a) ∧ r = Ok a) ∨ (∃ e s1, m s = (s1, Err e) ∧ h e s1 = (s', r)).
Proof. unfold try_catch. destruct (m s) as [s1 [a|e]]; naive_solver. Qed.
Lemma for_each_inv {S E A} (P : S → Prop) (f : A → stM S E unit) l s s' r :
  (∀ x s s' r, x ∈ l → P s → f x s = (s', r) → P s') →
  P s → for_each f l s = (s', r) → P s'.
Proof.
  intros Hf. revert s. induction l as [|x l IH]; cbn; intros s HP H.
  - by injection H as <- <-.
  - apply bind_inv in H as [([] & s1 & H1 & H)|(e & H1 & ->)].
    + eapply (IH (λ x s s' r Hin, Hf x s s' r ltac:(by right))); [|exact H].
      eapply Hf; [by left|exact HP|exact H1].
    + eapply Hf; [by left|exact HP|exact H1].
Qed.

(** The inversion of a run [H : m s = (s', r)] of monadic code: one step, then
    all of them. A run is split at its first bind into the run of the first call
    and the run of the rest; the runs of the primitives become equations. *)
Ltac minv_eq H :=
  first
    [ discriminate H
    | injection H; clear H; intros;
      repeat match goal with E : _ = ?y |- _ => is_var y; subst y end; subst ].
Ltac minv_base H :=
  lazymatch type of H with
  | gets _ _ = _ => unfold gets in H; minv_eq H
  | modify _ _ = _ => unfold modify in H; minv_eq H
  | send_backend_event _ _ = _ => unfold send_backend_event, modify in H; minv_eq H
  | set_orgstore _ _ _ = _ => unfold set_orgstore, modify in H; minv_eq H
  | mret _ _ = _ => unfold mret, stM_ret in H; minv_eq H
  | mthrow _ _ = _ => unfold mthrow, stM_throw in H; minv_eq H
  | lift_result _ _ = _ => unfold lift_result in H; minv_eq H
  | be_assert _ _ = _ => unfold be_assert in H; minv_base H
  | raise_if _ _ _ = _ => apply raise_if_inv in H as [-> [[?Hc ?Hr]|[?Hc ?Hr]]]; simplify_eq
  | of_option _ _ _ = _ =>
      apply of_option_inv in H as [-> [[?Hc ?Hr]|(? & ?Hc & ?Hr)]]; simplify_eq
  | _ => idtac
  end.
Ltac minv H :=
  lazymatch type of H with
  | mbind _ _ _ = (_, _) =>
      let H1 := fresh "Hrun" in
      apply bind_inv in H; destruct H as [(? & ? & H1 & H)|(? & H1 & ?)];
      [cbv beta in H; minv_base H1|minv_base H1; simplify_eq]
  | _ => minv_base H
  end.
Ltac minv_all :=
  repeat match goal with
  | H : mbind _ _ _ = (_, _) |- _ => minv H
  | H : ?m ?s = (_, _) |- _ => progress minv_base H
  end.

(** ** The setters *)

Lemma orgstore_set s org o : orgstore (set_orgstores <[org := o]> s) org = o.
Proof. unfold orgstore, set_orgstores. cbn. by rewrite lookup_insert_eq. Qed.
Lemma orgstore_set_ne s org org' o :
  org ≠ org' → orgstore (set_orgstores <[org := o]> s) org' = orgstore s org'.
Proof. intros. unfold orgstore, set_orgstores. cbn. by rewrite lookup_insert_ne. Qed.
Lemma set_orgstores_twice s org o o' :
  set_orgstores <[org := o']> (set_orgstores <[org := o]> s) = set_orgstores <[org := o']> s.
Proof. unfold set_orgstores. cbn. by rewrite insert_insert_eq. Qed.
Lemma orgstore_add_event e s org : orgstore (add_event e s) org = orgstore s org.
Proof. done. Qed.
Lemma orgstore_set_organizations f s org : orgstore (set_organizations f s) org = orgstore s org.
Proof. done. Qed.
#[export] Hint Rewrite orgstore_set set_orgstores_twice orgstore_add_event : backend.
