(* ===== verification/BlockCache.v ===== *)
(** The bounds of the cache of blocks: [BlockStorage] of
    [guardata/client/fs/storage/chunk_storage.py]. *)

From S2P Require Import Prelude Types ApiManifest Chunk LocalManifest Storage Backend.

(** ** Removing the oldest blocks *)

#[local] Instance older_total : Total older.
Proof. intros r1 r2. unfold older. lia. Qed.
#[local] Instance older_trans : Transitive older.
Proof. intros r1 r2 r3. unfold older. lia. Qed.

Definition rows (blocks : gmap ChunkID BlockRow) : list (ChunkID * BlockRow) :=
  merge_sort older (map_to_list blocks).
Lemma rows_perm blocks : rows blocks ≡ₚ map_to_list blocks.
Proof. apply merge_sort_Permutation. Qed.
Lemma rows_NoDup blocks : NoDup (rows blocks).*1.
Proof. rewrite rows_perm. apply NoDup_fst_map_to_list. Qed.
Lemma length_rows blocks : length (rows blocks) = size blocks.
Proof. by rewrite (Permutation_length (rows_perm blocks)), length_map_to_list. Qed.
Lemma rows_sorted blocks : StronglySorted older (rows blocks).
Proof. apply StronglySorted_merge_sort; apply _. Qed.

Lemma foldl_delete_lookup (l : list (ChunkID * BlockRow)) (blocks : gmap ChunkID BlockRow) k :
  foldl (λ blocks r, delete r.1 blocks) blocks l !! k =
    if decide (k ∈ l.*1) then None else blocks !! k.
Proof.
  revert blocks. induction l as [|[i x] l IH]; intros blocks; [by rewrite decide_False by set_solver|].
  cbn. rewrite IH. destruct (decide (k = i)) as [->|Hne].
  - rewrite lookup_delete_eq. rewrite (decide_True (P := i ∈ i :: _)) by set_solver. by case_decide.
  - rewrite lookup_delete_ne by done.
    destruct (decide (k ∈ l.*1)); [by rewrite decide_True by set_solver|by rewrite decide_False by set_solver].
Qed.

(** What is left are the last ones of the list. *)
Lemma clear_old_blocks_eq limit blocks :
  0 <= limit →
  clear_old_blocks limit blocks = list_to_map (drop (Z.to_nat limit) (rows blocks)).
Proof.
  intros Hlimit. unfold clear_old_blocks. fold (rows blocks).
  rewrite (proj2 (Z.ltb_ge _ _)) by done. apply map_eq. intros k. rewrite foldl_delete_lookup.
  pose proof (rows_NoDup blocks) as Hnd.
  rewrite <-(take_drop (Z.to_nat limit) (rows blocks)), fmap_app in Hnd.
  apply NoDup_app in Hnd as (Hnd1 & Hdisj & Hnd2).
  case_decide as Hin.
  - symmetry. apply not_elem_of_list_to_map_1. by apply Hdisj.
  - apply option_eq. intros x. rewrite <-elem_of_list_to_map by done.
    rewrite <-elem_of_map_to_list, <-rows_perm.
    rewrite <-(take_drop (Z.to_nat limit) (rows blocks)) at 1. rewrite elem_of_app. split; [|by right].
    intros [Hx|]; [|done]. destruct Hin. by apply (list_elem_of_fmap_2 fst) in Hx.
Qed.
Lemma clear_old_blocks_size limit blocks :
  0 <= limit → Z.of_nat (size (clear_old_blocks limit blocks)) = Z.max 0 (Z.of_nat (size blocks) - limit).
Proof.
  intros Hlimit. rewrite clear_old_blocks_eq, map_size_list_to_map by (done ||
    (rewrite fmap_drop; eapply sublist_NoDup; [apply rows_NoDup|apply sublist_drop])).
  rewrite length_drop, length_rows. lia.
Qed.
Lemma clear_old_blocks_subseteq limit blocks : 0 <= limit → clear_old_blocks limit blocks ⊆ blocks.
Proof.
  intros Hlimit. apply map_subseteq_spec. intros k x. unfold clear_old_blocks.
  rewrite foldl_delete_lookup. by case_decide.
Qed.
(** The blocks that go are older than the ones that stay. *)
Lemma clear_old_blocks_oldest limit blocks i x j y :
  0 <= limit → blocks !! i = Some x → clear_old_blocks limit blocks !! i = None →
  clear_old_blocks limit blocks !! j = Some y → br_accessed_on x <= br_accessed_on y.
Proof.
  intros Hlimit Hx Hi Hy. rewrite clear_old_blocks_eq in Hi, Hy by done.
  apply elem_of_list_to_map_2 in Hy.
  pose proof (rows_sorted blocks) as Hs. rewrite <-(take_drop (Z.to_nat limit) (rows blocks)) in Hs.
  apply (StronglySorted_app_1_elem_of _ _ _ (i, x) (j, y)) in Hs; [done| |done].
  apply elem_of_map_to_list in Hx. rewrite <-rows_perm, <-(take_drop (Z.to_nat limit) (rows blocks)) in Hx.
  apply elem_of_app in Hx as [Hx|Hx]; [done|]. exfalso.
  apply not_elem_of_list_to_map_2 in Hi. apply Hi. by apply (list_elem_of_fmap_2 fst) in Hx.
Qed.

(** ** The cache along the operations *)

Section cache.
Context (cache_size : Z) (block_size : Z).

(** What the blocks of the cache take. *)
Definition data_size (blocks : gmap ChunkID BlockRow) : Z :=
  foldr (λ r n, Z.of_nat (length (br_data r.2)) + n) 0 (map_to_list blocks).

(** The operations that change the cache, for blocks of at most [block_size] bytes;
    the other ones leave it as it is. *)
Inductive cache_step (s s' : Storage) : Prop :=
  | CacheSet id raw :
      Z.of_nat (length raw) <= block_size →
      set_clean_block cache_size id raw s = (s', Ok tt) → cache_step s s'
  | CacheGet id r : get_chunk id s = (s', r) → cache_step s s'
  | CacheClear id : clear_clean_block id s = (s', Ok tt) → cache_step s s'
  | CacheOther : st_blocks s' = st_blocks s → st_clock s' = st_clock s → cache_step s s'.

Record cache_ok (s : Storage) : Prop := {
  co_count : Z.of_nat (size (st_blocks s)) <= block_limit cache_size;
  co_dates id row : st_blocks s !! id = Some row → br_accessed_on row < st_clock s;
  co_data id row : st_blocks s !! id = Some row → Z.of_nat (length (br_data row)) <= block_size }.

Context (cache_size_nonneg : 0 <= cache_size).
Lemma block_limit_nonneg : 0 <= block_limit cache_size.
Proof. apply Z.div_pos; [done|]. unfold DEFAULT_BLOCK_SIZE. lia. Qed.

(** The cache after a new block, and the number of blocks that go. *)
Definition with_block (id : ChunkID) (raw : bytes) (s : Storage) : gmap ChunkID BlockRow :=
  <[id := mkBlockRow (st_clock s) raw]> (st_blocks s).
Lemma block_storage_set_cases id raw (s : Storage) :
  let blocks := with_block id raw s in
  let extra := Z.of_nat (size blocks) - block_limit cache_size in
  ∃ s', set_clean_block cache_size id raw s = (s', Ok tt) ∧ st_clock s' = st_clock s + 1 ∧
    st_blocks s' = (if 0 <? extra then clear_old_blocks (extra + block_limit cache_size / 10) blocks
                    else blocks).
Proof. cbv zeta. eexists. split; [done|]. by split. Qed.

Lemma with_block_dates id raw s :
  cache_ok s → ∀ i row, with_block id raw s !! i = Some row → br_accessed_on row < st_clock s + 1.
Proof.
  intros Hs i row. unfold with_block. destruct (decide (id = i)) as [<-|Hne].
  - rewrite lookup_insert_eq. intros [= <-]. cbn. lia.
  - rewrite lookup_insert_ne by done. intros Hi%(co_dates _ Hs). lia.
Qed.

(** The new block stays, as the last one that was used. *)
Lemma new_block_kept id raw s limit :
  cache_ok s → 0 <= limit < Z.of_nat (size (with_block id raw s)) →
  clear_old_blocks limit (with_block id raw s) !! id = Some (mkBlockRow (st_clock s) raw).
Proof.
  intros Hs [Hl Hlt]. set (blocks := with_block id raw s) in *.
  assert (blocks !! id = Some (mkBlockRow (st_clock s) raw)) as Hid by apply lookup_insert_eq.
  destruct (map_choose (clear_old_blocks limit blocks)) as (j & y & Hj).
  { intros E. pose proof (clear_old_blocks_size limit blocks Hl) as Hsz.
    rewrite E, map_size_empty in Hsz. lia. }
  pose proof (lookup_weaken _ _ _ _ Hj (clear_old_blocks_subseteq _ _ Hl)) as Hy.
  destruct (clear_old_blocks limit blocks !! id) as [x|] eqn:Ex.
  { pose proof (lookup_weaken _ _ _ _ Ex (clear_old_blocks_subseteq _ _ Hl)) as Hx. congruence. }
  pose proof (clear_old_blocks_oldest _ _ _ _ _ _ Hl Hid Ex Hj) as Hold. cbn in Hold.
  unfold blocks, with_block in Hy. rewrite lookup_insert_ne in Hy by congruence.
  apply (co_dates _ Hs) in Hy. lia.
Qed.

Lemma set_clean_block_ok id raw s s' :
  cache_ok s → Z.of_nat (length raw) <= block_size →
  set_clean_block cache_size id raw s = (s', Ok tt) →
  cache_ok s' ∧
  (1 <= block_limit cache_size → br_data <$> st_blocks s' !! id = Some raw) ∧
  (block_limit cache_size = 0 → st_blocks s' = ∅) ∧
  ∀ i x j y, i ≠ id → st_blocks s !! i = Some x → st_blocks s' !! i = None →
    st_blocks s' !! j = Some y → br_accessed_on x <= br_accessed_on y.
Proof.
  intros Hs Hraw Hrun. pose proof block_limit_nonneg as Hlim.
  destruct (block_storage_set_cases id raw s) as (s1 & E & Hclock & Hblocks).
  rewrite Hrun in E. injection E as <-. clear Hrun.
  pose proof (with_block_dates id raw s Hs) as Hdates.
  pose proof (new_block_kept id raw s) as Hnew.
  assert (∀ i row, with_block id raw s !! i = Some row → Z.of_nat (length (br_data row)) <= block_size)
    as Hdata.
  { intros i row. unfold with_block. destruct (decide (id = i)) as [<-|Hne].
    - rewrite lookup_insert_eq. by intros [= <-].
    - rewrite lookup_insert_ne by done. apply (co_data _ Hs). }
  set (blocks := with_block id raw s) in *. cbv zeta in Hblocks.
  set (extra := Z.of_nat (size blocks) - block_limit cache_size) in *.
  assert (0 <= block_limit cache_size / 10) as Hten by (apply Z.div_pos; lia).
  destruct (Z.ltb_spec 0 extra) as [Hextra|Hextra].
  - set (limit := extra + block_limit cache_size / 10) in *.
    pose proof (clear_old_blocks_size limit blocks ltac:(lia)) as Hsize.
    pose proof (clear_old_blocks_subseteq limit blocks ltac:(lia)) as Hsub.
    rewrite Hblocks. split_and!.
    + constructor; rewrite ?Hblocks; [lia|intros i row Hi..].
      * rewrite Hclock. eapply Hdates, (lookup_weaken _ _ _ _ Hi Hsub).
      * eapply Hdata, (lookup_weaken _ _ _ _ Hi Hsub).
    + intros Hone. rewrite Hnew; [done|done|]. split; [lia|].
      assert (block_limit cache_size / 10 < block_limit cache_size) by (apply Z.div_lt; lia). lia.
    + intros Hzero. apply map_size_empty_inv. lia.
    + intros i x j y Hne Hx Hi Hj. apply (clear_old_blocks_oldest limit blocks i x j y); [lia| |done..].
      unfold blocks, with_block. by rewrite lookup_insert_ne.
  - rewrite Hblocks. split_and!.
    + constructor; rewrite ?Hblocks; [lia| |done]. by rewrite Hclock.
    + intros _. unfold blocks, with_block. by rewrite lookup_insert_eq.
    + intros Hzero. apply map_size_empty_inv. lia.
    + intros i x j y Hne Hx Hi. unfold blocks, with_block in Hi.
      rewrite lookup_insert_ne in Hi by done. congruence.
Qed.

Lemma get_chunk_cache id s s' r :
  get_chunk id s = (s', r) →
  s' = s ∨ ∃ row, st_blocks s !! id = Some row ∧
    s' = tick (set_blocks (<[id := mkBlockRow (st_clock s) (br_data row)]>) s).
Proof.
  unfold get_chunk, try_catch, chunk_storage_get, gets, of_option, mbind, stM_bind.
  destruct (st_chunks s !! id); [intros [= <- _]; by left|].
  unfold block_storage_get. destruct (st_blocks s !! id) as [row|] eqn:E; intros [= <- _]; eauto.
Qed.

Lemma cache_step_ok s s' : cache_ok s → cache_step s s' → cache_ok s'.
Proof.
  intros Hs [id raw Hraw Hrun|id r Hrun|id Hrun|Hb Hc].
  - by apply (set_clean_block_ok id raw s s').
  - apply get_chunk_cache in Hrun as [->|(row & Hrow & ->)]; [done|].
    destruct Hs as [Hcount Hdates Hdata]. constructor; cbn.
    + rewrite map_size_insert_Some; [done|by eexists].
    + intros i row'. destruct (decide (id = i)) as [<-|Hne].
      * rewrite lookup_insert_eq. intros [= <-]. cbn. lia.
      * rewrite lookup_insert_ne by done. intros Hi%Hdates. lia.
    + intros i row'. destruct (decide (id = i)) as [<-|Hne].
      * rewrite lookup_insert_eq. intros [= <-]. exact (Hdata id row Hrow).
      * rewrite lookup_insert_ne by done. apply Hdata.
  - injection Hrun as <-. destruct Hs as [Hcount Hdates Hdata]. constructor; cbn.
    + etrans; [|exact Hcount].
      apply inj_le, map_subseteq_size, delete_subseteq.
    + intros i row [_ Hi]%lookup_delete_Some. by eapply Hdates.
    + intros i row [_ Hi]%lookup_delete_Some. by eapply Hdata.
  - destruct Hs as [Hcount Hdates Hdata]. constructor; rewrite ?Hb, ?Hc; done.
Qed.

Lemma data_size_le blocks :
  (∀ id row, blocks !! id = Some row → Z.of_nat (length (br_data row)) <= block_size) →
  data_size blocks <= Z.of_nat (size blocks) * block_size.
Proof.
  intros Hdata. unfold data_size. rewrite <-length_map_to_list.
  assert (∀ r, r ∈ map_to_list blocks → Z.of_nat (length (br_data r.2)) <= block_size) as Hl.
  { intros [id row] Hr%elem_of_map_to_list. by eapply Hdata. }
  clear Hdata. induction (map_to_list blocks) as [|r l IH]; cbn [foldr length]; [lia|].
  assert (Z.of_nat (length (br_data r.2)) <= block_size) by (apply Hl; by left).
  assert (foldr (λ r n, Z.of_nat (length (br_data r.2)) + n) 0 l <= Z.of_nat (length l) * block_size)
    by (apply IH; intros r' Hr'; apply Hl; by right). lia.
Qed.

Lemma cache_steps_ok s s' : cache_ok s → rtc cache_step s s' → cache_ok s'.
Proof. intros Hs Hr. induction Hr as [|s s1 s' Hstep _ IH]; [done|]. by apply IH, (cache_step_ok s). Qed.

(** The cache of blocks is bounded: whatever blocks are read, downloaded and
    removed, it never holds more than [block_limit] blocks, hence at most the size
    it was given when no block is larger than [DEFAULT_BLOCK_SIZE]. The block that
    is put in is there afterwards, and the blocks that make room for it are the ones
    that were used the longest time ago; but a cache that is smaller than one block
    never holds anything, even the block that has just been downloaded. *)
Theorem block_cache_bounded s s' :
  st_blocks s = ∅ → rtc cache_step s s' →
  Z.of_nat (size (st_blocks s')) <= block_limit cache_size ∧
  (block_size <= DEFAULT_BLOCK_SIZE → data_size (st_blocks s') <= cache_size) ∧
  ∀ id raw, Z.of_nat (length raw) <= block_size →
    ∃ s'', set_clean_block cache_size id raw s' = (s'', Ok tt) ∧
      (DEFAULT_BLOCK_SIZE <= cache_size → br_data <$> st_blocks s'' !! id = Some raw) ∧
      (cache_size < DEFAULT_BLOCK_SIZE → st_blocks s'' = ∅) ∧
      ∀ i x j y, i ≠ id → st_blocks s' !! i = Some x → st_blocks s'' !! i = None →
        st_blocks s'' !! j = Some y → br_accessed_on x <= br_accessed_on y.
Proof.
  intros Hempty Hrun.
  assert (cache_ok s') as Hs'.
  { eapply cache_steps_ok; [|exact Hrun]. constructor; rewrite Hempty; [|done..].
    rewrite map_size_empty. apply block_limit_nonneg. }
  pose proof block_limit_nonneg as Hlim.
  assert (block_limit cache_size * DEFAULT_BLOCK_SIZE <= cache_size) as Hmul.
  { unfold block_limit. rewrite Z.mul_comm. apply Z.mul_div_le. unfold DEFAULT_BLOCK_SIZE. lia. }
  split; [apply Hs'|]. split.
  - intros Hsize. pose proof (data_size_le _ (co_data _ Hs')) as Hd. pose proof (co_count _ Hs') as Hc.
    unfold DEFAULT_BLOCK_SIZE in *. nia.
  - intros id raw Hraw. destruct (block_storage_set_cases id raw s') as (s'' & E & _).
    exists s''. split; [exact E|].
    destruct (set_clean_block_ok id raw s' s'' Hs' Hraw E) as (_ & Hkept & Hnone & Hold).
    split_and!; [| |exact Hold].
    + intros Hbig. apply Hkept. unfold block_limit. apply Z.div_le_lower_bound; unfold DEFAULT_BLOCK_SIZE in *; lia.
    + intros Hsmall. apply Hnone. apply Z.div_small. lia.
Qed.
End cache.

(** Two blocks in a cache for one: the second one takes the place of the first. *)
Definition bc_start : Storage := mkStorage ∅ ∅ ∅ None ∅ ∅ 0 ∅ 0.
Definition bc_one : Storage := (set_clean_block 4194304 1%N [Byte.x61] bc_start).1.
Definition bc_two : Storage := (set_clean_block 4194304 2%N [Byte.x62] bc_one).1.
Lemma block_cache_bounded_witness :
  Z.of_nat (size (st_blocks bc_two)) <= 1 ∧ data_size (st_blocks bc_two) <= 4194304 ∧
  st_blocks bc_two !! 1%N = None ∧ br_data <$> st_blocks bc_two !! 2%N = Some [Byte.x62].
Proof.
  destruct (block_cache_bounded 4194304 4194304 ltac:(lia) bc_start bc_two) as (Hcount & Hsize & _).
  - reflexivity.
  - eapply rtc_l; [|apply rtc_once].
    + apply (CacheSet _ _ bc_start bc_one 1%N [Byte.x61]); [cbn; lia|reflexivity].
    + apply (CacheSet _ _ bc_one bc_two 2%N [Byte.x62]); [cbn; lia|reflexivity].
  - split; [exact Hcount|]. split; [apply Hsize; unfold DEFAULT_BLOCK_SIZE; lia|]. by vm_compute.
Defined.
