(* ===== verification/Certif.v ===== *)
(** The signed certificates: [guardata/api/data/base.py] and
    [guardata/api/data/certif.py]. The signature scheme and the serialization
    are libraries; [CertifApi] is what the code uses of them. *)

From S2P Require Import Prelude Types Backend.

(** ** Contents *)

Record UserCertificateContent := mkUserCertificateContent {
  uc_author : option DeviceID;
  uc_timestamp : DateTime;
  uc_user_id : UserID;
  uc_human_handle : option HumanHandle;
  uc_public_key : bytes;
  uc_profile : UserProfile }.
#[export] Instance UserCertificateContent_eq_dec : EqDecision UserCertificateContent.
Proof. solve_decision. Defined.

Record RevokedUserCertificateContent := mkRevokedUserCertificateContent {
  rc_author : DeviceID;
  rc_timestamp : DateTime;
  rc_user_id : UserID }.
#[export] Instance RevokedUserCertificateContent_eq_dec :
  EqDecision RevokedUserCertificateContent.
Proof. solve_decision. Defined.

Record DeviceCertificateContent := mkDeviceCertificateContent {
  dc_author : option DeviceID;
  dc_timestamp : DateTime;
  dc_device_id : DeviceID;
  dc_device_label : option string;
  dc_verify_key : VerifyKey }.
#[export] Instance DeviceCertificateContent_eq_dec : EqDecision DeviceCertificateContent.
Proof. solve_decision. Defined.

Record RealmRoleCertificateContent := mkRealmRoleCertificateContent {
  rr_author : DeviceID;
  rr_timestamp : DateTime;
  rr_realm_id : UUID;
  rr_user_id : UserID;
  rr_role : option RealmRole }.
#[export] Instance RealmRoleCertificateContent_eq_dec : EqDecision RealmRoleCertificateContent.
Proof. solve_decision. Defined.

(** [RealmRoleCertificateContent.build_realm_root_certif] *)
Definition build_realm_root_certif (author : DeviceID) (timestamp : DateTime) (realm_id : UUID)
    : RealmRoleCertificateContent :=
  mkRealmRoleCertificateContent author timestamp realm_id (user_id author) (Some OWNER).

(** The fields of a user certificate before [make_obj]: the legacy [is_admin]
    and the optional [profile]. *)
Record UserCertificateFields := mkUserCertificateFields {
  uf_author : option DeviceID;
  uf_timestamp : DateTime;
  uf_user_id : UserID;
  uf_human_handle : option HumanHandle;
  uf_public_key : bytes;
  uf_is_admin : bool;
  uf_profile : option UserProfile }.

(** The [DataError] family, in which [make_obj]'s [ValidationError] ends too. *)
Inductive DataError := DataErr | DataValidationError.
#[export] Instance DataError_eq_dec : EqDecision DataError.
Proof. solve_decision. Defined.

(** [UserCertificateContent.SCHEMA_CLS.make_obj] *)
Definition make_user_certificate (d : UserCertificateFields)
    : result DataError UserCertificateContent :=
  let default_profile := if uf_is_admin d then ADMIN else STANDARD in
  let mk profile := mkUserCertificateContent (uf_author d) (uf_timestamp d) (uf_user_id d)
                      (uf_human_handle d) (uf_public_key d) profile in
  match uf_profile d with
  | None => Ok (mk default_profile)
  | Some profile =>
      if bool_decide (default_profile = ADMIN) && bool_decide (profile ≠ ADMIN)
      then Err DataValidationError
      else Ok (mk profile)
  end.

(** The signature scheme ([VerifyKey.verify], which returns the signed bytes or
    raises) and the deserializers of the schemas. *)
Class CertifApi := {
  key_verify : VerifyKey → bytes → option bytes;
  loads_user : bytes → option UserCertificateFields;
  loads_revoked_user : bytes → option RevokedUserCertificateContent;
  loads_device : bytes → option DeviceCertificateContent;
  loads_realm_role : bytes → option RealmRoleCertificateContent }.

Section certif.
Context `{CertifApi}.

(** [BaseSignedData.verify_and_load] for a class that deserializes with
    [deserialize] and whose data has the author [author]. *)
Definition verify_and_load {A} (deserialize : bytes → result DataError A)
    (author : A → option DeviceID) (timestamp : A → DateTime)
    (signed : bytes) (author_verify_key : VerifyKey)
    (expected_author : option DeviceID) (expected_timestamp : option DateTime)
    : result DataError A :=
  match key_verify author_verify_key signed with
  | None => Err DataErr
  | Some raw =>
      data ← deserialize raw;
      if bool_decide (author data ≠ expected_author) then Err DataErr
      else match expected_timestamp with
           | Some ts => if bool_decide (timestamp data ≠ ts) then Err DataErr else Ok data
           | None => Ok data
           end
  end.

(** [cls.SERIALIZER.loads], whose errors are [DataError]s. *)
Definition loads {A} (f : bytes → option A) (raw : bytes) : result DataError A :=
  match f raw with Some a => Ok a | None => Err DataValidationError end.

Definition verify_user_certificate (signed : bytes) (key : VerifyKey)
    (expected_author : option DeviceID) : result DataError UserCertificateContent :=
  verify_and_load (λ raw, d ← loads loads_user raw; make_user_certificate d)
    uc_author uc_timestamp signed key expected_author None.
Definition verify_revoked_user_certificate (signed : bytes) (key : VerifyKey)
    (expected_author : DeviceID) : result DataError RevokedUserCertificateContent :=
  verify_and_load (loads loads_revoked_user) (Some ∘ rc_author) rc_timestamp
    signed key (Some expected_author) None.
Definition verify_device_certificate (signed : bytes) (key : VerifyKey)
    (expected_author : option DeviceID) : result DataError DeviceCertificateContent :=
  verify_and_load (loads loads_device) dc_author dc_timestamp signed key expected_author None.
Definition verify_realm_role_certificate (signed : bytes) (key : VerifyKey)
    (expected_author : DeviceID) : result DataError RealmRoleCertificateContent :=
  verify_and_load (loads loads_realm_role) (Some ∘ rr_author) rr_timestamp
    signed key (Some expected_author) None.

(** What a successful load tells. *)
Lemma verify_and_load_Ok {A} deserialize author timestamp signed key ea ets (data : A) :
  verify_and_load deserialize author timestamp signed key ea ets = Ok data →
  ∃ raw, key_verify key signed = Some raw ∧ deserialize raw = Ok data ∧
         author data = ea ∧ (∀ ts, ets = Some ts → timestamp data = ts).
Proof.
  unfold verify_and_load. destruct (key_verify key signed) as [raw|]; [|done].
  destruct (deserialize raw) as [d|] eqn:Hd; cbn; [|done].
  case_bool_decide as Ha; [done|].
  destruct ets as [ts|]; [case_bool_decide as Ht; [done|]|];
    intros [= <-]; eexists; naive_solver.
Qed.
End certif.
