(* ===== verification/BackendUser.v ===== *)
(** The users of the server: [backendService/memory/user.py] and the API of
    [backendService/user.py]. *)

From S2P Require Import Prelude Types Backend Certif.

(** The truth value of an optional byte string or string. *)
Definition truthy {A} (o : option (list A)) : bool :=
  match o with Some (_ :: _) => true | _ => false end.
Definition truthy_str (o : option string) : bool :=
  match o with Some s => bool_decide (s ≠ ""%string) | None => false end.
(** [a or b] on byte strings *)
Definition bytes_or (a b : bytes) : bytes := match a with [] => b | _ => a end.

(** [Device.user_id] and [Device.device_name] *)
Definition d_user_id (d : Device) : UserID := user_id (d_device_id d).
Definition d_device_name (d : Device) : DeviceName := device_name (d_device_id d).

(** ** The stores of one organization *)

Definition devices_of (o : OrganizationStore) (u : UserID) : gmap DeviceName Device :=
  default ∅ (os_devices o !! u).
Definition find_device (o : OrganizationStore) (d : DeviceID) : option Device :=
  devices_of o (user_id d) !! device_name d.
Definition set_device (d : Device) (o : OrganizationStore) : OrganizationStore :=
  mkOrganizationStore (os_human_handle_to_user_id o) (os_users o)
    (<[d_user_id d := <[d_device_name d := d]> (devices_of o (d_user_id d))]> (os_devices o))
    (os_user_invitations o) (os_device_invitations o).
Definition set_user (u : User) (o : OrganizationStore) : OrganizationStore :=
  mkOrganizationStore (os_human_handle_to_user_id o) (<[u_user_id u := u]> (os_users o))
    (os_devices o) (os_user_invitations o) (os_device_invitations o).
Definition set_handles f (o : OrganizationStore) : OrganizationStore :=
  mkOrganizationStore (f (os_human_handle_to_user_id o)) (os_users o)
    (os_devices o) (os_user_invitations o) (os_device_invitations o).
Definition set_user_invitations f (o : OrganizationStore) : OrganizationStore :=
  mkOrganizationStore (os_human_handle_to_user_id o) (os_users o)
    (os_devices o) (f (os_user_invitations o)) (os_device_invitations o).
Definition set_device_invitations f (o : OrganizationStore) : OrganizationStore :=
  mkOrganizationStore (os_human_handle_to_user_id o) (os_users o)
    (os_devices o) (os_user_invitations o) (f (os_device_invitations o)).

Definition mem_users (o : OrganizationStore) (u : UserID) : bool :=
  bool_decide (is_Some (os_users o !! u)).
Definition mem_handle (o : OrganizationStore) (h : option HumanHandle) : bool :=
  match h with
  | Some h => bool_decide (is_Some (os_human_handle_to_user_id o !! email h))
  | None => false
  end.

(** ** [MemoryUserComponent] *)

(** [create_user] *)
Definition create_user (org : OrganizationID) (user : User) (first_device : Device)
    : backendM unit :=
  o ← gets (λ s, orgstore s org);
  _ ← raise_if (mem_users o (u_user_id user)) UserAlreadyExistsError;
  _ ← raise_if (mem_handle o (u_human_handle user)) UserAlreadyExistsError;
  _ ← set_orgstore org (λ o, set_device first_device (set_user user o));
  _ ← match u_human_handle user with
      | Some h => set_orgstore org (set_handles <[email h := u_user_id user]>)
      | None => mret tt
      end;
  send_backend_event (USER_CREATED org (u_user_id user) (u_user_certificate user)
    (d_device_id first_device) (d_device_certificate first_device)).

(** [create_device] *)
Definition create_device (org : OrganizationID) (device : Device) : backendM unit :=
  o ← gets (λ s, orgstore s org);
  _ ← raise_if (negb (mem_users o (d_user_id device))) UserNotFoundError;
  _ ← raise_if (bool_decide (is_Some (devices_of o (d_user_id device) !! d_device_name device)))
        UserAlreadyExistsError;
  set_orgstore org (set_device device).

(** [_get_user], which [get_user] returns *)
Definition get_user (org : OrganizationID) (u : UserID) : backendM User :=
  o ← gets (λ s, orgstore s org);
  of_option UserNotFoundError (os_users o !! u).
(** [_get_device] *)
Definition get_device (org : OrganizationID) (d : DeviceID) : backendM Device :=
  o ← gets (λ s, orgstore s org);
  of_option UserNotFoundError (find_device o d).
(** [_get_user_devices] *)
Definition get_user_devices (org : OrganizationID) (u : UserID)
    : backendM (gmap DeviceName Device) :=
  o ← gets (λ s, orgstore s org);
  _ ← get_user org u;
  mret (devices_of o u).
(** [get_user_with_device] *)
Definition get_user_with_device (org : OrganizationID) (d : DeviceID)
    : backendM (User * Device) :=
  user ← get_user org (user_id d);
  device ← get_device org d;
  mret (user, device).

(** *** Trustchains *)

(** A [Trustchain]: the code builds sets and turns them into tuples whose order
    is arbitrary. *)
#[export] Instance byte_countable : Countable Byte.byte.
Proof.
  refine (inj_countable Byte.to_N Byte.of_N _). intros b. apply Byte.of_to_N.
Defined.
Record Trustchain := mkTrustchain {
  t_users : gset bytes;
  t_revoked_users : gset bytes;
  t_devices : gset bytes }.

(** The sets that [_get_trustchain] fills. *)
Record TrustAcc := mkTrustAcc { ta_in : gset DeviceID; ta_chain : Trustchain }.
Definition empty_trust : TrustAcc := mkTrustAcc ∅ (mkTrustchain ∅ ∅ ∅).

Definition user_certif_field (redacted : bool) (u : User) : bytes :=
  if redacted then u_redacted_user_certificate u else u_user_certificate u.
Definition device_certif_field (redacted : bool) (d : Device) : bytes :=
  if redacted then d_redacted_device_certificate d else d_device_certificate d.

(** The three [add] of [_recursive_extract_creators]. *)
Definition trust_add (redacted : bool) (u : User) (d : Device) (t : Trustchain) : Trustchain :=
  mkTrustchain ({[ user_certif_field redacted u ]} ∪ t_users t)
    (match u_revoked_user_certificate u with
     | Some ((_ :: _) as c) => {[ c ]} ∪ t_revoked_users t
     | _ => t_revoked_users t
     end)
    ({[ device_certif_field redacted d ]} ∪ t_devices t).

(** [_recursive_extract_creators]. The outer [None] is an exhausted fuel; each
    level of the recursion adds a device that was not in the chain, so that the
    number of devices is enough. *)
Fixpoint extract_creators (redacted : bool) (o : OrganizationStore) (fuel : nat)
    (device_id : option DeviceID) (acc : TrustAcc) : option (result BackendExn TrustAcc) :=
  match fuel with
  | O => None
  | S fuel =>
      match device_id with
      | None => Some (Ok acc)
      | Some d =>
          if bool_decide (d ∈ ta_in acc) then Some (Ok acc)
          else
            match os_users o !! user_id d, find_device o d with
            | Some user, Some device =>
                let acc := mkTrustAcc ({[ d ]} ∪ ta_in acc)
                             (trust_add redacted user device (ta_chain acc)) in
                r1 ← extract_creators redacted o fuel (d_device_certifier device) acc;
                match r1 with
                | Err e => Some (Err e)
                | Ok acc1 =>
                    r2 ← extract_creators redacted o fuel (u_revoked_user_certifier user) acc1;
                    match r2 with
                    | Err e => Some (Err e)
                    | Ok acc2 => extract_creators redacted o fuel (u_user_certifier user) acc2
                    end
                end
            | _, _ => Some (Err UserNotFoundError)
            end
      end
  end.

(** The loop of [_get_trustchain] on the ids it is given. *)
Fixpoint extract_all (redacted : bool) (o : OrganizationStore) (fuel : nat)
    (ids : list (option DeviceID)) (acc : TrustAcc) : option (result BackendExn TrustAcc) :=
  match ids with
  | [] => Some (Ok acc)
  | d :: ids =>
      r ← extract_creators redacted o fuel d acc;
      match r with
      | Err e => Some (Err e)
      | Ok acc => extract_all redacted o fuel ids acc
      end
  end.

(** All the devices of an organization. *)
Definition all_devices (o : OrganizationStore) : gset DeviceID :=
  list_to_set (x ← map_to_list (os_devices o);
               (λ y, mkDeviceID x.1 y.1) <$> map_to_list x.2).
(** The fuel of [_get_trustchain]. *)
Definition trust_fuel (o : OrganizationStore) : nat := S (S (size (all_devices o))).

(** [_get_trustchain] *)
Definition get_trustchain (org : OrganizationID) (ids : list (option DeviceID))
    (redacted : bool) : backendM Trustchain :=
  o ← gets (λ s, orgstore s org);
  match extract_all redacted o (trust_fuel o) ids empty_trust with
  | Some (Ok acc) => mret (ta_chain acc)
  | Some (Err e) => mthrow e
  | None => mthrow BRecursionError
  end.

(** [get_user_with_trustchain] *)
Definition get_user_with_trustchain (org : OrganizationID) (u : UserID)
    : backendM (User * Trustchain) :=
  user ← get_user org u;
  trustchain ← get_trustchain org [u_user_certifier user; u_revoked_user_certifier user] false;
  mret (user, trustchain).

(** [get_user_with_device_and_trustchain] *)
Definition get_user_with_device_and_trustchain (org : OrganizationID) (d : DeviceID)
    : backendM (User * Device * Trustchain) :=
  user ← get_user org (user_id d);
  user_device ← get_device org d;
  trustchain ← get_trustchain org
    [u_user_certifier user; u_revoked_user_certifier user; d_device_certifier user_device] false;
  mret (user, user_device, trustchain).

(** [GetUserAndDevicesResult]; the devices have no order. *)
Record GetUserAndDevicesResult := mkGetUserAndDevicesResult {
  gu_user_certificate : bytes;
  gu_device_certificates : list bytes;
  gu_revoked_user_certificate : option bytes;
  gu_trustchain : Trustchain }.

(** [get_user_with_devices_and_trustchain] *)
Definition get_user_with_devices_and_trustchain (org : OrganizationID) (u : UserID)
    (redacted : bool) : backendM GetUserAndDevicesResult :=
  user ← get_user org u;
  devices ← get_user_devices org u;
  let values := (map_to_list devices).*2 in
  trustchain ← get_trustchain org
    (u_user_certifier user :: u_revoked_user_certifier user :: (d_device_certifier <$> values))
    redacted;
  mret (mkGetUserAndDevicesResult (user_certif_field redacted user)
          (device_certif_field redacted <$> values)
          (u_revoked_user_certificate user) trustchain).

(** *** Invitations *)

Definition INVITATION_VALIDITY : Z := 3600.
(** [UserInvitation.is_valid] and [DeviceInvitation.is_valid] *)
Definition user_invitation_is_valid (now : DateTime) (i : UserInvitation) : bool :=
  now - ui_created_on i <? INVITATION_VALIDITY * 1000000.
Definition device_invitation_is_valid (now : DateTime) (i : DeviceInvitation) : bool :=
  now - di_created_on i <? INVITATION_VALIDITY * 1000000.

Definition create_user_invitation (org : OrganizationID) (i : UserInvitation) : backendM unit :=
  o ← gets (λ s, orgstore s org);
  _ ← raise_if (mem_users o (ui_user_id i)) UserAlreadyExistsError;
  set_orgstore org (set_user_invitations <[ui_user_id i := i]>).
Definition get_user_invitation (org : OrganizationID) (u : UserID) : backendM UserInvitation :=
  o ← gets (λ s, orgstore s org);
  _ ← raise_if (mem_users o u) UserAlreadyExistsError;
  of_option UserNotFoundError (os_user_invitations o !! u).
Definition claim_user_invitation (org : OrganizationID) (u : UserID) (encrypted_claim : bytes)
    : backendM UserInvitation :=
  i ← get_user_invitation org u;
  _ ← send_backend_event (USER_CLAIMED org (ui_user_id i) encrypted_claim);
  mret i.
Definition cancel_user_invitation (org : OrganizationID) (u : UserID) : backendM unit :=
  o ← gets (λ s, orgstore s org);
  match os_user_invitations o !! u with
  | Some _ =>
      _ ← set_orgstore org (set_user_invitations (delete u));
      send_backend_event (USER_INVITATION_CANCELLED org u)
  | None => mret tt
  end.

Definition create_device_invitation (org : OrganizationID) (i : DeviceInvitation)
    : backendM unit :=
  devices ← get_user_devices org (user_id (di_device_id i));
  _ ← raise_if (bool_decide (is_Some (devices !! device_name (di_device_id i))))
        UserAlreadyExistsError;
  set_orgstore org (set_device_invitations <[di_device_id i := i]>).
Definition get_device_invitation (org : OrganizationID) (d : DeviceID)
    : backendM DeviceInvitation :=
  o ← gets (λ s, orgstore s org);
  devices ← get_user_devices org (user_id d);
  _ ← raise_if (bool_decide (is_Some (devices !! device_name d))) UserAlreadyExistsError;
  of_option UserNotFoundError (os_device_invitations o !! d).
Definition claim_device_invitation (org : OrganizationID) (d : DeviceID)
    (encrypted_claim : bytes) : backendM DeviceInvitation :=
  i ← get_device_invitation org d;
  _ ← send_backend_event (DEVICE_CLAIMED org (di_device_id i) encrypted_claim);
  mret i.
Definition cancel_device_invitation (org : OrganizationID) (d : DeviceID) : backendM unit :=
  o ← gets (λ s, orgstore s org);
  match os_device_invitations o !! d with
  | Some _ =>
      _ ← set_orgstore org (set_device_invitations (delete d));
      send_backend_event (DEVICE_INVITATION_CANCELLED org d)
  | None => mret tt
  end.

(** *** Revocation *)

Definition user_evolve_revoked (u : User) (on : DateTime) (certificate : bytes)
    (certifier : DeviceID) : User :=
  mkUser (u_user_id u) (u_human_handle u) (u_user_certificate u) (u_redacted_user_certificate u)
    (u_user_certifier u) (u_profile u) (u_created_on u) (Some on) (Some certificate)
    (Some certifier).
(** [org.users[user_id] = user] *)
Definition set_user_at (u : UserID) (user : User) (o : OrganizationStore) : OrganizationStore :=
  mkOrganizationStore (os_human_handle_to_user_id o) (<[u := user]> (os_users o))
    (os_devices o) (os_user_invitations o) (os_device_invitations o).

(** [revoke_user]; [del d[k]] raises a [KeyError] when there is no key. *)
Definition revoke_user (org : OrganizationID) (u : UserID) (certificate : bytes)
    (certifier : DeviceID) (revoked_on : option DateTime) (now : DateTime) : backendM unit :=
  o ← gets (λ s, orgstore s org);
  user ← of_option UserNotFoundError (os_users o !! u);
  _ ← raise_if (bool_decide (is_Some (u_revoked_on user))) UserAlreadyRevokedError;
  _ ← set_orgstore org
        (set_user_at u (user_evolve_revoked user (default now revoked_on) certificate certifier));
  _ ← match u_human_handle user with
      | Some h =>
          o ← gets (λ s, orgstore s org);
          _ ← of_option BKeyError (os_human_handle_to_user_id o !! email h);
          set_orgstore org (set_handles (delete (email h)))
      | None => mret tt
      end;
  send_backend_event (USER_REVOKED org u).

(** ** The API: [BaseUserComponent] *)

Section api.
Context `{CertifApi}.

(** [api_user_get] *)
Definition api_user_get (client_ctx : ClientCtx) (u : UserID)
    : backendM (reply GetUserAndDevicesResult) :=
  let need_redacted := bool_decide (cc_profile client_ctx = OUTSIDER) in
  reply_of (get_user_with_devices_and_trustchain (cc_organization_id client_ctx) u need_redacted)
    (λ e, match e with UserNotFoundError => Some "not_found"%string | _ => None end) id.

Record UserCreateReq := mkUserCreateReq {
  uq_user_certificate : bytes;
  uq_device_certificate : bytes;
  uq_redacted_user_certificate : bytes;
  uq_redacted_device_certificate : bytes }.

(** [u_data.evolve(human_handle=...)] and [d_data.evolve(device_label=...)] *)
Definition uc_evolve_human_handle (u : UserCertificateContent) (h : option HumanHandle)
    : UserCertificateContent :=
  mkUserCertificateContent (uc_author u) (uc_timestamp u) (uc_user_id u) h
    (uc_public_key u) (uc_profile u).
Definition dc_evolve_device_label (d : DeviceCertificateContent) (l : option string)
    : DeviceCertificateContent :=
  mkDeviceCertificateContent (dc_author d) (dc_timestamp d) (dc_device_id d) l (dc_verify_key d).

(** The four certificates of [_api_user_create], in the order they are loaded. *)
Definition load_user_create (client_ctx : ClientCtx) (msg : UserCreateReq)
    : result DataError (DeviceCertificateContent * UserCertificateContent *
                        UserCertificateContent * DeviceCertificateContent) :=
  let key := cc_verify_key client_ctx in
  let author := Some (cc_device_id client_ctx) in
  d_data ← verify_device_certificate (uq_device_certificate msg) key author;
  u_data ← verify_user_certificate (uq_user_certificate msg) key author;
  ru_data ← verify_user_certificate (uq_redacted_user_certificate msg) key author;
  rd_data ← verify_device_certificate (uq_redacted_device_certificate msg) key author;
  Ok (d_data, u_data, ru_data, rd_data).

(** The checks of [_api_user_create] between the certificates: the status of
    the first that fails. *)
Definition check_user_create (now : DateTime) (d_data : DeviceCertificateContent)
    (u_data ru_data : UserCertificateContent) (rd_data : DeviceCertificateContent)
    : option string :=
  if bool_decide (uc_timestamp u_data ≠ dc_timestamp d_data) then Some "invalid_data"%string
  else if negb (timestamps_in_the_ballpark (uc_timestamp u_data) now)
  then Some "invalid_certification"%string
  else if bool_decide (uc_user_id u_data ≠ user_id (dc_device_id d_data))
  then Some "invalid_data"%string
  else if bool_decide (uc_evolve_human_handle ru_data (uc_human_handle u_data) ≠ u_data)
  then Some "invalid_data"%string
  else if bool_decide (is_Some (uc_human_handle ru_data)) then Some "invalid_data"%string
  else if bool_decide (dc_evolve_device_label rd_data (dc_device_label d_data) ≠ d_data)
  then Some "invalid_data"%string
  else if truthy_str (dc_device_label rd_data) then Some "invalid_data"%string
  else None.

(** The [User] and [Device] that [_api_user_create] makes. *)
Definition user_of_certificate (u_data : UserCertificateContent) (certificate redacted : bytes)
    : User :=
  mkUser (uc_user_id u_data) (uc_human_handle u_data) certificate redacted
    (uc_author u_data) (uc_profile u_data) (uc_timestamp u_data) None None None.
Definition device_of_certificate (d_data : DeviceCertificateContent)
    (certificate redacted : bytes) : Device :=
  mkDevice (dc_device_id d_data) (dc_device_label d_data) certificate redacted
    (dc_author d_data) (dc_timestamp d_data).

(** [_api_user_create] *)
Definition api_user_create_body (now : DateTime) (client_ctx : ClientCtx) (msg : UserCreateReq)
    : backendM (reply unit) :=
  match load_user_create client_ctx msg with
  | Err _ => mret (RepError "invalid_certification")
  | Ok (d_data, u_data, ru_data, rd_data) =>
      match check_user_create now d_data u_data ru_data rd_data with
      | Some status => mret (RepError status)
      | None =>
          let user := user_of_certificate u_data (uq_user_certificate msg)
            (bytes_or (uq_redacted_user_certificate msg) (uq_user_certificate msg)) in
          let first_device := device_of_certificate d_data (uq_device_certificate msg)
            (bytes_or (uq_redacted_device_certificate msg) (uq_device_certificate msg)) in
          reply_of (create_user (cc_organization_id client_ctx) user first_device)
            (λ e, match e with
                  | UserAlreadyExistsError => Some "already_exists"%string
                  | _ => None
                  end) id
      end
  end.

(** [api_user_create] *)
Definition api_user_create (now : DateTime) (client_ctx : ClientCtx) (msg : UserCreateReq)
    : backendM (reply unit) :=
  if bool_decide (cc_profile client_ctx ≠ ADMIN) then mret (RepError "not_allowed")
  else api_user_create_body now client_ctx msg.

(** [api_user_revoke] *)
Definition api_user_revoke (now : DateTime) (client_ctx : ClientCtx) (certificate : bytes)
    : backendM (reply unit) :=
  if bool_decide (cc_profile client_ctx ≠ ADMIN) then mret (RepError "not_allowed")
  else
    match verify_revoked_user_certificate certificate (cc_verify_key client_ctx)
            (cc_device_id client_ctx) with
    | Err _ => mret (RepError "invalid_certification")
    | Ok data =>
        if negb (timestamps_in_the_ballpark (rc_timestamp data) now)
        then mret (RepError "invalid_certification")
        else if bool_decide (rc_user_id data = cc_user_id client_ctx)
        then mret (RepError "not_allowed")
        else
          reply_of (revoke_user (cc_organization_id client_ctx) (rc_user_id data) certificate
                      (rc_author data) (Some (rc_timestamp data)) now)
            (λ e, match e with
                  | UserNotFoundError => Some "not_found"%string
                  | UserAlreadyRevokedError => Some "already_revoked"%string
                  | _ => None
                  end) id
    end.

Record DeviceCreateReq := mkDeviceCreateReq {
  dq_device_certificate : bytes;
  dq_redacted_device_certificate : bytes }.

(** [api_device_create]: the redacted certificate is loaded when it is not
    empty. *)
Definition load_device_create (client_ctx : ClientCtx) (msg : DeviceCreateReq)
    : result DataError (DeviceCertificateContent * option DeviceCertificateContent) :=
  let key := cc_verify_key client_ctx in
  let author := Some (cc_device_id client_ctx) in
  data ← verify_device_certificate (dq_device_certificate msg) key author;
  match dq_redacted_device_certificate msg with
  | [] => Ok (data, None)
  | redacted => rd ← verify_device_certificate redacted key author; Ok (data, Some rd)
  end.
Definition check_device_create (now : DateTime) (client_ctx : ClientCtx)
    (data : DeviceCertificateContent) (redacted_data : option DeviceCertificateContent)
    : option string :=
  if negb (timestamps_in_the_ballpark (dc_timestamp data) now)
  then Some "invalid_certification"%string
  else if bool_decide (user_id (dc_device_id data) ≠ cc_user_id client_ctx)
  then Some "bad_user_id"%string
  else match redacted_data with
       | Some rd =>
           if bool_decide (dc_evolve_device_label rd (dc_device_label data) ≠ data)
           then Some "invalid_data"%string
           else if truthy_str (dc_device_label rd) then Some "invalid_data"%string
           else None
       | None => None
       end.
Definition api_device_create (now : DateTime) (client_ctx : ClientCtx) (msg : DeviceCreateReq)
    : backendM (reply unit) :=
  match load_device_create client_ctx msg with
  | Err _ => mret (RepError "invalid_certification")
  | Ok (data, redacted_data) =>
      match check_device_create now client_ctx data redacted_data with
      | Some status => mret (RepError status)
      | None =>
          let device := device_of_certificate data (dq_device_certificate msg)
            (bytes_or (dq_redacted_device_certificate msg) (dq_device_certificate msg)) in
          reply_of (create_device (cc_organization_id client_ctx) device)
            (λ e, match e with
                  | UserAlreadyExistsError => Some "already_exists"%string
                  | _ => None
                  end) id
      end
  end.
End api.

(** ** What the operations do to the state *)

Lemma get_user_inv org u s s' r :
  get_user org u s = (s', r) →
  s' = s ∧ r = match os_users (orgstore s org) !! u with
               | Some user => Ok user
               | None => Err UserNotFoundError
               end.
Proof. intros H. unfold get_user in H. by repeat minv H; rewrite ?Hc. Qed.

Lemma create_user_inv org user d s s' r :
  create_user org user d s = (s', r) →
  let o := orgstore s org in
  if mem_users o (u_user_id user) || mem_handle o (u_human_handle user)
  then s' = s ∧ r = Err UserAlreadyExistsError
  else r = Ok tt ∧
    s' = add_event (USER_CREATED org (u_user_id user) (u_user_certificate user)
                      (d_device_id d) (d_device_certificate d))
           (set_orgstores <[org := set_handles (match u_human_handle user with
              | Some h => <[email h := u_user_id user]>
              | None => id
              end) (set_device d (set_user user o))]> s).
Proof.
  intros H. cbn zeta. unfold create_user in H. minv H. minv H; [|by rewrite Hc].
  minv H; [|by rewrite Hc, Hc0]. rewrite Hc, Hc0. cbn.
  destruct (u_human_handle user) as [h|].
  - repeat minv H. split; [done|].
    unfold add_event, set_orgstores, orgstore; cbn. rewrite lookup_insert_eq.
    cbn. by rewrite insert_insert_eq.
  - by repeat minv H.
Qed.

Lemma create_device_inv org d s s' r :
  create_device org d s = (s', r) →
  (s' = s ∧ ∃ e, r = Err e) ∨
  (r = Ok tt ∧ mem_users (orgstore s org) (d_user_id d) = true ∧
   find_device (orgstore s org) (d_device_id d) = None ∧
   s' = set_orgstores <[org := set_device d (orgstore s org)]> s).
Proof.
  intros H. unfold create_device in H. repeat minv H; eauto.
  right. apply negb_false_iff in Hc. apply bool_decide_eq_false, eq_None_not_Some in Hc0.
  done.
Qed.

Lemma revoke_user_inv org u certificate certifier on now s s' r :
  revoke_user org u certificate certifier on now s = (s', r) →
  let o := orgstore s org in
  (s' = s ∧ (os_users o !! u = None ∧ r = Err UserNotFoundError ∨
             ∃ user, os_users o !! u = Some user ∧ is_Some (u_revoked_on user) ∧
                     r = Err UserAlreadyRevokedError)) ∨
  ∃ user, os_users o !! u = Some user ∧ u_revoked_on user = None ∧
    let o' := set_user_at u (user_evolve_revoked user (default now on) certificate certifier) o in
    if match u_human_handle user with
       | Some h => bool_decide (os_human_handle_to_user_id o !! email h = None)
       | None => false
       end
    then r = Err BKeyError ∧ s' = set_orgstores <[org := o']> s
    else r = Ok tt ∧
      s' = add_event (USER_REVOKED org u)
             (set_orgstores <[org := set_handles (match u_human_handle user with
                | Some h => delete (email h)
                | None => id
                end) o']> s).
Proof.
  intros H. cbn zeta. unfold revoke_user in H. do 2 minv H; [|left; eauto].
  minv H; [|apply bool_decide_eq_true in Hc0; left; eauto 10].
  apply bool_decide_eq_false, eq_None_not_Some in Hc0.
  right. eexists; split_and!; [done..|].
  destruct (u_human_handle _) as [h|]; [|by repeat minv H].
  minv_all; autorewrite with backend in *; unfold set_user_at in Hc1; cbn in Hc1.
  - rewrite bool_decide_eq_false_2 by congruence. done.
  - by rewrite bool_decide_eq_true_2.
Qed.

(** The invitations change nothing else of the users. *)
Definition same_users (o o' : OrganizationStore) : Prop :=
  os_human_handle_to_user_id o' = os_human_handle_to_user_id o ∧
  os_users o' = os_users o ∧ os_devices o' = os_devices o.
Definition only_invitations (s s' : Backend) : Prop :=
  (∀ org, same_users (orgstore s org) (orgstore s' org)) ∧
  s' = mkBackend (be_orgstores s') (be_messages s) (be_realms s) (be_vlobs s) (be_changes s)
         (be_blockmetas s) (be_blocks s) (be_organizations s) (be_events s').
Lemma only_invitations_refl s : only_invitations s s.
Proof. split; [done|by destruct s]. Qed.
Lemma only_invitations_set s org o :
  same_users (orgstore s org) o → only_invitations s (set_orgstores <[org := o]> s).
Proof.
  intros Ho. split; [|done]. intros org'. destruct (decide (org = org')) as [<-|Hne].
  - by rewrite orgstore_set.
  - by rewrite orgstore_set_ne.
Qed.
Lemma only_invitations_event s s' e :
  only_invitations s s' → only_invitations s (add_event e s').
Proof. intros [? ->]. split; done. Qed.
#[export] Hint Resolve only_invitations_refl only_invitations_set only_invitations_event : backend.

Lemma get_user_devices_inv org u s s' r :
  get_user_devices org u s = (s', r) → s' = s.
Proof. intros H. unfold get_user_devices, get_user in H. by minv_all. Qed.

Lemma invitation_ops_inv org ui di u d c s s' :
  (∃ r, create_user_invitation org ui s = (s', r)) ∨
  (∃ r, claim_user_invitation org u c s = (s', r)) ∨
  (∃ r, cancel_user_invitation org u s = (s', r)) ∨
  (∃ r, create_device_invitation org di s = (s', r)) ∨
  (∃ r, claim_device_invitation org d c s = (s', r)) ∨
  (∃ r, cancel_device_invitation org d s = (s', r)) →
  only_invitations s s'.
Proof.
  unfold create_user_invitation, claim_user_invitation, cancel_user_invitation,
    create_device_invitation, claim_device_invitation, cancel_device_invitation,
    get_device_invitation, get_user_invitation, get_user_devices, get_user.
  intros [[r H]|[[r H]|[[r H]|[[r H]|[[r H]|[r H]]]]]]; minv_all;
    try case_match; minv_all; eauto with backend;
    repeat first [apply only_invitations_event | apply only_invitations_set; done].
Qed.

(** * Lemmas

    The lemmas on the users of the server: the trustchains, and the invariant of
    the users, their devices and their human handles. *)

(** ** Trustchains *)

(** The devices whose certificates [_recursive_extract_creators] adds after the
    ones of [d]: who certified the device, who revoked and who certified its
    user. *)
Definition trust_next (o : OrganizationStore) (d d' : DeviceID) : Prop :=
  ∃ user device, os_users o !! user_id d = Some user ∧ find_device o d = Some device ∧
    (d_device_certifier device = Some d' ∨ u_revoked_user_certifier user = Some d' ∨
     u_user_certifier user = Some d').
(** The devices that a chain from [ids] reaches. *)
Definition trust_reach (o : OrganizationStore) (ids : list (option DeviceID)) (d : DeviceID)
    : Prop :=
  ∃ d0, Some d0 ∈ ids ∧ rtc (trust_next o) d0 d.
Definition trust_known (o : OrganizationStore) (d : DeviceID) : Prop :=
  is_Some (os_users o !! user_id d) ∧ is_Some (find_device o d).
(** The certificates of the devices of [D]. *)
Definition chain_of (redacted : bool) (o : OrganizationStore) (D : DeviceID → Prop)
    (t : Trustchain) : Prop :=
  (∀ c, c ∈ t_devices t ↔ ∃ d device, D d ∧ find_device o d = Some device ∧
                          c = device_certif_field redacted device) ∧
  (∀ c, c ∈ t_users t ↔ ∃ d user, D d ∧ os_users o !! user_id d = Some user ∧
                        c = user_certif_field redacted user) ∧
  (∀ c, c ∈ t_revoked_users t ↔ ∃ d user, D d ∧ os_users o !! user_id d = Some user ∧
                        u_revoked_user_certificate user = Some c ∧ c ≠ []).

Section trustchain.
Context (redacted : bool) (o : OrganizationStore).

Lemma find_device_all d device : find_device o d = Some device → d ∈ all_devices o.
Proof.
  unfold find_device, devices_of, all_devices. intros H.
  destruct (os_devices o !! user_id d) as [m|] eqn:Hm; cbn in H; [|done].
  apply elem_of_list_to_set, list_elem_of_bind. exists (user_id d, m).
  split; [|by apply elem_of_map_to_list]. apply list_elem_of_fmap. exists (device_name d, device).
  split; [by destruct d|by apply elem_of_map_to_list].
Qed.

(** The devices that are not in the chain yet. *)
Definition remaining (acc : TrustAcc) : nat := size (all_devices o ∖ ta_in acc).

Lemma remaining_mono acc acc' :
  ta_in acc ⊆ ta_in acc' → (remaining acc' ≤ remaining acc)%nat.
Proof. intros H. unfold remaining. apply subseteq_size. set_solver. Qed.
Lemma remaining_add acc d t device :
  find_device o d = Some device → d ∉ ta_in acc →
  (remaining (mkTrustAcc ({[ d ]} ∪ ta_in acc) t) < remaining acc)%nat.
Proof.
  intros Hd Hn. unfold remaining. apply subset_size. pose proof (find_device_all _ _ Hd).
  cbn. split; [set_solver|]. intros H'. apply (Hn). 
  assert (d ∈ all_devices o ∖ ta_in acc) as Hin by set_solver.
  specialize (H' d Hin). set_solver.
Qed.

(** What a call adds to the chain. *)
Record extends (start : option DeviceID) (acc acc' : TrustAcc) : Prop := {
  ext_in : ta_in acc ⊆ ta_in acc';
  ext_start d : start = Some d → d ∈ ta_in acc';
  ext_closed d d' : d ∈ ta_in acc' → d ∉ ta_in acc → trust_next o d d' → d' ∈ ta_in acc';
  ext_known d : d ∈ ta_in acc' → d ∉ ta_in acc → trust_known o d;
  ext_reach d : d ∈ ta_in acc' → d ∉ ta_in acc → trust_reach o [start] d;
  ext_chain : chain_of redacted o (λ d, d ∈ ta_in acc) (ta_chain acc) →
              chain_of redacted o (λ d, d ∈ ta_in acc') (ta_chain acc') }.

Lemma extends_refl start acc :
  (∀ d, start = Some d → d ∈ ta_in acc) → extends start acc acc.
Proof. intros H. split; try done; naive_solver. Qed.

Lemma chain_of_add d user device acc :
  os_users o !! user_id d = Some user → find_device o d = Some device →
  chain_of redacted o (λ d, d ∈ ta_in acc) (ta_chain acc) →
  chain_of redacted o (λ d', d' ∈ {[ d ]} ∪ ta_in acc)
    (trust_add redacted user device (ta_chain acc)).
Proof.
  intros Hu Hd (H1 & H2 & H3). unfold chain_of, trust_add; cbn. split_and!; intros c.
  - rewrite elem_of_union, elem_of_singleton, H1. split.
    + intros [->|(x & y & ? & ? & ->)]; [exists d, device|exists x, y]; set_solver.
    + intros (x & y & [->%elem_of_singleton|?]%elem_of_union & ? & ->); [left; congruence|].
      right; eauto.
  - rewrite elem_of_union, elem_of_singleton, H2. split.
    + intros [->|(x & y & ? & ? & ->)]; [exists d, user|exists x, y]; set_solver.
    + intros (x & y & [->%elem_of_singleton|?]%elem_of_union & ? & ->); [left; congruence|].
      right; eauto.
  - assert (c ∈ match u_revoked_user_certificate user with
                | Some ((_ :: _) as c) => {[ c ]} ∪ t_revoked_users (ta_chain acc)
                | _ => t_revoked_users (ta_chain acc)
                end ↔ (u_revoked_user_certificate user = Some c ∧ c ≠ []) ∨
                      c ∈ t_revoked_users (ta_chain acc)) as ->.
    { destruct (u_revoked_user_certificate user) as [[|x l]|]; [naive_solver| |naive_solver].
      rewrite elem_of_union, elem_of_singleton. naive_solver. }
    rewrite H3. split.
    + intros [[??]|(x & y & ? & ? & ? & ?)]; [exists d, user|exists x, y]; set_solver.
    + intros (x & y & [->%elem_of_singleton|?]%elem_of_union & ? & ? & ?).
      * left. replace user with y by congruence. done.
      * right. eauto 10.
Qed.

Lemma trust_reach_next d d1 d' :
  trust_next o d d1 → trust_reach o [Some d1] d' → trust_reach o [Some d] d'.
Proof.
  intros Hn (x & [= ->]%list_elem_of_singleton & Hx). exists d. split; [by left|].
  by eapply rtc_l.
Qed.

(** The three calls on the creators of [d]. *)
Lemma extends_step d user device acc acc1 acc2 acc3 :
  os_users o !! user_id d = Some user → find_device o d = Some device →
  extends (d_device_certifier device)
    (mkTrustAcc ({[ d ]} ∪ ta_in acc) (trust_add redacted user device (ta_chain acc))) acc1 →
  extends (u_revoked_user_certifier user) acc1 acc2 →
  extends (u_user_certifier user) acc2 acc3 →
  extends (Some d) acc acc3.
Proof.
  intros Hu Hd E1 E2 E3.
  pose proof (ext_in _ _ _ E1) as I1. cbn in I1.
  pose proof (ext_in _ _ _ E2) as I2. pose proof (ext_in _ _ _ E3) as I3.
  assert (∀ x, x ∈ ta_in acc3 → x ∉ ta_in acc →
    x = d ∨ (x ∈ ta_in acc1 ∧ x ∉ {[ d ]} ∪ ta_in acc) ∨
    (x ∈ ta_in acc2 ∧ x ∉ ta_in acc1) ∨ (x ∈ ta_in acc3 ∧ x ∉ ta_in acc2)) as Hcases.
  { intros x Hx Hn. destruct (decide (x = d)) as [->|]; [by left|right].
    destruct (decide (x ∈ ta_in acc2)); [|by right; right].
    destruct (decide (x ∈ ta_in acc1)); [|by right; left].
    left. split; [done|]. rewrite elem_of_union, elem_of_singleton. naive_solver. }
  assert (∀ d' : DeviceID, d_device_certifier device = Some d' ∨
    u_revoked_user_certifier user = Some d' ∨ u_user_certifier user = Some d' →
    trust_next o d d') as Hnext by (intros; exists user, device; done).
  split.
  - set_solver.
  - intros ? [= <-]. set_solver.
  - intros x x' Hx Hn Hxx. destruct (Hcases x Hx Hn) as [->|[[? ?]|[[? ?]|[? ?]]]].
    + destruct Hxx as (u' & dv' & Hu' & Hd' & Hc). simplify_eq.
      destruct Hc as [Hc|[Hc|Hc]].
      * apply I3, I2. by eapply (ext_start _ _ _ E1).
      * apply I3. by eapply (ext_start _ _ _ E2).
      * by eapply (ext_start _ _ _ E3).
    + apply I3, I2. by eapply (ext_closed _ _ _ E1).
    + apply I3. by eapply (ext_closed _ _ _ E2).
    + by eapply (ext_closed _ _ _ E3).
  - intros x Hx Hn. destruct (Hcases x Hx Hn) as [->|[[? ?]|[[? ?]|[? ?]]]].
    + by split; eexists.
    + by eapply (ext_known _ _ _ E1).
    + by eapply (ext_known _ _ _ E2).
    + by eapply (ext_known _ _ _ E3).
  - intros x Hx Hn.
    assert (∀ c, trust_reach o [c] x → (∀ d', c = Some d' → trust_next o d d') →
                 trust_reach o [Some d] x) as Hstep.
    { intros c (d0 & <-%list_elem_of_singleton & Hr) Hc.
      exists d. split; [by left|]. eapply rtc_l; [by apply Hc|done]. }
    destruct (Hcases x Hx Hn) as [->|[[? ?]|[[? ?]|[? ?]]]].
    + exists d. split; [by left|done].
    + eapply Hstep; [by eapply (ext_reach _ _ _ E1)|]. intros. apply Hnext. by left.
    + eapply Hstep; [by eapply (ext_reach _ _ _ E2)|]. intros. apply Hnext. by right; left.
    + eapply Hstep; [by eapply (ext_reach _ _ _ E3)|]. intros. apply Hnext. by right; right.
  - intros Hc. apply (ext_chain _ _ _ E3), (ext_chain _ _ _ E2), (ext_chain _ _ _ E1). cbn.
    by apply chain_of_add.
Qed.

Lemma extract_creators_spec fuel start acc :
  (remaining acc < fuel)%nat →
  ∃ r, extract_creators redacted o fuel start acc = Some r ∧
    match r with
    | Ok acc' => extends start acc acc'
    | Err e => e = UserNotFoundError ∧ ∃ d, trust_reach o [start] d ∧ ¬ trust_known o d
    end.
Proof.
  revert start acc. induction fuel as [|fuel IH]; intros start acc Hf; [lia|]. cbn.
  destruct start as [d|]; [|eexists; split; [done|by apply extends_refl]].
  case_bool_decide as Hin;
    [eexists; split; [done|]; apply extends_refl; naive_solver|].
  destruct (os_users o !! user_id d) as [user|] eqn:Hu.
  2: { eexists; split; [done|]. split; [done|]. exists d.
       split; [by exists d; split; [left|]|]. unfold trust_known. rewrite Hu. by intros [[? [=]] _]. }
  destruct (find_device o d) as [device|] eqn:Hd.
  2: { eexists; split; [done|]. split; [done|]. exists d.
       split; [by exists d; split; [left|]|]. unfold trust_known. rewrite Hd. by intros [_ [? [=]]]. }
  assert (∀ c : option DeviceID, (∀ d', c = Some d' → trust_next o d d') →
    (∃ x, trust_reach o [c] x ∧ ¬ trust_known o x) →
    ∃ x, trust_reach o [Some d] x ∧ ¬ trust_known o x) as Hfail.
  { intros c Hc (x & (d0 & <-%list_elem_of_singleton & Hr) & Hk).
    exists x. split; [|done]. exists d. split; [by left|]. eapply rtc_l; [by apply Hc|done]. }
  set (accA := mkTrustAcc _ _).
  assert (remaining accA < fuel)%nat as HA.
  { pose proof (remaining_add acc d (trust_add redacted user device (ta_chain acc)) device Hd Hin).
    subst accA. lia. }
  destruct (IH (d_device_certifier device) accA HA) as ([acc1|e] & -> & H1); cbn.
  2: { eexists; split; [done|]. destruct H1 as [-> Hx]. split; [done|].
       eapply Hfail, Hx. intros. exists user, device. auto. }
  assert (remaining acc1 < fuel)%nat as HA1.
  { pose proof (remaining_mono _ _ (ext_in _ _ _ H1)). lia. }
  destruct (IH (u_revoked_user_certifier user) acc1 HA1) as ([acc2|e] & -> & H2); cbn.
  2: { eexists; split; [done|]. destruct H2 as [-> Hx]. split; [done|].
       eapply Hfail, Hx. intros. exists user, device. auto. }
  assert (remaining acc2 < fuel)%nat as HA2.
  { pose proof (remaining_mono _ _ (ext_in _ _ _ H2)). lia. }
  destruct (IH (u_user_certifier user) acc2 HA2) as ([acc3|e] & -> & H3); cbn.
  2: { eexists; split; [done|]. destruct H3 as [-> Hx]. split; [done|].
       eapply Hfail, Hx. intros. exists user, device. auto. }
  eexists; split; [done|]. by eapply extends_step.
Qed.

Definition trust_closed (acc : TrustAcc) : Prop :=
  ∀ d d', d ∈ ta_in acc → trust_next o d d' → d' ∈ ta_in acc.
Lemma extract_all_spec fuel ids acc :
  (remaining acc < fuel)%nat → trust_closed acc →
  ∃ r, extract_all redacted o fuel ids acc = Some r ∧
    match r with
    | Ok acc' =>
        ta_in acc ⊆ ta_in acc' ∧ (∀ d, Some d ∈ ids → d ∈ ta_in acc') ∧ trust_closed acc' ∧
        (∀ d, d ∈ ta_in acc' → d ∈ ta_in acc ∨ trust_reach o ids d ∧ trust_known o d) ∧
        (chain_of redacted o (λ d, d ∈ ta_in acc) (ta_chain acc) →
         chain_of redacted o (λ d, d ∈ ta_in acc') (ta_chain acc'))
    | Err e => e = UserNotFoundError ∧ ∃ d, trust_reach o ids d ∧ ¬ trust_known o d
    end.
Proof.
  revert acc. induction ids as [|d ids IH]; intros acc Hf Hcl; cbn.
  { eexists; split; [done|]. split_and!; [done| |done|auto|done]. by intros ? ?%elem_of_nil. }
  assert (∀ x, trust_reach o [d] x → trust_reach o (d :: ids) x) as R1.
  { intros x (d0 & <-%list_elem_of_singleton & Hr). exists d0. split; [by left|done]. }
  assert (∀ x, trust_reach o ids x → trust_reach o (d :: ids) x) as R2.
  { intros x (d0 & Hd & Hr). exists d0. split; [by right|done]. }
  destruct (extract_creators_spec fuel d acc Hf) as ([acc1|e] & -> & H1); cbn.
  2: { eexists; split; [done|]. naive_solver. }
  assert (trust_closed acc1) as Hcl1.
  { intros x x' Hx Hn. destruct (decide (x ∈ ta_in acc)) as [Hin|Hin].
    - apply (ext_in _ _ _ H1). by eapply Hcl.
    - by eapply (ext_closed _ _ _ H1). }
  destruct (IH acc1) as (r & -> & H2); [|done|].
  { pose proof (remaining_mono _ _ (ext_in _ _ _ H1)). lia. }
  eexists; split; [done|]. destruct r as [acc2|e]; [|naive_solver].
  destruct H2 as (I2 & S2 & C2 & K2 & Ch2). split_and!; [|..|done| |].
  - by etrans; [apply (ext_in _ _ _ H1)|].
  - intros x [Hx|Hx]%elem_of_cons; [|by apply S2]. apply I2. by eapply (ext_start _ _ _ H1).
  - intros x Hx. destruct (K2 x Hx) as [Hx1|[? ?]]; [|by right; split; [apply R2|]].
    destruct (decide (x ∈ ta_in acc)) as [|Hn]; [by left|right]. split.
    + apply R1. by eapply (ext_reach _ _ _ H1).
    + by eapply (ext_known _ _ _ H1).
  - intros Hc. by apply Ch2, (ext_chain _ _ _ H1).
Qed.
End trustchain.

(** The certificates of a trustchain are the ones of the devices that its ids
    reach. *)
Lemma get_trustchain_spec org ids redacted s :
  let o := orgstore s org in
  ∃ r, get_trustchain org ids redacted s = (s, r) ∧
    match r with
    | Ok t => chain_of redacted o (trust_reach o ids) t ∧
              (∀ d, trust_reach o ids d → trust_known o d)
    | Err e => e = UserNotFoundError ∧ ∃ d, trust_reach o ids d ∧ ¬ trust_known o d
    end.
Proof.
  cbn zeta. unfold get_trustchain. set (o := orgstore s org).
  destruct (extract_all_spec redacted o (trust_fuel o) ids empty_trust) as (r & Hr & H).
  { unfold remaining, trust_fuel; cbn. rewrite difference_empty_L. lia. }
  { intros d d' Hd. cbn in Hd. set_solver. }
  rewrite (bind_Ok _ _ s s o) by done. cbv beta. rewrite Hr.
  destruct r as [acc|e]; [|by eexists; split; [done|]].
  eexists; split; [done|]. destruct H as (_ & Hs & Hcl & Hk & Hch).
  assert (∀ d, d ∈ ta_in acc ↔ trust_reach o ids d) as Heq.
  { intros d. split.
    - intros Hd. destruct (Hk d Hd) as [Hd'|[? ?]]; [|done]. cbn in Hd'. set_solver.
    - intros (d0 & Hd0%Hs & Hr0). clear -Hcl Hd0 Hr0. induction Hr0; [done|].
      by eauto. }
  assert (chain_of redacted o (λ d, d ∈ ta_in acc) (ta_chain acc)) as (C1 & C2 & C3).
  { apply Hch. unfold chain_of; cbn. set_solver. }
  split.
  - split_and!; intros c; [rewrite C1|rewrite C2|rewrite C3]; by setoid_rewrite Heq.
  - intros d Hd%Heq. destruct (Hk d Hd) as [Hd'|[? ?]]; [|done]. cbn in Hd'. set_solver.
Qed.

(** ** The invariant of the users *)

(** The user keeps the email for himself as long as it is not revoked. *)
Definition holds_email (o : OrganizationStore) (e : string) (u : UserID) : Prop :=
  ∃ user h, os_users o !! u = Some user ∧ u_human_handle user = Some h ∧ email h = e ∧
            u_revoked_on user = None.
Record users_ok (o : OrganizationStore) : Prop := {
  uo_ids u user : os_users o !! u = Some user → u_user_id user = u;
  uo_handles e u : os_human_handle_to_user_id o !! e = Some u ↔ holds_email o e u;
  uo_devices d device : find_device o d = Some device →
    d_device_id device = d ∧ is_Some (os_users o !! user_id d) }.
Definition all_users_ok (s : Backend) : Prop := ∀ org, users_ok (orgstore s org).

Lemma users_ok_empty : users_ok empty_organization_store.
Proof.
  split; cbn.
  - done.
  - intros e u. split; [done|]. intros (? & ? & [=] & _).
  - intros d device. unfold find_device, devices_of. cbn. by rewrite lookup_empty.
Qed.
Lemma users_ok_same o o' : same_users o o' → users_ok o → users_ok o'.
Proof.
  intros (Hh & Hu & Hd) [H1 H2 H3]. split; unfold holds_email, find_device, devices_of in *;
    rewrite ?Hh, ?Hu, ?Hd; auto.
Qed.

Lemma all_users_ok_set s org o :
  all_users_ok s → users_ok o → all_users_ok (set_orgstores <[org := o]> s).
Proof.
  intros Hs Ho org'. destruct (decide (org = org')) as [<-|].
  - by rewrite orgstore_set.
  - rewrite orgstore_set_ne; auto.
Qed.

Lemma find_device_set o d d' :
  find_device (set_device d o) d' =
    if decide (d' = d_device_id d) then Some d else find_device o d'.
Proof.
  unfold find_device, devices_of, set_device, d_user_id, d_device_name; cbn.
  destruct (decide (user_id d' = user_id (d_device_id d))) as [Hu|Hu].
  - rewrite Hu, lookup_insert_eq. cbn. unfold devices_of.
    destruct (decide (d' = d_device_id d)) as [->|Hne]; [by rewrite lookup_insert_eq|].
    rewrite lookup_insert_ne; [done|]. intros Hn. apply Hne.
    destruct d', (d_device_id d); cbn in *; congruence.
  - rewrite lookup_insert_ne by done.
    rewrite decide_False; [done|congruence].
Qed.

Lemma users_ok_set_device o d :
  users_ok o → is_Some (os_users o !! d_user_id d) → users_ok (set_device d o).
Proof.
  intros [H1 H2 H3] Hu. split; [done|done|].
  intros d' device. rewrite find_device_set. cbn. case_decide as E; [|apply H3].
  intros [= <-]. by subst.
Qed.

Lemma users_ok_create_user o user :
  users_ok o → mem_users o (u_user_id user) || mem_handle o (u_human_handle user) = false →
  u_revoked_on user = None →
  users_ok (set_handles (match u_human_handle user with
                         | Some h => <[email h := u_user_id user]>
                         | None => id
                         end) (set_user user o)).
Proof.
  intros [H1 H2 H3] [Hm Hh]%orb_false_iff Hr.
  apply bool_decide_eq_false, eq_None_not_Some in Hm.
  assert (∀ e u, holds_email (set_user user o) e u ↔
    holds_email o e u ∨ (u = u_user_id user ∧ ∃ h, u_human_handle user = Some h ∧ email h = e))
    as Hhold.
  { intros e u. unfold holds_email, set_user; cbn.
    destruct (decide (u = u_user_id user)) as [->|Hne].
    - rewrite lookup_insert_eq, Hm. naive_solver.
    - rewrite lookup_insert_ne by done. naive_solver. }
  split; cbn.
  - intros u user'. destruct (decide (u = u_user_id user)) as [->|].
    + rewrite lookup_insert_eq. by intros [= <-].
    + rewrite lookup_insert_ne by done. apply H1.
  - intros e u. change (holds_email _ e u) with (holds_email (set_user user o) e u).
    rewrite Hhold, <-H2.
    destruct (u_human_handle user) as [h|]; cbn in *.
    + apply bool_decide_eq_false, eq_None_not_Some in Hh.
      destruct (decide (e = email h)) as [->|Hne].
      * rewrite lookup_insert_eq, Hh. naive_solver.
      * rewrite lookup_insert_ne by done. naive_solver.
    + naive_solver.
  - intros d device Hd. destruct (H3 d device Hd) as [? ?]. split; [done|].
    destruct (decide (user_id d = u_user_id user)) as [->|].
    + rewrite lookup_insert_eq. eauto.
    + by rewrite lookup_insert_ne.
Qed.

Lemma create_user_ok org user d s s' r :
  all_users_ok s → u_revoked_on user = None → d_user_id d = u_user_id user →
  create_user org user d s = (s', r) → all_users_ok s'.
Proof.
  intros Hs Hr Hd H. apply create_user_inv in H. cbn zeta in H.
  destruct (mem_users _ _ || _) eqn:E; [by destruct H as [-> _]|].
  destruct H as [_ ->].
  change (all_users_ok (set_orgstores <[org := set_device d (set_handles (match u_human_handle user with
     | Some h => <[email h := u_user_id user]> | None => id end)
     (set_user user (orgstore s org)))]> s)).
  apply all_users_ok_set; [done|]. apply users_ok_set_device.
  - by apply users_ok_create_user.
  - cbn. rewrite Hd, lookup_insert_eq. eauto.
Qed.

Lemma create_device_ok org d s s' r :
  all_users_ok s → create_device org d s = (s', r) → all_users_ok s'.
Proof.
  intros Hs H. apply create_device_inv in H as [[-> _]|(_ & Hu & _ & ->)]; [done|].
  apply all_users_ok_set; [done|]. apply users_ok_set_device; [done|].
  by apply bool_decide_eq_true in Hu.
Qed.

Lemma revoke_user_ok org u certificate certifier on now s s' r :
  all_users_ok s → revoke_user org u certificate certifier on now s = (s', r) →
  all_users_ok s' ∧ r ≠ Err BKeyError.
Proof.
  intros Hs H. apply revoke_user_inv in H. cbn zeta in H.
  destruct H as [(-> & [[? ->]|(? & ? & ? & ->)])|(user & Hu & Hr & H)]; [done|done|].
  destruct (Hs org) as [H1 H2 H3]. set (o := orgstore s org) in *.
  assert (holds_email o (default ""%string (email <$> u_human_handle user)) u ∨
          u_human_handle user = None) as Hhold.
  { destruct (u_human_handle user) as [h|] eqn:Hh; [left|by right]. exists user, h. done. }
  destruct (match u_human_handle user with Some _ => _ | None => _ end) eqn:E.
  { destruct (u_human_handle user) as [h|] eqn:Hh; [|done].
    apply bool_decide_eq_true in E. destruct Hhold as [Hhold|]; [|done].
    apply H2 in Hhold. cbn in Hhold. congruence. }
  destruct H as [-> ->]. split; [|done].
  intros org'. rewrite orgstore_add_event. revert org'.
  apply all_users_ok_set; [done|]. set (user' := user_evolve_revoked _ _ _ _).
  split; cbn.
  - intros u' user''. destruct (decide (u' = u)) as [->|].
    + rewrite lookup_insert_eq. intros [= <-]. cbn. by apply H1.
    + rewrite lookup_insert_ne by done. apply H1.
  - intros e u'.
    assert (holds_email (set_handles (match u_human_handle user with
              | Some h => delete (email h) | None => id end) (set_user_at u user' o)) e u' ↔
            holds_email o e u' ∧ u' ≠ u) as ->.
    { unfold holds_email; cbn. destruct (decide (u' = u)) as [->|].
      - rewrite lookup_insert_eq. naive_solver.
      - rewrite lookup_insert_ne by done. naive_solver. }
    rewrite <-H2. destruct (u_human_handle user) as [h|] eqn:Hh; cbn in *.
    + destruct Hhold as [Hhold|]; [|done]. apply H2 in Hhold.
      destruct (decide (e = email h)) as [->|Hne].
      * rewrite lookup_delete_eq. naive_solver.
      * rewrite lookup_delete_ne by done. split; [|naive_solver].
        intros He. split; [done|]. intros ->. apply H2 in He as (user2 & h2 & ? & ? & ? & ?).
        naive_solver congruence.
    + split; [|naive_solver]. intros He. split; [done|]. intros ->.
      apply H2 in He as (user2 & h2 & ? & ? & ? & ?). naive_solver congruence.
  - intros d device Hd. destruct (H3 d device Hd) as [? ?]. split; [done|].
    destruct (decide (user_id d = u)) as [->|].
    + rewrite lookup_insert_eq. eauto.
    + by rewrite lookup_insert_ne.
Qed.

Lemma only_invitations_ok s s' : only_invitations s s' → all_users_ok s → all_users_ok s'.
Proof. intros [H _] Hs org. by eapply users_ok_same. Qed.

(** ** The certificates of a new user *)

Lemma check_user_create_None now d_data u_data ru_data rd_data :
  check_user_create now d_data u_data ru_data rd_data = None →
  uc_timestamp u_data = dc_timestamp d_data ∧
  timestamps_in_the_ballpark (uc_timestamp u_data) now = true ∧
  uc_user_id u_data = user_id (dc_device_id d_data) ∧
  uc_evolve_human_handle ru_data (uc_human_handle u_data) = u_data ∧
  uc_human_handle ru_data = None ∧
  dc_evolve_device_label rd_data (dc_device_label d_data) = d_data ∧
  truthy_str (dc_device_label rd_data) = false.
Proof.
  unfold check_user_create. case_bool_decide; [done|].
  destruct (timestamps_in_the_ballpark _ _); [|done]. cbn.
  case_bool_decide; [done|]. case_bool_decide; [done|]. case_bool_decide as Hh; [done|].
  case_bool_decide; [done|]. destruct (truthy_str _); [done|]. intros _.
  split_and!; try done; try by apply dec_stable. by apply eq_None_not_Some.
Qed.
Lemma check_device_create_None now ctx data rd :
  check_device_create now ctx data rd = None →
  timestamps_in_the_ballpark (dc_timestamp data) now = true ∧
  user_id (dc_device_id data) = cc_user_id ctx.
Proof.
  unfold check_device_create. destruct (timestamps_in_the_ballpark _ _); [|done]. cbn.
  case_bool_decide; [done|]. intros _. split; [done|]. done.
Qed.

(** The agreement of the four certificates, which [check_user_create] decides. *)
Definition certificates_agree (now : DateTime) (d_data : DeviceCertificateContent)
    (u_data ru_data : UserCertificateContent) (rd_data : DeviceCertificateContent) : Prop :=
  uc_timestamp u_data = dc_timestamp d_data ∧
  timestamps_in_the_ballpark (uc_timestamp u_data) now = true ∧
  uc_user_id u_data = user_id (dc_device_id d_data) ∧
  uc_evolve_human_handle ru_data (uc_human_handle u_data) = u_data ∧
  uc_human_handle ru_data = None ∧
  dc_evolve_device_label rd_data (dc_device_label d_data) = d_data ∧
  truthy_str (dc_device_label rd_data) = false.
Lemma certificates_agree_iff now d_data u_data ru_data rd_data :
  check_user_create now d_data u_data ru_data rd_data = None ↔
  certificates_agree now d_data u_data ru_data rd_data.
Proof.
  split; [apply check_user_create_None|]. intros (E1 & E2 & E3 & E4 & E5 & E6 & E7).
  unfold check_user_create. rewrite E2, E5, E7.
  by rewrite !bool_decide_eq_false_2 by (first [by intros [? ?] | intros Hn; by apply Hn]).
Qed.

(** A handle is free when nobody holds its email. *)
Lemma mem_handle_false o h :
  users_ok o → mem_handle o h = false ↔ ∀ x u, h = Some x → ¬ holds_email o (email x) u.
Proof.
  intros Ho. destruct h as [x|]; cbn; [|naive_solver]. rewrite bool_decide_eq_false, <-eq_None_not_Some.
  split.
  - intros Hn y u [= <-] Hu%(uo_handles _ Ho). congruence.
  - intros Hn. apply eq_None_not_Some. intros [u Hu%(uo_handles _ Ho)]. by eapply Hn.
Qed.
