(* ===== verification/BackendMessage.v ===== *)
(** The messages of the server: [backendService/memory/message.py] and the API
    of [backendService/message.py]. *)

From S2P Require Import Prelude Types Backend.

Definition messages_of (s : Backend) (org : OrganizationID) (u : UserID)
    : list (DeviceID * DateTime * bytes) :=
  default [] (be_messages s !! (org, u)).

(** [MemoryMessageComponent.send] *)
Definition send_message (org : OrganizationID) (sender : DeviceID) (recipient : UserID)
    (timestamp : DateTime) (body : bytes) : backendM unit :=
  _ ← modify (λ s, set_messages
        <[(org, recipient) := messages_of s org recipient ++ [(sender, timestamp, body)]]> s);
  messages ← gets (λ s, messages_of s org recipient);
  send_backend_event
    (MESSAGE_RECEIVED org sender recipient (Z.of_nat (length messages))).

(** [MemoryMessageComponent.get]: [messages[recipient][offset:]] *)
Definition get_messages (org : OrganizationID) (recipient : UserID) (offset : Z)
    : backendM (list (DeviceID * DateTime * bytes)) :=
  messages ← gets (λ s, messages_of s org recipient);
  mret (py_slice messages offset (Z.of_nat (length messages))).

Record MessageRep := mkMessageRep {
  mp_count : Z; mp_body : bytes; mp_timestamp : DateTime; mp_sender : DeviceID }.
#[export] Instance MessageRep_eq_dec : EqDecision MessageRep.
Proof. solve_decision. Defined.

(** The request schema: [n >= 0] is checked by the serializer. *)
Definition message_get_req_valid (offset : Z) : bool := 0 <=? offset.
(** [api_message_get] *)
Definition api_message_get (client_ctx : ClientCtx) (offset : Z)
    : backendM (reply (list MessageRep)) :=
  if negb (message_get_req_valid offset) then mret (RepError "bad_message") else
  messages ← get_messages (cc_organization_id client_ctx) (cc_user_id client_ctx) offset;
  mret (RepOk ((λ '(i, (sender, timestamp, body)), mkMessageRep i body timestamp sender)
                 <$> enumerate_from (offset + 1) messages)).

(** ** Delivery *)

Lemma messages_of_send s org sender u ts body s' r org' u' :
  send_message org sender u ts body s = (s', r) →
  r = Ok tt ∧
  messages_of s' org' u' =
    messages_of s org' u' ++ (if bool_decide ((org', u') = (org, u)) then [(sender, ts, body)]
                              else []).
Proof.
  intros [= <- <-]. split; [done|]. unfold messages_of. cbn.
  case_bool_decide as E.
  - injection E as -> ->. by rewrite lookup_insert_eq.
  - rewrite lookup_insert_ne by congruence. by rewrite app_nil_r.
Qed.

(** Sending a message changes the messages and the events only. *)
Lemma send_message_frame s org sender u ts body s' r :
  send_message org sender u ts body s = (s', r) →
  s' = mkBackend (be_orgstores s) (be_messages s') (be_realms s) (be_vlobs s) (be_changes s)
         (be_blockmetas s) (be_blocks s) (be_organizations s) (be_events s').
Proof. by intros [= <- <-]. Qed.
