(* ===== verification/BackendVlob.v ===== *)
(** The vlobs of the server: [backendService/memory/vlob.py] and the API of
    [backendService/vlob.py]. *)

From S2P Require Import Prelude Types Backend.

(** ** [Reencryption] *)

(** [Reencryption.__init__] on the items of [vlobs]. *)
Definition new_reencryption (realm_id : UUID) (vlobs : list (UUID * Vlob)) : Reencryption :=
  let todo := od_update []
    ('(vlob_id, vlob) ← vlobs;
     (λ '(index, (data, _, _)), ((vlob_id, index + 1), data))
       <$> enumerate_from 0 (v_data vlob)) in
  mkReencryption realm_id vlobs.*1 todo [] (Z.of_nat (length todo)).

(** [Reencryption.is_finished] *)
Definition re_is_finished (r : Reencryption) : bool :=
  match re_todo r with [] => true | _ => false end.

(** The order of the items of [sorted(self._done.items())]: the keys are
    distinct, so that the data are not compared. *)
Definition done_leb (x y : (UUID * Z) * bytes) : bool :=
  let '((i, m), _) := x in
  let '((j, n), _) := y in
  if bool_decide (i = j) then m <=? n else (i <=? j)%N.

(** One turn of the loop of [get_reencrypted_vlobs]; [vlob_at] gives the
    original vlobs. *)
Definition reencrypted_step (realm_id : UUID) (original : list UUID) (vlob_at : UUID → option Vlob)
    (vlobs : odict UUID Vlob) (item : (UUID * Z) * bytes)
    : result BackendExn (odict UUID Vlob) :=
  let '((vlob_id, version), data) := item in
  match (if bool_decide (vlob_id ∈ original) then vlob_at vlob_id else None) with
  | None => Err VlobNotFoundError
  | Some o =>
      match py_index (v_data o) (version - 1) with
      | None => Err BIndexError
      | Some (_, author, timestamp) =>
          let entry := (data, author, timestamp) in
          let vlob := match od_get vlobs vlob_id with
                      | None => mkVlob realm_id [entry]
                      | Some v => mkVlob (v_realm_id v) (v_data v ++ [entry])
                      end in
          if bool_decide (current_version vlob = version) then Ok (od_set vlobs vlob_id vlob)
          else Err BAssertionError
      end
  end.
Fixpoint reencrypted_loop (realm_id : UUID) (original : list UUID) (vlob_at : UUID → option Vlob)
    (vlobs : odict UUID Vlob) (items : list ((UUID * Z) * bytes))
    : result BackendExn (odict UUID Vlob) :=
  match items with
  | [] => Ok vlobs
  | item :: items =>
      vlobs ← reencrypted_step realm_id original vlob_at vlobs item;
      reencrypted_loop realm_id original vlob_at vlobs items
  end.
(** [Reencryption.get_reencrypted_vlobs] *)
Definition get_reencrypted_vlobs (r : Reencryption) (vlob_at : UUID → option Vlob)
    : result BackendExn (odict UUID Vlob) :=
  if re_is_finished r
  then reencrypted_loop (re_realm_id r) (re_original_vlobs r) vlob_at []
         (py_sorted done_leb (re_done r))
  else Err BAssertionError.

(** [Reencryption.get_batch] *)
Definition get_batch (r : Reencryption) (size : Z) : list (UUID * Z * bytes) :=
  py_slice ((λ '(k, data), (k.1, k.2, data))
              <$> filter (λ '(k, _), od_mem (re_done r) k = false) (re_todo r)) 0 size.

(** [Reencryption.save_batch]: a key that is unknown raises after the keys
    before it were saved, so that the object is returned with the exception. *)
Fixpoint save_batch (r : Reencryption) (batch : list (UUID * Z * bytes))
    : Reencryption * result BackendExn (Z * Z) :=
  match batch with
  | [] => (r, Ok (re_total r, Z.of_nat (length (re_done r))))
  | (vlob_id, version, data) :: batch =>
      let key := (vlob_id, version) in
      if od_mem (re_done r) key then save_batch r batch
      else if od_mem (re_todo r) key then
        save_batch (mkReencryption (re_realm_id r) (re_original_vlobs r) (od_del (re_todo r) key)
                      (od_set (re_done r) key data) (re_total r)) batch
      else (r, Err VlobNotFoundError)
  end.

(** ** [MemoryVlobComponent] *)

(** [self._per_realm_changes[(organization_id, realm_id)]] of a [defaultdict] *)
Definition changes_of (s : Backend) (org : OrganizationID) (realm_id : UUID) : Changes :=
  default empty_changes (be_changes s !! (org, realm_id)).
Definition set_changes_of (org : OrganizationID) (realm_id : UUID) (c : Changes)
    : backendM unit :=
  modify (set_changes <[(org, realm_id) := c]>).
Definition ch_with_reencryption (c : Changes) (r : option Reencryption) : Changes :=
  mkChanges (ch_checkpoint c) (ch_changes c) r.

(** [realm_vlobs] of the start hook: the vlobs of a realm, in the order of the
    store. *)
Definition realm_vlobs (s : Backend) (org : OrganizationID) (realm_id : UUID)
    : list (UUID * Vlob) :=
  (λ '(k, v), (k.2, v))
    <$> filter (λ '(k, v), k.1 = org ∧ v_realm_id v = realm_id) (be_vlobs s).

(** [_maintenance_reencryption_start_hook] *)
Definition maintenance_reencryption_start_hook (org : OrganizationID) (realm_id : UUID)
    : backendM unit :=
  changes ← gets (λ s, changes_of s org realm_id);
  _ ← be_assert (bool_decide (ch_reencryption changes = None));
  vlobs ← gets (λ s, realm_vlobs s org realm_id);
  set_changes_of org realm_id
    (ch_with_reencryption changes (Some (new_reencryption realm_id vlobs))).

(** [self._vlobs[(organization_id, vlob_id)] = vlob] *)
Definition write_vlob (org : OrganizationID) (item : UUID * Vlob) : backendM unit :=
  modify (set_be_vlobs (λ d, od_set d (org, item.1) item.2)).
(** [_maintenance_reencryption_is_finished_hook] *)
Definition maintenance_reencryption_is_finished_hook (org : OrganizationID) (realm_id : UUID)
    : backendM bool :=
  changes ← gets (λ s, changes_of s org realm_id);
  reencryption ← of_option BAssertionError (ch_reencryption changes);
  if negb (re_is_finished reencryption) then mret false else
  vlobs ← gets be_vlobs;
  new_vlobs ← lift_result
    (get_reencrypted_vlobs reencryption (λ id, od_get vlobs (org, id)));
  _ ← for_each (write_vlob org) new_vlobs;
  _ ← set_changes_of org realm_id (ch_with_reencryption changes None);
  mret true.

(** [_get_vlob] *)
Definition get_vlob (org : OrganizationID) (vlob_id : UUID) : backendM Vlob :=
  vlobs ← gets be_vlobs;
  of_option VlobNotFoundError (od_get vlobs (org, vlob_id)).

(** [except RealmNotFoundError: raise e'] *)
Definition convert_exn (e e' x : BackendExn) : BackendExn :=
  if bool_decide (x = e) then e' else x.

(** [_check_realm_access] *)
Definition vlob_check_realm_access (org : OrganizationID) (realm_id : UUID) (user : UserID)
    (encryption_revision : option Z) (allowed_roles : list RealmRole)
    (expected_maintenance : bool) : backendM unit :=
  realm ← try_catch (get_realm org realm_id)
            (λ e, mthrow (convert_exn RealmNotFoundError VlobNotFoundError e));
  _ ← raise_if (negb (role_in (realm_roles realm !! user) allowed_roles)) VlobAccessError;
  _ ← (if expected_maintenance
       then raise_if (negb (in_maintenance (r_status realm))) VlobNotInMaintenanceError
       else raise_if (in_maintenance (r_status realm)) VlobInMaintenanceError);
  raise_if (match encryption_revision with
            | Some rev => bool_decide (rev ≠ rs_encryption_revision (r_status realm))
            | None => false
            end) VlobEncryptionRevisionError.

Definition can_read_roles : list RealmRole := [OWNER; MANAGER; CONTRIBUTOR; READER].
Definition can_write_roles : list RealmRole := [OWNER; MANAGER; CONTRIBUTOR].
Definition can_do_maintenance_roles : list RealmRole := [OWNER].

(** [_check_realm_read_access], [_check_realm_write_access] and
    [_check_realm_in_maintenance_access] *)
Definition vlob_check_read_access org realm_id user encryption_revision : backendM unit :=
  vlob_check_realm_access org realm_id user encryption_revision can_read_roles false.
Definition vlob_check_write_access org realm_id user encryption_revision : backendM unit :=
  vlob_check_realm_access org realm_id user encryption_revision can_write_roles false.
Definition vlob_check_in_maintenance_access org realm_id user encryption_revision
    : backendM unit :=
  vlob_check_realm_access org realm_id user encryption_revision can_do_maintenance_roles true.

(** [_update_changes] *)
Definition update_changes (org : OrganizationID) (author : DeviceID) (realm_id src_id : UUID)
    (src_version : Z) : backendM unit :=
  changes ← gets (λ s, changes_of s org realm_id);
  let checkpoint := ch_checkpoint changes + 1 in
  _ ← set_changes_of org realm_id
        (mkChanges checkpoint (<[src_id := (author, checkpoint, src_version)]> (ch_changes changes))
           (ch_reencryption changes));
  send_backend_event (REALM_VLOBS_UPDATED org author realm_id checkpoint src_id src_version).

(** [create] *)
Definition vlob_create (org : OrganizationID) (author : DeviceID) (realm_id : UUID)
    (encryption_revision : Z) (vlob_id : UUID) (timestamp : DateTime) (blob : bytes)
    : backendM unit :=
  _ ← vlob_check_write_access org realm_id (user_id author) (Some encryption_revision);
  vlobs ← gets be_vlobs;
  _ ← raise_if (od_mem vlobs (org, vlob_id)) VlobAlreadyExistsError;
  _ ← modify (set_be_vlobs
        (λ d, od_set d (org, vlob_id) (mkVlob realm_id [(blob, author, timestamp)])));
  update_changes org author realm_id vlob_id 1.

(** [for i in range(vlob.current_version, 0, -1)]: the version of [n] versions
    whose date is not after [timestamp]. *)
Fixpoint version_at (data : list VlobVersion) (timestamp : DateTime) (n : nat) : option Z :=
  match n with
  | O => None
  | S m =>
      match data !! m with
      | Some (_, _, ts) =>
          if ts <=? timestamp then Some (Z.of_nat n) else version_at data timestamp m
      | None => version_at data timestamp m
      end
  end.

(** [read] *)
Definition vlob_read (org : OrganizationID) (author : DeviceID) (encryption_revision : Z)
    (vlob_id : UUID) (version : option Z) (timestamp : option DateTime)
    : backendM (Z * bytes * DeviceID * DateTime) :=
  vlob ← get_vlob org vlob_id;
  _ ← vlob_check_read_access org (v_realm_id vlob) (user_id author) (Some encryption_revision);
  version ← of_option VlobVersionError
    (match version, timestamp with
     | Some v, _ => Some v
     | None, None => Some (current_version vlob)
     | None, Some ts => version_at (v_data vlob) ts (length (v_data vlob))
     end);
  '(blob, blob_author, ts) ← of_option VlobVersionError (py_index (v_data vlob) (version - 1));
  mret (version, blob, blob_author, ts).

(** [update] *)
Definition vlob_update (org : OrganizationID) (author : DeviceID) (encryption_revision : Z)
    (vlob_id : UUID) (version : Z) (timestamp : DateTime) (blob : bytes) : backendM unit :=
  vlob ← get_vlob org vlob_id;
  _ ← vlob_check_write_access org (v_realm_id vlob) (user_id author) (Some encryption_revision);
  _ ← raise_if (bool_decide (version - 1 ≠ current_version vlob)) VlobVersionError;
  '(_, _, last) ← of_option BIndexError (py_index (v_data vlob) (current_version vlob - 1));
  _ ← raise_if (timestamp <? last) VlobTimestampError;
  _ ← modify (set_be_vlobs (λ d, od_set d (org, vlob_id)
        (mkVlob (v_realm_id vlob) (v_data vlob ++ [(blob, author, timestamp)]))));
  update_changes org author (v_realm_id vlob) vlob_id version.

(** [poll_changes] *)
Definition vlob_poll_changes (org : OrganizationID) (author : DeviceID) (realm_id : UUID)
    (checkpoint : Z) : backendM (Z * gmap UUID Z) :=
  _ ← vlob_check_read_access org realm_id (user_id author) None;
  changes ← gets (λ s, changes_of s org realm_id);
  mret (ch_checkpoint changes,
        omap (λ '(_, change_checkpoint, src_version),
                if checkpoint <? change_checkpoint then Some src_version else None)
          (ch_changes changes)).

(** [list_versions]: the versions are the keys from 1. *)
Definition vlob_list_versions (org : OrganizationID) (author : DeviceID) (vlob_id : UUID)
    : backendM (list (Z * (DateTime * DeviceID))) :=
  vlob ← get_vlob org vlob_id;
  _ ← vlob_check_read_access org (v_realm_id vlob) (user_id author) None;
  mret ((λ '(k, (_, a, ts)), (k, (ts, a))) <$> enumerate_from 1 (v_data vlob)).

(** [maintenance_get_reencryption_batch] *)
Definition maintenance_get_reencryption_batch (org : OrganizationID) (author : DeviceID)
    (realm_id : UUID) (encryption_revision size : Z) : backendM (list (UUID * Z * bytes)) :=
  _ ← vlob_check_in_maintenance_access org realm_id (user_id author) (Some encryption_revision);
  changes ← gets (λ s, changes_of s org realm_id);
  reencryption ← of_option BAssertionError (ch_reencryption changes);
  mret (get_batch reencryption size).

(** [maintenance_save_reencryption_batch] *)
Definition maintenance_save_reencryption_batch (org : OrganizationID) (author : DeviceID)
    (realm_id : UUID) (encryption_revision : Z) (batch : list (UUID * Z * bytes))
    : backendM (Z * Z) :=
  _ ← vlob_check_in_maintenance_access org realm_id (user_id author) (Some encryption_revision);
  changes ← gets (λ s, changes_of s org realm_id);
  reencryption ← of_option BAssertionError (ch_reencryption changes);
  let '(reencryption, total_done) := save_batch reencryption batch in
  _ ← set_changes_of org realm_id (ch_with_reencryption changes (Some reencryption));
  lift_result total_done.

(** ** The API: [BaseVlobComponent] *)

(** The validators of the request schemas; a request they refuse gets the status
    ["bad_message"]. *)
Definition validate_version (n : Z) : bool := 1 <=? n.
Definition validate_size (n : Z) : bool := (0 <=? n) && (n <=? 1000).

(** [api_vlob_create] *)
Definition api_vlob_create (now : DateTime) (client_ctx : ClientCtx) (realm_id : UUID)
    (encryption_revision : Z) (vlob_id : UUID) (timestamp : DateTime) (blob : bytes)
    : backendM (reply unit) :=
  if negb (timestamps_in_the_ballpark timestamp now) then mret (RepError "bad_timestamp") else
  reply_of (vlob_create (cc_organization_id client_ctx) (cc_device_id client_ctx) realm_id
              encryption_revision vlob_id timestamp blob)
    (λ e, match e with
          | VlobAlreadyExistsError => Some "already_exists"%string
          | VlobAccessError => Some "not_allowed"%string
          | VlobEncryptionRevisionError => Some "bad_encryption_revision"%string
          | VlobInMaintenanceError => Some "in_maintenance"%string
          | _ => None
          end) id.

(** [api_vlob_read] *)
Definition api_vlob_read (client_ctx : ClientCtx) (encryption_revision : Z) (vlob_id : UUID)
    (version : option Z) (timestamp : option DateTime)
    : backendM (reply (Z * bytes * DeviceID * DateTime)) :=
  if negb (match version with Some v => validate_version v | None => true end)
  then mret (RepError "bad_message") else
  reply_of (vlob_read (cc_organization_id client_ctx) (cc_device_id client_ctx)
              encryption_revision vlob_id version timestamp)
    (λ e, match e with
          | VlobNotFoundError => Some "not_found"%string
          | VlobAccessError => Some "not_allowed"%string
          | VlobVersionError => Some "bad_version"%string
          | VlobTimestampError => Some "bad_timestamp"%string
          | VlobEncryptionRevisionError => Some "bad_encryption_revision"%string
          | VlobInMaintenanceError => Some "in_maintenance"%string
          | _ => None
          end) id.

(** [api_vlob_update] *)
Definition api_vlob_update (now : DateTime) (client_ctx : ClientCtx) (encryption_revision : Z)
    (vlob_id : UUID) (version : Z) (timestamp : DateTime) (blob : bytes)
    : backendM (reply unit) :=
  if negb (validate_version version) then mret (RepError "bad_message") else
  if negb (timestamps_in_the_ballpark timestamp now) then mret (RepError "bad_timestamp") else
  reply_of (vlob_update (cc_organization_id client_ctx) (cc_device_id client_ctx)
              encryption_revision vlob_id version timestamp blob)
    (λ e, match e with
          | VlobNotFoundError => Some "not_found"%string
          | VlobAccessError => Some "not_allowed"%string
          | VlobVersionError => Some "bad_version"%string
          | VlobTimestampError => Some "bad_timestamp"%string
          | VlobEncryptionRevisionError => Some "bad_encryption_revision"%string
          | VlobInMaintenanceError => Some "in_maintenance"%string
          | _ => None
          end) id.

(** The exceptions that [api_vlob_poll_changes] and [api_vlob_list_versions]
    catch. *)
Definition vlob_query_status (e : BackendExn) : option string :=
  match e with
  | VlobAccessError => Some "not_allowed"%string
  | VlobNotFoundError => Some "not_found"%string
  | VlobInMaintenanceError => Some "in_maintenance"%string
  | _ => None
  end.

(** [api_vlob_poll_changes] *)
Definition api_vlob_poll_changes (client_ctx : ClientCtx) (realm_id : UUID)
    (last_checkpoint : Z) : backendM (reply (Z * gmap UUID Z)) :=
  reply_of (vlob_poll_changes (cc_organization_id client_ctx) (cc_device_id client_ctx)
              realm_id last_checkpoint) vlob_query_status id.

(** [api_vlob_list_versions] *)
Definition api_vlob_list_versions (client_ctx : ClientCtx) (vlob_id : UUID)
    : backendM (reply (list (Z * (DateTime * DeviceID)))) :=
  reply_of (vlob_list_versions (cc_organization_id client_ctx) (cc_device_id client_ctx) vlob_id)
    vlob_query_status id.

(** The exceptions that the two reencryption handlers catch. *)
Definition vlob_maintenance_status (e : BackendExn) : option string :=
  match e with
  | VlobAccessError => Some "not_allowed"%string
  | VlobNotFoundError => Some "not_found"%string
  | VlobNotInMaintenanceError => Some "not_in_maintenance"%string
  | VlobEncryptionRevisionError => Some "bad_encryption_revision"%string
  | VlobMaintenanceError => Some "maintenance_error"%string
  | _ => None
  end.

(** [api_vlob_maintenance_get_reencryption_batch] *)
Definition api_vlob_maintenance_get_reencryption_batch (client_ctx : ClientCtx)
    (realm_id : UUID) (encryption_revision size : Z)
    : backendM (reply (list (UUID * Z * bytes))) :=
  if negb (validate_size size) then mret (RepError "bad_message") else
  reply_of (maintenance_get_reencryption_batch (cc_organization_id client_ctx)
              (cc_device_id client_ctx) realm_id encryption_revision size)
    vlob_maintenance_status id.

(** [api_vlob_maintenance_save_reencryption_batch] *)
Definition api_vlob_maintenance_save_reencryption_batch (client_ctx : ClientCtx)
    (realm_id : UUID) (encryption_revision : Z) (batch : list (UUID * Z * bytes))
    : backendM (reply (Z * Z)) :=
  if negb (forallb (λ '(_, version, _), 0 <=? version) batch)
  then mret (RepError "bad_message") else
  reply_of (maintenance_save_reencryption_batch (cc_organization_id client_ctx)
              (cc_device_id client_ctx) realm_id encryption_revision batch)
    vlob_maintenance_status id.
