(* ===== verification/BackendVlobProofs.v ===== *)
(** The lemmas on the vlobs of the server: the reencryption, what each operation
    does to the state, and the invariant of the vlobs, the changes and the
    reencryptions. *)

From S2P Require Import Prelude Types Backend BackendVlob.

(** ** Sorted lists *)

Lemma StronglySorted_seqZ m n : StronglySorted Z.le (seqZ m n).
Proof.
  unfold seqZ. generalize 0%nat. induction (Z.to_nat n) as [|k IH]; intros i; cbn; constructor; [done|].
  rewrite Forall_fmap, Forall_forall. intros j Hj%elem_of_seq. cbn. lia.
Qed.

(** ** The end of a reencryption *)

(** The version [i] of a vlob with the data that was saved for it. *)
Definition reencrypted_entry (done : odict (UUID * Z) bytes) (vlob_id : UUID) (i : nat)
    (e : VlobVersion) : VlobVersion :=
  (default e.1.1 (od_get done (vlob_id, Z.of_nat i + 1)), e.1.2, e.2).
Definition reencrypted (done : odict (UUID * Z) bytes) (vlob_id : UUID) (v : Vlob) : Vlob :=
  mkVlob (v_realm_id v) (imap (reencrypted_entry done vlob_id) (v_data v)).

Lemma done_leb_iff x y :
  done_leb x y = true ↔ (x.1.1 < y.1.1)%N ∨ x.1.1 = y.1.1 ∧ x.1.2 <= y.1.2.
Proof.
  destruct x as [[i m] a], y as [[j n] b]. unfold done_leb; cbn.
  case_bool_decide; rewrite ?N.leb_le, ?Z.leb_le; lia.
Qed.
Lemma done_leb_total x y : done_leb x y = true ∨ done_leb y x = true.
Proof. rewrite !done_leb_iff. lia. Qed.
Lemma done_leb_trans x y z : done_leb x y = true → done_leb y z = true → done_leb x z = true.
Proof. rewrite !done_leb_iff. lia. Qed.

(** The versions of a vlob in a list of items, in their order. *)
Definition versions_in (vlob_id : UUID) (items : list ((UUID * Z) * bytes)) : list Z :=
  (λ x, x.1.2) <$> filter (λ x, x.1.1 = vlob_id) items.
Lemma versions_in_app id l1 l2 :
  versions_in id (l1 ++ l2) = versions_in id l1 ++ versions_in id l2.
Proof. unfold versions_in. by rewrite filter_app, fmap_app. Qed.
Lemma versions_in_cons id x l :
  versions_in id (x :: l) =
    if decide (x.1.1 = id) then x.1.2 :: versions_in id l else versions_in id l.
Proof. unfold versions_in. rewrite filter_cons. by case_decide. Qed.
Lemma elem_of_versions_in id n items : n ∈ versions_in id items ↔ (id, n) ∈ items.*1.
Proof.
  unfold versions_in. rewrite !list_elem_of_fmap. split.
  - intros ([[i m] b] & -> & [<- ?]%list_elem_of_filter). by exists ((i, m), b).
  - intros ([[i m] b] & [= -> ->] & ?). exists ((i, m), b). split; [done|].
    by apply list_elem_of_filter.
Qed.
Lemma NoDup_versions_in id items : NoDup items.*1 → NoDup (versions_in id items).
Proof.
  induction items as [|[[i n] b] items IH]; [constructor|]. rewrite fmap_cons, NoDup_cons.
  intros [Hn Hd]. rewrite versions_in_cons. case_decide as E; [|auto]. cbn in E, Hn |- *.
  subst. constructor; [|auto]. by rewrite elem_of_versions_in.
Qed.

Lemma versions_in_sorted id items :
  StronglySorted (λ x y, done_leb x y = true) items → StronglySorted Z.le (versions_in id items).
Proof.
  induction 1 as [|x l Hs IH Hx]; [constructor|]. rewrite versions_in_cons.
  case_decide as E; [|done]. constructor; [done|].
  apply Forall_forall. intros n Hn. unfold versions_in in Hn.
  apply list_elem_of_fmap in Hn as (y & -> & [Ey Hy]%list_elem_of_filter).
  pose proof (proj1 (Forall_forall _ _) Hx y Hy) as Hy'. cbn beta in Hy'. clear Hy. rename Hy' into Hy. apply done_leb_iff in Hy. subst. lia.
Qed.

Section get_reencrypted.
Context (re : Reencryption) (vlob_at : UUID → option Vlob).
Context (Hdup : NoDup (od_keys (re_done re))).
Context (Hkeys : ∀ id n, (id, n) ∈ od_keys (re_done re) ↔
  id ∈ re_original_vlobs re ∧ ∃ v, vlob_at id = Some v ∧ 1 <= n <= current_version v).
Context (Horig : ∀ id, id ∈ re_original_vlobs re →
  ∃ v, vlob_at id = Some v ∧ v_realm_id v = re_realm_id re ∧ v_data v ≠ []).

Let items := py_sorted done_leb (re_done re).

Lemma items_keys k : k ∈ items.*1 ↔ k ∈ od_keys (re_done re).
Proof. unfold items, od_keys. by rewrite py_sorted_Permutation. Qed.
Lemma items_NoDup : NoDup items.*1.
Proof. unfold items. by rewrite py_sorted_Permutation. Qed.

(** The versions of a vlob come in order. *)
Lemma versions_in_items id v :
  id ∈ re_original_vlobs re → vlob_at id = Some v →
  versions_in id items = seqZ 1 (current_version v).
Proof.
  intros Hid Hv. apply (StronglySorted_unique Z.le).
  - apply versions_in_sorted, py_sorted_sorted; [apply done_leb_total|apply done_leb_trans].
  - apply StronglySorted_seqZ.
  - apply NoDup_Permutation; [apply NoDup_versions_in, items_NoDup|apply NoDup_seqZ|].
    intros n. rewrite elem_of_versions_in, items_keys, Hkeys, elem_of_seqZ. split.
    + intros (_ & v' & Hv' & ?). simplify_eq. lia.
    + intros ?. split; [done|]. exists v. split; [done|lia].
Qed.

(** The vlobs after the items of [P]: each one has as many versions as [P] has
    items of it. *)
Definition loop_inv (vlobs : odict UUID Vlob) (P : list ((UUID * Z) * bytes)) : Prop :=
  NoDup (od_keys vlobs) ∧
  ∀ id, od_get vlobs id =
    match length (versions_in id P) with
    | O => None
    | S _ as k =>
        v ← vlob_at id;
        Some (mkVlob (re_realm_id re) (take k (v_data (reencrypted (re_done re) id v))))
    end.

Lemma reencrypted_step_ok vlobs P item Q :
  items = P ++ item :: Q → loop_inv vlobs P →
  ∃ vlobs', reencrypted_step (re_realm_id re) (re_original_vlobs re) vlob_at vlobs item = Ok vlobs' ∧
    loop_inv vlobs' (P ++ [item]).
Proof.
  intros Hitems [Hnd Hvl]. destruct item as [[id n] data].
  assert (((id, n), data) ∈ re_done re) as Hin.
  { rewrite <-(elem_of_py_sorted done_leb). fold items. rewrite Hitems. set_solver. }
  assert ((id, n) ∈ od_keys (re_done re)) as Hk.
  { apply list_elem_of_fmap. by eexists (_, _). }
  apply Hkeys in Hk as (Hid & v & Hv & Hn).
  pose proof (versions_in_items id v Hid Hv) as Hvers.
  rewrite Hitems, versions_in_app, versions_in_cons in Hvers. cbn in Hvers.
  rewrite decide_True in Hvers by done.
  set (k := length (versions_in id P)) in *.
  assert (n = Z.of_nat k + 1) as Hnk.
  { assert (seqZ 1 (current_version v) !! k = Some n) as Hl.
    { rewrite <-Hvers. apply list_lookup_middle. done. }
    apply lookup_seqZ in Hl. lia. }
  assert (is_Some (v_data v !! k)) as [[[b author] ts] Hk].
  { apply lookup_lt_is_Some. unfold current_version in Hn. lia. }
  assert (v_data (reencrypted (re_done re) id v) !! k = Some (data, author, ts)) as Hk'.
  { cbn. rewrite list_lookup_imap, Hk. cbn. unfold reencrypted_entry. cbn.
    rewrite <-Hnk, (od_elem_get _ _ data) by done. done. }
  unfold reencrypted_step. rewrite bool_decide_true, Hv by done.
  rewrite py_index_nonneg by lia. replace (Z.to_nat (n - 1)) with k by lia. rewrite Hk.
  set (vlob := match od_get vlobs id with None => _ | Some _ => _ end).
  assert (vlob = mkVlob (re_realm_id re) (take (S k) (v_data (reencrypted (re_done re) id v)))) as Hvlob.
  { subst vlob. rewrite (Hvl id). fold k. rewrite (take_S_r _ _ _ Hk').
    destruct k; [done|]. rewrite Hv. done. }
  rewrite bool_decide_true.
  2: { rewrite Hvlob. unfold current_version. cbn [v_data].
       rewrite length_take. apply lookup_lt_Some in Hk'. lia. }
  eexists; split; [done|]. split; [by apply od_set_NoDup|].
  intros id'. rewrite od_get_set_case, versions_in_app, length_app, versions_in_cons. cbn [fst snd].
  destruct (decide (id' = id)) as [->|Hne].
  - rewrite decide_True by done. cbn [length versions_in].
    fold k. replace (k + _)%nat with (S k) by (cbn; lia). rewrite Hv. cbn. by rewrite Hvlob.
  - rewrite decide_False by done. cbn. rewrite Nat.add_0_r. apply Hvl.
Qed.

Lemma reencrypted_loop_ok vlobs P Q :
  items = P ++ Q → loop_inv vlobs P →
  ∃ vlobs', reencrypted_loop (re_realm_id re) (re_original_vlobs re) vlob_at vlobs Q = Ok vlobs' ∧
    loop_inv vlobs' items.
Proof.
  revert vlobs P. induction Q as [|item Q IH]; intros vlobs P Hi Hinv; cbn.
  - exists vlobs. split; [done|]. by rewrite Hi, app_nil_r.
  - destruct (reencrypted_step_ok vlobs P item Q Hi Hinv) as (vlobs' & -> & Hinv'). cbn.
    apply (IH vlobs' (P ++ [item])); [|done]. by rewrite <-app_assoc.
Qed.

Lemma get_reencrypted_vlobs_ok :
  re_is_finished re = true →
  ∃ vlobs, get_reencrypted_vlobs re vlob_at = Ok vlobs ∧ NoDup (od_keys vlobs) ∧
    ∀ id, od_get vlobs id =
      if decide (id ∈ re_original_vlobs re) then reencrypted (re_done re) id <$> vlob_at id
      else None.
Proof.
  intros Hf. unfold get_reencrypted_vlobs. rewrite Hf.
  destruct (reencrypted_loop_ok [] [] items) as (vlobs & Hl & Hnd & Hvl); [done| |].
  { split; [constructor|done]. }
  exists vlobs. split_and!; [done|done|]. intros id. rewrite Hvl.
  case_decide as Hid.
  - destruct (Horig id Hid) as (v & Hv & Hr & Hne). rewrite Hv.
    rewrite (versions_in_items id v) by done. rewrite length_seqZ. unfold current_version.
    rewrite Nat2Z.id. cbn. destruct (v_data v) as [|x l] eqn:Hd; [done|]. cbn [length mbind option_bind].
    unfold reencrypted. rewrite <-Hr, Hd. f_equal. f_equal. apply take_ge.
    cbn [v_data]. rewrite length_imap. cbn. lia.
  - destruct (versions_in id items) as [|n l] eqn:E; [done|].
    assert (n ∈ versions_in id items) as Hn by (rewrite E; by left).
    rewrite elem_of_versions_in, items_keys, Hkeys in Hn. naive_solver.
Qed.
End get_reencrypted.

(** ** The reencryption of a realm *)

(** The vlobs of a realm. *)
Definition in_realm (vlob_at : UUID → option Vlob) (realm_id : UUID) (id : UUID) (v : Vlob)
    : Prop := vlob_at id = Some v ∧ v_realm_id v = realm_id.

(** The versions of the vlobs of the realm are either to do or done. *)
Record reencryption_ok (vlob_at : UUID → option Vlob) (realm_id : UUID) (re : Reencryption)
    : Prop := {
  ro_realm : re_realm_id re = realm_id;
  ro_original id : id ∈ re_original_vlobs re ↔ ∃ v, in_realm vlob_at realm_id id v;
  ro_todo_nodup : NoDup (od_keys (re_todo re));
  ro_done_nodup : NoDup (od_keys (re_done re));
  ro_keys id n : (id, n) ∈ od_keys (re_todo re) ∨ (id, n) ∈ od_keys (re_done re) ↔
    ∃ v, in_realm vlob_at realm_id id v ∧ 1 <= n <= current_version v;
  ro_disjoint k : k ∈ od_keys (re_todo re) → k ∉ od_keys (re_done re);
  ro_todo id n data : od_get (re_todo re) (id, n) = Some data →
    ∃ v author ts, in_realm vlob_at realm_id id v ∧
      v_data v !! Z.to_nat (n - 1) = Some (data, author, ts);
  ro_total : re_total re = Z.of_nat (length (re_todo re) + length (re_done re)) }.

Lemma reencryption_ok_ext vlob_at vlob_at' realm_id re :
  (∀ id v, in_realm vlob_at realm_id id v ↔ in_realm vlob_at' realm_id id v) →
  reencryption_ok vlob_at realm_id re → reencryption_ok vlob_at' realm_id re.
Proof.
  intros Heq [H1 H2 H3 H4 H5 H6 H7 H8].
  split; try done; intros; setoid_rewrite <-Heq; auto.
Qed.

(** The items of [__init__]. *)
Definition todo_items (vlobs : list (UUID * Vlob)) : list ((UUID * Z) * bytes) :=
  '(vlob_id, vlob) ← vlobs;
  (λ '(index, (data, _, _)), ((vlob_id, index + 1), data)) <$> enumerate_from 0 (v_data vlob).

Lemma elem_of_enumerate_from {A} i (l : list A) k x :
  (k, x) ∈ enumerate_from i l ↔ i <= k ∧ l !! Z.to_nat (k - i) = Some x.
Proof.
  rewrite list_elem_of_lookup. split.
  - intros [j Hj]. rewrite lookup_enumerate_from in Hj.
    destruct (l !! j) eqn:E; [|done]. cbn in Hj. simplify_eq.
    split; [lia|]. by replace (Z.to_nat (i + Z.of_nat j - i)) with j by lia.
  - intros [? Hk]. exists (Z.to_nat (k - i)). rewrite lookup_enumerate_from, Hk. cbn.
    f_equal. f_equal. lia.
Qed.

Lemma elem_of_todo_items vlobs id n data :
  ((id, n), data) ∈ todo_items vlobs ↔
  ∃ v author ts, (id, v) ∈ vlobs ∧ 1 <= n ∧ v_data v !! Z.to_nat (n - 1) = Some (data, author, ts).
Proof.
  unfold todo_items. rewrite list_elem_of_bind. split.
  - intros ([id' v] & Hx & Hin). cbn in Hx.
    apply list_elem_of_fmap in Hx as ([k [[b a] ts]] & [= -> -> ->] & Hk).
    apply elem_of_enumerate_from in Hk as [? Hk]. exists v, a, ts. split_and!; [done|lia|].
    by replace (Z.to_nat (k + 1 - 1)) with (Z.to_nat (k - 0)) by lia.
  - intros (v & a & ts & Hin & ? & Hl). exists (id, v). split; [|done].
    apply list_elem_of_fmap. exists (n - 1, (data, a, ts)). split.
    + by replace (n - 1 + 1) with n by lia.
    + apply elem_of_enumerate_from. split; [lia|]. by rewrite Z.sub_0_r.
Qed.

Lemma todo_items_NoDup vlobs : NoDup vlobs.*1 → NoDup (todo_items vlobs).*1.
Proof.
  induction vlobs as [|[id v] vlobs IH]; [constructor|]. rewrite fmap_cons, NoDup_cons.
  intros [Hid Hd]. unfold todo_items. cbn [mbind list_bind]. rewrite fmap_app. apply NoDup_app. split_and!.
  - rewrite <-list_fmap_compose.
    assert (∀ i, NoDup ((fst ∘ (λ '(index, (data, _, _)), ((id, index + 1), data : bytes)))
      <$> enumerate_from i (v_data v))) as H; [|apply H].
    clear. induction (v_data v) as [|[[b a] ts] l IH]; intros i; [constructor|]. cbn. constructor; [|apply IH].
    intros ([k [[b' a'] ts']] & [= Hk] & Hin)%list_elem_of_fmap.
    apply elem_of_enumerate_from in Hin as [? _]. lia.
  - intros [id' n] Hx Hy.
    apply list_elem_of_fmap in Hx as ([[? ?] b] & [= -> ->] & Hx).
    apply list_elem_of_fmap in Hx as ([k [[? ?] ?]] & [= -> -> ->] & _).
    apply list_elem_of_fmap in Hy as ([[? ?] b'] & [= <- <-] & Hy).
    apply elem_of_todo_items in Hy as (v' & _ & _ & Hin & _). apply Hid.
    apply list_elem_of_fmap. by exists (id, v').
  - by apply IH.
Qed.

Lemma new_reencryption_ok vlob_at realm_id vlobs :
  NoDup vlobs.*1 → (∀ id v, (id, v) ∈ vlobs ↔ in_realm vlob_at realm_id id v) →
  reencryption_ok vlob_at realm_id (new_reencryption realm_id vlobs).
Proof.
  intros Hnd Hin. unfold new_reencryption. fold (todo_items vlobs).
  rewrite od_update_fresh by (cbn; by apply todo_items_NoDup). cbn [app].
  pose proof (todo_items_NoDup _ Hnd) as Htd.
  split; cbn; [done| |done|constructor| |intros ? _; apply not_elem_of_nil| |lia].
  - intros id. rewrite list_elem_of_fmap. setoid_rewrite <-Hin. split.
    + intros ([? v] & -> & ?). eauto.
    + intros [v ?]. by exists (id, v).
  - intros id n. setoid_rewrite <-Hin. split.
    + intros [Hk|Hk]; [|by apply elem_of_nil in Hk].
      apply list_elem_of_fmap in Hk as ([[? ?] b] & [= -> ->] & Hk).
      apply elem_of_todo_items in Hk as (v & a & ts & ? & ? & Hl). exists v. split; [done|].
      apply lookup_lt_Some in Hl. unfold current_version. lia.
    + intros (v & ? & ? & ?). left. destruct (v_data v !! Z.to_nat (n - 1)) as [[[b a] ts]|] eqn:E.
      * apply list_elem_of_fmap. exists ((id, n), b). split; [done|]. apply elem_of_todo_items. naive_solver.
      * apply lookup_ge_None in E. unfold current_version in *. lia.
  - intros id n data Hg. apply od_get_elem, elem_of_todo_items in Hg as (v & a & ts & ? & ? & ?).
    exists v, a, ts. by rewrite <-Hin.
Qed.

(** [save_batch] moves the keys of the batch from what is to do to what is
    done, and the result of an item is the data it gives. *)
Lemma save_batch_ok vlob_at realm_id re batch re' r :
  reencryption_ok vlob_at realm_id re → save_batch re batch = (re', r) →
  reencryption_ok vlob_at realm_id re' ∧
  (∀ k d, od_get (re_done re) k = Some d → od_get (re_done re') k = Some d) ∧
  (∀ k, od_mem (re_done re') k = true → od_mem (re_done re) k = false →
     ∃ d, (k.1, k.2, d) ∈ batch ∧ od_get (re_done re') k = Some d) ∧
  match r with
  | Ok (total, done) => total = re_total re ∧ done = Z.of_nat (length (re_done re')) ∧
      ∀ id n d, (id, n, d) ∈ batch → od_mem (re_done re') (id, n) = true
  | Err e => e = VlobNotFoundError ∧ ∃ id n d, (id, n, d) ∈ batch ∧
      ¬ ∃ v, in_realm vlob_at realm_id id v ∧ 1 <= n <= current_version v
  end.
Proof.
  revert re. induction batch as [|[[id n] d] batch IH]; intros re Hok; cbn.
  { intros [= <- <-]. split_and!; try done; [|by intros ??? ?%elem_of_nil].
    intros k ? ?. congruence. }
  destruct (od_mem (re_done re) (id, n)) eqn:Ed.
  { intros H. destruct (IH _ Hok H) as (H1 & H2 & H3 & H4). split_and!; [done..| |].
    - intros k Hk1 Hk2. destruct (H3 k Hk1 Hk2) as (d' & ? & ?). exists d'. split; [by right|done].
    - destruct r as [[total done]|e].
      + destruct H4 as (-> & -> & H4). split_and!; [done..|].
        intros id' n' d' [[= -> -> ->]|?]%elem_of_cons; [|by eapply H4].
        apply od_mem_true in Ed as [x Hx]. apply od_mem_true. rewrite (H2 _ _ Hx). eauto.
      + destruct H4 as (-> & id' & n' & d' & ? & ?). split; [done|].
        exists id', n', d'. split; [by right|done]. }
  destruct (od_mem (re_todo re) (id, n)) eqn:Et.
  2: { intros [= <- <-]. split_and!; try done; [intros k ? ?; congruence|].
       exists id, n, d. split; [by left|]. rewrite <-(ro_keys _ _ _ Hok).
       apply bool_decide_eq_false in Et, Ed. rewrite od_get_is_Some in Et, Ed. naive_solver. }
  set (re1 := mkReencryption _ _ _ _ _).
  assert (reencryption_ok vlob_at realm_id re1) as Hok1.
  { apply od_mem_true, od_get_is_Some in Et. apply bool_decide_eq_false in Ed.
    rewrite od_get_is_Some in Ed.
    destruct Hok as [O1 O2 O3 O4 O5 O6 O7 O8]. subst re1. split; cbn -[od_keys]; [done|done| | | | | |].
    - by apply od_del_NoDup.
    - by apply od_set_NoDup.
    - intros id' n'. rewrite <-O5, od_keys_del, od_keys_set, decide_False by done.
      rewrite elem_of_app, list_elem_of_singleton.
      destruct (decide ((id', n') = (id, n))) as [[= -> ->]|]; naive_solver.
    - intros k. rewrite od_keys_del, od_keys_set, decide_False by done.
      rewrite elem_of_app, list_elem_of_singleton. naive_solver.
    - intros id' n' data. destruct (decide ((id, n) = (id', n'))) as [[= -> ->]|Hne].
      + by rewrite od_get_del.
      + rewrite od_get_del_ne by done. apply O7.
    - rewrite O8. rewrite od_set_fresh by done. rewrite length_app. cbn.
      enough (length (re_todo re) = S (length (od_del (re_todo re) (id, n)))) by lia.
      clear -Et O3. revert Et O3. induction (re_todo re) as [|[k x] l IHl]; cbn; [by intros ?%elem_of_nil|].
      rewrite elem_of_cons, NoDup_cons. intros Hin [Hk Hn].
      case_decide as E.
      + subst. f_equal. clear -Hk. induction l as [|[k y] l IHl]; [done|]. cbn in *.
        apply not_elem_of_cons in Hk as [? ?]. rewrite decide_False by done. cbn. auto.
      + cbn. f_equal. apply IHl; [naive_solver|done]. }
  intros H. destruct (IH _ Hok1 H) as (H1 & H2 & H3 & H4). cbn in H2, H3, H4.
  assert (od_get (re_done re') (id, n) = Some d) as Hd by (apply H2, od_get_set).
  split_and!; [done| | |].
  - intros k d' Hk. apply H2. rewrite od_get_set_case. case_decide; [|done]. subst.
    apply bool_decide_eq_false in Ed. rewrite Hk in Ed. destruct Ed. eauto.
  - intros k Hk1 Hk2. destruct (decide (k = (id, n))) as [->|Hne].
    + exists d. split; [by left|done].
    + destruct (H3 k Hk1) as (d' & ? & ?).
      * unfold od_mem in *. by rewrite od_get_set_ne.
      * exists d'. split; [by right|done].
  - destruct r as [[total done]|e].
    + destruct H4 as (-> & -> & H4). split_and!; [done..|].
      intros id' n' d' [[= -> -> ->]|?]%elem_of_cons; [|by eapply H4].
      apply od_mem_true. rewrite Hd. eauto.
    + destruct H4 as (-> & id' & n' & d' & ? & ?). split; [done|].
      exists id', n', d'. split; [by right|done].
Qed.

(** ** What the operations do to the state *)

Lemma get_realm_inv org realm_id s s' r :
  get_realm org realm_id s = (s', r) →
  s' = s ∧ r = match be_realms s !! (org, realm_id) with
               | Some realm => Ok realm
               | None => Err RealmNotFoundError
               end.
Proof. intros H. unfold get_realm in H. minv_all; by rewrite Hc. Qed.

(** The access that the checks ask for. *)
Definition access_granted (s : Backend) (org : OrganizationID) (realm_id : UUID) (user : UserID)
    (allowed_roles : list RealmRole) (maintenance : bool) : Prop :=
  ∃ realm role, be_realms s !! (org, realm_id) = Some realm ∧
    realm_roles realm !! user = Some role ∧ role ∈ allowed_roles ∧
    in_maintenance (r_status realm) = maintenance.

Lemma vlob_check_inv org realm_id user rev allowed maintenance s s' r :
  vlob_check_realm_access org realm_id user rev allowed maintenance s = (s', r) →
  s' = s ∧
  match r with
  | Ok _ => access_granted s org realm_id user allowed maintenance
  | Err e => e ∈ [VlobNotFoundError; VlobAccessError; VlobInMaintenanceError;
                  VlobNotInMaintenanceError; VlobEncryptionRevisionError]
  end.
Proof.
  intros H. unfold vlob_check_realm_access in H. minv H.
  2: { apply try_catch_inv in Hrun as [(? & ? & [=])|(e & s1 & Hg & Hrun)].
       apply get_realm_inv in Hg as [-> Hg]. minv_all. split; [done|].
       destruct (be_realms _ !! _); [done|]. simplify_eq.
       unfold convert_exn. rewrite bool_decide_true by done. set_solver. }
  apply try_catch_inv in Hrun as [(realm & Hg & [= <-])|(e & s1 & Hg & Hrun)].
  2: { unfold mthrow, stM_throw in Hrun. discriminate. }
  apply get_realm_inv in Hg as [-> Hg].
  destruct (be_realms s !! (org, realm_id)) as [realm|] eqn:Hr; [|done].
  assert (x = realm) as -> by congruence. clear Hg.
  minv H; [|split; [done|set_solver]]. apply negb_false_iff, role_in_spec in Hc as (role & Hrole & Hin).
  destruct maintenance; minv H; minv_all; split; try done; try set_solver.
  all: try (apply negb_false_iff in Hc). all: exists realm, role; done.
Qed.

(** The changes of a realm after a version [version] of a vlob is written. *)
Definition touched (author : DeviceID) (vlob_id : UUID) (version : Z) (c : Changes) : Changes :=
  mkChanges (ch_checkpoint c + 1)
    (<[vlob_id := (author, ch_checkpoint c + 1, version)]> (ch_changes c)) (ch_reencryption c).
(** The state after a version [version] of a vlob of the realm is written. *)
Definition vlob_written (org : OrganizationID) (author : DeviceID) (realm_id vlob_id : UUID)
    (version : Z) (v : Vlob) (s : Backend) : Backend :=
  let c := changes_of s org realm_id in
  add_event (REALM_VLOBS_UPDATED org author realm_id (ch_checkpoint c + 1) vlob_id version)
    (set_changes <[(org, realm_id) := touched author vlob_id version c]>
      (set_be_vlobs (λ d, od_set d (org, vlob_id) v) s)).

Lemma update_changes_eq org author realm_id vlob_id version v s :
  update_changes org author realm_id vlob_id version
    (set_be_vlobs (λ d, od_set d (org, vlob_id) v) s) =
  (vlob_written org author realm_id vlob_id version v s, Ok tt).
Proof. done. Qed.

Lemma vlob_create_inv org author realm_id rev vlob_id ts blob s s' r :
  vlob_create org author realm_id rev vlob_id ts blob s = (s', r) →
  (s' = s ∧ ∃ e, r = Err e) ∨
  (r = Ok tt ∧ access_granted s org realm_id (user_id author) can_write_roles false ∧
   od_get (be_vlobs s) (org, vlob_id) = None ∧
   s' = vlob_written org author realm_id vlob_id 1 (mkVlob realm_id [(blob, author, ts)]) s).
Proof.
  intros H. unfold vlob_create in H. minv H; [|apply vlob_check_inv in Hrun as [-> _]; eauto].
  apply vlob_check_inv in Hrun as [-> Hacc]. do 2 minv H; [|by eauto].
  apply bool_decide_eq_false, eq_None_not_Some in Hc. minv H. rewrite update_changes_eq in H.
  injection H as <- <-. by right.
Qed.

Lemma get_vlob_inv org vlob_id s s' r :
  get_vlob org vlob_id s = (s', r) →
  s' = s ∧ r = match od_get (be_vlobs s) (org, vlob_id) with
               | Some v => Ok v
               | None => Err VlobNotFoundError
               end.
Proof. intros H. unfold get_vlob in H. minv_all; by rewrite Hc. Qed.

Lemma vlob_update_inv org author rev vlob_id version ts blob s s' r :
  vlob_update org author rev vlob_id version ts blob s = (s', r) →
  (s' = s ∧ ∃ e, r = Err e) ∨
  (r = Ok tt ∧ ∃ v, od_get (be_vlobs s) (org, vlob_id) = Some v ∧
   access_granted s org (v_realm_id v) (user_id author) can_write_roles false ∧
   version = current_version v + 1 ∧
   (∃ x, last (v_data v) = Some x ∧ x.2 <= ts) ∧
   s' = vlob_written org author (v_realm_id v) vlob_id version
          (mkVlob (v_realm_id v) (v_data v ++ [(blob, author, ts)])) s).
Proof.
  intros H. unfold vlob_update in H. minv H; [|apply get_vlob_inv in Hrun as [-> _]; eauto].
  apply get_vlob_inv in Hrun as [-> Hv].
  destruct (od_get (be_vlobs s) (org, vlob_id)) as [v|] eqn:Hg; [|done].
  injection Hv as <-. minv H; [|apply vlob_check_inv in Hrun as [-> _]; eauto].
  apply vlob_check_inv in Hrun as [-> Hacc]. minv H; [|by eauto].
  apply bool_decide_eq_false, dec_stable in Hc. minv H; [|by eauto].
  destruct x2 as [[b a] last_ts]. minv H; [|by eauto]. minv H. rewrite update_changes_eq in H.
  injection H as <- <-. right. split; [done|]. exists x. split_and!; [done|done|lia| |done].
  exists (b, a, last_ts). split; [|cbn; lia].
  unfold current_version in Hc0. rewrite last_lookup.
  destruct (v_data x) as [|y l] eqn:E; [done|]. rewrite <-E in *.
  rewrite py_index_nonneg in Hc0 by (rewrite E; cbn; lia).
  rewrite <-Hc0. f_equal. lia.
Qed.

Lemma vlob_read_state org author rev vlob_id version ts s s' r :
  vlob_read org author rev vlob_id version ts s = (s', r) → s' = s.
Proof.
  intros H. unfold vlob_read in H. minv H; apply get_vlob_inv in Hrun as [-> _]; [|done].
  minv H; apply vlob_check_inv in Hrun as [-> _]; [|done].
  minv H; [|done]. minv H; [|done]. by repeat case_match; minv_all.
Qed.
Lemma vlob_poll_changes_state org author realm_id checkpoint s s' r :
  vlob_poll_changes org author realm_id checkpoint s = (s', r) → s' = s.
Proof.
  intros H. unfold vlob_poll_changes in H. minv H; apply vlob_check_inv in Hrun as [-> _]; [|done].
  by minv_all.
Qed.
Lemma vlob_list_versions_state org author vlob_id s s' r :
  vlob_list_versions org author vlob_id s = (s', r) → s' = s.
Proof.
  intros H. unfold vlob_list_versions in H. minv H; apply get_vlob_inv in Hrun as [-> _]; [|done].
  minv H; apply vlob_check_inv in Hrun as [-> _]; [|done]. by minv_all.
Qed.
Lemma get_reencryption_batch_state org author realm_id rev size s s' r :
  maintenance_get_reencryption_batch org author realm_id rev size s = (s', r) → s' = s.
Proof.
  intros H. unfold maintenance_get_reencryption_batch in H.
  minv H; apply vlob_check_inv in Hrun as [-> _]; [|done]. by minv_all.
Qed.

Lemma save_reencryption_batch_inv org author realm_id rev batch s s' r :
  maintenance_save_reencryption_batch org author realm_id rev batch s = (s', r) →
  (s' = s ∧ ∃ e, r = Err e) ∨
  access_granted s org realm_id (user_id author) can_do_maintenance_roles true ∧
  ∃ re re', ch_reencryption (changes_of s org realm_id) = Some re ∧
    save_batch re batch = (re', r) ∧
    s' = set_changes <[(org, realm_id) :=
           ch_with_reencryption (changes_of s org realm_id) (Some re')]> s.
Proof.
  intros H. unfold maintenance_save_reencryption_batch in H.
  minv H; apply vlob_check_inv in Hrun as [-> Hacc]; [|by eauto].
  minv H. minv H; [|by eauto].
  destruct (save_batch _ batch) as [re' td] eqn:E in H.
  unfold set_changes_of in H. minv H. minv H. right. split; [done|]. by eexists _, re'.
Qed.

(** ** The invariant *)

Definition vlob_at (s : Backend) (org : OrganizationID) (id : UUID) : option Vlob :=
  od_get (be_vlobs s) (org, id).
(** A version is not older than the ones before it. *)
Definition history_ok (v : Vlob) : Prop :=
  v_data v ≠ [] ∧ StronglySorted (λ x y, x.2 <= y.2) (v_data v).

Record vlobs_ok (s : Backend) : Prop := {
  vo_nodup : NoDup (od_keys (be_vlobs s));
  vo_history org id v : vlob_at s org id = Some v → history_ok v;
  vo_realm org id v : vlob_at s org id = Some v → is_Some (be_realms s !! (org, v_realm_id v));
  vo_changes org id v : vlob_at s org id = Some v →
    ∃ author checkpoint, ch_changes (changes_of s org (v_realm_id v)) !! id =
      Some (author, checkpoint, current_version v);
  vo_changed org realm_id id x : ch_changes (changes_of s org realm_id) !! id = Some x →
    ∃ v, in_realm (vlob_at s org) realm_id id v;
  vo_checkpoint org realm_id id author checkpoint version :
    ch_changes (changes_of s org realm_id) !! id = Some (author, checkpoint, version) →
    0 < checkpoint <= ch_checkpoint (changes_of s org realm_id);
  vo_nonneg org realm_id : 0 <= ch_checkpoint (changes_of s org realm_id);
  vo_reencryption org realm_id :
    match ch_reencryption (changes_of s org realm_id) with
    | Some re => (∃ realm, be_realms s !! (org, realm_id) = Some realm ∧
                           in_maintenance (r_status realm) = true) ∧
                 reencryption_ok (vlob_at s org) realm_id re
    | None => ∀ realm, be_realms s !! (org, realm_id) = Some realm →
                       in_maintenance (r_status realm) = false
    end }.

(** The invariant reads three components of the state; for the realms, it reads
    which exist and which are in maintenance. *)
Definition same_maintenance (realms realms' : gmap (OrganizationID * UUID) Realm) : Prop :=
  ∀ k, (λ r, in_maintenance (r_status r)) <$> (realms !! k) =
       (λ r, in_maintenance (r_status r)) <$> (realms' !! k).
Lemma same_maintenance_lookup realms realms' k r' :
  same_maintenance realms realms' → realms' !! k = Some r' →
  ∃ r, realms !! k = Some r ∧ in_maintenance (r_status r) = in_maintenance (r_status r').
Proof.
  intros H Hr. specialize (H k). rewrite Hr in H.
  destruct (realms !! k) as [r|]; [|done]. exists r. cbn in H. by injection H.
Qed.
Lemma vlobs_ok_frame s s' :
  be_vlobs s' = be_vlobs s → be_changes s' = be_changes s →
  same_maintenance (be_realms s) (be_realms s') → vlobs_ok s → vlobs_ok s'.
Proof.
  intros Hv Hc Hm [H1 H2 H3 H4 H5 H6 H8 H7].
  assert (∀ org, vlob_at s' org = vlob_at s org) as Hat by (intros; unfold vlob_at; by rewrite Hv).
  assert (∀ org r, changes_of s' org r = changes_of s org r) as Hch
    by (intros; unfold changes_of; by rewrite Hc).
  split.
  - by rewrite Hv.
  - intros org id v. rewrite Hat. apply H2.
  - intros org id v. rewrite Hat. intros [r Hr]%H3. specialize (Hm (org, v_realm_id v)).
    rewrite Hr in Hm. destruct (be_realms s' !! _); [eauto|done].
  - intros org id v. rewrite Hat, Hch. apply H4.
  - intros org realm_id id x. rewrite Hat, Hch. apply H5.
  - intros org realm_id id a c n. rewrite Hch. apply H6.
  - intros org realm_id. rewrite Hch. apply H8.
  - intros org realm_id. rewrite Hch, Hat. specialize (H7 org realm_id).
    destruct (ch_reencryption _) as [re|].
    + destruct H7 as [(r & Hr & Hi) ?]. split; [|done]. specialize (Hm (org, realm_id)).
      rewrite Hr in Hm. destruct (be_realms s' !! _) as [r2|]; [|done]. exists r2.
      split; [done|]. cbn in Hm. congruence.
    + intros r2 Hr2. destruct (same_maintenance_lookup _ _ _ _ Hm Hr2) as (rr & Hrr & <-). eauto.
Qed.

Lemma changes_of_set s org realm_id c org' realm_id' :
  changes_of (set_changes <[(org, realm_id) := c]> s) org' realm_id' =
    if decide ((org', realm_id') = (org, realm_id)) then c else changes_of s org' realm_id'.
Proof.
  unfold changes_of, set_changes; cbn. case_decide as E.
  - injection E as -> ->. by rewrite lookup_insert_eq.
  - by rewrite lookup_insert_ne.
Qed.

Lemma vlob_at_written org author realm_id id version v s org' id' :
  vlob_at (vlob_written org author realm_id id version v s) org' id' =
    if decide ((org', id') = (org, id)) then Some v else vlob_at s org' id'.
Proof. unfold vlob_at, vlob_written; cbn. apply od_get_set_case. Qed.

Lemma changes_of_written org author realm_id id version v s org' realm_id' :
  changes_of (vlob_written org author realm_id id version v s) org' realm_id' =
    if decide ((org', realm_id') = (org, realm_id))
    then touched author id version (changes_of s org realm_id)
    else changes_of s org' realm_id'.
Proof.
  exact (changes_of_set (set_be_vlobs (λ d, od_set d (org, id) v) s) org realm_id _ org' realm_id').
Qed.

Lemma vlob_written_ok org author realm_id id v s user allowed :
  vlobs_ok s → access_granted s org realm_id user allowed false →
  history_ok v → v_realm_id v = realm_id →
  (∀ v0, vlob_at s org id = Some v0 → v_realm_id v0 = realm_id) →
  vlobs_ok (vlob_written org author realm_id id (current_version v) v s).
Proof.
  intros [H1 H2 H3 H4 H5 H6 H8 H7] (realm & role & Hr & _ & _ & Hm) Hv Hvr Hold.
  set (s' := vlob_written org author realm_id id (current_version v) v s).
  pose proof (changes_of_written org author realm_id id (current_version v) v s) as Hch.
  fold s' in Hch.
  assert (∀ org' id', vlob_at s' org' id' = if decide ((org', id') = (org, id)) then Some v
                      else vlob_at s org' id') as Hat by (intros; apply vlob_at_written).
  assert (be_realms s' = be_realms s) as Hrealms by done.
  split.
  - by apply od_set_NoDup.
  - intros org' id' v'. rewrite Hat. case_decide; [by intros [= <-]|apply H2].
  - intros org' id' v'. rewrite Hat, Hrealms. case_decide as E; [|apply H3].
    injection E as -> ->. intros [= <-]. rewrite Hvr. eauto.
  - intros org' id' v'. rewrite Hat, Hch. case_decide as E.
    + injection E as -> ->. intros [= <-]. rewrite Hvr, decide_True by done. cbn.
      rewrite lookup_insert_eq. eauto.
    + intros Hv'. case_decide as E'; [|by apply H4]. injection E' as -> E'. cbn.
      rewrite lookup_insert_ne by congruence. rewrite <-E'. by apply H4.
  - intros org' realm_id' id' x. rewrite Hch. unfold in_realm. setoid_rewrite Hat.
    case_decide as E.
    + injection E as -> ->. cbn. destruct (decide (id' = id)) as [->|Hne].
      * intros _. exists v. by rewrite decide_True.
      * rewrite lookup_insert_ne by done. rewrite decide_False by congruence. apply H5.
    + intros Hx. destruct (H5 _ _ _ _ Hx) as (v0 & Hv0 & Hr0).
      rewrite decide_False; [by eexists|]. intros [= -> ->]. apply E. f_equal.
      rewrite <-Hr0. by apply Hold.
  - intros org' realm_id' id' a c n. rewrite Hch. case_decide as E; [|apply H6].
    injection E as -> ->. cbn. destruct (decide (id' = id)) as [->|Hne].
    + rewrite lookup_insert_eq. intros [= <- <- <-].
      destruct (ch_changes (changes_of s org realm_id) !! id) as [[[a0 c0] n0]|] eqn:E0.
      * apply H6 in E0. lia.
      * pose proof (H8 org realm_id). lia.
    + rewrite lookup_insert_ne by done. intros Hc%H6. lia.
  - intros org' realm_id'. rewrite Hch. case_decide; [|apply H8]. cbn.
    pose proof (H8 org realm_id). lia.
  - intros org' realm_id'. rewrite Hch, Hrealms. specialize (H7 org' realm_id').
    assert (ch_reencryption (if decide ((org', realm_id') = (org, realm_id))
      then touched author id (current_version v) (changes_of s org realm_id)
      else changes_of s org' realm_id') = ch_reencryption (changes_of s org' realm_id')) as ->.
    { case_decide as E; [by injection E as -> ->|done]. }
    destruct (ch_reencryption (changes_of s org' realm_id')) as [re|]; [|done].
    destruct H7 as [(r & Hr' & Hm') Hok]. split; [by exists r|].
    eapply reencryption_ok_ext; [|exact Hok]. intros id' v'. unfold in_realm. rewrite Hat.
    case_decide as E; [|done]. injection E as -> ->.
    assert (realm_id' ≠ realm_id) by (intros ->; congruence).
    split; [|naive_solver]. intros [Hv' ?]. apply Hold in Hv'. congruence.
Qed.

Lemma StronglySorted_snoc {A} (R : relation A) l x :
  (∀ y z, R y z → R z x → R y x) →
  StronglySorted R l → (∀ y, last l = Some y → R y x) → StronglySorted R (l ++ [x]).
Proof.
  intros Htrans. induction 1 as [|y l Hs IH Hy]; cbn; intros Hl; [by repeat constructor|].
  constructor.
  - apply IH. intros z Hz. apply Hl. rewrite last_cons. by rewrite Hz.
  - apply Forall_app. split; [done|]. apply Forall_singleton.
    rewrite last_cons in Hl. destruct (last l) as [z|] eqn:E; [|by apply Hl].
    apply (Htrans y z); [|by apply Hl]. apply last_Some in E as [l' ->].
    apply Forall_app in Hy as [_ Hy]. by inversion_clear Hy.
Qed.

Lemma vlob_create_ok org author realm_id rev vlob_id ts blob s s' r :
  vlobs_ok s → vlob_create org author realm_id rev vlob_id ts blob s = (s', r) → vlobs_ok s'.
Proof.
  intros Hs H. apply vlob_create_inv in H as [[-> _]|(_ & Hacc & Hn & ->)]; [done|].
  change 1 with (current_version (mkVlob realm_id [(blob, author, ts)])).
  eapply vlob_written_ok; [done|done| |done|].
  - split; [done|]. repeat constructor.
  - unfold vlob_at. congruence.
Qed.

Lemma current_version_snoc v x :
  current_version (mkVlob (v_realm_id v) (v_data v ++ [x])) = current_version v + 1.
Proof. unfold current_version; cbn. rewrite length_app; cbn. lia. Qed.

Lemma vlob_update_ok org author rev vlob_id version ts blob s s' r :
  vlobs_ok s → vlob_update org author rev vlob_id version ts blob s = (s', r) → vlobs_ok s'.
Proof.
  intros Hs H. apply vlob_update_inv in H
    as [[-> _]|(_ & v & Hv & Hacc & -> & (x & Hx & Hts) & ->)]; [done|].
  rewrite <-(current_version_snoc v (blob, author, ts)).
  eapply vlob_written_ok; [done|done| |done|].
  - destruct (vo_history _ Hs _ _ _ Hv) as [Hne Hsort]. split.
    + cbn. intros [_ [=]]%app_eq_nil.
    + cbn. apply StronglySorted_snoc; [|done|]; cbn; [lia|]. intros y Hy. cbn in *. congruence.
  - unfold vlob_at. congruence.
Qed.

(** Two vlobs with the same realm, authors and dates. *)
Definition metadata (v : Vlob) : list (DeviceID * DateTime) := (λ x, (x.1.2, x.2)) <$> v_data v.
Definition similar (v v' : Vlob) : Prop :=
  v_realm_id v' = v_realm_id v ∧ metadata v' = metadata v.
Lemma similar_refl v : similar v v.
Proof. done. Qed.
Lemma similar_version v v' : similar v v' → current_version v' = current_version v.
Proof.
  intros [_ H%(f_equal length)]. unfold metadata in H. rewrite !length_fmap in H.
  unfold current_version. by rewrite H.
Qed.
Lemma sorted_metadata v :
  StronglySorted (λ x y, x.2 <= y.2) (v_data v) ↔ StronglySorted (λ x y, x.2 <= y.2) (metadata v).
Proof.
  unfold metadata. induction (v_data v) as [|x l IH]; [split; constructor|]. cbn. split.
  - intros [Hs Hx]%StronglySorted_inv. constructor; [by apply IH|]. by apply Forall_fmap.
  - intros [Hs Hx]%StronglySorted_inv. constructor; [by apply IH|]. exact (proj1 (Forall_fmap _ _ _) Hx).
Qed.
Lemma similar_history v v' : similar v v' → history_ok v → history_ok v'.
Proof.
  intros Hsim [Hne Hs]. pose proof (similar_version _ _ Hsim) as Hlen. destruct Hsim as [_ Hm].
  split.
  - intros E. apply Hne. unfold current_version in Hlen. rewrite E in Hlen.
    apply nil_length_inv. cbn in Hlen. lia.
  - rewrite sorted_metadata, Hm. by apply sorted_metadata.
Qed.
Lemma reencrypted_similar done id v : similar v (reencrypted done id v).
Proof.
  split; [done|]. unfold metadata, reencrypted; cbn. rewrite fmap_imap.
  rewrite <-(imap_const (λ x : VlobVersion, (x.1.2, x.2))). apply imap_ext. done.
Qed.

(** The start and the end of a reencryption: the realm, its reencryption and
    the data of its vlobs change. *)
Lemma maintenance_step_ok s s' org realm_id o :
  vlobs_ok s →
  NoDup (od_keys (be_vlobs s')) →
  (∀ org' id v', vlob_at s' org' id = Some v' → ∃ v, vlob_at s org' id = Some v ∧
     similar v v' ∧ ((org', v_realm_id v) ≠ (org, realm_id) → v' = v)) →
  (∀ org' id v, vlob_at s org' id = Some v → is_Some (vlob_at s' org' id)) →
  be_changes s' =
    <[(org, realm_id) := ch_with_reencryption (changes_of s org realm_id) o]> (be_changes s) →
  (∀ k, k ≠ (org, realm_id) → be_realms s' !! k = be_realms s !! k) →
  is_Some (be_realms s' !! (org, realm_id)) →
  match o with
  | Some re => (∃ realm, be_realms s' !! (org, realm_id) = Some realm ∧
                         in_maintenance (r_status realm) = true) ∧
               reencryption_ok (vlob_at s' org) realm_id re
  | None => ∀ realm, be_realms s' !! (org, realm_id) = Some realm →
                     in_maintenance (r_status realm) = false
  end →
  vlobs_ok s'.
Proof.
  intros [H1 H2 H3 H4 H5 H6 H8 H7] Hnd Hsim Hstay Hchanges Hrealms Hrealm Ho.
  assert (∀ org' r', changes_of s' org' r' = if decide ((org', r') = (org, realm_id))
    then ch_with_reencryption (changes_of s org realm_id) o else changes_of s org' r') as Hch.
  { intros org' r'. rewrite <-changes_of_set. unfold changes_of, set_changes; cbn.
    by rewrite Hchanges. }
  assert (∀ org' r', ch_changes (changes_of s' org' r') = ch_changes (changes_of s org' r') ∧
    ch_checkpoint (changes_of s' org' r') = ch_checkpoint (changes_of s org' r')) as Hsame.
  { intros org' r'. rewrite Hch. case_decide as E; [by injection E as -> ->|done]. }
  split.
  - done.
  - intros org' id v' (v & Hv & Hs & _)%Hsim. eapply similar_history; eauto.
  - intros org' id v' (v & Hv & Hs & _)%Hsim. rewrite (proj1 Hs).
    destruct (decide ((org', v_realm_id v) = (org, realm_id))) as [->|]; [done|].
    rewrite Hrealms by done. eauto.
  - intros org' id v' (v & Hv & Hs & _)%Hsim.
    rewrite (proj1 Hs), (proj1 (Hsame _ _)), (similar_version v v') by done. eauto.
  - intros org' r' id x. rewrite (proj1 (Hsame _ _)). intros (v & Hv & Hr)%H5.
    destruct (Hstay _ _ _ Hv) as [v' Hv']. exists v'. split; [done|].
    apply Hsim in Hv' as (v2 & ? & [Hs _] & _). congruence.
  - intros org' r' id a c n. rewrite (proj1 (Hsame _ _)), (proj2 (Hsame _ _)). apply H6.
  - intros org' r'. rewrite (proj2 (Hsame _ _)). apply H8.
  - intros org' r'. rewrite Hch. case_decide as E; [by injection E as -> ->|].
    specialize (H7 org' r'). destruct (ch_reencryption (changes_of s org' r')) as [re|].
    + destruct H7 as [(r & Hr & Hm) Hok]. split; [exists r; by rewrite Hrealms|].
      eapply reencryption_ok_ext; [|exact Hok]. intros id v. unfold in_realm. split.
      * intros [Hv <-]. destruct (Hstay _ _ _ Hv) as [v' Hv'].
        apply Hsim in Hv' as Hv2. destruct Hv2 as (v2 & ? & _ & Heq). simplify_eq.
        by rewrite Hv', Heq.
      * intros [Hv <-]. apply Hsim in Hv as (v2 & Hv2 & [Hs _] & Heq).
        rewrite Hs in E. rewrite Heq by done. split; [by rewrite Hv2|done].
    + intros r. rewrite Hrealms by done. apply H7.
Qed.

Lemma save_reencryption_batch_ok org author realm_id rev batch s s' r :
  vlobs_ok s → maintenance_save_reencryption_batch org author realm_id rev batch s = (s', r) →
  vlobs_ok s'.
Proof.
  intros Hs H. apply save_reencryption_batch_inv in H
    as [[-> _]|(_ & re & re' & Hre & Hsave & ->)]; [done|].
  pose proof (vo_reencryption _ Hs org realm_id) as Hok.
  rewrite Hre in Hok. destruct Hok as [Hm Hok].
  eapply maintenance_step_ok; [exact Hs|apply (vo_nodup _ Hs)| |by eauto|done|done| |].
  - intros org' id v Hv. by exists v.
  - destruct Hm as (realm & ? & _). by exists realm.
  - split; [done|]. by eapply save_batch_ok in Hsave as [? _].
Qed.

Lemma elem_of_realm_vlobs s org realm_id id v :
  NoDup (od_keys (be_vlobs s)) →
  (id, v) ∈ realm_vlobs s org realm_id ↔ in_realm (vlob_at s org) realm_id id v.
Proof.
  intros Hnd. unfold realm_vlobs, in_realm, vlob_at.
  rewrite list_elem_of_fmap, od_get_Some by done. split.
  - intros ([[o i] v'] & [= -> ->] & [[<- ?] ?]%list_elem_of_filter). done.
  - intros [Hv ?]. exists ((org, id), v). split; [done|]. by apply list_elem_of_filter.
Qed.
Lemma realm_vlobs_NoDup s org realm_id :
  NoDup (od_keys (be_vlobs s)) → NoDup (realm_vlobs s org realm_id).*1.
Proof.
  unfold realm_vlobs, od_keys, odict. induction (be_vlobs s) as [|[[o i] v] l IH]; [constructor|].
  rewrite fmap_cons, NoDup_cons. intros [Hi Hnd]. rewrite filter_cons.
  case_decide as E; [|by apply IH]. rewrite !fmap_cons. constructor; [|by apply IH].
  intros ([i' v'] & Hi' & Hin)%list_elem_of_fmap.
  apply list_elem_of_fmap in Hin as ([[o2 i2] v2] & [= -> ->] & [[E2 _] Hin]%list_elem_of_filter).
  apply Hi. cbn in *. destruct E as [<- _]. subst. apply list_elem_of_fmap. by eexists ((_, _), _).
Qed.

(** The hook of the start finds no reencryption and makes one. *)
Lemma start_hook_ok s org realm_id realm status :
  vlobs_ok s → be_realms s !! (org, realm_id) = Some realm →
  in_maintenance (r_status realm) = false → in_maintenance status = true →
  let s1 := set_realms <[(org, realm_id) := mkRealm status (r_checkpoint realm)
                                                (r_granted_roles realm)]> s in
  ∃ s2, maintenance_reencryption_start_hook org realm_id s1 = (s2, Ok tt) ∧ vlobs_ok s2 ∧
    s2 = set_changes <[(org, realm_id) := ch_with_reencryption (changes_of s org realm_id)
           (Some (new_reencryption realm_id (realm_vlobs s org realm_id)))]> s1.
Proof.
  intros Hs Hr Hm Hst s1.
  assert (ch_reencryption (changes_of s org realm_id) = None) as Hn.
  { pose proof (vo_reencryption _ Hs org realm_id) as H.
    destruct (ch_reencryption _) as [re|]; [|done]. destruct H as [(r0 & ? & ?) _]. congruence. }
  eexists. split; [|split; [|reflexivity]].
  - unfold maintenance_reencryption_start_hook.
    rewrite (bind_Ok _ _ s1 s1 (changes_of s org realm_id)) by done. cbv beta.
    rewrite (bind_Ok _ _ s1 s1 tt); [done|]. unfold be_assert. by rewrite bool_decide_true.
  - eapply maintenance_step_ok; [exact Hs|apply (vo_nodup _ Hs)| |by eauto|done| | |].
    + intros org' id v Hv. by exists v.
    + intros k Hk. cbn. by rewrite lookup_insert_ne.
    + cbn. rewrite lookup_insert_eq. eauto.
    + cbn. rewrite lookup_insert_eq. split; [eexists; split; [done|done]|].
      apply new_reencryption_ok.
      * apply realm_vlobs_NoDup, (vo_nodup _ Hs).
      * intros id v. exact (elem_of_realm_vlobs s org realm_id id v (vo_nodup _ Hs)).
Qed.

(** The loop of the end writes the vlobs of the reencryption. *)
Lemma write_vlobs_spec org (new_vlobs : list (UUID * Vlob)) s s' r :
  for_each (write_vlob org) new_vlobs s = (s', r) →
  NoDup new_vlobs.*1 → NoDup (od_keys (be_vlobs s)) →
  r = Ok tt ∧ s' = set_be_vlobs (λ _, be_vlobs s') s ∧ NoDup (od_keys (be_vlobs s')) ∧
  ∀ org' id, vlob_at s' org' id =
    if decide (org' = org) then
      match od_get (new_vlobs : odict _ _) id with Some v => Some v | None => vlob_at s org' id end
    else vlob_at s org' id.
Proof.
  revert s. induction new_vlobs as [|[i v] l IH]; intros s H Hnd Hd; cbn in H.
  - unfold mret, stM_ret in H. injection H as <- <-. split_and!; [done|by destruct s|done|].
    intros. by case_decide.
  - apply bind_inv in H as [([] & s1 & H1 & H)|(e & H1 & ->)]; [|discriminate].
    injection H1 as <-. rewrite fmap_cons in Hnd. apply NoDup_cons in Hnd as [Hi Hnd].
    apply IH in H as (-> & Heq & Hd' & Hat); [|done|by apply od_set_NoDup].
    split_and!; [done|rewrite Heq; by destruct s|done|].
    intros org' id. rewrite Hat. unfold vlob_at at 1 2. cbn. rewrite !od_get_set_case.
    destruct (decide (org' = org)) as [->|Ho].
    + destruct (decide (id = i)) as [->|].
      * rewrite (proj2 (od_get_None (l : odict _ _) i)) by done. by rewrite decide_True.
      * case_match; [done|]. rewrite decide_False by congruence. done.
    + rewrite decide_False by congruence. done.
Qed.

Lemma finish_hook_ok s org realm_id s' r :
  vlobs_ok s → is_Some (be_realms s !! (org, realm_id)) →
  (∀ realm, be_realms s !! (org, realm_id) = Some realm → in_maintenance (r_status realm) = true) →
  maintenance_reencryption_is_finished_hook org realm_id s = (s', r) →
  ∃ re, ch_reencryption (changes_of s org realm_id) = Some re ∧
    reencryption_ok (vlob_at s org) realm_id re ∧
    ((s' = s ∧ r = Ok false ∧ re_todo re ≠ []) ∨
     (r = Ok true ∧ re_todo re = [] ∧ NoDup (od_keys (be_vlobs s')) ∧
      s' = set_changes <[(org, realm_id) :=
             ch_with_reencryption (changes_of s org realm_id) None]>
             (set_be_vlobs (λ _, be_vlobs s') s) ∧
      ∀ org' id, vlob_at s' org' id =
        v ← vlob_at s org' id;
        Some (if decide ((org', v_realm_id v) = (org, realm_id))
              then reencrypted (re_done re) id v else v))).
Proof.
  intros Hs [realm Hr] Hm H. unfold maintenance_reencryption_is_finished_hook in H.
  pose proof (vo_reencryption _ Hs org realm_id) as Hre.
  minv H. minv H.
  2: { rewrite Hc in Hre. specialize (Hre _ Hr). specialize (Hm _ Hr). congruence. }
  rewrite Hc in Hre. destruct Hre as [_ Hok]. eexists. split; [done|]. split; [done|].
  destruct (re_is_finished _) eqn:Hf in H; cbn in H.
  2: { left. minv_all. split_and!; [done|done|]. intros E. unfold re_is_finished in Hf.
       by rewrite E in Hf. }
  right. minv H.
  match type of Hc with _ = Some ?x => rename x into re end.
  assert (re_todo re = []) as Htodo by (unfold re_is_finished in Hf; by destruct (re_todo re)).
  destruct (get_reencrypted_vlobs_ok re (vlob_at s org)) as (new & Hnew & Hnd & Hget).
  { apply Hok. }
  { intros id n. rewrite (ro_original _ _ _ Hok). pose proof (ro_keys _ _ _ Hok id n) as Hk.
    rewrite Htodo in Hk. cbn in Hk. rewrite elem_of_nil in Hk. unfold in_realm in *. naive_solver. }
  { intros id (v & Hv & Hvr)%(ro_original _ _ _ Hok). exists v. rewrite (ro_realm _ _ _ Hok).
    split_and!; [done..|]. by eapply vo_history. }
  { done. }
  unfold vlob_at in Hnew at 1. rewrite Hnew in H.
  minv H. minv H; [|apply write_vlobs_spec in Hrun as [? _]; [done|done|apply (vo_nodup _ Hs)]].
  apply write_vlobs_spec in Hrun as (_ & Heq & Hd & Hat); [|done|apply (vo_nodup _ Hs)].
  unfold set_changes_of in H. do 2 minv H. split_and!; [done|done|done| |].
  - rewrite Heq at 1. done.
  - intros org' id. unfold vlob_at in Hat |- * at 1. cbn. rewrite Hat. case_decide as E.
    + subst org'. rewrite Hget. case_decide as Hid.
      * apply (ro_original _ _ _ Hok) in Hid as (v & Hv & Hvr). unfold vlob_at in *. rewrite Hv. cbn.
        rewrite decide_True by congruence. done.
      * unfold vlob_at. destruct (od_get _ (org, id)) as [v|] eqn:Hv; [|done]. cbn.
        rewrite decide_False; [done|]. intros [= E]. apply Hid, (ro_original _ _ _ Hok).
        exists v. by split.
    + unfold vlob_at. destruct (od_get _ (org', id)); [|done]. cbn.
      rewrite decide_False by congruence. done.
Qed.
