(* ===== verification/BackendRealm.v ===== *)
(** The realms of the server: [backendService/memory/realm.py] and the API of
    [backendService/realm.py]. *)

From S2P Require Import Prelude Types Backend Certif BackendUser BackendMessage BackendVlob.
From S2P Require Import BackendVlobProofs.

(** ** [MemoryRealmComponent] *)

Definition r_with_status (r : Realm) (status : RealmStatus) : Realm :=
  mkRealm status (r_checkpoint r) (r_granted_roles r).
Definition set_realm (org : OrganizationID) (realm_id : UUID) (r : Realm) : backendM unit :=
  modify (set_realms <[(org, realm_id) := r]>).

(** [realm.roles.get(user)] and [user in realm.roles] *)
Definition role_of (r : Realm) (u : UserID) : option RealmRole := realm_roles r !! u.
Definition has_role (r : Realm) (u : UserID) : bool := bool_decide (is_Some (role_of r u)).

(** [create] *)
Definition realm_create (org : OrganizationID) (self_granted_role : RealmGrantedRole)
    : backendM unit :=
  _ ← be_assert
        (bool_decide (user_id (gr_granted_by self_granted_role) = gr_user_id self_granted_role));
  _ ← be_assert (bool_decide (gr_role self_granted_role = Some OWNER));
  realms ← gets be_realms;
  let realm_id := gr_realm_id self_granted_role in
  match realms !! (org, realm_id) with
  | None =>
      _ ← set_realm org realm_id (new_realm [self_granted_role]);
      send_backend_event (REALM_ROLES_UPDATED org (gr_granted_by self_granted_role) realm_id
        (gr_user_id self_granted_role) (gr_role self_granted_role))
  | Some _ => mthrow RealmAlreadyExistsError
  end.

(** [get_status] *)
Definition realm_get_status (org : OrganizationID) (author : DeviceID) (realm_id : UUID)
    : backendM RealmStatus :=
  realm ← get_realm org realm_id;
  _ ← raise_if (negb (has_role realm (user_id author))) RealmAccessError;
  mret (r_status realm).

(** [get_stats]: the sums are over the blocks and vlobs of every organization
    that have this realm id. *)
Record RealmStats := mkRealmStats { st_blocks_size : Z; st_vlobs_size : Z }.
Definition vlob_size (v : Vlob) : Z :=
  foldr (λ '(blob, _, _) n, Z.of_nat (length blob) + n) 0 (v_data v).
Definition realm_get_stats (org : OrganizationID) (author : DeviceID) (realm_id : UUID)
    : backendM RealmStats :=
  realm ← get_realm org realm_id;
  _ ← raise_if (negb (has_role realm (user_id author))) RealmAccessError;
  blockmetas ← gets be_blockmetas;
  vlobs ← gets be_vlobs;
  mret (mkRealmStats
    (foldr (λ '(_, b) n, if bool_decide (bm_realm_id b = realm_id) then bm_size b + n else n)
       0 (map_to_list blockmetas))
    (foldr (λ '(_, v) n, if bool_decide (v_realm_id v = realm_id) then vlob_size v + n else n)
       0 vlobs)).

(** [get_current_roles] *)
Definition get_current_roles (org : OrganizationID) (realm_id : UUID)
    : backendM (gmap UserID RealmRole) :=
  realm ← get_realm org realm_id;
  mret (current_roles realm).

(** [get_role_certificates] *)
Definition get_role_certificates (org : OrganizationID) (author : DeviceID) (realm_id : UUID)
    (since : option DateTime) : backendM (list bytes) :=
  realm ← get_realm org realm_id;
  _ ← raise_if (negb (has_role realm (user_id author))) RealmAccessError;
  mret (gr_certificate <$>
    match since with
    | Some since => filter (λ x, since < gr_granted_on x) (r_granted_roles realm)
    | None => r_granted_roles realm
    end).

(** The roles that [update_roles] asks of the author, from the role that the
    user has and the new one. *)
Definition owner_only : list RealmRole := [OWNER].
Definition owner_or_manager : list RealmRole := [OWNER; MANAGER].
Definition needed_roles (existing_user_role new_role : option RealmRole) : list RealmRole :=
  if role_in existing_user_role owner_or_manager || role_in new_role owner_or_manager
  then owner_only else owner_or_manager.

(** [update_roles] *)
Definition update_roles (org : OrganizationID) (new_role : RealmGrantedRole)
    (recipient_message : option bytes) : backendM unit :=
  _ ← be_assert (bool_decide (user_id (gr_granted_by new_role) ≠ gr_user_id new_role));
  user ← try_catch (get_user org (gr_user_id new_role))
           (λ e, mthrow (convert_exn UserNotFoundError RealmNotFoundError e));
  _ ← raise_if (bool_decide (u_profile user = OUTSIDER) &&
                role_in (gr_role new_role) [MANAGER; OWNER]) RealmIncompatibleProfileError;
  realm ← get_realm org (gr_realm_id new_role);
  _ ← raise_if (in_maintenance (r_status realm)) RealmInMaintenanceError;
  let existing_user_role := role_of realm (gr_user_id new_role) in
  let needed := needed_roles existing_user_role (gr_role new_role) in
  let author_role := role_of realm (user_id (gr_granted_by new_role)) in
  _ ← raise_if (negb (role_in author_role needed)) RealmAccessError;
  _ ← raise_if (bool_decide (existing_user_role = gr_role new_role)) RealmRoleAlreadyGranted;
  _ ← set_realm org (gr_realm_id new_role)
        (mkRealm (r_status realm) (r_checkpoint realm) (r_granted_roles realm ++ [new_role]));
  _ ← send_backend_event (REALM_ROLES_UPDATED org (gr_granted_by new_role)
        (gr_realm_id new_role) (gr_user_id new_role) (gr_role new_role));
  match recipient_message with
  | Some m => send_message org (gr_granted_by new_role) (gr_user_id new_role)
                (gr_granted_on new_role) m
  | None => mret tt
  end.

(** The loop of [start_reencryption_maintenance] over the users that have a
    role. *)
Fixpoint collect_not_revoked (org : OrganizationID) (now : DateTime) (users : list UserID)
    : backendM (gset UserID) :=
  match users with
  | [] => mret ∅
  | u :: users =>
      user ← get_user org u;
      rest ← collect_not_revoked org now users;
      mret (if match u_revoked_on user with
               | None => true
               | Some revoked_on => now <? revoked_on
               end
            then {[ u ]} ∪ rest else rest)
  end.

(** [start_reencryption_maintenance]; [per_participant_message] keeps the order
    of the request. *)
Definition start_reencryption_maintenance (org : OrganizationID) (author : DeviceID)
    (realm_id : UUID) (encryption_revision : Z) (per_participant_message : odict UserID bytes)
    (timestamp now : DateTime) : backendM unit :=
  realm ← get_realm org realm_id;
  _ ← raise_if (bool_decide (role_of realm (user_id author) ≠ Some OWNER)) RealmAccessError;
  _ ← raise_if (in_maintenance (r_status realm)) RealmInMaintenanceError;
  _ ← raise_if (bool_decide (encryption_revision ≠ rs_encryption_revision (r_status realm) + 1))
        RealmEncryptionRevisionError;
  not_revoked_roles ← collect_not_revoked org now (elements (dom (realm_roles realm)));
  _ ← raise_if (bool_decide (list_to_set (od_keys per_participant_message) ≠ not_revoked_roles))
        RealmParticipantsMismatchError;
  _ ← set_realm org realm_id (r_with_status realm
        (mkRealmStatus (Some REENCRYPTION) (Some timestamp) (Some author) encryption_revision));
  _ ← maintenance_reencryption_start_hook org realm_id;
  _ ← send_backend_event (REALM_MAINTENANCE_STARTED org author realm_id encryption_revision);
  for_each (λ '(recipient, msg), send_message org author recipient timestamp msg)
    per_participant_message.

(** [finish_reencryption_maintenance] *)
Definition finish_reencryption_maintenance (org : OrganizationID) (author : DeviceID)
    (realm_id : UUID) (encryption_revision : Z) : backendM unit :=
  realm ← get_realm org realm_id;
  _ ← raise_if (bool_decide (role_of realm (user_id author) ≠ Some OWNER)) RealmAccessError;
  _ ← raise_if (negb (in_maintenance (r_status realm))) RealmNotInMaintenanceError;
  _ ← raise_if (bool_decide (encryption_revision ≠ rs_encryption_revision (r_status realm)))
        RealmEncryptionRevisionError;
  finished ← maintenance_reencryption_is_finished_hook org realm_id;
  _ ← raise_if (negb finished) RealmMaintenanceError;
  _ ← set_realm org realm_id (r_with_status realm (mkRealmStatus None None None encryption_revision));
  send_backend_event (REALM_MAINTENANCE_FINISHED org author realm_id encryption_revision).

(** [get_realms_for_user] *)
Definition get_realms_for_user (org : OrganizationID) (user : UserID)
    : backendM (gmap UUID RealmRole) :=
  realms ← gets be_realms;
  mret (list_to_map (omap (λ '((realm_org_id, realm_id), realm),
          if bool_decide (realm_org_id ≠ org) then None
          else role ← role_of realm user; Some (realm_id, role)) (map_to_list realms))).

(** ** The API: [BaseRealmComponent] *)

Section api.
Context `{CertifApi}.

(** The [RealmGrantedRole] that the handlers make of a certificate. *)
Definition granted_role_of (certificate : bytes) (data : RealmRoleCertificateContent)
    : RealmGrantedRole :=
  mkRealmGrantedRole certificate (rr_realm_id data) (rr_user_id data) (rr_role data)
    (rr_author data) (rr_timestamp data).

(** [api_realm_create] *)
Definition api_realm_create (now : DateTime) (client_ctx : ClientCtx) (role_certificate : bytes)
    : backendM (reply unit) :=
  if bool_decide (cc_profile client_ctx = OUTSIDER) then mret (RepError "not_allowed") else
  match verify_realm_role_certificate role_certificate (cc_verify_key client_ctx)
          (cc_device_id client_ctx) with
  | Err _ => mret (RepError "invalid_certification")
  | Ok data =>
      if negb (timestamps_in_the_ballpark (rr_timestamp data) now)
      then mret (RepError "invalid_certification") else
      let granted_role := granted_role_of role_certificate data in
      if bool_decide (user_id (gr_granted_by granted_role) ≠ gr_user_id granted_role)
      then mret (RepError "invalid_data") else
      if bool_decide (gr_role granted_role ≠ Some OWNER)
      then mret (RepError "invalid_data") else
      reply_of (realm_create (cc_organization_id client_ctx) granted_role)
        (λ e, match e with
              | RealmNotFoundError => Some "not_found"%string
              | RealmAlreadyExistsError => Some "already_exists"%string
              | _ => None
              end) id
  end.

(** The exceptions that the three query handlers catch. *)
Definition realm_query_status (e : BackendExn) : option string :=
  match e with
  | RealmAccessError => Some "not_allowed"%string
  | RealmNotFoundError => Some "not_found"%string
  | _ => None
  end.

(** [api_realm_status]: the reply has the fields of the status and
    [in_maintenance]. *)
Definition api_realm_status (client_ctx : ClientCtx) (realm_id : UUID)
    : backendM (reply (bool * RealmStatus)) :=
  reply_of (realm_get_status (cc_organization_id client_ctx) (cc_device_id client_ctx) realm_id)
    realm_query_status (λ status, (in_maintenance status, status)).

(** [api_realm_stats] *)
Definition api_realm_stats (client_ctx : ClientCtx) (realm_id : UUID)
    : backendM (reply RealmStats) :=
  reply_of (realm_get_stats (cc_organization_id client_ctx) (cc_device_id client_ctx) realm_id)
    realm_query_status id.

(** [api_realm_get_role_certificates] *)
Definition api_realm_get_role_certificates (client_ctx : ClientCtx) (realm_id : UUID)
    (since : option DateTime) : backendM (reply (list bytes)) :=
  reply_of (get_role_certificates (cc_organization_id client_ctx) (cc_device_id client_ctx)
              realm_id since) realm_query_status id.

(** [api_realm_update_roles] *)
Definition api_realm_update_roles (now : DateTime) (client_ctx : ClientCtx)
    (role_certificate : bytes) (recipient_message : option bytes) : backendM (reply unit) :=
  match verify_realm_role_certificate role_certificate (cc_verify_key client_ctx)
          (cc_device_id client_ctx) with
  | Err _ => mret (RepError "invalid_certification")
  | Ok data =>
      if negb (timestamps_in_the_ballpark (rr_timestamp data) now)
      then mret (RepError "invalid_certification") else
      let granted_role := granted_role_of role_certificate data in
      if bool_decide (user_id (gr_granted_by granted_role) = gr_user_id granted_role)
      then mret (RepError "invalid_data") else
      reply_of (update_roles (cc_organization_id client_ctx) granted_role recipient_message)
        (λ e, match e with
              | RealmRoleAlreadyGranted => Some "already_granted"%string
              | RealmAccessError => Some "not_allowed"%string
              | RealmIncompatibleProfileError => Some "incompatible_profile"%string
              | RealmNotFoundError => Some "not_found"%string
              | RealmInMaintenanceError => Some "in_maintenance"%string
              | _ => None
              end) id
  end.

(** [api_realm_start_reencryption_maintenance]: [now] is the time of the
    handler, [now'] the time at which the participants are compared. *)
Definition api_realm_start_reencryption_maintenance (now now' : DateTime)
    (client_ctx : ClientCtx) (realm_id : UUID) (encryption_revision : Z)
    (timestamp : DateTime) (per_participant_message : odict UserID bytes)
    : backendM (reply unit) :=
  if negb (timestamps_in_the_ballpark timestamp now) then mret (RepError "bad_timestamp") else
  reply_of (start_reencryption_maintenance (cc_organization_id client_ctx)
              (cc_device_id client_ctx) realm_id encryption_revision per_participant_message
              timestamp now')
    (λ e, match e with
          | RealmAccessError => Some "not_allowed"%string
          | RealmNotFoundError => Some "not_found"%string
          | RealmEncryptionRevisionError => Some "bad_encryption_revision"%string
          | RealmParticipantsMismatchError => Some "participants_mismatch"%string
          | RealmMaintenanceError => Some "maintenance_error"%string
          | RealmInMaintenanceError => Some "in_maintenance"%string
          | _ => None
          end) id.

(** [api_realm_finish_reencryption_maintenance] *)
Definition api_realm_finish_reencryption_maintenance (client_ctx : ClientCtx) (realm_id : UUID)
    (encryption_revision : Z) : backendM (reply unit) :=
  reply_of (finish_reencryption_maintenance (cc_organization_id client_ctx)
              (cc_device_id client_ctx) realm_id encryption_revision)
    (λ e, match e with
          | RealmAccessError => Some "not_allowed"%string
          | RealmNotFoundError => Some "not_found"%string
          | RealmEncryptionRevisionError => Some "bad_encryption_revision"%string
          | RealmNotInMaintenanceError => Some "not_in_maintenance"%string
          | RealmMaintenanceError => Some "maintenance_error"%string
          | _ => None
          end) id.
End api.

(** * Lemmas

    The lemmas on the realms of the server: the roles, what each operation does
    to the state, and the invariant of the roles. *)

(** ** Roles *)

(** The role of one user after the records of a list. *)
Definition user_role (u : UserID) (o : option RealmRole) (x : RealmGrantedRole)
    : option RealmRole :=
  if decide (gr_user_id x = u) then gr_role x else o.

Lemma user_role_same x o : user_role (gr_user_id x) o x = gr_role x.
Proof. unfold user_role. by rewrite decide_True. Qed.
Lemma user_role_other u x o : gr_user_id x ≠ u → user_role u o x = o.
Proof. intros. unfold user_role. by rewrite decide_False. Qed.

Lemma apply_role_lookup roles x u :
  apply_role roles x !! u = user_role u (roles !! u) x.
Proof.
  unfold apply_role, user_role. destruct (gr_role x) as [role|]; case_decide as E; subst.
  - by rewrite lookup_insert_eq.
  - by rewrite lookup_insert_ne.
  - by rewrite lookup_delete_eq.
  - by rewrite lookup_delete_ne.
Qed.
Lemma foldl_apply_role l roles u :
  foldl apply_role roles l !! u = foldl (user_role u) (roles !! u) l.
Proof.
  revert roles. induction l as [|x l IH]; intros roles; cbn; [done|].
  by rewrite IH, apply_role_lookup.
Qed.
Lemma role_of_eq r u :
  role_of r u = foldl (user_role u) None (py_sorted granted_leb (r_granted_roles r)).
Proof. unfold role_of, realm_roles. by rewrite foldl_apply_role, lookup_empty. Qed.

(** Adding a record. *)
Definition r_grant (r : Realm) (x : RealmGrantedRole) : Realm :=
  mkRealm (r_status r) (r_checkpoint r) (r_granted_roles r ++ [x]).

(** A record changes the role of its user only, wherever its date puts it. *)
Lemma role_of_grant_other r x u : gr_user_id x ≠ u → role_of (r_grant r x) u = role_of r u.
Proof.
  intros Hne. rewrite !role_of_eq. cbn [r_grant r_granted_roles]. rewrite py_sorted_snoc.
  destruct (sorted_insert_split granted_leb x (py_sorted granted_leb (r_granted_roles r)))
    as (l1 & l2 & -> & ->).
  rewrite !foldl_app. cbn. f_equal. unfold user_role. by rewrite decide_False.
Qed.

(** The last record of a user gives its role. *)
Lemma role_of_grant r x :
  (∀ y, y ∈ r_granted_roles r → gr_user_id y = gr_user_id x → gr_granted_on y <= gr_granted_on x) →
  role_of (r_grant r x) (gr_user_id x) = gr_role x.
Proof.
  intros Hlast. rewrite role_of_eq. cbn [r_grant r_granted_roles]. rewrite py_sorted_snoc.
  set (l := py_sorted granted_leb (r_granted_roles r)).
  assert (∀ y, y ∈ l → gr_user_id y = gr_user_id x → granted_leb y x = true) as Hl.
  { intros y Hy He. apply Z.leb_le, Hlast; [|done]. by apply elem_of_py_sorted in Hy. }
  assert (∀ o, foldl (user_role (gr_user_id x)) o (sorted_insert granted_leb x l) = gr_role x) as H;
    [|apply H].
  assert (StronglySorted (λ x y, granted_leb x y = true) l) as Hs.
  { apply py_sorted_sorted; unfold granted_leb; intros; lia. }
  induction Hs as [|y l' Hs IH Hy]; intros o; cbn.
  { unfold user_role. by rewrite decide_True. }
  destruct (granted_leb y x) eqn:E; cbn.
  - apply IH. intros z Hz. apply Hl. by right.
  - rewrite (user_role_same x).
    assert (∀ z, z ∈ y :: l' → gr_user_id z ≠ gr_user_id x) as Hno.
    { intros z Hz He. pose proof (Hl z Hz He) as Hzx.
      apply elem_of_cons in Hz as [->|Hz]; [congruence|].
      pose proof (proj1 (Forall_forall _ _) Hy z Hz) as Hyz. cbn in Hyz.
      unfold granted_leb in *. lia. }
    clear -Hno. generalize (gr_role x).
    change (∀ o, foldl (user_role (gr_user_id x)) o (y :: l') = o).
    induction (y :: l') as [|z l IH]; intros o; [done|]. cbn.
    rewrite user_role_other by (apply Hno; by left).
    apply IH. intros w Hw. apply Hno. by right.
Qed.

(** A role was granted by a record. *)
Lemma role_of_granted r u role :
  role_of r u = Some role → ∃ x, x ∈ r_granted_roles r ∧ gr_user_id x = u ∧ gr_role x = Some role.
Proof.
  rewrite role_of_eq. setoid_rewrite <-(elem_of_py_sorted granted_leb).
  induction (py_sorted granted_leb (r_granted_roles r)) as [|x l IH] using rev_ind; [done|].
  rewrite foldl_snoc. unfold user_role at 1. case_decide as E.
  - intros Hx. exists x. set_solver.
  - intros (y & ? & ?)%IH. exists y. set_solver.
Qed.

Lemma has_role_spec r u : has_role r u = true ↔ ∃ role, role_of r u = Some role.
Proof. unfold has_role. rewrite bool_decide_eq_true. split; intros [role ?]; eauto. Qed.

(** ** What the operations do to the state *)

Lemma realm_create_inv org x s s' r :
  realm_create org x s = (s', r) →
  (s' = s ∧ ∃ e, r = Err e) ∨
  (r = Ok tt ∧ user_id (gr_granted_by x) = gr_user_id x ∧ gr_role x = Some OWNER ∧
   be_realms s !! (org, gr_realm_id x) = None ∧
   s' = add_event (REALM_ROLES_UPDATED org (gr_granted_by x) (gr_realm_id x) (gr_user_id x)
                     (gr_role x))
          (set_realms <[(org, gr_realm_id x) := new_realm [x]]> s)).
Proof.
  intros H. unfold realm_create, set_realm in H.
  minv H; [|minv_all; left; eauto]. minv_all; [|by left; eauto].
  destruct (be_realms s !! _) eqn:E; minv_all; [by left; eauto|]. right.
  apply negb_false_iff, bool_decide_eq_true in Hc, Hc0. done.
Qed.

(** The messages and the events of a state do not matter to the rest. *)
Definition same_but_messages (s s' : Backend) : Prop :=
  s' = mkBackend (be_orgstores s) (be_messages s') (be_realms s) (be_vlobs s) (be_changes s)
         (be_blockmetas s) (be_blocks s) (be_organizations s) (be_events s').
Lemma same_but_messages_refl s : same_but_messages s s.
Proof. by destruct s. Qed.
Lemma same_but_messages_trans s1 s2 s3 :
  same_but_messages s1 s2 → same_but_messages s2 s3 → same_but_messages s1 s3.
Proof. unfold same_but_messages. intros ->. done. Qed.
Lemma send_message_same org sender u ts body s s' r :
  send_message org sender u ts body s = (s', r) → r = Ok tt ∧ same_but_messages s s'.
Proof. intros [= <- <-]. done. Qed.
Lemma send_messages_same org author ts (l : list (UserID * bytes)) s s' r :
  for_each (λ '(recipient, msg), send_message org author recipient ts msg) l s = (s', r) →
  r = Ok tt ∧ same_but_messages s s'.
Proof.
  revert s. induction l as [|[u m] l IH]; cbn; intros s H.
  - injection H as <- <-. split; [done|apply same_but_messages_refl].
  - apply bind_inv in H as [([] & s1 & [_ H1]%send_message_same & H)|(e & [? _]%send_message_same & _)];
      [|done].
    apply IH in H as [-> H]. split; [done|]. by eapply same_but_messages_trans.
Qed.

(** The right of the author to give the role. *)
Definition may_grant (r : Realm) (author : UserID) (x : RealmGrantedRole) : Prop :=
  ∃ role, role_of r author = Some role ∧
    role ∈ needed_roles (role_of r (gr_user_id x)) (gr_role x).

Lemma update_roles_inv org x message s s' r :
  user_id (gr_granted_by x) ≠ gr_user_id x →
  update_roles org x message s = (s', r) →
  (s' = s ∧ ∃ e, r = Err e ∧ e ∈ [RealmNotFoundError; RealmIncompatibleProfileError;
     RealmInMaintenanceError; RealmAccessError; RealmRoleAlreadyGranted]) ∨
  (r = Ok tt ∧ ∃ user realm,
   os_users (orgstore s org) !! gr_user_id x = Some user ∧
   (u_profile user = OUTSIDER → gr_role x ≠ Some MANAGER ∧ gr_role x ≠ Some OWNER) ∧
   be_realms s !! (org, gr_realm_id x) = Some realm ∧
   in_maintenance (r_status realm) = false ∧
   may_grant realm (user_id (gr_granted_by x)) x ∧
   role_of realm (gr_user_id x) ≠ gr_role x ∧
   same_but_messages (set_realms <[(org, gr_realm_id x) := r_grant realm x]> s) s').
Proof.
  intros Hne H. unfold update_roles, set_realm in H.
  minv H; [|minv_all]. 2: { apply negb_true_iff, bool_decide_eq_false in Hc. done. }
  clear Hc. minv H.
  2: { apply try_catch_inv in Hrun as [(? & ? & [=])|(e & s1 & Hg & Hrun)].
       apply get_user_inv in Hg as [-> Hg]. minv_all. left. split; [done|].
       destruct (os_users _ !! _); [done|]. simplify_eq. eexists. split; [done|].
       unfold convert_exn. rewrite bool_decide_true by done. set_solver. }
  apply try_catch_inv in Hrun as [(user & Hg & [= <-])|(e & s1 & _ & Hrun)]; [|by minv_base Hrun].
  apply get_user_inv in Hg as [-> Hg].
  destruct (os_users _ !! gr_user_id x) as [user|] eqn:Hu; [|done]. injection Hg as ->.
  minv H; [|left; split; [done|]; eexists; split; [done|set_solver]].
  minv H.
  2: { apply get_realm_inv in Hrun as [-> Hr]. left. split; [done|]. eexists; split; [done|].
       destruct (be_realms s !! _); [done|]. simplify_eq. set_solver. }
  apply get_realm_inv in Hrun as [-> Hr].
  destruct (be_realms s !! _) as [realm|] eqn:Hrealm; [|done]. injection Hr as ->.
  minv H; [|left; split; [done|]; eexists; split; [done|set_solver]].
  minv H; [|left; split; [done|]; eexists; split; [done|set_solver]].
  minv H; [|left; split; [done|]; eexists; split; [done|set_solver]].
  minv H. minv H. right.
  assert (r = Ok tt ∧ same_but_messages (set_realms <[(org, gr_realm_id x) := r_grant realm x]> s) s')
    as [-> Hsame].
  { destruct message as [m|]; [|minv_all; done]. by apply send_message_same in H as [-> ->]. }
  split; [done|]. exists user, realm.
  apply negb_false_iff, role_in_spec in Hc1. apply bool_decide_eq_false in Hc2.
  split_and!; try done.
  intros Hp. rewrite bool_decide_true in Hc by done. cbn in Hc.
  split; intros E; rewrite E in Hc; cbn in Hc; by rewrite bool_decide_true in Hc by set_solver.
Qed.

(** The users that the maintenance counts on: those that are not revoked. *)
Definition active (now : DateTime) (user : User) : bool :=
  match u_revoked_on user with None => true | Some t => now <? t end.
Lemma collect_not_revoked_inv org now users s :
  (∀ u, u ∈ users → is_Some (os_users (orgstore s org) !! u)) →
  ∃ X, collect_not_revoked org now users s = (s, Ok X) ∧
    ∀ u, u ∈ X ↔ u ∈ users ∧
      ∃ user, os_users (orgstore s org) !! u = Some user ∧ active now user = true.
Proof.
  induction users as [|u users IH]; intros Hu; cbn.
  { exists ∅. split; [done|]. set_solver. }
  destruct (Hu u) as [user Huser]; [by left|].
  destruct IH as (X & HX & Hin); [intros; apply Hu; by right|].
  rewrite (bind_Ok _ _ s s user).
  2: { unfold get_user. rewrite (bind_Ok _ _ s s (orgstore s org)) by done. cbv beta.
       unfold of_option. by rewrite Huser. }
  cbv beta. rewrite (bind_Ok _ _ s s X) by done. cbv beta. eexists. split; [done|].
  intros u'. change (match u_revoked_on user with None => true | Some t => now <? t end)
    with (active now user).
  destruct (active now user) eqn:Ha.
  - rewrite elem_of_union, elem_of_singleton, Hin, elem_of_cons. naive_solver.
  - rewrite Hin, elem_of_cons. naive_solver congruence.
Qed.

(** What a user that has a role is. *)
Record roles_ok (s : Backend) : Prop := {
  rk_owned org realm_id r : be_realms s !! (org, realm_id) = Some r →
    ∃ u, role_of r u = Some OWNER;
  rk_users org realm_id r x : be_realms s !! (org, realm_id) = Some r → x ∈ r_granted_roles r →
    ∃ user, os_users (orgstore s org) !! gr_user_id x = Some user ∧
      (u_profile user = OUTSIDER → gr_role x ≠ Some MANAGER ∧ gr_role x ≠ Some OWNER) }.

Lemma rk_role s org realm_id r u role :
  roles_ok s → be_realms s !! (org, realm_id) = Some r → role_of r u = Some role →
  ∃ user, os_users (orgstore s org) !! u = Some user ∧
    (u_profile user = OUTSIDER → role ≠ MANAGER ∧ role ≠ OWNER).
Proof.
  intros Hs Hr (x & Hx & <- & Hrole)%role_of_granted.
  destruct (rk_users _ Hs _ _ _ _ Hr Hx) as (user & ? & H). exists user. split; [done|].
  intros [??]%H. rewrite Hrole in *. naive_solver congruence.
Qed.

(** The state after the start of a maintenance. *)
Definition maintenance_started (org : OrganizationID) (author : DeviceID) (realm_id : UUID)
    (rev : Z) (ts : DateTime) (realm : Realm) (s : Backend) : Backend :=
  set_changes <[(org, realm_id) := ch_with_reencryption (changes_of s org realm_id)
      (Some (new_reencryption realm_id (realm_vlobs s org realm_id)))]>
    (set_realms <[(org, realm_id) := r_with_status realm
      (mkRealmStatus (Some REENCRYPTION) (Some ts) (Some author) rev)]> s).

(** The participants of a realm: the users that have a role and are not
    revoked. *)
Definition participant (s : Backend) (org : OrganizationID) (now : DateTime) (r : Realm)
    (u : UserID) : Prop :=
  is_Some (role_of r u) ∧ ∃ user, os_users (orgstore s org) !! u = Some user ∧ active now user = true.

Lemma start_inv org author realm_id rev msgs ts now s s' r :
  vlobs_ok s → roles_ok s →
  start_reencryption_maintenance org author realm_id rev msgs ts now s = (s', r) →
  (s' = s ∧ ∃ e, r = Err e ∧ e ∈ [RealmNotFoundError; RealmAccessError; RealmInMaintenanceError;
     RealmEncryptionRevisionError; RealmParticipantsMismatchError]) ∨
  (r = Ok tt ∧ ∃ realm, be_realms s !! (org, realm_id) = Some realm ∧
   role_of realm (user_id author) = Some OWNER ∧ in_maintenance (r_status realm) = false ∧
   rev = rs_encryption_revision (r_status realm) + 1 ∧
   (∀ u, u ∈ od_keys msgs ↔ participant s org now realm u) ∧
   vlobs_ok s' ∧
   same_but_messages (maintenance_started org author realm_id rev ts realm s) s').
Proof.
  intros Hv Hs H. unfold start_reencryption_maintenance, set_realm in H.
  minv H.
  2: { apply get_realm_inv in Hrun as [-> Hr]. left. split; [done|]. eexists; split; [done|].
       destruct (be_realms s !! _); [done|]. simplify_eq. set_solver. }
  apply get_realm_inv in Hrun as [-> Hr].
  destruct (be_realms s !! _) as [realm|] eqn:Hrealm; [|done]. injection Hr as ->.
  minv H; [|left; split; [done|]; eexists; split; [done|set_solver]].
  minv H; [|left; split; [done|]; eexists; split; [done|set_solver]].
  minv H; [|left; split; [done|]; eexists; split; [done|set_solver]].
  destruct (collect_not_revoked_inv org now (elements (dom (realm_roles realm))) s) as (X & HX & Hin).
  { intros u [role Hrole]%elem_of_elements%elem_of_dom.
    destruct (rk_role _ _ _ _ _ _ Hs Hrealm Hrole) as (user & ? & _). eauto. }
  rewrite (bind_Ok _ _ s s X) in H by done. cbv beta in H. clear HX.
  minv H; [|left; split; [done|]; eexists; split; [done|set_solver]].
  apply bool_decide_eq_false, dec_stable in Hc, Hc1, Hc2.
  destruct (start_hook_ok s org realm_id realm
    (mkRealmStatus (Some REENCRYPTION) (Some ts) (Some author) rev)) as (s2 & Hhook & Hv2 & Heq);
    [done..|].
  rewrite (bind_Ok _ _ s _ tt) in H by done. cbv beta in H.
  unfold r_with_status in H. rewrite (bind_Ok _ _ _ s2 tt) in H by done. cbv beta in H.
  minv H. apply send_messages_same in H as [-> H]. right. split; [done|].
  set (rev := rs_encryption_revision (r_status realm) + 1) in *.
  assert (same_but_messages (maintenance_started org author realm_id rev ts realm s) s') as Hsame
    by exact H.
  exists realm. split_and!; try done.
  - intros u. rewrite <-(elem_of_list_to_set (C := gset UserID)), Hin, elem_of_elements, elem_of_dom. done.
  - rewrite Hsame. by eapply vlobs_ok_frame, Hv2.
Qed.

Lemma finish_inv org author realm_id rev s s' r :
  vlobs_ok s →
  finish_reencryption_maintenance org author realm_id rev s = (s', r) →
  (s' = s ∧ ∃ e, r = Err e ∧ e ∈ [RealmNotFoundError; RealmAccessError; RealmNotInMaintenanceError;
     RealmEncryptionRevisionError; RealmMaintenanceError]) ∨
  (r = Ok tt ∧ ∃ realm re, be_realms s !! (org, realm_id) = Some realm ∧
   role_of realm (user_id author) = Some OWNER ∧ in_maintenance (r_status realm) = true ∧
   rev = rs_encryption_revision (r_status realm) ∧
   ch_reencryption (changes_of s org realm_id) = Some re ∧ re_todo re = [] ∧
   NoDup (od_keys (be_vlobs s')) ∧
   s' = add_event (REALM_MAINTENANCE_FINISHED org author realm_id rev)
          (set_realms <[(org, realm_id) := r_with_status realm (mkRealmStatus None None None rev)]>
          (set_changes <[(org, realm_id) :=
             ch_with_reencryption (changes_of s org realm_id) None]>
             (set_be_vlobs (λ _, be_vlobs s') s))) ∧
   ∀ org' id, vlob_at s' org' id =
     v ← vlob_at s org' id;
     Some (if decide ((org', v_realm_id v) = (org, realm_id))
           then reencrypted (re_done re) id v else v)).
Proof.
  intros Hv H. unfold finish_reencryption_maintenance, set_realm in H.
  minv H.
  2: { apply get_realm_inv in Hrun as [-> Hr]. left. split; [done|]. eexists; split; [done|].
       destruct (be_realms s !! _); [done|]. simplify_eq. set_solver. }
  apply get_realm_inv in Hrun as [-> Hr].
  destruct (be_realms s !! _) as [realm|] eqn:Hrealm; [|done]. injection Hr as ->.
  minv H; [|left; split; [done|]; eexists; split; [done|set_solver]].
  minv H; [|left; split; [done|]; eexists; split; [done|set_solver]].
  minv H; [|left; split; [done|]; eexists; split; [done|set_solver]].
  apply bool_decide_eq_false, dec_stable in Hc, Hc1. apply negb_false_iff in Hc0.
  destruct (maintenance_reencryption_is_finished_hook org realm_id s) as [s1 r1] eqn:Hhook.
  destruct (finish_hook_ok s org realm_id s1 r1) as
    (re & Hre & _ & [(-> & -> & Hne)|(-> & Htodo & Hnd & Heq & Hat)]); [done|by eauto| |done| |].
  { intros realm' Hr'. congruence. }
  - rewrite (bind_Ok _ _ s s false) in H by done. cbv beta in H. cbn in H.
    left. minv H. split; [done|]. eexists; split; [done|set_solver].
  - rewrite (bind_Ok _ _ s s1 true) in H by done. cbv beta in H. cbn in H.
    right. minv_all. split; [done|]. exists realm, re. split_and!; try done.
    cbn. rewrite Heq at 1. done.
Qed.

Lemma finish_vlobs_ok org author realm_id rev s s' r :
  vlobs_ok s → finish_reencryption_maintenance org author realm_id rev s = (s', r) → vlobs_ok s'.
Proof.
  intros Hs H. apply finish_inv in H as [[-> _]|(_ & realm & re & Hr & _ & _ & _ & _ & _ & Hnd & Heq & Hat)];
    [done| |done].
  eapply (maintenance_step_ok s s' org realm_id None); [done|done| | | | | |].
  - intros org' id v'. rewrite Hat. destruct (vlob_at s org' id) as [v|]; [|done]. cbn.
    intros [= <-]. exists v. split; [done|]. case_decide; [split; [apply reencrypted_similar|done]|done].
  - intros org' id v Hv. rewrite Hat, Hv. cbn. eauto.
  - by rewrite Heq.
  - intros k Hk. rewrite Heq. cbn. by rewrite lookup_insert_ne.
  - rewrite Heq. cbn. rewrite lookup_insert_eq. eauto.
  - intros r'. rewrite Heq. cbn. rewrite lookup_insert_eq. by intros [= <-].
Qed.
