(* ===== verification/BlockStore.v ===== *)
(** The block stores of the server: the memory store of
    [backendService/memory/block.py], the interface of
    [backendService/blockstore.py] and the stores that are made of other stores:
    [backendService/raid0_blockstore.py], [raid1_blockstore.py] and
    [raid5_blockstore.py]. *)

From S2P Require Import Prelude Types Backend.

(** ** The interface: [BaseBlockStoreComponent] *)

(** What [read] and [create] return, or the exceptions that the interface
    documents. *)
Inductive ReadResult := ReadBlock (block : bytes) | ReadNotFound | ReadTimeout.
Inductive CreateResult := Created | CreateAlreadyExists | CreateTimeout.
#[export] Instance ReadResult_eq_dec : EqDecision ReadResult.
Proof. solve_decision. Defined.
#[export] Instance CreateResult_eq_dec : EqDecision CreateResult.
Proof. solve_decision. Defined.

Class BlockStore (S : Type) := {
  bs_read : S → OrganizationID → UUID → ReadResult;
  bs_create : S → OrganizationID → UUID → bytes → S * CreateResult }.

(** What a store promises: a block that was created is read back, or the store
    does not answer; a block that exists is not replaced. *)
Class BlockStoreLaws (S : Type) `{BlockStore S} := {
  bs_create_read s s' org id b :
    bs_create s org id b = (s', Created) →
    bs_read s' org id = ReadBlock b ∨ bs_read s' org id = ReadTimeout;
  bs_create_fails s s' org id b r :
    bs_create s org id b = (s', r) → r ≠ Created → s' = s;
  bs_create_other s s' org id b r org' id' :
    bs_create s org id b = (s', r) → (org', id') ≠ (org, id) →
    bs_read s' org' id' = bs_read s org' id' }.

(** The exceptions of the results. *)
Definition read_reply (r : ReadResult) : result BackendExn bytes :=
  match r with
  | ReadBlock b => Ok b
  | ReadNotFound => Err BlockNotFoundError
  | ReadTimeout => Err BlockTimeoutError
  end.
Definition create_reply (r : CreateResult) : result BackendExn unit :=
  match r with
  | Created => Ok tt
  | CreateAlreadyExists => Err BlockAlreadyExistsError
  | CreateTimeout => Err BlockTimeoutError
  end.

(** ** [MemoryBlockStoreComponent] *)

Abbreviation MemoryBlockStore := (gmap (OrganizationID * UUID) bytes) (only parsing).

Definition memory_read (s : MemoryBlockStore) (org : OrganizationID) (id : UUID) : ReadResult :=
  match s !! (org, id) with Some b => ReadBlock b | None => ReadNotFound end.
Definition memory_create (s : MemoryBlockStore) (org : OrganizationID) (id : UUID) (block : bytes)
    : MemoryBlockStore * CreateResult :=
  match s !! (org, id) with
  | Some _ => (s, CreateAlreadyExists)
  | None => (<[(org, id) := block]> s, Created)
  end.
#[export] Instance MemoryBlockStore_ops : BlockStore MemoryBlockStore :=
  {| bs_read := memory_read; bs_create := memory_create |}.
#[export] Instance MemoryBlockStore_laws : BlockStoreLaws MemoryBlockStore.
Proof.
  split; unfold bs_create, bs_read; cbn; unfold memory_create, memory_read; intros *.
  - destruct (s !! _) eqn:E; intros [= <-]. rewrite lookup_insert_eq. auto.
  - destruct (s !! _) eqn:E; intros [= <- <-]; done.
  - destruct (s !! (org, id)) eqn:E; intros [= <- <-] Hne; [done|].
    by rewrite lookup_insert_ne.
Qed.

(** ** RAID0 *)

Section raid0.
Context {S : Type} `{BlockStore S}.

(** [_get_blockstore]; the modulo by an empty list of stores raises. *)
Definition raid0_index (stores : list S) (id : UUID) : nat :=
  N.to_nat (id mod N.of_nat (length stores))%N.
Definition raid0_read (stores : list S) (org : OrganizationID) (id : UUID)
    : result BackendExn bytes :=
  match stores !! raid0_index stores id with
  | Some s => read_reply (bs_read s org id)
  | None => Err BIndexError
  end.
Definition raid0_create (stores : list S) (org : OrganizationID) (id : UUID) (block : bytes)
    : list S * result BackendExn unit :=
  match stores !! raid0_index stores id with
  | Some s =>
      let '(s', r) := bs_create s org id block in
      (<[raid0_index stores id := s']> stores, create_reply r)
  | None => (stores, Err BIndexError)
  end.
End raid0.

(** ** RAID1 *)

Section raid1.
Context {S : Type} `{BlockStore S}.

(** [read]: [completed] lists the tasks that ran to their end before the
    cancellation, in the order in which they did. The last block read is the
    value, and an empty block is no value. *)
Definition raid1_read (stores : list S) (completed : list nat) (org : OrganizationID) (id : UUID)
    : result BackendExn bytes :=
  let value := foldl (λ value i,
    match stores !! i with
    | Some s => match bs_read s org id with ReadBlock b => Some b | _ => value end
    | None => value
    end) None completed in
  match value with
  | Some ((_ :: _) as b) => Ok b
  | _ => Err BlockNotFoundError
  end.
(** The tasks that complete: all of them, or enough for one of them to get a
    block and cancel the others. *)
Definition raid1_schedule (stores : list S) (completed : list nat) (org : OrganizationID)
    (id : UUID) : Prop :=
  (∀ i, i < length stores → i ∈ completed)%nat ∨
  ∃ i s b, i ∈ completed ∧ stores !! i = Some s ∧ bs_read s org id = ReadBlock b.

(** [create]: the tasks run in the order [order]; a timeout cancels the tasks
    that remain. *)
Fixpoint raid1_create (stores : list S) (order : list nat) (org : OrganizationID) (id : UUID)
    (block : bytes) : list S * result BackendExn unit :=
  match order with
  | [] => (stores, Ok tt)
  | i :: order =>
      match stores !! i with
      | Some s =>
          let '(s', r) := bs_create s org id block in
          let stores := <[i := s']> stores in
          match r with
          | CreateTimeout => (stores, Err BlockTimeoutError)
          | _ => raid1_create stores order org id block
          end
      | None => raid1_create stores order org id block
      end
  end.
End raid1.

(** ** RAID5 *)

(** [int.from_bytes(b, "little")] and [n.to_bytes(len, "little")]; the byte
    order of the machine is the parameter [big]. *)
Fixpoint le_to_Z (b : bytes) : Z :=
  match b with
  | [] => 0
  | x :: b => Z.of_N (Byte.to_N x) + 256 * le_to_Z b
  end.
Definition byte_of_Z (z : Z) : byte := default Byte.x00 (Byte.of_N (Z.to_N (z mod 256))).
Fixpoint Z_to_le (len : nat) (z : Z) : bytes :=
  match len with
  | O => []
  | S len => byte_of_Z z :: Z_to_le len (z / 256)
  end.
Definition from_bytes (big : bool) (b : bytes) : Z := le_to_Z (if big then reverse b else b).
(** [to_bytes]; the [OverflowError] is [None]. *)
Definition to_bytes (big : bool) (len : nat) (z : Z) : option bytes :=
  if (0 <=? z) && (z <? 256 ^ Z.of_nat len)
  then Some (if big then reverse (Z_to_le len z) else Z_to_le len z)
  else None.

(** The loop of [_xor_buffers]. *)
Fixpoint xor_loop (big : bool) (buff_len : nat) (xored : Z) (buffers : list bytes)
    : result BackendExn Z :=
  match buffers with
  | [] => Ok xored
  | buff :: buffers =>
      if bool_decide (length buff = buff_len)
      then xor_loop big buff_len (Z.lxor xored (from_bytes big buff)) buffers
      else Err BAssertionError
  end.
(** [_xor_buffers] *)
Definition xor_buffers (big : bool) (buffers : list bytes) : result BackendExn bytes :=
  match buffers with
  | [] => Err BIndexError
  | b :: rest =>
      xored ← xor_loop big (length b) (from_bytes big b) rest;
      match to_bytes big (length b) xored with
      | Some r => Ok r
      | None => Err BStructError
      end
  end.

(** [struct.pack("!I", n)] and [struct.unpack("!I", b)] *)
Definition pack_uint32 (n : Z) : option bytes := to_bytes true 4 n.
Definition unpack_uint32 (b : bytes) : option Z :=
  if bool_decide (length b = 4%nat) then Some (from_bytes true b) else None.

(** [split_block_in_chunks]; the division by [nb_chunks = 0] is a
    [BStructError], as is a block longer than a uint32. *)
Definition chunk_len_of (payload_size nb_chunks : Z) : Z :=
  let chunk_len := payload_size / nb_chunks in
  if nb_chunks * chunk_len <? payload_size then chunk_len + 1 else chunk_len.
Definition split_block_in_chunks (block : bytes) (nb_chunks : Z)
    : result BackendExn (list bytes) :=
  if nb_chunks =? 0 then Err BStructError else
  let payload_size := Z.of_nat (length block) + 4 in
  let chunk_len := chunk_len_of payload_size nb_chunks in
  let padding_len := chunk_len * nb_chunks - payload_size in
  match pack_uint32 (Z.of_nat (length block)) with
  | None => Err BStructError
  | Some head =>
      let payload := head ++ block ++ zeros padding_len in
      Ok ((λ i, py_slice payload (chunk_len * i) (chunk_len * (i + 1)))
            <$> py_range 0 nb_chunks)
  end.

(** [generate_checksum_chunk] *)
Definition generate_checksum_chunk (big : bool) (chunks : list bytes) : result BackendExn bytes :=
  xor_buffers big chunks.

(** The index of the first missing chunk. *)
Fixpoint missing_chunk_id (chunks : list (option bytes)) : option nat :=
  match chunks with
  | [] => None
  | None :: _ => Some O
  | Some _ :: chunks => S <$> missing_chunk_id chunks
  end.
(** [rebuild_block_from_chunks]; the [join] of a chunk that is still missing
    cannot happen, as one at most is. *)
Definition rebuild_block_from_chunks (big : bool) (chunks : list (option bytes))
    (checksum_chunk : option bytes) : result BackendExn bytes :=
  let valid_chunks := omap id chunks in
  if bool_decide (length chunks - length valid_chunks ≤ 1)%nat then
    chunks ← match missing_chunk_id chunks with
             | None => Ok chunks
             | Some i =>
                 match checksum_chunk with
                 | None => Err BAssertionError
                 | Some c =>
                     x ← xor_buffers big (valid_chunks ++ [c]);
                     Ok (<[i := Some x]> chunks)
                 end
             end;
    let payload := concat (omap id chunks) in
    match unpack_uint32 (py_slice payload 0 4) with
    | None => Err BStructError
    | Some block_len => Ok (py_slice payload 4 (4 + block_len))
    end
  else Err BAssertionError.

Section raid5.
Context {S : Type} `{BlockStore S}.

Definition is_timeout (r : ReadResult) : bool :=
  match r with ReadTimeout => true | _ => false end.
Definition is_exception (r : ReadResult) : bool :=
  match r with ReadBlock _ => false | _ => true end.
Definition block_of (r : ReadResult) : option bytes :=
  match r with ReadBlock b => Some b | _ => None end.

(** [read] from the results of the tasks: the data stores are read, and the
    store of the checksum after a first timeout. Two timeouts, the one of the
    checksum among them, cancel the tasks. *)
Definition raid5_read_results (big : bool) (data : list ReadResult) (checksum : ReadResult)
    : result BackendExn bytes :=
  let data_timeouts := length (filter is_timeout data) in
  let timeout_count :=
    (data_timeouts + (if bool_decide (data_timeouts ≠ 0) && is_timeout checksum
                      then 1 else 0))%nat in
  match timeout_count with
  | O =>
      if bool_decide (filter is_exception data = [])
      then rebuild_block_from_chunks big (block_of <$> data) None
      else Err BAssertionError
  | 1%nat =>
      match checksum with
      | ReadBlock c =>
          if bool_decide (length (filter is_exception data) = 1%nat)
          then rebuild_block_from_chunks big (block_of <$> data) (Some c)
          else Err BAssertionError
      | _ => Err BAssertionError
      end
  | _ => Err BlockTimeoutError
  end.
(** [RAID5BlockStoreComponent.read] *)
Definition raid5_read (big : bool) (stores : list S) (org : OrganizationID) (id : UUID)
    : result BackendExn bytes :=
  match last stores with
  | None => Err BIndexError
  | Some checksum_store =>
      raid5_read_results big
        ((λ s, bs_read s org id) <$> take (length stores - 1) stores)
        (bs_read checksum_store org id)
  end.

(** The uploads of [create]: the tasks run in the order [order], and two
    timeouts cancel those that remain. *)
Fixpoint raid5_upload (stores : list S) (chunks : list bytes) (order : list nat)
    (org : OrganizationID) (id : UUID) (error_count : nat) : list S * nat :=
  match order with
  | [] => (stores, error_count)
  | i :: order =>
      if bool_decide (1 < error_count)%nat then (stores, error_count) else
      match stores !! i, chunks !! i with
      | Some s, Some chunk =>
          let '(s', r) := bs_create s org id chunk in
          raid5_upload (<[i := s']> stores) chunks order org id
            (match r with CreateTimeout => (1 + error_count)%nat | _ => error_count end)
      | _, _ => raid5_upload stores chunks order org id error_count
      end
  end.
(** [RAID5BlockStoreComponent.create] *)
Definition raid5_create (big : bool) (stores : list S) (order : list nat)
    (org : OrganizationID) (id : UUID) (block : bytes) : list S * result BackendExn unit :=
  let nb_chunks := Z.of_nat (length stores) - 1 in
  match (chunks ← split_block_in_chunks block nb_chunks;
         if bool_decide (Z.of_nat (length chunks) = nb_chunks)
         then checksum_chunk ← generate_checksum_chunk big chunks;
              Ok (chunks ++ [checksum_chunk])
         else Err BAssertionError) with
  | Err e => (stores, Err e)
  | Ok chunks =>
      let '(stores, error_count) := raid5_upload stores chunks order org id 0 in
      (stores, if bool_decide (1 < error_count)%nat then Err BlockTimeoutError else Ok tt)
  end.
End raid5.

(** * Lemmas

    The stores that are made of other stores: RAID5 rebuilds a block from all of its
    chunks but one, RAID1 reads what was written. *)

(** ** Bytes as numbers *)

Lemma byte_of_Z_of_byte (x : byte) : byte_of_Z (Z.of_N (Byte.to_N x)) = x.
Proof.
  unfold byte_of_Z. pose proof (Byte.to_N_bounded x).
  rewrite Z.mod_small by lia. rewrite N2Z.id, Byte.of_to_N. done.
Qed.
Lemma Z_of_byte_of_Z z : Z.of_N (Byte.to_N (byte_of_Z z)) = z mod 256.
Proof.
  unfold byte_of_Z. pose proof (Z.mod_pos_bound z 256 ltac:(lia)).
  destruct (Byte.of_N (Z.to_N (z mod 256))) as [x|] eqn:E; cbn.
  - apply Byte.to_of_N in E. rewrite E. lia.
  - apply Byte.of_N_None_iff in E. lia.
Qed.
Lemma le_to_Z_bound b : 0 <= le_to_Z b < 256 ^ Z.of_nat (length b).
Proof.
  induction b as [|x b IH]; cbn [le_to_Z length]; [cbn; lia|].
  pose proof (Byte.to_N_bounded x). rewrite Nat2Z.inj_succ, Z.pow_succ_r by lia. lia.
Qed.
Lemma length_Z_to_le len z : length (Z_to_le len z) = len.
Proof. revert z. induction len as [|len IH]; intros z; cbn; [done|]. by rewrite IH. Qed.
Lemma Z_to_le_to_Z b : Z_to_le (length b) (le_to_Z b) = b.
Proof.
  induction b as [|x b IH]; cbn [le_to_Z length Z_to_le]; [done|].
  pose proof (Byte.to_N_bounded x).
  replace ((Z.of_N (Byte.to_N x) + 256 * le_to_Z b) / 256) with (le_to_Z b).
  2: { rewrite Z.add_comm, Z.mul_comm, Z.div_add_l by lia. rewrite Z.div_small by lia. lia. }
  rewrite IH. f_equal. rewrite <-(byte_of_Z_of_byte x) at 2. unfold byte_of_Z.
  rewrite (Z.add_comm _ (256 * _)), (Z.mul_comm 256), Z.add_comm, Z.mod_add by lia. done.
Qed.
Lemma le_to_Z_to_le len z : 0 <= z < 256 ^ Z.of_nat len → le_to_Z (Z_to_le len z) = z.
Proof.
  revert z. induction len as [|len IH]; intros z Hz; cbn [Z_to_le le_to_Z]; [cbn in Hz; lia|].
  rewrite Nat2Z.inj_succ, Z.pow_succ_r in Hz by lia.
  rewrite Z_of_byte_of_Z, IH.
  - pose proof (Z.div_mod z 256 ltac:(lia)). lia.
  - split; [apply Z.div_pos; lia|]. apply Z.div_lt_upper_bound; lia.
Qed.

Lemma from_bytes_bound big b : 0 <= from_bytes big b < 256 ^ Z.of_nat (length b).
Proof.
  unfold from_bytes. destruct big; [|apply le_to_Z_bound].
  rewrite <-(length_reverse b). apply le_to_Z_bound.
Qed.
(** Both directions of the conversion. *)
Lemma to_bytes_from_bytes big b : to_bytes big (length b) (from_bytes big b) = Some b.
Proof.
  unfold to_bytes. pose proof (from_bytes_bound big b).
  replace ((0 <=? from_bytes big b) && (from_bytes big b <? 256 ^ Z.of_nat (length b)))
    with true by lia.
  unfold from_bytes. f_equal. destruct big; [|apply Z_to_le_to_Z].
  rewrite <-(length_reverse b), Z_to_le_to_Z. apply reverse_involutive.
Qed.
Lemma to_bytes_Some big len z :
  0 <= z < 256 ^ Z.of_nat len →
  ∃ b, to_bytes big len z = Some b ∧ length b = len ∧ from_bytes big b = z.
Proof.
  intros Hz. unfold to_bytes. replace ((0 <=? z) && (z <? 256 ^ Z.of_nat len)) with true by lia.
  eexists. split; [done|]. unfold from_bytes.
  destruct big; rewrite ?length_reverse, ?reverse_involutive, length_Z_to_le;
    (split; [done|by apply le_to_Z_to_le]).
Qed.

(** ** Parity *)

Lemma lxor_bound k a b : 0 <= k → 0 <= a < 2 ^ k → 0 <= b < 2 ^ k → 0 <= Z.lxor a b < 2 ^ k.
Proof.
  intros Hk Ha Hb. assert (0 <= Z.lxor a b) by (apply Z.lxor_nonneg; lia). split; [done|].
  destruct (decide (Z.lxor a b = 0)) as [->|Hne]; [lia|].
  apply Z.log2_lt_pow2; [lia|]. pose proof (Z.log2_lxor a b ltac:(lia) ltac:(lia)).
  assert (∀ x, 0 <= x < 2 ^ k → 0 < k → Z.log2 x < k) as Hlog.
  { intros x Hx ?. destruct (decide (x = 0)) as [->|]; [done|]. apply Z.log2_lt_pow2; lia. }
  destruct (decide (k = 0)) as [->|].
  - assert (a = 0) as -> by (cbn in Ha; lia). assert (b = 0) as -> by (cbn in Hb; lia). done.
  - pose proof (Hlog a Ha). pose proof (Hlog b Hb). lia.
Qed.
Lemma pow256 n : 256 ^ Z.of_nat n = 2 ^ (8 * Z.of_nat n).
Proof. by rewrite Z.pow_mul_r by lia. Qed.

(** The parity of a list of buffers. *)
Fixpoint parity (big : bool) (buffers : list bytes) : Z :=
  match buffers with
  | [] => 0
  | b :: buffers => Z.lxor (from_bytes big b) (parity big buffers)
  end.

Lemma parity_app big l1 l2 : parity big (l1 ++ l2) = Z.lxor (parity big l1) (parity big l2).
Proof. induction l1 as [|b l1 IH]; cbn; [by rewrite Z.lxor_0_l|]. by rewrite IH, Z.lxor_assoc. Qed.
Lemma parity_bound big n buffers :
  Forall (λ b, length b = n) buffers → 0 <= parity big buffers < 256 ^ Z.of_nat n.
Proof.
  induction 1 as [|b l Hb Hl IH]; cbn; [lia|]. rewrite pow256 in *.
  apply lxor_bound; [lia| |done]. pose proof (from_bytes_bound big b) as Hbound.
  rewrite Hb, pow256 in Hbound. lia.
Qed.
Lemma xor_loop_parity big n x buffers :
  Forall (λ b, length b = n) buffers → xor_loop big n x buffers = Ok (Z.lxor x (parity big buffers)).
Proof.
  intros Hl. revert x. induction Hl as [|b l Hb Hl IH]; intros x; cbn [xor_loop parity].
  - by rewrite Z.lxor_0_r.
  - rewrite bool_decide_true by done. by rewrite IH, Z.lxor_assoc.
Qed.
(** [_xor_buffers] on buffers of one length: the bytes of the parity. *)
Lemma xor_buffers_ok big n buffers :
  buffers ≠ [] → Forall (λ b, length b = n) buffers →
  ∃ b, xor_buffers big buffers = Ok b ∧ length b = n ∧ from_bytes big b = parity big buffers.
Proof.
  intros Hne Hl. pose proof (parity_bound big n buffers Hl) as Hb.
  destruct Hl as [|b l Hlen Hl]; [done|]. unfold xor_buffers. rewrite Hlen.
  rewrite (xor_loop_parity big n _ l Hl). cbn in Hb |- *.
  destruct (to_bytes_Some big n _ Hb) as (r & -> & ? & ?). by exists r.
Qed.

(** The parity of the buffers that are left and of the checksum is the buffer that
    is not there. *)
Lemma xor_missing big n l1 x l2 c :
  Forall (λ b, length b = n) (l1 ++ x :: l2) → length c = n →
  from_bytes big c = parity big (l1 ++ x :: l2) →
  xor_buffers big (l1 ++ l2 ++ [c]) = Ok x.
Proof.
  intros Hl Hc Hp. apply Forall_app in Hl as [H1 H2]. apply Forall_cons in H2 as [Hx H2].
  destruct (xor_buffers_ok big n (l1 ++ l2 ++ [c])) as (r & -> & Hr & Hval).
  - by destruct l1, l2.
  - rewrite !Forall_app. split_and!; [done|done|by apply Forall_singleton].
  - f_equal. assert (from_bytes big r = from_bytes big x) as E.
    { rewrite Hval, !parity_app. cbn [parity]. rewrite Z.lxor_0_r, Hp, parity_app.
      cbn [parity]. generalize (parity big l1), (parity big l2), (from_bytes big x).
      intros a b d. rewrite (Z.lxor_comm b (Z.lxor a _)), !Z.lxor_assoc, <-(Z.lxor_assoc a a).
      by rewrite Z.lxor_nilpotent, Z.lxor_0_l, Z.lxor_nilpotent, Z.lxor_0_r. }
    pose proof (to_bytes_from_bytes big r) as E1. pose proof (to_bytes_from_bytes big x) as E2.
    rewrite E, Hr, <-Hx in E1. congruence.
Qed.

(** ** Chunks *)

Lemma chunk_len_of_enough size n : 0 < n → 0 <= size → size <= n * chunk_len_of size n.
Proof.
  intros Hn Hs. unfold chunk_len_of.
  pose proof (Z.div_mod size n ltac:(lia)). pose proof (Z.mod_pos_bound size n Hn).
  destruct (n * (size / n) <? size) eqn:E; lia.
Qed.
Lemma chunk_len_of_nonneg size n : 0 < n → 0 <= size → 0 <= chunk_len_of size n.
Proof.
  intros Hn Hs. unfold chunk_len_of. pose proof (Z.div_pos size n ltac:(lia) ltac:(lia)).
  destruct (n * (size / n) <? size); lia.
Qed.

(** The slices of a list of [k * n] elements. *)
Definition slices {A} (k : Z) (n : nat) (l : list A) : list (list A) :=
  (λ i, py_slice l (k * i) (k * (i + 1))) <$> py_range 0 (Z.of_nat n).
Lemma slices_spec {A} k n (l : list A) :
  0 <= k → Z.of_nat (length l) = k * Z.of_nat n →
  length (slices k n l) = n ∧ Forall (λ c, length c = Z.to_nat k) (slices k n l) ∧
  concat (slices k n l) = l.
Proof.
  intros Hk Hl. unfold slices.
  assert (∀ i, 0 <= i < Z.of_nat n → length (py_slice l (k * i) (k * (i + 1))) = Z.to_nat k) as Hlen.
  { intros i Hi. rewrite py_slice_nonneg by nia. rewrite length_take, length_drop. nia. }
  split_and!.
  - rewrite length_fmap, length_py_range. lia.
  - rewrite Forall_fmap. apply Forall_forall. intros i Hi%elem_of_py_range. by apply Hlen.
  - assert (∀ m, (m <= n)%nat → concat ((λ i, py_slice l (k * i) (k * (i + 1)))
      <$> py_range 0 (Z.of_nat m)) = take (Z.to_nat k * m) l) as H.
    { induction m as [|m IH]; intros Hm; [by rewrite Nat.mul_0_r|].
      replace (py_range 0 (Z.of_nat (S m))) with (py_range 0 (Z.of_nat m) ++ [Z.of_nat m]).
      2: { unfold py_range. replace (Z.of_nat (S m) - 0) with (Z.of_nat m + 1) by lia.
           rewrite seqZ_app by lia. cbn. by rewrite Z.sub_0_r. }
      rewrite fmap_app, concat_app, IH by lia. cbn. rewrite app_nil_r.
      rewrite py_slice_nonneg by nia.
      replace (Z.to_nat (k * Z.of_nat m)) with (Z.to_nat k * m)%nat by nia.
      rewrite take_take_drop. f_equal. nia. }
    rewrite H by done. apply take_ge. nia.
Qed.

(** [split_block_in_chunks] *)
Lemma split_block_ok block n :
  Z.of_nat (length block) < 2 ^ 32 → (0 < n)%nat →
  ∃ chunks head padding, split_block_in_chunks block (Z.of_nat n) = Ok chunks ∧
    length chunks = n ∧
    (∃ k, Forall (λ c, length c = k) chunks) ∧
    concat chunks = head ++ block ++ padding ∧
    length head = 4%nat ∧ from_bytes true head = Z.of_nat (length block).
Proof.
  intros Hb Hn. unfold split_block_in_chunks. replace (Z.of_nat n =? 0) with false by lia.
  set (size := Z.of_nat (length block) + 4). set (k := chunk_len_of size (Z.of_nat n)).
  pose proof (chunk_len_of_enough size (Z.of_nat n) ltac:(lia) ltac:(lia)) as Henough.
  pose proof (chunk_len_of_nonneg size (Z.of_nat n) ltac:(lia) ltac:(lia)) as Hk. fold k in Henough, Hk.
  destruct (to_bytes_Some true 4 (Z.of_nat (length block))) as (head & Hhead & Hlen & Hval);
    [change (256 ^ Z.of_nat 4) with (2 ^ 32); lia|].
  unfold pack_uint32. rewrite Hhead.
  set (payload := head ++ block ++ zeros (k * Z.of_nat n - size)).
  destruct (slices_spec k n payload) as (H1 & H2 & H3); [done| |].
  { unfold payload. rewrite !length_app, length_zeros, Hlen. nia. }
  exists (slices k n payload), head, (zeros (k * Z.of_nat n - size)).
  split_and!; [done|done|by exists (Z.to_nat k)|done|done|done].
Qed.

(** ** Rebuilding *)

(** The block of a complete payload. *)
Lemma rebuild_payload head block padding :
  length head = 4%nat → from_bytes true head = Z.of_nat (length block) →
  unpack_uint32 (py_slice (head ++ block ++ padding) 0 4) = Some (Z.of_nat (length block)) ∧
  py_slice (head ++ block ++ padding) 4 (4 + Z.of_nat (length block)) = block.
Proof.
  intros Hlen Hval. split.
  - rewrite py_slice_take by lia. change (Z.to_nat 4) with 4%nat. rewrite <-Hlen, take_app_length.
    unfold unpack_uint32. by rewrite bool_decide_true, Hval.
  - rewrite py_slice_nonneg by lia. change (Z.to_nat 4) with 4%nat. rewrite <-Hlen.
    rewrite drop_app_length.
    match goal with |- take ?n _ = _ => replace n with (length block) by lia end.
    apply take_app_length.
Qed.

Lemma omap_id_Some {A} (l : list A) : omap id (Some <$> l) = l.
Proof. induction l as [|x l IH]; [done|]. cbn. by rewrite IH. Qed.
Lemma missing_chunk_id_Some (l : list bytes) : missing_chunk_id (Some <$> l) = None.
Proof. induction l as [|x l IH]; cbn; [done|]. by rewrite IH. Qed.
Lemma missing_chunk_id_one (l1 l2 : list bytes) :
  missing_chunk_id ((Some <$> l1) ++ None :: (Some <$> l2)) = Some (length l1).
Proof. induction l1 as [|x l1 IH]; cbn; [done|]. by rewrite IH. Qed.

(** With all its chunks, a block needs no checksum. *)
Lemma rebuild_complete big chunks c head block padding :
  concat chunks = head ++ block ++ padding →
  length head = 4%nat → from_bytes true head = Z.of_nat (length block) →
  rebuild_block_from_chunks big (Some <$> chunks) c = Ok block.
Proof.
  intros Hc Hlen Hval. unfold rebuild_block_from_chunks.
  rewrite omap_id_Some, length_fmap, bool_decide_true by lia.
  rewrite missing_chunk_id_Some. cbn [mbind result_bind]. rewrite omap_id_Some, Hc.
  destruct (rebuild_payload head block padding Hlen Hval) as [-> ->]. done.
Qed.
(** With one chunk missing, the checksum gives it back. *)
Lemma rebuild_missing big n l1 x l2 c head block padding :
  concat (l1 ++ x :: l2) = head ++ block ++ padding →
  length head = 4%nat → from_bytes true head = Z.of_nat (length block) →
  Forall (λ b, length b = n) (l1 ++ x :: l2) → length c = n →
  from_bytes big c = parity big (l1 ++ x :: l2) →
  rebuild_block_from_chunks big ((Some <$> l1) ++ None :: (Some <$> l2)) (Some c) = Ok block.
Proof.
  intros Hc Hlen Hval Hn Hcl Hp. unfold rebuild_block_from_chunks.
  rewrite omap_app. cbn [omap list_omap id]. rewrite !omap_id_Some.
  rewrite bool_decide_true.
  2: { rewrite !length_app. cbn. rewrite !length_fmap. lia. }
  rewrite missing_chunk_id_one, <-app_assoc.
  rewrite (xor_missing big n l1 x l2 c Hn Hcl Hp). cbn [mbind result_bind].
  rewrite insert_app_r_alt by (rewrite length_fmap; lia). rewrite length_fmap, Nat.sub_diag. cbn [insert list_insert].
  rewrite omap_app. cbn [omap list_omap id]. rewrite !omap_id_Some, Hc.
  destruct (rebuild_payload head block padding Hlen Hval) as [-> ->]. done.
Qed.

(** ** RAID5 *)

(** A store answers with its chunk or not at all. *)
Definition answers (r : ReadResult) (c : bytes) : Prop := r = ReadBlock c ∨ r = ReadTimeout.

Lemma filter_timeout_blocks (l : list bytes) : filter is_timeout (ReadBlock <$> l) = [].
Proof. induction l as [|c l IH]; [done|]. rewrite fmap_cons, filter_cons_False by (by intros []). done. Qed.
Lemma filter_exception_blocks (l : list bytes) : filter is_exception (ReadBlock <$> l) = [].
Proof. induction l as [|c l IH]; [done|]. rewrite fmap_cons, filter_cons_False by (by intros []). done. Qed.
Lemma block_of_blocks (l : list bytes) : block_of <$> (ReadBlock <$> l) = Some <$> l.
Proof. by rewrite <-list_fmap_compose. Qed.

(** All the chunks, all but one, or too few of them. *)
Lemma answers_cases rs chunks :
  Forall2 answers rs chunks →
  rs = ReadBlock <$> chunks ∨
  (∃ l1 x l2, chunks = l1 ++ x :: l2 ∧ rs = (ReadBlock <$> l1) ++ ReadTimeout :: (ReadBlock <$> l2)) ∨
  (2 ≤ length (filter is_timeout rs))%nat.
Proof.
  induction 1 as [|r c rs chunks [->| ->] Hrest IH]; [by left|..].
  - destruct IH as [->|[(l1 & x & l2 & -> & ->)|IH]].
    + by left.
    + right; left. by exists (c :: l1), x, l2.
    + right; right. rewrite filter_cons_False; [done|by intros []].
  - rewrite filter_cons_True by done. destruct IH as [->|[(l1 & x & l2 & -> & ->)|IH]].
    + right; left. by exists [], c, chunks.
    + right; right. rewrite filter_app, filter_cons_True by done.
      rewrite filter_timeout_blocks. cbn. lia.
    + right; right. cbn. lia.
Qed.

(** A store that may have missed the upload too. *)
Definition answers_or_missed (r : ReadResult) (c : bytes) : Prop :=
  answers r c ∨ r = ReadNotFound.

(** What a read gives, from what the stores answer. The data stores are asked, and
    the store of the checksum when one of them does not answer: two that do not
    answer are a timeout, and among the others none may have missed the upload. *)
Definition asked (data : list ReadResult) (checksum : ReadResult) : list ReadResult :=
  if bool_decide (ReadTimeout ∈ data) then data ++ [checksum] else data.
Definition read_outcome (data : list ReadResult) (checksum : ReadResult) (block : bytes)
    : result BackendExn bytes :=
  if bool_decide (2 ≤ length (filter is_timeout (asked data checksum)))%nat
  then Err BlockTimeoutError
  else if bool_decide (ReadNotFound ∈ asked data checksum) then Err BAssertionError
  else Ok block.

Lemma timeouts_0 data : length (filter is_timeout data) = 0%nat ↔ ReadTimeout ∉ data.
Proof.
  induction data as [|r data IH]; [split; [intros _ ?%elem_of_nil|]; done|].
  rewrite elem_of_cons, filter_cons. destruct r; cbn.
  - rewrite IH. naive_solver.
  - rewrite IH. naive_solver.
  - naive_solver.
Qed.
Lemma exceptions_missed data :
  ReadNotFound ∈ data → (length (filter is_timeout data) < length (filter is_exception data))%nat.
Proof.
  assert (∀ l, (length (filter is_timeout l) ≤ length (filter is_exception l))%nat) as Hle.
  { induction l as [|[] l IH]; [done|..];
      rewrite !filter_cons; repeat case_decide; cbn in *; lia || done. }
  induction data as [|r data IH]; [by intros ?%elem_of_nil|].
  intros [<-|Hin]%elem_of_cons; rewrite !filter_cons.
  - specialize (Hle data). repeat case_decide; cbn in *; lia || done.
  - specialize (IH Hin). destruct r; repeat case_decide; cbn in *; lia || done.
Qed.
Lemma answered data chunks :
  Forall2 answers_or_missed data chunks → ReadNotFound ∉ data → Forall2 answers data chunks.
Proof.
  induction 1 as [|r c data chunks [Hr| ->] _ IH]; intros Hn; [done| |].
  - constructor; [done|]. apply IH. intros ?. apply Hn. by right.
  - exfalso. apply Hn. by left.
Qed.

Lemma raid5_read_results_ok big n chunks c data checksum head block padding :
  concat chunks = head ++ block ++ padding →
  length head = 4%nat → from_bytes true head = Z.of_nat (length block) →
  Forall (λ b, length b = n) chunks → length c = n → from_bytes big c = parity big chunks →
  Forall2 answers_or_missed data chunks → answers_or_missed checksum c →
  raid5_read_results big data checksum = read_outcome data checksum block.
Proof.
  intros Hcat Hlen Hval Hn Hc Hp Hdata Hck. unfold raid5_read_results, read_outcome, asked.
  destruct (decide (ReadNotFound ∈ data)) as [Hmiss|Hmiss].
  { pose proof (exceptions_missed _ Hmiss) as Hex.
    destruct (length (filter is_timeout data)) as [|[|k]] eqn:Hk.
    - apply timeouts_0 in Hk as Hnt. rewrite (bool_decide_eq_false_2 (ReadTimeout ∈ data)) by done.
      rewrite Hk. cbn. rewrite (bool_decide_eq_true_2 (ReadNotFound ∈ data)) by done.
      rewrite (bool_decide_eq_false_2 (filter _ _ = [])); [done|].
      intros E. rewrite E in Hex. cbn in Hex. lia.
    - rewrite (bool_decide_eq_true_2 (ReadTimeout ∈ data)).
      2: { apply dec_stable. intros Hn'%timeouts_0. lia. }
      rewrite filter_app, length_app, Hk, filter_cons.
      rewrite (bool_decide_eq_true_2 (ReadNotFound ∈ _ ++ _)) by (by apply elem_of_app; left).
      destruct checksum; cbn; [|done..].
      by rewrite (bool_decide_eq_false_2 (length (filter is_exception data) = 1%nat)) by lia.
    - rewrite (bool_decide_eq_true_2 (ReadTimeout ∈ data)).
      2: { apply dec_stable. intros Hn'%timeouts_0. lia. }
      rewrite filter_app, length_app, Hk. by cbn. }
  pose proof (answered _ _ Hdata Hmiss) as Hans.
  destruct (answers_cases _ _ Hans) as [->|[(l1 & x & l2 & -> & ->)|H2]].
  - rewrite filter_timeout_blocks, filter_exception_blocks, block_of_blocks.
    rewrite (bool_decide_eq_false_2 (ReadTimeout ∈ _)) by (apply timeouts_0; by rewrite filter_timeout_blocks).
    rewrite filter_timeout_blocks, (bool_decide_eq_false_2 (ReadNotFound ∈ _)) by done. cbn.
    by apply (rebuild_complete big chunks None head block padding).
  - rewrite (bool_decide_eq_true_2 (ReadTimeout ∈ _)) by (apply elem_of_app; right; by left).
    rewrite !filter_app, !filter_cons_True by done.
    rewrite !filter_timeout_blocks, !filter_exception_blocks, filter_cons. cbn [length app].
    destruct Hck as [[->| ->]| ->]; cbn.
    + rewrite (bool_decide_eq_false_2 (ReadNotFound ∈ _)).
      2: { rewrite elem_of_app, list_elem_of_singleton. naive_solver. }
      rewrite fmap_app, fmap_cons, !block_of_blocks. cbn [block_of].
      by apply (rebuild_missing big n l1 x l2 c head block padding).
    + done.
    + rewrite (bool_decide_eq_true_2 (ReadNotFound ∈ _)); [done|]. apply elem_of_app. right. by left.
  - rewrite (bool_decide_eq_true_2 (ReadTimeout ∈ data)).
    2: { apply dec_stable. intros Hn'%timeouts_0. lia. }
    rewrite filter_app, length_app.
    destruct (length (filter is_timeout data)) as [|[|m]]; [lia|lia|]. by cbn.
Qed.


Section raid5.
Context {S : Type} `{BlockStoreLaws S}.

(** A store that has no such block, and takes one or is down. *)
Definition takes_or_down (org : OrganizationID) (id : UUID) (up : bool) (s : S) : Prop :=
  (∀ b, bs_read s org id ≠ ReadBlock b) ∧
  ∀ chunk, (bs_create s org id chunk).2 = if up then Created else CreateTimeout.
(** Later a store gives what it has, or does not answer. *)
Definition same_or_silent (org : OrganizationID) (id : UUID) (s s' : S) : Prop :=
  bs_read s' org id = bs_read s org id ∨ bs_read s' org id = ReadTimeout.
Lemma filter_iff_in {A} (P Q : A → Prop) `{∀ x, Decision (P x), ∀ x, Decision (Q x)} (l : list A) :
  (∀ x, x ∈ l → P x ↔ Q x) → filter P l = filter Q l.
Proof.
  induction l as [|x l IH]; intros Hiff; [done|].
  rewrite !filter_cons, IH by (intros y Hy; apply Hiff; by right).
  specialize (Hiff x ltac:(by left)). repeat case_decide; [done|tauto..|done].
Qed.
(** How many of the stores are down, among those of some indices. *)
Definition down_among (up : list bool) (order : list nat) : nat :=
  length (filter (λ i, up !! i = Some false) order).
Definition down (up : list bool) : nat := length (filter (λ b, b = false) up).
Lemma down_among_all up order : order ≡ₚ seq 0 (length up) → down_among up order = down up.
Proof.
  intros Hp. unfold down_among, down. rewrite Hp. clear order Hp.
  induction up as [|b up IH] using rev_ind; [done|].
  rewrite length_app, Nat.add_comm. cbn [length Nat.add]. rewrite seq_S, !filter_app, !length_app.
  f_equal.
  - rewrite <-IH. f_equal. apply filter_iff_in. intros i Hi%elem_of_seq.
    by rewrite lookup_app_l by lia.
  - cbn. rewrite lookup_app_r, Nat.sub_diag by lia. destruct b; done.
Qed.

Lemma created_answers org id s chunk up :
  takes_or_down org id up s →
  let '(s', r) := bs_create s org id chunk in
  r = (if up then Created else CreateTimeout) ∧ answers_or_missed (bs_read s' org id) chunk.
Proof.
  intros [Hnew Hs]. specialize (Hs chunk). destruct (bs_create s org id chunk) as [s' r] eqn:E.
  cbn in Hs. split; [done|]. subst r. destruct up.
  - left. by apply bs_create_read in E.
  - rewrite (bs_create_fails _ _ _ _ _ _ E) by done.
    destruct (bs_read s org id) as [b| |] eqn:Er; [by destruct (Hnew b)|by right|by left; right].
Qed.

(** The uploads that are left reach all their stores but the ones that are down,
    unless two are. *)
Lemma raid5_upload_ok stores up chunks order org id errors stores' errors' :
  NoDup order → (∀ i, i ∈ order → i < length stores ∧ i < length chunks)%nat →
  length up = length stores →
  (∀ i s b, stores !! i = Some s → up !! i = Some b → i ∈ order → takes_or_down org id b s) →
  raid5_upload stores chunks order org id errors = (stores', errors') →
  length stores' = length stores ∧
  (∀ i, i ∉ order → stores' !! i = stores !! i) ∧
  ((1 < errors')%nat ↔ (1 < errors + down_among up order)%nat) ∧
  ((errors' ≤ 1)%nat → ∀ i chunk, i ∈ order → chunks !! i = Some chunk →
     ∃ s', stores' !! i = Some s' ∧ answers_or_missed (bs_read s' org id) chunk).
Proof.
  revert stores errors. induction order as [|i order IH]; intros stores errors Hnd Hin Hlup Hup Hrun.
  - cbn in Hrun. injection Hrun as <- <-. unfold down_among. cbn. rewrite Nat.add_0_r.
    split_and!; [done..|]. intros _ i chunk Hi. by apply elem_of_nil in Hi.
  - apply NoDup_cons in Hnd as [Hi Hnd]. cbn [raid5_upload] in Hrun.
    case_bool_decide as He.
    { injection Hrun as <- <-. split_and!; [done|done|lia|lia]. }
    destruct (Hin i) as [Hs Hc]; [by left|].
    pose proof Hs as Hb. rewrite <-Hlup in Hb. apply lookup_lt_is_Some_2 in Hb as [b Hb].
    apply lookup_lt_is_Some_2 in Hs as [s Hs], Hc as [chunk Hc]. rewrite Hs, Hc in Hrun.
    pose proof (created_answers org id s chunk b (Hup i s b Hs Hb ltac:(by left))) as Hcreated.
    destruct (bs_create s org id chunk) as [s' r]. destruct Hcreated as [Hr Ha].
    edestruct (IH (<[i := s']> stores)) as (Hlen & Hout & Hcount & Hans); [exact Hnd| | | |exact Hrun|].
    + intros j Hj. rewrite length_insert. apply Hin. by right.
    + by rewrite length_insert.
    + intros j sj bj Hj Hbj Hjo. rewrite list_lookup_insert_ne in Hj by (intros ->; done).
      apply (Hup j); [done..|by right].
    + rewrite length_insert in Hlen. split_and!; [done|..].
      * intros j Hj. rewrite Hout by set_solver. apply list_lookup_insert_ne. set_solver.
      * rewrite Hcount. unfold down_among. rewrite filter_cons, Hb. subst r.
        destruct b; [rewrite decide_False by done|rewrite decide_True by done; cbn]; lia.
      * intros He' j chunk' Hj Hchunk. apply elem_of_cons in Hj as [->|Hj]; [|by apply Hans].
        exists s'. split; [|congruence].
        rewrite Hout by done. apply list_lookup_insert_eq. by eapply lookup_lt_Some.
Qed.

(** [create] then, later, [read]. *)
Lemma raid5_create_read big stores up order org id block stores' r :
  (2 ≤ length stores)%nat → order ≡ₚ seq 0 (length stores) →
  Z.of_nat (length block) < 2 ^ 32 → Forall2 (takes_or_down org id) up stores →
  raid5_create big stores order org id block = (stores', r) →
  r = (if bool_decide (down up ≤ 1)%nat then Ok tt else Err BlockTimeoutError) ∧
  (r = Ok tt → ∀ later, Forall2 (same_or_silent org id) stores' later →
     ∃ data checksum, (λ s, bs_read s org id) <$> later = data ++ [checksum] ∧
       raid5_read big later org id = read_outcome data checksum block).
Proof.
  intros Hn Horder Hblock Hup Hrun. unfold raid5_create in Hrun.
  replace (Z.of_nat (length stores) - 1) with (Z.of_nat (length stores - 1)) in Hrun by lia.
  destruct (split_block_ok block (length stores - 1)) as
    (chunks & head & padding & Hsplit & Hlen & [k Hk] & Hcat & Hhead & Hval); [done|lia|].
  rewrite Hsplit in Hrun. cbn [mbind result_bind] in Hrun. rewrite bool_decide_true in Hrun by lia.
  destruct (xor_buffers_ok big k chunks) as (c & Hc & Hclen & Hcval);
    [by intros ->; cbn in Hlen; lia|done|].
  unfold generate_checksum_chunk in Hrun. rewrite Hc in Hrun. cbn [mbind result_bind] in Hrun.
  destruct (raid5_upload stores (chunks ++ [c]) order org id 0) as [stores1 errors] eqn:Hup5.
  injection Hrun as <- <-. pose proof (Forall2_length _ _ _ Hup) as Hlup.
  assert (∀ i, i ∈ order ↔ (i < length stores)%nat) as Hin.
  { intros i. rewrite Horder, elem_of_seq. lia. }
  destruct (raid5_upload_ok stores up (chunks ++ [c]) order org id 0 stores1 errors)
    as (Hlen1 & _ & Hcount & Hans); [by rewrite Horder; apply NoDup_seq| |done| |done|].
  { intros i Hi%Hin. rewrite length_app, Hlen. cbn. lia. }
  { intros i s b Hs Hb _. by eapply (Forall2_lookup_lr _ _ _ _ _ _ Hup). }
  cbn [Nat.add] in Hcount. rewrite down_among_all in Hcount by by rewrite Hlup.
  split; [by do 2 case_bool_decide; try lia|]. case_bool_decide as He; [done|]. intros _ later Hlater.
  assert (Forall2 answers_or_missed ((λ s, bs_read s org id) <$> later) (chunks ++ [c])) as Hall.
  { apply Forall2_same_length_lookup. pose proof (Forall2_length _ _ _ Hlater) as Hl.
    split; [rewrite length_fmap, length_app, Hlen; cbn; lia|].
    intros i rr chunk Hrr Hchunk. destruct (Hans ltac:(lia) i chunk) as (s & Hs & Ha); [|done|].
    - apply Hin. apply lookup_lt_Some in Hchunk.
      rewrite length_app, Hlen in Hchunk. cbn in Hchunk. lia.
    - rewrite list_lookup_fmap in Hrr. destruct (later !! i) as [s'|] eqn:Hs'; [|done].
      injection Hrr as <-. destruct (Forall2_lookup_lr _ _ _ _ _ _ Hlater Hs Hs') as [->| ->]; [done|].
      left. by right. }
  apply Forall2_length in Hlater.
  unfold raid5_read. destruct later as [|s1 rest _] using rev_ind; [cbn in Hlater; lia|].
  rewrite last_snoc, length_app. cbn [length]. rewrite Nat.add_sub, take_app_length.
  rewrite fmap_app in Hall |- *. cbn [fmap list_fmap] in Hall |- *.
  eexists _, _. split; [reflexivity|].
  apply Forall2_app_inv in Hall as [Hdata Hck].
  2: { rewrite length_fmap. rewrite length_app in Hlater. cbn in Hlater. lia. }
  apply Forall2_cons in Hck as [Hck _].
  by apply (raid5_read_results_ok big k chunks c _ _ head block padding).
Qed.
End raid5.
