(* ===== verification/BlockStoreProperties.v ===== *)
(** The theorems on the stores that are made of other stores. The witnesses use
    memory stores that can be down. *)

From S2P Require Import Prelude Types Backend BlockStore.

Import Byte.

(** A memory store that does not answer when it is down. *)
Record FlakyStore := mkFlakyStore { fl_blocks : MemoryBlockStore; fl_up : bool }.
#[export] Instance FlakyStore_ops : BlockStore FlakyStore :=
  {| bs_read s org id := if fl_up s then bs_read (fl_blocks s) org id else ReadTimeout;
     bs_create s org id block :=
       if fl_up s
       then let '(blocks, r) := bs_create (fl_blocks s) org id block in (mkFlakyStore blocks true, r)
       else (s, CreateTimeout) |}.
#[export] Instance FlakyStore_laws : BlockStoreLaws FlakyStore.
Proof.
  split; intros [blocks up] s' org id b; unfold bs_create, bs_read, FlakyStore_ops; cbn [fl_blocks fl_up].
  - destruct up; [|done]. destruct (bs_create blocks org id b) as [blocks' r] eqn:E.
    intros [= <- ->]. by eapply bs_create_read.
  - intros r. destruct up; [|by intros [= <- <-]].
    destruct (bs_create blocks org id b) as [blocks' r'] eqn:E. intros [= <- <-] Hr.
    by rewrite (bs_create_fails _ _ _ _ _ _ E Hr).
  - intros r org' id'. destruct up; [|by intros [= <- <-]].
    destruct (bs_create blocks org id b) as [blocks' r'] eqn:E. intros [= <- <-] Hne. cbn.
    exact (bs_create_other _ _ _ _ _ _ _ _ E Hne).
Qed.

Section properties.
Context {S : Type} `{BlockStoreLaws S}.

(** C25: a RAID5 cluster of at least two stores, given a new block of less than 4
    GiB, whatever its bytes and the order of the uploads. It takes the block exactly
    when at most one of the stores is down, and raises a timeout when two are. Once it
    took the block, later reads, while each store gives what it has or does not answer,
    have this outcome and no other: the data stores are asked, and the store of the
    checksum when one of them does not answer; when two stores that are asked do not
    answer, a timeout is raised; otherwise, when one that is asked answers that it has
    no chunk, as it missed the upload, an [AssertionError] is raised; and otherwise
    the block is read back as it is. *)
Theorem raid5_correct big stores up order org id block stores' r :
  (2 ≤ length stores)%nat → order ≡ₚ seq 0 (length stores) →
  Z.of_nat (length block) < 2 ^ 32 → Forall2 (takes_or_down org id) up stores →
  raid5_create big stores order org id block = (stores', r) →
  r = (if bool_decide (down up ≤ 1)%nat then Ok tt else Err BlockTimeoutError) ∧
  (r = Ok tt → ∀ later, Forall2 (same_or_silent org id) stores' later →
     ∃ data checksum, (λ s, bs_read s org id) <$> later = data ++ [checksum] ∧
       raid5_read big later org id = read_outcome data checksum block).
Proof. apply raid5_create_read. Qed.

(** A RAID1 cluster gives a block that is not empty as soon as one of its
    stores has it, whatever the tasks that end before the others are cancelled; it
    takes an empty block for one that it does not have. *)
Theorem raid1_correct (stores : list S) completed org id block :
  raid1_schedule stores completed org id →
  (∀ s b, s ∈ stores → bs_read s org id = ReadBlock b → b = block) →
  (∃ s, s ∈ stores ∧ bs_read s org id = ReadBlock block) →
  raid1_read stores completed org id =
    match block with [] => Err BlockNotFoundError | _ => Ok block end.
Proof.
  intros Hsched Hsame (s0 & Hin0 & Hs0). unfold raid1_read.
  set (step := λ (value : option bytes) i,
    match stores !! i with
    | Some s => match bs_read s org id with ReadBlock b => Some b | _ => value end
    | None => value
    end).
  assert (∃ i, i ∈ completed ∧ ∃ s, stores !! i = Some s ∧ bs_read s org id = ReadBlock block)
    as (i & Hi & s & Hs & Hb).
  { destruct Hsched as [Hall|(i & s & b & Hi & Hs & Hb)].
    - apply list_elem_of_lookup in Hin0 as [i Hi]. exists i. split; [|eauto].
      apply Hall. by apply lookup_lt_Some in Hi.
    - exists i. split; [done|]. exists s. split; [done|]. rewrite Hb.
      f_equal. eapply Hsame, Hb. by eapply list_elem_of_lookup_2. }
  assert (∀ l v, (i ∈ l ∨ v = Some block) → foldl step v l = Some block) as Hfold.
  { induction l as [|j l IH]; intros v Hv; cbn.
    - destruct Hv as [Hv|]; [by apply elem_of_nil in Hv|done].
    - apply IH. destruct (decide (i ∈ l)) as [|Hl]; [by left|right].
      destruct Hv as [Hv| ->].
      + assert (j = i) as -> by set_solver. unfold step. by rewrite Hs, Hb.
      + unfold step. destruct (stores !! j) as [sj|] eqn:Hj; [|done].
        destruct (bs_read sj org id) as [b| |] eqn:Hbj; [|done..].
        f_equal. eapply Hsame, Hbj. by eapply list_elem_of_lookup_2. }
  rewrite Hfold by by left. by destruct block.
Qed.
End properties.

(** A store that was down when a block was created, and came back, makes the
    block unreadable although all the chunks are there: [read] meets a chunk that
    is not found and raises an [AssertionError]. The same cluster reads the block
    while the store is down. *)
Theorem raid5_missed_create :
  ∃ (stores stores' : list FlakyStore) org id block,
    raid5_create false stores [0; 1; 2]%nat org id block = (stores', Ok tt) ∧
    raid5_read false stores' org id = Ok block ∧
    raid5_read false ((λ s, mkFlakyStore (fl_blocks s) true) <$> stores') org id = Err BAssertionError.
Proof.
  exists [mkFlakyStore ∅ false; mkFlakyStore ∅ true; mkFlakyStore ∅ true]. eexists.
  exists "org"%string, 1%N, [x61; x62; x63]. split_and!; vm_compute; reflexivity.
Qed.

(** The store of the checksum is down when the block is created: the block is read
    back, and a timeout is raised when none answers. *)
Lemma flaky_takes_or_down up org id : takes_or_down org id up (mkFlakyStore ∅ up).
Proof. split; [by destruct up|]. intros chunk. by destruct up. Qed.
Lemma raid5_witness :
  ∃ stores' r, raid5_create false
      [mkFlakyStore ∅ true; mkFlakyStore ∅ true; mkFlakyStore ∅ false] [2; 0; 1]%nat "org" 1 [x61; x62]
      = (stores', r) ∧ r = Ok tt ∧
    raid5_read false stores' "org" 1 = Ok [x61; x62] ∧
    raid5_read false ((λ s, mkFlakyStore (fl_blocks s) false) <$> stores') "org" 1
      = Err BlockTimeoutError.
Proof.
  destruct (raid5_create false [mkFlakyStore ∅ true; mkFlakyStore ∅ true; mkFlakyStore ∅ false]
    [2; 0; 1]%nat "org" 1 [x61; x62]) as [stores' r] eqn:E.
  destruct (raid5_correct false [mkFlakyStore ∅ true; mkFlakyStore ∅ true; mkFlakyStore ∅ false]
    [true; true; false] [2; 0; 1]%nat "org" 1 [x61; x62] stores' r) as [Hr Hread].
  - cbn. lia.
  - apply (bool_decide_unpack _). vm_compute. exact I.
  - cbn. lia.
  - repeat (apply Forall2_cons_2; [apply flaky_takes_or_down|]). apply Forall2_nil_2.
  - exact E.
  - vm_compute in Hr. exists stores', r. split; [reflexivity|]. split; [exact Hr|].
    apply (f_equal fst) in E. vm_compute in E. subst stores'. split.
    + edestruct (Hread Hr) as (data & checksum & Hrs & ->); [repeat (apply Forall2_cons_2; [by left|]); apply Forall2_nil_2|].
      vm_compute in Hrs. apply (app_inj_tail [_; _] data _ checksum) in Hrs as [<- <-]. reflexivity.
    + edestruct (Hread Hr) as (data & checksum & Hrs & Heq).
      2: { cbn [fmap list_fmap fl_blocks]. rewrite Heq. vm_compute in Hrs.
           apply (app_inj_tail [_; _] data _ checksum) in Hrs as [<- <-]. reflexivity. }
      cbn [fmap list_fmap fl_blocks]. repeat (apply Forall2_cons_2; [by right|]). apply Forall2_nil_2.
Defined.
Lemma raid1_witness :
  raid1_read [mkFlakyStore ∅ false; mkFlakyStore {[ ("org"%string, 1%N) := [x61] ]} true] [1]%nat "org" 1
    = Ok [x61].
Proof.
  apply (raid1_correct [mkFlakyStore ∅ false; mkFlakyStore {[ ("org"%string, 1%N) := [x61] ]} true]
    [1]%nat "org" 1 [x61]).
  - right. exists 1%nat. do 2 eexists. split; [by left|]. split; [reflexivity|vm_compute; reflexivity].
  - intros s b Hin Hb. repeat (apply elem_of_cons in Hin as [->|Hin]).
    + discriminate Hb.
    + vm_compute in Hb. by injection Hb.
    + by apply elem_of_nil in Hin.
  - eexists. split; [right; by left|]. vm_compute. reflexivity.
Defined.
