(* ===== verification/BackendBlock.v ===== *)
(** The blocks of the server: [MemoryBlockComponent] of
    [backendService/memory/block.py] and the API of [backendService/block.py]. *)

From S2P Require Import Prelude Types Backend BlockStore BackendVlob BackendVlobProofs.

(** [_check_realm_access] *)
Definition block_check_realm_access (org : OrganizationID) (realm_id : UUID) (user : UserID)
    (allowed_roles : list RealmRole) : backendM unit :=
  realm ← try_catch (get_realm org realm_id)
            (λ e, mthrow (convert_exn RealmNotFoundError BlockNotFoundError e));
  _ ← raise_if (negb (role_in (realm_roles realm !! user) allowed_roles)) BlockAccessError;
  raise_if (in_maintenance (r_status realm)) BlockInMaintenanceError.
(** [_check_realm_read_access] and [_check_realm_write_access] *)
Definition block_check_read_access org realm_id user : backendM unit :=
  block_check_realm_access org realm_id user can_read_roles.
Definition block_check_write_access org realm_id user : backendM unit :=
  block_check_realm_access org realm_id user can_write_roles.

(** [MemoryBlockComponent.read], with the memory block store *)
Definition read_block (org : OrganizationID) (author : DeviceID) (block_id : UUID)
    : backendM bytes :=
  blockmetas ← gets be_blockmetas;
  blockmeta ← of_option BlockNotFoundError (blockmetas !! (org, block_id));
  _ ← block_check_read_access org (bm_realm_id blockmeta) (user_id author);
  blocks ← gets be_blocks;
  lift_result (read_reply (bs_read blocks org block_id)).

(** [MemoryBlockComponent.create] *)
Definition create_block (org : OrganizationID) (author : DeviceID) (block_id realm_id : UUID)
    (block : bytes) : backendM unit :=
  _ ← block_check_write_access org realm_id (user_id author);
  blocks ← gets be_blocks;
  let '(blocks, created) := bs_create blocks org block_id block in
  _ ← modify (set_be_blocks (λ _, blocks));
  _ ← lift_result (create_reply created);
  modify (set_blockmetas
    <[(org, block_id) := mkBlockMeta realm_id (Z.of_nat (length block))]>).

(** ** The API: [BaseBlockComponent] *)

Definition block_status (e : BackendExn) : option string :=
  match e with
  | BlockNotFoundError => Some "not_found"%string
  | BlockTimeoutError => Some "timeout"%string
  | BlockAccessError => Some "not_allowed"%string
  | BlockInMaintenanceError => Some "in_maintenance"%string
  | _ => None
  end.
(** [api_block_read] *)
Definition api_block_read (client_ctx : ClientCtx) (block_id : UUID) : backendM (reply bytes) :=
  reply_of (read_block (cc_organization_id client_ctx) (cc_device_id client_ctx) block_id)
    block_status id.
(** [api_block_create] *)
Definition api_block_create (client_ctx : ClientCtx) (block_id realm_id : UUID) (block : bytes)
    : backendM (reply unit) :=
  reply_of (create_block (cc_organization_id client_ctx) (cc_device_id client_ctx)
              block_id realm_id block)
    (λ e, match e with
          | BlockAlreadyExistsError => Some "already_exists"%string
          | e => block_status e
          end) id.

(** ** What the operations do to the state *)

Lemma block_check_inv org realm_id user allowed s s' r :
  block_check_realm_access org realm_id user allowed s = (s', r) →
  s' = s ∧
  match r with
  | Ok _ => access_granted s org realm_id user allowed false
  | Err e => e ∈ [BlockNotFoundError; BlockAccessError; BlockInMaintenanceError]
  end.
Proof.
  intros H. unfold block_check_realm_access in H. minv H.
  2: { apply try_catch_inv in Hrun as [(? & ? & [=])|(e & s1 & Hg & Hrun)].
       apply get_realm_inv in Hg as [-> Hg]. minv_all. split; [done|].
       destruct (be_realms _ !! _); [done|]. simplify_eq.
       unfold convert_exn. rewrite bool_decide_true by done. set_solver. }
  apply try_catch_inv in Hrun as [(realm & Hg & [= <-])|(e & s1 & _ & Hrun)]; [|by minv_base Hrun].
  apply get_realm_inv in Hg as [-> Hg].
  destruct (be_realms s !! (org, realm_id)) as [realm|] eqn:Hr; [|done]. injection Hg as ->.
  minv H; [|split; [done|set_solver]]. apply negb_false_iff, role_in_spec in Hc as (role & Hrole & Hin).
  minv H; [split; [done|set_solver]|]. split; [done|]. by exists realm, role.
Qed.

Lemma create_block_inv org author block_id realm_id block s s' r :
  create_block org author block_id realm_id block s = (s', r) →
  (s' = s ∧ ∃ e, r = Err e ∧ e ∈ [BlockNotFoundError; BlockAccessError; BlockInMaintenanceError;
                                  BlockAlreadyExistsError]) ∨
  (r = Ok tt ∧ access_granted s org realm_id (user_id author) can_write_roles false ∧
   be_blocks s !! (org, block_id) = None ∧
   s' = set_blockmetas <[(org, block_id) := mkBlockMeta realm_id (Z.of_nat (length block))]>
          (set_be_blocks (λ _, <[(org, block_id) := block]> (be_blocks s)) s)).
Proof.
  intros H. unfold create_block in H. minv H.
  2: { apply block_check_inv in Hrun as [-> He]. left. split; [done|]. eexists; split; [done|set_solver]. }
  apply block_check_inv in Hrun as [-> Hacc]. minv H. cbn [bs_create MemoryBlockStore_ops] in H.
  unfold memory_create in H. destruct (be_blocks s !! _) eqn:E; minv_all.
  - left. split; [by destruct s|]. eexists; split; [done|set_solver].
  - by right.
Qed.

Lemma read_block_inv org author block_id s s' r :
  read_block org author block_id s = (s', r) →
  s' = s ∧
  match r with
  | Ok block => ∃ meta, be_blockmetas s !! (org, block_id) = Some meta ∧
      access_granted s org (bm_realm_id meta) (user_id author) can_read_roles false ∧
      be_blocks s !! (org, block_id) = Some block
  | Err e => e ∈ [BlockNotFoundError; BlockAccessError; BlockInMaintenanceError]
  end.
Proof.
  intros H. unfold read_block in H. do 2 minv H; [|split; [done|set_solver]].
  minv H; apply block_check_inv in Hrun as [-> Hacc]; [|done].
  minv H. minv H. cbn [bs_read MemoryBlockStore_ops]. unfold memory_read.
  split; [done|]. destruct (be_blocks s !! _) eqn:E; cbn; [|set_solver]. eauto.
Qed.

(** Reading a stored block of a realm that one may read. *)
Lemma read_block_allowed org realm_id user id s block :
  ∀ n, be_blockmetas s !! (org, id) = Some (mkBlockMeta realm_id n) →
  be_blocks s !! (org, id) = Some block →
  access_granted s org realm_id user can_read_roles false →
  ∀ author, user_id author = user → read_block org author id s = (s, Ok block).
Proof.
  intros n Hm Hb (realm & role & Hr & Hrole & Hin & Hmaint) author <-.
  unfold read_block. rewrite (bind_Ok _ _ s s _ eq_refl). cbv beta.
  unfold of_option. rewrite Hm. cbn [bm_realm_id].
  rewrite (bind_Ok _ _ s s (mkBlockMeta realm_id n)) by done. cbv beta. cbn [bm_realm_id].
  rewrite (bind_Ok _ _ s s tt).
  - rewrite (bind_Ok _ _ s s (be_blocks s)) by done. cbv beta.
    unfold lift_result, read_reply. cbn [bs_read MemoryBlockStore_ops]. unfold memory_read. by rewrite Hb.
  - unfold block_check_read_access, block_check_realm_access.
    rewrite (bind_Ok _ _ s s realm).
    2: { unfold try_catch, get_realm, gets, of_option, mbind, stM_bind. by rewrite Hr. }
    cbv beta. rewrite Hrole. cbn [role_in].
    rewrite bool_decide_true by done. rewrite (bind_Ok _ _ s s tt) by done. cbv beta. by rewrite Hmaint.
Qed.
