(* ===== verification/BackendOrganization.v ===== *)
(** The organizations of the server: [backendService/memory/organization.py]
    and the API of [backendService/organization.py]. *)

From S2P Require Import Prelude Types Backend Certif BackendUser BackendRealm.

(** [Organization.is_bootstrapped] *)
Definition is_bootstrapped (o : Organization) : bool :=
  bool_decide (is_Some (o_root_verify_key o)).
(** [Organization.is_expired] at time [now]; the comparison of [None] with a
    date raises a [TypeError], which is [None]. *)
Definition is_expired (now : DateTime) (o : Organization) : option bool :=
  match o_expiration_date o with
  | Some d => Some (d <? now)
  | None => None
  end.

Definition set_organization (org : OrganizationID) (o : Organization) : backendM unit :=
  modify (set_organizations <[org := o]>).

(** [MemoryOrganizationComponent.create] *)
Definition organization_create (org : OrganizationID) (bootstrap_token : string)
    (expiration_date : option DateTime) : backendM unit :=
  organizations ← gets be_organizations;
  _ ← raise_if (match organizations !! org with
                | Some o => is_bootstrapped o
                | None => false
                end) OrganizationAlreadyExistsError;
  set_organization org (mkOrganization org bootstrap_token expiration_date None).

(** [get] *)
Definition organization_get (org : OrganizationID) : backendM Organization :=
  organizations ← gets be_organizations;
  of_option OrganizationNotFoundError (organizations !! org).

(** The exceptions of the class [UserError]. *)
Definition is_user_error (e : BackendExn) : bool :=
  bool_decide (e ∈ [UserNotFoundError; UserAlreadyExistsError; UserAlreadyRevokedError]).

(** [bootstrap] *)
Definition organization_bootstrap (org : OrganizationID) (user : User) (first_device : Device)
    (bootstrap_token : string) (root_verify_key : VerifyKey) : backendM unit :=
  organization ← organization_get org;
  _ ← raise_if (is_bootstrapped organization) OrganizationAlreadyBootstrappedError;
  _ ← raise_if (bool_decide (o_bootstrap_token organization ≠ bootstrap_token))
        OrganizationInvalidBootstrapTokenError;
  _ ← try_catch (create_user org user first_device)
        (λ e, mthrow (if is_user_error e then OrganizationFirstUserCreationError else e));
  set_organization (o_organization_id organization)
    (mkOrganization (o_organization_id organization) (o_bootstrap_token organization)
       (o_expiration_date organization) (Some root_verify_key)).

Record OrganizationStats := mkOrganizationStats {
  og_data_size : Z; og_metadata_size : Z; og_users : Z }.

(** [stats] *)
Definition organization_stats (org : OrganizationID) : backendM OrganizationStats :=
  _ ← organization_get org;
  vlobs ← gets be_vlobs;
  blockmetas ← gets be_blockmetas;
  users ← gets (λ s, size (os_users (orgstore s org)));
  mret (mkOrganizationStats
    (foldr (λ '(k, b) n, if bool_decide (k.1 = org) then bm_size b + n else n)
       0 (map_to_list blockmetas))
    (foldr (λ '(k, v) n, if bool_decide (k.1 = org) then vlob_size v + n else n) 0 vlobs)
    (Z.of_nat users)).

(** [set_expiration_date] *)
Definition set_expiration_date (org : OrganizationID) (expiration_date : option DateTime)
    : backendM unit :=
  organizations ← gets be_organizations;
  o ← of_option OrganizationNotFoundError (organizations !! org);
  set_organization org (mkOrganization (o_organization_id o) (o_bootstrap_token o)
    expiration_date (o_root_verify_key o)).

(** ** The API: [BaseOrganizationComponent] *)

Definition organization_status (e : BackendExn) : option string :=
  match e with OrganizationNotFoundError => Some "not_found"%string | _ => None end.

(** [api_organization_create]; [bootstrap_token] is the random token. *)
Definition api_organization_create (bootstrap_token : string) (org : OrganizationID)
    (expiration_date : option DateTime) : backendM (reply (string * option DateTime)) :=
  reply_of (organization_create org bootstrap_token expiration_date)
    (λ e, match e with
          | OrganizationAlreadyExistsError => Some "already_exists"%string
          | _ => None
          end) (λ _, (bootstrap_token, expiration_date)).

(** [api_organization_status] *)
Definition api_organization_status (org : OrganizationID)
    : backendM (reply (bool * option DateTime)) :=
  reply_of (organization_get org) organization_status
    (λ o, (is_bootstrapped o, o_expiration_date o)).

(** [api_authenticated_organization_stats] and [api_organization_stats] *)
Definition api_authenticated_organization_stats (client_ctx : ClientCtx)
    : backendM (reply OrganizationStats) :=
  if bool_decide (cc_profile client_ctx ≠ ADMIN) then mret (RepError "not_allowed")
  else reply_of (organization_stats (cc_organization_id client_ctx)) organization_status id.
Definition api_organization_stats (org : OrganizationID) : backendM (reply OrganizationStats) :=
  reply_of (organization_stats org) organization_status id.

(** [api_organization_update] *)
Definition api_organization_update (org : OrganizationID) (expiration_date : option DateTime)
    : backendM (reply unit) :=
  reply_of (set_expiration_date org expiration_date) organization_status id.

Section api.
Context `{CertifApi}.

Record OrganizationBootstrapReq := mkOrganizationBootstrapReq {
  ob_bootstrap_token : string;
  ob_root_verify_key : VerifyKey;
  ob_user_certificate : bytes;
  ob_device_certificate : bytes;
  ob_redacted_user_certificate : option bytes;
  ob_redacted_device_certificate : option bytes }.

(** [if field in msg: verify_and_load(msg[field])] *)
Definition load_optional {A} (load : bytes → result DataError A) (field : option bytes)
    : result DataError (option A) :=
  match field with
  | Some c => a ← load c; Ok (Some a)
  | None => Ok None
  end.
Definition load_bootstrap (msg : OrganizationBootstrapReq)
    : result DataError (UserCertificateContent * DeviceCertificateContent *
                        option UserCertificateContent * option DeviceCertificateContent) :=
  let key := ob_root_verify_key msg in
  u_data ← verify_user_certificate (ob_user_certificate msg) key None;
  d_data ← verify_device_certificate (ob_device_certificate msg) key None;
  ru_data ← load_optional (λ c, verify_user_certificate c key None)
              (ob_redacted_user_certificate msg);
  rd_data ← load_optional (λ c, verify_device_certificate c key None)
              (ob_redacted_device_certificate msg);
  Ok (u_data, d_data, ru_data, rd_data).

(** The checks of the redacted certificates. *)
Definition redacted_user_differs (u_data : UserCertificateContent)
    (ru_data : option UserCertificateContent) : bool :=
  match ru_data with
  | Some ru =>
      bool_decide (uc_evolve_human_handle ru (uc_human_handle u_data) ≠ u_data) ||
      bool_decide (is_Some (uc_human_handle ru))
  | None => false
  end.
Definition redacted_device_differs (d_data : DeviceCertificateContent)
    (rd_data : option DeviceCertificateContent) : bool :=
  match rd_data with
  | Some rd =>
      bool_decide (dc_evolve_device_label rd (dc_device_label d_data) ≠ d_data) ||
      truthy_str (dc_device_label rd)
  | None => false
  end.
(** The checks of [api_organization_bootstrap]: the status of the first that
    fails. *)
Definition check_bootstrap (now : DateTime) (u_data : UserCertificateContent)
    (d_data : DeviceCertificateContent) (ru_data : option UserCertificateContent)
    (rd_data : option DeviceCertificateContent) : option string :=
  if bool_decide (uc_profile u_data ≠ ADMIN) then Some "invalid_data"%string
  else if bool_decide (uc_timestamp u_data ≠ dc_timestamp d_data) then Some "invalid_data"%string
  else if bool_decide (uc_user_id u_data ≠ user_id (dc_device_id d_data))
  then Some "invalid_data"%string
  else if negb (timestamps_in_the_ballpark (uc_timestamp u_data) now)
  then Some "invalid_certification"%string
  else if redacted_user_differs u_data ru_data then Some "invalid_data"%string
  else if redacted_device_differs d_data rd_data then Some "invalid_data"%string
  else if bool_decide (is_Some rd_data ∧ ru_data = None) ||
          bool_decide (is_Some ru_data ∧ rd_data = None)
  then Some "invalid_data"%string
  else None.

(** [api_organization_bootstrap] for the organization of the anonymous client;
    the webhook is not modelled. *)
Definition api_organization_bootstrap (now : DateTime) (org : OrganizationID)
    (msg : OrganizationBootstrapReq) : backendM (reply unit) :=
  match load_bootstrap msg with
  | Err _ => mret (RepError "invalid_certification")
  | Ok (u_data, d_data, ru_data, rd_data) =>
      match check_bootstrap now u_data d_data ru_data rd_data with
      | Some status => mret (RepError status)
      | None =>
          let user := user_of_certificate u_data (ob_user_certificate msg)
            (default (ob_user_certificate msg) (ob_redacted_user_certificate msg)) in
          let first_device := device_of_certificate d_data (ob_device_certificate msg)
            (default (ob_device_certificate msg) (ob_redacted_device_certificate msg)) in
          reply_of (organization_bootstrap org user first_device (ob_bootstrap_token msg)
                      (ob_root_verify_key msg))
            (λ e, match e with
                  | OrganizationAlreadyBootstrappedError => Some "already_bootstrapped"%string
                  | OrganizationNotFoundError | OrganizationInvalidBootstrapTokenError =>
                      Some "not_found"%string
                  | _ => None
                  end) id
      end
  end.
End api.

(** ** What the operations do to the state *)

Lemma organization_create_inv org token date s s' r :
  organization_create org token date s = (s', r) →
  (s' = s ∧ r = Err OrganizationAlreadyExistsError) ∨
  (r = Ok tt ∧ (∀ o, be_organizations s !! org = Some o → o_root_verify_key o = None) ∧
   s' = set_organizations <[org := mkOrganization org token date None]> s).
Proof.
  intros H. unfold organization_create, set_organization in H. minv_all; [|by left]. right.
  split_and!; [done| |done]. intros o Ho. rewrite Ho in Hc.
  by apply bool_decide_eq_false, eq_None_not_Some in Hc.
Qed.

Lemma organization_get_inv org s s' r :
  organization_get org s = (s', r) →
  s' = s ∧ r = match be_organizations s !! org with
               | Some o => Ok o
               | None => Err OrganizationNotFoundError
               end.
Proof. intros H. unfold organization_get in H. minv_all; by rewrite Hc. Qed.

Lemma set_expiration_date_inv org date s s' r :
  set_expiration_date org date s = (s', r) →
  (s' = s ∧ r = Err OrganizationNotFoundError) ∨
  (r = Ok tt ∧ ∃ o, be_organizations s !! org = Some o ∧
   s' = set_organizations <[org := mkOrganization (o_organization_id o) (o_bootstrap_token o)
          date (o_root_verify_key o)]> s).
Proof.
  intros H. unfold set_expiration_date, set_organization in H. minv_all; [|by left].
  right. split; [done|]. eexists; split; [done|done].
Qed.

Lemma organization_stats_state org s s' r : organization_stats org s = (s', r) → s' = s.
Proof.
  intros H. unfold organization_stats in H. minv H; apply organization_get_inv in Hrun as [-> _]; [|done].
  by minv_all.
Qed.

Lemma organization_bootstrap_inv org user d token key s s' r :
  organization_bootstrap org user d token key s = (s', r) →
  (s' = s ∧ ∃ e, r = Err e ∧ e ∈ [OrganizationNotFoundError; OrganizationAlreadyBootstrappedError;
     OrganizationInvalidBootstrapTokenError; OrganizationFirstUserCreationError] ∧
     (e = OrganizationFirstUserCreationError →
      (∃ o, be_organizations s !! org = Some o ∧ o_root_verify_key o = None) ∧
      mem_users (orgstore s org) (u_user_id user) ||
      mem_handle (orgstore s org) (u_human_handle user) = true)) ∨
  (r = Ok tt ∧ ∃ o s1, be_organizations s !! org = Some o ∧ o_root_verify_key o = None ∧
   o_bootstrap_token o = token ∧ create_user org user d s = (s1, Ok tt) ∧
   s' = set_organizations <[o_organization_id o := mkOrganization (o_organization_id o)
          (o_bootstrap_token o) (o_expiration_date o) (Some key)]> s1).
Proof.
  intros H. unfold organization_bootstrap, set_organization in H.
  minv H; apply organization_get_inv in Hrun as [-> Ho].
  2: { left. split; [done|]. eexists; split_and!; [done| |];
       destruct (be_organizations s !! org); [done|set_solver|done|naive_solver]. }
  destruct (be_organizations s !! org) as [o|] eqn:Horg; [|done]. injection Ho as ->.
  minv H; [|left; split; [done|]; eexists; split_and!; [done|set_solver|by intros]].
  apply bool_decide_eq_false, eq_None_not_Some in Hc.
  minv H; [|left; split; [done|]; eexists; split_and!; [done|set_solver|by intros]].
  apply bool_decide_eq_false, dec_stable in Hc0.
  minv H; apply try_catch_inv in Hrun as [([] & Hcr & Heq)|(e & s1 & Hcr & Hrun)]; try done.
  - minv H. right. split; [done|]. by eexists o, _.
  - minv_base Hrun. pose proof (create_user_inv _ _ _ _ _ _ Hcr) as Hu. cbn zeta in Hu.
    destruct (mem_users _ _ || _) eqn:E; [|by destruct Hu].
    destruct Hu as [-> [= ->]]. left. split; [done|]. eexists. split_and!; [done|cbn; set_solver|].
    intros _. split; [by eauto|done].
Qed.
