(* ===== verification/BackendSystem.v ===== *)
(** The server as a transition system: its handlers are its steps, and its
    invariant holds in all the states it reaches. *)

From S2P Require Import Prelude Types Backend Certif BackendUser BackendMessage BackendVlob.
From S2P Require Import BackendVlobProofs BackendRealm BlockStore BackendBlock BackendOrganization.

(** ** Steps *)

(** The handshake finds the user and the device of a client, and gives it the
    profile of its user. *)
Definition ctx_ok (s : Backend) (ctx : ClientCtx) : Prop :=
  ∃ user, os_users (orgstore s (cc_organization_id ctx)) !! cc_user_id ctx = Some user ∧
          u_profile user = cc_profile ctx ∧
          is_Some (find_device (orgstore s (cc_organization_id ctx)) (cc_device_id ctx)).

(** One handler runs to its end; the handlers that are not here read the state
    only. *)
Inductive backend_step `{CertifApi} (s s' : Backend) : Prop :=
| StepUserCreate now ctx msg r :
    ctx_ok s ctx → api_user_create now ctx msg s = (s', r) → backend_step s s'
| StepUserRevoke now ctx certificate r :
    ctx_ok s ctx → api_user_revoke now ctx certificate s = (s', r) → backend_step s s'
| StepDeviceCreate now ctx msg r :
    ctx_ok s ctx → api_device_create now ctx msg s = (s', r) → backend_step s s'
| StepInvitation :
    only_invitations s s' → backend_step s s'
| StepRealmCreate now ctx certificate r :
    ctx_ok s ctx → api_realm_create now ctx certificate s = (s', r) → backend_step s s'
| StepRealmUpdateRoles now ctx certificate message r :
    ctx_ok s ctx → api_realm_update_roles now ctx certificate message s = (s', r) →
    backend_step s s'
| StepRealmStart now now' ctx realm_id rev ts msgs r :
    ctx_ok s ctx →
    api_realm_start_reencryption_maintenance now now' ctx realm_id rev ts msgs s = (s', r) →
    backend_step s s'
| StepRealmFinish ctx realm_id rev r :
    ctx_ok s ctx → api_realm_finish_reencryption_maintenance ctx realm_id rev s = (s', r) →
    backend_step s s'
| StepVlobCreate now ctx realm_id rev vlob_id ts blob r :
    ctx_ok s ctx → api_vlob_create now ctx realm_id rev vlob_id ts blob s = (s', r) →
    backend_step s s'
| StepVlobUpdate now ctx rev vlob_id version ts blob r :
    ctx_ok s ctx → api_vlob_update now ctx rev vlob_id version ts blob s = (s', r) →
    backend_step s s'
| StepVlobSaveBatch ctx realm_id rev batch r :
    ctx_ok s ctx →
    api_vlob_maintenance_save_reencryption_batch ctx realm_id rev batch s = (s', r) →
    backend_step s s'
| StepBlockCreate ctx block_id realm_id block r :
    ctx_ok s ctx → api_block_create ctx block_id realm_id block s = (s', r) → backend_step s s'
| StepOrganizationCreate token org date r :
    api_organization_create token org date s = (s', r) → backend_step s s'
| StepOrganizationUpdate org date r :
    api_organization_update org date s = (s', r) → backend_step s s'
| StepOrganizationBootstrap now org msg r :
    api_organization_bootstrap now org msg s = (s', r) → backend_step s s'.

(** The states that the server reaches from its start. *)
Definition reachable `{CertifApi} : Backend → Prop := rtc backend_step empty_backend.

(** ** What the handlers do to the state *)

Section handlers.
Context `{CertifApi}.

(** The authors of the certificates that a handler loads. *)
Lemma verify_device_author c key ea d : verify_device_certificate c key ea = Ok d → dc_author d = ea.
Proof. by intros (_ & _ & _ & ? & _)%verify_and_load_Ok. Qed.
Lemma verify_user_author c key ea u : verify_user_certificate c key ea = Ok u → uc_author u = ea.
Proof. by intros (_ & _ & _ & ? & _)%verify_and_load_Ok. Qed.
Lemma load_user_create_authors ctx msg d_data u_data ru_data rd_data :
  load_user_create ctx msg = Ok (d_data, u_data, ru_data, rd_data) →
  dc_author d_data = Some (cc_device_id ctx) ∧ uc_author u_data = Some (cc_device_id ctx).
Proof.
  intros (d & Hd%verify_device_author & (u & Hu%verify_user_author & (ru & _ & (rd & _ & [= <- <- _ _])%result_bind_Ok)%result_bind_Ok)%result_bind_Ok)%result_bind_Ok.
  done.
Qed.
Lemma load_device_create_author ctx msg data rd :
  load_device_create ctx msg = Ok (data, rd) → dc_author data = Some (cc_device_id ctx).
Proof.
  intros (d & Hd%verify_device_author & H')%result_bind_Ok.
  destruct (dq_redacted_device_certificate msg); [by injection H' as <- _|].
  by apply result_bind_Ok in H' as (rd' & _ & [= <- _]).
Qed.
Lemma load_bootstrap_authors msg u_data d_data ru_data rd_data :
  load_bootstrap msg = Ok (u_data, d_data, ru_data, rd_data) →
  uc_author u_data = None ∧ dc_author d_data = None.
Proof.
  intros (u & Hu%verify_user_author & (d & Hd%verify_device_author & (ru & _ & (rd & _ & [= <- <- _ _])%result_bind_Ok)%result_bind_Ok)%result_bind_Ok)%result_bind_Ok.
  done.
Qed.

(** A handler refuses and changes nothing, or runs its component. *)
Lemma api_user_create_runs now ctx msg s s' r :
  api_user_create now ctx msg s = (s', r) →
  s' = s ∨ ∃ user d r', create_user (cc_organization_id ctx) user d s = (s', r') ∧
    u_revoked_on user = None ∧ d_user_id d = u_user_id user ∧
    u_user_certifier user = Some (cc_device_id ctx) ∧ u_revoked_user_certifier user = None ∧
    d_device_certifier d = Some (cc_device_id ctx).
Proof.
  unfold api_user_create, api_user_create_body. case_bool_decide; [by intros [= <- _]; left|].
  destruct (load_user_create ctx msg) as [[[[d_data u_data] ru_data] rd_data]|e] eqn:Hl;
    [|by intros [= <- _]; left].
  apply load_user_create_authors in Hl as [Hd Hu].
  destruct (check_user_create now d_data u_data ru_data rd_data) eqn:Hc; [by intros [= <- _]; left|].
  intros (r' & H' & _)%reply_of_inv. right. eexists _, _, r'. split_and!; try done.
  apply check_user_create_None in Hc as (_ & _ & Hid & _). by cbn.
Qed.
Lemma api_user_revoke_runs now ctx certificate s s' r :
  api_user_revoke now ctx certificate s = (s', r) →
  s' = s ∨ ∃ u on r',
    revoke_user (cc_organization_id ctx) u certificate (cc_device_id ctx) on now s = (s', r').
Proof.
  unfold api_user_revoke. case_bool_decide; [by intros [= <- _]; left|].
  destruct (verify_revoked_user_certificate _ _ _) as [data|] eqn:E; [|by intros [= <- _]; left].
  apply verify_and_load_Ok in E as (raw & _ & _ & [= Ha] & _).
  destruct (negb _); [by intros [= <- _]; left|].
  case_bool_decide; [by intros [= <- _]; left|].
  intros (r' & H' & _)%reply_of_inv. rewrite Ha in H'. eauto 10.
Qed.
Lemma api_device_create_runs now ctx msg s s' r :
  api_device_create now ctx msg s = (s', r) →
  s' = s ∨ ∃ d r', create_device (cc_organization_id ctx) d s = (s', r') ∧
    d_device_certifier d = Some (cc_device_id ctx).
Proof.
  unfold api_device_create.
  destruct (load_device_create ctx msg) as [[data rd]|] eqn:Hl; [|by intros [= <- _]; left].
  apply load_device_create_author in Hl.
  destruct (check_device_create now ctx data rd); [by intros [= <- _]; left|].
  intros (r' & H' & _)%reply_of_inv. right. by eexists _, r'.
Qed.
Lemma api_realm_create_runs now ctx certificate s s' r :
  api_realm_create now ctx certificate s = (s', r) →
  s' = s ∨ ∃ x r', realm_create (cc_organization_id ctx) x s = (s', r') ∧
    cc_profile ctx ≠ OUTSIDER ∧ gr_granted_by x = cc_device_id ctx.
Proof.
  unfold api_realm_create. case_bool_decide; [by intros [= <- _]; left|].
  destruct (verify_realm_role_certificate _ _ _) as [data|] eqn:E; [|by intros [= <- _]; left].
  destruct (negb _); [by intros [= <- _]; left|].
  case_bool_decide; [by intros [= <- _]; left|]. case_bool_decide; [by intros [= <- _]; left|].
  intros (r' & H' & _)%reply_of_inv. right. eexists _, r'. split_and!; [done|done|].
  apply verify_and_load_Ok in E as (raw & _ & _ & [= Ha] & _). by cbn.
Qed.
Lemma api_realm_update_roles_runs now ctx certificate message s s' r :
  api_realm_update_roles now ctx certificate message s = (s', r) →
  s' = s ∨ ∃ x r', update_roles (cc_organization_id ctx) x message s = (s', r') ∧
    user_id (gr_granted_by x) ≠ gr_user_id x.
Proof.
  unfold api_realm_update_roles.
  destruct (verify_realm_role_certificate _ _ _) as [data|] eqn:E; [|by intros [= <- _]; left].
  destruct (negb _); [by intros [= <- _]; left|].
  case_bool_decide; [by intros [= <- _]; left|].
  intros (r' & H' & _)%reply_of_inv. right. by eexists _, r'.
Qed.
Lemma api_organization_bootstrap_runs now org msg s s' r :
  api_organization_bootstrap now org msg s = (s', r) →
  s' = s ∨ ∃ user d token key r', organization_bootstrap org user d token key s = (s', r') ∧
    u_revoked_on user = None ∧ d_user_id d = u_user_id user ∧
    u_user_certifier user = None ∧ u_revoked_user_certifier user = None ∧
    d_device_certifier d = None.
Proof.
  unfold api_organization_bootstrap.
  destruct (load_bootstrap msg) as [[[[u_data d_data] ru_data] rd_data]|] eqn:Hl;
    [|by intros [= <- _]; left].
  apply load_bootstrap_authors in Hl as [Hu Hd].
  destruct (check_bootstrap now u_data d_data ru_data rd_data) eqn:Hc; [by intros [= <- _]; left|].
  intros (r' & H' & _)%reply_of_inv. right. eexists _, _, _, _, r'. split_and!; try done.
  unfold check_bootstrap in Hc. case_bool_decide; [done|]. case_bool_decide; [done|].
  case_bool_decide as E; [done|]. by cbn.
Qed.
End handlers.

(** ** The invariant *)

(** Users exist in bootstrapped organizations only. *)
Record orgs_ok (s : Backend) : Prop := {
  og_id org o : be_organizations s !! org = Some o → o_organization_id o = org;
  og_bootstrapped org u : is_Some (os_users (orgstore s org) !! u) →
    ∃ o key, be_organizations s !! org = Some o ∧ o_root_verify_key o = Some key }.

(** The blocks and what is known of them go together. *)
Record blocks_ok (s : Backend) : Prop := {
  bk_meta k meta : be_blockmetas s !! k = Some meta →
    ∃ block, be_blocks s !! k = Some block ∧ bm_size meta = Z.of_nat (length block) ∧
             is_Some (be_realms s !! (k.1, bm_realm_id meta));
  bk_block k : is_Some (be_blocks s !! k) → is_Some (be_blockmetas s !! k) }.

Record backend_ok (s : Backend) : Prop := {
  bo_users : all_users_ok s;
  bo_vlobs : vlobs_ok s;
  bo_roles : roles_ok s;
  bo_orgs : orgs_ok s;
  bo_blocks : blocks_ok s }.

Lemma backend_ok_empty : backend_ok empty_backend.
Proof.
  assert (∀ org realm_id, changes_of empty_backend org realm_id = empty_changes) as Hch by done.
  split.
  - intros org. apply users_ok_empty.
  - split; cbn; try done; intros; rewrite ?Hch in *; cbn in *; try done. constructor.
  - split; cbn; intros *; by rewrite lookup_empty.
  - split; cbn; intros *; [by rewrite lookup_empty|]. by intros [? ?].
  - split; cbn; intros *; [by rewrite lookup_empty|]. by intros [? ?].
Qed.

(** The users stay, with their profiles. *)
Definition users_kept (s s' : Backend) : Prop :=
  ∀ org u user, os_users (orgstore s org) !! u = Some user →
    ∃ user', os_users (orgstore s' org) !! u = Some user' ∧ u_profile user' = u_profile user.
Lemma users_kept_refl s s' : be_orgstores s' = be_orgstores s → users_kept s s'.
Proof. intros E org u user Hu. exists user. unfold orgstore in *. by rewrite E. Qed.

Lemma roles_ok_frame s s' :
  users_kept s s' → be_realms s' = be_realms s → roles_ok s → roles_ok s'.
Proof.
  intros Hu Hr [H1 H2]. split; intros org realm_id r; rewrite Hr; [apply H1|].
  intros x Hreal Hx. destruct (H2 _ _ _ _ Hreal Hx) as (user & Huser & Hp).
  apply Hu in Huser as (user' & ? & E). exists user'. split; [done|]. by rewrite E.
Qed.
Lemma orgs_ok_frame s s' :
  be_orgstores s' = be_orgstores s → be_organizations s' = be_organizations s →
  orgs_ok s → orgs_ok s'.
Proof. intros E1 E2 [H1 H2]. split; unfold orgstore in *; rewrite ?E1, ?E2; auto. Qed.
Lemma blocks_ok_frame s s' :
  be_blockmetas s' = be_blockmetas s → be_blocks s' = be_blocks s →
  (∀ k, is_Some (be_realms s !! k) → is_Some (be_realms s' !! k)) → blocks_ok s → blocks_ok s'.
Proof.
  intros E1 E2 Hr [H1 H2]. split; rewrite ?E1, ?E2; [|done].
  intros k meta (block & ? & ? & ?)%H1. eauto.
Qed.
Lemma all_users_ok_frame s s' : be_orgstores s' = be_orgstores s → all_users_ok s → all_users_ok s'.
Proof. intros E H org. unfold orgstore. rewrite E. apply H. Qed.

(** A step that changes the vlobs, the changes, the messages and the events
    only. *)
Lemma backend_ok_vlobs s s' :
  backend_ok s → vlobs_ok s' →
  s' = mkBackend (be_orgstores s) (be_messages s') (be_realms s) (be_vlobs s') (be_changes s')
         (be_blockmetas s) (be_blocks s) (be_organizations s) (be_events s') →
  backend_ok s'.
Proof.
  intros [H1 H2 H3 H4 H5] Hv E. split; [|done|..]; rewrite E.
  - by eapply all_users_ok_frame, H1.
  - by eapply roles_ok_frame, H3; [apply users_kept_refl|].
  - by eapply orgs_ok_frame, H4.
  - by eapply blocks_ok_frame, H5.
Qed.

(** A step that changes the users and the organizations only. *)
Lemma backend_ok_users s s' :
  backend_ok s → all_users_ok s' → users_kept s s' → orgs_ok s' →
  be_realms s' = be_realms s → be_vlobs s' = be_vlobs s → be_changes s' = be_changes s →
  be_blockmetas s' = be_blockmetas s → be_blocks s' = be_blocks s →
  backend_ok s'.
Proof.
  intros [H1 H2 H3 H4 H5] Hu Hk Ho E1 E2 E3 E4 E5. split; [done| | |done|].
  - eapply vlobs_ok_frame, H2; [done|done|]. by rewrite E1.
  - by eapply roles_ok_frame, H3.
  - eapply blocks_ok_frame, H5; [done|done|]. by rewrite E1.
Qed.

Lemma users_kept_set s s' org o :
  (∀ org', orgstore s' org' = if decide (org' = org) then o else orgstore s org') →
  (∀ u user, os_users (orgstore s org) !! u = Some user →
     ∃ user', os_users o !! u = Some user' ∧ u_profile user' = u_profile user) →
  users_kept s s'.
Proof.
  intros Ho H org' u user Hu. rewrite Ho. case_decide as E; [subst; auto|eauto].
Qed.
Lemma orgstore_set_case s org o org' :
  orgstore (set_orgstores <[org := o]> s) org' = if decide (org' = org) then o else orgstore s org'.
Proof. case_decide; subst; [apply orgstore_set|by apply orgstore_set_ne]. Qed.

Lemma create_user_kept org user d s s' r :
  create_user org user d s = (s', r) → users_kept s s'.
Proof.
  intros H. apply create_user_inv in H. cbn zeta in H.
  destruct (mem_users _ _ || _) eqn:E; [destruct H as [-> _]; by apply users_kept_refl|].
  destruct H as [_ ->]. apply orb_false_iff in E as [Hm _].
  apply bool_decide_eq_false, eq_None_not_Some in Hm.
  eapply users_kept_set; [intros; apply orgstore_set_case|].
  intros u user' Hu. cbn. destruct (decide (u = u_user_id user)) as [->|]; [congruence|].
  rewrite lookup_insert_ne by done. eauto.
Qed.
Lemma revoke_user_kept org u certificate certifier on now s s' r :
  revoke_user org u certificate certifier on now s = (s', r) →
  users_kept s s' ∧ (∀ org' u', is_Some (os_users (orgstore s' org') !! u') →
                                is_Some (os_users (orgstore s org') !! u')) ∧
  s' = mkBackend (be_orgstores s') (be_messages s) (be_realms s) (be_vlobs s) (be_changes s)
         (be_blockmetas s) (be_blocks s) (be_organizations s) (be_events s').
Proof.
  intros H. apply revoke_user_inv in H. cbn zeta in H.
  destruct H as [[-> _]|(user & Hu & _ & H)];
    [split_and!; [by apply users_kept_refl|done|by destruct s]|].
  set (user' := user_evolve_revoked user (default now on) certificate certifier) in *.
  assert (∃ o, os_users o = os_users (set_user_at u user' (orgstore s org)) ∧
    (∀ org', orgstore s' org' = if decide (org' = org) then o else orgstore s org') ∧
    s' = mkBackend (be_orgstores s') (be_messages s) (be_realms s) (be_vlobs s) (be_changes s)
           (be_blockmetas s) (be_blocks s) (be_organizations s) (be_events s')) as (o & Ho & Hs & Heq).
  { destruct (match u_human_handle user with Some _ => _ | None => _ end);
      destruct H as [_ ->]; eexists; (split; [|split; [intros; apply orgstore_set_case|done]]); done. }
  split_and!; [| |done].
  - eapply users_kept_set; [done|]. intros u2 user2 Hu2. rewrite Ho. cbn.
    destruct (decide (u2 = u)) as [->|].
    + rewrite lookup_insert_eq. exists user'. split; [done|]. by simplify_eq.
    + rewrite lookup_insert_ne by done. eauto.
  - intros org' u'. rewrite Hs. case_decide as E; [|done]. subst org'. rewrite Ho. cbn.
    destruct (decide (u' = u)) as [->|]; [by eauto|]. by rewrite lookup_insert_ne.
Qed.

Lemma create_user_backend org user d s s' r :
  backend_ok s → u_revoked_on user = None → d_user_id d = u_user_id user →
  (∃ o key, be_organizations s !! org = Some o ∧ o_root_verify_key o = Some key) →
  create_user org user d s = (s', r) → backend_ok s'.
Proof.
  intros Hs Hr Hd Horg H.
  pose proof (create_user_ok _ _ _ _ _ _ (bo_users _ Hs) Hr Hd H) as Hu.
  pose proof (create_user_kept _ _ _ _ _ _ H) as Hk.
  apply create_user_inv in H. cbn zeta in H.
  destruct (mem_users _ _ || _) eqn:E; [by destruct H as [-> _]|]. destruct H as [_ ->].
  eapply backend_ok_users; try done. split; [apply (bo_orgs _ Hs)|].
  intros org' u. rewrite orgstore_add_event, orgstore_set_case. cbn [be_organizations add_event].
  case_decide as E2; [by subst|]. apply (bo_orgs _ Hs).
Qed.

Lemma ctx_bootstrapped s ctx :
  backend_ok s → ctx_ok s ctx →
  ∃ o key, be_organizations s !! cc_organization_id ctx = Some o ∧ o_root_verify_key o = Some key.
Proof. intros Hs (user & Hu & _). eapply og_bootstrapped; [apply Hs|eauto]. Qed.

Lemma revoke_user_backend org u certificate certifier on now s s' r :
  backend_ok s → revoke_user org u certificate certifier on now s = (s', r) → backend_ok s'.
Proof.
  intros Hs H. destruct (revoke_user_ok _ _ _ _ _ _ _ _ _ (bo_users _ Hs) H) as [Hu _].
  apply revoke_user_kept in H as (Hk & Hback & E).
  eapply backend_ok_users; try done; [|by rewrite E..]. rewrite E in Hback |- *.
  split; [apply (bo_orgs _ Hs)|]. intros org' u' Hu'. apply Hback in Hu'. by apply (bo_orgs _ Hs) in Hu'.
Qed.

Lemma create_device_backend org d s s' r :
  backend_ok s → create_device org d s = (s', r) → backend_ok s'.
Proof.
  intros Hs H. pose proof (create_device_ok _ _ _ _ _ (bo_users _ Hs) H) as Hu.
  apply create_device_inv in H as [[-> _]|(_ & Hm & _ & ->)]; [done|].
  eapply backend_ok_users; try done.
  - eapply users_kept_set; [intros; apply orgstore_set_case|]. cbn. eauto.
  - split; [apply (bo_orgs _ Hs)|]. intros org' u. rewrite orgstore_set_case.
    case_decide as E; [|apply (bo_orgs _ Hs)]. subst. cbn. apply (bo_orgs _ Hs).
Qed.

Lemma only_invitations_backend s s' : backend_ok s → only_invitations s s' → backend_ok s'.
Proof.
  intros Hs H. pose proof (only_invitations_ok _ _ H (bo_users _ Hs)) as Hu. destruct H as [Hsame E].
  eapply backend_ok_users; try done; [| |by rewrite E..].
  - intros org u user. destruct (Hsame org) as (_ & -> & _). eauto.
  - split; [rewrite E; apply (bo_orgs _ Hs)|]. intros org u. destruct (Hsame org) as (_ & -> & _).
    rewrite E. apply (bo_orgs _ Hs).
Qed.

(** A step that changes one realm, the messages and the events. *)
Lemma backend_ok_realm s s' org realm_id realm :
  backend_ok s →
  same_but_messages (set_realms <[(org, realm_id) := realm]> s) s' →
  vlobs_ok s' → (∃ u, role_of realm u = Some OWNER) →
  (∀ x, x ∈ r_granted_roles realm → ∃ user,
     os_users (orgstore s org) !! gr_user_id x = Some user ∧
     (u_profile user = OUTSIDER → gr_role x ≠ Some MANAGER ∧ gr_role x ≠ Some OWNER)) →
  backend_ok s'.
Proof.
  intros [H1 H2 H3 H4 H5] E Hv Ho Hx. split; [|done|..]; rewrite E.
  - by eapply all_users_ok_frame, H1.
  - split; cbn; intros org' realm_id' r.
    + destruct (decide ((org', realm_id') = (org, realm_id))) as [[= -> ->]|].
      * rewrite lookup_insert_eq. by intros [= <-].
      * rewrite lookup_insert_ne by done. apply H3.
    + intros x. destruct (decide ((org', realm_id') = (org, realm_id))) as [[= -> ->]|].
      * rewrite lookup_insert_eq. intros [= <-]. apply Hx.
      * rewrite lookup_insert_ne by done. apply H3.
  - by eapply orgs_ok_frame, H4.
  - eapply blocks_ok_frame, H5; [done|done|]. intros k [r Hr]. cbn.
    destruct (decide (k = (org, realm_id))) as [->|].
    + rewrite lookup_insert_eq. eauto.
    + rewrite lookup_insert_ne by done. eauto.
Qed.

Lemma realm_create_backend ctx x s s' r :
  backend_ok s → ctx_ok s ctx → cc_profile ctx ≠ OUTSIDER → gr_granted_by x = cc_device_id ctx →
  realm_create (cc_organization_id ctx) x s = (s', r) → backend_ok s'.
Proof.
  intros Hs (user & Hu & Hp & _) Hout Hby H.
  apply realm_create_inv in H as [[-> _]|(_ & Hself & Hrole & Hn & ->)]; [done|].
  set (org := cc_organization_id ctx) in *. set (realm_id := gr_realm_id x) in *.
  eapply (backend_ok_realm s _ org realm_id (new_realm [x])); [done|done| | |].
  - destruct (bo_vlobs _ Hs) as [H1 H2 H3 H4 H5 H6 H8 H7].
    split; try done; cbn.
    + intros org' id v Hv. apply H3 in Hv as [r' Hr'].
      destruct (decide ((org', v_realm_id v) = (org, realm_id))) as [->|].
      * rewrite lookup_insert_eq. eauto.
      * rewrite lookup_insert_ne by done. eauto.
    + intros org' realm_id'. specialize (H7 org' realm_id').
      change (changes_of _ org' realm_id') with (changes_of s org' realm_id').
      destruct (ch_reencryption (changes_of s org' realm_id')) as [re|].
      * destruct H7 as [(r' & Hr' & Hm) Hok]. split; [|done]. exists r'. split; [|done].
        rewrite lookup_insert_ne; [done|]. intros [= <- <-]. congruence.
      * intros r'. destruct (decide ((org', realm_id') = (org, realm_id))) as [->|].
        -- rewrite lookup_insert_eq. by intros [= <-].
        -- rewrite lookup_insert_ne by done. apply H7.
  - exists (gr_user_id x). rewrite role_of_eq. cbn. unfold user_role. by rewrite decide_True.
  - intros y Hy. cbn in Hy. apply list_elem_of_singleton in Hy as ->. exists user.
    rewrite <-Hself, Hby. split; [done|]. intros. congruence.
Qed.

Lemma update_roles_backend org x message s s' r :
  backend_ok s → user_id (gr_granted_by x) ≠ gr_user_id x →
  update_roles org x message s = (s', r) → backend_ok s'.
Proof.
  intros Hs Hne H. apply update_roles_inv in H as
    [[-> _]|(_ & user & realm & Hu & Hp & Hr & Hm & Hgrant & _ & Hsame)]; [done| |done].
  eapply backend_ok_realm; [done|exact Hsame| | |].
  - rewrite Hsame. eapply vlobs_ok_frame, (bo_vlobs _ Hs); [done|done|].
    intros k. cbn. destruct (decide (k = (org, gr_realm_id x))) as [->|].
    + by rewrite lookup_insert_eq, Hr.
    + by rewrite lookup_insert_ne.
  - destruct Hgrant as (role & Hrole & Hin). unfold needed_roles in Hin.
    destruct (rk_owned _ (bo_roles _ Hs) _ _ _ Hr) as [u Howner].
    destruct (role_in (role_of realm (gr_user_id x)) owner_or_manager || _) eqn:E.
    + exists (user_id (gr_granted_by x)). rewrite role_of_grant_other by done.
      unfold owner_only in Hin. set_solver.
    + exists u. rewrite role_of_grant_other; [done|]. intros Hu'. rewrite Hu', Howner in E. done.
  - intros y [Hy| ->%list_elem_of_singleton]%elem_of_app; [|by eauto].
    by eapply (rk_users _ (bo_roles _ Hs)).
Qed.

Lemma with_status_backend s s' org realm_id realm status :
  backend_ok s → be_realms s !! (org, realm_id) = Some realm → vlobs_ok s' →
  s' = mkBackend (be_orgstores s) (be_messages s')
         (<[(org, realm_id) := r_with_status realm status]> (be_realms s)) (be_vlobs s')
         (be_changes s') (be_blockmetas s) (be_blocks s) (be_organizations s) (be_events s') →
  backend_ok s'.
Proof.
  intros Hs Hr Hv E.
  destruct Hs as [H1 H2 H3 H4 H5]. split; [|done|..]; rewrite E.
  - by eapply all_users_ok_frame, H1.
  - split; cbn; intros org' realm_id' r.
    + destruct (decide ((org', realm_id') = (org, realm_id))) as [[= -> ->]|].
      * rewrite lookup_insert_eq. intros [= <-]. destruct (rk_owned _ H3 _ _ _ Hr) as [u Ho]. by exists u.
      * rewrite lookup_insert_ne by done. apply H3.
    + intros x. destruct (decide ((org', realm_id') = (org, realm_id))) as [[= -> ->]|].
      * rewrite lookup_insert_eq. intros [= <-]. exact (rk_users _ H3 _ _ _ x Hr).
      * rewrite lookup_insert_ne by done. apply H3.
  - by eapply orgs_ok_frame, H4.
  - eapply blocks_ok_frame, H5; [done|done|]. intros k [r Hr']. cbn.
    destruct (decide (k = (org, realm_id))) as [->|].
    + rewrite lookup_insert_eq. eauto.
    + rewrite lookup_insert_ne by done. eauto.
Qed.

Lemma start_backend org author realm_id rev msgs ts now s s' r :
  backend_ok s →
  start_reencryption_maintenance org author realm_id rev msgs ts now s = (s', r) → backend_ok s'.
Proof.
  intros Hs H. apply start_inv in H
    as [[-> _]|(_ & realm & Hr & _ & _ & _ & _ & Hv & E)]; [done| |apply Hs|apply Hs].
  eapply with_status_backend; [done|exact Hr|done|]. unfold same_but_messages in E.
  rewrite E. done.
Qed.
Lemma finish_backend org author realm_id rev s s' r :
  backend_ok s → finish_reencryption_maintenance org author realm_id rev s = (s', r) →
  backend_ok s'.
Proof.
  intros Hs H. pose proof (finish_vlobs_ok _ _ _ _ _ _ _ (bo_vlobs _ Hs) H) as Hv.
  apply finish_inv in H
    as [[-> _]|(_ & realm & re & Hr & _ & _ & _ & _ & _ & _ & E & _)]; [done| |apply Hs].
  eapply with_status_backend; [done|exact Hr|done|]. rewrite E. done.
Qed.

Lemma vlob_create_backend org author realm_id rev vlob_id ts blob s s' r :
  backend_ok s → vlob_create org author realm_id rev vlob_id ts blob s = (s', r) → backend_ok s'.
Proof.
  intros Hs H. eapply backend_ok_vlobs; [done|by eapply vlob_create_ok, H; apply Hs|].
  apply vlob_create_inv in H as [[-> _]|(_ & _ & _ & ->)]; [by destruct s|done].
Qed.
Lemma vlob_update_backend org author rev vlob_id version ts blob s s' r :
  backend_ok s → vlob_update org author rev vlob_id version ts blob s = (s', r) → backend_ok s'.
Proof.
  intros Hs H. eapply backend_ok_vlobs; [done|by eapply vlob_update_ok, H; apply Hs|].
  apply vlob_update_inv in H as [[-> _]|(_ & v & _ & _ & _ & _ & ->)]; [by destruct s|done].
Qed.
Lemma save_batch_backend org author realm_id rev batch s s' r :
  backend_ok s → maintenance_save_reencryption_batch org author realm_id rev batch s = (s', r) →
  backend_ok s'.
Proof.
  intros Hs H. eapply backend_ok_vlobs; [done|by eapply save_reencryption_batch_ok, H; apply Hs|].
  apply save_reencryption_batch_inv in H as [[-> _]|(_ & ? & ? & _ & _ & ->)]; [by destruct s|done].
Qed.

Lemma create_block_backend org author block_id realm_id block s s' r :
  backend_ok s → create_block org author block_id realm_id block s = (s', r) → backend_ok s'.
Proof.
  intros [H1 H2 H3 H4 [H5 H6]] H.
  apply create_block_inv in H as [[-> _]|(_ & (realm & role & Hr & _) & Hn & ->)]; [by split|].
  split.
  - by eapply all_users_ok_frame, H1.
  - by eapply vlobs_ok_frame, H2.
  - by eapply roles_ok_frame, H3; [apply users_kept_refl|].
  - by eapply orgs_ok_frame, H4.
  - split; cbn; intros k.
    + intros meta. destruct (decide (k = (org, block_id))) as [->|].
      * rewrite !lookup_insert_eq. intros [= <-]. eauto.
      * rewrite !lookup_insert_ne by done. apply H5.
    + destruct (decide (k = (org, block_id))) as [->|].
      * rewrite !lookup_insert_eq. eauto.
      * rewrite !lookup_insert_ne by done. apply H6.
Qed.

(** A step that changes one organization only, and does not forget that it was
    bootstrapped. *)
Lemma backend_ok_org s org o :
  backend_ok s → o_organization_id o = org →
  (∀ o0 key, be_organizations s !! org = Some o0 → o_root_verify_key o0 = Some key →
     ∃ key, o_root_verify_key o = Some key) →
  backend_ok (set_organizations <[org := o]> s).
Proof.
  intros Hs Ho Hkey. eapply backend_ok_users; try done; [apply Hs|by apply users_kept_refl|].
  destruct (bo_orgs _ Hs) as [H1 H2]. split; cbn; intros org'.
  - intros o'. destruct (decide (org' = org)) as [->|].
    + rewrite lookup_insert_eq. by intros [= <-].
    + rewrite lookup_insert_ne by done. apply H1.
  - intros u (o0 & key & Ho0 & Hk)%H2. destruct (decide (org' = org)) as [->|].
    + rewrite lookup_insert_eq. destruct (Hkey _ _ Ho0 Hk) as [key' ?]. eauto.
    + rewrite lookup_insert_ne by done. eauto.
Qed.

Lemma organization_create_backend org token date s s' r :
  backend_ok s → organization_create org token date s = (s', r) → backend_ok s'.
Proof.
  intros Hs H. apply organization_create_inv in H as [[-> _]|(_ & Hn & ->)]; [done|].
  apply backend_ok_org; [done|done|]. intros o0 key Ho ?. apply Hn in Ho. congruence.
Qed.
Lemma set_expiration_date_backend org date s s' r :
  backend_ok s → set_expiration_date org date s = (s', r) → backend_ok s'.
Proof.
  intros Hs H. apply set_expiration_date_inv in H as [[-> _]|(_ & o & Ho & ->)]; [done|].
  apply backend_ok_org; [done|exact (og_id _ (bo_orgs _ Hs) _ _ Ho)|]. intros o0 key Ho0 ?. cbn.
  exists key. congruence.
Qed.

(** In an organization that is not bootstrapped there is no user. *)
Lemma not_bootstrapped_empty s org o :
  backend_ok s → be_organizations s !! org = Some o → o_root_verify_key o = None →
  ∀ u h, mem_users (orgstore s org) u || mem_handle (orgstore s org) h = false.
Proof.
  intros Hs Ho Hk u h.
  assert (∀ u, os_users (orgstore s org) !! u = None) as Hno.
  { intros u'. apply eq_None_not_Some. intros Hu.
    apply (og_bootstrapped _ (bo_orgs _ Hs)) in Hu as (? & ? & ? & ?). congruence. }
  apply orb_false_iff. split; [apply bool_decide_eq_false; rewrite Hno; by intros [? ?]|].
  destruct h as [h|]; [|done]. apply bool_decide_eq_false. intros [u' Hu'].
  apply (uo_handles _ (bo_users _ Hs org)) in Hu' as (user & ? & Hu' & _). by rewrite Hno in Hu'.
Qed.

Lemma organization_bootstrap_backend org user d token key s s' r :
  backend_ok s → u_revoked_on user = None → d_user_id d = u_user_id user →
  organization_bootstrap org user d token key s = (s', r) →
  backend_ok s' ∧ r ≠ Err OrganizationFirstUserCreationError.
Proof.
  intros Hs Hr Hd H. apply organization_bootstrap_inv in H
    as [(-> & e & -> & He & Hfirst)|(-> & o & s1 & Ho & Hk & Ht & Hcreate & ->)].
  - split; [done|]. intros [= ->]. destruct Hfirst as [(o & Ho & Hk) Hm]; [done|].
    by rewrite (not_bootstrapped_empty _ _ _ Hs Ho Hk) in Hm.
  - split; [|done]. pose proof (og_id _ (bo_orgs _ Hs) _ _ Ho) as Hid. rewrite Hid.
    pose proof (create_user_inv _ _ _ _ _ _ Hcreate) as Hinv. cbn zeta in Hinv.
    rewrite (not_bootstrapped_empty _ _ _ Hs Ho Hk) in Hinv. destruct Hinv as [_ E].
    set (s2 := set_organizations <[org := mkOrganization org (o_bootstrap_token o)
                 (o_expiration_date o) (Some key)]> s).
    assert (backend_ok s2) as Hs2.
    { apply backend_ok_org; [done|done|]. intros o0 key0 Ho0 ?. congruence. }
    assert (create_user org user d s2 =
      (set_organizations <[org := mkOrganization org (o_bootstrap_token o)
                 (o_expiration_date o) (Some key)]> s1, Ok tt)) as Hcreate2.
    { destruct (create_user org user d s2) as [s3 r3] eqn:E3.
      pose proof (create_user_inv _ _ _ _ _ _ E3) as Hinv. cbn zeta in Hinv.
      change (orgstore s2 org) with (orgstore s org) in Hinv.
      rewrite (not_bootstrapped_empty _ _ _ Hs Ho Hk) in Hinv. destruct Hinv as [-> ->].
      f_equal. rewrite E. done. }
    eapply create_user_backend, Hcreate2; [done|done|done|].
    cbn. rewrite lookup_insert_eq. eauto.
Qed.

Section invariant.
Context `{CertifApi}.

(** Every handler keeps the invariant. *)
Lemma backend_step_ok s s' : backend_ok s → backend_step s s' → backend_ok s'.
Proof.
  intros Hs [now ctx msg r Hctx Hrun|now ctx c r Hctx Hrun|now ctx msg r Hctx Hrun|Hrun
    |now ctx c r Hctx Hrun|now ctx c m r Hctx Hrun|now now' ctx realm_id rev ts msgs r Hctx Hrun
    |ctx realm_id rev r Hctx Hrun|now ctx realm_id rev vlob_id ts blob r Hctx Hrun
    |now ctx rev vlob_id version ts blob r Hctx Hrun|ctx realm_id rev batch r Hctx Hrun
    |ctx block_id realm_id block r Hctx Hrun|token org date r Hrun|org date r Hrun
    |now org msg r Hrun].
  - apply api_user_create_runs in Hrun as [->|(user & d & r' & Hrun & Hr & Hd & _)]; [done|].
    eapply create_user_backend; [done|done|done|by apply ctx_bootstrapped|done].
  - apply api_user_revoke_runs in Hrun as [->|(u & on & r' & Hrun)]; [done|].
    by eapply revoke_user_backend.
  - apply api_device_create_runs in Hrun as [->|(d & r' & Hrun & _)]; [done|].
    by eapply create_device_backend.
  - by eapply only_invitations_backend.
  - apply api_realm_create_runs in Hrun as [->|(x & r' & Hrun & Hp & Hby)]; [done|].
    by eapply realm_create_backend.
  - apply api_realm_update_roles_runs in Hrun as [->|(x & r' & Hrun & Hne)]; [done|].
    by eapply update_roles_backend.
  - unfold api_realm_start_reencryption_maintenance in Hrun.
    destruct (negb _); [by injection Hrun as <- _|].
    apply reply_of_inv in Hrun as (r' & Hrun & _). by eapply start_backend.
  - apply reply_of_inv in Hrun as (r' & Hrun & _). by eapply finish_backend.
  - unfold api_vlob_create in Hrun. destruct (negb _); [by injection Hrun as <- _|].
    apply reply_of_inv in Hrun as (r' & Hrun & _). by eapply vlob_create_backend.
  - unfold api_vlob_update in Hrun. destruct (negb _); [by injection Hrun as <- _|].
    destruct (negb _); [by injection Hrun as <- _|].
    apply reply_of_inv in Hrun as (r' & Hrun & _). by eapply vlob_update_backend.
  - unfold api_vlob_maintenance_save_reencryption_batch in Hrun.
    destruct (negb _); [by injection Hrun as <- _|].
    apply reply_of_inv in Hrun as (r' & Hrun & _). by eapply save_batch_backend.
  - apply reply_of_inv in Hrun as (r' & Hrun & _). by eapply create_block_backend.
  - apply reply_of_inv in Hrun as (r' & Hrun & _). by eapply organization_create_backend.
  - apply reply_of_inv in Hrun as (r' & Hrun & _). by eapply set_expiration_date_backend.
  - apply api_organization_bootstrap_runs in Hrun
      as [->|(user & d & token & key & r' & Hrun & Hr & Hd & _)]; [done|].
    by eapply organization_bootstrap_backend.
Qed.

Lemma reachable_ok s : reachable s → backend_ok s.
Proof.
  unfold reachable. intros Hr.
  assert (∀ s0 s, rtc backend_step s0 s → backend_ok s0 → backend_ok s) as Hind.
  { clear. intros s0 s Hr. induction Hr; eauto using backend_step_ok. }
  eapply Hind; [done|apply backend_ok_empty].
Qed.
End invariant.
