(* ===== verification/BackendVlobSpec.v ===== *)
(** What the vlob API promises: the answer of each handler as a function of the
    state, and the proof that the handlers compute it. *)

From S2P Require Import Prelude Types Backend Certif BackendUser BackendMessage BackendVlob.
From S2P Require Import BackendVlobProofs BackendRealm.

(** ** Access *)

(** Why a user may not do something in a realm: the first reason that holds. *)
Definition vlob_refusal (s : Backend) (org : OrganizationID) (realm_id : UUID) (user : UserID)
    (rev : option Z) (allowed : list RealmRole) (maintenance : bool) : option BackendExn :=
  match be_realms s !! (org, realm_id) with
  | None => Some VlobNotFoundError
  | Some realm =>
      if negb (role_in (role_of realm user) allowed) then Some VlobAccessError
      else if eqb (in_maintenance (r_status realm)) maintenance then
        match rev with
        | Some rev => if bool_decide (rev = rs_encryption_revision (r_status realm)) then None
                      else Some VlobEncryptionRevisionError
        | None => None
        end
      else Some (if maintenance then VlobNotInMaintenanceError else VlobInMaintenanceError)
  end.
(** The revision that the request names is the one of the realm. *)
Definition revision_is (s : Backend) (org : OrganizationID) (realm_id : UUID) (rev : Z) : Prop :=
  ∃ realm, be_realms s !! (org, realm_id) = Some realm ∧
           rs_encryption_revision (r_status realm) = rev.

Lemma vlob_check_eq org realm_id user rev allowed maintenance s :
  vlob_check_realm_access org realm_id user rev allowed maintenance s =
    (s, match vlob_refusal s org realm_id user rev allowed maintenance with
        | None => Ok tt
        | Some e => Err e
        end).
Proof.
  unfold vlob_check_realm_access, vlob_refusal, get_realm, role_of, try_catch, raise_if, of_option,
    gets, mbind, stM_bind.
  destruct (be_realms s !! (org, realm_id)) as [realm|]; [|done].
  destruct (role_in (realm_roles realm !! user) allowed); [|done].
  destruct maintenance, (in_maintenance (r_status realm)); try done; cbn;
    (destruct rev as [rev|]; [|done]); by repeat case_bool_decide.
Qed.
Lemma vlob_refusal_None s org realm_id user rev allowed maintenance :
  vlob_refusal s org realm_id user rev allowed maintenance = None ↔
  access_granted s org realm_id user allowed maintenance ∧
  (∀ n, rev = Some n → revision_is s org realm_id n).
Proof.
  unfold vlob_refusal, access_granted, revision_is, role_of.
  destruct (be_realms s !! (org, realm_id)) as [realm|]; [|naive_solver].
  destruct (role_in (realm_roles realm !! user) allowed) eqn:E; cbn.
  - apply role_in_spec in E as (role & Hrole & Hin).
    destruct (eqb (in_maintenance (r_status realm)) maintenance) eqn:Em.
    + apply eqb_prop in Em. destruct rev as [rev|].
      * case_bool_decide; split; [intros _|done|done|].
        -- split; [by exists realm, role|]. intros n [= <-]. eauto.
        -- intros [_ Hn]. destruct (Hn rev) as (? & [= <-] & ?); [done|]. congruence.
      * split; [|done]. intros _. split; [by exists realm, role|done].
    + split; [by destruct maintenance|]. intros [(? & ? & [= <-] & _ & _ & Hm) _].
      apply eqb_false_iff in Em. done.
  - split; [done|]. intros [(? & role & [= <-] & Hrole & Hin & _) _].
    assert (role_in (realm_roles realm !! user) allowed = true) by (apply role_in_spec; eauto).
    congruence.
Qed.

(** The statuses of the refusals. *)
Definition refusal_status (e : BackendExn) : string :=
  match e with
  | VlobNotFoundError => "not_found"
  | VlobAccessError => "not_allowed"
  | VlobInMaintenanceError => "in_maintenance"
  | VlobNotInMaintenanceError => "not_in_maintenance"
  | _ => "bad_encryption_revision"
  end.
Lemma vlob_refusal_Some s org realm_id user rev allowed maintenance e :
  vlob_refusal s org realm_id user rev allowed maintenance = Some e →
  e = VlobNotFoundError ∨ e = VlobAccessError ∨
  e = (if maintenance then VlobNotInMaintenanceError else VlobInMaintenanceError) ∨
  e = VlobEncryptionRevisionError ∧ is_Some rev.
Proof.
  unfold vlob_refusal. intros H. repeat case_match; simplify_eq; eauto 10.
Qed.

(** ** Replies *)

Lemma reply_of_eq {A B} (m : backendM A) status (ok : A → B) s s' r :
  m s = (s', r) →
  reply_of m status ok s =
    (s', match r with
         | Ok a => Ok (RepOk (ok a))
         | Err e => match status e with Some st => Ok (RepError st) | None => Err e end
         end).
Proof.
  intros H. unfold reply_of, try_catch, mbind, stM_bind. rewrite H. destruct r as [a|e]; [done|].
  cbn. by destruct (status e).
Qed.

(** *** Reading *)

(** The version that a request names. *)
Definition wanted_version (v : Vlob) (version : option Z) (timestamp : option DateTime)
    : option Z :=
  match version, timestamp with
  | Some n, _ => Some n
  | None, Some ts => version_at (v_data v) ts (length (v_data v))
  | None, None => Some (current_version v)
  end.
Definition vlob_read_answer (v : Vlob) (version : option Z) (timestamp : option DateTime)
    : result BackendExn (Z * bytes * DeviceID * DateTime) :=
  match wanted_version v version timestamp with
  | None => Err VlobVersionError
  | Some n =>
      match py_index (v_data v) (n - 1) with
      | Some (blob, author, ts) => Ok (n, blob, author, ts)
      | None => Err VlobVersionError
      end
  end.
Lemma vlob_read_eq org author rev vlob_id version timestamp s :
  vlob_read org author rev vlob_id version timestamp s =
    (s, match vlob_at s org vlob_id with
        | None => Err VlobNotFoundError
        | Some v =>
            match vlob_refusal s org (v_realm_id v) (user_id author) (Some rev) can_read_roles false with
            | Some e => Err e
            | None => vlob_read_answer v version timestamp
            end
        end).
Proof.
  unfold vlob_read, vlob_at.
  destruct (od_get (be_vlobs s) (org, vlob_id)) as [v|] eqn:E.
  2: { rewrite (bind_Err _ _ s s VlobNotFoundError); [done|].
       unfold get_vlob, gets, of_option, mbind, stM_bind. by rewrite E. }
  rewrite (bind_Ok _ _ s s v); [|unfold get_vlob, gets, of_option, mbind, stM_bind; by rewrite E].
  cbv beta. pose proof (vlob_check_eq org (v_realm_id v) (user_id author) (Some rev)
    can_read_roles false s) as Hc.
  destruct (vlob_refusal _ _ _ _ _ _ _) as [e|].
  - by rewrite (bind_Err _ _ s s e) by apply Hc.
  - rewrite (bind_Ok _ _ s s tt) by apply Hc. cbv beta. unfold vlob_read_answer, wanted_version.
    unfold of_option, mbind, stM_bind.
    destruct version, timestamp; cbn; repeat case_match; simplify_eq; done.
Qed.

(** The version of a date: the last one that is not after it. *)
Lemma version_at_spec data ts n :
  (n <= length data)%nat →
  match version_at data ts n with
  | Some k => ∃ m x, k = Z.of_nat (S m) ∧ (m < n)%nat ∧ data !! m = Some x ∧ x.2 <= ts ∧
      ∀ i y, (m < i < n)%nat → data !! i = Some y → ts < y.2
  | None => ∀ i y, (i < n)%nat → data !! i = Some y → ts < y.2
  end.
Proof.
  induction n as [|m IH]; intros Hn; cbn [version_at]; [lia|].
  destruct (lookup_lt_is_Some_2 data m) as [[[b a] t] Hx]; [lia|]. rewrite Hx.
  destruct (t <=? ts) eqn:E.
  - exists m, (b, a, t). split_and!; [done|lia|done|cbn; lia|intros; lia].
  - specialize (IH ltac:(lia)).
    assert (∀ y, data !! m = Some y → ts < y.2) as Hm by (intros y; rewrite Hx; intros [= <-]; cbn; lia).
    destruct (version_at data ts m) as [k|].
    + destruct IH as (m' & x & -> & Hlt & Hx' & Hle & Hnext). exists m', x.
      split_and!; [done|lia|done|done|]. intros i y Hi Hy.
      destruct (decide (i = m)) as [->|]; [by apply Hm|eapply Hnext, Hy; lia].
    + intros i y Hi Hy. destruct (decide (i = m)) as [->|]; [by apply Hm|eapply IH, Hy; lia].
Qed.

(** The answers to a reader that may read, in words. *)
Inductive read_answers (v : Vlob) : option Z → option DateTime →
    reply (Z * bytes * DeviceID * DateTime) → Prop :=
| AnswerBadRequest n ts : n < 1 → read_answers v (Some n) ts (RepError "bad_message")
| AnswerVersion n ts blob author t :
    1 <= n → v_data v !! Z.to_nat (n - 1) = Some (blob, author, t) →
    read_answers v (Some n) ts (RepOk (n, blob, author, t))
| AnswerNoVersion n ts : current_version v < n → read_answers v (Some n) ts (RepError "bad_version")
| AnswerLatest data blob author t :
    v_data v = data ++ [(blob, author, t)] →
    read_answers v None None (RepOk (current_version v, blob, author, t))
| AnswerAt ts before after blob author t :
    v_data v = before ++ (blob, author, t) :: after →
    t <= ts → Forall (λ y, ts < y.2) after →
    read_answers v None (Some ts) (RepOk (Z.of_nat (length before) + 1, blob, author, t))
| AnswerNotYet ts :
    Forall (λ y, ts < y.2) (v_data v) → read_answers v None (Some ts) (RepError "bad_version").

Lemma vlob_read_answer_ok v version timestamp :
  v_data v ≠ [] → match version with Some n => 1 <= n | None => True end →
  match vlob_read_answer v version timestamp with
  | Ok x => read_answers v version timestamp (RepOk x)
  | Err e => e = VlobVersionError ∧ read_answers v version timestamp (RepError "bad_version")
  end.
Proof.
  intros Hne Hv. unfold vlob_read_answer, wanted_version.
  destruct version as [n|]; [|destruct timestamp as [ts|]].
  - rewrite py_index_nonneg by lia.
    destruct (v_data v !! Z.to_nat (n - 1)) as [[[b a] t]|] eqn:E; [by constructor|].
    split; [done|]. constructor. apply lookup_ge_None in E. unfold current_version. lia.
  - pose proof (version_at_spec (v_data v) ts (length (v_data v)) ltac:(lia)) as H.
    destruct (version_at (v_data v) ts (length (v_data v))) as [k|].
    + destruct H as (m & [[b a] t] & -> & Hm & Hx & Hle & Hnext).
      rewrite py_index_nonneg by lia. replace (Z.to_nat (Z.of_nat (S m) - 1)) with m by lia. rewrite Hx.
      replace (Z.of_nat (S m)) with (Z.of_nat (length (take m (v_data v))) + 1)
        by (rewrite length_take; lia).
      apply AnswerAt with (after := drop (S m) (v_data v)).
      * by rewrite take_drop_middle.
      * done.
      * apply Forall_lookup. intros i y. rewrite lookup_drop. intros Hy.
        eapply Hnext, Hy. apply lookup_lt_Some in Hy. lia.
    + split; [done|]. apply AnswerNotYet, Forall_lookup. intros i y Hy.
      eapply H, Hy. by apply lookup_lt_Some in Hy.
  - destruct (exists_last Hne) as (data & [[b a] t] & E). unfold current_version.
    rewrite py_index_nonneg by (rewrite E, length_app; cbn; lia).
    rewrite E, length_app. cbn [length]. rewrite lookup_app_r by lia.
    replace (Z.to_nat _ - length data)%nat with 0%nat by lia. cbn.
    assert (Z.of_nat (length data + 1) = current_version v) as ->
      by (unfold current_version; rewrite E, length_app; done).
    by apply AnswerLatest with (data := data).
Qed.

(** *** Writing *)

Lemma get_vlob_eq org vlob_id s :
  get_vlob org vlob_id s = (s, match vlob_at s org vlob_id with
                               | Some v => Ok v
                               | None => Err VlobNotFoundError
                               end).
Proof.
  unfold get_vlob, gets, of_option, mbind, stM_bind, vlob_at.
  by destruct (od_get (be_vlobs s) (org, vlob_id)).
Qed.

(** Why a vlob is not created. *)
Definition vlob_create_refusal (s : Backend) org realm_id user rev vlob_id : option BackendExn :=
  match vlob_refusal s org realm_id user (Some rev) can_write_roles false with
  | Some e => Some e
  | None => if od_mem (be_vlobs s) (org, vlob_id) then Some VlobAlreadyExistsError else None
  end.
Lemma vlob_create_eq org author realm_id rev vlob_id ts blob s :
  vlob_create org author realm_id rev vlob_id ts blob s =
    match vlob_create_refusal s org realm_id (user_id author) rev vlob_id with
    | Some e => (s, Err e)
    | None => (vlob_written org author realm_id vlob_id 1 (mkVlob realm_id [(blob, author, ts)]) s,
               Ok tt)
    end.
Proof.
  unfold vlob_create, vlob_create_refusal.
  pose proof (vlob_check_eq org realm_id (user_id author) (Some rev) can_write_roles false s) as Hc.
  destruct (vlob_refusal _ _ _ _ _ _ _) as [e|].
  - by rewrite (bind_Err _ _ s s e) by apply Hc.
  - rewrite (bind_Ok _ _ s s tt) by apply Hc. cbv beta.
    rewrite (bind_Ok _ _ s s (be_vlobs s)) by done. cbv beta.
    destruct (od_mem (be_vlobs s) (org, vlob_id)); done.
Qed.

(** Why a version is not added to a vlob. *)
Definition vlob_update_refusal (s : Backend) org user rev (v : Vlob) (version : Z) (ts : DateTime)
    : option BackendExn :=
  match vlob_refusal s org (v_realm_id v) user (Some rev) can_write_roles false with
  | Some e => Some e
  | None =>
      if bool_decide (version ≠ current_version v + 1) then Some VlobVersionError
      else if bool_decide (Exists (λ x, ts < x.2) (option_list (last (v_data v))))
      then Some VlobTimestampError else None
  end.
Lemma py_index_last {A} (l : list A) : l ≠ [] → py_index l (Z.of_nat (length l) - 1) = last l.
Proof.
  intros Hl. destruct (exists_last Hl) as (l' & x & ->).
  rewrite py_index_nonneg by (rewrite length_app; cbn; lia).
  rewrite last_snoc, length_app. cbn. rewrite lookup_app_r by lia.
  by replace (Z.to_nat _ - length l')%nat with 0%nat by lia.
Qed.
Lemma vlob_update_eq org author rev vlob_id version ts blob s v :
  vlob_at s org vlob_id = Some v → v_data v ≠ [] →
  vlob_update org author rev vlob_id version ts blob s =
    match vlob_update_refusal s org (user_id author) rev v version ts with
    | Some e => (s, Err e)
    | None => (vlob_written org author (v_realm_id v) vlob_id version
                 (mkVlob (v_realm_id v) (v_data v ++ [(blob, author, ts)])) s, Ok tt)
    end.
Proof.
  intros Hv Hne. unfold vlob_update, vlob_update_refusal.
  rewrite (bind_Ok _ _ s s v) by (rewrite get_vlob_eq; by rewrite Hv). cbv beta.
  pose proof (vlob_check_eq org (v_realm_id v) (user_id author) (Some rev) can_write_roles false s) as Hc.
  destruct (vlob_refusal _ _ _ _ _ _ _) as [e|].
  { by rewrite (bind_Err _ _ s s e) by apply Hc. }
  rewrite (bind_Ok _ _ s s tt) by apply Hc. cbv beta.
  case_bool_decide as E1; (destruct (decide (version = current_version v + 1)) as [E2|E2]); try lia.
  { rewrite bool_decide_true by done. done. }
  rewrite bool_decide_false by (intros Hn; by apply Hn).
  rewrite (bind_Ok _ _ s s tt) by done. cbv beta.
  unfold current_version at 1. rewrite (py_index_last (v_data v)) by done.
  destruct (exists_last Hne) as (data & [[b a] t] & E). rewrite E, last_snoc, <-E. cbn.
  rewrite (bind_Ok _ _ s s (b, a, t)) by done. cbv beta. cbn.
  destruct (ts <? t) eqn:Ets.
  - rewrite bool_decide_true by (left; cbn; lia). done.
  - rewrite bool_decide_false; [done|]. rewrite Exists_cons, Exists_nil. cbn. lia.
Qed.

(** *** Changes *)

(** The vlobs that changed after a checkpoint, with their versions. *)
Definition changed_since (s : Backend) org realm_id (checkpoint : Z) : gmap UUID Z :=
  omap (λ '(_, change_checkpoint, src_version),
          if checkpoint <? change_checkpoint then Some src_version else None)
    (ch_changes (changes_of s org realm_id)).
Lemma vlob_poll_changes_eq org author realm_id checkpoint s :
  vlob_poll_changes org author realm_id checkpoint s =
    (s, match vlob_refusal s org realm_id (user_id author) None can_read_roles false with
        | Some e => Err e
        | None => Ok (ch_checkpoint (changes_of s org realm_id), changed_since s org realm_id checkpoint)
        end).
Proof.
  unfold vlob_poll_changes.
  pose proof (vlob_check_eq org realm_id (user_id author) None can_read_roles false s) as Hc.
  destruct (vlob_refusal _ _ _ _ _ _ _) as [e|].
  - by rewrite (bind_Err _ _ s s e) by apply Hc.
  - rewrite (bind_Ok _ _ s s tt) by apply Hc. done.
Qed.
Lemma changed_since_lookup s org realm_id checkpoint id n :
  changed_since s org realm_id checkpoint !! id = Some n ↔
  ∃ author c, ch_changes (changes_of s org realm_id) !! id = Some (author, c, n) ∧ checkpoint < c.
Proof.
  unfold changed_since. rewrite lookup_omap.
  destruct (ch_changes (changes_of s org realm_id) !! id) as [[[a c] m]|]; cbn; [|naive_solver].
  destruct (checkpoint <? c) eqn:E; naive_solver lia.
Qed.

Lemma vlob_list_versions_eq org author vlob_id s :
  vlob_list_versions org author vlob_id s =
    (s, match vlob_at s org vlob_id with
        | None => Err VlobNotFoundError
        | Some v =>
            match vlob_refusal s org (v_realm_id v) (user_id author) None can_read_roles false with
            | Some e => Err e
            | None => Ok ((λ '(k, (_, a, ts)), (k, (ts, a))) <$> enumerate_from 1 (v_data v))
            end
        end).
Proof.
  unfold vlob_list_versions. pose proof (get_vlob_eq org vlob_id s) as Hg.
  destruct (vlob_at s org vlob_id) as [v|]; [|by rewrite (bind_Err _ _ s s VlobNotFoundError)].
  rewrite (bind_Ok _ _ s s v) by done. cbv beta.
  pose proof (vlob_check_eq org (v_realm_id v) (user_id author) None can_read_roles false s) as Hc.
  destruct (vlob_refusal _ _ _ _ _ _ _) as [e|].
  - by rewrite (bind_Err _ _ s s e) by apply Hc.
  - by rewrite (bind_Ok _ _ s s tt) by apply Hc.
Qed.

(** *** Reencryption *)

(** In a realm under maintenance there is a reencryption. *)
Lemma maintenance_reencryption s org realm_id user allowed :
  vlobs_ok s → access_granted s org realm_id user allowed true →
  ∃ re, ch_reencryption (changes_of s org realm_id) = Some re ∧
        reencryption_ok (vlob_at s org) realm_id re.
Proof.
  intros Hs (realm & _ & Hr & _ & _ & Hm). pose proof (vo_reencryption _ Hs org realm_id) as Hre.
  destruct (ch_reencryption _) as [re|]; [by exists re; destruct Hre|].
  specialize (Hre _ Hr). congruence.
Qed.
Lemma get_reencryption_batch_eq org author realm_id rev size s :
  maintenance_get_reencryption_batch org author realm_id rev size s =
    (s, match vlob_refusal s org realm_id (user_id author) (Some rev) can_do_maintenance_roles true with
        | Some e => Err e
        | None => match ch_reencryption (changes_of s org realm_id) with
                  | Some re => Ok (get_batch re size)
                  | None => Err BAssertionError
                  end
        end).
Proof.
  unfold maintenance_get_reencryption_batch.
  pose proof (vlob_check_eq org realm_id (user_id author) (Some rev) can_do_maintenance_roles true s) as Hc.
  destruct (vlob_refusal _ _ _ _ _ _ _) as [e|].
  - by rewrite (bind_Err _ _ s s e) by apply Hc.
  - rewrite (bind_Ok _ _ s s tt) by apply Hc. cbv beta.
    rewrite (bind_Ok _ _ s s (changes_of s org realm_id)) by done. cbv beta.
    by destruct (ch_reencryption _).
Qed.
Lemma save_reencryption_batch_eq org author realm_id rev batch s :
  maintenance_save_reencryption_batch org author realm_id rev batch s =
    match vlob_refusal s org realm_id (user_id author) (Some rev) can_do_maintenance_roles true with
    | Some e => (s, Err e)
    | None =>
        match ch_reencryption (changes_of s org realm_id) with
        | Some re =>
            (set_changes <[(org, realm_id) :=
               ch_with_reencryption (changes_of s org realm_id) (Some (save_batch re batch).1)]> s,
             (save_batch re batch).2)
        | None => (s, Err BAssertionError)
        end
    end.
Proof.
  unfold maintenance_save_reencryption_batch.
  pose proof (vlob_check_eq org realm_id (user_id author) (Some rev) can_do_maintenance_roles true s) as Hc.
  destruct (vlob_refusal _ _ _ _ _ _ _) as [e|].
  - by rewrite (bind_Err _ _ s s e) by apply Hc.
  - rewrite (bind_Ok _ _ s s tt) by apply Hc. cbv beta.
    rewrite (bind_Ok _ _ s s (changes_of s org realm_id)) by done. cbv beta.
    destruct (ch_reencryption _) as [re|]; [|done].
    rewrite (bind_Ok _ _ s s re) by done. cbv beta. by destruct (save_batch re batch).
Qed.

(** When there is no refusal. *)
Lemma vlob_update_refusal_None s org user rev v version ts :
  history_ok v →
  vlob_update_refusal s org user rev v version ts = None ↔
  access_granted s org (v_realm_id v) user can_write_roles false ∧
  revision_is s org (v_realm_id v) rev ∧ version = current_version v + 1 ∧
  Forall (λ x, x.2 <= ts) (v_data v).
Proof.
  intros [Hne Hsorted]. unfold vlob_update_refusal.
  pose proof (vlob_refusal_None s org (v_realm_id v) user (Some rev) can_write_roles false) as Hiff.
  destruct (vlob_refusal _ _ _ _ _ _ _) as [e|].
  { split; [done|]. intros (Ha & Hr & _). apply proj2 in Hiff. apply Hiff.
    split; [done|]. by intros n [= <-]. }
  destruct Hiff as [Hiff _]. destruct (Hiff eq_refl) as [Ha Hr].
  destruct (exists_last Hne) as (data & x & E).
  assert (Forall (λ y, y.2 <= ts) (v_data v) ↔ x.2 <= ts) as ->.
  { rewrite E, Forall_app, Forall_singleton. split; [by intros []|]. intros Hx. split; [|done].
    apply Forall_forall. intros y Hy. rewrite E in Hsorted.
    pose proof (StronglySorted_app_1_elem_of _ _ _ y x Hsorted Hy ltac:(by left)) as Hle.
    cbn in Hle. lia. }
  rewrite E, last_snoc. cbn.
  case_bool_decide as E1; [naive_solver|].
  case_bool_decide as E2; rewrite Exists_cons, Exists_nil in E2; cbn in E2.
  - split; [done|]. intros (_ & _ & _ & ?). lia.
  - split; [|done]. intros _. split_and!; [done|by apply Hr|lia|lia].
Qed.

(** What a new reencryption has to do. *)
Lemma new_reencryption_todo realm_id vlobs id n data :
  NoDup vlobs.*1 →
  od_get (re_todo (new_reencryption realm_id vlobs)) (id, n) = Some data ↔
  1 <= n ∧ ∃ v author ts, (id, v) ∈ vlobs ∧ v_data v !! Z.to_nat (n - 1) = Some (data, author, ts).
Proof.
  intros Hnd. unfold new_reencryption. fold (todo_items vlobs). cbn [re_todo].
  pose proof (todo_items_NoDup _ Hnd) as Htd.
  rewrite od_update_fresh by (cbn; by apply todo_items_NoDup). cbn [app].
  rewrite od_get_Some by done. rewrite elem_of_todo_items. naive_solver.
Qed.

(** A batch is the first items of what is to do. *)
Lemma get_batch_todo vlob_at realm_id re size :
  reencryption_ok vlob_at realm_id re → 0 <= size →
  get_batch re size = take (Z.to_nat size) ((λ x, (x.1.1, x.1.2, x.2)) <$> re_todo re).
Proof.
  intros Hre Hsize. unfold get_batch. rewrite py_slice_take by done. f_equal.
  assert (∀ l : list ((UUID * Z) * bytes), (∀ k, k ∈ od_keys l → k ∈ od_keys (re_todo re)) →
    filter (λ '(k, _), od_mem (re_done re) k = false) l = l) as Hl.
  { induction l as [|[k d] l IH]; intros Hk; [done|].
    rewrite (filter_cons_True (λ x : (UUID * Z) * bytes, let (k, _) := x in od_mem (re_done re) k = false));
      [f_equal; apply IH; intros; apply Hk; by right|].
    apply bool_decide_eq_false. rewrite od_get_is_Some. apply (ro_disjoint _ _ _ Hre), Hk. by left. }
  rewrite Hl by done. by apply list_fmap_ext; intros ? [[? ?] ?].
Qed.

(** When everything is done, every version of the realm has new data. *)
Lemma reencrypted_all vlob_at realm_id re id v n data author ts :
  reencryption_ok vlob_at realm_id re → re_todo re = [] → in_realm vlob_at realm_id id v →
  v_data v !! n = Some (data, author, ts) →
  ∃ data', od_get (re_done re) (id, Z.of_nat n + 1) = Some data' ∧
    v_data (reencrypted (re_done re) id v) !! n = Some (data', author, ts).
Proof.
  intros Hre Htodo Hv Hn.
  assert ((id, Z.of_nat n + 1) ∈ od_keys (re_done re)) as Hin.
  { assert ((id, Z.of_nat n + 1) ∈ od_keys (re_todo re) ∨ (id, Z.of_nat n + 1) ∈ od_keys (re_done re))
      as [Hx|]; [|rewrite Htodo in Hx; by apply elem_of_nil in Hx|done].
    apply (ro_keys _ _ _ Hre). exists v. split; [done|].
    apply lookup_lt_Some in Hn. unfold current_version. lia. }
  apply od_get_is_Some in Hin as [data' Hd]. exists data'. split; [done|].
  cbn. rewrite list_lookup_imap, Hn. cbn. unfold reencrypted_entry. cbn. by rewrite Hd.
Qed.

Lemma elem_of_take_in {A} n (l : list A) x : x ∈ take n l → x ∈ l.
Proof. intros (i & ? & _)%elem_of_take. by eapply list_elem_of_lookup_2. Qed.
Lemma save_batch_total re batch : re_total (save_batch re batch).1 = re_total re.
Proof.
  revert re. induction batch as [|[[id n] d] batch IH]; intros re; cbn; [done|].
  repeat case_match; cbn; by rewrite ?IH.
Qed.
