(* ===== verification/BackendRealmSpec.v ===== *)
(** What the realm API promises: when a role is granted and when a maintenance
    starts and ends, exactly. *)

From S2P Require Import Prelude Types Backend Certif BackendUser BackendMessage BackendVlob.
From S2P Require Import BackendVlobProofs BackendRealm.

Lemma get_realm_eq org realm_id s realm :
  be_realms s !! (org, realm_id) = Some realm → get_realm org realm_id s = (s, Ok realm).
Proof. intros H. unfold get_realm, gets, of_option, mbind, stM_bind. by rewrite H. Qed.

(** ** Granting *)

(** The conditions of [update_roles]. *)
Definition grant_allowed (s : Backend) (org : OrganizationID) (x : RealmGrantedRole) : Prop :=
  ∃ user realm,
    os_users (orgstore s org) !! gr_user_id x = Some user ∧
    (u_profile user = OUTSIDER → gr_role x ≠ Some MANAGER ∧ gr_role x ≠ Some OWNER) ∧
    be_realms s !! (org, gr_realm_id x) = Some realm ∧
    in_maintenance (r_status realm) = false ∧
    may_grant realm (user_id (gr_granted_by x)) x ∧
    role_of realm (gr_user_id x) ≠ gr_role x.

Lemma update_roles_allowed org x message s :
  user_id (gr_granted_by x) ≠ gr_user_id x → grant_allowed s org x →
  ∃ s', update_roles org x message s = (s', Ok tt).
Proof.
  intros Hne (user & realm & Hu & Hp & Hr & Hm & (role & Hrole & Hin) & Hnew).
  unfold update_roles. rewrite (bind_Ok _ _ s s tt).
  2: { unfold be_assert. by rewrite bool_decide_true. }
  cbv beta. rewrite (bind_Ok _ _ s s user).
  2: { unfold try_catch, get_user, gets, of_option, mbind, stM_bind. by rewrite Hu. }
  cbv beta. rewrite (bind_Ok _ _ s s tt).
  2: { case_bool_decide as E; [|done]. destruct (Hp E) as [H1 H2].
       unfold raise_if. destruct (gr_role x) as [[]|]; try done; cbn;
         by rewrite bool_decide_false by set_solver. }
  cbv beta. rewrite (bind_Ok _ _ s s realm) by by apply get_realm_eq. cbv beta zeta.
  rewrite (bind_Ok _ _ s s tt) by (by rewrite Hm). cbv beta.
  rewrite (bind_Ok _ _ s s tt).
  2: { rewrite Hrole. cbn. by rewrite bool_decide_true. }
  cbv beta. rewrite (bind_Ok _ _ s s tt) by (by rewrite bool_decide_false). cbv beta.
  by destruct message; eexists.
Qed.

(** What is added to the messages of a user. *)
Lemma update_roles_messages org x message s s' u org' :
  update_roles org x message s = (s', Ok tt) →
  messages_of s' org' u = messages_of s org' u ++
    (if bool_decide ((org', u) = (org, gr_user_id x))
     then (λ m, (gr_granted_by x, gr_granted_on x, m)) <$> option_list message else []).
Proof.
  intros H. unfold update_roles, set_realm in H. minv H. minv H.
  apply try_catch_inv in Hrun as [(user & Hg & [= <-])|(e & s1 & _ & Hrun)]; [|by minv_base Hrun].
  apply get_user_inv in Hg as [-> _]. minv H. minv H. apply get_realm_inv in Hrun as [-> _].
  do 3 minv H. minv H. minv H. destruct message as [m|].
  - apply (messages_of_send _ _ _ _ _ _ _ _ org' u) in H as [_ ->]. by destruct (bool_decide ((org', u) = _)).
  - minv_all. destruct (bool_decide ((org', u) = _)); cbn; by rewrite app_nil_r.
Qed.

(** ** Maintenance *)

Definition start_allowed (s : Backend) (org : OrganizationID) (author : DeviceID)
    (realm_id : UUID) (rev : Z) (msgs : odict UserID bytes) (now : DateTime) : Prop :=
  ∃ realm, be_realms s !! (org, realm_id) = Some realm ∧
    role_of realm (user_id author) = Some OWNER ∧ in_maintenance (r_status realm) = false ∧
    rev = rs_encryption_revision (r_status realm) + 1 ∧
    ∀ u, u ∈ od_keys msgs ↔ participant s org now realm u.

Lemma send_messages_of org author ts (l : list (UserID * bytes)) s s' r org' u :
  for_each (λ '(recipient, msg), send_message org author recipient ts msg) l s = (s', r) →
  messages_of s' org' u = messages_of s org' u ++
    (if bool_decide (org' = org)
     then (λ x, (author, ts, x.2)) <$> filter (λ x, x.1 = u) l else []).
Proof.
  revert s. induction l as [|[v m] l IH]; cbn [for_each]; intros s H.
  - injection H as <- <-. case_bool_decide; by rewrite app_nil_r.
  - apply bind_inv in H as [([] & s1 & H1 & H)|(e & [? _]%send_message_same & _)]; [|done].
    apply (messages_of_send _ _ _ _ _ _ _ _ org' u) in H1 as [_ H1].
    rewrite (IH _ H), H1, <-app_assoc. f_equal.
    destruct (decide (v = u)) as [->|Hne];
      [rewrite (filter_cons_True (λ x : UserID * bytes, x.1 = u)) by done
      |rewrite (filter_cons_False (λ x : UserID * bytes, x.1 = u)) by done];
      destruct (decide (org' = org)) as [->|];
      rewrite ?(bool_decide_true (org = org)), ?(bool_decide_false (org' = org)) by done;
      case_bool_decide; naive_solver.
Qed.

Lemma start_allowed_ok org author realm_id rev msgs ts now s :
  vlobs_ok s → roles_ok s → start_allowed s org author realm_id rev msgs now →
  ∃ s', start_reencryption_maintenance org author realm_id rev msgs ts now s = (s', Ok tt) ∧
    ∀ org' u, messages_of s' org' u = messages_of s org' u ++
      (if bool_decide (org' = org)
       then (λ x, (author, ts, x.2)) <$> filter (λ x, x.1 = u) msgs else []).
Proof.
  intros Hv Hs (realm & Hr & Ho & Hm & -> & Hp).
  unfold start_reencryption_maintenance, set_realm.
  rewrite (bind_Ok _ _ s s realm) by by apply get_realm_eq. cbv beta.
  rewrite (bind_Ok _ _ s s tt) by (by rewrite bool_decide_false; [|naive_solver]). cbv beta.
  rewrite (bind_Ok _ _ s s tt) by (by rewrite Hm). cbv beta.
  rewrite (bind_Ok _ _ s s tt) by (by rewrite bool_decide_false; [|naive_solver]). cbv beta.
  destruct (collect_not_revoked_inv org now (elements (dom (realm_roles realm))) s) as (X & HX & Hin).
  { intros u [role Hrole]%elem_of_elements%elem_of_dom.
    destruct (rk_role _ _ _ _ _ _ Hs Hr Hrole) as (user & ? & _). eauto. }
  rewrite (bind_Ok _ _ s s X) by done. cbv beta. rewrite (bind_Ok _ _ s s tt).
  2: { rewrite bool_decide_false; [done|]. intros Hne. apply Hne. apply set_eq. intros u.
       rewrite elem_of_list_to_set, Hp, Hin, elem_of_elements, elem_of_dom. done. }
  cbv beta. set (rev := rs_encryption_revision (r_status realm) + 1).
  destruct (start_hook_ok s org realm_id realm
    (mkRealmStatus (Some REENCRYPTION) (Some ts) (Some author) rev)) as (s2 & Hhook & _ & Heq);
    [done..|].
  rewrite (bind_Ok _ _ s _ tt) by done. cbv beta. unfold r_with_status.
  rewrite (bind_Ok _ _ _ s2 tt) by done. cbv beta.
  set (s3 := add_event (REALM_MAINTENANCE_STARTED org author realm_id rev) s2).
  rewrite (bind_Ok _ _ s2 s3 tt) by done. cbv beta.
  destruct (for_each _ msgs s3) as [s' r] eqn:E.
  pose proof (send_messages_same _ _ _ _ _ _ _ E) as [-> _]. exists s'. split; [done|].
  intros org' u. rewrite (send_messages_of _ _ _ _ _ _ _ org' u E). f_equal.
  unfold s3. rewrite Heq. done.
Qed.

Definition finish_allowed (s : Backend) (org : OrganizationID) (author : DeviceID)
    (realm_id : UUID) (rev : Z) : Prop :=
  ∃ realm re, be_realms s !! (org, realm_id) = Some realm ∧
    role_of realm (user_id author) = Some OWNER ∧ in_maintenance (r_status realm) = true ∧
    rev = rs_encryption_revision (r_status realm) ∧
    ch_reencryption (changes_of s org realm_id) = Some re ∧ re_todo re = [].
Lemma finish_allowed_ok org author realm_id rev s :
  vlobs_ok s → finish_allowed s org author realm_id rev →
  ∃ s', finish_reencryption_maintenance org author realm_id rev s = (s', Ok tt).
Proof.
  intros Hv (realm & re & Hr & Ho & Hm & -> & Hre & Htodo).
  unfold finish_reencryption_maintenance, set_realm.
  rewrite (bind_Ok _ _ s s realm) by by apply get_realm_eq. cbv beta.
  rewrite (bind_Ok _ _ s s tt) by (by rewrite bool_decide_false; [|naive_solver]). cbv beta.
  rewrite (bind_Ok _ _ s s tt) by (by rewrite Hm). cbv beta.
  rewrite (bind_Ok _ _ s s tt) by (by rewrite bool_decide_false; [|naive_solver]). cbv beta.
  destruct (maintenance_reencryption_is_finished_hook org realm_id s) as [s1 r1] eqn:Hhook.
  destruct (finish_hook_ok s org realm_id s1 r1) as
    (re' & Hre' & _ & [(_ & _ & Hne)|(-> & _)]); [done|by eauto|naive_solver|done| |].
  - congruence.
  - rewrite (bind_Ok _ _ s s1 true) by done. cbv beta. by eexists.
Qed.

(** ** Replies *)

(** The handler ends with a reply, not with an exception. *)
Definition replies {A} (m : backendM (reply A)) (s : Backend) : Prop := ∃ rep, (m s).2 = Ok rep.

Lemma replies_reply_of {A B} (m : backendM A) status (ok : A → B) s :
  (∀ s' e, m s = (s', Err e) → is_Some (status e)) → replies (reply_of m status ok) s.
Proof.
  intros Hm. unfold replies. destruct (reply_of m status ok s) as [s' r] eqn:E. cbn.
  apply reply_of_inv in E as (r' & Hrun & ->). destruct r' as [a|e]; [by eexists|].
  destruct (Hm _ _ Hrun) as [st ->]. by eexists.
Qed.
Lemma replies_ret {A} (rep : reply A) s : replies (mret rep) s.
Proof. by eexists. Qed.

(** The queries of a realm fail because there is no realm or no role. *)
Lemma realm_queries_fail org author realm_id since s s' e :
  realm_get_status org author realm_id s = (s', Err e) ∨
  realm_get_stats org author realm_id s = (s', Err e) ∨
  get_role_certificates org author realm_id since s = (s', Err e) →
  e = RealmNotFoundError ∨ e = RealmAccessError.
Proof.
  assert (∀ s s' r, get_realm org realm_id s = (s', r) → s' = s ∧ ∀ e, r = Err e → e = RealmNotFoundError)
    as Hg.
  { intros s0 s1 r [-> ->]%get_realm_inv. split; [done|]. intros e'. case_match; naive_solver. }
  unfold realm_get_status, realm_get_stats, get_role_certificates.
  intros [H|[H|H]]; minv H;
    first [apply Hg in Hrun as [-> Hrun] | idtac]; try (left; by apply Hrun); minv_all; auto.
Qed.
