(* ===== verification/BackendEffects.v ===== *)
(** What one step of the server does to the vlobs, the changes, the messages, the
    blocks and the organizations: the facts that the theorems on histories and on
    several steps need. *)

From S2P Require Import Prelude Types Backend Certif BackendUser BackendMessage BackendVlob.
From S2P Require Import BackendVlobProofs BackendRealm BlockStore BackendBlock BackendOrganization.
From S2P Require Import BackendSystem.

(** The changes of a realm without its reencryption. *)
Definition changes_view (s : Backend) (org : OrganizationID) (realm_id : UUID)
    : Z * gmap UUID (DeviceID * Z * Z) :=
  (ch_checkpoint (changes_of s org realm_id), ch_changes (changes_of s org realm_id)).
Definition changes_kept (s s' : Backend) : Prop :=
  ∀ org realm_id, changes_view s' org realm_id = changes_view s org realm_id.

Definition realm_in_maintenance (s : Backend) (org : OrganizationID) (realm_id : UUID) : Prop :=
  ∃ r, be_realms s !! (org, realm_id) = Some r ∧ in_maintenance (r_status r) = true.

(** The three effects of a step on the vlobs: none, one new version in a realm
    that is not in maintenance, or the end of a reencryption. *)
Inductive vlob_effect (s s' : Backend) : Prop :=
| VlobsKept :
    (∀ org id, vlob_at s' org id = vlob_at s org id) → changes_kept s s' → vlob_effect s s'
| VlobWritten org author realm_id id v :
    ¬ realm_in_maintenance s org realm_id → v_realm_id v = realm_id →
    (vlob_at s org id = None ∧ length (v_data v) = 1%nat ∨
     ∃ v0 x, vlob_at s org id = Some v0 ∧ v_realm_id v0 = realm_id ∧ v_data v = v_data v0 ++ [x]) →
    (∀ org' id', vlob_at s' org' id' =
       if decide ((org', id') = (org, id)) then Some v else vlob_at s org' id') →
    (∀ org' realm_id', changes_view s' org' realm_id' =
       if decide ((org', realm_id') = (org, realm_id))
       then let c := ch_checkpoint (changes_of s org realm_id) + 1 in
            (c, <[id := (author, c, current_version v)]> (ch_changes (changes_of s org realm_id)))
       else changes_view s org' realm_id') →
    vlob_effect s s'
| VlobsReencrypted org realm_id done :
    realm_in_maintenance s org realm_id →
    (∀ org' id, vlob_at s' org' id =
       v ← vlob_at s org' id;
       Some (if decide ((org', v_realm_id v) = (org, realm_id)) then reencrypted done id v else v)) →
    changes_kept s s' → vlob_effect s s'.

Lemma vlob_effect_frame s s' :
  be_vlobs s' = be_vlobs s → be_changes s' = be_changes s → vlob_effect s s'.
Proof.
  intros Hv Hc. apply VlobsKept.
  - intros. unfold vlob_at. by rewrite Hv.
  - intros org realm_id. unfold changes_view, changes_of. by rewrite Hc.
Qed.

Lemma access_not_maintenance s org realm_id user allowed :
  access_granted s org realm_id user allowed false → ¬ realm_in_maintenance s org realm_id.
Proof. intros (r & _ & Hr & _ & _ & Hm) (r' & Hr' & Hm'). congruence. Qed.

Lemma vlob_written_effect s org author realm_id id v :
  ¬ realm_in_maintenance s org realm_id → v_realm_id v = realm_id →
  (vlob_at s org id = None ∧ length (v_data v) = 1%nat ∨
   ∃ v0 x, vlob_at s org id = Some v0 ∧ v_realm_id v0 = realm_id ∧ v_data v = v_data v0 ++ [x]) →
  vlob_effect s (vlob_written org author realm_id id (current_version v) v s).
Proof.
  intros Hm Hr Hv. eapply VlobWritten; [exact Hm|exact Hr|exact Hv| |].
  - intros. apply vlob_at_written.
  - intros org' realm_id'. unfold changes_view. rewrite changes_of_written.
    case_decide; done.
Qed.

Lemma start_effect s s' org realm_id o :
  be_vlobs s' = be_vlobs s →
  be_changes s' = <[(org, realm_id) := ch_with_reencryption (changes_of s org realm_id) o]>
                    (be_changes s) →
  (∀ org id, vlob_at s' org id = vlob_at s org id) ∧ changes_kept s s'.
Proof.
  intros Hv Hc. split; [intros; unfold vlob_at; by rewrite Hv|].
  intros org' realm_id'. unfold changes_view.
  assert (changes_of s' org' realm_id' = if decide ((org', realm_id') = (org, realm_id))
    then ch_with_reencryption (changes_of s org realm_id) o else changes_of s org' realm_id') as ->.
  { rewrite <-changes_of_set. unfold changes_of, set_changes. cbn. by rewrite Hc. }
  case_decide as E; [by injection E as -> ->|done].
Qed.

Section effects.
Context `{CertifApi}.

Lemma step_vlob_effect s s' : backend_ok s → backend_step s s' → vlob_effect s s'.
Proof.
  intros Hs [now ctx msg r Hctx Hrun|now ctx c r Hctx Hrun|now ctx msg r Hctx Hrun|Hrun
    |now ctx c r Hctx Hrun|now ctx c m r Hctx Hrun|now now' ctx realm_id rev ts msgs r Hctx Hrun
    |ctx realm_id rev r Hctx Hrun|now ctx realm_id rev vlob_id ts blob r Hctx Hrun
    |now ctx rev vlob_id version ts blob r Hctx Hrun|ctx realm_id rev batch r Hctx Hrun
    |ctx block_id realm_id block r Hctx Hrun|token org date r Hrun|org date r Hrun
    |now org msg r Hrun].
  - apply api_user_create_runs in Hrun as [->|(user & d & r' & Hrun & _)];
      [by apply vlob_effect_frame|].
    apply create_user_inv in Hrun. cbn zeta in Hrun.
    by destruct (mem_users _ _ || _); destruct Hrun as [? ?]; subst; apply vlob_effect_frame.
  - apply api_user_revoke_runs in Hrun as [->|(u & on & r' & Hrun)];
      [by apply vlob_effect_frame|].
    apply revoke_user_kept in Hrun as (_ & _ & ->). by apply vlob_effect_frame.
  - apply api_device_create_runs in Hrun as [->|(d & r' & Hrun & _)]; [by apply vlob_effect_frame|].
    apply create_device_inv in Hrun as [[-> _]|(_ & _ & _ & ->)]; by apply vlob_effect_frame.
  - destruct Hrun as [_ ->]. by apply vlob_effect_frame.
  - apply api_realm_create_runs in Hrun as [->|(x & r' & Hrun & _)]; [by apply vlob_effect_frame|].
    apply realm_create_inv in Hrun as [[-> _]|(_ & _ & _ & _ & ->)]; by apply vlob_effect_frame.
  - apply api_realm_update_roles_runs in Hrun as [->|(x & r' & Hrun & Hne)];
      [by apply vlob_effect_frame|].
    apply update_roles_inv in Hrun as [[-> _]|(_ & ? & ? & _ & _ & _ & _ & _ & _ & ->)];
      [..|done]; by apply vlob_effect_frame.
  - unfold api_realm_start_reencryption_maintenance in Hrun.
    destruct (negb _); [injection Hrun as <- _; by apply vlob_effect_frame|].
    apply reply_of_inv in Hrun as (r' & Hrun & _).
    apply start_inv in Hrun as [[-> _]|(_ & realm & _ & _ & _ & _ & _ & _ & E)]; [..|apply Hs|apply Hs].
    + by apply vlob_effect_frame.
    + unfold same_but_messages in E. apply VlobsKept;
        eapply (start_effect s s' (cc_organization_id ctx) realm_id); by rewrite E.
  - apply reply_of_inv in Hrun as (r' & Hrun & _).
    apply finish_inv in Hrun
      as [[-> _]|(_ & realm & re & Hr & _ & Hm & _ & _ & _ & _ & E & Hat)]; [..|apply Hs].
    + by apply vlob_effect_frame.
    + eapply VlobsReencrypted; [by exists realm|exact Hat|].
      intros org' realm_id'.
      assert (changes_view s' org' realm_id' = changes_view (set_changes
        <[(cc_organization_id ctx, realm_id) := ch_with_reencryption
            (changes_of s (cc_organization_id ctx) realm_id) None]> s) org' realm_id') as ->
        by (unfold changes_view, changes_of; rewrite E; done).
      unfold changes_view. rewrite changes_of_set. case_decide as E2; [by injection E2 as -> ->|done].
  - unfold api_vlob_create in Hrun.
    destruct (negb _); [injection Hrun as <- _; by apply vlob_effect_frame|].
    apply reply_of_inv in Hrun as (r' & Hrun & _).
    apply vlob_create_inv in Hrun as [[-> _]|(_ & Hacc & Hn & ->)]; [by apply vlob_effect_frame|].
    apply (vlob_written_effect s _ _ realm_id vlob_id (mkVlob realm_id [(blob, cc_device_id ctx, ts)]));
      [by eapply access_not_maintenance|done|by left].
  - unfold api_vlob_update in Hrun.
    destruct (negb _); [injection Hrun as <- _; by apply vlob_effect_frame|].
    destruct (negb _); [injection Hrun as <- _; by apply vlob_effect_frame|].
    apply reply_of_inv in Hrun as (r' & Hrun & _).
    apply vlob_update_inv in Hrun as [[-> _]|(_ & v & Hv & Hacc & -> & _ & ->)];
      [by apply vlob_effect_frame|].
    rewrite <-(current_version_snoc v (blob, cc_device_id ctx, ts)).
    apply vlob_written_effect; [by eapply access_not_maintenance|done|right].
    by eexists v, _.
  - unfold api_vlob_maintenance_save_reencryption_batch in Hrun.
    destruct (negb _); [injection Hrun as <- _; by apply vlob_effect_frame|].
    apply reply_of_inv in Hrun as (r' & Hrun & _).
    apply save_reencryption_batch_inv in Hrun as [[-> _]|(_ & re & re' & _ & _ & ->)];
      [by apply vlob_effect_frame|].
    apply VlobsKept; by eapply (start_effect s _ (cc_organization_id ctx) realm_id (Some re')).
  - apply reply_of_inv in Hrun as (r' & Hrun & _).
    apply create_block_inv in Hrun as [[-> _]|(_ & _ & _ & ->)]; by apply vlob_effect_frame.
  - apply reply_of_inv in Hrun as (r' & Hrun & _).
    apply organization_create_inv in Hrun as [[-> _]|(_ & _ & ->)]; by apply vlob_effect_frame.
  - apply reply_of_inv in Hrun as (r' & Hrun & _).
    apply set_expiration_date_inv in Hrun as [[-> _]|(_ & o & _ & ->)]; by apply vlob_effect_frame.
  - apply api_organization_bootstrap_runs in Hrun
      as [->|(user & d & token & key & r' & Hrun & _)]; [by apply vlob_effect_frame|].
    apply organization_bootstrap_inv in Hrun as [[-> _]|(_ & o & s1 & _ & _ & _ & Hrun & ->)];
      [by apply vlob_effect_frame|].
    apply create_user_inv in Hrun. cbn zeta in Hrun.
    destruct (mem_users _ _ || _); destruct Hrun as [? ?]; subst; by apply vlob_effect_frame.
Qed.
End effects.

(** ** Histories *)

(** The versions of [v] are the first ones of [v'], data aside. *)
Definition history_extends (v v' : Vlob) : Prop :=
  v_realm_id v' = v_realm_id v ∧ metadata v `prefix_of` metadata v'.
Lemma history_extends_refl v : history_extends v v.
Proof. done. Qed.
Lemma history_extends_trans v1 v2 v3 :
  history_extends v1 v2 → history_extends v2 v3 → history_extends v1 v3.
Proof. intros [??] [??]. split; [congruence|by etrans]. Qed.

Lemma effect_history s s' org id v :
  vlob_effect s s' → vlob_at s org id = Some v →
  ∃ v', vlob_at s' org id = Some v' ∧ history_extends v v' ∧
    (realm_in_maintenance s org (v_realm_id v) ∨
     v' = v ∨ ∃ x, v_data v' = v_data v ++ [x]).
Proof.
  intros [Hat _|org1 author realm_id id1 v1 Hm Hr Hv1 Hat _|org1 realm_id done Hm Hat _] Hv.
  - exists v. rewrite Hat. auto using history_extends_refl.
  - rewrite Hat. case_decide as E; [|exists v; auto using history_extends_refl].
    injection E as -> ->. exists v1. split; [done|].
    destruct Hv1 as [[? _]|(v0 & x & Hv0 & Hr0 & Hd)]; [congruence|]. simplify_eq.
    split; [|eauto]. split; [done|]. unfold metadata. rewrite Hd, fmap_app. by eexists.
  - rewrite Hat, Hv. cbn. eexists. split; [done|].
    case_decide as E; [|split; [done|auto]]. injection E as -> E. split.
    + destruct (reencrypted_similar done id v) as [? Hmeta]. split; [done|]. by rewrite Hmeta.
    + left. by rewrite E.
Qed.

(** ** Checkpoints *)

(** What the changes of a realm keep of an earlier state: an entry that is not
    newer than the checkpoint of [s] is the entry of [s], and a newer one has a
    higher version. *)
Record changes_extend (s s' : Backend) (org : OrganizationID) (realm_id : UUID) : Prop := {
  ce_checkpoint : ch_checkpoint (changes_of s org realm_id) <= ch_checkpoint (changes_of s' org realm_id);
  ce_old id a c n : ch_changes (changes_of s' org realm_id) !! id = Some (a, c, n) →
    c <= ch_checkpoint (changes_of s org realm_id) →
    ch_changes (changes_of s org realm_id) !! id = Some (a, c, n);
  ce_new id a c n a0 c0 n0 : ch_changes (changes_of s' org realm_id) !! id = Some (a, c, n) →
    ch_checkpoint (changes_of s org realm_id) < c →
    ch_changes (changes_of s org realm_id) !! id = Some (a0, c0, n0) → n0 < n;
  ce_kept id : is_Some (ch_changes (changes_of s org realm_id) !! id) →
    is_Some (ch_changes (changes_of s' org realm_id) !! id) }.

Lemma changes_extend_trans s1 s2 s3 org realm_id :
  changes_extend s1 s2 org realm_id → changes_extend s2 s3 org realm_id →
  changes_extend s1 s3 org realm_id.
Proof.
  intros [A1 A2 A3 A4] [B1 B2 B3 B4]. split; [lia| | |by auto].
  - intros id a c n Hc Hle. apply A2; [|done]. apply B2; [done|lia].
  - intros id a c n a0 c0 n0 Hc Hlt H0.
    destruct (decide (c <= ch_checkpoint (changes_of s2 org realm_id))) as [Hle|Hgt].
    + eapply A3; [by apply B2|done|done].
    + destruct (A4 id) as [[[a1 c1] n1] H1]; [eauto|].
      assert (n1 < n) by (eapply B3; [done|lia|done]).
      destruct (decide (c1 <= ch_checkpoint (changes_of s1 org realm_id))) as [Hle1|Hgt1].
      * apply A2 in H1; [|done]. simplify_eq. lia.
      * assert (n0 < n1) by (eapply A3; [done|lia|done]). lia.
Qed.

Lemma changes_extend_view s s' org realm_id :
  vlobs_ok s → changes_view s' org realm_id = changes_view s org realm_id →
  changes_extend s s' org realm_id.
Proof.
  intros Hs E. unfold changes_view in E. injection E as E1 E2. split; rewrite ?E1, ?E2; try done.
  intros id a c n a0 c0 n0 Hc Hlt. apply (vo_checkpoint _ Hs) in Hc. lia.
Qed.

Lemma effect_changes s s' org realm_id :
  vlobs_ok s → vlob_effect s s' → changes_extend s s' org realm_id.
Proof.
  intros Hs [_ Hch|org1 author realm1 id1 v1 Hm Hr Hv1 _ Hch|org1 realm1 done _ _ Hch].
  - by apply changes_extend_view.
  - specialize (Hch org realm_id). case_decide as E; [|by apply changes_extend_view].
    injection E as -> ->. unfold changes_view in Hch. injection Hch as E1 E2.
    split; rewrite ?E1, ?E2.
    + lia.
    + intros id a c n. destruct (decide (id = id1)) as [->|].
      * rewrite lookup_insert_eq. intros [= <- <- <-]. lia.
      * by rewrite lookup_insert_ne.
    + intros id a c n a0 c0 n0. destruct (decide (id = id1)) as [->|].
      * rewrite lookup_insert_eq. intros [= <- <- <-] _ H0.
        destruct (vo_changed _ Hs _ _ _ _ H0) as (v & Hv & Hvr).
        destruct (vo_changes _ Hs _ _ _ Hv) as (a2 & c2 & H2). rewrite Hvr in H2.
        destruct Hv1 as [[? _]|(v0 & x & Hv0 & _ & Hd)]; [congruence|]. simplify_eq.
        unfold current_version. rewrite Hd, length_app. cbn. lia.
      * rewrite lookup_insert_ne by done. intros Hc Hlt. apply (vo_checkpoint _ Hs) in Hc. lia.
    + intros id. destruct (decide (id = id1)) as [->|].
      * rewrite lookup_insert_eq. eauto.
      * by rewrite lookup_insert_ne.
  - by apply changes_extend_view.
Qed.

Section runs.
Context `{CertifApi}.

(** Several steps. *)
Lemma steps_ok s s' : backend_ok s → rtc backend_step s s' → backend_ok s'.
Proof. intros Hs Hr. induction Hr; eauto using backend_step_ok. Qed.

Lemma steps_changes s s' org realm_id :
  backend_ok s → rtc backend_step s s' → changes_extend s s' org realm_id.
Proof.
  intros Hs Hr. induction Hr as [s|s1 s2 s3 H1 Hr IH].
  - by apply changes_extend_view; [apply Hs|].
  - eapply changes_extend_trans; [|apply IH; by eapply backend_step_ok].
    apply effect_changes; [apply Hs|by apply step_vlob_effect].
Qed.

Lemma steps_history s s' org id v :
  backend_ok s → rtc backend_step s s' → vlob_at s org id = Some v →
  ∃ v', vlob_at s' org id = Some v' ∧ history_extends v v'.
Proof.
  intros Hs Hr. revert v. induction Hr as [s|s1 s2 s3 H1 Hr IH]; intros v Hv.
  - exists v. auto using history_extends_refl.
  - destruct (effect_history s1 s2 org id v) as (v2 & Hv2 & Hx & _); [by apply step_vlob_effect|done|].
    destruct (IH (backend_step_ok _ _ Hs H1) _ Hv2) as (v3 & ? & ?).
    exists v3. split; [done|]. by eapply history_extends_trans.
Qed.
End runs.
