(* ===== verification/BackendGrowth.v ===== *)
(** What the server never forgets: users and devices, messages, granted roles,
    blocks and root keys only grow, whatever the handlers that run. *)

From S2P Require Import Prelude Types Backend Certif BackendUser BackendMessage BackendVlob.
From S2P Require Import BackendVlobProofs BackendRealm BlockStore BackendBlock BackendOrganization.
From S2P Require Import BackendSystem.

(** ** Runs that keep a relation *)

(** Whatever the outcome of [m], it relates the states before and after. *)
Definition keeps {A} (R : relation Backend) (m : backendM A) : Prop :=
  ∀ s s' r, m s = (s', r) → R s s'.

Section keeps.
Context (R : relation Backend) `{!PreOrder R}.
Lemma keeps_pure {A} (m : backendM A) : (∀ s s' r, m s = (s', r) → s' = s) → keeps R m.
Proof. intros Hm s s' r ->%Hm. reflexivity. Qed.
Lemma keeps_ret {A} (a : A) : keeps R (mret a).
Proof. apply keeps_pure. by intros s s' r [= <- _]. Qed.
Lemma keeps_gets {A} (f : Backend → A) : keeps R (gets f).
Proof. apply keeps_pure. by intros s s' r [= <- _]. Qed.
Lemma keeps_raise_if b e : keeps R (raise_if b e).
Proof. apply keeps_pure. by intros s s' r [-> _]%raise_if_inv. Qed.
Lemma keeps_of_option {A} e (o : option A) : keeps R (of_option e o).
Proof. apply keeps_pure. by intros s s' r [-> _]%of_option_inv. Qed.
Lemma keeps_throw {A} (e : BackendExn) : keeps R (mthrow e : backendM A).
Proof. apply keeps_pure. by intros s s' r [= <- _]. Qed.
Lemma keeps_modify f : (∀ s, R s (f s)) → keeps R (modify f).
Proof. intros Hf s s' r [= <- _]. apply Hf. Qed.
Lemma keeps_bind {A B} (m : backendM A) (f : A → backendM B) :
  keeps R m → (∀ a, keeps R (f a)) → keeps R (m ≫= f).
Proof.
  intros Hm Hf s s' r [(a & s1 & H1 & H)|(e & H & _)]%bind_inv; [|by eapply Hm].
  etrans; [by eapply Hm|by eapply Hf].
Qed.
Lemma keeps_try_catch {A} (m : backendM A) h :
  keeps R m → (∀ e, keeps R (h e)) → keeps R (try_catch m h).
Proof.
  intros Hm Hh s s' r [(a & H & _)|(e & s1 & H1 & H)]%try_catch_inv; [by eapply Hm|].
  etrans; [by eapply Hm|by eapply Hh].
Qed.
Lemma keeps_for_each {A} (f : A → backendM unit) l :
  (∀ x, keeps R (f x)) → keeps R (for_each f l).
Proof. intros Hf. induction l; cbn; [apply keeps_ret|by apply keeps_bind]. Qed.
End keeps.

(** The search for a proof of [keeps] follows the code. *)
Ltac solve_keeps tac :=
  repeat lazymatch goal with
  | |- PreOrder _ => exact _
  | |- ∀ _, _ => intro
  | |- keeps _ (let _ := _ in _) => cbv zeta
  | |- keeps _ (mret _) => apply keeps_ret
  | |- keeps _ (gets _) => apply keeps_gets
  | |- keeps _ (raise_if _ _) => apply keeps_raise_if
  | |- keeps _ (of_option _ _) => apply keeps_of_option
  | |- keeps _ (mthrow _) => apply keeps_throw
  | |- keeps _ (mbind _ _) => apply keeps_bind
  | |- keeps _ (try_catch _ _) => apply keeps_try_catch
  | |- keeps _ (for_each _ _) => apply keeps_for_each
  | |- keeps _ (match _ with _ => _ end) => case_match
  | |- keeps _ _ => solve [tac]
  end.

(** ** Messages *)

Definition messages_grow (s s' : Backend) : Prop :=
  ∀ org u, messages_of s org u `prefix_of` messages_of s' org u.
#[export] Instance messages_grow_preorder : PreOrder messages_grow.
Proof.
  split; [by intros s org u|]. intros s1 s2 s3 H1 H2 org u. etrans; [apply H1|apply H2].
Qed.
Lemma messages_grow_eq s s' : be_messages s' = be_messages s → messages_grow s s'.
Proof. intros E org u. unfold messages_of. by rewrite E. Qed.
Lemma send_message_grow org sender u ts body : keeps messages_grow (send_message org sender u ts body).
Proof.
  intros s s' r H org' u'. destruct (messages_of_send _ _ _ _ _ _ _ _ org' u' H) as [_ ->].
  by eexists.
Qed.
Lemma modify_messages_grow f :
  (∀ s, be_messages (f s) = be_messages s) → keeps messages_grow (modify f).
Proof. intros Hf. apply keeps_modify. intros s. by apply messages_grow_eq. Qed.
Lemma update_roles_grow org x message : keeps messages_grow (update_roles org x message).
Proof.
  unfold update_roles, be_assert, get_user, get_realm, set_realm, send_backend_event.
  solve_keeps ltac:(first [by apply modify_messages_grow | apply send_message_grow]).
Qed.
Lemma collect_not_revoked_grow org now users :
  keeps messages_grow (collect_not_revoked org now users).
Proof. induction users; cbn; unfold get_user; solve_keeps assumption. Qed.
Lemma start_grow org author realm_id rev msgs ts now :
  keeps messages_grow (start_reencryption_maintenance org author realm_id rev msgs ts now).
Proof.
  unfold start_reencryption_maintenance, maintenance_reencryption_start_hook, be_assert, get_realm,
    set_realm, set_changes_of, send_backend_event.
  solve_keeps ltac:(first [by apply modify_messages_grow | apply send_message_grow
    | apply collect_not_revoked_grow]).
Qed.

(** ** The state *)

(** A later record of the same user: only its revocation can be new. *)
Definition later_user (user user' : User) : Prop :=
  user' = user ∨
  u_revoked_on user = None ∧
  ∃ on certificate certifier, user' = user_evolve_revoked user on certificate certifier.
#[export] Instance later_user_preorder : PreOrder later_user.
Proof.
  split; [by left|]. intros u1 u2 u3 [->|(H & on & c & a & ->)] [->|(H' & on' & c' & a' & ->)];
    unfold later_user; eauto 10.
Qed.

(** [s'] knows all that [s] knows. *)
Record grows (s s' : Backend) : Prop := {
  gw_users org u user : os_users (orgstore s org) !! u = Some user →
    ∃ user', os_users (orgstore s' org) !! u = Some user' ∧ later_user user user';
  gw_devices org d device : find_device (orgstore s org) d = Some device →
    find_device (orgstore s' org) d = Some device;
  gw_messages : messages_grow s s';
  gw_realms k r : be_realms s !! k = Some r → ∃ r', be_realms s' !! k = Some r' ∧
    r_granted_roles r `prefix_of` r_granted_roles r' ∧
    rs_encryption_revision (r_status r) <= rs_encryption_revision (r_status r');
  gw_blocks k block : be_blocks s !! k = Some block → be_blocks s' !! k = Some block;
  gw_blockmetas k meta : be_blockmetas s !! k = Some meta → be_blockmetas s' !! k = Some meta;
  gw_keys org o key : be_organizations s !! org = Some o → o_root_verify_key o = Some key →
    ∃ o', be_organizations s' !! org = Some o' ∧ o_root_verify_key o' = Some key }.
(** The parts of the state that a step leaves alone grow. *)
Ltac grow_frame :=
  cbn; try solve
    [ done | eauto | by apply messages_grow_eq
    | intros; eexists; split; [done|reflexivity]
    | intros; eexists; split_and!; [done|reflexivity|lia] ].

#[export] Instance grows_preorder : PreOrder grows.
Proof.
  split.
  - intros s. split; grow_frame.
  - intros s1 s2 s3 [A1 A2 A3 A4 A5 A6 A7] [B1 B2 B3 B4 B5 B6 B7].
    split; [| |by etrans| |by auto|by auto|].
    + intros org u user (u2 & (u3 & ? & ?)%B1 & ?)%A1. exists u3. split; [done|by etrans].
    + auto.
    + intros k r (r2 & (r3 & ? & ? & ?)%B4 & ? & ?)%A4. exists r3. split; [done|].
      split; [by etrans|lia].
    + intros org o key Ho Hk. destruct (A7 _ _ _ Ho Hk) as (o2 & Ho2 & Hk2). eauto.
Qed.

(** A step on the users of one organization. *)
Lemma grows_orgstore s s' org o :
  (∀ org', orgstore s' org' = if decide (org' = org) then o else orgstore s org') →
  (∀ u user, os_users (orgstore s org) !! u = Some user →
     ∃ user', os_users o !! u = Some user' ∧ later_user user user') →
  (∀ d device, find_device (orgstore s org) d = Some device → find_device o d = Some device) →
  s' = mkBackend (be_orgstores s') (be_messages s) (be_realms s) (be_vlobs s) (be_changes s)
         (be_blockmetas s) (be_blocks s) (be_organizations s) (be_events s') →
  grows s s'.
Proof.
  intros Ho Hu Hd E. split; [| |by apply messages_grow_eq; rewrite E|rewrite E; grow_frame..].
  - intros org' u user Huser. rewrite Ho. case_decide as Heq; [subst; auto|].
    exists user. split; [done|reflexivity].
  - intros org' d device Hdev. rewrite Ho. case_decide as Heq; [subst; auto|done].
Qed.

(** A step that does not touch the users. *)
Lemma grows_but_users s s' :
  be_orgstores s' = be_orgstores s → messages_grow s s' →
  (∀ k r, be_realms s !! k = Some r → ∃ r', be_realms s' !! k = Some r' ∧
    r_granted_roles r `prefix_of` r_granted_roles r' ∧
    rs_encryption_revision (r_status r) <= rs_encryption_revision (r_status r')) →
  be_blocks s' = be_blocks s → be_blockmetas s' = be_blockmetas s →
  be_organizations s' = be_organizations s → grows s s'.
Proof.
  intros E1 Hm Hr E2 E3 E4.   split; unfold orgstore; rewrite ?E1, ?E2, ?E3, ?E4; grow_frame.
Qed.
Lemma realm_inserted (s : Backend) org realm_id realm realm' :
  be_realms s !! (org, realm_id) = Some realm →
  r_granted_roles realm `prefix_of` r_granted_roles realm' →
  rs_encryption_revision (r_status realm) <= rs_encryption_revision (r_status realm') →
  ∀ k r, be_realms s !! k = Some r →
    ∃ r', <[(org, realm_id) := realm']> (be_realms s) !! k = Some r' ∧
    r_granted_roles r `prefix_of` r_granted_roles r' ∧
    rs_encryption_revision (r_status r) <= rs_encryption_revision (r_status r').
Proof.
  intros H0 Hp Hle k r Hr. destruct (decide (k = (org, realm_id))) as [->|].
  - rewrite lookup_insert_eq. exists realm'. by simplify_eq.
  - rewrite lookup_insert_ne by done. exists r. split_and!; [done|reflexivity|lia].
Qed.

(** ** The operations *)

Lemma create_user_grows org user d s s' r :
  all_users_ok s → d_user_id d = u_user_id user → create_user org user d s = (s', r) → grows s s'.
Proof.
  intros Hs Hd H. apply create_user_inv in H. cbn zeta in H.
  destruct (mem_users _ _ || _) eqn:E; [by destruct H as [-> _]|].
  destruct H as [_ ->]. apply orb_false_iff in E as [Hm _].
  apply bool_decide_eq_false, eq_None_not_Some in Hm.
  eapply grows_orgstore; [intros; apply orgstore_set_case| | |done].
  - intros u user' Hu. cbn. exists user'. rewrite lookup_insert_ne by congruence.
    split; [done|reflexivity].
  - intros d' device Hdev.
    change (find_device (set_device d (set_user user (orgstore s org))) d' = Some device).
    rewrite find_device_set. case_decide as E; [|done]. subst d'.
    apply (uo_devices _ (Hs org)) in Hdev as [_ [user' Hu]].
    unfold d_user_id in Hd. congruence.
Qed.
Lemma create_device_grows org d s s' r : create_device org d s = (s', r) → grows s s'.
Proof.
  intros [[-> _]|(_ & _ & Hf & ->)]%create_device_inv; [done|].
  eapply grows_orgstore; [intros; apply orgstore_set_case| | |done].
  - intros u user Hu. exists user. split; [done|reflexivity].
  - intros d' device Hdev. rewrite find_device_set. case_decide; [congruence|done].
Qed.
Lemma revoke_user_grows org u certificate certifier on now s s' r :
  revoke_user org u certificate certifier on now s = (s', r) → grows s s'.
Proof.
  intros H. apply revoke_user_inv in H. cbn zeta in H.
  destruct H as [[-> _]|(user & Hu & Hr & H)]; [done|].
  destruct (match u_human_handle user with Some _ => _ | None => _ end);
    destruct H as [_ ->];
    (eapply grows_orgstore; [intros; apply orgstore_set_case| |by intros|done]; cbn;
     intros u' user' Hu'; destruct (decide (u' = u)) as [->|];
       [rewrite lookup_insert_eq; simplify_eq; eexists; split; [done|right; eauto]
       |rewrite lookup_insert_ne by done; exists user'; split; [done|reflexivity]]).
Qed.
Lemma only_invitations_grows s s' : only_invitations s s' → grows s s'.
Proof.
  intros [Hsame E]. split; [| |by apply messages_grow_eq; rewrite E|rewrite E; grow_frame..].
  - intros org u user Hu. destruct (Hsame org) as (_ & -> & _). exists user.
    split; [done|reflexivity].
  - intros org d device Hd. unfold find_device, devices_of in *.
    by destruct (Hsame org) as (_ & _ & ->).
Qed.
Lemma create_block_grows org author block_id realm_id block s s' r :
  blocks_ok s → create_block org author block_id realm_id block s = (s', r) → grows s s'.
Proof.
  intros Hs H. apply create_block_inv in H as [[-> _]|(_ & _ & Hn & ->)]; [done|].
  split; grow_frame; intros k.
  - intros b Hb. rewrite lookup_insert_ne by congruence. done.
  - intros meta Hm. rewrite lookup_insert_ne; [done|]. intros <-.
    apply (bk_meta _ Hs) in Hm as (b & Hb & _). congruence.
Qed.
Lemma set_organization_grows s org o :
  (∀ o0 key, be_organizations s !! org = Some o0 → o_root_verify_key o0 = Some key →
     o_root_verify_key o = Some key) →
  grows s (set_organizations <[org := o]> s).
Proof.
  intros Hk. split; grow_frame. intros org' o0 key Ho Hkey.
  destruct (decide (org' = org)) as [->|].
  - rewrite lookup_insert_eq. eauto.
  - rewrite lookup_insert_ne by done. eauto.
Qed.

Lemma user_of_bootstrap_grows s org user d token key s' r :
  backend_ok s → d_user_id d = u_user_id user →
  organization_bootstrap org user d token key s = (s', r) → grows s s'.
Proof.
  intros Hs Hd H.
  apply organization_bootstrap_inv in H as [(-> & _)|(_ & o & s1 & Ho & Hk & _ & Hc & ->)]; [done|].
  pose proof (create_user_inv _ _ _ _ _ _ Hc) as Hinv. cbn zeta in Hinv.
  etrans; [by eapply create_user_grows, Hc; [apply Hs|]|].
  assert (be_organizations s1 = be_organizations s) as E.
  { destruct (mem_users _ _ || _); destruct Hinv as [? ?]; by subst. }
  apply set_organization_grows. rewrite E, (og_id _ (bo_orgs _ Hs) _ _ Ho). congruence.
Qed.

Section steps.
Context `{CertifApi}.

(** Every handler. *)
Lemma backend_step_grows s s' : backend_ok s → backend_step s s' → grows s s'.
Proof.
  intros Hs [now ctx msg r Hctx Hrun|now ctx c r Hctx Hrun|now ctx msg r Hctx Hrun|Hrun
    |now ctx c r Hctx Hrun|now ctx c m r Hctx Hrun|now now' ctx realm_id rev ts msgs r Hctx Hrun
    |ctx realm_id rev r Hctx Hrun|now ctx realm_id rev vlob_id ts blob r Hctx Hrun
    |now ctx rev vlob_id version ts blob r Hctx Hrun|ctx realm_id rev batch r Hctx Hrun
    |ctx block_id realm_id block r Hctx Hrun|token org date r Hrun|org date r Hrun
    |now org msg r Hrun].
  - apply api_user_create_runs in Hrun as [->|(user & d & r' & Hrun & Hr & Hd & _)]; [done|].
    by eapply create_user_grows, Hrun; [apply Hs|].
  - apply api_user_revoke_runs in Hrun as [->|(u & on & r' & Hrun)]; [done|].
    by eapply revoke_user_grows.
  - apply api_device_create_runs in Hrun as [->|(d & r' & Hrun & _)]; [done|].
    by eapply create_device_grows.
  - by apply only_invitations_grows.
  - apply api_realm_create_runs in Hrun as [->|(x & r' & Hrun & _)]; [done|].
    apply realm_create_inv in Hrun as [[-> _]|(_ & _ & _ & Hn & ->)]; [done|].
    split; grow_frame. intros k realm Hr. exists realm. rewrite lookup_insert_ne by congruence.
    split_and!; [done|reflexivity|lia].
  - apply api_realm_update_roles_runs in Hrun as [->|(x & r' & Hrun & Hne)]; [done|].
    pose proof (update_roles_grow _ _ _ _ _ _ Hrun) as Hm.
    apply update_roles_inv in Hrun as [[-> _]|(_ & user & realm & _ & _ & Hr & _ & _ & _ & E)];
      [done| |done].
    unfold same_but_messages in E. eapply grows_but_users; rewrite E; try done.
    eapply realm_inserted; [exact Hr|by eexists|cbn; lia].
  - unfold api_realm_start_reencryption_maintenance in Hrun.
    destruct (negb _); [by injection Hrun as <- _|].
    apply reply_of_inv in Hrun as (r' & Hrun & _).
    pose proof (start_grow _ _ _ _ _ _ _ _ _ _ Hrun) as Hm.
    apply start_inv in Hrun as [[-> _]|(_ & realm & Hr & _ & _ & Hrev & _ & _ & E)];
      [done| |apply Hs|apply Hs].
    unfold same_but_messages in E. eapply grows_but_users; rewrite E; try done.
    eapply (realm_inserted s); [exact Hr|done|cbn; lia].
  - apply reply_of_inv in Hrun as (r' & Hrun & _).
    apply finish_inv in Hrun as [[-> _]|(_ & realm & re & Hr & _ & _ & Hrev & _ & _ & _ & E & _)];
      [done| |apply Hs].
    eapply grows_but_users; rewrite E; try done; [by apply messages_grow_eq|].
    eapply (realm_inserted s); [exact Hr|done|cbn; lia].
  - unfold api_vlob_create in Hrun. destruct (negb _); [by injection Hrun as <- _|].
    apply reply_of_inv in Hrun as (r' & Hrun & _).
    apply vlob_create_inv in Hrun as [[-> _]|(_ & _ & _ & ->)]; [done|]. split; grow_frame.
  - unfold api_vlob_update in Hrun. do 2 (destruct (negb _); [by injection Hrun as <- _|]).
    apply reply_of_inv in Hrun as (r' & Hrun & _).
    apply vlob_update_inv in Hrun as [[-> _]|(_ & v & _ & _ & _ & _ & ->)]; [done|].
    split; grow_frame.
  - unfold api_vlob_maintenance_save_reencryption_batch in Hrun.
    destruct (negb _); [by injection Hrun as <- _|].
    apply reply_of_inv in Hrun as (r' & Hrun & _).
    apply save_reencryption_batch_inv in Hrun as [[-> _]|(_ & re & re' & _ & _ & ->)]; [done|].
    split; grow_frame.
  - apply reply_of_inv in Hrun as (r' & Hrun & _). by eapply create_block_grows, Hrun; apply Hs.
  - apply reply_of_inv in Hrun as (r' & Hrun & _).
    apply organization_create_inv in Hrun as [[-> _]|(_ & Hn & ->)]; [done|].
    apply set_organization_grows. intros o0 key Ho Hk. apply Hn in Ho. congruence.
  - apply reply_of_inv in Hrun as (r' & Hrun & _).
    apply set_expiration_date_inv in Hrun as [[-> _]|(_ & o & Ho & ->)]; [done|].
    apply set_organization_grows. intros o0 key Ho0 Hk. cbn. congruence.
  - apply api_organization_bootstrap_runs in Hrun
      as [->|(user & d & token & key & r' & Hrun & Hr & Hd & _)]; [done|].
    by eapply user_of_bootstrap_grows.
Qed.

(** Several steps. *)
Lemma steps_grow s s' : backend_ok s → rtc backend_step s s' → grows s s'.
Proof.
  intros Hs Hr. induction Hr as [s|s1 s2 s3 H1 Hr IH]; [done|].
  etrans; [by apply backend_step_grows|]. apply IH. by eapply backend_step_ok.
Qed.
End steps.

(** ** Certifiers *)

Definition certified_by (user : User) (d : DeviceID) : Prop :=
  u_user_certifier user = Some d ∨ u_revoked_user_certifier user = Some d.
Definition device_known (s : Backend) (org : OrganizationID) (d : DeviceID) : Prop :=
  is_Some (find_device (orgstore s org) d).
(** Who certified a user, its revocation or a device is a device of the
    organization. *)
Record certifiers_ok (s : Backend) : Prop := {
  co_users org u user d : os_users (orgstore s org) !! u = Some user → certified_by user d →
    device_known s org d;
  co_devices org d0 device d : find_device (orgstore s org) d0 = Some device →
    d_device_certifier device = Some d → device_known s org d }.

Lemma device_known_grows s s' org d : grows s s' → device_known s org d → device_known s' org d.
Proof. intros Hg [device Hd]. exists device. by apply Hg. Qed.

Lemma certifiers_step s s' :
  certifiers_ok s → grows s s' →
  (∀ org u user d, os_users (orgstore s' org) !! u = Some user → certified_by user d →
     device_known s org d ∨
     ∃ user0, os_users (orgstore s org) !! u = Some user0 ∧ certified_by user0 d) →
  (∀ org d0 device d, find_device (orgstore s' org) d0 = Some device →
     d_device_certifier device = Some d →
     device_known s org d ∨ find_device (orgstore s org) d0 = Some device) →
  certifiers_ok s'.
Proof.
  intros [H1 H2] Hg Hu Hd. split.
  - intros org u user d Huser Hc. eapply device_known_grows; [exact Hg|].
    destruct (Hu _ _ _ _ Huser Hc) as [|(user0 & ? & ?)]; eauto.
  - intros org d0 device d Hdev Hc. eapply device_known_grows; [exact Hg|].
    destruct (Hd _ _ _ _ Hdev Hc) as [|?]; eauto.
Qed.
Lemma certifiers_same s s' : certifiers_ok s → be_orgstores s' = be_orgstores s → certifiers_ok s'.
Proof.
  intros [H1 H2] E. unfold device_known, orgstore in *.
  split; intros *; unfold device_known, orgstore in *; rewrite E; eauto.
Qed.

Lemma create_user_certifiers org user d s s' r :
  (∀ c, certified_by user c ∨ d_device_certifier d = Some c → device_known s org c) →
  certifiers_ok s → all_users_ok s → d_user_id d = u_user_id user →
  create_user org user d s = (s', r) → certifiers_ok s'.
Proof.
  intros Hc Hs Hu Hd H. pose proof (create_user_grows _ _ _ _ _ _ Hu Hd H) as Hg.
  apply create_user_inv in H. cbn zeta in H.
  destruct (mem_users _ _ || _) eqn:E; [by destruct H as [-> _]|]. destruct H as [_ ->].
  eapply certifiers_step; [done|exact Hg| |]; intros org'; rewrite orgstore_add_event, orgstore_set_case.
  - intros u user' c. case_decide as Eo; [|eauto]. subst org'. cbn.
    destruct (decide (u = u_user_id user)) as [->|].
    + rewrite lookup_insert_eq. intros [= <-] ?. auto.
    + rewrite lookup_insert_ne by done. eauto.
  - intros d0 device c. case_decide as Eo; [|eauto]. subst org'.
    intros Hdev. change (find_device (set_device d (set_user user (orgstore s org))) d0 = Some device)
      in Hdev.
    rewrite find_device_set in Hdev. case_decide; [|auto]. injection Hdev as <-. auto.
Qed.
Lemma create_device_certifiers org d s s' r :
  (∀ c, d_device_certifier d = Some c → device_known s org c) →
  certifiers_ok s → create_device org d s = (s', r) → certifiers_ok s'.
Proof.
  intros Hc Hs H. pose proof (create_device_grows _ _ _ _ _ H) as Hg.
  apply create_device_inv in H as [[-> _]|(_ & _ & _ & ->)]; [done|].
  eapply certifiers_step; [done|exact Hg| |]; intros org'; rewrite orgstore_set_case.
  - intros u user c. case_decide as Eo; [subst|]; cbn; eauto.
  - intros d0 device c. case_decide as Eo; [|eauto]. subst org'.
    rewrite find_device_set. case_decide; [|auto]. intros [= <-] ?. auto.
Qed.
Lemma revoke_user_certifiers org u certificate certifier on now s s' r :
  device_known s org certifier → certifiers_ok s →
  revoke_user org u certificate certifier on now s = (s', r) → certifiers_ok s'.
Proof.
  intros Hc Hs H. pose proof (revoke_user_grows _ _ _ _ _ _ _ _ _ H) as Hg.
  apply revoke_user_inv in H. cbn zeta in H.
  destruct H as [[-> _]|(user & Hu & Hr & H)]; [done|].
  assert (∃ o, (∀ org', orgstore s' org' = if decide (org' = org) then o else orgstore s org') ∧
    os_users o = <[u := user_evolve_revoked user (default now on) certificate certifier]>
                   (os_users (orgstore s org)) ∧
    ∀ d, find_device o d = find_device (orgstore s org) d) as (o & Ho & Eu & Ed).
  { destruct (match u_human_handle user with Some _ => _ | None => _ end);
      destruct H as [_ ->]; eexists;
      (split; [intros; rewrite ?orgstore_add_event; apply orgstore_set_case|done]). }
  eapply certifiers_step; [done|exact Hg| |]; intros org'; rewrite Ho.
  - intros u' user' c. case_decide as Eo; [|eauto]. subst org'. rewrite Eu.
    destruct (decide (u' = u)) as [->|].
    + rewrite lookup_insert_eq. intros [= <-] [Hby|[= <-]]; [|auto].
      right. exists user. split; [done|]. by left.
    + rewrite lookup_insert_ne by done. eauto.
  - intros d0 device c. case_decide as Eo; [|eauto]. subst org'. rewrite Ed. auto.
Qed.

Section certifiers.
Context `{CertifApi}.

Lemma step_certifiers s s' : backend_ok s → certifiers_ok s → backend_step s s' → certifiers_ok s'.
Proof.
  intros Hok Hs Hstep. pose proof (backend_step_grows _ _ Hok Hstep) as Hg.
  destruct Hstep as [now ctx msg r Hctx Hrun|now ctx c r Hctx Hrun|now ctx msg r Hctx Hrun|Hrun
    |now ctx c r Hctx Hrun|now ctx c m r Hctx Hrun|now now' ctx realm_id rev ts msgs r Hctx Hrun
    |ctx realm_id rev r Hctx Hrun|now ctx realm_id rev vlob_id ts blob r Hctx Hrun
    |now ctx rev vlob_id version ts blob r Hctx Hrun|ctx realm_id rev batch r Hctx Hrun
    |ctx block_id realm_id block r Hctx Hrun|token org date r Hrun|org date r Hrun
    |now org msg r Hrun].
  all: try (assert (device_known s (cc_organization_id ctx) (cc_device_id ctx)) as Hdev
    by (destruct Hctx as (? & _ & _ & ?); done)).
  - apply api_user_create_runs in Hrun as [->|(user & d & r' & Hrun & _ & Hd & Hu1 & Hu2 & Hd1)]; [done|].
    eapply create_user_certifiers, Hrun; [|done|apply Hok|done].
    intros c. unfold certified_by. rewrite Hu1, Hu2, Hd1. naive_solver.
  - apply api_user_revoke_runs in Hrun as [->|(u & on & r' & Hrun)]; [done|].
    by eapply revoke_user_certifiers, Hrun.
  - apply api_device_create_runs in Hrun as [->|(d & r' & Hrun & Hd)]; [done|].
    eapply create_device_certifiers, Hrun; [|done]. rewrite Hd. naive_solver.
  - destruct Hrun as [Hsame _].
    eapply certifiers_step; [done|done| |]; intros org; destruct (Hsame org) as (_ & Eu & Ed).
    + rewrite Eu. eauto.
    + intros d0 device d. unfold find_device, devices_of. rewrite Ed. auto.
  - apply api_realm_create_runs in Hrun as [->|(x & r' & Hrun & _)]; [done|].
    apply realm_create_inv in Hrun as [[-> _]|(_ & _ & _ & Hn & ->)]; [done|]. by eapply certifiers_same.
  - apply api_realm_update_roles_runs in Hrun as [->|(x & r' & Hrun & Hne)]; [done|].
    apply update_roles_inv in Hrun as [[-> _]|(_ & user & realm & _ & _ & Hr & _ & _ & _ & E)];
      [done| |done].
    by eapply certifiers_same; [|rewrite E].
  - unfold api_realm_start_reencryption_maintenance in Hrun.
    destruct (negb _); [by injection Hrun as <- _|].
    apply reply_of_inv in Hrun as (r' & Hrun & _).
    apply start_inv in Hrun as [[-> _]|(_ & realm & Hr & _ & _ & Hrev & _ & _ & E)];
      [done| |apply Hok|apply Hok].
    by eapply certifiers_same; [|rewrite E].
  - apply reply_of_inv in Hrun as (r' & Hrun & _).
    apply finish_inv in Hrun as [[-> _]|(_ & realm & re & Hr & _ & _ & Hrev & _ & _ & _ & E & _)];
      [done| |apply Hok].
    by eapply certifiers_same; [|rewrite E].
  - unfold api_vlob_create in Hrun. destruct (negb _); [by injection Hrun as <- _|].
    apply reply_of_inv in Hrun as (r' & Hrun & _).
    apply vlob_create_inv in Hrun as [[-> _]|(_ & _ & _ & ->)]; [done|]. by eapply certifiers_same.
  - unfold api_vlob_update in Hrun. do 2 (destruct (negb _); [by injection Hrun as <- _|]).
    apply reply_of_inv in Hrun as (r' & Hrun & _).
    apply vlob_update_inv in Hrun as [[-> _]|(_ & v & _ & _ & _ & _ & ->)]; [done|].
    by eapply certifiers_same.
  - unfold api_vlob_maintenance_save_reencryption_batch in Hrun.
    destruct (negb _); [by injection Hrun as <- _|].
    apply reply_of_inv in Hrun as (r' & Hrun & _).
    apply save_reencryption_batch_inv in Hrun as [[-> _]|(_ & re & re' & _ & _ & ->)]; [done|].
    by eapply certifiers_same.
  - apply reply_of_inv in Hrun as (r' & Hrun & _).
    apply create_block_inv in Hrun as [[-> _]|(_ & _ & Hn & ->)]; [done|]. by eapply certifiers_same.
  - apply reply_of_inv in Hrun as (r' & Hrun & _).
    apply organization_create_inv in Hrun as [[-> _]|(_ & Hn & ->)]; [done|]. by eapply certifiers_same.
  - apply reply_of_inv in Hrun as (r' & Hrun & _).
    apply set_expiration_date_inv in Hrun as [[-> _]|(_ & o & Ho & ->)]; [done|].
    by eapply certifiers_same.
  - apply api_organization_bootstrap_runs in Hrun
      as [->|(user & d & token & key & r' & Hrun & _ & Hd & Hu1 & Hu2 & Hd1)]; [done|].
    apply organization_bootstrap_inv in Hrun as [(-> & _)|(_ & o & s1 & _ & _ & _ & Hc & ->)]; [done|].
    assert (certifiers_ok s1); [|by eapply certifiers_same].
    eapply create_user_certifiers, Hc; [|done|apply Hok|done].
    intros c. unfold certified_by. rewrite Hu1, Hu2, Hd1. naive_solver.
Qed.

Lemma reachable_certifiers s : reachable s → certifiers_ok s.
Proof.
  unfold reachable. intros Hr. assert (∀ s0 s, rtc backend_step s0 s → backend_ok s0 →
    certifiers_ok s0 → certifiers_ok s) as Hind.
  { clear. intros s0 s Hr. induction Hr; eauto using backend_step_ok, step_certifiers. }
  eapply Hind; [done|apply backend_ok_empty|].
  split; intros *.
  - unfold orgstore. cbn. by rewrite !lookup_empty.
  - unfold find_device, devices_of, orgstore. cbn. by rewrite !lookup_empty.
Qed.

(** The devices that a trustchain needs are known. *)
Lemma trust_next_known s org d d' :
  certifiers_ok s → all_users_ok s → trust_next (orgstore s org) d d' →
  trust_known (orgstore s org) d'.
Proof.
  intros Hc Hu (user & device & Huser & Hdev & Hby).
  assert (device_known s org d') as [device' Hd'].
  { destruct Hby as [Hby|[Hby|Hby]]; [by eapply (co_devices _ Hc)|..];
      eapply (co_users _ Hc); [exact Huser| |exact Huser|]; [by right|by left]. }
  split; [|by exists device']. by apply (uo_devices _ (Hu org)) in Hd' as [_ ?].
Qed.
Lemma trust_reach_known s org ids d :
  certifiers_ok s → all_users_ok s →
  (∀ d0, Some d0 ∈ ids → device_known s org d0) →
  trust_reach (orgstore s org) ids d → trust_known (orgstore s org) d.
Proof.
  intros Hc Hu Hids (d0 & Hd0 & Hr).
  assert (trust_known (orgstore s org) d0) as Hk0.
  { destruct (Hids _ Hd0) as [device Hdev]. split; [|by exists device].
    by apply (uo_devices _ (Hu org)) in Hdev as [_ ?]. }
  destruct (rtc_inv_r _ _ Hr) as [->|(d1 & _ & Hn)]; [done|]. by eapply trust_next_known.
Qed.
End certifiers.
