(* ===== verification/BackendExample.v ===== *)
(** A run of the server: an organization with an administrator and a second user,
    a realm that they share and a vlob in it. The theorems on the server are tried
    on the states of this run. Keys are one byte, a signature is this byte in
    front of the data, and the data are the numbers of the certificates. *)

From S2P Require Import Prelude Types Backend Certif BackendUser BackendMessage BackendVlob.
From S2P Require Import BackendRealm BlockStore BackendBlock BackendOrganization BackendSystem.
Import Byte.

Definition alice : DeviceID := mkDeviceID "alice" "laptop".
Definition bob : DeviceID := mkDeviceID "bob" "laptop".
Definition carol : DeviceID := mkDeviceID "carol" "phone".
Definition root_key : VerifyKey := [x52].
Definition alice_key : VerifyKey := [x41].
Definition bob_key : VerifyKey := [x42].
Definition ex_handle (name : string) : option HumanHandle :=
  Some (mkHumanHandle (name +:+ "@example.org") name).

#[export] Instance ex_certif : CertifApi := {|
  key_verify key signed :=
    match signed with
    | b :: raw => if bool_decide (key = [b]) then Some raw else None
    | [] => None
    end;
  loads_user raw :=
    match raw with
    | [x01] => Some (mkUserCertificateFields None 0 "alice" (ex_handle "alice") [x61] true None)
    | [x02] => Some (mkUserCertificateFields None 0 "alice" None [x61] true None)
    | [x05] => Some (mkUserCertificateFields (Some alice) 1 "bob" (ex_handle "bob") [x62] false None)
    | [x06] => Some (mkUserCertificateFields (Some alice) 1 "bob" None [x62] false None)
    | [x11] => Some (mkUserCertificateFields (Some alice) 1 "carol" (ex_handle "carol") [x63] false
                       (Some OUTSIDER))
    | [x12] => Some (mkUserCertificateFields (Some alice) 1 "carol" None [x63] false (Some OUTSIDER))
    | _ => None
    end;
  loads_revoked_user raw :=
    match raw with
    | [x20] => Some (mkRevokedUserCertificateContent alice 9 "bob")
    | _ => None
    end;
  loads_device raw :=
    match raw with
    | [x03] => Some (mkDeviceCertificateContent None 0 alice (Some "desk"%string) alice_key)
    | [x04] => Some (mkDeviceCertificateContent None 0 alice None alice_key)
    | [x07] => Some (mkDeviceCertificateContent (Some alice) 1 bob (Some "desk"%string) bob_key)
    | [x08] => Some (mkDeviceCertificateContent (Some alice) 1 bob None bob_key)
    | [x13] => Some (mkDeviceCertificateContent (Some alice) 1 carol (Some "desk"%string) [x43])
    | [x14] => Some (mkDeviceCertificateContent (Some alice) 1 carol None [x43])
    | _ => None
    end;
  loads_realm_role raw :=
    match raw with
    | [x09] => Some (build_realm_root_certif alice 2 1%N)
    | [x0a] => Some (mkRealmRoleCertificateContent alice 3 1%N "bob" (Some CONTRIBUTOR))
    | [x0b] => Some (mkRealmRoleCertificateContent alice 8 1%N "bob" None)
    | [x0c] => Some (mkRealmRoleCertificateContent bob 4 1%N "alice" (Some READER))
    | [x0d] => Some (mkRealmRoleCertificateContent alice 4 1%N "carol" (Some MANAGER))
    | [x0e] => Some (mkRealmRoleCertificateContent alice 3 1%N "bob" (Some OWNER))
    | [x0f] => Some (mkRealmRoleCertificateContent bob 1 1%N "alice" None)
    | _ => None
    end |}.

Definition alice_ctx : ClientCtx := mkClientCtx "org" alice ADMIN alice_key.
Definition bob_ctx : ClientCtx := mkClientCtx "org" bob STANDARD bob_key.

(** The requests of the run. *)
Definition bootstrap_req : OrganizationBootstrapReq :=
  mkOrganizationBootstrapReq "token" root_key [x52; x01] [x52; x03] (Some [x52; x02]) (Some [x52; x04]).
Definition bob_req : UserCreateReq :=
  mkUserCreateReq [x41; x05] [x41; x07] [x41; x06] [x41; x08].
Definition carol_req : UserCreateReq :=
  mkUserCreateReq [x41; x11] [x41; x13] [x41; x12] [x41; x14].

(** Its states: [ex_shared] has the two users and the realm 1, [ex_written] the
    vlob 7 in two versions and the block 9, [ex_maintenance] a reencryption of
    the realm, [ex_saved] all the versions encrypted again. *)
Definition ex_created := (api_organization_create "token" "org" None empty_backend).1.
Definition ex_bootstrapped := (api_organization_bootstrap 0 "org" bootstrap_req ex_created).1.
Definition ex_bob := (api_user_create 1 alice_ctx bob_req ex_bootstrapped).1.
Definition ex_users := (api_user_create 1 alice_ctx carol_req ex_bob).1.
Definition ex_realm := (api_realm_create 2 alice_ctx [x41; x09] ex_users).1.
Definition ex_shared := (api_realm_update_roles 3 alice_ctx [x41; x0a] (Some [x6d]) ex_realm).1.
Definition ex_vlob := (api_vlob_create 4 bob_ctx 1 1 7 4 [x76; x31] ex_shared).1.
Definition ex_vlob2 := (api_vlob_update 5 alice_ctx 1 7 2 5 [x76; x32] ex_vlob).1.
Definition ex_written := (api_block_create bob_ctx 9 1 [x62; x6c; x6b] ex_vlob2).1.
Definition ex_maintenance :=
  (api_realm_start_reencryption_maintenance 6 6 alice_ctx 1 2 6
     [("alice"%string, [x01]); ("bob"%string, [x02])] ex_written).1.
Definition ex_saved :=
  (api_vlob_maintenance_save_reencryption_batch alice_ctx 1 2
     [(7%N, 1, [x77; x31]); (7%N, 2, [x77; x32])] ex_maintenance).1.
Definition ex_finished := (api_realm_finish_reencryption_maintenance alice_ctx 1 2 ex_saved).1.

(** The run is a run. *)
Lemma ex_alice_ok s :
  bool_decide (u_profile <$> os_users (orgstore s "org") !! "alice"%string = Some ADMIN) &&
  bool_decide (is_Some (find_device (orgstore s "org") alice)) = true → ctx_ok s alice_ctx.
Proof.
  intros [H%bool_decide_eq_true Hd%bool_decide_eq_true]%andb_true_iff. unfold ctx_ok. cbn.
  unfold cc_user_id. cbn. destruct (os_users (orgstore s "org") !! "alice"%string) as [u|]; [|done].
  exists u. injection H as <-. done.
Qed.
Lemma ex_bob_ok s :
  bool_decide (u_profile <$> os_users (orgstore s "org") !! "bob"%string = Some STANDARD) &&
  bool_decide (is_Some (find_device (orgstore s "org") bob)) = true → ctx_ok s bob_ctx.
Proof.
  intros [H%bool_decide_eq_true Hd%bool_decide_eq_true]%andb_true_iff. unfold ctx_ok. cbn.
  unfold cc_user_id. cbn. destruct (os_users (orgstore s "org") !! "bob"%string) as [u|]; [|done].
  exists u. injection H as <-. done.
Qed.
Lemma ex_created_reachable : reachable ex_created.
Proof. apply rtc_once. eapply (StepOrganizationCreate _ ex_created), surjective_pairing. Qed.
Lemma ex_bootstrapped_reachable : reachable ex_bootstrapped.
Proof.
  eapply rtc_r; [exact ex_created_reachable|].
  eapply (StepOrganizationBootstrap _ ex_bootstrapped), surjective_pairing.
Qed.
Lemma ex_realm_reachable : reachable ex_realm.
Proof.
  eapply rtc_r; [eapply rtc_r; [eapply rtc_r; [exact ex_bootstrapped_reachable|]|]|].
  - eapply (StepUserCreate _ ex_bob), surjective_pairing. apply ex_alice_ok. by vm_compute.
  - eapply (StepUserCreate _ ex_users), surjective_pairing. apply ex_alice_ok. by vm_compute.
  - eapply (StepRealmCreate _ ex_realm), surjective_pairing. apply ex_alice_ok. by vm_compute.
Qed.
Lemma ex_shared_reachable : reachable ex_shared.
Proof.
  eapply rtc_r; [exact ex_realm_reachable|].
  eapply (StepRealmUpdateRoles _ ex_shared), surjective_pairing. apply ex_alice_ok. by vm_compute.
Qed.
Lemma ex_vlob2_steps : rtc backend_step ex_shared ex_vlob2.
Proof.
  eapply rtc_l; [|apply rtc_once].
  - eapply (StepVlobCreate _ ex_vlob), surjective_pairing. apply ex_bob_ok. by vm_compute.
  - eapply (StepVlobUpdate _ ex_vlob2), surjective_pairing. apply ex_alice_ok. by vm_compute.
Qed.
Lemma ex_written_steps : rtc backend_step ex_shared ex_written.
Proof.
  eapply rtc_r; [exact ex_vlob2_steps|].
  eapply (StepBlockCreate _ ex_written), surjective_pairing. apply ex_bob_ok. by vm_compute.
Qed.
Lemma ex_written_eq : api_block_create bob_ctx 9 1 [x62; x6c; x6b] ex_vlob2 = (ex_written, Ok (RepOk tt)).
Proof. vm_compute. reflexivity. Qed.
Lemma ex_maintenance_steps : rtc backend_step ex_written ex_maintenance.
Proof.
  apply rtc_once. eapply (StepRealmStart _ ex_maintenance), surjective_pairing.
  apply ex_alice_ok. by vm_compute.
Qed.
Lemma ex_saved_steps : rtc backend_step ex_maintenance ex_saved.
Proof.
  apply rtc_once. eapply (StepVlobSaveBatch _ ex_saved), surjective_pairing.
  apply ex_alice_ok. by vm_compute.
Qed.
Lemma reachable_steps `{CertifApi} s s' : reachable s → rtc backend_step s s' → reachable s'.
Proof. unfold reachable. intros. by etrans. Qed.
Lemma ex_vlob2_reachable : reachable ex_vlob2.
Proof. exact (reachable_steps _ _ ex_shared_reachable ex_vlob2_steps). Qed.
Lemma ex_written_reachable : reachable ex_written.
Proof. exact (reachable_steps _ _ ex_shared_reachable ex_written_steps). Qed.
Lemma ex_maintenance_reachable : reachable ex_maintenance.
Proof. exact (reachable_steps _ _ ex_written_reachable ex_maintenance_steps). Qed.
Lemma ex_saved_reachable : reachable ex_saved.
Proof. exact (reachable_steps _ _ ex_maintenance_reachable ex_saved_steps). Qed.

(** Another run after [ex_realm]: two owners, one of which removes the other with a
    certificate that is older than the creation of the realm. *)
Definition ex_owners := (api_realm_update_roles 3 alice_ctx [x41; x0e] None ex_realm).1.
Definition ex_removed := (api_realm_update_roles 4 bob_ctx [x42; x0f] None ex_owners).1.
Lemma ex_owners_reachable : reachable ex_owners.
Proof.
  eapply rtc_r; [exact ex_realm_reachable|].
  eapply (StepRealmUpdateRoles _ ex_owners), surjective_pairing. apply ex_alice_ok. by vm_compute.
Qed.

(** What the run leaves. *)
Example ex_finished_vlob :
  od_get (be_vlobs ex_finished) ("org"%string, 7%N) =
    Some (mkVlob 1 [([x77; x31], bob, 4); ([x77; x32], alice, 5)]).
Proof. vm_compute. reflexivity. Qed.
Example ex_messages :
  messages_of ex_finished "org" "bob" = [(alice, 3, [x6d]); (alice, 6, [x02])].
Proof. vm_compute. reflexivity. Qed.

(** The states are for [vm_compute] only. *)
#[global] Opaque ex_created ex_bootstrapped ex_vlob2 ex_realm ex_shared ex_written ex_maintenance ex_saved ex_finished ex_owners
  ex_removed.
