(* ===== verification/BackendProperties.v ===== *)
(** The theorems on the server. They hold in every state that the server reaches;
    the witnesses apply them to the states of the run of [BackendExample]. *)

From S2P Require Import Prelude Types Backend Certif BackendUser BackendMessage BackendVlob.
From S2P Require Import BackendVlobProofs BackendRealm BlockStore BackendBlock BackendOrganization.
From S2P Require Import BackendSystem BackendVlobSpec BackendRealmSpec BackendEffects BackendGrowth.
From S2P Require Import BackendExample.

Import Byte.

Section properties.
Context `{CertifApi}.

(** ** Invariants *)

(** C20: every realm of a reachable state has an owner; who has a role in it is a
    user of the organization, and an outsider is neither owner nor manager. *)
Theorem realm_roles_invariant s org realm_id realm :
  reachable s → be_realms s !! (org, realm_id) = Some realm →
  (∃ u, role_of realm u = Some OWNER) ∧
  ∀ u role, role_of realm u = Some role →
    ∃ user, os_users (orgstore s org) !! u = Some user ∧
      (u_profile user = OUTSIDER → role ≠ MANAGER ∧ role ≠ OWNER).
Proof.
  intros Hs Hr. apply reachable_ok, bo_roles in Hs.
  split; [by eapply rk_owned|]. intros u role. by eapply rk_role.
Qed.

(** In every reachable state the directory of the emails is exact: it gives
    a user for an email if and only if this user has the email and is not revoked,
    so that two users that are not revoked have different emails. *)
Theorem email_directory s org e u :
  reachable s →
  (os_human_handle_to_user_id (orgstore s org) !! e = Some u ↔
   ∃ user h, os_users (orgstore s org) !! u = Some user ∧ u_human_handle user = Some h ∧
     email h = e ∧ u_revoked_on user = None) ∧
  ∀ u1 u2 user1 user2 h1 h2,
    os_users (orgstore s org) !! u1 = Some user1 → os_users (orgstore s org) !! u2 = Some user2 →
    u_human_handle user1 = Some h1 → u_human_handle user2 = Some h2 → email h1 = email h2 →
    u_revoked_on user1 = None → u_revoked_on user2 = None → u1 = u2.
Proof.
  intros Hs. apply reachable_ok in Hs. pose proof (bo_users _ Hs org) as Hu.
  split; [apply (uo_handles _ Hu)|].
  intros u1 u2 user1 user2 h1 h2 H1 H2 Hh1 Hh2 He Hr1 Hr2.
  assert (os_human_handle_to_user_id (orgstore s org) !! email h1 = Some u1) as E1
    by (apply (uo_handles _ Hu); by exists user1, h1).
  assert (os_human_handle_to_user_id (orgstore s org) !! email h1 = Some u2) as E2
    by (apply (uo_handles _ Hu); exists user2, h2; by rewrite He).
  congruence.
Qed.

(** C21: whatever the server does after a reachable state, it still has all the
    users with their certificates, the devices, the messages in their order, the
    granted roles, the blocks and the root keys that it had; revisions of realms
    never decrease and a revocation is never undone. *)
Theorem nothing_forgotten s s' : reachable s → rtc backend_step s s' → grows s s'.
Proof. intros Hs. apply steps_grow. by apply reachable_ok. Qed.

(** ** Vlobs *)

(** C22: a vlob never goes away, stays in its realm, and its versions keep their
    authors and dates whatever happens later; one step never changes a version of
    a vlob whose realm is not in maintenance: it adds at most one version. The
    dates of the versions never decrease. *)
Theorem vlob_history s s' org id v :
  reachable s → rtc backend_step s s' → vlob_at s org id = Some v →
  history_ok v ∧
  (∃ v', vlob_at s' org id = Some v' ∧ history_extends v v') ∧
  (backend_step s s' → ¬ realm_in_maintenance s org (v_realm_id v) →
   vlob_at s' org id = Some v ∨
   ∃ x, vlob_at s' org id = Some (mkVlob (v_realm_id v) (v_data v ++ [x]))).
Proof.
  intros Hs Hr Hv. apply reachable_ok in Hs. split_and!.
  - eapply (vo_history _ (bo_vlobs _ Hs)), Hv.
  - by eapply steps_history.
  - intros Hstep Hm.
    destruct (effect_history s s' org id v) as (v' & Hv' & [Hrealm _] & [?|[->|[x Hx]]]);
      [by apply step_vlob_effect|done|done|by left|].
    right. exists x. rewrite Hv'. destruct v'. cbn in *. by subst.
Qed.

(** A reader of the realm gets exactly the version it asks for: the one with
    the number, the last one that is not after the date, or the last one. Any
    other client is refused with the reason; the state does not change. *)
Theorem vlob_read_correct s ctx rev vlob_id version timestamp :
  reachable s →
  let org := cc_organization_id ctx in
  ∃ rep, api_vlob_read ctx rev vlob_id version timestamp s = (s, Ok rep) ∧
    match vlob_at s org vlob_id with
    | None => rep = RepError "not_found" ∨ rep = RepError "bad_message"
    | Some v =>
        match vlob_refusal s org (v_realm_id v) (cc_user_id ctx) (Some rev) can_read_roles false with
        | None => access_granted s org (v_realm_id v) (cc_user_id ctx) can_read_roles false ∧
                  revision_is s org (v_realm_id v) rev ∧ read_answers v version timestamp rep
        | Some e => rep = RepError (refusal_status e) ∨ rep = RepError "bad_message"
        end
    end.
Proof.
  cbn zeta. intros Hs. apply reachable_ok, bo_vlobs in Hs. unfold api_vlob_read, cc_user_id.
  destruct (match version with Some v => validate_version v | None => true end) eqn:Hval; cbn [negb].
  2: { exists (RepError "bad_message"). split; [done|]. destruct version as [n|]; [|done].
       unfold validate_version in Hval. destruct (vlob_at _ _ _) as [v|]; [|by right].
       destruct (vlob_refusal _ _ _ _ _ _ _) eqn:Href; [by right|].
       apply vlob_refusal_None in Href as [Hacc Hrev]. split_and!; [done|by apply Hrev|].
       constructor. lia. }
  rewrite (reply_of_eq _ _ _ s s _ (vlob_read_eq _ _ _ _ _ _ _)).
  destruct (vlob_at s _ vlob_id) as [v|] eqn:Hv; [|by eexists; split; [done|left]].
  destruct (vlob_refusal _ _ _ _ _ _ _) as [e|] eqn:Href.
  { apply vlob_refusal_Some in Href as [->|[->|[->|[-> _]]]]; (eexists; split; [done|by left]). }
  apply vlob_refusal_None in Href as [Hacc Hrev].
  pose proof (vlob_read_answer_ok v version timestamp) as Ha.
  destruct (vlob_read_answer v version timestamp) as [x|e].
  - eexists; split; [done|]. split_and!; [done|by apply Hrev|]. apply Ha.
    + by eapply (vo_history _ Hs).
    + destruct version; [|done]. unfold validate_version in Hval. lia.
  - destruct Ha as [-> Ha].
    + by eapply (vo_history _ Hs).
    + destruct version; [|done]. unfold validate_version in Hval. lia.
    + eexists; split; [done|]. split_and!; [done|by apply Hrev|done].
Qed.

(** The state after a vlob is written: the vlobs, and the changes of the realm. *)
Lemma vlob_written_vlobs org author realm_id id n v s :
  let s' := vlob_written org author realm_id id n v s in
  (∀ org' id', vlob_at s' org' id' =
     if decide ((org', id') = (org, id)) then Some v else vlob_at s org' id') ∧
  ch_checkpoint (changes_of s' org realm_id) = ch_checkpoint (changes_of s org realm_id) + 1.
Proof.
  split; [intros; apply vlob_at_written|]. rewrite changes_of_written. by rewrite decide_True.
Qed.

(** A version is added to a vlob if and only if the request is well formed
    and dated now, the author may write in the realm, which is not in maintenance
    and has the revision of the request, the version is the next one, and the date
    is not before the last one. Then the vlob has one more version, the other
    vlobs are the same and the checkpoint of the realm moves; otherwise the client
    gets an error and nothing changes. The handler never raises. *)
Theorem vlob_update_correct s now ctx rev id version ts blob s' r :
  reachable s → api_vlob_update now ctx rev id version ts blob s = (s', r) →
  let org := cc_organization_id ctx in
  (r = Ok (RepOk tt) ↔
   timestamps_in_the_ballpark ts now = true ∧
   ∃ v, vlob_at s org id = Some v ∧
     access_granted s org (v_realm_id v) (cc_user_id ctx) can_write_roles false ∧
     revision_is s org (v_realm_id v) rev ∧ version = current_version v + 1 ∧
     Forall (λ x, x.2 <= ts) (v_data v)) ∧
  match r with
  | Ok (RepOk _) => ∃ v, vlob_at s org id = Some v ∧
      (∀ org' id', vlob_at s' org' id' =
         if decide ((org', id') = (org, id))
         then Some (mkVlob (v_realm_id v) (v_data v ++ [(blob, cc_device_id ctx, ts)]))
         else vlob_at s org' id') ∧
      ch_checkpoint (changes_of s' org (v_realm_id v)) =
        ch_checkpoint (changes_of s org (v_realm_id v)) + 1
  | Ok (RepError _) => s' = s
  | Err _ => False
  end.
Proof.
  cbn zeta. intros Hs. apply reachable_ok, bo_vlobs in Hs. unfold api_vlob_update.
  set (org := cc_organization_id ctx).
  destruct (validate_version version) eqn:Hval; cbn [negb]; unfold validate_version in Hval.
  2: { intros [= <- <-]. split; [|done]. split; [done|]. intros (_ & v & _ & _ & _ & -> & _).
       unfold current_version in Hval. apply Z.leb_gt in Hval. exfalso. lia. }
  destruct (timestamps_in_the_ballpark ts now); cbn [negb];
    [|intros [= <- <-]; split; [naive_solver|done]].
  destruct (vlob_at s org id) as [v|] eqn:Hv.
  2: { rewrite (reply_of_eq _ _ _ s s (Err VlobNotFoundError)).
       - intros [= <- <-]. split; [naive_solver|done].
       - unfold vlob_update. by rewrite (bind_Err _ _ s s VlobNotFoundError) by
           (rewrite get_vlob_eq; fold org; by rewrite Hv). }
  destruct (vo_history _ Hs _ _ _ Hv) as [Hne Hsorted].
  pose proof (vlob_update_eq org (cc_device_id ctx) rev id version ts blob s v Hv Hne) as Heq.
  assert (vlob_update_refusal s org (user_id (cc_device_id ctx)) rev v version ts = None ↔
    access_granted s org (v_realm_id v) (cc_user_id ctx) can_write_roles false ∧
     revision_is s org (v_realm_id v) rev ∧ version = current_version v + 1 ∧
     Forall (λ x, x.2 <= ts) (v_data v)) as Hiff by by apply vlob_update_refusal_None.
  destruct (vlob_update_refusal _ _ _ _ _ _ _) as [e|] eqn:Href.
  - rewrite (reply_of_eq _ _ _ s s _ Heq). intros Hrun.
    assert (e ≠ VlobNotInMaintenanceError ∧ ∃ st, match e with
          | VlobNotFoundError => Some "not_found"%string
          | VlobAccessError => Some "not_allowed"%string
          | VlobVersionError => Some "bad_version"%string
          | VlobTimestampError => Some "bad_timestamp"%string
          | VlobEncryptionRevisionError => Some "bad_encryption_revision"%string
          | VlobInMaintenanceError => Some "in_maintenance"%string
          | _ => None
          end = Some st) as (_ & st & Hst).
    { unfold vlob_update_refusal in Href.
      destruct (vlob_refusal _ _ _ _ _ _ _) as [e'|] eqn:E.
      - injection Href as ->. apply vlob_refusal_Some in E as [->|[->|[->|[-> _]]]]; eauto.
      - repeat case_match; simplify_eq; eauto. }
    rewrite Hst in Hrun. injection Hrun as <- <-. split; [|done]. split; [done|].
    intros (_ & v' & [= <-] & Hconds). by apply Hiff in Hconds.
  - rewrite (reply_of_eq _ _ _ s _ _ Heq). intros [= <- <-]. split.
    + split; [|done]. intros _. split; [done|]. exists v. split; [done|]. by apply Hiff.
    + exists v. split; [done|]. apply vlob_written_vlobs.
Qed.

(** A vlob is created if and only if the request is dated now, the author may
    write in the realm, which is not in maintenance and has the revision of the
    request, and the organization has no vlob with this id. Then it has one
    version; otherwise nothing changes. In an unknown realm the handler lets the
    exception go. *)
Theorem vlob_create_correct s now ctx realm_id rev id ts blob s' r :
  reachable s → api_vlob_create now ctx realm_id rev id ts blob s = (s', r) →
  let org := cc_organization_id ctx in
  (r = Ok (RepOk tt) ↔
   timestamps_in_the_ballpark ts now = true ∧
   access_granted s org realm_id (cc_user_id ctx) can_write_roles false ∧
   revision_is s org realm_id rev ∧ vlob_at s org id = None) ∧
  (r = Err VlobNotFoundError ↔
   timestamps_in_the_ballpark ts now = true ∧ be_realms s !! (org, realm_id) = None) ∧
  match r with
  | Ok (RepOk _) =>
      (∀ org' id', vlob_at s' org' id' =
         if decide ((org', id') = (org, id))
         then Some (mkVlob realm_id [(blob, cc_device_id ctx, ts)]) else vlob_at s org' id') ∧
      ch_checkpoint (changes_of s' org realm_id) = ch_checkpoint (changes_of s org realm_id) + 1
  | Ok (RepError _) => s' = s
  | Err e => s' = s ∧ e = VlobNotFoundError
  end.
Proof.
  cbn zeta. intros Hs. apply reachable_ok, bo_vlobs in Hs. unfold api_vlob_create.
  set (org := cc_organization_id ctx).
  destruct (timestamps_in_the_ballpark ts now); cbn [negb];
    [|intros [= <- <-]; split_and!; naive_solver].
  pose proof (vlob_create_eq org (cc_device_id ctx) realm_id rev id ts blob s) as Heq.
  unfold vlob_create_refusal in Heq.
  pose proof (vlob_refusal_None s org realm_id (user_id (cc_device_id ctx)) (Some rev)
    can_write_roles false) as Hiff.
  destruct (vlob_refusal _ _ _ _ _ _ _) as [e|] eqn:Href.
  - rewrite (reply_of_eq _ _ _ s s _ Heq). intros Hrun.
    assert (e = VlobNotFoundError ↔ be_realms s !! (org, realm_id) = None) as Hnf.
    { unfold vlob_refusal in Href. destruct (be_realms s !! (org, realm_id)); [|naive_solver].
      split; [|done]. intros ->. by repeat case_match. }
    assert (¬ (access_granted s org realm_id (cc_user_id ctx) can_write_roles false ∧
               revision_is s org realm_id rev)) as Hno.
    { intros [Ha Hrev]. apply proj2 in Hiff. discriminate Hiff. split; [done|]. by intros n [= <-]. }
    apply vlob_refusal_Some in Href as [->|[->|[->|[-> _]]]]; injection Hrun as <- <-;
      split_and!; naive_solver.
  - destruct Hiff as [Hiff _]. destruct (Hiff eq_refl) as [Hacc Hrev].
    assert (is_Some (be_realms s !! (org, realm_id))) as [realm Hrealm]
      by (destruct Hacc as (realm & _ & Hr & _); eauto).
    unfold od_mem in Heq. change (od_get (be_vlobs s) (org, id)) with (vlob_at s org id) in Heq.
    destruct (vlob_at s org id) as [v|] eqn:Hv.
    + rewrite (reply_of_eq _ _ _ s s _ Heq). intros [= <- <-]. split_and!; naive_solver.
    + rewrite (reply_of_eq _ _ _ s _ _ Heq). intros [= <- <-].
      split_and!; [|naive_solver|apply vlob_written_vlobs..].
      split; [|done]. intros _. split_and!; [done|done|by apply Hrev|done].
Qed.

(** A client that polls a realm with the checkpoint of an earlier state gets
    the present checkpoint and exactly the vlobs of the realm that have more
    versions than they had then, with their number of versions. *)
Theorem poll_changes_correct s s' ctx realm_id :
  reachable s → rtc backend_step s s' →
  let org := cc_organization_id ctx in
  access_granted s' org realm_id (cc_user_id ctx) can_read_roles false →
  ∃ changes,
    api_vlob_poll_changes ctx realm_id (ch_checkpoint (changes_of s org realm_id)) s' =
      (s', Ok (RepOk (ch_checkpoint (changes_of s' org realm_id), changes))) ∧
    ∀ id n, changes !! id = Some n ↔
      ∃ v', in_realm (vlob_at s' org) realm_id id v' ∧ n = current_version v' ∧
        ∀ v, vlob_at s org id = Some v → current_version v < n.
Proof.
  cbn zeta. intros Hs Hr Hacc. apply reachable_ok in Hs. set (org := cc_organization_id ctx) in *.
  pose proof (steps_ok _ _ Hs Hr) as Hs'.
  pose proof (steps_changes _ _ org realm_id Hs Hr) as [_ Hold Hnew _].
  set (c := ch_checkpoint (changes_of s org realm_id)) in *.
  exists (changed_since s' org realm_id c). split.
  { unfold api_vlob_poll_changes. rewrite (reply_of_eq _ _ _ s' s' _ (vlob_poll_changes_eq _ _ _ _ _)).
    fold org. change (user_id (cc_device_id ctx)) with (cc_user_id ctx).
    rewrite (proj2 (vlob_refusal_None s' org realm_id (cc_user_id ctx) None can_read_roles false));
      [done|]. split; [done|]. intros n [=]. }
  intros id n. rewrite changed_since_lookup. split.
  - intros (a & c' & Hch & Hlt).
    destruct (vo_changed _ (bo_vlobs _ Hs') _ _ _ _ Hch) as (v' & Hv').
    assert (n = current_version v') as ->.
    { destruct Hv' as [Hv' Hrealm].
      destruct (vo_changes _ (bo_vlobs _ Hs') _ _ _ Hv') as (a2 & c2 & H2). rewrite Hrealm in H2.
      congruence. }
    exists v'. split_and!; [done|done|]. intros v Hv.
    destruct (steps_history _ _ _ _ _ Hs Hr Hv) as (v2 & Hv2 & [Hrealm _]).
    destruct Hv' as [Hv' Hrealm']. assert (v2 = v') as -> by congruence.
    destruct (vo_changes _ (bo_vlobs _ Hs) _ _ _ Hv) as (a0 & c0 & H0).
    rewrite <-Hrealm, Hrealm' in H0. by eapply Hnew.
  - intros (v' & [Hv' Hrealm'] & -> & Hgt).
    destruct (vo_changes _ (bo_vlobs _ Hs') _ _ _ Hv') as (a & c' & Hch). rewrite Hrealm' in Hch.
    exists a, c'. split; [done|]. destruct (decide (c' <= c)) as [Hle|]; [|lia].
    pose proof (Hold _ _ _ _ Hch Hle) as H0.
    destruct (vo_changed _ (bo_vlobs _ Hs) _ _ _ _ H0) as (v & Hv & Hrealm).
    destruct (vo_changes _ (bo_vlobs _ Hs) _ _ _ Hv) as (a2 & c2 & H2). rewrite Hrealm in H2.
    assert (current_version v = current_version v') by congruence.
    specialize (Hgt v Hv). lia.
Qed.

(** ** Reencryption *)

(** An owner starts the maintenance of a realm if and only if it is not in
    maintenance, the revision is the next one and there is one message for each
    participant that is not revoked. Then every version of every vlob of the realm
    is to be encrypted again, the realm is closed, the vlobs are the same and each
    participant has its message; otherwise nothing changes. *)
Theorem start_reencryption_correct s now now' ctx realm_id rev ts msgs s' r :
  reachable s →
  api_realm_start_reencryption_maintenance now now' ctx realm_id rev ts msgs s = (s', r) →
  let org := cc_organization_id ctx in
  (r = Ok (RepOk tt) ↔
   timestamps_in_the_ballpark ts now = true ∧
   start_allowed s org (cc_device_id ctx) realm_id rev msgs now') ∧
  match r with
  | Ok (RepOk _) =>
      realm_in_maintenance s' org realm_id ∧ revision_is s' org realm_id rev ∧
      (∀ org' id, vlob_at s' org' id = vlob_at s org' id) ∧
      (∃ re, ch_reencryption (changes_of s' org realm_id) = Some re ∧ re_done re = [] ∧
         ∀ id n data, od_get (re_todo re) (id, n) = Some data ↔
           1 <= n ∧ ∃ v author t, in_realm (vlob_at s org) realm_id id v ∧
             v_data v !! Z.to_nat (n - 1) = Some (data, author, t)) ∧
      ∀ org' u, messages_of s' org' u = messages_of s org' u ++
        (if bool_decide (org' = org)
         then (λ x, (cc_device_id ctx, ts, x.2)) <$> filter (λ x, x.1 = u) msgs else [])
  | Ok (RepError _) => s' = s
  | Err _ => False
  end.
Proof.
  cbn zeta. intros Hs. apply reachable_ok in Hs.
  unfold api_realm_start_reencryption_maintenance. set (org := cc_organization_id ctx).
  destruct (timestamps_in_the_ballpark ts now); cbn [negb];
    [|intros [= <- <-]; split; naive_solver].
  intros (r' & Hrun & ->)%reply_of_inv. pose proof Hrun as Hinv.
  apply start_inv in Hinv as [(-> & e & -> & He)|(-> & realm & Hr & Ho & Hm & Hrev & Hp & Hv & E)];
    [| |apply Hs|apply Hs].
  - assert (¬ start_allowed s org (cc_device_id ctx) realm_id rev msgs now') as Hno.
    { intros Ha. destruct (start_allowed_ok _ _ _ _ _ ts _ _ (bo_vlobs _ Hs) (bo_roles _ Hs) Ha)
        as (s2 & Hrun2 & _). congruence. }
    repeat (apply elem_of_cons in He as [->|He]; [split; naive_solver|]). by apply not_elem_of_nil in He.
  - assert (start_allowed s org (cc_device_id ctx) realm_id rev msgs now') as Ha
      by by exists realm.
    destruct (start_allowed_ok _ _ _ _ _ ts _ _ (bo_vlobs _ Hs) (bo_roles _ Hs) Ha)
      as (s2 & Hrun2 & Hmsgs).
    assert (s2 = s') as -> by congruence.
    split; [done|]. unfold same_but_messages in E. split_and!; [..|exact Hmsgs].
    + rewrite E. unfold realm_in_maintenance. cbn. rewrite lookup_insert_eq. eauto.
    + rewrite E. unfold revision_is. cbn. rewrite lookup_insert_eq. eauto.
    + intros org' id. by rewrite E.
    + assert (ch_reencryption (changes_of s' org realm_id) =
        Some (new_reencryption realm_id (realm_vlobs s org realm_id))) as ->.
      { rewrite E. unfold changes_of. cbn. by rewrite lookup_insert_eq. }
      eexists. split_and!; [done|done|]. intros id n data.
      rewrite new_reencryption_todo by apply realm_vlobs_NoDup, Hs.
      split.
      * intros (? & v & a & t & Hin & ?). split; [done|]. exists v, a, t. split; [|done].
        by eapply elem_of_realm_vlobs, Hin; apply Hs.
      * intros (? & v & a & t & Hin & ?). split; [done|]. exists v, a, t. split; [|done].
        by eapply elem_of_realm_vlobs, Hin; apply Hs.
Qed.

(** In a realm that an owner encrypts again, a batch of at most [size] items
    is the first versions that are left, with their present data; saving a batch
    moves its versions from what is left to what is done, keeps what was done
    before, and the total never changes. A version that is not of the realm stops
    the batch with ["not_found"]. *)
Theorem reencryption_batches s ctx realm_id rev size batch :
  reachable s →
  let org := cc_organization_id ctx in
  access_granted s org realm_id (cc_user_id ctx) can_do_maintenance_roles true →
  revision_is s org realm_id rev → 0 <= size <= 1000 →
  forallb (λ '(_, version, _), 0 <=? version) batch = true →
  ∃ re, ch_reencryption (changes_of s org realm_id) = Some re ∧
    (∃ items, api_vlob_maintenance_get_reencryption_batch ctx realm_id rev size s
                = (s, Ok (RepOk items)) ∧
       length items = Nat.min (Z.to_nat size) (length (re_todo re)) ∧
       NoDup (items.*1) ∧
       ∀ id n data, (id, n, data) ∈ items → ∃ v author t,
         in_realm (vlob_at s org) realm_id id v ∧ v_data v !! Z.to_nat (n - 1) = Some (data, author, t)) ∧
    ∃ s' re' rep, api_vlob_maintenance_save_reencryption_batch ctx realm_id rev batch s
                    = (s', Ok rep) ∧
      ch_reencryption (changes_of s' org realm_id) = Some re' ∧ re_total re' = re_total re ∧
      Z.of_nat (length (re_todo re') + length (re_done re')) = re_total re' ∧
      (∀ k d, od_get (re_done re) k = Some d → od_get (re_done re') k = Some d) ∧
      match rep with
      | RepOk (total, done) => total = re_total re ∧ done = Z.of_nat (length (re_done re')) ∧
          ∀ id n d, (id, n, d) ∈ batch → is_Some (od_get (re_done re') (id, n))
      | RepError st => st = "not_found"%string ∧ ∃ id n d, (id, n, d) ∈ batch ∧
          ¬ ∃ v, in_realm (vlob_at s org) realm_id id v ∧ 1 <= n <= current_version v
      end.
Proof.
  cbn zeta. intros Hs Hacc Hrev Hsize Hbatch. apply reachable_ok, bo_vlobs in Hs.
  set (org := cc_organization_id ctx) in *.
  destruct (maintenance_reencryption _ _ _ _ _ Hs Hacc) as (re & Hre & Hok).
  assert (vlob_refusal s org realm_id (user_id (cc_device_id ctx)) (Some rev)
            can_do_maintenance_roles true = None) as Href.
  { apply vlob_refusal_None. split; [done|]. by intros n [= <-]. }
  exists re. split_and!; [done|..].
  - exists (get_batch re size). unfold api_vlob_maintenance_get_reencryption_batch, validate_size.
    replace ((0 <=? size) && (size <=? 1000)) with true by lia. cbn [negb].
    rewrite (reply_of_eq _ _ _ s s _ (get_reencryption_batch_eq _ _ _ _ _ _)).
    fold org. rewrite Href, Hre. split; [done|].
    rewrite (get_batch_todo _ _ _ _ Hok) by lia. split_and!.
    + by rewrite length_take, length_fmap.
    + rewrite fmap_take, <-list_fmap_compose. eapply sublist_NoDup; [|apply sublist_take].
      assert (∀ l : list ((UUID * Z) * bytes), fst ∘ (λ x, (x.1.1, x.1.2, x.2)) <$> l = l.*1) as Hl
        by (intros l; apply list_fmap_ext; by intros ? [[? ?] ?]).
      rewrite Hl. apply (ro_todo_nodup _ _ _ Hok).
    + intros id n data ([[k m] d] & [= <- <- <-] & Hin)%elem_of_take_in%list_elem_of_fmap.
      by apply (ro_todo _ _ _ Hok), od_get_Some; [apply Hok|].
  - unfold api_vlob_maintenance_save_reencryption_batch. rewrite Hbatch. cbn [negb].
    pose proof (save_reencryption_batch_eq org (cc_device_id ctx) realm_id rev batch s) as Heq.
    rewrite Href, Hre in Heq. rewrite (reply_of_eq _ _ _ _ _ _ Heq).
    destruct (save_batch re batch) as [re' r] eqn:E. cbn [fst snd].
    destruct (save_batch_ok _ _ _ _ _ _ Hok E) as (Hok' & Hkept & _ & Hr).
    exists (set_changes <[(org, realm_id) :=
              ch_with_reencryption (changes_of s org realm_id) (Some re')]> s), re'.
    exists (match r with Ok x => RepOk x | Err _ => RepError "not_found" end).
    assert (re_total re' = re_total re) as Ht.
    { rewrite <-(save_batch_total re batch). by rewrite E. }
    split_and!; [| |done|by rewrite (ro_total _ _ _ Hok')|done|].
    + destruct r as [[? ?]|e]; [done|]. by destruct Hr as [-> _].
    + unfold changes_of at 1. cbn. by rewrite lookup_insert_eq.
    + destruct r as [[total done]|e].
      * destruct Hr as (-> & -> & Hin). split_and!; [done|done|].
        intros id n d Hd%Hin. by apply od_mem_true.
      * by destruct Hr as [_ Hr].
Qed.

(** An owner ends the maintenance of a realm if and only if the realm is in
    maintenance, at the revision of the request, and nothing is left to encrypt.
    Then the realm is open at this revision, every version of its vlobs has the
    data that was saved for it, with its author and its date, and the vlobs of the
    other realms are the same; otherwise nothing changes. *)
Theorem finish_reencryption_correct s ctx realm_id rev s' r :
  reachable s → api_realm_finish_reencryption_maintenance ctx realm_id rev s = (s', r) →
  let org := cc_organization_id ctx in
  (r = Ok (RepOk tt) ↔ finish_allowed s org (cc_device_id ctx) realm_id rev) ∧
  match r with
  | Ok (RepOk _) => ∃ re,
      ch_reencryption (changes_of s org realm_id) = Some re ∧
      ¬ realm_in_maintenance s' org realm_id ∧ revision_is s' org realm_id rev ∧
      (∀ org' id v, vlob_at s org' id = Some v → (org', v_realm_id v) ≠ (org, realm_id) →
         vlob_at s' org' id = Some v) ∧
      ∀ id v, in_realm (vlob_at s org) realm_id id v →
        ∃ v', in_realm (vlob_at s' org) realm_id id v' ∧ length (v_data v') = length (v_data v) ∧
          ∀ n data author ts, v_data v !! n = Some (data, author, ts) →
            ∃ data', od_get (re_done re) (id, Z.of_nat n + 1) = Some data' ∧
                     v_data v' !! n = Some (data', author, ts)
  | Ok (RepError _) => s' = s
  | Err _ => False
  end.
Proof.
  cbn zeta. intros Hs. apply reachable_ok, bo_vlobs in Hs. set (org := cc_organization_id ctx).
  intros (r' & Hrun & ->)%reply_of_inv. pose proof Hrun as Hinv. fold org in Hinv, Hrun.
  apply finish_inv in Hinv
    as [(-> & e & -> & He)|(-> & realm & re & Hr & Ho & Hm & Hrev & Hre & Htodo & _ & E & Hat)]; [..|done].
  - assert (¬ finish_allowed s org (cc_device_id ctx) realm_id rev) as Hno.
    { intros Ha. destruct (finish_allowed_ok _ _ _ _ _ Hs Ha) as (s2 & Hrun2). congruence. }
    repeat (apply elem_of_cons in He as [->|He]; [split; naive_solver|]). by apply not_elem_of_nil in He.
  - split.
    { split; [|done]. intros _. by exists realm, re. }
    pose proof (vo_reencryption _ Hs org realm_id) as Hok. rewrite Hre in Hok. destruct Hok as [_ Hok].
    exists re. split_and!; [done|..].
    + intros (realm' & Hr' & Hm'). rewrite E in Hr'. cbn in Hr'. rewrite lookup_insert_eq in Hr'.
      by simplify_eq.
    + exists (r_with_status realm (mkRealmStatus None None None rev)). rewrite E. cbn.
      by rewrite lookup_insert_eq.
    + intros org' id v Hv Hne. rewrite Hat, Hv. cbn. by rewrite decide_False.
    + intros id v Hv. exists (reencrypted (re_done re) id v). split_and!.
      * destruct Hv as [Hv Hrealm]. split; [|done]. rewrite Hat, Hv. cbn. by rewrite Hrealm, decide_True.
      * cbn. by rewrite length_imap.
      * intros n data author ts. by apply (reencrypted_all _ _ _ _ _ _ _ _ _ Hok Htodo Hv).
Qed.

(** ** Roles *)

(** A role is granted if and only if the certificate is signed by the client
    and dated now, gives the role to somebody else, who may have it, and the client
    has the right to: only an owner changes or makes a manager or an owner, and a
    manager the others. Then nobody else's role changes, the user has the role
    (unless there is a later record of it) and the message goes to the user;
    otherwise nothing changes. *)
Theorem update_roles_correct s now ctx certificate message s' r :
  reachable s → api_realm_update_roles now ctx certificate message s = (s', r) →
  let org := cc_organization_id ctx in
  (r = Ok (RepOk tt) ↔ ∃ data,
   verify_realm_role_certificate certificate (cc_verify_key ctx) (cc_device_id ctx) = Ok data ∧
   timestamps_in_the_ballpark (rr_timestamp data) now = true ∧
   rr_user_id data ≠ cc_user_id ctx ∧
   grant_allowed s org (granted_role_of certificate data)) ∧
  match r with
  | Ok (RepOk _) => ∃ data realm realm',
      verify_realm_role_certificate certificate (cc_verify_key ctx) (cc_device_id ctx) = Ok data ∧
      be_realms s !! (org, rr_realm_id data) = Some realm ∧
      be_realms s' !! (org, rr_realm_id data) = Some realm' ∧
      (∀ u, u ≠ rr_user_id data → role_of realm' u = role_of realm u) ∧
      ((∀ x, x ∈ r_granted_roles realm → gr_user_id x = rr_user_id data →
          gr_granted_on x <= rr_timestamp data) →
       role_of realm' (rr_user_id data) = rr_role data) ∧
      (∀ k, k ≠ (org, rr_realm_id data) → be_realms s' !! k = be_realms s !! k) ∧
      ∀ org' u, messages_of s' org' u = messages_of s org' u ++
        (if bool_decide ((org', u) = (org, rr_user_id data))
         then (λ m, (cc_device_id ctx, rr_timestamp data, m)) <$> option_list message else [])
  | Ok (RepError _) => s' = s
  | Err _ => False
  end.
Proof.
  cbn zeta. intros _. unfold api_realm_update_roles. set (org := cc_organization_id ctx).
  destruct (verify_realm_role_certificate _ _ _) as [data|] eqn:Ev;
    [|intros [= <- <-]; split; naive_solver].
  pose proof Ev as (raw & _ & _ & [= Hauthor] & _)%verify_and_load_Ok.
  destruct (timestamps_in_the_ballpark (rr_timestamp data) now) eqn:Et; cbn [negb];
    [|intros [= <- <-]; split; [naive_solver congruence|done]].
  set (x := granted_role_of certificate data).
  assert (user_id (gr_granted_by x) = cc_user_id ctx) as Hby by (cbn; by rewrite Hauthor).
  case_bool_decide as Hself.
  { intros [= <- <-]. split; [|done]. split; [done|]. intros (data' & [= <-] & _ & Hne & _).
    by rewrite Hby in Hself. }
  intros (r' & Hrun & ->)%reply_of_inv. pose proof Hrun as Hinv.
  apply update_roles_inv in Hinv as
    [(-> & e & -> & He)|(-> & user & realm & Hu & Hp & Hr & Hm & Hgrant & Hnew & E)]; [..|done].
  - assert (¬ grant_allowed s org x) as Hno.
    { intros Ha. destruct (update_roles_allowed _ _ message _ Hself Ha) as (s2 & Hrun2). congruence. }
    repeat (apply elem_of_cons in He as [->|He];
      [split; [split; [done|]; by intros (? & [= <-] & _ & _ & ?)|done]|]).
    by apply not_elem_of_nil in He.
  - split.
    { split; [|done]. intros _. exists data. split_and!; [done|done| |by exists user, realm].
      rewrite <-Hby. by apply not_eq_sym. }
    exists data, realm, (r_grant realm x). split_and!.
    + done.
    + done.
    + rewrite E. cbn. by rewrite lookup_insert_eq.
    + intros u Hne. by apply role_of_grant_other, not_eq_sym.
    + intros Hlast. by apply (role_of_grant realm x).
    + intros k Hk. rewrite E. cbn. by rewrite lookup_insert_ne.
    + intros org' u. rewrite (update_roles_messages _ _ _ _ _ u org' Hrun). cbn. by rewrite Hauthor.
Qed.

(** ** Errors *)

(** The errors of a handler that its table of statuses covers. *)
Ltac covered He :=
  repeat (apply elem_of_cons in He as [->|He]; [by eexists|]); by apply not_elem_of_nil in He.

Lemma vlob_handlers_reply s ctx :
  vlobs_ok s →
  (∀ rev id version ts, replies (api_vlob_read ctx rev id version ts) s) ∧
  (∀ now rev id version ts blob, replies (api_vlob_update now ctx rev id version ts blob) s) ∧
  (∀ realm_id checkpoint, replies (api_vlob_poll_changes ctx realm_id checkpoint) s) ∧
  (∀ id, replies (api_vlob_list_versions ctx id) s) ∧
  (∀ realm_id rev size, replies (api_vlob_maintenance_get_reencryption_batch ctx realm_id rev size) s) ∧
  (∀ realm_id rev batch,
     replies (api_vlob_maintenance_save_reencryption_batch ctx realm_id rev batch) s).
Proof.
  intros Hs. split_and!.
  - intros rev id version ts. unfold api_vlob_read. destruct (negb _); [apply replies_ret|].
    apply replies_reply_of. intros s' e. rewrite vlob_read_eq. intros [= <- He].
    destruct (vlob_at s (cc_organization_id ctx) id) as [v|]; [|by simplify_eq].
    destruct (vlob_refusal _ _ _ _ _ _ _) eqn:Href; simplify_eq.
    + apply vlob_refusal_Some in Href as [->|[->|[->|[-> _]]]]; by eexists.
    + unfold vlob_read_answer in He. by repeat case_match; simplify_eq.
  - intros now rev id version ts blob. unfold api_vlob_update.
    do 2 (destruct (negb _); [apply replies_ret|]). apply replies_reply_of. intros s' e He.
    destruct (vlob_at s (cc_organization_id ctx) id) as [v|] eqn:Hv.
    + rewrite (vlob_update_eq _ _ _ _ _ _ _ _ v Hv) in He by by eapply (vo_history _ Hs).
      unfold vlob_update_refusal in He.
      destruct (vlob_refusal _ _ _ _ _ _ _) eqn:Href; simplify_eq.
      * apply vlob_refusal_Some in Href as [->|[->|[->|[-> _]]]]; by eexists.
      * by repeat case_match; simplify_eq.
    + unfold vlob_update in He. rewrite (bind_Err _ _ s s VlobNotFoundError) in He by
        (rewrite get_vlob_eq; by rewrite Hv). by simplify_eq.
  - intros realm_id checkpoint. apply replies_reply_of. intros s' e. rewrite vlob_poll_changes_eq.
    intros [= <- He]. destruct (vlob_refusal _ _ _ _ _ _ _) eqn:Href; simplify_eq.
    apply vlob_refusal_Some in Href as [->|[->|[->|[-> [? [=]]]]]]; by eexists.
  - intros id. apply replies_reply_of. intros s' e. rewrite vlob_list_versions_eq. intros [= <- He].
    destruct (vlob_at s _ id) as [v|]; [|by simplify_eq].
    destruct (vlob_refusal _ _ _ _ _ _ _) eqn:Href; simplify_eq.
    apply vlob_refusal_Some in Href as [->|[->|[->|[-> [? [=]]]]]]; by eexists.
  - intros realm_id rev size. unfold api_vlob_maintenance_get_reencryption_batch.
    destruct (negb _); [apply replies_ret|]. apply replies_reply_of. intros s' e.
    rewrite get_reencryption_batch_eq. intros [= <- He].
    destruct (vlob_refusal _ _ _ _ _ _ _) eqn:Href; simplify_eq.
    + apply vlob_refusal_Some in Href as [->|[->|[->|[-> _]]]]; by eexists.
    + apply vlob_refusal_None in Href as [Hacc _].
      destruct (maintenance_reencryption _ _ _ _ _ Hs Hacc) as (re & Hre & _). by rewrite Hre in He.
  - intros realm_id rev batch. unfold api_vlob_maintenance_save_reencryption_batch.
    destruct (negb _); [apply replies_ret|]. apply replies_reply_of. intros s' e.
    rewrite save_reencryption_batch_eq.
    destruct (vlob_refusal _ _ _ _ _ _ _) eqn:Href.
    + intros [= <- <-]. apply vlob_refusal_Some in Href as [->|[->|[->|[-> _]]]]; by eexists.
    + apply vlob_refusal_None in Href as [Hacc _].
      destruct (maintenance_reencryption _ _ _ _ _ Hs Hacc) as (re & Hre & Hok). rewrite Hre.
      destruct (save_batch re batch) as [re' r] eqn:E. intros [= <- ->].
      destruct (save_batch_ok _ _ _ _ _ _ Hok E) as (_ & _ & _ & -> & _). by eexists.
Qed.

Lemma realm_handlers_reply s ctx :
  backend_ok s →
  (∀ now c, replies (api_realm_create now ctx c) s) ∧
  (∀ realm_id, replies (api_realm_status ctx realm_id) s) ∧
  (∀ realm_id, replies (api_realm_stats ctx realm_id) s) ∧
  (∀ realm_id since, replies (api_realm_get_role_certificates ctx realm_id since) s) ∧
  (∀ now c m, replies (api_realm_update_roles now ctx c m) s) ∧
  (∀ now now' realm_id rev ts msgs,
     replies (api_realm_start_reencryption_maintenance now now' ctx realm_id rev ts msgs) s) ∧
  (∀ realm_id rev, replies (api_realm_finish_reencryption_maintenance ctx realm_id rev) s).
Proof.
  intros Hs. split_and!.
  - intros now c. unfold api_realm_create. case_bool_decide; [apply replies_ret|].
    destruct (verify_realm_role_certificate _ _ _) as [data|]; [|apply replies_ret].
    destruct (negb _); [apply replies_ret|]. case_bool_decide as Hself; [apply replies_ret|].
    case_bool_decide as Hrole; [apply replies_ret|].
    apply replies_reply_of. intros s' e He. unfold realm_create, be_assert in He.
    do 2 rewrite bool_decide_true in He by done.
    do 3 (rewrite (bind_Ok _ _ s s _ eq_refl) in He; cbv beta zeta in He).
    destruct (be_realms s !! _); [by injection He as _ <-|]. by minv_all.
  - intros realm_id. apply replies_reply_of. intros s' e He.
    destruct (realm_queries_fail _ _ _ None _ _ _ (or_introl He)) as [->| ->]; by eexists.
  - intros realm_id. apply replies_reply_of. intros s' e He.
    destruct (realm_queries_fail _ _ _ None _ _ _ (or_intror (or_introl He))) as [->| ->]; by eexists.
  - intros realm_id since. apply replies_reply_of. intros s' e He.
    destruct (realm_queries_fail _ _ _ _ _ _ _ (or_intror (or_intror He))) as [->| ->]; by eexists.
  - intros now c m. unfold api_realm_update_roles.
    destruct (verify_realm_role_certificate _ _ _) as [data|]; [|apply replies_ret].
    destruct (negb _); [apply replies_ret|]. case_bool_decide as Hself; [apply replies_ret|].
    apply replies_reply_of. intros s' e Hrun.
    apply update_roles_inv in Hrun as [(_ & e' & [= ->] & He)|([=] & _)]; [covered He|done].
  - intros now now' realm_id rev ts msgs. unfold api_realm_start_reencryption_maintenance.
    destruct (negb _); [apply replies_ret|]. apply replies_reply_of. intros s' e Hrun.
    apply start_inv in Hrun as [(_ & e' & [= ->] & He)|([=] & _)]; [covered He|apply Hs|apply Hs].
  - intros realm_id rev. apply replies_reply_of. intros s' e Hrun.
    apply finish_inv in Hrun as [(_ & e' & [= ->] & He)|([=] & _)]; [covered He|apply Hs].
Qed.

Lemma user_handlers_reply s ctx :
  backend_ok s →
  (∀ u, replies (api_user_get ctx u) s) ∧
  (∀ now msg, replies (api_user_create now ctx msg) s) ∧
  (∀ now c, replies (api_user_revoke now ctx c) s).
Proof.
  intros Hs. split_and!.
  - intros u. apply replies_reply_of. intros s' e H0. unfold get_user_with_devices_and_trustchain in H0.
    minv H0; apply get_user_inv in Hrun as [-> Hu]; [|destruct (os_users _ !! u); by simplify_eq].
    destruct (os_users (orgstore s _) !! u) as [user|] eqn:Huser; [|done].
    minv H0. 2: { unfold get_user_devices, get_user in Hrun. by minv_all. }
    pose proof (get_user_devices_inv _ _ _ _ _ Hrun) as ->. minv H0; [minv_all|].
    match type of Hrun0 with get_trustchain ?o ?i ?b s = _ =>
      destruct (get_trustchain_spec o i b s) as (r & Hr & Hspec) end.
    rewrite Hr in Hrun0. injection Hrun0 as <- ->. destruct Hspec as [-> _]. by eexists.
  - intros now msg. unfold api_user_create, api_user_create_body.
    case_bool_decide; [apply replies_ret|].
    destruct (load_user_create ctx msg) as [[[[? ?] ?] ?]|]; [|apply replies_ret].
    destruct (check_user_create _ _ _ _ _); [apply replies_ret|].
    apply replies_reply_of. intros s' e Hrun. apply create_user_inv in Hrun. cbn zeta in Hrun.
    destruct (mem_users _ _ || _); destruct Hrun as [H1 H2]; simplify_eq. by eexists.
  - intros now c. unfold api_user_revoke. case_bool_decide; [apply replies_ret|].
    destruct (verify_revoked_user_certificate _ _ _) as [data|]; [|apply replies_ret].
    destruct (negb _); [apply replies_ret|]. case_bool_decide; [apply replies_ret|].
    apply replies_reply_of. intros s' e Hrun.
    destruct (revoke_user_ok _ _ _ _ _ _ _ _ _ (bo_users _ Hs) Hrun) as [_ Hne].
    apply revoke_user_inv in Hrun. cbn zeta in Hrun.
    destruct Hrun as [(_ & [[_ [= ->]]|(? & _ & _ & [= ->])])|(user & _ & _ & Hrun)]; [by eexists..|].
    destruct (match u_human_handle user with Some _ => _ | None => _ end);
      destruct Hrun as [[= ->] _]; done.
Qed.

(** [api_vlob_create] does not catch [VlobNotFoundError]. *)
Lemma vlob_create_replies s now ctx realm_id rev id ts blob :
  if timestamps_in_the_ballpark ts now && bool_decide (be_realms s !! (cc_organization_id ctx, realm_id) = None)
  then api_vlob_create now ctx realm_id rev id ts blob s = (s, Err VlobNotFoundError)
  else replies (api_vlob_create now ctx realm_id rev id ts blob) s.
Proof.
  unfold api_vlob_create. destruct (timestamps_in_the_ballpark ts now); cbn [negb andb]; [|apply replies_ret].
  case_bool_decide as Hr.
  - assert (vlob_create (cc_organization_id ctx) (cc_device_id ctx) realm_id rev id ts blob s
      = (s, Err VlobNotFoundError)) as Hrun.
    { rewrite vlob_create_eq. unfold vlob_create_refusal, vlob_refusal. by rewrite Hr. }
    by rewrite (reply_of_eq _ _ _ _ _ _ Hrun).
  - apply replies_reply_of. intros s' e. rewrite vlob_create_eq. unfold vlob_create_refusal.
    destruct (vlob_refusal _ _ _ _ _ _ _) eqn:Href.
    + intros [= <- <-]. apply vlob_refusal_Some in Href as Hcases.
      destruct Hcases as [->|[->|[->|[-> _]]]]; [|by eexists..].
      exfalso. apply Hr. unfold vlob_refusal in Href. by repeat case_match.
    + destruct (od_mem _ _); [|done]. intros [= <- <-]. by eexists.
Qed.

(** C23: in a reachable state the handlers of the users ([human_find] apart), the
    devices, the realms, the vlobs, the blocks and the messages answer: for a client
    that the server authenticated, and whatever the request, no exception goes through
    them, but for one: [api_vlob_create] raises [VlobNotFoundError], which ends the
    connection, exactly when the date of the request is accepted and the realm does
    not exist; nothing is changed then. *)
Theorem handlers_reply s ctx :
  reachable s → ctx_ok s ctx →
  ((∀ u, replies (api_user_get ctx u) s) ∧
   (∀ now msg, replies (api_user_create now ctx msg) s) ∧
   (∀ now c, replies (api_user_revoke now ctx c) s) ∧
   (∀ now msg, replies (api_device_create now ctx msg) s)) ∧
  ((∀ now c, replies (api_realm_create now ctx c) s) ∧
   (∀ realm_id, replies (api_realm_status ctx realm_id) s) ∧
   (∀ realm_id, replies (api_realm_stats ctx realm_id) s) ∧
   (∀ realm_id since, replies (api_realm_get_role_certificates ctx realm_id since) s) ∧
   (∀ now c m, replies (api_realm_update_roles now ctx c m) s) ∧
   (∀ now now' realm_id rev ts msgs,
      replies (api_realm_start_reencryption_maintenance now now' ctx realm_id rev ts msgs) s) ∧
   (∀ realm_id rev, replies (api_realm_finish_reencryption_maintenance ctx realm_id rev) s)) ∧
  ((∀ rev id version ts, replies (api_vlob_read ctx rev id version ts) s) ∧
   (∀ now rev id version ts blob, replies (api_vlob_update now ctx rev id version ts blob) s) ∧
   (∀ realm_id checkpoint, replies (api_vlob_poll_changes ctx realm_id checkpoint) s) ∧
   (∀ id, replies (api_vlob_list_versions ctx id) s) ∧
   (∀ realm_id rev size,
      replies (api_vlob_maintenance_get_reencryption_batch ctx realm_id rev size) s) ∧
   (∀ realm_id rev batch,
      replies (api_vlob_maintenance_save_reencryption_batch ctx realm_id rev batch) s)) ∧
  (∀ now realm_id rev id ts blob,
     if timestamps_in_the_ballpark ts now &&
        bool_decide (be_realms s !! (cc_organization_id ctx, realm_id) = None)
     then api_vlob_create now ctx realm_id rev id ts blob s = (s, Err VlobNotFoundError)
     else replies (api_vlob_create now ctx realm_id rev id ts blob) s) ∧
  (∀ id, replies (api_block_read ctx id) s) ∧
  (∀ id realm_id block, replies (api_block_create ctx id realm_id block) s) ∧
  (∀ offset, replies (api_message_get ctx offset) s).
Proof.
  intros Hs Hctx. apply reachable_ok in Hs.
  destruct (user_handlers_reply s ctx Hs) as (U1 & U2 & U3).
  split; [split_and!; [done..|]|split; [by apply realm_handlers_reply|
    split; [by apply vlob_handlers_reply, Hs|split; [by intros; apply vlob_create_replies|split_and!]]]].
  - intros now msg. unfold api_device_create.
    destruct (load_device_create ctx msg) as [[data rd]|]; [|apply replies_ret].
    destruct (check_device_create now ctx data rd) eqn:Hc; [apply replies_ret|].
    apply check_device_create_None in Hc as [_ Hid]. apply replies_reply_of. intros s' e Hrun.
    unfold create_device in Hrun. minv Hrun. minv Hrun.
    + minv Hrun. by eexists.
    + destruct Hctx as (user & Hu & _). apply negb_true_iff, bool_decide_eq_false in Hc.
      unfold d_user_id, device_of_certificate in Hc. cbn in Hc. rewrite Hid, Hu in Hc. by destruct Hc.
  - intros id. apply replies_reply_of. intros s' e Hrun.
    apply read_block_inv in Hrun as [_ He]. covered He.
  - intros id realm_id block. apply replies_reply_of. intros s' e Hrun.
    apply create_block_inv in Hrun as [(_ & e' & [= ->] & He)|([=] & _)]. covered He.
  - intros offset. unfold api_message_get. destruct (negb _); [apply replies_ret|]. by eexists.
Qed.
End properties.

(** ** The theorems on the run *)

Lemma realm_roles_invariant_witness :
  ∃ realm, be_realms ex_shared !! ("org"%string, 1%N) = Some realm ∧
    (∃ u, role_of realm u = Some OWNER) ∧ role_of realm "bob" = Some CONTRIBUTOR.
Proof.
  destruct (be_realms ex_shared !! ("org"%string, 1%N)) as [realm|] eqn:E; [|vm_compute in E; discriminate E].
  exists realm. split; [reflexivity|]. split.
  - exact (proj1 (realm_roles_invariant ex_shared "org" 1%N realm ex_shared_reachable E)).
  - vm_compute in E. injection E as <-. reflexivity.
Defined.
Lemma email_directory_witness :
  os_human_handle_to_user_id (orgstore ex_shared "org") !! "bob@example.org"%string = Some "bob"%string ↔
  ∃ user h, os_users (orgstore ex_shared "org") !! "bob"%string = Some user ∧
    u_human_handle user = Some h ∧ email h = "bob@example.org"%string ∧ u_revoked_on user = None.
Proof. exact (proj1 (email_directory ex_shared "org" "bob@example.org" "bob" ex_shared_reachable)). Defined.
Lemma nothing_forgotten_witness :
  messages_of ex_shared "org" "bob" = [(alice, 3, [x6d])] ∧ grows ex_shared ex_written.
Proof.
  split; [vm_compute; reflexivity|].
  exact (nothing_forgotten ex_shared ex_written ex_shared_reachable ex_written_steps).
Defined.
Lemma vlob_history_witness :
  ∃ v v', vlob_at ex_written "org" 7 = Some v ∧ length (v_data v) = 2%nat ∧
    vlob_at ex_maintenance "org" 7 = Some v' ∧ history_extends v v'.
Proof.
  destruct (vlob_at ex_written "org" 7) as [v|] eqn:E; [|vm_compute in E; discriminate E].
  destruct (vlob_history ex_written ex_maintenance "org" 7 v ex_written_reachable
    ex_maintenance_steps E) as (_ & (v' & Hv' & Hx) & _).
  exists v, v'. split; [reflexivity|]. split; [|exact (conj Hv' Hx)].
  vm_compute in E. injection E as <-. reflexivity.
Defined.
Lemma vlob_read_witness :
  ∃ v rep, vlob_at ex_written "org" 7 = Some v ∧
    api_vlob_read bob_ctx 1 7 None (Some 4) ex_written = (ex_written, Ok rep) ∧
    read_answers v None (Some 4) rep ∧ rep = RepOk (1, [x76; x31], bob, 4).
Proof.
  destruct (vlob_read_correct ex_written bob_ctx 1 7 None (Some 4) ex_written_reachable) as (rep & Hrep & Hspec).
  destruct (vlob_at ex_written (cc_organization_id bob_ctx) 7) as [v|] eqn:E; [|vm_compute in E; discriminate E].
  exists v, rep. split; [first [exact E|reflexivity]|]. split; [exact Hrep|].
  assert (rep = RepOk (1, [x76; x31], bob, 4)) as Hr.
  { apply (f_equal snd) in Hrep. vm_compute in Hrep. by injection Hrep as <-. }
  split; [|exact Hr].
  destruct (vlob_refusal ex_written _ _ _ _ _ _) as [e|]; [|by destruct Hspec as (_ & _ & Hspec)].
  destruct Hspec as [Hspec|Hspec]; rewrite Hr in Hspec; discriminate Hspec.
Defined.
Lemma vlob_update_witness :
  ∃ s', api_vlob_update 6 bob_ctx 1 7 3 6 [x76; x33] ex_written = (s', Ok (RepOk tt)) ∧
    ∃ v, vlob_at ex_written "org" 7 = Some v ∧ ∀ org' id', vlob_at s' org' id' =
         if decide ((org', id') = ("org"%string, 7%N))
         then Some (mkVlob (v_realm_id v) (v_data v ++ [([x76; x33], bob, 6)]))
         else vlob_at ex_written org' id'.
Proof.
  destruct (api_vlob_update 6 bob_ctx 1 7 3 6 [x76; x33] ex_written) as [s' r] eqn:E.
  pose proof (vlob_update_correct ex_written 6 bob_ctx 1 7 3 6 [x76; x33] s' r ex_written_reachable E) as [_ H].
  apply (f_equal snd) in E. vm_compute in E. subst r.
  exists s'. split; [done|]. destruct H as (v & Hv & Hat & _). exists v. exact (conj Hv Hat).
Defined.
Lemma vlob_create_witness :
  ∃ s', api_vlob_create 6 bob_ctx 1 1 8 6 [x77] ex_written = (s', Ok (RepOk tt)) ∧
    vlob_at s' "org" 8 = Some (mkVlob 1 [([x77], bob, 6)]).
Proof.
  destruct (api_vlob_create 6 bob_ctx 1 1 8 6 [x77] ex_written) as [s' r] eqn:E.
  pose proof (vlob_create_correct ex_written 6 bob_ctx 1 1 8 6 [x77] s' r ex_written_reachable E)
    as (_ & _ & H).
  apply (f_equal snd) in E. vm_compute in E. subst r.
  exists s'. split; [done|]. destruct H as [Hat _]. rewrite Hat. reflexivity.
Defined.
Lemma ex_alice_writes :
  access_granted ex_written "org" 1 "alice" can_read_roles false.
Proof.
  eexists _, OWNER. split; [vm_compute; reflexivity|]. split; [vm_compute; reflexivity|].
  split; [by left|reflexivity].
Qed.
Lemma poll_changes_witness :
  ∃ changes, (api_vlob_poll_changes alice_ctx 1 0 ex_written).2 = Ok (RepOk (2, changes)) ∧
    ∀ id n, changes !! id = Some n ↔
      ∃ v', in_realm (vlob_at ex_written "org") 1 id v' ∧ n = current_version v' ∧
        ∀ v, vlob_at ex_shared "org" id = Some v → current_version v < n.
Proof.
  destruct (poll_changes_correct ex_shared ex_written alice_ctx 1 ex_shared_reachable
    ex_written_steps ex_alice_writes) as (changes & Hrun & Hspec).
  exists changes. split; [|exact Hspec].
  assert (ch_checkpoint (changes_of ex_shared (cc_organization_id alice_ctx) 1) = 0) as E1
    by (vm_compute; reflexivity).
  assert (ch_checkpoint (changes_of ex_written (cc_organization_id alice_ctx) 1) = 2) as E2
    by (vm_compute; reflexivity).
  rewrite E1, E2 in Hrun. by rewrite Hrun.
Defined.
Lemma start_reencryption_witness :
  ∃ s', api_realm_start_reencryption_maintenance 6 6 alice_ctx 1 2 6
          [("alice"%string, [x01]); ("bob"%string, [x02])] ex_written = (s', Ok (RepOk tt)) ∧
    realm_in_maintenance s' "org" 1.
Proof.
  destruct (api_realm_start_reencryption_maintenance 6 6 alice_ctx 1 2 6
    [("alice"%string, [x01]); ("bob"%string, [x02])] ex_written) as [s' r] eqn:E.
  pose proof (start_reencryption_correct ex_written 6 6 alice_ctx 1 2 6 _ s' r ex_written_reachable E)
    as [_ H].
  apply (f_equal snd) in E. vm_compute in E. subst r.
  exists s'. split; [done|]. exact (proj1 H).
Defined.
Lemma reencryption_batches_witness :
  ∃ re, ch_reencryption (changes_of ex_maintenance "org" 1) = Some re ∧ re_total re = 2.
Proof.
  destruct (reencryption_batches ex_maintenance alice_ctx 1 2 1 [(7%N, 1, [x77])]
    ex_maintenance_reachable) as (re & Hre & _).
  - eexists _, OWNER. split; [vm_compute; reflexivity|]. split; [vm_compute; reflexivity|].
    split; [by left|reflexivity].
  - eexists. split; [vm_compute; reflexivity|reflexivity].
  - done.
  - reflexivity.
  - exists re. split; [exact Hre|]. vm_compute in Hre. by injection Hre as <-.
Defined.
Lemma finish_reencryption_witness :
  ∃ s', api_realm_finish_reencryption_maintenance alice_ctx 1 2 ex_saved = (s', Ok (RepOk tt)) ∧
    ¬ realm_in_maintenance s' "org" 1.
Proof.
  destruct (api_realm_finish_reencryption_maintenance alice_ctx 1 2 ex_saved) as [s' r] eqn:E.
  pose proof (finish_reencryption_correct ex_saved alice_ctx 1 2 s' r ex_saved_reachable E) as [_ H].
  apply (f_equal snd) in E. vm_compute in E. subst r.
  exists s'. split; [done|]. by destruct H as (re & _ & H & _).
Defined.
Lemma update_roles_witness :
  ∃ s', api_realm_update_roles 8 alice_ctx [x41; x0b] None ex_written = (s', Ok (RepOk tt)) ∧
    ∃ realm', be_realms s' !! ("org"%string, 1%N) = Some realm' ∧ role_of realm' "bob" = None.
Proof.
  destruct (api_realm_update_roles 8 alice_ctx [x41; x0b] None ex_written) as [s' r] eqn:E.
  pose proof (update_roles_correct ex_written 8 alice_ctx [x41; x0b] None s' r ex_written_reachable E)
    as [_ H].
  apply (f_equal snd) in E. vm_compute in E. subst r. exists s'. split; [done|].
  destruct H as (data & realm & realm' & Hdata & Hr & Hr' & _ & Hlast & _).
  vm_compute in Hdata. injection Hdata as <-. exists realm'. split; [exact Hr'|].
  apply Hlast. vm_compute in Hr. injection Hr as <-. cbn. intros x Hx _.
  repeat (apply elem_of_cons in Hx as [->|Hx]; [by vm_compute|]). by apply not_elem_of_nil in Hx.
Defined.
Lemma ex_alice_ctx_ok : ctx_ok ex_written alice_ctx.
Proof.
  eexists. split; [vm_compute; reflexivity|]. split; [reflexivity|].
  eexists. vm_compute. reflexivity.
Qed.
Lemma handlers_reply_witness : ∃ rep, (api_vlob_read alice_ctx 1 7 (Some 3) None ex_written).2 = Ok rep.
Proof.
  destruct (handlers_reply ex_written alice_ctx ex_written_reachable ex_alice_ctx_ok)
    as (_ & _ & (H & _) & _). exact (H 1 7%N (Some 3) None).
Defined.
