(* ===== verification/BackendUserProperties.v ===== *)
(** The theorems on the users, the messages, the blocks and the organizations of
    the server, and on the order of the roles. *)

From S2P Require Import Prelude Types Backend Certif BackendUser BackendMessage BackendVlob.
From S2P Require Import BackendVlobProofs BackendRealm BlockStore BackendBlock BackendOrganization.
From S2P Require Import BackendSystem BackendVlobSpec BackendRealmSpec BackendEffects BackendGrowth.
From S2P Require Import BackendExample.

Import Byte.

Section properties.
Context `{CertifApi}.

(** ** Users *)

(** The devices that certified a user, its revocation and its devices. *)
Definition ids_of_user (o : OrganizationStore) (u : UserID) (user : User) : list (option DeviceID) :=
  u_user_certifier user :: u_revoked_user_certifier user ::
    (d_device_certifier <$> (map_to_list (devices_of o u)).*2).

(** C24: a client always gets a user that the organization has, with the
    certificates of the user and of all its devices and its trustchain: exactly
    the certificates of the devices and users that one reaches from them by going
    from certifier to certifier, all of them known, redacted if and only if the
    client is an outsider. *)
Theorem user_get_correct s ctx u :
  reachable s →
  let o := orgstore s (cc_organization_id ctx) in
  let redacted := bool_decide (cc_profile ctx = OUTSIDER) in
  match os_users o !! u with
  | None => api_user_get ctx u s = (s, Ok (RepError "not_found"))
  | Some user => ∃ rep, api_user_get ctx u s = (s, Ok (RepOk rep)) ∧
      gu_user_certificate rep = user_certif_field redacted user ∧
      (∀ c, c ∈ gu_device_certificates rep ↔ ∃ d device, find_device o d = Some device ∧
         user_id d = u ∧ c = device_certif_field redacted device) ∧
      gu_revoked_user_certificate rep = u_revoked_user_certificate user ∧
      chain_of redacted o (trust_reach o (ids_of_user o u user)) (gu_trustchain rep) ∧
      ∀ d, trust_reach o (ids_of_user o u user) d → trust_known o d
  end.
Proof.
  cbn zeta. intros Hs. pose proof (reachable_certifiers _ Hs) as Hc. apply reachable_ok in Hs.
  unfold api_user_get. set (org := cc_organization_id ctx). set (o := orgstore s org).
  set (redacted := bool_decide (cc_profile ctx = OUTSIDER)).
  assert (∀ s, get_user org u s = (s, match os_users (orgstore s org) !! u with
            | Some user => Ok user | None => Err UserNotFoundError end)) as Hg.
  { intros s0. destruct (get_user org u s0) as [s1 r1] eqn:E. by apply get_user_inv in E as [-> ->]. }
  destruct (os_users o !! u) as [user|] eqn:Hu.
  2: { rewrite (reply_of_eq _ _ _ s s (Err UserNotFoundError)); [done|].
       unfold get_user_with_devices_and_trustchain. rewrite (bind_Err _ _ s s UserNotFoundError); [done|].
       rewrite Hg. fold o. by rewrite Hu. }
  assert (∀ d0, Some d0 ∈ ids_of_user o u user → device_known s org d0) as Hids.
  { intros d0 Hin. unfold ids_of_user in Hin. rewrite !elem_of_cons in Hin.
    destruct Hin as [E|[E|Hin]].
    - eapply (co_users _ Hc org u user); [done|by left].
    - eapply (co_users _ Hc org u user); [done|by right].
    - apply list_elem_of_fmap in Hin as (device & E & Hin).
      apply list_elem_of_fmap in Hin as ([name ?] & -> & Hin%elem_of_map_to_list).
      eapply (co_devices _ Hc org (mkDeviceID u name)); [exact Hin|done]. }
  destruct (get_trustchain_spec org (ids_of_user o u user) redacted s) as (r & Hr & Hspec).
  fold o in Hspec. destruct r as [t|e].
  2: { destruct Hspec as (_ & d & Hd & Hnot). destruct Hnot.
       eapply trust_reach_known; [done|apply Hs|exact Hids|done]. }
  destruct Hspec as [Hchain Hknown].
  rewrite (reply_of_eq _ _ _ s s (Ok (mkGetUserAndDevicesResult (user_certif_field redacted user)
    (device_certif_field redacted <$> (map_to_list (devices_of o u)).*2)
    (u_revoked_user_certificate user) t))).
  2: { unfold get_user_with_devices_and_trustchain.
       rewrite (bind_Ok _ _ s s user) by (rewrite Hg; fold o; by rewrite Hu). cbv beta.
       rewrite (bind_Ok _ _ s s (devices_of o u)).
       2: { unfold get_user_devices. rewrite (bind_Ok _ _ s s o) by done. cbv beta.
            by rewrite (bind_Ok _ _ s s user) by (rewrite Hg; fold o; by rewrite Hu). }
       cbv beta zeta. by rewrite (bind_Ok _ _ s s t) by exact Hr. }
  eexists. split; [done|]. split_and!; [done| |done|done|done].
  intros c. cbn. rewrite list_elem_of_fmap. split.
  - intros (device & -> & Hin). apply list_elem_of_fmap in Hin as ([name ?] & -> & Hin%elem_of_map_to_list).
    by exists (mkDeviceID u name), d.
  - intros (d & device & Hd & <- & ->). exists device. split; [done|].
    apply list_elem_of_fmap. exists (device_name d, device). split; [done|]. by apply elem_of_map_to_list.
Qed.

(** What [api_user_create] does. *)
Lemma user_create_ok s now ctx msg s' r :
  reachable s → api_user_create now ctx msg s = (s', r) →
  let o := orgstore s (cc_organization_id ctx) in
  let o' := orgstore s' (cc_organization_id ctx) in
  (r = Ok (RepOk tt) ↔ cc_profile ctx = ADMIN ∧ ∃ d_data u_data ru_data rd_data,
   load_user_create ctx msg = Ok (d_data, u_data, ru_data, rd_data) ∧
   certificates_agree now d_data u_data ru_data rd_data ∧
   os_users o !! uc_user_id u_data = None ∧
   ∀ h u, uc_human_handle u_data = Some h → ¬ holds_email o (email h) u) ∧
  match r with
  | Ok (RepOk _) => ∃ d_data u_data ru_data rd_data user device,
      load_user_create ctx msg = Ok (d_data, u_data, ru_data, rd_data) ∧
      user = user_of_certificate u_data (uq_user_certificate msg)
               (bytes_or (uq_redacted_user_certificate msg) (uq_user_certificate msg)) ∧
      device = device_of_certificate d_data (uq_device_certificate msg)
               (bytes_or (uq_redacted_device_certificate msg) (uq_device_certificate msg)) ∧
      os_users o' = <[uc_user_id u_data := user]> (os_users o) ∧ u_revoked_on user = None ∧
      ∀ d, find_device o' d = if decide (d = dc_device_id d_data) then Some device else find_device o d
  | Ok (RepError _) => s' = s
  | Err _ => False
  end.
Proof.
  cbn zeta. intros Hs. apply reachable_ok in Hs. set (org := cc_organization_id ctx).
  unfold api_user_create, api_user_create_body.
  case_bool_decide as Hp; [intros [= <- <-]; split; naive_solver|].
  destruct (load_user_create ctx msg) as [[[[d_data u_data] ru_data] rd_data]|] eqn:Hl;
    [|intros [= <- <-]; split; naive_solver].
  destruct (check_user_create now d_data u_data ru_data rd_data) as [st|] eqn:Hc.
  { intros [= <- <-]. split; [|done]. split; [done|].
    intros (_ & ? & ? & ? & ? & [= <- <- <- <-] & Ha%certificates_agree_iff & _). congruence. }
  apply certificates_agree_iff in Hc. intros (r' & Hrun & ->)%reply_of_inv.
  apply create_user_inv in Hrun. cbn zeta in Hrun. fold org in Hrun.
  pose proof (mem_handle_false (orgstore s org) (uc_human_handle u_data) (bo_users _ Hs org)) as Hh.
  pose proof (bool_decide_reflect (is_Some (os_users (orgstore s org) !! uc_user_id u_data))) as Hm.
  cbn [u_user_id u_human_handle user_of_certificate] in Hrun. unfold mem_users in Hrun.
  destruct Hm as [Hm|Hm]; cbn [orb] in Hrun.
  { destruct Hrun as [-> ->]. split; [|done]. split; [done|].
    intros (_ & ? & ? & ? & ? & [= <- <- <- <-] & _ & Hn & _). rewrite Hn in Hm. by destruct Hm. }
  apply eq_None_not_Some in Hm. destruct (mem_handle (orgstore s org) (uc_human_handle u_data)).
  { destruct Hrun as [-> ->]. split; [|done]. split; [done|].
    intros (_ & ? & ? & ? & ? & [= <- <- <- <-] & _ & _ & Hn).
    assert (true = false) by (apply Hh; intros; by eapply Hn). done. }
  destruct Hrun as [-> ->]. split.
  { split; [|done]. intros _. split; [done|]. exists d_data, u_data, ru_data, rd_data.
    split_and!; [done|done|done|]. intros h u E. by apply Hh. }
  do 6 eexists. split_and!; [done|done|done|..].
  - rewrite orgstore_add_event, orgstore_set. done.
  - done.
  - intros d. rewrite orgstore_add_event, orgstore_set.
    match goal with |- find_device (set_handles _ (set_device ?dev (set_user ?u ?o))) d = _ =>
      change (find_device (set_device dev (set_user u o)) d =
              if decide (d = d_device_id dev) then Some dev else find_device (set_user u o) d) end.
    apply find_device_set.
Qed.

(** A user is created if and only if the client is an administrator, the
    client signed the four certificates, they agree with each other and are dated
    now, and the organization has neither a user with this id nor another user
    with this email that is not revoked. Then the organization has this user, not
    revoked, and its first device; otherwise nothing changes. *)
Theorem user_create_correct s now ctx msg s' r :
  reachable s → api_user_create now ctx msg s = (s', r) →
  let o := orgstore s (cc_organization_id ctx) in
  let o' := orgstore s' (cc_organization_id ctx) in
  (r = Ok (RepOk tt) ↔ cc_profile ctx = ADMIN ∧ ∃ d_data u_data ru_data rd_data,
   load_user_create ctx msg = Ok (d_data, u_data, ru_data, rd_data) ∧
   certificates_agree now d_data u_data ru_data rd_data ∧
   os_users o !! uc_user_id u_data = None ∧
   ∀ h u, uc_human_handle u_data = Some h → ¬ holds_email o (email h) u) ∧
  match r with
  | Ok (RepOk _) => ∃ d_data u_data ru_data rd_data user device,
      load_user_create ctx msg = Ok (d_data, u_data, ru_data, rd_data) ∧
      user = user_of_certificate u_data (uq_user_certificate msg)
               (bytes_or (uq_redacted_user_certificate msg) (uq_user_certificate msg)) ∧
      device = device_of_certificate d_data (uq_device_certificate msg)
               (bytes_or (uq_redacted_device_certificate msg) (uq_device_certificate msg)) ∧
      os_users o' = <[uc_user_id u_data := user]> (os_users o) ∧ u_revoked_on user = None ∧
      ∀ d, find_device o' d = if decide (d = dc_device_id d_data) then Some device else find_device o d
  | Ok (RepError _) => s' = s
  | Err _ => False
  end.
Proof. apply user_create_ok. Qed.

(** A user is revoked if and only if the client is an administrator, signed
    the certificate, which is dated now and is of another user, and the
    organization has this user, not revoked. Then the user is revoked, keeps its
    certificates and gives its email back; otherwise nothing changes. *)
Theorem user_revoke_correct s now ctx certificate s' r :
  reachable s → api_user_revoke now ctx certificate s = (s', r) →
  let o := orgstore s (cc_organization_id ctx) in
  let o' := orgstore s' (cc_organization_id ctx) in
  (r = Ok (RepOk tt) ↔ cc_profile ctx = ADMIN ∧ ∃ data user,
   verify_revoked_user_certificate certificate (cc_verify_key ctx) (cc_device_id ctx) = Ok data ∧
   timestamps_in_the_ballpark (rc_timestamp data) now = true ∧
   rc_user_id data ≠ cc_user_id ctx ∧
   os_users o !! rc_user_id data = Some user ∧ u_revoked_on user = None) ∧
  match r with
  | Ok (RepOk _) => ∃ data user,
      verify_revoked_user_certificate certificate (cc_verify_key ctx) (cc_device_id ctx) = Ok data ∧
      os_users o !! rc_user_id data = Some user ∧
      os_users o' = <[rc_user_id data := user_evolve_revoked user (rc_timestamp data) certificate
                                           (cc_device_id ctx)]> (os_users o) ∧
      ∀ e u, holds_email o' e u ↔ holds_email o e u ∧ u ≠ rc_user_id data
  | Ok (RepError _) => s' = s
  | Err _ => False
  end.
Proof.
  cbn zeta. intros Hs. apply reachable_ok in Hs. set (org := cc_organization_id ctx).
  unfold api_user_revoke. case_bool_decide as Hp; [intros [= <- <-]; split; naive_solver|].
  destruct (verify_revoked_user_certificate _ _ _) as [data|] eqn:Ev;
    [|intros [= <- <-]; split; naive_solver].
  pose proof Ev as (raw & _ & _ & [= Hauthor] & _)%verify_and_load_Ok.
  destruct (timestamps_in_the_ballpark (rc_timestamp data) now) eqn:Et; cbn [negb];
    [|intros [= <- <-]; split; [naive_solver congruence|done]].
  case_bool_decide as Hself; [intros [= <- <-]; split; naive_solver|].
  intros (r' & Hrun & ->)%reply_of_inv. fold org in Hrun.
  destruct (revoke_user_ok _ _ _ _ _ _ _ _ _ (bo_users _ Hs) Hrun) as [_ Hne].
  apply revoke_user_inv in Hrun. cbn zeta in Hrun.
  destruct Hrun as [(-> & [[Hn ->]|(user & Hu & Hr & ->)])|(user & Hu & Hr & Hrun)].
  - split; [naive_solver congruence|done].
  - split; [|done]. split; [done|]. intros (_ & ? & ? & [= <-] & _ & _ & Hu' & Hr').
    destruct Hr as [? Hr]. congruence.
  - set (user' := user_evolve_revoked user (default now (Some (rc_timestamp data))) certificate
                    (rc_author data)) in *.
    assert (r' = Ok tt ∧ os_users (orgstore s' org) =
      <[rc_user_id data := user']> (os_users (orgstore s org))) as [-> Hset].
    { destruct (match u_human_handle user with Some _ => _ | None => _ end);
        destruct Hrun as [-> ->]; [done|]. by rewrite orgstore_add_event, orgstore_set. }
    split; [split; [|done]; intros _; split; [done|]; by exists data, user|].
    exists data, user. split_and!; [done|done|by rewrite Hset, <-Hauthor|].
    intros e u. unfold holds_email. rewrite Hset.
    destruct (decide (u = rc_user_id data)) as [->|].
    + rewrite lookup_insert_eq. naive_solver.
    + rewrite lookup_insert_ne by done. naive_solver.
Qed.

(** ** Messages, blocks and organizations *)

(** A client that has read [n] messages and asks for the next ones gets
    exactly the messages that came since, in their order, numbered from [n + 1]. *)
Theorem message_get_correct s s' ctx :
  reachable s → rtc backend_step s s' →
  let org := cc_organization_id ctx in
  let n := Z.of_nat (length (messages_of s org (cc_user_id ctx))) in
  ∃ reps, api_message_get ctx n s' = (s', Ok (RepOk reps)) ∧
    messages_of s' org (cc_user_id ctx) = messages_of s org (cc_user_id ctx) ++
      ((λ m, (mp_sender m, mp_timestamp m, mp_body m)) <$> reps) ∧
    ∀ i m, reps !! i = Some m → mp_count m = n + 1 + Z.of_nat i.
Proof.
  cbn zeta. intros Hs Hr. apply reachable_ok in Hs.
  set (org := cc_organization_id ctx). set (u := cc_user_id ctx).
  destruct (gw_messages _ _ (steps_grow _ _ Hs Hr) org u) as [new Hnew].
  set (n := length (messages_of s org u)) in *. unfold api_message_get, message_get_req_valid.
  replace (0 <=? Z.of_nat n) with true by lia. cbn [negb].
  rewrite (bind_Ok _ _ s' s' new).
  2: { unfold get_messages. rewrite (bind_Ok _ _ s' s' (messages_of s' org u)) by done. cbv beta.
       rewrite py_slice_drop by lia. rewrite Hnew, Nat2Z.id. unfold n. by rewrite drop_app_length. }
  cbv beta. eexists. split; [done|]. rewrite Hnew. split.
  - f_equal. rewrite <-list_fmap_compose. clear. generalize (Z.of_nat n + 1).
    induction new as [|[[a t] b] new IH]; intros i; [done|]. cbn. by rewrite <-IH.
  - intros i m Hm. rewrite list_lookup_fmap, lookup_enumerate_from in Hm.
    destruct (new !! i) as [[[a t] b]|]; cbn in Hm; [|done]. by injection Hm as <-.
Qed.

(** A block is stored once: after its creation, whatever happens, a client
    that may read its realm (not in maintenance) gets the bytes that were written,
    and it is never written again. *)
Theorem block_storage_correct s1 s2 s3 ctx ctx' id realm_id block :
  reachable s1 → api_block_create ctx id realm_id block s1 = (s2, Ok (RepOk tt)) →
  rtc backend_step s2 s3 → ctx_ok s1 ctx → cc_organization_id ctx' = cc_organization_id ctx →
  access_granted s3 (cc_organization_id ctx) realm_id (cc_user_id ctx') can_read_roles false →
  access_granted s1 (cc_organization_id ctx) realm_id (cc_user_id ctx) can_write_roles false ∧
  api_block_read ctx' id s3 = (s3, Ok (RepOk block)) ∧
  ∀ realm_id' block' s4 rep, api_block_create ctx' id realm_id' block' s3 = (s4, rep) →
    s4 = s3 ∧ rep ≠ Ok (RepOk tt).
Proof.
  intros Hs Hrun Hsteps Hctx Horg Hacc. set (org := cc_organization_id ctx) in *.
  assert (reachable s2) as Hs2.
  { eapply rtc_r; [exact Hs|]. by eapply StepBlockCreate. }
  apply reply_of_inv in Hrun as (r' & Hrun & Hr').
  apply create_block_inv in Hrun as [(_ & e & -> & He)|(_ & Hw & _ & Heq)].
  { exfalso. repeat (apply elem_of_cons in He as [->|He]; [discriminate Hr'|]). by apply not_elem_of_nil in He. }
  pose proof (steps_grow _ _ (reachable_ok _ Hs2) Hsteps) as Hg.
  assert (be_blocks s3 !! (org, id) = Some block) as Hb.
  { apply (gw_blocks _ _ Hg). rewrite Heq. cbn. by rewrite lookup_insert_eq. }
  assert (be_blockmetas s3 !! (org, id) = Some (mkBlockMeta realm_id (Z.of_nat (length block)))) as Hm.
  { apply (gw_blockmetas _ _ Hg). rewrite Heq. cbn. by rewrite lookup_insert_eq. }
  split_and!; [done|..].
  - unfold api_block_read. rewrite Horg. fold org.
    destruct (read_block org (cc_device_id ctx') id s3) as [s4 r4] eqn:E.
    rewrite (reply_of_eq _ _ _ _ _ _ E).
    pose proof (read_block_allowed _ _ _ _ _ _ _ Hm Hb Hacc (cc_device_id ctx') eq_refl) as E'.
    rewrite E in E'. by injection E' as -> ->.
  - intros realm_id' block' s4 rep Hcreate. unfold api_block_create in Hcreate. rewrite Horg in Hcreate.
    fold org in Hcreate. apply reply_of_inv in Hcreate as (r4 & Hcreate & ->).
    apply create_block_inv in Hcreate as [(-> & e & -> & _)|(_ & _ & Hn & _)]; [|congruence].
    split; [done|]. by destruct e.
Qed.

(** An organization is bootstrapped if and only if the request has the
    certificates of an administrator that agree with each other, signed with the
    root key of the request and dated now, and the token of an organization that
    has no root key yet. Then the organization has this root key, for ever, and
    the administrator for only user; otherwise nothing changes. *)
Theorem organization_bootstrap_correct s now org msg s' r :
  reachable s → api_organization_bootstrap now org msg s = (s', r) →
  (r = Ok (RepOk tt) ↔ (∃ u_data d_data ru_data rd_data,
     load_bootstrap msg = Ok (u_data, d_data, ru_data, rd_data) ∧
     check_bootstrap now u_data d_data ru_data rd_data = None) ∧
   ∃ o, be_organizations s !! org = Some o ∧ o_root_verify_key o = None ∧
        o_bootstrap_token o = ob_bootstrap_token msg) ∧
  match r with
  | Ok (RepOk _) =>
      (∃ u, dom (os_users (orgstore s' org)) = {[ u ]}) ∧
      ∀ s2, rtc backend_step s' s2 →
        ∃ o, be_organizations s2 !! org = Some o ∧ o_root_verify_key o = Some (ob_root_verify_key msg)
  | Ok (RepError _) => s' = s
  | Err _ => False
  end.
Proof.
  intros Hs Hrun. assert (backend_step s s') as Hstep by by eapply StepOrganizationBootstrap.
  apply reachable_ok in Hs. pose proof (backend_step_ok _ _ Hs Hstep) as Hs'.
  unfold api_organization_bootstrap in Hrun.
  destruct (load_bootstrap msg) as [[[[u_data d_data] ru_data] rd_data]|] eqn:Hl;
    [|injection Hrun as <- <-; split; naive_solver].
  destruct (check_bootstrap now u_data d_data ru_data rd_data) as [st|] eqn:Hc.
  { injection Hrun as <- <-. split; [naive_solver congruence|done]. }
  apply reply_of_inv in Hrun as (r' & Hrun & ->). pose proof Hrun as Hrun'.
  apply organization_bootstrap_inv in Hrun as
    [(-> & e & -> & He & Hfirst)|(-> & o & s1 & Ho & Hk & Ht & Hcreate & ->)].
  - assert (e ≠ OrganizationFirstUserCreationError) as Hne.
    { intros ->. destruct (Hfirst eq_refl) as [(o & Ho & Hk) Hm].
      by rewrite (not_bootstrapped_empty _ _ _ Hs Ho Hk) in Hm. }
    assert (¬ ∃ o, be_organizations s !! org = Some o ∧ o_root_verify_key o = None ∧
              o_bootstrap_token o = ob_bootstrap_token msg) as Hno.
    { intros (o & Ho & Hk & Ht). unfold organization_bootstrap in Hrun'.
      rewrite (bind_Ok _ _ s s o) in Hrun'.
      2: { unfold organization_get, gets, of_option, mbind, stM_bind. by rewrite Ho. }
      cbv beta in Hrun'. unfold is_bootstrapped in Hrun'. rewrite Hk in Hrun'.
      rewrite (bind_Ok _ _ s s tt eq_refl) in Hrun'. cbv beta in Hrun'.
      rewrite bool_decide_false in Hrun' by (intros Hn; by apply Hn).
      rewrite (bind_Ok _ _ s s tt eq_refl) in Hrun'. cbv beta in Hrun'.
      minv Hrun'; [by unfold set_organization in Hrun'; minv_base Hrun'|].
      apply try_catch_inv in Hrun as [(? & _ & [=])|(e' & s1 & Hcr & _)].
      apply create_user_inv in Hcr. cbn zeta in Hcr.
      rewrite (not_bootstrapped_empty _ _ _ Hs Ho Hk) in Hcr. by destruct Hcr. }
    repeat (apply elem_of_cons in He as [->|He]; [split; naive_solver|]). by apply not_elem_of_nil in He.
  - split.
    { split; [|done]. intros _. split; [by exists u_data, d_data, ru_data, rd_data|]. by exists o. }
    pose proof (og_id _ (bo_orgs _ Hs) _ _ Ho) as Hid. rewrite Hid in *. split.
    + exists (uc_user_id u_data). apply create_user_inv in Hcreate. cbn zeta in Hcreate.
      rewrite (not_bootstrapped_empty _ _ _ Hs Ho Hk) in Hcreate. destruct Hcreate as [_ ->].
      rewrite orgstore_set_organizations, orgstore_add_event.
      rewrite orgstore_set. cbn. rewrite dom_insert_L.
      assert (dom (os_users (orgstore s org)) = ∅) as ->; [|set_solver].
      apply elem_of_equiv_empty_L. intros u [user Hu]%elem_of_dom.
      destruct (og_bootstrapped _ (bo_orgs _ Hs) org u) as (o2 & key & Ho2 & Hk2); [eauto|congruence].
    + intros s2 Hr. eapply (gw_keys _ _ (steps_grow _ _ Hs' Hr) org); cbn.
      * by rewrite lookup_insert_eq.
      * done.
Qed.

(** The two computations of the roles of a realm agree as long as the records
    were granted in the order of their dates. *)
Theorem role_order r :
  StronglySorted (λ x y, gr_granted_on x <= gr_granted_on y) (r_granted_roles r) →
  current_roles r = realm_roles r.
Proof.
  intros Hs. unfold current_roles, realm_roles. rewrite py_sorted_id; [done|unfold granted_leb; intros; lia|unfold granted_leb; intros; lia|].
  induction Hs as [|x l Hs IH Hx]; constructor; [done|].
  eapply Forall_impl; [exact Hx|]. intros y Hy. by apply Z.leb_le.
Qed.
End properties.

(** But a certificate is only asked to be dated at most half an hour away, so
    that a grant that the server accepts may have no effect: here an owner removes
    the other one with a certificate that is older than the one that made it an
    owner, the server answers that it is done, [get_current_roles] agrees, and the
    removed user still has all the rights of an owner. *)
Theorem role_removal_may_not_apply :
  ∃ s s' r1 r2, reachable s ∧
    api_realm_update_roles 4 bob_ctx [x42; x0f] None s = (s', Ok (RepOk tt)) ∧
    be_realms s !! ("org"%string, 1%N) = Some r1 ∧ be_realms s' !! ("org"%string, 1%N) = Some r2 ∧
    rr_role <$> loads_realm_role [x0f] = Some None ∧
    current_roles r2 !! "alice"%string = None ∧
    role_of r2 "alice" = Some OWNER ∧
    access_granted s' "org" 1%N "alice" can_write_roles false.
Proof.
  exists ex_owners, ex_removed. do 2 eexists. split_and!.
  - exact ex_owners_reachable.
  - vm_compute. reflexivity.
  - vm_compute. reflexivity.
  - vm_compute. reflexivity.
  - reflexivity.
  - vm_compute. reflexivity.
  - vm_compute. reflexivity.
  - eexists _, OWNER. split_and!; [vm_compute; reflexivity|vm_compute; reflexivity| |].
    + unfold can_write_roles. set_solver.
    + vm_compute. reflexivity.
Qed.

(** ** The theorems on the run *)

Lemma user_get_witness :
  ∃ user rep, os_users (orgstore ex_written "org") !! "bob"%string = Some user ∧
    api_user_get alice_ctx "bob" ex_written = (ex_written, Ok (RepOk rep)) ∧
    gu_user_certificate rep = [x41; x05] ∧
    ∀ d, trust_reach (orgstore ex_written "org") (ids_of_user (orgstore ex_written "org") "bob" user) d →
      trust_known (orgstore ex_written "org") d.
Proof.
  pose proof (user_get_correct ex_written alice_ctx "bob" ex_written_reachable) as H.
  cbv zeta in H. change (cc_organization_id alice_ctx) with "org"%string in H.
  destruct (os_users (orgstore ex_written "org") !! "bob"%string) as [user|] eqn:E;
    [|vm_compute in E; discriminate E].
  destruct H as (rep & Hrep & Hc & _ & _ & _ & Hk). exists user, rep.
  split; [reflexivity|]. split; [exact Hrep|]. split; [|exact Hk].
  rewrite Hc. vm_compute in E. injection E as <-. reflexivity.
Defined.
Lemma user_create_witness :
  ∃ s', api_user_create 1 alice_ctx bob_req ex_bootstrapped = (s', Ok (RepOk tt)) ∧
    is_Some (os_users (orgstore s' "org") !! "bob"%string).
Proof.
  destruct (api_user_create 1 alice_ctx bob_req ex_bootstrapped) as [s' r] eqn:E.
  pose proof (user_create_correct ex_bootstrapped 1 alice_ctx bob_req s' r ex_bootstrapped_reachable E)
    as [_ H].
  apply (f_equal snd) in E. vm_compute in E. subst r. exists s'. split; [reflexivity|].
  destruct H as (d_data & u_data & ru_data & rd_data & user & device & Hl & _ & _ & Hu & _).
  change (cc_organization_id alice_ctx) with "org"%string in Hu. rewrite Hu.
  vm_compute in Hl. injection Hl as _ <- _ _. exists user. apply lookup_insert_eq.
Defined.
Lemma user_revoke_witness :
  ∃ s', api_user_revoke 9 alice_ctx [x41; x20] ex_written = (s', Ok (RepOk tt)) ∧
    ∀ e, ¬ holds_email (orgstore s' "org") e "bob".
Proof.
  destruct (api_user_revoke 9 alice_ctx [x41; x20] ex_written) as [s' r] eqn:E.
  pose proof (user_revoke_correct ex_written 9 alice_ctx [x41; x20] s' r ex_written_reachable E)
    as [_ H].
  apply (f_equal snd) in E. vm_compute in E. subst r. exists s'. split; [reflexivity|].
  destruct H as (data & user & Hd & _ & _ & He). vm_compute in Hd. injection Hd as <-.
  intros e Hb. apply He in Hb as [_ Hb]. by apply Hb.
Defined.
Lemma message_get_witness :
  ∃ reps, api_message_get bob_ctx 1 ex_maintenance = (ex_maintenance, Ok (RepOk reps)) ∧
    messages_of ex_maintenance "org" "bob" = messages_of ex_written "org" "bob" ++
      ((λ m, (mp_sender m, mp_timestamp m, mp_body m)) <$> reps).
Proof.
  destruct (message_get_correct ex_written ex_maintenance bob_ctx ex_written_reachable
    ex_maintenance_steps) as (reps & Hrun & Hall & _).
  exists reps. split; [|exact Hall].
  assert (Z.of_nat (length (messages_of ex_written (cc_organization_id bob_ctx) (cc_user_id bob_ctx))) = 1)
    as E by (vm_compute; reflexivity).
  rewrite E in Hrun. exact Hrun.
Defined.
Lemma block_storage_witness :
  api_block_read alice_ctx 9 ex_written = (ex_written, Ok (RepOk [x62; x6c; x6b])).
Proof.
  refine (proj1 (proj2 (block_storage_correct ex_vlob2 ex_written ex_written bob_ctx alice_ctx 9 1
    [x62; x6c; x6b] ex_vlob2_reachable ex_written_eq _ _ _ _))).
  - apply rtc_refl.
  - eexists. split; [vm_compute; reflexivity|]. split; [reflexivity|]. eexists. vm_compute. reflexivity.
  - reflexivity.
  - eexists _, OWNER. split; [vm_compute; reflexivity|]. split; [vm_compute; reflexivity|].
    split; [by left|reflexivity].
Defined.
Lemma organization_bootstrap_witness :
  ∃ s', api_organization_bootstrap 0 "org" bootstrap_req ex_created = (s', Ok (RepOk tt)) ∧
    ∃ u, dom (os_users (orgstore s' "org")) = {[ u ]}.
Proof.
  destruct (api_organization_bootstrap 0 "org" bootstrap_req ex_created) as [s' r] eqn:E.
  pose proof (organization_bootstrap_correct ex_created 0 "org" bootstrap_req s' r
    ex_created_reachable E) as [_ H].
  apply (f_equal snd) in E. vm_compute in E. subst r. exists s'. split; [reflexivity|].
  exact (proj1 H).
Defined.
Lemma role_order_witness :
  ∃ r, be_realms ex_written !! ("org"%string, 1%N) = Some r ∧ current_roles r = realm_roles r.
Proof.
  destruct (be_realms ex_written !! ("org"%string, 1%N)) as [r|] eqn:E;
    [|vm_compute in E; discriminate E].
  exists r. split; [reflexivity|]. apply (role_order r). vm_compute in E. injection E as <-.
  cbn. repeat constructor; cbn; lia.
Defined.
