(* ===== verification/Invite.v ===== *)
(** The invitations of the server: [backendService/invite.py] and
    [backendService/memory/invite.py]. The conduit through which a greeter and a
    claimer exchange their payloads is a state machine that both drive. *)

From S2P Require Import Prelude Types Backend BackendUser.

(** ** Data *)

Inductive ConduitState :=
| STATE_1_WAIT_PEERS | STATE_2_1_CLAIMER_HASHED_NONCE | STATE_2_2_GREETER_NONCE
| STATE_2_3_CLAIMER_NONCE | STATE_3_1_CLAIMER_TRUST | STATE_3_2_GREETER_TRUST
| STATE_4_COMMUNICATE.
#[export] Instance ConduitState_eq_dec : EqDecision ConduitState.
Proof. solve_decision. Defined.

Definition NEXT_CONDUIT_STATE (s : ConduitState) : ConduitState :=
  match s with
  | STATE_1_WAIT_PEERS => STATE_2_1_CLAIMER_HASHED_NONCE
  | STATE_2_1_CLAIMER_HASHED_NONCE => STATE_2_2_GREETER_NONCE
  | STATE_2_2_GREETER_NONCE => STATE_2_3_CLAIMER_NONCE
  | STATE_2_3_CLAIMER_NONCE => STATE_3_1_CLAIMER_TRUST
  | STATE_3_1_CLAIMER_TRUST => STATE_3_2_GREETER_TRUST
  | STATE_3_2_GREETER_TRUST => STATE_4_COMMUNICATE
  | STATE_4_COMMUNICATE => STATE_4_COMMUNICATE
  end.

Inductive InvitationStatus := IDLE | READY | DELETED.
Inductive InvitationDeletedReason := FINISHED | CANCELLED | ROTTEN.
#[export] Instance InvitationStatus_eq_dec : EqDecision InvitationStatus.
Proof. solve_decision. Defined.

(** [Invitation]: a [UserInvitation] or a [DeviceInvitation]. *)
Record InvitationBase := mkInvitationBase {
  ib_greeter_user_id : UserID;
  ib_greeter_human_handle : option HumanHandle;
  ib_token : UUID;
  ib_created_on : DateTime;
  ib_status : InvitationStatus }.
Inductive Invitation :=
| InviteUser (b : InvitationBase) (claimer_email : string)
| InviteDevice (b : InvitationBase).
Definition i_base (i : Invitation) : InvitationBase :=
  match i with InviteUser b _ | InviteDevice b => b end.
Definition i_greeter (i : Invitation) : UserID := ib_greeter_user_id (i_base i).
Definition i_token (i : Invitation) : UUID := ib_token (i_base i).
Definition i_created_on (i : Invitation) : DateTime := ib_created_on (i_base i).
(** [getattr(invitation, "claimer_email", None)] *)
Definition i_claimer_email (i : Invitation) : option string :=
  match i with InviteUser _ e => Some e | InviteDevice _ => None end.
(** [invitation.evolve(status=...)] *)
Definition i_evolve_status (status : InvitationStatus) (i : Invitation) : Invitation :=
  let f b := mkInvitationBase (ib_greeter_user_id b) (ib_greeter_human_handle b) (ib_token b)
               (ib_created_on b) status in
  match i with
  | InviteUser b e => InviteUser (f b) e
  | InviteDevice b => InviteDevice (f b)
  end.

Record Conduit := mkConduit {
  c_state : ConduitState;
  c_claimer_payload : option bytes;
  c_greeter_payload : option bytes }.
#[export] Instance Conduit_eq_dec : EqDecision Conduit.
Proof. solve_decision. Defined.
Definition new_conduit : Conduit := mkConduit STATE_1_WAIT_PEERS None None.

(** [ConduitListenCtx]; the greeter is [None] for the claimer. *)
Record ConduitListenCtx := mkConduitListenCtx {
  l_organization_id : OrganizationID;
  l_greeter : option UserID;
  l_token : UUID;
  l_state : ConduitState;
  l_payload : bytes;
  l_peer_payload : option bytes }.
#[export] Instance ConduitListenCtx_eq_dec : EqDecision ConduitListenCtx.
Proof. solve_decision. Defined.
Definition l_is_greeter (ctx : ConduitListenCtx) : bool := bool_decide (is_Some (l_greeter ctx)).

Inductive InviteEvent :=
| INVITE_CONDUIT_UPDATED (org : OrganizationID) (token : UUID)
| INVITE_STATUS_CHANGED (org : OrganizationID) (greeter : UserID) (token : UUID)
    (status : InvitationStatus).

Inductive InviteExn :=
| InvitationNotFoundError | InvitationAlreadyDeletedError | InvitationInvalidStateError
| InvitationAlreadyMemberError | InviteUserNotFoundError.
#[export] Instance InviteExn_eq_dec : EqDecision InviteExn.
Proof. solve_decision. Defined.

(** The [OrganizationStore] of the component; the invitations keep the order in
    which they were added, and [conduits] is a [defaultdict]. *)
Record InviteStore := mkInviteStore {
  is_invitations : odict UUID Invitation;
  is_deleted_invitations : gmap UUID (DateTime * InvitationDeletedReason);
  is_conduits : gmap UUID Conduit }.
Definition empty_invite_store : InviteStore := mkInviteStore [] ∅ ∅.

(** The component, with the users it reads. *)
Record Invites := mkInvites {
  iv_users : gmap OrganizationID OrganizationStore;
  iv_organizations : gmap OrganizationID InviteStore;
  iv_claimers_ready : gmap OrganizationID (gset UUID);
  iv_events : list InviteEvent }.
Abbreviation inviteM := (stM Invites InviteExn) (only parsing).

Definition invite_store (s : Invites) (org : OrganizationID) : InviteStore :=
  default empty_invite_store (iv_organizations s !! org).
Definition set_invite_store (org : OrganizationID) (f : InviteStore → InviteStore) : inviteM unit :=
  modify (λ s, mkInvites (iv_users s) (<[org := f (invite_store s org)]> (iv_organizations s))
                 (iv_claimers_ready s) (iv_events s)).
Definition send_invite_event (e : InviteEvent) : inviteM unit :=
  modify (λ s, mkInvites (iv_users s) (iv_organizations s) (iv_claimers_ready s)
                 (e :: iv_events s)).
Definition conduit_of (o : InviteStore) (token : UUID) : Conduit :=
  default new_conduit (is_conduits o !! token).
Definition put_conduit (token : UUID) (c : Conduit) (o : InviteStore) : InviteStore :=
  mkInviteStore (is_invitations o) (is_deleted_invitations o) (<[token := c]> (is_conduits o)).
Definition set_conduit (org : OrganizationID) (token : UUID) (c : Conduit) : inviteM unit :=
  set_invite_store org (put_conduit token c).

(** ** [MemoryInviteComponent] *)

(** [_get_invitation_and_conduit]: what it returns or raises for a store *)
Definition find_invitation (o : InviteStore) (token : UUID) (expected_greeter : option UserID)
    : result InviteExn (Invitation * Conduit) :=
  match od_get (is_invitations o) token with
  | None => Err InvitationNotFoundError
  | Some invitation =>
      if match expected_greeter with
         | Some g => bool_decide (i_greeter invitation ≠ g)
         | None => false
         end
      then Err InvitationNotFoundError
      else if bool_decide (is_Some (is_deleted_invitations o !! token))
      then Err InvitationAlreadyDeletedError
      else Ok (invitation, conduit_of o token)
  end.
Definition get_invitation_and_conduit (org : OrganizationID) (token : UUID)
    (expected_greeter : option UserID) : inviteM (Invitation * Conduit) :=
  o ← gets (λ s, invite_store s org);
  lift_result (find_invitation o token expected_greeter).

Definition our_payload (is_greeter : bool) (c : Conduit) : option bytes :=
  if is_greeter then c_greeter_payload c else c_claimer_payload c.
Definition peer_payload (is_greeter : bool) (c : Conduit) : option bytes :=
  if is_greeter then c_claimer_payload c else c_greeter_payload c.

(** The conduit after [_conduit_talk] and the payload of the peer it found. *)
Definition talk_conduit (is_greeter : bool) (state : ConduitState) (payload : bytes) (c : Conduit)
    : result InviteExn (Conduit * option bytes) :=
  let set_ours c :=
    if is_greeter then mkConduit (c_state c) (c_claimer_payload c) (Some payload)
    else mkConduit (c_state c) (Some payload) (c_greeter_payload c) in
  if bool_decide (c_state c ≠ state) || bool_decide (is_Some (our_payload is_greeter c)) then
    if bool_decide (state = STATE_1_WAIT_PEERS)
    then Ok (set_ours (mkConduit state None None), None)
    else Err InvitationInvalidStateError
  else Ok (set_ours c, peer_payload is_greeter c).

(** [_conduit_talk] *)
Definition conduit_talk (org : OrganizationID) (greeter : option UserID) (token : UUID)
    (state : ConduitState) (payload : bytes) : inviteM ConduitListenCtx :=
  '(_, conduit) ← get_invitation_and_conduit org token greeter;
  '(conduit, curr_peer_payload) ←
    lift_result (talk_conduit (bool_decide (is_Some greeter)) state payload conduit);
  _ ← set_conduit org token conduit;
  _ ← send_invite_event (INVITE_CONDUIT_UPDATED org token);
  mret (mkConduitListenCtx org greeter token state payload curr_peer_payload).

(** What [_conduit_listen] does with the conduit: [ListenMove p] moves it to the
    next state and returns [p]. *)
Inductive listen_outcome := ListenMove (p : bytes) | ListenReturn (p : bytes) | ListenWait.
Definition listen_conduit (ctx : ConduitListenCtx) (c : Conduit)
    : result InviteExn listen_outcome :=
  let curr_our_payload := our_payload (l_is_greeter ctx) c in
  let curr_peer_payload := peer_payload (l_is_greeter ctx) c in
  match l_peer_payload ctx with
  | None =>
      if bool_decide (c_state c ≠ l_state ctx) ||
         bool_decide (curr_our_payload ≠ Some (l_payload ctx))
      then Err InvitationInvalidStateError
      else match curr_peer_payload with
           | Some p => Ok (ListenMove p)
           | None => Ok ListenWait
           end
  | Some peer =>
      if bool_decide (c_state c = NEXT_CONDUIT_STATE (l_state ctx)) &&
         bool_decide (curr_our_payload = None)
      then Ok (ListenReturn peer)
      else if bool_decide (c_state c ≠ l_state ctx) ||
              bool_decide (curr_our_payload ≠ Some (l_payload ctx)) ||
              bool_decide (curr_peer_payload ≠ Some peer)
      then Err InvitationInvalidStateError
      else Ok ListenWait
  end.

(** [_conduit_listen] *)
Definition conduit_listen (ctx : ConduitListenCtx) : inviteM (option bytes) :=
  '(_, conduit) ← get_invitation_and_conduit (l_organization_id ctx) (l_token ctx) (l_greeter ctx);
  outcome ← lift_result (listen_conduit ctx conduit);
  match outcome with
  | ListenMove p =>
      _ ← set_conduit (l_organization_id ctx) (l_token ctx)
            (mkConduit (NEXT_CONDUIT_STATE (l_state ctx)) None None);
      _ ← send_invite_event (INVITE_CONDUIT_UPDATED (l_organization_id ctx) (l_token ctx));
      mret (Some p)
  | ListenReturn p => mret (Some p)
  | ListenWait => mret None
  end.

(** The search of [_new] for an invitation that was already made. *)
Definition same_invitation (o : InviteStore) (greeter : UserID) (claimer_email : option string)
    (i : Invitation) : bool :=
  bool_decide (i_greeter i = greeter) && bool_decide (i_claimer_email i = claimer_email) &&
  bool_decide (is_deleted_invitations o !! i_token i = None).
(** [_new]; [token] is the fresh token, [now] the time. *)
Definition invite_new (token : UUID) (now : DateTime) (org : OrganizationID) (greeter : UserID)
    (created_on : option DateTime) (claimer_email : option string) : inviteM Invitation :=
  o ← gets (λ s, invite_store s org);
  match list_find (λ i, same_invitation o greeter claimer_email i = true)
          (od_values (is_invitations o)) with
  | Some (_, invitation) => mret invitation
  | None =>
      users ← gets (λ s, default empty_organization_store (iv_users s !! org));
      user ← of_option InviteUserNotFoundError (os_users users !! greeter);
      let b := mkInvitationBase greeter (u_human_handle user) token (default now created_on) IDLE in
      let invitation :=
        if truthy_str claimer_email then InviteUser b (default ""%string claimer_email)
        else InviteDevice b in
      _ ← set_invite_store org (λ o,
            mkInviteStore (od_set (is_invitations o) (i_token invitation) invitation)
              (is_deleted_invitations o) (is_conduits o));
      _ ← send_invite_event (INVITE_STATUS_CHANGED org (i_greeter invitation) (i_token invitation)
            (ib_status (i_base invitation)));
      mret invitation
  end.

(** [new_for_user]: the test that the email is the one of a user that is not
    revoked at time [now]. *)
Definition has_email (claimer_email : string) (u : User) : bool :=
  match u_human_handle u with
  | Some h => bool_decide (email h = claimer_email)
  | None => false
  end.
Definition already_member (now : DateTime) (users : OrganizationStore) (claimer_email : string)
    : bool :=
  existsb (λ '(_, u), has_email claimer_email u && negb (user_is_revoked now u))
    (map_to_list (os_users users)).
Definition new_for_user (token : UUID) (now : DateTime) (org : OrganizationID) (greeter : UserID)
    (claimer_email : string) (created_on : option DateTime) : inviteM Invitation :=
  users ← gets (λ s, default empty_organization_store (iv_users s !! org));
  _ ← raise_if (already_member now users claimer_email) InvitationAlreadyMemberError;
  invite_new token now org greeter created_on (Some claimer_email).
(** [new_for_device] *)
Definition new_for_device (token : UUID) (now : DateTime) (org : OrganizationID) (greeter : UserID)
    (created_on : option DateTime) : inviteM Invitation :=
  invite_new token now org greeter created_on None.

(** [delete] *)
Definition invite_delete (org : OrganizationID) (greeter : UserID) (token : UUID) (on : DateTime)
    (reason : InvitationDeletedReason) : inviteM unit :=
  _ ← get_invitation_and_conduit org token (Some greeter);
  _ ← set_invite_store org (λ o, mkInviteStore (is_invitations o)
        (<[token := (on, reason)]> (is_deleted_invitations o)) (is_conduits o));
  send_invite_event (INVITE_STATUS_CHANGED org greeter token DELETED).

(** [list] *)
Definition created_leb (x y : Invitation) : bool := i_created_on x <=? i_created_on y.
Definition invite_list (org : OrganizationID) (greeter : UserID) : inviteM (list Invitation) :=
  o ← gets (λ s, invite_store s org);
  ready ← gets (λ s, default ∅ (iv_claimers_ready s !! org));
  mret (py_sorted created_leb
    ((λ i, if bool_decide (i_token i ∈ ready) then i_evolve_status READY i else i)
       <$> filter (λ i, i_greeter i = greeter ∧ is_deleted_invitations o !! i_token i = None)
             (od_values (is_invitations o)))).

(** [info] *)
Definition invite_info (org : OrganizationID) (token : UUID) : inviteM Invitation :=
  '(invitation, _) ← get_invitation_and_conduit org token None;
  mret invitation.

(** [claimer_joined] and [claimer_left] *)
Definition claimer_joined (org : OrganizationID) (greeter : UserID) (token : UUID)
    : inviteM unit := send_invite_event (INVITE_STATUS_CHANGED org greeter token READY).
Definition claimer_left (org : OrganizationID) (greeter : UserID) (token : UUID)
    : inviteM unit := send_invite_event (INVITE_STATUS_CHANGED org greeter token IDLE).

(** [_on_status_changed], which the event bus calls with each
    [INVITE_STATUS_CHANGED]. *)
Definition on_status_changed (org : OrganizationID) (token : UUID) (status : InvitationStatus)
    (s : Invites) : Invites :=
  let ready := default ∅ (iv_claimers_ready s !! org) in
  mkInvites (iv_users s) (iv_organizations s)
    (<[org := if bool_decide (status = READY) then {[ token ]} ∪ ready
              else ready ∖ {[ token ]}]> (iv_claimers_ready s))
    (iv_events s).

(** ** The API: [BaseInviteComponent] *)

(** A request that exchanges payloads: [conduit_exchange] talks, then listens
    each time an event wakes it until there is a payload. A handler is the
    exchanges that are left, the listen context of the one that is running and
    the payloads received so far. *)
Record Handler := mkHandler {
  h_org : OrganizationID;
  h_greeter : option UserID;
  h_token : UUID;
  h_todo : list (ConduitState * bytes);
  h_waiting : option ConduitListenCtx;
  h_received : list bytes }.
Definition handler_start (org : OrganizationID) (greeter : option UserID) (token : UUID)
    (exchanges : list (ConduitState * bytes)) : Handler :=
  mkHandler org greeter token exchanges None [].
Definition handler_finished (h : Handler) : bool :=
  match h_todo h, h_waiting h with [], None => true | _, _ => false end.
(** One turn of a handler: the talk of the next exchange, or a listen. *)
Definition handler_step (h : Handler) : inviteM Handler :=
  match h_waiting h with
  | Some ctx =>
      payload ← conduit_listen ctx;
      mret (match payload with
            | Some p => mkHandler (h_org h) (h_greeter h) (h_token h) (h_todo h) None
                          (h_received h ++ [p])
            | None => h
            end)
  | None =>
      match h_todo h with
      | [] => mret h
      | (state, payload) :: todo =>
          ctx ← conduit_talk (h_org h) (h_greeter h) (h_token h) state payload;
          mret (mkHandler (h_org h) (h_greeter h) (h_token h) todo (Some ctx) (h_received h))
      end
  end.
(** The statuses of the exceptions that each handler catches. *)
Definition conduit_status (e : InviteExn) : option string :=
  match e with
  | InvitationNotFoundError => Some "not_found"%string
  | InvitationAlreadyDeletedError => Some "already_deleted"%string
  | InvitationInvalidStateError => Some "invalid_state"%string
  | _ => None
  end.
(** The payload of the reply: the one of the last exchange. *)
Definition handler_payload (h : Handler) : option bytes := last (h_received h).

Section handlers.
Context (org : OrganizationID) (greeter : UserID) (token : UUID).
Let claimer_handler := handler_start org None token.
Let greeter_handler := handler_start org (Some greeter) token.

Definition api_invite_1_claimer_wait_peer (claimer_public_key : bytes) :=
  claimer_handler [(STATE_1_WAIT_PEERS, claimer_public_key)].
Definition api_invite_1_greeter_wait_peer (greeter_public_key : bytes) :=
  greeter_handler [(STATE_1_WAIT_PEERS, greeter_public_key)].
Definition api_invite_2a_claimer_send_hashed_nonce (claimer_hashed_nonce : bytes) :=
  claimer_handler [(STATE_2_1_CLAIMER_HASHED_NONCE, claimer_hashed_nonce);
                   (STATE_2_2_GREETER_NONCE, [])].
Definition api_invite_2a_greeter_get_hashed_nonce :=
  greeter_handler [(STATE_2_1_CLAIMER_HASHED_NONCE, [])].
Definition api_invite_2b_greeter_send_nonce (greeter_nonce : bytes) :=
  greeter_handler [(STATE_2_2_GREETER_NONCE, greeter_nonce); (STATE_2_3_CLAIMER_NONCE, [])].
Definition api_invite_2b_claimer_send_nonce (claimer_nonce : bytes) :=
  claimer_handler [(STATE_2_3_CLAIMER_NONCE, claimer_nonce)].
Definition api_invite_3a_greeter_wait_peer_trust :=
  greeter_handler [(STATE_3_1_CLAIMER_TRUST, [])].
Definition api_invite_3b_claimer_wait_peer_trust :=
  claimer_handler [(STATE_3_2_GREETER_TRUST, [])].
Definition api_invite_3b_greeter_signify_trust :=
  greeter_handler [(STATE_3_2_GREETER_TRUST, [])].
Definition api_invite_3a_claimer_signify_trust :=
  claimer_handler [(STATE_3_1_CLAIMER_TRUST, [])].
Definition api_invite_4_greeter_communicate (payload : bytes) :=
  greeter_handler [(STATE_4_COMMUNICATE, payload)].
Definition api_invite_4_claimer_communicate (payload : bytes) :=
  claimer_handler [(STATE_4_COMMUNICATE, payload)].
End handlers.

(** [api_invite_delete] *)
Definition api_invite_delete (now : DateTime) (client_ctx : ClientCtx) (token : UUID)
    (reason : InvitationDeletedReason) : inviteM (reply unit) :=
  try_catch (_ ← invite_delete (cc_organization_id client_ctx) (cc_user_id client_ctx) token
                   now reason;
             mret (RepOk tt))
    (λ e, match e with
          | InvitationNotFoundError => mret (RepError "not_found")
          | InvitationAlreadyDeletedError => mret (RepError "already_deleted")
          | e => mthrow e
          end).
