(* ===== verification/InviteProperties.v ===== *)
(** The exchange of payloads between a greeter and a claimer: whatever the order
    in which their requests run, each gets the payloads of the other, and the
    exchange ends. *)

From S2P Require Import Prelude Types Backend BackendUser Invite.

(** ** The system of the two peers *)

(** A round of the protocol: the state of the conduit, and what the claimer and
    the greeter send. *)
Record Round := mkRound { rd_state : ConduitState; rd_claimer : bytes; rd_greeter : bytes }.
Definition pay (g : bool) (r : Round) : bytes := if g then rd_greeter r else rd_claimer r.
(** Each round is in the state that follows the one of the round before. *)
Fixpoint chained (rounds : list Round) : Prop :=
  match rounds with
  | r :: ((r2 :: _) as l) => rd_state r2 = NEXT_CONDUIT_STATE (rd_state r) ∧ chained l
  | _ => True
  end.

Section exchange.
Context (org : OrganizationID) (greeter : UserID) (token : UUID).

(** The peers: [true] is the greeter. *)
Definition who (g : bool) : option UserID := if g then Some greeter else None.
Definition peer_handler (g : bool) (rounds : list Round) : Handler :=
  handler_start org (who g) token ((λ r, (rd_state r, pay g r)) <$> rounds).

Record System := mkSystem { sy_store : Invites; sy_claimer : Handler; sy_greeter : Handler }.
Definition sy_handler (g : bool) (y : System) : Handler :=
  if g then sy_greeter y else sy_claimer y.
Definition with_handler (g : bool) (s : Invites) (h : Handler) (y : System) : System :=
  if g then mkSystem s (sy_claimer y) h else mkSystem s h (sy_greeter y).

(** One turn of a peer; the run of a schedule, which stops at an exception. *)
Definition turn (g : bool) (y : System) : result InviteExn System :=
  match handler_step (sy_handler g y) (sy_store y) with
  | (s, Ok h) => Ok (with_handler g s h y)
  | (_, Err e) => Err e
  end.
Fixpoint run (schedule : list bool) (y : System) : result InviteExn System :=
  match schedule with
  | [] => Ok y
  | g :: schedule => y ← turn g y; run schedule y
  end.

Definition finished (y : System) : Prop :=
  handler_finished (sy_claimer y) = true ∧ handler_finished (sy_greeter y) = true.

(** The invitation is there, and was made by the greeter. *)
Definition invited (s : Invites) : Prop :=
  ∃ i, od_get (is_invitations (invite_store s org)) token = Some i ∧ i_greeter i = greeter ∧
    is_deleted_invitations (invite_store s org) !! token = None.
Definition conduit (s : Invites) : Conduit := conduit_of (invite_store s org) token.

(** ** The invariant *)

(** A conduit with the payloads of [x] and of the other peer. *)
Definition conduit_as (x : bool) (st : ConduitState) (p q : option bytes) : Conduit :=
  if x then mkConduit st q p else mkConduit st p q.
Definition handler_at (g : bool) (past todo : list Round) (w : option ConduitListenCtx) : Handler :=
  mkHandler org (who g) token ((λ r, (rd_state r, pay g r)) <$> todo) w (pay (negb g) <$> past).
Definition listening (g : bool) (r : Round) (peer : option bytes) : option ConduitListenCtx :=
  Some (mkConduitListenCtx org (who g) token (rd_state r) (pay g r) peer).

(** Where the peers are: [x] is ahead of the other one. *)
Inductive at_round (x : bool) (past : list Round) : Handler → Handler → Conduit → list Round → Prop :=
| at_start c l :
    match l with r :: _ => c = conduit_as x (rd_state r) None None | [] => True end →
    at_round x past (handler_at x past l None) (handler_at (negb x) past l None) c l
| at_one r l :
    at_round x past (handler_at x past l (listening x r None))
      (handler_at (negb x) past (r :: l) None)
      (conduit_as x (rd_state r) (Some (pay x r)) None) (r :: l)
| at_both r l :
    at_round x past (handler_at x past l (listening x r None))
      (handler_at (negb x) past l (listening (negb x) r (Some (pay x r))))
      (conduit_as x (rd_state r) (Some (pay x r)) (Some (pay (negb x) r))) (r :: l)
| at_moved r l :
    at_round x past (handler_at x (past ++ [r]) l None)
      (handler_at (negb x) past l (listening (negb x) r (Some (pay x r))))
      (conduit_as x (NEXT_CONDUIT_STATE (rd_state r)) None None) (r :: l)
| at_ahead r r2 l :
    at_round x past (handler_at x (past ++ [r]) l (listening x r2 None))
      (handler_at (negb x) past (r2 :: l) (listening (negb x) r (Some (pay x r))))
      (conduit_as x (rd_state r2) (Some (pay x r2)) None) (r :: r2 :: l).

Definition invariant (rounds : list Round) (y : System) : Prop :=
  invited (sy_store y) ∧
  ∃ x past l, rounds = past ++ l ∧
    at_round x past (sy_handler x y) (sy_handler (negb x) y) (conduit (sy_store y)) l.

(** What is left to do. *)
Definition handler_left (h : Handler) : nat :=
  2 * length (h_todo h) + match h_waiting h with Some _ => 1 | None => 0 end.
Definition left_to_do (y : System) : nat :=
  (handler_left (sy_claimer y) + handler_left (sy_greeter y))%nat.

(** ** The turns *)

(** A call on the conduit of an invitation that is there. *)
Lemma get_conduit_ok s g :
  invited s → ∃ i, get_invitation_and_conduit org token (who g) s = (s, Ok (i, conduit s)).
Proof.
  intros (i & Hi & Hg & Hd). exists i.
  unfold get_invitation_and_conduit, mbind, stM_bind, gets, lift_result, find_invitation.
  rewrite Hi. unfold who. destruct g; cbn.
  - rewrite bool_decide_eq_false_2 by (rewrite Hg; auto).
    by rewrite Hd, bool_decide_eq_false_2 by by intros [].
  - by rewrite Hd, bool_decide_eq_false_2 by by intros [].
Qed.

Lemma set_conduit_invited s c :
  ∃ s', set_conduit org token c s = (s', Ok tt) ∧ (invited s → invited s') ∧ conduit s' = c.
Proof.
  eexists. split; [reflexivity|]. unfold invited, conduit, invite_store, conduit_of. cbn.
  rewrite lookup_insert_eq. cbn. by rewrite lookup_insert_eq.
Qed.

Lemma who_is_greeter g : bool_decide (is_Some (who g)) = g.
Proof. by destruct g. Qed.

Lemma our_conduit_as x st p q : our_payload x (conduit_as x st p q) = p.
Proof. by destruct x. Qed.
Lemma peer_conduit_as x st p q : peer_payload x (conduit_as x st p q) = q.
Proof. by destruct x. Qed.
Lemma state_conduit_as x st p q : c_state (conduit_as x st p q) = st.
Proof. by destruct x. Qed.
Lemma conduit_as_negb x st p q : conduit_as (negb x) st p q = conduit_as x st q p.
Proof. by destruct x. Qed.

(** A talk in the state of the conduit. *)
Lemma talk_step s g r past todo q :
  invited s → conduit s = conduit_as g (rd_state r) None q →
  ∃ s', handler_step (handler_at g past (r :: todo) None) s
        = (s', Ok (handler_at g past todo (listening g r q))) ∧
    invited s' ∧ conduit s' = conduit_as g (rd_state r) (Some (pay g r)) q.
Proof.
  intros Hi Hc. destruct (get_conduit_ok s g Hi) as [i Eg].
  assert (talk_conduit g (rd_state r) (pay g r) (conduit s)
    = Ok (conduit_as g (rd_state r) (Some (pay g r)) q, q)) as Et.
  { rewrite Hc. unfold talk_conduit.
    rewrite our_conduit_as, state_conduit_as, peer_conduit_as.
    rewrite (bool_decide_eq_false_2 (rd_state r ≠ rd_state r)) by auto.
    rewrite bool_decide_eq_false_2 by by intros []. cbn. by destruct g. }
  destruct (set_conduit_invited s (conduit_as g (rd_state r) (Some (pay g r)) q)) as (s1 & E1 & H1 & H2).
  eexists. split.
  { unfold handler_step, handler_at. cbn [h_waiting h_todo fmap list_fmap h_org h_greeter h_token h_received].
    unfold conduit_talk, mbind, stM_bind, lift_result.
    rewrite Eg, who_is_greeter, Et, E1. reflexivity. }
  split; [exact (H1 Hi)|exact H2].
Qed.

(** What a listen does, from what it does with the conduit. *)
Lemma listen_step s g r past todo peer outcome :
  invited s →
  listen_conduit (mkConduitListenCtx org (who g) token (rd_state r) (pay g r) peer) (conduit s)
    = Ok outcome →
  match outcome with
  | ListenMove p => ∃ s', handler_step (handler_at g past todo (listening g r peer)) s
      = (s', Ok (mkHandler org (who g) token ((λ r, (rd_state r, pay g r)) <$> todo) None
                   ((pay (negb g) <$> past) ++ [p]))) ∧
      invited s' ∧ conduit s' = mkConduit (NEXT_CONDUIT_STATE (rd_state r)) None None
  | ListenReturn p => handler_step (handler_at g past todo (listening g r peer)) s
      = (s, Ok (mkHandler org (who g) token ((λ r, (rd_state r, pay g r)) <$> todo) None
                  ((pay (negb g) <$> past) ++ [p])))
  | ListenWait => handler_step (handler_at g past todo (listening g r peer)) s
      = (s, Ok (handler_at g past todo (listening g r peer)))
  end.
Proof.
  intros Hi Hl. destruct (get_conduit_ok s g Hi) as [i Eg].
  assert (handler_step (handler_at g past todo (listening g r peer)) s =
    (payload ← conduit_listen (mkConduitListenCtx org (who g) token (rd_state r) (pay g r) peer);
     mret (match payload with
           | Some p => mkHandler org (who g) token ((λ r, (rd_state r, pay g r)) <$> todo) None
                         ((pay (negb g) <$> past) ++ [p])
           | None => handler_at g past todo (listening g r peer)
           end)) s) as -> by done.
  unfold conduit_listen, mbind, stM_bind, lift_result.
  cbn [l_organization_id l_token l_greeter l_state]. rewrite Eg, Hl.
  destruct outcome as [p|p|]; [|done..].
  destruct (set_conduit_invited s (mkConduit (NEXT_CONDUIT_STATE (rd_state r)) None None))
    as (s1 & E1 & H1 & H2).
  rewrite E1. eexists. split; [reflexivity|]. split; [exact (H1 Hi)|exact H2].
Qed.

Lemma listen_is_greeter g st p q :
  l_is_greeter (mkConduitListenCtx org (who g) token st p q) = g.
Proof. unfold l_is_greeter. cbn. apply who_is_greeter. Qed.

(** The first peer listens. *)
Lemma listen_first g r q :
  listen_conduit (mkConduitListenCtx org (who g) token (rd_state r) (pay g r) None)
    (conduit_as g (rd_state r) (Some (pay g r)) q)
  = Ok (match q with Some p => ListenMove p | None => ListenWait end).
Proof.
  unfold listen_conduit.
  rewrite listen_is_greeter. cbn [l_peer_payload l_state l_payload].
  rewrite our_conduit_as, peer_conduit_as, state_conduit_as.
  rewrite (bool_decide_eq_false_2 (rd_state r ≠ rd_state r)) by auto.
  rewrite (bool_decide_eq_false_2 (Some (pay g r) ≠ Some (pay g r))) by auto. cbn.
  by destruct q.
Qed.

(** The second peer listens: before and after the first one. *)
Lemma listen_second g r peer :
  listen_conduit (mkConduitListenCtx org (who g) token (rd_state r) (pay g r) (Some peer))
    (conduit_as g (rd_state r) (Some (pay g r)) (Some peer)) = Ok ListenWait.
Proof.
  unfold listen_conduit. rewrite listen_is_greeter. cbn [l_peer_payload l_state l_payload].
  rewrite our_conduit_as, peer_conduit_as, state_conduit_as.
  rewrite (bool_decide_eq_false_2 (Some (pay g r) = None)), andb_false_r by done.
  rewrite (bool_decide_eq_false_2 (rd_state r ≠ rd_state r)) by auto.
  rewrite (bool_decide_eq_false_2 (Some (pay g r) ≠ Some (pay g r))) by auto.
  by rewrite (bool_decide_eq_false_2 (Some peer ≠ Some peer)) by auto.
Qed.
Lemma listen_second_done g r peer q :
  listen_conduit (mkConduitListenCtx org (who g) token (rd_state r) (pay g r) (Some peer))
    (conduit_as g (NEXT_CONDUIT_STATE (rd_state r)) None q) = Ok (ListenReturn peer).
Proof.
  unfold listen_conduit. rewrite listen_is_greeter. cbn [l_peer_payload l_state l_payload].
  rewrite our_conduit_as, state_conduit_as.
  rewrite (bool_decide_eq_true_2 (NEXT_CONDUIT_STATE (rd_state r) = _)) by done.
  done.
Qed.

(** A turn of a peer in the invariant either does nothing or goes one step on. *)
Definition turn_goes (rounds : list Round) (y : System) (g : bool) : Prop :=
  ∃ y', turn g y = Ok y' ∧ invariant rounds y' ∧ left_to_do y = S (left_to_do y').
Definition turn_ok (rounds : list Round) (y : System) (g : bool) : Prop :=
  turn_goes rounds y g ∨ turn g y = Ok y.

Lemma handler_left_at g past todo w :
  handler_left (handler_at g past todo w)
  = (2 * length todo + match w with Some _ => 1 | None => 0 end)%nat.
Proof. unfold handler_left, handler_at. cbn. by rewrite length_fmap. Qed.

Lemma left_to_do_as x y :
  left_to_do y = (handler_left (sy_handler x y) + handler_left (sy_handler (negb x) y))%nat.
Proof. unfold left_to_do. destruct x; cbn; lia. Qed.

Lemma with_handler_same x s h y : sy_handler x (with_handler x s h y) = h.
Proof. by destruct x. Qed.
Lemma with_handler_other x s h y : sy_handler (negb x) (with_handler x s h y) = sy_handler (negb x) y.
Proof. by destruct x. Qed.
Lemma with_handler_store x s h y : sy_store (with_handler x s h y) = s.
Proof. by destruct x. Qed.
Lemma with_handler_id x y : with_handler x (sy_store y) (sy_handler x y) y = y.
Proof. by destruct x, y. Qed.
Lemma with_handler_neg x s h y : sy_handler x (with_handler (negb x) s h y) = sy_handler x y.
Proof. by destruct x. Qed.

(** The invariant after a turn of [x] that does something. *)
Lemma turn_step rounds y x s' h' past' l' :
  handler_step (sy_handler x y) (sy_store y) = (s', Ok h') → invited s' →
  rounds = past' ++ l' →
  (at_round x past' h' (sy_handler (negb x) y) (conduit s') l' ∨
   at_round (negb x) past' (sy_handler (negb x) y) h' (conduit s') l') →
  handler_left (sy_handler x y) = S (handler_left h') → turn_goes rounds y x.
Proof.
  intros E Hi Hr Hat Hleft. exists (with_handler x s' h' y). split_and!.
  - unfold turn. by rewrite E.
  - split; [by rewrite with_handler_store|]. destruct Hat as [Hat|Hat].
    + exists x, past', l'. split; [done|].
      by rewrite with_handler_same, with_handler_other, with_handler_store.
    + exists (negb x), past', l'. split; [done|].
      by rewrite negb_involutive, with_handler_same, with_handler_other, with_handler_store.
  - rewrite !(left_to_do_as x), with_handler_same, with_handler_other. lia.
Qed.

Lemma turn_wait y x :
  handler_step (sy_handler x y) (sy_store y) = (sy_store y, Ok (sy_handler x y)) → turn x y = Ok y.
Proof. intros E. unfold turn. by rewrite E, with_handler_id. Qed.

Lemma chained_app past l : chained (past ++ l) → chained l.
Proof.
  induction past as [|r past IH]; cbn; [done|]. intros H. apply IH.
  destruct (past ++ l); [done|]. by destruct H.
Qed.

Lemma finished_as x y :
  finished y ↔ handler_finished (sy_handler x y) = true ∧
    handler_finished (sy_handler (negb x) y) = true.
Proof. unfold finished. destruct x; cbn; naive_solver. Qed.

(** What each turn of the invariant does. *)
Lemma invariant_turns rounds y :
  chained rounds → invariant rounds y →
  (∀ g, turn_ok rounds y g) ∧
  (finished y ∧ (∃ g, h_received (sy_handler g y) = pay (negb g) <$> rounds ∧
                    h_received (sy_handler (negb g) y) = pay g <$> rounds)
   ∨ ∃ g, turn_goes rounds y g).
Proof.
  intros Hch (Hi & x & past & l & Hr & Hat).
  rewrite Hr in Hch. apply chained_app in Hch.
  assert (∀ P : bool → Prop, P x → P (negb x) → ∀ g, P g) as Hboth.
  { intros P H1 H2 g. destruct x, g; done. }
  inversion Hat as [c l' Hc Hx Hy Heq|r l' Hx Hy Heq Hl|r l' Hx Hy Heq Hl|r l' Hx Hy Heq Hl
    |r r2 l' Hx Hy Heq Hl]; subst.
  - (* both at the start of a round *)
    destruct l as [|r l].
    { split.
      - apply Hboth; right; apply turn_wait; [rewrite <-Hx|rewrite <-Hy]; reflexivity.
      - left. split; [apply (finished_as x); by rewrite <-Hx, <-Hy|].
        exists x. rewrite <-Hx, <-Hy, app_nil_r. split; [done|]. cbn. by rewrite negb_involutive. }
    assert (turn_goes (past ++ r :: l) y x) as Hgo.
    { destruct (talk_step (sy_store y) x r past l None Hi Hc) as (s' & E & Hi' & Hc').
      rewrite Hx in E. eapply turn_step; [exact E|done|done| |].
      - left. rewrite Hc', <-Hy. apply at_one.
      - rewrite <-Hx, !handler_left_at. cbn. lia. }
    assert (turn_goes (past ++ r :: l) y (negb x)) as Hgo2.
    { destruct (talk_step (sy_store y) (negb x) r past l None Hi) as (s' & E & Hi' & Hc').
      { by rewrite conduit_as_negb. }
      rewrite Hy in E. eapply turn_step; [exact E|done|done| |].
      - left. rewrite Hc', negb_involutive, <-Hx. pose proof (at_one (negb x) past r l) as H.
        by rewrite negb_involutive in H.
      - rewrite <-Hy, !handler_left_at. cbn. lia. }
    split; [apply Hboth; by left|right; eauto].
  - (* the peer ahead has talked *)
    assert (turn_goes (past ++ r :: l') y (negb x)) as Hgo.
    { destruct (talk_step (sy_store y) (negb x) r past l' (Some (pay x r)) Hi) as (s' & E & Hi' & Hc').
      { by rewrite conduit_as_negb. }
      rewrite Hy in E. eapply turn_step; [exact E|done|done| |].
      - right. rewrite negb_involutive, Hc', conduit_as_negb, <-Hx. apply at_both.
      - rewrite <-Hy, !handler_left_at. cbn. lia. }
    split; [|right; eauto]. apply Hboth; [right|by left].
    apply turn_wait. rewrite <-Hx.
    apply (listen_step (sy_store y) x r past l' None ListenWait Hi).
    rewrite <-Heq. apply listen_first.
  - (* both have talked *)
    assert (turn_goes (past ++ r :: l') y x) as Hgo.
    { destruct (listen_step (sy_store y) x r past l' None (ListenMove (pay (negb x) r)) Hi)
        as (s' & E & Hi' & Hc').
      { rewrite <-Heq. apply listen_first. }
      rewrite Hx in E. eapply turn_step; [exact E|done|done| |].
      - left. rewrite Hc', <-Hy. pose proof (at_moved x past r l') as H.
        unfold handler_at at 1 in H. rewrite fmap_app in H. by destruct x.
      - rewrite <-Hx, handler_left_at. unfold handler_left. cbn. rewrite length_fmap. lia. }
    split; [|right; eauto]. apply Hboth; [by left|right].
    apply turn_wait. rewrite <-Hy.
    apply (listen_step (sy_store y) (negb x) r past l' (Some (pay x r)) ListenWait Hi).
    rewrite <-Heq, <-conduit_as_negb. apply listen_second.
  - (* the first peer has received *)
    assert (turn_goes (past ++ r :: l') y (negb x)) as Hgo.
    { pose proof (listen_step (sy_store y) (negb x) r past l' (Some (pay x r))
        (ListenReturn (pay x r)) Hi) as E.
      rewrite <-Heq, <-conduit_as_negb in E. specialize (E (listen_second_done _ _ _ _)).
      cbn beta iota in E. rewrite Hy in E.
      eapply (turn_step _ _ _ _ _ (past ++ [r]) l'); [exact E|done|by rewrite <-app_assoc| |].
      - right. rewrite negb_involutive, <-Heq, <-Hx.
        pose proof (at_start x (past ++ [r])
          (conduit_as x (NEXT_CONDUIT_STATE (rd_state r)) None None) l') as H.
        unfold handler_at at 2 in H. rewrite negb_involutive, fmap_app in H.
        apply H. destruct l' as [|r2 l']; [done|]. cbn in Hch. by rewrite (proj1 Hch).
      - rewrite <-Hy, handler_left_at. unfold handler_left. cbn. rewrite length_fmap. lia. }
    split; [|right; eauto]. apply Hboth; [|by left].
    destruct l' as [|r2 l'].
    { right. apply turn_wait. rewrite <-Hx. reflexivity. }
    left. destruct (talk_step (sy_store y) x r2 (past ++ [r]) l' None Hi) as (s' & E & Hi' & Hc').
    { rewrite <-Heq. cbn in Hch. by rewrite (proj1 Hch). }
    rewrite Hx in E. eapply turn_step; [exact E|done|done| |].
    + left. rewrite Hc', <-Hy. apply at_ahead.
    + rewrite <-Hx, !handler_left_at. cbn. lia.
  - (* the first peer has talked in the next round *)
    assert (turn_goes (past ++ r :: r2 :: l') y (negb x)) as Hgo.
    { pose proof (listen_step (sy_store y) (negb x) r past (r2 :: l') (Some (pay x r))
        (ListenReturn (pay x r)) Hi) as E.
      cbn in Hch. rewrite <-Heq, <-conduit_as_negb, (proj1 Hch) in E.
      specialize (E (listen_second_done _ _ _ _)). cbn beta iota in E. rewrite Hy in E.
      eapply (turn_step _ _ _ _ _ (past ++ [r]) (r2 :: l'));
        [exact E|done|by rewrite <-app_assoc| |].
      - right. rewrite negb_involutive, <-Heq, <-Hx.
        pose proof (at_one x (past ++ [r]) r2 l') as H.
        unfold handler_at at 2 in H. by rewrite negb_involutive, fmap_app in H.
      - rewrite <-Hy, handler_left_at. unfold handler_left. cbn. rewrite length_fmap. lia. }
    split; [|right; eauto]. apply Hboth; [right|by left].
    apply turn_wait. rewrite <-Hx.
    apply (listen_step (sy_store y) x r2 (past ++ [r]) l' None ListenWait Hi).
    rewrite <-Heq. apply listen_first.
Qed.

(** ** The runs *)

Lemma run_app l1 l2 y : run (l1 ++ l2) y = y' ← run l1 y; run l2 y'.
Proof.
  revert y. induction l1 as [|g l1 IH]; intros y; cbn; [done|].
  destruct (turn g y); cbn; [apply IH|done].
Qed.

Lemma run_invariant rounds schedule y :
  chained rounds → invariant rounds y →
  ∃ y', run schedule y = Ok y' ∧ invariant rounds y' ∧ (left_to_do y' <= left_to_do y)%nat.
Proof.
  intros Hch. revert y. induction schedule as [|g schedule IH]; intros y Hinv; [by exists y|].
  destruct (proj1 (invariant_turns rounds y Hch Hinv) g) as [(y1 & E & Hinv1 & Hl)|E].
  - destruct (IH y1 Hinv1) as (y2 & E2 & ? & ?). exists y2. cbn [run]. rewrite E. cbn [mbind result_bind].
    split_and!; [done..|lia].
  - destruct (IH y Hinv) as (y2 & E2 & ? & ?). exists y2. cbn [run]. rewrite E. cbn [mbind result_bind].
    split_and!; [done..|lia].
Qed.

(** Turns of both peers go on when there is something to do. *)
Lemma run_progress rounds chunk y g :
  chained rounds → invariant rounds y → turn_goes rounds y g → g ∈ chunk →
  ∃ y', run chunk y = Ok y' ∧ invariant rounds y' ∧ (left_to_do y' < left_to_do y)%nat.
Proof.
  intros Hch Hinv Hgo. induction chunk as [|g' chunk IH]; [set_solver|]. intros Hin.
  destruct (proj1 (invariant_turns rounds y Hch Hinv) g') as [(y1 & E & Hinv1 & Hl)|E].
  - destruct (run_invariant rounds chunk y1 Hch Hinv1) as (y2 & E2 & ? & ?).
    exists y2. cbn [run]. rewrite E. cbn [mbind result_bind]. split_and!; [done..|lia].
  - apply elem_of_cons in Hin as [->|Hin].
    + destruct Hgo as (y1 & E1 & _ & Hl). rewrite E1 in E. injection E as ->. exfalso. lia.
    + destruct (IH Hin) as (y2 & E2 & ? & ?). exists y2. cbn [run]. by rewrite E.
Qed.

Lemma run_finishes rounds chunks y :
  chained rounds → invariant rounds y → Forall (λ c, ∀ g : bool, g ∈ c) chunks →
  (left_to_do y <= length chunks)%nat →
  ∃ y', run (concat chunks) y = Ok y' ∧ finished y' ∧
    ∃ g, h_received (sy_handler g y') = pay (negb g) <$> rounds ∧
      h_received (sy_handler (negb g) y') = pay g <$> rounds.
Proof.
  intros Hch. revert y. induction chunks as [|chunk chunks IH]; intros y Hinv Hall Hlen;
    destruct (proj2 (invariant_turns rounds y Hch Hinv)) as [(Hfin & Hrec)|(g & Hgo)].
  - by exists y.
  - destruct Hgo as (y1 & _ & _ & Hl). cbn [length] in Hlen. exfalso. lia.
  - assert (left_to_do y = 0%nat) as Hz.
    { destruct Hfin as [H1 H2]. unfold left_to_do, handler_left.
      unfold handler_finished in *. repeat case_match; done. }
    apply Forall_cons in Hall as [_ Hall].
    destruct (run_invariant rounds chunk y Hch Hinv) as (y1 & E1 & Hinv1 & Hl1).
    destruct (IH y1 Hinv1 Hall) as (y2 & E2 & H2); [lia|].
    exists y2. cbn [concat]. rewrite run_app, E1. done.
  - apply Forall_cons in Hall as [Hc Hall].
    destruct (run_progress rounds chunk y g Hch Hinv Hgo (Hc g)) as (y1 & E1 & Hinv1 & Hl1).
    destruct (IH y1 Hinv1 Hall) as (y2 & E2 & H2); [cbn [length] in Hlen; lia|].
    exists y2. cbn [concat]. rewrite run_app, E1. done.
Qed.

(** What a peer has received, at any time. *)
Lemma invariant_received rounds y g :
  invariant rounds y → h_received (sy_handler g y) `prefix_of` (pay (negb g) <$> rounds).
Proof.
  intros (_ & x & past & l & -> & Hat).
  assert (∀ x, h_received (sy_handler x y) = pay (negb x) <$> past ∨
    (∃ r l', l = r :: l' ∧ h_received (sy_handler x y) = pay (negb x) <$> past ++ [r]) →
    h_received (sy_handler x y) `prefix_of` (pay (negb x) <$> past ++ l)) as Hp.
  { intros z [->|(r & l' & -> & ->)].
    - rewrite fmap_app. by eexists.
    - rewrite (cons_middle r past l'), !app_assoc, !fmap_app. by eexists. }
  assert (∀ P : bool → Prop, P x → P (negb x) → P g) as Hboth by by destruct x, g.
  apply Hboth; apply Hp; inversion Hat as [c l' Hc Hx Hy Heq|r l' Hx Hy Heq Hl|r l' Hx Hy Heq Hl
    |r l' Hx Hy Heq Hl|r r2 l' Hx Hy Heq Hl]; subst; cbn; eauto 10.
Qed.

(** C31: the exchange of an invitation. From a conduit where nothing was sent, and
    whatever the order in which the requests of the greeter and the claimer run, no
    request fails, and what each peer has received is what the other one sent, in
    order. When both keep running, four turns of each per round are enough for all
    the requests to end, and each peer has all the payloads of the other. *)
Theorem invite_exchange_correct s rounds
    (Hi : invited s) (Hch : chained rounds)
    (Hc : match rounds with r :: _ => conduit s = mkConduit (rd_state r) None None | [] => True end) :
  let y := mkSystem s (peer_handler false rounds) (peer_handler true rounds) in
  (∀ schedule, ∃ y', run schedule y = Ok y' ∧
     h_received (sy_claimer y') `prefix_of` (rd_greeter <$> rounds) ∧
     h_received (sy_greeter y') `prefix_of` (rd_claimer <$> rounds)) ∧
  (∀ chunks, Forall (λ c, ∀ g : bool, g ∈ c) chunks → (4 * length rounds <= length chunks)%nat →
     ∃ y', run (concat chunks) y = Ok y' ∧ finished y' ∧
       h_received (sy_claimer y') = rd_greeter <$> rounds ∧
       h_received (sy_greeter y') = rd_claimer <$> rounds).
Proof.
  intros y. assert (invariant rounds y) as Hinv.
  { split; [done|]. exists false, [], rounds. split; [done|]. apply at_start.
    by destruct rounds. }
  split.
  - intros schedule. destruct (run_invariant rounds schedule y Hch Hinv) as (y' & E & Hinv' & _).
    exists y'. split_and!; [done| |].
    + apply (invariant_received rounds y' false Hinv').
    + apply (invariant_received rounds y' true Hinv').
  - intros chunks Hall Hlen.
    destruct (run_finishes rounds chunks y Hch Hinv Hall) as (y' & E & Hfin & g & H1 & H2).
    { unfold left_to_do, handler_left, y. cbn. rewrite !length_fmap. lia. }
    exists y'. split_and!; [done..| |]; by destruct g.
Qed.
End exchange.

(** ** The protocol *)

(** The rounds of the whole protocol: the keys, the hashed nonce, the nonces, the
    two acknowledgements and the last payloads. *)
Definition protocol_rounds (claimer_key hashed_nonce claimer_nonce claimer_payload
    greeter_key greeter_nonce greeter_payload : bytes) : list Round :=
  [mkRound STATE_1_WAIT_PEERS claimer_key greeter_key;
   mkRound STATE_2_1_CLAIMER_HASHED_NONCE hashed_nonce [];
   mkRound STATE_2_2_GREETER_NONCE [] greeter_nonce;
   mkRound STATE_2_3_CLAIMER_NONCE claimer_nonce [];
   mkRound STATE_3_1_CLAIMER_TRUST [] [];
   mkRound STATE_3_2_GREETER_TRUST [] [];
   mkRound STATE_4_COMMUNICATE claimer_payload greeter_payload].

(** The requests of each peer, one after the other, run these rounds. *)
Lemma protocol_requests org greeter token ck hn cn cp gk gn gp :
  h_todo (peer_handler org greeter token false (protocol_rounds ck hn cn cp gk gn gp))
  = h_todo (api_invite_1_claimer_wait_peer org token ck) ++
    h_todo (api_invite_2a_claimer_send_hashed_nonce org token hn) ++
    h_todo (api_invite_2b_claimer_send_nonce org token cn) ++
    h_todo (api_invite_3a_claimer_signify_trust org token) ++
    h_todo (api_invite_3b_claimer_wait_peer_trust org token) ++
    h_todo (api_invite_4_claimer_communicate org token cp) ∧
  h_todo (peer_handler org greeter token true (protocol_rounds ck hn cn cp gk gn gp))
  = h_todo (api_invite_1_greeter_wait_peer org greeter token gk) ++
    h_todo (api_invite_2a_greeter_get_hashed_nonce org greeter token) ++
    h_todo (api_invite_2b_greeter_send_nonce org greeter token gn) ++
    h_todo (api_invite_3a_greeter_wait_peer_trust org greeter token) ++
    h_todo (api_invite_3b_greeter_signify_trust org greeter token) ++
    h_todo (api_invite_4_greeter_communicate org greeter token gp).
Proof. done. Qed.

Definition ex_invites : Invites :=
  mkInvites ∅
    {[ "org"%string := mkInviteStore
         [(5%N, InviteDevice (mkInvitationBase "alice" None 5 0 IDLE))] ∅ ∅ ]} ∅ [].
Definition ex_rounds : list Round :=
  protocol_rounds [Byte.x01] [Byte.x02] [Byte.x03] [Byte.x04] [Byte.x05] [Byte.x06] [Byte.x07].

Lemma invite_exchange_witness :
  ∃ y, run (concat (replicate 28 [true; false]))
         (mkSystem ex_invites (peer_handler "org" "alice" 5 false ex_rounds)
            (peer_handler "org" "alice" 5 true ex_rounds)) = Ok y ∧
    last (h_received (sy_claimer y)) = Some [Byte.x07].
Proof.
  destruct (invite_exchange_correct "org" "alice" 5 ex_invites ex_rounds) as [_ Hfin].
  - exists (InviteDevice (mkInvitationBase "alice" None 5 0 IDLE)).
    split; [reflexivity|]. split; reflexivity.
  - cbn. tauto.
  - reflexivity.
  - destruct (Hfin (replicate 28 [true; false])) as (y & E & _ & Hr & _).
    + apply Forall_replicate. intros [|]; [left|right; left].
    + reflexivity.
    + exists y. split; [exact E|]. rewrite Hr. reflexivity.
Defined.
