(* ===== verification/Trustchain.v ===== *)
(** The client's check of the certificates that the server gives:
    [guardata/client/trustchain.py]. *)

From S2P Require Import Prelude Types Backend Certif BackendUser.

(** ** State *)

(** [CertifState] *)
Record CertifState (A : Type) := mkCertifState {
  cs_certif : bytes;
  cs_content : A;
  cs_verified : bool }.
Arguments mkCertifState {A} _ _ _.
Arguments cs_certif {A} _.
Arguments cs_content {A} _.
Arguments cs_verified {A} _.

(** [TrustchainContext]; the validity is in seconds. *)
Record TrustchainContext := mkTrustchainContext {
  tc_root_verify_key : VerifyKey;
  tc_cache_validity : Z;
  tc_users_cache : gmap UserID (DateTime * UserCertificateContent);
  tc_devices_cache : gmap DeviceID (DateTime * DeviceCertificateContent);
  tc_revoked_users_cache : gmap UserID (DateTime * RevokedUserCertificateContent) }.

(** [RecursionError] is Python's, when the calls are too deep. *)
Inductive TrustchainExn := TrustchainError | RecursionError.
#[export] Instance TrustchainExn_eq_dec : EqDecision TrustchainExn.
Proof. solve_decision. Defined.

(** [except DataError as exc: raise TrustchainError] *)
Definition or_trustchain_error {A} (r : result DataError A) : result TrustchainExn A :=
  match r with Ok a => Ok a | Err _ => Err TrustchainError end.

(** What [get_user], [get_device] and [get_revoked_user] do with an entry of
    their cache. *)
Definition still_valid {A} (validity : Z) (now : DateTime) (entry : option (DateTime * A))
    : option A :=
  match entry with
  | Some (cached_on, a) => if now - cached_on <? validity * 1000000 then Some a else None
  | None => None
  end.
Definition tc_get_user (ctx : TrustchainContext) (user_id : UserID) (now : DateTime)
    : option UserCertificateContent :=
  still_valid (tc_cache_validity ctx) now (tc_users_cache ctx !! user_id).
Definition tc_get_revoked_user (ctx : TrustchainContext) (user_id : UserID) (now : DateTime)
    : option RevokedUserCertificateContent :=
  still_valid (tc_cache_validity ctx) now (tc_revoked_users_cache ctx !! user_id).
Definition tc_get_device (ctx : TrustchainContext) (device_id : DeviceID) (now : DateTime)
    : option DeviceCertificateContent :=
  still_valid (tc_cache_validity ctx) now (tc_devices_cache ctx !! device_id).

(** [invalidate_user_cache] *)
Definition invalidate_user_cache (ctx : TrustchainContext) (user_id : UserID) : TrustchainContext :=
  mkTrustchainContext (tc_root_verify_key ctx) (tc_cache_validity ctx)
    (delete user_id (tc_users_cache ctx)) (tc_devices_cache ctx) (tc_revoked_users_cache ctx).

(** ** Loading without verifying *)

(** [VerifyKey.unsecure_unwrap]: the signature has 64 bytes. *)
Definition crypto_sign_BYTES : nat := 64.
Definition unsecure_unwrap (signed : bytes) : bytes := drop crypto_sign_BYTES signed.

Section trustchain.
Context `{CertifApi}.

(** [BaseSignedData.unsecure_load] for each class. *)
Definition unsecure_load_user (signed : bytes) : result DataError UserCertificateContent :=
  d ← loads loads_user (unsecure_unwrap signed); make_user_certificate d.
Definition unsecure_load_revoked_user (signed : bytes)
    : result DataError RevokedUserCertificateContent :=
  loads loads_revoked_user (unsecure_unwrap signed).
Definition unsecure_load_device (signed : bytes) : result DataError DeviceCertificateContent :=
  loads loads_device (unsecure_unwrap signed).

(** The three loops of "Deserialize the certificates and filter the ones we
    already have in cache". *)
Fixpoint load_states {K A : Type} `{EqDecision K} (unsecure_load : bytes → result DataError A)
    (key : A → K) (cached : K → option A) (certifs : list bytes) (states : odict K (CertifState A))
    : result TrustchainExn (odict K (CertifState A)) :=
  match certifs with
  | [] => Ok states
  | certif :: certifs =>
      unverified ← or_trustchain_error (unsecure_load certif);
      let state :=
        match cached (key unverified) with
        | Some verified => mkCertifState certif verified true
        | None => mkCertifState certif unverified false
        end in
      load_states unsecure_load key cached certifs (od_set states (key (cs_content state)) state)
  end.

(** ** Verifying *)

Abbreviation users_states := (odict UserID (CertifState UserCertificateContent)) (only parsing).
Abbreviation revoked_states :=
  (odict UserID (CertifState RevokedUserCertificateContent)) (only parsing).
Abbreviation devices_states := (odict DeviceID (CertifState DeviceCertificateContent))
  (only parsing).

Section verify.
Context (root_verify_key : VerifyKey) (users : users_states) (revoked : revoked_states)
  (devices : devices_states).

(** The end of [_verify_created_by_device]: the author is an administrator or
    signs for itself, and was not revoked. *)
Definition check_author (author_id : DeviceID) (author_device : DeviceCertificateContent)
    (verified_user_id : UserID) (timestamp : DateTime) : result TrustchainExn unit :=
  _ ← (if bool_decide (user_id (dc_device_id author_device) ≠ verified_user_id) then
         match od_get users (user_id author_id) with
         | None => Err TrustchainError
         | Some author_user =>
             if bool_decide (uc_profile (cs_content author_user) ≠ ADMIN) then Err TrustchainError
             else Ok tt
         end
       else Ok tt);
  match od_get revoked (user_id author_id) with
  | Some author_revoked =>
      if rc_timestamp (cs_content author_revoked) <? timestamp then Err TrustchainError else Ok tt
  | None => Ok tt
  end.

(** [_recursive_verify_device], with the call of [_verify_created_by_device] for
    a device; [fuel] is the depth that Python allows. *)
Fixpoint recursive_verify_device (fuel : nat) (device_id : DeviceID) (signed_children : list DeviceID)
    : result TrustchainExn DeviceCertificateContent :=
  match fuel with
  | O => Err RecursionError
  | S fuel =>
      if bool_decide (device_id ∈ signed_children) then Err TrustchainError
      else
        match od_get devices device_id with
        | None => Err TrustchainError
        | Some state =>
            match dc_author (cs_content state) with
            | None =>
                or_trustchain_error (verify_device_certificate (cs_certif state) root_verify_key None)
            | Some author_id =>
                author_device ←
                  recursive_verify_device fuel author_id (signed_children ++ [device_id]);
                verified ← or_trustchain_error (verify_device_certificate (cs_certif state)
                  (dc_verify_key author_device) (Some (dc_device_id author_device)));
                _ ← check_author author_id author_device (user_id (dc_device_id verified))
                      (dc_timestamp verified);
                Ok verified
            end
        end
  end.

(** [_verify_user] and [_verify_revoked_user]: their chain begins with a text
    that is no device. A revocation always has an author. *)
Definition verify_user (fuel : nat) (unverified : UserCertificateContent) (certif : bytes)
    : result TrustchainExn UserCertificateContent :=
  match uc_author unverified with
  | None => or_trustchain_error (verify_user_certificate certif root_verify_key None)
  | Some author_id =>
      if bool_decide (user_id author_id = uc_user_id unverified) then Err TrustchainError
      else
        author_device ← recursive_verify_device fuel author_id [];
        verified ← or_trustchain_error (verify_user_certificate certif
          (dc_verify_key author_device) (Some (dc_device_id author_device)));
        _ ← check_author author_id author_device (uc_user_id verified) (uc_timestamp verified);
        Ok verified
  end.
Definition verify_revoked_user (fuel : nat) (unverified : RevokedUserCertificateContent)
    (certif : bytes) : result TrustchainExn RevokedUserCertificateContent :=
  let author_id := rc_author unverified in
  if bool_decide (user_id author_id = rc_user_id unverified) then Err TrustchainError
  else
    author_device ← recursive_verify_device fuel author_id [];
    verified ← or_trustchain_error (verify_revoked_user_certificate certif
      (dc_verify_key author_device) (dc_device_id author_device));
    _ ← check_author author_id author_device (rc_user_id verified) (rc_timestamp verified);
    Ok verified.
End verify.

(** The loops of "Verified what need to be": each one replaces the contents that
    are not verified in the dict that it goes through, which the next turns read. *)
Fixpoint verify_states {K A : Type} `{EqDecision K}
    (verify : odict K (CertifState A) → CertifState A → result TrustchainExn A)
    (keys : list K) (states : odict K (CertifState A))
    : result TrustchainExn (odict K (CertifState A)) :=
  match keys with
  | [] => Ok states
  | k :: keys =>
      match od_get states k with
      | None => Err TrustchainError
      | Some state =>
          if cs_verified state then verify_states verify keys states
          else
            content ← verify states state;
            verify_states verify keys
              (od_set states k (mkCertifState (cs_certif state) content false))
      end
  end.

(** "Finally populate the cache" *)
Definition populate {K A : Type} `{Countable K} (key : A → K) (now : DateTime)
    (states : odict K (CertifState A)) (cache : gmap K (DateTime * A)) : gmap K (DateTime * A) :=
  foldl (λ cache state,
    if cs_verified state then cache
    else <[key (cs_content state) := (now, cs_content state)]> cache) cache (od_values states).

Record LoadedTrustchain := mkLoadedTrustchain {
  lt_context : TrustchainContext;
  lt_users : list UserCertificateContent;
  lt_revoked_users : list RevokedUserCertificateContent;
  lt_devices : list DeviceCertificateContent }.

(** [load_trustchain] *)
Definition load_trustchain (fuel : nat) (ctx : TrustchainContext)
    (users revoked_users devices : list bytes) (now : DateTime)
    : result TrustchainExn LoadedTrustchain :=
  let root := tc_root_verify_key ctx in
  devices ← load_states unsecure_load_device dc_device_id (λ d, tc_get_device ctx d now) devices [];
  users ← load_states unsecure_load_user uc_user_id (λ u, tc_get_user ctx u now) users [];
  revoked ← load_states unsecure_load_revoked_user rc_user_id
              (λ u, tc_get_revoked_user ctx u now) revoked_users [];
  devices ← verify_states (λ devices state,
      recursive_verify_device root users revoked devices fuel (dc_device_id (cs_content state)) [])
    (od_keys devices) devices;
  users ← verify_states (λ users state,
      verify_user root users revoked devices fuel (cs_content state) (cs_certif state))
    (od_keys users) users;
  revoked ← verify_states (λ revoked state,
      verify_revoked_user root users revoked devices fuel (cs_content state) (cs_certif state))
    (od_keys revoked) revoked;
  Ok {| lt_context :=
          mkTrustchainContext root (tc_cache_validity ctx)
            (populate uc_user_id now users (tc_users_cache ctx))
            (populate dc_device_id now devices (tc_devices_cache ctx))
            (populate rc_user_id now revoked (tc_revoked_users_cache ctx));
        lt_users := cs_content <$> od_values users;
        lt_revoked_users := cs_content <$> od_values revoked;
        lt_devices := cs_content <$> od_values devices |}.

(** What [load_user_and_devices] raises: an exception of [load_trustchain] or
    [IndexError]. *)
Inductive LoadUserExn := LoadError (e : TrustchainExn) | LoadIndexError.
Definition load_result {A} (r : result TrustchainExn A) : result LoadUserExn A :=
  match r with Ok a => Ok a | Err e => Err (LoadError e) end.

(** [load_user_and_devices]; [None] as the certificate of the revocation is its
    absence, and an empty one counts as absent. The caches are populated before
    the contents are compared to the user that is expected. *)
Definition load_user_and_devices (fuel : nat)
    (trustchain_users trustchain_revoked_users trustchain_devices : list bytes)
    (user_certif : bytes) (revoked_user_certif : option bytes) (devices_certifs : list bytes)
    (expected_user_id : option UserID) (now : DateTime)
    : stM TrustchainContext LoadUserExn (UserCertificateContent *
        option RevokedUserCertificateContent * list DeviceCertificateContent) :=
  let revoked_user_certif :=
    match revoked_user_certif with Some [] => None | certif => certif end in
  ctx ← gets id;
  loaded ← lift_result (load_result (load_trustchain fuel ctx (user_certif :: trustchain_users)
    (match revoked_user_certif with
     | Some certif => certif :: trustchain_revoked_users
     | None => trustchain_revoked_users
     end) (devices_certifs ++ trustchain_devices) now));
  _ ← modify (λ _, lt_context loaded);
  let unexpected (u : UserID) :=
    match expected_user_id with
    | Some expected => truthy_str (Some expected) && bool_decide (u ≠ expected)
    | None => false
    end in
  verified_user ← of_option LoadIndexError (head (lt_users loaded));
  _ ← raise_if (unexpected (uc_user_id verified_user)) (LoadError TrustchainError);
  verified_revoked_user ←
    (match revoked_user_certif with
     | None => mret None
     | Some _ =>
         r ← of_option LoadIndexError (head (lt_revoked_users loaded));
         _ ← raise_if (unexpected (rc_user_id r)) (LoadError TrustchainError);
         mret (Some r)
     end);
  let verified_devices := take (length devices_certifs) (lt_devices loaded) in
  _ ← raise_if (existsb (λ d, unexpected (user_id (dc_device_id d))) verified_devices)
        (LoadError TrustchainError);
  mret (verified_user, verified_revoked_user, verified_devices).
End trustchain.

(** * Lemmas

    What the check of a trustchain guarantees, piece by piece: the loops that
    load and verify the certificates keep their contents, and a device that
    verifies is at the end of a chain of signatures that starts at the root key. *)

Lemma or_trustchain_error_Ok {A} (r : result DataError A) a :
  or_trustchain_error r = Ok a → r = Ok a.
Proof. by destruct r; cbn; [intros [= ->]|]. Qed.
Lemma or_trustchain_error_recursion {A} (r : result DataError A) :
  or_trustchain_error r ≠ Err RecursionError.
Proof. by destruct r. Qed.
#[export] Hint Resolve or_trustchain_error_recursion : core.

(** ** The loops over the certificates *)

Section verify_states.
Context {K A : Type} `{EqDecision K}.
Implicit Types states : odict K (CertifState A).

(** When a verified content is the one that was there, the loop changes nothing
    and all that had to be verified was. *)
Lemma verify_states_same verify keys states states' :
  (∀ k st a, od_get states k = Some st → cs_verified st = false →
     verify states st = Ok a → a = cs_content st) →
  verify_states verify keys states = Ok states' →
  states' = states ∧
  ∀ k st, k ∈ keys → od_get states k = Some st → cs_verified st = false →
    verify states st = Ok (cs_content st).
Proof.
  intros Hv. induction keys as [|k keys IH]; cbn.
  { intros [= <-]. split; [done|]. set_solver. }
  destruct (od_get states k) as [st|] eqn:Hst; [|done].
  destruct (cs_verified st) eqn:Hver.
  { intros [-> Hall]%IH. split; [done|]. intros k' st' [->|Hk']%elem_of_cons; [|by apply Hall].
    intros. congruence. }
  intros (a & Ha & H)%result_bind_Ok. pose proof (Hv _ _ _ Hst Hver Ha) as ->.
  rewrite od_set_same in H by (rewrite Hst; destruct st; cbn in *; by subst).
  apply IH in H as [-> Hall]. split; [done|].
  intros k' st' [->|Hk']%elem_of_cons; [|by apply Hall]. intros. congruence.
Qed.

Lemma verify_states_keys verify keys states states' :
  verify_states verify keys states = Ok states' → od_keys states' = od_keys states.
Proof.
  revert states. induction keys as [|k keys IH]; cbn; intros states; [by intros [= ->]|].
  destruct (od_get states k) as [st|] eqn:Hst; [|done].
  destruct (cs_verified st); [by apply IH|].
  intros (a & _ & ->%IH)%result_bind_Ok. rewrite od_keys_set, decide_True; [done|].
  apply od_get_is_Some. by rewrite Hst.
Qed.

Lemma verify_states_recursion verify keys states :
  (∀ states' st, od_keys states' = od_keys states → verify states' st ≠ Err RecursionError) →
  verify_states verify keys states ≠ Err RecursionError.
Proof.
  revert states. induction keys as [|k keys IH]; cbn; intros states Hv; [done|].
  destruct (od_get states k) as [st|] eqn:Hst; [|done].
  destruct (cs_verified st); [by apply IH|].
  apply result_bind_not_Err; [by apply Hv|]. intros a _. apply IH.
  intros states' st' Hk. apply Hv. rewrite Hk, od_keys_set, decide_True; [done|].
  apply od_get_is_Some. by rewrite Hst.
Qed.
End verify_states.

Section states.
Context {K A : Type} `{EqDecision K}.
Context (unsecure_load : bytes → result DataError A) (key : A → K) (cached : K → option A).
Implicit Types states : odict K (CertifState A).

(** A loaded state has its key; its content is the certificate's one or the
    content that the cache has for this key. *)
Definition loaded_state (k : K) (st : CertifState A) : Prop :=
  key (cs_content st) = k ∧
  (∃ a, unsecure_load (cs_certif st) = Ok a ∧ key a = k) ∧
  (if cs_verified st then cached k = Some (cs_content st)
   else unsecure_load (cs_certif st) = Ok (cs_content st)).
Definition loaded_states states : Prop :=
  NoDup (od_keys states) ∧ ∀ k st, od_get states k = Some st → loaded_state k st.

Context (cached_key : ∀ k a, cached k = Some a → key a = k).

Lemma load_states_ok certifs states states' :
  loaded_states states → load_states unsecure_load key cached certifs states = Ok states' →
  loaded_states states'.
Proof.
  revert states. induction certifs as [|c certifs IH]; cbn; intros states Hs H;
    [by injection H as <-|].
  apply result_bind_Ok in H as (a & Ha%or_trustchain_error_Ok & H). eapply IH, H.
  destruct Hs as [Hnd Hs]. split; [by apply od_set_NoDup|]. intros k st.
  rewrite od_get_set_case. case_decide as Hk; [|by apply Hs]. intros [= <-]. subst k.
  destruct (cached (key a)) as [v|] eqn:Hv; cbn; unfold loaded_state; cbn.
  - rewrite (cached_key _ _ Hv). eauto 10.
  - eauto 10.
Qed.

Lemma load_states_length certifs states states' :
  load_states unsecure_load key cached certifs states = Ok states' →
  (length states' ≤ length certifs + length states)%nat.
Proof using Type.
  revert states. induction certifs as [|c certifs IH]; cbn; intros states H;
    [injection H as <-; lia|].
  apply result_bind_Ok in H as (a & _ & H). apply IH in H. revert H.
  set (st := match cached _ with Some _ => _ | None => _ end).
  rewrite <-!od_keys_length, od_keys_set. case_decide; rewrite ?length_app; cbn; lia.
Qed.

Lemma load_states_recursion certifs states :
  load_states unsecure_load key cached certifs states ≠ Err RecursionError.
Proof using Type.
  revert states. induction certifs as [|c certifs IH]; cbn; intros states; [done|].
  apply result_bind_not_Err; auto.
Qed.
End states.

(** ** Signatures *)

Section signatures.
Context `{CertifApi} (root : VerifyKey).

(** The devices whose certificate is at the end of a chain of signatures that
    starts at the root key, and the contents that such a device signs. *)
Inductive signed_device : DeviceCertificateContent → Prop :=
  | signed_by_root certif d :
      verify_device_certificate certif root None = Ok d → signed_device d
  | signed_by_device a certif d :
      signed_device a →
      verify_device_certificate certif (dc_verify_key a) (Some (dc_device_id a)) = Ok d →
      signed_device d.
Definition signed_user (u : UserCertificateContent) : Prop :=
  (∃ certif, verify_user_certificate certif root None = Ok u) ∨
  ∃ a certif, signed_device a ∧
    verify_user_certificate certif (dc_verify_key a) (Some (dc_device_id a)) = Ok u.
Definition signed_revocation (r : RevokedUserCertificateContent) : Prop :=
  ∃ a certif, signed_device a ∧
    verify_revoked_user_certificate certif (dc_verify_key a) (dc_device_id a) = Ok r.

(** *** The recursion on the devices ends *)

Section termination.
Context (users : odict UserID (CertifState UserCertificateContent))
  (revoked : odict UserID (CertifState RevokedUserCertificateContent))
  (devices : odict DeviceID (CertifState DeviceCertificateContent)).

Lemma check_author_recursion author_id d u ts :
  check_author users revoked author_id d u ts ≠ Err RecursionError.
Proof.
  unfold check_author. repeat (case_bool_decide || case_match || cbn); done.
Qed.

(** A chain has no repetition, so that it is no longer than the devices are. *)
Lemma recursive_verify_device_terminates fuel id chain :
  NoDup chain → chain ⊆ od_keys devices → (length devices < fuel + length chain)%nat →
  recursive_verify_device root users revoked devices fuel id chain ≠ Err RecursionError.
Proof.
  revert id chain. induction fuel as [|fuel IH]; cbn [recursive_verify_device];
    intros id chain Hnd Hsub Hlt.
  { exfalso. pose proof (submseteq_length _ _ (NoDup_submseteq _ _ Hnd Hsub)) as Hle.
    rewrite od_keys_length in Hle. lia. }
  case_bool_decide as Hin; [done|]. destruct (od_get devices id) as [st|] eqn:Hst; [|done].
  destruct (dc_author (cs_content st)) as [author_id|]; [|auto].
  apply result_bind_not_Err.
  - apply IH.
    + apply NoDup_app. split_and!; [done|set_solver|apply NoDup_singleton].
    + assert (id ∈ od_keys devices) by (apply od_get_is_Some; by rewrite Hst). set_solver.
    + rewrite length_app. cbn. lia.
  - intros a _. apply result_bind_not_Err; [auto|]. intros d _.
    apply result_bind_not_Err; [apply check_author_recursion|]. done.
Qed.

Lemma verify_user_terminates fuel u certif :
  (length devices < fuel)%nat →
  verify_user root users revoked devices fuel u certif ≠ Err RecursionError.
Proof.
  intros Hf. unfold verify_user. destruct (uc_author u); [|auto]. case_bool_decide; [done|].
  apply result_bind_not_Err.
  { apply recursive_verify_device_terminates; [constructor|set_solver|cbn; lia]. }
  intros a _. apply result_bind_not_Err; [auto|]. intros ? _.
  apply result_bind_not_Err; [apply check_author_recursion|done].
Qed.
Lemma verify_revoked_user_terminates fuel r certif :
  (length devices < fuel)%nat →
  verify_revoked_user root users revoked devices fuel r certif ≠ Err RecursionError.
Proof.
  intros Hf. unfold verify_revoked_user. case_bool_decide; [done|].
  apply result_bind_not_Err.
  { apply recursive_verify_device_terminates; [constructor|set_solver|cbn; lia]. }
  intros a _. apply result_bind_not_Err; [auto|]. intros ? _.
  apply result_bind_not_Err; [apply check_author_recursion|done].
Qed.
End termination.

(** What [PyNaCl]'s [VerifyKey.verify] returns is the message after the signature. *)
Context (verify_message : ∀ key signed raw,
  key_verify key signed = Some raw → raw = unsecure_unwrap signed).

Lemma verify_device_load certif key ea d :
  verify_device_certificate certif key ea = Ok d →
  unsecure_load_device certif = Ok d ∧ dc_author d = ea.
Proof.
  intros (raw & ->%verify_message & ? & ? & _)%verify_and_load_Ok. done.
Qed.
Lemma verify_user_load certif key ea u :
  verify_user_certificate certif key ea = Ok u →
  unsecure_load_user certif = Ok u ∧ uc_author u = ea.
Proof.
  intros (raw & ->%verify_message & ? & ? & _)%verify_and_load_Ok. done.
Qed.
Lemma verify_revoked_user_load certif key a r :
  verify_revoked_user_certificate certif key a = Ok r →
  unsecure_load_revoked_user certif = Ok r ∧ rc_author r = a.
Proof.
  intros (raw & ->%verify_message & ? & [= ?] & _)%verify_and_load_Ok. done.
Qed.

(** *** What it accepts *)

Section recursion.
Context (users : odict UserID (CertifState UserCertificateContent))
  (revoked : odict UserID (CertifState RevokedUserCertificateContent))
  (devices : odict DeviceID (CertifState DeviceCertificateContent)).

(** The author of a content on the user [u] has the right to sign it. *)
Definition author_allowed (author : option DeviceID) (u : UserID) (timestamp : DateTime) : Prop :=
  match author with
  | None => True
  | Some a =>
      (user_id a = u ∨
       ∃ st, od_get users (user_id a) = Some st ∧ uc_profile (cs_content st) = ADMIN) ∧
      ∀ st, od_get revoked (user_id a) = Some st → timestamp ≤ rc_timestamp (cs_content st)
  end.

Lemma check_author_Ok author_id d u ts :
  dc_device_id d = author_id →
  check_author users revoked author_id d u ts = Ok tt → author_allowed (Some author_id) u ts.
Proof using Type.
  unfold check_author. intros <- (? & Hu & Hr)%result_bind_Ok. split.
  - case_bool_decide as E; [|by left].
    destruct (od_get users _) as [st|] eqn:Hst; [|done]. right. exists st.
    case_bool_decide as Ha; [done|]. done.
  - intros st Hst. rewrite Hst in Hr. destruct (_ <? ts) eqn:E; [done|]. by apply Z.ltb_ge.
Qed.
Context (devices_id : ∀ k st, od_get devices k = Some st →
  dc_device_id (cs_content st) = k ∧ ∃ d, unsecure_load_device (cs_certif st) = Ok d ∧
    dc_device_id d = k).

Lemma recursive_verify_device_Ok fuel id chain v :
  recursive_verify_device root users revoked devices fuel id chain = Ok v →
  (∃ st, od_get devices id = Some st ∧ unsecure_load_device (cs_certif st) = Ok v) ∧
  dc_device_id v = id ∧ signed_device v ∧
  author_allowed (dc_author v) (user_id (dc_device_id v)) (dc_timestamp v).
Proof.
  revert id chain v. induction fuel as [|fuel IH]; cbn [recursive_verify_device];
    intros id chain v; [done|].
  case_bool_decide; [done|]. destruct (od_get devices id) as [st|] eqn:Hst; [|done].
  destruct (devices_id _ _ Hst) as (_ & d & Hd & Hid).
  destruct (dc_author (cs_content st)) as [author_id|].
  - intros (a & Ha & Hx)%result_bind_Ok. apply result_bind_Ok in Hx as (w & Hw & Hx).
    apply result_bind_Ok in Hx as ([] & Hc & [= <-]).
    apply or_trustchain_error_Ok in Hw. pose proof (verify_device_load _ _ _ _ Hw) as [Hl Hau].
    apply IH in Ha as (_ & Haid & Hsig & _).
    assert (d = w) as -> by congruence.
    split_and!; [by exists st|done|by eapply signed_by_device|].
    rewrite Hau, Haid. by eapply check_author_Ok in Hc.
  - intros Hw%or_trustchain_error_Ok. pose proof (verify_device_load _ _ _ _ Hw) as [Hl Hau].
    assert (d = v) as -> by congruence. rewrite Hau.
    split_and!; [by exists st|done|by eapply signed_by_root|done].
Qed.

Lemma verify_user_Ok fuel u certif v :
  verify_user root users revoked devices fuel u certif = Ok v →
  unsecure_load_user certif = Ok u →
  v = u ∧ signed_user u ∧ author_allowed (uc_author u) (uc_user_id u) (uc_timestamp u) ∧
  (user_id <$> uc_author u) ≠ Some (uc_user_id u).
Proof.
  unfold verify_user. intros Hv Hu. destruct (uc_author u) as [author_id|] eqn:Eau.
  - case_bool_decide as Hself; [done|].
    apply result_bind_Ok in Hv as (a & Ha & Hv). apply result_bind_Ok in Hv as (w & Hw & Hv).
    apply result_bind_Ok in Hv as ([] & Hc & [= <-]).
    apply or_trustchain_error_Ok in Hw. pose proof (verify_user_load _ _ _ _ Hw) as [Hl Hau].
    apply recursive_verify_device_Ok in Ha as (_ & Haid & Hsig & _).
    assert (w = u) as -> by congruence.
    split_and!; [done|right; eauto|by eapply check_author_Ok in Hc|by cbn; intros [= ?]].
  - apply or_trustchain_error_Ok in Hv. pose proof (verify_user_load _ _ _ _ Hv) as [Hl Hau].
    assert (v = u) as -> by congruence. split_and!; [done|left; eauto|done|done].
Qed.

Lemma verify_revoked_user_Ok fuel r certif v :
  verify_revoked_user root users revoked devices fuel r certif = Ok v →
  unsecure_load_revoked_user certif = Ok r →
  v = r ∧ signed_revocation r ∧
  author_allowed (Some (rc_author r)) (rc_user_id r) (rc_timestamp r) ∧
  user_id (rc_author r) ≠ rc_user_id r.
Proof.
  unfold verify_revoked_user. intros Hv Hu. case_bool_decide as Hself; [done|].
  apply result_bind_Ok in Hv as (a & Ha & Hv). apply result_bind_Ok in Hv as (w & Hw & Hv).
  apply result_bind_Ok in Hv as ([] & Hc & [= <-]).
  apply or_trustchain_error_Ok in Hw. pose proof (verify_revoked_user_load _ _ _ _ Hw) as [Hl Hau].
  apply recursive_verify_device_Ok in Ha as (_ & Haid & Hsig & _).
  assert (w = r) as -> by congruence.
  split_and!; [done|by exists a, certif|by eapply check_author_Ok in Hc|done].
Qed.

End recursion.
End signatures.
