(* ===== verification/TrustchainProperties.v ===== *)
(** What the client may rely on once [load_trustchain] has accepted the
    certificates, and what it may not. *)

From S2P Require Import Prelude Types Backend Certif BackendUser Trustchain.

Import Byte.

Section properties.
Context `{CertifApi}.

(** The caches hold, under their own names, contents that were verified. *)
Definition cache_ok {K A} `{Countable K} (key : A → K) (signed : A → Prop)
    (cache : gmap K (DateTime * A)) : Prop :=
  ∀ k t a, cache !! k = Some (t, a) → key a = k ∧ signed a.
Definition context_ok (ctx : TrustchainContext) : Prop :=
  let root := tc_root_verify_key ctx in
  cache_ok uc_user_id (signed_user root) (tc_users_cache ctx) ∧
  cache_ok dc_device_id (signed_device root) (tc_devices_cache ctx) ∧
  cache_ok rc_user_id (signed_revocation root) (tc_revoked_users_cache ctx).

(** The right to sign, read in what [load_trustchain] returns. *)
Definition allowed (r : LoadedTrustchain) (author : option DeviceID) (u : UserID)
    (timestamp : DateTime) : Prop :=
  match author with
  | None => True
  | Some a =>
      (user_id a = u ∨ ∃ x, x ∈ lt_users r ∧ uc_user_id x = user_id a ∧ uc_profile x = ADMIN) ∧
      ∀ x, x ∈ lt_revoked_users r → rc_user_id x = user_id a → timestamp ≤ rc_timestamp x
  end.

Lemma still_valid_Some {A} validity now (e : option (DateTime * A)) a :
  still_valid validity now e = Some a → ∃ t, e = Some (t, a).
Proof. destruct e as [[t x]|]; cbn; [|done]. case_match; intros [= <-]. eauto. Qed.

Lemma loaded_start {K A} `{EqDecision K} unsecure_load (key : A → K) cached :
  loaded_states unsecure_load key cached [].
Proof. split; [constructor|done]. Qed.

Lemma loaded_values {K A} `{EqDecision K} unsecure_load (key : A → K) cached states a :
  loaded_states unsecure_load key cached states → a ∈ cs_content <$> od_values states →
  ∃ st, od_get states (key a) = Some st ∧ cs_content st = a.
Proof.
  intros [Hnd Hs] (st & -> & ([k x] & -> & Hin)%list_elem_of_fmap)%list_elem_of_fmap.
  cbn. pose proof (od_elem_get _ _ _ Hnd Hin) as Hg. destruct (Hs _ _ Hg) as [Hk _].
  rewrite Hk. eauto.
Qed.
Lemma loaded_NoDup {K A} `{EqDecision K} unsecure_load (key : A → K) cached states :
  loaded_states unsecure_load key cached states →
  NoDup (key <$> (cs_content <$> od_values states)).
Proof.
  intros [Hnd Hs]. assert (key <$> (cs_content <$> od_values states) = od_keys states) as ->; [|done].
  unfold od_values, od_keys. rewrite <-!list_fmap_compose.
  apply list_fmap_ext. intros i [k st] Hi%list_elem_of_lookup_2.
  by apply (Hs k st), od_elem_get.
Qed.
Lemma od_get_values {K V} `{EqDecision K} (d : odict K V) k v : od_get d k = Some v → v ∈ od_values d.
Proof. intros Hg%od_get_elem. apply list_elem_of_fmap. by exists (k, v). Qed.

Lemma cache_key {K A} `{Countable K} (key : A → K) signed validity now
    (cache : gmap K (DateTime * A)) :
  cache_ok key signed cache → ∀ k a, still_valid validity now (cache !! k) = Some a → key a = k.
Proof. intros Hc k a [t Ht]%still_valid_Some. by apply Hc in Ht as [-> _]. Qed.
Lemma only_trustchain_error {A} (r : result TrustchainExn A) e :
  r = Err e → r ≠ Err RecursionError → e = TrustchainError.
Proof. destruct e; naive_solver. Qed.

(** The cache after [populate] has the contents that were verified now, the
    others are the ones that it had. *)
Lemma populate_lookup {K A} `{Countable K} (key : A → K) now (states : odict K (CertifState A)) cache k :
  NoDup (od_keys states) → (∀ k st, od_get states k = Some st → key (cs_content st) = k) →
  populate key now states cache !! k =
    match od_get states k with
    | Some st => if cs_verified st then cache !! k else Some (now, cs_content st)
    | None => cache !! k
    end.
Proof.
  unfold populate, od_values. revert cache. induction states as [|[k' st] states IH];
    intros cache; cbn; [done|].
  rewrite NoDup_cons. intros [Hk' Hnd] Hkey. rewrite IH; [|done|].
  - pose proof (Hkey k' st) as Hst. cbn in Hst. rewrite decide_True in Hst by done.
    specialize (Hst eq_refl). case_decide as E.
    + subst k. apply od_get_None in Hk' as ->. destruct (cs_verified st); [done|].
      rewrite Hst. by rewrite lookup_insert_eq.
    + destruct (cs_verified st); [done|]. rewrite Hst.
      rewrite lookup_insert_ne by done. done.
  - intros k0 st0 Hst0. apply (Hkey k0). cbn. case_decide as E; [|done]. subst k0.
    destruct Hk'. apply od_get_is_Some. by rewrite Hst0.
Qed.

(** What one dict gives, once its loop has verified it. *)
Lemma states_summary {K A} `{Countable K} unsecure_load (key : A → K) (signed : A → Prop)
    validity now (cache : gmap K (DateTime * A)) (states : odict K (CertifState A)) (ok : A → Prop) :
  cache_ok key signed cache →
  loaded_states unsecure_load key (λ k, still_valid validity now (cache !! k)) states →
  (∀ k st, od_get states k = Some st → cs_verified st = false →
     signed (cs_content st) ∧ ok (cs_content st)) →
  let cache' := populate key now states cache in
  cache_ok key signed cache' ∧
  ∀ a, a ∈ cs_content <$> od_values states →
    signed a ∧ (still_valid validity now (cache !! key a) = Some a ∨ ok a) ∧
    (0 < validity → still_valid validity now (cache' !! key a) = Some a).
Proof.
  intros Hc Hl Hv cache'. pose proof Hl as [Hnd Hs].
  assert (∀ k st, od_get states k = Some st → key (cs_content st) = k) as Hkey.
  { intros k st Hst. by apply Hs. }
  split.
  - intros k t a. unfold cache'. rewrite populate_lookup by done.
    destruct (od_get states k) as [st|] eqn:Hst; [|apply Hc].
    destruct (cs_verified st) eqn:Hver; [apply Hc|]. intros [= <- <-].
    split; [by apply Hkey|]. by eapply Hv.
  - intros a (st & Hst & <-)%(loaded_values _ _ _ _ _ Hl). unfold cache'.
    rewrite populate_lookup, Hst by done. destruct (Hs _ _ Hst) as (_ & _ & Hx).
    destruct (cs_verified st) eqn:Hver.
    + split_and!; [|by left|done]. apply still_valid_Some in Hx as [t Ht]. by apply Hc in Ht as [_ ?].
    + destruct (Hv _ _ Hst Hver). split_and!; [done|by right|].
      cbn. intros. rewrite (proj2 (Z.ltb_lt _ _)) by lia. done.
Qed.

(** The recursion ends: the calls are not deeper than the devices are many. *)
Lemma load_trustchain_terminates fuel ctx users revoked_users devices now :
  (length devices < fuel)%nat →
  load_trustchain fuel ctx users revoked_users devices now ≠ Err RecursionError.
Proof.
  intros Hf. unfold load_trustchain.
  apply result_bind_not_Err; [apply load_states_recursion|]. intros ds Hds.
  pose proof (load_states_length _ _ _ _ _ _ Hds) as Hlen. cbn in Hlen.
  apply result_bind_not_Err; [apply load_states_recursion|]. intros us _.
  apply result_bind_not_Err; [apply load_states_recursion|]. intros rs _.
  apply result_bind_not_Err.
  { apply verify_states_recursion. intros ds' st Hk.
    apply recursive_verify_device_terminates; [constructor|set_solver|].
    rewrite <-od_keys_length, Hk, od_keys_length. cbn. lia. }
  intros ds' Hds'%verify_states_keys.
  assert (length ds' = length ds) as Hlen'.
  { by rewrite <-od_keys_length, Hds', od_keys_length. }
  apply result_bind_not_Err.
  { apply verify_states_recursion. intros us' st _. apply verify_user_terminates. lia. }
  intros us' _. apply result_bind_not_Err; [|done].
  apply verify_states_recursion. intros rs' st _. apply verify_revoked_user_terminates. lia.
Qed.

Context (verify_message : ∀ key signed raw,
  key_verify key signed = Some raw → raw = unsecure_unwrap signed).

(** The six loops, when they all succeed. *)
Lemma load_trustchain_states fuel ctx users revoked_users devices now r :
  context_ok ctx →
  load_trustchain fuel ctx users revoked_users devices now = Ok r →
  let root := tc_root_verify_key ctx in
  ∃ us rs ds,
    loaded_states unsecure_load_device dc_device_id (λ d, tc_get_device ctx d now) ds ∧
    loaded_states unsecure_load_user uc_user_id (λ u, tc_get_user ctx u now) us ∧
    loaded_states unsecure_load_revoked_user rc_user_id (λ u, tc_get_revoked_user ctx u now) rs ∧
    (∀ k st, od_get ds k = Some st → cs_verified st = false →
       recursive_verify_device root us rs ds fuel k [] = Ok (cs_content st)) ∧
    (∀ k st, od_get us k = Some st → cs_verified st = false →
       verify_user root us rs ds fuel (cs_content st) (cs_certif st) = Ok (cs_content st)) ∧
    (∀ k st, od_get rs k = Some st → cs_verified st = false →
       verify_revoked_user root us rs ds fuel (cs_content st) (cs_certif st)
       = Ok (cs_content st)) ∧
    r = {| lt_context :=
             mkTrustchainContext root (tc_cache_validity ctx)
               (populate uc_user_id now us (tc_users_cache ctx))
               (populate dc_device_id now ds (tc_devices_cache ctx))
               (populate rc_user_id now rs (tc_revoked_users_cache ctx));
           lt_users := cs_content <$> od_values us;
           lt_revoked_users := cs_content <$> od_values rs;
           lt_devices := cs_content <$> od_values ds |}.
Proof.
  intros (Hcu & Hcd & Hcr) Hr root. unfold load_trustchain in Hr. fold root in Hr.
  apply result_bind_Ok in Hr as (ds & Hds & Hr). apply result_bind_Ok in Hr as (us & Hus & Hr).
  apply result_bind_Ok in Hr as (rs & Hrs & Hr).
  apply load_states_ok in Hds; [|by eapply cache_key|by apply loaded_start].
  apply load_states_ok in Hus; [|by eapply cache_key|by apply loaded_start].
  apply load_states_ok in Hrs; [|by eapply cache_key|by apply loaded_start].
  assert (∀ k st, od_get ds k = Some st → dc_device_id (cs_content st) = k ∧
    ∃ d, unsecure_load_device (cs_certif st) = Ok d ∧ dc_device_id d = k) as Hid.
  { intros k st Hst. destruct Hds as [_ Hds]. split; by apply Hds. }
  apply result_bind_Ok in Hr as (ds' & Hvd & Hr).
  apply verify_states_same in Hvd as [-> Hvd].
  2:{ intros k st a Hst Hver (( st' & Hst' & Ha) & _)%(recursive_verify_device_Ok _ verify_message _ _ _ Hid).
      destruct (Hid _ _ Hst) as [Hk _]. rewrite Hk, Hst in Hst'. injection Hst' as <-.
      destruct Hds as [_ Hds]. destruct (Hds _ _ Hst) as (_ & _ & Hx). rewrite Hver in Hx. congruence. }
  apply result_bind_Ok in Hr as (us' & Hvu & Hr).
  apply verify_states_same in Hvu as [-> Hvu].
  2:{ intros k st a Hst Hver Ha. destruct Hus as [_ Hus]. destruct (Hus _ _ Hst) as (_ & _ & Hx).
      rewrite Hver in Hx. by eapply (verify_user_Ok _ verify_message _ _ _ Hid) in Ha as (-> & _). }
  apply result_bind_Ok in Hr as (rs' & Hvr & [= <-]).
  apply verify_states_same in Hvr as [-> Hvr].
  2:{ intros k st a Hst Hver Ha. destruct Hrs as [_ Hrs]. destruct (Hrs _ _ Hst) as (_ & _ & Hx).
      rewrite Hver in Hx. by eapply (verify_revoked_user_Ok _ verify_message _ _ _ Hid) in Ha as (-> & _). }
  exists us, rs, ds. split_and!; try done.
  - intros k st Hst Hver. destruct (Hid _ _ Hst) as [Hk _].
    rewrite <-Hk at 1. apply (Hvd k); try done. apply od_get_is_Some. by rewrite Hst.
  - intros k st Hst Hver. apply (Hvu k); try done. apply od_get_is_Some. by rewrite Hst.
  - intros k st Hst Hver. apply (Hvr k); try done. apply od_get_is_Some. by rewrite Hst.
Qed.

(** What the three dicts give, once their loops have verified them. *)
Lemma load_trustchain_facts fuel ctx users revoked_users devices now r :
  context_ok ctx →
  load_trustchain fuel ctx users revoked_users devices now = Ok r →
  let ctx' := lt_context r in
  let root := tc_root_verify_key ctx in
  tc_root_verify_key ctx' = root ∧ context_ok ctx' ∧
  NoDup (uc_user_id <$> lt_users r) ∧ NoDup (dc_device_id <$> lt_devices r) ∧
  NoDup (rc_user_id <$> lt_revoked_users r) ∧
  (∀ d, d ∈ lt_devices r → signed_device root d ∧
     (tc_get_device ctx (dc_device_id d) now = Some d ∨
      allowed r (dc_author d) (user_id (dc_device_id d)) (dc_timestamp d)) ∧
     (0 < tc_cache_validity ctx → tc_get_device ctx' (dc_device_id d) now = Some d)) ∧
  (∀ u, u ∈ lt_users r → signed_user root u ∧
     (tc_get_user ctx (uc_user_id u) now = Some u ∨
      allowed r (uc_author u) (uc_user_id u) (uc_timestamp u) ∧
      (user_id <$> uc_author u) ≠ Some (uc_user_id u)) ∧
     (0 < tc_cache_validity ctx → tc_get_user ctx' (uc_user_id u) now = Some u)) ∧
  (∀ v, v ∈ lt_revoked_users r → signed_revocation root v ∧
     (tc_get_revoked_user ctx (rc_user_id v) now = Some v ∨
      allowed r (Some (rc_author v)) (rc_user_id v) (rc_timestamp v) ∧
      user_id (rc_author v) ≠ rc_user_id v) ∧
     (0 < tc_cache_validity ctx → tc_get_revoked_user ctx' (rc_user_id v) now = Some v)).
Proof.
  intros Hctx Hr. destruct (load_trustchain_states _ _ _ _ _ _ _ Hctx Hr) as (us & rs & ds & Hds & Hus & Hrs & Hvd & Hvu & Hvr & ->).
  destruct Hctx as (Hcu & Hcd & Hcr).
  assert (∀ k st, od_get ds k = Some st → dc_device_id (cs_content st) = k ∧
    ∃ d, unsecure_load_device (cs_certif st) = Ok d ∧ dc_device_id d = k) as Hid.
  { intros k st Hst. destruct Hds as [_ Hds']. split; by apply Hds'. }
  set (r := {| lt_context := _ |}).
  assert (∀ a u t, author_allowed us rs a u t → allowed r a u t) as Hall.
  { intros [a|] u t; [|done]. cbn. intros [Ha Hrev]. split.
    - destruct Ha as [?|(st & Hst & Hp)]; [by left|right]. exists (cs_content st).
      split_and!; [|by apply Hus|done]. by apply list_elem_of_fmap_2, (od_get_values _ (user_id a)).
    - intros x (st & Hst & <-)%(loaded_values _ _ _ _ _ Hrs) Hu.
      rewrite Hu in Hst. by apply Hrev. }
  eapply (states_summary _ _ _ _ now _ ds
    (λ d, allowed r (dc_author d) (user_id (dc_device_id d)) (dc_timestamp d))) in Hds as Sd;
    [|done|].
  2:{ intros k st Hst Hver. apply (Hvd k st Hst) in Hver.
      apply (recursive_verify_device_Ok _ verify_message _ _ _ Hid) in Hver as (_ & _ & ? & ?). auto. }
  eapply (states_summary _ _ _ _ now _ us
    (λ u, allowed r (uc_author u) (uc_user_id u) (uc_timestamp u) ∧
          (user_id <$> uc_author u) ≠ Some (uc_user_id u))) in Hus as Su; [|done|].
  2:{ intros k st Hst Hver. destruct Hus as [_ Hus']. destruct (Hus' _ _ Hst) as (_ & _ & Hl).
      rewrite Hver in Hl. apply (Hvu k st Hst) in Hver.
      apply (verify_user_Ok _ verify_message _ _ _ Hid) in Hver as (_ & ? & ? & ?); auto. }
  eapply (states_summary _ _ _ _ now _ rs
    (λ v, allowed r (Some (rc_author v)) (rc_user_id v) (rc_timestamp v) ∧
          user_id (rc_author v) ≠ rc_user_id v)) in Hrs as Sr; [|done|].
  2:{ intros k st Hst Hver. destruct Hrs as [_ Hrs']. destruct (Hrs' _ _ Hst) as (_ & _ & Hl).
      rewrite Hver in Hl. apply (Hvr k st Hst) in Hver.
      apply (verify_revoked_user_Ok _ verify_message _ _ _ Hid) in Hver as (_ & ? & ? & ?); auto. }
  destruct Sd as [Cd Sd], Su as [Cu Su], Sr as [Cr Sr]. cbn zeta.
  split_and!; [done|done|by eapply loaded_NoDup|by eapply loaded_NoDup|by eapply loaded_NoDup|..];
    [exact Sd|exact Su|exact Sr].
Qed.

(** C3: [load_trustchain], as the client calls it: the recursion on the authors
    ends; when it accepts the certificates, every content that it returns was
    signed along a chain that starts at the root key, and either it comes from a
    cache that is still valid or its author had the right to sign it: it signs
    for its own user or the user that is returned for it is an administrator,
    it was not revoked before, and no user signs its own user or revocation
    certificate. The caches stay right, hold what is returned, and the root key
    does not change. *)
Theorem load_trustchain_sound fuel ctx users revoked_users devices now :
  context_ok ctx → (length devices < fuel)%nat →
  match load_trustchain fuel ctx users revoked_users devices now with
  | Err e => e = TrustchainError
  | Ok r =>
      let ctx' := lt_context r in
      let root := tc_root_verify_key ctx in
      tc_root_verify_key ctx' = root ∧ context_ok ctx' ∧
      NoDup (uc_user_id <$> lt_users r) ∧ NoDup (dc_device_id <$> lt_devices r) ∧
      NoDup (rc_user_id <$> lt_revoked_users r) ∧
      (∀ d, d ∈ lt_devices r → signed_device root d ∧
         (tc_get_device ctx (dc_device_id d) now = Some d ∨
          allowed r (dc_author d) (user_id (dc_device_id d)) (dc_timestamp d)) ∧
         (0 < tc_cache_validity ctx → tc_get_device ctx' (dc_device_id d) now = Some d)) ∧
      (∀ u, u ∈ lt_users r → signed_user root u ∧
         (tc_get_user ctx (uc_user_id u) now = Some u ∨
          allowed r (uc_author u) (uc_user_id u) (uc_timestamp u) ∧
          (user_id <$> uc_author u) ≠ Some (uc_user_id u)) ∧
         (0 < tc_cache_validity ctx → tc_get_user ctx' (uc_user_id u) now = Some u)) ∧
      (∀ v, v ∈ lt_revoked_users r → signed_revocation root v ∧
         (tc_get_revoked_user ctx (rc_user_id v) now = Some v ∨
          allowed r (Some (rc_author v)) (rc_user_id v) (rc_timestamp v) ∧
          user_id (rc_author v) ≠ rc_user_id v) ∧
         (0 < tc_cache_validity ctx → tc_get_revoked_user ctx' (rc_user_id v) now = Some v))
  end.
Proof.
  intros Hctx Hf. pose proof (load_trustchain_terminates fuel ctx users revoked_users devices now Hf).
  destruct (load_trustchain _ _ _ _ _ _) as [r|[]] eqn:Hr; [|done..].
  by eapply load_trustchain_facts.
Qed.
End properties.

(** ** Examples *)

Module Example.

Definition alice : DeviceID := mkDeviceID "alice" "desk".
Definition bob : DeviceID := mkDeviceID "bob" "desk".
Definition victor : DeviceID := mkDeviceID "victor" "desk".
Definition ursula : DeviceID := mkDeviceID "ursula" "desk".
Definition root_key : VerifyKey := [x52].
Definition alice_key : VerifyKey := [x41].
Definition bob_key : VerifyKey := [x42].
Definition victor_key : VerifyKey := [x56].
Definition ursula_key : VerifyKey := [x55].

(** A key is one byte and a signature 64 times this byte; the data are the numbers
    of the certificates. *)
Definition sign (key : byte) (raw : bytes) : bytes := replicate 64 key ++ raw.
#[local] Instance example_api : CertifApi := {|
  key_verify key signed :=
    match key with
    | [b] => if bool_decide (take 64 signed = replicate 64 b) then Some (drop 64 signed) else None
    | _ => None
    end;
  loads_user raw :=
    match raw with
    | [x01] => Some (mkUserCertificateFields None 0 "alice" None [x61] true None)
    | [x02] => Some (mkUserCertificateFields (Some alice) 1 "bob" None [x62] false None)
    | [x03] => Some (mkUserCertificateFields (Some alice) 1 "victor" None [x76] false None)
    | [x04] => Some (mkUserCertificateFields (Some ursula) 3 "victor" None [x76] true None)
    | [x05] => Some (mkUserCertificateFields (Some victor) 2 "ursula" None [x75] true None)
    | _ => None
    end;
  loads_revoked_user raw :=
    match raw with
    | [x20] => Some (mkRevokedUserCertificateContent alice 9 "bob")
    | _ => None
    end;
  loads_device raw :=
    match raw with
    | [x11] => Some (mkDeviceCertificateContent None 0 alice None alice_key)
    | [x12] => Some (mkDeviceCertificateContent (Some alice) 1 bob None bob_key)
    | [x13] => Some (mkDeviceCertificateContent (Some alice) 1 victor None victor_key)
    | [x15] => Some (mkDeviceCertificateContent (Some victor) 2 ursula None ursula_key)
    | _ => None
    end;
  loads_realm_role _ := None |}.

Lemma example_message key signed raw :
  key_verify key signed = Some raw → raw = unsecure_unwrap signed.
Proof.
  cbn. destruct key as [|b [|]]; [done| |done]. case_bool_decide; [|done]. by intros [= <-].
Qed.

Definition empty_ctx : TrustchainContext := mkTrustchainContext root_key 3600 ∅ ∅ ∅.
Lemma empty_ctx_ok : context_ok empty_ctx.
Proof. split_and!; intros k t a; cbn; intros Hk; by apply lookup_empty_Some in Hk. Qed.

(** Bob, whom Alice created and revoked later. *)
Definition bob_users := [sign x41 [x02]; sign x52 [x01]].
Definition bob_revoked := [sign x41 [x20]].
Definition bob_devices := [sign x41 [x12]; sign x52 [x11]].
Definition bob_loaded := load_trustchain 3 empty_ctx bob_users bob_revoked bob_devices 10.

Lemma load_trustchain_sound_witness :
  match bob_loaded with
  | Ok r =>
      (uc_user_id <$> lt_users r) = ["bob"; "alice"]%string ∧
      (dc_device_id <$> lt_devices r) = [bob; alice] ∧
      (rc_user_id <$> lt_revoked_users r) = ["bob"]%string ∧
      context_ok (lt_context r) ∧
      (∀ d, d ∈ lt_devices r → tc_get_device (lt_context r) (dc_device_id d) 10 = Some d)
  | Err _ => False
  end.
Proof.
  pose proof (load_trustchain_sound example_message 3 empty_ctx bob_users bob_revoked bob_devices 10
    empty_ctx_ok ltac:(cbn; lia)) as Hs.
  assert (match bob_loaded with
          | Ok r => (uc_user_id <$> lt_users r) = ["bob"; "alice"]%string ∧
                    (dc_device_id <$> lt_devices r) = [bob; alice] ∧
                    (rc_user_id <$> lt_revoked_users r) = ["bob"]%string
          | Err _ => False end) as Hv by (vm_compute; auto).
  fold bob_loaded in Hs. destruct bob_loaded as [r|]; [|done].
  destruct Hv as (? & ? & ?), Hs as (_ & Hc & _ & _ & _ & Hd & _).
  split_and!; [done..|]. intros d Hin. destruct (Hd d Hin) as (_ & _ & Hx). by apply Hx.
Defined.

(** An administrator whose certificate comes, author by author, from the root key. *)
Inductive entitled (r : LoadedTrustchain) : UserCertificateContent → Prop :=
  | entitled_by_root u : u ∈ lt_users r → uc_author u = None → entitled r u
  | entitled_by_admin u a x :
      u ∈ lt_users r → uc_author u = Some a → entitled r x → uc_user_id x = user_id a →
      uc_profile x = ADMIN → entitled r u.

(** Victor, an ordinary user whose device Alice signed, signs the device and the
    user certificate of Ursula, whose key he has; Ursula's device signs a new user
    certificate of Victor's, and both users are administrators in them. *)
Definition forged_users := [sign x55 [x04]; sign x56 [x05]; sign x52 [x01]].
Definition victor_devices := [sign x41 [x13]; sign x56 [x15]; sign x52 [x11]].

(** C32: what [load_trustchain] does not guarantee. The right of an author to sign
    is read in the user certificates that are being verified, so that two of them
    may justify each other: a user who is not an administrator and the server can
    make a client accept a certificate by which this user is one, although no
    chain of administrators leads from it to the root key. *)
Theorem trustchain_circular_admin :
  (* Victor's own certificate *)
  (λ r, (λ u, (uc_user_id u, uc_profile u)) <$> lt_users r) <$>
    load_trustchain 4 empty_ctx [sign x41 [x03]; sign x52 [x01]] []
      [sign x41 [x13]; sign x52 [x11]] 10
    = Ok [("victor"%string, STANDARD); ("alice"%string, ADMIN)] ∧
  (* the forged one *)
  ∃ r victor_user,
    load_trustchain 4 empty_ctx forged_users [] victor_devices 10 = Ok r ∧
    victor_user ∈ lt_users r ∧ uc_user_id victor_user = "victor"%string ∧
    uc_profile victor_user = ADMIN ∧ ¬ entitled r victor_user.
Proof.
  split; [by vm_compute|].
  destruct (load_trustchain 4 empty_ctx forged_users [] victor_devices 10) as [r|] eqn:Hr;
    [|by vm_compute in Hr].
  pose (v := mkUserCertificateContent (Some ursula) 3 "victor" None [x76] ADMIN).
  pose (u := mkUserCertificateContent (Some victor) 2 "ursula" None [x75] ADMIN).
  assert (lt_users r = [v; u; mkUserCertificateContent None 0 "alice" None [x61] ADMIN]) as Hu.
  { vm_compute in Hr. by injection Hr as <-. }
  exists r, v. split_and!; [done|rewrite Hu; by left|done..|].
  assert (∀ x, entitled r x → uc_user_id x = "alice"%string) as He.
  { intros x Hx. induction Hx as [x Hin Ha|x a y Hin Ha _ IH Hy _]; rewrite Hu in Hin;
      rewrite !elem_of_cons in Hin; destruct Hin as [->|[->|[->|[]%not_elem_of_nil]]]; try done;
      cbn in Ha; injection Ha as <-; rewrite IH in Hy; discriminate. }
  by intros Hv%He.
Qed.
End Example.
