(* ===== verification/RemoteDevices.v ===== *)
(** The users and devices that the client fetches, verifies and keeps for a
    while: [guardata/client/remote_devices_manager.py]. *)

From S2P Require Import Prelude Types ApiManifest Backend Certif BackendUser Trustchain.

(** ** The requests of a client *)

(** What a request gives: a reply of the server, or the exceptions
    [BackendNotAvailable] and [BackendConnectionError] of the connection. *)
Inductive net (A : Type) :=
| NetReply (rep : A)
| NetNotAvailable
| NetConnectionError.
Arguments NetReply {A} rep.
Arguments NetNotAvailable {A}.
Arguments NetConnectionError {A}.

(** [BackendAuthenticatedCmds] on a server whose state is an [Srv]: a request may
    change this state. *)
Class BackendCmds (Srv : Type) := {
  cmd_user_get : UserID → Srv → Srv * net (reply GetUserAndDevicesResult);
  cmd_realm_create : bytes → Srv → Srv * net (reply unit);
  cmd_realm_get_role_certificates : UUID → Srv → Srv * net (reply (list bytes));
  cmd_vlob_create : UUID → Z → UUID → DateTime → bytes → Srv → Srv * net (reply unit);
  cmd_vlob_read : Z → UUID → option Z → option DateTime →
    Srv → Srv * net (reply (Z * bytes * DeviceID * DateTime));
  cmd_vlob_update : Z → UUID → Z → DateTime → bytes → Srv → Srv * net (reply unit);
  cmd_vlob_list_versions : UUID → Srv → Srv * net (reply (list (Z * (DateTime * DeviceID))));
  cmd_block_create : UUID → UUID → bytes → Srv → Srv * net (reply unit);
  cmd_block_read : UUID → Srv → Srv * net (reply bytes) }.

(** ** [RemoteDevicesManager] *)

Inductive RDMExn :=
| RemoteDevicesManagerError
| RemoteDevicesManagerBackendOfflineError
| RemoteDevicesManagerUserNotFoundError
| RemoteDevicesManagerDeviceNotFoundError
| RemoteDevicesManagerInvalidTrustchainError
| RDMIndexError
| RDMRecursionError.
#[export] Instance RDMExn_eq_dec : EqDecision RDMExn.
Proof. solve_decision. Defined.

Definition DEFAULT_CACHE_VALIDITY : Z := 60 * 60.
Definition new_trustchain_context (root : VerifyKey) : TrustchainContext :=
  mkTrustchainContext root DEFAULT_CACHE_VALIDITY ∅ ∅ ∅.

Section manager.
Context `{CertifApi} {Srv : Type} `{BackendCmds Srv}.
(** The time, and the depth of calls that Python allows. *)
Context (now : DateTime) (fuel : nat).

(** The manager and the server. *)
Abbreviation rdmM := (stM (TrustchainContext * Srv) RDMExn) (only parsing).

Definition rdm_request {A} (cmd : Srv → Srv * net A) : rdmM (net A) := λ s,
  let '(srv, r) := cmd s.2 in ((s.1, srv), Ok r).

(** [except TrustchainError as exc: raise RemoteDevicesManagerInvalidTrustchainError] *)
Definition rdm_trustchain {A} (m : stM TrustchainContext LoadUserExn A) : rdmM A := λ s,
  let '(ctx, r) := m s.1 in
  ((ctx, s.2),
   match r with
   | Ok a => Ok a
   | Err (LoadError TrustchainError) => Err RemoteDevicesManagerInvalidTrustchainError
   | Err (LoadError RecursionError) => Err RDMRecursionError
   | Err LoadIndexError => Err RDMIndexError
   end).

(** [get_user_and_devices] *)
Definition rdm_get_user_and_devices (u : UserID) : rdmM (UserCertificateContent *
    option RevokedUserCertificateContent * list DeviceCertificateContent) :=
  rep ← rdm_request (cmd_user_get u);
  match rep with
  | NetNotAvailable => mthrow RemoteDevicesManagerBackendOfflineError
  | NetConnectionError => mthrow RemoteDevicesManagerError
  | NetReply (RepError status) =>
      if decide (status = "not_found"%string) then mthrow RemoteDevicesManagerUserNotFoundError
      else mthrow RemoteDevicesManagerError
  | NetReply (RepOk rep) =>
      rdm_trustchain (load_user_and_devices fuel
        (elements (t_users (gu_trustchain rep)))
        (elements (t_revoked_users (gu_trustchain rep)))
        (elements (t_devices (gu_trustchain rep)))
        (gu_user_certificate rep) (gu_revoked_user_certificate rep)
        (gu_device_certificates rep) (Some u) now)
  end.

(** [get_user] *)
Definition rdm_get_user (u : UserID) (no_cache : bool)
    : rdmM (UserCertificateContent * option RevokedUserCertificateContent) :=
  verified_user ← gets (λ s, if no_cache then None else tc_get_user s.1 u now);
  verified_revoked_user ← gets (λ s, if no_cache then None else tc_get_revoked_user s.1 u now);
  match verified_user with
  | Some verified_user => mret (verified_user, verified_revoked_user)
  | None =>
      '(verified_user, verified_revoked_user, _) ← rdm_get_user_and_devices u;
      mret (verified_user, verified_revoked_user)
  end.

(** [get_device] *)
Definition rdm_get_device (device_id : DeviceID) (no_cache : bool)
    : rdmM DeviceCertificateContent :=
  verified_device ← gets (λ s, if no_cache then None else tc_get_device s.1 device_id now);
  match verified_device with
  | Some verified_device => mret verified_device
  | None =>
      '(_, _, verified_devices) ← rdm_get_user_and_devices (user_id device_id);
      of_option RemoteDevicesManagerDeviceNotFoundError
        (snd <$> list_find (λ vd, dc_device_id vd = device_id) verified_devices)
  end.

(** [invalidate_user_cache] *)
Definition rdm_invalidate_user_cache (u : UserID) : rdmM unit :=
  modify (λ s, (invalidate_user_cache s.1 u, s.2)).
End manager.
