(* ===== verification/RemoteLoader.v ===== *)
(** Loading from the server and checking what it gives, and uploading:
    [guardata/client/fs/remote_loader.py]. *)

From S2P Require Import Prelude Types ApiManifest Chunk Merging Storage Backend Certif BackendUser.
From S2P Require Import BackendRealm Trustchain RemoteDevices.

(** ** State *)

(** The loader with what it uses: the server, the trustchain of
    [remote_devices_manager] and [local_storage]. *)
Record Loader (Srv : Type) := mkLoader {
  rl_server : Srv;
  rl_trustchain : TrustchainContext;
  rl_storage : Storage;
  rl_realm_role_certificates_cache : option (list RealmRoleCertificateContent);
  rl_realm_role_certificates_cache_timestamp : option DateTime }.
Arguments mkLoader {Srv} _ _ _ _ _.
Arguments rl_server {Srv} _.
Arguments rl_trustchain {Srv} _.
Arguments rl_storage {Srv} _.
Arguments rl_realm_role_certificates_cache {Srv} _.
Arguments rl_realm_role_certificates_cache_timestamp {Srv} _.

Definition set_role_cache {Srv} (certifs : list RealmRoleCertificateContent) (timestamp : DateTime)
    (s : Loader Srv) : Loader Srv :=
  mkLoader (rl_server s) (rl_trustchain s) (rl_storage s) (Some certifs) (Some timestamp).

(** [translate_remote_devices_manager_errors] *)
Definition translate_remote_devices_manager_errors (e : RDMExn) : FSExn :=
  match e with
  | RemoteDevicesManagerBackendOfflineError => FSBackendOfflineError
  | RemoteDevicesManagerUserNotFoundError => FSUserNotFoundError
  | RemoteDevicesManagerDeviceNotFoundError => FSDeviceNotFoundError
  | RemoteDevicesManagerInvalidTrustchainError => FSInvalidTrustchainEror
  | RemoteDevicesManagerError => FSRemoteOperationError
  | RDMIndexError => IndexError
  | RDMRecursionError => PythonRecursionError
  end.

(** [except DataError as exc: raise FSError] *)
Definition or_fs_error {A} (r : result DataError A) : result FSExn A :=
  match r with Ok a => Ok a | Err _ => Err FSError end.

(** What the code uses of libsodium and of the serializers: [SecretKey.decrypt]
    and [encrypt] ([None] for a [CryptoError]; the nonce is drawn by the library),
    [HashDigest.from_data], the signature with the key of the device and the
    schemas of the manifests and of the role certificates. *)
Class LoaderApi := {
  secret_decrypt : SecretKey → bytes → option bytes;
  secret_encrypt : SecretKey → bytes → option bytes;
  hash_digest : bytes → HashDigest;
  device_sign : bytes → bytes;
  loads_manifest : bytes → option RemoteManifest;
  dumps_manifest : RemoteManifest → option bytes;
  dumps_realm_role : RealmRoleCertificateContent → bytes }.

Definition rm_timestamp (m : RemoteManifest) : DateTime :=
  match m with
  | RFile m => fim_timestamp m
  | RFolder m => fom_timestamp m
  | RWorkspace m => wm_timestamp m
  | RUser m => um_timestamp m
  end.

(** ** The realm's roles *)

Section roles.
Context `{CertifApi}.

(** [RealmRoleCertificateContent.unsecure_load] *)
Definition unsecure_load_realm_role (signed : bytes)
    : result DataError RealmRoleCertificateContent :=
  loads loads_realm_role (unsecure_unwrap signed).

(** The list and the [sorted] of [_load_realm_role_certificates]. *)
Fixpoint unsecure_load_realm_roles (certificates : list bytes)
    : result DataError (list (RealmRoleCertificateContent * bytes)) :=
  match certificates with
  | [] => Ok []
  | uv_role :: certificates =>
      c ← unsecure_load_realm_role uv_role;
      l ← unsecure_load_realm_roles certificates;
      Ok ((c, uv_role) :: l)
  end.
Definition certif_leb (x y : RealmRoleCertificateContent * bytes) : bool :=
  rr_timestamp x.1 <=? rr_timestamp y.1.
End roles.

(** "Make sure author had the right to do this": the roles asked of the author, and
    the roles after a certificate. *)
Definition client_needed_roles (current_roles : gmap UserID RealmRole) (author : DeviceID)
    (certif : RealmRoleCertificateContent) : list (option RealmRole) :=
  let existing_user_role := current_roles !! rr_user_id certif in
  if bool_decide (current_roles = ∅) && bool_decide (rr_user_id certif = user_id author)
  then [None]
  else if role_in existing_user_role owner_or_manager || role_in (rr_role certif) owner_or_manager
  then Some <$> owner_only
  else Some <$> owner_or_manager.
Definition client_apply_role (current_roles : gmap UserID RealmRole)
    (certif : RealmRoleCertificateContent) : gmap UserID RealmRole :=
  match rr_role certif with
  | None => delete (rr_user_id certif) current_roles
  | Some role => <[rr_user_id certif := role]> current_roles
  end.

(** The loop of [_get_user_realm_role_at]. *)
Definition role_at (certifs : list RealmRoleCertificateContent) (u : UserID) (timestamp : DateTime)
    : option RealmRole :=
  match list_find (λ c, rr_user_id c = u ∧ rr_timestamp c ≤ timestamp) (reverse certifs) with
  | Some (_, certif) => rr_role certif
  | None => None
  end.

Section loader.
Context `{CertifApi, LoaderApi} {Srv : Type} `{BackendCmds Srv}.
(** The time, the depth of calls that Python allows, the size of the cache of
    blocks, the device, the workspace and its entry in the user manifest. *)
Context (now : DateTime) (fuel : nat) (cache_size : Z) (device_id : DeviceID)
  (workspace_id : EntryID) (workspace_entry : WorkspaceEntry).

Abbreviation rlM := (stM (Loader Srv) FSExn) (only parsing).

(** [_backend_cmds] *)
Definition backend_cmds {A} (cmd : Srv → Srv * net (reply A)) : rlM (reply A) := λ s,
  let '(srv, r) := cmd (rl_server s) in
  (mkLoader srv (rl_trustchain s) (rl_storage s) (rl_realm_role_certificates_cache s)
     (rl_realm_role_certificates_cache_timestamp s),
   match r with
   | NetReply rep => Ok rep
   | NetNotAvailable => Err FSBackendOfflineError
   | NetConnectionError => Err FSError
   end).

(** A call on [self.remote_devices_manager], and one on [self.local_storage]. *)
Definition on_devices_manager {A} (m : stM (TrustchainContext * Srv) RDMExn A) : rlM A := λ s,
  let '((ctx, srv), r) := m (rl_trustchain s, rl_server s) in
  (mkLoader srv ctx (rl_storage s) (rl_realm_role_certificates_cache s)
     (rl_realm_role_certificates_cache_timestamp s),
   match r with
   | Ok a => Ok a
   | Err e => Err (translate_remote_devices_manager_errors e)
   end).
Definition on_local_storage {A} (m : stM Storage FSExn A) : rlM A := λ s,
  let '(st, r) := m (rl_storage s) in
  (mkLoader (rl_server s) (rl_trustchain s) st (rl_realm_role_certificates_cache s)
     (rl_realm_role_certificates_cache_timestamp s), r).

(** [get_user], [get_device] *)
Definition rl_get_user (u : UserID) (no_cache : bool)
    : rlM (UserCertificateContent * option RevokedUserCertificateContent) :=
  on_devices_manager (rdm_get_user now fuel u no_cache).
Definition rl_get_device (d : DeviceID) (no_cache : bool) : rlM DeviceCertificateContent :=
  on_devices_manager (rdm_get_device now fuel d no_cache).

(** "Now verify each certif" *)
Fixpoint verify_realm_roles (unsecure_certifs : list (RealmRoleCertificateContent * bytes))
    (current_roles : gmap UserID RealmRole) : rlM (gmap UserID RealmRole) :=
  match unsecure_certifs with
  | [] => mret current_roles
  | (unsecure_certif, raw_certif) :: unsecure_certifs =>
      author ← rl_get_device (rr_author unsecure_certif) false;
      _ ← lift_result (or_fs_error (verify_realm_role_certificate raw_certif
            (dc_verify_key author) (dc_device_id author)));
      let needed_roles := client_needed_roles current_roles (dc_device_id author) unsecure_certif in
      _ ← raise_if (bool_decide (current_roles !! user_id (rr_author unsecure_certif)
                                 ∉ needed_roles)) FSError;
      verify_realm_roles unsecure_certifs (client_apply_role current_roles unsecure_certif)
  end.

(** [_load_realm_role_certificates], [load_realm_role_certificates],
    [load_realm_current_roles] *)
Definition load_realm_roles (realm_id : option EntryID)
    : rlM (list RealmRoleCertificateContent * gmap UserID RealmRole) :=
  rep ← backend_cmds (cmd_realm_get_role_certificates (default workspace_id realm_id));
  match rep with
  | RepError status =>
      if decide (status = "not_allowed"%string) then mthrow FSWorkspaceNoReadAccess
      else mthrow FSError
  | RepOk certificates =>
      unsecure_certifs ← lift_result (or_fs_error (unsecure_load_realm_roles certificates));
      let unsecure_certifs := py_sorted certif_leb unsecure_certifs in
      current_roles ← verify_realm_roles unsecure_certifs ∅;
      mret (unsecure_certifs.*1, current_roles)
  end.
Definition load_realm_role_certificates (realm_id : option EntryID)
    : rlM (list RealmRoleCertificateContent) :=
  '(certificates, _) ← load_realm_roles realm_id; mret certificates.
Definition load_realm_current_roles (realm_id : option EntryID) : rlM (gmap UserID RealmRole) :=
  '(_, current_roles) ← load_realm_roles realm_id; mret current_roles.

(** [_get_user_realm_role_at]; comparing [None] to a date would raise. *)
Definition get_user_realm_role_at (u : UserID) (timestamp : DateTime) : rlM (option RealmRole) :=
  cache ← gets rl_realm_role_certificates_cache;
  cache_timestamp ← gets rl_realm_role_certificates_cache_timestamp;
  reload ← (match cache with
            | None | Some [] => mret true
            | Some _ =>
                cached_on ← of_option TypeError cache_timestamp;
                mret (cached_on <=? timestamp)
            end);
  _ ← (if reload : bool then
         '(certifs, _) ← load_realm_roles None;
         modify (set_role_cache certifs now)
       else mret tt);
  cache ← gets rl_realm_role_certificates_cache;
  mret (role_at (default [] cache) u timestamp).

(** ** Blocks *)

(** [load_block] *)
Definition rl_load_block (access : BlockAccess) : rlM unit :=
  rep ← backend_cmds (cmd_block_read (access_id access));
  match rep with
  | RepError status =>
      if decide (status = "not_found"%string) then mthrow (FSRemoteBlockNotFound access)
      else if decide (status = "not_allowed"%string) then mthrow FSWorkspaceNoReadAccess
      else if decide (status = "in_maintenance"%string) then mthrow FSWorkspaceInMaintenance
      else mthrow FSError
  | RepOk ciphered =>
      block ← of_option FSError (secret_decrypt (access_key access) ciphered);
      _ ← raise_if (bool_decide (hash_digest block ≠ access_digest access)) AssertionError;
      on_local_storage (set_clean_block cache_size (access_id access) block)
  end.

(** [load_blocks] *)
Definition rl_load_blocks (accesses : list BlockAccess) : rlM unit := for_each rl_load_block accesses.

(** [upload_block] *)
Definition upload_block (access : BlockAccess) (data : bytes) : rlM unit :=
  ciphered ← of_option FSError (secret_encrypt (access_key access) data);
  rep ← backend_cmds (cmd_block_create (access_id access) workspace_id ciphered);
  _ ← (match rep with
       | RepOk _ => mret tt
       | RepError status =>
           if decide (status = "already_exists"%string) then mret tt
           else if decide (status = "not_allowed"%string) then mthrow FSWorkspaceNoWriteAccess
           else if decide (status = "in_maintenance"%string) then mthrow FSWorkspaceInMaintenance
           else mthrow FSError
       end);
  _ ← on_local_storage (set_clean_block cache_size (access_id access) data);
  on_local_storage (clear_chunk (access_id access) true).

(** ** Manifests *)

(** [BaseManifest.verify_and_load] after the decryption
    ([decrypt_verify_and_load]). *)
Definition decrypt_verify_and_load_manifest (encrypted : bytes) (key : SecretKey)
    (author_verify_key : VerifyKey) (expected_author : DeviceID) (expected_timestamp : DateTime)
    (expected_version : option Z) (expected_id : option EntryID)
    : result DataError RemoteManifest :=
  match secret_decrypt key encrypted with
  | None => Err DataErr
  | Some signed =>
      data ← verify_and_load (loads loads_manifest) (Some ∘ rm_author) rm_timestamp signed
               author_verify_key (Some expected_author) (Some expected_timestamp);
      if match expected_id with Some id => bool_decide (rm_id data ≠ id) | None => false end
      then Err DataValidationError
      else if match expected_version with
              | Some version => bool_decide (rm_version data ≠ version)
              | None => false
              end
      then Err DataValidationError
      else Ok data
  end.

(** [load_manifest] *)
Definition rl_load_manifest (entry_id : EntryID) (version : option Z) (timestamp : option DateTime)
    (expected_backend_timestamp : option DateTime) : rlM RemoteManifest :=
  _ ← raise_if (bool_decide (is_Some timestamp) && bool_decide (is_Some version)) FSError;
  rep ← backend_cmds (cmd_vlob_read (we_encryption_revision workspace_entry) entry_id version
          (match version with None => timestamp | Some _ => None end));
  match rep with
  | RepError status =>
      if decide (status = "not_found"%string) then mthrow (FSRemoteManifestNotFound entry_id)
      else if decide (status = "not_allowed"%string) then mthrow FSWorkspaceNoReadAccess
      else if decide (status = "bad_version"%string)
      then mthrow (FSRemoteManifestNotFoundBadVersion entry_id)
      else if decide (status = "bad_timestamp"%string)
      then mthrow (FSRemoteManifestNotFoundBadTimestamp entry_id)
      else if decide (status = "bad_encryption_revision"%string)
      then mthrow FSBadEncryptionRevision
      else if decide (status = "in_maintenance"%string) then mthrow FSWorkspaceInMaintenance
      else mthrow FSError
  | RepOk (expected_version, blob, expected_author, expected_timestamp) =>
      _ ← raise_if (match version with
                    | Some v => bool_decide (v ≠ expected_version)
                    | None => false
                    end) FSError;
      _ ← raise_if (match expected_backend_timestamp with
                    | Some t => bool_decide (t ≠ expected_timestamp)
                    | None => false
                    end) FSError;
      author ← rl_get_device expected_author false;
      remote_manifest ← lift_result (or_fs_error (decrypt_verify_and_load_manifest blob
        (we_key workspace_entry) (dc_verify_key author) expected_author expected_timestamp
        (Some expected_version) (Some entry_id)));
      role_at_timestamp ← get_user_realm_role_at (user_id expected_author) expected_timestamp;
      match role_at_timestamp with
      | None | Some READER => mthrow FSError
      | Some _ => mret remote_manifest
      end
  end.

(** [RemoteLoaderTimestamped.load_manifest] *)
Definition load_manifest_timestamped (loader_timestamp : DateTime) (entry_id : EntryID)
    (version : option Z) (timestamp : option DateTime)
    (expected_backend_timestamp : option DateTime) : rlM RemoteManifest :=
  rl_load_manifest entry_id version
    (match timestamp, version with
     | None, None => Some loader_timestamp
     | _, _ => timestamp
     end) expected_backend_timestamp.

(** [list_versions] *)
Definition list_versions (entry_id : EntryID) : rlM (list (Z * (DateTime * DeviceID))) :=
  rep ← backend_cmds (cmd_vlob_list_versions entry_id);
  match rep with
  | RepError status =>
      if decide (status = "not_allowed"%string) then mthrow FSWorkspaceNoReadAccess
      else if decide (status = "not_found"%string) then mthrow (FSRemoteManifestNotFound entry_id)
      else if decide (status = "in_maintenance"%string) then mthrow FSWorkspaceInMaintenance
      else mthrow FSError
  | RepOk versions => mret versions
  end.

(** [create_realm] *)
Definition create_realm (realm_id : EntryID) : rlM unit :=
  let certif := device_sign (dumps_realm_role (build_realm_root_certif device_id now realm_id)) in
  rep ← backend_cmds (cmd_realm_create certif);
  match rep with
  | RepError status =>
      if decide (status = "already_exists"%string) then mret tt else mthrow FSError
  | RepOk _ => mret tt
  end.

(** [_vlob_create], [_vlob_update] *)
Definition rl_vlob_create (encryption_revision : Z) (entry_id : EntryID) (ciphered : bytes)
    (timestamp : DateTime) : rlM unit :=
  rep ← backend_cmds (cmd_vlob_create workspace_id encryption_revision entry_id timestamp ciphered);
  match rep with
  | RepError status =>
      if decide (status = "already_exists"%string) then mthrow (FSRemoteSyncError entry_id)
      else if decide (status = "not_allowed"%string) then mthrow FSWorkspaceNoWriteAccess
      else if decide (status = "bad_encryption_revision"%string)
      then mthrow FSBadEncryptionRevision
      else if decide (status = "in_maintenance"%string) then mthrow FSWorkspaceInMaintenance
      else mthrow FSError
  | RepOk _ => mret tt
  end.
Definition rl_vlob_update (encryption_revision : Z) (entry_id : EntryID) (ciphered : bytes)
    (timestamp : DateTime) (version : Z) : rlM unit :=
  rep ← backend_cmds (cmd_vlob_update encryption_revision entry_id version timestamp ciphered);
  match rep with
  | RepError status =>
      if decide (status = "not_found"%string) then mthrow (FSRemoteSyncError entry_id)
      else if decide (status = "not_allowed"%string) then mthrow FSWorkspaceNoWriteAccess
      else if decide (status = "bad_version"%string) then mthrow (FSRemoteSyncError entry_id)
      else if decide (status = "bad_timestamp"%string) then mthrow FSBackendOfflineError
      else if decide (status = "bad_encryption_revision"%string)
      then mthrow FSBadEncryptionRevision
      else if decide (status = "in_maintenance"%string) then mthrow FSWorkspaceInMaintenance
      else mthrow FSError
  | RepOk _ => mret tt
  end.

(** [upload_manifest] *)
Definition upload_manifest (entry_id : EntryID) (manifest : RemoteManifest) : rlM unit :=
  _ ← raise_if (bool_decide (rm_author manifest ≠ device_id)) AssertionError;
  _ ← raise_if (negb (timestamps_in_the_ballpark (rm_timestamp manifest) now)) AssertionError;
  raw ← of_option FSError (dumps_manifest manifest);
  ciphered ← of_option FSError (secret_encrypt (we_key workspace_entry) (device_sign raw));
  if rm_version manifest =? 1 then
    rl_vlob_create (we_encryption_revision workspace_entry) entry_id ciphered
      (rm_timestamp manifest)
  else
    rl_vlob_update (we_encryption_revision workspace_entry) entry_id ciphered
      (rm_timestamp manifest) (rm_version manifest).
End loader.
