(* ===== verification/RemoteLoaderProofs.v ===== *)
(** What the devices manager and the remote loader keep true, and what they have
    checked when they return. *)

From S2P Require Import Prelude Triples Types ApiManifest Chunk Merging Storage Backend Certif.
From S2P Require Import BackendUser BackendRealm Trustchain TrustchainProperties RemoteDevices.
From S2P Require Import RemoteLoader.

Section loader.
Context `{CertifApi, LoaderApi} {Srv : Type} `{BackendCmds Srv}.
Context (verify_message : ∀ key signed raw,
  key_verify key signed = Some raw → raw = unsecure_unwrap signed).
Context (root : VerifyKey).

(** A trustchain of the organization whose root key is [root]. *)
Definition trust_ok (ctx : TrustchainContext) : Prop :=
  tc_root_verify_key ctx = root ∧ context_ok ctx.

(** ** The devices manager *)

Lemma load_user_and_devices_ok fuel us rs ds u r cs expected now :
  triple trust_ok (load_user_and_devices fuel us rs ds u r cs expected now)
    (λ x ctx, trust_ok ctx ∧ ∀ d, d ∈ x.2 → signed_device root d) (λ _, trust_ok).
Proof.
  intros ctx [Hroot Hok].
  destruct (load_user_and_devices _ _ _ _ _ _ _ _ _ ctx) as [ctx' res] eqn:Hrun.
  unfold load_user_and_devices in Hrun. minv Hrun. cbv beta in Hrun.
  apply bind_inv in Hrun as [(loaded & ctx1 & Hl & Hrun)|(e & Hl & ->)];
    unfold lift_result, load_result in Hl; cbn [id] in Hl;
    destruct (load_trustchain _ _ _ _ _ _) as [l|] eqn:El; [|done|done|].
  2:{ by injection Hl as <- <-. }
  injection Hl as <- <-.
  destruct (load_trustchain_facts verify_message _ _ _ _ _ _ _ Hok El)
    as (Hroot' & Hok' & _ & _ & _ & Hd & _).
  cbn in Hroot', Hd. rewrite Hroot in Hroot', Hd.
  assert (ctx' = lt_context l ∧ ∀ x, res = Ok x → x.2 = take (length cs) (lt_devices l)) as [-> Hx].
  { minv_all; repeat (case_match; minv_all); simplify_eq; naive_solver. }
  destruct res as [x|]; [|by split]. split; [by split|]. intros d Hin.
  rewrite (Hx _ eq_refl) in Hin. apply Hd.
  by apply elem_of_take in Hin as (i & Hi%list_elem_of_lookup_2 & _).
Qed.

Section manager.
Context (now : DateTime) (fuel : nat).

(** The manager keeps its trustchain right, and what it returns is verified. *)
Definition rdm_ok (s : TrustchainContext * Srv) : Prop := trust_ok s.1.

Lemma rdm_get_user_and_devices_ok u :
  triple rdm_ok (rdm_get_user_and_devices now fuel u)
    (λ x s, rdm_ok s ∧ ∀ d, d ∈ x.2 → signed_device root d) (λ _, rdm_ok).
Proof.
  intros [ctx srv] Hok. unfold rdm_get_user_and_devices, rdm_request, mbind, stM_bind. cbn.
  destruct (cmd_user_get u srv) as [srv' [[rep|st]| |]]; [|by case_decide|done..].
  unfold rdm_trustchain. cbn.
  pose proof (load_user_and_devices_ok fuel (elements (t_users (gu_trustchain rep)))
    (elements (t_revoked_users (gu_trustchain rep))) (elements (t_devices (gu_trustchain rep)))
    (gu_user_certificate rep) (gu_revoked_user_certificate rep) (gu_device_certificates rep)
    (Some u) now ctx Hok) as Hl.
  destruct (load_user_and_devices _ _ _ _ _ _ _ _ _ _) as [ctx' [x|[[]|]]]; cbn in Hl |- *; done.
Qed.

Lemma rdm_get_device_ok d no_cache :
  triple rdm_ok (rdm_get_device now fuel d no_cache)
    (λ x s, rdm_ok s ∧ dc_device_id x = d ∧ signed_device root x) (λ _, rdm_ok).
Proof.
  eapply triple_bind; [apply triple_gets|]. intros [x|].
  - apply triple_ret'. intros s [Hok Hx]. split; [done|]. destruct no_cache; [done|].
    symmetry in Hx. apply still_valid_Some in Hx as [t Ht].
    destruct Hok as [<- (_ & Hcd & _)]. by apply Hcd in Ht.
  - eapply triple_pre; [by intros s [? _]|].
    eapply triple_bind; [apply rdm_get_user_and_devices_ok|]. intros [[vu vr] ds]. cbn.
    eapply triple_post; [apply triple_of_option; by intros s [? _]|].
    intros x s [[Hok Hd] Hx]. split; [done|].
    destruct (list_find _ ds) as [[i y]|] eqn:Ef; [|done]. cbn in Hx. injection Hx as ->.
    apply list_find_Some in Ef as (Hi%list_elem_of_lookup_2 & Hy & _). auto.
Qed.
End manager.

(** ** The loader *)

Section ops.
Context (now : DateTime) (fuel : nat) (cache_size : Z) (device_id : DeviceID)
  (workspace_id : EntryID) (workspace_entry : WorkspaceEntry).

(** A role certificate that a device of the organization signed. *)
Definition signed_realm_role (c : RealmRoleCertificateContent) : Prop :=
  ∃ a raw, signed_device root a ∧ dc_device_id a = rr_author c ∧
    verify_realm_role_certificate raw (dc_verify_key a) (rr_author c) = Ok c.

(** Who may grant what: the first certificate is its author's own; a manager may
    change the roles below the ones of the managers, an owner all of them. *)
Definition client_may_grant (roles : gmap UserID RealmRole) (c : RealmRoleCertificateContent) : Prop :=
  (roles = ∅ ∧ rr_user_id c = user_id (rr_author c)) ∨
  roles !! user_id (rr_author c) = Some OWNER ∨
  (roles !! user_id (rr_author c) = Some MANAGER ∧
   role_in (roles !! rr_user_id c) owner_or_manager = false ∧
   role_in (rr_role c) owner_or_manager = false).

(** The histories of roles that are right, and the roles that they give. *)
Inductive role_history : list RealmRoleCertificateContent → gmap UserID RealmRole → Prop :=
  | role_history_nil : role_history [] ∅
  | role_history_snoc certifs roles c :
      role_history certifs roles → signed_realm_role c → client_may_grant roles c →
      (∀ x, x ∈ certifs → rr_timestamp x ≤ rr_timestamp c) →
      role_history (certifs ++ [c]) (client_apply_role roles c).

Definition loader_ok (s : Loader Srv) : Prop :=
  trust_ok (rl_trustchain s) ∧
  ∀ certifs, rl_realm_role_certificates_cache s = Some certifs →
    ∃ roles, role_history certifs roles.

Lemma client_needed_roles_may_grant roles c :
  bool_decide (roles !! user_id (rr_author c) ∉ client_needed_roles roles (rr_author c) c) = false →
  client_may_grant roles c.
Proof.
  intros Hb%bool_decide_eq_false%dec_stable. unfold client_needed_roles in Hb. unfold client_may_grant.
  destruct (bool_decide (roles = ∅) && _) eqn:E1.
  { apply andb_true_iff in E1 as [?%bool_decide_eq_true ?%bool_decide_eq_true]. auto. }
  destruct (role_in _ _ || _) eqn:E2; cbn in Hb.
  { rewrite elem_of_cons, elem_of_nil in Hb. naive_solver. }
  apply orb_false_iff in E2. rewrite !elem_of_cons, elem_of_nil in Hb. naive_solver.
Qed.

(** *** The calls on what the loader uses *)

Lemma backend_cmds_ok {A} (cmd : Srv → Srv * net (reply A)) :
  triple loader_ok (backend_cmds cmd) (λ _, loader_ok) (λ _, loader_ok).
Proof.
  intros s Hs. unfold backend_cmds. destruct (cmd (rl_server s)) as [srv [|  |]]; apply Hs.
Qed.
Lemma on_local_storage_ok {A} (m : stM Storage FSExn A) :
  triple loader_ok (on_local_storage (Srv := Srv) m) (λ _, loader_ok) (λ _, loader_ok).
Proof.
  intros s Hs. unfold on_local_storage. destruct (m (rl_storage s)) as [st [|]]; apply Hs.
Qed.
Lemma rl_get_device_ok d no_cache :
  triple loader_ok (rl_get_device now fuel d no_cache)
    (λ x s, loader_ok s ∧ dc_device_id x = d ∧ signed_device root x) (λ _, loader_ok).
Proof.
  intros s [Ht Hc]. unfold rl_get_device, on_devices_manager.
  pose proof (rdm_get_device_ok now fuel d no_cache (rl_trustchain s, rl_server s) Ht) as Hd.
  destruct (rdm_get_device _ _ _ _ _) as [[ctx srv] [x|e]]; cbn; [|done].
  destruct Hd as (? & ? & ?). done.
Qed.

(** None of them changes the certificates that the loader keeps. *)
Lemma backend_cmds_cache {A} (cmd : Srv → Srv * net (reply A)) s s' r :
  backend_cmds cmd s = (s', r) →
  rl_realm_role_certificates_cache s' = rl_realm_role_certificates_cache s ∧
  rl_realm_role_certificates_cache_timestamp s' = rl_realm_role_certificates_cache_timestamp s.
Proof. unfold backend_cmds. destruct (cmd _) as [srv [| |]]; by intros [= <- <-]. Qed.
Lemma rl_get_device_cache d no_cache (s s' : Loader Srv) r :
  rl_get_device now fuel d no_cache s = (s', r) →
  rl_realm_role_certificates_cache s' = rl_realm_role_certificates_cache s ∧
  rl_realm_role_certificates_cache_timestamp s' = rl_realm_role_certificates_cache_timestamp s.
Proof.
  unfold rl_get_device, on_devices_manager.
  destruct (rdm_get_device _ _ _ _ _) as [[ctx srv] [|]]; by intros [= <- <-].
Qed.

(** *** The roles *)

Lemma unsecure_load_realm_roles_elem certificates l c raw :
  unsecure_load_realm_roles certificates = Ok l → (c, raw) ∈ l →
  unsecure_load_realm_role raw = Ok c ∧ raw ∈ certificates.
Proof.
  revert l. induction certificates as [|b certificates IH]; cbn; intros l.
  { intros [= <-]. set_solver. }
  intros (c0 & Hc0 & Hl)%result_bind_Ok. apply result_bind_Ok in Hl as (l0 & Hl0 & [= <-]).
  intros [[= -> ->]|Hin]%elem_of_cons; [split; [done|by left]|].
  destruct (IH _ Hl0 Hin). split; [done|by right].
Qed.

Lemma verify_realm_roles_ok unsecure certifs roles :
  role_history certifs roles →
  (∀ c raw, (c, raw) ∈ unsecure → unsecure_load_realm_role raw = Ok c) →
  StronglySorted (λ x y, rr_timestamp x ≤ rr_timestamp y) (certifs ++ unsecure.*1) →
  triple loader_ok (verify_realm_roles now fuel unsecure roles)
    (λ roles' s, loader_ok s ∧ role_history (certifs ++ unsecure.*1) roles') (λ _, loader_ok).
Proof.
  revert certifs roles. induction unsecure as [|[c raw] unsecure IH]; cbn; intros certifs roles Hh Hl Hs.
  { apply triple_ret'. intros s Hok. by rewrite app_nil_r. }
  eapply triple_bind; [apply rl_get_device_ok|]. intros author.
  eapply triple_bind; [apply triple_lift_result; by intros s e [? _]|]. intros x.
  eapply triple_bind; [apply triple_raise_if; by intros s [[? _] _]|]. intros [].
  intros s [[(Hok & Hid & Hsig) Hv] Hn]. revert s Hok.
  destruct (verify_realm_role_certificate _ _ _) as [c'|] eqn:Ev; [|done].
  assert (c' = c ∧ rr_author c = dc_device_id author) as [-> Hau].
  { destruct (verify_and_load_Ok _ _ _ _ _ _ _ _ Ev) as (m & ->%verify_message & Hm & [= Ha] & _).
    specialize (Hl c raw ltac:(by left)). unfold unsecure_load_realm_role in Hl.
    rewrite Hl in Hm. by injection Hm as <-. }
  rewrite <-Hau in Hn, Ev. apply client_needed_roles_may_grant in Hn.
  replace (certifs ++ c :: unsecure.*1) with ((certifs ++ [c]) ++ unsecure.*1) in *
    by (by rewrite <-app_assoc).
  apply IH; [|intros ? ? Hin; apply Hl; by right|done].
  apply role_history_snoc; [done|exists author, raw; by rewrite Hau in *|done|].
  intros y Hy. apply StronglySorted_app_1_l in Hs.
  eapply StronglySorted_app_1_elem_of in Hs; [done|done|by apply list_elem_of_singleton].
Qed.

Lemma load_realm_roles_ok realm_id :
  triple loader_ok (load_realm_roles now fuel workspace_id realm_id)
    (λ x s, loader_ok s ∧ role_history x.1 x.2) (λ _, loader_ok).
Proof.
  eapply triple_bind; [apply backend_cmds_ok|]. intros [certificates|st].
  2:{ case_decide; by apply triple_throw. }
  eapply triple_bind; [by apply triple_lift_result|]. intros l.
  apply triple_pure. intros Hl.
  destruct (unsecure_load_realm_roles certificates) as [l'|] eqn:El; [|done]. injection Hl as ->.
  eapply triple_bind.
  { apply (verify_realm_roles_ok _ [] ∅); [constructor| |].
    - intros c raw Hin%elem_of_py_sorted. by eapply unsecure_load_realm_roles_elem in El as [??].
    - cbn. apply StronglySorted_fmap with (R1 := λ x y, certif_leb x y = true).
      + intros x y Hxy. by apply Z.leb_le.
      + apply py_sorted_sorted; unfold certif_leb; intros *; lia. }
  intros roles. by apply triple_ret'.
Qed.

(** The role of a user at a date is the one that the certificates up to this date
    give. *)
Definition roles_at (certifs : list RealmRoleCertificateContent) (timestamp : DateTime)
    : gmap UserID RealmRole :=
  foldl client_apply_role ∅ (filter (λ c, rr_timestamp c ≤ timestamp) certifs).
Lemma role_at_spec certifs u timestamp :
  role_at certifs u timestamp = roles_at certifs timestamp !! u.
Proof.
  unfold role_at, roles_at. induction certifs as [|c certifs IH] using rev_ind; [done|].
  rewrite reverse_snoc, filter_app, foldl_app. cbn [list_find].
  destruct (decide (rr_timestamp c ≤ timestamp)) as [Hle|Hle].
  - rewrite filter_cons_True, filter_nil by done. cbn [foldl]. unfold client_apply_role at 1.
    destruct (decide (rr_user_id c = u)) as [<-|Hu].
    + rewrite decide_True by done. destruct (rr_role c); [by rewrite lookup_insert_eq|by rewrite lookup_delete_eq].
    + rewrite decide_False by naive_solver.
      transitivity (foldl client_apply_role ∅ (filter (λ c, rr_timestamp c ≤ timestamp) certifs) !! u).
      * rewrite <-IH. destruct (list_find _ (reverse certifs)) as [[? ?]|]; done.
      * destruct (rr_role c); [by rewrite lookup_insert_ne|by rewrite lookup_delete_ne].
  - rewrite filter_cons_False, filter_nil by done. rewrite decide_False by naive_solver.
    cbn [foldl]. rewrite <-IH. destruct (list_find _ (reverse certifs)) as [[? ?]|]; done.
Qed.

(** The certificates that the loader keeps were loaded now, or after the date. *)
Definition fresh_roles (s s' : Loader Srv) (timestamp : DateTime) : Prop :=
  rl_realm_role_certificates_cache_timestamp s' = Some now ∨
  (rl_realm_role_certificates_cache s' = rl_realm_role_certificates_cache s ∧
   ∃ t, rl_realm_role_certificates_cache_timestamp s = Some t ∧ timestamp < t).

Lemma get_user_realm_role_at_ok u timestamp s s' r :
  loader_ok s → get_user_realm_role_at now fuel workspace_id u timestamp s = (s', r) →
  loader_ok s' ∧ ∀ role, r = Ok role →
    ∃ certifs roles, rl_realm_role_certificates_cache s' = Some certifs ∧
      role_history certifs roles ∧ role = roles_at certifs timestamp !! u ∧
      fresh_roles s s' timestamp.
Proof.
  intros Hok Hr. unfold get_user_realm_role_at in Hr.
  minv Hr. minv Hr. apply bind_inv in Hr as [(reload & s1 & Hrl & Hr)|(e & Hrl & ->)].
  2:{ repeat case_match; minv_all; naive_solver. }
  assert (s1 = s ∧ (reload = false →
    (∃ certifs, rl_realm_role_certificates_cache s = Some certifs) ∧
    ∃ t, rl_realm_role_certificates_cache_timestamp s = Some t ∧ timestamp < t)) as [-> Hrel].
  { clear Hr. destruct (rl_realm_role_certificates_cache s) as [[|c l]|]; minv_all; try done.
    split; [done|]. intros Hle. rewrite Z.leb_gt in Hle. eauto. }
  clear Hrl. destruct reload.
  - apply bind_inv in Hr as [([] & s1 & Hl & Hr)|(e & Hl & ->)].
    + apply bind_inv_Ok in Hl as ([certifs roles] & s2 & El & Hl).
      apply (triple_run _ _ _ _ _ _ _ (load_realm_roles_ok None) Hok) in El as [[Ht Hc] Hh].
      minv_all. cbn in Hh |- *. split; [by split; [|intros ? [= <-]; eauto]|].
      intros role [= <-]. exists certifs, roles. rewrite role_at_spec. split_and!; [done..|]. by left.
    + apply bind_inv in Hl as [([certifs roles] & s2 & El & Hl)|(e' & El & [= ->])].
      { by minv_all. }
      apply (triple_run _ _ _ _ _ _ _ (load_realm_roles_ok None) Hok) in El. naive_solver.
  - destruct (Hrel eq_refl) as [[certifs Hc] (t & Ht & Hlt)]. minv_all. split; [done|].
    intros role [= <-]. destruct Hok as [_ Hcache]. destruct (Hcache _ Hc) as [roles Hh].
    exists certifs, roles. rewrite Hc, role_at_spec. split_and!; [done..|]. right. eauto.
Qed.
End ops.
End loader.
