(* ===== verification/RemoteLoaderProperties.v ===== *)
(** The theorems on the remote loader. *)

From S2P Require Import Prelude Triples Types ApiManifest Chunk Merging Storage Backend Certif.
From S2P Require Import BackendUser BackendRealm Trustchain TrustchainProperties RemoteDevices.
From S2P Require Import RemoteLoader RemoteLoaderProofs.

Import Byte.

Section properties.
Context `{CertifApi, LoaderApi} {Srv : Type} `{BackendCmds Srv}.
Context (verify_message : ∀ key signed raw,
  key_verify key signed = Some raw → raw = unsecure_unwrap signed).
Context (root : VerifyKey) (now : DateTime) (fuel : nat) (workspace_id : EntryID)
  (workspace_entry : WorkspaceEntry).

Lemma decrypt_verify_and_load_manifest_Ok encrypted key vk author ts version id m :
  decrypt_verify_and_load_manifest encrypted key vk author ts (Some version) (Some id) = Ok m →
  rm_id m = id ∧ rm_version m = version ∧ rm_author m = author ∧ rm_timestamp m = ts ∧
  ∃ signed raw, secret_decrypt key encrypted = Some signed ∧ key_verify vk signed = Some raw ∧
    loads_manifest raw = Some m.
Proof.
  unfold decrypt_verify_and_load_manifest. destruct (secret_decrypt key encrypted) as [signed|]; [|done].
  intros (d & Hd & Hx)%result_bind_Ok.
  apply verify_and_load_Ok in Hd as (raw & Hraw & Hl & [= Ha] & Ht).
  case_bool_decide as Hi; [done|]. case_bool_decide as Hv; [done|]. injection Hx as ->.
  unfold loads in Hl. destruct (loads_manifest raw) eqn:Em; [|done].
  injection Hl as ->. split_and!; auto. exists signed, raw. auto.
Qed.

(** C4: [load_manifest] only returns a manifest of the entry and of the version
    and date that were asked for, that is encrypted with the key of the workspace
    and signed by a device at the end of a chain of signatures from the root key,
    whose user could write at the date of the manifest according to a history of
    role certificates that is right: each one signed by a device of the
    organization and granted by someone who could grant it then. That history was
    loaded at this call or after the date of the manifest. Whatever it gives or
    raises, the caches stay right. *)
Theorem load_manifest_sound entry_id version timestamp expected_timestamp (s s' : Loader Srv) r :
  loader_ok root s →
  rl_load_manifest now fuel workspace_id workspace_entry entry_id version timestamp expected_timestamp s
    = (s', r) →
  loader_ok root s' ∧ ∀ m, r = Ok m →
    rm_id m = entry_id ∧ (∀ v, version = Some v → rm_version m = v) ∧
    (∀ t, expected_timestamp = Some t → rm_timestamp m = t) ∧
    (∃ a blob signed raw, signed_device root a ∧ dc_device_id a = rm_author m ∧
       secret_decrypt (we_key workspace_entry) blob = Some signed ∧
       key_verify (dc_verify_key a) signed = Some raw ∧ loads_manifest raw = Some m) ∧
    ∃ certifs roles role, rl_realm_role_certificates_cache s' = Some certifs ∧
      role_history root certifs roles ∧
      roles_at certifs (rm_timestamp m) !! user_id (rm_author m) = Some role ∧ role ≠ READER ∧
      fresh_roles now s s' (rm_timestamp m).
Proof.
  intros Hok Hr. unfold rl_load_manifest in Hr. minv Hr; [|done].
  apply bind_inv in Hr as [(rep & s1 & Hrep & Hr)|(e & Hrep & ->)];
    pose proof (triple_run _ _ _ _ _ _ _ (backend_cmds_ok root _) Hok Hrep) as Hok1; [|done].
  apply backend_cmds_cache in Hrep.
  destruct rep as [[[[expected_version blob] author] ts]|st].
  2:{ by repeat (case_decide || minv_base Hr). }
  minv Hr; [|done]. minv Hr; [|done].
  apply bind_inv in Hr as [(a & s2 & Ha & Hr)|(e & Ha & ->)];
    pose proof (triple_run _ _ _ _ _ _ _ (rl_get_device_ok verify_message root now fuel _ _) Hok1 Ha)
      as Hok2; [|done].
  apply rl_get_device_cache in Ha. destruct Hok2 as (Hok2 & Hid & Hsig).
  apply bind_inv in Hr as [(m & s3 & Hm & Hr)|(e & Hm & ->)];
    unfold lift_result in Hm; injection Hm as <- Hm; [|done].
  apply bind_inv in Hr as [(role & s4 & Hrole & Hr)|(e & Hrole & ->)];
    apply (get_user_realm_role_at_ok verify_message root) in Hrole as [Hok4 Hroles]; try done.
  destruct (Hroles _ eq_refl) as (certifs & roles & Hcache & Hh & -> & Hfresh).
  unfold or_fs_error in Hm. destruct (decrypt_verify_and_load_manifest _ _ _ _ _ _ _) as [m0|] eqn:Em;
    [injection Hm as ->|done].
  apply decrypt_verify_and_load_manifest_Ok in Em as (? & ? & ? & ? & signed & raw & ? & ? & ?).
  destruct (roles_at certifs ts !! user_id author) as [role|] eqn:Erole; [|by minv_base Hr].
  assert (role ≠ READER → s' = s4 ∧ r = Ok m) as Hend by (intros; destruct role; by minv_base Hr).
  destruct (decide (role = READER)) as [->|Hne]; [by minv_base Hr|].
  destruct (Hend Hne) as [-> ->]. split; [done|]. intros ? [= <-]. subst.
  split_and!; [done| | | |].
  - intros v ->. cbn in *. by case_bool_decide.
  - intros t ->. cbn in *. by case_bool_decide.
  - exists a, blob, signed, raw. done.
  - exists certifs, roles, role. split_and!; [done..|].
    destruct Hfresh as [?|[Hf1 (t & Hf2 & Hf3)]]; [by left|right].
    destruct Hrep as [<- <-], Ha as [<- <-]. eauto.
Qed.
End properties.
