(* ===== verification/ClientServer.v ===== *)
(** The remote loader against the server of this library: the requests of the
    client run the handlers. The log of the roles of a realm, as every reachable
    state has it, and what the client makes of it. *)

From S2P Require Import Prelude Triples Types ApiManifest Chunk Merging Storage Backend Certif.
From S2P Require Import BackendUser BackendMessage BackendVlob BackendVlobProofs BackendRealm.
From S2P Require Import BlockStore BackendBlock BackendOrganization BackendSystem BackendVlobSpec.
From S2P Require Import BackendRealmSpec BackendGrowth Trustchain TrustchainProperties.
From S2P Require Import RemoteDevices RemoteLoader RemoteLoaderProofs.

Section client_server.
Context `{CertifApi}.

(** ** The requests *)

(** A handler that raises closes the connection. *)
Definition served {A} (m : backendM (reply A)) : Backend → Backend * net (reply A) := λ s,
  match m s with
  | (s', Ok rep) => (s', NetReply rep)
  | (s', Err _) => (s', NetNotAvailable)
  end.
Definition server_cmds (now : DateTime) (ctx : ClientCtx) : BackendCmds Backend := {|
  cmd_user_get u := served (api_user_get ctx u);
  cmd_realm_create certif := served (api_realm_create now ctx certif);
  cmd_realm_get_role_certificates realm_id :=
    served (api_realm_get_role_certificates ctx realm_id None);
  cmd_vlob_create realm_id rev vlob_id ts blob :=
    served (api_vlob_create now ctx realm_id rev vlob_id ts blob);
  cmd_vlob_read rev vlob_id version ts := served (api_vlob_read ctx rev vlob_id version ts);
  cmd_vlob_update rev vlob_id version ts blob :=
    served (api_vlob_update now ctx rev vlob_id version ts blob);
  cmd_vlob_list_versions vlob_id := served (api_vlob_list_versions ctx vlob_id);
  cmd_block_create block_id realm_id block := served (api_block_create ctx block_id realm_id block);
  cmd_block_read block_id := served (api_block_read ctx block_id) |}.

(** ** The log of the roles *)

(** The certificate that a record of the log was made of. *)
Definition certif_of (x : RealmGrantedRole) : RealmRoleCertificateContent :=
  mkRealmRoleCertificateContent (gr_granted_by x) (gr_granted_on x) (gr_realm_id x)
    (gr_user_id x) (gr_role x).
Definition certified (x : RealmGrantedRole) : Prop :=
  ∃ key, verify_realm_role_certificate (gr_certificate x) key (gr_granted_by x) = Ok (certif_of x).

(** The creator of a realm makes itself its owner; the others come with a right
    that the log gives to their author. *)
Inductive role_log (realm_id : UUID) : list RealmGrantedRole → Prop :=
  | role_log_create x :
      certified x → gr_realm_id x = realm_id → user_id (gr_granted_by x) = gr_user_id x →
      gr_role x = Some OWNER → role_log realm_id [x]
  | role_log_grant log x :
      role_log realm_id log → certified x → gr_realm_id x = realm_id →
      user_id (gr_granted_by x) ≠ gr_user_id x →
      may_grant (new_realm log) (user_id (gr_granted_by x)) x →
      role_of (new_realm log) (gr_user_id x) ≠ gr_role x → role_log realm_id (log ++ [x]).
Definition role_logs_ok (s : Backend) : Prop :=
  ∀ org realm_id r, be_realms s !! (org, realm_id) = Some r → role_log realm_id (r_granted_roles r).

Lemma role_of_granted_roles r log u :
  r_granted_roles r = log → role_of r u = role_of (new_realm log) u.
Proof. unfold role_of, realm_roles. by intros ->. Qed.

Lemma verify_realm_role_author c key author data :
  verify_realm_role_certificate c key author = Ok data → rr_author data = author.
Proof. by intros (_ & _ & _ & [= ?] & _)%verify_and_load_Ok. Qed.
(** The record comes from a certificate of [author], verified with [key]. *)
Definition verified_by (key : VerifyKey) (author : DeviceID) (x : RealmGrantedRole) : Prop :=
  gr_granted_by x = author ∧
  verify_realm_role_certificate (gr_certificate x) key author = Ok (certif_of x).
Lemma verified_by_certified key author x : verified_by key author x → certified x.
Proof. intros [<- Hv]. by exists key. Qed.
Lemma granted_role_of_verified c key author data :
  verify_realm_role_certificate c key author = Ok data → verified_by key author (granted_role_of c data).
Proof.
  intros Hd. split; [by apply verify_realm_role_author in Hd|]. cbn. rewrite Hd.
  by destruct data.
Qed.

(** The two handlers that write in the logs, with what they have checked. *)
Lemma api_realm_create_certified now ctx certificate s s' r :
  api_realm_create now ctx certificate s = (s', r) →
  s' = s ∨ ∃ x r', realm_create (cc_organization_id ctx) x s = (s', r') ∧
    verified_by (cc_verify_key ctx) (cc_device_id ctx) x.
Proof.
  unfold api_realm_create. case_bool_decide; [by intros [= <- _]; left|].
  destruct (verify_realm_role_certificate _ _ _) as [data|] eqn:E; [|by intros [= <- _]; left].
  destruct (negb _); [by intros [= <- _]; left|].
  case_bool_decide; [by intros [= <- _]; left|]. case_bool_decide; [by intros [= <- _]; left|].
  intros (r' & H' & _)%reply_of_inv. right. eexists _, r'. split; [done|].
  by eapply granted_role_of_verified.
Qed.
Lemma api_realm_update_roles_certified now ctx certificate message s s' r :
  api_realm_update_roles now ctx certificate message s = (s', r) →
  s' = s ∨ ∃ x r', update_roles (cc_organization_id ctx) x message s = (s', r') ∧
    user_id (gr_granted_by x) ≠ gr_user_id x ∧ verified_by (cc_verify_key ctx) (cc_device_id ctx) x.
Proof.
  unfold api_realm_update_roles.
  destruct (verify_realm_role_certificate _ _ _) as [data|] eqn:E; [|by intros [= <- _]; left].
  destruct (negb _); [by intros [= <- _]; left|].
  case_bool_decide; [by intros [= <- _]; left|].
  intros (r' & H' & _)%reply_of_inv. right. eexists _, r'. split_and!; [done|done|].
  by eapply granted_role_of_verified.
Qed.

Lemma role_logs_realms s s' : be_realms s' = be_realms s → role_logs_ok s → role_logs_ok s'.
Proof. intros E Hs org realm_id r. rewrite E. apply Hs. Qed.
Lemma role_logs_insert s s' org realm_id r' :
  be_realms s' = <[(org, realm_id) := r']> (be_realms s) → role_log realm_id (r_granted_roles r') →
  role_logs_ok s → role_logs_ok s'.
Proof.
  intros E Hr Hs org' realm_id' r. rewrite E. destruct (decide ((org', realm_id') = (org, realm_id))) as [[= -> ->]|].
  - rewrite lookup_insert_eq. by intros [= <-].
  - rewrite lookup_insert_ne by done. apply Hs.
Qed.

Lemma role_logs_step s s' :
  backend_ok s → backend_step s s' → role_logs_ok s → role_logs_ok s'.
Proof.
  intros Hs [now ctx msg r Hctx Hrun|now ctx c r Hctx Hrun|now ctx msg r Hctx Hrun|Hrun
    |now ctx c r Hctx Hrun|now ctx c m r Hctx Hrun|now now' ctx realm_id rev ts msgs r Hctx Hrun
    |ctx realm_id rev r Hctx Hrun|now ctx realm_id rev vlob_id ts blob r Hctx Hrun
    |now ctx rev vlob_id version ts blob r Hctx Hrun|ctx realm_id rev batch r Hctx Hrun
    |ctx block_id realm_id block r Hctx Hrun|token org date r Hrun|org date r Hrun
    |now org msg r Hrun] Hl.
  - apply api_user_create_runs in Hrun as [->|(user & d & r' & Hrun & _)]; [done|].
    apply create_user_inv in Hrun. cbn zeta in Hrun.
    by destruct (mem_users _ _ || _); destruct Hrun as [? ?]; subst.
  - apply api_user_revoke_runs in Hrun as [->|(u & on & r' & Hrun)]; [done|].
    by apply revoke_user_kept in Hrun as (_ & _ & ->).
  - apply api_device_create_runs in Hrun as [->|(d & r' & Hrun & _)]; [done|].
    by apply create_device_inv in Hrun as [[-> _]|(_ & _ & _ & ->)].
  - by destruct Hrun as [_ ->].
  - apply api_realm_create_certified in Hrun as [->|(x & r' & Hrun & Hc%verified_by_certified)]; [done|].
    apply realm_create_inv in Hrun as [[-> _]|(_ & Hself & Howner & _ & ->)]; [done|].
    eapply role_logs_insert; [done|by apply role_log_create|done].
  - apply api_realm_update_roles_certified in Hrun as [->|(x & r' & Hrun & Hne & Hc%verified_by_certified)]; [done|].
    apply update_roles_inv in Hrun
      as [[-> _]|(_ & user & realm & _ & _ & Hr & _ & Hg & Hnew & E)]; [done| |done].
    unfold same_but_messages in E. rewrite E.
    eapply role_logs_insert; [done| |done]. apply role_log_grant; [by eapply Hl|done..].
  - unfold api_realm_start_reencryption_maintenance in Hrun.
    destruct (negb _); [by injection Hrun as <- _|].
    apply reply_of_inv in Hrun as (r' & Hrun & _).
    apply start_inv in Hrun as [[-> _]|(_ & realm & Hr & _ & _ & _ & _ & _ & E)];
      [done| |apply Hs|apply Hs].
    unfold same_but_messages in E. rewrite E.
    eapply role_logs_insert; [done| |done]. exact (Hl _ _ _ Hr).
  - apply reply_of_inv in Hrun as (r' & Hrun & _).
    apply finish_inv in Hrun as [[-> _]|(_ & realm & re & Hr & _ & _ & _ & _ & _ & _ & E & _)];
      [done| |apply Hs].
    rewrite E. eapply role_logs_insert; [done| |done]. exact (Hl _ _ _ Hr).
  - unfold api_vlob_create in Hrun. destruct (negb _); [by injection Hrun as <- _|].
    apply reply_of_inv in Hrun as (r' & Hrun & _).
    by apply vlob_create_inv in Hrun as [[-> _]|(_ & _ & _ & ->)].
  - unfold api_vlob_update in Hrun. do 2 (destruct (negb _); [by injection Hrun as <- _|]).
    apply reply_of_inv in Hrun as (r' & Hrun & _).
    by apply vlob_update_inv in Hrun as [[-> _]|(_ & v & _ & _ & _ & _ & ->)].
  - unfold api_vlob_maintenance_save_reencryption_batch in Hrun.
    destruct (negb _); [by injection Hrun as <- _|].
    apply reply_of_inv in Hrun as (r' & Hrun & _).
    by apply save_reencryption_batch_inv in Hrun as [[-> _]|(_ & re & re' & _ & _ & ->)].
  - apply reply_of_inv in Hrun as (r' & Hrun & _).
    by apply create_block_inv in Hrun as [[-> _]|(_ & _ & _ & ->)].
  - apply reply_of_inv in Hrun as (r' & Hrun & _).
    by apply organization_create_inv in Hrun as [[-> _]|(_ & _ & ->)].
  - apply reply_of_inv in Hrun as (r' & Hrun & _).
    by apply set_expiration_date_inv in Hrun as [[-> _]|(_ & o & _ & ->)].
  - apply api_organization_bootstrap_runs in Hrun
      as [->|(user & d & token & key & r' & Hrun & _)]; [done|].
    apply organization_bootstrap_inv in Hrun as [[-> _]|(_ & o & s1 & _ & _ & _ & Hrun & ->)]; [done|].
    apply create_user_inv in Hrun. cbn zeta in Hrun.
    by destruct (mem_users _ _ || _); destruct Hrun as [? ?]; subst.
Qed.

Lemma reachable_role_logs s : reachable s → role_logs_ok s.
Proof.
  unfold reachable. intros Hr.
  assert (∀ s0, rtc backend_step s0 s → backend_ok s0 → role_logs_ok s0 → role_logs_ok s) as Hind.
  { induction 1 as [s1|s1 s2 s3 H1 H2 IH]; [done|]. intros Hok Hl.
    apply IH; [done|by eapply backend_step_ok|by eapply role_logs_step]. }
  eapply Hind; [exact Hr|apply backend_ok_empty|].
  intros org realm_id r. cbn. by rewrite lookup_empty.
Qed.

(** ** The signatures of the log *)

(** The server has this key in its certificate of the device. *)
Definition device_key (s : Backend) (org : OrganizationID) (id : DeviceID) (key : VerifyKey) : Prop :=
  ∃ device dc, find_device (orgstore s org) id = Some device ∧
    unsecure_load_device (d_device_certificate device) = Ok dc ∧ dc_verify_key dc = key.
(** The steps of a server whose clients that write roles have the key of their
    device, as the handshake gives it to them. *)
Inductive signed_step (s s' : Backend) : Prop :=
  | signed_create now ctx certificate r :
      ctx_ok s ctx → device_key s (cc_organization_id ctx) (cc_device_id ctx) (cc_verify_key ctx) →
      api_realm_create now ctx certificate s = (s', r) → signed_step s s'
  | signed_update now ctx certificate message r :
      ctx_ok s ctx → device_key s (cc_organization_id ctx) (cc_device_id ctx) (cc_verify_key ctx) →
      api_realm_update_roles now ctx certificate message s = (s', r) → signed_step s s'
  | signed_other :
      backend_step s s' →
      (∀ k, r_granted_roles <$> be_realms s' !! k = r_granted_roles <$> be_realms s !! k) →
      signed_step s s'.
Definition signed_reachable : Backend → Prop := rtc signed_step empty_backend.

Lemma signed_step_backend s s' : signed_step s s' → backend_step s s'.
Proof. destruct 1; [by eapply StepRealmCreate|by eapply StepRealmUpdateRoles|done]. Qed.
Lemma signed_reachable_reachable s : signed_reachable s → reachable s.
Proof. apply (rtc_subrel signed_step). exact signed_step_backend. Qed.
Lemma device_key_unique s org id key key' : device_key s org id key → device_key s org id key' → key = key'.
Proof. intros (d & dc & Hd & Hl & <-) (d' & dc' & Hd' & Hl' & <-). congruence. Qed.
Lemma device_key_grows s s' org id key : grows s s' → device_key s org id key → device_key s' org id key.
Proof. intros Hg (d & dc & Hd & Hl). exists d, dc. split; [by apply (gw_devices _ _ Hg)|done]. Qed.

(** The server has verified every record with the key that it has of its author. *)
Definition log_signed (s : Backend) (org : OrganizationID) (log : list RealmGrantedRole) : Prop :=
  ∀ x, x ∈ log → ∃ key, device_key s org (gr_granted_by x) key ∧
    verify_realm_role_certificate (gr_certificate x) key (gr_granted_by x) = Ok (certif_of x).
Definition logs_signed (s : Backend) : Prop :=
  ∀ org realm_id r, be_realms s !! (org, realm_id) = Some r → log_signed s org (r_granted_roles r).
Lemma log_signed_grows s s' org log : grows s s' → log_signed s org log → log_signed s' org log.
Proof.
  intros Hg Hl x Hx. destruct (Hl x Hx) as (key & Hk & Hv). exists key. split; [|done].
  by eapply device_key_grows.
Qed.
Lemma logs_signed_insert s s' org realm_id x log :
  grows s s' → logs_signed s → log_signed s org log →
  (∃ key, device_key s org (gr_granted_by x) key ∧ verified_by key (gr_granted_by x) x) →
  (∃ r', r_granted_roles r' = log ++ [x] ∧ be_realms s' = <[(org, realm_id) := r']> (be_realms s)) →
  logs_signed s'.
Proof.
  intros Hg Hs Hl (key & Hkey & _ & Hv) (r' & Hr' & E) org' realm' r. rewrite E. intros Hr.
  apply lookup_insert_Some in Hr as [([= <- <-] & <-)|(_ & Hr)];
    [|by eapply log_signed_grows, Hs].
  rewrite Hr'. apply (log_signed_grows s); [done|]. intros y [Hy| ->%list_elem_of_singleton]%elem_of_app; eauto.
Qed.
Lemma logs_signed_step s s' :
  backend_ok s → signed_step s s' → logs_signed s → logs_signed s'.
Proof.
  intros Hok Hstep Hs. pose proof (backend_step_grows _ _ Hok (signed_step_backend _ _ Hstep)) as Hg.
  destruct Hstep as [now ctx c r Hctx Hkey Hrun|now ctx c m r Hctx Hkey Hrun|_ Hkept].
  - apply api_realm_create_certified in Hrun as [->|(x & r' & Hrun & Hc)]; [done|].
    apply realm_create_inv in Hrun as [[-> _]|(_ & _ & _ & _ & E)]; [done|].
    pose proof (proj1 Hc) as Ha. rewrite <-Ha in Hkey, Hc.
    eapply (logs_signed_insert s _ _ _ x []); [done|done|by intros y ?%not_elem_of_nil|by eauto|].
    eexists. split; [|by rewrite E]. done.
  - apply api_realm_update_roles_certified in Hrun as [->|(x & r' & Hrun & Hne & Hc)]; [done|].
    apply update_roles_inv in Hrun
      as [[-> _]|(_ & user & realm & _ & _ & Hr & _ & _ & _ & E)]; [done| |done].
    unfold same_but_messages in E. pose proof (proj1 Hc) as Ha. rewrite <-Ha in Hkey, Hc.
    eapply (logs_signed_insert s _ _ _ x (r_granted_roles realm)); [done|done|by eapply Hs|by eauto|].
    eexists. split; [|by rewrite E]. done.
  - intros org realm_id r Hr. specialize (Hkept (org, realm_id)). rewrite Hr in Hkept. cbn in Hkept.
    symmetry in Hkept. apply fmap_Some in Hkept as (r0 & Hr0 & ->).
    by eapply log_signed_grows, Hs.
Qed.
Lemma signed_reachable_logs s : signed_reachable s → logs_signed s.
Proof.
  unfold signed_reachable. intros Hr.
  assert (∀ s0, rtc signed_step s0 s → backend_ok s0 → logs_signed s0 → logs_signed s) as Hind.
  { induction 1 as [s1|s1 s2 s3 H1 H2 IH]; [done|]. intros Hok Hl. apply IH; [done| |].
    - by eapply backend_step_ok, signed_step_backend.
    - by eapply logs_signed_step. }
  eapply Hind; [exact Hr|apply backend_ok_empty|].
  intros org realm_id r. cbn. by rewrite lookup_empty.
Qed.

(** ** The client on such a log *)

Lemma role_log_at realm_id log pre x post :
  role_log realm_id log → log = pre ++ x :: post →
  certified x ∧
  (pre = [] ∧ user_id (gr_granted_by x) = gr_user_id x ∨
   user_id (gr_granted_by x) ≠ gr_user_id x ∧ may_grant (new_realm pre) (user_id (gr_granted_by x)) x).
Proof.
  intros Hl. revert pre x post. induction Hl as [y Hc _ Hself _|log y Hl IH Hc _ Hne Hg _];
    intros pre x post E.
  - destruct pre as [|? [|]]; simplify_eq/=; auto.
  - destruct post as [|z post _] using rev_ind.
    + apply app_inj_tail in E as [-> ->]. auto.
    + rewrite app_comm_cons, app_assoc in E. apply app_inj_tail in E as [E _]. by eapply IH.
Qed.
Lemma replay_certif_of log roles :
  foldl client_apply_role roles (certif_of <$> log) = foldl apply_role roles log.
Proof. revert roles. induction log as [|x log IH]; intros roles; [done|apply IH]. Qed.

Definition by_date (x y : RealmGrantedRole) : Prop := gr_granted_on x ≤ gr_granted_on y.
Lemma py_sorted_by_date log : StronglySorted by_date log → py_sorted granted_leb log = log.
Proof.
  intros Hs. apply py_sorted_id; unfold granted_leb; [intros *; lia..|].
  induction Hs as [|x log _ IH Hx]; constructor; [done|].
  eapply Forall_impl; [exact Hx|]. intros y Hxy. by apply Z.leb_le.
Qed.
Lemma role_of_by_date log u :
  StronglySorted by_date log → role_of (new_realm log) u = foldl apply_role ∅ log !! u.
Proof.
  intros Hs. unfold role_of, realm_roles. cbn [r_granted_roles new_realm]. rewrite py_sorted_by_date; done.
Qed.

(** What the log grants, the client accepts. *)
Lemma log_accepted realm_id log pre x post :
  role_log realm_id log → StronglySorted by_date log → log = pre ++ x :: post →
  bool_decide (foldl apply_role ∅ pre !! user_id (gr_granted_by x)
    ∉ client_needed_roles (foldl apply_role ∅ pre) (gr_granted_by x) (certif_of x)) = false.
Proof.
  intros Hl Hs ->. destruct (role_log_at _ _ _ _ _ Hl eq_refl) as [_ Hx].
  apply StronglySorted_app_1_l in Hs. apply bool_decide_eq_false_2. intros Hn. apply Hn. clear Hn.
  unfold client_needed_roles. cbn [rr_user_id rr_role certif_of].
  destruct Hx as [[-> Hself]|[Hne (role & Hr & Hin)]].
  - cbn [foldl]. rewrite !bool_decide_true by done. cbn. by left.
  - rewrite (bool_decide_eq_false_2 (gr_user_id x = _)) by done. rewrite andb_false_r.
    rewrite !role_of_by_date in Hr, Hin by done. rewrite Hr. unfold needed_roles in Hin.
    destruct (role_in _ _ || _); by apply list_elem_of_fmap_2.
Qed.

Section client.
Context `{LoaderApi}.
Context (verify_message : ∀ key signed raw,
  key_verify key signed = Some raw → raw = unsecure_unwrap signed).
Context (now : DateTime) (fuel : nat) (ctx : ClientCtx).
#[local] Existing Instance server_cmds.
Abbreviation cmds := (server_cmds now ctx).

(** The client has the devices of the authors of a log in its cache. *)
Definition authors_cached (trustchain : TrustchainContext) (log : list RealmGrantedRole) : Prop :=
  ∀ x, x ∈ log → ∃ d, tc_get_device trustchain (gr_granted_by x) now = Some d ∧
    dc_device_id d = gr_granted_by x ∧
    verify_realm_role_certificate (gr_certificate x) (dc_verify_key d) (gr_granted_by x)
      = Ok (certif_of x).

(** It has devices with the keys that the server knows: those that it loaded from the
    certificates of the server, redacted or not. *)
Definition authors_known (s : Loader Backend) (log : list RealmGrantedRole) : Prop :=
  ∀ x, x ∈ log → ∃ d, tc_get_device (rl_trustchain s) (gr_granted_by x) now = Some d ∧
    dc_device_id d = gr_granted_by x ∧
    device_key (rl_server s) (cc_organization_id ctx) (gr_granted_by x) (dc_verify_key d).
Lemma authors_known_cached (s : Loader Backend) log :
  log_signed (rl_server s) (cc_organization_id ctx) log → authors_known s log →
  authors_cached (rl_trustchain s) log.
Proof.
  intros Hl Hd x Hx. destruct (Hl x Hx) as (key & Hk & Hv), (Hd x Hx) as (d & Hget & Hid & Hk').
  exists d. by rewrite (device_key_unique _ _ _ _ _ Hk' Hk).
Qed.

Lemma rl_get_device_cached (s : Loader Backend) id d :
  tc_get_device (rl_trustchain s) id now = Some d →
  rl_get_device (H1 := cmds) now fuel id false s = (s, Ok d).
Proof.
  intros Hd. unfold rl_get_device, on_devices_manager, rdm_get_device, gets, mbind, stM_bind. cbn.
  rewrite Hd. by destruct s.
Qed.

Lemma verify_realm_roles_log realm_id log pre post (s : Loader Backend) :
  role_log realm_id log → StronglySorted by_date log → authors_cached (rl_trustchain s) log →
  log = pre ++ post →
  verify_realm_roles (H1 := cmds) now fuel ((λ x, (certif_of x, gr_certificate x)) <$> post)
    (foldl apply_role ∅ pre) s = (s, Ok (foldl apply_role ∅ log)).
Proof.
  intros Hl Hs Hd. revert pre. induction post as [|x post IH]; intros pre ->.
  { by rewrite app_nil_r. }
  cbn [fmap list_fmap verify_realm_roles].
  destruct (Hd x) as (d & Hget & Hid & Hver); [set_solver|].
  rewrite (bind_Ok _ _ s s d) by (by apply rl_get_device_cached). cbv beta.
  rewrite Hid, Hver. rewrite (bind_Ok _ _ s s (certif_of x)) by done. cbv beta zeta.
  rewrite (bind_Ok _ _ s s tt).
  2:{ cbn [rr_author certif_of]. by erewrite log_accepted. }
  cbv beta. replace (client_apply_role (foldl apply_role ∅ pre) (certif_of x))
    with (foldl apply_role ∅ (pre ++ [x])) by (by rewrite foldl_app).
  rewrite (IH (pre ++ [x])); [done|by rewrite <-app_assoc].
Qed.

(** The client is given the log and computes the roles of the server. *)
Lemma load_realm_roles_log (s : Loader Backend) realm_id r workspace_id :
  be_realms (rl_server s) !! (cc_organization_id ctx, realm_id) = Some r →
  has_role r (cc_user_id ctx) = true →
  role_log realm_id (r_granted_roles r) → StronglySorted by_date (r_granted_roles r) →
  authors_cached (rl_trustchain s) (r_granted_roles r) →
  load_realm_roles (H1 := cmds) now fuel workspace_id (Some realm_id) s
    = (s, Ok (certif_of <$> r_granted_roles r, realm_roles r)).
Proof.
  intros Hr Hrole Hl Hs Hd. unfold load_realm_roles. cbn [default].
  rewrite (bind_Ok _ _ s s (RepOk (gr_certificate <$> r_granted_roles r))).
  2:{ unfold backend_cmds, served, cmd_realm_get_role_certificates, server_cmds. cbn.
      unfold served, api_realm_get_role_certificates, reply_of, try_catch, get_role_certificates,
        get_realm, of_option, gets, raise_if, mbind, stM_bind.
      rewrite Hr. unfold cc_user_id in Hrole. rewrite Hrole. cbn. by destruct s. }
  cbv beta.
  assert (unsecure_load_realm_roles (gr_certificate <$> r_granted_roles r)
    = Ok ((λ x, (certif_of x, gr_certificate x)) <$> r_granted_roles r)) as Hload.
  { clear Hl Hs. induction (r_granted_roles r) as [|x log IH]; [done|]. cbn.
    destruct (Hd x) as (d & _ & _ & Hv); [by left|].
    apply verify_and_load_Ok in Hv as (raw & ->%verify_message & Hraw & _).
    unfold unsecure_load_realm_role. rewrite Hraw. cbn. rewrite IH; [done|].
    intros y Hy. apply Hd. by right. }
  rewrite Hload. rewrite (bind_Ok _ _ s s _ eq_refl). cbv beta zeta.
  rewrite py_sorted_id; [|unfold certif_leb; intros *; lia..|].
  2:{ apply StronglySorted_fmap with (R1 := by_date); [|done]. intros x y Hxy. by apply Z.leb_le. }
  rewrite (bind_Ok _ _ s s (foldl apply_role ∅ (r_granted_roles r))).
  2:{ by apply (verify_realm_roles_log realm_id (r_granted_roles r) [] (r_granted_roles r)). }
  cbv beta. rewrite <-list_fmap_compose.
  unfold realm_roles. rewrite py_sorted_by_date; done.
Qed.
End client.
(** ** A manifest that is uploaded *)

Section upload.
Context `{LoaderApi}.
Context (now : DateTime) (ctx : ClientCtx).
#[local] Existing Instance server_cmds.
Abbreviation cmds := (server_cmds now ctx).
Abbreviation org := (cc_organization_id ctx).

Lemma backend_cmds_served {A} (m : backendM (reply A)) (s s' : Loader Backend) r :
  backend_cmds (served m) s = (s', Ok r) →
  m (rl_server s) = (rl_server s', Ok r) ∧ s' = mkLoader (rl_server s') (rl_trustchain s)
    (rl_storage s) (rl_realm_role_certificates_cache s) (rl_realm_role_certificates_cache_timestamp s).
Proof.
  unfold backend_cmds, served. destruct (m (rl_server s)) as [srv [rep|e]]; [|done].
  by intros [= <- <-].
Qed.

(** What the upload leaves on the server: the entry has a new last version. *)
Definition uploaded (s s' : Backend) (realm_id vlob_id : UUID) (rev version : Z) (blob : bytes)
    (ts : DateTime) : Prop :=
  access_granted s org realm_id (cc_user_id ctx) can_write_roles false ∧
  revision_is s org realm_id rev ∧ be_realms s' = be_realms s ∧
  ∃ v, vlob_at s' org vlob_id = Some v ∧ v_realm_id v = realm_id ∧ current_version v = version ∧
    last (v_data v) = Some (blob, cc_device_id ctx, ts).

Lemma rl_vlob_create_uploaded realm_id rev vlob_id blob ts (s s' : Loader Backend) :
  rl_vlob_create (H1 := cmds) realm_id rev vlob_id blob ts s = (s', Ok tt) →
  uploaded (rl_server s) (rl_server s') realm_id vlob_id rev 1 blob ts.
Proof.
  intros Hr. apply bind_inv_Ok in Hr as (rep & s1 & [Hm _]%backend_cmds_served & Hr).
  destruct rep as [[]|st]; [|by repeat (case_decide || minv_base Hr)]. minv_base Hr.
  unfold api_vlob_create in Hm. destruct (negb _); [done|].
  apply reply_of_inv in Hm as (r' & Hm & Er). rewrite vlob_create_eq in Hm.
  destruct (vlob_create_refusal _ _ _ _ _ _) as [e|] eqn:Eref.
  { injection Hm as _ <-. by case_match. }
  injection Hm as <- _. unfold vlob_create_refusal in Eref.
  destruct (vlob_refusal _ _ _ _ _ _ _) eqn:Ev; [done|].
  apply vlob_refusal_None in Ev as [Hacc Hrev].
  split_and!; [done|by apply Hrev|done|]. eexists. rewrite vlob_at_written, decide_True by done.
  done.
Qed.
Lemma rl_vlob_update_uploaded realm_id rev vlob_id blob ts version (s s' : Loader Backend) :
  (∀ v, vlob_at (rl_server s) org vlob_id = Some v → v_realm_id v = realm_id ∧ v_data v ≠ []) →
  rl_vlob_update (H1 := cmds) rev vlob_id blob ts version s = (s', Ok tt) →
  uploaded (rl_server s) (rl_server s') realm_id vlob_id rev version blob ts.
Proof.
  intros Hv Hr. apply bind_inv_Ok in Hr as (rep & s1 & [Hm _]%backend_cmds_served & Hr).
  destruct rep as [[]|st]; [|by repeat (case_decide || minv_base Hr)]. minv_base Hr.
  unfold api_vlob_update in Hm. do 2 (destruct (negb _); [done|]).
  apply reply_of_inv in Hm as (r' & Hm & Er).
  destruct (vlob_at (rl_server s) org vlob_id) as [v|] eqn:Ev.
  2:{ apply vlob_update_inv in Hm as [[_ (e & ->)]|(_ & v & Hg & _)]; [by case_match|].
      unfold vlob_at in Ev. congruence. }
  destruct (Hv v eq_refl) as [Hrealm Hne]. erewrite vlob_update_eq in Hm by done.
  destruct (vlob_update_refusal _ _ _ _ _ _ _) as [e|] eqn:Eref.
  { injection Hm as _ <-. by case_match. }
  injection Hm as <- _. unfold vlob_update_refusal in Eref.
  destruct (vlob_refusal _ _ _ _ _ _ _) eqn:Ev'; [done|].
  apply vlob_refusal_None in Ev' as [Hacc Hrev]. rewrite Hrealm in *.
  case_bool_decide as Hver; [done|].
  split_and!; [done|by apply Hrev|done|]. eexists. rewrite vlob_at_written, decide_True by done.
  split_and!; [done|done| |cbn [v_data]; by rewrite last_snoc].
  unfold current_version in *. cbn. rewrite length_app. cbn. lia.
Qed.

Lemma upload_manifest_uploaded workspace_id w entry m (s s' : Loader Backend) :
  (∀ v, vlob_at (rl_server s) org entry = Some v → v_realm_id v = workspace_id ∧ v_data v ≠ []) →
  upload_manifest (H1 := cmds) now (cc_device_id ctx) workspace_id w entry m s = (s', Ok tt) →
  rm_author m = cc_device_id ctx ∧
  ∃ raw blob, dumps_manifest m = Some raw ∧
    secret_encrypt (we_key w) (device_sign raw) = Some blob ∧
    uploaded (rl_server s) (rl_server s') workspace_id entry (we_encryption_revision w)
      (rm_version m) blob (rm_timestamp m).
Proof.
  intros Hv Hr. unfold upload_manifest in Hr. minv Hr. minv Hr. minv Hr. minv Hr.
  apply bool_decide_eq_false, dec_stable in Hc. split; [done|].
  do 2 eexists. split_and!; [done|done|].
  destruct (rm_version m =? 1) eqn:Ever.
  - apply Z.eqb_eq in Ever as ->. by apply rl_vlob_create_uploaded.
  - by apply rl_vlob_update_uploaded.
Qed.
End upload.
(** ** A manifest that is downloaded *)

Section download.
Context `{LoaderApi}.
Context (verify_message : ∀ key signed raw,
  key_verify key signed = Some raw → raw = unsecure_unwrap signed).
Context (now : DateTime) (fuel : nat) (ctx : ClientCtx).
#[local] Existing Instance server_cmds.
Abbreviation cmds := (server_cmds now ctx).
Abbreviation org := (cc_organization_id ctx).

Lemma vlob_read_last (s : Backend) vlob_id v blob author ts rev :
  vlob_at s org vlob_id = Some v → last (v_data v) = Some (blob, author, ts) →
  access_granted s org (v_realm_id v) (cc_user_id ctx) can_read_roles false →
  revision_is s org (v_realm_id v) rev →
  api_vlob_read ctx rev vlob_id None None s
    = (s, Ok (RepOk (current_version v, blob, author, ts))).
Proof.
  intros Hv Hl Hacc Hrev. unfold api_vlob_read. cbn [negb].
  erewrite reply_of_eq by apply vlob_read_eq. rewrite Hv.
  replace (vlob_refusal s org (v_realm_id v) (user_id (cc_device_id ctx)) (Some rev) can_read_roles false)
    with (@None BackendExn).
  2:{ symmetry. apply vlob_refusal_None. split; [done|]. by intros n [= <-]. }
  unfold vlob_read_answer, wanted_version, current_version.
  rewrite py_index_last, Hl; [done|]. by intros E; rewrite E in Hl.
Qed.

(** The role of a user once all the certificates of the log are dated. *)
Lemma roles_at_log log ts u :
  StronglySorted by_date log → (∀ x, x ∈ log → gr_granted_on x ≤ ts) →
  roles_at (certif_of <$> log) ts !! u = role_of (new_realm log) u.
Proof.
  intros Hs Hts. rewrite role_of_by_date by done. unfold roles_at.
  rewrite <-replay_certif_of. f_equal. f_equal.
  clear Hs. induction log as [|x log IH]; [done|].
  rewrite fmap_cons, filter_cons_True by (apply Hts; by left). rewrite IH; [done|].
  intros y Hy. apply Hts. by right.
Qed.

Lemma get_user_realm_role_at_log (s : Loader Backend) realm_id r u ts :
  rl_realm_role_certificates_cache s = None →
  be_realms (rl_server s) !! (org, realm_id) = Some r →
  has_role r (cc_user_id ctx) = true →
  role_log realm_id (r_granted_roles r) → StronglySorted by_date (r_granted_roles r) →
  authors_cached now (rl_trustchain s) (r_granted_roles r) →
  (∀ x, x ∈ r_granted_roles r → gr_granted_on x ≤ ts) →
  get_user_realm_role_at (H1 := cmds) now fuel realm_id u ts s
    = (set_role_cache (certif_of <$> r_granted_roles r) now s, Ok (role_of r u)).
Proof.
  intros Hcache Hr Hrole Hl Hs Hd Hts. unfold get_user_realm_role_at.
  rewrite (bind_Ok _ _ s s None) by (unfold gets; by rewrite Hcache). cbv beta iota.
  rewrite (bind_Ok _ _ s s _ eq_refl). cbv beta. rewrite (bind_Ok _ _ s s true eq_refl). cbv beta iota.
  rewrite (bind_Ok _ _ s (set_role_cache (certif_of <$> r_granted_roles r) now s) tt).
  2:{ rewrite (bind_Ok _ _ s s (certif_of <$> r_granted_roles r, realm_roles r)); [done|].
      exact (load_realm_roles_log verify_message now fuel ctx s realm_id r realm_id
               Hr Hrole Hl Hs Hd). }
  cbv beta. unfold gets, mbind, stM_bind, mret, stM_ret.
  cbn [set_role_cache rl_realm_role_certificates_cache default]. unfold id.
  by rewrite role_at_spec, roles_at_log.
Qed.
End download.
End client_server.
