(* ===== verification/ClientServerExample.v ===== *)
(** A run of the server with two clients, with signatures of 64 bytes as libsodium's
    are: an administrator and a second user who share a realm, and a third user.
    The theorems on the clients and the server are tried on it. *)

From S2P Require Import Prelude Types ApiManifest Chunk Merging Storage Backend Certif BackendUser.
From S2P Require Import BackendMessage BackendVlob BackendRealm BlockStore BackendBlock.
From S2P Require Import BackendOrganization BackendSystem Trustchain TrustchainProperties.
From S2P Require Import RemoteDevices RemoteLoader RemoteLoaderProofs ClientServer.

Import Byte.

Definition cs_alice : DeviceID := mkDeviceID "alice" "laptop".
Definition cs_bob : DeviceID := mkDeviceID "bob" "laptop".
Definition cs_root_key : VerifyKey := [x52].
Definition cs_alice_key : VerifyKey := [x41].
Definition cs_bob_key : VerifyKey := [x42].
Definition cs_handle (name : string) : option HumanHandle :=
  Some (mkHumanHandle (name +:+ "@example.org") name).

(** A key is one byte and a signature 64 times this byte. *)
Definition cs_sign (key : byte) (raw : bytes) : bytes := replicate 64 key ++ raw.
#[export] Instance cs_certif : CertifApi := {|
  key_verify key signed :=
    match key with
    | [b] => if bool_decide (take 64 signed = replicate 64 b) then Some (drop 64 signed) else None
    | _ => None
    end;
  loads_user raw :=
    match raw with
    | [x01] => Some (mkUserCertificateFields None 0 "alice" (cs_handle "alice") [x61] true None)
    | [x02] => Some (mkUserCertificateFields None 0 "alice" None [x61] true None)
    | [x05] => Some (mkUserCertificateFields (Some cs_alice) 1 "bob" (cs_handle "bob") [x62] false None)
    | [x06] => Some (mkUserCertificateFields (Some cs_alice) 1 "bob" None [x62] false None)
    | _ => None
    end;
  loads_revoked_user _ := None;
  loads_device raw :=
    match raw with
    | [x03] => Some (mkDeviceCertificateContent None 0 cs_alice (Some "desk"%string) cs_alice_key)
    | [x04] => Some (mkDeviceCertificateContent None 0 cs_alice None cs_alice_key)
    | [x07] => Some (mkDeviceCertificateContent (Some cs_alice) 1 cs_bob (Some "desk"%string) cs_bob_key)
    | [x08] => Some (mkDeviceCertificateContent (Some cs_alice) 1 cs_bob None cs_bob_key)
    | _ => None
    end;
  loads_realm_role raw :=
    match raw with
    | [x09] => Some (build_realm_root_certif cs_alice 2 1%N)
    | [x0a] => Some (mkRealmRoleCertificateContent cs_alice 3 1%N "bob" (Some READER))
    | [x0e] => Some (mkRealmRoleCertificateContent cs_alice 3 1%N "bob" (Some OWNER))
    | [x0f] => Some (mkRealmRoleCertificateContent cs_bob 1 1%N "alice" None)
    | [x10] => Some (build_realm_root_certif cs_bob 2 2%N)
    | _ => None
    end |}.

Lemma cs_message key signed raw : key_verify key signed = Some raw → raw = unsecure_unwrap signed.
Proof.
  cbn. destruct key as [|b [|]]; [done| |done]. case_bool_decide; [|done]. by intros [= <-].
Qed.

(** A manifest, its bytes, and the cipher: the key in front of the data. *)
Definition cs_manifest (author : DeviceID) : RemoteManifest :=
  RWorkspace (mkWorkspaceManifest author 5 1%N 1 5 5 ∅).
Definition cs_loader (key : byte) : LoaderApi := {|
  secret_decrypt k c :=
    if bool_decide (take (length k) c = k) then Some (drop (length k) c) else None;
  secret_encrypt k p := Some (k ++ p);
  hash_digest b := b;
  device_sign := cs_sign key;
  loads_manifest raw :=
    match raw with
    | [x70] => Some (cs_manifest cs_alice)
    | [x71] => Some (cs_manifest cs_bob)
    | _ => None
    end;
  dumps_manifest m :=
    if decide (m = cs_manifest cs_alice) then Some [x70]
    else if decide (m = cs_manifest cs_bob) then Some [x71] else None;
  dumps_realm_role _ := [] |}.
Definition cs_key : SecretKey := [x6b; x6b].

Definition cs_alice_ctx : ClientCtx := mkClientCtx "org" cs_alice ADMIN cs_alice_key.
Definition cs_bob_ctx : ClientCtx := mkClientCtx "org" cs_bob STANDARD cs_bob_key.

(** The states of the server: [cs_shared] has the realm 1 where Bob is a reader,
    [cs_owners] the same realm where he is an owner, [cs_removed] is what follows
    when he removes Alice with a certificate older than the realm. *)
Definition cs_created := (api_organization_create "token" "org" None empty_backend).1.
Definition cs_bootstrapped :=
  (api_organization_bootstrap 0 "org"
     (mkOrganizationBootstrapReq "token" cs_root_key (cs_sign x52 [x01]) (cs_sign x52 [x03])
        (Some (cs_sign x52 [x02])) (Some (cs_sign x52 [x04]))) cs_created).1.
Definition cs_users :=
  (api_user_create 1 cs_alice_ctx
     (mkUserCreateReq (cs_sign x41 [x05]) (cs_sign x41 [x07]) (cs_sign x41 [x06])
        (cs_sign x41 [x08])) cs_bootstrapped).1.
Definition cs_realm := (api_realm_create 2 cs_alice_ctx (cs_sign x41 [x09]) cs_users).1.
Definition cs_shared := (api_realm_update_roles 3 cs_alice_ctx (cs_sign x41 [x0a]) None cs_realm).1.
Definition cs_owners := (api_realm_update_roles 3 cs_alice_ctx (cs_sign x41 [x0e]) None cs_realm).1.
Definition cs_removed := (api_realm_update_roles 4 cs_bob_ctx (cs_sign x42 [x0f]) None cs_owners).1.

Lemma cs_ctx_ok s ctx :
  bool_decide (u_profile <$> os_users (orgstore s (cc_organization_id ctx)) !! cc_user_id ctx
    = Some (cc_profile ctx)) &&
  bool_decide (is_Some (find_device (orgstore s (cc_organization_id ctx)) (cc_device_id ctx))) = true →
  ctx_ok s ctx.
Proof.
  intros [H%bool_decide_eq_true Hd%bool_decide_eq_true]%andb_true_iff. unfold ctx_ok.
  destruct (os_users _ !! _) as [u|]; [|done]. exists u. by injection H as <-.
Qed.

Lemma cs_realm_reachable : reachable cs_realm.
Proof.
  eapply rtc_r; [eapply rtc_r; [eapply rtc_r; [apply rtc_once|]|]|].
  - eapply (StepOrganizationCreate _ cs_created), surjective_pairing.
  - eapply (StepOrganizationBootstrap _ cs_bootstrapped), surjective_pairing.
  - eapply (StepUserCreate _ cs_users), surjective_pairing. apply cs_ctx_ok. by vm_compute.
  - eapply (StepRealmCreate _ cs_realm), surjective_pairing. apply cs_ctx_ok. by vm_compute.
Qed.
Lemma cs_shared_reachable : reachable cs_shared.
Proof.
  eapply rtc_r; [exact cs_realm_reachable|].
  eapply (StepRealmUpdateRoles _ cs_shared), surjective_pairing. apply cs_ctx_ok. by vm_compute.
Qed.
(** The same with clients that have the key of their device. *)
Lemma cs_key_ok s org id key :
  match find_device (orgstore s org) id with
  | Some device =>
      match unsecure_load_device (d_device_certificate device) with
      | Ok dc => bool_decide (dc_verify_key dc = key)
      | Err _ => false
      end
  | None => false
  end = true → device_key s org id key.
Proof.
  intros Hk. destruct (find_device _ _) as [d|] eqn:Hd; [|done].
  destruct (unsecure_load_device _) as [dc|] eqn:Hl; [|done]. apply bool_decide_eq_true in Hk.
  by exists d, dc.
Qed.
Lemma cs_no_realm s s' : be_realms s' = ∅ → be_realms s = ∅ →
  ∀ k, r_granted_roles <$> be_realms s' !! k = r_granted_roles <$> be_realms s !! k.
Proof. by intros -> ->. Qed.
Lemma cs_shared_signed : signed_reachable cs_shared.
Proof.
  eapply rtc_r; [eapply rtc_r; [eapply rtc_r; [eapply rtc_r; [apply rtc_once|]|]|]|].
  - apply (signed_other _ cs_created); [eapply StepOrganizationCreate, surjective_pairing|].
    apply cs_no_realm; by vm_compute.
  - apply (signed_other _ cs_bootstrapped); [eapply StepOrganizationBootstrap, surjective_pairing|].
    apply cs_no_realm; by vm_compute.
  - apply (signed_other _ cs_users).
    + eapply StepUserCreate, surjective_pairing. apply cs_ctx_ok. by vm_compute.
    + apply cs_no_realm; by vm_compute.
  - eapply (signed_create _ cs_realm), surjective_pairing;
      [apply cs_ctx_ok|apply cs_key_ok]; by vm_compute.
  - eapply (signed_update _ cs_shared), surjective_pairing;
      [apply cs_ctx_ok|apply cs_key_ok]; by vm_compute.
Qed.
Lemma cs_owners_reachable : reachable cs_owners.
Proof.
  eapply rtc_r; [exact cs_realm_reachable|].
  eapply (StepRealmUpdateRoles _ cs_owners), surjective_pairing. apply cs_ctx_ok. by vm_compute.
Qed.
Lemma cs_removed_reachable : reachable cs_removed.
Proof.
  eapply rtc_r; [exact cs_owners_reachable|].
  eapply (StepRealmUpdateRoles _ cs_removed), surjective_pairing. apply cs_ctx_ok. by vm_compute.
Qed.

(** A loader that has just started, on a server. *)
Definition empty_storage : Storage := mkStorage ∅ ∅ ∅ None ∅ ∅ 0 ∅ 0.
Definition cs_start (server : Backend) (trustchain : TrustchainContext) : Loader Backend :=
  mkLoader server trustchain empty_storage None None.
Definition cs_trustchain : TrustchainContext := new_trustchain_context cs_root_key.
(** The workspace of the realm 1. *)
Definition cs_entry : WorkspaceEntry := mkWorkspaceEntry "w" 1%N cs_key 1 0 0 (Some OWNER).

(** The trustchain of a client that has fetched the devices of the run. *)
Definition cs_fetched (now : DateTime) (ctx : ClientCtx) : TrustchainContext :=
  (rdm_get_device (H0 := server_cmds now ctx) now 9 cs_bob false (cs_trustchain, cs_shared)).1.1.

#[global] Opaque cs_created cs_bootstrapped cs_users cs_realm cs_shared cs_owners cs_removed.
