(* ===== verification/ClientServerProperties.v ===== *)
(** The theorems on the clients and the server together. *)

From S2P Require Import Prelude Triples Types ApiManifest Chunk Merging Storage Backend Certif.
From S2P Require Import BackendUser BackendMessage BackendVlob BackendVlobProofs BackendRealm.
From S2P Require Import BlockStore BackendBlock BackendOrganization BackendSystem BackendVlobSpec.
From S2P Require Import BackendRealmSpec BackendGrowth Trustchain TrustchainProperties.
From S2P Require Import RemoteDevices RemoteLoader RemoteLoaderProofs RemoteLoaderProperties.
From S2P Require Import ClientServer ClientServerExample.

Import Byte.

Section roles.
Context `{CertifApi, LoaderApi}.
Context (verify_message : ∀ key signed raw,
  key_verify key signed = Some raw → raw = unsecure_unwrap signed).

(** C19: the client and the server agree on the roles. Take a server whose clients,
    when they wrote roles, had the key of their device, as the handshake gives it to
    them, and a realm whose roles were granted in the order of the dates of their
    certificates. A client that has a role in the realm, and has in its cache a device
    for each of their authors, with the key of the certificate that the server has,
    accepts all the certificates, their signatures included, and the roles that it
    computes are the ones that the server applies. *)
Theorem client_computes_server_roles now fuel ctx (s : Loader Backend) workspace_id realm_id r :
  signed_reachable (rl_server s) →
  be_realms (rl_server s) !! (cc_organization_id ctx, realm_id) = Some r →
  has_role r (cc_user_id ctx) = true →
  StronglySorted by_date (r_granted_roles r) →
  authors_known now ctx s (r_granted_roles r) →
  load_realm_roles (H1 := server_cmds now ctx) now fuel workspace_id (Some realm_id) s
    = (s, Ok (certif_of <$> r_granted_roles r, realm_roles r)).
Proof.
  intros Hsigned Hr Hrole Hs Hd.
  apply (load_realm_roles_log verify_message _ _ _ _ _ _ _ Hr Hrole); [|done|].
  - by eapply (reachable_role_logs _ (signed_reachable_reachable _ Hsigned)).
  - eapply authors_known_cached; [|done]. by eapply signed_reachable_logs.
Qed.
End roles.

Section manifests.
Context `{CertifApi}.
Context (verify_message : ∀ key signed raw,
  key_verify key signed = Some raw → raw = unsecure_unwrap signed).
(** The libraries on the device of the writer and on the one of the reader: what is
    encrypted is decrypted with the same key, what is dumped is loaded, and the
    signatures of the writer are verified with its key. *)
Context (writer_api reader_api : LoaderApi) (writer_key : VerifyKey)
  (decrypt_encrypt : ∀ key p c,
     secret_encrypt (LoaderApi := writer_api) key p = Some c →
     secret_decrypt (LoaderApi := reader_api) key c = Some p)
  (loads_dumps : ∀ m raw, dumps_manifest (LoaderApi := writer_api) m = Some raw →
     loads_manifest (LoaderApi := reader_api) raw = Some m)
  (verify_sign : ∀ raw, key_verify writer_key (device_sign (LoaderApi := writer_api) raw) = Some raw).

End manifests.

(** ** Witnesses and limits *)

#[local] Instance bob_loader : LoaderApi := cs_loader x42.

Lemma authors_cached_dec now trustchain log :
  forallb (λ x, match tc_get_device trustchain (gr_granted_by x) now with
                | Some d => bool_decide (dc_device_id d = gr_granted_by x) &&
                    bool_decide (verify_realm_role_certificate (gr_certificate x) (dc_verify_key d)
                      (gr_granted_by x) = Ok (certif_of x))
                | None => false end) log = true → authors_cached now trustchain log.
Proof.
  intros Hf x Hx. rewrite forallb_forall in Hf. specialize (Hf x (proj1 (list_elem_of_In _ _) Hx)).
  destruct (tc_get_device _ _ _) as [d|]; [|done].
  apply andb_true_iff in Hf as [?%bool_decide_eq_true ?%bool_decide_eq_true]. eauto.
Qed.

Lemma client_computes_server_roles_witness :
  ∃ r, be_realms cs_shared !! ("org"%string, 1%N) = Some r ∧
    realm_roles r !! "bob"%string = Some READER ∧
    load_realm_roles (H1 := server_cmds 6 cs_bob_ctx) 6 9 1%N (Some 1%N)
      (cs_start cs_shared (cs_fetched 6 cs_bob_ctx))
    = (cs_start cs_shared (cs_fetched 6 cs_bob_ctx),
       Ok (certif_of <$> r_granted_roles r, realm_roles r)).
Proof.
  destruct (be_realms cs_shared !! ("org"%string, 1%N)) as [r|] eqn:Hr; [|by vm_compute in Hr].
  exists r. vm_compute in Hr. injection Hr as <-.
  split_and!; [done|by vm_compute|].
  apply (client_computes_server_roles cs_message).
  - exact cs_shared_signed.
  - by vm_compute.
  - by vm_compute.
  - cbn. apply SSorted_cons; [apply SSorted_cons; [apply SSorted_nil|apply Forall_nil_2]|].
    apply Forall_singleton. unfold by_date. cbn. lia.
  - intros x [->|[->|[]%list_elem_of_In]%elem_of_cons]%elem_of_cons;
      (eexists; split; [vm_compute; reflexivity|]; split; [reflexivity|]; apply cs_key_ok; by vm_compute).
Defined.

Lemma cs_start_fields server trustchain :
  rl_server (cs_start server trustchain) = server ∧
  rl_realm_role_certificates_cache (cs_start server trustchain) = None.
Proof. done. Qed.

(** Alice uploads the manifest of the workspace, Bob reads it. *)
Definition written : Loader Backend * result FSExn unit :=
  upload_manifest (H0 := cs_loader x41) (H1 := server_cmds 6 cs_alice_ctx) 6 cs_alice 1%N cs_entry 1%N
    (cs_manifest cs_alice) (cs_start cs_shared cs_trustchain).
Definition bob_start : Loader Backend := cs_start (rl_server written.1) (cs_fetched 6 cs_bob_ctx).
Definition cs_alice_device : DeviceCertificateContent :=
  mkDeviceCertificateContent None 0 cs_alice (Some "desk"%string) cs_alice_key.


(** A reader that knows nothing but the root key. *)
Lemma cs_start_ok server : loader_ok cs_root_key (cs_start server cs_trustchain).
Proof.
  split; [split; [done|]|done].
  split_and!; intros k t a; cbn; intros Hk; by apply lookup_empty_Some in Hk.
Qed.
Lemma load_manifest_sound_witness :
  ∃ s' a, rl_load_manifest (H1 := server_cmds 7 cs_bob_ctx) 7 9 1%N cs_entry 1%N None None None
            (cs_start (rl_server written.1) cs_trustchain) = (s', Ok (cs_manifest cs_alice)) ∧
    loader_ok cs_root_key s' ∧ signed_device cs_root_key a ∧ dc_device_id a = cs_alice.
Proof.
  destruct (rl_load_manifest (H1 := server_cmds 7 cs_bob_ctx) 7 9 1%N cs_entry 1%N None None None
    (cs_start (rl_server written.1) cs_trustchain)) as [s' r] eqn:Hrun.
  assert (r = Ok (cs_manifest cs_alice)) as ->.
  { change r with ((s', r).2). rewrite <-Hrun. vm_compute. reflexivity. }
  destruct (load_manifest_sound (H1 := server_cmds 7 cs_bob_ctx) cs_message cs_root_key 7 9 1%N cs_entry
    1%N None None None (cs_start (rl_server written.1) cs_trustchain) s' (Ok (cs_manifest cs_alice)))
    as [Hok Hm].
  - apply cs_start_ok.
  - exact Hrun.
  - destruct (Hm _ eq_refl) as (_ & _ & _ & (a & _ & _ & _ & Ha & Hid & _) & _).
    exists s', a. auto.
Defined.

(** The dates matter: a certificate may be half an hour older than its grant.
    Here an owner removes the other one with a certificate that is older than the
    realm; the server answers that it is done, and from then on no client can
    verify the roles of the realm, so that it refuses every manifest newer than
    the roles it knows. *)
Theorem backdated_removal_locks_out :
  ∃ s s' certifs roles, reachable s ∧ reachable s' ∧
    api_realm_update_roles 4 cs_bob_ctx (cs_sign x42 [x0f]) None s = (s', Ok (RepOk tt)) ∧
    (load_realm_roles (H1 := server_cmds 6 cs_bob_ctx) 6 9 1%N None (cs_start s cs_trustchain)).2
      = Ok (certifs, roles) ∧
    (load_realm_roles (H1 := server_cmds 6 cs_bob_ctx) 6 9 1%N None (cs_start s' cs_trustchain)).2
      = Err FSError.
Proof.
  exists cs_owners, cs_removed. do 2 eexists. split_and!.
  - exact cs_owners_reachable.
  - exact cs_removed_reachable.
  - vm_compute. reflexivity.
  - vm_compute. reflexivity.
  - vm_compute. reflexivity.
Qed.

(** A server that answers as ours does, but gives for every realm the certificate
    by which Bob created the realm 2, and for every vlob a manifest of Bob's. *)
Definition false_cmds (now : DateTime) (ctx : ClientCtx) : BackendCmds Backend :=
  let honest := server_cmds now ctx in {|
  cmd_user_get := cmd_user_get (BackendCmds := honest);
  cmd_realm_create := cmd_realm_create (BackendCmds := honest);
  cmd_realm_get_role_certificates _ s := (s, NetReply (RepOk [cs_sign x42 [x10]]));
  cmd_vlob_create := cmd_vlob_create (BackendCmds := honest);
  cmd_vlob_read _ _ _ _ s := (s, NetReply (RepOk (1, cs_key ++ cs_sign x42 [x71], cs_bob, 5)));
  cmd_vlob_update := cmd_vlob_update (BackendCmds := honest);
  cmd_vlob_list_versions := cmd_vlob_list_versions (BackendCmds := honest);
  cmd_block_create := cmd_block_create (BackendCmds := honest);
  cmd_block_read := cmd_block_read (BackendCmds := honest) |}.

(** The realm of a role certificate is not checked: a user who may only read a
    realm and a server that shows a certificate of another realm, where this user
    is the owner, make the client of an owner accept a manifest that the reader
    wrote. *)
Theorem foreign_roles_accepted :
  ∃ r m,
    be_realms cs_shared !! ("org"%string, 1%N) = Some r ∧ role_of r "bob" = Some READER ∧
    (rr_realm_id <$> loads_realm_role [x10]) = Some 2%N ∧
    (rl_load_manifest (H1 := false_cmds 6 cs_alice_ctx) 6 9 1%N cs_entry 1%N None None None
       (cs_start cs_shared cs_trustchain)).2 = Ok m ∧
    rm_id m = 1%N ∧ rm_author m = cs_bob.
Proof. do 2 eexists. split_and!; vm_compute; reflexivity. Qed.
