(* ===== verification/ReencryptionJob.v ===== *)
(** Encrypting a workspace again with a new key: the class [ReencryptionJob] of
    [guardata/client/fs/userfs/userfs.py], and the loop that runs it in
    [guardata/client/gui/workspaces_widget.py]. *)

From S2P Require Import Prelude Types ApiManifest Chunk Backend Certif BackendUser RemoteDevices RemoteLoader.

(** The requests of a maintenance. *)
Class MaintenanceCmds (Srv : Type) := {
  cmd_realm_status : UUID → Srv → Srv * net (reply (bool * RealmStatus));
  cmd_realm_start_reencryption_maintenance : UUID → Z → DateTime → list (UserID * bytes) →
    Srv → Srv * net (reply unit);
  cmd_vlob_maintenance_get_reencryption_batch : UUID → Z → Z →
    Srv → Srv * net (reply (list (UUID * Z * bytes)));
  cmd_vlob_maintenance_save_reencryption_batch : UUID → Z → list (UUID * Z * bytes) →
    Srv → Srv * net (reply (Z * Z));
  cmd_realm_finish_reencryption_maintenance : UUID → Z → Srv → Srv * net (reply unit) }.

(** [ReencryptionJob]: the new entry of the workspace, and the old one. *)
Record ReencryptionJob := mkReencryptionJob {
  rj_new_workspace_entry : WorkspaceEntry;
  rj_old_workspace_entry : WorkspaceEntry }.
Definition new_reencryption_job (new_workspace_entry old_workspace_entry : WorkspaceEntry)
    : result FSExn ReencryptionJob :=
  _ ← py_assert (bool_decide (we_id new_workspace_entry = we_id old_workspace_entry));
  Ok (mkReencryptionJob new_workspace_entry old_workspace_entry).

Section job.
Context `{LoaderApi} {Srv : Type} `{MaintenanceCmds Srv}.
Abbreviation jobM := (stM Srv FSExn) (only parsing).

(** A request: [BackendNotAvailable] is raised as [FSBackendOfflineError], the other
    errors of the connection as [FSError]. *)
Definition job_request {A} (cmd : Srv → Srv * net (reply A)) : jobM (reply A) := λ srv,
  let '(srv, r) := cmd srv in
  (srv, match r with
        | NetReply rep => Ok rep
        | NetNotAvailable => Err FSBackendOfflineError
        | NetConnectionError => Err FSError
        end).

(** What follows each request: its status. *)
Definition maintenance_status {A} (rep : reply A) : jobM A :=
  match rep with
  | RepOk a => mret a
  | RepError status =>
      if decide (status = "not_in_maintenance"%string ∨ status = "bad_encryption_revision"%string)
      then mthrow FSWorkspaceNotInMaintenance
      else if decide (status = "not_allowed"%string) then mthrow FSWorkspaceNoAccess
      else mthrow FSError
  end.

(** The loop over the batch; a [CryptoError] is not caught. *)
Fixpoint reencrypt_batch (job : ReencryptionJob) (batch : list (UUID * Z * bytes))
    : jobM (list (UUID * Z * bytes)) :=
  match batch with
  | [] => mret []
  | (vlob_id, version, blob) :: batch =>
      cleartext ← of_option CryptoError (secret_decrypt (we_key (rj_old_workspace_entry job)) blob);
      newciphered ← of_option CryptoError
        (secret_encrypt (we_key (rj_new_workspace_entry job)) cleartext);
      donebatch ← reencrypt_batch job batch;
      mret ((vlob_id, version, newciphered) :: donebatch)
  end.

(** [do_one_batch] *)
Definition do_one_batch (job : ReencryptionJob) (size : Z) : jobM (Z * Z) :=
  let workspace_id := we_id (rj_new_workspace_entry job) in
  let new_encryption_revision := we_encryption_revision (rj_new_workspace_entry job) in
  rep ← job_request (cmd_vlob_maintenance_get_reencryption_batch workspace_id
                       new_encryption_revision size);
  batch ← maintenance_status rep;
  donebatch ← reencrypt_batch job batch;
  rep ← job_request (cmd_vlob_maintenance_save_reencryption_batch workspace_id
                       new_encryption_revision donebatch);
  '(total, done) ← maintenance_status rep;
  _ ← (if total =? done then
         rep ← job_request (cmd_realm_finish_reencryption_maintenance workspace_id
                              new_encryption_revision);
         maintenance_status rep
       else mret tt);
  mret (total, done).

(** The loop of [_reencrypt]; [false] says that [fuel] batches were not enough. *)
Fixpoint reencrypt_loop (fuel : nat) (job : ReencryptionJob) (size : Z) : jobM bool :=
  match fuel with
  | O => mret false
  | S fuel =>
      '(total, done) ← do_one_batch job size;
      if total =? done then mret true else reencrypt_loop fuel job size
  end.
End job.

(** The default size of a batch. *)
Definition BATCH_SIZE : Z := 512.
