(* ===== verification/ReencryptionProperties.v ===== *)
(** The theorems on the encryption of a workspace with a new key, by a client and
    the server together. *)

From S2P Require Import Prelude Triples Types ApiManifest Chunk Merging Storage Backend Certif.
From S2P Require Import BackendUser BackendMessage BackendVlob BackendVlobProofs BackendRealm.
From S2P Require Import BlockStore BackendBlock BackendOrganization BackendSystem BackendEffects.
From S2P Require Import BackendVlobSpec BackendRealmSpec BackendGrowth RemoteDevices RemoteLoader.
From S2P Require Import ReencryptionJob ClientServer BackendExample.

Import Byte.

(** The requests run the handlers. *)
Definition server_maintenance `{CertifApi} (now : DateTime) (ctx : ClientCtx) : MaintenanceCmds Backend := {|
  cmd_realm_status realm_id := served (api_realm_status ctx realm_id);
  cmd_realm_start_reencryption_maintenance realm_id rev ts msgs :=
    served (api_realm_start_reencryption_maintenance now now ctx realm_id rev ts msgs);
  cmd_vlob_maintenance_get_reencryption_batch realm_id rev size :=
    served (api_vlob_maintenance_get_reencryption_batch ctx realm_id rev size);
  cmd_vlob_maintenance_save_reencryption_batch realm_id rev batch :=
    served (api_vlob_maintenance_save_reencryption_batch ctx realm_id rev batch);
  cmd_realm_finish_reencryption_maintenance realm_id rev :=
    served (api_realm_finish_reencryption_maintenance ctx realm_id rev) |}.

Lemma job_request_served {A} (m : backendM (reply A)) s s' rep :
  m s = (s', Ok rep) → job_request (served m) s = (s', Ok rep).
Proof. intros E. unfold job_request, served. by rewrite E. Qed.

Section reencryption.
Context `{CertifApi, LoaderApi} (now : DateTime) (ctx : ClientCtx).
#[local] Existing Instance server_maintenance.
Abbreviation run_batch := (do_one_batch (H0 := server_maintenance now ctx)).
Abbreviation run_job := (reencrypt_loop (H0 := server_maintenance now ctx)).
Abbreviation org := (cc_organization_id ctx).
Context (decrypt_encrypt : ∀ key p c, secret_encrypt key p = Some c → secret_decrypt key c = Some p).
Context (job : ReencryptionJob).
Abbreviation realm_id := (we_id (rj_new_workspace_entry job)).
Abbreviation rev := (we_encryption_revision (rj_new_workspace_entry job)).
Abbreviation old_key := (we_key (rj_old_workspace_entry job)).
Abbreviation new_key := (we_key (rj_new_workspace_entry job)).

(** What is encrypted with the old key can be encrypted with the new one. *)
Definition convertible (data : bytes) : Prop :=
  ∃ p c, secret_decrypt old_key data = Some p ∧ secret_encrypt new_key p = Some c.
(** The same cleartext, under the two keys. *)
Definition same_cleartext (old new : bytes) : Prop :=
  ∃ p, secret_decrypt old_key old = Some p ∧ secret_decrypt new_key new = Some p.

Lemma reencrypt_batch_ok batch (s : Backend) :
  Forall (λ x, convertible x.2) batch →
  ∃ done, reencrypt_batch job batch s = (s, Ok done) ∧
    Forall2 (λ x y, x.1 = y.1 ∧ same_cleartext x.2 y.2) batch done.
Proof.
  induction batch as [|[[id n] data] batch IH]; cbn [reencrypt_batch].
  - exists []. by split.
  - intros [(p & c & Hp & Hc) (done & E & Hd)%IH]%Forall_cons. exists ((id, n, c) :: done).
    cbn in Hp. rewrite (bind_Ok _ _ s s p) by (by rewrite Hp). cbv beta.
    rewrite (bind_Ok _ _ s s c) by (by rewrite Hc). cbv beta.
    rewrite (bind_Ok _ _ s s done) by done. split; [done|].
    constructor; [|done]. split; [done|]. exists p. split; [done|by apply decrypt_encrypt].
Qed.
Lemma reencrypt_batch_fails batch (s : Backend) :
  Exists (λ x, secret_decrypt old_key x.2 = None) batch → reencrypt_batch job batch s = (s, Err CryptoError).
Proof.
  induction batch as [|[[id n] data] batch IH]; [by intros ?%Exists_nil|].
  intros Hx. cbn [reencrypt_batch].
  destruct (secret_decrypt old_key data) as [p|] eqn:Hp; [|done].
  apply Exists_cons in Hx as [Hx|Hx]; [cbn in Hx; congruence|].
  rewrite (bind_Ok _ _ s s p) by done. cbv beta.
  destruct (secret_encrypt new_key p) as [c|] eqn:Hc; [|done].
  rewrite (bind_Ok _ _ s s c) by done. cbv beta. by rewrite (bind_Err _ _ s s CryptoError) by auto.
Qed.

(** The state between two batches: the maintenance goes on, what is left can be
    converted and what is done has the cleartext of the version it replaces. *)
Record job_inv (s : Backend) (re : Reencryption) : Prop := {
  ji_vlobs : vlobs_ok s;
  ji_access : access_granted s org realm_id (cc_user_id ctx) can_do_maintenance_roles true;
  ji_revision : revision_is s org realm_id rev;
  ji_current : ch_reencryption (changes_of s org realm_id) = Some re;
  ji_todo k data : od_get (re_todo re) k = Some data → convertible data;
  ji_done id n new : od_get (re_done re) (id, n) = Some new →
    ∃ v old author ts, in_realm (vlob_at s org) realm_id id v ∧
      v_data v !! Z.to_nat (n - 1) = Some (old, author, ts) ∧ same_cleartext old new }.

Lemma job_reencryption_ok s re : job_inv s re → reencryption_ok (vlob_at s org) realm_id re.
Proof.
  intros Hi. destruct (maintenance_reencryption _ _ _ _ _ (ji_vlobs _ _ Hi) (ji_access _ _ Hi))
    as (re' & Hre & Hok). by rewrite (ji_current _ _ Hi) in Hre; injection Hre as <-.
Qed.
Lemma job_refusal s re :
  job_inv s re →
  vlob_refusal s org realm_id (user_id (cc_device_id ctx)) (Some rev) can_do_maintenance_roles true = None.
Proof. intros []. apply vlob_refusal_None. split; [done|]. by intros n [= <-]. Qed.

(** The batch that is fetched. *)
Definition todo_batch (re : Reencryption) (size : Z) : list (UUID * Z * bytes) :=
  take (Z.to_nat size) ((λ x, (x.1.1, x.1.2, x.2)) <$> re_todo re).
Lemma elem_of_todo_batch re size x : x ∈ todo_batch re size → (x.1, x.2) ∈ re_todo re.
Proof. by intros ([[k n] d] & -> & ?)%elem_of_take_in%list_elem_of_fmap. Qed.
Lemma todo_batch_keys re size : NoDup (od_keys (re_todo re)) → NoDup (todo_batch re size).*1.
Proof.
  intros Hnd. unfold todo_batch. rewrite fmap_take, <-list_fmap_compose.
  eapply sublist_NoDup; [|apply sublist_take].
  by rewrite (list_fmap_ext _ fst (re_todo re)) by (by intros ? [[? ?] ?]).
Qed.
Lemma todo_batch_convertible s re size :
  job_inv s re → Forall (λ x, convertible x.2) (todo_batch re size).
Proof.
  intros Hi. apply Forall_forall. intros [k d] Hx%elem_of_todo_batch.
  eapply (ji_todo _ _ Hi k), od_get_Some, Hx. apply (ro_todo_nodup _ _ _ (job_reencryption_ok _ _ Hi)).
Qed.

Lemma get_batch_served s re size :
  vlobs_ok s → access_granted s org realm_id (cc_user_id ctx) can_do_maintenance_roles true →
  revision_is s org realm_id rev → ch_reencryption (changes_of s org realm_id) = Some re →
  0 <= size <= 1000 →
  api_vlob_maintenance_get_reencryption_batch ctx realm_id rev size s
    = (s, Ok (RepOk (todo_batch re size))).
Proof.
  intros Hv Hacc Hrev Hre Hsize. unfold api_vlob_maintenance_get_reencryption_batch, validate_size.
  replace ((0 <=? size) && (size <=? 1000)) with true by lia. cbn [negb].
  rewrite (reply_of_eq _ _ _ s s _ (get_reencryption_batch_eq _ _ _ _ _ _)).
  rewrite (proj2 (vlob_refusal_None s org realm_id (user_id (cc_device_id ctx)) (Some rev) _ _)).
  2:{ split; [done|]. by intros n [= <-]. }
  destruct (maintenance_reencryption _ _ _ _ _ Hv Hacc) as (re' & Hre' & Hok).
  rewrite Hre in Hre'. injection Hre' as <-. rewrite Hre. by rewrite (get_batch_todo _ _ _ _ Hok) by lia.
Qed.

(** Saving the batch that was fetched, encrypted again. *)
Lemma save_batch_served s re size done :
  job_inv s re →
  Forall2 (λ x y, x.1 = y.1 ∧ same_cleartext x.2 y.2) (todo_batch re size) done →
  ∃ s' re', api_vlob_maintenance_save_reencryption_batch ctx realm_id rev done s
      = (s', Ok (RepOk (re_total re', Z.of_nat (length (re_done re'))))) ∧
    job_inv s' re' ∧ (∀ org' id, vlob_at s' org' id = vlob_at s org' id) ∧
    (length (re_done re) + length (todo_batch re size) <= length (re_done re'))%nat ∧
    re_total re' = re_total re.
Proof.
  intros Hi Hf. pose proof (job_reencryption_ok _ _ Hi) as Hok.
  assert (done.*1 = (todo_batch re size).*1) as Hkeys.
  { clear -Hf. induction Hf as [|x y l1 l2 [Hx _] _ IH]; cbn; congruence. }
  assert (∀ id n d, (id, n, d) ∈ done → ∃ old, od_get (re_todo re) (id, n) = Some old ∧ same_cleartext old d)
    as Hin.
  { intros id n d [i Hi2]%list_elem_of_lookup. destruct (Forall2_lookup_r _ _ _ _ _ Hf Hi2)
      as ([k old] & Hx%list_elem_of_lookup_2%elem_of_todo_batch & [= ->] & Hc).
    exists old. split; [|done]. apply od_get_Some; [apply Hok|done]. }
  unfold api_vlob_maintenance_save_reencryption_batch.
  replace (forallb _ done) with true.
  2:{ symmetry. apply List.forallb_forall. intros [[id n] d] (old & Hold & _)%list_elem_of_In%Hin.
      apply od_get_elem in Hold.
      assert ((id, n) ∈ od_keys (re_todo re)) as Hk by (apply list_elem_of_fmap; by eexists (_, _)).
      destruct (proj1 (ro_keys _ _ _ Hok id n) (or_introl Hk)) as (? & _ & ?).
      lia. }
  cbn [negb]. pose proof (save_reencryption_batch_eq org (cc_device_id ctx) realm_id rev done s) as Heq.
  rewrite (job_refusal _ _ Hi), (ji_current _ _ Hi) in Heq. rewrite (reply_of_eq _ _ _ _ _ _ Heq).
  destruct (save_batch re done) as [re' r] eqn:E. cbn [fst snd].
  destruct (save_batch_ok _ _ _ _ _ _ Hok E) as (Hok' & Hkept & Hnew & Hr).
  assert (re_total re' = re_total re) as Ht by (rewrite <-(save_batch_total re done); by rewrite E).
  destruct r as [[total n]|e].
  2:{ destruct Hr as (_ & id & n & d & (old & Hold & _)%Hin & []). apply od_get_elem in Hold.
      apply (ro_keys _ _ _ Hok). left. apply list_elem_of_fmap. by eexists (_, _). }
  destruct Hr as (-> & -> & Hall). rewrite <-Ht.
  set (s' := set_changes _ s). exists s', re'.
  assert (∀ org' id, vlob_at s' org' id = vlob_at s org' id) as Hat by done.
  split_and!; [done| |done| |done].
  - split; [|exact (ji_access _ _ Hi)|exact (ji_revision _ _ Hi)| | |].
    + eapply save_reencryption_batch_ok; [exact (ji_vlobs _ _ Hi)|exact Heq].
    + unfold s'. rewrite changes_of_set, decide_True by done. done.
    + intros k data Hk. destruct k as [id n]. eapply (ji_todo _ _ Hi (id, n)).
      destruct (ro_todo _ _ _ Hok' _ _ _ Hk) as (v & a & t & Hv & Hn).
      assert ((id, n) ∈ od_keys (re_todo re')) as Hin' by (apply od_get_is_Some; eauto).
      pose proof (proj1 (ro_keys _ _ _ Hok' id n) (or_introl Hin')) as Hrange.
      destruct (proj2 (ro_keys _ _ _ Hok id n) Hrange) as [Hold|Hold].
      * apply od_get_is_Some in Hold as [old Hold]. rewrite Hold.
        destruct (ro_todo _ _ _ Hok _ _ _ Hold) as (v0 & ? & ? & Hv0 & Hn0).
        unfold in_realm in *. naive_solver.
      * apply od_get_is_Some in Hold as [d Hd]. exfalso. eapply (ro_disjoint _ _ _ Hok'); [done|].
        apply od_get_is_Some. eauto.
    + intros id n new Hget. destruct (od_mem (re_done re) (id, n)) eqn:Em.
      * apply od_mem_true in Em as [d Hd]. rewrite (Hkept _ _ Hd) in Hget. injection Hget as <-.
        by apply (ji_done _ _ Hi).
      * destruct (Hnew (id, n)) as (d & Hd & Hgd); [apply od_mem_true; eauto|done|].
        rewrite Hgd in Hget. injection Hget as ->. apply Hin in Hd as (old & Hold & Hc).
        destruct (ro_todo _ _ _ Hok _ _ _ Hold) as (v & a & t & Hv & Hn). by exists v, old, a, t.
  - rewrite <-(length_fmap fst (re_done re)), <-(length_fmap fst (todo_batch re size)),
      <-(length_fmap fst (re_done re')), <-length_app.
    apply submseteq_length, NoDup_submseteq.
    + apply NoDup_app. split_and!; [apply Hok| |apply todo_batch_keys, Hok].
      intros k Hk ([k' d] & -> & Hx%elem_of_todo_batch)%list_elem_of_fmap.
      eapply (ro_disjoint _ _ _ Hok); [|exact Hk]. apply list_elem_of_fmap. by eexists.
    + intros k. rewrite elem_of_app. intros [Hk|Hk].
      * apply od_get_is_Some in Hk as [d Hd]. apply od_get_is_Some. eauto.
      * rewrite <-Hkeys in Hk. apply list_elem_of_fmap in Hk as ([[id n] d] & -> & Hk).
        apply od_get_is_Some, od_mem_true. by eapply Hall.
Qed.

(** Every version has its author, its date and its cleartext, under the new key. *)
Definition converted (v v' : Vlob) : Prop :=
  v_realm_id v' = v_realm_id v ∧
  Forall2 (λ x y, x.1.2 = y.1.2 ∧ x.2 = y.2 ∧ same_cleartext x.1.1 y.1.1) (v_data v) (v_data v').

Lemma finish_served s re :
  job_inv s re → re_todo re = [] →
  ∃ s', api_realm_finish_reencryption_maintenance ctx realm_id rev s = (s', Ok (RepOk tt)) ∧
    ¬ realm_in_maintenance s' org realm_id ∧ revision_is s' org realm_id rev ∧
    (∀ org' id v, vlob_at s org' id = Some v → (org', v_realm_id v) ≠ (org, realm_id) →
       vlob_at s' org' id = Some v) ∧
    ∀ id v, in_realm (vlob_at s org) realm_id id v →
      ∃ v', vlob_at s' org id = Some v' ∧ converted v v'.
Proof.
  intros Hi Htodo. pose proof (job_reencryption_ok _ _ Hi) as Hok.
  destruct (ji_access _ _ Hi) as (realm & role & Hr & Hrole & Hin & Hm).
  apply list_elem_of_singleton in Hin as ->.
  destruct (ji_revision _ _ Hi) as (realm' & Hr' & Hrev). rewrite Hr in Hr'. injection Hr' as <-.
  assert (finish_allowed s org (cc_device_id ctx) realm_id rev) as Ha.
  { exists realm, re. split_and!; try done. by apply Hi. }
  destruct (finish_allowed_ok _ _ _ _ _ (ji_vlobs _ _ Hi) Ha) as (s' & Hrun).
  exists s'. unfold api_realm_finish_reencryption_maintenance. rewrite (reply_of_eq _ _ _ _ _ _ Hrun).
  split; [done|]. apply finish_inv in Hrun
    as [(_ & e & [=] & _)|(_ & realm' & re' & Hr' & _ & _ & _ & Hre & _ & _ & E & Hat)]; [|apply Hi].
  rewrite Hr in Hr'. rewrite (ji_current _ _ Hi) in Hre. injection Hr' as <-. injection Hre as <-.
  split_and!.
  - intros (realm' & Hr' & Hm'). rewrite E in Hr'. cbn in Hr'. rewrite lookup_insert_eq in Hr'.
    by simplify_eq.
  - eexists. rewrite E. cbn. by rewrite lookup_insert_eq.
  - intros org' id v Hv Hne. rewrite Hat, Hv. cbn. by rewrite decide_False.
  - intros id v Hv. exists (reencrypted (re_done re) id v). destruct Hv as [Hv Hvr]. split.
    { rewrite Hat, Hv. cbn. by rewrite decide_True by congruence. }
    split; [done|]. apply Forall2_same_length_lookup. split; [cbn; by rewrite length_imap|].
    intros n [[old author] ts] y Hn Hy.
    destruct (reencrypted_all _ _ _ _ _ _ _ _ _ Hok Htodo (conj Hv Hvr) Hn) as (new & Hnew & Hy').
    rewrite Hy in Hy'. injection Hy' as ->. split_and!; [done..|]. cbn.
    apply (ji_done _ _ Hi) in Hnew as (v0 & old0 & a0 & t0 & [Hv0 _] & Hn0 & Hc).
    rewrite Hv in Hv0. injection Hv0 as <-. replace (Z.to_nat _) with n in Hn0 by lia. congruence.
Qed.

(** One batch: either the maintenance ends, or there is less to do. *)
Lemma do_one_batch_ok s re size :
  job_inv s re → 0 < size <= 1000 →
  (∃ s1 s' re' total, job_inv s1 re' ∧ (∀ org' id, vlob_at s1 org' id = vlob_at s org' id) ∧
     re_todo re' = [] ∧ run_batch job size s = (s', Ok (total, total)) ∧
     api_realm_finish_reencryption_maintenance ctx realm_id rev s1 = (s', Ok (RepOk tt))) ∨
  (∃ s' re' total done, job_inv s' re' ∧ (∀ org' id, vlob_at s' org' id = vlob_at s org' id) ∧
     run_batch job size s = (s', Ok (total, done)) ∧ done < total ∧
     (length (re_todo re') < length (re_todo re))%nat).
Proof.
  intros Hi Hsize. pose proof (job_reencryption_ok _ _ Hi) as Hok.
  destruct (reencrypt_batch_ok (todo_batch re size) s (todo_batch_convertible s re size Hi))
    as (done & Edone & Hdone).
  destruct (save_batch_served s re size done Hi Hdone) as (s1 & re1 & Esave & Hi1 & Hat & Hlen & Htotal).
  pose proof (job_reencryption_ok _ _ Hi1) as Hok1.
  assert (∀ B (f : Z * Z → stM Backend FSExn B),
    (rep ← job_request (cmd_vlob_maintenance_get_reencryption_batch (MaintenanceCmds := server_maintenance now ctx) realm_id rev size);
     batch ← maintenance_status rep;
     donebatch ← reencrypt_batch job batch;
     rep ← job_request (cmd_vlob_maintenance_save_reencryption_batch
       (MaintenanceCmds := server_maintenance now ctx) realm_id rev donebatch);
     td ← maintenance_status rep; f td) s = f (re_total re1, Z.of_nat (length (re_done re1))) s1) as Hrun.
  { intros B f. cbn [cmd_vlob_maintenance_get_reencryption_batch server_maintenance].
    rewrite (bind_Ok _ _ s s (RepOk (todo_batch re size))).
    2:{ apply job_request_served, get_batch_served; [apply Hi..|lia]. }
    cbv beta. rewrite (bind_Ok _ _ s s (todo_batch re size)) by done. cbv beta.
    rewrite (bind_Ok _ _ s s done) by done. cbv beta.
    rewrite (bind_Ok _ _ s s1 (RepOk (re_total re1, Z.of_nat (length (re_done re1))))).
    2:{ by apply job_request_served. }
    cbv beta. by rewrite (bind_Ok _ _ s1 s1 (re_total re1, Z.of_nat (length (re_done re1)))) by done. }
  pose proof (ro_total _ _ _ Hok1) as Ht1. pose proof (ro_total _ _ _ Hok) as Ht.
  unfold do_one_batch. cbv zeta. rewrite Hrun.
  destruct (re_todo re1) as [|x l] eqn:Etodo.
  - left. destruct (finish_served s1 re1 Hi1 Etodo) as (s' & Hfin & _).
    exists s1, s', re1, (re_total re1). split_and!; try done.
    replace (Z.of_nat (length (re_done re1))) with (re_total re1) by (rewrite Ht1; cbn; lia).
    rewrite Z.eqb_refl. rewrite (bind_Ok _ _ s1 s' tt); [done|].
    rewrite (bind_Ok _ _ s1 s' (RepOk tt)) by (by apply job_request_served). done.
  - right. cbn [length] in Ht1. exists s1, re1, (re_total re1), (Z.of_nat (length (re_done re1))).
    replace (re_total re1 =? Z.of_nat (length (re_done re1))) with false by lia.
    split_and!; [done|done|done|lia|].
    assert (length (todo_batch re size) = Nat.min (Z.to_nat size) (length (re_todo re))) as Hb.
    { unfold todo_batch. by rewrite length_take, length_fmap. }
    rewrite Etodo. cbn [length]. lia.
Qed.

Lemma reencrypt_loop_ok s re size fuel :
  job_inv s re → 0 < size <= 1000 → (length (re_todo re) < fuel)%nat →
  ∃ s1 s' re', job_inv s1 re' ∧ (∀ org' id, vlob_at s1 org' id = vlob_at s org' id) ∧
    re_todo re' = [] ∧ run_job fuel job size s = (s', Ok true) ∧
    api_realm_finish_reencryption_maintenance ctx realm_id rev s1 = (s', Ok (RepOk tt)).
Proof.
  intros Hi Hsize. revert s re Hi. induction fuel as [|fuel IH]; intros s re Hi Hfuel; [lia|].
  destruct (do_one_batch_ok s re size Hi Hsize)
    as [(s1 & s' & re' & total & Hi' & Hat & Htodo & E & Hfin)|
        (s1 & re' & total & done & Hi' & Hat & E & Hlt & Hless)].
  - exists s1, s', re'. split_and!; try done. cbn [reencrypt_loop].
    rewrite (bind_Ok _ _ s s' (total, total)) by done. cbv beta iota. by rewrite Z.eqb_refl.
  - destruct (IH s1 re' Hi') as (s2 & s' & re2 & Hi2 & Hat2 & Htodo & Eloop & Hfin); [lia|].
    exists s2, s', re2. split_and!; try done.
    + intros. by rewrite Hat2, Hat.
    + cbn [reencrypt_loop]. rewrite (bind_Ok _ _ s s1 (total, done)) by done. cbv beta iota.
      by replace (total =? done) with false by lia.
Qed.

(** C5: encrypting a workspace again, from end to end: in a reachable state of the
    server where the realm is in maintenance at the revision of the new key and the
    user of the job is an owner, when each version of the vlobs of the realm can be
    decrypted with the old key, and what a former job did has the right cleartext,
    the loop over the batches ends after at most as many batches as there are
    versions left, without an error; the realm is open at the new revision, and each
    version of each vlob of the realm has its author, its date and its cleartext,
    under the new key. The vlobs of the other realms are the same. *)
Theorem reencryption_end_to_end s re size fuel :
  reachable s →
  access_granted s org realm_id (cc_user_id ctx) can_do_maintenance_roles true →
  revision_is s org realm_id rev → ch_reencryption (changes_of s org realm_id) = Some re →
  (∀ id v x, in_realm (vlob_at s org) realm_id id v → x ∈ v_data v → convertible x.1.1) →
  (∀ id n new, od_get (re_done re) (id, n) = Some new →
    ∃ v old author ts, in_realm (vlob_at s org) realm_id id v ∧
      v_data v !! Z.to_nat (n - 1) = Some (old, author, ts) ∧ same_cleartext old new) →
  0 < size <= 1000 → (length (re_todo re) < fuel)%nat →
  ∃ s', run_job fuel job size s = (s', Ok true) ∧
    ¬ realm_in_maintenance s' org realm_id ∧ revision_is s' org realm_id rev ∧
    (∀ org' id v, vlob_at s org' id = Some v → (org', v_realm_id v) ≠ (org, realm_id) →
       vlob_at s' org' id = Some v) ∧
    ∀ id v, in_realm (vlob_at s org) realm_id id v →
      ∃ v', vlob_at s' org id = Some v' ∧ converted v v'.
Proof.
  intros Hs Hacc Hrev Hre Hconv Hdone Hsize Hfuel. apply reachable_ok, bo_vlobs in Hs.
  assert (job_inv s re) as Hi.
  { split; try done. intros [id n] data Hk.
    destruct (maintenance_reencryption _ _ _ _ _ Hs Hacc) as (re' & Hre' & Hok).
    rewrite Hre in Hre'. injection Hre' as <-.
    destruct (ro_todo _ _ _ Hok _ _ _ Hk) as (v & a & t & Hv & Hn%list_elem_of_lookup_2).
    exact (Hconv _ _ _ Hv Hn). }
  destruct (reencrypt_loop_ok s re size fuel Hi Hsize Hfuel)
    as (s1 & s' & re1 & Hi1 & Hat & Htodo & Eloop & Hfin).
  destruct (finish_served s1 re1 Hi1 Htodo) as (s2 & Hfin' & Hm & Hr & Hother & Hv).
  rewrite Hfin in Hfin'. injection Hfin' as <-. exists s'. split_and!; [done|done|done| |].
  - intros org' id v Hx. apply Hother. by rewrite Hat.
  - intros id v [Hx ?]. apply Hv. split; [by rewrite Hat|done].
Qed.

(** C35: one version that cannot be decrypted with the old key stops the maintenance
    of a workspace: as long as it is in the first batch, every batch raises a
    [CryptoError], which is not an [FSError], and nothing changes on the server: the
    realm stays in maintenance. *)
Theorem reencryption_stuck s re size fuel :
  reachable s →
  access_granted s org realm_id (cc_user_id ctx) can_do_maintenance_roles true →
  revision_is s org realm_id rev → ch_reencryption (changes_of s org realm_id) = Some re →
  0 < size <= 1000 →
  (∃ x, x ∈ take (Z.to_nat size) (re_todo re) ∧ secret_decrypt old_key x.2 = None) →
  run_job (S fuel) job size s = (s, Err CryptoError).
Proof.
  intros Hs Hacc Hrev Hre Hsize ([k data] & Hx & Hd). apply reachable_ok, bo_vlobs in Hs.
  cbn [reencrypt_loop]. apply bind_Err. unfold do_one_batch.
  cbn [cmd_vlob_maintenance_get_reencryption_batch server_maintenance].
  rewrite (bind_Ok _ _ s s (RepOk (todo_batch re size))).
  2:{ apply job_request_served, get_batch_served; try done. lia. }
  cbv beta. rewrite (bind_Ok _ _ s s (todo_batch re size)) by done. cbv beta.
  apply bind_Err, reencrypt_batch_fails, Exists_exists. exists (k, data). split; [|done].
  unfold todo_batch. rewrite <-fmap_take. apply list_elem_of_fmap. exists (k, data). split; [|done].
  by destruct k.
Qed.
End reencryption.

(** ** Witnesses *)

(** The cipher puts the key in front of the data. *)
#[local] Instance ex_cipher : LoaderApi := {|
  secret_decrypt k c :=
    if bool_decide (take (length k) c = k) then Some (drop (length k) c) else None;
  secret_encrypt k p := Some (k ++ p);
  hash_digest b := b; device_sign b := b; loads_manifest _ := None; dumps_manifest _ := None;
  dumps_realm_role _ := [] |}.
Lemma ex_decrypt_encrypt key p c : secret_encrypt key p = Some c → secret_decrypt key c = Some p.
Proof. intros [= <-]. cbn. by rewrite take_app_length, drop_app_length, bool_decide_true. Qed.

(** The workspace of the realm 1, with the key [old]. *)
Definition ex_job (old : bytes) : ReencryptionJob :=
  mkReencryptionJob (mkWorkspaceEntry "w" 1 [x6b] 2 6 6 (Some OWNER))
    (mkWorkspaceEntry "w" 1 old 1 0 0 (Some OWNER)).
Lemma ex_maintenance_access :
  access_granted ex_maintenance "org" 1 "alice" can_do_maintenance_roles true.
Proof.
  eexists _, OWNER. split; [vm_compute; reflexivity|]. split; [vm_compute; reflexivity|].
  split; [by left|reflexivity].
Qed.
Lemma ex_maintenance_revision : revision_is ex_maintenance "org" 1 2.
Proof. eexists. split; [vm_compute; reflexivity|reflexivity]. Qed.
Definition ex_re : Reencryption := mkReencryption 1%N [7%N] [((7%N, 1), [x76; x31]); ((7%N, 2), [x76; x32])] [] 2.
Lemma ex_maintenance_re : ch_reencryption (changes_of ex_maintenance "org" 1) = Some ex_re.
Proof. by vm_compute. Qed.
Lemma ex_maintenance_vlobs id v x :
  in_realm (vlob_at ex_maintenance "org") 1 id v → x ∈ v_data v → take 1 x.1.1 = [x76].
Proof.
  assert (be_vlobs ex_maintenance =
    [(("org"%string, 7%N), mkVlob 1 [([x76; x31], bob, 4); ([x76; x32], alice, 5)])]) as E by by vm_compute.
  unfold in_realm, vlob_at. rewrite E. clear E. cbn [od_get]. intros [Hv _].
  case_decide; [|done]. injection Hv as <-. cbn [v_data]. rewrite !elem_of_cons.
  intros [->|[->|[]%not_elem_of_nil]]; reflexivity.
Qed.

Lemma reencryption_end_to_end_witness :
  ∃ s', reencrypt_loop (H0 := server_maintenance 6 alice_ctx) 3 (ex_job [x76]) 1 ex_maintenance = (s', Ok true) ∧
    ¬ realm_in_maintenance s' "org" 1.
Proof.
  destruct (reencryption_end_to_end 6 alice_ctx ex_decrypt_encrypt (ex_job [x76]) ex_maintenance ex_re 1 3
    ex_maintenance_reachable ex_maintenance_access ex_maintenance_revision ex_maintenance_re)
    as (s' & E & Hm & _).
  - intros id v x Hv Hx. pose proof (ex_maintenance_vlobs id v x Hv Hx) as Ht.
    eexists _, _. split; [|reflexivity]. cbn. by rewrite bool_decide_true.
  - intros id n new Hx. discriminate Hx.
  - lia.
  - cbn. lia.
  - exists s'. split; [exact E|exact Hm].
Defined.
Lemma reencryption_stuck_witness :
  reencrypt_loop (H0 := server_maintenance 6 alice_ctx) 3 (ex_job [x61]) 512 ex_maintenance
    = (ex_maintenance, Err CryptoError).
Proof.
  apply (reencryption_stuck 6 alice_ctx (ex_job [x61]) ex_maintenance ex_re 512 2
    ex_maintenance_reachable ex_maintenance_access ex_maintenance_revision ex_maintenance_re).
  - lia.
  - exists ((7%N, 1), [x76; x31]). split; [left|reflexivity].
Defined.
