(* ===== verification/WorkspaceFS.v ===== *)
(** A workspace on a client: its synchronization with the server, and what it knows
    of its roles. [guardata/client/fs/workspacefs/workspacefs.py] composes the
    transactions on the local storage and the remote loader. *)

From S2P Require Import Prelude PyString Types ApiManifest Chunk LocalManifest FileOperations.
From S2P Require Import FileContent Storage FileTransactions Merging EntryTransactions.
From S2P Require Import SyncTransactions Backend Certif BackendUser BackendRealm Trustchain.
From S2P Require Import RemoteDevices RemoteLoader ReencryptionJob.

(** ** State *)

(** The transactions, with the local storage; the server; what the remote loader
    keeps; how many times the clock was read. *)
Record WorkspaceFS (Srv : Type) := mkWorkspaceFS {
  wf_transactions : SyncState;
  wf_server : Srv;
  wf_trustchain : TrustchainContext;
  wf_role_cache : option (list RealmRoleCertificateContent);
  wf_role_cache_timestamp : option DateTime;
  wf_clock : nat }.
Arguments mkWorkspaceFS {Srv} _ _ _ _ _ _.
Arguments wf_transactions {Srv} _.
Arguments wf_server {Srv} _.
Arguments wf_trustchain {Srv} _.
Arguments wf_role_cache {Srv} _.
Arguments wf_role_cache_timestamp {Srv} _.
Arguments wf_clock {Srv} _.

Definition wf_storage {Srv} (s : WorkspaceFS Srv) : Storage := ft_storage (ss_ft (wf_transactions s)).
Definition set_storage (st : Storage) (ss : SyncState) : SyncState :=
  mkSyncState (mkFTState st (ft_write_count (ss_ft ss)) (ft_drawn (ss_ft ss)) (ft_events (ss_ft ss)))
    (ss_events ss).
(** [self.remote_loader], on the same storage. *)
Definition wf_loader {Srv} (s : WorkspaceFS Srv) : Loader Srv :=
  mkLoader (wf_server s) (wf_trustchain s) (wf_storage s) (wf_role_cache s)
    (wf_role_cache_timestamp s).
Definition wf_with_loader {Srv} (l : Loader Srv) (s : WorkspaceFS Srv) : WorkspaceFS Srv :=
  mkWorkspaceFS (set_storage (rl_storage l) (wf_transactions s)) (rl_server l) (rl_trustchain l)
    (rl_realm_role_certificates_cache l) (rl_realm_role_certificates_cache_timestamp l) (wf_clock s).

(** [base.evolve(timestamp=...)] *)
Definition rm_restamp (timestamp : DateTime) (m : RemoteManifest) : RemoteManifest :=
  match m with
  | RFile m => RFile (mkFileManifest (fim_author m) timestamp (fim_id m) (fim_parent m)
                        (fim_version m) (fim_created m) (fim_updated m) (fim_size m)
                        (fim_blocksize m) (fim_blocks m))
  | RFolder m => RFolder (mkFolderManifest (fom_author m) timestamp (fom_id m) (fom_parent m)
                            (fom_version m) (fom_created m) (fom_updated m) (fom_children m))
  | RWorkspace m => RWorkspace (mkWorkspaceManifest (wm_author m) timestamp (wm_id m)
                                  (wm_version m) (wm_created m) (wm_updated m) (wm_children m))
  | RUser m => RUser (mkUserManifest (um_author m) timestamp (um_id m) (um_version m)
                        (um_created m) (um_updated m) (um_last_processed_message m)
                        (um_workspaces m))
  end.
Definition is_remote_file (m : RemoteManifest) : bool :=
  match m with RFile _ => true | _ => false end.

(** [ReencryptionNeed] *)
Record ReencryptionNeed := mkReencryptionNeed {
  rn_user_revoked : list UserID;
  rn_role_revoked : gset UserID;
  rn_reencryption_already_in_progress : bool }.
Definition need_reencryption (n : ReencryptionNeed) : bool :=
  bool_decide (rn_role_revoked n ≠ ∅) || bool_decide (rn_user_revoked n ≠ []) ||
  rn_reencryption_already_in_progress n.

Section workspacefs.
Context `{CertifApi, LoaderApi} {Srv : Type} `{BackendCmds Srv, MaintenanceCmds Srv}.
(** The clock, the bounds of the recursions, the size of the cache of blocks; the
    device, the workspace, its entry in the user manifest; the filter of the user,
    and whether it was applied to all the entries; the random ids and keys; the
    orders of the sets and dicts. *)
Context (clock : nat → DateTime) (fuel depth : nat) (cache_size : Z) (device_id : DeviceID)
  (workspace_id : EntryID) (workspace_entry : WorkspaceEntry)
  (pattern_match : EntryName → bool) (force_filter : bool)
  (fresh : nat → UUID) (key : SecretKey)
  (order : gset EntryID → list EntryID) (user_order : gset UserID → list UserID)
  (items : gmap EntryName EntryID → odict EntryName EntryID).

Abbreviation wfM := (stM (WorkspaceFS Srv) FSExn) (only parsing).

(** [pendulum_now()] *)
Definition pendulum_now : wfM DateTime := λ s,
  (mkWorkspaceFS (wf_transactions s) (wf_server s) (wf_trustchain s) (wf_role_cache s)
     (wf_role_cache_timestamp s) (S (wf_clock s)), Ok (clock (wf_clock s))).

(** Calls on [self.transactions], [self.local_storage] and [self.remote_loader]. *)
Definition on_transactions {A} (m : stM SyncState FSExn A) : wfM A := λ s,
  let '(ss, r) := m (wf_transactions s) in
  (mkWorkspaceFS ss (wf_server s) (wf_trustchain s) (wf_role_cache s)
     (wf_role_cache_timestamp s) (wf_clock s), r).
Definition on_wf_storage {A} (m : stM Storage FSExn A) : wfM A := on_transactions (on_local m).
Definition on_remote_loader {A} (m : stM (Loader Srv) FSExn A) : wfM A := λ s,
  let '(l, r) := m (wf_loader s) in (wf_with_loader l s, r).

(** [try: ... except FSLocalMissError: None] *)
Definition unless_missing {A} (m : wfM A) : wfM (option A) :=
  try_catch (a ← m; mret (Some a))
    (λ e, match e with FSLocalMissError _ => mret None | e => mthrow e end).

(** ** Uploads *)

(** [_create_realm_if_needed] *)
Definition create_realm_if_needed : wfM unit :=
  workspace_manifest ← unless_missing (on_wf_storage (get_manifest workspace_id));
  match workspace_manifest with
  | Some m =>
      if lm_is_placeholder m then
        now ← pendulum_now;
        on_remote_loader (create_realm now device_id workspace_id)
      else mret tt
  | None => mret tt
  end.

(** [upload_manifest], or the last version of the server when it refuses it: the
    manifest to acknowledge, and whether it was uploaded. *)
Definition upload_or_load (entry_id : EntryID) (remote_manifest : RemoteManifest)
    : wfM (RemoteManifest * bool) :=
  try_catch
    (now ← pendulum_now;
     _ ← on_remote_loader (upload_manifest now device_id workspace_id workspace_entry entry_id
                             remote_manifest);
     mret (remote_manifest, true))
    (λ e, match e with
          | FSRemoteSyncError _ =>
              now ← pendulum_now;
              r ← on_remote_loader (rl_load_manifest now fuel workspace_id workspace_entry entry_id
                                      None None None);
              mret (r, false)
          | e => mthrow e
          end).

Definition synchronization_step_now (entry_id : EntryID) (remote_manifest : option RemoteManifest)
    (final : bool) : wfM (option (option RemoteManifest)) :=
  now ← pendulum_now;
  on_transactions (synchronization_step device_id pattern_match now fresh key hash_digest order items
                     depth entry_id remote_manifest force_filter final).

(** [minimal_sync]: [false] says that [depth] was not enough. *)
Definition minimal_sync (entry_id : EntryID) : wfM bool :=
  _ ← create_realm_if_needed;
  remote_manifest ← unless_missing
    (now ← pendulum_now; on_transactions (get_minimal_remote_manifest device_id now entry_id));
  match remote_manifest with
  | None | Some None => mret true
  | Some (Some remote_manifest) =>
      '(remote_manifest, _) ← upload_or_load entry_id remote_manifest;
      r ← unless_missing (synchronization_step_now entry_id (Some remote_manifest) true);
      mret (bool_decide (r ≠ Some None))
  end.

(** [_synchronize_placeholders] *)
Fixpoint minimal_sync_all (entry_ids : list EntryID) : wfM bool :=
  match entry_ids with
  | [] => mret true
  | child :: children =>
      b ← minimal_sync child;
      if b : bool then minimal_sync_all children else mret false
  end.
Definition synchronize_placeholders (manifest : RemoteManifest) : wfM bool :=
  children ← on_transactions (get_placeholder_children items manifest);
  minimal_sync_all children.

(** [_upload_blocks] *)
Definition upload_dirty_block (access : BlockAccess) : wfM unit :=
  data ← unless_missing (on_wf_storage (get_dirty_block (access_id access)));
  match data with
  | None => mret tt
  | Some data => on_remote_loader (upload_block cache_size workspace_id access data)
  end.
Definition upload_blocks (manifest : FileManifest) : wfM unit :=
  for_each upload_dirty_block (fim_blocks manifest).

(** [transactions.file_reshape], with the blocks that the remote loader gives. *)
Fixpoint wf_file_reshape (n : nat) (entry_id : EntryID) : wfM bool :=
  match n with
  | O => mret false
  | S n =>
      manifest ← on_wf_storage (get_manifest entry_id);
      match manifest with
      | LFile m =>
          missing ← on_transactions (on_ft (manifest_reshape fresh key hash_digest m false));
          match missing with
          | [] => mret true
          | _ =>
              _ ← on_remote_loader (rl_load_blocks cache_size missing);
              wf_file_reshape n entry_id
          end
      | _ => mthrow AttributeError
      end
  end.

(** ** Synchronization *)

(** What a turn of the loop of [_sync_by_id] starts with: the step, after which
    there is a version to upload or none, or a reshaping and another turn. *)
Inductive sync_step_result :=
| StepDone (new_remote_manifest : option RemoteManifest)
| StepReshaped
| StepFuel.
Definition sync_step (entry_id : EntryID) (remote_manifest : option RemoteManifest) (final : bool)
    : wfM sync_step_result :=
  try_catch
    (try_catch
       (r ← synchronization_step_now entry_id remote_manifest final;
        mret (match r with Some r => StepDone r | None => StepFuel end))
       (λ e, match e with
             | FSReshapingRequiredError _ =>
                 b ← wf_file_reshape fuel entry_id;
                 mret (if b : bool then StepReshaped else StepFuel)
             | e => mthrow e
             end))
    (λ e, match e with
          | FSLocalMissError _ => mthrow (FSNoSynchronizationRequired entry_id)
          | e => mthrow e
          end).

(** What a version needs on the server before it is uploaded: its placeholder
    children, its blocks. *)
Definition upload_contents (new_remote_manifest : RemoteManifest) : wfM bool :=
  match new_remote_manifest with
  | RFile m => _ ← upload_blocks m; mret true
  | RFolder _ | RWorkspace _ => synchronize_placeholders new_remote_manifest
  | RUser _ => mret true
  end.

(** The loop of [_sync_by_id]: [None] says that [n] turns, or [depth], were not
    enough. *)
Fixpoint sync_loop (n : nat) (entry_id : EntryID) (remote_manifest : option RemoteManifest)
    (final : bool) : wfM (option RemoteManifest) :=
  match n with
  | O => mret None
  | S n =>
      step ← sync_step entry_id remote_manifest final;
      match step with
      | StepFuel => mret None
      | StepReshaped => sync_loop n entry_id remote_manifest final
      | StepDone None =>
          match remote_manifest with
          | Some r => mret (Some r)
          | None => m ← on_wf_storage (get_manifest entry_id); mret (Some (local_base m))
          end
      | StepDone (Some new_remote_manifest) =>
          b ← upload_contents new_remote_manifest;
          if b : bool then
            now ← pendulum_now;
            '(r, uploaded) ← upload_or_load entry_id (rm_restamp now new_remote_manifest);
            sync_loop n entry_id (Some r) (final || uploaded)
          else mret None
      end
  end.

(** [_sync_by_id] *)
Definition sync_entry (entry_id : EntryID) (remote_changed : bool) : wfM (option RemoteManifest) :=
  remote_manifest ← (if remote_changed then
      try_catch
        (now ← pendulum_now;
         r ← on_remote_loader (rl_load_manifest now fuel workspace_id workspace_entry entry_id
                                 None None None);
         mret (Some r))
        (λ e, match e with
              | FSRemoteManifestNotFound _ | FSRemoteManifestNotFoundBadVersion _
              | FSRemoteManifestNotFoundBadTimestamp _ => mret None
              | e => mthrow e
              end)
    else mret None);
  sync_loop fuel entry_id remote_manifest false.

(** [sync_by_id]: [n] bounds the depth of the entries and the conflicts. *)
Fixpoint sync_by_id (n : nat) (entry_id : EntryID) (remote_changed recursive : bool) : wfM bool :=
  match n with
  | O => mret false
  | S n =>
      _ ← create_realm_if_needed;
      manifest ← try_catch
        (r ← sync_entry entry_id remote_changed; mret (Some (inl r)))
        (λ e, match e with
              | FSNoSynchronizationRequired _ => mret None
              | FSFileConflictError parent remote => mret (Some (inr (parent, remote)))
              | e => mthrow e
              end);
      match manifest with
      | None => mret true
      | Some (inl None) => mret false
      | Some (inr (parent, remote)) =>
          now ← pendulum_now;
          _ ← on_transactions (file_conflict device_id pattern_match now fresh key hash_digest items
                                 entry_id parent remote);
          sync_by_id n parent true true
      | Some (inl (Some manifest)) =>
          if negb recursive || is_remote_file manifest then mret true
          else
            (fix sync_children (children : list EntryID) : wfM bool :=
               match children with
               | [] => mret true
               | child :: children =>
                   b ← sync_by_id n child remote_changed true;
                   if b : bool then sync_children children else mret false
               end) (items (rm_children manifest)).*2
      end
  end.

(** [sync] *)
Definition sync (n : nat) (remote_changed : bool) : wfM bool :=
  sync_by_id n workspace_id remote_changed true.

(** ** The filter *)

(** [_recursive_apply_filter]; a user manifest has no [children]. *)
Fixpoint recursive_apply_filter (n : nat) (entry_id : EntryID) : wfM bool :=
  match n with
  | O => mret false
  | S n =>
      manifest ← unless_missing (on_wf_storage (get_manifest entry_id));
      match manifest with
      | None | Some (LFile _) => mret true
      | Some (LUser _) => mthrow AttributeError
      | Some (LFolderish m) =>
          now ← pendulum_now;
          _ ← on_transactions (sync_apply_filter pattern_match now entry_id);
          (fix apply_children (children : list EntryID) : wfM bool :=
             match children with
             | [] => mret true
             | child :: children =>
                 b ← recursive_apply_filter n child;
                 if b : bool then apply_children children else mret false
             end) (items (fd_children m)).*2
      end
  end.

(** ** Roles *)

Definition or_no_access {A} (m : wfM A) (default : A) : wfM A :=
  try_catch m (λ e, match e with
                    | FSWorkspaceNoAccess | FSWorkspaceNoReadAccess | FSWorkspaceNoWriteAccess =>
                        mret default
                    | e => mthrow e
                    end).
(** A workspace that was never uploaded has no role on the server. *)
Definition workspace_is_placeholder : wfM bool :=
  m ← unless_missing (on_wf_storage (get_manifest workspace_id));
  mret (match m with Some m => lm_is_placeholder m | None => false end).

(** [get_user_roles] *)
Definition get_user_roles : wfM (gmap UserID RealmRole) :=
  placeholder ← workspace_is_placeholder;
  if placeholder : bool then mret {[user_id device_id := OWNER]}
  else
    now ← pendulum_now;
    or_no_access (on_remote_loader (load_realm_current_roles now fuel workspace_id None)) ∅.

(** The loop of [get_reencryption_need] over the certificates. *)
Definition revoked_step (encrypted_on : DateTime) (sets : gset UserID * gset UserID)
    (certif : RealmRoleCertificateContent) : gset UserID * gset UserID :=
  let '(has_role, role_revoked) := sets in
  match rr_role certif with
  | None =>
      (has_role ∖ {[rr_user_id certif]},
       if encrypted_on <? rr_timestamp certif then {[rr_user_id certif]} ∪ role_revoked
       else role_revoked)
  | Some _ => ({[rr_user_id certif]} ∪ has_role, role_revoked ∖ {[rr_user_id certif]})
  end.
Fixpoint revoked_users (encrypted_on : DateTime) (users : list UserID) : wfM (list UserID) :=
  match users with
  | [] => mret []
  | u :: users =>
      now ← pendulum_now;
      '(_, revoked_user) ← on_remote_loader (rl_get_user now fuel u true);
      l ← revoked_users encrypted_on users;
      mret (match revoked_user with
            | Some r => if encrypted_on <? rc_timestamp r then u :: l else l
            | None => l
            end)
  end.

(** [get_reencryption_need]; the status of the reply is not looked at, so that a
    refusal is a [KeyError]. *)
Definition get_reencryption_need : wfM ReencryptionNeed :=
  placeholder ← workspace_is_placeholder;
  if placeholder : bool then mret (mkReencryptionNeed [] ∅ false)
  else
    rep ← on_remote_loader (backend_cmds (cmd_realm_status workspace_id));
    '(in_maintenance, status) ← (match rep with RepOk r => mret r | RepError _ => mthrow KeyError end);
    now ← pendulum_now;
    certificates ← on_remote_loader (load_realm_role_certificates now fuel workspace_id None);
    let '(has_role, role_revoked) :=
      foldl (revoked_step (we_encrypted_on workspace_entry)) (∅, ∅) certificates in
    user_revoked ← revoked_users (we_encrypted_on workspace_entry) (user_order has_role);
    mret (mkReencryptionNeed user_revoked role_revoked
            (in_maintenance && bool_decide (rs_maintenance_type status = Some REENCRYPTION))).

(** [get_earliest_timestamp] *)
Definition get_earliest_timestamp : wfM DateTime :=
  now ← pendulum_now;
  manifest ← on_remote_loader (rl_load_manifest now fuel workspace_id workspace_entry
                                 (we_id workspace_entry) (Some 1) None None);
  mret (rm_timestamp manifest).
End workspacefs.
