(* ===== verification/WorkspaceFSProofs.v ===== *)
(** The synchronization of an entry with the server of this library, call by call:
    the blocks that are uploaded, the manifest, and what is left on both sides. *)

From S2P Require Import Prelude PyString Types ApiManifest Chunk LocalManifest FileOperations.
From S2P Require Import FileContent Storage FileTransactions FileRefinement Merging.
From S2P Require Import MergingProperties EntryTransactions EntryProperties SyncTransactions.
From S2P Require Import SyncProperties Backend Certif BackendUser BackendMessage BackendVlob.
From S2P Require Import BackendVlobProofs BackendRealm BlockStore BackendBlock BackendOrganization.
From S2P Require Import BackendSystem BackendVlobSpec Trustchain RemoteDevices RemoteLoader.
From S2P Require Import ReencryptionJob ClientServer WorkspaceFS.

(** ** The manifests *)

Lemma rm_restamp_id t r : rm_id (rm_restamp t r) = rm_id r.
Proof. by destruct r. Qed.
Lemma rm_restamp_version t r : rm_version (rm_restamp t r) = rm_version r.
Proof. by destruct r. Qed.
Lemma rm_restamp_author t r : rm_author (rm_restamp t r) = rm_author r.
Proof. by destruct r. Qed.
Lemma rm_restamp_timestamp t r : rm_timestamp (rm_restamp t r) = t.
Proof. by destruct r. Qed.
(** The manifest to upload only depends on the time by its timestamp. *)
Lemma lm_to_remote_restamp m author t t' r :
  lm_to_remote m author t = Ok r → lm_to_remote m author t' = Ok (rm_restamp t' r).
Proof.
  destruct m as [f|f|u]; cbn; [| |by intros [= <-]].
  - unfold file_to_remote. destruct (assert_integrity f), (is_reshaped f); cbn; try done.
    destruct (block_accesses (lf_blocks f)); cbn; [by intros [= <-]|done].
  - intros [= <-]. unfold folderish_to_remote. by destruct (fd_base f).
Qed.
Lemma remote_of_class_restamp pattern_match m t r :
  remote_of_class pattern_match m r → remote_of_class pattern_match m (rm_restamp t r).
Proof. by destruct m, r. Qed.

(** ** The server *)

Section server.
Context `{CertifApi, LoaderApi} (now : DateTime) (ctx : ClientCtx).
Abbreviation org := (cc_organization_id ctx).
Abbreviation cmds := (server_cmds now ctx).

(** The server takes the version of a manifest. *)
Record takes_version (s : Backend) (workspace_id entry_id : UUID) (rev version : Z) (ts : DateTime)
    : Prop := {
  tv_access : access_granted s org workspace_id (cc_user_id ctx) can_write_roles false;
  tv_revision : revision_is s org workspace_id rev;
  tv_date : timestamps_in_the_ballpark ts now = true;
  tv_vlob : match vlob_at s org entry_id with
            | None => version = 1
            | Some v => v_realm_id v = workspace_id ∧ history_ok v ∧
                version = current_version v + 1 ∧ Forall (λ x, x.2 <= ts) (v_data v)
            end }.
(** What it holds after it. *)
Definition holds_version (s : Backend) (workspace_id entry_id : UUID) (version : Z)
    (blob : bytes) (ts : DateTime) : Prop :=
  ∃ v, vlob_at s org entry_id = Some v ∧ v_realm_id v = workspace_id ∧
    current_version v = version ∧ last (v_data v) = Some (blob, cc_device_id ctx, ts).

Lemma takes_version_frame s s' workspace_id entry_id rev version ts :
  be_realms s' = be_realms s → be_vlobs s' = be_vlobs s →
  takes_version s workspace_id entry_id rev version ts →
  takes_version s' workspace_id entry_id rev version ts.
Proof.
  intros Hr Hv [Ha Hrev Hd Hvl]. split; [|by unfold revision_is; rewrite Hr|done|].
  - unfold access_granted. by rewrite Hr.
  - unfold vlob_at. by rewrite Hv.
Qed.

Lemma backend_cmds_run {A} (m : backendM (reply A)) (s : Loader Backend) srv rep :
  m (rl_server s) = (srv, Ok rep) →
  backend_cmds (served m) s =
    (mkLoader srv (rl_trustchain s) (rl_storage s) (rl_realm_role_certificates_cache s)
       (rl_realm_role_certificates_cache_timestamp s), Ok rep).
Proof. intros E. unfold backend_cmds, served. by rewrite E. Qed.

Lemma api_vlob_create_taken s workspace_id entry_id rev ts blob :
  takes_version s workspace_id entry_id rev 1 ts → vlob_at s org entry_id = None →
  ∃ s', api_vlob_create now ctx workspace_id rev entry_id ts blob s = (s', Ok (RepOk tt)) ∧
    be_realms s' = be_realms s ∧ be_blocks s' = be_blocks s ∧
    holds_version s' workspace_id entry_id 1 blob ts ∧
    ∀ org' id, (org', id) ≠ (org, entry_id) → vlob_at s' org' id = vlob_at s org' id.
Proof.
  intros [Hacc Hrev Hd _] Hnone. unfold api_vlob_create. rewrite Hd. cbn [negb].
  pose proof (vlob_create_eq org (cc_device_id ctx) workspace_id rev entry_id ts blob s) as E.
  unfold vlob_create_refusal in E.
  rewrite (proj2 (vlob_refusal_None s org workspace_id (user_id (cc_device_id ctx)) (Some rev) _ _)) in E.
  2:{ split; [done|]. by intros n [= <-]. }
  unfold od_mem in E. unfold vlob_at in Hnone.
  rewrite Hnone, bool_decide_eq_false_2 in E by (by intros []).
  rewrite (reply_of_eq _ _ _ _ _ _ E).
  eexists. split; [done|]. split_and!; [done|done| |].
  - eexists. rewrite vlob_at_written, decide_True by done. done.
  - intros org' id Hne. by rewrite vlob_at_written, decide_False by congruence.
Qed.

Lemma api_vlob_update_taken s workspace_id entry_id rev version ts blob v :
  takes_version s workspace_id entry_id rev version ts → vlob_at s org entry_id = Some v →
  ∃ s', api_vlob_update now ctx rev entry_id version ts blob s = (s', Ok (RepOk tt)) ∧
    be_realms s' = be_realms s ∧ be_blocks s' = be_blocks s ∧
    holds_version s' workspace_id entry_id version blob ts ∧
    ∀ org' id, (org', id) ≠ (org, entry_id) → vlob_at s' org' id = vlob_at s org' id.
Proof.
  intros [Hacc Hrev Hd Hv] Hat. rewrite Hat in Hv. destruct Hv as (Hr & Hh & -> & Hts).
  unfold api_vlob_update. rewrite Hd. unfold validate_version.
  rewrite (proj2 (Z.leb_le 1 (current_version v + 1))) by (unfold current_version; lia). cbn [negb].
  pose proof (vlob_update_eq org (cc_device_id ctx) rev entry_id (current_version v + 1) ts blob s v
    Hat (proj1 Hh)) as E.
  rewrite (proj2 (vlob_update_refusal_None s org (user_id (cc_device_id ctx)) rev v _ ts Hh)) in E.
  2:{ by rewrite Hr. }
  rewrite (reply_of_eq _ _ _ _ _ _ E).
  eexists. split; [done|]. split_and!; [done|done| |].
  - eexists. rewrite vlob_at_written, decide_True by done. split_and!; [done|done| |].
    + unfold current_version. cbn [v_data]. rewrite length_app. cbn. lia.
    + cbn [v_data]. by rewrite last_snoc.
  - intros org' id Hne. by rewrite vlob_at_written, decide_False by congruence.
Qed.

(** [upload_manifest] of a version that the server takes. *)
Lemma upload_manifest_taken now' workspace_id w entry_id m (s : Loader Backend) raw blob :
  rm_author m = cc_device_id ctx →
  timestamps_in_the_ballpark (rm_timestamp m) now' = true →
  dumps_manifest m = Some raw → secret_encrypt (we_key w) (device_sign raw) = Some blob →
  takes_version (rl_server s) workspace_id entry_id (we_encryption_revision w) (rm_version m)
    (rm_timestamp m) →
  ∃ srv, upload_manifest (H1 := cmds) now' (cc_device_id ctx) workspace_id w entry_id m s
      = (mkLoader srv (rl_trustchain s) (rl_storage s) (rl_realm_role_certificates_cache s)
           (rl_realm_role_certificates_cache_timestamp s), Ok tt) ∧
    be_realms srv = be_realms (rl_server s) ∧ be_blocks srv = be_blocks (rl_server s) ∧
    holds_version srv workspace_id entry_id (rm_version m) blob (rm_timestamp m) ∧
    ∀ org' id, (org', id) ≠ (org, entry_id) → vlob_at srv org' id = vlob_at (rl_server s) org' id.
Proof.
  intros Ha Ht Hraw Hblob Htv. unfold upload_manifest.
  rewrite (bind_Ok _ _ s s tt) by (by rewrite bool_decide_eq_false_2 by (intros Hn; by apply Hn)). cbv beta.
  rewrite (bind_Ok _ _ s s tt) by (by rewrite Ht). cbv beta.
  rewrite (bind_Ok _ _ s s raw) by (by rewrite Hraw). cbv beta.
  rewrite (bind_Ok _ _ s s blob) by (by rewrite Hblob). cbv beta.
  destruct (vlob_at (rl_server s) org entry_id) as [v|] eqn:Ev.
  - destruct (api_vlob_update_taken _ _ _ _ _ _ blob v Htv Ev) as (srv & E & Hrest).
    exists srv. split; [|done]. pose proof (tv_vlob _ _ _ _ _ _ Htv) as Hv. rewrite Ev in Hv.
    destruct Hv as (_ & [Hne _] & Hver & _).
    assert (current_version v ≠ 0) as Hpos by (unfold current_version; destruct (v_data v); [done|cbn; lia]).
    replace (rm_version m =? 1) with false by lia. cbv iota. unfold rl_vlob_update.
    by erewrite (bind_Ok _ _ s) by (by apply backend_cmds_run).
  - pose proof (tv_vlob _ _ _ _ _ _ Htv) as Hv. rewrite Ev in Hv. rewrite Hv in *. rewrite Z.eqb_refl.
    destruct (api_vlob_create_taken _ _ _ _ _ blob Htv Ev) as (srv & E & Hrest).
    exists srv. split; [|done]. unfold rl_vlob_create.
    by erewrite (bind_Ok _ _ s) by (by apply backend_cmds_run).
Qed.

(** A block that the server takes, or that it has already. *)
Lemma block_check_ok s realm_id user allowed :
  access_granted s org realm_id user allowed false →
  block_check_realm_access org realm_id user allowed s = (s, Ok tt).
Proof.
  intros (realm & role & Hr & Hrole & Hin & Hm). unfold block_check_realm_access.
  rewrite (bind_Ok _ _ s s realm).
  2: { unfold try_catch, get_realm, gets, of_option, mbind, stM_bind. by rewrite Hr. }
  cbv beta. unfold role_of in Hrole. rewrite Hrole. cbn [role_in]. rewrite bool_decide_true by done.
  rewrite (bind_Ok _ _ s s tt) by done. cbv beta. by rewrite Hm.
Qed.
Lemma create_block_eq s block_id realm_id block :
  access_granted s org realm_id (cc_user_id ctx) can_write_roles false →
  create_block org (cc_device_id ctx) block_id realm_id block s =
    match be_blocks s !! (org, block_id) with
    | Some _ => (s, Err BlockAlreadyExistsError)
    | None => (set_blockmetas <[(org, block_id) := mkBlockMeta realm_id (Z.of_nat (length block))]>
                 (set_be_blocks (λ _, <[(org, block_id) := block]> (be_blocks s)) s), Ok tt)
    end.
Proof.
  intros Hacc. unfold create_block. rewrite (bind_Ok _ _ s s tt) by (by apply block_check_ok).
  cbv beta. rewrite (bind_Ok _ _ s s (be_blocks s) eq_refl). cbv beta.
  cbn [bs_create MemoryBlockStore_ops]. unfold memory_create.
  destruct (be_blocks s !! (org, block_id)); [by destruct s|done].
Qed.

Definition with_server (srv : Backend) (st : Storage) (s : Loader Backend) : Loader Backend :=
  mkLoader srv (rl_trustchain s) st (rl_realm_role_certificates_cache s)
    (rl_realm_role_certificates_cache_timestamp s).
Lemma upload_block_taken cache_size workspace_id access data block (s : Loader Backend) :
  access_granted (rl_server s) org workspace_id (cc_user_id ctx) can_write_roles false →
  secret_encrypt (access_key access) data = Some block →
  ∃ srv st, upload_block (H1 := cmds) cache_size workspace_id access data s
      = (with_server srv st s, Ok tt) ∧
    be_realms srv = be_realms (rl_server s) ∧ be_vlobs srv = be_vlobs (rl_server s) ∧
    (∃ b, be_blocks srv !! (org, access_id access) = Some b ∧
       be_blocks srv = <[(org, access_id access) := b]> (be_blocks (rl_server s)) ∧
       (b = block ∧ be_blocks (rl_server s) !! (org, access_id access) = None ∨
        be_blocks (rl_server s) !! (org, access_id access) = Some b)) ∧
    st_chunks st = delete (access_id access) (st_chunks (rl_storage s)) ∧
    ∀ e, current st e = current (rl_storage s) e.
Proof.
  intros Hacc Henc. unfold upload_block.
  rewrite (bind_Ok _ _ s s block) by (by rewrite Henc). cbv beta.
  assert (∃ srv rep, backend_cmds (cmd_block_create (BackendCmds := cmds) (access_id access)
       workspace_id block) s = (with_server srv (rl_storage s) s, Ok rep) ∧
    (rep = RepOk tt ∨ rep = RepError "already_exists") ∧
    be_realms srv = be_realms (rl_server s) ∧ be_vlobs srv = be_vlobs (rl_server s) ∧
    (∃ b, be_blocks srv !! (org, access_id access) = Some b ∧
       be_blocks srv = <[(org, access_id access) := b]> (be_blocks (rl_server s)) ∧
       (b = block ∧ be_blocks (rl_server s) !! (org, access_id access) = None ∨
        be_blocks (rl_server s) !! (org, access_id access) = Some b)))
    as (srv & rep & E & Hrep & ? & ? & ?).
  { pose proof (create_block_eq (rl_server s) (access_id access) workspace_id block Hacc) as E.
    destruct (be_blocks (rl_server s) !! (org, access_id access)) as [b|] eqn:Eb;
      (do 2 eexists; split; [apply backend_cmds_run; exact (reply_of_eq _ _ _ _ _ _ E)|]).
    - split_and!; [by right|done|done|]. exists b. split_and!; [done| |by right]. by rewrite insert_id.
    - split_and!; [by left|done|done|]. exists block. cbn. rewrite lookup_insert_eq. auto. }
  rewrite (bind_Ok _ _ _ _ _ E). cbv beta.
  rewrite (bind_Ok _ _ _ (with_server srv (rl_storage s) s) tt) by (by destruct Hrep as [->| ->]).
  exists srv, (set_chunks (delete (access_id access))
    (block_storage_set cache_size (access_id access) data (rl_storage s)).1). split.
  { unfold with_server at 1, on_local_storage, clear_chunk, try_catch, chunk_storage_clear, set_clean_block,
      mbind, stM_bind, gets, modify, raise_if. cbn.
    case_bool_decide; done. }
  split_and!; try done.
Qed.
End server.

(** ** The workspace *)

(** The manifests of the local storage. *)
Definition wf_tree {Srv} (s : WorkspaceFS Srv) : EntryID → option LocalManifest :=
  sync_tree (wf_transactions s).
(** The data of a block that is still to upload. *)
Definition dirty {Srv} (s : WorkspaceFS Srv) (id : BlockID) : option bytes :=
  st_chunks (wf_storage s) !! id.

Lemma sync_tree_set_storage st ss e :
  current st e = current (ft_storage (ss_ft ss)) e → sync_tree (set_storage st ss) e = sync_tree ss e.
Proof. done. Qed.

Section workspace.
Context `{CertifApi, LoaderApi} (now : DateTime) (ctx : ClientCtx).
Abbreviation org := (cc_organization_id ctx).
Abbreviation cmds := (server_cmds now ctx).
Context (clock : nat → DateTime) (fuel depth : nat) (cache_size : Z)
  (workspace_id : EntryID) (workspace_entry : WorkspaceEntry)
  (pattern_match : EntryName → bool) (fresh : nat → UUID) (key : SecretKey)
  (order : gset EntryID → list EntryID)
  (items : gmap EntryName EntryID → odict EntryName EntryID).

(** Blocks went to the server, and nothing else changed. *)
Record blocks_moved (s s' : WorkspaceFS Backend) : Prop := {
  bm_realms : be_realms (wf_server s') = be_realms (wf_server s);
  bm_vlobs : be_vlobs (wf_server s') = be_vlobs (wf_server s);
  bm_blocks : be_blocks (wf_server s) ⊆ be_blocks (wf_server s');
  bm_tree e : wf_tree s' e = wf_tree s e;
  bm_dirty id d : dirty s' id = Some d → dirty s id = Some d;
  bm_clock : wf_clock s' = wf_clock s }.
#[local] Instance blocks_moved_refl : Reflexive blocks_moved.
Proof. by split. Qed.
#[local] Instance blocks_moved_trans : Transitive blocks_moved.
Proof.
  intros s1 s2 s3 [? ? ? Ht1 ? ?] [? ? ? Ht2 ? ?].
  split; [congruence|congruence|by etrans|intros e; by rewrite Ht2|auto|congruence].
Qed.

(** The server has the block of an access, encrypted with its key, or had one under
    this id before. *)
Definition block_there (s s' : WorkspaceFS Backend) (access : BlockAccess) (d : bytes) : Prop :=
  ∃ b, be_blocks (wf_server s') !! (org, access_id access) = Some b ∧
    (secret_encrypt (access_key access) d = Some b ∨
     be_blocks (wf_server s) !! (org, access_id access) = Some b).

Lemma upload_dirty_block_ok access (s : WorkspaceFS Backend) :
  access_granted (wf_server s) org workspace_id (cc_user_id ctx) can_write_roles false →
  (∀ d, dirty s (access_id access) = Some d → is_Some (secret_encrypt (access_key access) d)) →
  ∃ s', upload_dirty_block (H1 := cmds) cache_size workspace_id access s = (s', Ok tt) ∧
    blocks_moved s s' ∧ dirty s' (access_id access) = None ∧
    (∀ id, id ≠ access_id access → dirty s' id = dirty s id) ∧
    (∀ id, id ≠ access_id access →
       be_blocks (wf_server s') !! (org, id) = be_blocks (wf_server s) !! (org, id)) ∧
    (∀ d, dirty s (access_id access) = Some d → block_there s s' access d).
Proof.
  intros Hacc Henc. unfold upload_dirty_block.
  destruct (dirty s (access_id access)) as [d|] eqn:Ed.
  - rewrite (bind_Ok _ _ s s (Some d)).
    2:{ unfold unless_missing, try_catch, on_wf_storage, on_transactions, on_local, on_ft, on_storage,
          get_dirty_block, chunk_storage_get, mbind, stM_bind, gets, of_option.
        unfold dirty, wf_storage in Ed. rewrite Ed. by destruct s as [[[] ?]]. }
    cbv beta iota. destruct (Henc d eq_refl) as [block Hblock].
    destruct (upload_block_taken now ctx cache_size workspace_id access d block (wf_loader s) Hacc Hblock)
      as (srv & st & E & Hr & Hv & (b & Hb & Hbs & Hcase) & Hst & Hcur).
    unfold on_remote_loader. rewrite E. eexists. split; [done|].
    cbn in *. split_and!.
    + split; cbn; try done.
      * rewrite Hbs. apply map_subseteq_spec. intros k x Hx.
        destruct (decide (k = (org, access_id access))) as [->|]; [|by rewrite lookup_insert_ne].
        rewrite lookup_insert_eq. destruct Hcase as [[-> ?]|]; congruence.
      * unfold dirty, wf_storage. cbn. rewrite Hst. by intros id x [_ ?]%lookup_delete_Some.
    + unfold dirty, wf_storage. cbn. by rewrite Hst, lookup_delete_eq.
    + intros id Hne. unfold dirty, wf_storage. cbn. by rewrite Hst, lookup_delete_ne.
    + intros id Hne. rewrite Hbs, lookup_insert_ne by congruence. done.
    + intros d' [= <-]. exists b. split; [done|]. destruct Hcase as [[-> _]|]; auto.
  - rewrite (bind_Ok _ _ s s None).
    2:{ unfold unless_missing, try_catch, on_wf_storage, on_transactions, on_local, on_ft, on_storage,
          get_dirty_block, chunk_storage_get, mbind, stM_bind, gets, of_option.
        unfold dirty, wf_storage in Ed. rewrite Ed. by destruct s as [[[] ?]]. }
    exists s. split_and!; done.
Qed.

Lemma upload_blocks_ok (l : list BlockAccess) (s : WorkspaceFS Backend) :
  access_granted (wf_server s) org workspace_id (cc_user_id ctx) can_write_roles false →
  NoDup (access_id <$> l) →
  (∀ a d, a ∈ l → dirty s (access_id a) = Some d → is_Some (secret_encrypt (access_key a) d)) →
  ∃ s', for_each (upload_dirty_block (H1 := cmds) cache_size workspace_id) l s = (s', Ok tt) ∧
    blocks_moved s s' ∧
    ∀ a d, a ∈ l → dirty s (access_id a) = Some d → block_there s s' a d.
Proof.
  revert s. induction l as [|a l IH]; intros s Hacc Hnd Henc.
  { exists s. split_and!; [done|done|]. by intros a d ?%not_elem_of_nil. }
  cbn [fmap list_fmap] in Hnd. apply NoDup_cons in Hnd as [Ha Hnd].
  destruct (upload_dirty_block_ok a s Hacc) as (s1 & E1 & Hm1 & _ & Hd1 & Hb1 & Hthere).
  { intros d. apply Henc. by left. }
  assert (∀ b, b ∈ l → access_id b ≠ access_id a) as Hne.
  { intros b Hb Heq. apply Ha. rewrite <-Heq. by apply list_elem_of_fmap_2. }
  destruct (IH s1) as (s2 & E2 & Hm2 & Hthere2).
  { unfold access_granted. by rewrite (bm_realms _ _ Hm1). }
  { done. }
  { intros b d Hb Hd. rewrite Hd1 in Hd by auto. eapply Henc; [by right|done]. }
  exists s2. split_and!; [|by etrans|].
  - cbn [for_each]. by rewrite (bind_Ok _ _ s s1 tt).
  - intros b d [->|Hb]%elem_of_cons Hd.
    + destruct (Hthere d Hd) as (x & Hx & Hcase). exists x. split; [|done].
      by eapply (lookup_weaken _ _ _ _ Hx), Hm2.
    + destruct (Hthere2 b d Hb) as (x & Hx & Hcase); [by rewrite Hd1 by auto|].
      exists x. split; [done|]. by rewrite Hb1 in Hcase by auto.
Qed.

(** *** The steps of the loop *)

Definition wf_quiet (s s' : WorkspaceFS Backend) : Prop :=
  wf_server s' = wf_server s ∧ sync_quiet (wf_transactions s) (wf_transactions s').
Lemma dirty_quiet (s s' : WorkspaceFS Backend) id : wf_quiet s s' → dirty s' id = dirty s id.
Proof. intros [_ [[Hq _ _] _]]. unfold dirty, wf_storage. by rewrite (q_chunks _ _ Hq). Qed.
Lemma wf_tree_quiet (s s' : WorkspaceFS Backend) e : wf_quiet s s' → wf_tree s' e = wf_tree s e.
Proof. intros [_ Hq]. by apply sync_tree_quiet. Qed.

(** [synchronization_step] at the time of the clock. *)
Lemma step_now_run e remote final (s : WorkspaceFS Backend) ss r :
  synchronization_step (cc_device_id ctx) pattern_match (clock (wf_clock s)) fresh key hash_digest
    order items depth e remote false final (wf_transactions s) = (ss, r) →
  synchronization_step_now clock depth (cc_device_id ctx) pattern_match false fresh key order items
      e remote final s
    = (mkWorkspaceFS ss (wf_server s) (wf_trustchain s) (wf_role_cache s) (wf_role_cache_timestamp s)
         (S (wf_clock s)), r).
Proof.
  intros E. unfold synchronization_step_now. rewrite (bind_Ok _ _ s _ _ eq_refl). cbv beta.
  unfold on_transactions. cbn [wf_transactions]. by rewrite E.
Qed.

(** The children of a manifest, none of which is a placeholder. *)
Lemma no_placeholder_children l (ss : SyncState) :
  (∀ c m, c ∈ l → sync_tree ss c = Some m → lm_is_placeholder m = false) →
  ∃ ss', placeholder_children l ss = (ss', Ok []) ∧ sync_quiet ss ss'.
Proof.
  revert ss. induction l as [|c l IH]; intros ss Hl; [by exists ss|].
  cbn [placeholder_children].
  destruct (sync_tree ss c) as [m|] eqn:Ec.
  - destruct (on_local_get_ok ss c m Ec) as (s1 & E1 & Hq1).
    destruct (IH s1) as (s2 & E2 & Hq2).
    { intros c' m' Hc'. rewrite (sync_tree_quiet ss) by done. apply Hl. by right. }
    exists s2. split; [|by etrans]. rewrite (bind_Ok _ _ ss s1 (Some m)).
    2:{ unfold try_catch, mbind, stM_bind. by rewrite E1. }
    cbv beta. rewrite (bind_Ok _ _ s1 s2 []) by done. cbv beta iota.
    by rewrite (Hl c m) by (done || by left).
  - destruct (IH ss) as (s2 & E2 & Hq2).
    { intros c' m' Hc'. apply Hl. by right. }
    exists s2. split; [|done]. rewrite (bind_Ok _ _ ss ss None).
    2:{ unfold sync_tree, tree, current in Ec. unfold try_catch, mbind, stM_bind, on_local, on_ft,
          on_storage, get_manifest.
        destruct (st_cache _ !! c); [done|]. destruct (st_vlobs _ !! c); [done|].
        by destruct ss as [[] ?]. }
    cbv beta. by rewrite (bind_Ok _ _ ss s2 []).
Qed.
End workspace.
