(* ===== verification/WorkspaceFSProperties.v ===== *)
(** The theorems on the synchronization of a workspace with the server. *)

From S2P Require Import Prelude PyString Types ApiManifest Chunk LocalManifest FileOperations.
From S2P Require Import FileContent Storage FileTransactions FileRefinement Merging.
From S2P Require Import MergingProperties EntryTransactions EntryProperties SyncTransactions.
From S2P Require Import SyncProperties Backend Certif BackendUser BackendMessage BackendVlob.
From S2P Require Import BackendVlobProofs BackendRealm BlockStore BackendBlock BackendOrganization.
From S2P Require Import BackendSystem BackendVlobSpec Trustchain RemoteDevices RemoteLoader.
From S2P Require Import ReencryptionJob ClientServer ClientServerExample WorkspaceFS.
From S2P Require Import WorkspaceFSProofs.

Import Byte.

Section sync.
Context `{CertifApi, LoaderApi} (now : DateTime) (ctx : ClientCtx).
Abbreviation org := (cc_organization_id ctx).
Abbreviation cmds := (server_cmds now ctx).
Context (clock : nat → DateTime) (fuel depth : nat) (cache_size : Z)
  (workspace_id : EntryID) (workspace_entry : WorkspaceEntry)
  (pattern_match : EntryName → bool) (fresh : nat → UUID) (key : SecretKey)
  (order : gset EntryID → list EntryID)
  (items : gmap EntryName EntryID → odict EntryName EntryID).
Abbreviation sync_entry := (sync_entry (H1 := cmds) clock fuel depth cache_size (cc_device_id ctx)
  workspace_id workspace_entry pattern_match false fresh key order items).

(** The blocks of a file, and the entries of a folder. *)
Definition accesses (r : RemoteManifest) : list BlockAccess :=
  match r with RFile m => fim_blocks m | _ => [] end.

Lemma ready_ext s s' n e m :
  (∀ e', sync_tree s' e' = sync_tree s e') → ready pattern_match s n e m → ready pattern_match s' n e m.
Proof.
  intros Ht (Hm & Hu & Hrest). split; [by rewrite Ht|]. split; [|done]. by eapply unconfined_ext.
Qed.

Lemma upload_contents_ok r (s : WorkspaceFS Backend) :
  access_granted (wf_server s) org workspace_id (cc_user_id ctx) can_write_roles false →
  NoDup (access_id <$> accesses r) →
  (∀ a d, a ∈ accesses r → dirty s (access_id a) = Some d → is_Some (secret_encrypt (access_key a) d)) →
  (∀ c m, c ∈ (items (rm_children r)).*2 → wf_tree s c = Some m → lm_is_placeholder m = false) →
  ∃ s', upload_contents (H1 := cmds) clock fuel depth cache_size (cc_device_id ctx) workspace_id
      workspace_entry pattern_match false fresh key order items r s = (s', Ok true) ∧
    blocks_moved s s' ∧
    ∀ a d, a ∈ accesses r → dirty s (access_id a) = Some d → block_there ctx s s' a d.
Proof.
  intros Hacc Hnd Henc Hch.
  assert (∀ r', rm_children r' = rm_children r → ∃ s', synchronize_placeholders (H1 := cmds) clock fuel
      depth (cc_device_id ctx) workspace_id workspace_entry pattern_match false fresh key order items r' s
      = (s', Ok true) ∧ blocks_moved s s') as Hplace.
  { intros r' Hr'. destruct (no_placeholder_children (items (rm_children r')).*2 (wf_transactions s))
      as (ss & E & Hq).
    { rewrite Hr'. exact Hch. }
    eexists. unfold synchronize_placeholders. split.
    - rewrite (bind_Ok _ _ s (mkWorkspaceFS ss (wf_server s) (wf_trustchain s) (wf_role_cache s)
        (wf_role_cache_timestamp s) (wf_clock s)) []); [done|].
      unfold on_transactions, get_placeholder_children. by rewrite E.
    - assert (wf_quiet s (mkWorkspaceFS ss (wf_server s) (wf_trustchain s) (wf_role_cache s)
        (wf_role_cache_timestamp s) (wf_clock s))) as Hwq by done.
      split; try done; [intros e; by apply wf_tree_quiet|].
      intros id d. by rewrite (dirty_quiet _ _ _ Hwq). }
  destruct r as [m|m|m|m]; cbn [upload_contents accesses] in *.
  - destruct (upload_blocks_ok now ctx cache_size workspace_id (fim_blocks m) s Hacc Hnd Henc)
      as (s' & E & Hm & Hthere).
    exists s'. split_and!; [|done|done]. by rewrite (bind_Ok _ _ s s' tt).
  - destruct (Hplace (RFolder m) eq_refl) as (s' & E & Hm). exists s'. split_and!; [done..|].
    by intros a d ?%not_elem_of_nil.
  - destruct (Hplace (RWorkspace m) eq_refl) as (s' & E & Hm). exists s'. split_and!; [done..|].
    by intros a d ?%not_elem_of_nil.
  - exists s. split_and!; [done|by split|]. by intros a d ?%not_elem_of_nil.
Qed.

Lemma sync_step_done e remote final (s s' : WorkspaceFS Backend) r :
  synchronization_step_now clock depth (cc_device_id ctx) pattern_match false fresh key order items
    e remote final s = (s', Ok (Some r)) →
  sync_step (H1 := cmds) clock fuel depth cache_size (cc_device_id ctx) pattern_match false fresh key
    order items e remote final s = (s', Ok (StepDone r)).
Proof. intros E. unfold sync_step, try_catch. by rewrite (bind_Ok _ _ s s' (Some r)). Qed.

Lemma upload_or_load_taken e m (s : WorkspaceFS Backend) raw blob :
  rm_author m = cc_device_id ctx →
  timestamps_in_the_ballpark (rm_timestamp m) (clock (wf_clock s)) = true →
  dumps_manifest m = Some raw → secret_encrypt (we_key workspace_entry) (device_sign raw) = Some blob →
  takes_version now ctx (wf_server s) workspace_id e (we_encryption_revision workspace_entry)
    (rm_version m) (rm_timestamp m) →
  ∃ s', upload_or_load (H1 := cmds) clock fuel (cc_device_id ctx) workspace_id workspace_entry e m s
      = (s', Ok (m, true)) ∧
    be_realms (wf_server s') = be_realms (wf_server s) ∧
    be_blocks (wf_server s') = be_blocks (wf_server s) ∧
    holds_version ctx (wf_server s') workspace_id e (rm_version m) blob (rm_timestamp m) ∧
    (∀ org' id, (org', id) ≠ (org, e) →
       vlob_at (wf_server s') org' id = vlob_at (wf_server s) org' id) ∧
    (∀ e', wf_tree s' e' = wf_tree s e') ∧ wf_clock s' = S (wf_clock s).
Proof.
  intros Ha Ht Hraw Hblob Htv. unfold upload_or_load, try_catch.
  rewrite (bind_Ok _ _ s _ _ eq_refl). cbv beta.
  set (s1 := mkWorkspaceFS _ _ _ _ _ _).
  destruct (upload_manifest_taken now ctx (clock (wf_clock s)) workspace_id workspace_entry e m
    (wf_loader s1) raw blob Ha Ht Hraw Hblob Htv) as (srv & E & Hr & Hb & Hv & Hother).
  exists (wf_with_loader (with_server srv (wf_storage s) (wf_loader s1)) s1). split.
  - erewrite (bind_Ok _ _ s1); [done|]. unfold on_remote_loader. by rewrite E.
  - by split_and!.
Qed.

Abbreviation sync_loop := (WorkspaceFS.sync_loop (H1 := cmds) clock fuel depth cache_size
  (cc_device_id ctx) workspace_id workspace_entry pattern_match false fresh key order items).
Lemma sync_loop_ok (s : WorkspaceFS Backend) e m r n
    (t := clock (S (wf_clock s))) :
  ready pattern_match (wf_transactions s) depth e m → lm_need_sync m = true →
  lm_to_remote m (cc_device_id ctx) t = Ok r → remote_of_class pattern_match m r →
  (∀ c mc, c ∈ (items (rm_children r)).*2 → wf_tree s c = Some mc → lm_is_placeholder mc = false) →
  NoDup (access_id <$> accesses r) →
  (∀ a d, a ∈ accesses r → dirty s (access_id a) = Some d → is_Some (secret_encrypt (access_key a) d)) →
  is_Some (dumps_manifest r) → (∀ p, is_Some (secret_encrypt (we_key workspace_entry) p)) →
  timestamps_in_the_ballpark t (clock (S (S (wf_clock s)))) = true →
  takes_version now ctx (wf_server s) workspace_id e (we_encryption_revision workspace_entry)
    (lm_base_version m + 1) t →
  ∃ s' m' raw blob, sync_loop (S (S n)) e None false s = (s', Ok (Some r)) ∧
      dumps_manifest r = Some raw ∧
    secret_encrypt (we_key workspace_entry) (device_sign raw) = Some blob ∧
    holds_version ctx (wf_server s') workspace_id e (lm_base_version m + 1) blob t ∧
    (∀ org' id, (org', id) ≠ (org, e) →
       vlob_at (wf_server s') org' id = vlob_at (wf_server s) org' id) ∧
    be_realms (wf_server s') = be_realms (wf_server s) ∧
    (∀ a d, a ∈ accesses r → dirty s (access_id a) = Some d → block_there ctx s s' a d) ∧
      (∀ e', wf_tree s' e' = if decide (e' = e) then Some m' else wf_tree s e') ∧
    lm_need_sync m' = false ∧ lm_base m' = r ∧ lm_content m' = lm_content m.
Proof.
  intros Hready Hneed Hremote Hclass Hch Hnd Henc [raw Hraw] Hkey Hclock Htv.
  destruct (lm_to_remote_version _ _ _ _ Hremote) as [Hver Hauthor].
  assert (rm_restamp t r = r) as Hstamp.
  { pose proof (lm_to_remote_restamp _ _ _ t _ Hremote) as E. congruence. }
  destruct (Hkey (device_sign raw)) as [blob Hblob].
  cbn [WorkspaceFS.sync_loop].
  (* the first step *)
  destruct (sync_step_upload (cc_device_id ctx) pattern_match (clock (wf_clock s)) fresh key hash_digest
    order items (wf_transactions s) depth e m (rm_restamp (clock (wf_clock s)) r))
    as (ss1 & E1 & Hq1); [done|done|by eapply lm_to_remote_restamp|].
  apply step_now_run, sync_step_done in E1. rewrite (bind_Ok _ _ _ _ _ E1). cbv beta iota. clear E1.
  set (s1 := mkWorkspaceFS ss1 _ _ _ _ _).
  assert (wf_quiet s s1) as Hwq1 by done.
  assert (accesses (rm_restamp (clock (wf_clock s)) r) = accesses r) as Hacc by (by destruct r).
  assert (rm_children (rm_restamp (clock (wf_clock s)) r) = rm_children r) as Hchildren by (by destruct r).
  (* the contents *)
  destruct (upload_contents_ok (rm_restamp (clock (wf_clock s)) r) s1) as (s2 & E2 & Hmoved & Hthere);
    [exact (tv_access _ _ _ _ _ _ _ _ Htv)|by rewrite Hacc| | |].
  { rewrite Hacc. intros a d Ha. rewrite (dirty_quiet _ _ _ Hwq1). by apply Henc. }
  { rewrite Hchildren. intros c mc Hc. rewrite (wf_tree_quiet _ _ _ Hwq1). by apply Hch. }
  rewrite (bind_Ok _ _ _ _ _ E2). cbv beta iota. clear E2.
  rewrite (bind_Ok _ _ s2 _ _ eq_refl). cbv beta.
  set (s3 := mkWorkspaceFS _ _ _ _ _ _).
  assert (clock (wf_clock s2) = t) as Ht by (by rewrite (bm_clock _ _ Hmoved)).
  assert (rm_restamp (clock (wf_clock s2)) (rm_restamp (clock (wf_clock s)) r) = r) as ->.
  { rewrite Ht. by destruct r. }
  (* the upload *)
  destruct (upload_or_load_taken e r s3 raw blob) as
    (s4 & E4 & Hrealms & Hblocks & Hholds & Hother & Htree & Hclock4); try done.
  { rewrite <-Hstamp, rm_restamp_timestamp. unfold s3. cbn [wf_clock].
    by rewrite (bm_clock _ _ Hmoved). }
  { rewrite Hver. rewrite <-Hstamp, rm_restamp_timestamp.
    eapply (takes_version_frame now ctx (wf_server s)); [apply Hmoved|apply Hmoved|done]. }
  rewrite (bind_Ok _ _ _ _ _ E4). cbv beta iota. cbn [orb]. clear E4.
  (* the last step *)
  assert (∀ e', wf_tree s4 e' = wf_tree s e') as Htree4.
  { intros e'. rewrite Htree. change (wf_tree s3 e') with (wf_tree s2 e').
    rewrite (bm_tree _ _ Hmoved). by apply wf_tree_quiet. }
  destruct (sync_step_ack (cc_device_id ctx) pattern_match (clock (wf_clock s4)) fresh key hash_digest
    order items (wf_transactions s4) depth e m r t true) as (ss5 & m' & E5 & Ht5 & Hns & Hbase & Hcontent & _);
    [by eapply ready_ext|done|done|done|].
  apply step_now_run, sync_step_done in E5. rewrite (bind_Ok _ _ _ _ _ E5). cbv beta iota.
  eexists _, m', raw, blob. split; [reflexivity|]. split_and!; try done.
  - rewrite Hver in Hholds. rewrite <-Hstamp, rm_restamp_timestamp in Hholds. exact Hholds.
  - intros org' id Hne. cbn [wf_server]. rewrite Hother by done. unfold vlob_at.
    change (wf_server s3) with (wf_server s2). by rewrite (bm_vlobs _ _ Hmoved).
  - cbn [wf_server]. rewrite Hrealms. apply (bm_realms _ _ Hmoved).
  - intros a d Ha Hd. destruct (Hthere a d) as (x & Hx & Hcase); [by rewrite Hacc|by rewrite (dirty_quiet _ _ _ Hwq1)|].
    exists x. split; [|done]. cbn [wf_server]. by rewrite Hblocks.
  - intros e'. change (sync_tree ss5 e' = if decide (e' = e) then Some m' else wf_tree s e').
    rewrite Ht5. case_decide; [done|apply Htree4].
Qed.

(** C15: synchronizing an entry with local changes, from end to end: when the server
    takes the next version of the entry (the user can write in the workspace, knows
    its encryption revision, and nobody uploaded a version in the meantime), two
    turns of the loop are enough. The server then holds, as the last version of the
    entry, the local manifest as it was, signed and encrypted with the key of the
    workspace, and nothing of the other entries changed; every block of it that was
    only known locally was given to the server before, encrypted with its own key;
    and the local entry has no change left, its content, and this version as its
    base. *)
Theorem sync_entry_correct (s : WorkspaceFS Backend) e m r
    (t := clock (S (wf_clock s))) :
  (* the entry *)
  ready pattern_match (wf_transactions s) depth e m → lm_need_sync m = true →
  lm_to_remote m (cc_device_id ctx) t = Ok r → remote_of_class pattern_match m r →
  (∀ c mc, c ∈ (items (rm_children r)).*2 → wf_tree s c = Some mc → lm_is_placeholder mc = false) →
  NoDup (access_id <$> accesses r) →
  (* the libraries and the clock *)
  (∀ a d, a ∈ accesses r → dirty s (access_id a) = Some d → is_Some (secret_encrypt (access_key a) d)) →
  is_Some (dumps_manifest r) → (∀ p, is_Some (secret_encrypt (we_key workspace_entry) p)) →
  timestamps_in_the_ballpark t (clock (S (S (wf_clock s)))) = true →
  (* the server *)
  takes_version now ctx (wf_server s) workspace_id e (we_encryption_revision workspace_entry)
    (lm_base_version m + 1) t →
  (2 <= fuel)%nat →
  ∃ s' m' raw blob, sync_entry e false s = (s', Ok (Some r)) ∧
    (* the server *)
    dumps_manifest r = Some raw ∧
    secret_encrypt (we_key workspace_entry) (device_sign raw) = Some blob ∧
    holds_version ctx (wf_server s') workspace_id e (lm_base_version m + 1) blob t ∧
    (∀ org' id, (org', id) ≠ (org, e) →
       vlob_at (wf_server s') org' id = vlob_at (wf_server s) org' id) ∧
    be_realms (wf_server s') = be_realms (wf_server s) ∧
    (∀ a d, a ∈ accesses r → dirty s (access_id a) = Some d → block_there ctx s s' a d) ∧
    (* the client *)
    (∀ e', wf_tree s' e' = if decide (e' = e) then Some m' else wf_tree s e') ∧
    lm_need_sync m' = false ∧ lm_base m' = r ∧ lm_content m' = lm_content m.
Proof.
  intros. destruct (sync_loop_ok s e m r (fuel - 2)) as (s' & m' & raw & blob & E & Hrest); try done.
  exists s', m', raw, blob. split; [|done]. unfold WorkspaceFS.sync_entry.
  rewrite (bind_Ok _ _ s s None eq_refl). by replace (S (S (fuel - 2))) with fuel in E by lia.
Qed.
End sync.

(** ** Witnesses *)

(** Alice has changed the file 2 of the workspace 1 since its first version: its new
    block 7 is only on her device. *)
Definition wx_access : BlockAccess := mkBlockAccess 7 [x6b] 0 3 [].
Definition wx_file : LocalFileManifest :=
  mkLocalFileManifest (mkFileManifest cs_alice 5 2 1 1 0 0 0 8 []) true 4 3 8
    [[mkChunk 7 0 3 0 3 (Some wx_access)]].
Definition wx_root : LocalFolderish :=
  {| fd_base := BWorkspace (mkWorkspaceManifest cs_alice 5 1 1 0 0 {[ "a"%string := 2%N ]});
     fd_need_sync := false; fd_updated := 0; fd_children := {[ "a"%string := 2%N ]};
     fd_confined_entries := ∅; fd_filtered_entries := ∅ |}.
Definition wx_local : SyncState :=
  mkSyncState (mkFTState (mkStorage {[ 1%N := LFolderish wx_root; 2%N := LFile wx_file ]} ∅ ∅ None
    {[ 7%N := [x61; x62; x63] ]} ∅ 0 ∅ 0) ∅ 0 []) [].
Definition wx_server : Backend := (api_vlob_create 5 cs_alice_ctx 1 1 2 5 [x01] cs_shared).1.
Definition wx_start : WorkspaceFS Backend := mkWorkspaceFS wx_local wx_server cs_trustchain None None 0.
#[local] Instance wx_loader : LoaderApi := {|
  secret_decrypt k c :=
    if bool_decide (take (length k) c = k) then Some (drop (length k) c) else None;
  secret_encrypt k p := Some (k ++ p);
  hash_digest b := b; device_sign := cs_sign x41;
  loads_manifest _ := None; dumps_manifest _ := Some [x72]; dumps_realm_role _ := [] |}.
Definition wx_remote : RemoteManifest :=
  RFile (mkFileManifest cs_alice 6 2 1 2 0 4 3 8 [wx_access]).

Lemma wx_access_granted : access_granted wx_server "org" 1 "alice" can_write_roles false.
Proof.
  eexists _, OWNER. split; [vm_compute; reflexivity|]. split; [vm_compute; reflexivity|].
  split; [by left|reflexivity].
Qed.

Lemma sync_entry_correct_witness :
  ∃ s' blob, sync_entry (H1 := server_cmds 6 cs_alice_ctx) (λ _, 6) 2 1 0 cs_alice 1%N cs_entry
      (λ _, false) false (λ n, N.of_nat n + 9)%N [] elements map_to_list 2%N false wx_start
      = (s', Ok (Some wx_remote)) ∧
    holds_version cs_alice_ctx (wf_server s') 1 2 2 blob 6 ∧
    block_there cs_alice_ctx wx_start s' wx_access [x61; x62; x63].
Proof.
  destruct (sync_entry_correct 6 cs_alice_ctx (λ _, 6) 2 1 0 1%N cs_entry (λ _, false)
    (λ n, N.of_nat n + 9)%N [] elements map_to_list wx_start 2%N (LFile wx_file) wx_remote)
    as (s' & m' & raw & blob & E & _ & _ & Hholds & _ & _ & Hblocks & _).
  - split; [vm_compute; reflexivity|]. split.
    { eapply (unconfined_parent _ 0 _ 1%N wx_root); [reflexivity|reflexivity|vm_compute; reflexivity| |].
      - vm_compute. discriminate.
      - by apply unconfined_workspace. }
    split; [|vm_compute; reflexivity].
    apply Forall_singleton, Forall_singleton. intros a [= <-]. reflexivity.
  - reflexivity.
  - vm_compute. reflexivity.
  - exact I.
  - intros c mc Hc. vm_compute in Hc. by apply not_elem_of_nil in Hc.
  - cbn. apply NoDup_singleton.
  - intros a d _ _. by eexists.
  - by eexists.
  - intros p. by eexists.
  - reflexivity.
  - split; [exact wx_access_granted| |reflexivity|].
    + eexists. split; [vm_compute; reflexivity|reflexivity].
    + assert (vlob_at wx_server "org" 2 = Some (mkVlob 1 [([x01], cs_alice, 5)])) as E
        by (vm_compute; reflexivity).
      change (wf_server wx_start) with wx_server.
      change (cc_organization_id cs_alice_ctx) with "org"%string. rewrite E. split_and!; [reflexivity| |reflexivity|].
      * split; [discriminate|]. apply SSorted_cons; [apply SSorted_nil|apply Forall_nil_2].
      * apply Forall_singleton. cbn. lia.
  - lia.
  - exists s', blob. split; [exact E|]. split; [exact Hholds|].
    apply Hblocks; [left|vm_compute; reflexivity].
Defined.
