(* ===== verification/Sas.v ===== *)
(** The short authentication strings of [guardata/api/data/invite.py]: what two
    people read to each other to be sure that nobody sits between their clients. *)

From Stdlib Require Import Ascii.
From Stdlib Require String.
From S2P Require Import Prelude PyString Types ApiManifest Backend BlockStore.

(** ** [SASCode] *)

Module SASCode.
Definition length : nat := 5.
Definition symbols : list ascii :=
  Eval cbv in String.list_ascii_of_string "123456789ABCDEFGHJKLMNPRSTUVWXYZ".
Definition base : Z := Z.of_nat (List.length symbols).
Definition symbol (i : Z) : ascii := nth (Z.to_nat i) symbols "1"%char.

(** [SASCode.regex.match]: [$] also matches before a last newline. *)
Definition is_symbol (c : ascii) : bool := bool_decide (c ∈ symbols).
Definition regex_match (raw : string) : bool :=
  let l := String.list_ascii_of_string raw in
  forallb is_symbol (take length l) && bool_decide (List.length (take length l) = length) &&
  match drop length l with
  | [] => true
  | [c] => bool_decide (c = "010"%char)
  | _ => false
  end.
(** [SASCode.__init__]; the [ValueError] is [None]. *)
Definition new (raw : string) : option string := if regex_match raw then Some raw else None.

(** [SASCode.from_int]: the symbols, the lowest digit first, and what is left. *)
Fixpoint digits (n : nat) (num : Z) : list ascii * Z :=
  match n with
  | O => ([], num)
  | S n => let '(result, num') := digits n (num / base) in (symbol (num mod base) :: result, num')
  end.
Definition from_int (num : Z) : option string :=
  if num <? 0 then None
  else
    let '(result, num) := digits length num in
    if negb (num =? 0) then None else new (String.string_of_list_ascii result).
End SASCode.

(** ** The codes *)

(** [generate_sas_codes]; [kdf] is [argon2id.kdf] with its password and salt. *)
Definition generate_sas_codes (kdf : bytes → bytes → bytes)
    (claimer_nonce greeter_nonce : bytes) (shared_secret_key : SecretKey)
    : option (string * string) :=
  let combined_nonce := claimer_nonce ++ greeter_nonce in
  let combined_kdf :=
    kdf (combined_nonce ++ take 16 shared_secret_key) (drop 16 shared_secret_key) in
  let mac_as_int := from_bytes true (take 8 combined_kdf) in
  let claimer_sas := mac_as_int mod 2 ^ 25 in
  let greeter_sas := Z.shiftr mac_as_int 25 mod 2 ^ 25 in
  c ← SASCode.from_int claimer_sas;
  g ← SASCode.from_int greeter_sas;
  Some (c, g).

(** The loop of [generate_sas_code_candidates]: [draws] is what [randbelow] gives,
    and must be long enough. *)
Fixpoint candidates_loop (draws : list Z) (size : nat) (candidates : gset string)
    : option (gset string) :=
  if decide (size <= base.size candidates)%nat then Some candidates
  else
    match draws with
    | [] => None
    | n :: draws =>
        c ← SASCode.from_int n;
        candidates_loop draws size ({[ c ]} ∪ candidates)
    end.
(** [generate_sas_code_candidates]; [shuffle] lists a set in a random order. *)
Definition generate_sas_code_candidates (draws : list Z) (shuffle : gset string → list string)
    (valid_sas : string) (size : nat) : option (list string) :=
  candidates ← candidates_loop draws size {[ valid_sas ]};
  Some (shuffle candidates).

(** ** What a code says *)

(** The number of a code: the inverse of [from_int]. *)
Definition digit (c : ascii) : Z :=
  match list_find (c =.) SASCode.symbols with Some (i, _) => Z.of_nat i | None => 0 end.
Fixpoint number (l : list ascii) : Z :=
  match l with
  | [] => 0
  | c :: l => digit c + SASCode.base * number l
  end.
Definition to_int (code : string) : Z := number (String.list_ascii_of_string code).
Definition SAS_CODES : Z := 2 ^ 25.

Lemma digit_symbol i : 0 <= i < SASCode.base → digit (SASCode.symbol i) = i.
Proof.
  intros Hi. assert (Forall (λ i, digit (SASCode.symbol i) = i) (seqZ 0 SASCode.base)) as Hall.
  { vm_compute. repeat constructor. }
  rewrite Forall_forall in Hall. apply Hall, elem_of_seqZ. lia.
Qed.
Lemma symbol_is_symbol i : 0 <= i < SASCode.base → SASCode.is_symbol (SASCode.symbol i) = true.
Proof.
  intros Hi. assert (Forall (λ i, SASCode.is_symbol (SASCode.symbol i) = true) (seqZ 0 SASCode.base)) as Hall.
  { vm_compute. repeat constructor. }
  rewrite Forall_forall in Hall. apply Hall, elem_of_seqZ. lia.
Qed.

Lemma digits_spec n num : 0 <= num →
  let '(l, num') := SASCode.digits n num in
  length l = n ∧ forallb SASCode.is_symbol l = true ∧
  num = number l + SASCode.base ^ Z.of_nat n * num' ∧ num' = num / SASCode.base ^ Z.of_nat n.
Proof.
  revert num. induction n as [|n IH]; intros num Hnum.
  { cbn. split_and!; [done|done|lia|by rewrite Z.div_1_r]. }
  assert (SASCode.base = 32) as Eb by done.
  cbn [SASCode.digits]. specialize (IH (num / SASCode.base)).
  destruct (SASCode.digits n (num / SASCode.base)) as [l num'].
  destruct IH as (Hl & Hs & Hnum' & Hd); [apply Z.div_pos; lia|].
  assert (0 <= num mod SASCode.base < SASCode.base) as Hm by (apply Z.mod_pos_bound; lia).
  cbn [length forallb number]. rewrite Hl, (symbol_is_symbol _ Hm), Hs, (digit_symbol _ Hm).
  rewrite Nat2Z.inj_succ, Z.pow_succ_r by lia. split_and!; [done|done| |].
  - pose proof (Z.div_mod num SASCode.base ltac:(lia)). nia.
  - rewrite <-Z.div_div by (try apply Z.pow_pos_nonneg; lia). done.
Qed.

Lemma number_bound l : 0 <= number l.
Proof.
  induction l as [|c l IH]; [done|]. cbn [number]. assert (SASCode.base = 32) as -> by done.
  assert (0 <= digit c); [|lia]. unfold digit. destruct (list_find _ _) as [[i x]|]; lia.
Qed.
Lemma regex_match_symbols l :
  length l = SASCode.length → forallb SASCode.is_symbol l = true →
  SASCode.regex_match (String.string_of_list_ascii l) = true.
Proof.
  intros Hl Hs. unfold SASCode.regex_match.
  rewrite String.list_ascii_of_string_of_list_ascii, take_ge, drop_ge by lia.
  rewrite Hs, bool_decide_eq_true_2 by done. done.
Qed.

(** [from_int] gives the code of each number below 2^25, and only of them. *)
Lemma from_int_code n :
  0 <= n < SAS_CODES →
  ∃ c, SASCode.from_int n = Some c ∧ to_int c = n ∧ SASCode.regex_match c = true ∧
    String.length c = 5%nat.
Proof.
  intros Hn. unfold SASCode.from_int. rewrite (proj2 (Z.ltb_ge n 0)) by lia.
  pose proof (digits_spec SASCode.length n ltac:(lia)) as Hd.
  destruct (SASCode.digits SASCode.length n) as [l num']. destruct Hd as (Hl & Hs & Hnum & Hd).
  assert (num' = 0) as ->.
  { rewrite Hd. apply Z.div_small. unfold SAS_CODES in Hn. exact Hn. }
  cbn [Z.eqb negb]. unfold SASCode.new. rewrite regex_match_symbols by done.
  eexists. split; [done|]. split_and!.
  - unfold to_int. rewrite String.list_ascii_of_string_of_list_ascii. lia.
  - by apply regex_match_symbols.
  - do 6 (destruct l as [|? l]; [done|]; try discriminate). 
Qed.
Lemma from_int_None n : ¬ (0 <= n < SAS_CODES) → SASCode.from_int n = None.
Proof.
  intros Hn. unfold SASCode.from_int. destruct (Z.ltb_spec n 0); [done|].
  pose proof (digits_spec SASCode.length n ltac:(lia)) as Hd.
  destruct (SASCode.digits SASCode.length n) as [l num']. destruct Hd as (_ & _ & _ & Hd).
  assert (num' ≠ 0) as Hne.
  { rewrite Hd. intros Hz. apply Z.div_small_iff in Hz; [|done]. unfold SAS_CODES in Hn.
    change (SASCode.base ^ Z.of_nat SASCode.length) with (2 ^ 25) in Hz. lia. }
  by rewrite (proj2 (Z.eqb_neq num' 0) Hne).
Qed.
Lemma generate_sas_codes_ok kdf claimer_nonce greeter_nonce key :
  let mac := from_bytes true (take 8 (kdf ((claimer_nonce ++ greeter_nonce) ++ take 16 key) (drop 16 key))) in
  ∃ c g, generate_sas_codes kdf claimer_nonce greeter_nonce key = Some (c, g) ∧
    to_int c = mac mod SAS_CODES ∧ to_int g = mac / SAS_CODES mod SAS_CODES.
Proof.
  intros mac.
  destruct (from_int_code (mac mod SAS_CODES)) as (c & Ec & Hc & _); [by apply Z.mod_pos_bound|].
  destruct (from_int_code (mac / SAS_CODES mod SAS_CODES)) as (g & Eg & Hg & _);
    [by apply Z.mod_pos_bound|].
  exists c, g. split; [|done]. unfold generate_sas_codes. fold mac. change (2 ^ 25) with SAS_CODES.
  rewrite Z.shiftr_div_pow2 by lia. change (2 ^ 25) with SAS_CODES. by rewrite Ec, Eg.
Qed.

(** The candidates: the valid code and others, all different. *)
Lemma candidates_loop_ok draws n X :
  Forall (λ i, 0 <= i < SAS_CODES) draws →
  (n <= base.size (X ∪ list_to_set (omap SASCode.from_int draws) : gset string))%nat →
  ∃ Y, candidates_loop draws n X = Some Y ∧ X ⊆ Y ∧ base.size Y = Nat.max n (base.size X) ∧
    Y ⊆ X ∪ list_to_set (omap SASCode.from_int draws).
Proof.
  revert X. induction draws as [|i draws IH]; intros X Hall Hn; cbn [candidates_loop].
  - cbn in Hn. rewrite (right_id_L ∅ (∪)) in Hn. rewrite decide_True by done.
    exists X. split_and!; [done..|lia|set_solver].
  - apply Forall_cons in Hall as [Hi Hall]. destruct (decide (n <= base.size X)%nat) as [Hle|Hlt].
    { exists X. split_and!; [done..|lia|set_solver]. }
    destruct (from_int_code i Hi) as (c & Ec & _). cbn [omap list_omap] in Hn |- *.
    rewrite Ec in Hn |- *. cbn [list_to_set mbind option_bind] in Hn |- *.
    destruct (IH ({[ c ]} ∪ X)) as (Y & EY & Hsub & Hsz & Hup); [done| |].
    { etrans; [exact Hn|]. apply subseteq_size. set_solver. }
    exists Y. split_and!; [done|set_solver| |set_solver].
    rewrite Hsz. destruct (decide (c ∈ X)) as [Hin|Hni].
    + by rewrite (subseteq_union_1_L {[ c ]} X) by set_solver.
    + rewrite size_union, size_singleton by set_solver. lia.
Qed.

(** The codes that the peers show each other: [from_int] is a bijection from the
    25-bit numbers to the codes of five symbols, and refuses the other numbers;
    [generate_sas_codes] never raises, and its two codes are the bits 0 to 24 and 25
    to 49 of the derived key; the candidates that are shown to a user are different
    codes, as many as asked for, the valid one among them, once the draws gave
    enough codes. *)
Theorem sas_codes_correct :
  (∀ n, (0 <= n < SAS_CODES → ∃ c, SASCode.from_int n = Some c ∧ to_int c = n ∧
           SASCode.regex_match c = true ∧ String.length c = 5%nat) ∧
        (¬ (0 <= n < SAS_CODES) → SASCode.from_int n = None)) ∧
  (∀ kdf claimer_nonce greeter_nonce key,
     let mac := from_bytes true
       (take 8 (kdf ((claimer_nonce ++ greeter_nonce) ++ take 16 key) (drop 16 key))) in
     ∃ c g, generate_sas_codes kdf claimer_nonce greeter_nonce key = Some (c, g) ∧
       to_int c = mac mod SAS_CODES ∧ to_int g = mac / SAS_CODES mod SAS_CODES) ∧
  (∀ draws shuffle valid_sas n,
     Forall (λ i, 0 <= i < SAS_CODES) draws → (∀ X, shuffle X ≡ₚ elements X) → (1 <= n)%nat →
     (n <= base.size ({[ valid_sas ]} ∪ list_to_set (omap SASCode.from_int draws) : gset string))%nat →
     ∃ l, generate_sas_code_candidates draws shuffle valid_sas n = Some l ∧ NoDup l ∧
       length l = n ∧ valid_sas ∈ l).
Proof.
  split_and!.
  - split; [apply from_int_code|apply from_int_None].
  - apply generate_sas_codes_ok.
  - intros draws shuffle valid n Hall Hsh Hn Hsz.
    destruct (candidates_loop_ok draws n {[ valid ]} Hall Hsz) as (Y & EY & Hsub & Hsize & _).
    exists (shuffle Y). unfold generate_sas_code_candidates. rewrite EY. split_and!; [done|..].
    + rewrite Hsh. apply NoDup_elements.
    + rewrite Hsh. change (length (elements Y)) with (base.size Y).
      rewrite Hsize, size_singleton. lia.
    + rewrite Hsh. apply elem_of_elements. set_solver.
Qed.
