(* ===== verification/InviteClient.v ===== *)
(** The two clients of an invitation: [guardata/client/invite/claimer.py] and
    [greeter.py], with the flow of [client/cli/invitation.py]. *)

From S2P Require Import Prelude Types ApiManifest Backend Certif BackendUser Invite RemoteLoader.
From S2P Require Import Sas InviteProperties.

(** ** Data *)

Record InviteUserData := mkInviteUserData {
  ud_requested_device_label : option string;
  ud_requested_human_handle : option HumanHandle;
  ud_public_key : bytes;
  ud_verify_key : VerifyKey }.
Record InviteUserConfirmation := mkInviteUserConfirmation {
  uf_device_id : DeviceID;
  uf_device_label : option string;
  uf_human_handle : option HumanHandle;
  uf_profile : UserProfile;
  uf_root_verify_key : VerifyKey }.
Record InviteDeviceData := mkInviteDeviceData {
  dd_requested_device_label : option string;
  dd_verify_key : VerifyKey }.
Record InviteDeviceConfirmation := mkInviteDeviceConfirmation {
  df_device_id : DeviceID;
  df_device_label : option string;
  df_human_handle : option HumanHandle;
  df_profile : UserProfile;
  df_private_key : bytes;
  df_user_manifest_id : EntryID;
  df_user_manifest_key : SecretKey;
  df_root_verify_key : VerifyKey }.

(** [LocalDevice]; of its address, the organization and the root key. *)
Record LocalDevice := mkLocalDevice {
  ld_organization_id : OrganizationID;
  ld_root_verify_key : VerifyKey;
  ld_device_id : DeviceID;
  ld_device_label : option string;
  ld_human_handle : option HumanHandle;
  ld_signing_key : bytes;
  ld_private_key : bytes;
  ld_profile : UserProfile;
  ld_user_manifest_id : EntryID;
  ld_user_manifest_key : SecretKey;
  ld_local_symkey : SecretKey }.

(** libsodium and the serializers. *)
Class InviteApi := {
  public_key : bytes → bytes;
  verify_key : bytes → VerifyKey;
  key_sign : bytes → bytes → bytes;
  crypto_scalarmult : bytes → bytes → SecretKey;
  argon2id_kdf : bytes → bytes → bytes;
  dumps_user_certificate : UserCertificateContent → bytes;
  dumps_device_certificate : DeviceCertificateContent → bytes;
  dumps_user_data : InviteUserData → bytes;
  loads_user_data : bytes → option InviteUserData;
  dumps_user_confirmation : InviteUserConfirmation → bytes;
  loads_user_confirmation : bytes → option InviteUserConfirmation;
  dumps_device_data : InviteDeviceData → bytes;
  loads_device_data : bytes → option InviteDeviceData;
  dumps_device_confirmation : InviteDeviceConfirmation → bytes;
  loads_device_confirmation : bytes → option InviteDeviceConfirmation }.

(** ** The requests of a client, as a program *)

Inductive PeerReq :=
| REQ_1_claimer_wait_peer (claimer_public_key : bytes)
| REQ_1_greeter_wait_peer (greeter_public_key : bytes)
| REQ_2a_claimer_send_hashed_nonce (claimer_hashed_nonce : bytes)
| REQ_2a_greeter_get_hashed_nonce
| REQ_2b_greeter_send_nonce (greeter_nonce : bytes)
| REQ_2b_claimer_send_nonce (claimer_nonce : bytes)
| REQ_3a_claimer_signify_trust
| REQ_3a_greeter_wait_peer_trust
| REQ_3b_claimer_wait_peer_trust
| REQ_3b_greeter_signify_trust
| REQ_4_claimer_communicate (payload : bytes)
| REQ_4_greeter_communicate (payload : bytes)
| REQ_user_create (msg : UserCreateReq)
| REQ_device_create (msg : DeviceCreateReq)
| REQ_invite_delete (reason : InvitationDeletedReason).

Inductive InviteError :=
| InviteErr
| InvitePeerResetError
| InviteNotFoundError
| InviteAlreadyUsedError
| InviteValueError.

(** A client between its requests: it returns, raises, or waits for the reply to a
    request: its payload, or a status. *)
Inductive peerM (A : Type) :=
| PRet (a : A)
| PRaise (e : InviteError)
| PReq (r : PeerReq) (k : reply bytes → peerM A).
Arguments PRet {A} _.
Arguments PRaise {A} _.
Arguments PReq {A} _ _.
#[export] Instance peerM_ret : MRet peerM := @PRet.
#[export] Instance peerM_bind : MBind peerM := λ A B f,
  fix go (m : peerM A) : peerM B :=
    match m with
    | PRet a => f a
    | PRaise e => PRaise e
    | PReq r k => PReq r (λ rep, go (k rep))
    end.
Definition request (r : PeerReq) : peerM (reply bytes) := PReq r PRet.
Definition or_raise {A} (e : InviteError) (o : option A) : peerM A :=
  match o with Some a => PRet a | None => PRaise e end.

(** [_check_rep] *)
Definition check_rep (rep : reply bytes) : peerM bytes :=
  match rep with
  | RepOk payload => PRet payload
  | RepError status =>
      if decide (status = "not_found"%string) then PRaise InviteNotFoundError
      else if decide (status = "already_deleted"%string) then PRaise InviteAlreadyUsedError
      else if decide (status = "invalid_state"%string) then PRaise InvitePeerResetError
      else PRaise InviteErr
  end.
Definition checked_request (r : PeerReq) : peerM bytes := rep ← request r; check_rep rep.

Section invite.
Context `{CertifApi, LoaderApi, InviteApi}.

(** [dump_and_encrypt] and [decrypt_and_load] *)
Definition dump_and_encrypt (raw : bytes) (key : SecretKey) : peerM bytes :=
  or_raise InviteErr (secret_encrypt key raw).
Definition decrypt_and_load {A} (loads : bytes → option A) (payload : bytes) (key : SecretKey)
    : peerM A :=
  or_raise InviteErr (raw ← secret_decrypt key payload; loads raw).
Definition sas_codes (claimer_nonce greeter_nonce : bytes) (key : SecretKey) :=
  or_raise InviteValueError (generate_sas_codes argon2id_kdf claimer_nonce greeter_nonce key).

(** ** The claimer *)

Section claimer.
(** The keys and the nonce that it draws; what the user asks for and the code the
    user picks in a list; the organization of its address. *)
Context (claimer_private_key claimer_nonce : bytes) (draws : list Z)
  (shuffle : gset string → list string) (pick : list string → nat)
  (organization_id : OrganizationID) (user_manifest_id : EntryID)
  (user_manifest_key local_symkey : SecretKey).

(** [BaseClaimInitialCtx._do_wait_peer] *)
Definition claimer_wait_peer : peerM (string * string * SecretKey) :=
  greeter_public_key ← checked_request (REQ_1_claimer_wait_peer (public_key claimer_private_key));
  let shared_secret_key := crypto_scalarmult claimer_private_key greeter_public_key in
  greeter_nonce ← checked_request (REQ_2a_claimer_send_hashed_nonce (hash_digest claimer_nonce));
  '(claimer_sas, greeter_sas) ← sas_codes claimer_nonce greeter_nonce shared_secret_key;
  _ ← checked_request (REQ_2b_claimer_send_nonce claimer_nonce);
  mret (claimer_sas, greeter_sas, shared_secret_key).

(** The user picks the code of the peer in three candidates. *)
Definition select_code (valid_sas : string) : peerM bool :=
  choices ← or_raise InviteValueError (generate_sas_code_candidates draws shuffle valid_sas 3);
  code ← or_raise InviteValueError (choices !! pick choices);
  mret (bool_decide (code = valid_sas)).

(** [UserClaimInProgress3Ctx.do_claim_user] *)
Definition do_claim_user (private_key signing_key : bytes) (shared_secret_key : SecretKey)
    (requested_device_label : option string) (requested_human_handle : option HumanHandle)
    : peerM LocalDevice :=
  payload ← dump_and_encrypt
    (dumps_user_data (mkInviteUserData requested_device_label requested_human_handle
                        (public_key private_key) (verify_key signing_key))) shared_secret_key;
  _ ← checked_request (REQ_4_claimer_communicate payload);
  payload ← checked_request (REQ_4_claimer_communicate []);
  confirmation ← decrypt_and_load loads_user_confirmation payload shared_secret_key;
  mret (mkLocalDevice organization_id (uf_root_verify_key confirmation) (uf_device_id confirmation)
          (uf_device_label confirmation) (uf_human_handle confirmation) signing_key private_key
          (uf_profile confirmation) user_manifest_id user_manifest_key local_symkey).

(** [DeviceClaimInProgress3Ctx.do_claim_device] *)
Definition do_claim_device (signing_key : bytes) (shared_secret_key : SecretKey)
    (requested_device_label : option string) : peerM LocalDevice :=
  payload ← dump_and_encrypt
    (dumps_device_data (mkInviteDeviceData requested_device_label (verify_key signing_key)))
    shared_secret_key;
  _ ← checked_request (REQ_4_claimer_communicate payload);
  payload ← checked_request (REQ_4_claimer_communicate []);
  confirmation ← decrypt_and_load loads_device_confirmation payload shared_secret_key;
  mret (mkLocalDevice organization_id (df_root_verify_key confirmation) (df_device_id confirmation)
          (df_device_label confirmation) (df_human_handle confirmation) signing_key
          (df_private_key confirmation) (df_profile confirmation) (df_user_manifest_id confirmation)
          (df_user_manifest_key confirmation) local_symkey).

(** [_do_claim_user] and [_do_claim_device]: up to the trust of both, then [claim]
    with the shared key; [None] when the user picked a wrong code. *)
Definition do_claim (claim : SecretKey → peerM LocalDevice) : peerM (option LocalDevice) :=
  '(_, greeter_sas, shared_secret_key) ← claimer_wait_peer;
  trusted ← select_code greeter_sas;
  if trusted : bool then
    _ ← checked_request REQ_3a_claimer_signify_trust;
    _ ← checked_request REQ_3b_claimer_wait_peer_trust;
    new_device ← claim shared_secret_key;
    mret (Some new_device)
  else mret None.
End claimer.

(** ** The greeter *)

Section greeter.
(** The keys and the nonce that it draws, the name of the new device, its clock; the
    code that the user picks. *)
Context (greeter_private_key greeter_nonce : bytes) (draws : list Z)
  (shuffle : gset string → list string) (pick : list string → nat)
  (new_device_id : DeviceID) (now : DateTime) (author : LocalDevice).

(** [BaseGreetInitialCtx._do_wait_peer]; the first reply has its own statuses. *)
Definition check_first_rep (rep : reply bytes) : peerM bytes :=
  match rep with
  | RepOk payload => PRet payload
  | RepError status =>
      if decide (status = "not_found"%string) then PRaise InviteNotFoundError
      else if decide (status = "already_deleted"%string) then PRaise InviteAlreadyUsedError
      else PRaise InviteErr
  end.
Definition greeter_wait_peer : peerM (string * string * SecretKey) :=
  rep ← request (REQ_1_greeter_wait_peer (public_key greeter_private_key));
  claimer_public_key ← check_first_rep rep;
  let shared_secret_key := crypto_scalarmult greeter_private_key claimer_public_key in
  claimer_hashed_nonce ← checked_request REQ_2a_greeter_get_hashed_nonce;
  claimer_nonce ← checked_request (REQ_2b_greeter_send_nonce greeter_nonce);
  if decide (hash_digest claimer_nonce = claimer_hashed_nonce) then
    '(claimer_sas, greeter_sas) ← sas_codes claimer_nonce greeter_nonce shared_secret_key;
    mret (claimer_sas, greeter_sas, shared_secret_key)
  else PRaise InviteErr.

(** [do_get_claim_requests]: [loads_user_data] or [loads_device_data]. *)
Definition do_get_claim_requests {A} (loads : bytes → option A) (shared_secret_key : SecretKey)
    : peerM A :=
  payload ← checked_request (REQ_4_greeter_communicate []);
  decrypt_and_load loads payload shared_secret_key.

(** The certificates of [do_create_new_user] and [do_create_new_device]. *)
Definition sign (raw : bytes) : bytes := key_sign (ld_signing_key author) raw.
Definition new_user_certificate (data : InviteUserData) (human_handle : option HumanHandle)
    (profile : UserProfile) : UserCertificateContent :=
  mkUserCertificateContent (Some (ld_device_id author)) now (user_id new_device_id) human_handle
    (ud_public_key data) profile.
Definition new_device_certificate (device_label : option string) (new_verify_key : VerifyKey)
    : DeviceCertificateContent :=
  mkDeviceCertificateContent (Some (ld_device_id author)) now new_device_id device_label
    new_verify_key.
Definition user_create_msg (data : InviteUserData) (device_label : option string)
    (human_handle : option HumanHandle) (profile : UserProfile) : UserCreateReq :=
  let user_certificate := new_user_certificate data human_handle profile in
  let device_certificate := new_device_certificate device_label (ud_verify_key data) in
  mkUserCreateReq
    (sign (dumps_user_certificate user_certificate))
    (sign (dumps_device_certificate device_certificate))
    (sign (dumps_user_certificate (uc_evolve_human_handle user_certificate None)))
    (sign (dumps_device_certificate (dc_evolve_device_label device_certificate None))).
Definition device_create_msg (data : InviteDeviceData) (device_label : option string)
    : DeviceCreateReq :=
  let device_certificate := new_device_certificate device_label (dd_verify_key data) in
  mkDeviceCreateReq (sign (dumps_device_certificate device_certificate))
    (sign (dumps_device_certificate (dc_evolve_device_label device_certificate None))).

(** [UserGreetInProgress4Ctx.do_create_new_user]; the reply to the deletion of the
    invitation is not looked at. *)
Definition do_create_new_user (data : InviteUserData) (shared_secret_key : SecretKey)
    (device_label : option string) (human_handle : option HumanHandle) (profile : UserProfile)
    : peerM unit :=
  rep ← request (REQ_user_create (user_create_msg data device_label human_handle profile));
  _ ← (match rep with RepOk _ => mret tt | RepError _ => PRaise InviteErr end);
  payload ← dump_and_encrypt
    (dumps_user_confirmation (mkInviteUserConfirmation new_device_id device_label human_handle
                                profile (ld_root_verify_key author))) shared_secret_key;
  _ ← checked_request (REQ_4_greeter_communicate payload);
  _ ← request (REQ_invite_delete FINISHED);
  mret tt.

(** [DeviceGreetInProgress4Ctx.do_create_new_device] *)
Definition do_create_new_device (data : InviteDeviceData) (shared_secret_key : SecretKey)
    (device_label : option string) : peerM unit :=
  _ ← checked_request (REQ_device_create (device_create_msg data device_label));
  payload ← dump_and_encrypt
    (dumps_device_confirmation (mkInviteDeviceConfirmation new_device_id device_label
       (ld_human_handle author) (ld_profile author) (ld_private_key author)
       (ld_user_manifest_id author) (ld_user_manifest_key author) (ld_root_verify_key author)))
    shared_secret_key;
  _ ← checked_request (REQ_4_greeter_communicate payload);
  _ ← request (REQ_invite_delete FINISHED);
  mret tt.

(** [_do_greet_user] and [_do_greet_device]: up to the request of the claimer, then
    [create]; [false] when the user picked a wrong code. *)
Definition do_greet {A} (loads : bytes → option A) (create : A → SecretKey → peerM unit)
    : peerM bool :=
  '(claimer_sas, _, shared_secret_key) ← greeter_wait_peer;
  _ ← checked_request REQ_3a_greeter_wait_peer_trust;
  trusted ← select_code draws shuffle pick claimer_sas;
  if trusted : bool then
    _ ← checked_request REQ_3b_greeter_signify_trust;
    data ← do_get_claim_requests loads shared_secret_key;
    _ ← create data shared_secret_key;
    mret true
  else mret false.
End greeter.

(** What the two users of a new user's invitation run; [grant] is what the greeter
    makes of the request. *)
Record Grant := mkGrant {
  gt_device_label : option string;
  gt_human_handle : option HumanHandle;
  gt_profile : UserProfile }.
Definition do_greet_user greeter_private_key greeter_nonce draws shuffle pick new_device_id now
    author (grant : InviteUserData → Grant) : peerM bool :=
  do_greet greeter_private_key greeter_nonce draws shuffle pick loads_user_data
    (λ data key, let g := grant data in
       do_create_new_user new_device_id now author data key (gt_device_label g)
         (gt_human_handle g) (gt_profile g)).
Definition do_greet_device greeter_private_key greeter_nonce draws shuffle pick new_device_id now
    author (grant : InviteDeviceData → option string) : peerM bool :=
  do_greet greeter_private_key greeter_nonce draws shuffle pick loads_device_data
    (λ data key, do_create_new_device new_device_id now author data key (grant data)).
End invite.

(** ** Against the server *)

(** The exchanges of a request on the conduit of the invitation: the handlers of
    [Invite]; the other requests have none. *)
Definition peer_exchanges (r : PeerReq) : option (list (ConduitState * bytes)) :=
  match r with
  | REQ_1_claimer_wait_peer k => Some (h_todo (api_invite_1_claimer_wait_peer "" 0 k))
  | REQ_1_greeter_wait_peer k => Some (h_todo (api_invite_1_greeter_wait_peer "" "" 0 k))
  | REQ_2a_claimer_send_hashed_nonce h =>
      Some (h_todo (api_invite_2a_claimer_send_hashed_nonce "" 0 h))
  | REQ_2a_greeter_get_hashed_nonce => Some (h_todo (api_invite_2a_greeter_get_hashed_nonce "" "" 0))
  | REQ_2b_greeter_send_nonce n => Some (h_todo (api_invite_2b_greeter_send_nonce "" "" 0 n))
  | REQ_2b_claimer_send_nonce n => Some (h_todo (api_invite_2b_claimer_send_nonce "" 0 n))
  | REQ_3a_claimer_signify_trust => Some (h_todo (api_invite_3a_claimer_signify_trust "" 0))
  | REQ_3a_greeter_wait_peer_trust => Some (h_todo (api_invite_3a_greeter_wait_peer_trust "" "" 0))
  | REQ_3b_claimer_wait_peer_trust => Some (h_todo (api_invite_3b_claimer_wait_peer_trust "" 0))
  | REQ_3b_greeter_signify_trust => Some (h_todo (api_invite_3b_greeter_signify_trust "" "" 0))
  | REQ_4_claimer_communicate p => Some (h_todo (api_invite_4_claimer_communicate "" 0 p))
  | REQ_4_greeter_communicate p => Some (h_todo (api_invite_4_greeter_communicate "" "" 0 p))
  | REQ_user_create _ | REQ_device_create _ | REQ_invite_delete _ => None
  end.

(** The server: the invitations, and the state of the other components. *)
Record World := mkWorld { wo_invites : Invites; wo_backend : Backend }.
(** A client and the request that it runs. *)
Record Peer (A : Type) := mkPeer { pr_prog : peerM A; pr_handler : Handler }.
Arguments mkPeer {A} _ _.
Arguments pr_prog {A} _.
Arguments pr_handler {A} _.

Section peers.
Context `{CertifApi} (org : OrganizationID) (greeter : UserID) (token : UUID) (now : DateTime)
  (client_ctx : ClientCtx).

(** A client that goes on to its next request; [true] is the greeter. *)
Definition peer_start {A} (g : bool) (p : peerM A) : Peer A :=
  mkPeer p (handler_start org (if g then Some greeter else None) token
    (match p with
     | PReq r _ => default [] (peer_exchanges r)
     | _ => []
     end)).

(** The requests that exchange nothing; an exception that goes through the handler is
    [None]. *)
Definition status_reply {A} (x : reply A) : reply bytes :=
  match x with RepOk _ => RepOk [] | RepError status => RepError status end.
Definition direct_request (r : PeerReq) (w : World) : World * option (reply bytes) :=
  let on_backend {A} (m : backendM (reply A)) :=
    let '(b, x) := m (wo_backend w) in
    (mkWorld (wo_invites w) b,
     match x with Ok rep => Some (status_reply rep) | Err _ => None end) in
  match r with
  | REQ_user_create msg => on_backend (api_user_create now client_ctx msg)
  | REQ_device_create msg => on_backend (api_device_create now client_ctx msg)
  | REQ_invite_delete reason =>
      let '(i, x) := api_invite_delete now client_ctx token reason (wo_invites w) in
      (mkWorld i (wo_backend w), match x with Ok rep => Some (status_reply rep) | Err _ => None end)
  | _ => (w, None)
  end.

(** A turn of a client: a step of its request, and, when the request ends, its code
    up to the next one. *)
Definition peer_turn {A} (g : bool) (p : Peer A) (w : World) : World * option (Peer A) :=
  match pr_prog p with
  | PReq r k =>
      match peer_exchanges r with
      | None =>
          let '(w, rep) := direct_request r w in (w, (λ rep, peer_start g (k rep)) <$> rep)
      | Some _ =>
          match handler_step (pr_handler p) (wo_invites w) with
          | (i, Ok h) =>
              (mkWorld i (wo_backend w),
               Some (if handler_finished h
                     then peer_start g (k (RepOk (default [] (handler_payload h))))
                     else mkPeer (PReq r k) h))
          | (i, Err e) =>
              (mkWorld i (wo_backend w), (λ st, peer_start g (k (RepError st))) <$> conduit_status e)
          end
      end
  | _ => (w, Some p)
  end.

(** The server and the two clients, under a schedule. *)
Record Meeting (A B : Type) := mkMeeting {
  me_world : World; me_claimer : Peer A; me_greeter : Peer B }.
Arguments mkMeeting {A B} _ _ _.
Arguments me_world {A B} _.
Arguments me_claimer {A B} _.
Arguments me_greeter {A B} _.
Definition meeting_turn {A B} (g : bool) (m : Meeting A B) : option (Meeting A B) :=
  if g then
    let '(w, p) := peer_turn true (me_greeter m) (me_world m) in
    mkMeeting w (me_claimer m) <$> p
  else
    let '(w, p) := peer_turn false (me_claimer m) (me_world m) in
    (λ p, mkMeeting w p (me_greeter m)) <$> p.
Fixpoint meeting_run {A B} (schedule : list bool) (m : Meeting A B) : option (Meeting A B) :=
  match schedule with
  | [] => Some m
  | g :: schedule => m ← meeting_turn g m; meeting_run schedule m
  end.
End peers.
Arguments mkMeeting {A B} _ _ _.
Arguments me_world {A B} _.
Arguments me_claimer {A B} _.
Arguments me_greeter {A B} _.

(** * Lemmas

    What two clients do against the conduit, whatever the order of their turns: the
    run of the meeting is the run of the rounds of [InviteProperties]. *)

Section meeting.
Context `{CertifApi} (org : OrganizationID) (greeter : UserID) (token : UUID) (now : DateTime)
  (client_ctx : ClientCtx).
Abbreviation start := (peer_start org greeter token).
Abbreviation turn_of := (peer_turn org greeter token now client_ctx).
Abbreviation direct := (direct_request token now client_ctx).
Abbreviation who := (who greeter).

(** ** What a client is going to do *)

(** From [b], the client will send [sends] and come to [stop] if it receives [recvs],
    and its [n] other requests lead the server to [b']. *)
Definition deletes (r : PeerReq) : Prop := ∃ reason, r = REQ_invite_delete reason.
Inductive script {A} : peerM A → Backend → list (ConduitState * bytes) → list bytes → peerM A →
    Backend → nat → Prop :=
  | script_stop stop b : script stop b [] [] stop b 0
  | script_exchange r k b ex rs sends recvs stop b' n :
      peer_exchanges r = Some ex → ex ≠ [] → length rs = length ex →
      script (k (RepOk (default [] (last rs)))) b sends recvs stop b' n →
      script (PReq r k) b (ex ++ sends) (rs ++ recvs) stop b' n
  | script_direct r k b rep b1 sends recvs stop b' n :
      peer_exchanges r = None → ¬ deletes r →
      (∀ i, direct r (mkWorld i b) = (mkWorld i b1, Some rep)) →
      script (k rep) b1 sends recvs stop b' n →
      script (PReq r k) b sends recvs stop b' (S n).

Lemma script_quiet {A} (p : peerM A) b sends recvs stop b' :
  script p b sends recvs stop b' 0 → ∀ b2, script p b2 sends recvs stop b2 0.
Proof.
  remember 0%nat as n eqn:En. induction 1; intros b2.
  - constructor.
  - by econstructor; eauto.
  - done.
Qed.

(** A handler that has more to do afterwards takes the same steps. *)
Definition waits (w : option ConduitListenCtx) : nat := if w is Some _ then 1 else 0.
Lemma handler_step_extend o wg todo sends w past got i i' sh' :
  todo ≠ [] ∨ is_Some w →
  handler_step (mkHandler o wg token (todo ++ sends) w (past ++ got)) i = (i', Ok sh') →
  ∃ todo' w' got', sh' = mkHandler o wg token (todo' ++ sends) w' (past ++ got') ∧
    handler_step (mkHandler o wg token todo w got) i = (i', Ok (mkHandler o wg token todo' w' got')) ∧
    (length got' + length todo' + waits w' = length got + length todo + waits w)%nat ∧
    got `prefix_of` got'.
Proof.
  intros Hne. unfold handler_step. cbn [h_waiting h_todo h_org h_greeter h_token h_received].
  destruct w as [ctx|].
  - intros (payload & i1 & E & Hret)%bind_inv_Ok. rewrite (bind_Ok _ _ _ _ _ E).
    destruct payload as [p|]; injection Hret as <- <-.
    + exists todo, None, (got ++ [p]). rewrite app_assoc, length_app. cbn. split_and!; [done..|lia|].
      by eexists.
    + exists todo, (Some ctx), got. by split_and!.
  - destruct todo as [|[st p] todo]; [by destruct Hne as [|[]]|]. cbn [app].
    intros (ctx & i1 & E & Hret)%bind_inv_Ok. rewrite (bind_Ok _ _ _ _ _ E).
    injection Hret as <- <-. exists todo, (Some ctx), got. cbn. split_and!; [done..|lia|done].
Qed.
Lemma prefix_within {X} (l1 l2 l3 : list X) :
  l1 `prefix_of` l2 ++ l3 → (length l1 <= length l2)%nat → l1 `prefix_of` l2.
Proof.
  revert l2. induction l1 as [|y l1 IH]; intros l2 Hpre Hl; [apply prefix_nil|].
  destruct l2 as [|z l2]; cbn in Hl; [lia|].
  pose proof (prefix_cons_inv_1 _ _ _ _ Hpre) as ->. apply prefix_cons, IH; [|lia].
  by eapply prefix_cons_inv_2.
Qed.

Section peer.
Context {A : Type} (g : bool) (all : list bytes) (stop : peerM A) (b' : Backend).
(** A client stops when it returns, or at the deletion of the invitation. *)
Definition returns (p : peerM A) : Prop := ∃ a, p = PRet a.
Context (Hstop : returns stop ∨ ∃ r k, stop = PReq r k ∧ deletes r).

(** The client and the handler that would run all its rounds. *)
Inductive sim : Peer A → Handler → Backend → nat → Prop :=
  | sim_done past :
      past = all →
      sim (start g stop) (mkHandler org (who g) token [] None past) b' 0
  | sim_direct r k b sends recvs past n :
      peer_exchanges r = None → ¬ deletes r →
      script (PReq r k) b sends recvs stop b' n → past ++ recvs = all →
      sim (start g (PReq r k)) (mkHandler org (who g) token sends None past) b n
  | sim_within r k b todo w got rs sends recvs past n :
      is_Some (peer_exchanges r) → (todo ≠ [] ∨ is_Some w) →
      length rs = (length got + length todo + if w is Some _ then 1 else 0)%nat →
      got `prefix_of` rs →
      script (k (RepOk (default [] (last rs)))) b sends recvs stop b' n →
      past ++ rs ++ recvs = all →
      sim (mkPeer (PReq r k) (mkHandler org (who g) token todo w got))
        (mkHandler org (who g) token (todo ++ sends) w (past ++ got)) b n.

Lemma deletes_exchanges r : deletes r → peer_exchanges r = None.
Proof. by intros [reason ->]. Qed.
Lemma script_not_stop r k b sends recvs n :
  script (PReq r k) b sends recvs stop b' n → peer_exchanges r = None → ¬ deletes r →
  ∃ rep b1 n0, n = S n0 ∧ (∀ i, direct r (mkWorld i b) = (mkWorld i b1, Some rep)) ∧
    script (k rep) b1 sends recvs stop b' n0.
Proof.
  intros Hs Hex Hnd.
  inversion Hs as [q b0 Eq|? ? ? ? ? ? ? ? ? ? Hex'|? ? ? rep b1 ? ? ? ? n0 _ _ Hd Hk]; subst.
  - exfalso. destruct Hstop as [[a [=]]|(r' & k' & [= -> ->] & Hr)]; done.
  - congruence.
  - by exists rep, b1, n0.
Qed.
Lemma sim_start p b sends recvs past n :
  script p b sends recvs stop b' n → past ++ recvs = all →
  sim (start g p) (mkHandler org (who g) token sends None past) b n.
Proof.
  intros Hs Hall. inversion Hs as [|r k b0 ex rs sends' recvs' a0 b1 n0 Hex Hne Hl Hk|
    r k b0 rep b1 sends' recvs' a0 b2 n0 Hex Hnd]; subst.
  - apply sim_done. by rewrite app_nil_r in Hall.
  - unfold peer_start. rewrite Hex. cbn [default]. rewrite <-(app_nil_r past) at 1.
    assert (length rs = (length (@nil bytes) + length ex + 0)%nat) as Hl' by (cbn; lia).
    exact (sim_within r k b ex None [] rs sends' recvs' past n (mk_is_Some _ _ Hex) (or_introl Hne) Hl'
      (prefix_nil _) Hk Hall).
  - by eapply sim_direct.
Qed.

(** A client that has stopped, or that has not. *)
Lemma sim_stopped p sh b n :
  sim p sh b n →
  p = start g stop ∧ sh = mkHandler org (who g) token [] None all ∧ b = b' ∧ n = 0%nat ∨
  (∃ r k, pr_prog p = PReq r k ∧ ¬ deletes r).
Proof.
  destruct 1 as [past ->|r k b sends recvs past n Hex Hnd Hs Hall|
    r k b todo w got rs sends recvs past n [ex Hex] _ _ _ _ _]; [by left|right; by eexists _, _|].
  right. eexists _, _. split; [done|]. intros Hd%deletes_exchanges. congruence.
Qed.

(** A step of the handler is a turn of the client. *)
Lemma sim_step p sh b n i i' sh' :
  returns stop ∨ (∃ r k, pr_prog p = PReq r k ∧ ¬ deletes r) →
  sim p sh b n → handler_step sh i = (i', Ok sh') → h_received sh' `prefix_of` all →
  ∃ p' b1 n', (∃ i1, turn_of g p (mkWorld i b) = (mkWorld i1 b1, Some p') ∧
    (n' = n ∧ b1 = b ∧ i1 = i' ∧ sim p' sh' b1 n' ∧ (sh' = sh → p' = p) ∨
     n = S n' ∧ i1 = i ∧ sim p' sh b1 n')).
Proof.
  intros Hgo Hsim. destruct Hsim as [past ->|r k b sends recvs past n Hex Hnd Hs Hall|
    r k b todo w got rs sends recvs past n Hex Hne Hl Hpre Hs Hall]; intros E Hrec.
  - assert (returns stop) as [a Ea].
    { destruct Hgo as [?|(r & k & Ep & Hd)]; [done|]. cbn in Ep.
      destruct Hstop as [?|(r' & k' & -> & ?)]; [done|]. by injection Ep as <- <-. }
    injection E as <- <-. exists (start g stop), b', 0%nat. exists i.
    split; [by rewrite Ea|]. left. split_and!; [done..| |done]. by apply sim_done.
  - destruct (script_not_stop _ _ _ _ _ _ Hs Hex Hnd) as (rep & b1 & n0 & -> & Hd & Hk).
    exists (start g (k rep)), b1, n0, i. split.
    + unfold peer_turn. cbn [pr_prog peer_start]. rewrite Hex, Hd. done.
    + right. split_and!; [done..|]. by eapply sim_start.
  - destruct (handler_step_extend _ _ _ _ _ _ _ _ _ _ Hne E) as (todo' & w' & got' & -> & E' & Hl' & Hgot).
    cbn [h_received] in Hrec. rewrite <-Hall in Hrec. apply prefix_app_inv in Hrec.
    apply prefix_within in Hrec; [|unfold waits in Hl'; lia].
    destruct Hex as [ex Hex]. unfold peer_turn. cbn [pr_prog pr_handler wo_invites]. rewrite Hex, E'.
    destruct (handler_finished _) eqn:Hfin.
    + assert (todo' = [] ∧ w' = None) as [-> ->].
      { unfold handler_finished in Hfin. cbn in Hfin. by destruct todo', w'. }
      assert (got' = rs) as ->.
      { destruct Hrec as [x ->]. rewrite length_app in Hl. cbn in Hl'. unfold waits in Hl'.
        destruct x as [|y x]; [by rewrite app_nil_r|cbn in Hl; lia]. }
      eexists _, b, n, i'. split; [reflexivity|]. left. split_and!; [done..| |].
      * cbn [app]. eapply sim_start; [exact Hs|]. by rewrite <-app_assoc.
      * intros [= Et Ew Eg]. rewrite <-Ew in Hne. apply (app_inv_tail sends [] todo) in Et.
        by destruct Hne as [|[]].
    + eexists _, b, n, i'. split; [reflexivity|]. left. split_and!; [done..| |].
      2:{ intros [= Et Ew Eg]. apply app_inv_tail in Et as Et'. apply app_inv_head in Eg. by subst. }
      eapply sim_within; [by eexists| | |exact Hrec|exact Hs|exact Hall].
      * unfold handler_finished in Hfin. cbn in Hfin. destruct todo', w'; eauto; by left.
      * unfold waits in Hl'. lia.
Qed.
(** When the handler has ended, the client has stopped, or is at another request. *)
Lemma sim_finished p sh b n :
  sim p sh b n → handler_finished sh = true →
  p = start g stop ∧ b = b' ∨
  ∃ n' p' b1, n = S n' ∧ (∀ i, turn_of g p (mkWorld i b) = (mkWorld i b1, Some p')) ∧ sim p' sh b1 n'.
Proof.
  intros Hs Hf. destruct Hs as [past ->|r k b sends recvs past n Hex Hnd Hs Hall|
    r k b todo w got rs sends recvs past n Hex Hne _ _ _ _]; [by left| |].
  - right. destruct (script_not_stop _ _ _ _ _ _ Hs Hex Hnd) as (rep & b1 & n0 & -> & Hd & Hk).
    exists n0, (start g (k rep)), b1. split_and!; [done| |by eapply sim_start].
    intros i. unfold peer_turn. cbn [pr_prog peer_start]. by rewrite Hex, Hd.
  - unfold handler_finished in Hf. cbn in Hf. by destruct todo, sends, w, Hne as [|[]].
Qed.
End peer.

Lemma sim_quiet {A} g all (stop : peerM A) b' p sh b :
  sim g all stop b' p sh b 0 → ∀ b2, sim g all stop b2 p sh b2 0.
Proof.
  remember 0%nat as n eqn:En. intros Hsim b2.
  destruct Hsim as [past ->|r k b sends recvs past n Hex Hnd Hs Hall|
    r k b todo w got rs sends recvs past n Hex Hne Hl Hpre Hs Hall].
  - by apply sim_done.
  - subst n. eapply sim_direct; [done|done|by eapply script_quiet|done].
  - subst n. eapply sim_within; [done..| |done]. by eapply script_quiet.
Qed.

(** A client that is on its way, or has returned. *)
Definition on_track {A} (a : A) (p : peerM A) : Prop :=
  match p with PRet x => x = a | PRaise _ => False | PReq _ _ => True end.

(** Every request of the client raises [e] when the invitation is deleted. *)
Fixpoint raises_deleted {A} (e : InviteError) (p : peerM A) : Prop :=
  match p with
  | PReq r k => k (RepError "already_deleted") = PRaise e ∧ ∀ rep, raises_deleted e (k rep)
  | _ => True
  end.
Lemma raises_deleted_bind {A B} e (m : peerM A) (f : A → peerM B) :
  raises_deleted e m → (∀ x, raises_deleted e (f x)) → raises_deleted e (m ≫= f).
Proof.
  intros Hm Hf. induction m as [x|e'|r k IH]; [apply Hf|done|]. destruct Hm as [Hk Hm]. split.
  - change ((k (RepError "already_deleted") ≫= f) = PRaise e). by rewrite Hk.
  - intros rep. apply (IH rep), Hm.
Qed.
Lemma raises_deleted_checked r : raises_deleted InviteAlreadyUsedError (checked_request r).
Proof. split; [done|]. intros [x|st]; [done|]. cbn. by repeat case_decide. Qed.
Lemma raises_deleted_or_raise {A} e e' (o : option A) : raises_deleted e (or_raise e' o).
Proof. by destruct o. Qed.
Lemma raises_deleted_turn {A} e g (p p' : Peer A) w w' :
  raises_deleted e (pr_prog p) → turn_of g p w = (w', Some p') → raises_deleted e (pr_prog p').
Proof.
  unfold peer_turn. intros Hp. destruct (pr_prog p) as [x|e'|r k] eqn:Ep; try (intros [= _ <-]; by rewrite Ep).
  destruct (peer_exchanges r).
  - destruct (handler_step _ _) as [i [h|e']].
    + intros [= _ <-]. destruct (handler_finished h); [apply Hp|exact Hp].
    + destruct (conduit_status e') as [st|]; [|done]. intros [= _ <-]. apply Hp.
  - destruct (direct_request _ _ _ _ _) as [w1 [rep|]]; [|done]. intros [= _ <-]. apply Hp.
Qed.

(** ** The meeting *)

Section met.
Context {A B : Type} (rounds : list Round) (Hch : chained rounds) (a : A) (c : B) (b' : Backend).
Abbreviation meeting := (Meeting A B).
Abbreviation next := (meeting_turn org greeter token now client_ctx).
Abbreviation go := (meeting_run org greeter token now client_ctx).

(** The greeter ends with the deletion of the invitation. *)
Definition last_request : peerM B := PReq (REQ_invite_delete FINISHED) (λ _, PRet c).
Lemma claimer_stop : returns (PRet a) ∨ ∃ r k, PRet a = PReq r k ∧ deletes r.
Proof. left. by eexists. Qed.
Lemma greeter_stop : returns last_request ∨ ∃ r k, last_request = PReq r k ∧ deletes r.
Proof. right. eexists _, _. split; [done|]. by eexists. Qed.

(** The meeting follows the rounds; [n] bounds the turns that are left. *)
Definition met (m : meeting) (n : nat) : Prop :=
  ∃ y k, invariant org greeter token rounds y ∧ wo_invites (me_world m) = sy_store y ∧
    (∀ b, sim false (pay true <$> rounds) (PRet a) b (me_claimer m) (sy_claimer y) b 0) ∧
    sim true (pay false <$> rounds) last_request b' (me_greeter m) (sy_greeter y) (wo_backend (me_world m)) k ∧
    raises_deleted InviteAlreadyUsedError (pr_prog (me_claimer m)) ∧
    n = (left_to_do y + k)%nat.
(** The greeter is about to delete the invitation. *)
Definition at_end (m : meeting) : Prop :=
  me_greeter m = start true last_request ∧ wo_backend (me_world m) = b'.
(** The invitation is deleted: the requests on it fail. *)
Definition gone (i : Invites) : Prop :=
  find_invitation (invite_store i org) token None = Err InvitationAlreadyDeletedError.
(** The greeter has ended: the claimer has too, or its next turn fails. *)
Definition parted (m : meeting) (n : nat) : Prop :=
  me_greeter m = start true (PRet c) ∧ wo_backend (me_world m) = b' ∧ gone (wo_invites (me_world m)) ∧
  (n = 0%nat ∧ (me_claimer m = start false (PRet a) ∨ me_claimer m = start false (PRaise InviteAlreadyUsedError)) ∨
   n = 1%nat ∧ ∃ r k h, me_claimer m = mkPeer (PReq r k) h ∧ is_Some (peer_exchanges r) ∧
     k (RepError "already_deleted") = PRaise InviteAlreadyUsedError ∧
     ∀ i, gone i → handler_step h i = (i, Err InvitationAlreadyDeletedError)).
Definition phase (m : meeting) (n : nat) : Prop := (∃ k, met m k ∧ n = (k + 2)%nat) ∨ parted m n.

Lemma turn_handler y g y1 :
  turn g y = Ok y1 →
  ∃ i sh, handler_step (sy_handler g y) (sy_store y) = (i, Ok sh) ∧ y1 = with_handler g i sh y.
Proof.
  unfold turn. destruct (handler_step _ _) as [i [sh|e]]; [|done]. intros [= <-]. by exists i, sh.
Qed.

Lemma met_turn_at m y y1 g k :
  (g = true → ¬ at_end m) →
  invariant org greeter token rounds y → wo_invites (me_world m) = sy_store y →
  (∀ b, sim false (pay true <$> rounds) (PRet a) b (me_claimer m) (sy_claimer y) b 0) →
  sim true (pay false <$> rounds) last_request b' (me_greeter m) (sy_greeter y) (wo_backend (me_world m)) k →
  raises_deleted InviteAlreadyUsedError (pr_prog (me_claimer m)) →
  turn g y = Ok y1 → invariant org greeter token rounds y1 →
  ∃ m', next g m = Some m' ∧
    (met m' (left_to_do y1 + k) ∧ (y1 = y → m' = m) ∨ ∃ k', k = S k' ∧ met m' (left_to_do y + k')).
Proof.
  intros Hend Hinv Hi Hc Hg Hrd Ht Hinv1. destruct m as [[i b] pc pg]. cbn in *. subst i.
  pose proof (invariant_received org greeter token rounds y1 g Hinv1) as Hrec.
  apply turn_handler in Ht as (i' & sh & E & ->). rewrite with_handler_same in Hrec.
  destruct g; cbn [sy_handler] in E.
  - assert (returns last_request ∨ ∃ r k0, pr_prog pg = PReq r k0 ∧ ¬ deletes r) as Hgo.
    { right. destruct (sim_stopped _ _ _ _ _ _ _ _ Hg) as [(-> & _ & -> & _)|?]; [|done]. by destruct Hend. }
    destruct (sim_step _ _ _ _ greeter_stop _ _ _ _ _ _ _ Hgo Hg E Hrec)
      as (p' & b1 & n' & i1 & Et & [(-> & -> & -> & Hs & Hid)|(-> & -> & Hs)]).
    + exists (mkMeeting (mkWorld i' b) pc p'). cbn [meeting_turn me_greeter me_world]. rewrite Et.
      split; [done|]. left. split; [by exists (with_handler true i' sh y), k|].
      intros Ey. rewrite Hid; [|exact (f_equal sy_greeter Ey)].
      by rewrite <-(f_equal sy_store Ey : i' = sy_store y).
    + exists (mkMeeting (mkWorld (sy_store y) b1) pc p'). cbn [meeting_turn me_greeter me_world].
      rewrite Et. split; [done|]. right. exists n'. split; [done|]. by exists y, n'.
  - destruct (sim_step _ _ _ _ claimer_stop _ _ _ _ _ _ _ (or_introl (ex_intro _ a eq_refl)) (Hc b) E Hrec)
      as (p' & b1 & n' & i1 & Et & [(-> & -> & -> & Hs & Hid)|(? & _)]); [|done].
    exists (mkMeeting (mkWorld i' b) p' pg). cbn [meeting_turn me_claimer me_world]. rewrite Et.
    split; [done|]. left. split.
    + exists (with_handler false i' sh y), k. split_and!; try done.
      * cbn. by eapply sim_quiet.
      * by eapply raises_deleted_turn.
    + intros Ey. rewrite Hid; [|exact (f_equal sy_claimer Ey)].
      by rewrite <-(f_equal sy_store Ey : i' = sy_store y).
Qed.

Lemma at_end_dec m n : met m n → at_end m ∨ ¬ at_end m.
Proof.
  intros (y & k & _ & _ & _ & Hg & _). destruct (sim_stopped _ _ _ _ _ _ _ _ Hg) as [(Eg & _ & Eb & _)|(r & k' & Ep & Hd)].
  - left. by split.
  - right. intros [Eg _]. rewrite Eg in Ep. injection Ep as <- _. apply Hd. by eexists.
Qed.
Lemma met_turns m n :
  met m n →
  (∀ g, (g = true → ¬ at_end m) →
     next g m = Some m ∨ ∃ m' n', next g m = Some m' ∧ met m' n' ∧ (n' < n)%nat) ∧
  (at_end m ∨ ∃ g, (g = true → ¬ at_end m) ∧ ∃ m' n', next g m = Some m' ∧ met m' n' ∧ (n' < n)%nat).
Proof.
  intros Hmet. pose proof (at_end_dec _ _ Hmet) as Hdec.
  destruct Hmet as (y & k & Hinv & Hi & Hc & Hg & Hrd & ->).
  destruct (invariant_turns org greeter token rounds y Hch Hinv) as [Hok Hgo].
  assert (∀ g, (g = true → ¬ at_end m) → turn_goes org greeter token rounds y g →
    ∃ m' n', next g m = Some m' ∧ met m' n' ∧ (n' < left_to_do y + k)%nat) as Hgoes.
  { intros g Hend (y1 & E & Hinv1 & Hl).
    destruct (met_turn_at m y y1 g k Hend Hinv Hi Hc Hg Hrd E Hinv1) as (m' & Em & [[Hm _]|(k' & -> & Hm)]);
      eexists m', _; (split; [done|]); (split; [exact Hm|]); lia. }
  split.
  - intros g Hend. destruct (Hok g) as [Hg'|E].
    + right. by apply Hgoes.
    + destruct (met_turn_at m y y g k Hend Hinv Hi Hc Hg Hrd E Hinv) as (m' & Em & [[Hm Hid]|(k' & -> & Hm)]).
      * left. by rewrite Em, Hid.
      * right. eexists m', _. split; [done|]. split; [exact Hm|]. lia.
  - destruct Hdec as [Hend|Hend]; [by left|right].
    destruct Hgo as [[[Hf1 Hf2] _]|[g Hg']]; [|exists g; split; [done|by apply Hgoes]].
    destruct (sim_finished _ _ _ _ greeter_stop _ _ _ _ Hg Hf2) as [[Eg Eb]|(k' & p' & b1 & -> & Et & Hs)];
      [by destruct Hend|].
    destruct m as [[i b] pc pg]. cbn [wo_invites wo_backend me_world me_greeter] in *. subst i.
    exists true. split; [done|]. exists (mkMeeting (mkWorld (sy_store y) b1) pc p'), (left_to_do y + k')%nat.
    cbn [meeting_turn me_greeter me_world]. rewrite Et. split_and!; [done| |lia]. by exists y, k'.
Qed.

(** The last turn of the claimer, when the greeter has got everything. *)
Lemma claimer_last y (Hinv : invariant org greeter token rounds y)
    (Hg : sy_greeter y = mkHandler org (Some greeter) token [] None (pay false <$> rounds)) :
  ∃ sh, handler_step (sy_claimer y) (sy_store y) = (sy_store y, Ok sh) ∧ handler_finished sh = true ∧
    h_received sh `prefix_of` (pay true <$> rounds).
Proof.
  pose proof (invariant_received org greeter token rounds y false Hinv) as Hrec.
  destruct Hinv as (Hi & x & past & l & -> & Hat).
  assert (h_todo (sy_greeter y) = [] ∧ h_waiting (sy_greeter y) = None) as [Htodo Hw] by by rewrite Hg.
  inversion Hat as [c0 l' Hc Hx Hy|r l' Hx Hy|r l' Hx Hy|r l' Hx Hy Hc Hl|r r2 l' Hx Hy]; subst.
  - (* both have ended *)
    assert (l = []) as ->.
    { destruct x; cbn in Hx, Hy; rewrite <-?Hx, <-?Hy in Htodo; by apply fmap_nil_inv in Htodo. }
    exists (sy_claimer y).
    assert (sy_claimer y = handler_at org greeter token false past [] None) as -> by by destruct x.
    split; [done|]. split; [done|]. rewrite app_nil_r. done.
  - destruct x; cbn in Hx, Hy; rewrite <-?Hx, <-?Hy in Htodo, Hw; done.
  - destruct x; cbn in Hx, Hy; rewrite <-?Hx, <-?Hy in Htodo, Hw; done.
  - destruct x; cbn in Hx, Hy; rewrite <-?Hx, <-?Hy in Htodo, Hw; [|done].
    apply fmap_nil_inv in Htodo as ->.
    pose proof (listen_step org greeter token (sy_store y) false r past [] (Some (pay true r))
      (ListenReturn (pay true r)) Hi) as E.
    rewrite <-Hc in E. specialize (E (listen_second_done _ _ _ _ _ _ _)). cbn beta iota in E.
    assert (sy_claimer y = handler_at org greeter token false past [] (listening org greeter token false r (Some (pay true r))))
      as -> by by symmetry.
    eexists. split; [exact E|]. split; [done|]. cbn [h_received]. by rewrite fmap_app.
  - destruct x; cbn in Hx, Hy; rewrite <-?Hx, <-?Hy in Htodo, Hw; done.
Qed.
Lemma claimer_ends m n :
  met m n → at_end m → ∃ m', next false m = Some m' ∧ pr_prog (me_claimer m') = PRet a.
Proof.
  intros (y & k & Hinv & Hi & Hc & Hg & Hrd & _) [Eg Eb].
  destruct (sim_stopped _ _ _ _ _ _ _ _ Hg) as [(_ & Esh & _)|(r & k' & Ep & Hd)].
  2:{ rewrite Eg in Ep. injection Ep as <- _. destruct Hd. by eexists. }
  destruct (claimer_last y Hinv Esh) as (sh & E & Hfin & Hrec).
  destruct m as [[i b] pc pg]. cbn in *. subst i.
  destruct (sim_step _ _ _ _ claimer_stop _ _ _ _ _ _ _ (or_introl (ex_intro _ a eq_refl)) (Hc b) E Hrec)
    as (p' & b1 & n' & i1 & Et & [(-> & -> & -> & Hs & _)|(? & _)]); [|done].
  destruct (sim_finished _ _ _ _ claimer_stop _ _ _ _ Hs Hfin) as [[-> _]|(? & ? & ? & [=] & _)].
  cbn [meeting_turn me_claimer me_world]. rewrite Et. by eexists.
Qed.

(** A request on an invitation that is deleted. *)
Lemma invariant_waiting y g ctx :
  invariant org greeter token rounds y → h_waiting (sy_handler g y) = Some ctx →
  l_organization_id ctx = org ∧ l_token ctx = token ∧ l_greeter ctx = who g.
Proof.
  intros (_ & x & past & l & _ & Hat) Hw.
  assert (g = x ∨ g = negb x) as Hx by (destruct g, x; tauto).
  inversion Hat as [c0 l' Hc Hx1 Hy|r l' Hx1 Hy|r l' Hx1 Hy|r l' Hx1 Hy|r r2 l' Hx1 Hy]; subst;
    destruct Hx as [-> | ->]; rewrite <-?Hx1, <-?Hy in Hw; cbn in Hw; try discriminate Hw;
    injection Hw as <-; done.
Qed.
Lemma gone_find i g :
  gone i → (∃ x, od_get (is_invitations (invite_store i org)) token = Some x ∧ i_greeter x = greeter) →
  find_invitation (invite_store i org) token (who g) = Err InvitationAlreadyDeletedError.
Proof.
  unfold gone, find_invitation. intros Hg (x & Hx & Hgr). rewrite Hx in *. destruct g; cbn; [|exact Hg].
  rewrite bool_decide_eq_false_2 by (intros Hne; by apply Hne). exact Hg.
Qed.
Lemma gone_step todo w got i :
  todo ≠ [] ∨ is_Some w →
  (∀ ctx, w = Some ctx → l_organization_id ctx = org ∧ l_token ctx = token ∧ l_greeter ctx = None) →
  gone i → handler_step (mkHandler org None token todo w got) i = (i, Err InvitationAlreadyDeletedError).
Proof.
  intros Hne Hctx Hg. unfold handler_step. cbn [h_waiting h_todo h_org h_greeter h_token].
  assert (get_invitation_and_conduit org token None i = (i, Err InvitationAlreadyDeletedError)) as Hget.
  { unfold get_invitation_and_conduit, mbind, stM_bind, gets, lift_result. by rewrite Hg. }
  destruct w as [ctx|].
  - destruct (Hctx ctx eq_refl) as (E1 & E2 & E3). apply bind_Err. unfold conduit_listen.
    rewrite E1, E2, E3. by apply bind_Err.
  - destruct todo as [|[st p] todo]; [by destruct Hne as [|[]]|]. apply bind_Err. unfold conduit_talk. by apply bind_Err.
Qed.
(** The greeter deletes the invitation. *)
Context (Horg : org = cc_organization_id client_ctx) (Hgreeter : greeter = cc_user_id client_ctx).
Lemma invited_delete i :
  invited org greeter token i →
  ∃ i', api_invite_delete now client_ctx token FINISHED i = (i', Ok (RepOk tt)) ∧ gone i'.
Proof.
  intros (x & Hx & Hgr & Hd). unfold api_invite_delete, try_catch. rewrite <-Horg, <-Hgreeter.
  assert (get_invitation_and_conduit org token (Some greeter) i
    = (i, Ok (x, conduit_of (invite_store i org) token))) as Hget.
  { unfold get_invitation_and_conduit, mbind, stM_bind, gets, lift_result, find_invitation. rewrite Hx.
    rewrite bool_decide_eq_false_2 by (intros Hne; by apply Hne). by rewrite Hd. }
  eexists. split.
  - unfold invite_delete. unfold mbind at 1, stM_bind at 1. rewrite (bind_Ok _ _ _ _ _ Hget). cbn. reflexivity.
  - unfold gone, find_invitation, invite_store. cbn [iv_organizations]. rewrite lookup_insert_eq.
    cbn [default from_option id is_invitations is_deleted_invitations]. unfold invite_store in Hx. rewrite Hx.
    by rewrite lookup_insert_eq.
Qed.
Lemma met_deletion m n :
  met m n → at_end m → ∃ m' n', next true m = Some m' ∧ parted m' n' ∧ (n' <= 1)%nat.
Proof.
  intros (y & k & Hinv & Hi & Hc & Hg & Hrd & _) [Eg Eb].
  destruct (invited_delete (sy_store y) (proj1 Hinv)) as (i' & Edel & Hgone).
  destruct m as [[i b] pc pg]. cbn in Hi, Hc, Hrd, Eg, Eb. subst i pg b.
  assert (next true (mkMeeting (mkWorld (sy_store y) b') pc (start true last_request))
    = Some (mkMeeting (mkWorld i' b') pc (start true (PRet c)))) as Enext.
  { cbn [meeting_turn me_greeter me_world]. unfold peer_turn. cbn [pr_prog peer_start last_request peer_exchanges].
    cbn [direct_request wo_invites wo_backend]. by rewrite Edel. }
  assert (∃ n', (n' <= 1)%nat ∧ parted (mkMeeting (mkWorld i' b') pc (start true (PRet c))) n') as (n' & Hn & Hp).
  { pose proof (invariant_waiting y false) as Hw. cbn [sy_handler] in Hw. 
    assert (∃ b0, sim false (pay true <$> rounds) (PRet a) b0 pc (sy_claimer y) b0 0) as [b0 Hc0] by by exists b'.
    remember (sy_claimer y) as sh eqn:Esh. remember b0 as b1 in Hc0 at 2. remember 0%nat as n0 eqn:En in Hc0.
    destruct Hc0 as [past ->|r k' b sends recvs past n' Hex Hnd Hs Hall|
      r k' b todo w got rs sends recvs past n' Hex Hne Hl Hpre Hs Hall].
    - exists 0%nat. split; [lia|]. split_and!; [done..|]. left. split; [done|]. by left.
    - by destruct (script_not_stop _ _ claimer_stop _ _ _ _ _ _ Hs Hex Hnd) as (? & ? & ? & -> & _).
    - exists 1%nat. split; [done|]. split_and!; [done..|]. right. split; [done|]. cbn in Hrd.
      eexists r, k', _. split_and!; [done|done|apply Hrd|]. intros i Hi. apply gone_step; [done| |done].
      intros ctx ->. by apply Hw. }
  eexists _, n'. split; [exact Enext|]. by split.
Qed.
Lemma parted_turns m n :
  parted m n →
  (∀ g, next g m = Some m ∨ ∃ m', next g m = Some m' ∧ n = 1%nat ∧ parted m' 0) ∧
  (n = 0%nat ∨ ∃ m', next false m = Some m' ∧ n = 1%nat ∧ parted m' 0).
Proof.
  destruct m as [[i b] pc pg]. intros (Eg & Eb & Hgone & Hc). cbn in Eg, Eb, Hgone, Hc. subst pg b.
  destruct Hc as [(-> & Hc)|(-> & r & k & h & -> & Hex & Hk & Hh)].
  - split; [|by left]. intros [|]; [by left|left]. by destruct Hc as [-> | ->].
  - assert (∃ m', next false (mkMeeting (mkWorld i b') (mkPeer (PReq r k) h) (start true (PRet c))) = Some m' ∧
      parted m' 0) as (m' & E & Hp).
    { exists (mkMeeting (mkWorld i b') (start false (PRaise InviteAlreadyUsedError)) (start true (PRet c))).
      split; [|split_and!; [done..|by left; split; [|right]]].
      cbn [meeting_turn me_claimer me_world]. unfold peer_turn. cbn [pr_prog pr_handler wo_invites].
      destruct Hex as [ex ->]. rewrite Hh by done. cbn [conduit_status fmap option_fmap option_map]. by rewrite Hk. }
    split; [|right; by exists m']. intros [|]; [by left|right]. by exists m'.
Qed.

Lemma phase_turns m n :
  phase m n →
  (∀ g, next g m = Some m ∨ ∃ m' n', next g m = Some m' ∧ phase m' n' ∧ (n' < n)%nat) ∧
  (parted m 0 ∨ ∃ g m' n', next g m = Some m' ∧ phase m' n' ∧ (n' < n)%nat).
Proof.
  intros [(k & Hm & ->)|Hp].
  - destruct (met_turns m k Hm) as [Hall Hgo].
    assert (at_end m → ∃ m' n', next true m = Some m' ∧ phase m' n' ∧ (n' < k + 2)%nat) as Hdel.
    { intros Hend. destruct (met_deletion m k Hm Hend) as (m' & n' & E & Hp & Hn).
      exists m', n'. split; [done|]. split; [by right|lia]. }
    assert (∀ g m' n', next g m = Some m' → met m' n' → (n' < k)%nat →
      ∃ m' n', next g m = Some m' ∧ phase m' n' ∧ (n' < k + 2)%nat) as Hmet.
    { intros g m' n' E Hm' Hn. exists m', (n' + 2)%nat. split; [done|]. split; [left; by exists n'|lia]. }
    split.
    + intros g. destruct (at_end_dec m k Hm) as [Hend|Hend].
      * destruct g; [right; by apply Hdel|].
        destruct (Hall false ltac:(done)) as [?|(m' & n' & ? & ? & ?)]; [by left|right; by eapply Hmet].
      * destruct (Hall g ltac:(done)) as [?|(m' & n' & ? & ? & ?)]; [by left|right; by eapply Hmet].
    + right. destruct Hgo as [Hend|(g & _ & m' & n' & ? & ? & ?)]; [by exists true; apply Hdel|].
      exists g. by eapply Hmet.
  - destruct (parted_turns m n Hp) as [Hall Hgo]. split.
    + intros g. destruct (Hall g) as [?|(m' & ? & -> & Hp')]; [by left|right].
      exists m', 0%nat. split; [done|]. split; [by right|lia].
    + destruct Hgo as [->|(m' & ? & -> & Hp')]; [by left|right].
      exists false, m', 0%nat. split; [done|]. split; [by right|lia].
Qed.
Lemma phase_run m n schedule :
  phase m n → ∃ m' n', go schedule m = Some m' ∧ phase m' n' ∧ (n' <= n)%nat.
Proof.
  revert m n. induction schedule as [|g schedule IH]; intros m n Hm; [by exists m, n|].
  cbn [meeting_run]. destruct (proj1 (phase_turns m n Hm) g) as [->|(m1 & n1 & -> & Hm1 & Hl)]; cbn [mbind option_bind].
  - by apply IH.
  - destruct (IH m1 n1 Hm1) as (m2 & n2 & E2 & Hm2 & Hl2). exists m2, n2. split_and!; [done..|lia].
Qed.
(** How far each one is: the claimer only fails once the greeter has ended. *)
Lemma phase_on_track m n :
  phase m n →
  on_track c (pr_prog (me_greeter m)) ∧
  (on_track a (pr_prog (me_claimer m)) ∨
   pr_prog (me_claimer m) = PRaise InviteAlreadyUsedError ∧ pr_prog (me_greeter m) = PRet c) ∧
  (pr_prog (me_greeter m) = PRet c → wo_backend (me_world m) = b' ∧ gone (wo_invites (me_world m))).
Proof.
  intros [(k & Hm & _)|(Eg & Eb & Hgone & Hc)].
  - destruct Hm as (y & k' & _ & _ & Hc & Hg & _).
    assert (∃ r k0, pr_prog (me_greeter m) = PReq r k0) as (r & k0 & ->).
    { destruct (sim_stopped _ _ _ _ _ _ _ _ Hg) as [(-> & _)|(r & k0 & -> & _)]; by eexists _, _. }
    split; [done|]. split; [left|done].
    destruct (sim_stopped _ _ _ _ _ _ _ _ (Hc b')) as [(-> & _)|(r' & k1 & -> & _)]; done.
  - rewrite Eg. split; [done|]. split; [|done].
    destruct Hc as [(_ & [-> | ->])|(_ & r & k & h & -> & _)]; [by left|by right|by left].
Qed.
(** One turn of the claimer before the deletion is enough. *)
Lemma phase_claimer_ends m n r k :
  phase m n → pr_prog (me_greeter m) = PReq r k → deletes r →
  ∃ m', next false m = Some m' ∧ pr_prog (me_claimer m') = PRet a.
Proof.
  intros [(j & Hm & _)|(Eg & _)] Ep Hd; [|by rewrite Eg in Ep].
  destruct (at_end_dec m j Hm) as [Hend|Hend]; [by eapply claimer_ends|].
  destruct Hm as (y & k' & _ & _ & _ & Hg & _).
  destruct (sim_stopped _ _ _ _ _ _ _ _ Hg) as [(Eg & _ & Eb & _)|(r' & k0 & Er & Hnd)]; [by destruct Hend|].
  rewrite Ep in Er. injection Er as <- <-. done.
Qed.
Lemma done_run m schedule : parted m 0 → go schedule m = Some m.
Proof.
  intros Hd. induction schedule as [|g schedule IH]; [done|]. cbn [meeting_run].
  destruct (proj1 (parted_turns m 0 Hd) g) as [->|(? & _ & [=] & _)]. exact IH.
Qed.
Lemma phase_progress m n chunk :
  phase m n → (∀ g : bool, g ∈ chunk) →
  ∃ m' n', go chunk m = Some m' ∧ phase m' n' ∧ (parted m' 0 ∨ (n' < n)%nat).
Proof.
  intros Hm Hall. destruct (proj2 (phase_turns m n Hm)) as [Hd|(g & m1 & n1 & E1 & Hm1 & Hl1)].
  { exists m, n. split_and!; [by apply done_run|done|by left]. }
  specialize (Hall g). induction chunk as [|g' chunk IH]; [set_solver|]. cbn [meeting_run].
  destruct (proj1 (phase_turns m n Hm) g') as [E|(m2 & n2 & E & Hm2 & Hl2)]; rewrite E; cbn [mbind option_bind].
  - apply elem_of_cons in Hall as [<-|Hin]; [|by apply IH].
    rewrite E1 in E. injection E as ->.
    destruct (phase_run m n1 chunk Hm1) as (m3 & n3 & E3 & Hm3 & Hl3). exists m3, n3.
    split_and!; [done..|right; lia].
  - destruct (phase_run m2 n2 chunk Hm2) as (m3 & n3 & E3 & Hm3 & Hl3). exists m3, n3.
    split_and!; [done..|right; lia].
Qed.
Lemma meeting_run_app schedule1 schedule2 (m : meeting) :
  go (schedule1 ++ schedule2) m = m' ← go schedule1 m; go schedule2 m'.
Proof.
  revert m. induction schedule1 as [|g l1 IH]; intros m; [done|]. cbn [app meeting_run].
  destruct (next g m); [apply IH|done].
Qed.
Lemma phase_finishes m n chunks :
  phase m n → Forall (λ c, ∀ g : bool, g ∈ c) chunks → (n < length chunks)%nat →
  ∃ m', go (concat chunks) m = Some m' ∧ parted m' 0.
Proof.
  revert m n. induction chunks as [|chunk chunks IH]; intros m n Hm Hall Hn; cbn [length] in Hn; [lia|].
  apply Forall_cons in Hall as [Hc Hall].
  destruct (phase_progress m n chunk Hm Hc) as (m1 & n1 & E1 & Hm1 & [Hd|Hl]); cbn [concat]; rewrite meeting_run_app, E1.
  - exists m1. split; [|done]. by apply done_run.
  - cbn [mbind option_bind]. apply (IH m1 n1); [done..|lia].
Qed.
End met.
End meeting.

(** ** A client against any server *)

(** What a client asks after some replies, whoever sends them. *)
Fixpoint resume {A} (p : peerM A) (replies : list (reply bytes)) : peerM A :=
  match p, replies with
  | PReq _ k, rep :: replies => resume (k rep) replies
  | _, _ => p
  end.
Definition asked {A} (p : peerM A) (replies : list (reply bytes)) : option PeerReq :=
  match resume p replies with PReq r _ => Some r | _ => None end.

Lemma asked_raise {A} e l : asked (A:=A) (PRaise e) l = None.
Proof. by destruct l. Qed.
Lemma asked_ret {A} (a : A) l : asked (PRet a) l = None.
Proof. by destruct l. Qed.
Lemma asked_bind_assoc {A B C} (m : peerM A) (f : A → peerM B) (h : B → peerM C) l :
  asked ((m ≫= f) ≫= h) l = asked (m ≫= λ x, f x ≫= h) l.
Proof.
  revert l. induction m as [a|e|r k IH]; intros l; [done..|].
  destruct l as [|rep l]; [done|]. exact (IH rep l).
Qed.
Lemma asked_request {A} r (k : reply bytes → peerM A) l r' :
  asked (request r ≫= k) l = Some r' →
  l = [] ∧ r' = r ∨ ∃ rep l', l = rep :: l' ∧ asked (k rep) l' = Some r'.
Proof.
  destruct l as [|rep l]; [intros [= <-]; by left|]. intros E. right. by exists rep, l.
Qed.
Lemma asked_check {A} rep (k : bytes → peerM A) l r' :
  asked (check_rep rep ≫= k) l = Some r' → ∃ x, rep = RepOk x ∧ asked (k x) l = Some r'.
Proof.
  destruct rep as [x|st]; [by exists x|]. unfold check_rep. intros E. exfalso.
  repeat case_decide; cbn [mbind peerM_bind] in E; by rewrite asked_raise in E.
Qed.
Lemma asked_check_first {A} rep (k : bytes → peerM A) l r' :
  asked (check_first_rep rep ≫= k) l = Some r' → ∃ x, rep = RepOk x ∧ asked (k x) l = Some r'.
Proof.
  destruct rep as [x|st]; [by exists x|]. unfold check_first_rep. intros E. exfalso.
  repeat case_decide; cbn [mbind peerM_bind] in E; by rewrite asked_raise in E.
Qed.
Lemma asked_checked {A} r (k : bytes → peerM A) l r' :
  asked (checked_request r ≫= k) l = Some r' →
  l = [] ∧ r' = r ∨ ∃ x l', l = RepOk x :: l' ∧ asked (k x) l' = Some r'.
Proof.
  unfold checked_request. rewrite asked_bind_assoc.
  intros [H|(rep & l' & -> & (x & -> & E)%asked_check)]%asked_request; [by left|right; by exists x, l'].
Qed.
Lemma asked_or_raise {A B} e (o : option A) (k : A → peerM B) l r' :
  asked (or_raise e o ≫= k) l = Some r' → ∃ a, o = Some a ∧ asked (k a) l = Some r'.
Proof.
  destruct o as [a|]; [by exists a|]. intros E. change (asked (PRaise e : peerM B) l = Some r') in E.
  by rewrite asked_raise in E.
Qed.
