(* ===== verification/InviteClientProperties.v ===== *)
(** The theorems on the invitation of a user, from the clients to the server. *)

From S2P Require Import Prelude Types ApiManifest Backend Certif BackendUser BackendMessage.
From S2P Require Import BackendVlob BackendVlobProofs BackendRealm BlockStore BackendBlock.
From S2P Require Import BackendOrganization BackendSystem BackendUserProperties BackendExample.
From S2P Require Import Invite InviteProperties RemoteLoader Sas InviteClient.

Import Byte.

(** ** The invitation of a user, end to end *)

Section user.
Context `{CertifApi, LoaderApi, InviteApi}.
(** The invitation; the claimer; the greeter. *)
Context (org : OrganizationID) (token : UUID)
  (claimer_private_key claimer_nonce private_key signing_key : bytes) (claimer_draws : list Z)
  (claimer_pick : list string → nat) (claimer_data : option string * option HumanHandle)
  (user_manifest_id : EntryID) (user_manifest_key local_symkey : SecretKey)
  (greeter_private_key greeter_nonce : bytes) (greeter_draws : list Z)
  (greeter_pick : list string → nat) (new_device_id : DeviceID) (now : DateTime)
  (author : LocalDevice) (grant : InviteUserData → Grant) (client_ctx : ClientCtx)
  (server_now : DateTime)
  (shuffle : gset string → list string).
Abbreviation greeter := (cc_user_id client_ctx).

(** What the two of them run. *)
Definition claim_user : peerM (option LocalDevice) :=
  do_claim claimer_private_key claimer_nonce claimer_draws shuffle claimer_pick
    (λ key, do_claim_user org user_manifest_id user_manifest_key local_symkey private_key signing_key
              key claimer_data.1 claimer_data.2).
Definition greet_user : peerM bool :=
  do_greet_user greeter_private_key greeter_nonce greeter_draws shuffle greeter_pick new_device_id now
    author grant.
Definition meeting_start (i : Invites) (b : Backend) : Meeting (option LocalDevice) bool :=
  mkMeeting (mkWorld i b) (peer_start org greeter token false claim_user)
    (peer_start org greeter token true greet_user).

(** The data that they exchange. *)
Definition shared_key : SecretKey :=
  crypto_scalarmult greeter_private_key (public_key claimer_private_key).
Definition user_data : InviteUserData :=
  mkInviteUserData claimer_data.1 claimer_data.2 (public_key private_key) (verify_key signing_key).
Definition granted : Grant := grant user_data.
Definition confirmation : InviteUserConfirmation :=
  mkInviteUserConfirmation new_device_id (gt_device_label granted) (gt_human_handle granted)
    (gt_profile granted) (ld_root_verify_key author).
Definition create_msg : UserCreateReq :=
  user_create_msg new_device_id now author user_data (gt_device_label granted)
    (gt_human_handle granted) (gt_profile granted).

(** A user that picks the code that it was told, when it is there; and draws that give
    three codes. *)
Definition picks (pick : list string → nat) (code : string) : Prop :=
  ∀ l, code ∈ l → l !! pick l = Some code.
Definition enough_draws (draws : list Z) (code : string) : Prop :=
  Forall (λ i, 0 <= i < SAS_CODES) draws ∧
  (3 <= base.size ({[ code ]} ∪ list_to_set (omap SASCode.from_int draws) : gset string))%nat.
Lemma select_code_picks draws pick code :
  (∀ X, shuffle X ≡ₚ elements X) → enough_draws draws code → picks pick code →
  select_code draws shuffle pick code = PRet true.
Proof.
  intros Hsh [Hall Hn] Hpick. unfold select_code.
  destruct (candidates_loop_ok draws 3 {[ code ]} Hall Hn) as (Y & EY & Hsub & _).
  unfold generate_sas_code_candidates. rewrite EY. cbn.
  rewrite Hpick; [|rewrite Hsh; apply elem_of_elements; set_solver].
  cbn. by rewrite bool_decide_eq_true_2.
Qed.

(** The rounds of this meeting. *)
Definition user_rounds (claim_payload confirm_payload : bytes) : list Round :=
  [mkRound STATE_1_WAIT_PEERS (public_key claimer_private_key) (public_key greeter_private_key);
   mkRound STATE_2_1_CLAIMER_HASHED_NONCE (hash_digest claimer_nonce) [];
   mkRound STATE_2_2_GREETER_NONCE [] greeter_nonce;
   mkRound STATE_2_3_CLAIMER_NONCE claimer_nonce [];
   mkRound STATE_3_1_CLAIMER_TRUST [] [];
   mkRound STATE_3_2_GREETER_TRUST [] [];
   mkRound STATE_4_COMMUNICATE claim_payload [];
   mkRound STATE_4_COMMUNICATE [] confirm_payload].
Abbreviation sends g rounds := ((λ r, (rd_state r, pay g r)) <$> rounds).
Abbreviation recvs g rounds := (pay (negb g) <$> rounds).
Abbreviation script_of := (script token server_now client_ctx).

(** One more request of a script: what it receives. *)
Ltac peer_cbn :=
  cbn [mbind mret peerM_bind peerM_ret checked_request request check_rep check_first_rep or_raise
       last default from_option id].
Ltac exchange rs :=
  peer_cbn;
  lazymatch goal with
  | |- script _ _ _ (PReq ?r ?k) ?b ?s ?v ?a ?b' ?n =>
      let ex := eval cbv in (default [] (peer_exchanges r)) in
      let s' := eval cbn in (drop (length ex) s) in
      let v' := eval cbn in (drop (length rs) v) in
      apply (script_exchange _ _ _ r k b ex rs s' v' a b' n);
      [reflexivity|discriminate|reflexivity|]
  end; peer_cbn.

Lemma claim_user_script b cs gs p1 p2 :
  crypto_scalarmult claimer_private_key (public_key greeter_private_key) = shared_key →
  generate_sas_codes argon2id_kdf claimer_nonce greeter_nonce shared_key = Some (cs, gs) →
  select_code claimer_draws shuffle claimer_pick gs = PRet true →
  secret_encrypt shared_key (dumps_user_data user_data) = Some p1 →
  secret_decrypt shared_key p2 = Some (dumps_user_confirmation confirmation) →
  loads_user_confirmation (dumps_user_confirmation confirmation) = Some confirmation →
  script_of claim_user b (sends false (user_rounds p1 p2)) (recvs false (user_rounds p1 p2))
    (PRet (Some (mkLocalDevice org (ld_root_verify_key author) new_device_id (gt_device_label granted)
       (gt_human_handle granted) signing_key private_key (gt_profile granted) user_manifest_id
       user_manifest_key local_symkey))) b 0.
Proof.
  intros Hdh Hcodes Hsel Henc Hdec Hload.
  unfold claim_user, do_claim, claimer_wait_peer.
  exchange [public_key greeter_private_key].
  exchange [[] : bytes; greeter_nonce].
  rewrite Hdh. unfold sas_codes. rewrite Hcodes.
  exchange [[] : bytes].
  rewrite Hsel. exchange [[] : bytes]. exchange [[] : bytes].
  unfold do_claim_user, dump_and_encrypt. fold user_data. rewrite Henc.
  exchange [[] : bytes]. exchange [p2].
  unfold decrypt_and_load. rewrite Hdec. cbn [mbind option_bind]. rewrite Hload.
  peer_cbn. apply script_stop.
Qed.

Lemma greet_user_script b b' cs gs p1 p2 :
  generate_sas_codes argon2id_kdf claimer_nonce greeter_nonce shared_key = Some (cs, gs) →
  select_code greeter_draws shuffle greeter_pick cs = PRet true →
  secret_decrypt shared_key p1 = Some (dumps_user_data user_data) →
  loads_user_data (dumps_user_data user_data) = Some user_data →
  api_user_create server_now client_ctx create_msg b = (b', Ok (RepOk tt)) →
  secret_encrypt shared_key (dumps_user_confirmation confirmation) = Some p2 →
  script_of greet_user b (sends true (user_rounds p1 p2))
    (recvs true (user_rounds p1 p2)) (last_request true) b' 1.
Proof.
  intros Hcodes Hsel Hdec Hload Hcreate Henc.
  unfold greet_user, do_greet_user, do_greet, greeter_wait_peer.
  exchange [public_key claimer_private_key].
  exchange [hash_digest claimer_nonce].
  exchange [[] : bytes; claimer_nonce].
  rewrite decide_True by done. fold shared_key. unfold sas_codes. rewrite Hcodes.
  exchange [[] : bytes].
  rewrite Hsel. exchange [[] : bytes].
  unfold do_get_claim_requests, decrypt_and_load. exchange [p1].
  rewrite Hdec. cbn [mbind option_bind]. rewrite Hload. unfold do_create_new_user. peer_cbn.
  eapply script_direct; [reflexivity|by intros [? [=]]| |].
  { intros i. cbn [direct_request wo_backend wo_invites].
    change (user_create_msg _ _ _ _ _ _ _) with create_msg. rewrite Hcreate. reflexivity. }
  cbn [status_reply]. peer_cbn. unfold dump_and_encrypt. fold granted confirmation. rewrite Henc.
  exchange [[] : bytes]. apply script_stop.
Qed.

(** What the libraries are relied on for: the two secrets agree, what is encrypted
    is decrypted, what is signed is verified, what is dumped is loaded. *)
Record libraries_ok : Prop := {
  lib_dh : crypto_scalarmult claimer_private_key (public_key greeter_private_key) = shared_key;
  lib_secret raw : ∃ p, secret_encrypt shared_key raw = Some p ∧ secret_decrypt shared_key p = Some raw;
  lib_sign raw : key_verify (cc_verify_key client_ctx) (sign author raw) = Some raw;
  lib_user_certificate h : h ∈ [gt_human_handle granted; None] →
    let u := new_user_certificate new_device_id now author user_data h (gt_profile granted) in
    (d ← loads loads_user (dumps_user_certificate u); make_user_certificate d) = Ok u;
  lib_device_certificate l : l ∈ [gt_device_label granted; None] →
    let d := new_device_certificate new_device_id now author l (verify_key signing_key) in
    loads loads_device (dumps_device_certificate d) = Ok d;
  lib_user_data : loads_user_data (dumps_user_data user_data) = Some user_data;
  lib_confirmation :
    loads_user_confirmation (dumps_user_confirmation confirmation) = Some confirmation;
  lib_shuffle X : shuffle X ≡ₚ elements X }.

(** The two users: each finds the code that the other one reads to him. *)
Definition codes_found : Prop :=
  ∀ cs gs, generate_sas_codes argon2id_kdf claimer_nonce greeter_nonce shared_key = Some (cs, gs) →
    (enough_draws claimer_draws gs ∧ picks claimer_pick gs) ∧
    (enough_draws greeter_draws cs ∧ picks greeter_pick cs).

(** The server takes the new user. *)
Record server_ok (b : Backend) : Prop := {
  srv_reachable : reachable b;
  srv_organization : org = cc_organization_id client_ctx;
  srv_author : ld_device_id author = cc_device_id client_ctx;
  srv_admin : cc_profile client_ctx = ADMIN;
  srv_clock : timestamps_in_the_ballpark now server_now = true;
  srv_user : os_users (orgstore b org) !! user_id new_device_id = None;
  srv_email h u : gt_human_handle granted = Some h → ¬ holds_email (orgstore b org) (email h) u }.

Definition granted_user : UserCertificateContent :=
  new_user_certificate new_device_id now author user_data (gt_human_handle granted)
    (gt_profile granted).
Definition granted_device : DeviceCertificateContent :=
  new_device_certificate new_device_id now author (gt_device_label granted) (verify_key signing_key).
Lemma load_create_msg :
  libraries_ok → ld_device_id author = cc_device_id client_ctx →
  load_user_create client_ctx create_msg
  = Ok (granted_device, granted_user, uc_evolve_human_handle granted_user None,
        dc_evolve_device_label granted_device None).
Proof.
  intros Hl Ha. unfold load_user_create, create_msg, user_create_msg.
  cbn [uq_device_certificate uq_user_certificate uq_redacted_user_certificate
       uq_redacted_device_certificate ud_verify_key user_data].
  fold granted_user granted_device. unfold verify_device_certificate, verify_user_certificate, verify_and_load.
  rewrite !(lib_sign Hl).
  rewrite (lib_device_certificate Hl (gt_device_label granted) ltac:(left)
    : loads _ (dumps_device_certificate granted_device) = Ok granted_device).
  pose proof (lib_user_certificate Hl (gt_human_handle granted) ltac:(left)) as Hu.
  pose proof (lib_user_certificate Hl None ltac:(right; left)) as Hr. cbv zeta in Hu, Hr.
  fold granted_user in Hu.
  change (new_user_certificate _ _ _ _ None _) with (uc_evolve_human_handle granted_user None) in Hr.
  rewrite Hu, Hr.
  rewrite (lib_device_certificate Hl None ltac:(right; left)
    : loads _ (dumps_device_certificate (dc_evolve_device_label granted_device None)) = Ok _).
  cbn -[bool_decide]. rewrite Ha. by rewrite bool_decide_eq_false_2 by tauto.
Qed.

(** The new user, on the server. *)
Definition enrolled (b : Backend) (device : LocalDevice) : Prop :=
  let o := orgstore b org in
  ∃ user d, os_users o !! user_id (ld_device_id device) = Some user ∧ u_revoked_on user = None ∧
    u_profile user = ld_profile device ∧ u_human_handle user = ld_human_handle device ∧
    find_device o (ld_device_id device) = Some d ∧ d_device_label d = ld_device_label device ∧
    (∃ uc, verify_user_certificate (u_user_certificate user) (cc_verify_key client_ctx)
             (Some (cc_device_id client_ctx)) = Ok uc ∧
       uc_public_key uc = public_key (ld_private_key device)) ∧
    (∃ dc, verify_device_certificate (d_device_certificate d) (cc_verify_key client_ctx)
             (Some (cc_device_id client_ctx)) = Ok dc ∧
       dc_verify_key dc = verify_key (ld_signing_key device)).
Definition new_device : LocalDevice :=
  mkLocalDevice org (ld_root_verify_key author) new_device_id (gt_device_label granted)
    (gt_human_handle granted) signing_key private_key (gt_profile granted) user_manifest_id
    user_manifest_key local_symkey.
Lemma server_creates b :
  libraries_ok → server_ok b →
  ∃ b', api_user_create server_now client_ctx create_msg b = (b', Ok (RepOk tt)) ∧
    enrolled b' new_device.
Proof.
  intros Hl Hs. destruct (api_user_create server_now client_ctx create_msg b) as [b' r] eqn:E.
  pose proof (load_create_msg Hl (srv_author _ Hs)) as Hload.
  destruct (user_create_ok _ _ _ _ _ _ (srv_reachable _ Hs) E) as [Hiff Hr].
  rewrite <-(srv_organization _ Hs) in Hiff, Hr. fold greeter in *.
  assert (r = Ok (RepOk tt)) as ->.
  { apply Hiff. split; [apply (srv_admin _ Hs)|].
    exists granted_device, granted_user, (uc_evolve_human_handle granted_user None),
      (dc_evolve_device_label granted_device None). split; [done|]. split_and!.
    - pose proof (srv_clock _ Hs). by repeat split.
    - apply (srv_user _ Hs).
    - intros h u. apply (srv_email _ Hs). }
  destruct Hr as (dd & ud & rud & rdd & user & device & Hload' & -> & -> & Hu & Hrev & Hd).
  rewrite Hload in Hload'. injection Hload' as <- <- <- <-.
  apply result_bind_Ok in Hload as (dd & Hdd & (ud & Hud & Hload)%result_bind_Ok).
  apply result_bind_Ok in Hload as (? & _ & (? & _ & [= -> -> _ _])%result_bind_Ok).
  eexists. split; [reflexivity|]. unfold enrolled. cbn [ld_device_id new_device].
  rewrite Hu, Hd. rewrite decide_True by done. eexists _, _. rewrite lookup_insert_eq.
  split_and!; [done..| |]; [by exists granted_user|by exists granted_device].
Qed.

Lemma claim_user_raises : raises_deleted InviteAlreadyUsedError claim_user.
Proof.
  unfold claim_user, do_claim, claimer_wait_peer, select_code, do_claim_user, dump_and_encrypt,
    decrypt_and_load, sas_codes.
  repeat first
    [ exact I
    | apply raises_deleted_checked
    | apply raises_deleted_or_raise
    | apply raises_deleted_bind; [|intros ?]
    | case_match ].
Qed.


(** ** Against any server *)

(** The user has picked this code in the candidates. *)
Definition picked (draws : list Z) (pick : list string → nat) (code : string) : Prop :=
  ∃ choices, generate_sas_code_candidates draws shuffle code 3 = Some choices ∧
    choices !! pick choices = Some code.
Lemma asked_select_code {A} draws pick code (k : bool → peerM A) l r :
  asked (select_code draws shuffle pick code ≫= k) l = Some r →
  ∃ t, asked (k t) l = Some r ∧ (t = true → picked draws pick code).
Proof.
  unfold select_code. rewrite asked_bind_assoc.
  intros (choices & E1 & E)%asked_or_raise. rewrite asked_bind_assoc in E.
  apply asked_or_raise in E as (c & E2 & E). exists (bool_decide (c = code)). split; [exact E|].
  intros ->%bool_decide_eq_true. by exists choices.
Qed.

(** The replies after which a client has agreed on a key: the codes of the two
    nonces and of this key, the one of the peer picked by the user. The greeter has
    got the hash of the claimer's nonce first. *)
Definition claimer_agreed (l : list (reply bytes)) (key : SecretKey) : Prop :=
  ∃ greeter_key gn x rest cs gs, l = RepOk greeter_key :: RepOk gn :: RepOk x :: rest ∧
    key = crypto_scalarmult claimer_private_key greeter_key ∧
    generate_sas_codes argon2id_kdf claimer_nonce gn key = Some (cs, gs) ∧
    picked claimer_draws claimer_pick gs.
Definition greeter_agreed (l : list (reply bytes)) (key : SecretKey) : Prop :=
  ∃ claimer_key cn x rest cs gs,
    l = RepOk claimer_key :: RepOk (hash_digest cn) :: RepOk cn :: RepOk x :: rest ∧
    key = crypto_scalarmult greeter_private_key claimer_key ∧
    generate_sas_codes argon2id_kdf cn greeter_nonce key = Some (cs, gs) ∧
    picked greeter_draws greeter_pick cs.
(** What each client lets out, from what it has received. *)
Definition claimer_may_ask (l : list (reply bytes)) (r : PeerReq) : Prop :=
  match r with
  | REQ_1_claimer_wait_peer k => k = public_key claimer_private_key
  | REQ_2a_claimer_send_hashed_nonce h => h = hash_digest claimer_nonce
  | REQ_2b_claimer_send_nonce n => n = claimer_nonce ∧ ∃ gk gn, l = [RepOk gk; RepOk gn]
  | REQ_3a_claimer_signify_trust | REQ_3b_claimer_wait_peer_trust => ∃ key, claimer_agreed l key
  | REQ_4_claimer_communicate payload => ∃ key, claimer_agreed l key ∧
      (payload = [] ∨ secret_encrypt key (dumps_user_data user_data) = Some payload)
  | _ => False
  end.
Definition greeter_may_ask (l : list (reply bytes)) (r : PeerReq) : Prop :=
  match r with
  | REQ_1_greeter_wait_peer k => k = public_key greeter_private_key
  | REQ_2a_greeter_get_hashed_nonce => ∃ ck, l = [RepOk ck]
  | REQ_2b_greeter_send_nonce n => n = greeter_nonce ∧ ∃ ck h, l = [RepOk ck; RepOk h]
  | REQ_3a_greeter_wait_peer_trust => ∃ ck cn, l = [RepOk ck; RepOk (hash_digest cn); RepOk cn]
  | REQ_3b_greeter_signify_trust => ∃ key, greeter_agreed l key
  | REQ_user_create msg => ∃ key p raw data, greeter_agreed l key ∧ last l = Some (RepOk p) ∧
      secret_decrypt key p = Some raw ∧ loads_user_data raw = Some data ∧
      let g := grant data in
      msg = user_create_msg new_device_id now author data (gt_device_label g) (gt_human_handle g)
              (gt_profile g)
  | REQ_4_greeter_communicate payload => ∃ key, greeter_agreed l key ∧
      (payload = [] ∨ ∃ data, let g := grant data in
         secret_encrypt key (dumps_user_confirmation
           (mkInviteUserConfirmation new_device_id (gt_device_label g) (gt_human_handle g)
              (gt_profile g) (ld_root_verify_key author))) = Some payload)
  | REQ_invite_delete reason => reason = FINISHED ∧ ∃ key, greeter_agreed l key
  | _ => False
  end.

Ltac next_request E x l :=
  rewrite ?asked_bind_assoc in E;
  apply asked_checked in E as [[-> ->]|(x & l & -> & E)].
Lemma claim_user_asks l r : asked claim_user l = Some r → claimer_may_ask l r.
Proof.
  unfold claim_user, do_claim, claimer_wait_peer. intros E.
  next_request E gk l1; [done|]. next_request E gn l2; [done|].
  rewrite ?asked_bind_assoc in E. apply asked_or_raise in E as ([cs gs] & Hcodes & E).
  next_request E x l3; [by split; [|eexists _, _]|].
  apply asked_select_code in E as (t & E & Hpick).
  destruct t; [|by rewrite asked_ret in E]. specialize (Hpick eq_refl).
  assert (∀ rest, claimer_agreed (RepOk gk :: RepOk gn :: RepOk x :: rest)
    (crypto_scalarmult claimer_private_key gk)) as Hagreed.
  { intros rest. by exists gk, gn, x, rest, cs, gs. }
  next_request E x1 l4; [by eexists|]. next_request E x2 l5; [by eexists|].
  unfold do_claim_user, dump_and_encrypt in E. rewrite ?asked_bind_assoc in E.
  apply asked_or_raise in E as (p & Henc & E). cbn [claimer_may_ask].
  next_request E x3 l6; [by eexists; split; [|right]|].
  next_request E x4 l7; [by eexists; split; [|left]|].
  unfold decrypt_and_load in E. rewrite ?asked_bind_assoc in E.
  apply asked_or_raise in E as (c & _ & E). exfalso. by destruct l7.
Qed.
Lemma greet_user_asks l r : asked greet_user l = Some r → greeter_may_ask l r.
Proof.
  unfold greet_user, do_greet_user, do_greet, greeter_wait_peer. intros E.
  rewrite ?asked_bind_assoc in E. apply asked_request in E as [[-> ->]|(rep & l1 & -> & E)]; [done|].
  rewrite ?asked_bind_assoc in E. apply asked_check_first in E as (ck & -> & E).
  next_request E h l2; [by eexists|]. next_request E cn l3; [by split; [|eexists _, _]|].
  rewrite ?asked_bind_assoc in E. destruct (decide (hash_digest cn = h)) as [<-|]; [|by destruct l3].
  rewrite ?asked_bind_assoc in E. apply asked_or_raise in E as ([cs gs] & Hcodes & E).
  next_request E x l4; [by eexists _, _|].
  apply asked_select_code in E as (t & E & Hpick).
  destruct t; [|by rewrite asked_ret in E]. specialize (Hpick eq_refl).
  assert (∀ rest, greeter_agreed (RepOk ck :: RepOk (hash_digest cn) :: RepOk cn :: RepOk x :: rest)
    (crypto_scalarmult greeter_private_key ck)) as Hagreed.
  { intros rest. by exists ck, cn, x, rest, cs, gs. }
  next_request E x1 l5; [by eexists|].
  unfold do_get_claim_requests, decrypt_and_load in E.
  next_request E p l6; [by eexists; split; [|left]|].
  rewrite ?asked_bind_assoc in E.
  apply asked_or_raise in E as (data & (raw & Hraw & Hdata)%bind_Some & E).
  unfold do_create_new_user in E. rewrite ?asked_bind_assoc in E.
  apply asked_request in E as [[-> ->]|(rep & l7 & -> & E)]; [by eexists _, p, raw, data|].
  rewrite ?asked_bind_assoc in E. destruct rep as [x2|]; [|by destruct l7].
  unfold dump_and_encrypt in E. cbn [mbind peerM_bind mret peerM_ret] in E.
  rewrite ?asked_bind_assoc in E. apply asked_or_raise in E as (p2 & Henc & E).
  next_request E x3 l8; [eexists; split; [apply Hagreed|right; by exists data]|].
  rewrite ?asked_bind_assoc in E.
  apply asked_request in E as [[-> ->]|(rep & l9 & -> & E)]; [by split; [|eexists]|].
  exfalso. by destruct l9.
Qed.
(** C8: what the clients of an invitation of a user let out, whoever answers them. The
    claimer sends its nonce only once it has the greeter's, and, before, only its hash;
    the greeter sends its nonce only once it has this hash, and goes on only with the
    nonce of this hash. Then the claimer sends the data of the user, encrypted with the
    shared key, and the greeter signs trust or creates a user, only after its user has
    picked the code that the two nonces and this key give for the other side; and the
    greeter creates only the user whose data it has decrypted with this key. *)
Theorem peers_check_codes :
  (∀ l r, asked claim_user l = Some r → claimer_may_ask l r) ∧
  (∀ l r, asked greet_user l = Some r → greeter_may_ask l r).
Proof. split; [apply claim_user_asks|apply greet_user_asks]. Qed.
End user.


(** ** A run *)

(** The libraries of [BackendExample], with keys that are their own public keys. *)
Definition ex_loader : LoaderApi := {|
  secret_decrypt k c :=
    if bool_decide (take (length k) c = k) then Some (drop (length k) c) else None;
  secret_encrypt k p := Some (k ++ p);
  hash_digest b := b; device_sign b := b;
  loads_manifest _ := None; dumps_manifest _ := None; dumps_realm_role _ := [] |}.
Definition ex_user_data : InviteUserData :=
  mkInviteUserData (Some "desk"%string) (ex_handle "bob") [x62] bob_key.
Definition ex_grant (data : InviteUserData) : Grant :=
  mkGrant (ud_requested_device_label data) (ud_requested_human_handle data) STANDARD.
Definition ex_confirmation : InviteUserConfirmation :=
  mkInviteUserConfirmation bob (Some "desk"%string) (ex_handle "bob") STANDARD root_key.
Definition ex_invite_api : InviteApi := {|
  public_key k := k;
  verify_key k := k;
  key_sign k raw := k ++ raw;
  crypto_scalarmult a b :=
    match a, b with
    | [x], [y] => option_list (Byte.of_N (N.lxor (Byte.to_N x) (Byte.to_N y)))
    | _, _ => []
    end;
  argon2id_kdf password salt := password ++ salt;
  dumps_user_certificate u := if uc_human_handle u is Some _ then [x05] else [x06];
  dumps_device_certificate d := if dc_device_label d is Some _ then [x07] else [x08];
  dumps_user_data _ := [x01];
  loads_user_data raw := match raw with [x01] => Some ex_user_data | _ => None end;
  dumps_user_confirmation _ := [x02];
  loads_user_confirmation raw := match raw with [x02] => Some ex_confirmation | _ => None end;
  dumps_device_data _ := []; loads_device_data _ := None;
  dumps_device_confirmation _ := []; loads_device_confirmation _ := None |}.
Definition ex_author : LocalDevice :=
  mkLocalDevice "org" root_key alice (Some "desk"%string) (ex_handle "alice") alice_key [x61] ADMIN 1 [] [].
Definition ex_user_invites : Invites :=
  mkInvites ∅
    {[ "org"%string := mkInviteStore
         [(5%N, InviteUser (mkInvitationBase "alice" None 5 0 IDLE) "bob@example.org")] ∅ ∅ ]} ∅ [].

(** The codes, and users that look for them. *)
Definition ex_codes : string * string :=
  default ("", "")%string (generate_sas_codes (@argon2id_kdf ex_invite_api) [x10; x20; x30; x40]
    [x50; x60; x70] [x33]).
Definition find_code (code : string) (l : list string) : nat :=
  default 0%nat (fst <$> list_find (code =.) l).
Lemma find_code_picks code : picks (find_code code) code.
Proof.
  intros l Hin. unfold find_code. destruct (list_find_elem_of (code =.) l code Hin eq_refl) as [[i x] E].
  rewrite E. apply list_find_Some in E as (? & -> & _). done.
Qed.


(** The greeter of this run, on replies that lead it to create the user. *)
Definition ex_greet : peerM bool :=
  greet_user (H0 := ex_loader) (H1 := ex_invite_api) [x22] [x50; x60; x70] [0; 1; 2]
    (find_code ex_codes.1) bob 1 ex_author ex_grant elements.
Definition ex_replies : list (reply bytes) :=
  [RepOk [x11]; RepOk [x10; x20; x30; x40]; RepOk [x10; x20; x30; x40]; RepOk []; RepOk [];
   RepOk [x33; x01]].
Lemma peers_check_codes_witness :
  ∃ msg key, asked ex_greet ex_replies = Some (REQ_user_create msg) ∧
    greeter_agreed (H0 := ex_loader) (H1 := ex_invite_api) [x22] [x50; x60; x70] [0; 1; 2]
      (find_code ex_codes.1) elements ex_replies key.
Proof.
  destruct (asked ex_greet ex_replies) as [[]|] eqn:E; vm_compute in E; try discriminate E.
  destruct (peers_check_codes (H0 := ex_loader) (H1 := ex_invite_api) "org" [x11]
    [x10; x20; x30; x40] [x62] bob_key [0; 1; 2] (find_code ex_codes.2)
    (Some "desk"%string, ex_handle "bob") 9 [] [] [x22] [x50; x60; x70] [0; 1; 2] (find_code ex_codes.1)
    bob 1 ex_author ex_grant elements) as [_ Hg].
  destruct (Hg ex_replies (REQ_user_create msg)) as (key & p & raw & data & Ha & _).
  - vm_compute. exact E.
  - exists msg, key. split; [reflexivity|exact Ha].
Defined.

(** The greeter deletes the invitation as soon as its last exchange has ended, which
    the claimer may not have seen yet: then it never gets its confirmation, but the
    server has its user. *)
Definition ex_run (schedule : list bool) : option (Meeting (option LocalDevice) bool) :=
  meeting_run "org" "alice" 5 1 alice_ctx schedule
    (mkMeeting (mkWorld ex_user_invites ex_bootstrapped)
       (peer_start "org" "alice" 5 false
          (claim_user (H0 := ex_loader) (H1 := ex_invite_api) "org" [x11] [x10; x20; x30; x40] [x62]
             bob_key [0; 1; 2] (find_code ex_codes.2) (Some "desk"%string, ex_handle "bob") 9 [] []
             elements))
       (peer_start "org" "alice" 5 true
          (do_greet_user (H0 := ex_loader) (H1 := ex_invite_api) [x22] [x50; x60; x70] [0; 1; 2]
             elements (find_code ex_codes.1) bob 1 ex_author ex_grant))).
#[local] Transparent ex_bootstrapped ex_created.
Lemma deleted_before_confirmation :
  (λ m, (pr_prog (me_claimer m), pr_prog (me_greeter m),
         bool_decide (is_Some (find_device (orgstore (wo_backend (me_world m)) "org") bob))))
    <$> ex_run (concat (replicate 40 [true; true; true; true; false]))
  = Some (PRaise InviteAlreadyUsedError, PRet true, true).
Proof. by vm_compute. Qed.
#[local] Opaque ex_bootstrapped ex_created.
