(* ===== verification/WorkspaceFile.v ===== *)
(** The file object of a workspace: [WorkspaceFile] of
    [guardata/client/fs/workspacefs/workspacefile.py], on top of the transactions
    on open files. *)

From Stdlib Require Import Ascii.
From S2P Require Import Prelude PyString Types ApiManifest Chunk LocalManifest FileOperations.
From S2P Require Import FileContent Storage FileTransactions EntryTransactions.

(** ** State *)

Inductive FileState := INIT | OPEN | CLOSED.
#[export] Instance FileState_eq_dec : EqDecision FileState.
Proof. solve_decision. Defined.

Record WorkspaceFile := mkWorkspaceFile {
  wfi_readable : bool;
  wfi_writable : bool;
  wfi_append : bool;
  wfi_binary : bool;
  wfi_fd : Z;
  wfi_offset : Z;
  wfi_state : FileState;
  wfi_mode : list ascii }.
Definition set_readable (f : WorkspaceFile) : WorkspaceFile :=
  mkWorkspaceFile true (wfi_writable f) (wfi_append f) (wfi_binary f) (wfi_fd f) (wfi_offset f)
    (wfi_state f) (wfi_mode f).
Definition set_writable (f : WorkspaceFile) : WorkspaceFile :=
  mkWorkspaceFile (wfi_readable f) true (wfi_append f) (wfi_binary f) (wfi_fd f) (wfi_offset f)
    (wfi_state f) (wfi_mode f).
Definition set_append (f : WorkspaceFile) : WorkspaceFile :=
  mkWorkspaceFile (wfi_readable f) (wfi_writable f) true (wfi_binary f) (wfi_fd f) (wfi_offset f)
    (wfi_state f) (wfi_mode f).
Definition set_binary (f : WorkspaceFile) : WorkspaceFile :=
  mkWorkspaceFile (wfi_readable f) (wfi_writable f) (wfi_append f) true (wfi_fd f) (wfi_offset f)
    (wfi_state f) (wfi_mode f).
Definition set_offset (offset : Z) (f : WorkspaceFile) : WorkspaceFile :=
  mkWorkspaceFile (wfi_readable f) (wfi_writable f) (wfi_append f) (wfi_binary f) (wfi_fd f) offset
    (wfi_state f) (wfi_mode f).
Definition set_state (state : FileState) (f : WorkspaceFile) : WorkspaceFile :=
  mkWorkspaceFile (wfi_readable f) (wfi_writable f) (wfi_append f) (wfi_binary f) (wfi_fd f)
    (wfi_offset f) state (wfi_mode f).

(** What is written: bytes or a string. *)
Inductive PyData := PyBytes (b : bytes) | PyStr (s : string).

(** [str.lower] on the letters that a mode may have: what has another character is
    refused below, and its lower case too. *)
Definition lower (c : ascii) : ascii :=
  let n := nat_of_ascii c in
  if (65 <=? n)%nat && (n <=? 90)%nat then ascii_of_nat (n + 32) else c.
Definition mode_has (c : ascii) (mode : list ascii) : bool := bool_decide (c ∈ mode).

(** [WorkspaceFile.__init__] *)
Definition workspace_file (fd : Z) (mode : string) : result FSExn WorkspaceFile :=
  let mode := lower <$> String.list_ascii_of_string mode in
  if negb (length (List.filter (λ c, mode_has c mode) ["r"; "w"; "a"; "x"]%char) =? 1)%nat
  then Err ValueError
  else if existsb (λ c, negb (mode_has c ["a"; "r"; "w"; "x"; "b"; "+"]%char)) mode
  then Err ValueError
  else Ok (mkWorkspaceFile false false false false fd 0 INIT mode).

(** ** Operations *)

Abbreviation fileM := (stM (WorkspaceFile * FTState) FSExn) (only parsing).

(** A call on [self._transactions]. *)
Definition on_fd_transactions {A} (m : stM FTState FSExn A) : fileM A := λ '(f, s),
  let '(s, r) := m s in ((f, s), r).
Definition update_file (g : WorkspaceFile → WorkspaceFile) : fileM unit := modify (prod_map g id).
Definition get_file {A} (g : WorkspaceFile → A) : fileM A := gets (g ∘ fst).

(** [FileTransactions.fd_info] *)
Definition fd_info (fd : Z) : stM FTState FSExn EntryStats :=
  manifest ← on_storage (load_file_descriptor fd);
  mret (to_stats (LFile manifest) false).

Section file.
(** What the transactions take: the time, the random ids, the key and the hash of
    the blocks, their download and the attempts to read. *)
Context (now : DateTime) (fresh : nat → ChunkID) (key : SecretKey) (digest : bytes → HashDigest)
  (download : BlockAccess → result FSExn bytes) (cache_size : Z) (fuel : nat).

(** [check_state], which is [_check_open_state] too *)
Definition check_state : fileM unit :=
  state ← get_file wfi_state;
  raise_if (bool_decide (state ≠ OPEN)) ValueError.
Definition fileno : fileM Z := _ ← check_state; get_file wfi_fd.
Definition readable : fileM bool := _ ← check_state; get_file wfi_readable.
Definition writable : fileM bool := _ ← check_state; get_file wfi_writable.
Definition seekable : fileM bool := _ ← check_state; mret true.

(** [file_stat] and [get_size] *)
Definition file_stat : fileM EntryStats :=
  _ ← check_state;
  fd ← get_file wfi_fd;
  on_fd_transactions (fd_info fd).
Definition get_size : fileM Z :=
  _ ← check_state;
  stats ← file_stat;
  of_option KeyError (es_size stats).

(** [read]; [None] says that [fuel] attempts were not enough. *)
Definition file_read (size : Z) : fileM (option bytes) :=
  ok ← readable;
  _ ← raise_if (negb ok) FSUnsupportedOperation;
  _ ← raise_if (size <? -1) ValueError;
  fd ← get_file wfi_fd;
  offset ← get_file wfi_offset;
  result ← on_fd_transactions (fd_read download cache_size fuel fd size offset false);
  _ ← update_file (set_offset (offset + Z.of_nat (length (default [] result))));
  mret result.

(** [seek]: the three [if]s one after the other. *)
Definition SEEK_SET : Z := 0.
Definition SEEK_CUR : Z := 1.
Definition SEEK_END : Z := 2.
Definition file_seek (offset whence : Z) : fileM Z :=
  ok ← seekable;
  _ ← raise_if (negb ok) FSUnsupportedOperation;
  _ ← (if whence =? SEEK_SET then
         _ ← raise_if (offset <? 0) FSOffsetError;
         update_file (set_offset offset)
       else mret tt);
  _ ← (if whence =? SEEK_CUR then
         current ← get_file wfi_offset;
         _ ← raise_if ((offset <? 0) && (current + offset <? 0)) FSOffsetError;
         update_file (set_offset (current + offset))
       else mret tt);
  _ ← (if whence =? SEEK_END then
         current ← get_file wfi_offset;
         _ ← raise_if ((offset <? 0) && (current + offset <? 0)) FSOffsetError;
         size ← get_size;
         update_file (set_offset (size + offset))
       else mret tt);
  get_file wfi_offset.

(** [tell] *)
Definition file_tell : fileM Z :=
  ok ← seekable;
  _ ← raise_if (negb ok) FSUnsupportedOperation;
  get_file wfi_offset.

(** [truncate] *)
Definition file_truncate (size : option Z) : fileM Z :=
  ok ← seekable;
  _ ← raise_if (negb ok) FSUnsupportedOperation;
  ok ← writable;
  _ ← raise_if (negb ok) FSUnsupportedOperation;
  fd ← get_file wfi_fd;
  match size with
  | None =>
      offset ← get_file wfi_offset;
      _ ← on_fd_transactions (fd_resize now fresh fd offset false);
      get_file wfi_offset
  | Some size =>
      if size <? 0 then mthrow FSOffsetError
      else if size =? 0 then
        _ ← on_fd_transactions (fd_resize now fresh fd size true);
        mret size
      else
        _ ← on_fd_transactions (fd_resize now fresh fd size false);
        mret size
  end.

(** [write], with [_write_bytes] and [_write_str] *)
Definition write_bytes_at_offset (data : bytes) : fileM Z :=
  fd ← get_file wfi_fd;
  offset ← get_file wfi_offset;
  result ← on_fd_transactions (fd_write now fresh key digest fd data offset false);
  append ← get_file wfi_append;
  _ ← (if negb append then
         offset ← get_file wfi_offset;
         update_file (set_offset (offset + result))
       else mret tt);
  mret result.
Definition file_write (data : PyData) : fileM Z :=
  ok ← writable;
  _ ← raise_if (negb ok) FSUnsupportedOperation;
  append ← get_file wfi_append;
  _ ← (if append : bool then
         size ← get_size;
         update_file (set_offset size)
       else mret tt);
  binary ← get_file wfi_binary;
  if binary : bool then
    match data with
    | PyBytes data => write_bytes_at_offset data
    | PyStr _ => mthrow TypeError
    end
  else
    match data with
    | PyStr _ => mthrow NotImplementedError
    | PyBytes _ => mthrow TypeError
    end.

(** [flush] *)
Definition file_flush : fileM unit :=
  fd ← fileno;
  on_fd_transactions (fd_flush fresh key digest fd).

(** [readline] *)
Definition file_readline (size : Z) : fileM bytes := mthrow NotImplementedError.

(** [ainit]: what follows a mode once it is open. *)
Definition ainit_mode (mode : list ascii) : fileM unit :=
  if mode_has "w" mode || mode_has "x" mode then
    _ ← update_file set_writable;
    _ ← file_truncate (Some 0);
    if mode_has "+" mode then update_file set_readable else mret tt
  else if mode_has "r" mode then
    _ ← update_file set_readable;
    _ ← (if mode_has "+" mode then update_file set_writable else mret tt);
    _ ← file_seek 0 SEEK_SET;
    mret tt
  else if mode_has "a" mode then
    _ ← update_file set_writable;
    _ ← update_file set_append;
    if mode_has "+" mode then update_file set_readable else mret tt
  else mret tt.
Definition ainit : fileM unit :=
  state ← get_file wfi_state;
  if decide (state = INIT) then
    mode ← get_file wfi_mode;
    _ ← update_file (set_state OPEN);
    _ ← (if mode_has "b" mode then update_file set_binary else mret tt);
    ainit_mode mode
  else mret tt.

(** [close]: a closed storage ends it, and hides what the flush raised; the state
    is [CLOSED] whatever happens. *)
Definition close_descriptor : fileM unit :=
  fd ← fileno;
  on_fd_transactions (fd_close fd).
Definition flush_then_close : fileM unit := λ s,
  let '(s, flushed) := file_flush s in
  match close_descriptor s with
  | (s, Err FSLocalStorageClosedError) => (s, Ok tt)
  | (s, Err e) => (s, Err e)
  | (s, Ok _) =>
      (s, match flushed with Err FSLocalStorageClosedError => Ok tt | r => r end)
  end.
Definition file_close : fileM unit :=
  state ← get_file wfi_state;
  if decide (state = CLOSED) then mret tt
  else try_finally flush_then_close (update_file (set_state CLOSED)).
End file.
