(* ===== verification/WorkspaceFileProperties.v ===== *)
(** The file object of a workspace behaves as a file: a string of bytes and a
    position. *)

From Stdlib Require Import Ascii.
From S2P Require Import Prelude PyString Types ApiManifest Chunk LocalManifest FileOperations.
From S2P Require Import FileContent Storage FileTransactions FileRefinement EntryTransactions.
From S2P Require Import FileProperties WorkspaceFile.
Import Byte.

(** ** The reference *)

Record RefFile := mkRefFile {
  rf_content : bytes;
  rf_position : Z;
  rf_readable : bool;
  rf_writable : bool;
  rf_append : bool }.
Definition rf_size (f : RefFile) : Z := Z.of_nat (length (rf_content f)).
Definition rf_at (position : Z) (f : RefFile) : RefFile :=
  mkRefFile (rf_content f) position (rf_readable f) (rf_writable f) (rf_append f).
Definition rf_with (content : bytes) (f : RefFile) : RefFile :=
  mkRefFile content (rf_position f) (rf_readable f) (rf_writable f) (rf_append f).

(** What a program does with a file, and what it gets. *)
Inductive FileOp :=
| OpRead (size : Z)
| OpWrite (data : bytes)
| OpSeek (offset whence : Z)
| OpTell
| OpTruncate (size : option Z)
| OpSize
| OpFlush.
Inductive FileVal := VBytes (b : bytes) | VInt (n : Z) | VNone.

(** Two sets of rules. [Documented] are those of the doc of the class, which says that
    the object acts like a file of trio: a seek is refused when it would give a
    negative position, and what is appended leaves the position at its end.
    [Implemented] are those of the code: a seek backwards, from the end too, is checked
    on the current position, so that it may give a negative one, which then stands for
    the end of the file, and what is appended leaves the position at its start. *)
Inductive Rules := Documented | Implemented.

(** The new position of a seek, and whether it is refused. *)
Definition ref_seek (offset whence : Z) (f : RefFile) : Z :=
  if whence =? SEEK_SET then offset
  else if whence =? SEEK_CUR then rf_position f + offset
  else if whence =? SEEK_END then rf_size f + offset
  else rf_position f.
Definition seek_refused (rules : Rules) (offset whence : Z) (f : RefFile) : bool :=
  match rules with
  | Documented => ref_seek offset whence f <? 0
  | Implemented =>
      if whence =? SEEK_SET then offset <? 0
      else if (whence =? SEEK_CUR) || (whence =? SEEK_END)
      then (offset <? 0) && (rf_position f + offset <? 0)
      else false
  end.
(** Where a read or a write takes place. *)
Definition ref_place (f : RefFile) : Z :=
  if rf_position f <? 0 then rf_size f else rf_position f.
Definition ref_op (rules : Rules) (op : FileOp) (f : RefFile) : RefFile * result FSExn FileVal :=
  match op with
  | OpRead size =>
      if negb (rf_readable f) then (f, Err FSUnsupportedOperation)
      else if size <? -1 then (f, Err ValueError)
      else
        let rest := drop (Z.to_nat (ref_place f)) (rf_content f) in
        let data := if size =? -1 then rest else take (Z.to_nat size) rest in
        (rf_at (rf_position f + Z.of_nat (length data)) f, Ok (VBytes data))
  | OpWrite data =>
      if negb (rf_writable f) then (f, Err FSUnsupportedOperation)
      else
        let place := if rf_append f then rf_size f else ref_place f in
        let content :=
          match data with [] => rf_content f | _ => write_at (rf_content f) data place end in
        let position := if rf_append f then rf_size f else rf_position f in
        let position :=
          match rules with
          | Documented => position + Z.of_nat (length data)
          | Implemented => if rf_append f then position else position + Z.of_nat (length data)
          end in
        (rf_at position (rf_with content f), Ok (VInt (Z.of_nat (length data))))
  | OpSeek offset whence =>
      if seek_refused rules offset whence f then (f, Err FSOffsetError)
      else
        let position := ref_seek offset whence f in (rf_at position f, Ok (VInt position))
  | OpTell => (f, Ok (VInt (rf_position f)))
  | OpTruncate size =>
      if negb (rf_writable f) then (f, Err FSUnsupportedOperation)
      else
        let size := default (rf_position f) size in
        if size <? 0 then (f, Err FSOffsetError)
        else (rf_with (resize_to (rf_content f) size) f, Ok (VInt size))
  | OpSize => (f, Ok (VInt (rf_size f)))
  | OpFlush => (f, Ok VNone)
  end.
Fixpoint ref_ops (rules : Rules) (ops : list FileOp) (f : RefFile)
    : RefFile * list (result FSExn FileVal) :=
  match ops with
  | [] => (f, [])
  | op :: ops =>
      let '(f, r) := ref_op rules op f in
      let '(f, rs) := ref_ops rules ops f in (f, r :: rs)
  end.

(** No truncation to the current position while this is negative. *)
Definition truncate_placed (op : FileOp) (f : RefFile) : Prop :=
  op = OpTruncate None → 0 <= rf_position f.
Fixpoint truncates_placed (ops : list FileOp) (f : RefFile) : Prop :=
  match ops with
  | [] => True
  | op :: ops => truncate_placed op f ∧ truncates_placed ops (ref_op Implemented op f).1
  end.

(** Where the two sets of rules agree: a seek backwards from the end goes back less
    than the size exactly when it goes back less than the current position, and after
    something was appended the position is not used before a seek that sets it. *)
Definition seek_checked (op : FileOp) (f : RefFile) : Prop :=
  match op with
  | OpSeek offset whence =>
      whence = SEEK_END → offset < 0 →
      (rf_position f + offset < 0 ↔ rf_size f + offset < 0)
  | _ => True
  end.
Definition sets_position (op : FileOp) : bool :=
  match op with
  | OpSeek offset whence => (0 <=? offset) && ((whence =? SEEK_SET) || (whence =? SEEK_END))
  | _ => false
  end.
Definition uses_position (op : FileOp) : bool :=
  match op with
  | OpRead _ | OpTell | OpTruncate None => true
  | OpSeek offset whence => negb ((whence =? SEEK_SET) || (whence =? SEEK_END) && (0 <=? offset))
  | _ => false
  end.
Definition appends (op : FileOp) (f : RefFile) : bool :=
  match op with OpWrite _ => rf_append f | _ => false end.
Fixpoint as_documented (appended : bool) (ops : list FileOp) (f : RefFile) : Prop :=
  match ops with
  | [] => True
  | op :: ops =>
      seek_checked op f ∧ appended && uses_position op = false ∧
      as_documented (appends op f || appended && negb (sets_position op)) ops
        (ref_op Documented op f).1
  end.

(** A file that has just been opened. *)
Definition ref_open (mode : list ascii) (content : bytes) : RefFile :=
  let plus := mode_has "+" mode in
  if mode_has "w" mode || mode_has "x" mode then mkRefFile [] 0 plus true false
  else if mode_has "r" mode then mkRefFile content 0 true plus false
  else mkRefFile content 0 plus true true.

(** The two sets of rules give the same results where [as_documented] says so. *)
Inductive same_place (appended : bool) : RefFile → RefFile → Prop :=
  | same_placed c p q r w a :
      0 <= p → 0 <= q → (appended = false → p = q) → (appended = true → a = true) →
      same_place appended (mkRefFile c p r w a) (mkRefFile c q r w a).
Lemma same_more appended appended' f g :
  same_place appended f g → (appended = true → appended' = true) → (appended' = true → rf_append f = true) →
  same_place appended' f g.
Proof. intros [] Himp Ha. constructor; [done..| |exact Ha]. destruct appended; naive_solver. Qed.
Lemma seek_rules appended offset whence f g :
  same_place appended f g → seek_checked (OpSeek offset whence) f →
  appended && uses_position (OpSeek offset whence) = false →
  seek_refused Implemented offset whence g = seek_refused Documented offset whence f ∧
  (seek_refused Documented offset whence f = false →
     ref_seek offset whence g = ref_seek offset whence f) ∧
  same_place (appended && negb (sets_position (OpSeek offset whence)))
    (ref_op Documented (OpSeek offset whence) f).1 (ref_op Implemented (OpSeek offset whence) g).1.
Proof.
  intros Hf Hchk Huse. pose proof Hf as Hf'. destruct Hf as [c p q r w a Hp Hq Hsame Ha].
  cbn [seek_checked uses_position sets_position ref_op] in *. unfold seek_refused, ref_seek, rf_size in *.
  cbn [rf_position rf_content] in *.
  destruct (Z.eqb_spec whence SEEK_SET) as [->|Hs].
  { cbn [orb]. rewrite andb_true_r.
    destruct (Z.ltb_spec offset 0); (split_and!; [done..|]).
    - rewrite (proj2 (Z.leb_gt 0 offset)), andb_true_r by lia. exact Hf'.
    - rewrite (proj2 (Z.leb_le 0 offset)), andb_false_r by lia. by constructor. }
  destruct (Z.eqb_spec whence SEEK_CUR) as [->|Hc].
  { cbn [orb negb andb] in *. rewrite andb_true_r in Huse. subst appended. rewrite (Hsame eq_refl) in *.
    assert ((offset <? 0) && (q + offset <? 0) = (q + offset <? 0)) as -> by lia.
    split_and!; [done..|]. destruct (Z.ltb_spec (q + offset) 0); [exact Hf'|]. by constructor. }
  destruct (Z.eqb_spec whence SEEK_END) as [->|He]; cbn [orb andb] in *.
  - destruct (Z.leb_spec 0 offset).
    + rewrite !(proj2 (Z.ltb_ge _ 0)) by lia. cbn [andb negb]. rewrite andb_false_r.
      split_and!; [done..|]. constructor; done || lia.
    + rewrite andb_true_r in Huse. subst appended. rewrite (Hsame eq_refl) in *.
      assert ((offset <? 0) && (q + offset <? 0) = (Z.of_nat (length c) + offset <? 0)) as -> by lia.
      split_and!; [done..|]. destruct (Z.ltb_spec (Z.of_nat (length c) + offset) 0); [exact Hf'|].
      by constructor.
  - rewrite andb_true_r in Huse. subst appended. rewrite (Hsame eq_refl) in *.
    rewrite (proj2 (Z.ltb_ge q 0)) by lia. split_and!; [done..|]. by constructor.
Qed.
Lemma rules_step appended op f g :
  same_place appended f g → seek_checked op f → appended && uses_position op = false →
  (ref_op Implemented op g).2 = (ref_op Documented op f).2 ∧ truncate_placed op g ∧
  same_place (appends op f || appended && negb (sets_position op))
    (ref_op Documented op f).1 (ref_op Implemented op g).1.
Proof.
  intros Hf Hchk Huse. pose proof Hf as Hf'. destruct Hf as [c p q r w a Hp Hq Hsame Ha].
  destruct op as [size|data|offset whence| |size| |]; unfold truncate_placed;
    cbn [ref_op appends uses_position seek_checked
         rf_readable rf_writable rf_append rf_position rf_content] in *;
    rewrite ?andb_true_r in Huse |- *; rewrite ?orb_false_l.
  - subst appended. rewrite (Hsame eq_refl). unfold ref_place. cbn [rf_position rf_content].
    rewrite (proj2 (Z.ltb_ge q 0)) by lia. split_and!; [done..|].
    repeat case_match; constructor; cbn [rf_position]; done || lia.
  - unfold ref_place, rf_size. cbn [rf_position rf_content rf_append].
    rewrite (proj2 (Z.ltb_ge q 0)), (proj2 (Z.ltb_ge p 0)) by lia.
    destruct w; cbn [negb]; [|split_and!; [done..|]; apply (same_more _ _ _ _ Hf'); destruct a, appended; naive_solver].
    destruct a; cbn [orb andb].
    + split_and!; [done..|]. constructor; [lia..|done|done].
    + destruct appended; [naive_solver|]. rewrite (Hsame eq_refl).
      split_and!; [done..|]. constructor; [lia..|done|done].
  - destruct (seek_rules appended offset whence _ _ Hf' Hchk Huse) as (Er & Eseek & Hs).
    split_and!; [clear Hs|done|exact Hs].
    cbn [ref_op]. rewrite Er. by destruct (seek_refused Documented _ _ _); [|rewrite Eseek].
  - subst appended. rewrite (Hsame eq_refl). split_and!; [done..|]. by constructor.
  - destruct w; cbn [negb]; [|split_and!; [done|intros [= ->]; lia|cbn [sets_position negb orb]; by rewrite andb_true_r]].
    destruct size as [n|]; cbn [default from_option id sets_position negb orb].
    + rewrite andb_true_r. destruct (n <? 0); (split_and!; [done|by intros [=]|]); by constructor.
    + rewrite ?andb_true_r in *. subst appended. rewrite (Hsame eq_refl).
      destruct (q <? 0); (split_and!; [done|lia|]); by constructor.
  - split_and!; [done..|]. cbn [sets_position negb orb]. rewrite andb_true_r. by constructor.
  - split_and!; [done..|]. cbn [sets_position negb orb]. rewrite andb_true_r. by constructor.
Qed.
Lemma rules_agree appended ops f g :
  same_place appended f g → as_documented appended ops f →
  (ref_ops Implemented ops g).2 = (ref_ops Documented ops f).2 ∧ truncates_placed ops g ∧
  rf_content (ref_ops Implemented ops g).1 = rf_content (ref_ops Documented ops f).1.
Proof.
  revert appended f g. induction ops as [|op ops IH]; intros appended f g Hs;
    cbn [as_documented ref_ops truncates_placed]; [by destruct Hs|].
  intros (Hchk & Huse & Hops).
  destruct (rules_step appended op f g Hs Hchk Huse) as (Er & Hp & Hs1).
  destruct (IH _ _ _ Hs1 Hops) as (Ers & Hps & Ec).
  destruct (ref_op Implemented op g) as [g1 r1], (ref_op Documented op f) as [f1 r2].
  cbn [fst snd] in *.
  destruct (ref_ops Implemented ops g1), (ref_ops Documented ops f1). cbn [fst snd] in *.
  by subst.
Qed.
Lemma ref_open_same mode content : same_place false (ref_open mode content) (ref_open mode content).
Proof. unfold ref_open. repeat case_match; by constructor. Qed.

(** ** The refinement *)

Section refinement.
Context (now : DateTime) (fresh : nat → ChunkID) `{!Inj (=) (=) fresh} (key : SecretKey)
  (digest : bytes → HashDigest) (download : BlockAccess → result FSExn bytes) (cache_size : Z)
  (fuel : nat) (Hfuel : (0 < fuel)%nat) (entry : EntryID) (fd : Z).

(** The operations of the code. *)
Definition run_op (op : FileOp) : stM (WorkspaceFile * FTState) FSExn FileVal :=
  match op with
  | OpRead size => (λ r, VBytes (default [] r)) <$> file_read download cache_size fuel size
  | OpWrite data => VInt <$> file_write now fresh key digest (PyBytes data)
  | OpSeek offset whence => VInt <$> file_seek offset whence
  | OpTell => VInt <$> file_tell
  | OpTruncate size => VInt <$> file_truncate now fresh size
  | OpSize => VInt <$> get_size
  | OpFlush => (λ _, VNone) <$> file_flush fresh key digest
  end.
Fixpoint run_ops (ops : list FileOp) (s : WorkspaceFile * FTState)
    : (WorkspaceFile * FTState) * list (result FSExn FileVal) :=
  match ops with
  | [] => (s, [])
  | op :: ops =>
      let '(s, r) := run_op op s in
      let '(s, rs) := run_ops ops s in (s, r :: rs)
  end.

(** The object and the transactions stand for the reference. *)
Inductive stands_for : WorkspaceFile * FTState → RefFile → Prop :=
  | stands r w a pos mode s m c :
      lf_id m = entry → file_inv fresh s fd m →
      content (FileRefinement.view (ft_storage s)) m = c →
      stands_for (mkWorkspaceFile r w a true fd pos OPEN mode, s) (mkRefFile c pos r w a).

Lemma same_file_id m m' : same_file m m' → lf_id m' = lf_id m.
Proof. intros [Hb _]. unfold lf_id. by rewrite Hb. Qed.
Lemma fd_info_ok s m :
  file_inv fresh s fd m →
  ∃ s' stats, fd_info fd s = (s', Ok stats) ∧ ft_quiet s s' ∧
    es_size stats = Some (Z.of_nat (length (content (FileRefinement.view (ft_storage s)) m))).
Proof.
  intros Hinv. pose proof (fi_open _ _ _ _ Hinv) as [Hfd Hcur Hwf Hst].
  destruct (load_file_descriptor_ok s fd _ m Hfd Hcur) as (s'&Hload&Hq).
  exists s', (to_stats (LFile m) false). unfold fd_info. rewrite (bind_Ok _ _ _ _ _ Hload).
  split_and!; [done..|]. cbn. by rewrite (length_content _ _ Hwf Hst).
Qed.

(** One operation of each kind. *)
Definition refines (op : FileOp) (s : WorkspaceFile * FTState) (f : RefFile) : Prop :=
  ∃ s', run_op op s = (s', (ref_op Implemented op f).2) ∧
    stands_for s' (ref_op Implemented op f).1.
Ltac object_cbn :=
  cbn [fst snd prod_map id wfi_readable wfi_writable wfi_append wfi_binary wfi_fd wfi_offset
       wfi_state wfi_mode set_offset negb run_op ref_op rf_readable rf_writable rf_append rf_position
       rf_content rf_at rf_with];
  change (bool_decide (OPEN ≠ OPEN)) with false; cbv iota beta.
Ltac run_cbn :=
  object_cbn;
  unfold file_read, file_write, file_seek, file_tell, file_truncate, file_flush, fileno, readable,
    writable, seekable, check_state, get_file, update_file, on_fd_transactions, fmap, stM_fmap,
    mbind, stM_bind, mret, stM_ret, gets, modify, raise_if, compose;
  object_cbn; object_cbn.
Ltac same_object := eexists; split; [reflexivity|by econstructor].
Lemma read_ok s f size : stands_for s f → refines (OpRead size) s f.
Proof.
  intros [r w a pos mode s0 m c Hid Hinv Hc]. unfold refines. run_cbn.
  destruct r; [|same_object]. destruct (Z.ltb_spec size (-1)) as [Hlt|Hge]; [same_object|].
  destruct (fd_read_local download cache_size fuel s0 fd m size pos false (fi_open _ _ _ _ Hinv) Hfuel)
    as (s1 & Hread & Hq).
  object_cbn. rewrite Hread, Hc. unfold read_result. cbn [andb negb from_option default].
  unfold ref_place, rf_size. cbn [rf_position rf_content].
  set (place := if pos <? 0 then Z.of_nat (length c) else pos).
  assert (take (Z.to_nat (if size <? 0 then Z.of_nat (length c) else size)) (drop (Z.to_nat place) c)
    = if size =? -1 then drop (Z.to_nat place) c else take (Z.to_nat size) (drop (Z.to_nat place) c)) as ->.
  { destruct (Z.eqb_spec size (-1)) as [->|].
    - change (-1 <? 0) with true. cbv iota. rewrite take_ge; [done|]. rewrite length_drop. lia.
    - by rewrite (proj2 (Z.ltb_ge size 0)) by lia. }
  eexists. split; [reflexivity|]. econstructor; [done|by eapply file_inv_quiet|].
  by rewrite (content_quiet _ _ _ (fq_storage _ _ Hq)).
Qed.

Lemma size_ok r w a pos mode s m :
  file_inv fresh s fd m →
  ∃ s', get_size (mkWorkspaceFile r w a true fd pos OPEN mode, s)
    = ((mkWorkspaceFile r w a true fd pos OPEN mode, s'),
       Ok (Z.of_nat (length (content (FileRefinement.view (ft_storage s)) m)))) ∧ ft_quiet s s'.
Proof.
  intros Hinv. destruct (fd_info_ok s m Hinv) as (s' & stats & E & Hq & Hsize).
  exists s'. split; [|done]. unfold get_size, file_stat. run_cbn. rewrite E.
  unfold of_option. by rewrite Hsize.
Qed.

Lemma write_bytes_ok r w a pos mode s m data :
  file_inv fresh s fd m →
  let old := content (FileRefinement.view (ft_storage s)) m in
  ∃ s' m', write_bytes_at_offset now fresh key digest data
      (mkWorkspaceFile r w a true fd pos OPEN mode, s)
    = ((mkWorkspaceFile r w a true fd (if a then pos else pos + Z.of_nat (length data)) OPEN mode, s'),
       Ok (Z.of_nat (length data))) ∧
    file_inv fresh s' fd m' ∧ lf_id m' = lf_id m ∧
    content (FileRefinement.view (ft_storage s')) m'
    = match data with
      | [] => old
      | _ => write_at old data (if pos <? 0 then Z.of_nat (length old) else pos)
      end.
Proof.
  intros Hinv old.
  destruct (fd_write_ok fresh key digest now s fd m data pos false Hinv)
    as (s1 & m1 & Hw & Hinv1 & _ & Hsame & Hc). exists s1, m1.
  split_and!; [|done|by apply same_file_id|].
  - unfold write_bytes_at_offset. run_cbn. rewrite Hw. object_cbn. by destruct a.
  - exact Hc.
Qed.
Lemma write_ok s f data : stands_for s f → refines (OpWrite data) s f.
Proof.
  intros [r w a pos mode s0 m c Hid Hinv Hc]. unfold refines.
  destruct w; [|run_cbn; same_object]. cbn [run_op fmap stM_fmap].
  destruct a.
  - destruct (size_ok r true true pos mode s0 m Hinv) as (s1 & Hsize & Hq).
    destruct (write_bytes_ok r true true (Z.of_nat (length c)) mode s1 m data)
      as (s2 & m2 & Hw & Hinv2 & Hid2 & Hc2); [by eapply file_inv_quiet|].
    rewrite (content_quiet _ _ _ (fq_storage _ _ Hq)), Hc in Hc2.
    unfold fmap, stM_fmap, file_write. run_cbn. rewrite Hsize, Hc. object_cbn. unfold set_offset. object_cbn.
    rewrite Hw.
    eexists. split; [reflexivity|]. econstructor; [by rewrite Hid2|done|].
    rewrite Hc2. by rewrite (proj2 (Z.ltb_ge (Z.of_nat (length c)) 0)) by lia.
  - destruct (write_bytes_ok r true false pos mode s0 m data Hinv)
      as (s2 & m2 & Hw & Hinv2 & Hid2 & Hc2). rewrite Hc in Hc2.
    run_cbn. rewrite Hw. eexists. split; [reflexivity|]. by econstructor; [rewrite Hid2|..].
Qed.

Lemma seek_ok s f offset whence : stands_for s f → refines (OpSeek offset whence) s f.
Proof.
  intros Hs. destruct Hs as [r w a pos mode s0 m c Hid Hinv Hc]. unfold refines.
  run_cbn. unfold seek_refused, ref_seek. cbn [rf_position].
  destruct (Z.eqb_spec whence SEEK_SET) as [->|Hs].
  { change (SEEK_SET =? SEEK_CUR) with false. change (SEEK_SET =? SEEK_END) with false. cbn [orb]. cbv iota.
    destruct (Z.ltb_spec offset 0); [same_object|]. object_cbn. same_object. }
  destruct (Z.eqb_spec whence SEEK_CUR) as [->|Hcu].
  { change (SEEK_CUR =? SEEK_END) with false. object_cbn. cbn [orb].
    destruct ((offset <? 0) && (pos + offset <? 0)); [same_object|]. object_cbn. same_object. }
  destruct (Z.eqb_spec whence SEEK_END) as [->|He]; object_cbn; [|same_object].
  destruct (size_ok r w a pos mode s0 m Hinv) as (s1 & Hsize & Hq). unfold rf_size. object_cbn.
  destruct ((offset <? 0) && (pos + offset <? 0)) eqn:Echk; [same_object|].
  rewrite Hsize, Hc. object_cbn. eexists. split; [reflexivity|].
  econstructor; [done|by eapply file_inv_quiet|].
  by rewrite (content_quiet _ _ _ (fq_storage _ _ Hq)).
Qed.

Lemma truncate_ok s f size :
  truncate_placed (OpTruncate size) f → stands_for s f → refines (OpTruncate size) s f.
Proof.
  intros Hpos Hs. destruct Hs as [r w a pos mode s0 m c Hid Hinv Hc]. unfold refines. run_cbn.
  destruct w; [|same_object]. object_cbn.
  assert (∀ n b, 0 <= n → (b = true → n = 0) → ∃ s1 m1,
    fd_resize now fresh fd n b s0 = (s1, Ok tt) ∧ lf_id m1 = entry ∧ file_inv fresh s1 fd m1 ∧
    content (FileRefinement.view (ft_storage s1)) m1 = resize_to c n) as Hres.
  { intros n b Hn Hb.
    destruct (fd_resize_ok fresh now s0 fd m n b Hinv Hn) as (s1 & m1 & E & Hinv1 & _ & Hsame & Hc1).
    exists s1, m1. split_and!; [done|rewrite (same_file_id _ _ Hsame); done|done|]. rewrite Hc1, Hc. destruct b; [|done].
    rewrite (Hb eq_refl). cbn [andb]. destruct (Z.leb_spec (Z.of_nat (length c)) 0); [|done].
    by destruct c. }
  destruct size as [n|]; cbn [default from_option id].
  - destruct (Z.ltb_spec n 0); [same_object|].
    destruct (Z.eqb_spec n 0) as [->|]; object_cbn.
    + destruct (Hres 0 true) as (s1 & m1 & E & Hid1 & Hinv1 & Hc1); [lia|done|]. rewrite E.
      eexists. split; [reflexivity|]. by econstructor.
    + destruct (Hres n false) as (s1 & m1 & E & Hid1 & Hinv1 & Hc1); [lia|done|]. rewrite E.
      eexists. split; [reflexivity|]. by econstructor.
  - assert (0 <= pos) as Hge by exact (Hpos eq_refl).
    rewrite (proj2 (Z.ltb_ge pos 0)) by lia.
    destruct (Hres pos false) as (s1 & m1 & E & Hid1 & Hinv1 & Hc1); [lia|done|]. object_cbn. rewrite E.
    eexists. split; [reflexivity|]. by econstructor.
Qed.

Lemma flush_ok s f : stands_for s f → refines OpFlush s f.
Proof.
  intros [r w a pos mode s0 m c Hid Hinv Hc]. unfold refines. run_cbn.
  destruct (fd_flush_ok fresh key digest s0 fd m Hinv) as (s1 & m1 & E & Hinv1 & Hm1 & _ & Hc1 & _).
  rewrite E. eexists. split; [reflexivity|]. apply (stands _ _ _ _ _ _ m1); [rewrite Hm1; exact Hid|done|congruence].
Qed.

Lemma op_ok s f op : truncate_placed op f → stands_for s f → refines op s f.
Proof.
  intros Hplaced Hs. destruct op.
  - by apply read_ok.
  - by apply write_ok.
  - by apply seek_ok.
  - destruct Hs. same_object.
  - by apply truncate_ok.
  - destruct Hs as [r w a pos mode s0 m c Hid Hinv Hc].
    destruct (size_ok r w a pos mode s0 m Hinv) as (s1 & Hsize & Hq).
    unfold refines. run_cbn. rewrite Hsize, Hc. eexists. split; [reflexivity|].
    econstructor; [done|by eapply file_inv_quiet|]. by rewrite (content_quiet _ _ _ (fq_storage _ _ Hq)).
  - by apply flush_ok.
Qed.
Lemma ops_ok ops s f :
  truncates_placed ops f → stands_for s f →
  ∃ s', run_ops ops s = (s', (ref_ops Implemented ops f).2) ∧
    stands_for s' (ref_ops Implemented ops f).1.
Proof.
  revert s f. induction ops as [|op ops IH]; intros s f; cbn [truncates_placed ref_ops run_ops].
  { intros _ Hs. by exists s. }
  intros [Hop Hops] Hs. destruct (op_ok s f op Hop Hs) as (s1 & -> & Hs1).
  destruct (ref_op Implemented op f) as [f1 r1]. cbn [fst snd] in *.
  destruct (IH s1 f1 Hops Hs1) as (s2 & -> & Hs2). exists s2.
  by destruct (ref_ops Implemented ops f1).
Qed.

(** ** Opening and closing *)

Lemma mode_kinds mode f :
  workspace_file fd mode = Ok f →
  f = mkWorkspaceFile false false false false fd 0 INIT (wfi_mode f) ∧
  (mode_has "w" (wfi_mode f) || mode_has "x" (wfi_mode f) || mode_has "r" (wfi_mode f)
   || mode_has "a" (wfi_mode f)) = true.
Proof.
  unfold workspace_file. destruct (length _ =? 1)%nat eqn:E; cbn [negb]; [|done].
  destruct (existsb _ _); [done|]. intros [= <-]. split; [done|]. cbn [wfi_mode].
  apply Nat.eqb_eq in E. cbn [List.filter] in E.
  destruct (mode_has "r" _), (mode_has "w" _), (mode_has "a" _), (mode_has "x" _);
    done || discriminate E.
Qed.
Lemma update_file_ok g f s : update_file g (f, s) = ((g f, s), Ok tt).
Proof. done. Qed.
Lemma get_file_ok {A} (g : WorkspaceFile → A) s : get_file g s = (s, Ok (g s.1)).
Proof. done. Qed.
Lemma fmap_Ok {S E A B} (g : A → B) (m : stM S E A) s s' b :
  (g <$> m) s = (s', Ok b) → ∃ a, m s = (s', Ok a) ∧ b = g a.
Proof. unfold fmap, stM_fmap. destruct (m s) as [s1 [a|e]]; naive_solver. Qed.
(** The object is ready after the part of [ainit] that depends on the mode. *)
Lemma ainit_mode_ok l s m :
  (mode_has "w" l || mode_has "x" l || mode_has "r" l || mode_has "a" l) = true →
  lf_id m = entry → file_inv fresh s fd m →
  ∃ s', ainit_mode now fresh l (mkWorkspaceFile false false false true fd 0 OPEN l, s) = (s', Ok tt) ∧
    stands_for s' (ref_open l (content (FileRefinement.view (ft_storage s)) m)).
Proof.
  intros Hk Hid Hinv. unfold ainit_mode, ref_open.
  destruct (mode_has "w" l || mode_has "x" l) eqn:Ew; [|destruct (mode_has "r" l) eqn:Er].
  - destruct (truncate_ok (mkWorkspaceFile false true false true fd 0 OPEN l, s)
      (mkRefFile (content (FileRefinement.view (ft_storage s)) m) 0 false true false) (Some 0))
      as (s1 & E1 & Hs1); [done|by econstructor|].
    apply fmap_Ok in E1 as (n & E1 & _). rewrite (bind_Ok _ _ _ _ _ (update_file_ok _ _ _)).
    rewrite (bind_Ok _ _ _ _ _ E1). inversion Hs1 as [r w a pos mode s2 m1 c Hp Hid1 Hinv1 Hc1]; subst.
    destruct (mode_has "+" l); eexists; (split; [reflexivity|]); by econstructor.
  - rewrite (bind_Ok _ _ _ _ _ (update_file_ok _ _ _)).
    destruct (mode_has "+" l); eexists; (split; [reflexivity|]); by econstructor.
  - cbn [orb] in Hk. rewrite Hk.
    destruct (mode_has "+" l); eexists; (split; [reflexivity|]); by econstructor.
Qed.
Lemma ainit_ok mode f s m :
  workspace_file fd mode = Ok f → mode_has "b" (wfi_mode f) = true →
  lf_id m = entry → file_inv fresh s fd m →
  ∃ s', ainit now fresh (f, s) = (s', Ok tt) ∧
    stands_for s' (ref_open (wfi_mode f) (content (FileRefinement.view (ft_storage s)) m)).
Proof.
  intros [Ef Hk]%mode_kinds Hb Hid Hinv. rewrite Ef. set (l := wfi_mode f) in *. clearbody l. clear Ef f.
  destruct (ainit_mode_ok l s m Hk Hid Hinv) as (s' & E & Hs). exists s'. split; [|exact Hs].
  unfold ainit. rewrite (bind_Ok _ _ _ _ _ (get_file_ok _ _)), decide_True by done.
  rewrite (bind_Ok _ _ _ _ _ (get_file_ok _ _)), (bind_Ok _ _ _ _ _ (update_file_ok _ _ _)).
  cbn [fst wfi_mode]. rewrite Hb.
  by rewrite (bind_Ok _ _ _ _ _ (update_file_ok _ _ _)).
Qed.

(** [close] writes the file to the database, under its content, and frees the
    descriptor. *)
Definition saved (s : FTState) (c : bytes) : Prop :=
  ∃ m, lf_id m = entry ∧ vr_blob <$> st_vlobs (ft_storage s) !! entry = Some (LFile m) ∧
    content (FileRefinement.view (ft_storage s)) m = c ∧ lf_wf m ∧ is_reshaped m = true ∧
    all_stored (FileRefinement.view (ft_storage s)) m ∧
    st_open_fds (ft_storage s) !! fd = None.
Lemma fd_close_ok s m :
  lf_id m = entry → is_reshaped m = true → file_inv fresh s fd m →
  ∃ s', fd_close fd s = (s', Ok tt) ∧
    saved s' (content (FileRefinement.view (ft_storage s)) m).
Proof.
  intros Hid Hre Hinv. pose proof (fi_open _ _ _ _ Hinv) as [Hfd Hcur Hwf Hst].
  destruct (load_file_descriptor_ok s fd _ m Hfd Hcur) as (s1 & Hload & Hq).
  pose proof (file_inv_quiet _ _ _ _ _ Hq Hinv) as Hinv1.
  destruct (ensure_persistent_ok fresh s1 fd m Hinv1) as (s2 & E2 & Hinv2 & Hc2 & Hah & _).
  pose proof (fi_open _ _ _ _ Hinv2) as [Hfd2 _ _ Hst2]. pose proof (fi_durable _ _ _ _ Hinv2 Hah) as Hdu.
  unfold fd_close. rewrite (bind_Ok _ _ _ _ _ Hload), (bind_Ok _ _ _ _ _ E2).
  unfold on_storage, remove_file_descriptor, mbind, stM_bind, gets, raise_if, modify.
  rewrite bool_decide_eq_false_2 by congruence. eexists. split; [reflexivity|].
  exists m. subst entry. split_and!; try done.
  - cbn. change (content (FileRefinement.view (ft_storage s2)) m = content (FileRefinement.view (ft_storage s)) m).
    rewrite Hc2. apply (content_quiet _ _ _ (fq_storage _ _ Hq)).
  - cbn. apply lookup_delete_eq.
Qed.
Lemma close_ok s f :
  stands_for s f →
  ∃ s', file_close fresh key digest s = ((set_state CLOSED s.1, s'), Ok tt) ∧
    saved s' (rf_content f).
Proof.
  intros [r w a pos mode s0 m c Hid Hinv Hc].
  destruct (fd_flush_ok fresh key digest s0 fd m Hinv) as (s1 & m1 & E & Hinv1 & Hm1 & Hre & Hc1 & _).
  destruct (fd_close_ok s1 m1) as (s2 & E2 & Hs2); [by rewrite Hm1|done..|].
  exists s2. cbn [fst rf_content]. split; [|congruence].
  set (o := mkWorkspaceFile r w a true fd pos OPEN mode).
  assert (file_flush fresh key digest (o, s0) = ((o, s1), Ok tt)) as Efl
    by (unfold o; run_cbn; by rewrite E).
  assert (close_descriptor (o, s1) = ((o, s2), Ok tt)) as Ecl
    by (unfold o, close_descriptor; run_cbn; by rewrite E2).
  unfold file_close. rewrite (bind_Ok _ _ _ _ _ (get_file_ok _ _)), decide_False by done.
  unfold try_finally, flush_then_close. by rewrite Efl, Ecl.
Qed.
(** A closed file only raises. *)
Lemma closed_raises s op : wfi_state s.1 = CLOSED → run_op op s = (s, Err ValueError).
Proof. destruct s as [[] s]. cbn. intros ->. by destruct op as [| | | |[]| |]. Qed.
End refinement.


(** The two sets of rules differ: on a file of ten bytes that has just been opened the
    last four are refused, after a seek to the end twenty bytes back are not, and an
    appended byte leaves the position before it. *)
Example seek_refused_at_the_start :
  let f := ref_open ["r"; "b"]%char (replicate 10 x00) in
  (ref_ops Implemented [OpSeek (-4) 2] f).2 = [Err FSOffsetError] ∧
  (ref_ops Documented [OpSeek (-4) 2] f).2 = [Ok (VInt 6)].
Proof. done. Qed.
Example seek_before_the_start :
  let f := ref_open ["r"; "b"]%char (replicate 10 x00) in
  (ref_ops Implemented [OpSeek 30 0; OpSeek (-20) 2] f).2 = [Ok (VInt 30); Ok (VInt (-10))] ∧
  (ref_ops Documented [OpSeek 30 0; OpSeek (-20) 2] f).2 = [Ok (VInt 30); Err FSOffsetError].
Proof. done. Qed.
Example position_after_append :
  let f := ref_open ["a"; "b"]%char (replicate 10 x00) in
  (ref_ops Implemented [OpWrite [x61]; OpTell] f).2 = [Ok (VInt 1); Ok (VInt 10)] ∧
  (ref_ops Documented [OpWrite [x61]; OpTell] f).2 = [Ok (VInt 1); Ok (VInt 11)].
Proof. done. Qed.
