(* ===== verification/WorkspacePaths.v ===== *)
(** The operations of a workspace on paths: the pathlib-like and the shutil-like
    interfaces of [guardata/client/fs/workspacefs/workspacefs.py]. *)

From Stdlib Require Import Ascii.
From S2P Require Import Prelude PyString Types ApiManifest Chunk LocalManifest FileOperations.
From S2P Require Import FileContent Storage FileTransactions Merging EntryTransactions.
From S2P Require Import WorkspaceFile FileRefinement EntryProperties WorkspaceFileProperties.

(** What the transactions of a workspace take: its id, the role of its user in it,
    the filter, the random ids, the requests, the key. *)
Record Workspace := mkWorkspace {
  ws_id : EntryID;
  ws_role : option RealmRole;
  ws_pattern : EntryName → bool;
  ws_fresh : nat → EntryID;
  ws_load_remote : EntryID → result FSExn RemoteManifest;
  ws_download : BlockAccess → result FSExn bytes;
  ws_key : SecretKey }.

(** [try: m except FileExistsError: h], and so on. *)
Definition is_file_not_found (e : FSExn) : bool := bool_decide (e = FSFileNotFoundError).
Definition is_not_a_directory (e : FSExn) : bool := bool_decide (e = FSNotADirectoryError).
Definition is_file_exists (e : FSExn) : bool :=
  bool_decide (e = FSFileExistsError) || bool_decide (e = FileExistsError).

(** The character is in the mode, as it was given. *)
Definition raw_mode_has (c : ascii) (mode : string) : bool :=
  bool_decide (c ∈ String.list_ascii_of_string mode).

Section paths.
(** The device, the time, the hash, the size of the block cache and the attempts to
    read, which [PythonRecursionError] says were not enough. *)
Context (local_author : DeviceID) (now : DateTime) (digest : bytes → HashDigest)
  (cache_size : Z) (fuel : nat).

Section workspace.
Context (w : Workspace).

(** [self.transactions] *)
Abbreviation info := (entry_info (ws_id w) (ws_role w) (ws_pattern w) now (ws_load_remote w)).
Abbreviation create_folder :=
  (folder_create (ws_id w) (ws_role w) local_author (ws_pattern w) now (ws_fresh w) (ws_load_remote w)).
Abbreviation create_file :=
  (file_create (ws_id w) (ws_role w) local_author (ws_pattern w) now (ws_fresh w) (ws_load_remote w)).
Abbreviation open_entry := (file_open (ws_id w) (ws_role w) (ws_pattern w) now (ws_load_remote w)).
Abbreviation resize_fd := (fd_resize now (ws_fresh w)).
Abbreviation write_fd := (fd_write now (ws_fresh w) (ws_key w) digest).

(** ** The pathlib-like interface *)

(** [exists], [is_dir], [is_file] *)
Definition exists_path (path : FsPath) : ftM bool :=
  try_catch (_ ← info path; mret true)
    (λ e, if is_file_not_found e || is_not_a_directory e then mret false else mthrow e).
Definition info_type (path : FsPath) : ftM EntryType :=
  stats ← info path;
  of_option KeyError (es_type stats).
Definition is_dir (path : FsPath) : ftM bool :=
  t ← info_type path; mret (bool_decide (t = FOLDER)).
Definition is_file (path : FsPath) : ftM bool :=
  t ← info_type path; mret (bool_decide (t = FILE)).

(** [iterdir] and [listdir]: the names are all there when the first one is given. *)
Definition iterdir (path : FsPath) : ftM (list FsPath) :=
  stats ← info path;
  children ← of_option FSNotADirectoryError (es_children stats);
  mret (path_div path <$> children).
Definition listdir (path : FsPath) : ftM (list FsPath) := iterdir path.

(** [rename] *)
Definition rename (source destination : FsPath) (overwrite : bool) : ftM unit :=
  _ ← entry_rename (ws_id w) (ws_role w) (ws_pattern w) now (ws_load_remote w) source destination overwrite;
  mret tt.

(** [mkdir]: without [parents], it calls nothing else; with them, it calls itself on
    a shorter path. *)
Definition mkdir_exists (path : FsPath) (exist_ok : bool) (e : FSExn) : ftM unit :=
  if exist_ok then
    dir ← is_dir path;
    if dir : bool then mret tt else mthrow e
  else mthrow e.
Definition mkdir_alone (path : FsPath) (exist_ok : bool) : ftM unit :=
  if path_is_root path && exist_ok then mret tt
  else
    try_catch (_ ← create_folder path; mret tt)
      (λ e, if is_file_exists e then mkdir_exists path exist_ok e else mthrow e).
Fixpoint mkdir_parents (n : nat) (path : FsPath) (exist_ok : bool) : ftM unit :=
  if path_is_root path && exist_ok then mret tt
  else
    try_catch (_ ← create_folder path; mret tt)
      (λ e,
        if is_file_not_found e then
          if bool_decide (path_parent path = path) then mthrow e
          else
            match n with
            | O => mthrow e
            | S n =>
                _ ← mkdir_parents n (path_parent path) true;
                mkdir_alone path exist_ok
            end
        else if is_file_exists e then mkdir_exists path exist_ok e
        else mthrow e).
Definition mkdir (path : FsPath) (parents exist_ok : bool) : ftM unit :=
  if parents then mkdir_parents (length path) path exist_ok else mkdir_alone path exist_ok.

(** [rmdir], [touch], [unlink] and [truncate] *)
Definition rmdir (path : FsPath) : ftM unit :=
  _ ← folder_delete (ws_id w) (ws_role w) (ws_pattern w) now (ws_load_remote w) path; mret tt.
Definition touch (path : FsPath) (exist_ok : bool) : ftM unit :=
  try_catch (_ ← create_file path false; mret tt)
    (λ e, if is_file_exists e && exist_ok then mret tt else mthrow e).
Definition unlink (path : FsPath) : ftM unit :=
  _ ← file_delete (ws_id w) (ws_role w) (ws_pattern w) now (ws_load_remote w) path; mret tt.
Definition truncate (path : FsPath) (length : Z) : ftM unit :=
  _ ← file_resize (ws_id w) (ws_role w) (ws_pattern w) now (ws_fresh w) (ws_load_remote w) path length;
  mret tt.

(** [read_bytes] *)
Definition read_bytes (path : FsPath) (size offset : Z) : ftM bytes :=
  '(_, fd) ← open_entry path false;
  try_finally
    (data ← fd_read (ws_download w) cache_size fuel fd size offset false;
     of_option PythonRecursionError data)
    (fd_close fd).

(** [write_bytes] *)
Definition open_or_create (path : FsPath) : ftM Z :=
  try_catch ('(_, fd) ← create_file path true; of_option AssertionError fd)
    (λ e, if is_file_exists e then '(_, fd) ← open_entry path true; mret fd else mthrow e).
Definition write_bytes (path : FsPath) (data : bytes) (offset : Z) (truncate : bool) : ftM Z :=
  fd ← open_or_create path;
  try_finally
    (_ ← (if (0 <=? offset) && truncate then resize_fd fd offset false else mret tt);
     write_fd fd data offset false)
    (fd_close fd).

(** [open_file] *)
Definition open_descriptor (path : FsPath) (mode : string) : ftM (option Z) :=
  if raw_mode_has "x" mode then
    '(_, fd) ← create_file path true; mret fd
  else
    found ← exists_path path;
    if negb found && (length (List.filter (λ c, raw_mode_has c mode) ["a"; "w"]%char) =? 1)%nat then
      '(_, fd) ← create_file path true; mret fd
    else
      '(_, fd) ← open_entry path (raw_mode_has "w" mode); mret (Some fd).
Definition initialized (f : WorkspaceFile) : ftM WorkspaceFile := λ s,
  match ainit now (ws_fresh w) (f, s) with
  | ((f, s), Ok _) => (s, Ok f)
  | ((_, s), Err e) => (s, Err e)
  end.
Definition open_file (path : FsPath) (mode : string) : ftM WorkspaceFile :=
  fd ← open_descriptor path mode;
  fd ← of_option AssertionError fd;
  f ← lift_result (workspace_file fd mode);
  initialized f.

(** [rmtree], as deep as the interpreter may recurse. *)
Definition rmtree_children (rmtree : FsPath → ftM unit) (path : FsPath) : ftM unit :=
  children ← iterdir path;
  _ ← for_each (λ child,
    dir ← is_dir child;
    if dir : bool then rmtree child else unlink child) children;
  rmdir path.
Fixpoint rmtree (depth : nat) (path : FsPath) : ftM unit :=
  match depth with
  | O => mthrow PythonRecursionError
  | S depth => rmtree_children (rmtree depth) path
  end.
End workspace.

(** ** The shutil-like interface *)

(** The workspace that runs the operation and the one of the source, which may be
    the same: [same]. *)
Section two.
Context (w source_workspace : Workspace) (same : bool).
Definition source_ws : Workspace := if same then w else source_workspace.
Abbreviation pairM := (stM (FTState * FTState) FSExn) (only parsing).
Definition in_self {A} (m : ftM A) : pairM A := λ '(s, o),
  let '(s, r) := m s in ((s, o), r).
Definition in_source {A} (m : ftM A) : pairM A := λ '(s, o),
  if same then let '(s, r) := m s in ((s, o), r) else let '(o, r) := m o in ((s, o), r).

(** [copyfile]: each turn reads one more block of [length] bytes. *)
Fixpoint copy_loop (turns : nat) (source_path target_path : FsPath) (length offset : Z) : pairM unit :=
  match turns with
  | O => mthrow PythonRecursionError
  | S turns =>
      buff ← in_source (read_bytes source_ws source_path length (offset * length));
      if bool_decide (buff = []) then mret tt
      else
        _ ← in_self (write_bytes w target_path buff (offset * length) true);
        copy_loop turns source_path target_path length (offset + 1)
  end.
Definition copyfile (turns : nat) (source_path target_path : FsPath) (length : Z) (exist_ok : bool)
    : pairM unit :=
  _ ← in_self (touch w target_path exist_ok);
  copy_loop turns source_path target_path length 0.

(** [copytree] *)
Definition copy_child (turns : nat) (copytree : FsPath → FsPath → pairM unit) (target_path : FsPath)
    (source_file : FsPath) : pairM unit :=
  name ← lift_result (path_name source_file);
  let target_file := path_div target_path name in
  dir ← in_source (is_dir source_ws source_file);
  if dir : bool then copytree source_file target_file
  else
    file ← in_source (is_file source_ws source_file);
    if file : bool then copyfile turns source_file target_file DEFAULT_BLOCK_SIZE false else mret tt.
Fixpoint copytree (turns depth : nat) (source_path target_path : FsPath) : pairM unit :=
  match depth with
  | O => mthrow PythonRecursionError
  | S depth =>
      source_files ← in_source (listdir source_ws source_path);
      _ ← in_self (mkdir w target_path false false);
      for_each (copy_child turns (copytree turns depth) target_path) source_files
  end.

(** [move]: the destination is looked at only in the same workspace. *)
Definition move_destination (source destination : FsPath) : pairM FsPath :=
  _ ← raise_if (bool_decide (source = take (length source) destination)) FSInvalidArgumentError;
  try_catch
    (dir ← in_self (is_dir w destination);
     if dir : bool then
       name ← lift_result (path_name source);
       let real_destination := path_div destination name in
       found ← in_self (exists_path w real_destination);
       _ ← raise_if found FileExistsError;
       mret real_destination
     else mret destination)
    (λ e, if is_file_not_found e then mret destination else mthrow e).
Definition move_copy (turns depth : nat) (source real_destination : FsPath) : pairM unit :=
  dir ← in_source (is_dir source_ws source);
  if dir : bool then
    _ ← copytree turns depth source real_destination;
    in_source (rmtree source_ws depth source)
  else
    _ ← copyfile turns source real_destination DEFAULT_BLOCK_SIZE false;
    in_source (unlink source_ws source).
Definition move (turns depth : nat) (source destination : FsPath) : pairM unit :=
  if same then
    real_destination ← move_destination source destination;
    if bool_decide (path_parent source = path_parent real_destination)
    then in_self (rename w source real_destination true)
    else move_copy turns depth source real_destination
  else move_copy turns depth source destination.
End two.
End paths.

(** * Lemmas

    The files that the operations on paths open: what is there before and after,
    and what the copies do with it. *)

Abbreviation bytes_of s m := (content (FileRefinement.view (ft_storage s)) m) (only parsing).

Lemma try_finally_Ok {S E A} (m : stM S E A) (f : stM S E unit) s s1 s2 r :
  m s = (s1, r) → f s1 = (s2, Ok tt) → try_finally m f s = (s2, r).
Proof. unfold try_finally. by intros -> ->. Qed.

(** ** A file that can be opened *)

Section ready.
Context (fresh : nat → ChunkID) `{!Inj (=) (=) fresh}.

(** The invariant of an open file, without the descriptor. *)
Record file_ready (s : FTState) (m : LocalFileManifest) : Prop := {
  fy_current : current (ft_storage s) (lf_id m) = Some (LFile m);
  fy_wf : lf_wf m;
  fy_stored : all_stored (FileRefinement.view (ft_storage s)) m;
  fy_disjoint : ids_disjoint (lf_blocks m);
  fy_cached : is_Some (st_ahead (ft_storage s) !! lf_id m) →
    st_cache (ft_storage s) !! lf_id m = Some (LFile m);
  fy_durable : st_ahead (ft_storage s) !! lf_id m = None →
    vr_blob <$> st_vlobs (ft_storage s) !! lf_id m = Some (LFile m);
  fy_pending : pending (ft_storage s) (lf_id m) ## chunk_id_set (all_chunks m);
  fy_fresh : ∀ k, (ft_drawn s <= k)%nat →
    fresh k ∉ chunk_id_set (all_chunks m) ∧ fresh k ∉ pending (ft_storage s) (lf_id m) }.
Lemma file_inv_ready s fd m :
  file_inv fresh s fd m ↔ file_ready s m ∧ st_open_fds (ft_storage s) !! fd = Some (lf_id m).
Proof.
  split.
  - intros [[] ? ? ? ? ?]. by split.
  - intros [[] ?]. by split.
Qed.

(** The descriptors apart, the state is the same. *)
Definition only_fds (s s' : FTState) : Prop :=
  ∃ fds n, ft_storage s' = mkStorage (st_cache (ft_storage s)) (st_ahead (ft_storage s))
      (st_vlobs (ft_storage s)) (st_checkpoint (ft_storage s)) (st_chunks (ft_storage s))
      (st_blocks (ft_storage s)) (st_clock (ft_storage s)) fds n ∧
    ft_drawn s' = ft_drawn s.
Lemma only_fds_storage s s' :
  ft_storage s' = ft_storage s → ft_drawn s' = ft_drawn s → only_fds s s'.
Proof.
  intros E Ed. exists (st_open_fds (ft_storage s)), (st_fd_counter (ft_storage s)). split; [|done].
  rewrite E. by destruct (ft_storage s).
Qed.
Lemma ready_only_fds s s' m : only_fds s s' → file_ready s m → file_ready s' m.
Proof.
  intros (fds & n & E & Ed) [H1 H2 H3 H4 H5 H6 H7 H8].
  split; unfold FileRefinement.view, current, pending in *; rewrite ?E, ?Ed; cbn; auto.
Qed.
Lemma tree_only_fds s s' e : only_fds s s' → tree s' e = tree s e.
Proof. intros (fds & n & E & _). unfold tree, current. by rewrite E. Qed.
Lemma bytes_only_fds s s' m : only_fds s s' → bytes_of s' m = bytes_of s m.
Proof. intros (fds & n & E & _). unfold content. f_equal. unfold FileRefinement.view. by rewrite E. Qed.

Lemma ready_quiet s s' m : ft_quiet s s' → file_ready s m → file_ready s' m.
Proof.
  intros [Hq _ Hd _] [H1 H2 H3 H4 H5 H6 H7 H8].
  pose proof Hq as [Hv Hcu Hc Ha Hvl Hch Hf].
  split; unfold pending in *; rewrite ?Ha, ?Hcu, ?Hvl, ?Hd; auto.
  by eapply stored_quiet.
Qed.

(** Opening a descriptor and closing it. *)
Lemma open_ready s m :
  file_ready s m →
  ∃ s' fd, on_storage (create_file_descriptor (LFile m)) s = (s', Ok fd) ∧
    file_inv fresh s' fd m ∧ only_fds s s'.
Proof.
  intros Hr. eexists _, _. split; [reflexivity|].
  match goal with |- file_inv _ ?s' _ _ ∧ _ => assert (only_fds s s') as Ho by by eexists _, _ end.
  split; [|exact Ho]. apply file_inv_ready. split; [by eapply ready_only_fds|].
  cbn. by rewrite lookup_insert_eq.
Qed.
Lemma ensure_current e s s' :
  on_storage (ensure_manifest_persistent e) s = (s', Ok tt) → ∀ e', tree s' e' = tree s e'.
Proof.
  unfold on_storage, ensure_manifest_persistent, mbind, stM_bind, gets. intros E e'.
  destruct (decide _) as [Ha|Ha]; [|by injection E as <-].
  unfold ensure_persistent in E. destruct (st_ahead _ !! e) as [R|]; [|by injection E as <-].
  destruct (st_cache (ft_storage s) !! e) as [m|] eqn:Ec; [|discriminate].
  injection E as <-. unfold tree, current. cbn. destruct (decide (e' = e)) as [->|].
  - by rewrite Ec.
  - by rewrite lookup_insert_ne.
Qed.
Lemma close_ready s fd m :
  file_inv fresh s fd m →
  ∃ s', fd_close fd s = (s', Ok tt) ∧ file_ready s' m ∧ bytes_of s' m = bytes_of s m ∧
    (∀ e, tree s' e = tree s e) ∧ ft_drawn s' = ft_drawn s.
Proof.
  intros Hinv. pose proof (fi_open _ _ _ _ Hinv) as [Hfd Hcur Hwf Hst].
  destruct (load_file_descriptor_ok s fd _ m Hfd Hcur) as (s1 & Hload & Hq).
  pose proof (file_inv_quiet _ _ _ _ _ Hq Hinv) as Hinv1.
  destruct (ensure_persistent_ok fresh s1 fd m Hinv1) as (s2 & E2 & Hinv2 & Hc2 & _ & _ & _ & _ & Hd2).
  pose proof (fi_open _ _ _ _ Hinv2) as [Hfd2 _ _ _].
  assert (∃ s3, fd_close fd s = (s3, Ok tt) ∧ only_fds s2 s3) as (s3 & E3 & Ho).
  { unfold fd_close. rewrite (bind_Ok _ _ _ _ _ Hload), (bind_Ok _ _ _ _ _ E2).
    unfold on_storage, remove_file_descriptor, mbind, stM_bind, gets, raise_if, modify.
    rewrite bool_decide_eq_false_2 by congruence. eexists. split; [reflexivity|]. by eexists _, _. }
  exists s3. split_and!; [done| | | |].
  - apply (ready_only_fds _ _ _ Ho). by apply file_inv_ready in Hinv2 as [].
  - rewrite (bytes_only_fds _ _ _ Ho), Hc2. apply (content_quiet _ _ _ (fq_storage _ _ Hq)).
  - intros e. rewrite (tree_only_fds _ _ _ Ho), (ensure_current _ _ _ E2). apply (tree_quiet _ _ _ Hq).
  - destruct Ho as (? & ? & _ & ->). by rewrite Hd2, (fq_drawn _ _ Hq).
Qed.
End ready.

(** ** Reading and writing by path *)

Section paths.
Context (local_author : DeviceID) (now : DateTime) (digest : bytes → HashDigest)
  (cache_size : Z) (fuel : nat).
Context (w : Workspace) `{!Inj (=) (=) (ws_fresh w)}.
Abbreviation ready := (file_ready (ws_fresh w)).
Abbreviation open_entry := (file_open (ws_id w) (ws_role w) (ws_pattern w) now (ws_load_remote w)).

(** The path leads to this file, whose data is local. *)
Record file_at (s : FTState) (path : FsPath) (m : LocalFileManifest) : Prop := {
  fa_path : resolves (tree s) path (ws_id w) = Some (lf_id m);
  fa_ready : ready s m }.
(** Files keep their ids: what the paths lead to does not change. *)
Lemma resolves_same (v v' : EntryID → option LocalManifest) path id :
  (∀ e, v' e = v e ∨ ∃ m m', v e = Some (LFile m) ∧ v' e = Some (LFile m')) →
  resolves v' path id = resolves v path id.
Proof.
  intros Hv. revert id. induction path as [|n path IH]; intros id; cbn; [done|].
  destruct (Hv id) as [->|(m & m' & -> & ->)]; [|done].
  destruct (v id) as [[|m|]|]; try done. destruct (fd_children m !! n); cbn; [apply IH|done].
Qed.

Lemma file_open_ok s path m (write_mode : bool) :
  file_at s path m → ws_role w ≠ None →
  (write_mode = true → role_in (ws_role w) WRITE_RIGHT_ROLES = true) →
  ∃ s' fd, open_entry path write_mode s = (s', Ok (lf_id m, fd)) ∧
    file_inv (ws_fresh w) s' fd m ∧ bytes_of s' m = bytes_of s m ∧ (∀ e, tree s' e = tree s e) ∧
    ft_drawn s' = ft_drawn s.
Proof.
  intros [Hpath Hr] Hrole Hw.
  destruct (lock_ok (ws_id w) (ws_pattern w) now (ws_load_remote w) s path _ _ Hpath (fy_current _ _ _ Hr))
    as (s1 & E1 & Hq).
  destruct (open_ready (ws_fresh w) s1 m) as (s2 & fd & E2 & Hinv & Ho); [by eapply ready_quiet|].
  exists s2, fd. split_and!; [|done| | |].
  - unfold file_open.
    rewrite (bind_Ok _ _ _ s tt).
    2: { destruct write_mode; [by apply check_write_rights_ok, Hw|].
         unfold check_read_rights, raise_if. by rewrite bool_decide_eq_false_2. }
    rewrite (bind_Ok _ _ _ _ _ E1). cbn [is_file_manifest negb].
    rewrite (bind_Ok _ _ _ _ _ (raise_if_false _ _)). by rewrite (bind_Ok _ _ _ _ _ E2).
  - rewrite (bytes_only_fds _ _ _ Ho). apply (content_quiet _ _ _ (fq_storage _ _ Hq)).
  - intros e. rewrite (tree_only_fds _ _ _ Ho). apply (tree_quiet _ _ _ Hq).
  - destruct Ho as (? & ? & _ & ->). apply (fq_drawn _ _ Hq).
Qed.

Lemma read_bytes_ok s path m size offset :
  (0 < fuel)%nat → file_at s path m → ws_role w ≠ None →
  ∃ s', read_bytes now cache_size fuel w path size offset s
      = (s', Ok (default [] (match read_result (bytes_of s m) size offset false with
                             | Ok o => o | Err _ => None end))) ∧
    file_at s' path m ∧ bytes_of s' m = bytes_of s m ∧ (∀ e, tree s' e = tree s e).
Proof.
  intros Hfuel Hat Hrole. destruct (file_open_ok s path m false Hat Hrole) as (s1 & fd & E1 & Hinv1 & Hc1 & Ht1 & _);
    [done|].
  destruct (fd_read_local (ws_download w) cache_size fuel s1 fd m size offset false
    (fi_open _ _ _ _ Hinv1) Hfuel) as (s2 & E2 & Hq2).
  destruct (close_ready (ws_fresh w) s2 fd m) as (s3 & E3 & Hr3 & Hc3 & Ht3 & _);
    [by eapply file_inv_quiet|].
  assert (∀ e, tree s3 e = tree s e) as Ht.
  { intros e. by rewrite Ht3, (tree_quiet _ _ _ Hq2), Ht1. }
  exists s3. split_and!; [| | |done].
  - unfold read_bytes. rewrite (bind_Ok _ _ _ _ _ E1). eapply try_finally_Ok; [|exact E3].
    rewrite (bind_Ok _ _ _ s2 (Some (default [] (match read_result (bytes_of s1 m) size offset false with
      | Ok o => o | Err _ => None end)))).
    + by rewrite <-Hc1.
    + rewrite E2. unfold read_result. cbn [andb]. done.
  - split; [|done]. rewrite (resolves_ext _ _ _ _ Ht). apply Hat.
  - by rewrite Hc3, (content_quiet _ _ _ (fq_storage _ _ Hq2)).
Qed.

Lemma resolves_parent v path name root id :
  resolves v (path ++ [name]) root = Some id →
  ∃ pid parent, resolves v path root = Some pid ∧ v pid = Some (LFolderish parent) ∧
    fd_children parent !! name = Some id.
Proof.
  rewrite resolves_app. intros (pid & Hp & Hn)%bind_Some. cbn in Hn.
  destruct (v pid) as [[|parent|]|] eqn:Hv; try done.
  destruct (fd_children parent !! name) eqn:Hc; [|done]. cbn in Hn. injection Hn as ->. eauto.
Qed.
Lemma create_exists s path name id child new_child :
  role_in (ws_role w) WRITE_RIGHT_ROLES = true →
  resolves (tree s) (path ++ [name]) (ws_id w) = Some id → tree s id = Some child →
  ∃ s', create_entry (ws_id w) (ws_role w) (ws_pattern w) now (ws_fresh w) (ws_load_remote w)
      (path ++ [name]) new_child s = (s', Err FSFileExistsError) ∧ ft_quiet s s'.
Proof.
  intros Hrole (pid & parent & Hp & Hpar & Hn)%resolves_parent Hid.
  destruct (lock_parent_ok (ws_id w) (ws_pattern w) now (ws_load_remote w) s path name pid parent (Some child))
    as (s1 & E1 & Hq); [done|done|rewrite Hn; eauto|].
  exists s1. split; [|done]. unfold create_entry.
  rewrite (bind_Ok _ _ _ _ _ (check_write_rights_ok _ s Hrole)), (bind_Ok _ _ _ _ _ E1). done.
Qed.

(** What is written: with [truncate], the file is first cut at the offset. *)
Definition written_at (old data : bytes) (offset : Z) (truncate : bool) : bytes :=
  write_result (if (0 <=? offset) && truncate then resize_to old offset else old) data offset.

(** The open file, with its descriptor, goes on as another version of itself. *)
Lemma write_session s fd m data offset (truncate : bool) :
  file_inv (ws_fresh w) s fd m →
  ∃ s' m', try_finally
      (_ ← (if (0 <=? offset) && truncate then fd_resize now (ws_fresh w) fd offset false else mret tt);
       fd_write now (ws_fresh w) (ws_key w) digest fd data offset false)
      (fd_close fd) s = (s', Ok (Z.of_nat (length data))) ∧
    ready s' m' ∧ lf_id m' = lf_id m ∧ bytes_of s' m' = written_at (bytes_of s m) data offset truncate ∧
    (∀ e, e ≠ lf_id m → tree s' e = tree s e).
Proof.
  intros Hinv.
  assert (∃ s1 m1, (if (0 <=? offset) && truncate then fd_resize now (ws_fresh w) fd offset false else mret tt) s
    = (s1, Ok tt) ∧ file_inv (ws_fresh w) s1 fd m1 ∧ lf_id m1 = lf_id m ∧
    bytes_of s1 m1 = (if (0 <=? offset) && truncate then resize_to (bytes_of s m) offset else bytes_of s m) ∧
    (∀ e, e ≠ lf_id m → tree s1 e = tree s e)) as (s1 & m1 & E1 & Hinv1 & Hid1 & Hc1 & Ht1).
  { destruct ((0 <=? offset) && truncate) eqn:E; [|by exists s, m].
    apply andb_true_iff in E as [Hoff%Z.leb_le _].
    destruct (fd_resize_ok (ws_fresh w) now s fd m offset false Hinv Hoff)
      as (s1 & m1 & E1 & Hinv1 & Hfr & Hsame & Hc1).
    exists s1, m1. split_and!; [done|done|by apply same_file_id|by rewrite Hc1|]. intros e He.
    by apply (fr_current _ _ _ _ Hfr). }
  destruct (fd_write_ok (ws_fresh w) (ws_key w) digest now s1 fd m1 data offset false Hinv1)
    as (s2 & m2 & E2 & Hinv2 & Hfr2 & Hsame2 & Hc2).
  destruct (close_ready (ws_fresh w) s2 fd m2 Hinv2) as (s3 & E3 & Hr3 & Hc3 & Ht3 & _).
  exists s3, m2. split_and!; [|done| | |].
  - eapply try_finally_Ok; [|exact E3]. by rewrite (bind_Ok _ _ _ _ _ E1).
  - by rewrite (same_file_id _ _ Hsame2).
  - rewrite Hc3, Hc2, Hc1. done.
  - intros e He. rewrite Ht3. etrans; [apply (fr_current _ _ _ _ Hfr2); by rewrite Hid1|by apply Ht1].
Qed.
Lemma file_at_kept s s' path m m' :
  file_at s path m → ready s' m' → lf_id m' = lf_id m → (∀ e, e ≠ lf_id m → tree s' e = tree s e) →
  file_at s' path m'.
Proof.
  intros [Hp Hr] Hr' Hid Ht. split; [|done]. rewrite Hid, <-Hp. apply resolves_same. intros e.
  destruct (decide (e = lf_id m)) as [->|]; [|left; by apply Ht]. right. exists m, m'. split.
  - apply (fy_current _ _ _ Hr).
  - rewrite <-Hid. apply (fy_current _ _ _ Hr').
Qed.
Lemma write_bytes_path_ok s path name m data offset (truncate : bool) :
  file_at s (path ++ [name]) m → role_in (ws_role w) WRITE_RIGHT_ROLES = true →
  ∃ s' m', write_bytes local_author now digest w (path ++ [name]) data offset truncate s
      = (s', Ok (Z.of_nat (length data))) ∧
    file_at s' (path ++ [name]) m' ∧ lf_id m' = lf_id m ∧
    bytes_of s' m' = written_at (bytes_of s m) data offset truncate ∧
    (∀ e, e ≠ lf_id m → tree s' e = tree s e).
Proof.
  intros Hat Hrole. pose proof Hat as [Hp Hr].
  destruct (create_exists s path name _ _
    (λ parent id, LFile (file_new_placeholder local_author parent id now DEFAULT_BLOCK_SIZE))
    Hrole Hp (fy_current _ _ _ Hr)) as (s1 & E1 & Hq).
  assert (file_at s1 (path ++ [name]) m) as Hat1.
  { split; [|by eapply ready_quiet]. by rewrite (resolves_ext (tree s)) by (intros; by apply tree_quiet). }
  destruct (file_open_ok s1 (path ++ [name]) m true Hat1) as (s2 & fd & E2 & Hinv2 & Hc2 & Ht2 & _);
    [by intros E; rewrite E in Hrole|done|].
  destruct (write_session s2 fd m data offset truncate Hinv2) as (s3 & m3 & E3 & Hr3 & Hid3 & Hc3 & Ht3).
  assert (∀ e, e ≠ lf_id m → tree s3 e = tree s e) as Ht.
  { intros e He. by rewrite Ht3, Ht2, (tree_quiet _ _ _ Hq) by done. }
  exists s3, m3. split_and!; [|exact (file_at_kept s s3 _ m m3 Hat Hr3 Hid3 Ht)|done| |done].
  - unfold write_bytes. rewrite (bind_Ok _ _ _ s2 fd); [exact E3|].
    unfold open_or_create, try_catch, file_create. rewrite (bind_Err _ _ _ s1 FSFileExistsError).
    + change (is_file_exists FSFileExistsError) with true. cbv iota. by rewrite (bind_Ok _ _ _ _ _ E2).
    + by rewrite (bind_Err _ _ _ _ _ E1).
  - by rewrite Hc3, Hc2, (content_quiet _ _ _ (fq_storage _ _ Hq)).
Qed.

(** ** A new file *)

Abbreviation empty_file pid id :=
  (file_new_placeholder local_author pid id now DEFAULT_BLOCK_SIZE) (only parsing).
Lemma empty_file_wf pid id : lf_wf (empty_file pid id).
Proof.
  split_and!; [done|done|cbn; unfold DEFAULT_BLOCK_SIZE; lia..|]. intros i cs Hi. by destruct i.
Qed.
(** The name is free in a folder where the user may write; the id to come is new. *)
Record free_name (s : FTState) (path : FsPath) (name : EntryName) (pid : EntryID)
    (parent : LocalFolderish) : Prop := {
  fn_writable : EntryProperties.writable (ws_id w) (ws_role w) s path pid parent;
  fn_name : fd_children parent !! name = None;
  fn_child : ∀ n, fd_children parent !! n ≠ Some (ws_fresh w (ft_drawn s));
  fn_new : tree s (ws_fresh w (ft_drawn s)) = None }.
(** What there is once the file [id] has the name: the folder has this child more. *)
Definition one_more (s s' : FTState) (name : EntryName) (pid id : EntryID) (parent : LocalFolderish)
    : Prop :=
  pid ≠ id ∧
  (∃ parent', tree s' pid = Some (LFolderish parent') ∧
     fd_children parent' = <[name := id]> (fd_children parent)) ∧
  (∀ e, e ≠ pid → e ≠ id → tree s' e = tree s e).
Lemma one_more_trans s s1 s2 name pid id parent :
  one_more s s1 name pid id parent → (∀ e, e ≠ id → tree s2 e = tree s1 e) →
  one_more s s2 name pid id parent.
Proof.
  intros (Hne & (parent' & Hp & Hc) & Ho) Ht. split_and!; [done| |].
  - exists parent'. split; [|done]. by rewrite Ht.
  - intros e H1 H2. rewrite Ht by done. by apply Ho.
Qed.
(** The empty file, with its descriptor when there is one. *)
Lemma file_create_ok s path name pid parent (open : bool) :
  free_name s path name pid parent →
  ∃ s' m fd, file_create (ws_id w) (ws_role w) local_author (ws_pattern w) now (ws_fresh w)
      (ws_load_remote w) (path ++ [name]) open s
    = (s', Ok (lf_id m, if open then Some fd else None)) ∧
    file_at s' (path ++ [name]) m ∧ (open = true → file_inv (ws_fresh w) s' fd m) ∧
    bytes_of s' m = [] ∧ tree s (lf_id m) = None ∧ one_more s s' name pid (lf_id m) parent.
Proof.
  intros [Hw Hname Hchild Hnew]. set (id := ws_fresh w (ft_drawn s)) in *.
  destruct (create_entry_ok (ws_id w) (ws_role w) (ws_pattern w) now (ws_fresh w) (ws_load_remote w)
    s path name pid parent (λ parent id, LFile (empty_file parent id)) Hw Hname Hchild Hnew eq_refl)
    as (s1 & E1 & (Hid & (parent' & Hp' & Hc' & _) & Ht & Hres) & _ & _ & Hah & Hvl & Hd).
  fold id in Hid, Hc', Ht, Hres, Hah, Hvl.
  assert (pid ≠ id) as Hne by (pose proof (wr_parent _ _ _ _ _ _ Hw); congruence).
  assert (ready s1 (empty_file pid id)) as Hr.
  { split.
    + exact Hid.
    + apply empty_file_wf.
    + constructor.
    + by intros i j bi bj e Hi.
    + intros [x Hx]. change (st_ahead (ft_storage s1) !! id = Some x) in Hx. congruence.
    + intros _. exact Hvl.
    + set_solver.
    + intros k Hk. split; [set_solver|]. unfold pending. change (st_ahead (ft_storage s1) !! _)
        with (st_ahead (ft_storage s1) !! id). rewrite Hah. set_solver. }
  assert (∀ s2, only_fds s1 s2 → file_at s2 (path ++ [name]) (empty_file pid id)) as Hat.
  { intros s2 Ho. split; [|by eapply ready_only_fds].
    rewrite (resolves_ext (tree s1)) by (intros; by apply tree_only_fds). exact Hres. }
  destruct (open_ready (ws_fresh w) s1 (empty_file pid id) Hr) as (s2 & fd & E2 & Hinv & Ho).
  set (sent s := mkFTState (ft_storage s) (ft_write_count s) (ft_drawn s) (id :: ft_events s)).
  assert (only_fds s1 (sent s1)) as Hs1 by by apply only_fds_storage.
  assert (only_fds s1 (sent s2)) as Hs2 by exact Ho.
  exists (if open then sent s2 else sent s1), (empty_file pid id), fd. split_and!.
  - unfold file_create. rewrite (bind_Ok _ _ _ _ _ E1). destruct open; [|done].
    rewrite (bind_Ok _ _ _ s2 (Some fd)); [done|].
    fold id. unfold fmap, stM_fmap. by rewrite E2.
  - apply Hat. by destruct open.
  - intros ->. apply file_inv_ready in Hinv as [Hri Hfd]. apply file_inv_ready. split; [|done].
    eapply ready_only_fds; [|exact Hri]. by apply only_fds_storage.
  - done.
  - done.
  - apply (one_more_trans s s1).
    + split_and!; [done|by eexists|done].
    + intros e _. destruct open; by apply tree_only_fds.
Qed.
Lemma touch_ok s path name pid parent exist_ok :
  free_name s path name pid parent →
  ∃ s' m, touch local_author now w (path ++ [name]) exist_ok s = (s', Ok tt) ∧
    file_at s' (path ++ [name]) m ∧ bytes_of s' m = [] ∧ tree s (lf_id m) = None ∧
    one_more s s' name pid (lf_id m) parent.
Proof.
  intros Hfree. destruct (file_create_ok s path name pid parent false Hfree)
    as (s1 & m & fd & E1 & Hat & _ & Hc & Hnew & Ht).
  exists s1, m. split_and!; [|done..]. unfold touch, try_catch. by rewrite (bind_Ok _ _ _ _ _ E1).
Qed.
(** [write_bytes] where there is nothing. *)
Lemma write_bytes_new_ok s path name pid parent data offset (truncate : bool) :
  free_name s path name pid parent →
  ∃ s' m, write_bytes local_author now digest w (path ++ [name]) data offset truncate s
      = (s', Ok (Z.of_nat (length data))) ∧
    file_at s' (path ++ [name]) m ∧ bytes_of s' m = written_at [] data offset truncate ∧
    tree s (lf_id m) = None ∧ one_more s s' name pid (lf_id m) parent.
Proof.
  intros Hfree. destruct (file_create_ok s path name pid parent true Hfree)
    as (s1 & m & fd & E1 & Hat & Hinv & Hc & Hnew & Ht).
  destruct (write_session s1 fd m data offset truncate (Hinv eq_refl)) as (s2 & m2 & E2 & Hr2 & Hid2 & Hc2 & Ht2).
  exists s2, m2. rewrite Hid2. split_and!; [| | |done|].
  - unfold write_bytes. rewrite (bind_Ok _ _ _ s1 fd); [exact E2|].
    unfold open_or_create, try_catch. by rewrite (bind_Ok _ _ _ _ _ E1).
  - exact (file_at_kept s1 s2 _ m m2 Hat Hr2 Hid2 Ht2).
  - by rewrite Hc2, Hc.
  - by apply (one_more_trans s s1).
Qed.

(** ** The kind of an entry *)

Lemma entry_info_ok s path id m :
  ws_role w ≠ None → resolves (tree s) path (ws_id w) = Some id → tree s id = Some m →
  ∃ s' c, entry_info (ws_id w) (ws_role w) (ws_pattern w) now (ws_load_remote w) path s
      = (s', Ok (to_stats m c)) ∧ ft_quiet s s'.
Proof.
  intros Hrole Hp Hm.
  destruct (get_manifest_from_path_ok (ws_id w) (ws_pattern w) now (ws_load_remote w) s path id m Hp Hm)
    as (s' & c & E & Hq).
  exists s', c. split; [|done]. unfold entry_info.
  rewrite (bind_Ok _ _ _ s tt); [by rewrite (bind_Ok _ _ _ _ _ E)|].
  unfold check_read_rights, raise_if. by rewrite bool_decide_eq_false_2.
Qed.
Lemma is_dir_ok s path id m :
  ws_role w ≠ None → resolves (tree s) path (ws_id w) = Some id → tree s id = Some m →
  (∀ u, m ≠ LUser u) →
  ∃ s', is_dir now w path s = (s', Ok (negb (is_file_manifest m))) ∧ ft_quiet s s'.
Proof.
  intros Hrole Hp Hm Hu. destruct (entry_info_ok s path id m Hrole Hp Hm) as (s' & c & E & Hq).
  exists s'. split; [|done]. unfold is_dir, info_type.
  rewrite (bind_Ok _ _ _ s' (if is_file_manifest m then FILE else FOLDER)).
  - by destruct m.
  - rewrite (bind_Ok _ _ _ _ _ E). destruct m as [f|f|u]; [done|done|by destruct (Hu u)].
Qed.

(** ** [open_file] *)

(** Opening what is there, in a valid binary mode: the write right is asked for only
    when there is a "w" in the mode, as it is given. *)
Lemma open_file_ok s path m mode fd0 f0 :
  file_at s path m → ws_role w ≠ None →
  (raw_mode_has "w"%char mode = true → role_in (ws_role w) WRITE_RIGHT_ROLES = true) →
  raw_mode_has "x"%char mode = false → workspace_file fd0 mode = Ok f0 → mode_has "b" (wfi_mode f0) = true →
  ∃ s' f, open_file local_author now w path mode s = (s', Ok f) ∧
    stands_for (ws_fresh w) (lf_id m) (wfi_fd f) (f, s') (ref_open (wfi_mode f0) (bytes_of s m)).
Proof.
  intros [Hp Hr] Hread Hw Hx Hmode Hbin.
  destruct (entry_info_ok s path _ _ Hread Hp (fy_current _ _ _ Hr)) as (s1 & c & E1 & Hq1).
  assert (file_at s1 path m) as Hat1.
  { split; [|by eapply ready_quiet]. by rewrite (resolves_ext (tree s)) by (intros; by apply tree_quiet). }
  destruct (file_open_ok s1 path m (raw_mode_has "w"%char mode) Hat1 Hread Hw)
    as (s2 & fd & E2 & Hinv2 & Hc2 & _).
  destruct (mode_kinds _ _ _ Hmode) as [Ef0 _].
  assert (workspace_file fd mode = Ok (mkWorkspaceFile false false false false fd 0 INIT (wfi_mode f0)))
    as Ef.
  { revert Hmode. unfold workspace_file. destruct (negb _); [done|]. destruct (existsb _ _); [done|].
    by intros [= <-]. }
  destruct (ainit_ok now (ws_fresh w) (ws_key w) digest (ws_download w) 0 1 ltac:(lia) (lf_id m) fd mode
    _ s2 m Ef Hbin eq_refl Hinv2) as ([f s3] & E3 & Hs3).
  rewrite Hc2, (content_quiet _ _ _ (fq_storage _ _ Hq1)) in Hs3.
  exists s3, f. split.
  - unfold open_file. rewrite (bind_Ok _ _ _ s2 (Some fd)).
    + cbn [of_option]. rewrite (bind_Ok _ _ _ s2 fd) by done. unfold lift_result. rewrite Ef.
      rewrite (bind_Ok _ _ _ s2 (mkWorkspaceFile false false false false fd 0 INIT (wfi_mode f0))) by done.
      unfold initialized. by rewrite E3.
    + unfold open_descriptor. rewrite Hx. rewrite (bind_Ok _ _ _ s1 true).
      * cbn [negb andb]. by rewrite (bind_Ok _ _ _ _ _ E2).
      * unfold exists_path, try_catch. by rewrite (bind_Ok _ _ _ _ _ E1).
  - assert (wfi_fd f = fd) as Hfd by by inversion Hs3. by rewrite Hfd.
Qed.

(** ** Removing a name *)

(** The folder loses this name, and nothing else changes. *)
Definition name_removed (s s' : FTState) (pid : EntryID) (parent : LocalFolderish) (name : EntryName)
    : Prop :=
  (∃ parent', tree s' pid = Some (LFolderish parent') ∧ fd_children parent' = delete name (fd_children parent) ∧
     fd_base parent' = fd_base parent) ∧
  (∀ e, e ≠ pid → tree s' e = tree s e).
Lemma update_parent_remove s pid parent name :
  fd_id parent = pid →
  ∃ s', update_parent (ws_pattern w) now parent [(name, None)] s = (s', Ok tt) ∧
    ft_drawn s' = ft_drawn s ∧ name_removed s s' pid parent name.
Proof.
  intros Hpid.
  destruct (evolve_children_ok (ws_pattern w) now parent [(name, None)]) as (parent' & Eev & Hc & Hb & _).
  { intros n id n' [= -> ?]%list_elem_of_singleton. }
  cbn in Hc.
  destruct (set_manifest_current s pid (LFolderish parent') ∅) as (s1 & E1 & Ht1 & Hd1 & _).
  exists s1. split_and!; [|done|].
  - unfold update_parent, mbind, stM_bind, lift_result. by rewrite Eev, Hpid.
  - split.
    + exists parent'. split_and!; [by rewrite Ht1, decide_True|done|done].
    + intros e He. by rewrite Ht1, decide_False.
Qed.
Lemma unlink_ok s path name pid parent m :
  EntryProperties.writable (ws_id w) (ws_role w) s path pid parent →
  fd_children parent !! name = Some (lf_id m) → tree s (lf_id m) = Some (LFile m) →
  ∃ s', unlink now w (path ++ [name]) s = (s', Ok tt) ∧ name_removed s s' pid parent name.
Proof.
  intros [Hrole Hpath Hparent Hpid Hinj] Hname Hm.
  destruct (lock_parent_ok (ws_id w) (ws_pattern w) now (ws_load_remote w) s path name pid parent (Some (LFile m)))
    as (s1 & E1 & Hq); [done|done|rewrite Hname; eauto|].
  destruct (update_parent_remove s1 pid parent name Hpid) as (s2 & E2 & _ & Hrm & Hoth).
  exists (mkFTState (ft_storage s2) (ft_write_count s2) (ft_drawn s2) (fd_id parent :: ft_events s2)). split.
  - unfold unlink, file_delete.
    rewrite (bind_Ok _ _ s (mkFTState (ft_storage s2) (ft_write_count s2) (ft_drawn s2)
      (fd_id parent :: ft_events s2)) (lm_id (LFile m))); [reflexivity|].
    rewrite (bind_Ok _ _ _ _ _ (check_write_rights_ok _ s Hrole)), (bind_Ok _ _ _ _ _ E1).
    cbn [of_option]. rewrite (bind_Ok _ _ _ s1 (LFile m)) by done. cbn [is_file_manifest negb].
    rewrite (bind_Ok _ _ _ _ _ (raise_if_false _ _)).
    rewrite (bind_Ok _ _ _ s1 name) by (unfold lift_result, path_name; by rewrite last_snoc).
    rewrite (bind_Ok _ _ _ _ _ E2). reflexivity.
  - split; [exact Hrm|]. intros e He. etrans; [by apply Hoth|]. apply (tree_quiet _ _ _ Hq).
Qed.
End paths.

(** ** Copies from a workspace to another *)

Section copy.
Context (local_author : DeviceID) (now : DateTime) (digest : bytes → HashDigest)
  (cache_size : Z) (fuel : nat) (Hfuel : (0 < fuel)%nat).
Context (w from : Workspace) `{!Inj (=) (=) (ws_fresh w), !Inj (=) (=) (ws_fresh from)}.
Abbreviation loop := (copy_loop local_author now digest cache_size fuel w from false).

(** What is copied after [n] bytes. *)
Lemma written_at_end (c : bytes) (n : nat) (L : Z) :
  0 < L → (n <= length c)%nat → 
  written_at (take n c) (take (Z.to_nat L) (drop n c)) (Z.of_nat n) true
  = take (n + Z.to_nat L) c.
Proof.
  clear Hfuel. intros HL Hn. unfold written_at. rewrite (proj2 (Z.leb_le 0 (Z.of_nat n))) by lia. cbn [andb].
  assert (resize_to (take n c) (Z.of_nat n) = take n c) as ->.
  { unfold resize_to. rewrite Nat2Z.id, take_app_le by (rewrite length_take; lia).
    rewrite take_ge; [done|]. rewrite length_take. lia. }
  rewrite <-take_take_drop. unfold write_result.
  destruct (take (Z.to_nat L) (drop n c)) as [|b data] eqn:E; [by rewrite app_nil_r|].
  rewrite (proj2 (Z.ltb_ge (Z.of_nat n) 0)) by lia. unfold write_at.
  rewrite Nat2Z.id, take_app_le, (take_ge (take n c)) by (rewrite length_take; lia).
  rewrite drop_ge by (rewrite length_take; lia). by rewrite app_nil_r.
Qed.

(** The states of the two workspaces during the copy: the source has its content,
    the target the first [n] bytes of it. *)
Record copying (source target : FsPath) (sm tm : LocalFileManifest) (c : bytes) (n : nat)
    (s : FTState * FTState) : Prop := {
  cp_source : file_at from s.2 source sm;
  cp_content : bytes_of s.2 sm = c;
  cp_target : file_at w s.1 target tm;
  cp_copied : bytes_of s.1 tm = take n c }.
Lemma copy_loop_ok turns source tpath tname L k sm tm c s :
  0 < L → 0 <= k → ws_role from ≠ None → role_in (ws_role w) WRITE_RIGHT_ROLES = true →
  copying source (tpath ++ [tname]) sm tm c (Z.to_nat (k * L)) s →
  Z.of_nat (length c) <= (k + Z.of_nat turns - 1) * L → (0 < turns)%nat →
  ∃ s' tm', loop turns source (tpath ++ [tname]) L k s = (s', Ok tt) ∧ lf_id tm' = lf_id tm ∧
    copying source (tpath ++ [tname]) sm tm' c (length c) s' ∧
    (∀ e, e ≠ lf_id tm → tree s'.1 e = tree s.1 e) ∧ (∀ e, tree s'.2 e = tree s.2 e).
Proof.
  intros HL Hk Hrf Hrw. revert k Hk tm s. induction turns as [|turns IH]; intros k Hk tm [s o] Hcp Hlen Ht; [lia|].
  clear Ht. cbn [copy_loop]. destruct Hcp as [Hsrc Hc Htgt Hcopied]. cbn [fst snd] in *.
  destruct (read_bytes_ok now cache_size fuel from o source sm L (k * L) Hfuel Hsrc Hrf)
    as (o1 & E1 & Hsrc1 & Hc1 & Hto1).
  set (buff := take (Z.to_nat L) (drop (Z.to_nat (k * L)) c)).
  assert (in_source false (read_bytes now cache_size fuel from source L (k * L)) (s, o) = ((s, o1), Ok buff))
    as E1'.
  { unfold in_source. rewrite E1. unfold read_result. cbn [andb default from_option].
    rewrite (proj2 (Z.ltb_ge L 0)), (proj2 (Z.ltb_ge (k * L) 0)), Hc by nia. done. }
  rewrite (bind_Ok _ _ _ _ _ E1').
  assert (Z.to_nat ((k + 1) * L) = Z.to_nat (k * L) + Z.to_nat L)%nat as Hnext.
  { rewrite Z.mul_add_distr_r, Z2Nat.inj_add by nia. lia. }
  case_bool_decide as Hb.
  - (* the end of the source *)
    assert (length c <= Z.to_nat (k * L))%nat as Hend.
    { apply (f_equal length) in Hb. unfold buff in Hb. rewrite length_take, length_drop in Hb. cbn in Hb. lia. }
    exists (s, o1), tm. split_and!; try done. split; cbn [fst snd]; [done|congruence|done|].
    rewrite Hcopied, !take_ge by lia. done.
  - assert (Z.to_nat (k * L) < length c)%nat as Hlt.
    { destruct (decide (Z.to_nat (k * L) < length c)%nat); [done|]. destruct Hb. unfold buff.
      rewrite drop_ge by lia. by rewrite take_nil. }
    destruct (write_bytes_path_ok local_author now digest w s tpath tname tm buff (k * L) true Htgt Hrw)
      as (s1 & tm1 & E2 & Htgt1 & Hid1 & Hc2 & Ht1).
    assert (in_self (write_bytes local_author now digest w (tpath ++ [tname]) buff (k * L) true) (s, o1)
      = ((s1, o1), Ok (Z.of_nat (length buff)))) as E2' by (unfold in_self; by rewrite E2).
    rewrite (bind_Ok _ _ _ _ _ E2').
    destruct (IH (k + 1) ltac:(lia) tm1 (s1, o1)) as (s' & tm' & E3 & Hid' & Hcp' & Hts & Hto).
    + split; cbn [fst snd]; [done|congruence|done|].
      rewrite Hc2, Hcopied. rewrite <-(Z2Nat.id (k * L)) at 2 by nia. unfold buff.
      rewrite written_at_end by lia. by rewrite Hnext.
    + rewrite Nat2Z.inj_succ in Hlen. lia.
    + rewrite Nat2Z.inj_succ in Hlen. destruct turns; [|lia]. cbn in Hlen. nia.
    + exists s', tm'. cbn [fst snd] in *. split_and!; [done|congruence|done| |].
      * intros e He. rewrite Hts by congruence. by apply Ht1.
      * intros e. rewrite Hto. apply Hto1.
Qed.

Lemma copyfile_ok turns source tpath tname pid parent L sm c s :
  0 < L → ws_role from ≠ None → Z.of_nat (length c) <= (Z.of_nat turns - 1) * L → (0 < turns)%nat →
  file_at from s.2 source sm → bytes_of s.2 sm = c → free_name w s.1 tpath tname pid parent →
  ∃ s' tm, copyfile local_author now digest cache_size fuel w from false turns source
      (tpath ++ [tname]) L false s = (s', Ok tt) ∧
    copying source (tpath ++ [tname]) sm tm c (length c) s' ∧ tree s.1 (lf_id tm) = None ∧
    one_more s.1 s'.1 tname pid (lf_id tm) parent ∧ (∀ e, tree s'.2 e = tree s.2 e).
Proof.
  intros HL Hrf Hlen Ht Hsrc Hc Hfree. destruct s as [s o]. cbn [fst snd] in *.
  destruct (touch_ok local_author now w s tpath tname pid parent false Hfree)
    as (s1 & tm & E1 & Htgt & Hempty & Hnew & Ht1).
  destruct (copy_loop_ok turns source tpath tname L 0 sm tm c (s1, o)) as (s2 & tm2 & E2 & Hid2 & Hcp & Hts & Hto);
    [done|lia|done|apply Hfree|by split|lia|done|].
  exists s2, tm2. unfold copyfile. 
  assert (in_self (touch local_author now w (tpath ++ [tname]) false) (s, o) = ((s1, o), Ok tt)) as E1'
    by (unfold in_self; by rewrite E1).
  rewrite (bind_Ok _ _ _ _ _ E1'). rewrite Hid2. split_and!; try done.
  by apply (one_more_trans s s1).
Qed.
End copy.
