(* ===== verification/WorkspacePathsProperties.v ===== *)
(** What the operations of a workspace on paths do: a write followed by a read, a
    move of a file to another workspace, and the modes of [open_file] that the
    rights of the user do not cover. *)

From Stdlib Require Import Ascii.
From S2P Require Import Prelude PyString Types ApiManifest Chunk LocalManifest FileOperations.
From S2P Require Import FileContent Storage FileTransactions FileRefinement FileProperties Merging.
From S2P Require Import EntryTransactions EntryProperties WorkspaceFile WorkspaceFileProperties.
From S2P Require Import WorkspacePaths.

Import Byte.

(** ** What there is under a path *)

Section under.
Context (w : Workspace).

(** A file with this content, or nothing, where a file may be created. *)
Inductive under (s : FTState) (path : FsPath) (name : EntryName) : bytes → Prop :=
  | under_file m : file_at w s (path ++ [name]) m → under s path name (bytes_of s m)
  | under_nothing pid parent : free_name w s path name pid parent → under s path name [].

(** The files that the path does not lead to are the same, and a path that led
    somewhere still leads there. *)
Record others_kept (s s' : FTState) (path : FsPath) : Prop := {
  ok_files e m : tree s e = Some (LFile m) → resolves (tree s') path (ws_id w) ≠ Some e →
    tree s' e = tree s e;
  ok_paths q e : resolves (tree s) q (ws_id w) = Some e → resolves (tree s') q (ws_id w) = Some e }.

(** Every folder and every file of the tree are what they were, but the data of one file. *)
Lemma others_kept_file s s' path m m' :
  file_at w s path m → file_at w s' path m' → lf_id m' = lf_id m →
  (∀ e, e ≠ lf_id m → tree s' e = tree s e) → others_kept s s' path.
Proof.
  intros [Hp Hr] [Hp' Hr'] Hid Ht. split.
  - intros e x Hx Hne. apply Ht. congruence.
  - intros q e <-. apply resolves_same. intros e'.
    destruct (decide (e' = lf_id m)) as [->|]; [|left; by apply Ht]. right. exists m, m'. split.
    + apply (fy_current _ _ _ Hr).
    + rewrite <-Hid. apply (fy_current _ _ _ Hr').
Qed.
Lemma others_kept_new s s' path name pid parent m :
  free_name w s path name pid parent → file_at w s' (path ++ [name]) m → tree s (lf_id m) = None →
  one_more s s' name pid (lf_id m) parent → others_kept s s' (path ++ [name]).
Proof.
  intros [Hw Hname _ _] [Hp' _] Hnew (Hne & (parent' & Hparent' & Hc) & Ht). split.
  - intros e x Hx Hd. apply Ht; [|congruence]. intros ->.
    pose proof (wr_parent _ _ _ _ _ _ Hw). congruence.
  - intros q e. apply resolves_mono. intros e' f Hf.
    destruct (decide (e' = pid)) as [->|Hpid].
    + exists parent'. split; [done|]. rewrite (wr_parent _ _ _ _ _ _ Hw) in Hf. injection Hf as <-.
      rewrite Hc. by apply insert_subseteq.
    + exists f. split; [|done]. rewrite Ht; [done|done|congruence].
Qed.
Lemma others_kept_read s s1 s2 path :
  others_kept s s1 path → (∀ e, tree s2 e = tree s1 e) → others_kept s s2 path.
Proof.
  intros [Hf Hp] Ht. assert (∀ q, resolves (tree s2) q (ws_id w) = resolves (tree s1) q (ws_id w)) as Hr
    by (intros; by apply resolves_ext).
  split; intros *; rewrite Hr; [rewrite Ht; apply Hf|apply Hp].
Qed.
End under.

(** What [read_bytes] gives of a file with this content. *)
Definition read_back (c : bytes) (size offset : Z) : bytes :=
  let n := Z.of_nat (length c) in
  take (Z.to_nat (if size <? 0 then n else size)) (drop (Z.to_nat (if offset <? 0 then n else offset)) c).

(** C13: a write by path and then a read by path. Where the path leads to a file
    whose data is local, or to nothing in a folder where the user may write,
    [write_bytes] ends and says how much it wrote; then [read_bytes] ends and gives
    the part that is asked for of the old content, cut at the offset when
    [truncate] says so, with the data written at the offset, or at the end when it is
    negative. All the other files are untouched and all the paths still lead where
    they led. *)
Theorem path_write_read local_author now digest cache_size fuel w s path name c data offset truncate
    size roffset (Hfresh : Inj (=) (=) (ws_fresh w)) (Hfuel : (0 < fuel)%nat)
    (Hrole : role_in (ws_role w) WRITE_RIGHT_ROLES = true) (Hunder : under w s path name c) :
  ∃ s1 s2,
    write_bytes local_author now digest w (path ++ [name]) data offset truncate s
      = (s1, Ok (Z.of_nat (length data))) ∧
    read_bytes now cache_size fuel w (path ++ [name]) size roffset s1
      = (s2, Ok (read_back (written_at c data offset truncate) size roffset)) ∧
    others_kept w s s2 (path ++ [name]).
Proof.
  assert (ws_role w ≠ None) as Hread by (intros E; by rewrite E in Hrole).
  assert (∃ s1 m, write_bytes local_author now digest w (path ++ [name]) data offset truncate s
      = (s1, Ok (Z.of_nat (length data))) ∧ file_at w s1 (path ++ [name]) m ∧
      bytes_of s1 m = written_at c data offset truncate ∧ others_kept w s s1 (path ++ [name]))
    as (s1 & m & E1 & Hat & Hc & Hkept).
  { destruct Hunder as [m Hat|pid parent Hfree].
    - destruct (write_bytes_path_ok local_author now digest w s path name m data offset truncate Hat Hrole)
        as (s1 & m1 & E1 & Hat1 & Hid1 & Hc1 & Ht1).
      exists s1, m1. split_and!; try done. by eapply (others_kept_file w s s1 _ m m1).
    - destruct (write_bytes_new_ok local_author now digest w s path name pid parent data offset truncate Hfree)
        as (s1 & m1 & E1 & Hat1 & Hc1 & Hnew & Hmore).
      exists s1, m1. split_and!; try done. by eapply (others_kept_new w). }
  destruct (read_bytes_ok now cache_size fuel w s1 _ m size roffset Hfuel Hat Hread) as (s2 & E2 & _ & _ & Ht2).
  exists s1, s2. split_and!; [done| |by eapply others_kept_read].
  rewrite E2, Hc. done.
Qed.

(** C14: a move of a file to another workspace. The user may write in both, the
    source is a file whose data is local, and the name of the target is free. The
    blocks are copied one after the other until nothing is left, so that with turns
    enough for the size of the file the move ends: the target is a file with the
    whole content, in blocks stored locally, the source has no longer its name, and
    every other entry of the two workspaces is the same. *)
Theorem move_between_workspaces local_author now digest cache_size fuel w from turns depth s
    spath sname spid sparent sm tpath tname tpid tparent
    (Hfresh : Inj (=) (=) (ws_fresh w)) (Hfrom : Inj (=) (=) (ws_fresh from)) (Hfuel : (0 < fuel)%nat)
    (Hsource : file_at from s.2 (spath ++ [sname]) sm)
    (Hname : fd_children sparent !! sname = Some (lf_id sm))
    (Hparent : EntryProperties.writable (ws_id from) (ws_role from) s.2 spath spid sparent)
    (Htarget : free_name w s.1 tpath tname tpid tparent)
    (Hturns : Z.of_nat (length (bytes_of s.2 sm)) <= (Z.of_nat turns - 1) * DEFAULT_BLOCK_SIZE)
    (Hone : (0 < turns)%nat) :
  ∃ s' tm,
    move local_author now digest cache_size fuel w from false turns depth (spath ++ [sname])
      (tpath ++ [tname]) s = (s', Ok tt) ∧
    file_at w s'.1 (tpath ++ [tname]) tm ∧ bytes_of s'.1 tm = bytes_of s.2 sm ∧
    others_kept w s.1 s'.1 (tpath ++ [tname]) ∧
    name_removed s.2 s'.2 spid sparent sname.
Proof.
  destruct s as [s o]. cbn [fst snd] in *.
  pose proof (wr_role _ _ _ _ _ _ Hparent) as Hrole.
  assert (ws_role from ≠ None) as Hread by (intros E; by rewrite E in Hrole).
  destruct (is_dir_ok now from o (spath ++ [sname]) (lf_id sm) (LFile sm) Hread) as (o1 & E1 & Hq1);
    [apply Hsource|apply (fy_current _ _ _ (fa_ready _ _ _ _ Hsource))|done|].
  assert (file_at from o1 (spath ++ [sname]) sm) as Hsource1.
  { destruct Hsource as [Hp Hr]. split; [|by eapply ready_quiet].
    by rewrite (resolves_ext (tree o)) by (intros; by apply tree_quiet). }
  destruct (copyfile_ok local_author now digest cache_size fuel Hfuel w from turns (spath ++ [sname])
    tpath tname tpid tparent DEFAULT_BLOCK_SIZE sm (bytes_of o sm) (s, o1))
    as ([s2 o2] & tm & E2 & Hcopy & Hnew & Hmore & Ho2); try done.
  { exact (content_quiet _ _ _ (fq_storage _ _ Hq1)). }
  destruct Hcopy as [Hsource2 _ Htm Hcopied]. cbn [fst snd] in *.
  assert (∀ e, tree o2 e = tree o e) as Ht2.
  { intros e. rewrite Ho2. by apply tree_quiet. }
  destruct (unlink_ok now from o2 spath sname spid sparent sm) as (o3 & E3 & Hrm & Hoth).
  { destruct Hparent as [H1 H2 H3 H4 H5]. split; [done| |by rewrite Ht2|done|done].
    by rewrite (resolves_ext (tree o)). }
  { done. }
  { rewrite Ht2. apply (fy_current _ _ _ (fa_ready _ _ _ _ Hsource)). }
  exists (s2, o3), tm. cbn [fst snd]. split_and!; [|done| | |].
  - unfold move, move_copy.
    rewrite (bind_Ok _ _ _ (s, o1) false) by (unfold in_source, source_ws; by rewrite E1).
    rewrite (bind_Ok _ _ _ _ _ E2). unfold in_source, source_ws. by rewrite E3.
  - rewrite Hcopied. apply take_ge. lia.
  - by eapply others_kept_new.
  - split; [exact Hrm|]. intros e He. by rewrite Hoth.
Qed.

(** C37: what a reader of a workspace can do to its files. [write_bytes] on a path is
    refused, whatever is there, and nothing changes; but [open_file] asks for no more
    than the right to read in any mode that has neither "w" nor "x" as it is written,
    and what it gives in a mode such as "r+b" or "ab" takes the writes: the file of
    the path has then the new content. *)
Theorem reader_writes_by_file local_author now digest w s path m mode f0 data offset
    truncate (Hfresh : Inj (=) (=) (ws_fresh w))
    (Hrole : ws_role w = Some READER) (Hat : file_at w s path m)
    (Hw : raw_mode_has "w"%char mode = false) (Hx : raw_mode_has "x"%char mode = false)
    (Hmode : workspace_file 0 mode = Ok f0) (Hbin : mode_has "b" (wfi_mode f0) = true) :
  write_bytes local_author now digest w path data offset truncate s = (s, Err FSReadOnlyError) ∧
  ∃ f s1, open_file local_author now w path mode s = (s1, Ok f) ∧
    let opened := ref_open (wfi_mode f0) (bytes_of s m) in
    (rf_writable opened = true →
       ∃ f2 s2 m2, file_write now (ws_fresh w) (ws_key w) digest (PyBytes data) (f, s1)
           = ((f2, s2), Ok (Z.of_nat (length data))) ∧
         lf_id m2 = lf_id m ∧ tree s2 (lf_id m) = Some (LFile m2) ∧
         bytes_of s2 m2 = rf_content (ref_op Documented (OpWrite data) opened).1).
Proof.
  split.
  { unfold write_bytes, open_or_create, try_catch, file_create, create_entry, check_write_rights,
      check_read_rights, mbind, stM_bind, raise_if. by rewrite Hrole. }
  destruct (open_file_ok local_author now digest w s path m mode 0 f0 Hat) as (s1 & f & E1 & Hs1);
    [by rewrite Hrole|by rewrite Hw|done..|].
  exists f, s1. split; [exact E1|]. intros opened Hwr.
  destruct (write_ok now (ws_fresh w) (ws_key w) digest (ws_download w) 0 1 ltac:(lia)
    (lf_id m) (wfi_fd f) (f, s1) opened data Hs1) as ([f2 s2] & E2 & Hs2).
  cbn [ref_op] in E2, Hs2. cbn [ref_op]. rewrite Hwr in *. cbn [negb snd] in E2.
  unfold run_op, fmap, stM_fmap in E2.
  destruct (file_write _ _ _ _ _ (f, s1)) as [x [n|e]] eqn:E3; [|discriminate E2].
  injection E2 as -> ->.
  inversion Hs2 as [r1 w1 a1 pos1 mode1 s' m2 c2 Hid Hinv Hc2 Ef]. subst.
  eexists _, _, m2. split_and!; [reflexivity|done| |done].
  rewrite <-Hid. apply (oo_current _ _ _ (fi_open _ _ _ _ Hinv)).
Qed.

(** ** Witnesses *)

(** The file of [FileProperties.ex_state], "a" in the root of the workspace. *)
Definition wp_root : LocalFolderish :=
  {| fd_base := BWorkspace (mkWorkspaceManifest FileProperties.ex_device 0 1 1 0 0 {[ "a"%string := 2%N ]});
     fd_need_sync := false; fd_updated := 0; fd_children := {[ "a"%string := 2%N ]};
     fd_confined_entries := ∅; fd_filtered_entries := ∅ |}.
Definition wp_ws_state : FTState :=
  mkFTState (mkStorage {[1%N := LFolderish wp_root; 2%N := LFile FileProperties.ex_file]} {[2%N := {[4%N]}]} ∅ None
    FileProperties.ex_chunks ∅ 0 ∅ 1) ∅ 0 [].
Definition wp_workspace (role : RealmRole) : Workspace :=
  mkWorkspace 1 (Some role) (λ _, false) FileProperties.ex_fresh EntryProperties.ex_load (λ _, Err FSRemoteError) [].
(** An empty workspace. *)
Definition wp_other_root : LocalFolderish :=
  {| fd_base := BWorkspace (mkWorkspaceManifest FileProperties.ex_device 0 1 1 0 0 ∅);
     fd_need_sync := false; fd_updated := 0; fd_children := ∅;
     fd_confined_entries := ∅; fd_filtered_entries := ∅ |}.
Definition wp_other_state : FTState :=
  mkFTState (mkStorage {[1%N := LFolderish wp_other_root]} ∅ ∅ None ∅ ∅ 0 ∅ 0) ∅ 0 [].

Lemma wp_file_at role : file_at (wp_workspace role) wp_ws_state ["a"%string] FileProperties.ex_file.
Proof.
  destruct FileProperties.ex_state_inv as [[Hfd Hcur Hwf Hst] Hd Hc Hdu Hp Hfr].
  split; [reflexivity|]. split; [reflexivity|exact Hwf|exact Hst|exact Hd|reflexivity|done|exact Hp|exact Hfr].
Qed.
Lemma wp_parent_writable role :
  role_in (Some role) WRITE_RIGHT_ROLES = true →
  EntryProperties.writable 1 (Some role) wp_ws_state [] 1 wp_root.
Proof.
  intros Hrole. split; [exact Hrole|reflexivity..|].
  intros n n' id H H'. cbn in H, H'. apply lookup_singleton_Some in H as [<- _], H' as [<- _]. done.
Qed.
Lemma wp_free_name : free_name (wp_workspace OWNER) wp_other_state [] "c" 1 wp_other_root.
Proof. split; [by split|done..]. Qed.

Lemma path_write_read_witness :
  ∃ s1 s2,
    write_bytes FileProperties.ex_device 5 (λ d, d) (wp_workspace CONTRIBUTOR) ["a"%string] [x7a; x79] 3 true wp_ws_state
      = (s1, Ok 2) ∧
    read_bytes 5 0 1 (wp_workspace CONTRIBUTOR) ["a"%string] (-1) 0 s1
      = (s2, Ok [x61; x62; x63; x7a; x79]).
Proof.
  destruct (path_write_read FileProperties.ex_device 5 (λ d, d) 0 1 (wp_workspace CONTRIBUTOR) wp_ws_state [] "a"
    (bytes_of wp_ws_state FileProperties.ex_file) [x7a; x79] 3 true (-1) 0) as (s1 & s2 & E1 & E2 & _).
  - exact FileProperties.ex_fresh_inj.
  - lia.
  - reflexivity.
  - apply under_file. exact (wp_file_at CONTRIBUTOR).
  - exists s1, s2. split; [exact E1|]. etrans; [exact E2|]. vm_compute. reflexivity.
Defined.
Lemma move_between_workspaces_witness :
  ∃ s' tm,
    move FileProperties.ex_device 5 (λ d, d) 0 1 (wp_workspace OWNER) (wp_workspace MANAGER) false 2 0
      ["a"%string] ["c"%string] (wp_other_state, wp_ws_state) = (s', Ok tt) ∧
    file_at (wp_workspace OWNER) s'.1 ["c"%string] tm ∧
    bytes_of s'.1 tm = [x61; x62; x63; x64; x65; x66; x67; x68; x69; x6a].
Proof.
  destruct (move_between_workspaces FileProperties.ex_device 5 (λ d, d) 0 1 (wp_workspace OWNER) (wp_workspace MANAGER)
    2 0 (wp_other_state, wp_ws_state) [] "a" 1 wp_root FileProperties.ex_file [] "c" 1 wp_other_root)
    as (s' & tm & E & Hat & Hc & _).
  - exact FileProperties.ex_fresh_inj.
  - exact FileProperties.ex_fresh_inj.
  - lia.
  - exact (wp_file_at MANAGER).
  - reflexivity.
  - exact (wp_parent_writable MANAGER eq_refl).
  - exact wp_free_name.
  - vm_compute. discriminate.
  - lia.
  - exists s', tm. split; [exact E|]. split; [exact Hat|]. rewrite Hc. vm_compute. reflexivity.
Defined.
(** The mode "r+b". *)
Lemma reader_writes_witness :
  ∃ f s1 f2 s2 m2,
    open_file FileProperties.ex_device 5 (wp_workspace READER) ["a"%string] "r+b" wp_ws_state = (s1, Ok f) ∧
    file_write 5 FileProperties.ex_fresh [] (λ d, d) (PyBytes [x7a]) (f, s1) = ((f2, s2), Ok 1) ∧
    tree s2 2%N = Some (LFile m2) ∧
    bytes_of s2 m2 = [x7a; x62; x63; x64; x65; x66; x67; x68; x69; x6a].
Proof.
  destruct (reader_writes_by_file FileProperties.ex_device 5 (λ d, d) (wp_workspace READER) wp_ws_state ["a"%string]
    FileProperties.ex_file "r+b" (mkWorkspaceFile false false false false 0 0 INIT ["r"; "+"; "b"]%char) [x7a] 0 false)
    as [_ (f & s1 & E1 & H)].
  - exact FileProperties.ex_fresh_inj.
  - reflexivity.
  - exact (wp_file_at READER).
  - reflexivity.
  - reflexivity.
  - reflexivity.
  - reflexivity.
  - destruct H as (f2 & s2 & m2 & E2 & _ & Hm2 & Hc2); [reflexivity|].
    exists f, s1, f2, s2, m2. split; [exact E1|]. split; [exact E2|]. split; [exact Hm2|].
    rewrite Hc2. vm_compute. reflexivity.
Defined.
