(* ===== verification/Handshake.v ===== *)
(** The handshake of a connection, on both sides: [guardata/api/protocol/handshake.py],
    [backendService/handshake.py] and the [_do_handshake] of
    [guardata/client/backend_connection/transport.py]. *)

From S2P Require Import Prelude Types Backend Certif BackendUser BackendOrganization Invite Trustchain.

(** ** Data *)

(** [ApiVersion], a named tuple; the versions of [guardata/api/version.py]. *)
Record ApiVersion := mkApiVersion { av_version : Z; av_revision : Z }.
#[export] Instance ApiVersion_eq_dec : EqDecision ApiVersion.
Proof. solve_decision. Defined.
Definition api_version_leb (x y : ApiVersion) : bool :=
  (av_version x <? av_version y)
  || ((av_version x =? av_version y) && (av_revision x <=? av_revision y)).
Definition API_V1_VERSION : ApiVersion := mkApiVersion 1 2.
Definition API_V2_VERSION : ApiVersion := mkApiVersion 2 0.

(** [HandshakeType] and [APIV1_HandshakeType], which are two classes. *)
Inductive HandshakeType :=
| AUTHENTICATED | INVITED
| APIV1_AUTHENTICATED | APIV1_ANONYMOUS | APIV1_ADMINISTRATION.
#[export] Instance HandshakeType_eq_dec : EqDecision HandshakeType.
Proof. solve_decision. Defined.
Inductive InvitationType := USER_INVITATION | DEVICE_INVITATION.
#[export] Instance InvitationType_eq_dec : EqDecision InvitationType.
Proof. solve_decision. Defined.

(** What the schemas of the answers load, in each version of the API. *)
Record AuthenticatedAnswer := mkAuthenticatedAnswer {
  aa_organization_id : OrganizationID;
  aa_device_id : DeviceID;
  aa_rvk : VerifyKey;
  aa_answer : bytes }.
Record InvitedAnswer := mkInvitedAnswer {
  ia_organization_id : OrganizationID;
  ia_invitation_type : InvitationType;
  ia_token : UUID }.
Inductive HandshakeAnswer :=
| HandshakeAuthenticatedAnswer (client_api_version : ApiVersion) (data : AuthenticatedAnswer)
| HandshakeInvitedAnswer (client_api_version : ApiVersion) (data : InvitedAnswer).
Inductive APIV1_HandshakeAnswer :=
| APIV1_HandshakeAuthenticatedAnswer (client_api_version : ApiVersion) (data : AuthenticatedAnswer)
| APIV1_HandshakeAnonymousAnswer (client_api_version : ApiVersion) (organization_id : OrganizationID)
    (rvk : option VerifyKey)
| APIV1_HandshakeAdministrationAnswer (client_api_version : ApiVersion) (token : string).
Inductive Answer := AnswerV2 (a : HandshakeAnswer) | AnswerV1 (a : APIV1_HandshakeAnswer).
Definition answer_type (a : Answer) : HandshakeType :=
  match a with
  | AnswerV2 (HandshakeAuthenticatedAnswer _ _) => AUTHENTICATED
  | AnswerV2 (HandshakeInvitedAnswer _ _) => INVITED
  | AnswerV1 (APIV1_HandshakeAuthenticatedAnswer _ _) => APIV1_AUTHENTICATED
  | AnswerV1 (APIV1_HandshakeAnonymousAnswer _ _ _) => APIV1_ANONYMOUS
  | AnswerV1 (APIV1_HandshakeAdministrationAnswer _ _) => APIV1_ADMINISTRATION
  end.

(** The exceptions: the family of [HandshakeError], the two other classes of
    [ProtocolError], and those that are not protocol errors. *)
Inductive HandshakeExn :=
| HandshakeError
| HandshakeFailedChallenge
| HandshakeBadAdministrationToken
| HandshakeBadIdentity
| HandshakeOrganizationExpired
| HandshakeRVKMismatch
| HandshakeRevokedDevice
| HandshakeAPIVersionError
| InvalidMessageError
| MessageSerializationError
| HsAssertionError
| HsTransportError
| HsDataError (e : DataError)
| OfBackend (e : BackendExn)
| OfInvite (e : InviteExn).
#[export] Instance HandshakeExn_eq_dec : EqDecision HandshakeExn.
Proof. solve_decision. Defined.
Definition is_handshake_error (e : HandshakeExn) : bool :=
  match e with
  | HandshakeError | HandshakeFailedChallenge | HandshakeBadAdministrationToken | HandshakeBadIdentity
  | HandshakeOrganizationExpired | HandshakeRVKMismatch | HandshakeRevokedDevice
  | HandshakeAPIVersionError => true
  | _ => false
  end.
Definition is_protocol_error (e : HandshakeExn) : bool :=
  match e with
  | InvalidMessageError | MessageSerializationError => true
  | _ => is_handshake_error e
  end.

(** The serializers of the messages, and the signature of [SigningKey.sign]. *)
Class HandshakeApi := {
  signing_key_sign : bytes → bytes → bytes;
  dumps_challenge : bytes → list ApiVersion → bytes;
  loads_challenge : bytes → result HandshakeExn (bytes * list ApiVersion);
  dumps_answer : Answer → bytes;
  loads_answer_version : bytes → result HandshakeExn ApiVersion;
  loads_answer : bytes → result HandshakeExn HandshakeAnswer;
  loads_apiv1_answer : bytes → result HandshakeExn APIV1_HandshakeAnswer;
  dumps_result : string → bytes;
  loads_result : bytes → result HandshakeExn string }.

(** [_settle_compatible_versions] *)
Fixpoint settle_loop (backend_versions client_versions : list ApiVersion)
    : result HandshakeExn (ApiVersion * ApiVersion) :=
  match client_versions with
  | [] => Err HandshakeAPIVersionError
  | cv :: client_versions =>
      match find (λ bv, av_version bv =? av_version cv) backend_versions with
      | Some bv => Ok (bv, cv)
      | None => settle_loop backend_versions client_versions
      end
  end.
Definition settle_compatible_versions (backend_versions client_versions : list ApiVersion)
    : result HandshakeExn (ApiVersion * ApiVersion) :=
  settle_loop backend_versions (rev (py_sorted api_version_leb client_versions)).

Section handshake.
Context `{CertifApi, HandshakeApi}.

(** ** [ServerHandshake] *)

Inductive HandshakeState := STALLED | CHALLENGE | ANSWER | RESULT.
#[export] Instance HandshakeState_eq_dec : EqDecision HandshakeState.
Proof. solve_decision. Defined.
Record ServerHandshake := mkServerHandshake {
  sh_challenge : option bytes;
  sh_answer : option Answer;
  sh_client_api_version : option ApiVersion;
  sh_backend_api_version : option ApiVersion;
  sh_state : HandshakeState }.
Definition new_server_handshake : ServerHandshake := mkServerHandshake None None None None STALLED.
Abbreviation serverM := (stM ServerHandshake HandshakeExn) (only parsing).
Definition server_versions : list ApiVersion := [API_V2_VERSION; API_V1_VERSION].
Definition set_sh_state (state : HandshakeState) (h : ServerHandshake) : ServerHandshake :=
  mkServerHandshake (sh_challenge h) (sh_answer h) (sh_client_api_version h)
    (sh_backend_api_version h) state.
Definition check_sh_state (states : list HandshakeState) : serverM unit :=
  state ← gets sh_state;
  raise_if (bool_decide (state ∉ states)) HandshakeError.

(** [build_challenge_req]; [challenge] is the random token. *)
Definition build_challenge_req (challenge : bytes) : serverM bytes :=
  _ ← check_sh_state [STALLED];
  _ ← modify (λ h, mkServerHandshake (Some challenge) (sh_answer h) (sh_client_api_version h)
        (sh_backend_api_version h) CHALLENGE);
  mret (dumps_challenge challenge server_versions).

(** [process_answer_req] *)
Definition load_versioned_answer (client_api_version : ApiVersion) (req : bytes)
    : result HandshakeExn Answer :=
  if av_version client_api_version =? 2 then AnswerV2 <$> loads_answer req
  else if av_version client_api_version =? 1 then AnswerV1 <$> loads_apiv1_answer req
  else Err HandshakeAPIVersionError.
Definition process_answer_req (req : bytes) : serverM unit :=
  _ ← check_sh_state [CHALLENGE];
  client_api_version ← lift_result (loads_answer_version req);
  data ← lift_result (load_versioned_answer client_api_version req);
  _ ← modify (λ h, mkServerHandshake (sh_challenge h) (Some data) (sh_client_api_version h)
        (sh_backend_api_version h) ANSWER);
  '(bv, cv) ← lift_result (settle_compatible_versions server_versions [client_api_version]);
  modify (λ h, mkServerHandshake (sh_challenge h) (sh_answer h) (Some cv) (Some bv) (sh_state h)).

(** The refusals: the text of the help is left out. *)
Definition build_bad_protocol_result_req : serverM bytes :=
  _ ← check_sh_state [ANSWER; CHALLENGE];
  _ ← modify (set_sh_state RESULT);
  mret (dumps_result "bad_protocol").
Definition build_bad_administration_token_result_req : serverM bytes :=
  _ ← check_sh_state [ANSWER];
  _ ← modify (set_sh_state RESULT);
  mret (dumps_result "bad_admin_token").
Definition build_bad_identity_result_req : serverM bytes :=
  _ ← check_sh_state [ANSWER];
  _ ← modify (set_sh_state RESULT);
  mret (dumps_result "bad_identity").
Definition build_organization_expired_result_req : serverM bytes :=
  _ ← check_sh_state [ANSWER];
  _ ← modify (set_sh_state RESULT);
  mret (dumps_result "organization_expired").
Definition build_rvk_mismatch_result_req : serverM bytes :=
  _ ← check_sh_state [ANSWER];
  _ ← modify (set_sh_state RESULT);
  mret (dumps_result "rvk_mismatch").
Definition build_revoked_device_result_req : serverM bytes :=
  _ ← check_sh_state [ANSWER];
  _ ← modify (set_sh_state RESULT);
  mret (dumps_result "revoked_device").

(** [build_result_req] *)
Definition check_challenge (verify_key : VerifyKey) (answer : bytes) (challenge : option bytes)
    : result HandshakeExn unit :=
  match key_verify verify_key answer with
  | None => Err HandshakeFailedChallenge
  | Some returned_challenge =>
      if bool_decide (Some returned_challenge ≠ challenge) then Err HandshakeFailedChallenge else Ok tt
  end.
Definition build_result_req (verify_key : option VerifyKey) : serverM bytes :=
  _ ← check_sh_state [ANSWER];
  answer ← gets sh_answer;
  challenge ← gets sh_challenge;
  _ ← match answer with
      | Some (AnswerV2 (HandshakeAuthenticatedAnswer _ data))
      | Some (AnswerV1 (APIV1_HandshakeAuthenticatedAnswer _ data)) =>
          match verify_key with
          | None => mthrow HandshakeError
          | Some verify_key => lift_result (check_challenge verify_key (aa_answer data) challenge)
          end
      | _ => mret tt
      end;
  _ ← modify (set_sh_state RESULT);
  mret (dumps_result "ok").

(** ** [do_handshake] *)

(** The contexts of [backendService/client_context.py]. *)
Record AuthenticatedContext := mkAuthenticatedContext {
  ac_organization_id : OrganizationID;
  ac_device_id : DeviceID;
  ac_human_handle : option HumanHandle;
  ac_profile : UserProfile;
  ac_public_key : bytes;
  ac_verify_key : VerifyKey }.
Inductive ClientContext :=
| AuthenticatedClientContext (c : AuthenticatedContext)
| InvitedClientContext (organization_id : OrganizationID) (invitation : Invitation)
| APIV1_AnonymousClientContext (organization_id : OrganizationID)
| APIV1_AdministrationClientContext.

(** What is read of the configuration. *)
Record HandshakeConfig := mkHandshakeConfig {
  spontaneous_organization_bootstrap : bool;
  administration_token : string }.

(** The handshake and the components of the server. *)
Record HsState := mkHsState {
  hs_server : ServerHandshake;
  hs_backend : Backend;
  hs_invites : Invites }.
Abbreviation hsM := (stM HsState HandshakeExn) (only parsing).
Definition on_handshake {A} (m : serverM A) : hsM A := λ s,
  let '(h, r) := m (hs_server s) in (mkHsState h (hs_backend s) (hs_invites s), r).
Definition on_backend {A} (m : stM Backend BackendExn A) : hsM A := λ s,
  let '(b, r) := m (hs_backend s) in
  (mkHsState (hs_server s) b (hs_invites s),
   match r with Ok a => Ok a | Err e => Err (OfBackend e) end).
Definition on_invites {A} (m : stM Invites InviteExn A) : hsM A := λ s,
  let '(i, r) := m (hs_invites s) in
  (mkHsState (hs_server s) (hs_backend s) i,
   match r with Ok a => Ok a | Err e => Err (OfInvite e) end).
Definition or_data_error {A} (r : result DataError A) : hsM A :=
  lift_result (match r with Ok a => Ok a | Err e => Err (HsDataError e) end).

(** [return None, result_req, ...] *)
Definition refuse (m : serverM bytes) : hsM (option ClientContext * bytes) :=
  result_req ← on_handshake m; mret (None, result_req).

Section answers.
Context (now : DateTime) (config : HandshakeConfig).

(** [expiration_date is not None and expiration_date <= pendulum_now()] *)
Definition date_passed (d : option DateTime) : bool :=
  match d with Some d => d <=? now | None => false end.

(** [_process_authenticated_answer]; the [None] of the first part is the handler of
    its exceptions. *)
Definition get_identity (a : AuthenticatedAnswer) : hsM (option (Organization * User * Device)) :=
  try_catch
    (organization ← on_backend (organization_get (aa_organization_id a));
     '(user, device) ← on_backend (get_user_with_device (aa_organization_id a) (aa_device_id a));
     mret (Some (organization, user, device)))
    (λ e,
      if bool_decide (e ∈ [OfBackend OrganizationNotFoundError; OfBackend UserNotFoundError;
                           OfBackend BKeyError])
      then mret None else mthrow e).
Definition process_authenticated_answer (a : AuthenticatedAnswer)
    : hsM (option ClientContext * bytes) :=
  identity ← get_identity a;
  match identity with
  | None => refuse build_bad_identity_result_req
  | Some (organization, user, device) =>
      if bool_decide (o_root_verify_key organization ≠ Some (aa_rvk a))
      then refuse build_rvk_mismatch_result_req
      else if date_passed (o_expiration_date organization)
      then refuse build_organization_expired_result_req
      else if date_passed (u_revoked_on user)
      then refuse build_revoked_device_result_req
      else
        u ← or_data_error (unsecure_load_user (u_user_certificate user));
        d ← or_data_error (unsecure_load_device (d_device_certificate device));
        let context := AuthenticatedClientContext (mkAuthenticatedContext (aa_organization_id a)
          (aa_device_id a) (u_human_handle user) (u_profile user) (uc_public_key u) (dc_verify_key d)) in
        result_req ← on_handshake (build_result_req (Some (dc_verify_key d)));
        mret (Some context, result_req)
  end.

(** [_process_invited_answer]: an organization, then an invitation, or [None]. *)
Definition get_organization (org : OrganizationID) : hsM (option Organization) :=
  try_catch (Some <$> on_backend (organization_get org))
    (λ e, if bool_decide (e = OfBackend OrganizationNotFoundError) then mret None else mthrow e).
Definition is_invitation_error (e : HandshakeExn) : bool :=
  bool_decide (e ∈ [OfInvite InvitationNotFoundError; OfInvite InvitationAlreadyDeletedError;
                    OfInvite InvitationInvalidStateError; OfInvite InvitationAlreadyMemberError]).
Definition get_invitation (a : InvitedAnswer) : hsM (option Invitation) :=
  try_catch (Some <$> on_invites (invite_info (ia_organization_id a) (ia_token a)))
    (λ e, if is_invitation_error e then mret None else mthrow e).
Definition expected_invitation (t : InvitationType) (i : Invitation) : bool :=
  match t, i with
  | USER_INVITATION, InviteUser _ _ | DEVICE_INVITATION, InviteDevice _ => true
  | _, _ => false
  end.
Definition process_invited_answer (a : InvitedAnswer) : hsM (option ClientContext * bytes) :=
  organization ← get_organization (ia_organization_id a);
  match organization with
  | None => refuse build_bad_identity_result_req
  | Some organization =>
      if date_passed (o_expiration_date organization)
      then refuse build_organization_expired_result_req
      else
        invitation ← get_invitation a;
        match invitation with
        | None => refuse build_bad_identity_result_req
        | Some invitation =>
            if negb (expected_invitation (ia_invitation_type a) invitation)
            then refuse build_bad_identity_result_req
            else
              result_req ← on_handshake (build_result_req None);
              mret (Some (InvitedClientContext (ia_organization_id a) invitation), result_req)
        end
  end.

(** [_apiv1_process_anonymous_answer] *)
Definition lazy_organization (org : OrganizationID) : hsM (option Organization) :=
  if spontaneous_organization_bootstrap config then
    _ ← try_catch (on_backend (organization_create org "" None))
          (λ e, if bool_decide (e = OfBackend OrganizationAlreadyExistsError)
                then mret tt else mthrow e);
    Some <$> on_backend (organization_get org)
  else mret None.
Definition apiv1_process_anonymous_answer (org : OrganizationID) (expected_rvk : option VerifyKey)
    : hsM (option ClientContext * bytes) :=
  found ← get_organization org;
  organization ← match found with Some o => mret (Some o) | None => lazy_organization org end;
  match organization with
  | None => refuse build_bad_identity_result_req
  | Some organization =>
      if date_passed (o_expiration_date organization)
      then refuse build_organization_expired_result_req
      else if bool_decide (is_Some expected_rvk)
              && bool_decide (o_root_verify_key organization ≠ expected_rvk)
      then refuse build_rvk_mismatch_result_req
      else
        result_req ← on_handshake (build_result_req None);
        mret (Some (APIV1_AnonymousClientContext org), result_req)
  end.

(** [_apiv1_process_administration_answer] *)
Definition apiv1_process_administration_answer (token : string) : hsM (option ClientContext * bytes) :=
  if bool_decide (token ≠ administration_token config)
  then refuse build_bad_administration_token_result_req
  else
    result_req ← on_handshake (build_result_req None);
    mret (Some APIV1_AdministrationClientContext, result_req).

Definition process_answer (a : Answer) : hsM (option ClientContext * bytes) :=
  match a with
  | AnswerV2 (HandshakeAuthenticatedAnswer _ data) => process_authenticated_answer data
  | AnswerV2 (HandshakeInvitedAnswer _ data) => process_invited_answer data
  | AnswerV1 (APIV1_HandshakeAnonymousAnswer _ org rvk) => apiv1_process_anonymous_answer org rvk
  | AnswerV1 (APIV1_HandshakeAdministrationAnswer _ token) =>
      apiv1_process_administration_answer token
  | AnswerV1 (APIV1_HandshakeAuthenticatedAnswer _ _) => mthrow HsAssertionError
  end.

(** [do_handshake]: [challenge] is the random token, [peer] what the transport
    receives once the request is sent, with [None] for a transport that is closed.
    The result is the context and the request that is sent last. *)
Definition exchange (challenge : bytes) (peer : bytes → option bytes)
    : hsM (option ClientContext * bytes) :=
  challenge_req ← on_handshake (build_challenge_req challenge);
  answer_req ← of_option HsTransportError (peer challenge_req);
  _ ← on_handshake (process_answer_req answer_req);
  answer ← gets (sh_answer ∘ hs_server);
  answer ← of_option HsAssertionError answer;
  process_answer answer.
Definition do_handshake (challenge : bytes) (peer : bytes → option bytes)
    : hsM (option ClientContext * bytes) :=
  _ ← modify (λ s, mkHsState new_server_handshake (hs_backend s) (hs_invites s));
  try_catch (exchange challenge peer)
    (λ e, if is_protocol_error e then refuse build_bad_protocol_result_req else mthrow e).
End answers.

(** ** The clients *)

(** The handshakes of the clients, with what they are built with. *)
Inductive ClientHandshake :=
| AuthenticatedClientHandshake (organization_id : OrganizationID) (device_id : DeviceID)
    (user_signkey : bytes) (root_verify_key : VerifyKey)
| InvitedClientHandshake (organization_id : OrganizationID) (invitation_type : InvitationType)
    (token : UUID)
| APIV1_AnonymousClientHandshake (organization_id : OrganizationID) (root_verify_key : option VerifyKey)
| APIV1_AdministrationClientHandshake (token : string).
Definition SUPPORTED_API_VERSIONS (k : ClientHandshake) : list ApiVersion :=
  match k with
  | AuthenticatedClientHandshake _ _ _ _ | InvitedClientHandshake _ _ _ => [API_V2_VERSION]
  | APIV1_AnonymousClientHandshake _ _ | APIV1_AdministrationClientHandshake _ => [API_V1_VERSION]
  end.

(** [load_challenge_req]: the challenge and the version of the client. *)
Definition load_challenge_req (k : ClientHandshake) (req : bytes)
    : result HandshakeExn (bytes * ApiVersion) :=
  '(challenge, supported_api_versions) ← loads_challenge req;
  '(_, client_api_version) ←
    settle_compatible_versions supported_api_versions (SUPPORTED_API_VERSIONS k);
  mret (challenge, client_api_version).
(** [process_challenge_req] *)
Definition answer_of (k : ClientHandshake) (challenge : bytes) (client_api_version : ApiVersion)
    : Answer :=
  match k with
  | AuthenticatedClientHandshake org device_id user_signkey rvk =>
      AnswerV2 (HandshakeAuthenticatedAnswer client_api_version
        (mkAuthenticatedAnswer org device_id rvk (signing_key_sign user_signkey challenge)))
  | InvitedClientHandshake org invitation_type token =>
      AnswerV2 (HandshakeInvitedAnswer client_api_version (mkInvitedAnswer org invitation_type token))
  | APIV1_AnonymousClientHandshake org rvk =>
      AnswerV1 (APIV1_HandshakeAnonymousAnswer client_api_version org rvk)
  | APIV1_AdministrationClientHandshake token =>
      AnswerV1 (APIV1_HandshakeAdministrationAnswer client_api_version token)
  end.
Definition process_challenge_req (k : ClientHandshake) (req : bytes) : result HandshakeExn bytes :=
  '(challenge, client_api_version) ← load_challenge_req k req;
  mret (dumps_answer (answer_of k challenge client_api_version)).

(** [process_result_req] *)
Definition result_error (result : string) : HandshakeExn :=
  if bool_decide (result = "bad_identity"%string) then HandshakeBadIdentity
  else if bool_decide (result = "organization_expired"%string) then HandshakeOrganizationExpired
  else if bool_decide (result = "rvk_mismatch"%string) then HandshakeRVKMismatch
  else if bool_decide (result = "revoked_device"%string) then HandshakeRevokedDevice
  else if bool_decide (result = "bad_admin_token"%string) then HandshakeBadAdministrationToken
  else InvalidMessageError.
Definition process_result_req (req : bytes) : result HandshakeExn unit :=
  result ← loads_result req;
  if bool_decide (result ≠ "ok"%string) then Err (result_error result) else mret tt.

(** [_do_handshake] of the transport of the client; the other exceptions go through. *)
Inductive ConnectionError :=
| BackendNotAvailable
| BackendConnectionRefused (e : HandshakeExn)
| BackendProtocolError (e : HandshakeExn)
| OtherError (e : HandshakeExn).
Definition connection_error (e : HandshakeExn) : ConnectionError :=
  if bool_decide (e = HsTransportError) then BackendNotAvailable
  else if is_handshake_error e then BackendConnectionRefused e
  else if is_protocol_error e then BackendProtocolError e
  else OtherError e.
Definition client_do_handshake (k : ClientHandshake) (challenge_req : bytes)
    (result_req : bytes → option bytes) : result ConnectionError unit :=
  let r :=
    answer_req ← process_challenge_req k challenge_req;
    result_req ← match result_req answer_req with
                 | Some result_req => Ok result_req
                 | None => Err HsTransportError
                 end;
    process_result_req result_req in
  match r with Ok a => Ok a | Err e => Err (connection_error e) end.
End handshake.

(** ** A client and the server *)

(** The two ends of a transport: what one sends the other receives, until one raises. *)
Definition connect `{CertifApi, HandshakeApi} (now : DateTime) (config : HandshakeConfig)
    (challenge : bytes) (k : ClientHandshake) (s : HsState)
    : HsState * result HandshakeExn (option ClientContext) * result ConnectionError unit :=
  let answer req := match process_challenge_req k req with Ok a => Some a | Err _ => None end in
  let '(s, r) := do_handshake now config challenge answer s in
  let result_req := match r with Ok (_, result_req) => Some result_req | Err _ => None end in
  (s, fst <$> r,
   client_do_handshake k (dumps_challenge challenge server_versions) (λ _, result_req)).
