(* ===== verification/HandshakeProperties.v ===== *)
(** What the handshake promises: the version the two sides agree on, who gets a
    context on the server, and what the client is told. *)

From S2P Require Import Prelude Types Backend Certif BackendUser BackendOrganization Invite Trustchain.
From S2P Require Import ClientServerExample InviteProperties Handshake.
Import Byte.

(** ** Versions *)

Lemma settle_loop_ok bvs cvs bv cv :
  settle_loop bvs cvs = Ok (bv, cv) →
  ∃ l1 l2, cvs = l1 ++ cv :: l2 ∧ find (λ b, av_version b =? av_version cv) bvs = Some bv ∧
    ∀ cv', cv' ∈ l1 → find (λ b, av_version b =? av_version cv') bvs = None.
Proof.
  induction cvs as [|c cvs IH]; cbn; [done|].
  destruct (find (λ b, av_version b =? av_version c) bvs) as [b|] eqn:E.
  - intros [= <- <-]. exists [], cvs. split_and!; [done|done|]. by intros ? ?%not_elem_of_nil.
  - intros (l1 & l2 & -> & Hf & Hl)%IH. exists (c :: l1), l2. split_and!; [done|done|].
    intros cv' [->|H]%elem_of_cons; auto.
Qed.
Lemma settle_loop_err bvs cvs e :
  settle_loop bvs cvs = Err e →
  e = HandshakeAPIVersionError ∧
  ∀ cv', cv' ∈ cvs → find (λ b, av_version b =? av_version cv') bvs = None.
Proof.
  induction cvs as [|c cvs IH]; cbn.
  - intros [= <-]. split; [done|]. by intros ? ?%not_elem_of_nil.
  - destruct (find _ bvs) as [b|] eqn:E; [done|]. intros [-> Hl]%IH. split; [done|].
    intros cv' [->|H]%elem_of_cons; auto.
Qed.
Definition shares_version (bvs : list ApiVersion) (cv : ApiVersion) : Prop :=
  ∃ bv, bv ∈ bvs ∧ av_version bv = av_version cv.
Lemma find_version bvs cv :
  find (λ b, av_version b =? av_version cv) bvs = None ↔ ¬ shares_version bvs cv.
Proof.
  split.
  - intros Hf (bv & Hin%list_elem_of_In & Hv). pose proof (find_none _ _ Hf _ Hin) as Hn.
    cbn in Hn. apply Z.eqb_neq in Hn. done.
  - intros Hn. destruct (find _ bvs) as [bv|] eqn:E; [|done]. destruct Hn.
    apply find_some in E as [Hin Hv%Z.eqb_eq]. exists bv. by rewrite list_elem_of_In.
Qed.
Lemma api_version_total x y : api_version_leb x y = true ∨ api_version_leb y x = true.
Proof.
  unfold api_version_leb. destruct x as [v r], y as [v' r']; cbn.
  destruct (Z.ltb_spec v v'), (Z.ltb_spec v' v), (Z.eqb_spec v v'), (Z.eqb_spec v' v),
    (Z.leb_spec r r'), (Z.leb_spec r' r); cbn; auto; lia.
Qed.
Lemma api_version_trans x y z :
  api_version_leb x y = true → api_version_leb y z = true → api_version_leb x z = true.
Proof.
  unfold api_version_leb. destruct x as [v r], y as [v' r'], z as [v'' r'']; cbn.
  destruct (Z.ltb_spec v v'), (Z.ltb_spec v' v''), (Z.ltb_spec v v''), (Z.eqb_spec v v'),
    (Z.eqb_spec v' v''), (Z.eqb_spec v v''), (Z.leb_spec r r'), (Z.leb_spec r' r''),
    (Z.leb_spec r r''); cbn; auto; lia.
Qed.

(** [_settle_compatible_versions] gives the greatest version of the client
    that has the major number of a version of the server, with this version of the
    server, the first of its list; it raises when there is none, and nothing else. *)
Theorem settle_versions bvs cvs :
  match settle_compatible_versions bvs cvs with
  | Ok (bv, cv) =>
      cv ∈ cvs ∧ bv ∈ bvs ∧ av_version bv = av_version cv ∧
      (∀ cv', cv' ∈ cvs → shares_version bvs cv' → api_version_leb cv' cv = true) ∧
      ∃ l1 l2, bvs = l1 ++ bv :: l2 ∧ Forall (λ b, av_version b ≠ av_version cv) l1
  | Err e => e = HandshakeAPIVersionError ∧ ∀ cv, cv ∈ cvs → ¬ shares_version bvs cv
  end.
Proof.
  unfold settle_compatible_versions.
  pose proof (py_sorted_sorted api_version_leb api_version_total api_version_trans cvs) as Hs.
  assert (∀ cv, cv ∈ rev (py_sorted api_version_leb cvs) ↔ cv ∈ cvs) as Hin.
  { intros cv. by rewrite list_elem_of_In, <-in_rev, <-list_elem_of_In, elem_of_py_sorted. }
  destruct (settle_loop _ _) as [[bv cv]|e] eqn:E.
  - apply settle_loop_ok in E as (l1 & l2 & Hl & Hf & Hnone).
    pose proof (find_some _ _ Hf) as [Hb%list_elem_of_In Hv%Z.eqb_eq].
    split_and!; [|done|done| |].
    + apply Hin. rewrite Hl. set_solver.
    + intros cv' Hcv'%Hin Hsh. rewrite Hl in Hcv'.
      apply elem_of_app in Hcv' as [H1|[->|H2]%elem_of_cons].
      * apply Hnone in H1. by apply find_version in H1.
      * destruct (api_version_total cv cv); done.
      * apply (f_equal (@rev _)) in Hl. rewrite rev_involutive, rev_app_distr in Hl. cbn in Hl.
        rewrite <-app_assoc in Hl. rewrite Hl in Hs.
        apply StronglySorted_app in Hs as (Hc & _ & _). apply Hc; [|set_solver].
        by rewrite list_elem_of_In, <-in_rev, <-list_elem_of_In.
    + clear Hs Hin Hnone Hl. induction bvs as [|b bvs IH]; [done|]. cbn in Hf.
      destruct (Z.eqb_spec (av_version b) (av_version cv)) as [Heq|Hne].
      * injection Hf as ->. by exists [], bvs.
      * destruct (IH Hf) as (m1 & m2 & -> & Hall); [by apply find_some in Hf as [?%list_elem_of_In _]|].
        exists (b :: m1), m2. split; [done|]. by constructor.
  - apply settle_loop_err in E as [-> Hnone]. split; [done|]. intros cv Hcv%Hin.
    apply find_version. by apply Hnone.
Qed.

(** ** What the server computes *)

Section server.
Context `{CertifApi, HandshakeApi} (now : DateTime) (config : HandshakeConfig).

(** The decision on an authenticated answer, up to the challenge: the refusal, or
    what the answer names. *)
Definition admission (b : Backend) (a : AuthenticatedAnswer)
    : result string (Organization * User * Device) :=
  let store := orgstore b (aa_organization_id a) in
  match be_organizations b !! aa_organization_id a, os_users store !! user_id (aa_device_id a),
        find_device store (aa_device_id a) with
  | Some o, Some u, Some d =>
      if bool_decide (o_root_verify_key o ≠ Some (aa_rvk a)) then Err "rvk_mismatch"%string
      else if date_passed now (o_expiration_date o) then Err "organization_expired"%string
      else if date_passed now (u_revoked_on u) then Err "revoked_device"%string
      else Ok (o, u, d)
  | _, _, _ => Err "bad_identity"%string
  end.
(** The context for them, or the exception of the certificates or of the challenge. *)
Definition context_of (a : AuthenticatedAnswer) (challenge : option bytes) (u : User) (d : Device)
    : result HandshakeExn AuthenticatedContext :=
  match unsecure_load_user (u_user_certificate u), unsecure_load_device (d_device_certificate d) with
  | Ok uc, Ok dc =>
      _ ← check_challenge (dc_verify_key dc) (aa_answer a) challenge;
      mret (mkAuthenticatedContext (aa_organization_id a) (aa_device_id a) (u_human_handle u)
        (u_profile u) (uc_public_key uc) (dc_verify_key dc))
  | Err e, _ | _, Err e => Err (HsDataError e)
  end.

(** The state once a result is built. *)
Definition resulted (s : HsState) : HsState :=
  mkHsState (set_sh_state RESULT (hs_server s)) (hs_backend s) (hs_invites s).
Record answered (s : HsState) (challenge : bytes) (a : Answer) : Prop := {
  an_state : sh_state (hs_server s) = ANSWER;
  an_answer : sh_answer (hs_server s) = Some a;
  an_challenge : sh_challenge (hs_server s) = Some challenge }.

Ltac refusal Hst :=
  unfold refuse, on_handshake, build_bad_identity_result_req, build_rvk_mismatch_result_req,
    build_organization_expired_result_req, build_revoked_device_result_req,
    build_bad_administration_token_result_req, build_bad_protocol_result_req, build_result_req, check_sh_state,
    raise_if, modify, gets, mbind, stM_bind; rewrite Hst; try done.

Lemma get_identity_eq s a :
  get_identity a s = (s, Ok (match be_organizations (hs_backend s) !! aa_organization_id a,
      os_users (orgstore (hs_backend s) (aa_organization_id a)) !! user_id (aa_device_id a),
      find_device (orgstore (hs_backend s) (aa_organization_id a)) (aa_device_id a) with
    | Some o, Some u, Some d => Some (o, u, d)
    | _, _, _ => None
    end)).
Proof.
  destruct s as [h b i]. unfold get_identity, try_catch, on_backend, organization_get,
    get_user_with_device, get_user, get_device, gets, of_option, mbind, stM_bind. cbn.
  destruct (be_organizations b !! _) as [o|]; [|done]. cbn.
  destruct (os_users _ !! _) as [u|]; [|done]. cbn.
  by destruct (find_device _ _) as [d|].
Qed.
Lemma process_authenticated_eq s challenge v a :
  answered s challenge (AnswerV2 (HandshakeAuthenticatedAnswer v a)) →
  process_authenticated_answer now a s =
  match admission (hs_backend s) a with
  | Err r => (resulted s, Ok (None, dumps_result r))
  | Ok (_, u, d) =>
      match context_of a (Some challenge) u d with
      | Err e => (s, Err e)
      | Ok c => (resulted s, Ok (Some (AuthenticatedClientContext c), dumps_result "ok"))
      end
  end.
Proof.
  intros [Hst Han Hch]. unfold process_authenticated_answer, admission.
  rewrite (bind_Ok _ _ _ _ _ (get_identity_eq s a)).
  destruct (be_organizations _ !! _) as [o|]; [|by refusal Hst].
  destruct (os_users _ !! _) as [u|]; [|by refusal Hst].
  destruct (find_device _ _) as [d|]; [|by refusal Hst].
  case_bool_decide; [by refusal Hst|]. destruct (date_passed now (o_expiration_date o)); [by refusal Hst|].
  destruct (date_passed now (u_revoked_on u)); [by refusal Hst|].
  unfold context_of, or_data_error, lift_result. 
  destruct (unsecure_load_user _) as [uc|e]; [|done].
  rewrite (bind_Ok _ _ _ s uc) by done. destruct (unsecure_load_device _) as [dc|e]; [|done].
  rewrite (bind_Ok _ _ _ s dc) by done.
  unfold on_handshake, build_result_req, check_sh_state, raise_if, modify, gets, lift_result, mbind, stM_bind,
    result_bind.
  rewrite Hst, Han, Hch. destruct s as [h b i].
  destruct (check_challenge _ _ _) as [[]|e]; done.
Qed.

(** The invitation that an answer names, once the organization is there. *)
Definition invitation_for (s : HsState) (a : InvitedAnswer) : result string Invitation :=
  match be_organizations (hs_backend s) !! ia_organization_id a with
  | None => Err "bad_identity"%string
  | Some o =>
      if date_passed now (o_expiration_date o) then Err "organization_expired"%string
      else
        match find_invitation (invite_store (hs_invites s) (ia_organization_id a)) (ia_token a) None with
        | Ok (i, _) => if expected_invitation (ia_invitation_type a) i then Ok i
                       else Err "bad_identity"%string
        | Err _ => Err "bad_identity"%string
        end
  end.
Lemma get_organization_eq s org :
  get_organization org s = (s, Ok (be_organizations (hs_backend s) !! org)).
Proof.
  destruct s as [h b i]. unfold get_organization, try_catch, on_backend, organization_get, gets,
    of_option, fmap, stM_fmap, mbind, stM_bind. cbn. by destruct (be_organizations b !! org).
Qed.
Lemma find_invitation_errors o token e :
  find_invitation o token None = Err e → e = InvitationNotFoundError ∨ e = InvitationAlreadyDeletedError.
Proof.
  unfold find_invitation. destruct (od_get _ _); [|intros [= <-]; auto].
  case_bool_decide; [intros [= <-]; auto|done].
Qed.
Lemma get_invitation_eq s a :
  get_invitation a s = (s, Ok (match find_invitation (invite_store (hs_invites s) (ia_organization_id a))
                                       (ia_token a) None with
                               | Ok (i, _) => Some i | Err _ => None end)).
Proof.
  destruct s as [h b i]. unfold get_invitation, try_catch, on_invites, invite_info,
    get_invitation_and_conduit, gets, lift_result, fmap, stM_fmap, mbind, stM_bind. cbn.
  destruct (find_invitation _ _ _) as [[x c]|e] eqn:E; [done|].
  by destruct (find_invitation_errors _ _ _ E) as [-> | ->].
Qed.
Lemma process_invited_eq s challenge v a :
  answered s challenge (AnswerV2 (HandshakeInvitedAnswer v a)) →
  process_invited_answer now a s =
  (resulted s, Ok (match invitation_for s a with
                   | Ok i => (Some (InvitedClientContext (ia_organization_id a) i), dumps_result "ok")
                   | Err r => (None, dumps_result r)
                   end)).
Proof.
  intros [Hst Han Hch]. unfold process_invited_answer, invitation_for.
  rewrite (bind_Ok _ _ _ _ _ (get_organization_eq s _)).
  destruct (be_organizations _ !! _) as [o|]; [|by refusal Hst].
  destruct (date_passed _ _); [by refusal Hst|].
  rewrite (bind_Ok _ _ _ _ _ (get_invitation_eq s a)).
  destruct (find_invitation _ _ _) as [[i c]|e]; [|by refusal Hst].
  destruct (expected_invitation _ _); cbn [negb]; [|by refusal Hst].
  unfold on_handshake. refusal Hst. by rewrite Han.
Qed.

(** What the server has once it has received an answer. *)
Definition received (req : bytes) : result HandshakeExn (ApiVersion * Answer) :=
  v ← loads_answer_version req; a ← load_versioned_answer v req; mret (v, a).
Definition state_with (challenge : bytes) (a : Answer) (v bv : ApiVersion) (s : HsState) : HsState :=
  mkHsState (mkServerHandshake (Some challenge) (Some a) (Some v) (Some bv) ANSWER)
    (hs_backend s) (hs_invites s).
Definition challenging (challenge : bytes) (s : HsState) : HsState :=
  mkHsState (mkServerHandshake (Some challenge) None None None CHALLENGE) (hs_backend s) (hs_invites s).
Lemma received_version req v a :
  received req = Ok (v, a) →
  (av_version v = 2 ∧ settle_compatible_versions server_versions [v] = Ok (API_V2_VERSION, v) ∧
     ∃ a', a = AnswerV2 a' ∧ loads_answer req = Ok a') ∨
  (av_version v = 1 ∧ settle_compatible_versions server_versions [v] = Ok (API_V1_VERSION, v) ∧
     ∃ a', a = AnswerV1 a' ∧ loads_apiv1_answer req = Ok a').
Proof.
  unfold received. destruct (loads_answer_version req) as [v'|e]; [|done]. cbn.
  unfold load_versioned_answer.
  destruct (Z.eqb_spec (av_version v') 2) as [E2|].
  { destruct (loads_answer req) as [a'|]; cbn; [|done]. intros [= -> <-]. left. split; [done|].
    split; [|by eexists]. unfold settle_compatible_versions. cbn. by rewrite E2. }
  destruct (Z.eqb_spec (av_version v') 1) as [E1|]; [|done].
  destruct (loads_apiv1_answer req) as [a'|]; cbn; [|done]. intros [= -> <-]. right. split; [done|].
  split; [|by eexists]. unfold settle_compatible_versions. cbn. by rewrite E1.
Qed.
Lemma do_handshake_eq challenge peer s :
  do_handshake now config challenge peer s =
  match peer (dumps_challenge challenge server_versions) with
  | None => (challenging challenge s, Err HsTransportError)
  | Some req =>
      match received req with
      | Err e =>
          if is_protocol_error e
          then (resulted (challenging challenge s), Ok (None, dumps_result "bad_protocol"))
          else (challenging challenge s, Err e)
      | Ok (v, a) =>
          let bv := if av_version v =? 2 then API_V2_VERSION else API_V1_VERSION in
          match process_answer now config a (state_with challenge a v bv s) with
          | (s', Err e) =>
              if is_protocol_error e then refuse build_bad_protocol_result_req s' else (s', Err e)
          | r => r
          end
      end
  end.
Proof.
  unfold do_handshake, try_catch, exchange. destruct s as [h b i].
  rewrite (bind_Ok _ _ _ (mkHsState new_server_handshake b i) tt) by done.
  rewrite (bind_Ok _ _ _ (challenging challenge (mkHsState h b i)) (dumps_challenge challenge server_versions))
    by done.
  destruct (peer _) as [req|]; [|done].
  rewrite (bind_Ok _ _ _ (challenging challenge (mkHsState h b i)) req) by done.
  destruct (received req) as [[v a]|e] eqn:Er.
  - set (bv := if av_version v =? 2 then API_V2_VERSION else API_V1_VERSION).
    rewrite (bind_Ok _ _ _ (state_with challenge a v bv (mkHsState h b i)) tt).
    { rewrite (bind_Ok _ _ _ (state_with challenge a v bv (mkHsState h b i)) (Some a)) by done.
      rewrite (bind_Ok _ _ _ (state_with challenge a v bv (mkHsState h b i)) a) by done.
      cbn. destruct (process_answer _ _ _ _) as [s' [x|e]]; [done|].
      by destruct (is_protocol_error e). }
    assert (settle_compatible_versions server_versions [v] = Ok (bv, v)) as Hsettle.
    { unfold bv. by destruct (received_version _ _ _ Er) as [(-> & -> & _)|(-> & -> & _)]. }
    unfold received in Er. unfold on_handshake, process_answer_req, check_sh_state, raise_if, gets, lift_result,
      modify, mbind, stM_bind. cbn -[settle_compatible_versions].
    destruct (loads_answer_version req) as [v'|]; [|done]. cbn in Er.
    destruct (load_versioned_answer v' req) as [a'|]; [|done]. cbn in Er. injection Er as -> ->.
    rewrite Hsettle. done.
  - rewrite (bind_Err _ _ _ (challenging challenge (mkHsState h b i)) e).
    { destruct (is_protocol_error e); done. }
    unfold received in Er. unfold on_handshake, process_answer_req, check_sh_state, raise_if, gets, lift_result,
      modify, mbind, stM_bind. cbn.
    destruct (loads_answer_version req) as [v'|]; [|by injection Er as ->]. cbn in Er.
    destruct (load_versioned_answer v' req) as [a'|]; [done|]. by injection Er as ->.
Qed.

(** The two handshakes of the first version of the API give only their contexts. *)
Lemma refuse_none m s s' c r : refuse m s = (s', Ok (Some c, r)) → False.
Proof. unfold refuse. intros (x & s1 & _ & [=])%bind_inv_Ok. Qed.
Lemma anonymous_context org rvk s s' c r :
  apiv1_process_anonymous_answer now config org rvk s = (s', Ok (Some c, r)) →
  c = APIV1_AnonymousClientContext org.
Proof.
  unfold apiv1_process_anonymous_answer. rewrite (bind_Ok _ _ _ _ _ (get_organization_eq s _)).
  intros (o & s1 & _ & E)%bind_inv_Ok. destruct o as [o|]; [|by apply refuse_none in E].
  destruct (date_passed _ _); [by apply refuse_none in E|].
  destruct (bool_decide _ && _); [by apply refuse_none in E|].
  apply bind_inv_Ok in E as (x & s2 & _ & [= _ <- _]). done.
Qed.
Lemma administration_context token s s' c r :
  apiv1_process_administration_answer config token s = (s', Ok (Some c, r)) →
  c = APIV1_AdministrationClientContext ∧ token = administration_token config.
Proof.
  unfold apiv1_process_administration_answer. case_bool_decide as Ht.
  - by intros ?%refuse_none.
  - intros (x & s2 & _ & [= _ <- _])%bind_inv_Ok. split; [done|]. destruct (decide (token = administration_token config)); [done|by destruct Ht].
Qed.
Lemma process_answer_context a s challenge s' c r :
  answered s challenge a → process_answer now config a s = (s', Ok (Some c, r)) →
  match a with
  | AnswerV2 (HandshakeAuthenticatedAnswer _ data) => ∃ x o u d,
      c = AuthenticatedClientContext x ∧ admission (hs_backend s) data = Ok (o, u, d) ∧
      context_of data (Some challenge) u d = Ok x ∧ s' = resulted s ∧ r = dumps_result "ok"
  | AnswerV2 (HandshakeInvitedAnswer _ data) => ∃ i,
      c = InvitedClientContext (ia_organization_id data) i ∧ invitation_for s data = Ok i ∧
      s' = resulted s ∧ r = dumps_result "ok"
  | AnswerV1 (APIV1_HandshakeAuthenticatedAnswer _ _) => False
  | AnswerV1 (APIV1_HandshakeAnonymousAnswer _ org _) => c = APIV1_AnonymousClientContext org
  | AnswerV1 (APIV1_HandshakeAdministrationAnswer _ token) =>
      c = APIV1_AdministrationClientContext ∧ token = administration_token config
  end.
Proof.
  intros Han. destruct a as [[v data|v data]|[v data|v org rvk|v token]]; cbn [process_answer].
  - rewrite (process_authenticated_eq _ _ _ _ Han). destruct (admission _ _) as [[[o u] d]|]; [|done].
    destruct (context_of _ _ _ _) as [x|] eqn:Ex; [|done]. intros [= <- <- <-]. by exists x, o, u, d.
  - rewrite (process_invited_eq _ _ _ _ Han). destruct (invitation_for _ _) as [i|]; [|done].
    intros [= <- <- <-]. by exists i.
  - done.
  - apply anonymous_context.
  - apply administration_context.
Qed.

(** A context comes from a processed answer. *)
Lemma do_handshake_context challenge peer s s' c r :
  do_handshake now config challenge peer s = (s', Ok (Some c, r)) ↔
  ∃ req v a, peer (dumps_challenge challenge server_versions) = Some req ∧ received req = Ok (v, a) ∧
    process_answer now config a
      (state_with challenge a v (if av_version v =? 2 then API_V2_VERSION else API_V1_VERSION) s)
    = (s', Ok (Some c, r)).
Proof.
  rewrite do_handshake_eq. split.
  - destruct (peer _) as [req|]; [|done]. destruct (received req) as [[v a]|e] eqn:Er.
    + cbv zeta. intros E. exists req, v, a. split_and!; [done|done|].
      destruct (process_answer _ _ _ _) as [s1 [x|e]]; [done|].
      destruct (is_protocol_error e); [by apply refuse_none in E|done].
    + by destruct (is_protocol_error e).
  - intros (req & v & a & -> & -> & E). cbv zeta. by rewrite E.
Qed.
Lemma answered_with challenge a v bv s : answered (state_with challenge a v bv s) challenge a.
Proof. done. Qed.
Lemma date_passed_spec d : date_passed now d = false ↔ ∀ t, d = Some t → now < t.
Proof.
  destruct d as [t|]; cbn; [|by split; intros].
  rewrite Z.leb_gt. split; [by intros Hd ? [= <-]|by intros Hd; apply Hd].
Qed.

(** The answer that makes this context: its organization, whose root key it gives,
    and that has not expired; its user, who is not revoked; its device, whose key
    verifies the answer, and what it signs is the challenge. *)
Definition authenticates (b : Backend) (challenge req : bytes) (c : AuthenticatedContext) : Prop :=
  ∃ v v' a o u d uc dc,
    (loads_answer_version req = Ok v ∧ av_version v = 2 ∧
     loads_answer req = Ok (HandshakeAuthenticatedAnswer v' a)) ∧
    (be_organizations b !! aa_organization_id a = Some o ∧ o_root_verify_key o = Some (aa_rvk a) ∧
     ∀ t, o_expiration_date o = Some t → now < t) ∧
    (os_users (orgstore b (aa_organization_id a)) !! user_id (aa_device_id a) = Some u ∧
     (∀ t, u_revoked_on u = Some t → now < t) ∧ unsecure_load_user (u_user_certificate u) = Ok uc) ∧
    (find_device (orgstore b (aa_organization_id a)) (aa_device_id a) = Some d ∧
     unsecure_load_device (d_device_certificate d) = Ok dc ∧
     key_verify (dc_verify_key dc) (aa_answer a) = Some challenge) ∧
    c = mkAuthenticatedContext (aa_organization_id a) (aa_device_id a) (u_human_handle u) (u_profile u)
          (uc_public_key uc) (dc_verify_key dc).
Lemma admission_ok b a o u d :
  admission b a = Ok (o, u, d) ↔
  (be_organizations b !! aa_organization_id a = Some o ∧ o_root_verify_key o = Some (aa_rvk a) ∧
   ∀ t, o_expiration_date o = Some t → now < t) ∧
  (os_users (orgstore b (aa_organization_id a)) !! user_id (aa_device_id a) = Some u ∧
   ∀ t, u_revoked_on u = Some t → now < t) ∧
  find_device (orgstore b (aa_organization_id a)) (aa_device_id a) = Some d.
Proof.
  unfold admission. rewrite <-!date_passed_spec.
  destruct (be_organizations b !! _) as [o'|]; [|split; [done|by intros ((? & _) & _)]].
  destruct (os_users _ !! _) as [u'|]; [|split; [done|by intros (_ & (? & _) & _)]].
  destruct (find_device _ _) as [d'|]; [|split; [done|by intros (_ & _ & ?)]].
  case_bool_decide as Hk; [split; [done|]; intros (([= ->] & ? & _) & _); done|].
  destruct (date_passed now (o_expiration_date o')) eqn:E1;
    [split; [done|]; intros (([= ->] & _ & ?) & _); congruence|].
  destruct (date_passed now (u_revoked_on u')) eqn:E2;
    [split; [done|]; intros (_ & ([= ->] & ?) & _); congruence|].
  split; [by intros [= <- <- <-]|]. intros (([= ->] & _ & _) & ([= ->] & _) & [= ->]). done.
Qed.
Lemma context_of_ok a challenge u d c :
  context_of a (Some challenge) u d = Ok c ↔
  ∃ uc dc, unsecure_load_user (u_user_certificate u) = Ok uc ∧
    unsecure_load_device (d_device_certificate d) = Ok dc ∧
    key_verify (dc_verify_key dc) (aa_answer a) = Some challenge ∧
    c = mkAuthenticatedContext (aa_organization_id a) (aa_device_id a) (u_human_handle u) (u_profile u)
          (uc_public_key uc) (dc_verify_key dc).
Proof.
  unfold context_of. destruct (unsecure_load_user _) as [uc|]; [|split; [done|by intros (? & ? & ? & _)]].
  destruct (unsecure_load_device _) as [dc|]; [|split; [done|by intros (? & ? & _ & ? & _)]].
  unfold check_challenge. destruct (key_verify _ _) as [x|] eqn:Ek.
  - case_bool_decide as Hx; cbn.
    + split; [done|]. intros (uc' & dc' & _ & [= ->] & Hk & _). congruence.
    + injection Hx as ->. split.
      * intros [= <-]. by exists uc, dc.
      * intros (uc' & dc' & [= ->] & [= ->] & _ & ->). done.
  - split; [done|]. intros (uc' & dc' & _ & [= ->] & Hk & _). congruence.
Qed.

(** C9: who is authenticated. When the server has received an answer, it gives the
    context of a device exactly when the answer is one of the second version of the
    API, the organization is there with the root key that the answer has and has
    not expired, the user and the device are there, the user is not revoked, and the
    key in the certificate of the device verifies a signature of the very challenge
    that the server has drawn: the context has the profile, the handle and the keys
    that the server keeps. The result that is sent is then "ok", and the state of
    the components is the one before. *)
Theorem handshake_authenticated challenge peer s req c
    (Hreq : peer (dumps_challenge challenge server_versions) = Some req) :
  ((∃ s' res, do_handshake now config challenge peer s
      = (s', Ok (Some (AuthenticatedClientContext c), res))) ↔
   authenticates (hs_backend s) challenge req c) ∧
  (∀ s' res, do_handshake now config challenge peer s
      = (s', Ok (Some (AuthenticatedClientContext c), res)) →
     res = dumps_result "ok" ∧ sh_state (hs_server s') = RESULT ∧
     hs_backend s' = hs_backend s ∧ hs_invites s' = hs_invites s).
Proof.
  assert (∀ s' res, do_handshake now config challenge peer s
      = (s', Ok (Some (AuthenticatedClientContext c), res)) →
    ∃ v v' a o u d, received req = Ok (v, AnswerV2 (HandshakeAuthenticatedAnswer v' a)) ∧
      admission (hs_backend s) a = Ok (o, u, d) ∧ context_of a (Some challenge) u d = Ok c ∧
      res = dumps_result "ok" ∧ sh_state (hs_server s') = RESULT ∧
      hs_backend s' = hs_backend s ∧ hs_invites s' = hs_invites s) as Hinv.
  { intros s' res (req' & v & a & Hreq' & Hrec & E)%do_handshake_context.
    assert (req' = req) as -> by congruence.
    apply process_answer_context with (challenge := challenge) in E; [|apply answered_with].
    destruct a as [[v' a|v' a]|[v' a|v' org rvk|v' token]]; [| |done|done|by destruct E].
    - destruct E as (x & o & u & d & [= <-] & Ha & Hc & -> & ->). by exists v, v', a, o, u, d.
    - by destruct E as (i & ? & _). }
  split; [|intros s' res E; destruct (Hinv s' res E) as (? & ? & ? & ? & ? & ? & _ & _ & _ & ?); done].
  split.
  - intros (s' & res & E). destruct (Hinv s' res E) as (v & v' & a & o & u & d & Hrec & Ha & Hc & _).
    apply admission_ok in Ha as ((Ho & Hkey & Hexp) & [Hu Hrev] & Hd). apply context_of_ok in Hc as (uc & dc & ? & ? & ? & ?).
    exists v, v', a, o, u, d, uc, dc. split; [|by split_and!].
    destruct (received_version _ _ _ Hrec) as [(Hv & _ & a' & [= <-] & Hl)|(_ & _ & a' & [=] & _)].
    split_and!; try done. unfold received in Hrec.
    destruct (loads_answer_version req) as [v0|]; [|done]. cbn in Hrec.
    destruct (load_versioned_answer v0 req); [|done]. by injection Hrec as -> _.
  - intros (v & v' & a & o & u & d & uc & dc & (Hv & Hv2 & Hl) & Ho & (Hu & Hrev & Huc) & (Hd & Hdc & Hk) & ->).
    eexists _, _. apply do_handshake_context.
    exists req, v, (AnswerV2 (HandshakeAuthenticatedAnswer v' a)). split; [done|]. split.
    { unfold received. rewrite Hv. cbn. unfold load_versioned_answer. by rewrite Hv2, Hl. }
    cbn [process_answer]. rewrite (process_authenticated_eq _ challenge v') by apply answered_with.
    rewrite (proj2 (admission_ok _ a o u d)) by done.
    rewrite (proj2 (context_of_ok a challenge u d _)) by by exists uc, dc. reflexivity.
Qed.

(** C36: who is invited. The server gives the context of an invitation exactly when
    the answer is one of the second version of the API, the organization is there and
    has not expired, and the token is the one of an invitation of the organization
    that is not deleted, of the type that the answer says. *)
Theorem handshake_invited challenge peer s req org i
    (Hreq : peer (dumps_challenge challenge server_versions) = Some req) :
  (∃ s' res, do_handshake now config challenge peer s
      = (s', Ok (Some (InvitedClientContext org i), res))) ↔
  ∃ v v' a o conduit,
    loads_answer_version req = Ok v ∧ av_version v = 2 ∧
    loads_answer req = Ok (HandshakeInvitedAnswer v' a) ∧ ia_organization_id a = org ∧
    be_organizations (hs_backend s) !! org = Some o ∧ (∀ t, o_expiration_date o = Some t → now < t) ∧
    find_invitation (invite_store (hs_invites s) org) (ia_token a) None = Ok (i, conduit) ∧
    expected_invitation (ia_invitation_type a) i = true.
Proof.
  split.
  - intros (s' & res & (req' & v & a & Hreq' & Hrec & E)%do_handshake_context).
    assert (req' = req) as -> by congruence.
    apply process_answer_context with (challenge := challenge) in E; [|apply answered_with].
    destruct a as [[v' a|v' a]|[v' a|v' org' rvk|v' token]]; [| |done|done|by destruct E].
    { by destruct E as (x & o & u & d & ? & _). }
    destruct E as (i' & [= -> ->] & Hi & _). unfold invitation_for in Hi. cbn in Hi.
    destruct (be_organizations _ !! _) as [o|] eqn:Ho; [|done].
    destruct (date_passed now _) eqn:Hd; [done|].
    destruct (find_invitation _ _ _) as [[j c]|] eqn:Hf; [|done].
    destruct (expected_invitation _ j) eqn:Hx; [|done]. injection Hi as ->.
    exists v, v', a, o, c. rewrite date_passed_spec in Hd.
    destruct (received_version _ _ _ Hrec) as [(Hv & _ & a' & [= <-] & Hl)|(_ & _ & a' & [=] & _)].
    split_and!; try done. unfold received in Hrec.
    destruct (loads_answer_version req) as [v0|]; [|done]. cbn in Hrec.
    destruct (load_versioned_answer v0 req); [|done]. by injection Hrec as -> _.
  - intros (v & v' & a & o & c & Hv & Hv2 & Hl & <- & Ho & Hd & Hf & Hx).
    eexists _, _. apply do_handshake_context.
    exists req, v, (AnswerV2 (HandshakeInvitedAnswer v' a)). split; [done|]. split.
    { unfold received. rewrite Hv. cbn. unfold load_versioned_answer. by rewrite Hv2, Hl. }
    cbn [process_answer]. rewrite (process_invited_eq _ challenge v') by apply answered_with.
    unfold invitation_for. cbn. rewrite Ho. apply date_passed_spec in Hd. rewrite Hd, Hf, Hx. reflexivity.
Qed.

(** An authenticated client of the first version of the API, which
    [process_answer_req] accepts, is neither accepted nor refused: [do_handshake]
    fails on its assertion, which is not a protocol error, and nothing is sent. *)
Theorem apiv1_authenticated_fails challenge peer s req v v' a
    (Hreq : peer (dumps_challenge challenge server_versions) = Some req)
    (Hv : loads_answer_version req = Ok v) (Hv1 : av_version v = 1)
    (Hl : loads_apiv1_answer req = Ok (APIV1_HandshakeAuthenticatedAnswer v' a)) :
  (do_handshake now config challenge peer s).2 = Err HsAssertionError.
Proof.
  rewrite do_handshake_eq, Hreq. unfold received. rewrite Hv. cbn. unfold load_versioned_answer.
  by rewrite Hv1, Hl.
Qed.

(** ** A client and the server *)

Definition client_version (k : ClientHandshake) : ApiVersion :=
  match k with
  | AuthenticatedClientHandshake _ _ _ _ | InvitedClientHandshake _ _ _ => API_V2_VERSION
  | APIV1_AnonymousClientHandshake _ _ | APIV1_AdministrationClientHandshake _ => API_V1_VERSION
  end.
(** The messages of this handshake are loaded as they were dumped. *)
Record wire (k : ClientHandshake) (challenge : bytes) : Prop := {
  wire_challenge : loads_challenge (dumps_challenge challenge server_versions)
                   = Ok (challenge, server_versions);
  wire_answer : received (dumps_answer (answer_of k challenge (client_version k)))
                = Ok (client_version k, answer_of k challenge (client_version k));
  wire_result r : r ∈ ["ok"; "bad_protocol"; "bad_identity"; "rvk_mismatch"; "organization_expired";
                       "revoked_device"]%string → loads_result (dumps_result r) = Ok r }.

Lemma process_challenge_ok k challenge :
  wire k challenge →
  process_challenge_req k (dumps_challenge challenge server_versions)
  = Ok (dumps_answer (answer_of k challenge (client_version k))).
Proof.
  intros [Hc _ _]. unfold process_challenge_req, load_challenge_req. rewrite Hc. by destruct k.
Qed.
Lemma client_told k challenge r :
  wire k challenge →
  r ∈ ["ok"; "bad_protocol"; "bad_identity"; "rvk_mismatch"; "organization_expired";
       "revoked_device"]%string →
  client_do_handshake k (dumps_challenge challenge server_versions) (λ _, Some (dumps_result r))
  = if bool_decide (r = "ok"%string) then Ok tt
    else if bool_decide (r = "bad_protocol"%string) then Err (BackendProtocolError InvalidMessageError)
    else Err (BackendConnectionRefused (result_error r)).
Proof.
  intros Hw Hr. unfold client_do_handshake. rewrite (process_challenge_ok _ _ Hw). cbn.
  unfold process_result_req. rewrite (wire_result _ _ Hw r Hr).
  repeat (apply elem_of_cons in Hr as [->|Hr]; [done|]). by apply not_elem_of_nil in Hr.
Qed.
Lemma admission_refusals b a r :
  admission b a = Err r →
  r ∈ ["bad_identity"; "rvk_mismatch"; "organization_expired"; "revoked_device"]%string.
Proof.
  unfold admission. repeat case_match; intros [= <-]; set_solver.
Qed.
Lemma context_of_protocol a challenge u d uc dc :
  unsecure_load_user (u_user_certificate u) = Ok uc →
  unsecure_load_device (d_device_certificate d) = Ok dc →
  context_of a (Some challenge) u d =
  if bool_decide (key_verify (dc_verify_key dc) (aa_answer a) = Some challenge)
  then Ok (mkAuthenticatedContext (aa_organization_id a) (aa_device_id a) (u_human_handle u)
             (u_profile u) (uc_public_key uc) (dc_verify_key dc))
  else Err HandshakeFailedChallenge.
Proof.
  intros Hu Hd. unfold context_of, check_challenge. rewrite Hu, Hd.
  destruct (key_verify _ _) as [x|]; [|done].
  destruct (decide (x = challenge)) as [->|Hne].
  - rewrite bool_decide_eq_false_2 by (intros Hne; by apply Hne). by rewrite bool_decide_eq_true_2.
  - rewrite bool_decide_eq_true_2 by congruence. by rewrite bool_decide_eq_false_2 by congruence.
Qed.

Lemma refuse_bad_protocol s :
  sh_state (hs_server s) = ANSWER →
  refuse build_bad_protocol_result_req s = (resulted s, Ok (None, dumps_result "bad_protocol")).
Proof. intros Hst. by refusal Hst. Qed.

(** What the server knows of an identity, and the reasons for which a client is to be
    refused, with the error that it is to raise: the first that applies. *)
Definition known (b : Backend) (a : AuthenticatedAnswer) (o : Organization) (u : User) (d : Device) : Prop :=
  be_organizations b !! aa_organization_id a = Some o ∧
  os_users (orgstore b (aa_organization_id a)) !! user_id (aa_device_id a) = Some u ∧
  find_device (orgstore b (aa_organization_id a)) (aa_device_id a) = Some d.
Definition passed (date : option DateTime) : Prop := ∃ t, date = Some t ∧ t <= now.
Inductive refusal (b : Backend) (a : AuthenticatedAnswer) : HandshakeExn → Prop :=
| refusal_identity : ¬ (∃ o u d, known b a o u d) → refusal b a HandshakeBadIdentity
| refusal_root_key o u d :
    known b a o u d → o_root_verify_key o ≠ Some (aa_rvk a) → refusal b a HandshakeRVKMismatch
| refusal_expired o u d :
    known b a o u d → o_root_verify_key o = Some (aa_rvk a) → passed (o_expiration_date o) →
    refusal b a HandshakeOrganizationExpired
| refusal_revoked o u d :
    known b a o u d → o_root_verify_key o = Some (aa_rvk a) → ¬ passed (o_expiration_date o) →
    passed (u_revoked_on u) → refusal b a HandshakeRevokedDevice.
Definition admitted (b : Backend) (a : AuthenticatedAnswer) (u : User) (d : Device) : Prop :=
  ∃ o, known b a o u d ∧ o_root_verify_key o = Some (aa_rvk a) ∧ ¬ passed (o_expiration_date o) ∧
    ¬ passed (u_revoked_on u).
Lemma date_passed_true d : date_passed now d = true ↔ passed d.
Proof.
  unfold passed. destruct d as [t|]; cbn; [|by split; [|intros (? & ? & _)]].
  rewrite Z.leb_le. split; [by exists t|]. by intros (? & [= <-] & ?).
Qed.
Lemma date_passed_false d : date_passed now d = false ↔ ¬ passed d.
Proof. rewrite <-date_passed_true. by destruct (date_passed now d). Qed.
Lemma admission_spec b a :
  match admission b a with
  | Err r => refusal b a (result_error r) ∧ ∀ e, refusal b a e → e = result_error r
  | Ok (_, u, d) => admitted b a u d ∧ (∀ e, ¬ refusal b a e) ∧ ∀ u' d', admitted b a u' d' → u' = u ∧ d' = d
  end.
Proof.
  unfold admission.
  destruct (be_organizations b !! _) as [o|] eqn:Ho;
    [destruct (os_users _ !! _) as [u|] eqn:Hu; [destruct (find_device _ _) as [d|] eqn:Hd|]|].
  2-4: (assert (¬ ∃ o u d, known b a o u d) as Hno by (intros (o' & u' & d' & ? & ? & ?); congruence);
        split; [by constructor|]; intros e He; destruct He; try done; exfalso; apply Hno; by eexists _, _, _).
  assert (known b a o u d) as Hk by done.
  assert (∀ o' u' d', known b a o' u' d' → o' = o ∧ u' = u ∧ d' = d) as Huniq.
  { intros o' u' d' (? & ? & ?). split_and!; congruence. }
  case_bool_decide as Hr.
  { split; [by eapply refusal_root_key|]. intros e He. destruct He as [Hno|o' u' d' Hk'|o' u' d' Hk'|o' u' d' Hk'];
      [destruct Hno; by eexists _, _, _|done|..]; destruct (Huniq _ _ _ Hk') as (-> & -> & ->); done. }
  destruct (date_passed now (o_expiration_date o)) eqn:He1.
  { apply date_passed_true in He1. split; [by eapply refusal_expired|]. intros e He.
    destruct He as [Hno|o' u' d' Hk'|o' u' d' Hk'|o' u' d' Hk'];
      [destruct Hno; by eexists _, _, _| |done|]; destruct (Huniq _ _ _ Hk') as (-> & -> & ->); done. }
  apply date_passed_false in He1.
  destruct (date_passed now (u_revoked_on u)) eqn:He2.
  { apply date_passed_true in He2. split; [by eapply refusal_revoked|]. intros e He.
    destruct He as [Hno|o' u' d' Hk'|o' u' d' Hk'|o' u' d' Hk'];
      [destruct Hno; by eexists _, _, _| | |done]; destruct (Huniq _ _ _ Hk') as (-> & -> & ->); done. }
  apply date_passed_false in He2. split; [by exists o|]. split.
  - intros e He. destruct He as [Hno|o' u' d' Hk'|o' u' d' Hk'|o' u' d' Hk'];
      [destruct Hno; by eexists _, _, _|..]; destruct (Huniq _ _ _ Hk') as (-> & -> & ->); done.
  - intros u' d' (o' & Hk' & _). by destruct (Huniq _ _ _ Hk').
Qed.

(** C10: a device that connects. The client signs the challenge with its key and the
    two sides end together. The server refuses an identity that it does not know, then
    a root key that is not the one of the organization, then an organization that has
    expired, then a user who is revoked: it gives no context, and the client raises
    [BackendConnectionRefused] from [HandshakeBadIdentity], [HandshakeRVKMismatch],
    [HandshakeOrganizationExpired] or [HandshakeRevokedDevice]. Otherwise the identity
    is admitted: when the key in the certificate of the device verifies the answer of
    the client, the server has the context of the device and the client goes on, else
    there is no context and the client raises a protocol error. One of these cases
    applies to any answer. *)
Theorem handshake_end_to_end challenge org device_id sk rvk s
    (Hwire : wire (AuthenticatedClientHandshake org device_id sk rvk) challenge) :
  let a := mkAuthenticatedAnswer org device_id rvk (signing_key_sign sk challenge) in
  let ends := connect now config challenge (AuthenticatedClientHandshake org device_id sk rvk) s in
  (∀ e, refusal (hs_backend s) a e → ∃ s', ends = (s', Ok None, Err (BackendConnectionRefused e))) ∧
  (∀ u d uc dc, admitted (hs_backend s) a u d →
     unsecure_load_user (u_user_certificate u) = Ok uc →
     unsecure_load_device (d_device_certificate d) = Ok dc →
     ∃ s',
       ends = if bool_decide (key_verify (dc_verify_key dc) (signing_key_sign sk challenge) = Some challenge)
              then (s', Ok (Some (AuthenticatedClientContext (mkAuthenticatedContext org device_id
                      (u_human_handle u) (u_profile u) (uc_public_key uc) (dc_verify_key dc)))), Ok tt)
              else (s', Ok None, Err (BackendProtocolError InvalidMessageError))) ∧
  ((∃ e, refusal (hs_backend s) a e) ∨ ∃ u d, admitted (hs_backend s) a u d).
Proof.
  intros a. set (k := AuthenticatedClientHandshake org device_id sk rvk).
  set (peer := λ req, match process_challenge_req k req with Ok x => Some x | Err _ => None end).
  assert (do_handshake now config challenge peer s =
    match process_authenticated_answer now a
      (state_with challenge (answer_of k challenge API_V2_VERSION) API_V2_VERSION API_V2_VERSION s) with
    | (s', Err e) =>
        if is_protocol_error e then refuse build_bad_protocol_result_req s' else (s', Err e)
    | r => r
    end) as E.
  { rewrite do_handshake_eq. unfold peer. rewrite (process_challenge_ok k _ Hwire).
    by rewrite (wire_answer k _ Hwire). }
  rewrite (process_authenticated_eq _ challenge API_V2_VERSION a) in E by apply answered_with.
  cbn [hs_backend state_with] in E. unfold connect. fold peer. rewrite E. clear E.
  pose proof (admission_spec (hs_backend s) a) as Hspec.
  destruct (admission (hs_backend s) a) as [[[o u] d]|r] eqn:Ea.
  - destruct Hspec as (Hadm & Hno & Huniq). split; [by intros e He%Hno|]. split; [|right; by eexists _, _].
    intros u' d' uc dc Hadm' Hu Hd. destruct (Huniq _ _ Hadm') as [-> ->].
    rewrite (context_of_protocol _ _ _ _ _ _ Hu Hd).
    change (aa_answer a) with (signing_key_sign sk challenge).
    destruct (bool_decide (key_verify _ _ = Some challenge)).
    + eexists. cbn. rewrite (client_told k _ "ok" Hwire) by set_solver. reflexivity.
    + eexists. cbn [is_protocol_error is_handshake_error]. rewrite refuse_bad_protocol by done.
      cbn. rewrite (client_told k _ "bad_protocol" Hwire) by set_solver. reflexivity.
  - destruct Hspec as [Href Huniq]. split; [|split; [|left; by eexists]].
    + intros e He. rewrite (Huniq e He). apply admission_refusals in Ea. eexists. cbn.
      rewrite (client_told k _ r Hwire) by set_solver.
      repeat (apply elem_of_cons in Ea as [->|Ea]; [reflexivity|]). by apply not_elem_of_nil in Ea.
    + intros u d uc dc Hadm. exfalso.
      destruct Hadm as (o & Hk & Hr & He1 & He2).
      assert (∀ o' u' d', known (hs_backend s) a o' u' d' → o' = o ∧ u' = u ∧ d' = d) as Hu.
      { destruct Hk as (? & ? & ?). intros o' u' d' (? & ? & ?). split_and!; congruence. }
      destruct Href as [Hno|o' u' d' Hk'|o' u' d' Hk'|o' u' d' Hk'];
        [destruct Hno; by eexists _, _, _|..]; destruct (Hu _ _ _ Hk') as (-> & -> & ->); done.
Qed.
End server.

(** ** Witnesses *)

(** The messages of three clients, on the server of [ClientServerExample]: a first
    byte, and a signature for the two authenticated answers. *)
#[export] Instance hx_api : HandshakeApi := {|
  signing_key_sign key raw := match key with [b] => cs_sign b raw | _ => [] end;
  dumps_challenge challenge _ := challenge;
  loads_challenge raw := Ok (raw, server_versions);
  dumps_answer a :=
    match a with
    | AnswerV2 (HandshakeAuthenticatedAnswer _ data) => x01 :: aa_answer data
    | AnswerV2 (HandshakeInvitedAnswer _ _) => [x02]
    | AnswerV1 (APIV1_HandshakeAuthenticatedAnswer _ data) => x03 :: aa_answer data
    | _ => []
    end;
  loads_answer_version raw :=
    match raw with
    | x01 :: _ | x02 :: _ => Ok API_V2_VERSION
    | x03 :: _ => Ok API_V1_VERSION
    | _ => Err InvalidMessageError
    end;
  loads_answer raw :=
    match raw with
    | x01 :: answer => Ok (HandshakeAuthenticatedAnswer API_V2_VERSION
                             (mkAuthenticatedAnswer "org" cs_alice cs_root_key answer))
    | x02 :: _ => Ok (HandshakeInvitedAnswer API_V2_VERSION (mkInvitedAnswer "org" DEVICE_INVITATION 5%N))
    | _ => Err InvalidMessageError
    end;
  loads_apiv1_answer raw :=
    match raw with
    | x03 :: answer => Ok (APIV1_HandshakeAuthenticatedAnswer API_V1_VERSION
                             (mkAuthenticatedAnswer "org" cs_alice cs_root_key answer))
    | _ => Err InvalidMessageError
    end;
  dumps_result := String.list_byte_of_string;
  loads_result raw := Ok (String.string_of_list_byte raw) |}.
Definition hx_config : HandshakeConfig := mkHandshakeConfig false "secret".
Definition hx_state : HsState := mkHsState new_server_handshake cs_shared ex_invites.
Definition hx_challenge : bytes := [x11; x22; x33].
(** Alice, with the key of this byte. *)
Definition hx_alice (key : byte) : ClientHandshake :=
  AuthenticatedClientHandshake "org" cs_alice [key] cs_root_key.

Lemma hx_wire key : wire (hx_alice key) hx_challenge.
Proof.
  split; [done|done|]. intros r _. cbn. f_equal. apply String.string_of_list_byte_of_string.
Qed.
Definition hx_context : AuthenticatedContext :=
  mkAuthenticatedContext "org" cs_alice (cs_handle "alice") ADMIN [x61] cs_alice_key.

Lemma handshake_authenticated_witness :
  ∃ s' res,
    do_handshake 10 hx_config hx_challenge (λ challenge, Some (x01 :: cs_sign x41 challenge)) hx_state
    = (s', Ok (Some (AuthenticatedClientContext hx_context), res)).
Proof.
  destruct (handshake_authenticated 10 hx_config hx_challenge
    (λ challenge, Some (x01 :: cs_sign x41 challenge)) hx_state (x01 :: cs_sign x41 hx_challenge) hx_context)
    as [H _]; [reflexivity|].
  apply H.
  exists API_V2_VERSION, API_V2_VERSION,
    (mkAuthenticatedAnswer "org" cs_alice cs_root_key (cs_sign x41 hx_challenge)),
    (mkOrganization "org" "token" None (Some cs_root_key)),
    (mkUser "alice" (cs_handle "alice") (cs_sign x52 [x01]) (cs_sign x52 [x02]) None ADMIN 0 None None None),
    (mkDevice cs_alice (Some "desk"%string) (cs_sign x52 [x03]) (cs_sign x52 [x04]) None 0),
    (mkUserCertificateContent None 0 "alice" (cs_handle "alice") [x61] ADMIN),
    (mkDeviceCertificateContent None 0 cs_alice (Some "desk"%string) cs_alice_key).
  split; [split; [reflexivity|split; reflexivity]|].
  split; [split; [vm_compute; reflexivity|split; [reflexivity|discriminate]]|].
  split; [split; [vm_compute; reflexivity|split; [discriminate|reflexivity]]|].
  split; [split; [vm_compute; reflexivity|split; [reflexivity|vm_compute; reflexivity]]|].
  reflexivity.
Defined.
Lemma handshake_invited_witness :
  ∃ s' res,
    do_handshake 10 hx_config hx_challenge (λ _, Some [x02]) hx_state
    = (s', Ok (Some (InvitedClientContext "org"
        (InviteDevice (mkInvitationBase "alice" None 5 0 IDLE))), res)).
Proof.
  apply (handshake_invited 10 hx_config hx_challenge (λ _, Some [x02]) hx_state [x02]); [reflexivity|].
  exists API_V2_VERSION, API_V2_VERSION, (mkInvitedAnswer "org" DEVICE_INVITATION 5%N),
    (mkOrganization "org" "token" None (Some cs_root_key)), new_conduit.
  split; [reflexivity|]. split; [reflexivity|]. split; [reflexivity|]. split; [reflexivity|].
  split; [vm_compute; reflexivity|]. split; [discriminate|]. split; reflexivity.
Defined.
Lemma apiv1_authenticated_witness :
  (do_handshake 10 hx_config hx_challenge (λ challenge, Some (x03 :: cs_sign x41 challenge)) hx_state).2
  = Err HsAssertionError.
Proof.
  exact (apiv1_authenticated_fails 10 hx_config hx_challenge
    (λ challenge, Some (x03 :: cs_sign x41 challenge)) hx_state (x03 :: cs_sign x41 hx_challenge)
    API_V1_VERSION API_V1_VERSION (mkAuthenticatedAnswer "org" cs_alice cs_root_key (cs_sign x41 hx_challenge))
    eq_refl eq_refl eq_refl eq_refl).
Defined.
(** With her key, and with Bob's. *)
Lemma handshake_end_to_end_witness :
  (∃ s', connect 10 hx_config hx_challenge (hx_alice x41) hx_state
     = (s', Ok (Some (AuthenticatedClientContext hx_context)), Ok tt)) ∧
  (∃ s', connect 10 hx_config hx_challenge (hx_alice x42) hx_state
     = (s', Ok None, Err (BackendProtocolError InvalidMessageError))).
Proof.
  destruct (handshake_end_to_end 10 hx_config hx_challenge "org" cs_alice [x41] cs_root_key hx_state
    (hx_wire x41)) as (_ & H1 & _).
  destruct (handshake_end_to_end 10 hx_config hx_challenge "org" cs_alice [x42] cs_root_key hx_state
    (hx_wire x42)) as (_ & H2 & _).
  assert (∀ key, ∃ u d, admitted 10 (hs_backend hx_state)
      (mkAuthenticatedAnswer "org" cs_alice cs_root_key (signing_key_sign [key] hx_challenge)) u d ∧
      os_users (orgstore cs_shared "org") !! user_id cs_alice = Some u ∧
      find_device (orgstore cs_shared "org") cs_alice = Some d) as Hadm.
  { intros key.
    set (a := mkAuthenticatedAnswer "org" cs_alice cs_root_key (signing_key_sign [key] hx_challenge)).
    pose proof (admission_spec 10 (hs_backend hx_state) a) as Hs.
    assert (∃ o u d, admission 10 (hs_backend hx_state) a = Ok (o, u, d)) as (o & u & d & E)
      by (vm_compute; by eexists _, _, _).
    rewrite E in Hs. destruct Hs as [Hs _]. exists u, d. split; [exact Hs|].
    by destruct Hs as (o' & (_ & Hu & Hd) & _). }
  split.
  - destruct (Hadm x41) as (u & d & Ha & Hu & Hd). vm_compute in Hu, Hd. injection Hu as <-. injection Hd as <-.
    destruct (H1 _ _ _ _ Ha eq_refl eq_refl) as [s' E']. exists s'. etrans; [exact E'|]. vm_compute. reflexivity.
  - destruct (Hadm x42) as (u & d & Ha & Hu & Hd). vm_compute in Hu, Hd. injection Hu as <-. injection Hd as <-.
    destruct (H2 _ _ _ _ Ha eq_refl eq_refl) as [s' E']. exists s'. etrans; [exact E'|]. vm_compute. reflexivity.
Defined.
