(* ===== verification/Versioning.v ===== *)
(** The history of a path: [guardata/client/fs/workspacefs/versioning_helpers.py].
    In this file a date counts microseconds. *)

From S2P Require Import Prelude PyString Types ApiManifest Chunk EntryTransactions.
From S2P Require Import Backend Certif RemoteDevices RemoteLoader.

(** ** Data *)

Inductive VersionExn :=
| EntryNotFound
| ManifestCacheNotFound
| ManifestCacheDownloadLimitReached
| ManifestCacheInconsistent
| VersionsListInconsistent
| VersionListerTaskListNodeMissingParent
| VlAttributeError
| VlKeyError
| VlTooDeep
| OfFS (e : FSExn).
#[export] Instance VersionExn_eq_dec : EqDecision VersionExn.
Proof. solve_decision. Defined.

(** [add(seconds=...)] and [add(microseconds=-1)] *)
Definition SECOND : Z := 1000000.
Definition SYNC_GUESSED_TIME_FRAME : Z := 30.

Record TimestampBoundedData := mkTimestampBoundedData {
  tb_id : EntryID; tb_version : Z; tb_early : DateTime; tb_late : DateTime;
  tb_creator : DeviceID; tb_updated : DateTime; tb_is_folder : bool; tb_size : option Z;
  tb_source : option FsPath; tb_destination : option FsPath }.
Record TimestampBoundedEntry := mkTimestampBoundedEntry {
  te_id : EntryID; te_version : Z; te_early : DateTime; te_late : DateTime }.
#[export] Instance TimestampBoundedEntry_eq_dec : EqDecision TimestampBoundedEntry.
Proof. solve_decision. Defined.
Record ManifestData := mkManifestData {
  md_creator : DeviceID; md_updated : DateTime; md_is_folder : bool; md_size : option Z }.
Record ManifestDataAndPaths := mkManifestDataAndPaths {
  mp_data : ManifestData; mp_source : option FsPath; mp_destination : option FsPath }.

(** The classes of remote manifests, and their attributes; a user manifest has
    neither a parent nor children. *)
Definition rm_id (m : RemoteManifest) : EntryID :=
  match m with
  | RFile m => fim_id m | RFolder m => fom_id m | RWorkspace m => wm_id m | RUser m => um_id m
  end.
Definition rm_version (m : RemoteManifest) : Z :=
  match m with
  | RFile m => fim_version m | RFolder m => fom_version m | RWorkspace m => wm_version m
  | RUser m => um_version m
  end.
Definition rm_author (m : RemoteManifest) : DeviceID :=
  match m with
  | RFile m => fim_author m | RFolder m => fom_author m | RWorkspace m => wm_author m
  | RUser m => um_author m
  end.
Definition rm_updated (m : RemoteManifest) : DateTime :=
  match m with
  | RFile m => fim_updated m | RFolder m => fom_updated m | RWorkspace m => wm_updated m
  | RUser m => um_updated m
  end.
Definition is_remote_file (m : RemoteManifest) : bool :=
  match m with RFile _ => true | _ => false end.
Definition is_remote_folder (m : RemoteManifest) : bool :=
  match m with RFolder _ => true | _ => false end.
Definition is_remote_workspace (m : RemoteManifest) : bool :=
  match m with RWorkspace _ => true | _ => false end.
Definition rm_parent (m : RemoteManifest) : option EntryID :=
  match m with RFile m => Some (fim_parent m) | RFolder m => Some (fom_parent m) | _ => None end.
Definition rm_children (m : RemoteManifest) : option (gmap EntryName EntryID) :=
  match m with RFolder m => Some (fom_children m) | RWorkspace m => Some (wm_children m) | _ => None end.

(** What the lister uses of a remote loader. *)
Class HistoryLoader (L : Type) := {
  hl_load_manifest : EntryID → option Z → option DateTime → option DateTime →
    stM L FSExn RemoteManifest;
  hl_list_versions : EntryID → stM L FSExn (list (Z * (DateTime * DeviceID))) }.
(** [RemoteLoader] is one. *)
Definition remote_history `{CertifApi, LoaderApi} {Srv} `{BackendCmds Srv} (now : DateTime)
    (fuel : nat) (workspace_id : EntryID) (workspace_entry : WorkspaceEntry)
    : HistoryLoader (Loader Srv) := {|
  hl_load_manifest := rl_load_manifest now fuel workspace_id workspace_entry;
  hl_list_versions := list_versions |}.

(** ** [ManifestCache] *)

(** [CacheEntry] *)
Record CacheEntry := mkCacheEntry {
  ce_early : option DateTime; ce_late : option DateTime; ce_manifest : RemoteManifest }.
Abbreviation ManifestCache := (gmap EntryID (odict Z CacheEntry)) (only parsing).

(** [if x], for an optional number *)
Definition truthy_number (x : option Z) : option Z :=
  match x with Some 0 => None | _ => x end.

(** [get] *)
Definition holds_at (timestamp : DateTime) (t : CacheEntry) : bool :=
  match ce_early t, ce_late t with
  | Some early, Some late => (early <=? timestamp) && (timestamp <=? late)
  | _, _ => false
  end.
Definition cache_get (cache : ManifestCache) (entry_id : EntryID) (version : option Z)
    (timestamp : option DateTime) : option RemoteManifest :=
  match truthy_number version with
  | Some version => ce_manifest <$> (cache !! entry_id ≫= λ c, od_get c version)
  | None =>
      match timestamp with
      | Some timestamp =>
          ce_manifest <$> (cache !! entry_id ≫= λ c, find (holds_at timestamp) (od_values c))
      | None => None
      end
  end.

(** [update]: the time frame of the version grows, then it is compared to those of
    the neighbours. *)
Definition grow_late (timestamp : DateTime) (manifest : RemoteManifest) (t : CacheEntry) : CacheEntry :=
  match ce_late t with
  | Some late => if late <? timestamp then mkCacheEntry (ce_early t) (Some timestamp) manifest else t
  | None => mkCacheEntry (ce_early t) (Some timestamp) manifest
  end.
Definition grow_early (timestamp : DateTime) (manifest : RemoteManifest) (t : CacheEntry) : CacheEntry :=
  match ce_early t with
  | Some early => if timestamp <? early then mkCacheEntry (Some timestamp) (ce_late t) manifest else t
  | None => mkCacheEntry (Some timestamp) (ce_late t) manifest
  end.
Definition grow (timestamp : option DateTime) (manifest : RemoteManifest)
    (c : odict Z CacheEntry) : odict Z CacheEntry :=
  match od_get c (rm_version manifest) with
  | None => od_set c (rm_version manifest) (mkCacheEntry timestamp timestamp manifest)
  | Some t =>
      match timestamp with
      | Some timestamp =>
          od_set c (rm_version manifest) (grow_early timestamp manifest (grow_late timestamp manifest t))
      | None => c
      end
  end.
(** [index > 0] and [index < len(keys) - 1]: the keys before and after. *)
Definition key_before (keys : list Z) (version : Z) : option Z :=
  last (filter (λ k, k < version) keys).
Definition key_after (keys : list Z) (version : Z) : option Z :=
  head (filter (λ k, version < k) keys).
Definition option_lt (x y : option DateTime) : bool :=
  match x, y with Some x, Some y => x <? y | _, _ => false end.
Definition is_inconsistent (c : odict Z CacheEntry) (version : Z) : bool :=
  let keys := py_sorted Z.leb (od_keys c) in
  let entry k := od_get c k in
  match entry version with
  | None => false
  | Some t =>
      match key_before keys version ≫= entry with
      | Some before => option_lt (ce_early t) (ce_late before)
      | None => false
      end
      || match key_after keys version ≫= entry with
         | Some after => option_lt (ce_early after) (ce_late t)
         | None => false
         end
  end.
Definition cache_update (cache : ManifestCache) (manifest : RemoteManifest) (timestamp : option DateTime)
    : ManifestCache * bool :=
  let c := grow timestamp manifest (default [] (cache !! rm_id manifest)) in
  (<[rm_id manifest := c]> cache, is_inconsistent c (rm_version manifest)).

(** ** The lister *)

(** What a [TaskNode] calls: [partial(self._populate_tree_list_versions, ...)] or
    [partial(self._populate_tree_load, ...)]. *)
Inductive Task :=
| PopulateListVersions (path_level : nat) (entry_id : EntryID) (early late : DateTime)
| PopulateLoad (path_level : nat) (entry_id : EntryID) (early late : DateTime) (version_number : Z)
    (expected_timestamp : DateTime).
(** [TaskNode]; the parent and the children are positions in the list of the nodes. *)
Record TaskNode := mkTaskNode {
  tn_callable : Task; tn_timestamp : DateTime; tn_parent : option nat; tn_children : list nat;
  tn_completed : bool }.

(** The state of a listing: the loader, [ManifestCache], [VersionsListCache],
    [ManifestCacheCounter], the nodes with the heap of those to run and the root of
    their tree ([VersionListerTaskList]), and [return_dict]. *)
Record Lister (L : Type) := mkLister {
  vl_loader : L;
  vl_manifests : gmap EntryID (odict Z CacheEntry);
  vl_versions_lists : gmap EntryID (list (Z * (DateTime * DeviceID)));
  vl_counter : Z;
  vl_limit : option Z;
  vl_nodes : list TaskNode;
  vl_heapq_tasks : list nat;
  vl_task_tree : option nat;
  vl_return_dict : odict TimestampBoundedEntry ManifestDataAndPaths }.
Arguments mkLister {L} _ _ _ _ _ _ _ _ _.
Arguments vl_loader {L} _.
Arguments vl_manifests {L} _.
Arguments vl_versions_lists {L} _.
Arguments vl_counter {L} _.
Arguments vl_limit {L} _.
Arguments vl_nodes {L} _.
Arguments vl_heapq_tasks {L} _.
Arguments vl_task_tree {L} _.
Arguments vl_return_dict {L} _.

Section lister.
Context {L : Type} `{HistoryLoader L}.
Abbreviation vlM := (stM (Lister L) VersionExn) (only parsing).

Definition set_caches (manifests : gmap EntryID (odict Z CacheEntry))
    (lists : gmap EntryID (list (Z * (DateTime * DeviceID)))) (counter : Z) (s : Lister L) : Lister L :=
  mkLister (vl_loader s) manifests lists counter (vl_limit s) (vl_nodes s) (vl_heapq_tasks s)
    (vl_task_tree s) (vl_return_dict s).
Definition set_tasks (nodes : list TaskNode) (heap : list nat) (tree : option nat) (s : Lister L)
    : Lister L :=
  mkLister (vl_loader s) (vl_manifests s) (vl_versions_lists s) (vl_counter s) (vl_limit s) nodes heap
    tree (vl_return_dict s).
Definition set_return_dict (d : odict TimestampBoundedEntry ManifestDataAndPaths) (s : Lister L)
    : Lister L :=
  mkLister (vl_loader s) (vl_manifests s) (vl_versions_lists s) (vl_counter s) (vl_limit s)
    (vl_nodes s) (vl_heapq_tasks s) (vl_task_tree s) d.
(** [self._remote_loader] *)
Definition on_loader {A} (m : stM L FSExn A) : vlM A := λ s,
  let '(l, r) := m (vl_loader s) in
  (mkLister l (vl_manifests s) (vl_versions_lists s) (vl_counter s) (vl_limit s) (vl_nodes s)
     (vl_heapq_tasks s) (vl_task_tree s) (vl_return_dict s),
   match r with Ok a => Ok a | Err e => Err (OfFS e) end).

(** [ManifestCache.load]: the manifest, and whether it was downloaded. *)
Definition manifest_cache_load (entry_id : EntryID) (version : option Z)
    (timestamp expected_backend_timestamp : option DateTime) : vlM (RemoteManifest * bool) :=
  cache ← gets vl_manifests;
  match cache_get cache entry_id version timestamp with
  | Some manifest => mret (manifest, false)
  | None =>
      manifest ← on_loader (hl_load_manifest entry_id version timestamp expected_backend_timestamp);
      cache ← gets vl_manifests;
      let '(cache, inconsistent) := cache_update cache manifest timestamp in
      _ ← modify (λ s, set_caches cache (vl_versions_lists s) (vl_counter s) s);
      _ ← raise_if inconsistent ManifestCacheInconsistent;
      mret (manifest, true)
  end.

(** [get_path_at_timestamp]: the [for ... else] that finds the name of a child, and
    the loop up to the root. The order of the names in a dict of children is not
    kept: one entry has one name. *)
Definition is_not_found (e : VersionExn) : bool :=
  match e with
  | OfFS (FSRemoteManifestNotFound _) | OfFS (FSRemoteManifestNotFoundBadVersion _)
  | OfFS (FSRemoteManifestNotFoundBadTimestamp _) => true
  | _ => false
  end.
Definition load_or_not_found (entry_id : EntryID) (timestamp : DateTime) : vlM RemoteManifest :=
  try_catch ('(m, _) ← manifest_cache_load entry_id None (Some timestamp) None; mret m)
    (λ e, if is_not_found e then mthrow EntryNotFound else mthrow e).
Definition name_of (children : gmap EntryName EntryID) (child : EntryID) : option EntryName :=
  fst <$> find (λ '(_, child_id), bool_decide (child_id = child)) (map_to_list children).
Fixpoint path_up (fuel : nat) (timestamp : DateTime) (current_id : EntryID)
    (current_manifest : RemoteManifest) (parts : list EntryName) : vlM FsPath :=
  if is_remote_workspace current_manifest then mret parts
  else
    match fuel with
    | O => mthrow VlTooDeep
    | S fuel =>
        parent ← of_option VlAttributeError (rm_parent current_manifest);
        parent_manifest ← load_or_not_found parent timestamp;
        children ← of_option VlAttributeError (rm_children parent_manifest);
        name ← of_option EntryNotFound (name_of children current_id);
        path_up fuel timestamp parent parent_manifest (name :: parts)
    end.
Definition get_path_at_timestamp (fuel : nat) (entry_id : EntryID) (timestamp : DateTime) : vlM FsPath :=
  current_manifest ← load_or_not_found entry_id timestamp;
  path_up fuel timestamp entry_id current_manifest [].
(** [try_get_path_at_timestamp] *)
Definition try_get_path_at_timestamp (fuel : nat) (entry_id : EntryID) (timestamp : DateTime)
    : vlM (option FsPath) :=
  try_catch (Some <$> get_path_at_timestamp fuel entry_id timestamp)
    (λ e, if decide (e = EntryNotFound) then mret None else mthrow e).

(** [ManifestCacheCounter.load] *)
Definition limit_reached (limit : option Z) (counter : Z) : bool :=
  match truthy_number limit with Some limit => limit <=? counter | None => false end.
Definition counter_load (entry_id : EntryID) (version : option Z)
    (expected_backend_timestamp : option DateTime) : vlM RemoteManifest :=
  s ← gets id;
  _ ← raise_if (limit_reached (vl_limit s) (vl_counter s)) ManifestCacheDownloadLimitReached;
  '(manifest, was_downloaded) ← manifest_cache_load entry_id version None expected_backend_timestamp;
  _ ← (if was_downloaded : bool then
         modify (λ s, set_caches (vl_manifests s) (vl_versions_lists s) (vl_counter s + 1) s)
       else mret tt);
  mret manifest.

(** [VersionsListCache.load] *)
Definition versions_list_load (entry_id : EntryID) : vlM (list (Z * (DateTime * DeviceID))) :=
  lists ← gets vl_versions_lists;
  match lists !! entry_id with
  | Some l => mret l
  | None =>
      l ← on_loader (hl_list_versions entry_id);
      _ ← modify (λ s, set_caches (vl_manifests s) (<[entry_id := l]> (vl_versions_lists s))
                         (vl_counter s) s);
      mret l
  end.

(** [TaskNode.__init__] and [VersionListerTaskList.add] *)
Definition add_child (node : nat) (t : TaskNode) : TaskNode :=
  mkTaskNode (tn_callable t) (tn_timestamp t) (tn_parent t) (tn_children t ++ [node]) (tn_completed t).
Definition task_add (callable : Task) (timestamp : DateTime) (parent : option nat) : vlM unit :=
  s ← gets id;
  let node := length (vl_nodes s) in
  let nodes :=
    match parent with Some p => alter (add_child node) p (vl_nodes s) | None => vl_nodes s end
    ++ [mkTaskNode callable timestamp parent [] false] in
  _ ← modify (set_tasks nodes (vl_heapq_tasks s ++ [node]) (vl_task_tree s));
  match parent with
  | Some _ => mret tt
  | None =>
      _ ← raise_if (bool_decide (is_Some (vl_task_tree s))) VersionListerTaskListNodeMissingParent;
      modify (λ s, set_tasks (vl_nodes s) (vl_heapq_tasks s) (Some node) s)
  end.

(** [mark_complete], up to the root; [run] calls it when no child is left. *)
Definition node_completed (nodes : list TaskNode) (i : nat) : bool :=
  match nodes !! i with Some t => tn_completed t | None => true end.
Definition set_completed (t : TaskNode) : TaskNode :=
  mkTaskNode (tn_callable t) (tn_timestamp t) (tn_parent t) (tn_children t) true.
Fixpoint mark_complete (depth : nat) (nodes : list TaskNode) (i : nat) : list TaskNode :=
  let nodes := alter set_completed i nodes in
  match depth, nodes !! i ≫= tn_parent with
  | S depth, Some p =>
      if forallb (node_completed nodes) (default [] (tn_children <$> nodes !! p))
      then mark_complete depth nodes p else nodes
  | _, _ => nodes
  end.
Definition finish_run (i : nat) : vlM unit :=
  s ← gets id;
  if forallb (node_completed (vl_nodes s)) (default [] (tn_children <$> vl_nodes s !! i))
  then modify (set_tasks (mark_complete (length (vl_nodes s)) (vl_nodes s) i) (vl_heapq_tasks s)
                 (vl_task_tree s))
  else mret tt.

(** [get_earliest_completed_consecutive_timestamp] *)
Definition max_default (l : list Z) : option Z :=
  match l with [] => None | x :: l => Some (foldl Z.max x l) end.
Definition min_default (l : list Z) (default : Z) : Z :=
  match l with [] => default | x :: l => foldl Z.min x l end.
Fixpoint earliest_completed (depth : nat) (nodes : list TaskNode) (i : nat) : DateTime :=
  match nodes !! i, depth with
  | Some t, S depth =>
      if tn_completed t then tn_timestamp t
      else
        let results := (λ c, (earliest_completed depth nodes c, node_completed nodes c))
                         <$> tn_children t in
        match max_default (filter (λ r, r.2 = false) results).*1 with
        | None => tn_timestamp t
        | Some latest_invalid =>
            min_default (filter (λ r, r.2 = true ∧ latest_invalid < r.1) results).*1 latest_invalid
        end
  | Some t, O => tn_timestamp t
  | None, _ => 0
  end.

(** ** [VersionListerOneShot] *)

(** The path, as [target.parts]; the interpreter's patience for the paths of the
    entries. *)
Context (target : FsPath) (fuel : nat).

(** [_populate_tree_list_versions] *)
Definition next_version (versions : list (Z * (DateTime * DeviceID))) (version : Z) : option Z :=
  match filter (λ v, version < v) versions.*1 with
  | [] => None
  | v :: l => Some (foldl Z.min v l)
  end.
Definition populate_tree_list_versions (path_level : nat) (entry_id : EntryID) (early late : DateTime)
    (parent : nat) : vlM unit :=
  versions ← versions_list_load entry_id;
  for_each (λ '(version, (timestamp, creator)),
    let next := next_version versions version in
    _ ← raise_if (match truthy_number next with
                  | Some next => bool_decide (next ≠ version + 1)
                  | None => false
                  end) VersionsListInconsistent;
    let late := match next ≫= od_get versions with
                | Some (next_timestamp, _) => Z.min late next_timestamp
                | None => late
                end in
    task_add (PopulateLoad path_level entry_id (Z.max early timestamp) late version timestamp)
      (Z.max early timestamp) (Some parent)) versions.

(** [populate_paths]: the three tasks one after the other. *)
Definition manifest_data (m : RemoteManifest) : ManifestData :=
  mkManifestData (rm_author m) (rm_updated m) (is_remote_folder m)
    (match m with RFile m => Some (fim_size m) | _ => None end).
Definition unless_current (current path : option FsPath) : option FsPath :=
  if decide (path = current) then None else path.
Definition populate_paths (entry_id : EntryID) (early late : DateTime)
    : vlM (option FsPath * option FsPath) :=
  source_path ← try_get_path_at_timestamp fuel entry_id (early - 1);
  destination_path ← try_get_path_at_timestamp fuel entry_id late;
  current_path ← try_get_path_at_timestamp fuel entry_id early;
  mret (unless_current current_path source_path, unless_current current_path destination_path).
(** [_populate_tree_load] *)
Definition populate_tree_load (path_level : nat) (entry_id : EntryID) (early late : DateTime)
    (version_number : Z) (expected_timestamp : DateTime) (parent : nat) : vlM unit :=
  if late <? early then mret tt
  else
    manifest ← counter_load entry_id (Some version_number) (Some expected_timestamp);
    match drop path_level target with
    | [] =>
        '(source, destination) ← populate_paths entry_id early late;
        modify (λ s, set_return_dict (od_set (vl_return_dict s)
          (mkTimestampBoundedEntry (rm_id manifest) (rm_version manifest) early late)
          (mkManifestDataAndPaths (manifest_data manifest) source destination)) s)
    | part :: _ =>
        if is_remote_file manifest then mret tt
        else
          children ← of_option VlAttributeError (rm_children manifest);
          match children !! part with
          | Some child_id =>
              populate_tree_list_versions (S path_level) child_id early late parent
          | None => mret tt
          end
    end.

(** [TaskNode.run] *)
Definition run_task (i : nat) (callable : Task) : vlM unit :=
  match callable with
  | PopulateListVersions path_level entry_id early late =>
      populate_tree_list_versions path_level entry_id early late i
  | PopulateLoad path_level entry_id early late version_number expected_timestamp =>
      populate_tree_load path_level entry_id early late version_number expected_timestamp i
  end.
Definition node_run (i : nat) : vlM unit :=
  nodes ← gets vl_nodes;
  t ← of_option VlKeyError (nodes !! i);
  _ ← run_task i (tn_callable t);
  finish_run i.

(** [heappop]: one of the tasks with the least timestamp; which one of them is
    [pick]'s choice, so that the order of the ties, which the heap decides, is any. *)
Definition least (nodes : list TaskNode) (heap : list nat) : list nat :=
  filter (λ i, forallb (λ j,
    match nodes !! i, nodes !! j with
    | Some t, Some u => tn_timestamp t <=? tn_timestamp u
    | _, _ => true
    end) heap = true) heap.
Definition heappop (pick : list nat → nat) : vlM (option nat) :=
  s ← gets id;
  let candidates := least (vl_nodes s) (vl_heapq_tasks s) in
  match candidates !! (pick candidates mod length candidates)%nat with
  | None => mret None
  | Some i =>
      _ ← modify (set_tasks (vl_nodes s) (filter (λ j, j ≠ i) (vl_heapq_tasks s)) (vl_task_tree s));
      mret (Some i)
  end.
(** [execute_one] and the loop of [execute_worker], with one worker. *)
Definition execute_one (pick : list nat → nat) : vlM unit :=
  task ← heappop pick;
  match task with Some i => node_run i | None => mret tt end.
Fixpoint execute (pick : list nat → nat) (turns : nat) : vlM unit :=
  heap ← gets vl_heapq_tasks;
  match heap, turns with
  | [], _ => mret tt
  | _, O => mthrow VlTooDeep
  | _, S turns => _ ← execute_one pick; execute pick turns
  end.

(** [_sanitize_list] *)
Definition merged (previous item : TimestampBoundedData) : TimestampBoundedData :=
  mkTimestampBoundedData (tb_id item) (tb_version item) (tb_early previous) (tb_late item)
    (tb_creator item) (tb_updated item) (tb_is_folder item) (tb_size item) (tb_source previous)
    (tb_destination item).
Definition same_version (previous item : TimestampBoundedData) : bool :=
  bool_decide (tb_id previous = tb_id item) && (tb_version previous =? tb_version item)
  && (tb_late previous =? tb_early item).
Definition is_minimal_sync (previous item : TimestampBoundedData) : bool :=
  bool_decide (tb_id previous = tb_id item) && (tb_version previous =? tb_version item - 1)
  && (tb_version previous =? 1) && bool_decide (tb_size previous = Some 0)
  && Bool.eqb (tb_is_folder previous) (tb_is_folder item)
  && (tb_late previous =? tb_early item)
  && (tb_late previous <? tb_early previous + SYNC_GUESSED_TIME_FRAME * SECOND)
  && negb (bool_decide (is_Some (tb_source previous))).
Fixpoint sanitize_loop (skip_minimal_sync : bool) (previous : TimestampBoundedData)
    (versions_list : list TimestampBoundedData) : list TimestampBoundedData :=
  match versions_list with
  | [] => [previous]
  | item :: versions_list =>
      if same_version previous item then sanitize_loop skip_minimal_sync (merged previous item) versions_list
      else if skip_minimal_sync && is_minimal_sync previous item
      then sanitize_loop skip_minimal_sync item versions_list
      else previous :: sanitize_loop skip_minimal_sync item versions_list
  end.
Definition sanitize_list (versions_list : list TimestampBoundedData) (skip_minimal_sync : bool)
    : list TimestampBoundedData :=
  match versions_list with
  | [] => []
  | item :: versions_list => sanitize_loop skip_minimal_sync item versions_list
  end.

(** [list]: the id and the date of creation are those of the root manifest of the
    workspace; the boolean is the one that the code calls [download_limit_reached]. *)
Definition item_key_leb (x y : TimestampBoundedEntry) : bool :=
  (te_late x <? te_late y)
  || ((te_late x =? te_late y)
      && ((te_id x <? te_id y)%N
          || ((te_id x =? te_id y)%N && (te_version x <=? te_version y)))).
Definition bounded_data (k : TimestampBoundedEntry) (v : ManifestDataAndPaths) : TimestampBoundedData :=
  mkTimestampBoundedData (te_id k) (te_version k) (te_early k) (te_late k) (md_creator (mp_data v))
    (md_updated (mp_data v)) (md_is_folder (mp_data v)) (md_size (mp_data v)) (mp_source v)
    (mp_destination v).
Definition tree_state (s : Lister L) : bool * option DateTime :=
  match vl_task_tree s with
  | Some root => (node_completed (vl_nodes s) root,
                  Some (earliest_completed (length (vl_nodes s)) (vl_nodes s) root))
  | None => (false, None)
  end.
Definition list_path (pick : list nat → nat) (turns : nat) (root_id : EntryID) (root_created : DateTime)
    (skip_minimal_sync : bool) (starting_timestamp : option DateTime) (ending_timestamp : DateTime)
    : vlM (list TimestampBoundedData * bool) :=
  let early := default root_created starting_timestamp in
  '(download_limit_reached, download_limit) ←
    try_catch
      (_ ← task_add (PopulateListVersions 0 root_id early ending_timestamp) early None;
       _ ← execute pick turns;
       mret (true, None))
      (λ e, if decide (e = ManifestCacheDownloadLimitReached)
            then gets tree_state else mthrow e);
  d ← gets vl_return_dict;
  let versions_list :=
    (λ '(k, v), bounded_data k v)
      <$> filter (λ '(k, v), download_limit_reached
             || match download_limit with Some l => te_early k <? l | None => false end)
            (py_sorted (λ x y, item_key_leb x.1 y.1) d) in
  mret (sanitize_list versions_list skip_minimal_sync, download_limit_reached).
End lister.

(** [VersionLister] and [VersionListerOneShot.__init__]: a listing starts with the
    caches of the lister, no task and no result. *)
Definition new_listing {L} (loader : L) (manifests : gmap EntryID (odict Z CacheEntry))
    (lists : gmap EntryID (list (Z * (DateTime * DeviceID)))) (max_manifest_queries : option Z)
    : Lister L :=
  mkLister loader manifests lists 0 max_manifest_queries [] [] None [].
