(* ===== verification/VersioningProofs.v ===== *)
(** The history of a path, against the history that the server has: the cache of the
    manifests is transparent, and the tasks find every version that was at the path. *)

From S2P Require Import Prelude PyString Types ApiManifest Chunk EntryTransactions Versioning.

(** ** The reference *)

(** The revisions of the entries, in the order of their versions: what the server has. *)
Record Revision := mkRevision {
  rv_timestamp : DateTime; rv_creator : DeviceID; rv_manifest : RemoteManifest }.
Definition rv_version (r : Revision) : Z := rm_version (rv_manifest r).

Section history.
Context (h : EntryID → list Revision).

(** The versions count from 1, their dates never go back, a manifest has the id of
    its entry, there is no user manifest and the children are known. *)
Record history_wf : Prop := {
  hw_version e i r : h e !! i = Some r → rv_version r = Z.of_nat i + 1 ∧ rm_id (rv_manifest r) = e;
  hw_dates e : StronglySorted (λ r r', rv_timestamp r <= rv_timestamp r') (h e);
  hw_no_user e r u : r ∈ h e → rv_manifest r ≠ RUser u;
  hw_children e r cs n c : r ∈ h e → rm_children (rv_manifest r) = Some cs → cs !! n = Some c → h c ≠ [] }.

(** The revision of an entry at some time: the last one that is not later. *)
Definition held (e : EntryID) (t : DateTime) : option Revision :=
  last (filter (λ r, rv_timestamp r <= t) (h e)).

(** What a path leads to at some time. *)
Fixpoint path_at (t : DateTime) (path : FsPath) (e : EntryID) : option Revision :=
  r ← held e t;
  match path with
  | [] => Some r
  | n :: path => cs ← rm_children (rv_manifest r); c ← cs !! n; path_at t path c
  end.

(** The path of an entry at some time, up through the parents. *)
Fixpoint up (fuel : nat) (t : DateTime) (id : EntryID) (m : RemoteManifest) (parts : FsPath)
    : result VersionExn FsPath :=
  if is_remote_workspace m then Ok parts
  else
    match fuel with
    | O => Err VlTooDeep
    | S fuel =>
        match rm_parent m with
        | None => Err VlAttributeError
        | Some p =>
            match held p t with
            | None => Err EntryNotFound
            | Some r =>
                match rm_children (rv_manifest r) with
                | None => Err VlAttributeError
                | Some cs =>
                    match name_of cs id with
                    | None => Err EntryNotFound
                    | Some n => up fuel t p (rv_manifest r) (n :: parts)
                    end
                end
            end
        end
    end.
Definition path_of (fuel : nat) (e : EntryID) (t : DateTime) : result VersionExn FsPath :=
  match held e t with None => Err EntryNotFound | Some r => up fuel t e (rv_manifest r) [] end.

(** The versions of an entry, as the server lists them. *)
Definition listed (e : EntryID) : list (Z * (DateTime * DeviceID)) :=
  (λ r, (rv_version r, (rv_timestamp r, rv_creator r))) <$> h e.

(** *** Its facts *)

Context (Hwf : history_wf).

Lemma held_elem e t r : held e t = Some r → r ∈ h e ∧ rv_timestamp r <= t.
Proof.
  unfold held. intros Hl%last_Some_elem_of. apply list_elem_of_filter in Hl. tauto.
Qed.
(** Dates are sorted: the revisions up to a date are a prefix. *)
Lemma filter_prefix t (l : list Revision) :
  StronglySorted (λ r r', rv_timestamp r <= rv_timestamp r') l →
  ∃ k, filter (λ r, rv_timestamp r <= t) l = take k l ∧
    ∀ i r, l !! i = Some r → (i < k)%nat ↔ rv_timestamp r <= t.
Proof.
  induction 1 as [|r l Hs IH Hr]; [by exists O|].
  destruct (decide (rv_timestamp r <= t)) as [Hle|Hgt].
  - destruct IH as (k & E & Hk). exists (S k). rewrite filter_cons_True by done. split; [cbn; by rewrite E|].
    intros [|i] r'; cbn; [intros [= <-]; split; [done|lia]|]. intros Hi. rewrite <-(Hk i r' Hi). lia.
  - exists O. split.
    + rewrite filter_cons_False by done. 
      cbn. clear IH Hs. induction Hr as [|r' l Hr' _ IH]; [done|].
      rewrite filter_cons_False by lia. exact IH.
    + intros i r' Hi. split; [lia|]. intros Hle.
      destruct i; cbn in Hi; [by injection Hi as ->|].
      rewrite Forall_forall in Hr. apply list_elem_of_lookup_2, Hr in Hi. lia.
Qed.
Lemma held_spec e t r :
  held e t = Some r ↔
  ∃ i, h e !! i = Some r ∧ rv_timestamp r <= t ∧
    (∀ r', h e !! S i = Some r' → t < rv_timestamp r').
Proof.
  destruct (filter_prefix t (h e) (hw_dates Hwf e)) as (k & E & Hk). unfold held. rewrite E.
  destruct k as [|k].
  - rewrite take_0. split; [done|]. intros (i & Hi & Hle & _). apply (Hk _ _ Hi) in Hle. lia.
  - destruct (h e !! k) as [x|] eqn:Hx.
    + rewrite (take_S_r _ _ _ Hx), last_snoc. split.
      * intros [= ->]. exists k. split_and!; [done|apply (Hk _ _ Hx); lia|].
        intros r' Hr'. destruct (decide (rv_timestamp r' <= t)) as [Hle|]; [|lia].
        apply (Hk _ _ Hr') in Hle. lia.
      * intros (i & Hi & Hle & Hnext). apply (Hk _ _ Hi) in Hle.
        destruct (decide (i = k)) as [->|]; [congruence|].
        destruct (lookup_lt_is_Some_2 (h e) (S i)) as [r' Hr'].
        { apply lookup_lt_Some in Hx. lia. }
        specialize (Hnext _ Hr'). assert (S i < S k)%nat as Hlt by lia. apply (Hk _ _ Hr') in Hlt. lia.
    + apply lookup_ge_None in Hx. rewrite take_ge by lia.
      split.
      * intros Hl. rewrite last_lookup in Hl. eexists. split; [exact Hl|]. split.
        { apply (Hk _ _ Hl). apply lookup_lt_Some in Hl. lia. }
        intros r' Hr'. apply lookup_lt_Some in Hr'. lia.
      * intros (i & Hi & Hle & Hnext). rewrite last_lookup.
        destruct (h e !! S i) as [r'|] eqn:Hr'.
        { specialize (Hnext _ eq_refl). pose proof (lookup_lt_Some _ _ _ Hr').
          assert (S i < S k)%nat as Hlt by lia. apply (Hk _ _ Hr') in Hlt. lia. }
        apply lookup_ge_None in Hr'. pose proof (lookup_lt_Some _ _ _ Hi).
        by replace (pred (length (h e))) with i by lia.
Qed.

Lemma dates_sorted e i j r r' :
  h e !! i = Some r → h e !! j = Some r' → (i <= j)%nat → rv_timestamp r <= rv_timestamp r'.
Proof.
  intros Hi Hj Hle. destruct (decide (i = j)) as [->|]; [assert (r = r') as -> by congruence; lia|].
  pose proof (hw_dates Hwf e) as Hs. rewrite <-(take_drop j (h e)) in Hs.
  apply StronglySorted_app in Hs as (Hall & _). apply Hall.
  - apply list_elem_of_lookup. exists i. by rewrite lookup_take_lt by lia.
  - rewrite (drop_S _ _ _ Hj). set_solver.
Qed.
Lemma held_index e t r i : held e t = Some r → h e !! i = Some r → rv_version r = Z.of_nat i + 1.
Proof. intros _ Hi. by apply (hw_version Hwf e). Qed.
Lemma held_mono e t t' r r' :
  t <= t' → held e t = Some r → held e t' = Some r' → rv_version r <= rv_version r'.
Proof.
  intros Ht (i & Hi & Hle & _)%held_spec (j & Hj & _ & Hnext)%held_spec.
  destruct (hw_version Hwf _ _ _ Hi) as [-> _], (hw_version Hwf _ _ _ Hj) as [-> _].
  destruct (decide (i <= j)%nat); [lia|].
  destruct (lookup_lt_is_Some_2 (h e) (S j)) as [x Hx]; [apply lookup_lt_Some in Hi; lia|].
  specialize (Hnext _ Hx). pose proof (dates_sorted _ _ _ _ _ Hx Hi). lia.
Qed.
Lemma held_between e a t b r :
  a <= t → t <= b → held e a = Some r → held e b = Some r → held e t = Some r.
Proof.
  intros Ha Hb (i & Hi & Hle & _)%held_spec (j & Hj & _ & Hnext)%held_spec.
  assert (i = j) as <-.
  { pose proof (proj1 (hw_version Hwf _ _ _ Hi)). pose proof (proj1 (hw_version Hwf _ _ _ Hj)). lia. }
  apply held_spec. exists i. split_and!; [done|lia|]. intros r' Hr'. specialize (Hnext _ Hr'). lia.
Qed.
Lemma held_some e t i r : h e !! i = Some r → rv_timestamp r <= t → is_Some (held e t).
Proof.
  intros Hi Hle. unfold held. apply last_is_Some. intros Hn.
  assert (r ∈ filter (λ r, rv_timestamp r <= t) (h e)) as Hin.
  { apply list_elem_of_filter. split; [done|]. by eapply list_elem_of_lookup_2. }
  rewrite Hn in Hin. by apply not_elem_of_nil in Hin.
Qed.

(** ** The cache of the manifests *)

(** What the cache knows is in the history: the version was held from one of its
    dates to the other. *)
Definition frame_sound (e : EntryID) (r : Revision) (early late : option DateTime) : Prop :=
  match early, late with
  | Some a, Some b => a <= b ∧ held e a = Some r ∧ held e b = Some r
  | None, None => True
  | _, _ => False
  end.
Definition entry_sound (e : EntryID) (v : Z) (t : CacheEntry) : Prop :=
  ∃ i r, h e !! i = Some r ∧ v = rv_version r ∧ ce_manifest t = rv_manifest r ∧
    frame_sound e r (ce_early t) (ce_late t).
Record cache_sound (cache : gmap EntryID (odict Z CacheEntry)) : Prop := {
  cs_nodup e c : cache !! e = Some c → NoDup (od_keys c);
  cs_entries e c v t : cache !! e = Some c → od_get c v = Some t → entry_sound e v t }.

Lemma find_spec {A} (f : A → bool) (l : list A) x : find f l = Some x → x ∈ l ∧ f x = true.
Proof. intros [Hin Hf]%find_some. by rewrite list_elem_of_In. Qed.
Lemma od_values_get {V} (d : odict Z V) v : NoDup (od_keys d) → v ∈ od_values d → ∃ k, od_get d k = Some v.
Proof.
  intros Hn Hv. unfold od_values in Hv. apply list_elem_of_fmap in Hv as ([k x] & -> & Hin).
  exists k. by apply od_elem_get.
Qed.

(** What is read at a date is what was held at this date. *)
Lemma cache_get_timestamp cache e t m :
  cache_sound cache → cache_get cache e None (Some t) = Some m →
  ∃ r, held e t = Some r ∧ m = rv_manifest r.
Proof.
  intros Hc. unfold cache_get. cbn [truthy_number]. intros (x & Hx & ->)%fmap_Some.
  apply bind_Some in Hx as (c & Hce & (Hin & Hat)%find_spec).
  destruct (od_values_get _ _ (cs_nodup _ Hc _ _ Hce) Hin) as (v & Hv).
  destruct (cs_entries _ Hc _ _ _ _ Hce Hv) as (i & r & Hi & _ & -> & Hf).
  exists r. split; [|done]. unfold holds_at in Hat. unfold frame_sound in Hf.
  destruct (ce_early x) as [a|], (ce_late x) as [b|]; try done.
  apply andb_true_iff in Hat as [Ha%Z.leb_le Hb%Z.leb_le]. destruct Hf as (_ & H1 & H2).
  by apply (held_between _ a t b).
Qed.
Lemma cache_get_version cache e v m i r :
  cache_sound cache → h e !! i = Some r → v = rv_version r →
  cache_get cache e (Some v) None = Some m → m = rv_manifest r.
Proof.
  intros Hc Hi -> E. destruct (hw_version Hwf _ _ _ Hi) as [Hv _]. unfold cache_get in E.
  assert (truthy_number (Some (rv_version r)) = Some (rv_version r)) as Ht.
  { rewrite Hv. unfold truthy_number. by destruct (Z.of_nat i + 1) eqn:?; [lia|..]. }
  rewrite Ht in E. apply fmap_Some in E as (x & Hx & ->).
  apply bind_Some in Hx as (c & Hce & Hg).
  destruct (cs_entries _ Hc _ _ _ _ Hce Hg) as (j & r' & Hj & Hvr & -> & _).
  destruct (hw_version Hwf _ _ _ Hj) as [Hv' _]. assert (i = j) as <- by lia. congruence.
Qed.

(** Growing a time frame with a date at which the version was held. *)
Lemma grow_sound e i r timestamp c :
  h e !! i = Some r → (∀ t, timestamp = Some t → held e t = Some r) →
  NoDup (od_keys c) → (∀ v t, od_get c v = Some t → entry_sound e v t) →
  NoDup (od_keys (grow timestamp (rv_manifest r) c)) ∧
  (∀ v t, od_get (grow timestamp (rv_manifest r) c) v = Some t → entry_sound e v t).
Proof.
  intros Hi Ht Hn Hc. unfold grow. fold (rv_version r).
  assert (∀ x, entry_sound e (rv_version r) x →
    NoDup (od_keys (od_set c (rv_version r) x)) ∧
    (∀ v t, od_get (od_set c (rv_version r) x) v = Some t → entry_sound e v t)) as Hset.
  { intros x Hx. split; [by apply od_set_NoDup|]. intros v t. rewrite od_get_set_case.
    case_decide; [by intros [= <-]; subst|apply Hc]. }
  destruct (od_get c (rv_version r)) as [t|] eqn:Eg.
  - destruct timestamp as [ts|]; [|by split].
    apply Hset. specialize (Ht _ eq_refl).
    destruct (Hc _ _ Eg) as (j & r' & Hj & Hv & Hm & Hf).
    assert (r' = r) as ->.
    { destruct (hw_version Hwf _ _ _ Hi), (hw_version Hwf _ _ _ Hj). assert (i = j) by lia. congruence. }
    exists i, r. destruct t as [[a|] [b|] x]; cbn in Hm, Hf; try done; unfold grow_late, grow_early; cbn.
    destruct Hf as (Hab & Ha & Hb).
    destruct (Z.ltb_spec b ts); cbn; destruct (Z.ltb_spec ts a); cbn; split_and!; done || lia.
  - apply Hset. exists i, r. split_and!; [done|done|done|]. cbn. unfold frame_sound.
    destruct timestamp as [ts|]; [|done]. specialize (Ht _ eq_refl). split_and!; done || lia.
Qed.
Lemma key_before_spec keys v k : key_before keys v = Some k → k ∈ keys ∧ k < v.
Proof. unfold key_before. intros Hl%last_Some_elem_of. apply list_elem_of_filter in Hl. tauto. Qed.
Lemma key_after_spec keys v k : key_after keys v = Some k → k ∈ keys ∧ v < k.
Proof. unfold key_after. intros Hl%head_Some_elem_of. apply list_elem_of_filter in Hl. tauto. Qed.
(** No version overlaps another one. *)
Lemma frames_disjoint e v v' t t' :
  entry_sound e v t → entry_sound e v' t' → v < v' → option_lt (ce_early t') (ce_late t) = false.
Proof.
  intros (i & r & _ & -> & _ & Hf) (j & r' & _ & -> & _ & Hf') Hlt. unfold option_lt, frame_sound in *.
  destruct (ce_early t') as [a'|], (ce_late t) as [b|]; try done.
  destruct (ce_early t) as [a|]; [|done]. destruct (ce_late t') as [b'|]; [|done].
  destruct Hf as (_ & _ & Hb), Hf' as (_ & Ha' & _).
  destruct (Z.ltb_spec a' b) as [Hlt'|]; [|done].
  pose proof (held_mono _ _ _ _ _ (Z.lt_le_incl _ _ Hlt') Ha' Hb). lia.
Qed.
Lemma consistent e c v : 
  (∀ v t, od_get c v = Some t → entry_sound e v t) → is_inconsistent c v = false.
Proof.
  intros Hc. unfold is_inconsistent. destruct (od_get c v) as [t|] eqn:Et; [|done].
  apply orb_false_iff. split.
  - destruct (key_before _ v ≫= _) as [t'|] eqn:E; [|done]. apply bind_Some in E as (k & Hk & Hg).
    apply key_before_spec in Hk as [_ Hlt]. by apply (frames_disjoint e k v); auto.
  - destruct (key_after _ v ≫= _) as [t'|] eqn:E; [|done]. apply bind_Some in E as (k & Hk & Hg).
    apply key_after_spec in Hk as [_ Hlt]. by apply (frames_disjoint e v k); auto.
Qed.
Lemma cache_update_ok cache e i r timestamp :
  cache_sound cache → h e !! i = Some r → (∀ t, timestamp = Some t → held e t = Some r) →
  ∃ cache', cache_update cache (rv_manifest r) timestamp = (cache', false) ∧ cache_sound cache'.
Proof.
  intros Hc Hi Ht. unfold cache_update. destruct (hw_version Hwf _ _ _ Hi) as [_ ->].
  destruct (grow_sound e i r timestamp (default [] (cache !! e)) Hi Ht) as [Hn Hs].
  { destruct (cache !! e) eqn:E; [by eapply cs_nodup|constructor]. }
  { intros v t Hg. destruct (cache !! e) eqn:E; [by eapply cs_entries|done]. }
  rewrite (consistent e _ _ Hs). eexists. split; [reflexivity|]. split.
  - intros e' c [[<- <-]|[_ Hl]]%lookup_insert_Some; [done|by eapply cs_nodup].
  - intros e' c v t [[<- <-]|[_ Hl]]%lookup_insert_Some; [by apply Hs|by eapply cs_entries].
Qed.

(** ** The loads of a listing *)

Section loads.
Context {L : Type} `{HistoryLoader L}.

(** A loader that gives this history. *)
Record history_laws : Prop := {
  hl_list e l : h e ≠ [] → ∃ l', hl_list_versions e l = (l', Ok (listed e));
  hl_at_version e i r l : h e !! i = Some r →
    ∃ l', hl_load_manifest e (Some (rv_version r)) None (Some (rv_timestamp r)) l
          = (l', Ok (rv_manifest r));
  hl_at_date e t l : ∃ l' x, is_not_found (OfFS x) = true ∧
    hl_load_manifest e None (Some t) None l
    = (l', match held e t with Some r => Ok (rv_manifest r) | None => Err x end) }.
Context (Hlaws : history_laws).

Record sound (s : Lister L) : Prop := {
  so_cache : cache_sound (vl_manifests s);
  so_lists e l : vl_versions_lists s !! e = Some l → l = listed e }.
(** The tasks and the result are the same. *)
Record only_loads (s s' : Lister L) : Prop := {
  ol_limit : vl_limit s' = vl_limit s;
  ol_nodes : vl_nodes s' = vl_nodes s;
  ol_heap : vl_heapq_tasks s' = vl_heapq_tasks s;
  ol_tree : vl_task_tree s' = vl_task_tree s;
  ol_dict : vl_return_dict s' = vl_return_dict s }.
#[export] Instance only_loads_preorder : PreOrder only_loads.
Proof.
  split; [by intros []|]. intros s1 s2 s3 [] []. split; congruence.
Qed.

Lemma manifest_cache_load_timestamp s e t :
  sound s →
  ∃ s', sound s' ∧ only_loads s s' ∧
    match held e t with
    | Some r => ∃ b, manifest_cache_load e None (Some t) None s = (s', Ok (rv_manifest r, b))
    | None => ∃ x, is_not_found x = true ∧ manifest_cache_load e None (Some t) None s = (s', Err x)
    end.
Proof.
  intros [Hc Hl]. unfold manifest_cache_load. rewrite (bind_Ok _ _ _ s (vl_manifests s)) by done.
  destruct (cache_get (vl_manifests s) e None (Some t)) as [m|] eqn:Eg.
  - destruct (cache_get_timestamp _ _ _ _ Hc Eg) as (r & -> & ->). exists s. split_and!; [done|done|].
    by eexists.
  - destruct (hl_at_date Hlaws e t (vl_loader s)) as (l' & x & Hx & E).
    destruct (held e t) as [r|] eqn:Hr.
    + destruct (proj1 (held_spec _ _ _) Hr) as (i & Hi & _).
      destruct (cache_update_ok (vl_manifests s) e i r (Some t) Hc Hi) as (cache' & Eu & Hc').
      { by intros ? [= <-]. }
      set (s1 := mkLister l' (vl_manifests s) (vl_versions_lists s) (vl_counter s) (vl_limit s) (vl_nodes s)
        (vl_heapq_tasks s) (vl_task_tree s) (vl_return_dict s)).
      exists (set_caches cache' (vl_versions_lists s) (vl_counter s) s1). split_and!; [done|done|]. exists true.
      rewrite (bind_Ok _ _ _ s1 (rv_manifest r)) by (unfold on_loader; by rewrite E).
      rewrite (bind_Ok _ _ _ s1 (vl_manifests s)) by done. rewrite Eu. done.
    + exists (mkLister l' (vl_manifests s) (vl_versions_lists s) (vl_counter s) (vl_limit s) (vl_nodes s)
        (vl_heapq_tasks s) (vl_task_tree s) (vl_return_dict s)). split_and!; [done|done|].
      exists (OfFS x). split; [done|]. apply bind_Err. unfold on_loader. by rewrite E.
Qed.
Lemma load_or_not_found_ok s e t :
  sound s →
  ∃ s', sound s' ∧ only_loads s s' ∧
    load_or_not_found e t s
    = (s', match held e t with Some r => Ok (rv_manifest r) | None => Err EntryNotFound end).
Proof.
  intros Hs. destruct (manifest_cache_load_timestamp s e t Hs) as (s' & Hs' & Ho & E).
  exists s'. split_and!; [done|done|]. unfold load_or_not_found, try_catch.
  destruct (held e t) as [r|].
  - destruct E as (b & E). by rewrite (bind_Ok _ _ _ _ _ E).
  - destruct E as (x & Hx & E). rewrite (bind_Err _ _ _ _ _ E). by rewrite Hx.
Qed.
Lemma path_up_ok fuel t id m parts s :
  sound s →
  ∃ s', sound s' ∧ only_loads s s' ∧ path_up fuel t id m parts s = (s', up fuel t id m parts).
Proof.
  revert id m parts s. induction fuel as [|fuel IH]; intros id m parts s Hs; cbn [path_up up].
  - destruct (is_remote_workspace m); by exists s.
  - destruct (is_remote_workspace m); [by exists s|].
    destruct (rm_parent m) as [p|]; [|by exists s].
    rewrite (bind_Ok _ _ _ s p) by done.
    destruct (load_or_not_found_ok s p t Hs) as (s1 & Hs1 & Ho1 & E1).
    destruct (held p t) as [r|]; [|exists s1; split_and!; [done|done|by apply bind_Err]].
    rewrite (bind_Ok _ _ _ _ _ E1).
    destruct (rm_children (rv_manifest r)) as [cs|]; [|by exists s1].
    rewrite (bind_Ok _ _ _ s1 cs) by done.
    destruct (name_of cs id) as [n|]; [|by exists s1].
    rewrite (bind_Ok _ _ _ s1 n) by done.
    destruct (IH p (rv_manifest r) (n :: parts) s1 Hs1) as (s2 & Hs2 & Ho2 & E2).
    exists s2. split_and!; [done|by etrans|done].
Qed.
Lemma get_path_ok fuel e t s :
  sound s →
  ∃ s', sound s' ∧ only_loads s s' ∧ get_path_at_timestamp fuel e t s = (s', path_of fuel e t).
Proof.
  intros Hs. unfold get_path_at_timestamp, path_of.
  destruct (load_or_not_found_ok s e t Hs) as (s1 & Hs1 & Ho1 & E1).
  destruct (held e t) as [r|]; [|exists s1; split_and!; [done|done|by apply bind_Err]].
  rewrite (bind_Ok _ _ _ _ _ E1).
  destruct (path_up_ok fuel t e (rv_manifest r) [] s1 Hs1) as (s2 & Hs2 & Ho2 & E2).
  exists s2. split_and!; [done|by etrans|done].
Qed.

(** The paths of the entries end: the parents are folders up to the root. *)
Definition paths_end (fuel : nat) : Prop :=
  ∀ e t, path_of fuel e t = Err EntryNotFound ∨ ∃ p, path_of fuel e t = Ok p.
Definition path_option (fuel : nat) (e : EntryID) (t : DateTime) : option FsPath :=
  match path_of fuel e t with Ok p => Some p | Err _ => None end.
Lemma try_get_path_ok fuel e t s :
  paths_end fuel → sound s →
  ∃ s', sound s' ∧ only_loads s s' ∧
    try_get_path_at_timestamp fuel e t s = (s', Ok (path_option fuel e t)).
Proof.
  intros Hend Hs. destruct (get_path_ok fuel e t s Hs) as (s1 & Hs1 & Ho1 & E1).
  exists s1. split_and!; [done|done|]. unfold try_get_path_at_timestamp, try_catch, fmap, stM_fmap, path_option.
  rewrite E1. by destruct (Hend e t) as [-> | [p ->]].
Qed.
(** The source, the destination and the current path. *)
Definition paths_for (fuel : nat) (e : EntryID) (early late : DateTime) : option FsPath * option FsPath :=
  (unless_current (path_option fuel e early) (path_option fuel e (early - 1)),
   unless_current (path_option fuel e early) (path_option fuel e late)).
Lemma populate_paths_ok fuel e early late s :
  paths_end fuel → sound s →
  ∃ s', sound s' ∧ only_loads s s' ∧
    populate_paths fuel e early late s = (s', Ok (paths_for fuel e early late)).
Proof.
  intros Hend Hs. unfold populate_paths.
  destruct (try_get_path_ok fuel e (early - 1) s Hend Hs) as (s1 & Hs1 & Ho1 & E1).
  destruct (try_get_path_ok fuel e late s1 Hend Hs1) as (s2 & Hs2 & Ho2 & E2).
  destruct (try_get_path_ok fuel e early s2 Hend Hs2) as (s3 & Hs3 & Ho3 & E3).
  exists s3. split_and!; [done|by do 2 etrans|].
  by rewrite (bind_Ok _ _ _ _ _ E1), (bind_Ok _ _ _ _ _ E2), (bind_Ok _ _ _ _ _ E3).
Qed.

Lemma counter_load_ok e i r s :
  sound s → h e !! i = Some r →
  (limit_reached (vl_limit s) (vl_counter s) = true ∧
   counter_load e (Some (rv_version r)) (Some (rv_timestamp r)) s
   = (s, Err ManifestCacheDownloadLimitReached)) ∨
  ∃ s', sound s' ∧ only_loads s s' ∧
    counter_load e (Some (rv_version r)) (Some (rv_timestamp r)) s = (s', Ok (rv_manifest r)).
Proof.
  intros Hs Hi. unfold counter_load. rewrite (bind_Ok _ _ _ s s) by done.
  destruct (limit_reached _ _); [by left|right]. rewrite (bind_Ok _ _ _ s tt) by done.
  assert (∃ s' b, sound s' ∧ only_loads s s' ∧
    manifest_cache_load e (Some (rv_version r)) None (Some (rv_timestamp r)) s = (s', Ok (rv_manifest r, b)))
    as (s' & b & Hs' & Ho & E).
  { destruct Hs as [Hc Hl]. unfold manifest_cache_load. rewrite (bind_Ok _ _ _ s (vl_manifests s)) by done.
    destruct (cache_get (vl_manifests s) e (Some (rv_version r)) None) as [m|] eqn:Eg.
    - rewrite (cache_get_version _ _ _ _ _ _ Hc Hi eq_refl Eg). by exists s, false.
    - destruct (hl_at_version Hlaws e i r (vl_loader s) Hi) as (l' & E).
      destruct (cache_update_ok (vl_manifests s) e i r None Hc Hi) as (cache' & Eu & Hc'); [done|].
      set (s1 := mkLister l' (vl_manifests s) (vl_versions_lists s) (vl_counter s) (vl_limit s) (vl_nodes s)
        (vl_heapq_tasks s) (vl_task_tree s) (vl_return_dict s)).
      exists (set_caches cache' (vl_versions_lists s) (vl_counter s) s1), true. split_and!; [done|done|].
      rewrite (bind_Ok _ _ _ s1 (rv_manifest r)) by (unfold on_loader; by rewrite E).
      rewrite (bind_Ok _ _ _ s1 (vl_manifests s)) by done. by rewrite Eu. }
  rewrite (bind_Ok _ _ _ _ _ E). destruct Hs' as [Hc' Hl'].
  exists (if b then set_caches (vl_manifests s') (vl_versions_lists s') (vl_counter s' + 1) s' else s').
  destruct b; split_and!; try done. by destruct Ho.
Qed.
Lemma versions_list_load_ok e s :
  sound s → h e ≠ [] →
  ∃ s', sound s' ∧ only_loads s s' ∧ versions_list_load e s = (s', Ok (listed e)).
Proof.
  intros [Hc Hl] He. unfold versions_list_load. rewrite (bind_Ok _ _ _ s (vl_versions_lists s)) by done.
  destruct (vl_versions_lists s !! e) as [l|] eqn:El.
  - rewrite (Hl _ _ El). by exists s.
  - destruct (hl_list Hlaws e (vl_loader s) He) as (l' & E).
    set (s1 := mkLister l' (vl_manifests s) (vl_versions_lists s) (vl_counter s) (vl_limit s) (vl_nodes s)
      (vl_heapq_tasks s) (vl_task_tree s) (vl_return_dict s)).
    exists (set_caches (vl_manifests s) (<[e := listed e]> (vl_versions_lists s)) (vl_counter s) s1).
    split_and!; [|done|].
    + split; [done|]. intros e' l'' Hx. cbn in Hx. apply lookup_insert_Some in Hx as [[<- <-]|[_ Hx]]; [done|by apply Hl].
    + by rewrite (bind_Ok _ _ _ s1 (listed e)) by (unfold on_loader; by rewrite E).
Qed.

(** ** The tasks that a list of versions adds *)

(** The end of the time frame of a version: the date of the next one. *)
Definition frame_end (e : EntryID) (i : nat) (late : DateTime) : DateTime :=
  match h e !! S i with Some r => Z.min late (rv_timestamp r) | None => late end.
Definition task_for (path_level : nat) (e : EntryID) (early late : DateTime) (i : nat) (r : Revision)
    : Task :=
  PopulateLoad path_level e (Z.max early (rv_timestamp r)) (frame_end e i late) (rv_version r)
    (rv_timestamp r).
Definition tasks_for (path_level : nat) (e : EntryID) (early late : DateTime) : list Task :=
  imap (task_for path_level e early late) (h e).

Lemma listed_keys e : (listed e).*1 = seqZ 1 (Z.of_nat (length (h e))).
Proof.
  unfold listed. rewrite <-list_fmap_compose. apply list_eq. intros i. rewrite list_lookup_fmap.
  destruct (h e !! i) as [r|] eqn:Hr; cbn.
  - symmetry. apply lookup_seqZ. destruct (hw_version Hwf _ _ _ Hr) as [Hv _]. unfold rv_version in Hv.
    apply lookup_lt_Some in Hr. cbn. unfold rv_version. lia.
  - symmetry. apply lookup_ge_None. apply lookup_ge_None in Hr. rewrite length_seqZ. lia.
Qed.
Lemma foldl_min_head x l : (∀ y, y ∈ l → x <= y) → foldl Z.min x l = x.
Proof.
  induction l as [|y l IH]; cbn; intros Hl; [done|].
  rewrite Z.min_l by (apply Hl; set_solver). apply IH. set_solver.
Qed.
Lemma next_version_ok e i r :
  h e !! i = Some r → next_version (listed e) (rv_version r) = rv_version <$> h e !! S i.
Proof.
  intros Hi. pose proof (lookup_lt_Some _ _ _ Hi) as Hlt. unfold next_version. rewrite listed_keys.
  destruct (hw_version Hwf _ _ _ Hi) as [-> _].
  replace (Z.of_nat (length (h e))) with ((Z.of_nat i + 1) + (Z.of_nat (length (h e)) - (Z.of_nat i + 1)))
    by lia.
  rewrite seqZ_app, filter_app by lia.
  assert (∀ l : list Z, (∀ y, y ∈ l → y <= Z.of_nat i + 1) → filter (λ v, Z.of_nat i + 1 < v) l = []) as Hno.
  { intros l Hl. induction l as [|y l IH]; [done|].
    rewrite filter_cons_False by (specialize (Hl y ltac:(set_solver)); lia). apply IH. set_solver. }
  rewrite Hno by (intros y Hy%elem_of_seqZ; lia). cbn [app].
  assert (∀ l : list Z, (∀ y, y ∈ l → Z.of_nat i + 1 < y) → filter (λ v, Z.of_nat i + 1 < v) l = l) as Hyes.
  { intros l Hl. induction l as [|y l IH]; [done|].
    rewrite filter_cons_True by (apply Hl; set_solver). f_equal. apply IH. set_solver. }
  rewrite Hyes by (intros y Hy%elem_of_seqZ; lia).
  destruct (h e !! S i) as [r'|] eqn:Hr'.
  - pose proof (lookup_lt_Some _ _ _ Hr'). rewrite seqZ_cons by lia. cbn.
    rewrite foldl_min_head by (intros y Hy%elem_of_seqZ; lia). f_equal.
    destruct (hw_version Hwf _ _ _ Hr') as [-> _]. lia.
  - apply lookup_ge_None in Hr'. by rewrite seqZ_nil by lia.
Qed.
Lemma listed_get e i r :
  h e !! i = Some r → od_get (listed e) (rv_version r) = Some (rv_timestamp r, rv_creator r).
Proof.
  intros Hi. apply od_elem_get.
  - unfold od_keys. rewrite listed_keys. apply NoDup_seqZ.
  - unfold listed. apply list_elem_of_fmap. exists r. split; [done|]. by eapply list_elem_of_lookup_2.
Qed.

(** ** The tree of the tasks *)

(** Nodes have their parent before them, a node is completed once its children are;
    the heap has nodes that have not run. *)
Record tree_ok (nodes : list TaskNode) (heap : list nat) : Prop := {
  to_heap i : i ∈ heap → ∃ t, nodes !! i = Some t ∧ tn_completed t = false ∧ tn_children t = [];
  to_nodup : NoDup heap;
  to_parent i t p : nodes !! i = Some t → tn_parent t = Some p →
    (p < i)%nat ∧ ∃ u, nodes !! p = Some u ∧ i ∈ tn_children u;
  to_root i t : nodes !! i = Some t → tn_parent t = None → i = O;
  to_child i t c : nodes !! i = Some t → c ∈ tn_children t → (c < length nodes)%nat;
  to_completed i t c : nodes !! i = Some t → tn_completed t = true → c ∈ tn_children t →
    node_completed nodes c = true }.
(** The node [i] runs: it is out of the heap and not completed. *)
Definition running (s : Lister L) (i : nat) : Prop :=
  tree_ok (vl_nodes s) (vl_heapq_tasks s) ∧ i ∉ vl_heapq_tasks s ∧
  ∃ t, vl_nodes s !! i = Some t ∧ tn_completed t = false.
Definition todo (s : Lister L) : list Task :=
  omap (λ i, tn_callable <$> vl_nodes s !! i) (vl_heapq_tasks s).
Lemma running_loads s s' i : only_loads s s' → running s i → running s' i.
Proof. intros [_ Hn Hh _ _]. unfold running. by rewrite Hn, Hh. Qed.
Lemma todo_loads s s' : only_loads s s' → todo s' = todo s.
Proof. intros [_ Hn Hh _ _]. unfold todo. by rewrite Hn, Hh. Qed.

Lemma omap_ext_in {A B} (f g : A → option B) (l : list A) : (∀ x, x ∈ l → f x = g x) → omap f l = omap g l.
Proof.
  induction l as [|x l IH]; intros Hl; [done|]. cbn. rewrite Hl by set_solver.
  rewrite IH by set_solver. done.
Qed.

(** What a new task changes. *)
Record added (s s' : Lister L) (i : nat) (tasks : list Task) : Prop := {
  ad_limit : vl_limit s' = vl_limit s;
  ad_tree : vl_task_tree s' = vl_task_tree s;
  ad_dict : vl_return_dict s' = vl_return_dict s;
  ad_todo : todo s' = todo s ++ tasks;
  ad_running : running s' i;
  ad_sound : sound s' }.

Lemma alter_lookup (nodes : list TaskNode) (p : nat) f (i : nat) :
  alter f p nodes !! i = (if decide (i = p) then f <$> nodes !! p else nodes !! i).
Proof.
  case_decide; [subst; apply list_lookup_alter_eq|]. by apply list_lookup_alter_ne.
Qed.
Lemma node_completed_add (nodes : list TaskNode) (p n : nat) new (c : nat) :
  (c < length nodes)%nat →
  node_completed (alter (add_child n) p nodes ++ [new]) c = node_completed nodes c.
Proof.
  intros Hc. unfold node_completed. rewrite lookup_app_l by (by rewrite length_alter).
  rewrite alter_lookup. case_decide; [subst|done]. by destruct (nodes !! p).
Qed.
Lemma task_add_ok s i callable timestamp :
  sound s → running s i →
  ∃ s', task_add callable timestamp (Some i) s = (s', Ok tt) ∧ added s s' i [callable].
Proof.
  intros Hs ([Hh Hn Hp Hr Hch Hco] & Hi & t & Ht & Htc).
  set (n := length (vl_nodes s)). set (new := mkTaskNode callable timestamp (Some i) [] false).
  set (nodes := alter (add_child n) i (vl_nodes s) ++ [new]).
  exists (set_tasks nodes (vl_heapq_tasks s ++ [n]) (vl_task_tree s) s).
  split; [done|].
  assert (i < n)%nat as Hin by by apply lookup_lt_Some in Ht.
  assert (∀ j, j ∈ vl_heapq_tasks s → (j < n)%nat ∧ j ≠ i) as Hheap.
  { intros j Hj. split; [|by intros ->]. destruct (Hh j Hj) as (? & Hj' & _). by apply lookup_lt_Some in Hj'. }
  assert (∀ j, (j < n)%nat → j ≠ i → nodes !! j = vl_nodes s !! j) as Hsame.
  { intros j Hj Hne. unfold nodes. rewrite lookup_app_l by (by rewrite length_alter).
    rewrite alter_lookup. by case_decide. }
  assert (nodes !! i = Some (add_child n t)) as Hni.
  { unfold nodes. rewrite lookup_app_l by (by rewrite length_alter). rewrite alter_lookup, decide_True by done.
    by rewrite Ht. }
  assert (nodes !! n = Some new) as Hnn.
  { unfold nodes. apply list_lookup_middle. by rewrite length_alter. }
  assert (length nodes = S n) as Hlen.
  { unfold nodes. rewrite length_app, length_alter. cbn. unfold n. lia. }
  assert (∀ j u, nodes !! j = Some u →
    (j = n ∧ u = new) ∨ (j = i ∧ u = add_child n t) ∨ (j ≠ i ∧ vl_nodes s !! j = Some u)) as Hcases.
  { intros j u Hj. destruct (decide (j = n)) as [->|]; [left; split; congruence|].
    destruct (decide (j = i)) as [->|]; [right; left; split; congruence|]. right; right.
    split; [done|]. rewrite <-Hsame; [done| |done]. apply lookup_lt_Some in Hj. lia. }
  split; try done.
  - unfold todo. cbn. fold nodes. rewrite omap_app. cbn. rewrite Hnn. cbn. f_equal.
    apply omap_ext_in. intros j Hj. by rewrite Hsame by by apply Hheap.
  - split; [|split].
    + split; cbn; fold nodes.
      * intros j [Hj| ->%list_elem_of_singleton]%elem_of_app; [|by exists new].
        destruct (Hheap j Hj). rewrite Hsame by done. by apply Hh.
      * apply NoDup_app. split_and!; [done| |apply NoDup_singleton].
        intros j Hj ->%list_elem_of_singleton. by destruct (Hheap _ Hj); lia.
      * intros j u p [[-> ->]|[[-> ->]|[Hne Hj]]]%Hcases Hpar.
        -- injection Hpar as <-. split; [lia|]. exists (add_child n t). split; [done|]. cbn. set_solver.
        -- cbn in Hpar. destruct (Hp _ _ _ Ht Hpar) as (Hlt & v & Hv & Hin'). split; [done|].
           exists v. rewrite Hsame by lia. done.
        -- destruct (Hp _ _ _ Hj Hpar) as (Hlt & v & Hv & Hin'). split; [done|].
           destruct (decide (p = i)) as [->|].
           ++ exists (add_child n t). split; [done|]. cbn. assert (v = t) as -> by congruence. set_solver.
           ++ exists v. rewrite Hsame; [done| |done]. by apply lookup_lt_Some in Hv.
      * intros j u [[-> ->]|[[-> ->]|[Hne Hj]]]%Hcases Hpar; [done|by eapply Hr|by eapply Hr].
      * intros j u c [[-> ->]|[[-> ->]|[Hne Hj]]]%Hcases Hc; rewrite Hlen.
        -- by apply not_elem_of_nil in Hc.
        -- cbn in Hc. apply elem_of_app in Hc as [Hc| ->%list_elem_of_singleton]; [|lia].
           specialize (Hch _ _ _ Ht Hc). unfold n. lia.
        -- specialize (Hch _ _ _ Hj Hc). unfold n. lia.
      * intros j u c [[-> ->]|[[-> ->]|[Hne Hj]]]%Hcases Hcomp Hc; [done|cbn in Hcomp; congruence|].
        unfold nodes. rewrite node_completed_add by by eapply Hch. by eapply Hco.
    + cbn. intros [?| ->%list_elem_of_singleton]%elem_of_app; [done|lia].
    + cbn. fold nodes. exists (add_child n t). done.
  - destruct Hs. by split.
Qed.
Lemma added_trans s1 s2 s3 i l l' : added s1 s2 i l → added s2 s3 i l' → added s1 s3 i (l ++ l').
Proof.
  intros [] []. split; try congruence; try done. by rewrite ad_todo1, ad_todo0, app_assoc.
Qed.
Lemma added_loads s1 s2 i : only_loads s1 s2 → sound s2 → running s1 i → added s1 s2 i [].
Proof.
  intros Ho Hs Hr. pose proof Ho as [].
  split; [done|done|done| |by eapply running_loads|done]. by rewrite (todo_loads _ _ Ho), app_nil_r.
Qed.

Lemma populate_list_ok path_level e early late i s :
  sound s → running s i → h e ≠ [] →
  ∃ s', populate_tree_list_versions path_level e early late i s = (s', Ok tt) ∧
    added s s' i (tasks_for path_level e early late).
Proof.
  intros Hs Hr He. unfold populate_tree_list_versions.
  destruct (versions_list_load_ok e s Hs He) as (s1 & Hs1 & Ho & E1). rewrite (bind_Ok _ _ _ _ _ E1).
  pose proof (added_loads _ _ _ Ho Hs1 Hr) as Ha1. clear E1 Ho Hs Hr Hs1.
  set (body := λ x : Z * (DateTime * DeviceID), _).
  assert (∀ l k s1, (∀ j, l !! j = h e !! (k + j)%nat) → sound s1 → running s1 i →
    ∃ s', for_each body ((λ r, (rv_version r, (rv_timestamp r, rv_creator r))) <$> l) s1 = (s', Ok tt) ∧
      added s1 s' i (imap (λ j, task_for path_level e early late (k + j)) l)) as Hloop.
  { induction l as [|r l IH]; intros k s2 Hl Hs2 Hr2.
    - exists s2. split; [done|]. by apply added_loads.
    - cbn [fmap list_fmap for_each imap].
      assert (h e !! k = Some r) as Hk by (rewrite <-(Nat.add_0_r k), <-Hl; done).
      destruct (task_add_ok s2 i (task_for path_level e early late k r) (Z.max early (rv_timestamp r)) Hs2 Hr2)
        as (s3 & E3 & Ha3).
      assert (body (rv_version r, (rv_timestamp r, rv_creator r)) s2 = (s3, Ok tt)) as Eb.
      { unfold body. rewrite (next_version_ok _ _ _ Hk). unfold task_for, frame_end in E3.
        destruct (h e !! S k) as [r'|] eqn:Hk'; cbn [fmap option_fmap option_map mbind option_bind].
        - destruct (hw_version Hwf _ _ _ Hk) as [Hv _], (hw_version Hwf _ _ _ Hk') as [Hv' _].
          rewrite (bind_Ok _ _ _ s2 tt).
          + by rewrite (listed_get _ _ _ Hk').
          + unfold raise_if. assert (truthy_number (Some (rv_version r')) = Some (rv_version r')) as ->.
            { unfold truthy_number. by destruct (rv_version r') eqn:?; [lia|..]. }
            by rewrite bool_decide_eq_false_2 by lia.
        - by rewrite (bind_Ok _ _ _ s2 tt). }
      rewrite (bind_Ok _ _ _ _ _ Eb).
      destruct (IH (S k) s3) as (s4 & E4 & Ha4); [|apply Ha3|apply Ha3|].
      { intros j. etrans; [exact (Hl (S j))|]. f_equal. lia. }
      exists s4. split; [exact E4|]. rewrite Nat.add_0_r.
      apply (added_trans _ _ _ _ _ _ Ha3). revert Ha4.
      assert (imap (λ j, task_for path_level e early late (S k + j)) l
        = imap ((λ j, task_for path_level e early late (k + j)) ∘ S) l) as ->; [|done].
      apply imap_ext. intros j x _. cbn. by rewrite Nat.add_succ_r. }
  destruct (Hloop (h e) O s1) as (s2 & E2 & Ha2); [done|apply Ha1|apply Ha1|].
  exists s2. split; [exact E2|]. exact (added_trans _ _ _ _ _ _ Ha1 Ha2).
Qed.

(** ** What the tasks find *)

(** The time frames in which a path leads from an entry to a version. *)
Fixpoint frames (path : FsPath) (e : EntryID) (early late : DateTime) : list TimestampBoundedEntry :=
  concat (imap (λ i r,
    let early := Z.max early (rv_timestamp r) in
    let late := frame_end e i late in
    if late <? early then []
    else
      match path with
      | [] => [mkTimestampBoundedEntry e (rv_version r) early late]
      | n :: path =>
          match rm_children (rv_manifest r) ≫= lookup n with
          | Some c => frames path c early late
          | None => []
          end
      end) (h e)).
(** How many tasks it takes. *)
Fixpoint weight (path : FsPath) (e : EntryID) (early late : DateTime) : nat :=
  sum_list (imap (λ i r,
    let early := Z.max early (rv_timestamp r) in
    let late := frame_end e i late in
    S (if late <? early then O
       else
         match path with
         | [] => O
         | n :: path =>
             match rm_children (rv_manifest r) ≫= lookup n with
             | Some c => weight path c early late
             | None => O
             end
         end)) (h e)).

Context (target : FsPath).
Definition revision (e : EntryID) (version : Z) : option Revision := h e !! Z.to_nat (version - 1).
Lemma revision_ok e i r : h e !! i = Some r → revision e (rv_version r) = Some r.
Proof.
  intros Hi. destruct (hw_version Hwf _ _ _ Hi) as [Hv _]. unfold revision. rewrite Hv, <-Hi.
  f_equal. lia.
Qed.
(** The child of a version that has this name. *)
Definition child_named (e : EntryID) (version : Z) (n : EntryName) : option EntryID :=
  r ← revision e version; rm_children (rv_manifest r) ≫= lookup n.
Definition load_frames (path : FsPath) (e : EntryID) (early late : DateTime) (version : Z)
    : list TimestampBoundedEntry :=
  if late <? early then []
  else
    match path with
    | [] => [mkTimestampBoundedEntry e version early late]
    | n :: path =>
        match child_named e version n with Some c => frames path c early late | None => [] end
    end.
Definition load_weight (path : FsPath) (e : EntryID) (early late : DateTime) (version : Z) : nat :=
  S (if late <? early then O
     else
       match path with
       | [] => O
       | n :: path =>
           match child_named e version n with Some c => weight path c early late | None => O end
       end).
Definition task_frames (t : Task) : list TimestampBoundedEntry :=
  match t with
  | PopulateListVersions path_level e early late => frames (drop path_level target) e early late
  | PopulateLoad path_level e early late version _ =>
      load_frames (drop path_level target) e early late version
  end.
Definition task_weight (t : Task) : nat :=
  match t with
  | PopulateListVersions path_level e early late => S (weight (drop path_level target) e early late)
  | PopulateLoad path_level e early late version _ =>
      load_weight (drop path_level target) e early late version
  end.
(** A task for an entry and a version that there are. *)
Definition task_ok (t : Task) : Prop :=
  match t with
  | PopulateListVersions _ e _ _ => h e ≠ []
  | PopulateLoad _ e _ _ version timestamp =>
      ∃ i r, h e !! i = Some r ∧ version = rv_version r ∧ timestamp = rv_timestamp r
  end.

Lemma child_named_eq e i r n :
  h e !! i = Some r → child_named e (rv_version r) n = rm_children (rv_manifest r) ≫= lookup n.
Proof. intros Hi. unfold child_named. by rewrite (revision_ok _ _ _ Hi). Qed.
Lemma tasks_for_frames path_level e early late :
  concat (task_frames <$> tasks_for path_level e early late)
  = frames (drop path_level target) e early late.
Proof.
  unfold tasks_for. rewrite fmap_imap. destruct (drop path_level target) as [|n path] eqn:Ed; cbn [frames];
    f_equal; apply imap_ext; intros i r Hi; cbn; rewrite Ed; unfold load_frames; [done|].
  by rewrite (child_named_eq _ _ _ _ Hi).
Qed.
Lemma tasks_for_weight path_level e early late :
  sum_list (task_weight <$> tasks_for path_level e early late) = weight (drop path_level target) e early late.
Proof.
  unfold tasks_for. rewrite fmap_imap. destruct (drop path_level target) as [|n path] eqn:Ed; cbn [weight];
    f_equal; apply imap_ext; intros i r Hi; cbn; rewrite Ed; unfold load_weight; [done|].
  by rewrite (child_named_eq _ _ _ _ Hi).
Qed.
Lemma tasks_for_ok path_level e early late : Forall task_ok (tasks_for path_level e early late).
Proof.
  apply Forall_lookup_2. intros i t. unfold tasks_for. rewrite list_lookup_imap.
  intros (r & Hi & ->)%fmap_Some. cbn. by exists i, r.
Qed.

(** ** A turn *)

Context (fuel : nat) (Hend : paths_end fuel).

(** The value of a time frame: the data of the version, and its paths. *)
Definition value_ok (k : TimestampBoundedEntry) (v : ManifestDataAndPaths) : Prop :=
  ∃ i r, h (te_id k) !! i = Some r ∧ te_version k = rv_version r ∧
    v = mkManifestDataAndPaths (manifest_data (rv_manifest r))
          (paths_for fuel (te_id k) (te_early k) (te_late k)).1
          (paths_for fuel (te_id k) (te_early k) (te_late k)).2.
Record dict_ok (d : odict TimestampBoundedEntry ManifestDataAndPaths) : Prop := {
  do_nodup : NoDup (od_keys d);
  do_value k v : od_get d k = Some v → value_ok k v }.
Lemma keys_set (d : odict TimestampBoundedEntry ManifestDataAndPaths) k v k' :
  k' ∈ od_keys (od_set d k v) ↔ k' = k ∨ k' ∈ od_keys d.
Proof.
  rewrite <-!od_get_is_Some, od_get_set_case. case_decide as Hk; [subst; naive_solver|]. naive_solver.
Qed.
Lemma dict_set_ok d k v : dict_ok d → value_ok k v → dict_ok (od_set d k v).
Proof.
  intros [Hn Hv] Hk. split; [by apply od_set_NoDup|]. intros k' v'. rewrite od_get_set_case.
  case_decide; [intros [= <-]; by subst|apply Hv].
Qed.
(** What is found, or will be. *)
Definition frontier (s : Lister L) (k : TimestampBoundedEntry) : Prop :=
  k ∈ od_keys (vl_return_dict s) ∨ k ∈ concat (task_frames <$> todo s).

(** What running a task does. *)
Record ran (s s' : Lister L) (i : nat) (t : Task) : Prop := {
  rn_limit : vl_limit s' = vl_limit s;
  rn_tree : vl_task_tree s' = vl_task_tree s;
  rn_sound : sound s';
  rn_running : running s' i;
  rn_dict : dict_ok (vl_return_dict s');
  rn_todo : ∃ new, todo s' = todo s ++ new ∧ Forall task_ok new ∧
    task_weight t = S (sum_list (task_weight <$> new));
  rn_frontier k : frontier s' k ↔ frontier s k ∨ k ∈ task_frames t }.
Lemma ran_added s s' i t new :
  added s s' i new → dict_ok (vl_return_dict s) → Forall task_ok new →
  concat (task_frames <$> new) = task_frames t → task_weight t = S (sum_list (task_weight <$> new)) →
  ran s s' i t.
Proof.
  intros [] Hd Hok Hf Hw. split; try done.
  - by rewrite ad_dict0.
  - by exists new.
  - intros k. unfold frontier. rewrite ad_dict0, ad_todo0, fmap_app, concat_app, elem_of_app, Hf. tauto.
Qed.
Lemma run_task_ok s i t :
  sound s → running s i → dict_ok (vl_return_dict s) → task_ok t →
  (∃ s', run_task target fuel i t s = (s', Ok tt) ∧ ran s s' i t) ∨
  (limit_reached (vl_limit s) (vl_counter s) = true ∧
   run_task target fuel i t s = (s, Err ManifestCacheDownloadLimitReached)).
Proof.
  intros Hs Hr Hd Hok. destruct t as [path_level e early late|path_level e early late version timestamp];
    cbn [run_task task_ok] in *.
  - left. destruct (populate_list_ok path_level e early late i s Hs Hr Hok) as (s' & E & Ha).
    exists s'. split; [done|]. apply (ran_added _ _ _ _ _ Ha Hd (tasks_for_ok _ _ _ _)); cbn.
    + apply tasks_for_frames.
    + by rewrite tasks_for_weight.
  - destruct Hok as (j & r & Hj & -> & ->). unfold populate_tree_load.
    destruct (late <? early) eqn:El.
    { left. exists s. split; [done|]. apply (ran_added _ _ _ _ []); [by apply added_loads|done|done| |];
        cbn; unfold load_frames, load_weight; by rewrite El. }
    destruct (counter_load_ok e j r s Hs Hj) as [[Hl E]|(s1 & Hs1 & Ho1 & E)].
    { right. split; [done|]. by apply bind_Err. }
    left. rewrite (bind_Ok _ _ _ _ _ E). pose proof (running_loads _ _ _ Ho1 Hr) as Hr1.
    assert (dict_ok (vl_return_dict s1)) as Hd1 by by rewrite (ol_dict _ _ Ho1).
    pose proof (added_loads _ _ _ Ho1 Hs1 Hr) as Ha1.
    destruct (drop path_level target) as [|n path] eqn:Ed.
    + destruct (populate_paths_ok fuel e early late s1 Hend Hs1) as (s2 & Hs2 & Ho2 & E2).
      rewrite (bind_Ok _ _ _ _ _ E2). destruct (hw_version Hwf _ _ _ Hj) as [_ Hid]. rewrite Hid.
      fold (rv_version r). pose proof (added_loads _ _ _ Ho2 Hs2 Hr1) as Ha2.
      pose proof (added_trans _ _ _ _ _ _ Ha1 Ha2) as Ha. cbn [app] in Ha.
      set (k := mkTimestampBoundedEntry e (rv_version r) early late).
      set (v := mkManifestDataAndPaths (manifest_data (rv_manifest r)) (paths_for fuel e early late).1
        (paths_for fuel e early late).2).
      exists (set_return_dict (od_set (vl_return_dict s2) k v) s2). split; [done|]. destruct Ha.
      assert (value_ok k v) as Hv by by exists j, r.
      split; try done.
      * by destruct Hs2.
      * cbn. rewrite ad_dict0. by apply dict_set_ok.
      * exists []. split; [exact ad_todo0|]. split; [done|]. cbn. unfold load_weight. by rewrite El, Ed.
      * intros k'. unfold frontier.
        change (todo (set_return_dict (od_set (vl_return_dict s2) k v) s2)) with (todo s2).
        cbn [vl_return_dict set_return_dict]. rewrite keys_set, ad_dict0, ad_todo0, app_nil_r.
        cbn [task_frames]. rewrite Ed. unfold load_frames. rewrite El, list_elem_of_singleton. tauto.
    + assert (∀ s', added s s' i [] → child_named e (rv_version r) n = None →
        ran s s' i (PopulateLoad path_level e early late (rv_version r) (rv_timestamp r))) as Hnone.
      { intros s' Ha Hn. apply (ran_added _ _ _ _ [] Ha Hd); [done| |]; cbn;
          unfold load_frames, load_weight; by rewrite El, Ed, Hn. }
      rewrite (child_named_eq _ _ _ _ Hj) in Hnone.
      destruct (is_remote_file (rv_manifest r)) eqn:Ef.
      { exists s1. split; [done|]. apply Hnone; [done|]. by destruct (rv_manifest r). }
      destruct (rm_children (rv_manifest r)) as [cs|] eqn:Ecs.
      2: { destruct (rv_manifest r) as [| | |u] eqn:Em; try done.
           by destruct (hw_no_user Hwf e r u (list_elem_of_lookup_2 _ _ _ Hj)). }
      rewrite (bind_Ok _ _ _ s1 cs) by done. cbn [mbind option_bind] in Hnone.
      destruct (cs !! n) as [c|] eqn:Ec; [|exists s1; split; [done|by apply Hnone]].
      assert (h c ≠ []) as Hc by (eapply (hw_children Hwf e r); [by eapply list_elem_of_lookup_2|done..]).
      destruct (populate_list_ok (S path_level) c early late i s1 Hs1 Hr1 Hc) as (s2 & E2 & Ha2).
      exists s2. split; [exact E2|].
      assert (drop (S path_level) target = path) as Ed'.
      { rewrite <-Nat.add_1_r, <-drop_drop, Ed. done. }
      apply (ran_added _ _ _ _ _ (added_trans _ _ _ _ _ _ Ha1 Ha2) Hd (tasks_for_ok _ _ _ _));
        cbn [app task_frames task_weight].
      * rewrite tasks_for_frames, Ed', Ed. unfold load_frames. rewrite El, (child_named_eq _ _ _ _ Hj), Ecs.
        cbn. by rewrite Ec.
      * rewrite tasks_for_weight, Ed', Ed. unfold load_weight. rewrite El, (child_named_eq _ _ _ _ Hj), Ecs.
        cbn. by rewrite Ec.
Qed.

(** *** The completion of the nodes *)

Definition callables (nodes nodes' : list TaskNode) : Prop :=
  ∀ j, tn_callable <$> nodes' !! j = tn_callable <$> nodes !! j.
Lemma node_completed_mono nodes i c :
  node_completed nodes c = true → node_completed (alter set_completed i nodes) c = true.
Proof.
  unfold node_completed. rewrite alter_lookup. case_decide; [subst|done]. by destruct (nodes !! i).
Qed.
Lemma set_completed_ok nodes heap i :
  tree_ok nodes heap → i ∉ heap →
  (∀ t c, nodes !! i = Some t → c ∈ tn_children t → node_completed nodes c = true) →
  tree_ok (alter set_completed i nodes) heap.
Proof.
  intros [Hh Hn Hp Hr Hch Hco] Hi Hchild.
  assert (∀ j t, alter set_completed i nodes !! j = Some t →
    ∃ u, nodes !! j = Some u ∧ tn_parent t = tn_parent u ∧ tn_children t = tn_children u ∧
      (tn_completed t = true → j = i ∨ tn_completed u = true)) as Hback.
  { intros j t. rewrite alter_lookup. case_decide as Hj.
    - subst. intros (u & Hu & ->)%fmap_Some. exists u. split_and!; try done. by left.
    - intros Ht. exists t. split_and!; try done. by right. }
  split.
  - intros j Hj. rewrite alter_lookup, decide_False by (by intros ->). by apply Hh.
  - done.
  - intros j t p Ht Hpar. destruct (Hback _ _ Ht) as (u & Hu & Epar & _ & _).
    rewrite Epar in Hpar. destruct (Hp _ _ _ Hu Hpar) as (Hlt & w & Hw & Hin). split; [done|].
    rewrite alter_lookup. case_decide; [|by exists w]. subst. rewrite Hw. by exists (set_completed w).
  - intros j t Ht Hpar. destruct (Hback _ _ Ht) as (u & Hu & Epar & _ & _). apply (Hr _ _ Hu). congruence.
  - intros j t c Ht Hc. destruct (Hback _ _ Ht) as (u & Hu & _ & Ech & _). rewrite length_alter.
    apply (Hch _ _ _ Hu). by rewrite <-Ech.
  - intros j t c Ht Hcomp Hc. destruct (Hback _ _ Ht) as (u & Hu & _ & Ech & Hor).
    rewrite Ech in Hc. apply node_completed_mono.
    destruct (Hor Hcomp) as [->|Hcu]; [by eapply Hchild|by eapply Hco].
Qed.
Lemma mark_complete_ok depth nodes heap i :
  tree_ok nodes heap → i ∉ heap →
  (∀ t c, nodes !! i = Some t → c ∈ tn_children t → node_completed nodes c = true) →
  tree_ok (mark_complete depth nodes i) heap ∧ callables nodes (mark_complete depth nodes i).
Proof.
  revert nodes i. induction depth as [|depth IH]; intros nodes i Htree Hi Hchild;
    pose proof (set_completed_ok _ _ _ Htree Hi Hchild) as Htree';
    (assert (callables nodes (alter set_completed i nodes)) as Hcall;
     [intros j; rewrite alter_lookup; case_decide; [subst; by destruct (nodes !! i)|done]|]);
    cbn [mark_complete]; [done|].
  set (nodes' := alter set_completed i nodes) in *.
  destruct (nodes' !! i ≫= tn_parent) as [p|] eqn:Ep; [|done].
  destruct (forallb _ _) eqn:Eall; [|done].
  apply bind_Some in Ep as (t & Ht & Hpar).
  destruct (to_parent _ _ Htree' _ _ _ Ht Hpar) as (_ & u & Hu & Hin).
  destruct (IH nodes' p Htree') as [H1 H2].
  - intros Hp. destruct (to_heap _ _ Htree' _ Hp) as (u' & Hu' & _ & Hnil).
    assert (u' = u) as -> by congruence. rewrite Hnil in Hin. by apply not_elem_of_nil in Hin.
  - intros u' c Hu' Hc. rewrite Hu' in Eall. cbn in Eall. rewrite forallb_forall in Eall.
    apply Eall. by apply list_elem_of_In.
  - split; [done|]. intros j. by rewrite H2, Hcall.
Qed.
Lemma finish_run_ok s i :
  running s i →
  ∃ s', finish_run i s = (s', Ok tt) ∧ tree_ok (vl_nodes s') (vl_heapq_tasks s') ∧
    todo s' = todo s ∧ vl_heapq_tasks s' = vl_heapq_tasks s ∧ (sound s → sound s') ∧
    vl_limit s' = vl_limit s ∧ vl_return_dict s' = vl_return_dict s ∧ vl_task_tree s' = vl_task_tree s.
Proof.
  intros (Htree & Hi & t & Ht & _). unfold finish_run. rewrite (bind_Ok _ _ _ s s) by done.
  destruct (forallb _ _) eqn:Eall; [|by exists s].
  destruct (mark_complete_ok (length (vl_nodes s)) (vl_nodes s) (vl_heapq_tasks s) i Htree Hi) as [H1 H2].
  { intros u c Hu Hc. rewrite Hu in Eall. cbn in Eall. rewrite forallb_forall in Eall.
    apply Eall. by apply list_elem_of_In. }
  eexists. split; [reflexivity|]. split_and!; try done.
  - unfold todo. cbn. apply omap_ext_in. intros j _. apply H2.
  - intros []. by split.
Qed.

(** *** The task that the heap gives *)

Lemma least_exists nodes heap :
  heap ≠ [] → (∀ i, i ∈ heap → is_Some (nodes !! i)) → least nodes heap ≠ [].
Proof.
  intros Hne Hall. set (ts i := default 0 (tn_timestamp <$> nodes !! i : option Z)).
  assert (∃ i, i ∈ heap ∧ ∀ j, j ∈ heap → ts i <= ts j) as (i & Hi & Hmin).
  { clear Hall. induction heap as [|x heap IH]; [done|]. destruct heap as [|y heap].
    - exists x. split; [set_solver|]. intros j ->%list_elem_of_singleton. lia.
    - destruct IH as (i & Hi & Hmin); [done|]. destruct (decide (ts x <= ts i)).
      + exists x. split; [set_solver|]. intros j [->|Hj]%elem_of_cons; [lia|]. specialize (Hmin _ Hj). lia.
      + exists i. split; [set_solver|]. intros j [->|Hj]%elem_of_cons; [lia|]. by apply Hmin. }
  intros Hnil. assert (i ∈ least nodes heap) as Hin.
  { apply list_elem_of_filter. split; [|done]. apply forallb_forall. intros j Hj%list_elem_of_In.
    specialize (Hmin _ Hj). unfold ts in Hmin.
    destruct (Hall _ Hi) as [t Ht], (Hall _ Hj) as [u Hu]. rewrite Ht, Hu in Hmin |- *. cbn in Hmin.
    by apply Z.leb_le. }
  rewrite Hnil in Hin. by apply not_elem_of_nil in Hin.
Qed.
Lemma todo_remove s i t :
  NoDup (vl_heapq_tasks s) → i ∈ vl_heapq_tasks s → vl_nodes s !! i = Some t →
  todo s ≡ₚ tn_callable t
    :: todo (set_tasks (vl_nodes s) (filter (λ j, j ≠ i) (vl_heapq_tasks s)) (vl_task_tree s) s).
Proof.
  unfold todo. cbn. generalize (vl_heapq_tasks s). intros heap Hn Hi Ht.
  induction Hn as [|x heap Hx Hn IH]; [by apply not_elem_of_nil in Hi|].
  apply elem_of_cons in Hi as [<-|Hi].
  - rewrite filter_cons_False by (intros Hne; by apply Hne). cbn. rewrite Ht. cbn. f_equiv.
    assert (filter (λ j, j ≠ i) heap = heap) as ->; [|done].
    clear IH Hn. induction heap as [|y heap IH]; [done|]. rewrite filter_cons_True by set_solver.
    f_equal. apply IH. set_solver.
  - rewrite filter_cons_True by (by intros ->). cbn.
    destruct (tn_callable <$> vl_nodes s !! x) as [c|]; [|by apply IH].
    rewrite (IH Hi). constructor.
Qed.
Lemma heappop_ok pick s :
  tree_ok (vl_nodes s) (vl_heapq_tasks s) → vl_heapq_tasks s ≠ [] →
  ∃ i t s', heappop pick s = (s', Ok (Some i)) ∧ vl_nodes s !! i = Some t ∧ running s' i ∧
    s' = set_tasks (vl_nodes s) (filter (λ j, j ≠ i) (vl_heapq_tasks s)) (vl_task_tree s) s ∧
    todo s ≡ₚ tn_callable t :: todo s'.
Proof.
  intros Htree Hne. unfold heappop. rewrite (bind_Ok _ _ _ s s) by done.
  assert (∀ i, i ∈ vl_heapq_tasks s → is_Some (vl_nodes s !! i)) as Hall.
  { intros i Hi. destruct (to_heap _ _ Htree _ Hi) as (t & -> & _). eauto. }
  pose proof (least_exists _ _ Hne Hall) as Hl. set (l := least (vl_nodes s) (vl_heapq_tasks s)) in *.
  assert (length l ≠ 0)%nat as Hlen by (intros Hz; by apply nil_length_inv in Hz).
  destruct (lookup_lt_is_Some_2 l (pick l mod length l)) as [i Hi]; [by apply Nat.mod_upper_bound|].
  rewrite Hi. assert (i ∈ vl_heapq_tasks s) as Hin.
  { apply list_elem_of_lookup_2 in Hi. unfold l, least in Hi. apply list_elem_of_filter in Hi. tauto. }
  destruct (to_heap _ _ Htree _ Hin) as (t & Ht & Hc & Hch).
  exists i, t. eexists. split; [reflexivity|]. split; [done|]. split; [|split; [done|]].
  - destruct Htree as [Hh Hn Hp Hr Hchi Hco]. split; [split; cbn|]; try done.
    + intros j [_ Hj]%list_elem_of_filter. by apply Hh.
    + by apply NoDup_filter.
    + split; cbn; [|by exists t]. intros [Hx _]%list_elem_of_filter. by apply Hx.
  - by apply todo_remove; [apply Htree|..].
Qed.

(** ** The run *)

Context (all : list TimestampBoundedEntry).
Record inv (s : Lister L) : Prop := {
  iv_sound : sound s;
  iv_tree : tree_ok (vl_nodes s) (vl_heapq_tasks s);
  iv_tasks : Forall task_ok (todo s);
  iv_dict : dict_ok (vl_return_dict s);
  iv_frontier k : frontier s k ↔ k ∈ all }.
(** A run that the limit stopped. *)
Record stopped (s : Lister L) : Prop := {
  st_sound : sound s;
  st_tree : tree_ok (vl_nodes s) (vl_heapq_tasks s);
  st_dict : dict_ok (vl_return_dict s);
  st_found k : k ∈ od_keys (vl_return_dict s) → k ∈ all;
  st_left : ∃ i t, vl_nodes s !! i = Some t ∧ tn_completed t = false }.
Definition turns_left (s : Lister L) : nat := sum_list (task_weight <$> todo s).

Lemma frontier_perm s k l :
  todo s ≡ₚ l → frontier s k ↔ k ∈ od_keys (vl_return_dict s) ∨ k ∈ concat (task_frames <$> l).
Proof. intros Hl. unfold frontier. by rewrite Hl. Qed.
Lemma sum_list_app l l' : sum_list (l ++ l') = (sum_list l + sum_list l')%nat.
Proof. induction l; cbn; lia. Qed.
Lemma execute_one_ok pick s :
  inv s → vl_heapq_tasks s ≠ [] →
  (∃ s', execute_one target fuel pick s = (s', Ok tt) ∧ inv s' ∧ vl_limit s' = vl_limit s ∧
     vl_task_tree s' = vl_task_tree s ∧ turns_left s = S (turns_left s')) ∨
  (∃ s', execute_one target fuel pick s = (s', Err ManifestCacheDownloadLimitReached) ∧ stopped s' ∧
     vl_task_tree s' = vl_task_tree s ∧ truthy_number (vl_limit s) ≠ None).
Proof.
  intros [Hs Htree Htasks Hd Hfr] Hne.
  destruct (heappop_ok pick s Htree Hne) as (i & t & s1 & E1 & Hi & Hrun & Es1 & Hperm).
  assert (sound s1 ∧ vl_nodes s1 = vl_nodes s ∧ vl_return_dict s1 = vl_return_dict s ∧
    vl_limit s1 = vl_limit s ∧ vl_task_tree s1 = vl_task_tree s) as (Hs1 & En & Ed & El & Et)
    by (subst s1; split_and!; try done; by destruct Hs).
  rewrite Hperm in Htasks. inversion Htasks as [|? ? Hok Htasks1 X]. subst x l.
  unfold execute_one. rewrite (bind_Ok _ _ _ _ _ E1). unfold node_run.
  rewrite (bind_Ok _ _ _ s1 (vl_nodes s1)) by done. rewrite En.
  rewrite (bind_Ok _ _ _ s1 t) by (unfold of_option; by rewrite Hi).
  destruct (run_task_ok s1 i (tn_callable t) Hs1 Hrun) as [(s2 & E2 & Hran)|(Hlim & E2)];
    [by rewrite Ed|done| |].
  - left. rewrite (bind_Ok _ _ _ _ _ E2). destruct Hran as [Rl Rt Rs Rr Rd (new & Rtodo & Rok & Rw) Rf].
    destruct (finish_run_ok s2 i Rr) as (s3 & E3 & Htree3 & Htodo3 & Hheap3 & Hs3 & Hl3 & Hd3 & Ht3).
    exists s3. split; [exact E3|]. split_and!; [|congruence|congruence|].
    + split; [auto|done| |by rewrite Hd3|].
      * rewrite Htodo3, Rtodo. by apply Forall_app.
      * intros k. unfold frontier. rewrite Hd3, Htodo3. fold (frontier s2 k). rewrite Rf, <-Hfr.
        rewrite (frontier_perm s k _ Hperm). unfold frontier. rewrite Ed. cbn. rewrite elem_of_app. tauto.
    + unfold turns_left. rewrite Htodo3, Rtodo.
      assert (sum_list (task_weight <$> todo s) = sum_list (task_weight <$> tn_callable t :: todo s1)) as ->
        by (by rewrite Hperm).
      rewrite fmap_cons, fmap_app, sum_list_app. change (sum_list (?x :: ?l)) with (x + sum_list l)%nat. lia.
  - right. exists s1. split; [by apply bind_Err|]. split_and!; [|congruence|].
    + split; [done|apply Hrun|by rewrite Ed| |].
      * intros k Hk. apply Hfr. left. by rewrite <-Ed.
      * exists i, t. rewrite En. split; [done|]. destruct Hrun as (_ & _ & t' & Ht' & Hc).
        rewrite En in Ht'. congruence.
    + rewrite <-El. unfold limit_reached in Hlim. by destruct (truthy_number _).
Qed.
Lemma task_weight_pos t : (0 < task_weight t)%nat.
Proof. destruct t; cbn; unfold load_weight; lia. Qed.
Lemma no_turn_left s :
  tree_ok (vl_nodes s) (vl_heapq_tasks s) → turns_left s = O → vl_heapq_tasks s = [].
Proof.
  intros Htree. unfold turns_left, todo. pose proof (to_heap _ _ Htree) as Hh. clear Htree.
  destruct (vl_heapq_tasks s) as [|i heap]; [done|]. destruct (Hh i) as (t & Ht & _); [set_solver|].
  cbn. rewrite Ht. cbn. pose proof (task_weight_pos (tn_callable t)). lia.
Qed.
Lemma execute_ok pick turns s :
  inv s → (turns_left s <= turns)%nat →
  (∃ s', execute target fuel pick turns s = (s', Ok tt) ∧ inv s' ∧ vl_heapq_tasks s' = []) ∨
  (∃ s', execute target fuel pick turns s = (s', Err ManifestCacheDownloadLimitReached) ∧ stopped s' ∧
     vl_task_tree s' = vl_task_tree s ∧ truthy_number (vl_limit s) ≠ None).
Proof.
  revert s. induction turns as [|turns IH]; intros s Hinv Hle; cbn [execute].
  - left. exists s. rewrite (bind_Ok _ _ _ s (vl_heapq_tasks s)) by done.
    rewrite (no_turn_left s) by (apply Hinv || lia). done.
  - rewrite (bind_Ok _ _ _ s (vl_heapq_tasks s)) by done.
    destruct (vl_heapq_tasks s) as [|x heap] eqn:Eh; [left; by exists s|].
    destruct (execute_one_ok pick s Hinv) as [(s1 & E1 & Hinv1 & Hl1 & Ht1 & Hw)|(s1 & E1 & Hst & Ht1 & Hl1)];
      [by rewrite Eh| |].
    + rewrite (bind_Ok _ _ _ _ _ E1).
      destruct (IH s1 Hinv1 ltac:(lia)) as [(s2 & E2 & H2)|(s2 & E2 & Hst2 & Ht2 & Hl2)].
      * left. by exists s2.
      * right. exists s2. split_and!; [done|done|congruence|congruence].
    + right. exists s1. split_and!; [by apply bind_Err|done|done|done].
Qed.
(** A node that is left to run keeps the root from being completed. *)
Lemma root_left nodes heap i t :
  tree_ok nodes heap → nodes !! i = Some t → tn_completed t = false →
  node_completed nodes 0 = false.
Proof.
  intros Htree. revert t. induction i as [i IH] using lt_wf_ind. intros t Ht Hc.
  destruct (tn_parent t) as [p|] eqn:Ep.
  - destruct (to_parent _ _ Htree _ _ _ Ht Ep) as (Hlt & u & Hu & Hin).
    apply (IH p Hlt u Hu). destruct (tn_completed u) eqn:Eu; [|done].
    pose proof (to_completed _ _ Htree _ _ _ Hu Eu Hin) as Hi. unfold node_completed in Hi.
    rewrite Ht in Hi. congruence.
  - rewrite (to_root _ _ Htree _ _ Ht Ep) in Ht. unfold node_completed. by rewrite Ht.
Qed.
End loads.

(** ** The time frames and the times *)

Lemma concat_imap {A B} (f : nat → A → list B) l x :
  x ∈ concat (imap f l) ↔ ∃ i a, l !! i = Some a ∧ x ∈ f i a.
Proof.
  rewrite list_elem_of_In, in_concat. setoid_rewrite <-list_elem_of_In. split.
  - intros (m & Hm & Hx). apply list_elem_of_lookup in Hm as (i & Hi).
    rewrite list_lookup_imap in Hi. apply fmap_Some in Hi as (a & Ha & ->). by exists i, a.
  - intros (i & a & Ha & Hx). exists (f i a). split; [|done]. apply list_elem_of_lookup. exists i.
    by rewrite list_lookup_imap, Ha.
Qed.
Lemma frames_elem path e early late k :
  k ∈ frames path e early late ↔
  ∃ i r, h e !! i = Some r ∧
    let early := Z.max early (rv_timestamp r) in
    let late := frame_end e i late in
    early <= late ∧
    match path with
    | [] => k = mkTimestampBoundedEntry e (rv_version r) early late
    | n :: path => ∃ c, rm_children (rv_manifest r) ≫= lookup n = Some c ∧ k ∈ frames path c early late
    end.
Proof.
  destruct path as [|n path]; cbn [frames]; rewrite concat_imap; split.
  - intros (i & r & Hi & Hk). exists i, r. split; [done|]. destruct (Z.ltb_spec (frame_end e i late)
      (Z.max early (rv_timestamp r))); [by apply not_elem_of_nil in Hk|].
    apply list_elem_of_singleton in Hk. done.
  - intros (i & r & Hi & Hle & ->). exists i, r. split; [done|].
    rewrite (proj2 (Z.ltb_ge _ _)) by done. set_solver.
  - intros (i & r & Hi & Hk). exists i, r. split; [done|]. destruct (Z.ltb_spec (frame_end e i late)
      (Z.max early (rv_timestamp r))); [by apply not_elem_of_nil in Hk|].
    split; [done|]. destruct (rm_children (rv_manifest r) ≫= lookup n) as [c|]; [by exists c|].
    by apply not_elem_of_nil in Hk.
  - intros (i & r & Hi & Hle & c & Hc & Hk). exists i, r. split; [done|].
    rewrite (proj2 (Z.ltb_ge _ _)) by done. by rewrite Hc.
Qed.
Lemma frame_end_le e i late : frame_end e i late <= late.
Proof. unfold frame_end. destruct (h e !! S i); lia. Qed.
Lemma frames_bounds path e early late k :
  k ∈ frames path e early late → early <= te_early k ∧ te_early k <= te_late k ∧ te_late k <= late.
Proof.
  revert e early late. induction path as [|n path IH]; intros e early late
    (i & r & Hi & Hle & Hk)%frames_elem; pose proof (frame_end_le e i late).
  - subst k. cbn. lia.
  - destruct Hk as (c & _ & Hk). apply IH in Hk. lia.
Qed.
(** A time is in the frame of the version that is held. *)
Lemma frame_held e i r early late t :
  h e !! i = Some r → early <= t → t < late →
  Z.max early (rv_timestamp r) <= t ∧ t < frame_end e i late ↔ held e t = Some r.
Proof.
  intros Hi Ha Hb. rewrite held_spec. unfold frame_end. split.
  - intros [H1 H2]. exists i. split_and!; [done|lia|]. intros r' Hr'. rewrite Hr' in H2. lia.
  - intros (j & Hj & Hle & Hnext). split; [lia|].
    assert (i = j) as <-.
    { destruct (hw_version Hwf _ _ _ Hi), (hw_version Hwf _ _ _ Hj). lia. }
    destruct (h e !! S i) as [r'|] eqn:Hr'; [specialize (Hnext _ eq_refl)|]; lia.
Qed.
Lemma frames_exact path e early late t id version :
  early <= t → t < late →
  (∃ k, k ∈ frames path e early late ∧ te_id k = id ∧ te_version k = version ∧
     te_early k <= t ∧ t < te_late k) ↔
  ∃ r, path_at t path e = Some r ∧ rm_id (rv_manifest r) = id ∧ rv_version r = version.
Proof.
  revert e early late. induction path as [|n path IH]; intros e early late Ha Hb.
  - cbn [path_at]. split.
    + intros (k & (i & r & Hi & Hle & ->)%frames_elem & <- & <- & H1 & H2). cbn in H1, H2.
      exists r. rewrite (proj1 (frame_held e i r early late t Hi Ha Hb)) by done. split; [done|].
      split; [|done]. apply (hw_version Hwf _ _ _ Hi).
    + intros (r & Hr & <- & <-). destruct (held e t) as [r'|] eqn:Hh; [|done]. injection Hr as ->.
      destruct (proj1 (held_spec _ _ _) Hh) as (i & Hi & _).
      destruct (hw_version Hwf _ _ _ Hi) as [_ Hid].
      pose proof (proj2 (frame_held e i r early late t Hi Ha Hb) Hh) as [H1 H2].
      eexists. split; [apply frames_elem; exists i, r; split; [done|]; split; [lia|reflexivity]|].
      cbn. done.
  - cbn [path_at]. split.
    + intros (k & (i & r & Hi & Hle & c & Hc & Hk)%frames_elem & Hkid & Hkv & H1 & H2).
      pose proof (frames_bounds _ _ _ _ _ Hk) as Hbd.
      assert (Z.max early (rv_timestamp r) <= t ∧ t < frame_end e i late) as [Hl Hu] by lia.
      rewrite (proj1 (frame_held e i r early late t Hi Ha Hb)) by done. cbn.
      destruct (rm_children (rv_manifest r)) as [cs|]; [|done]. cbn in Hc |- *. rewrite Hc. cbn.
      apply (IH c _ _ Hl Hu). by exists k.
    + intros (r' & Hr & Hid & Hv). destruct (held e t) as [r|] eqn:Hh; [|done]. cbn in Hr.
      destruct (proj1 (held_spec _ _ _) Hh) as (i & Hi & _).
      pose proof (proj2 (frame_held e i r early late t Hi Ha Hb) Hh) as [Hl Hu].
      destruct (rm_children (rv_manifest r)) as [cs|] eqn:Ecs; [|done]. cbn in Hr.
      destruct (cs !! n) as [c|] eqn:Ec; [|done]. cbn in Hr.
      destruct (proj2 (IH c _ _ Hl Hu)) as (k & Hk & Hrest); [by exists r'|].
      exists k. split; [|done]. apply frames_elem. exists i, r. split; [done|]. split; [lia|].
      exists c. rewrite Ecs. cbn. done.
Qed.
Lemma frames_revision path e early late k :
  k ∈ frames path e early late → ∃ i r, h (te_id k) !! i = Some r ∧ te_version k = rv_version r.
Proof.
  revert e early late. induction path as [|n path IH]; intros e early late
    (i & r & Hi & Hle & Hk)%frames_elem.
  - subst k. by exists i, r.
  - destruct Hk as (c & _ & Hk). by apply IH in Hk.
Qed.
End history.

(** ** [_sanitize_list] *)

(** The version is in the list for this time. *)
Definition covers (l : list TimestampBoundedData) (id : EntryID) (version : Z) (t : DateTime) : Prop :=
  ∃ x, x ∈ l ∧ tb_id x = id ∧ tb_version x = version ∧ tb_early x <= t ∧ t < tb_late x.
Definition ordered (x : TimestampBoundedData) : Prop := tb_early x <= tb_late x.
Lemma covers_cons x l id version t :
  covers (x :: l) id version t ↔
  (tb_id x = id ∧ tb_version x = version ∧ tb_early x <= t ∧ t < tb_late x) ∨ covers l id version t.
Proof.
  unfold covers. split.
  - intros (y & [->|Hy]%elem_of_cons & Hr); [by left|right; by exists y].
  - intros [Hx|(y & Hy & Hr)]; [exists x; set_solver|exists y; set_solver].
Qed.
Lemma covers_merged previous item l id version t :
  same_version previous item = true → ordered previous → ordered item →
  covers (merged previous item :: l) id version t ↔ covers (previous :: item :: l) id version t.
Proof.
  unfold same_version, ordered. rewrite !andb_true_iff, bool_decide_eq_true, !Z.eqb_eq.
  intros [[Hid Hv] Hl] Hp Hi. rewrite !covers_cons. cbn. rewrite Hid, Hv.
  destruct (covers_cons item l id version t) as [_ _]. split.
  - intros [(? & ? & ? & ?)|?]; [|tauto]. destruct (decide (t < tb_late previous)); [left|right; left]; lia || auto with lia.
  - intros [(? & ? & ? & ?)|[(? & ? & ? & ?)|?]]; [left|left|by right]; split_and!; done || lia.
Qed.
Lemma sanitize_loop_covers skip previous l id version t :
  ordered previous → Forall ordered l →
  (covers (sanitize_loop skip previous l) id version t → covers (previous :: l) id version t) ∧
  (skip = false ∨ version ≠ 1 → covers (previous :: l) id version t →
   covers (sanitize_loop skip previous l) id version t).
Proof.
  intros Hp Hl. revert previous Hp. induction Hl as [|item l Hi Hl IH]; intros previous Hp; cbn [sanitize_loop]; [done|].
  destruct (same_version previous item) eqn:Es.
  { destruct (IH (merged previous item)) as [IH1 IH2].
    { unfold ordered in *. cbn. unfold same_version in Es. lia. }
    rewrite !covers_merged in IH1 by done. rewrite !covers_merged in IH2 by done. done. }
  destruct (skip && is_minimal_sync previous item) eqn:Em.
  { destruct (IH item Hi) as [IH1 IH2]. split.
    - intros Hc. rewrite covers_cons. right. by apply IH1.
    - intros Hor. rewrite covers_cons. intros [(_ & Hv & _)|Hc]; [|by apply IH2].
      apply andb_true_iff in Em as [-> Em]. unfold is_minimal_sync in Em. destruct Hor; [done|lia]. }
  destruct (IH item Hi) as [IH1 IH2]. rewrite !(covers_cons previous). split.
  - intros [Hc|Hc]; [by left|right; by apply IH1].
  - intros Hor [Hc|Hc]; [by left|right; by apply IH2].
Qed.
Lemma sanitize_covers skip l id version t :
  Forall ordered l →
  (covers (sanitize_list l skip) id version t → covers l id version t) ∧
  (skip = false ∨ version ≠ 1 → covers l id version t → covers (sanitize_list l skip) id version t).
Proof.
  intros Hl. destruct Hl as [|x l Hx Hl]; [done|]. by apply sanitize_loop_covers.
Qed.
