(* ===== verification/VersioningProperties.v ===== *)
(** What the lister of the versions of a path promises: the versions that it gives are
    the ones that were at the path, each in its time frame. *)

From S2P Require Import Prelude PyString Types ApiManifest Chunk EntryTransactions Versioning.
From S2P Require Import VersioningProofs.

(** The data of an item is the data of its version. *)
Definition has_data (h : EntryID → list Revision) (x : TimestampBoundedData) : Prop :=
  ∃ i r, h (tb_id x) !! i = Some r ∧ tb_version x = rv_version r ∧
    mkManifestData (tb_creator x) (tb_updated x) (tb_is_folder x) (tb_size x)
    = manifest_data (rv_manifest r).
Lemma sanitize_data h skip l :
  Forall (has_data h) l → Forall (has_data h) (sanitize_list l skip).
Proof.
  intros Hl. destruct Hl as [|x l Hx Hl]; [constructor|]. cbn [sanitize_list].
  revert x Hx. induction Hl as [|item l Hi Hl IH]; intros x Hx; cbn [sanitize_loop]; [by constructor|].
  destruct (same_version x item); [by apply IH|].
  destruct (skip && is_minimal_sync x item); [by apply IH|]. constructor; [done|by apply IH].
Qed.

Section listing.
Context {L : Type} `{HistoryLoader L} (h : EntryID → list Revision) (Hwf : history_wf h)
  (Hlaws : history_laws h) (fuel : nat) (Hend : paths_end h fuel) (target : FsPath).

(** The caches of a lister that only knows the history. *)
Definition caches_sound (manifests : gmap EntryID (odict Z CacheEntry))
    (lists : gmap EntryID (list (Z * (DateTime * DeviceID)))) : Prop :=
  cache_sound h manifests ∧ ∀ e l, lists !! e = Some l → l = listed h e.

(** The state with its first task. *)
Definition first_task (root_id : EntryID) (early late : DateTime) : Task :=
  PopulateListVersions 0 root_id early late.
Lemma start_ok loader manifests lists limit root_id early late :
  caches_sound manifests lists → h root_id ≠ [] →
  ∃ s : Lister L, task_add (first_task root_id early late) early None (new_listing loader manifests lists limit)
      = (s, Ok tt) ∧
    inv h target fuel (frames h target root_id early late) s ∧ vl_limit s = limit ∧
    vl_task_tree s = Some 0%nat ∧ turns_left (L := L) h target s = S (weight h target root_id early late).
Proof.
  intros [Hc Hl] Hroot.
  exists (mkLister loader manifests lists 0 limit
    [mkTaskNode (first_task root_id early late) early None [] false] [0%nat] (Some 0%nat) []).
  split; [reflexivity|]. split_and!; try done.
  - split.
    + by split.
    + split; cbn.
      * intros i ->%list_elem_of_singleton. by eexists.
      * apply NoDup_singleton.
      * intros [|i] t p; cbn; [by intros [= <-]|by destruct i].
      * intros [|i] t; cbn; [done|by destruct i].
      * intros [|i] t c; cbn; [intros [= <-] Hx; by apply not_elem_of_nil in Hx|by destruct i].
      * intros [|i] t c; cbn; [by intros [= <-]|by destruct i].
    + repeat constructor. exact Hroot.
    + split; [constructor|done].
    + intros k. unfold frontier. cbn. rewrite app_nil_r. set_solver.
Qed.

(** The items of the result dictionary. *)
Definition items_of (d : odict TimestampBoundedEntry ManifestDataAndPaths) : list TimestampBoundedData :=
  (λ '(k, v), bounded_data k v) <$> d.
Lemma items_covers d id version t :
  covers (items_of d) id version t ↔
  ∃ k, k ∈ od_keys d ∧ te_id k = id ∧ te_version k = version ∧ te_early k <= t ∧ t < te_late k.
Proof.
  unfold covers, items_of. split.
  - intros (x & ([k v] & -> & Hin)%list_elem_of_fmap & Hr). exists k. split; [|done].
    apply list_elem_of_fmap. by exists (k, v).
  - intros (k & ([k' v] & -> & Hin)%list_elem_of_fmap & Hr). exists (bounded_data k' v). split; [|done].
    apply list_elem_of_fmap. by exists (k', v).
Qed.
Lemma covers_incl l l' id version t :
  (∀ x, x ∈ l → x ∈ l') → covers l id version t → covers l' id version t.
Proof. intros Hl (x & Hx & Hr). exists x. auto. Qed.
Lemma items_fine d root_id early late :
  dict_ok h fuel d → (∀ k, k ∈ od_keys d → k ∈ frames h target root_id early late) →
  ∀ x, x ∈ items_of d → ordered x ∧ has_data h x.
Proof.
  intros [Hn Hv] Hk x ([k v] & -> & Hin)%list_elem_of_fmap.
  assert (k ∈ od_keys d) as Hkd by (apply list_elem_of_fmap; by exists (k, v)).
  destruct (frames_bounds _ Hwf _ _ _ _ _ (Hk _ Hkd)) as (_ & Hle & _). split; [done|].
  destruct (Hv k v) as (i & r & Hi & Hver & ->); [by apply od_elem_get|].
  exists i, r. split_and!; [done|done|]. cbn. by destruct (rv_manifest r).
Qed.

(** C12: the versions of a path. Against a server whose history does not change during
    the listing, whatever the order in which the tasks of the same date run, from
    caches that know nothing false, the listing ends: each item gives a version and a
    time frame in which the path did lead to this version of this entry, with the
    author, the date, the kind and the size of this version. Without a limit on the
    downloads the list is complete: at any time of the period at which the path led
    to a version, an item has it, except for the empty first versions when those are
    to be left out. With a limit, either the list is complete or the boolean is
    false. The caches still know nothing false. *)
Theorem version_list_exact loader manifests lists limit pick root_id root_created skip starting ending
    (Hcaches : caches_sound manifests lists) (Hroot : h root_id ≠ []) :
  let early := default root_created starting in
  ∃ turns, ∀ n, (turns <= n)%nat →
    ∃ s l complete,
      list_path target fuel pick n root_id root_created skip starting ending
        (new_listing loader manifests lists limit) = (s, Ok (l, complete)) ∧
      (truthy_number limit = None → complete = true) ∧
      (∀ id version t, covers l id version t →
         early <= t ∧ t < ending ∧
         ∃ r, path_at h t target root_id = Some r ∧ rm_id (rv_manifest r) = id ∧ rv_version r = version) ∧
      (complete = true → ∀ r t, early <= t → t < ending → path_at h t target root_id = Some r →
         skip = false ∨ rv_version r ≠ 1 →
         covers l (rm_id (rv_manifest r)) (rv_version r) t) ∧
      Forall (has_data h) l ∧
      caches_sound (vl_manifests s) (vl_versions_lists s).
Proof.
  intros early. exists (S (weight h target root_id early ending)). intros n Hn.
  destruct (start_ok loader manifests lists limit root_id early ending Hcaches Hroot)
    as (s0 & E0 & Hinv0 & Hl0 & Ht0 & Hw0).
  set (all := frames h target root_id early ending) in *.
  (* how the run ends *)
  assert (∃ s1 complete dl,
    try_catch
      (_ ← task_add (first_task root_id early ending) early None;
       _ ← execute target fuel pick n;
       mret (true, None))
      (λ e, if decide (e = ManifestCacheDownloadLimitReached) then gets tree_state else mthrow e)
      (new_listing loader manifests lists limit) = (s1, Ok (complete, dl)) ∧
    sound h s1 ∧ dict_ok h fuel (vl_return_dict s1) ∧ (∀ k, k ∈ od_keys (vl_return_dict s1) → k ∈ all) ∧
    (complete = true → ∀ k, k ∈ all → k ∈ od_keys (vl_return_dict s1)) ∧
    (truthy_number limit = None → complete = true)) as (s1 & complete & dl & E1 & Hs1 & Hd1 & Hin1 & Hall1 & Hcomp1).
  { unfold try_catch. rewrite (bind_Ok _ _ _ _ _ E0).
    destruct (execute_ok h Hwf Hlaws target fuel Hend all pick n s0 Hinv0 ltac:(lia))
      as [(s1 & E1 & [H1 H2 H3 H4 H5] & Hheap)|(s1 & E1 & [H1 H2 H3 H4 (i & t & Hi & Hc)] & Ht1 & Hlim)].
    - rewrite (bind_Ok _ _ _ _ _ E1). exists s1, true, None. split; [done|].
      assert (∀ k, frontier h target s1 k ↔ k ∈ od_keys (vl_return_dict s1)) as Hfr.
      { intros k. unfold frontier, todo. rewrite Hheap. cbn. rewrite elem_of_nil. tauto. }
      split_and!; [done|done| | |done].
      * intros k Hk. apply H5. by apply Hfr.
      * intros _ k Hk. apply Hfr. by apply H5.
    - rewrite (bind_Err _ _ _ _ _ E1), decide_True by done.
      exists s1, false. eexists. split.
      + unfold gets, tree_state. rewrite Ht1, Ht0, (root_left _ _ _ _ H2 Hi Hc). reflexivity.
      + split_and!; try done. intros Hno. congruence. }
  unfold list_path. fold early. rewrite (bind_Ok _ _ _ _ _ E1).
  rewrite (bind_Ok _ _ _ s1 (vl_return_dict s1)) by done.
  set (kept := filter _ _). set (items := _ <$> kept).
  assert (∀ x, x ∈ items → x ∈ items_of (vl_return_dict s1)) as Hsub.
  { intros x ([k v] & -> & [_ Hk]%list_elem_of_filter)%list_elem_of_fmap.
    apply list_elem_of_fmap. exists (k, v). split; [done|]. by rewrite py_sorted_Permutation in Hk. }
  assert (complete = true → ∀ x, x ∈ items_of (vl_return_dict s1) → x ∈ items) as Hsup.
  { intros -> x ([k v] & -> & Hk)%list_elem_of_fmap. apply list_elem_of_fmap. exists (k, v).
    split; [done|]. apply list_elem_of_filter. split; [done|]. by rewrite py_sorted_Permutation. }
  pose proof (items_fine _ _ _ _ Hd1 Hin1) as Hfine.
  assert (Forall ordered items) as Hord by (apply Forall_forall; intros x Hx; by apply Hfine, Hsub).
  eexists _, _, complete. split; [reflexivity|]. split; [done|]. split_and!.
  - intros id version t Hc. apply (proj1 (sanitize_covers _ _ _ _ _ Hord)) in Hc.
    apply (covers_incl _ _ _ _ _ Hsub) in Hc. apply items_covers in Hc as (k & Hk & Hid & Hv & H1 & H2).
    apply Hin1 in Hk. destruct (frames_bounds _ Hwf _ _ _ _ _ Hk) as (Hb1 & _ & Hb2).
    split; [lia|]. split; [lia|]. apply (frames_exact h Hwf target root_id early ending t); [lia|lia|].
    by exists k.
  - intros Hc r t Ha Hb Hr Hor. apply sanitize_covers; [done|done|].
    apply (covers_incl _ _ _ _ _ (Hsup Hc)). apply items_covers.
    destruct (proj2 (frames_exact h Hwf target root_id early ending t (rm_id (rv_manifest r)) (rv_version r)
      Ha Hb)) as (k & Hk & Hrest); [by exists r|].
    exists k. split; [by apply Hall1|done].
  - apply sanitize_data. apply Forall_forall. intros x Hx. by apply Hfine, Hsub.
  - by destruct Hs1.
Qed.
End listing.

(** ** An example: a file that is written, then renamed *)

Definition ex_author : DeviceID := mkDeviceID "alice" "dev1".
Definition ex_root (version t : Z) (children : gmap EntryName EntryID) : Revision :=
  mkRevision t ex_author (RWorkspace (mkWorkspaceManifest ex_author t 1 version 0 t children)).
Definition ex_file (version t size : Z) : Revision :=
  mkRevision t ex_author (RFile (mkFileManifest ex_author t 2 1 version 5 t size 512 [])).
Definition ex_history (e : EntryID) : list Revision :=
  if decide (e = 1%N) then [ex_root 1 0 ∅; ex_root 2 10 {["a" := 2%N]}; ex_root 3 30 {["b" := 2%N]}]
  else if decide (e = 2%N) then [ex_file 1 5 0; ex_file 2 20 3]
  else [].
(** A server that only has this history. *)
Definition ex_loader : HistoryLoader unit := {|
  hl_load_manifest e version timestamp _ := λ s,
    (s, match version, timestamp with
        | Some version, _ => match ex_history e !! Z.to_nat (version - 1) with
                             | Some r => Ok (rv_manifest r)
                             | None => Err (FSRemoteManifestNotFoundBadVersion e)
                             end
        | None, Some t => match held ex_history e t with
                          | Some r => Ok (rv_manifest r)
                          | None => Err (FSRemoteManifestNotFoundBadTimestamp e)
                          end
        | None, None => Err (FSRemoteManifestNotFound e)
        end);
  hl_list_versions e := λ s, (s, Ok (listed ex_history e)) |}.

Lemma ex_history_cases e r :
  r ∈ ex_history e →
  e = 1%N ∧ (r = ex_root 1 0 ∅ ∨ r = ex_root 2 10 {["a" := 2%N]} ∨ r = ex_root 3 30 {["b" := 2%N]}) ∨
  e = 2%N ∧ (r = ex_file 1 5 0 ∨ r = ex_file 2 20 3).
Proof. unfold ex_history. repeat case_decide; set_solver. Qed.
Lemma ex_history_wf : history_wf ex_history.
Proof.
  split.
  - intros e i r. unfold ex_history.
    repeat case_decide; subst; [| |by destruct i]; destruct i as [|[|[|[|i]]]]; by intros [= <-].
  - intros e. unfold ex_history. repeat case_decide;
      repeat (apply SSorted_nil || apply SSorted_cons || apply Forall_nil_2 || apply Forall_cons_2 || (cbn; lia)).
  - intros e r u Hr. by destruct (ex_history_cases _ _ Hr) as [(_ & [-> |[-> | ->]])|(_ & [-> | ->])].
  - intros e r cs n c Hr.
    destruct (ex_history_cases _ _ Hr) as [(_ & [-> |[-> | ->]])|(_ & [-> | ->])]; intros [= <-]; [done| |];
      by intros [<- <-]%lookup_singleton_Some.
Qed.
Lemma ex_history_laws : history_laws (H := ex_loader) ex_history.
Proof.
  split.
  - intros e l _. by exists l.
  - intros e i r l Hi. exists l. cbn. destruct (hw_version _ ex_history_wf _ _ _ Hi) as [-> _].
    replace (Z.to_nat _) with i by lia. by rewrite Hi.
  - intros e t l. exists l, (FSRemoteManifestNotFoundBadTimestamp e). split; [done|]. cbn.
    by destruct (held ex_history e t).
Qed.
Lemma ex_paths_end : paths_end ex_history 1.
Proof.
  intros e t. unfold path_of. destruct (held ex_history e t) as [r|] eqn:Hh; [|by left].
  destruct (held_elem _ _ _ _ Hh) as [Hr _].
  destruct (ex_history_cases _ _ Hr) as [(-> & [-> |[-> | ->]])|(-> & [-> | ->])]; cbn; [by eauto..| |].
  all: destruct (held ex_history 1 t) as [r|] eqn:Hh1; [|by left].
  all: destruct (held_elem _ _ _ _ Hh1) as [Hr1 _].
  all: destruct (ex_history_cases _ _ Hr1) as [(_ & [-> |[-> | ->]])|(? & _)]; [| | |done]; cbn;
    (destruct (name_of _ _); by eauto).
Qed.
(** The file had the path [a] from 10 to 30, and its second version from 20 on. *)
Example version_list_witness :
  ∃ turns s l,
    list_path (H := ex_loader) ["a"] 1 (λ _, 0%nat) turns 1 0 false None 100
      (new_listing tt ∅ ∅ None) = (s, Ok (l, true)) ∧
    covers l 2 1 15 ∧ covers l 2 2 25 ∧ ¬ covers l 2 2 35 ∧ Forall (has_data ex_history) l.
Proof.
  destruct (version_list_exact (H := ex_loader) ex_history ex_history_wf ex_history_laws 1 ex_paths_end ["a"]
    tt ∅ ∅ None (λ _, 0%nat) 1 0 false None 100) as (turns & Ht); [by split; [split|]|done|].
  destruct (Ht turns ltac:(done)) as (s & l & complete & E & Hc & Honly & Hall & Hdata & _).
  rewrite (Hc eq_refl) in E. exists turns, s, l. split_and!; [exact E| | | |exact Hdata].
  - apply (Hall (Hc eq_refl) (ex_file 1 5 0) 15); [done|done|vm_compute; reflexivity|by left].
  - apply (Hall (Hc eq_refl) (ex_file 2 20 3) 25); [done|done|vm_compute; reflexivity|by left].
  - intros (_ & _ & r & Hr & _)%Honly. vm_compute in Hr. discriminate.
Defined.
