(* ===== verification/UserFS.v ===== *)
(** The workspaces of a user on a client: the user manifest, its synchronization,
    the sharing of workspaces and its messages, the start of a reencryption.
    [guardata/client/fs/userfs/userfs.py], with the messages of
    [guardata/api/data/message.py]. *)

From S2P Require Import Prelude PyString Types ApiManifest Chunk LocalManifest FileOperations.
From S2P Require Import FileContent Storage FileTransactions Merging EntryTransactions.
From S2P Require Import SyncTransactions Backend Certif BackendUser BackendMessage BackendRealm.
From S2P Require Import Trustchain RemoteDevices RemoteLoader ReencryptionJob WorkspaceFS.

(** ** Messages *)

(** [SharingGrantedMessageContent] and [SharingReencryptedMessageContent] *)
Record SharingMessage := mkSharingMessage {
  sm_author : DeviceID;
  sm_timestamp : DateTime;
  sm_name : string;
  sm_id : EntryID;
  sm_encryption_revision : Z;
  sm_encrypted_on : DateTime;
  sm_key : SecretKey }.
(** The subclasses of [BaseMessageContent]. *)
Inductive MessageContent :=
| SharingGranted (m : SharingMessage)
| SharingReencrypted (m : SharingMessage)
| SharingRevoked (author : DeviceID) (timestamp : DateTime) (id : EntryID)
| Ping (author : DeviceID) (timestamp : DateTime) (ping : string).
Definition msg_author (m : MessageContent) : DeviceID :=
  match m with
  | SharingGranted m | SharingReencrypted m => sm_author m
  | SharingRevoked author _ _ | Ping author _ _ => author
  end.
Definition msg_timestamp (m : MessageContent) : DateTime :=
  match m with
  | SharingGranted m | SharingReencrypted m => sm_timestamp m
  | SharingRevoked _ timestamp _ | Ping _ timestamp _ => timestamp
  end.

(** [PrivateKey.decrypt_from_self] of the device, [PublicKey.encrypt_for_self], and
    the schema of the messages. *)
Class MessageApi := {
  private_decrypt : bytes → option bytes;
  public_encrypt : bytes → bytes → option bytes;
  loads_message : bytes → option MessageContent;
  dumps_message : MessageContent → bytes }.

(** The requests of this component. *)
Class UserCmds (Srv : Type) := {
  cmd_message_get : Z → Srv → Srv * net (reply (list MessageRep));
  cmd_realm_update_roles : bytes → bytes → Srv → Srv * net (reply unit) }.

(** ** State *)

Inductive UserEvent :=
| ENTRY_UPDATED (id : EntryID)
| ENTRY_SYNCED (id : EntryID)
| ENTRY_REMOTE_CHANGED (id : EntryID)
| WORKSPACE_CREATED (new_entry : WorkspaceEntry)
| SHARING_UPDATED (new_entry : WorkspaceEntry) (previous_entry : option WorkspaceEntry)
| USERFS_UPDATED
| MESSAGE_PINGED (ping : string).

(** What a [WorkspaceFS] keeps of its own. *)
Record LocalWorkspace := mkLocalWorkspace {
  lw_transactions : SyncState;
  lw_role_cache : option (list RealmRoleCertificateContent);
  lw_role_cache_timestamp : option DateTime }.

Record UserFS (Srv : Type) := mkUserFS {
  us_manifest : LocalUserManifest;
  us_workspaces : gmap EntryID LocalWorkspace;
  us_server : Srv;
  us_trustchain : TrustchainContext;
  us_clock : nat;
  us_drawn : nat;
  us_events : list UserEvent }.
Arguments mkUserFS {Srv} _ _ _ _ _ _ _.
Arguments us_manifest {Srv} _.
Arguments us_workspaces {Srv} _.
Arguments us_server {Srv} _.
Arguments us_trustchain {Srv} _.
Arguments us_clock {Srv} _.
Arguments us_drawn {Srv} _.
Arguments us_events {Srv} _.

Definition set_us_manifest {Srv} (m : LocalUserManifest) (s : UserFS Srv) : UserFS Srv :=
  mkUserFS m (us_workspaces s) (us_server s) (us_trustchain s) (us_clock s) (us_drawn s) (us_events s).
Definition set_us_workspaces {Srv} (f : gmap EntryID LocalWorkspace → gmap EntryID LocalWorkspace)
    (s : UserFS Srv) : UserFS Srv :=
  mkUserFS (us_manifest s) (f (us_workspaces s)) (us_server s) (us_trustchain s) (us_clock s)
    (us_drawn s) (us_events s).
Definition set_us_remote {Srv} (srv : Srv) (trustchain : TrustchainContext) (s : UserFS Srv)
    : UserFS Srv :=
  mkUserFS (us_manifest s) (us_workspaces s) srv trustchain (us_clock s) (us_drawn s) (us_events s).
Definition us_tick {Srv} (s : UserFS Srv) : UserFS Srv :=
  mkUserFS (us_manifest s) (us_workspaces s) (us_server s) (us_trustchain s) (S (us_clock s))
    (us_drawn s) (us_events s).
Definition us_draw {Srv} (s : UserFS Srv) : UserFS Srv :=
  mkUserFS (us_manifest s) (us_workspaces s) (us_server s) (us_trustchain s) (us_clock s)
    (S (us_drawn s)) (us_events s).
Definition us_event {Srv} (e : UserEvent) (s : UserFS Srv) : UserFS Srv :=
  mkUserFS (us_manifest s) (us_workspaces s) (us_server s) (us_trustchain s) (us_clock s)
    (us_drawn s) (e :: us_events s).

(** The remote loader of the user manifest has no local storage. *)
Definition no_storage : Storage := mkStorage ∅ ∅ ∅ None ∅ ∅ 0 ∅ 0.

(** The subclasses of [FSError]. *)
Definition is_fs_error (e : FSExn) : bool :=
  match e with
  | AssertionError | IndexError | KeyError | TypeError | AttributeError | ValueError
  | FSLocalMissError _ | FSFileConflictError _ _ | FSReshapingRequiredError _
  | FSNoSynchronizationRequired _ | CryptoError | DataErrorRaised
  | BackendConnectionError | PythonRecursionError => false
  | _ => true
  end.
Definition is_no_access (e : FSExn) : bool :=
  match e with
  | FSWorkspaceNoAccess | FSWorkspaceNoReadAccess | FSWorkspaceNoWriteAccess => true
  | _ => false
  end.

(** [WorkspaceEntry.evolve(name=...)] and [evolve(role=None, role_cached_on=...)] *)
Definition we_rename (name : EntryName) (w : WorkspaceEntry) : WorkspaceEntry :=
  mkWorkspaceEntry name (we_id w) (we_key w) (we_encryption_revision w) (we_encrypted_on w)
    (we_role_cached_on w) (we_role w).
Definition we_revoke (now : DateTime) (w : WorkspaceEntry) : WorkspaceEntry :=
  mkWorkspaceEntry (we_name w) (we_id w) (we_key w) (we_encryption_revision w) (we_encrypted_on w)
    now None.
(** [evolve(encryption_revision=..., encrypted_on=now, key=...)] *)
Definition we_reencrypt (now : DateTime) (key : SecretKey) (w : WorkspaceEntry) : WorkspaceEntry :=
  mkWorkspaceEntry (we_name w) (we_id w) key (we_encryption_revision w + 1) now
    (we_role_cached_on w) (we_role w).
(** [evolve_and_mark_updated(last_processed_message=...)] *)
Definition lu_processed (now : DateTime) (last_processed_message : Z) (m : LocalUserManifest)
    : LocalUserManifest :=
  mkLocalUserManifest (lu_base m) true now last_processed_message (lu_workspaces m).

Section userfs.
Context `{CertifApi, LoaderApi, MessageApi} {Srv : Type}
  `{BackendCmds Srv, MaintenanceCmds Srv, UserCmds Srv}.
(** The clock and the bounds of the recursions; the device; the ids and keys that
    are drawn; the local storages on the disk, with the filter of the user applied;
    what a workspace needs; the order of a dict. *)
Context (clock : nat → DateTime) (fuel depth : nat) (device_id : DeviceID)
  (user_manifest_id : EntryID) (user_manifest_key : SecretKey)
  (fresh : nat → UUID) (fresh_key : nat → SecretKey)
  (open_workspace : EntryID → LocalWorkspace)
  (pattern_match : EntryName → bool) (block_key : SecretKey)
  (order : gset EntryID → list EntryID)
  (items : gmap EntryName EntryID → odict EntryName EntryID)
  (role_keys : gmap UserID RealmRole → list UserID).

Abbreviation usM := (stM (UserFS Srv) FSExn) (only parsing).

Definition us_now : usM DateTime := λ s, (us_tick s, Ok (clock (us_clock s))).
Definition draw_id : usM UUID := λ s, (us_draw s, Ok (fresh (us_drawn s))).
Definition draw_key : usM SecretKey := λ s, (us_draw s, Ok (fresh_key (us_drawn s))).
Definition send_user_event (e : UserEvent) : usM unit := modify (us_event e).

(** A call on [self.remote_loader]. *)
Definition on_user_loader {A} (m : stM (Loader Srv) FSExn A) : usM A := λ s,
  let '(l, r) := m (mkLoader (us_server s) (us_trustchain s) no_storage None None) in
  (set_us_remote (rl_server l) (rl_trustchain l) s, r).
(** A request, and what most of the code makes of its failures. *)
Definition user_request {A} (cmd : Srv → Srv * net A) : usM (net A) := λ s,
  let '(srv, r) := cmd (us_server s) in (set_us_remote srv (us_trustchain s) s, Ok r).
Definition user_cmd {A} (cmd : Srv → Srv * net (reply A)) : usM (reply A) :=
  r ← user_request cmd;
  match r with
  | NetReply rep => mret rep
  | NetNotAvailable => mthrow FSBackendOfflineError
  | NetConnectionError => mthrow FSError
  end.

(** ** The user manifest and the workspaces *)

Definition get_user_manifest : usM LocalUserManifest := gets us_manifest.

(** [_load_workspace] *)
Definition load_workspace (workspace_id : EntryID) : usM unit :=
  modify (set_us_workspaces (λ ws,
    match ws !! workspace_id with
    | Some _ => ws
    | None => <[workspace_id := open_workspace workspace_id]> ws
    end)).
(** [UserFS.set_user_manifest] and [UserStorage.set_user_manifest] *)
Definition set_user_manifest (manifest : LocalUserManifest) : usM unit :=
  _ ← for_each load_workspace (we_id <$> lu_workspaces manifest);
  _ ← raise_if (bool_decide (user_manifest_id ≠ um_id (lu_base manifest))) AssertionError;
  modify (set_us_manifest manifest).

(** [_create_workspace] *)
Definition create_workspace (workspace_id : EntryID) (manifest : LocalFolderish) : usM unit :=
  let workspace := open_workspace workspace_id in
  let '(ss, _) := on_local (set_manifest workspace_id (LFolderish manifest) false ∅)
                    (lw_transactions workspace) in
  modify (set_us_workspaces (λ ws,
    match ws !! workspace_id with
    | Some _ => ws
    | None => <[workspace_id := mkLocalWorkspace ss (lw_role_cache workspace)
                                  (lw_role_cache_timestamp workspace)]> ws
    end)).

(** [get_workspace], with [workspace.get_workspace_entry()]. *)
Definition get_workspace (workspace_id : EntryID) : usM (LocalWorkspace * WorkspaceEntry) :=
  workspaces ← gets us_workspaces;
  workspace ← of_option FSWorkspaceNotFoundError (workspaces !! workspace_id);
  user_manifest ← get_user_manifest;
  workspace_entry ← of_option FSWorkspaceNotFoundError
    (lu_get_workspace_entry user_manifest workspace_id);
  mret (workspace, workspace_entry).

(** A call on a workspace. *)
Definition run_workspace {A} (workspace_id : EntryID) (w : LocalWorkspace)
    (m : stM (WorkspaceFS Srv) FSExn A) : usM A := λ s,
  let '(w', r) := m (mkWorkspaceFS (lw_transactions w) (us_server s) (us_trustchain s)
                       (lw_role_cache w) (lw_role_cache_timestamp w) (us_clock s)) in
  (mkUserFS (us_manifest s)
     (<[workspace_id := mkLocalWorkspace (wf_transactions w') (wf_role_cache w')
                          (wf_role_cache_timestamp w')]> (us_workspaces s))
     (wf_server w') (wf_trustchain w') (wf_clock w') (us_drawn s) (us_events s), r).
Definition on_workspace {A} (workspace_id : EntryID)
    (m : WorkspaceEntry → stM (WorkspaceFS Srv) FSExn A) : usM A :=
  '(w, workspace_entry) ← get_workspace workspace_id;
  run_workspace workspace_id w (m workspace_entry).

(** [workspace_create] *)
Definition workspace_create (name : string) : usM EntryID :=
  name ← lift_result (entry_name name);
  id ← draw_id;
  key ← draw_key;
  now ← us_now;
  let workspace_entry := workspace_entry_new name id key now in
  now ← us_now;
  let workspace_manifest := workspace_new_placeholder device_id id now in
  user_manifest ← get_user_manifest;
  now ← us_now;
  let user_manifest := evolve_workspaces_and_mark_updated now user_manifest [workspace_entry] in
  _ ← create_workspace id workspace_manifest;
  _ ← set_user_manifest user_manifest;
  _ ← send_user_event (ENTRY_UPDATED user_manifest_id);
  _ ← send_user_event (WORKSPACE_CREATED workspace_entry);
  mret id.

(** [workspace_rename] *)
Definition workspace_rename (workspace_id : EntryID) (new_name : string) : usM unit :=
  new_name ← lift_result (entry_name new_name);
  user_manifest ← get_user_manifest;
  workspace_entry ← of_option FSWorkspaceNotFoundError
    (lu_get_workspace_entry user_manifest workspace_id);
  now ← us_now;
  let updated_user_manifest :=
    evolve_workspaces_and_mark_updated now user_manifest [we_rename new_name workspace_entry] in
  _ ← set_user_manifest updated_user_manifest;
  send_user_event (ENTRY_UPDATED user_manifest_id).

(** ** The synchronization of the user manifest *)

(** [_fetch_remote_user_manifest]; a [BackendConnectionError] is not caught here. *)
Definition fetch_remote_user_manifest (version : option Z) : usM UserManifest :=
  r ← user_request (cmd_vlob_read 1 user_manifest_id version None);
  match r with
  | NetNotAvailable => mthrow FSBackendOfflineError
  | NetConnectionError => mthrow BackendConnectionError
  | NetReply (RepError status) =>
      if decide (status = "in_maintenance"%string) then mthrow FSWorkspaceInMaintenance
      else mthrow FSError
  | NetReply (RepOk (expected_version, blob, expected_author, expected_timestamp)) =>
      now ← us_now;
      author ← on_user_loader (rl_get_device now fuel expected_author false);
      manifest ← lift_result (or_fs_error (decrypt_verify_and_load_manifest blob user_manifest_key
        (dc_verify_key author) expected_author expected_timestamp
        (Some (default expected_version version)) (Some user_manifest_id)));
      match manifest with RUser manifest => mret manifest | _ => mthrow FSError end
  end.

(** [_detect_and_send_shared_events]: the events, in the order in which they are
    sent. *)
Definition shared_entries (old_um new_um : LocalUserManifest)
    : odict EntryID (option WorkspaceEntry * option WorkspaceEntry) :=
  let entries := foldl (λ d e, od_set d (we_id e) (Some e, None)) [] (lu_workspaces old_um) in
  foldl (λ d e, od_set d (we_id e)
           (match od_get d (we_id e) with
            | Some (old, _) => (old, Some e)
            | None => (None, Some e)
            end)) entries (lu_workspaces new_um).
Definition shared_event (entry : option WorkspaceEntry * option WorkspaceEntry) : list UserEvent :=
  match entry with
  | (_, None) => []
  | (None, Some new) =>
      match we_role new with Some _ => [SHARING_UPDATED new None] | None => [] end
  | (Some old, Some new) => [SHARING_UPDATED new (Some old)]
  end.
Definition detect_and_send_shared_events (old_um new_um : LocalUserManifest) : usM unit :=
  for_each send_user_event (concat (shared_event <$> od_values (shared_entries old_um new_um))).

(** [_inbound_sync] *)
Definition inbound_sync : usM unit :=
  target_um ← fetch_remote_user_manifest None;
  diverged_um ← get_user_manifest;
  if um_version target_um =? lu_base_version diverged_um then mret tt
  else if um_version target_um <=? lu_base_version diverged_um then mret tt
  else
    merged_um ← lift_result (merge_local_user_manifests diverged_um target_um);
    _ ← set_user_manifest merged_um;
    _ ← detect_and_send_shared_events diverged_um merged_um;
    send_user_event (ENTRY_REMOTE_CHANGED user_manifest_id).

(** [_workspace_minimal_sync] *)
Definition workspace_minimal_sync (workspace_id : EntryID) : usM bool :=
  on_workspace workspace_id (λ workspace_entry,
    minimal_sync clock fuel depth device_id workspace_id workspace_entry pattern_match false fresh
      block_key order items workspace_id).
Fixpoint sync_placeholders (workspaces : list WorkspaceEntry) : usM bool :=
  match workspaces with
  | [] => mret true
  | w :: workspaces =>
      b ← workspace_minimal_sync (we_id w);
      if b : bool then sync_placeholders workspaces else mret false
  end.

(** [_outbound_sync_inner]; [None] says that [depth] was not enough. *)
Definition outbound_sync_inner : usM (option bool) :=
  base_um ← get_user_manifest;
  if negb (lu_need_sync base_um) then mret (Some true)
  else
    _ ← (if lu_base_version base_um =? 0 then
           now ← us_now;
           rep ← user_cmd (cmd_realm_create
             (device_sign (dumps_realm_role (build_realm_root_certif device_id now user_manifest_id))));
           match rep with
           | RepError status =>
               if decide (status = "already_exists"%string) then mret tt else mthrow FSError
           | RepOk _ => mret tt
           end
         else mret tt);
    synced ← sync_placeholders (lu_workspaces base_um);
    if negb synced then mret None
    else
      now ← us_now;
      let to_sync_um := user_to_remote base_um device_id now in
      raw ← of_option DataErrorRaised (dumps_manifest (RUser to_sync_um));
      ciphered ← of_option DataErrorRaised (secret_encrypt user_manifest_key (device_sign raw));
      rep ← (if um_version to_sync_um =? 1
             then user_cmd (cmd_vlob_create user_manifest_id 1 user_manifest_id now ciphered)
             else user_cmd (cmd_vlob_update 1 user_manifest_id (um_version to_sync_um) now ciphered));
      match rep with
      | RepError status =>
          if decide (status = "already_exists"%string ∨ status = "bad_version"%string)
          then mret (Some false)
          else if decide (status = "in_maintenance"%string) then mthrow FSWorkspaceInMaintenance
          else mthrow FSError
      | RepOk _ =>
          diverged_um ← get_user_manifest;
          _ ← (if lu_base_version diverged_um <? um_version to_sync_um then
                 merged_um ← lift_result (merge_local_user_manifests diverged_um to_sync_um);
                 set_user_manifest merged_um
               else mret tt);
          _ ← send_user_event (ENTRY_SYNCED user_manifest_id);
          mret (Some true)
      end.

(** [_outbound_sync]: [false] says that [n] attempts, or [depth], were not enough. *)
Fixpoint outbound_sync (n : nat) : usM bool :=
  match n with
  | O => mret false
  | S n =>
      r ← outbound_sync_inner;
      match r with
      | Some true => mret true
      | Some false => _ ← inbound_sync; outbound_sync n
      | None => mret false
      end
  end.

(** [UserFS.sync] *)
Definition user_sync : usM bool :=
  user_manifest ← get_user_manifest;
  if lu_need_sync user_manifest then outbound_sync fuel else _ ← inbound_sync; mret true.

(** ** Sharing *)

(** [BaseMessageContent.dump_sign_and_encrypt_for] *)
Definition dump_sign_and_encrypt_for (msg : MessageContent) (recipient_pubkey : bytes)
    : option bytes := public_encrypt recipient_pubkey (device_sign (dumps_message msg)).

(** The content of a message that gives the access to a workspace. *)
Definition sharing_message (now : DateTime) (w : WorkspaceEntry) : SharingMessage :=
  mkSharingMessage device_id now (we_name w) (we_id w) (we_encryption_revision w)
    (we_encrypted_on w) (we_key w).

(** [workspace_share]: [false] says that [depth] was not enough. *)
Definition workspace_share (workspace_id : EntryID) (recipient : UserID) (role : option RealmRole)
    : usM bool :=
  _ ← raise_if (bool_decide (user_id device_id = recipient)) FSError;
  user_manifest ← get_user_manifest;
  workspace_entry ← of_option FSWorkspaceNotFoundError
    (lu_get_workspace_entry user_manifest workspace_id);
  synced ← workspace_minimal_sync (we_id workspace_entry);
  if negb synced then mret false
  else
    now ← us_now;
    '(recipient_user, revoked_recipient_user) ← on_user_loader (rl_get_user now fuel recipient false);
    _ ← raise_if (bool_decide (is_Some revoked_recipient_user)) FSError;
    now ← us_now;
    let recipient_message :=
      match role with
      | Some _ => SharingGranted (sharing_message now workspace_entry)
      | None => SharingRevoked device_id now (we_id workspace_entry)
      end in
    ciphered_recipient_message ← of_option FSError
      (dump_sign_and_encrypt_for recipient_message (uc_public_key recipient_user));
    let role_certificate := device_sign (dumps_realm_role
      (mkRealmRoleCertificateContent device_id now workspace_id recipient role)) in
    rep ← user_cmd (cmd_realm_update_roles role_certificate ciphered_recipient_message);
    match rep with
    | RepOk _ => mret true
    | RepError status =>
        if decide (status = "not_allowed"%string) then mthrow FSSharingNotAllowedError
        else if decide (status = "in_maintenance"%string) then mthrow FSWorkspaceInMaintenance
        else if decide (status = "already_granted"%string) then mret true
        else mthrow FSError
    end.

(** ** Messages *)

(** [load_realm_current_roles]; [None] when the user has no access to the realm. *)
Definition current_roles_of (realm_id : EntryID) : usM (option (gmap UserID RealmRole)) :=
  now ← us_now;
  try_catch
    (roles ← on_user_loader (load_realm_current_roles now fuel user_manifest_id (Some realm_id));
     mret (Some roles))
    (λ e, if is_no_access e then mret None else mthrow e).

(** [_process_message_sharing_granted] *)
Definition process_message_sharing_granted (msg : SharingMessage) : usM unit :=
  roles ← current_roles_of (sm_id msg);
  match roles with
  | None => mret tt
  | Some roles =>
      _ ← raise_if (negb (role_in (roles !! user_id (sm_author msg)) [OWNER; MANAGER]))
            FSSharingNotAllowedError;
      now ← us_now;
      let workspace_entry :=
        mkWorkspaceEntry (sm_name msg) (sm_id msg) (sm_key msg) (sm_encryption_revision msg)
          (sm_encrypted_on msg) now (roles !! user_id device_id) in
      user_manifest ← get_user_manifest;
      let already_existing_entry := lu_get_workspace_entry user_manifest (sm_id msg) in
      workspace_entry ← lift_result
        (match already_existing_entry with
         | Some existing => merge_workspace_entry None workspace_entry existing
         | None => Ok workspace_entry
         end);
      now ← us_now;
      _ ← set_user_manifest
            (evolve_workspaces_and_mark_updated now user_manifest [workspace_entry]);
      _ ← send_user_event USERFS_UPDATED;
      _ ← (match already_existing_entry with
           | None => send_user_event (ENTRY_SYNCED (we_id workspace_entry))
           | Some _ => mret tt
           end);
      send_user_event (SHARING_UPDATED workspace_entry already_existing_entry)
  end.

(** [_process_message_sharing_revoked] *)
Definition process_message_sharing_revoked (id : EntryID) : usM unit :=
  roles ← current_roles_of id;
  match roles with
  | Some _ => mret tt
  | None =>
      user_manifest ← get_user_manifest;
      match lu_get_workspace_entry user_manifest id with
      | None => mret tt
      | Some existing_workspace_entry =>
          now ← us_now;
          workspace_entry ← lift_result (merge_workspace_entry None existing_workspace_entry
                              (we_revoke now existing_workspace_entry));
          if decide (existing_workspace_entry = workspace_entry) then mret tt
          else
            now ← us_now;
            _ ← set_user_manifest
                  (evolve_workspaces_and_mark_updated now user_manifest [workspace_entry]);
            _ ← send_user_event USERFS_UPDATED;
            send_user_event (SHARING_UPDATED workspace_entry (Some existing_workspace_entry))
      end
  end.

(** [BaseMessageContent.decrypt_verify_and_load_for] *)
Definition decrypt_verify_and_load_for (encrypted : bytes) (author_verify_key : VerifyKey)
    (expected_author : DeviceID) (expected_timestamp : DateTime) : result DataError MessageContent :=
  match private_decrypt encrypted with
  | None => Err DataErr
  | Some signed =>
      verify_and_load (loads loads_message) (Some ∘ msg_author) msg_timestamp signed
        author_verify_key (Some expected_author) (Some expected_timestamp)
  end.

(** [_process_message] *)
Definition process_message (sender_id : DeviceID) (expected_timestamp : DateTime) (ciphered : bytes)
    : usM unit :=
  now ← us_now;
  sender ← on_user_loader (rl_get_device now fuel sender_id false);
  msg ← lift_result (or_fs_error (decrypt_verify_and_load_for ciphered (dc_verify_key sender)
                                    sender_id expected_timestamp));
  match msg with
  | SharingGranted msg | SharingReencrypted msg => process_message_sharing_granted msg
  | SharingRevoked _ _ id => process_message_sharing_revoked id
  | Ping _ _ ping => send_user_event (MESSAGE_PINGED ping)
  end.

(** The loop over the messages: the offset, and the errors. *)
Fixpoint process_messages (last : Z) (messages : list MessageRep)
    : usM (Z * list (Z * FSExn)) :=
  match messages with
  | [] => mret (last, [])
  | msg :: messages =>
      r ← try_catch
            (_ ← process_message (mp_sender msg) (mp_timestamp msg) (mp_body msg); mret None)
            (λ e, if decide (e = FSBackendOfflineError) then mthrow e
                  else if is_fs_error e then mret (Some e) else mthrow e);
      match r with
      | None => process_messages (mp_count msg) messages
      | Some e =>
          '(last, errors) ← process_messages last messages;
          mret (last, (mp_count msg, e) :: errors)
      end
  end.

(** [process_last_messages] *)
Definition process_last_messages : usM (list (Z * FSExn)) :=
  user_manifest ← get_user_manifest;
  let initial_last_processed_message := lu_last_processed_message user_manifest in
  rep ← user_cmd (cmd_message_get initial_last_processed_message);
  match rep with
  | RepError _ => mthrow FSError
  | RepOk messages =>
      '(new_last_processed_message, errors) ←
        process_messages initial_last_processed_message messages;
      user_manifest ← get_user_manifest;
      _ ← (if lu_last_processed_message user_manifest <? new_last_processed_message then
             now ← us_now;
             _ ← set_user_manifest (lu_processed now new_last_processed_message user_manifest);
             send_user_event (ENTRY_UPDATED user_manifest_id)
           else mret tt);
      mret errors
  end.

(** ** Reencryption *)

(** [_retrieve_participants] *)
Fixpoint retrieve_users (users : list UserID) : usM (list UserCertificateContent) :=
  match users with
  | [] => mret []
  | u :: users =>
      now ← us_now;
      '(user, revoked_user) ← on_user_loader (rl_get_user now fuel u false);
      l ← retrieve_users users;
      mret (match revoked_user with None => user :: l | Some _ => l end)
  end.
Definition retrieve_participants (workspace_id : EntryID) : usM (list UserCertificateContent) :=
  now ← us_now;
  roles ← on_user_loader (load_realm_current_roles now fuel user_manifest_id (Some workspace_id));
  retrieve_users (role_keys roles).

(** [_generate_reencryption_messages] *)
Fixpoint cipher_for_users (msg : MessageContent) (users : list UserCertificateContent)
    (msgs : odict UserID bytes) : usM (odict UserID bytes) :=
  match users with
  | [] => mret msgs
  | user :: users =>
      ciphered ← of_option FSError (dump_sign_and_encrypt_for msg (uc_public_key user));
      cipher_for_users msg users (od_set msgs (uc_user_id user) ciphered)
  end.
Definition generate_reencryption_messages (new_workspace_entry : WorkspaceEntry)
    (users : list UserCertificateContent) (now : DateTime) : usM (odict UserID bytes) :=
  cipher_for_users (SharingReencrypted (sharing_message now new_workspace_entry)) users [].

(** [_send_start_reencryption_cmd] *)
Definition send_start_reencryption_cmd (workspace_id : EntryID) (encryption_revision : Z)
    (timestamp : DateTime) (per_user_ciphered_msgs : odict UserID bytes) : usM bool :=
  rep ← user_cmd (cmd_realm_start_reencryption_maintenance workspace_id encryption_revision
                    timestamp per_user_ciphered_msgs);
  match rep with
  | RepOk _ => mret true
  | RepError status =>
      if decide (status = "participants_mismatch"%string) then mret false
      else if decide (status = "in_maintenance"%string) then mthrow FSWorkspaceInMaintenance
      else if decide (status = "not_allowed"%string) then mthrow FSWorkspaceNoAccess
      else mthrow FSError
  end.

(** The loop of [workspace_start_reencryption]: [false] says that the participants
    changed [n] times. *)
Fixpoint start_reencryption_loop (n : nat) (new_workspace_entry : WorkspaceEntry) (now : DateTime)
    : usM bool :=
  match n with
  | O => mret false
  | S n =>
      participants ← retrieve_participants (we_id new_workspace_entry);
      reencryption_msgs ← generate_reencryption_messages new_workspace_entry participants now;
      ok ← send_start_reencryption_cmd (we_id new_workspace_entry)
             (we_encryption_revision new_workspace_entry) now reencryption_msgs;
      if ok : bool then mret true else start_reencryption_loop n new_workspace_entry now
  end.

(** [workspace_start_reencryption] *)
Definition workspace_start_reencryption (workspace_id : EntryID) : usM (option ReencryptionJob) :=
  user_manifest ← get_user_manifest;
  workspace_entry ← of_option FSWorkspaceNotFoundError
    (lu_get_workspace_entry user_manifest workspace_id);
  now ← us_now;
  key ← draw_key;
  let new_workspace_entry := we_reencrypt now key workspace_entry in
  started ← start_reencryption_loop fuel new_workspace_entry now;
  if started : bool
  then Some <$> lift_result (new_reencryption_job new_workspace_entry workspace_entry)
  else mret None.

(** The loop of [workspace_continue_reencryption] over the versions of the user
    manifest: [None] says that [n] versions were not enough. *)
Fixpoint previous_entry_loop (n : nat) (version_to_fetch : option Z) (workspace_id : EntryID)
    (revision : Z) : usM (option WorkspaceEntry) :=
  match n with
  | O => mret None
  | S n =>
      previous_user_manifest ← fetch_remote_user_manifest version_to_fetch;
      previous_workspace_entry ← of_option FSError
        (um_get_workspace_entry previous_user_manifest workspace_id);
      if we_encryption_revision previous_workspace_entry =? revision
      then mret (Some previous_workspace_entry)
      else previous_entry_loop n (Some (um_version previous_user_manifest - 1)) workspace_id revision
  end.

(** [workspace_continue_reencryption] *)
Definition workspace_continue_reencryption (workspace_id : EntryID)
    : usM (option ReencryptionJob) :=
  user_manifest ← get_user_manifest;
  workspace_entry ← of_option FSWorkspaceNotFoundError
    (lu_get_workspace_entry user_manifest workspace_id);
  rep ← user_cmd (cmd_realm_status (we_id workspace_entry));
  match rep with
  | RepError status =>
      if decide (status = "not_allowed"%string) then mthrow FSWorkspaceNoAccess else mthrow FSError
  | RepOk (in_maintenance, status) =>
      _ ← raise_if (negb in_maintenance ||
                    bool_decide (rs_maintenance_type status ≠ Some REENCRYPTION))
            FSWorkspaceNotInMaintenance;
      _ ← raise_if (negb (rs_encryption_revision status =? we_encryption_revision workspace_entry))
            FSError;
      previous ← previous_entry_loop fuel None (we_id workspace_entry)
                   (rs_encryption_revision status - 1);
      match previous with
      | None => mret None
      | Some previous_workspace_entry =>
          Some <$> lift_result (new_reencryption_job workspace_entry previous_workspace_entry)
      end
  end.
End userfs.
