(* ===== verification/SyncMonitor.v ===== *)
(** When the entries are synchronized: the contexts of [guardata/client/sync_monitor.py],
    that keep the local and the remote changes and wake up for them. *)

From S2P Require Import Prelude Types Chunk ApiManifest LocalManifest Storage Backend RemoteDevices.

(** Times are in microseconds; [math.inf] is [None]. *)
Definition seconds (n : Z) : Z := n * 1000000.
Definition MIN_WAIT : Z := seconds 1.
Definition MAX_WAIT : Z := seconds 60.
Definition MAINTENANCE_MIN_WAIT : Z := seconds 30.
Definition TICK_CRASH_COOLDOWN : Z := seconds 5.
Abbreviation Time := (option Z) (only parsing).
Definition time_leb (x y : Time) : bool :=
  match x, y with
  | _, None => true
  | None, Some _ => false
  | Some x, Some y => x <=? y
  end.
Definition time_min (x y : Time) : Time := if time_leb x y then x else y.
Definition time_max (x y : Time) : Time := if time_leb x y then y else x.

(** ** [LocalChange] *)

Record LocalChange := mkLocalChange {
  lc_first_changed_on : Z;
  lc_last_changed_on : Z;
  lc_due_time : Z }.
Definition lc_compute_due_time (first_changed_on last_changed_on : Z) : Z :=
  Z.min (last_changed_on + MIN_WAIT) (first_changed_on + MAX_WAIT).
Definition local_change (now : Z) : LocalChange :=
  mkLocalChange now now (lc_compute_due_time now now).
Definition lc_changed (changed_on : Z) (c : LocalChange) : LocalChange :=
  mkLocalChange (lc_first_changed_on c) changed_on
    (lc_compute_due_time (lc_first_changed_on c) changed_on).

(** ** [SyncContext] *)

Record SyncContext := mkSyncContext {
  sc_due_time : Time;
  sc_changes_loaded : bool;
  sc_local_changes : odict EntryID LocalChange;
  sc_remote_changes : gset EntryID;
  sc_confined_entries : gmap EntryID (gset EntryID) }.
Definition new_sync_context : SyncContext := mkSyncContext None false [] ∅ ∅.
Definition set_due_time (t : Time) (c : SyncContext) : SyncContext :=
  mkSyncContext t (sc_changes_loaded c) (sc_local_changes c) (sc_remote_changes c)
    (sc_confined_entries c).
Definition set_changes_loaded (c : SyncContext) : SyncContext :=
  mkSyncContext (sc_due_time c) true (sc_local_changes c) (sc_remote_changes c)
    (sc_confined_entries c).
Definition on_local_changes (f : odict EntryID LocalChange → odict EntryID LocalChange)
    (c : SyncContext) : SyncContext :=
  mkSyncContext (sc_due_time c) (sc_changes_loaded c) (f (sc_local_changes c))
    (sc_remote_changes c) (sc_confined_entries c).
Definition on_remote_changes (f : gset EntryID → gset EntryID) (c : SyncContext) : SyncContext :=
  mkSyncContext (sc_due_time c) (sc_changes_loaded c) (sc_local_changes c)
    (f (sc_remote_changes c)) (sc_confined_entries c).
Definition on_confined_entries (f : gmap EntryID (gset EntryID) → gmap EntryID (gset EntryID))
    (c : SyncContext) : SyncContext :=
  mkSyncContext (sc_due_time c) (sc_changes_loaded c) (sc_local_changes c) (sc_remote_changes c)
    (f (sc_confined_entries c)).

(** What the subclasses give: [_sync], the request of [_get_backend_cmds] and the
    storage of [_get_local_storage]. *)
Class SyncTarget (W : Type) := {
  target_sync : EntryID → W → W * result FSExn unit;
  target_poll : Z → W → W * net (reply (Z * gmap UUID Z));
  target_storage : ∀ A, stM Storage FSExn A → W → W * result FSExn A }.

(** What the other tasks tell the context while it waits. *)
Inductive ContextEvent :=
| LocalChanged (entry_id : EntryID)
| RemoteChanged (entry_id : EntryID)
| EntryConfined (entry_id cause_id : EntryID).

(** What goes through [tick]. *)
Inductive MonitorExn :=
| BackendNotAvailable
| MonitorCrash (e : FSExn).

(** The context, what it synchronizes, how many times the clock was read and how
    many times it waited; and, for the specification, the syncs that ended. *)
Record MonitorState (W : Type) := mkMonitorState {
  mo_context : SyncContext;
  mo_world : W;
  mo_clock : nat;
  mo_waits : nat;
  mo_synced : list (EntryID * result FSExn unit) }.
Arguments mkMonitorState {W} _ _ _ _ _.
Arguments mo_context {W} _.
Arguments mo_world {W} _.
Arguments mo_clock {W} _.
Arguments mo_waits {W} _.
Arguments mo_synced {W} _.
Definition on_context {W} (f : SyncContext → SyncContext) (s : MonitorState W) : MonitorState W :=
  mkMonitorState (f (mo_context s)) (mo_world s) (mo_clock s) (mo_waits s) (mo_synced s).

Section monitor.
Context {W : Type} `{SyncTarget W}.
(** The clock; the order of the sets; whether the user may only read; the events
    that come during each wait. *)
Context (clock : nat → Z) (order : gset EntryID → list EntryID) (read_only : bool)
  (during : nat → list ContextEvent).

Abbreviation moM := (stM (MonitorState W) MonitorExn) (only parsing).

Definition timestamp : moM Z := λ s,
  (mkMonitorState (mo_context s) (mo_world s) (S (mo_clock s)) (mo_waits s) (mo_synced s),
   Ok (clock (mo_clock s))).
Definition ctx_get {A} (f : SyncContext → A) : moM A := gets (f ∘ mo_context).
Definition ctx_modify (f : SyncContext → SyncContext) : moM unit := modify (on_context f).

(** *** The changes *)

(** [set_local_change]; [fuel] bounds the recursion over the confined entries, and
    [set_all] is the loop on them. *)
Fixpoint set_all (set : EntryID → moM bool) (entry_ids : list EntryID) : moM bool :=
  match entry_ids with
  | [] => mret false
  | confined_entry :: entry_ids =>
      b ← set confined_entry;
      wake_up ← set_all set entry_ids;
      mret (b || wake_up)
  end.
Fixpoint set_local_change_loop (fuel : nat) (entry_id : EntryID) : moM bool :=
  match fuel with
  | O => mret false
  | S fuel =>
      confined ← ctx_get sc_confined_entries;
      _ ← ctx_modify (on_confined_entries (delete entry_id));
      wake_up ← set_all (set_local_change_loop fuel) (order (default ∅ (confined !! entry_id)));
      now ← timestamp;
      changes ← ctx_get sc_local_changes;
      let change :=
        match od_get changes entry_id with
        | Some c => lc_changed now c
        | None => local_change now
        end in
      _ ← ctx_modify (on_local_changes (λ d, od_set d entry_id change));
      due_time ← ctx_get sc_due_time;
      if time_leb (Some (lc_due_time change)) due_time then
        _ ← ctx_modify (set_due_time (Some (lc_due_time change)));
        mret true
      else mret wake_up
  end.
Definition set_local_change (entry_id : EntryID) : moM bool :=
  if read_only then mret false
  else
    confined ← ctx_get sc_confined_entries;
    set_local_change_loop (S (size confined)) entry_id.

(** [set_remote_change], [set_confined_entry] *)
Definition set_remote_change (entry_id : EntryID) : moM bool :=
  _ ← ctx_modify (on_remote_changes (λ r, {[ entry_id ]} ∪ r));
  now ← timestamp;
  _ ← ctx_modify (set_due_time (Some now));
  mret true.
Definition set_confined_entry (entry_id cause_id : EntryID) : moM unit :=
  ctx_modify (on_confined_entries
    (λ c, <[cause_id := {[ entry_id ]} ∪ default ∅ (c !! cause_id)]> c)).

Definition context_event (e : ContextEvent) : moM unit :=
  match e with
  | LocalChanged entry_id => _ ← set_local_change entry_id; mret tt
  | RemoteChanged entry_id => _ ← set_remote_change entry_id; mret tt
  | EntryConfined entry_id cause_id => set_confined_entry entry_id cause_id
  end.
(** [await]: the other tasks run. *)
Definition wait : moM unit := λ s,
  for_each context_event (during (mo_waits s))
    (mkMonitorState (mo_context s) (mo_world s) (mo_clock s) (S (mo_waits s)) (mo_synced s)).
Definition await_storage {A} (m : stM Storage FSExn A) : moM A := λ s,
  let '(w, r) := target_storage A m (mo_world s) in
  (_ ← wait; match r with Ok a => mret a | Err e => mthrow (MonitorCrash e) end : moM A)
    (mkMonitorState (mo_context s) w (mo_clock s) (mo_waits s) (mo_synced s)).

(** *** The due time *)

(** [_compute_due_time]; a date that is 0 is as good as none. *)
Definition truthy (t : option Z) : option Z :=
  match t with Some t => if t =? 0 then None else Some t | None => None end.
Definition min_due (changes : odict EntryID LocalChange) : Time :=
  foldr (λ c t, time_min (Some (lc_due_time c)) t) None (od_values changes).
Definition compute_due_time (now min_due_time : option Z) : moM unit :=
  remote ← ctx_get sc_remote_changes;
  changes ← ctx_get sc_local_changes;
  due_time ←
    (if decide (remote = ∅) then mret (min_due changes)
     else match truthy now with
          | Some now => mret (Some now)
          | None => Some <$> timestamp
          end);
  ctx_modify (set_due_time
    (match truthy min_due_time with Some t => time_max due_time (Some t) | None => due_time end)).

(** *** Loading the changes *)

(** [_load_changes] *)
Definition poll_changes (checkpoint : Z) : moM (option (Z * gmap UUID Z)) := λ s,
  let '(w, r) := target_poll checkpoint (mo_world s) in
  (_ ← wait;
   match r with
   | NetNotAvailable => mthrow BackendNotAvailable
   | NetConnectionError => mret None
   | NetReply (RepError status) =>
       if decide (status = "not_found"%string) then mret (Some (0, ∅)) else mret None
   | NetReply (RepOk changes) => mret (Some changes)
   end : moM (option (Z * gmap UUID Z))) (mkMonitorState (mo_context s) w (mo_clock s) (mo_waits s) (mo_synced s)).
Definition load_changes : moM bool :=
  loaded ← ctx_get sc_changes_loaded;
  if loaded : bool then mret true
  else
    _ ← ctx_modify (set_due_time None);
    realm_checkpoint ← await_storage get_realm_checkpoint;
    rep ← poll_changes realm_checkpoint;
    match rep with
    | None => mret false
    | Some (new_checkpoint, changes) =>
        _ ← await_storage (update_realm_checkpoint new_checkpoint (map_to_list changes));
        '(need_sync_local, need_sync_remote) ← await_storage get_need_sync_entries;
        now ← timestamp;
        _ ← (if read_only then mret tt
             else ctx_modify (on_local_changes
                    (λ _, (λ entry_id, (entry_id, local_change now)) <$> order need_sync_local)));
        _ ← ctx_modify (on_remote_changes (λ _, need_sync_remote));
        _ ← compute_due_time None None;
        _ ← ctx_modify set_changes_loaded;
        mret true
    end.

(** [bootstrap] *)
Definition bootstrap : moM Time := _ ← load_changes; ctx_get sc_due_time.

(** *** [tick] *)

Definition await_sync (entry_id : EntryID) : moM (result FSExn unit) := λ s,
  let '(w, r) := target_sync entry_id (mo_world s) in
  (_ ← wait; mret r : moM (result FSExn unit))
    (mkMonitorState (mo_context s) w (mo_clock s) (mo_waits s) ((entry_id, r) :: mo_synced s)).

(** A remote change. *)
Definition tick_remote (now : Z) (entry_id : EntryID) : moM (option Z) :=
  _ ← ctx_modify (on_remote_changes (λ r, r ∖ {[ entry_id ]}));
  r ← await_sync entry_id;
  let retry := ctx_modify (on_remote_changes (λ r, {[ entry_id ]} ∪ r)) in
  match r with
  | Ok _ | Err FSWorkspaceNoWriteAccess => mret None
  | Err FSBackendOfflineError => mthrow BackendNotAvailable
  | Err FSWorkspaceNoReadAccess => _ ← retry; mret (Some (now + MIN_WAIT))
  | Err FSWorkspaceInMaintenance => _ ← retry; mret (Some (now + MAINTENANCE_MIN_WAIT))
  | Err e => mthrow (MonitorCrash e)
  end.
(** A local change; [run_vacuum] has no effect on what is stored. *)
Definition tick_local (now : Z) (entry_id : EntryID) : moM (option Z) :=
  _ ← ctx_modify (on_local_changes (λ d, od_del d entry_id));
  r ← await_sync entry_id;
  let retry := ctx_modify (on_local_changes (λ d, od_set d entry_id (local_change now))) in
  min_due_time ←
    match r with
    | Ok _ => mret None
    | Err FSBackendOfflineError => mthrow BackendNotAvailable
    | Err FSWorkspaceNoReadAccess | Err FSWorkspaceNoWriteAccess => _ ← retry; mret None
    | Err FSWorkspaceInMaintenance => _ ← retry; mret (Some (now + MAINTENANCE_MIN_WAIT))
    | Err e => mthrow (MonitorCrash e)
    end;
  changes ← ctx_get sc_local_changes;
  _ ← (if decide (changes = []) then wait else mret tt);
  mret min_due_time.
Definition first_due (now : Z) (changes : odict EntryID LocalChange) : option EntryID :=
  head (filter (λ x, lc_due_time x.2 <= now) changes).*1.
Definition tick : moM Time :=
  now ← timestamp;
  due_time ← ctx_get sc_due_time;
  if negb (time_leb due_time (Some now)) then mret due_time
  else
    loaded ← load_changes;
    if negb loaded then ctx_get sc_due_time
    else
      remote ← ctx_get sc_remote_changes;
      changes ← ctx_get sc_local_changes;
      min_due_time ←
        match head (order remote) with
        | Some entry_id => tick_remote now entry_id
        | None =>
            match first_due now changes with
            | Some entry_id => tick_local now entry_id
            | None => mret None
            end
        end;
      _ ← compute_due_time (Some now) min_due_time;
      ctx_get sc_due_time.

(** *** What the monitor makes of a context *)

(** [_ctx_action]; [found]: whether the store makes a new context for the entry
    ([None]: the workspace is not there any more). *)
Definition ctx_action (found : bool) (meth : moM Time) : moM Time := λ s,
  match meth s with
  | (s, Err (MonitorCrash _)) =>
      (_ ← ctx_modify (λ _, new_sync_context);
       if found then
         now ← timestamp;
         _ ← ctx_modify (set_due_time (Some (now + TICK_CRASH_COOLDOWN)));
         ctx_get sc_due_time
       else mret None : moM Time) s
  | x => x
  end.
(** [_on_sharing_updated], where there is still a role. *)
Definition on_sharing_updated : moM unit :=
  _ ← ctx_modify (λ _, new_sync_context);
  now ← timestamp;
  ctx_modify (set_due_time (Some now)).
End monitor.
