(* ===== verification/SyncMonitorProofs.v ===== *)
(** What the contexts of the synchronization keep true, whatever happens while they
    wait. *)

From S2P Require Import Prelude Triples Types Chunk ApiManifest LocalManifest Storage Backend.
From S2P Require Import RemoteDevices SyncMonitor.

Section monitor.
Context {W : Type} `{SyncTarget W}.
Context (clock : nat → Z) (order : gset EntryID → list EntryID) (read_only : bool)
  (during : nat → list ContextEvent).
Abbreviation moM := (stM (MonitorState W) MonitorExn) (only parsing).
Abbreviation state := (MonitorState W) (only parsing).

(** ** What the events do *)

(** [set_local_change] without the confined entries. *)
Definition touched (id : EntryID) (s : state) : LocalChange :=
  match od_get (sc_local_changes (mo_context s)) id with
  | Some c => lc_changed (clock (mo_clock s)) c
  | None => local_change (clock (mo_clock s))
  end.
Definition earliest (t : Z) (due_time : Time) : Time :=
  if time_leb (Some t) due_time then Some t else due_time.
Definition touch (id : EntryID) (s : state) : state :=
  let c := touched id s in
  mkMonitorState
    (set_due_time (earliest (lc_due_time c) (sc_due_time (mo_context s)))
       (on_local_changes (λ d, od_set d id c) (mo_context s)))
    (mo_world s) (S (mo_clock s)) (mo_waits s) (mo_synced s).
(** [set_remote_change] *)
Definition touch_remote (id : EntryID) (s : state) : state :=
  mkMonitorState
    (set_due_time (Some (clock (mo_clock s)))
       (on_remote_changes (λ r, {[ id ]} ∪ r) (mo_context s)))
    (mo_world s) (S (mo_clock s)) (mo_waits s) (mo_synced s).

Inductive prim (s : state) : state → Prop :=
  | prim_confined f : prim s (on_context (on_confined_entries f) s)
  | prim_local id : prim s (touch id s)
  | prim_remote id : prim s (touch_remote id s).

Definition loop := (set_local_change_loop (W := W) clock order).
Lemma loop_run fuel id s :
  ∃ s' b, loop fuel id s = (s', Ok b) ∧ rtc prim s s' ∧
    (fuel ≠ 0%nat → ∃ s1, rtc prim s s1 ∧ s' = touch id s1).
Proof.
  revert id s. induction fuel as [|fuel IH]; intros id s; [by exists s, false|].
  unfold loop. cbn [set_local_change_loop]. fold loop.
  rewrite (bind_Ok _ _ s s _ eq_refl). cbv beta.
  set (s0 := on_context (on_confined_entries (delete id)) s).
  rewrite (bind_Ok _ _ s s0 tt eq_refl). cbv beta.
  set (ids := order _).
  assert (∀ l s0, ∃ s1 b, set_all (set_local_change_loop clock order fuel) l s0 = (s1, Ok b) ∧
    rtc prim s0 s1) as Heach.
  { induction l as [|i l IHl]; intros s2; [by exists s2, false|].
    destruct (IH i s2) as (s3 & b3 & E3 & Hr3 & _). destruct (IHl s3) as (s4 & b4 & E4 & Hr4).
    exists s4, (b3 || b4). split; [|by etrans]. cbn [set_all].
    rewrite (bind_Ok _ _ _ _ _ E3). by rewrite (bind_Ok _ _ _ _ _ E4). }
  destruct (Heach ids s0) as (s1 & b & E1 & Hr1). rewrite (bind_Ok _ _ _ _ _ E1). cbv beta.
  assert (rtc prim s s1) as Hr0 by (eapply rtc_l; [apply (prim_confined s (delete id))|exact Hr1]).
  assert (rtc prim s (touch id s1)) as Hr by (eapply rtc_r; [exact Hr0|apply prim_local]).
  assert (S fuel ≠ 0%nat → ∃ s2, rtc prim s s2 ∧ touch id s1 = touch id s2) as Hin by by exists s1.
  exists (touch id s1). unfold touch, earliest, touched in *.
  unfold timestamp, ctx_get, gets, ctx_modify, modify, mbind, stM_bind, mret, stM_ret.
  cbn [compose mo_context mo_clock on_context]. destruct (od_get (sc_local_changes (mo_context s1)) id) as [c|];
    cbn -[time_leb od_set]; destruct (time_leb _ (sc_due_time (mo_context s1))); by eexists.
Qed.

Lemma touch_tracked id s : id ∈ od_keys (sc_local_changes (mo_context (touch id s))).
Proof.
  change (id ∈ od_keys (od_set (sc_local_changes (mo_context s)) id (touched id s))).
  rewrite od_keys_set. case_decide; [done|]. rewrite elem_of_app. right. by left.
Qed.
(** An event, with the last thing that it does. *)
Lemma context_event_last e s :
  ∃ s', context_event clock order read_only e s = (s', Ok tt) ∧ rtc prim s s' ∧
    match e with
    | LocalChanged id => read_only = false → ∃ s1, rtc prim s s1 ∧ s' = touch id s1
    | RemoteChanged id => s' = touch_remote id s
    | EntryConfined _ _ => True
    end.
Proof.
  destruct e as [id|id|id cause]; cbn [context_event].
  - unfold set_local_change. destruct read_only; [by exists s; split_and!; [..|done]|].
    set (n := S (size (sc_confined_entries (mo_context s)))).
    destruct (loop_run n id s) as (s' & b & E & Hr & Hin).
    exists s'. split_and!; [|done|by intros _; apply Hin].
    rewrite (bind_Ok _ _ s s' b); [done|]. rewrite (bind_Ok _ _ s s _ eq_refl). exact E.
  - exists (touch_remote id s). split_and!; [done|apply rtc_once, prim_remote|done].
  - exists (on_context (on_confined_entries
      (λ c, <[cause := {[ id ]} ∪ default ∅ (c !! cause)]> c)) s).
    split_and!; [done|apply rtc_once, prim_confined|done].
Qed.
Lemma context_event_run e s :
  ∃ s', context_event clock order read_only e s = (s', Ok tt) ∧ rtc prim s s' ∧
    match e with
    | LocalChanged id => read_only = false → id ∈ od_keys (sc_local_changes (mo_context s'))
    | RemoteChanged id => id ∈ sc_remote_changes (mo_context s')
    | EntryConfined _ _ => True
    end.
Proof.
  destruct (context_event_last e s) as (s' & E & Hr & He). exists s'. split_and!; [done|done|].
  destruct e as [id|id|]; [|by subst s'; apply elem_of_union_l, elem_of_singleton|done].
  intros Hro. destruct (He Hro) as (s1 & _ & ->). apply touch_tracked.
Qed.

(** What is tracked stays tracked. *)
Definition tracks_more (s s' : state) : Prop :=
  (∀ id, id ∈ od_keys (sc_local_changes (mo_context s)) →
     id ∈ od_keys (sc_local_changes (mo_context s'))) ∧
  sc_remote_changes (mo_context s) ⊆ sc_remote_changes (mo_context s') ∧
  sc_changes_loaded (mo_context s') = sc_changes_loaded (mo_context s) ∧
  mo_world s' = mo_world s ∧ mo_synced s' = mo_synced s.
#[export] Instance tracks_more_preorder : PreOrder tracks_more.
Proof.
  split; [intros s; by split_and!|]. intros s1 s2 s3 (?&?&?&?&?) (?&?&?&?&?).
  split_and!; [auto|by etrans|congruence..].
Qed.
Lemma prim_tracks_more s s' : prim s s' → tracks_more s s'.
Proof.
  intros [f|id|id]; split_and!; try done.
  - intros i Hi. change (i ∈ od_keys (od_set (sc_local_changes (mo_context s)) id (touched id s))).
    rewrite od_keys_set. case_decide; [done|]. apply elem_of_app. by left.
  - apply union_subseteq_r.
Qed.
Lemma prims_track_more s s' : rtc prim s s' → tracks_more s s'.
Proof. induction 1 as [|s s1 s' H1 _ IH]; [done|]. etrans; [by apply prim_tracks_more|done]. Qed.

Definition bumped (s : state) : state :=
  mkMonitorState (mo_context s) (mo_world s) (mo_clock s) (S (mo_waits s)) (mo_synced s).
Lemma events_run l s :
  ∃ s', for_each (context_event clock order read_only) l s = (s', Ok tt) ∧ rtc prim s s' ∧
    (∀ id, LocalChanged id ∈ l → read_only = false → id ∈ od_keys (sc_local_changes (mo_context s'))) ∧
    ∀ id, RemoteChanged id ∈ l → id ∈ sc_remote_changes (mo_context s').
Proof.
  revert s. induction l as [|e l IH]; intros s; [exists s; by split_and!; [..|set_solver|set_solver]|].
  destruct (context_event_run e s) as (s1 & E1 & Hr1 & He).
  destruct (IH s1) as (s2 & E2 & Hr2 & Hl & Hr).
  exists s2. cbn [for_each]. rewrite (bind_Ok _ _ _ _ _ E1).
  destruct (prims_track_more _ _ Hr2) as (Hk & Hrem & _).
  split_and!; [done|by etrans| |].
  - intros id [<-|Hin]%elem_of_cons; [intros Hro; by apply Hk, He|by apply Hl].
  - intros id [<-|Hin]%elem_of_cons; [by apply Hrem|by apply Hr].
Qed.
Lemma wait_run s :
  ∃ s', wait clock order read_only during s = (s', Ok tt) ∧ rtc prim (bumped s) s' ∧
    (∀ id, LocalChanged id ∈ during (mo_waits s) → read_only = false →
       id ∈ od_keys (sc_local_changes (mo_context s'))) ∧
    ∀ id, RemoteChanged id ∈ during (mo_waits s) → id ∈ sc_remote_changes (mo_context s').
Proof. apply events_run. Qed.

(** ** The dates and the due time *)

Context (clock_mono : ∀ n, clock n <= clock (S n)).
Lemma clock_le n m : (n <= m)%nat → clock n <= clock m.
Proof. induction 1 as [|m _ IH]; [done|]. specialize (clock_mono m). lia. Qed.
Abbreviation now s := (clock (mo_clock s)).

(** The time at which a local change is due. *)
Definition dated (s : state) (c : LocalChange) : Prop :=
  lc_first_changed_on c <= lc_last_changed_on c <= now s ∧
  lc_due_time c = lc_compute_due_time (lc_first_changed_on c) (lc_last_changed_on c).
Record changes_ok (s : state) : Prop := {
  ch_nodup : NoDup (od_keys (sc_local_changes (mo_context s)));
  ch_dates id c : od_get (sc_local_changes (mo_context s)) id = Some c → dated s c }.
(** The context wakes up for every change: not later than the change is due, or than
    the time it leaves to a maintenance. *)
Definition wakes_by (s : state) (t : Z) : Prop :=
  ∃ t', sc_due_time (mo_context s) = Some t' ∧ t' <= t.
Definition planned_now (s : state) : Prop :=
  (∀ id c, od_get (sc_local_changes (mo_context s)) id = Some c →
     wakes_by s (Z.max (lc_due_time c) (now s + MAINTENANCE_MIN_WAIT))) ∧
  (sc_remote_changes (mo_context s) ≠ ∅ → wakes_by s (now s + MAINTENANCE_MIN_WAIT)).
Definition planned (s : state) : Prop := sc_changes_loaded (mo_context s) = true → planned_now s.

Lemma earliest_spec t d :
  ∃ t', earliest t d = Some t' ∧ t' <= t ∧ ∀ t0, d = Some t0 → t' <= t0.
Proof.
  unfold earliest. destruct d as [t0|]; cbn; [|exists t; by split_and!].
  destruct (Z.leb_spec t t0); [exists t|exists t0]; split_and!; (done || lia || (intros ? [= <-]; lia)).
Qed.
Lemma dated_later s s' c : now s <= now s' → dated s c → dated s' c.
Proof. intros Hle [? ?]. split; [lia|done]. Qed.
Lemma dated_new s : dated s (local_change (now s)).
Proof. split; [cbn; lia|done]. Qed.

Lemma prim_changes_ok s s' : prim s s' → changes_ok s → changes_ok s'.
Proof.
  intros [f|id|id] [Hnd Hd]; [by constructor| |].
  - constructor.
    + change (NoDup (od_keys (od_set (sc_local_changes (mo_context s)) id (touched id s)))).
      by apply od_set_NoDup.
    + intros i c Hc.
      change (od_get (od_set (sc_local_changes (mo_context s)) id (touched id s)) i = Some c) in Hc.
      rewrite od_get_set_case in Hc. pose proof (clock_mono (mo_clock s)) as Hle.
      apply (dated_later s); [done|]. case_decide; [|by eapply Hd].
      injection Hc as <-. unfold touched.
      destruct (od_get (sc_local_changes (mo_context s)) id) as [c0|] eqn:E; [|apply dated_new].
      destruct (Hd _ _ E) as [? ?]. split; [cbn; lia|done].
  - constructor; [done|]. intros i c Hc%Hd. by apply (dated_later s).
Qed.
Lemma wakes_by_later (s s' : state) t t' :
  sc_due_time (mo_context s') = sc_due_time (mo_context s) → t <= t' → wakes_by s t → wakes_by s' t'.
Proof. intros E Hle (x & Hx & Hle'). exists x. split; [congruence|lia]. Qed.
Lemma prim_planned s s' : prim s s' → planned s → planned s'.
Proof.
  intros [f|id|id] Hp Hl; cbn in Hl; destruct (Hp Hl) as [Hlocal Hremote].
  - by split.
  - set (t := touched id s). pose proof (clock_mono (mo_clock s)) as Hle.
    destruct (earliest_spec (lc_due_time t) (sc_due_time (mo_context s))) as (t' & Et & Hle1 & Hle2).
    change (sc_due_time (mo_context (touch id s)))
      with (earliest (lc_due_time t) (sc_due_time (mo_context s))) in *.
    split.
    + intros i c Hc. exists t'. split; [exact Et|]. cbn [mo_clock touch].
      change (od_get (od_set (sc_local_changes (mo_context s)) id t) i = Some c) in Hc.
      rewrite od_get_set_case in Hc. case_decide; [injection Hc as <-; lia|].
      destruct (Hlocal i c Hc) as (x & Hx & Hle'). apply Hle2 in Hx. lia.
    + intros Hr. exists t'. split; [exact Et|]. cbn [mo_clock touch].
      destruct (Hremote Hr) as (x & Hx & Hle'). apply Hle2 in Hx. lia.
  - assert (wakes_by (touch_remote id s) (now (touch_remote id s) + MAINTENANCE_MIN_WAIT)) as Hw.
    { exists (now s). split; [done|]. cbn. pose proof (clock_mono (mo_clock s)).
      unfold MAINTENANCE_MIN_WAIT, seconds. lia. }
    split; [|done]. intros i c _. destruct Hw as (x & Hx & Hle). exists x. split; [done|lia].
Qed.
Lemma prims_ok (P : state → Prop) s s' : (∀ s s', prim s s' → P s → P s') → rtc prim s s' → P s → P s'.
Proof. intros HP. induction 1; eauto. Qed.

Lemma prims_clock s s' : rtc prim s s' → now s <= now s'.
Proof.
  induction 1 as [|s s1 s' [f|id|id] _ IH]; [done..| |]; cbn in *;
    specialize (clock_mono (mo_clock s)); lia.
Qed.

(** [_compute_due_time] *)
Lemma min_due_spec (d : odict EntryID LocalChange) :
  (d = [] ∧ min_due d = None) ∨
  (∃ t, min_due d = Some t ∧ ∃ id c, (id, c) ∈ d ∧ lc_due_time c = t) ∧
  (∀ id c, (id, c) ∈ d → ∃ t, min_due d = Some t ∧ t <= lc_due_time c).
Proof.
  unfold min_due, od_values. induction d as [|[id c] d IH]; [by left|right]. cbn [fmap list_fmap foldr].
  set (m := foldr _ _ _) in *.
  assert (∃ t, time_min (Some (lc_due_time c)) m = Some t ∧ t <= lc_due_time c ∧
    (∀ t', m = Some t' → t <= t') ∧ (t = lc_due_time c ∨ m = Some t)) as (t & Et & Hle & Hm & Hin).
  { unfold time_min. destruct m as [t|]; cbn; [|exists (lc_due_time c); split_and!; (done || lia || auto)].
    destruct (Z.leb_spec (lc_due_time c) t); [exists (lc_due_time c)|exists t];
      split_and!; auto; (lia || (intros ? [= <-]; lia)). }
  split.
  - exists t. split; [exact Et|]. destruct Hin as [->|Hin]; [exists id, c; split; [by left|done]|].
    destruct IH as [[-> IH]|[(t' & Et' & i & c' & Hi & Hc') _]]; [done|].
    rewrite Et' in Hin. injection Hin as <-. exists i, c'. split; [by right|done].
  - intros i c' [[= -> ->]|Hi]%elem_of_cons; [by exists t|].
    destruct IH as [[-> _]|[_ IH]]; [by apply not_elem_of_nil in Hi|].
    destruct (IH _ _ Hi) as (t' & Et' & Hle'). exists t. split; [exact Et|]. apply Hm in Et'. lia.
Qed.

Definition with_due (d : Time) (n : nat) (s : state) : state :=
  mkMonitorState (set_due_time d (mo_context s)) (mo_world s) n (mo_waits s) (mo_synced s).
Lemma truthy_Some m t : truthy m = Some t → m = Some t.
Proof. unfold truthy. destruct m as [x|]; [|done]. by destruct (x =? 0). Qed.
Lemma time_max_Some d t : d ≠ None → ∃ x, time_max d (Some t) = Some x ∧ ∃ y, d = Some y ∧ x = Z.max y t.
Proof.
  destruct d as [y|]; [|done]. intros _. unfold time_max. cbn.
  destruct (Z.leb_spec y t); eexists; (split; [done|]); exists y; (split; [done|]); lia.
Qed.

Lemma compute_due_time_run now0 m s :
  (∀ t, now0 = Some t → t <= now s) → (∀ t, m = Some t → t <= now s + MAINTENANCE_MIN_WAIT) →
  changes_ok s →
  ∃ d n, compute_due_time clock now0 m s = (with_due d n s, Ok tt) ∧
    (mo_clock s <= n)%nat ∧ planned_now (with_due d n s) ∧
    (∀ t, sc_remote_changes (mo_context s) = ∅ →
       (∀ id c, od_get (sc_local_changes (mo_context s)) id = Some c → lc_due_time c <= t) →
       m = None → d = None ∨ ∃ t', d = Some t' ∧ t' <= t) ∧
    (∀ t, sc_remote_changes (mo_context s) ≠ ∅ → now0 = Some t → t ≠ 0 → m = None → d = Some t).
Proof.
  intros Hnow Hm [Hnd Hdates]. unfold compute_due_time.
  do 2 (rewrite (bind_Ok _ _ s s _ eq_refl); cbv beta). cbn [compose].
  destruct (decide (sc_remote_changes (mo_context s) = ∅)) as [Hr|Hr].
  - rewrite (bind_Ok _ _ s s (min_due (sc_local_changes (mo_context s))) eq_refl). cbv beta.
    eexists _, (mo_clock s). split; [reflexivity|]. split; [lia|].
    assert (∀ id c, od_get (sc_local_changes (mo_context s)) id = Some c →
      ∃ t, min_due (sc_local_changes (mo_context s)) = Some t ∧ t <= lc_due_time c) as Hmin.
    { intros id c Hc%od_get_elem. destruct (min_due_spec (sc_local_changes (mo_context s))) as [[E _]|[_ H1]].
      - rewrite E in Hc. by apply not_elem_of_nil in Hc.
      - by eapply H1. }
    split_and!.
    + split; [|intros Hne; by destruct Hne].
      intros id c Hc. destruct (Hmin _ _ Hc) as (t & Et & Hle).
      change (mo_clock (with_due _ _ s)) with (mo_clock s).
      unfold wakes_by, with_due. cbn [mo_context set_due_time sc_due_time].
      destruct (truthy m) as [x|] eqn:Ex; [|exists t; split; [done|lia]].
      apply truthy_Some, Hm in Ex. rewrite Et.
      destruct (time_max_Some (Some t) x) as (y & Ey & ? & [= <-] & ->); [done|].
      rewrite Ey. eexists. split; [done|]. lia.
    + intros t _ Hall ->. cbn [truthy].
      destruct (min_due_spec (sc_local_changes (mo_context s))) as [[_ ->]|[(x & Ex & id & c & Hin & <-) _]];
        [by left|right]. exists (lc_due_time c). split; [done|]. eapply (Hall id), od_elem_get; done.
    + done.
  - assert (∃ t n, (match truthy now0 with
        | Some now => mret (Some now)
        | None => Some <$> timestamp clock
        end : moM Time) s
      = (mkMonitorState (mo_context s) (mo_world s) n (mo_waits s) (mo_synced s), Ok (Some t)) ∧
      (mo_clock s <= n)%nat ∧ t <= clock n ∧ (∀ x, now0 = Some x → x ≠ 0 → t = x)) as (t & n & E & Hn & Ht & Hx).
    { destruct (truthy now0) as [x|] eqn:Ex.
      - apply truthy_Some in Ex. exists x, (mo_clock s). split_and!; [by destruct s|lia|by apply Hnow|].
        intros y Hy _. congruence.
      - exists (now s), (S (mo_clock s)). split_and!; [done|lia|apply clock_mono|].
        intros y -> Hy. cbn in Ex. by rewrite (proj2 (Z.eqb_neq _ _)) in Ex. }
    rewrite (bind_Ok _ _ _ _ _ E). cbv beta.
    eexists _, n. split; [reflexivity|]. split; [done|]. split_and!; [|done|].
    + assert (now s <= clock n) as Hnn by by apply clock_le.
      set (d := match truthy m with Some _ => _ | None => _ end).
      assert (wakes_by (with_due d n s) (clock n + MAINTENANCE_MIN_WAIT)) as Hw.
      { unfold wakes_by, with_due, d. cbn [mo_context set_due_time sc_due_time].
        assert (0 <= MAINTENANCE_MIN_WAIT) by (unfold MAINTENANCE_MIN_WAIT, seconds; lia).
        destruct (truthy m) as [x|] eqn:Ex; [|exists t; split; [done|lia]].
        apply truthy_Some, Hm in Ex.
        destruct (time_max_Some (Some t) x) as (y & Ey & ? & [= <-] & ->); [done|].
        rewrite Ey. eexists. split; [done|]. lia. }
      split; [|done]. intros id c _. destruct Hw as (x & Hx' & Hle). exists x. split; [done|].
      cbn [mo_clock with_due]. lia.
    + intros x _ Hx' Hne ->. cbn [truthy]. by rewrite (Hx _ Hx' Hne).
Qed.

(** ** The operations *)

Context (order_elements : ∀ X, order X ≡ₚ elements X).

Definition good (s : state) : Prop := changes_ok s ∧ planned s.
(** During [tick], that began at the time [t]. *)
Definition since (t : Z) (s : state) : Prop := changes_ok s ∧ t <= now s.
Definition loading (t : Z) (s : state) : Prop :=
  since t s ∧ sc_changes_loaded (mo_context s) = false.

Lemma triple_wait (P : state → Prop) X :
  (∀ s, P s → P (bumped s)) → (∀ s s', prim s s' → P s → P s') →
  triple P (wait clock order read_only during) (λ _, P) X.
Proof.
  intros Hb HP s Hs. destruct (wait_run s) as (s' & E & Hr & _). rewrite E.
  eapply prims_ok; [exact HP|exact Hr|by apply Hb].
Qed.
Lemma prim_since t s s' : prim s s' → since t s → since t s'.
Proof.
  intros Hp [Hc Ht]. split; [by eapply prim_changes_ok|].
  pose proof (prims_clock s s' (rtc_once _ _ Hp)). lia.
Qed.
Lemma prim_loading t s s' : prim s s' → loading t s → loading t s'.
Proof.
  intros Hp [Hs Hl]. split; [by eapply prim_since|].
  destruct (prim_tracks_more _ _ Hp) as (_ & _ & -> & _). done.
Qed.
Lemma prim_good s s' : prim s s' → good s → good s'.
Proof. intros Hp [Hc Hpl]. split; [by eapply prim_changes_ok|by eapply prim_planned]. Qed.
Lemma bumped_since t s : since t s → since t (bumped s).
Proof. intros [[Hnd Hd] Ht]. split; [by constructor|done]. Qed.
Lemma bumped_loading t s : loading t s → loading t (bumped s).
Proof. intros [Hs Hl]. split; [by apply bumped_since|done]. Qed.

Lemma timestamp_since t :
  triple (since t) (timestamp clock) (λ n s, since t s ∧ n <= now s) (λ _, changes_ok).
Proof.
  intros s [[Hnd Hd] Ht]. cbn. pose proof (clock_mono (mo_clock s)) as Hle.
  split; [|done]. split; [|cbn; lia]. constructor; [done|].
  intros id c Hc%Hd. by apply (dated_later s).
Qed.
Lemma await_storage_loading {A} (m : stM Storage FSExn A) t :
  triple (loading t) (await_storage clock order read_only during m) (λ _, loading t) (λ _, changes_ok).
Proof.
  intros s Hs. unfold await_storage. destruct (target_storage A m (mo_world s)) as [w r].
  set (s1 := mkMonitorState _ w _ _ _).
  assert (loading t s1) as Hs1 by (destruct Hs as [[[Hnd Hd] Ht] Hl]; by split; [split; [constructor|]|]).
  assert (triple (loading t) (wait clock order read_only during) (λ _, loading t) (λ _, changes_ok)) as Hw.
  { apply triple_wait; [apply bumped_loading|apply prim_loading]. }
  specialize (Hw s1 Hs1). unfold mbind, stM_bind.
  destruct (wait clock order read_only during s1) as [s2 [x|e]]; [|done].
  destruct r; cbn; [done|apply Hw].
Qed.
Lemma poll_changes_loading checkpoint t :
  triple (loading t) (poll_changes clock order read_only during checkpoint) (λ _, loading t)
    (λ _, changes_ok).
Proof.
  intros s Hs. unfold poll_changes. destruct (target_poll checkpoint (mo_world s)) as [w r].
  set (s1 := mkMonitorState _ w _ _ _).
  assert (loading t s1) as Hs1 by (destruct Hs as [[[Hnd Hd] Ht] Hl]; by split; [split; [constructor|]|]).
  assert (triple (loading t) (wait clock order read_only during) (λ _, loading t) (λ _, changes_ok)) as Hw.
  { apply triple_wait; [apply bumped_loading|apply prim_loading]. }
  specialize (Hw s1 Hs1). unfold mbind, stM_bind.
  destruct (wait clock order read_only during s1) as [s2 [x|e]]; [|done].
  destruct r as [[| st]| |]; cbn; try done; [case_decide; done|apply Hw].
Qed.
Lemma compute_since t now0 m :
  (∀ x, now0 = Some x → x <= t) → (∀ x, m = Some x → x <= t + MAINTENANCE_MIN_WAIT) →
  triple (since t) (compute_due_time clock now0 m)
    (λ _ s, since t s ∧ planned_now s) (λ _, changes_ok).
Proof.
  intros Hn Hm s [Hc Ht].
  destruct (compute_due_time_run now0 m s) as (d & n & E & Hle & Hp & _).
  { intros x Hx%Hn. lia. } { intros x Hx%Hm. lia. } { done. }
  rewrite E. pose proof (clock_le _ _ Hle) as Hcl.
  split; [|done]. split; [|cbn; lia]. destruct Hc as [Hnd Hd]. constructor; [done|].
  intros id c Hc%Hd. by apply (dated_later s).
Qed.

Lemma load_changes_ok t :
  triple (λ s, good s ∧ t <= now s) (load_changes clock order read_only during)
    (λ b s, (good s ∧ t <= now s)) (λ _, changes_ok).
Proof.
  unfold load_changes. eapply triple_bind; [apply triple_gets|]. intros loaded. cbv beta.
  destruct loaded.
  { apply triple_ret'. by intros s [? _]. }
  eapply (triple_bind _ _ _ (λ _, loading t)).
  { intros s [[[Hc Hp] Ht] Hl]. split; [split; [|done]|by symmetry]. by destruct Hc. }
  intros x. eapply triple_bind; [apply await_storage_loading|]. intros checkpoint.
  eapply triple_bind; [apply poll_changes_loading|]. intros [[checkpoint' changes]|].
  2:{ apply triple_ret'. intros s [[Hc Ht] Hl]. split; [split; [done|]|done]. intros Hl'. congruence. }
  eapply triple_bind; [apply await_storage_loading|]. intros y.
  eapply triple_bind; [apply await_storage_loading|]. intros [need_local need_remote].
  eapply triple_bind.
  { eapply triple_pre; [by intros s [? _]|apply timestamp_since]. }
  intros n. cbv beta.
  eapply (triple_bind _ _ _ (λ _, since t)).
  { destruct read_only; [apply triple_ret'; by intros s [? _]|].
    intros s [[Hc Ht] Hn]. cbn. split; [|done]. constructor; cbn.
    - unfold od_keys. rewrite <-list_fmap_compose.
      rewrite (list_fmap_ext _ id (order need_local)) by done.
      rewrite list_fmap_id, order_elements. apply NoDup_elements.
    - intros id c (i & [= -> ->] & _)%od_get_elem%list_elem_of_fmap.
      split; [cbn; lia|done]. }
  intros z. eapply (triple_bind _ _ _ (λ _, since t)).
  { intros s [[Hnd Hd] Ht]. cbn. by split; [constructor|]. }
  intros z'. eapply triple_bind; [by apply compute_since|]. intros z''.
  eapply (triple_bind _ _ _ (λ _ s, good s ∧ t <= now s)); [|intros u; by apply triple_ret'].
  intros s [[[Hnd Hd] Ht] Hp]. split; [|done]. split; [by constructor|]. intros _. exact Hp.
Qed.

Lemma await_sync_since id t :
  triple (since t) (await_sync clock order read_only during id) (λ _, since t) (λ _, changes_ok).
Proof.
  intros s Hs. unfold await_sync. destruct (target_sync id (mo_world s)) as [w r].
  set (s1 := mkMonitorState _ w _ _ _).
  assert (since t s1) as Hs1 by (destruct Hs as [[Hnd Hd] Ht]; by split; [constructor|]).
  assert (triple (since t) (wait clock order read_only during) (λ _, since t) (λ _, changes_ok)) as Hw.
  { apply triple_wait; [apply bumped_since|apply prim_since]. }
  specialize (Hw s1 Hs1). unfold mbind, stM_bind.
  by destruct (wait clock order read_only during s1) as [s2 [x|e]].
Qed.
Lemma on_remote_since f t :
  triple (since t) (ctx_modify (on_remote_changes f)) (λ _ : unit, since t) (λ _ : MonitorExn, changes_ok).
Proof. intros s [[Hnd Hd] Ht]. cbn. by split; [constructor|]. Qed.
Lemma on_local_since f t :
  (∀ s, since t s → let d := sc_local_changes (mo_context s) in
     NoDup (od_keys (f d)) ∧ ∀ id c, od_get (f d) id = Some c → od_get d id = Some c ∨ dated s c) →
  triple (since t) (ctx_modify (on_local_changes f)) (λ _ : unit, since t) (λ _ : MonitorExn, changes_ok).
Proof.
  intros Hf s Hs. cbn. destruct (Hf s Hs) as [Hnd' Hd']. destruct Hs as [[Hnd Hd] Ht].
  split; [|done]. constructor; [done|]. intros id c [Hc|Hc]%Hd'; [exact (Hd _ _ Hc)|exact Hc].
Qed.
Lemma retry_local_since id t :
  triple (since t) (ctx_modify (on_local_changes (λ d, od_set d id (local_change t))))
    (λ _ : unit, since t) (λ _ : MonitorExn, changes_ok).
Proof.
  apply on_local_since. intros s [[Hnd Hd] Ht]. cbn. split; [by apply od_set_NoDup|].
  intros i c. rewrite od_get_set_case. case_decide; [|auto]. intros [= <-]. right.
  split; [cbn; lia|done].
Qed.

Lemma tick_remote_since id t :
  triple (since t) (tick_remote clock order read_only during t id)
    (λ m s, since t s ∧ ∀ x, m = Some x → x <= t + MAINTENANCE_MIN_WAIT) (λ _, changes_ok).
Proof.
  unfold tick_remote. eapply triple_bind; [apply on_remote_since|]. intros x.
  eapply triple_bind; [apply await_sync_since|]. intros r. cbv zeta.
  assert (∀ m, triple (since t) (mret m : moM (option Z)) (λ m' s, since t s ∧ m' = m) (λ _, changes_ok))
    as Hret by (intros m s Hs; done).
  assert (∀ m, m <= t + MAINTENANCE_MIN_WAIT → triple (since t)
    (_ ← ctx_modify (on_remote_changes (λ r, {[ id ]} ∪ r)); mret (Some m) : moM (option Z))
    (λ m' s, since t s ∧ ∀ x, m' = Some x → x <= t + MAINTENANCE_MIN_WAIT) (λ _, changes_ok)) as Hretry.
  { intros m Hm. eapply triple_bind; [apply on_remote_since|]. intros y.
    eapply triple_post; [apply Hret|]. intros m' s [Hs ->]. split; [done|]. by intros z [= <-]. }
  assert (∀ e : MonitorExn, triple (since t) (mthrow e : moM (option Z))
    (λ m' s, since t s ∧ ∀ x, m' = Some x → x <= t + MAINTENANCE_MIN_WAIT) (λ _, changes_ok)) as Hthrow.
  { intros e. apply triple_throw. by intros s [? _]. }
  assert (triple (since t) (mret None : moM (option Z))
    (λ m' s, since t s ∧ ∀ x, m' = Some x → x <= t + MAINTENANCE_MIN_WAIT) (λ _, changes_ok)) as Hnone.
  { eapply triple_post; [apply Hret|]. by intros m' s [Hs ->]. }
  unfold MIN_WAIT, MAINTENANCE_MIN_WAIT, seconds in *.
  destruct r as [|[]]; try apply Hthrow; try apply Hnone; apply Hretry; lia.
Qed.
Lemma tick_local_since id t :
  triple (since t) (tick_local clock order read_only during t id)
    (λ m s, since t s ∧ ∀ x, m = Some x → x <= t + MAINTENANCE_MIN_WAIT) (λ _, changes_ok).
Proof.
  unfold tick_local. eapply triple_bind.
  { apply on_local_since. intros s [[Hnd Hd] Ht]. cbn. split; [by apply od_del_NoDup|].
    intros i c Hc. left. destruct (decide (id = i)) as [->|Hne]; [by rewrite od_get_del in Hc|].
    by rewrite od_get_del_ne in Hc. }
  intros x. eapply triple_bind; [apply await_sync_since|]. intros r. cbv zeta.
  eapply (triple_bind _ _ _ (λ m s, since t s ∧ ∀ x, m = Some x → x <= t + MAINTENANCE_MIN_WAIT)).
  - assert (∀ m, (∀ x, m = Some x → x <= t + MAINTENANCE_MIN_WAIT) → triple (since t)
      (_ ← ctx_modify (on_local_changes (λ d, od_set d id (local_change t))); mret m : moM (option Z))
      (λ m' s, since t s ∧ ∀ x, m' = Some x → x <= t + MAINTENANCE_MIN_WAIT) (λ _, changes_ok)) as Hretry.
    { intros m Hm. eapply triple_bind; [apply retry_local_since|]. intros y s Hs. by split. }
    assert (∀ e : MonitorExn, triple (since t) (mthrow e : moM (option Z))
      (λ m' s, since t s ∧ ∀ x, m' = Some x → x <= t + MAINTENANCE_MIN_WAIT) (λ _, changes_ok)) as Hthrow.
    { intros e. apply triple_throw. by intros s [? _]. }
    destruct r as [|[]]; try apply Hthrow; try (by intros s Hs); apply Hretry; try done;
      by intros ? [= <-].
  - intros m. apply (triple_bind _ _ _ (λ d s, since t s ∧ ∀ x, m = Some x → x <= t + MAINTENANCE_MIN_WAIT)).
    { by intros s Hs. }
    intros d. eapply (triple_bind _ _ _ (λ _ s, since t s ∧ ∀ x, m = Some x → x <= t + MAINTENANCE_MIN_WAIT));
      [|intros y; by apply triple_ret'].
    destruct (decide (d = [])); [|by apply triple_ret'].
    apply triple_wait.
    + intros s [Hs Hm]. split; [by apply bumped_since|done].
    + intros s s' Hp [Hs Hm]. split; [by eapply prim_since|done].
Qed.

Lemma tick_ok :
  triple good (tick clock order read_only during) (λ _, good) (λ _, changes_ok).
Proof.
  unfold tick. intros s0 Hs0.
  assert (triple (λ s, s = s0) (timestamp clock : moM Z)
    (λ t s, good s ∧ t <= now s) (λ _, changes_ok)) as Hts.
  { intros s ->. destruct Hs0 as [[Hnd Hd] Hp]. pose proof (clock_mono (mo_clock s0)) as Hle. cbn.
    split; [|done]. split.
    - constructor; [done|]. intros id c Hc%Hd. by apply (dated_later s0).
    - intros Hl. destruct (Hp Hl) as [Hlocal Hremote]. split.
      + intros id c Hc. eapply (wakes_by_later s0); [done| |by eapply Hlocal]. cbn. lia.
      + intros Hr. eapply (wakes_by_later s0); [done| |by eapply Hremote]. cbn. lia. }
  revert s0 Hs0 Hts. intros s0 _ Hts. apply (triple_bind _ _ _ _ _ _ Hts); [|done]. clear s0 Hts. intros t.
  apply (triple_bind _ _ _ (λ d s, good s ∧ t <= now s)); [by intros s Hs|]. intros due_time.
  destruct (negb _); [apply triple_ret'; by intros s [? _]|].
  eapply triple_bind; [apply load_changes_ok|]. intros loaded.
  destruct (negb loaded); [by intros s [? _]|].
  apply (triple_bind _ _ _ (λ _, since t)); [intros s [[? _] ?]; by split|]. intros remote.
  apply (triple_bind _ _ _ (λ _, since t)); [by intros s Hs|]. intros changes.
  eapply (triple_bind _ _ _ (λ m s, since t s ∧ ∀ x, m = Some x → x <= t + MAINTENANCE_MIN_WAIT)).
  { destruct (head (order remote)) as [id|]; [apply tick_remote_since|].
    destruct (first_due t changes) as [id|]; [apply tick_local_since|]. by intros s Hs. }
  intros m. apply triple_pure. intros Hm.
  apply (triple_bind _ _ _ (λ _, good)); [|by intros x s Hs].
  eapply triple_post; [apply compute_since; [by intros x [= <-]|done]|].
  intros x s [[Hc _] Hp]. split; [done|]. intros _. exact Hp.
Qed.
End monitor.
