(* ===== verification/SyncMonitorProperties.v ===== *)
(** The theorems on the contexts of the synchronization. *)

From S2P Require Import Prelude Triples Types Chunk ApiManifest LocalManifest Storage Backend.
From S2P Require Import RemoteDevices SyncMonitor SyncMonitorProofs.

Section monitor.
Context {W : Type} `{SyncTarget W}.
Context (clock : nat → Z) (order : gset EntryID → list EntryID) (read_only : bool)
  (during : nat → list ContextEvent).
Context (clock_mono : ∀ n, clock n <= clock (S n)).
Context (order_elements : ∀ X, order X ≡ₚ elements X).
Abbreviation state := (MonitorState W) (only parsing).
Abbreviation run_tick := (tick clock order read_only during).
Abbreviation now s := (clock (mo_clock s)).
Abbreviation local s := (sc_local_changes (mo_context s)).
Abbreviation remote s := (sc_remote_changes (mo_context s)).

(** ** When the changes are due *)

(** The events between the calls, the calls that return, those that crash and are
    caught, and time that passes. *)
Inductive monitor_step (s s' : state) : Prop :=
  | StepEvent e : context_event clock order read_only e s = (s', Ok tt) → monitor_step s s'
  | StepBootstrap found t :
      ctx_action clock found (bootstrap clock order read_only during) s = (s', Ok t) →
      monitor_step s s'
  | StepTick found t : ctx_action clock found run_tick s = (s', Ok t) → monitor_step s s'
  | StepShared : on_sharing_updated clock s = (s', Ok tt) → monitor_step s s'
  | StepTime n :
      (mo_clock s <= n)%nat →
      s' = mkMonitorState (mo_context s) (mo_world s) n (mo_waits s) (mo_synced s) →
      monitor_step s s'.

Lemma new_context_good (s : state) : (∃ t, mo_context s = set_due_time t new_sync_context) → good clock s.
Proof.
  intros [t E]. split; [constructor; rewrite E; [apply NoDup_nil_2|done]|].
  intros Hl. by rewrite E in Hl.
Qed.
Lemma ctx_action_good found meth (s s' : state) t :
  triple (good clock) meth (λ _, good clock) (λ _, changes_ok clock) → good clock s →
  ctx_action clock found meth s = (s', Ok t) → good clock s'.
Proof.
  intros Hm Hs. specialize (Hm s Hs). unfold ctx_action.
  destruct (meth s) as [s1 [x|[|e]]]; [by intros [= <- <-]|done|].
  destruct found; cbn; intros [= <- <-]; apply new_context_good; by eexists.
Qed.
Lemma bootstrap_good : triple (good (W := W) clock) (bootstrap clock order read_only during)
  (λ _, good clock) (λ _, changes_ok clock).
Proof.
  intros s Hs. unfold bootstrap.
  pose proof (load_changes_ok clock order read_only during clock_mono order_elements (now s) s
    (conj Hs (Z.le_refl _))) as Ht.
  unfold mbind, stM_bind. destruct (load_changes _ _ _ _ s) as [s1 [b|e]]; [|done]. apply Ht.
Qed.

Lemma monitor_step_good s s' : good clock s → monitor_step s s' → good clock s'.
Proof.
  intros Hs [e Hrun|found t Hrun|found t Hrun|Hrun|n Hn ->].
  - destruct (context_event_run clock order read_only e s) as (s1 & E & Hr & _).
    rewrite Hrun in E. injection E as <-.
    eapply prims_ok; [|exact Hr|exact Hs]. intros ? ?. by apply prim_good.
  - eapply ctx_action_good; [apply bootstrap_good|done..].
  - eapply ctx_action_good; [by apply tick_ok|done..].
  - injection Hrun as <-. apply new_context_good. by eexists.
  - pose proof (clock_le clock clock_mono _ _ Hn) as Hle. destruct Hs as [[Hnd Hd] Hp]. split.
    + constructor; [done|]. intros id c Hc%Hd. by apply (dated_later clock s).
    + intros Hl. destruct (Hp Hl) as [Hlocal Hremote]. split.
      * intros id c Hc. eapply (wakes_by_later s); [done| |by eapply Hlocal]. cbn. lia.
      * intros Hr. eapply (wakes_by_later s); [done| |by eapply Hremote]. cbn. lia.
Qed.

Lemma monitor_steps_good s s' : good clock s → rtc monitor_step s s' → good clock s'.
Proof. intros Hs Hr. induction Hr as [|s s1 s' H1 _ IH]; [done|]. by eapply IH, monitor_step_good. Qed.

(** ** The dates of the first changes *)

(** The local change of an entry keeps the date of its first change. *)
Definition keeps_first (i : EntryID) (s s' : state) : Prop :=
  ∀ c, od_get (local s) i = Some c →
    ∃ c', od_get (local s') i = Some c' ∧ lc_first_changed_on c' = lc_first_changed_on c.
#[local] Instance keeps_first_preorder i : PreOrder (keeps_first i).
Proof.
  split; [by intros s c Hc; exists c|]. intros s1 s2 s3 H1 H2 c (c1 & (c2 & ? & ?)%H2 & ?)%H1.
  exists c2. split; [done|congruence].
Qed.
Lemma keeps_first_same i (s s' : state) : local s' = local s → keeps_first i s s'.
Proof. intros E c Hc. exists c. by rewrite E. Qed.
Lemma prims_keep_first i s s' : rtc (prim clock) s s' → keeps_first i s s'.
Proof.
  induction 1 as [|s s1 s' Hp _ IH]; [done|]. etrans; [|exact IH]. clear IH.
  destruct Hp as [f|id|id]; [by apply keeps_first_same| |by apply keeps_first_same].
  intros c Hc. change (local (touch clock id s)) with (od_set (local s) id (touched clock id s)).
  rewrite od_get_set_case. unfold touched. case_decide as E; [|by exists c].
  subst id. rewrite Hc. by eexists.
Qed.

(** ** What a tick does *)

(** The state in which a tick begins, after it has read the clock. *)
Definition ticked (s : state) : state :=
  mkMonitorState (mo_context s) (mo_world s) (S (mo_clock s)) (mo_waits s) (mo_synced s).
Definition tick_entry (s : state) : stM state MonitorExn (option Z) :=
  match head (order (remote s)) with
  | Some entry_id => tick_remote clock order read_only during (now s) entry_id
  | None =>
      match first_due (now s) (local s) with
      | Some entry_id => tick_local clock order read_only during (now s) entry_id
      | None => mret None
      end
  end.
Lemma tick_eq s :
  sc_changes_loaded (mo_context s) = true →
  run_tick s =
    if negb (time_leb (sc_due_time (mo_context s)) (Some (now s)))
    then (ticked s, Ok (sc_due_time (mo_context s)))
    else (m ← tick_entry s; _ ← compute_due_time clock (Some (now s)) m;
          ctx_get sc_due_time) (ticked s).
Proof.
  intros Hl. unfold tick. rewrite (bind_Ok _ _ s (ticked s) (now s)) by done. cbv beta.
  rewrite (bind_Ok _ _ (ticked s) (ticked s) (sc_due_time (mo_context s))) by done. cbv beta.
  destruct (negb (time_leb _ _)); [done|].
  rewrite (bind_Ok _ _ (ticked s) (ticked s) true).
  2:{ unfold load_changes, ctx_get, gets, mbind, stM_bind. cbn. by rewrite Hl. }
  cbv beta. cbn [negb].
  rewrite (bind_Ok _ _ (ticked s) (ticked s) (remote s)) by done. cbv beta.
  by rewrite (bind_Ok _ _ (ticked s) (ticked s) (local s)).
Qed.

(** What [_sync] does, with the events that come meanwhile. *)
Lemma await_sync_run id s :
  ∃ s', await_sync clock order read_only during id s = (s', Ok (target_sync id (mo_world s)).2) ∧
    mo_synced s' = (id, (target_sync id (mo_world s)).2) :: mo_synced s ∧
    (∀ i, i ∈ od_keys (local s) → i ∈ od_keys (local s')) ∧ remote s ⊆ remote s' ∧
    (∀ i, LocalChanged i ∈ during (mo_waits s) → read_only = false → i ∈ od_keys (local s')) ∧
    (∀ i, RemoteChanged i ∈ during (mo_waits s) → i ∈ remote s') ∧
    (∀ i, keeps_first i s s') ∧
    (during (mo_waits s) = [] → s' = mkMonitorState (mo_context s) (target_sync id (mo_world s)).1
       (mo_clock s) (S (mo_waits s)) ((id, (target_sync id (mo_world s)).2) :: mo_synced s)).
Proof.
  unfold await_sync. destruct (target_sync id (mo_world s)) as [w r]. cbn [fst snd].
  set (s1 := mkMonitorState _ w _ _ _).
  destruct (wait_run clock order read_only during s1) as (s' & E & Hr & Hl & Hrem).
  exists s'. rewrite (bind_Ok _ _ _ _ _ E).
  pose proof (λ i, prims_keep_first i _ _ Hr) as Hf.
  apply prims_track_more in Hr as (Hk & Hsub & _ & _ & Hsy).
  split_and!; [done|exact Hsy|exact Hk|exact Hsub|exact Hl|exact Hrem|exact Hf|].
  intros Hd. unfold wait in E. cbn [mo_waits s1] in E. rewrite Hd in E. by injection E as <-.
Qed.

(** Nothing is lost, but for the date of a local change that is being synchronized. *)
Definition frames (b : bool) (id : EntryID) (s s' : state) : Prop :=
  tracks_more s s' ∧ ∀ i, b = true ∨ i ≠ id → keeps_first i s s'.
Lemma prims_frame b id s s' : rtc (prim clock) s s' → frames b id s s'.
Proof. intros Hr. split; [by eapply prims_track_more|]. intros i _. by apply prims_keep_first. Qed.

(** The context wakes up in time for its changes: at [t], or when they are due if it is
    later. *)
Definition on_time (t : Z) (s : state) : Prop :=
  (remote s ≠ ∅ → wakes_by s t) ∧
  ∀ id c, od_get (local s) id = Some c → wakes_by s (Z.max (lc_due_time c) t).
Lemma wakes_by_le (s : state) t t' : t <= t' → wakes_by s t → wakes_by s t'.
Proof. intros Hle (x & Hx & ?). exists x. split; [done|lia]. Qed.
Lemma on_time_le t t' s : t <= t' → on_time t s → on_time t' s.
Proof.
  intros Hle [Hr Hl]. split.
  - intros Hne. eapply wakes_by_le, Hr, Hne. done.
  - intros id c Hc. eapply wakes_by_le, Hl, Hc. lia.
Qed.
Lemma compute_on_time now0 m u (s : state) :
  (∀ t, truthy now0 = Some t → t <= u) → (truthy now0 = None → now s <= u) →
  (∀ x, m = Some x → x <= u) →
  ∃ d n, compute_due_time clock now0 m s = (with_due d n s, Ok tt) ∧ (mo_clock s <= n)%nat ∧
    on_time u (with_due d n s).
Proof.
  intros Hn Ht Hm. unfold compute_due_time.
  do 2 (rewrite (bind_Ok _ _ s s _ eq_refl); cbv beta). cbn [compose].
  set (later := λ d, match truthy m with Some t => time_max d (Some t) | None => d end).
  assert (∀ d t, d = Some t → ∃ t', later d = Some t' ∧ t' <= Z.max t u) as Hlater.
  { intros d t ->. unfold later. destruct (truthy m) as [x|] eqn:Ex; [|exists t; split; [done|lia]].
    apply truthy_Some, Hm in Ex.
    destruct (time_max_Some (Some t) x) as (y & -> & ? & [= <-] & ->); [done|].
    eexists. split; [done|lia]. }
  destruct (decide (remote s = ∅)) as [Hr|Hr].
  - eexists _, (mo_clock s). split; [reflexivity|]. split; [lia|]. split; [done|].
    intros id c Hc%od_get_elem. change (wakes_by (with_due (later (min_due (local s))) (mo_clock s) s)
      (Z.max (lc_due_time c) u)).
    destruct (min_due_spec (local s)) as [[E _]|[_ Hmin]].
    { change ((id, c) ∈ local s) in Hc. rewrite E in Hc. by apply not_elem_of_nil in Hc. }
    destruct (Hmin _ _ Hc) as (t & Et & Hle). destruct (Hlater _ _ Et) as (t' & Et' & Hle').
    exists t'. split; [exact Et'|lia].
  - assert (∀ d n, (∃ t, d = Some t ∧ t <= u) → on_time u (with_due (later d) n s)) as Hdone.
    { intros d n (t & Et & Hle). destruct (Hlater _ _ Et) as (t' & Et' & Hle').
      split; [intros _|intros id c _]; exists t'; (split; [exact Et'|lia]). }
    destruct (truthy now0) as [t|] eqn:Et.
    + eexists _, (mo_clock s). split; [reflexivity|]. split; [lia|]. apply Hdone. eauto.
    + eexists _, (S (mo_clock s)). split; [reflexivity|]. split; [lia|]. apply Hdone. eauto.
Qed.

Lemma compute_due_time_frame b id now0 m s :
  ∃ s' : state, compute_due_time clock now0 m s = (s', Ok tt) ∧ frames b id s s'.
Proof.
  unfold compute_due_time, ctx_get, gets, timestamp, ctx_modify, modify, mbind, stM_bind, mret, stM_ret,
    fmap, stM_fmap.
  cbn [compose mo_context]. destruct (decide (remote s = ∅)); [|destruct (truthy now0)];
    eexists; (split; [reflexivity|]); (split; [by split_and!|intros i _; by apply keeps_first_same]).
Qed.

(** The entry that a tick takes, and whether for a remote change. *)
Definition next_entry (s : state) : option (bool * EntryID) :=
  if time_leb (sc_due_time (mo_context s)) (Some (now s)) then
    match head (order (remote s)) with
    | Some entry_id => Some (true, entry_id)
    | None => pair false <$> first_due (now s) (local s)
    end
  else None.
(** The answers after which the change is kept for later, how long the context waits
    then, and the end of the tick. *)
Definition pause (is_remote : bool) (r : result FSExn unit) : option Z :=
  match r with
  | Err FSWorkspaceInMaintenance => Some MAINTENANCE_MIN_WAIT
  | Err FSWorkspaceNoReadAccess => if is_remote then Some MIN_WAIT else None
  | _ => None
  end.
Definition retried (is_remote : bool) (r : result FSExn unit) : bool :=
  match r with
  | Err (FSWorkspaceNoReadAccess | FSWorkspaceInMaintenance) => true
  | Err FSWorkspaceNoWriteAccess => negb is_remote
  | _ => false
  end.
Definition tick_end (r : result FSExn unit) (x : result MonitorExn Time) : Prop :=
  match r with
  | Ok _ | Err (FSWorkspaceNoReadAccess | FSWorkspaceNoWriteAccess | FSWorkspaceInMaintenance) =>
      ∃ t, x = Ok t
  | Err FSBackendOfflineError => x = Err BackendNotAvailable
  | Err e => x = Err (MonitorCrash e)
  end.
Definition tracked (is_remote : bool) (i : EntryID) (s : state) : Prop :=
  if is_remote then i ∈ remote s else i ∈ od_keys (local s).
Lemma tracked_more is_remote i s s' : tracks_more s s' → tracked is_remote i s → tracked is_remote i s'.
Proof. intros (Hl & Hr & _). destruct is_remote; cbn; [apply Hr|apply Hl]. Qed.

(** What [tick_remote] and [tick_local] leave. *)
Record took (b : bool) (id : EntryID) (s s' : state) : Prop := {
  to_synced : mo_synced s' = (id, (target_sync id (mo_world s)).2) :: mo_synced s;
  to_kept b' i : tracked b' i s → (b', i) ≠ (b, id) → tracked b' i s';
  to_local i : LocalChanged i ∈ during (mo_waits s) → read_only = false → tracked false i s';
  to_remote i : RemoteChanged i ∈ during (mo_waits s) → tracked true i s';
  to_first i : b = true ∨ i ≠ id → keeps_first i s s' }.
Lemma took_more b id s s1 s2 : took b id s s1 → frames b id s1 s2 → took b id s s2.
Proof.
  intros [Hs Hk Hl Hr Hf] [Hm Hf']. constructor.
  - destruct Hm as (_ & _ & _ & _ & ->). exact Hs.
  - intros b' i Hi Hne. by eapply tracked_more, Hk.
  - intros i Hi Hro. by eapply tracked_more, Hl.
  - intros i Hi. by eapply tracked_more, Hr.
  - intros i Hi. etrans; [by apply Hf|by apply Hf'].
Qed.
Lemma await_took b id f s :
  (∀ b' i, tracked b' i s → (b', i) ≠ (b, id) → tracked b' i (on_context f s)) →
  (∀ i, b = true ∨ i ≠ id → keeps_first i s (on_context f s)) →
  ∃ s', await_sync clock order read_only during id (on_context f s)
      = (s', Ok (target_sync id (mo_world s)).2) ∧ took b id s s'.
Proof.
  intros Hf Hfirst.
  destruct (await_sync_run id (on_context f s)) as (s' & E & Hs & Hl & Hr & Hdl & Hdr & Hk & _).
  exists s'. split; [exact E|]. constructor; [exact Hs| |exact Hdl|exact Hdr|].
  - intros b' i Hi Hne. specialize (Hf b' i Hi Hne). destruct b'; [by apply Hr|by apply Hl].
  - intros i Hi. etrans; [by apply Hfirst|apply Hk].
Qed.

Lemma retry_remote_more id (s : state) :
  let s' := on_context (on_remote_changes (λ r, {[ id ]} ∪ r)) s in
  frames true id s s' ∧ tracked true id s'.
Proof.
  split; [split|cbn; set_solver].
  - split_and!; try done. apply union_subseteq_r.
  - intros i _. by apply keeps_first_same.
Qed.
Lemma retry_local_more id c (s : state) :
  let s' := on_context (on_local_changes (λ d, od_set d id c)) s in
  frames false id s s' ∧ tracked false id s'.
Proof.
  cbv zeta. set (s' := on_context _ s).
  split; [split; [split_and!; try done|]|].
  2:{ intros i [|Hne] c' Hc'; [done|]. exists c'. split; [|done].
      change (od_get (od_set (local s) id c) i = Some c'). rewrite od_get_set_case.
      by rewrite decide_False by congruence. }
  - intros i Hi. change (i ∈ od_keys (od_set (local s) id c)).
    rewrite od_keys_set. case_decide; [done|]. apply elem_of_app. by left.
  - change (id ∈ od_keys (od_set (local s) id c)).
    rewrite od_keys_set. case_decide; [done|]. rewrite elem_of_app. right. by left.
Qed.

Lemma tick_remote_took t id s :
  ∃ s' x, tick_remote clock order read_only during t id s = (s', x) ∧ took true id s s' ∧
    let r := (target_sync id (mo_world s)).2 in
    (retried true r = true → tracked true id s') ∧
    match x with
    | Ok m => tick_end r (Ok None) ∧ m = Z.add t <$> pause true r
    | Err e => tick_end r (Err e)
    end.
Proof.
  set (f := on_remote_changes (λ r, r ∖ {[ id ]})).
  destruct (await_took true id f s) as (s1 & E & Ht).
  { intros b i Hi Hne. destruct b; [|exact Hi]. cbn. apply elem_of_difference. split; [exact Hi|].
    rewrite elem_of_singleton. congruence. }
  { intros i _. by apply keeps_first_same. }
  unfold tick_remote. rewrite (bind_Ok _ _ s (on_context f s) tt eq_refl). cbv beta.
  rewrite (bind_Ok _ _ _ _ _ E). cbv beta zeta.
  destruct (retry_remote_more id s1) as [Hm Hin].
  pose proof (took_more _ _ _ _ _ Ht Hm) as Ht2.
  destruct (target_sync id (mo_world s)) as [w r]. cbn [snd] in *.
  destruct r as [[]|[]]; eexists _, _; (split; [reflexivity|]); (split; [assumption|]); split;
    try (intros [=]); try assumption; try reflexivity; (split; [eexists|]; reflexivity).
Qed.

Lemma vacuum_more b id (m : option Z) (s : state) :
  ∃ s', (changes ← ctx_get sc_local_changes;
         _ ← (if decide (changes = []) then wait clock order read_only during else mret tt);
         mret m : stM state MonitorExn (option Z)) s = (s', Ok m) ∧ frames b id s s'.
Proof.
  rewrite (bind_Ok _ _ s s (local s) eq_refl). cbv beta. destruct (decide _);
    [|by exists s; split; [done|split; [done|intros i _; by apply keeps_first_same]]].
  destruct (wait_run clock order read_only during s) as (s' & E & Hr & _).
  exists s'. rewrite (bind_Ok _ _ _ _ _ E). split; [done|].
  destruct (prims_frame b id _ _ Hr) as [(? & ? & ? & ? & ?) Hf]. split; [by split_and!|].
  intros i Hi. exact (Hf i Hi).
Qed.
Lemma tick_local_took t id s :
  ∃ s' x, tick_local clock order read_only during t id s = (s', x) ∧ took false id s s' ∧
    let r := (target_sync id (mo_world s)).2 in
    (retried false r = true → tracked false id s') ∧
    match x with
    | Ok m => tick_end r (Ok None) ∧ m = Z.add t <$> pause false r
    | Err e => tick_end r (Err e)
    end.
Proof.
  set (f := on_local_changes (λ d, od_del d id)).
  destruct (await_took false id f s) as (s1 & E & Ht).
  { intros b i Hi Hne. destruct b; [exact Hi|]. assert (i ≠ id) by congruence.
    change (i ∈ od_keys (od_del (local s) id)). by rewrite od_keys_del. }
  { intros i [|Hne] c Hc; [done|]. exists c. split; [|done].
    change (od_get (od_del (local s) id) i = Some c). by rewrite od_get_del_ne. }
  unfold tick_local. rewrite (bind_Ok _ _ s (on_context f s) tt eq_refl). cbv beta.
  rewrite (bind_Ok _ _ _ _ _ E). cbv beta zeta.
  destruct (retry_local_more id (local_change t) s1) as [Hm Hin].
  pose proof (took_more _ _ _ _ _ Ht Hm) as Ht2.
  destruct (target_sync id (mo_world s)) as [w r]. cbn [snd] in *.
  set (s2 := on_context _ s1) in *.
  assert (∀ m (mm : stM state MonitorExn (option Z)) s0, mm s1 = (s0, Ok m) →
    s0 = s1 ∧ retried false r = false ∨ s0 = s2 → tick_end r (Ok None) →
    m = Z.add t <$> pause false r →
    ∃ s' x, (m ← mm; changes ← ctx_get sc_local_changes;
      _ ← (if decide (changes = []) then wait clock order read_only during else mret tt); mret m) s1 = (s', x) ∧
    took false id s s' ∧ (retried false r = true → tracked false id s') ∧
    match x with
    | Ok m => tick_end r (Ok None) ∧ m = Z.add t <$> pause false r
    | Err e => tick_end r (Err e)
    end) as Hend.
  { intros m mm s0 Emm Hs0 Hok Hpause. destruct (vacuum_more false id m s0) as (s' & E' & Hm').
    exists s', (Ok m). split; [by rewrite (bind_Ok _ _ _ _ _ Emm)|].
    destruct Hs0 as [[-> Hr]| ->].
    - split; [exact (took_more _ _ _ _ _ Ht Hm')|]. split; [congruence|done].
    - split; [exact (took_more _ _ _ _ _ Ht2 Hm')|]. split; [|done].
      intros _. eapply tracked_more; [apply Hm'|done]. }
  destruct r as [[]|[]];
    try (eapply Hend; [reflexivity|(by right) || (by left)|eexists; reflexivity|reflexivity]);
    eexists s1, _; (split; [reflexivity|]); (split; [exact Ht|]); split; done.
Qed.

(** What a tick leaves when it waits for nothing, and when it synchronizes an entry. *)
Definition ticked_idle (s s' : state) (x : result MonitorExn Time) : Prop :=
  mo_synced s' = mo_synced s ∧ (∀ b i, tracked b i s → tracked b i s') ∧ (∃ t, x = Ok t) ∧
  (∀ i, keeps_first i s s') ∧
  if time_leb (sc_due_time (mo_context s)) (Some (now s))
  then now s ≠ 0 → on_time (now s) s' else mo_context s' = mo_context s.
Definition ticked_entry (b : bool) (id : EntryID) (s s' : state) (x : result MonitorExn Time) : Prop :=
  let r := (target_sync id (mo_world s)).2 in
  took b id s s' ∧ tick_end r x ∧ (retried b r = true → tracked b id s') ∧
  (now s ≠ 0 → ∀ t, x = Ok t → on_time (now s + default 0 (pause b r)) s').
Lemma tick_run (s : state) :
  sc_changes_loaded (mo_context s) = true →
  let '(s', x) := run_tick s in
  match next_entry s with
  | None => ticked_idle s s' x
  | Some (b, id) =>
      ticked_entry b id s s' x ∧ (b = false → ∃ c, (id, c) ∈ local s ∧ lc_due_time c <= now s) ∧
      (b = true → id ∈ remote s)
  end.
Proof.
  intros Hl. rewrite (tick_eq s Hl). unfold next_entry, ticked_idle.
  destruct (time_leb _ _); cbn [negb]; [|split_and!; [done|done|by eexists|by intros i; apply keeps_first_same|done]].
  assert (∀ b id m (Q : Prop), (∃ s' x, m (ticked s) = (s', x) ∧ took b id (ticked s) s' ∧
      let r := (target_sync id (mo_world s)).2 in
      (retried b r = true → tracked b id s') ∧
      match x with
      | Ok m => tick_end r (Ok None) ∧ m = Z.add (now s) <$> pause b r
      | Err e => tick_end r (Err e)
      end) → Q →
    let '(s', x) := (m ← m; _ ← compute_due_time clock (Some (now s)) m; ctx_get sc_due_time) (ticked s) in
    ticked_entry b id s s' x ∧ Q) as Hend.
  { intros b id m Q (s1 & x & E & [H1 H2 H3 H4 H5] & Hr & He) HQ.
    assert (took b id s s1) as Ht by by constructor. unfold ticked_entry.
    destruct x as [m0|e].
    - destruct He as [He ->]. rewrite (bind_Ok _ _ _ _ _ E). cbv beta.
      set (p := pause b (target_sync id (mo_world s)).2) in *.
      destruct (compute_due_time_frame b id (Some (now s)) (Z.add (now s) <$> p) s1) as (s2 & E2 & Hm).
      rewrite (bind_Ok _ _ _ _ _ E2). cbn -[default]. split; [split_and!|exact HQ].
      + by eapply took_more.
      + by destruct (target_sync id (mo_world s)) as [w [[]|[]]]; try discriminate He; eexists.
      + intros Hr'. eapply tracked_more; [apply Hm|by apply Hr].
      + intros Hne t _. assert (0 <= default 0 p) as Hp.
        { unfold p, pause, MAINTENANCE_MIN_WAIT, MIN_WAIT, seconds. by repeat case_match. }
        destruct (compute_on_time (Some (now s)) (Z.add (now s) <$> p) (now s + default 0 p) s1)
          as (d & n & E3 & _ & Hot).
        * intros x. cbn. destruct (Z.eqb_spec (now s) 0); [done|]. intros [= <-]. lia.
        * cbn. by destruct (Z.eqb_spec (now s) 0).
        * intros x Hx. destruct p; [|done]. injection Hx as <-. cbn. lia.
        * rewrite E2 in E3. by injection E3 as ->.
    - unfold mbind, stM_bind. rewrite E. split; [split_and!|exact HQ]; [exact Ht| |exact Hr|done].
      by destruct (target_sync id (mo_world s)) as [w [[]|[]]]. }
  unfold tick_entry. destruct (head (order (remote s))) as [id|] eqn:Er.
  { apply (Hend true); [apply (tick_remote_took _ id (ticked s))|]. split; [done|]. intros _.
    apply elem_of_elements. rewrite <-order_elements.
    destruct (order (remote s)); [done|]. injection Er as ->. by left. }
  destruct (first_due (now s) (local s)) as [id|] eqn:Ed; cbn [fmap option_fmap option_map].
  - apply (Hend false); [apply (tick_local_took _ id (ticked s))|]. split; [|done]. intros _.
    unfold first_due in Ed. apply head_Some_elem_of, list_elem_of_fmap in Ed as ([i c] & -> & Hc).
    apply list_elem_of_filter in Hc as [Hdue Hin]. by exists c.
  - rewrite (bind_Ok _ _ (ticked s) (ticked s) None eq_refl). cbv beta.
    destruct (compute_due_time_frame true 0%N (Some (now s)) None (ticked s)) as (s2 & E2 & Hm & Hf).
    rewrite (bind_Ok _ _ _ _ _ E2). cbn -[on_time]. split_and!.
    + by destruct Hm as (_ & _ & _ & _ & ->).
    + intros b i Hi. by eapply (tracked_more _ _ (ticked s)).
    + by eexists.
    + intros i. apply Hf. by left.
    + intros Hne. destruct (compute_on_time (Some (now s)) None (now s) (ticked s)) as (d & n & E3 & _ & Hot).
      * intros x. cbn. destruct (Z.eqb_spec (now s) 0); [done|]. intros [= <-]. lia.
      * cbn. by destruct (Z.eqb_spec (now s) 0).
      * done.
      * rewrite E2 in E3. by injection E3 as ->.
Qed.

(** ** Changes in time *)

(** What the events do to the times. *)
Lemma prim_on_time t (s s' : state) : prim clock s s' → on_time t s → on_time (Z.max t (now s')) s'.
Proof.
  intros Hp Ht. destruct Hp as [f|id|id].
  - eapply on_time_le, Ht. lia.
  - destruct Ht as [Hr Hl]. set (c := touched clock id s).
    destruct (earliest_spec (lc_due_time c) (sc_due_time (mo_context s))) as (x & Ex & Hx & Hmin).
    assert (∀ y, wakes_by s y → wakes_by (touch clock id s) y) as Hw.
    { intros y (z & Ez & Hz). exists x. split; [exact Ex|]. specialize (Hmin _ Ez). lia. }
    split.
    + intros Hne. eapply wakes_by_le, Hw, Hr, Hne. lia.
    + intros i c' Hc'. change (od_get (od_set (local s) id c) i = Some c') in Hc'.
      rewrite od_get_set_case in Hc'. case_decide.
      * injection Hc' as <-. exists x. split; [exact Ex|lia].
      * eapply wakes_by_le, Hw, Hl, Hc'. lia.
  - assert (wakes_by (touch_remote clock id s) (now s)) as Hw by by exists (now s).
    specialize (clock_mono (mo_clock s)).
    split; [intros _|intros i c _]; (eapply wakes_by_le, Hw); cbn; lia.
Qed.
Lemma prims_on_time t (s s' : state) : rtc (prim clock) s s' → on_time t s → on_time (Z.max t (now s')) s'.
Proof.
  intros Hr. revert t. induction Hr as [s|s s1 s' Hp Hps IH]; intros t Ht; [eapply on_time_le, Ht; lia|].
  pose proof (prims_clock clock clock_mono _ _ Hps) as Hle.
  eapply on_time_le, IH, prim_on_time, Ht; [lia|done].
Qed.
Lemma prims_first_from t id (s s' : state) :
  rtc (prim clock) s s' → t <= now s →
  (∀ c, od_get (local s) id = Some c → t <= lc_first_changed_on c) →
  ∀ c, od_get (local s') id = Some c → t <= lc_first_changed_on c.
Proof.
  induction 1 as [|s s1 s' Hp _ IH]; [done|]. intros Ht Hc. apply IH; clear IH.
  - pose proof (prims_clock clock clock_mono _ _ (rtc_once _ _ Hp)). lia.
  - destruct Hp as [f|i|i]; [exact Hc| |exact Hc]. intros c.
    change (local (touch clock i s)) with (od_set (local s) i (touched clock i s)).
    rewrite od_get_set_case. case_decide as E; [subst i; intros [= <-]|apply Hc].
    unfold touched. destruct (od_get (local s) id) as [c0|] eqn:E0; [exact (Hc _ eq_refl)|exact Ht].
Qed.
(** An entry that was just changed: the date of this change, the one of the first
    change, which is the same for an entry that was not changed before, and the time to
    wake up. *)
Definition just_changed (id : EntryID) (s s' : state) : Prop :=
  ∃ c, od_get (local s') id = Some c ∧ now s <= lc_last_changed_on c <= now s' ∧
    match od_get (local s) id with
    | Some c0 => lc_first_changed_on c = lc_first_changed_on c0
    | None => now s <= lc_first_changed_on c
    end ∧ wakes_by s' (lc_due_time c).
Lemma local_event_ok id (s s' : state) :
  context_event clock order read_only (LocalChanged id) s = (s', Ok tt) → read_only = false →
  just_changed id s s'.
Proof.
  intros Hrun Hro. destruct (context_event_last clock order read_only (LocalChanged id) s)
    as (s2 & E & Hr & He). rewrite Hrun in E. injection E as <-.
  destruct (He Hro) as (s1 & Hr1 & Es'). exists (touched clock id s1).
  assert (od_get (local s') id = Some (touched clock id s1)) as Hc.
  { subst s'. change (local (touch clock id s1)) with (od_set (local s1) id (touched clock id s1)).
    rewrite od_get_set_case. by rewrite decide_True. }
  pose proof (prims_clock clock clock_mono _ _ Hr1) as Hle. split_and!; [exact Hc| | | |].
  - unfold touched. by destruct (od_get (local s1) id).
  - subst s'. unfold touched. pose proof (clock_mono (mo_clock s1)).
    destruct (od_get (local s1) id); cbn; lia.
  - destruct (od_get (local s) id) as [c0|] eqn:E0.
    + destruct (prims_keep_first id _ _ Hr c0 E0) as (c & Hc' & Hf). congruence.
    + apply (prims_first_from (now s) id s s' Hr); [lia|congruence|exact Hc].
  - subst s'. destruct (earliest_spec (lc_due_time (touched clock id s1)) (sc_due_time (mo_context s1)))
      as (x & Ex & Hx & _). by exists x.
Qed.
Lemma remote_event_ok id (s s' : state) :
  context_event clock order read_only (RemoteChanged id) s = (s', Ok tt) →
  id ∈ remote s' ∧ sc_due_time (mo_context s') = Some (now s) ∧ on_time (now s') s'.
Proof.
  intros Hrun. destruct (context_event_last clock order read_only (RemoteChanged id) s)
    as (s2 & E & _ & ->). rewrite Hrun in E. injection E as ->.
  assert (wakes_by (touch_remote clock id s) (now s)) as Hw by by exists (now s).
  pose proof (clock_mono (mo_clock s)). split_and!; [cbn; set_solver|done|].
  split; [intros _|intros i c _]; (eapply wakes_by_le, Hw); cbn; lia.
Qed.

(** *** Loading the changes *)

Definition unloaded (s : state) : Prop := sc_changes_loaded (mo_context s) = false.
Lemma wait_unloaded X : triple unloaded (wait clock order read_only during) (λ _, unloaded) X.
Proof.
  apply triple_wait; [done|]. intros s s' Hp Hs. unfold unloaded.
  by destruct (prim_tracks_more _ _ _ Hp) as (_ & _ & -> & _).
Qed.
Lemma await_storage_unloaded {A} (m : stM Storage FSExn A) :
  triple unloaded (await_storage clock order read_only during m) (λ _, unloaded) (λ _ _, True).
Proof.
  intros s Hs. unfold await_storage. destruct (target_storage A m (mo_world s)) as [w r].
  pose proof (wait_unloaded (λ _ _, True) (mkMonitorState (mo_context s) w (mo_clock s) (mo_waits s) (mo_synced s)) Hs) as Hw.
  unfold mbind, stM_bind. destruct (wait _ _ _ _ _) as [s2 [x|e]]; [|done]. by destruct r.
Qed.
Lemma poll_changes_unloaded checkpoint :
  triple unloaded (poll_changes clock order read_only during checkpoint) (λ _, unloaded) (λ _ _, True).
Proof.
  intros s Hs. unfold poll_changes. destruct (target_poll checkpoint (mo_world s)) as [w r].
  pose proof (wait_unloaded (λ _ _, True) (mkMonitorState (mo_context s) w (mo_clock s) (mo_waits s) (mo_synced s)) Hs) as Hw.
  unfold mbind, stM_bind. destruct (wait _ _ _ _ _) as [s2 [x|e]]; [|done].
  destruct r as [[|st]| |]; cbn; try done. by case_decide.
Qed.
(** The context that has just loaded its changes wakes up for them. *)
Lemma load_changes_on_time :
  triple unloaded (load_changes clock order read_only during)
    (λ _ s, unloaded s ∨ on_time (now s) s) (λ _ _, True).
Proof.
  unfold load_changes. eapply triple_bind; [apply triple_gets|]. intros [|]; cbv beta.
  { intros s [Hs E]. unfold unloaded in Hs. cbn in E. congruence. }
  eapply (triple_bind _ _ _ (λ _, unloaded)); [by intros s [Hs _]|]. intros x0.
  eapply triple_bind; [apply await_storage_unloaded|]. intros checkpoint.
  eapply triple_bind; [apply poll_changes_unloaded|]. intros [[checkpoint' changes]|].
  2:{ apply triple_ret'. auto. }
  eapply triple_bind; [apply await_storage_unloaded|]. intros x1.
  eapply triple_bind; [apply await_storage_unloaded|]. intros [need_local need_remote].
  eapply (triple_bind _ _ _ (λ _ _, True)); [done|]. intros n.
  eapply (triple_bind _ _ _ (λ _ _, True)); [by destruct read_only|]. intros x2.
  eapply (triple_bind _ _ _ (λ _ _, True)); [done|]. intros x3.
  eapply (triple_bind _ _ _ (λ _ s, on_time (now s) s)).
  { intros s _. destruct (compute_on_time None None (now s) s) as (d & k & -> & Hk & Hot); [done..|].
    eapply on_time_le, Hot. by apply (clock_le clock clock_mono). }
  intros x4. eapply (triple_bind _ _ _ (λ _ s, on_time (now s) s)); [|intros u; apply triple_ret'; auto].
  intros s Hs. exact Hs.
Qed.

(** *** The steps in a context that has loaded its changes *)

(** A step that does not give the entry to the synchronization. *)
Definition waiting_step (id : EntryID) (s s' : state) : Prop :=
  monitor_step s s' ∧ sc_changes_loaded (mo_context s') = true ∧
  ∀ r, mo_synced s' ≠ (id, r) :: mo_synced s.
Lemma waiting_step_first id s s' :
  sc_changes_loaded (mo_context s) = true → waiting_step id s s' → keeps_first id s s'.
Proof.
  intros Hl ([e Hrun|found t Hrun|found t Hrun|Hrun|n Hn ->] & Hl' & Hns).
  - destruct (context_event_last clock order read_only e s) as (s2 & E & Hr & _).
    rewrite Hrun in E. injection E as ->. by apply prims_keep_first.
  - unfold ctx_action, bootstrap in Hrun. rewrite (bind_Ok _ _ s s true) in Hrun.
    + injection Hrun as <- _. done.
    + unfold load_changes, ctx_get, gets, mbind, stM_bind. cbn. by rewrite Hl.
  - pose proof (tick_run s Hl) as Ht. unfold ctx_action in Hrun.
    destruct (run_tick s) as [s1 [x|[|e]]]; [injection Hrun as -> _|done|].
    + destruct (next_entry s) as [[b i]|].
      * destruct Ht as [(Hto & _) _]. apply (to_first _ _ _ _ Hto). right. intros <-.
        eapply Hns, (to_synced _ _ _ _ Hto).
      * by destruct Ht as (_ & _ & _ & Hf & _).
    + destruct found; cbn in Hrun; injection Hrun as <- _; discriminate Hl'.
  - injection Hrun as <-. discriminate Hl'.
  - by apply keeps_first_same.
Qed.
Lemma waiting_steps_first id s s' :
  sc_changes_loaded (mo_context s) = true → rtc (waiting_step id) s s' → keeps_first id s s'.
Proof.
  intros Hl Hr. revert Hl. induction Hr as [|s s1 s' H1 _ IH]; intros Hl; [done|].
  etrans; [by apply waiting_step_first|]. apply IH, H1.
Qed.

(** C33: no change waits for ever. Take any state [s'] that the events and the ticks lead
    to from a new context, in any order, with any answers of the server and with contexts
    that are reset after a crash or a change of role.
    - An entry that was changed locally is due at least one second and at most one
      minute after its first change, and at most one second after the last one.
    - These dates are the real ones: a notification of a local change, for a user who
      may write, dates it with the clock, the first change too for an entry that was not
      changed yet; and while the context has its changes loaded, whatever runs, the date
      of the first change stays until the entry is given to the synchronization.
    - A notification of a remote change makes the context due at once, at the time of
      the clock. Whatever is notified, a context that was to wake up in time for its
      changes is, or it is overdue.
    - A context that has just loaded its changes is due at once if one of them is
      remote, else not later than the first local one. A tick of a context that is due
      leaves it due not later than the time of this tick, or than the first local change
      if no remote change is left; only when the workspace was in maintenance, or could
      not be read, half a minute or a second is added. A tick of a context that is not
      due leaves it as it is. *)
Theorem changes_wake_in_time (s s' : state) :
  mo_context s = new_sync_context → rtc monitor_step s s' →
  (∀ id c, od_get (local s') id = Some c →
     lc_first_changed_on c + MIN_WAIT <= lc_due_time c <= lc_first_changed_on c + MAX_WAIT ∧
     lc_due_time c <= lc_last_changed_on c + MIN_WAIT) ∧
  (sc_changes_loaded (mo_context s') = true → on_time (now s' + MAINTENANCE_MIN_WAIT) s') ∧
  (* the events *)
  (∀ id s2, context_event clock order read_only (LocalChanged id) s' = (s2, Ok tt) →
     read_only = false → just_changed id s' s2) ∧
  (∀ id s2, context_event clock order read_only (RemoteChanged id) s' = (s2, Ok tt) →
     id ∈ remote s2 ∧ sc_due_time (mo_context s2) = Some (now s')) ∧
  (∀ e s2 t, context_event clock order read_only e s' = (s2, Ok tt) →
     on_time t s' → on_time (Z.max t (now s2)) s2) ∧
  (* until the entry is synchronized *)
  (∀ id s2, sc_changes_loaded (mo_context s') = true → rtc (waiting_step id) s' s2 →
     keeps_first id s' s2) ∧
  (* loading *)
  (∀ t s2, sc_changes_loaded (mo_context s') = false →
     bootstrap clock order read_only during s' = (s2, Ok t) →
     sc_changes_loaded (mo_context s2) = true → on_time (now s2) s2) ∧
  (* ticks *)
  (∀ t s2, sc_changes_loaded (mo_context s') = true → now s' ≠ 0 → run_tick s' = (s2, Ok t) →
     if time_leb (sc_due_time (mo_context s')) (Some (now s')) then
       let r := match next_entry s' with
                | Some (b, id) => pause b (target_sync id (mo_world s')).2
                | None => None
                end in
       on_time (now s' + default 0 r) s2
     else mo_context s2 = mo_context s').
Proof.
  intros Hnew Hrun.
  assert (good clock s) as Hs by (apply new_context_good; by exists None).
  destruct (monitor_steps_good _ _ Hs Hrun) as [[_ Hd] Hp]. split_and!.
  - intros id c Hc. destruct (Hd _ _ Hc) as [? ->].
    unfold lc_compute_due_time, MIN_WAIT, MAX_WAIT, seconds. lia.
  - intros Hl. destruct (Hp Hl) as [Hlocal Hremote]. by split.
  - intros id s2. apply local_event_ok.
  - intros id s2 He. destruct (remote_event_ok id s' s2 He) as (? & ? & _). done.
  - intros e s2 t He. destruct (context_event_last clock order read_only e s') as (s3 & E & Hr & _).
    rewrite He in E. injection E as ->. by apply prims_on_time.
  - intros id s2. apply waiting_steps_first.
  - intros t s2 Hl Hb Hl2. unfold bootstrap in Hb.
    pose proof (load_changes_on_time s' Hl) as Hload. unfold mbind, stM_bind in Hb.
    destruct (load_changes _ _ _ _ s') as [s3 [b|e]]; [|done]. injection Hb as <- _.
    destruct Hload as [Hu|Hot]; [|done]. unfold unloaded in Hu. congruence.
  - intros t s2 Hl Hne Htick. pose proof (tick_run s' Hl) as Ht. rewrite Htick in Ht.
    destruct (next_entry s') as [[b id]|] eqn:En.
    + destruct Ht as [(_ & _ & _ & Hot) _]. unfold next_entry in En.
      destruct (time_leb _ _); [|done]. by apply (Hot Hne t).
    + destruct Ht as (_ & _ & _ & _ & Hot). destruct (time_leb _ _); [|done].
      change (on_time (now s' + 0) s2). rewrite Z.add_0_r. by apply Hot.
Qed.

(** C34: a tick of a context that has loaded its changes never forgets one (a tick that
    loads them may: see [load_changes_loses_notification]). It
    does nothing before the context is due or when nothing is due, and else
    synchronizes exactly one entry, once, with the first remote change or else a local
    change that is due; every other change that the context tracked is tracked after
    it, as is every change that is notified while the tick waits for the server; the
    entry itself is tracked again when the server answers that the workspace cannot be
    read, is in maintenance or (for a local change) cannot be written; the tick ends
    with an error exactly when the server could not be reached or when the
    synchronization crashed. *)
Theorem tick_forgets_nothing (s : state) :
  sc_changes_loaded (mo_context s) = true →
  let '(s', x) := run_tick s in
  match next_entry s with
  | None => mo_synced s' = mo_synced s ∧ (∀ b i, tracked b i s → tracked b i s') ∧ ∃ t, x = Ok t
  | Some (b, id) =>
      let r := (target_sync id (mo_world s)).2 in
      took b id s s' ∧ tick_end r x ∧ (retried b r = true → tracked b id s') ∧
      (b = false → ∃ c, (id, c) ∈ local s ∧ lc_due_time c <= now s) ∧
      (b = true → id ∈ remote s)
  end.
Proof.
  intros Hl. pose proof (tick_run s Hl) as Hrun. destruct (run_tick s) as [s' x].
  destruct (next_entry s) as [[b id]|].
  - by destruct Hrun as [(? & ? & ? & _) [? ?]].
  - by destruct Hrun as (? & ? & ? & _).
Qed.
End monitor.

(** ** A context *)

Module Example.
#[export] Instance storage_target : SyncTarget Storage := {
  target_sync id w := (w, if decide (id = 3%N) then Err FSWorkspaceInMaintenance else Ok tt);
  target_poll _ w := (w, NetReply (RepOk (7, ∅)));
  target_storage A m w := m w }.
Definition clock (n : nat) : Z := seconds (100 + Z.of_nat n).
Definition during (n : nat) : list ContextEvent :=
  match n with
  | 2%nat => [RemoteChanged 2]
  | 4%nat => [LocalChanged 5; RemoteChanged 4]
  | _ => []
  end%N.
Definition mo_start : MonitorState Storage :=
  mkMonitorState new_sync_context (mkStorage ∅ ∅ ∅ None ∅ ∅ 0 ∅ 0) 0 0 [].
Abbreviation mo_run m s := (m clock elements false during s).1.
Definition mo_loaded : MonitorState Storage := mo_run (bootstrap (W := Storage)) mo_start.
Definition mo_changed : MonitorState Storage :=
  (context_event clock elements false (RemoteChanged 3%N)
    (context_event clock elements false (LocalChanged 1%N) mo_loaded).1).1.

Lemma clock_mono n : clock n <= clock (S n).
Proof. unfold clock, seconds. lia. Qed.
Lemma order_elements (X : gset EntryID) : elements X ≡ₚ elements X.
Proof. done. Qed.

(** Entry 1 changes, then entry 3 on the server, then entry 1 again: it keeps the date of
    its first change, and the tick, which meets a maintenance, leaves half a minute. *)
Lemma changes_wake_in_time_witness :
  mo_context mo_start = new_sync_context ∧
  on_time (clock (mo_clock mo_changed) + MAINTENANCE_MIN_WAIT) mo_changed ∧
  just_changed clock 1%N mo_changed
    (context_event clock elements false (LocalChanged 1%N) mo_changed).1 ∧
  on_time (clock (mo_clock mo_changed) + MAINTENANCE_MIN_WAIT) (mo_run tick mo_changed).
Proof.
  split; [reflexivity|].
  destruct (changes_wake_in_time clock elements false during clock_mono order_elements
    mo_start mo_changed eq_refl) as (_ & Hot & Hlocal & _ & _ & _ & _ & Htick).
  - eapply rtc_l; [apply (StepBootstrap clock elements false during _ mo_loaded true None)|].
    { vm_compute. reflexivity. }
    eapply rtc_l; [eapply (StepEvent clock elements false during _ _ (LocalChanged 1%N))|].
    { vm_compute. reflexivity. }
    eapply rtc_once, (StepEvent clock elements false during _ _ (RemoteChanged 3%N)).
    vm_compute. reflexivity.
  - split; [exact (Hot eq_refl)|]. split; [apply Hlocal; [vm_compute; reflexivity|reflexivity]|].
    destruct (tick clock elements false during mo_changed) as [s2 [t|e]] eqn:E;
      [|apply (f_equal snd) in E; vm_compute in E; discriminate E].
    specialize (Htick t s2 eq_refl). exact (Htick ltac:(vm_compute; discriminate) eq_refl).
Defined.

Lemma tick_forgets_nothing_witness :
  sc_changes_loaded (mo_context mo_changed) = true ∧
  next_entry clock elements mo_changed = Some (true, 3%N) ∧
  let s' := (tick (W := Storage) clock elements false during mo_changed).1 in
  took false during true 3 mo_changed s' ∧ tracked true 3 s' ∧ tracked false 1 s' ∧ tracked true 4 s'.
Proof.
  pose proof (tick_forgets_nothing clock elements false during clock_mono order_elements
    mo_changed eq_refl) as H.
  assert (next_entry clock elements mo_changed = Some (true, 3%N)) as E by reflexivity.
  rewrite E in H.
  destruct (tick clock elements false during mo_changed) as [s' x]. cbv zeta in H.
  split; [reflexivity|]. split; [reflexivity|]. cbn [fst].
  destruct H as (Ht & _ & Hr & _).
  split; [exact Ht|]. split; [apply Hr; vm_compute; reflexivity|].
  split.
  - apply (to_kept _ _ _ _ _ _ Ht false 1%N); [|intros H; discriminate H].
    vm_compute. left.
  - apply (to_remote _ _ _ _ _ _ Ht 4%N). vm_compute. right. left.
Defined.

(** A notification that comes while the changes are loaded is lost: the sets are
    replaced by what the storage knew. *)
Lemma load_changes_loses_notification :
  RemoteChanged 2%N ∈ during 2 ∧ (mo_waits mo_start <= 2 < mo_waits mo_loaded)%nat ∧
  sc_changes_loaded (mo_context mo_loaded) = true ∧
  sc_remote_changes (mo_context mo_loaded) = ∅ ∧ sc_due_time (mo_context mo_loaded) = None.
Proof. split_and!; [by left|by vm_compute; lia..| | |]; by vm_compute. Qed.
End Example.
