(* ===== verification/UserExample.v ===== *)
(** The clients of two users on the server of [ClientServerExample.v]: Alice has a
    workspace that she shares with Bob. *)

From S2P Require Import Prelude PyString Types ApiManifest Chunk LocalManifest FileOperations.
From S2P Require Import FileContent Storage FileTransactions EntryTransactions SyncTransactions.
From S2P Require Import Merging Backend Certif BackendUser BackendMessage BackendRealm BackendSystem.
From S2P Require Import Trustchain RemoteDevices RemoteLoader ClientServer ClientServerExample.
From S2P Require Import ReencryptionJob WorkspaceFS ReencryptionProperties UserFS.
Import Byte.

(** The requests run the handlers. *)
Definition server_user_cmds `{CertifApi} (now : DateTime) (ctx : ClientCtx) : UserCmds Backend := {|
  cmd_message_get offset := served (api_message_get ctx offset);
  cmd_realm_update_roles certif message := served (api_realm_update_roles now ctx certif (Some message)) |}.

(** The libraries: the certificates and the messages are the ones of the run; a
    message is encrypted by the public key of the recipient in front of it. *)
Definition ue_loader (key : byte) : LoaderApi := {|
  secret_decrypt k c :=
    if bool_decide (take (length k) c = k) then Some (drop (length k) c) else None;
  secret_encrypt k p := Some (k ++ p);
  hash_digest b := b; device_sign := cs_sign key;
  loads_manifest _ := None; dumps_manifest _ := None;
  dumps_realm_role c :=
    if decide (c = mkRealmRoleCertificateContent cs_alice 3 1%N "bob" (Some READER)) then [x0a] else [] |}.
Definition ue_message : SharingMessage := mkSharingMessage cs_alice 3 "w" 1%N 1 0 cs_key.
Definition ue_messages (public_key : bytes) : MessageApi := {|
  private_decrypt c :=
    if bool_decide (take (length public_key) c = public_key) then Some (drop (length public_key) c)
    else None;
  public_encrypt k p := Some (k ++ p);
  loads_message raw :=
    match raw with [x73] => Some (SharingGranted ue_message) | _ => None end;
  dumps_message m :=
    match m with SharingGranted _ => [x73] | _ => [] end |}.

(** Alice: her workspace is synchronized. *)
Definition ue_root : LocalFolderish :=
  {| fd_base := BWorkspace (mkWorkspaceManifest cs_alice 2 1%N 1 0 0 ∅);
     fd_need_sync := false; fd_updated := 0; fd_children := ∅;
     fd_confined_entries := ∅; fd_filtered_entries := ∅ |}.
Definition ue_workspace : LocalWorkspace :=
  mkLocalWorkspace (mkSyncState (mkFTState (mkStorage {[ 1%N := LFolderish ue_root ]} ∅ ∅ None
    ∅ ∅ 0 ∅ 0) ∅ 0 []) []) None None.
Definition ue_manifest : LocalUserManifest :=
  {| lu_base := lu_base (user_new_placeholder cs_alice 98%N 0); lu_need_sync := true; lu_updated := 0;
     lu_last_processed_message := 0; lu_workspaces := [cs_entry] |}.
Definition ue_alice_trustchain : TrustchainContext :=
  (rdm_get_user (H0 := server_cmds 3 cs_alice_ctx) 3 9 "bob" false (cs_trustchain, cs_realm)).1.1.
Definition ue_alice : UserFS Backend :=
  mkUserFS ue_manifest {[ 1%N := ue_workspace ]} cs_realm ue_alice_trustchain 0 0 [].

(** She shares it. *)
Definition ue_order : gset EntryID → list EntryID := elements.
Definition ue_items : gmap EntryName EntryID → odict EntryName EntryID := map_to_list.
Definition ue_fresh (n : nat) : UUID := (N.of_nat n + 7)%N.
Definition ue_open (_ : EntryID) : LocalWorkspace :=
  mkLocalWorkspace (mkSyncState (mkFTState no_storage ∅ 0 []) []) None None.
Definition ue_shared : UserFS Backend :=
  (workspace_share (H0 := ue_loader x41) (H1 := ue_messages [x61]) (H2 := server_cmds 3 cs_alice_ctx)
     (H4 := server_user_cmds 3 cs_alice_ctx) (λ _, 3) 9 9 cs_alice ue_fresh (λ _, false) []
     ue_order ue_items 1%N "bob" (Some READER) ue_alice).1.

(** Bob has just enrolled his device. *)
Definition ue_bob_trustchain : TrustchainContext :=
  (rdm_get_device (H0 := server_cmds 4 cs_bob_ctx) 4 9 cs_alice false
     (cs_trustchain, us_server ue_shared)).1.1.
Definition ue_bob : UserFS Backend :=
  mkUserFS (user_new_placeholder cs_bob 99%N 4) ∅ (us_server ue_shared) ue_bob_trustchain 0 0 [].

Definition ue_bob_certificate : UserCertificateContent :=
  mkUserCertificateContent (Some cs_alice) 1 "bob" (cs_handle "bob") [x62] STANDARD.
Definition ue_alice_device : DeviceCertificateContent :=
  mkDeviceCertificateContent None 0 cs_alice (Some "desk"%string) cs_alice_key.
