(* ===== verification/UserFSProofs.v ===== *)
(** What every operation on the user manifest keeps true: lemmas on the merge and
    the update of the workspaces, and on the operations of [UserFS.v]. *)

From S2P Require Import Prelude Triples Types ApiManifest Chunk LocalManifest FileOperations.
From S2P Require Import FileContent Storage FileTransactions Merging EntryTransactions.
From S2P Require Import SyncTransactions Backend Certif BackendUser BackendMessage BackendRealm.
From S2P Require Import Trustchain RemoteDevices RemoteLoader ReencryptionJob WorkspaceFS UserFS.

(** ** The entries of the workspaces *)

(** No workspace is lost, and no key is older than it was. *)
Definition entries_grow (l l' : list WorkspaceEntry) : Prop :=
  ∀ id w, find_entry l id = Some w →
    ∃ w', find_entry l' id = Some w' ∧ we_encryption_revision w <= we_encryption_revision w'.

#[export] Instance entries_grow_preorder : PreOrder entries_grow.
Proof.
  split.
  - intros l id w Hw. by exists w.
  - intros l1 l2 l3 H12 H23 id w (w2 & H2 & Hle2)%H12. destruct (H23 _ _ H2) as (w3 & H3 & Hle3).
    exists w3. split; [done|lia].
Qed.
Lemma entries_grow_ids l l' : entries_grow l l' → entry_ids l ⊆ entry_ids l'.
Proof.
  intros Hg id. rewrite !entry_ids_elem, <-!find_entry_is_Some. intros [w Hw].
  destruct (Hg _ _ Hw) as (w' & Hw' & _). by exists w'.
Qed.

(** A dict of entries that is made of a list. *)
Lemma od_update_by_id (d : odict EntryID WorkspaceEntry) l :
  (∀ id e, od_get d id = Some e → we_id e = id) →
  ∀ id e, od_get (od_update d ((λ we, (we_id we, we)) <$> l)) id = Some e → we_id e = id.
Proof.
  revert d. induction l as [|w l IH]; cbn; intros d Hd; [done|].
  apply IH. intros id e. rewrite od_get_set_case. case_decide as Hid; [by intros [= <-]|apply Hd].
Qed.
Lemma od_update_keys (d : odict EntryID WorkspaceEntry) l id :
  id ∈ od_keys (od_update d ((λ we, (we_id we, we)) <$> l)) ↔ id ∈ od_keys d ∨ id ∈ we_id <$> l.
Proof.
  revert d. induction l as [|w l IH]; cbn; intros d; [set_solver|].
  change (id ∈ od_keys (od_update (od_set d (we_id w) w) ((λ we, (we_id we, we)) <$> l)) ↔
    id ∈ od_keys d ∨ id ∈ we_id w :: (we_id <$> l)).
  rewrite IH, od_keys_set, elem_of_cons. case_decide; [naive_solver|].
  rewrite elem_of_app, list_elem_of_singleton. tauto.
Qed.

(** [evolve_workspaces] with one entry. *)
Lemma update_workspaces_one l w :
  NoDup (we_id <$> l) →
  NoDup (we_id <$> update_workspaces l [w]) ∧
  ∀ id, find_entry (update_workspaces l [w]) id =
    if decide (id = we_id w) then Some w else find_entry l id.
Proof.
  intros Hl. unfold update_workspaces. cbn [fmap list_fmap].
  set (items := (λ w, (we_id w, w)) <$> l).
  assert (items.*1 = we_id <$> l) as Hkeys by (unfold items; by rewrite <-list_fmap_compose).
  assert (NoDup (od_keys items)) as Hnd by (unfold od_keys; by rewrite Hkeys).
  rewrite (od_update_fresh [] items) by (cbn; by rewrite Hkeys). cbn [app].
  assert (∀ id e, od_get items id = Some e → we_id e = id) as Hid.
  { by intros id e (? & [= -> ->] & _)%od_get_elem%list_elem_of_fmap. }
  change (od_update items [(we_id w, w)]) with (od_set items (we_id w) w).
  destruct (resolved_entries items l) as [_ Hfind]; [done..| |].
  { unfold od_values, items. rewrite <-list_fmap_compose. by rewrite list_fmap_id. }
  destruct (resolved_entries (od_set items (we_id w) w) (od_values (od_set items (we_id w) w)))
    as [Hperm Hget].
  { by apply od_set_NoDup. }
  { intros id e. rewrite od_get_set_case. case_decide as Hd; [by intros [= <-]|apply Hid]. }
  { done. }
  split; [rewrite Hperm; by apply od_set_NoDup|].
  intros id. by rewrite Hget, od_get_set_case, Hfind.
Qed.

(** The merge with a remote manifest, whatever its entries. *)
Lemma merge_workspace_entries_grow base diverged target ws need_sync :
  NoDup (we_id <$> diverged) →
  merge_workspace_entries base diverged target = Ok (ws, need_sync) →
  NoDup (we_id <$> ws) ∧ entry_ids target ⊆ entry_ids ws ∧ entries_grow diverged ws.
Proof.
  intros Hd Hm. unfold merge_workspace_entries in Hm.
  apply result_bind_Ok in Hm as (_ & _ & Hm). apply result_bind_Ok in Hm as (_ & _ & Hm).
  set (items := od_update [] ((λ we, (we_id we, we)) <$> target)) in *.
  assert (NoDup (od_keys items)) as Hnd by (apply od_update_NoDup, NoDup_nil_2).
  assert (∀ id e, od_get items id = Some e → we_id e = id) as Hid by by apply od_update_by_id.
  destruct (merge_entry_loop_ok base diverged items Hd Hnd Hid) as (resolved & E & Hk & Hid' & Hall).
  rewrite E in Hm. cbn in Hm. injection Hm as <- _.
  destruct (resolved_entries resolved (py_sorted name_leb (od_values resolved))) as [Hperm Hget];
    [done|done|apply py_sorted_Permutation|].
  split_and!; [by rewrite Hperm| |].
  - intros id. rewrite !entry_ids_elem, <-!find_entry_is_Some. rewrite Hget. intros Ht.
    assert (is_Some (od_get items id)) as [t Hi].
    { apply od_get_is_Some. unfold items. rewrite od_update_keys. right. by apply find_entry_is_Some. }
    specialize (Hall id). rewrite Hi in Hall. destruct (find_entry diverged id); cbn in Hall; [|eauto].
    destruct Hall as (e' & -> & _). eauto.
  - intros id w Hw. rewrite Hget. specialize (Hall id). rewrite Hw in Hall.
    destruct (od_get items id) as [t|] eqn:Ht; cbn in Hall; [|exists w; split; [done|lia]].
    destruct Hall as (e' & -> & He'). exists e'. split; [done|].
    apply find_entry_Some in Hw as [_ Hw]. apply Hid in Ht.
    destruct (merge_workspace_entry_ok (find_entry base (we_id w)) w t) as (e & Ee & _ & Hrev & _).
    { congruence. }
    { intros e [_ ?]%find_entry_Some. congruence. }
    rewrite Ee in He'. injection He' as <-. lia.
Qed.

(** ** The user manifest *)

(** The manifest of the user, with one entry by workspace, and the ones of the
    server among them. *)
Record manifest_ok (user_manifest_id : EntryID) (m : LocalUserManifest) : Prop := {
  mo_id : um_id (lu_base m) = user_manifest_id;
  mo_nodup : NoDup (we_id <$> lu_workspaces m);
  mo_base : entry_ids (um_workspaces (lu_base m)) ⊆ entry_ids (lu_workspaces m) }.
(** What never goes back. *)
Record manifest_grows (m m' : LocalUserManifest) : Prop := {
  mg_entries : entries_grow (lu_workspaces m) (lu_workspaces m');
  mg_version : lu_base_version m <= lu_base_version m';
  mg_message : lu_last_processed_message m <= lu_last_processed_message m' }.
#[export] Instance manifest_grows_preorder : PreOrder manifest_grows.
Proof.
  split.
  - intros m. constructor; [done|lia..].
  - intros m1 m2 m3 [] []. constructor; [by etrans|lia..].
Qed.

Lemma merge_local_grows id diverged target m :
  manifest_ok id diverged → merge_local_user_manifests diverged target = Ok m →
  manifest_ok id m ∧ manifest_grows diverged m.
Proof.
  intros [Hid Hnd Hbase] Hm. unfold merge_local_user_manifests in Hm.
  apply result_bind_Ok in Hm as (? & Ha & Hm). apply result_bind_Ok in Hm as (? & Hv & Hm).
  apply result_bind_Ok in Hm as (? & _ & Hm).
  apply result_bind_Ok in Hm as ([ws need_sync] & E & [= <-]).
  apply merge_workspace_entries_grow in E as (Hws & Hsub & Hg); [|done].
  unfold py_assert in Ha, Hv. case_bool_decide as Eid; [|done].
  destruct (Z.ltb_spec (lu_base_version diverged) (um_version target)); [|done].
  split; constructor; cbn; [congruence|done|done|done|unfold lu_base_version in *; cbn; lia|lia].
Qed.

Lemma evolve_workspace_grows id now m w :
  manifest_ok id m →
  (∀ old, find_entry (lu_workspaces m) (we_id w) = Some old →
     we_encryption_revision old <= we_encryption_revision w) →
  manifest_ok id (evolve_workspaces_and_mark_updated now m [w]) ∧
  manifest_grows m (evolve_workspaces_and_mark_updated now m [w]).
Proof.
  intros [Hid Hnd Hbase] Hrev. destruct (update_workspaces_one (lu_workspaces m) w Hnd) as [Hnd' Hf].
  assert (entries_grow (lu_workspaces m) (update_workspaces (lu_workspaces m) [w])) as Hg.
  { intros i old Hold. rewrite Hf. case_decide as Hi; [subst i; eauto|]. exists old. split; [done|lia]. }
  split; constructor; cbn; [done|done| |done|unfold lu_base_version; cbn; lia|lia].
  etrans; [done|by apply entries_grow_ids].
Qed.

(** ** The operations that leave the manifest and the workspaces as they are *)

Section frames.
Context {Srv : Type}.
Abbreviation usM := (stM (UserFS Srv) FSExn) (only parsing).

Definition same_manifest (s s' : UserFS Srv) : Prop :=
  us_manifest s' = us_manifest s ∧ us_workspaces s' = us_workspaces s.
Definition frames {A} (m : usM A) : Prop := ∀ s, same_manifest s (m s).1.

Lemma frames_run {A} (m : usM A) s s' r : frames m → m s = (s', r) → same_manifest s s'.
Proof. intros Hm E. specialize (Hm s). by rewrite E in Hm. Qed.
Lemma frames_ret {A} (a : A) : frames (mret a).
Proof. done. Qed.
Lemma frames_throw {A} (e : FSExn) : frames (mthrow e : usM A).
Proof. done. Qed.
Lemma frames_bind {A B} (m : usM A) (f : A → usM B) :
  frames m → (∀ a, frames (f a)) → frames (m ≫= f).
Proof.
  intros Hm Hf s. unfold mbind, stM_bind. specialize (Hm s). destruct (m s) as [s1 [a|e]]; [|done].
  destruct Hm as [E1 E2], (Hf a s1) as [E3 E4]. by split; etrans.
Qed.
Lemma frames_try {A} (m : usM A) (h : FSExn → usM A) :
  frames m → (∀ e, frames (h e)) → frames (try_catch m h).
Proof.
  intros Hm Hh s. unfold try_catch. specialize (Hm s). destruct (m s) as [s1 [a|e]]; [done|].
  destruct Hm as [E1 E2], (Hh e s1) as [E3 E4]. by split; etrans.
Qed.
Lemma frames_fmap {A B} (f : A → B) (m : usM A) : frames m → frames (f <$> m).
Proof.
  intros Hm s. specialize (Hm s). unfold fmap, stM_fmap. by destruct (m s) as [s1 [a|e]].
Qed.
Lemma frames_gets {A} (f : UserFS Srv → A) : frames (gets f).
Proof. done. Qed.
Lemma frames_get : frames get_user_manifest.
Proof. done. Qed.
Lemma frames_raise_if b e : frames (raise_if b e : usM unit).
Proof. unfold raise_if. by destruct b. Qed.
Lemma frames_of_option {A} e (o : option A) : frames (of_option e o : usM A).
Proof. unfold of_option. by destruct o. Qed.
Lemma frames_lift_result {A} (r : result FSExn A) : frames (lift_result r : usM A).
Proof. done. Qed.
Lemma frames_now clock : frames (us_now clock).
Proof. done. Qed.
Lemma frames_draw_id fresh : frames (draw_id fresh).
Proof. done. Qed.
Lemma frames_draw_key fresh_key : frames (draw_key fresh_key).
Proof. done. Qed.
Lemma frames_event e : frames (send_user_event e).
Proof. done. Qed.
Lemma frames_loader {A} (m : stM (Loader Srv) FSExn A) : frames (on_user_loader m).
Proof. intros s. unfold on_user_loader. by destruct (m _) as [l r]. Qed.
Lemma frames_request {A} (cmd : Srv → Srv * net A) : frames (user_request cmd).
Proof. intros s. unfold user_request. by destruct (cmd _) as [srv r]. Qed.
Lemma frames_for_each {A} (f : A → usM unit) l : (∀ x, frames (f x)) → frames (for_each f l).
Proof. intros Hf. induction l; cbn; [done|]. by apply frames_bind. Qed.
End frames.

Create HintDb frames.
#[export] Hint Resolve frames_ret frames_throw frames_gets frames_get frames_raise_if frames_of_option
  frames_lift_result frames_now frames_draw_id frames_draw_key frames_event frames_loader
  frames_request : frames.
Ltac frames :=
  repeat first
    [ solve [auto with frames]
    | match goal with
      | |- frames (mbind _ _) => apply frames_bind; [|intros ?]
      | |- frames (try_catch _ _) => apply frames_try; [|intros ?]
      | |- frames (fmap _ _) => apply frames_fmap
      | |- frames (let _ := _ in _) => cbv zeta
      end
    | case_match ].

Lemma frames_cmd {Srv A} (cmd : Srv → Srv * net (reply A)) : frames (user_cmd cmd).
Proof. unfold user_cmd. frames. Qed.
#[export] Hint Resolve frames_cmd : frames.

Section frames_ops.
Context `{CertifApi, LoaderApi, MessageApi} {Srv : Type}
  `{BackendCmds Srv, MaintenanceCmds Srv, UserCmds Srv}.

Lemma frames_fetch clock fuel id key version :
  frames (fetch_remote_user_manifest clock fuel id key version).
Proof. unfold fetch_remote_user_manifest. frames. Qed.
Lemma frames_detect old_um new_um : frames (detect_and_send_shared_events (Srv := Srv) old_um new_um).
Proof. apply frames_for_each. intros e. apply frames_event. Qed.
Lemma frames_roles clock fuel id realm_id : frames (current_roles_of clock fuel id realm_id).
Proof. unfold current_roles_of. frames. Qed.
Lemma frames_users clock fuel users : frames (retrieve_users clock fuel users).
Proof. induction users as [|u users IH]; cbn; frames. Qed.
Lemma frames_participants clock fuel id role_keys workspace_id :
  frames (retrieve_participants clock fuel id role_keys workspace_id).
Proof. unfold retrieve_participants. frames. apply frames_users. Qed.
Lemma frames_cipher msg users msgs : frames (cipher_for_users (Srv := Srv) msg users msgs).
Proof. revert msgs. induction users as [|u users IH]; cbn; intros msgs; frames. Qed.
Lemma frames_start clock fuel device id role_keys n w now :
  frames (start_reencryption_loop clock fuel device id role_keys n w now).
Proof.
  induction n as [|n IH]; cbn; [apply frames_ret|].
  apply frames_bind; [apply frames_participants|]. intros users.
  apply frames_bind; [apply frames_cipher|]. intros msgs.
  apply frames_bind; [unfold send_start_reencryption_cmd; frames|]. intros []; [apply frames_ret|done].
Qed.
Lemma frames_start_reencryption clock fuel device id fresh_key role_keys workspace_id :
  frames (workspace_start_reencryption clock fuel device id fresh_key role_keys workspace_id).
Proof. unfold workspace_start_reencryption. frames. apply frames_start. Qed.
Lemma frames_previous clock fuel id key n version workspace_id rev :
  frames (previous_entry_loop clock fuel id key n version workspace_id rev).
Proof.
  revert version. induction n as [|n IH]; cbn; intros version; [apply frames_ret|].
  apply frames_bind; [apply frames_fetch|]. intros um. frames.
Qed.
Lemma frames_continue clock fuel id key workspace_id :
  frames (workspace_continue_reencryption clock fuel id key workspace_id).
Proof. unfold workspace_continue_reencryption. frames. all: try apply frames_previous; frames. Qed.
End frames_ops.
#[export] Hint Resolve frames_fetch frames_detect frames_roles frames_start_reencryption
  frames_continue : frames.

(** ** The invariant *)

Section invariant.
Context `{CertifApi, LoaderApi, MessageApi} {Srv : Type}
  `{BackendCmds Srv, MaintenanceCmds Srv, UserCmds Srv}.
Context (clock : nat → DateTime) (fuel depth : nat) (device_id : DeviceID)
  (user_manifest_id : EntryID) (user_manifest_key : SecretKey)
  (fresh : nat → UUID) (fresh_key : nat → SecretKey)
  (open_workspace : EntryID → LocalWorkspace)
  (pattern_match : EntryName → bool) (block_key : SecretKey)
  (order : gset EntryID → list EntryID)
  (items : gmap EntryName EntryID → odict EntryName EntryID).
Abbreviation usM := (stM (UserFS Srv) FSExn) (only parsing).

(** The manifest is right, and each of its workspaces is loaded. *)
Record user_fs_ok (s : UserFS Srv) : Prop := {
  uo_manifest : manifest_ok user_manifest_id (us_manifest s);
  uo_loaded : ∀ id, id ∈ we_id <$> lu_workspaces (us_manifest s) → is_Some (us_workspaces s !! id) }.
Record user_fs_grows (s s' : UserFS Srv) : Prop := {
  ug_manifest : manifest_grows (us_manifest s) (us_manifest s');
  ug_loaded : ∀ id, is_Some (us_workspaces s !! id) → is_Some (us_workspaces s' !! id) }.
#[export] Instance user_fs_grows_preorder : PreOrder user_fs_grows.
Proof.
  split.
  - intros s. by constructor.
  - intros s1 s2 s3 [] []. constructor; [by etrans|auto].
Qed.

(** The state of an operation that began in [s0]; [at_manifest] when it has read
    the manifest [m]. *)
Definition since (s0 s : UserFS Srv) : Prop := user_fs_ok s ∧ user_fs_grows s0 s.
Definition at_manifest (m : LocalUserManifest) (s0 s : UserFS Srv) : Prop :=
  since s0 s ∧ us_manifest s = m.
Definition keeps {A} (m : usM A) : Prop := ∀ s0, triple (since s0) m (λ _, since s0) (λ _, since s0).

Lemma same_since s0 s s' : same_manifest s s' → since s0 s → since s0 s'.
Proof.
  intros [Em Ew] [[Hm Hl] [Hg Hw]]. split; constructor; rewrite ?Em, ?Ew; done.
Qed.
Lemma frames_keeps {A} (m : usM A) : frames m → keeps m.
Proof.
  intros Hm s0 s Hs. specialize (Hm s). destruct (m s) as [s' [a|e]]; by eapply same_since.
Qed.
Lemma frames_at {A} (m : usM A) man s0 :
  frames m → triple (at_manifest man s0) m (λ _, at_manifest man s0) (λ _, since s0).
Proof.
  intros Hm s [Hs Eman]. specialize (Hm s). destruct (m s) as [s' [a|e]]; cbn in Hm.
  - split; [by eapply same_since|]. destruct Hm as [Hm _]. by rewrite Hm.
  - by eapply same_since.
Qed.
Lemma frames_at_bind {A B} (m : usM A) (f : A → usM B) man s0 Q :
  frames m → (∀ a, triple (at_manifest man s0) (f a) Q (λ _, since s0)) →
  triple (at_manifest man s0) (m ≫= f) Q (λ _, since s0).
Proof. intros Hm Hf. eapply triple_bind; [by apply frames_at|done]. Qed.
Lemma user_keeps_bind {A B} (m : usM A) (f : A → usM B) :
  keeps m → (∀ a, keeps (f a)) → keeps (m ≫= f).
Proof. intros Hm Hf s0. eapply triple_bind; [apply Hm|intros a; apply Hf]. Qed.
Lemma keeps_try {A} (m : usM A) (h : FSExn → usM A) :
  keeps m → (∀ e, keeps (h e)) → keeps (try_catch m h).
Proof.
  intros Hm Hh s0 s Hs. unfold try_catch. specialize (Hm s0 s Hs).
  destruct (m s) as [s1 [a|e]]; [done|]. exact (Hh e s0 s1 Hm).
Qed.
(** Reading the manifest. *)
Lemma keeps_get {B} (f : LocalUserManifest → usM B) :
  (∀ man s0, triple (at_manifest man s0) (f man) (λ _, since s0) (λ _, since s0)) →
  keeps (m ← get_user_manifest; f m).
Proof. intros Hf s0 s Hs. exact (Hf (us_manifest s) s0 s (conj Hs eq_refl)). Qed.
Lemma at_keeps {A} man s0 (m : usM A) :
  keeps m → triple (at_manifest man s0) m (λ _, since s0) (λ _, since s0).
Proof. intros Hm. eapply triple_pre; [|apply Hm]. by intros s [? _]. Qed.

(** *** Writing it *)

Lemma load_workspace_loads id :
  ∀ s : UserFS Srv, ∃ ws, load_workspace open_workspace id s = (set_us_workspaces (λ _, ws) s, Ok tt) ∧
    is_Some (ws !! id) ∧ ∀ i, is_Some (us_workspaces s !! i) → is_Some (ws !! i).
Proof.
  intros s. unfold load_workspace, modify, set_us_workspaces.
  eexists. split; [done|]. destruct (us_workspaces s !! id) as [w|] eqn:E; [by eauto|].
  split; [by rewrite lookup_insert_eq|]. intros i Hi.
  destruct (decide (id = i)) as [->|]; [by rewrite lookup_insert_eq|by rewrite lookup_insert_ne].
Qed.
Lemma load_workspaces_load ids :
  ∀ s : UserFS Srv, ∃ ws, for_each (load_workspace open_workspace) ids s
      = (set_us_workspaces (λ _, ws) s, Ok tt) ∧
    (∀ id, id ∈ ids → is_Some (ws !! id)) ∧ ∀ i, is_Some (us_workspaces s !! i) → is_Some (ws !! i).
Proof.
  induction ids as [|id ids IH]; cbn [for_each]; intros s.
  { exists (us_workspaces s). split_and!; [by destruct s|set_solver|done]. }
  destruct (load_workspace_loads id s) as (ws1 & E1 & Hw1 & Hg1).
  destruct (IH (set_us_workspaces (λ _, ws1) s)) as (ws & E & Hw & Hg). cbn in Hg.
  exists ws. rewrite (bind_Ok _ _ _ _ _ E1). split_and!; [exact E| |auto].
  intros i [->|Hi]%elem_of_cons; auto.
Qed.
(** [set_user_manifest] with the manifest of the user. *)
Lemma set_user_manifest_eq man (s : UserFS Srv) :
  um_id (lu_base man) = user_manifest_id →
  ∃ ws, set_user_manifest user_manifest_id open_workspace man s
      = (set_us_manifest man (set_us_workspaces (λ _, ws) s), Ok tt) ∧
    (∀ id, id ∈ we_id <$> lu_workspaces man → is_Some (ws !! id)) ∧
    ∀ i, is_Some (us_workspaces s !! i) → is_Some (ws !! i).
Proof.
  intros Hid. destruct (load_workspaces_load (we_id <$> lu_workspaces man) s) as (ws & E & Hw & Hg).
  exists ws. split_and!; [|done..]. unfold set_user_manifest. rewrite (bind_Ok _ _ _ _ _ E). cbv beta.
  rewrite bool_decide_eq_false_2 by (rewrite Hid; intros Hn; by apply Hn). done.
Qed.
Lemma set_manifest_since man man' s0 :
  (manifest_ok user_manifest_id man →
   manifest_ok user_manifest_id man' ∧ manifest_grows man man') →
  triple (at_manifest man s0) (set_user_manifest user_manifest_id open_workspace man')
    (λ _ s, since s0 s ∧ us_manifest s = man') (λ _, since s0).
Proof.
  intros Hok s [[[Hm Hl] Hgrow] Eman]. rewrite Eman in Hm. destruct (Hok Hm) as [Hm' Hg'].
  destruct (set_user_manifest_eq man' s (mo_id _ _ Hm')) as (ws & -> & Hw & Hg).
  split; [split|done]; [by constructor|]. etrans; [exact Hgrow|].
  constructor; cbn; [by rewrite Eman|done].
Qed.
Lemma set_manifest_bind {B} man man' s0 (f : unit → usM B) :
  (manifest_ok user_manifest_id man →
   manifest_ok user_manifest_id man' ∧ manifest_grows man man') →
  (∀ x, keeps (f x)) →
  triple (at_manifest man s0) (set_user_manifest user_manifest_id open_workspace man' ≫= f)
    (λ _, since s0) (λ _, since s0).
Proof.
  intros Hok Hf. eapply triple_bind; [by apply set_manifest_since|]. intros x.
  eapply triple_pre; [|apply Hf]. by intros s [? _].
Qed.

(** *** The workspaces *)

Lemma workspaces_since s0 s s' :
  (∀ i, is_Some (us_workspaces s !! i) → is_Some (us_workspaces s' !! i)) →
  us_manifest s' = us_manifest s → since s0 s → since s0 s'.
Proof.
  intros Hw Em [[Hm Hl] Hg]. split.
  - constructor; rewrite Em; auto.
  - etrans; [exact Hg|]. constructor; [by rewrite Em|done].
Qed.
Lemma run_workspace_keeps {A} id w (m : stM (WorkspaceFS Srv) FSExn A) : keeps (run_workspace id w m).
Proof.
  intros s0 s Hs. unfold run_workspace. destruct (m _) as [w' r].
  eassert (since s0 _) as Hs'; [|destruct r; exact Hs'].
  apply (workspaces_since _ s); [|done|exact Hs]. cbn. intros i Hi.
  destruct (decide (id = i)) as [->|]; [by rewrite lookup_insert_eq|by rewrite lookup_insert_ne].
Qed.
Lemma on_workspace_keeps {A} id (m : WorkspaceEntry → stM (WorkspaceFS Srv) FSExn A) :
  keeps (on_workspace id m).
Proof.
  apply user_keeps_bind; [apply frames_keeps; unfold get_workspace; frames|]. intros [w e].
  apply run_workspace_keeps.
Qed.
Lemma create_workspace_at id man folder s0 :
  triple (at_manifest man s0) (create_workspace open_workspace id folder)
    (λ _, at_manifest man s0) (λ _, since s0).
Proof.
  intros s [Hs Em]. unfold create_workspace. destruct (on_local _ _) as [ss x]. cbn.
  split; [|done]. apply (workspaces_since _ s); [|done|exact Hs]. cbn. intros i Hi.
  case_match; [done|].
  destruct (decide (id = i)) as [->|]; [by rewrite lookup_insert_eq|by rewrite lookup_insert_ne].
Qed.
Lemma at_get_bind {B} man s0 (f : LocalUserManifest → usM B) Q :
  triple (at_manifest man s0) (f man) Q (λ _, since s0) →
  triple (at_manifest man s0) (m ← get_user_manifest; f m) Q (λ _, since s0).
Proof. intros Hf s Hs. assert (us_manifest s = man) as <- by apply Hs. exact (Hf s Hs). Qed.

(** *** The operations *)

Abbreviation keeps_create name :=
  (workspace_create clock device_id user_manifest_id fresh fresh_key open_workspace name) (only parsing).

Lemma workspace_create_since name s s' r :
  user_fs_ok s → fresh (us_drawn s) ∉ we_id <$> lu_workspaces (us_manifest s) →
  keeps_create name s = (s', r) → since s s'.
Proof.
  intros Hok Hfresh Hr.
  assert (triple (λ s', s' = s) (keeps_create name) (λ _, since s) (λ _, since s)) as Ht.
  2:{ eapply triple_run in Hr; [|exact Ht|done]. by destruct r. }
  assert (since s s) as Hs by by split. unfold workspace_create.
  eapply triple_bind; [apply triple_lift_result; by intros ? ? ->|]. intros ename.
  eapply (triple_bind _ _ _ (λ id s', at_manifest (us_manifest s) s s' ∧ id = fresh (us_drawn s))).
  { intros s1 [-> _]. split; [split; [by apply (same_since s s)|done]|done]. }
  intros id. apply triple_pure. intros ->.
  do 3 (apply frames_at_bind; [auto with frames|]; intros ?). apply at_get_bind.
  apply frames_at_bind; [auto with frames|]. intros now.
  eapply triple_bind; [apply create_workspace_at|]. intros [].
  apply set_manifest_bind.
  - intros Hm. apply evolve_workspace_grows; [done|]. cbn. intros old Hold.
    destruct Hfresh. apply find_entry_is_Some. by eexists.
  - intros x. apply frames_keeps. frames.
Qed.

Lemma workspace_rename_keeps workspace_id name :
  keeps (workspace_rename clock user_manifest_id open_workspace workspace_id name).
Proof.
  apply user_keeps_bind; [auto using frames_keeps with frames|]. intros ename. apply keeps_get. intros man s0.
  eapply triple_bind; [apply triple_of_option; by intros s [? _]|]. intros w. apply triple_pure. intros Hw.
  apply frames_at_bind; [auto with frames|]. intros now. apply set_manifest_bind.
  - intros Hm. apply evolve_workspace_grows; [done|]. cbn. intros old Hold.
    change (find_entry (lu_workspaces man) workspace_id = Some w) in Hw.
    apply find_entry_Some in Hw as Hid. destruct Hid as [_ Hid]. rewrite Hid in Hold.
    rewrite Hw in Hold. injection Hold as <-. lia.
  - intros x. apply frames_keeps. auto with frames.
Qed.

Lemma inbound_sync_keeps :
  keeps (inbound_sync clock fuel user_manifest_id user_manifest_key open_workspace).
Proof.
  apply user_keeps_bind; [auto using frames_keeps with frames|]. intros target. apply keeps_get. intros man s0.
  destruct (_ =? _); [by apply at_keeps, frames_keeps|]. destruct (_ <=? _); [by apply at_keeps, frames_keeps|].
  eapply triple_bind; [apply triple_lift_result; by intros s e [? _]|]. intros merged.
  apply triple_pure. intros Hm. apply set_manifest_bind; [intros; by eapply merge_local_grows|].
  intros x. apply frames_keeps. frames.
Qed.

Lemma sync_placeholders_keeps l :
  keeps (sync_placeholders clock fuel depth device_id fresh pattern_match block_key order items l).
Proof.
  induction l as [|w l IH]; cbn; [by apply frames_keeps|].
  apply user_keeps_bind; [apply on_workspace_keeps|]. intros []; [done|by apply frames_keeps].
Qed.
Lemma outbound_sync_inner_keeps :
  keeps (outbound_sync_inner clock fuel depth device_id user_manifest_id user_manifest_key fresh
    open_workspace pattern_match block_key order items).
Proof.
  apply user_keeps_bind; [auto using frames_keeps with frames|]. intros base.
  destruct (negb _); [by apply frames_keeps|].
  apply user_keeps_bind; [apply frames_keeps; frames|]. intros x.
  apply user_keeps_bind; [apply sync_placeholders_keeps|]. intros []; cbn [negb]; [|by apply frames_keeps].
  apply user_keeps_bind; [auto using frames_keeps with frames|]. intros now.
  do 2 (apply user_keeps_bind; [auto using frames_keeps with frames|]; intros ?).
  apply user_keeps_bind; [apply frames_keeps; frames|]. intros [rep|st].
  2:{ apply frames_keeps. frames. }
  apply keeps_get. intros man s0.
  eapply (triple_bind _ _ _ (λ _, since s0)).
  2:{ intros y. eapply triple_pre; [|apply frames_keeps; frames]. done. }
  destruct (_ <? _).
  - eapply triple_bind; [apply triple_lift_result; by intros s e [? _]|]. intros merged.
    apply triple_pure. intros Hm.
    eapply triple_post; [apply set_manifest_since; intros; by eapply merge_local_grows|].
    by intros y s [? _].
  - by apply at_keeps, frames_keeps.
Qed.
Lemma outbound_sync_keeps n :
  keeps (outbound_sync clock fuel depth device_id user_manifest_id user_manifest_key fresh
    open_workspace pattern_match block_key order items n).
Proof.
  induction n as [|n IH]; cbn; [by apply frames_keeps|].
  apply user_keeps_bind; [apply outbound_sync_inner_keeps|]. intros [[]|]; [by apply frames_keeps| |by apply frames_keeps].
  apply user_keeps_bind; [apply inbound_sync_keeps|]. done.
Qed.
Lemma user_sync_keeps :
  keeps (user_sync clock fuel depth device_id user_manifest_id user_manifest_key fresh
    open_workspace pattern_match block_key order items).
Proof.
  apply user_keeps_bind; [auto using frames_keeps with frames|]. intros man.
  destruct (lu_need_sync man); [apply outbound_sync_keeps|].
  apply user_keeps_bind; [apply inbound_sync_keeps|]. intros x. by apply frames_keeps.
Qed.

Lemma workspace_share_keeps workspace_id recipient role :
  keeps (workspace_share clock fuel depth device_id fresh pattern_match block_key order items
    workspace_id recipient role).
Proof.
  do 3 (apply user_keeps_bind; [auto using frames_keeps with frames|]; intros ?).
  apply user_keeps_bind; [apply on_workspace_keeps|]. intros []; apply frames_keeps; cbn [negb]; frames.
Qed.

Lemma merged_entry_revision d t e :
  merge_workspace_entry None d t = Ok e →
  we_id e = we_id t ∧ we_id d = we_id t ∧
  we_encryption_revision d <= we_encryption_revision e ∧
  we_encryption_revision t <= we_encryption_revision e.
Proof.
  intros He. assert (we_id d = we_id t) as Hid.
  { unfold merge_workspace_entry in He. apply result_bind_Ok in He as (? & Ha & _).
    unfold py_assert in Ha. by case_bool_decide. }
  destruct (merge_workspace_entry_ok None d t Hid) as (e' & E & Hide & Hrev & _); [done|].
  rewrite E in He. injection He as <-. split_and!; [done|done|lia..].
Qed.

Lemma granted_keeps msg :
  keeps (process_message_sharing_granted clock fuel device_id user_manifest_id open_workspace msg).
Proof.
  apply user_keeps_bind; [auto using frames_keeps with frames|]. intros [roles|]; [|by apply frames_keeps].
  do 2 (apply user_keeps_bind; [auto using frames_keeps with frames|]; intros ?). cbv zeta.
  apply keeps_get. intros man s0.
  eapply triple_bind; [apply triple_lift_result; by intros s e [? _]|]. intros w.
  apply triple_pure. intros Hw. apply frames_at_bind; [auto with frames|]. intros now.
  apply set_manifest_bind; [|intros x; apply frames_keeps; frames].
  intros Hm. apply evolve_workspace_grows; [done|]. intros old Hold.
  unfold lu_get_workspace_entry in Hw. fold (find_entry (lu_workspaces man) (sm_id msg)) in Hw.
  destruct (find_entry (lu_workspaces man) (sm_id msg)) as [t|] eqn:Ht.
  - apply merged_entry_revision in Hw as (Hid & Hidt & _ & Hrev). cbn in Hidt.
    rewrite Hid, <-Hidt, Ht in Hold. by injection Hold as <-.
  - injection Hw as <-. cbn in Hold. congruence.
Qed.
Lemma revoked_keeps id :
  keeps (process_message_sharing_revoked clock fuel user_manifest_id open_workspace id).
Proof.
  apply user_keeps_bind; [auto using frames_keeps with frames|]. intros [roles|]; [by apply frames_keeps|].
  apply keeps_get. intros man s0. destruct (lu_get_workspace_entry man id) as [t|] eqn:Ht.
  2:{ by apply at_keeps, frames_keeps. }
  change (find_entry (lu_workspaces man) id = Some t) in Ht.
  apply frames_at_bind; [auto with frames|]. intros now.
  eapply triple_bind; [apply triple_lift_result; by intros s e [? _]|]. intros w.
  apply triple_pure. intros Hw. case_decide; [by apply at_keeps, frames_keeps|].
  apply frames_at_bind; [auto with frames|]. intros now'.
  apply set_manifest_bind; [|intros x; apply frames_keeps; frames].
  intros Hm. apply evolve_workspace_grows; [done|]. intros old Hold.
  apply merged_entry_revision in Hw as (Hid & Hidt & Hrev & _). cbn in Hid.
  apply find_entry_Some in Ht as Hi. destruct Hi as [_ Hi].
  rewrite Hid, Hi, Ht in Hold. by injection Hold as <-.
Qed.
Lemma process_message_keeps sender ts ciphered :
  keeps (process_message clock fuel device_id user_manifest_id open_workspace sender ts ciphered).
Proof.
  do 3 (apply user_keeps_bind; [auto using frames_keeps with frames|]; intros ?).
  case_match; [apply granted_keeps|apply granted_keeps|apply revoked_keeps|].
  apply frames_keeps. auto with frames.
Qed.
Lemma process_messages_keeps last messages :
  keeps (process_messages clock fuel device_id user_manifest_id open_workspace last messages).
Proof.
  revert last. induction messages as [|msg messages IH]; cbn; intros last; [by apply frames_keeps|].
  apply user_keeps_bind.
  - apply keeps_try; [|intros e; apply frames_keeps; frames].
    apply user_keeps_bind; [apply process_message_keeps|]. intros x. by apply frames_keeps.
  - intros [e|]; [|apply IH]. apply user_keeps_bind; [apply IH|]. intros [l errors]. by apply frames_keeps.
Qed.
Lemma process_last_messages_keeps :
  keeps (process_last_messages clock fuel device_id user_manifest_id open_workspace).
Proof.
  do 2 (apply user_keeps_bind; [auto using frames_keeps with frames|]; intros ?).
  case_match; [|apply frames_keeps; frames].
  apply user_keeps_bind; [apply process_messages_keeps|]. intros [last errors]. apply keeps_get. intros man s0.
  eapply (triple_bind _ _ _ (λ _, since s0)).
  2:{ intros y. eapply triple_pre; [|by apply frames_keeps]. done. }
  destruct (Z.ltb_spec (lu_last_processed_message man) last); [|by apply at_keeps, frames_keeps].
  apply frames_at_bind; [auto with frames|]. intros now.
  apply set_manifest_bind; [|intros x; apply frames_keeps; auto with frames].
  intros [Hid Hnd Hb]. split; constructor; cbn; [done..|unfold lu_base_version; cbn; lia|lia].
Qed.

(** *** Any operation *)

(** What the user, the monitors and the rest of the world do: the server and the
    trustchain may change at any time. A new workspace has an id of its own. *)
Inductive user_step (s s' : UserFS Srv) : Prop :=
  | StepWorkspaceCreate name r :
      fresh (us_drawn s) ∉ we_id <$> lu_workspaces (us_manifest s) →
      workspace_create clock device_id user_manifest_id fresh fresh_key open_workspace name s = (s', r) →
      user_step s s'
  | StepWorkspaceRename id name r :
      workspace_rename clock user_manifest_id open_workspace id name s = (s', r) → user_step s s'
  | StepSync r :
      user_sync clock fuel depth device_id user_manifest_id user_manifest_key fresh open_workspace
        pattern_match block_key order items s = (s', r) → user_step s s'
  | StepWorkspaceShare id recipient role r :
      workspace_share clock fuel depth device_id fresh pattern_match block_key order items
        id recipient role s = (s', r) → user_step s s'
  | StepProcessMessages r :
      process_last_messages clock fuel device_id user_manifest_id open_workspace s = (s', r) →
      user_step s s'
  | StepStartReencryption id role_keys r :
      workspace_start_reencryption clock fuel device_id user_manifest_id fresh_key role_keys id s
        = (s', r) → user_step s s'
  | StepContinueReencryption id r :
      workspace_continue_reencryption clock fuel user_manifest_id user_manifest_key id s = (s', r) →
      user_step s s'
  | StepWorkspace A id (m : WorkspaceEntry → stM (WorkspaceFS Srv) FSExn A) r :
      on_workspace id m s = (s', r) → user_step s s'
  | StepWorld srv trustchain : s' = set_us_remote srv trustchain s → user_step s s'.

Lemma keeps_run {A} (m : usM A) s s' r : keeps m → user_fs_ok s → m s = (s', r) → since s s'.
Proof.
  intros Hm Hs E. assert (since s s) as Hss by by split.
  pose proof (triple_run _ _ _ _ _ _ _ (Hm s) Hss E). by destruct r.
Qed.
Lemma user_step_since s s' : user_fs_ok s → user_step s s' → since s s'.
Proof.
  intros Hs [name r Hf E|id name r E|r E|id u role r E|r E|id rk r E|id r E|A id m r E|srv tc ->].
  - by eapply workspace_create_since.
  - by eapply keeps_run; [apply workspace_rename_keeps| |].
  - by eapply keeps_run; [apply user_sync_keeps| |].
  - by eapply keeps_run; [apply workspace_share_keeps| |].
  - by eapply keeps_run; [apply process_last_messages_keeps| |].
  - by eapply keeps_run; [apply frames_keeps, frames_start_reencryption| |].
  - by eapply keeps_run; [apply frames_keeps, frames_continue| |].
  - by eapply keeps_run; [apply on_workspace_keeps| |].
  - by apply (same_since s s).
Qed.
End invariant.
