(* ===== verification/UserFSProperties.v ===== *)
(** The theorems on the workspaces of a user. *)

From S2P Require Import Prelude Triples PyString Types ApiManifest Chunk LocalManifest.
From S2P Require Import FileOperations FileContent Storage FileTransactions Merging.
From S2P Require Import EntryTransactions SyncTransactions Backend Certif BackendUser.
From S2P Require Import BackendMessage BackendRealm BlockStore BackendBlock BackendOrganization.
From S2P Require Import BackendSystem BackendVlob BackendVlobProofs BackendRealmSpec BackendGrowth.
From S2P Require Import Trustchain TrustchainProperties RemoteDevices RemoteLoader.
From S2P Require Import RemoteLoaderProofs ClientServer ClientServerExample ReencryptionJob.
From S2P Require Import WorkspaceFS ReencryptionProperties UserFS UserExample UserFSProofs.

Import Byte.

(** ** The invariant *)

Section invariant.
Context `{CertifApi, LoaderApi, MessageApi} {Srv : Type}
  `{BackendCmds Srv, MaintenanceCmds Srv, UserCmds Srv}.
Context (clock : nat → DateTime) (fuel depth : nat) (device_id : DeviceID)
  (user_manifest_id : EntryID) (user_manifest_key : SecretKey)
  (fresh : nat → UUID) (fresh_key : nat → SecretKey)
  (open_workspace : EntryID → LocalWorkspace)
  (pattern_match : EntryName → bool) (block_key : SecretKey)
  (order : gset EntryID → list EntryID)
  (items : gmap EntryName EntryID → odict EntryName EntryID).
Abbreviation step := (user_step clock fuel depth device_id user_manifest_id user_manifest_key fresh
  fresh_key open_workspace pattern_match block_key order items).

(** C16: whatever the user and the monitors do, in any order and with any answers of
    the server, errors included, the user manifest has one entry by workspace, all
    the workspaces of its remote version, and each of its workspaces is loaded, the
    "Guarantees" that [userfs.py] states; and nothing goes back: no workspace is
    lost, no key is replaced by one of an older revision, no message is processed
    twice, the version of the server that is known only grows. *)
Theorem user_fs_invariant (s s' : UserFS Srv) :
  user_fs_ok user_manifest_id s → rtc step s s' →
  user_fs_ok user_manifest_id s' ∧ user_fs_grows s s'.
Proof.
  intros Hs Hr. revert Hs. induction Hr as [s|s s1 s' H12 Hr IH]; intros Hs; [by split|].
  eapply user_step_since in H12 as [Hs1 Hg1]; [|done].
  destruct (IH Hs1) as [Hs' Hg]. split; [done|by etrans].
Qed.

(** The state of a user that has just been created, or that enrolls a new device:
    [UserStorage._load_user_manifest] makes a placeholder. *)
Definition user_fs_start (now : DateTime) (srv : Srv) (trustchain : TrustchainContext) : UserFS Srv :=
  mkUserFS (user_new_placeholder device_id user_manifest_id now) ∅ srv trustchain 0 0 [].
Lemma user_fs_start_ok now srv trustchain :
  user_fs_ok user_manifest_id (user_fs_start now srv trustchain).
Proof. constructor; [constructor; [done|constructor|done]|]. cbn. set_solver. Qed.
End invariant.

(** ** What a message may change *)

Section messages.
Context `{CertifApi, LoaderApi, MessageApi} {Srv : Type}
  `{BackendCmds Srv, MaintenanceCmds Srv, UserCmds Srv}.
Context (verify_message : ∀ key signed raw,
  key_verify key signed = Some raw → raw = unsecure_unwrap signed).
Context (root : VerifyKey).
Context (clock : nat → DateTime) (fuel : nat) (device_id : DeviceID)
  (user_manifest_id : EntryID) (open_workspace : EntryID → LocalWorkspace).

Definition user_trust (s : UserFS Srv) : Prop := trust_ok root (us_trustchain s).

(** A state whose trustchain is right, where the manifest is [man]. *)
Definition trusted_with (man : LocalUserManifest) (s : UserFS Srv) : Prop :=
  user_trust s ∧ us_manifest s = man.
Abbreviation usM := (stM (UserFS Srv) FSExn) (only parsing).

Lemma on_user_loader_ok {A} (m : stM (Loader Srv) FSExn A) (Q : A → Prop) man :
  triple (loader_ok root) m (λ a s, loader_ok root s ∧ Q a) (λ _, loader_ok root) →
  triple (trusted_with man) (on_user_loader m) (λ a s, trusted_with man s ∧ Q a)
    (λ _, trusted_with man).
Proof.
  intros Hm s [Ht Eman]. unfold on_user_loader.
  specialize (Hm (mkLoader (us_server s) (us_trustchain s) no_storage None None)).
  destruct (m _) as [l [a|e]].
  - destruct Hm as [[Hl _] Ha]; [by split|]. by split.
  - destruct Hm as [Hl _]; [by split|]. by split.
Qed.
Lemma trusted_bind {A B} (m : usM A) (f : A → usM B) man Q :
  (∀ s, trusted_with man s → trusted_with man (m s).1) →
  (∀ a, triple (trusted_with man) (f a) Q (λ _, trusted_with man)) →
  triple (trusted_with man) (m ≫= f) Q (λ _, trusted_with man).
Proof.
  intros Hm Hf. eapply triple_bind; [|exact Hf]. intros s Hs. specialize (Hm s Hs). by destruct (m s) as [? [|]].
Qed.
Lemma current_roles_of_ok realm_id man :
  triple (trusted_with man) (current_roles_of clock fuel user_manifest_id realm_id)
    (λ o s, trusted_with man s ∧ ∀ roles, o = Some roles → ∃ certifs, role_history root certifs roles)
    (λ _, trusted_with man).
Proof.
  apply trusted_bind; [done|]. intros now s Hs. unfold try_catch.
  pose proof (on_user_loader_ok (load_realm_current_roles now fuel user_manifest_id (Some realm_id))
    (λ roles, ∃ certifs, role_history root certifs roles) man) as Hl.
  specialize (Hl (ltac:(
    eapply triple_bind; [apply (load_realm_roles_ok verify_message)|];
    intros [certifs roles]; apply triple_ret'; intros s1 [Hs1 Hh]; split; [done|by exists certifs])) s Hs).
  unfold mbind, stM_bind. destruct (on_user_loader _ s) as [s1 [roles|e]].
  - cbn. destruct Hl as [? Hl]. split; [done|]. by intros ? [= <-].
  - destruct (is_no_access e); cbn; [|done]. split; [done|]. by intros ? [=].
Qed.

(** What a message makes of the entry of its workspace; [now] is the time at which
    it was read. *)
Definition granted_entry (roles : gmap UserID RealmRole) (now : DateTime) (m : SharingMessage)
    (old : option WorkspaceEntry) (e : WorkspaceEntry) : Prop :=
  let role := roles !! user_id device_id in
  match old with
  | None => e = mkWorkspaceEntry (sm_name m) (sm_id m) (sm_key m) (sm_encryption_revision m)
                  (sm_encrypted_on m) now role
  | Some old =>
      we_id e = sm_id m ∧ we_name e = we_name old ∧
      we_encryption_revision e = Z.max (sm_encryption_revision m) (we_encryption_revision old) ∧
      we_key e = (if sm_encryption_revision m <? we_encryption_revision old then we_key old
                  else sm_key m) ∧
      we_role e = (if now <? we_role_cached_on old then we_role old else role)
  end.
Definition revoked_entry (now : DateTime) (old e : WorkspaceEntry) : Prop :=
  we_id e = we_id old ∧ we_name e = we_name old ∧
  we_encryption_revision e = we_encryption_revision old ∧ we_key e = we_key old ∧
  we_role e = (if we_role_cached_on old <? now then None else we_role old).
(** The change of one entry. *)
Definition entry_becomes (man man' : LocalUserManifest) (id : EntryID)
    (P : option WorkspaceEntry → WorkspaceEntry → Prop) : Prop :=
  (∃ e, find_entry (lu_workspaces man') id = Some e ∧ P (find_entry (lu_workspaces man) id) e) ∧
  (∀ i, i ≠ id → find_entry (lu_workspaces man') i = find_entry (lu_workspaces man) i) ∧
  lu_base man' = lu_base man ∧ lu_last_processed_message man' = lu_last_processed_message man.
(** What the content of a message justifies. *)
Definition message_justifies (msg : MessageContent) (man man' : LocalUserManifest) : Prop :=
  match msg with
  | SharingGranted m | SharingReencrypted m =>
      ∃ certifs roles now, role_history root certifs roles ∧
        (roles !! user_id (sm_author m) = Some OWNER ∨ roles !! user_id (sm_author m) = Some MANAGER) ∧
        entry_becomes man man' (sm_id m) (granted_entry roles now m)
  | SharingRevoked _ _ id =>
      ∃ now, entry_becomes man man' id (λ old e, ∃ o, old = Some o ∧ revoked_entry now o e)
  | Ping _ _ _ => False
  end.

Lemma merge_granted roles now m old e :
  merge_workspace_entry None (mkWorkspaceEntry (sm_name m) (sm_id m) (sm_key m)
    (sm_encryption_revision m) (sm_encrypted_on m) now (roles !! user_id device_id)) old = Ok e →
  granted_entry roles now m (Some old) e ∧ we_id e = we_id old.
Proof.
  intros He. apply merged_entry_revision in He as Hid. destruct Hid as (Hid & Hidm & _). cbn in Hidm.
  unfold merge_workspace_entry in He.
  apply result_bind_Ok in He as (_ & _ & He). apply result_bind_Ok in He as (_ & _ & He). cbn in He.
  split; [|done]. unfold granted_entry.
  destruct (Z.ltb_spec (sm_encryption_revision m) (we_encryption_revision old)),
    (decide (we_role old = roles !! user_id device_id)) as [Hr|Hr],
    (Z.ltb_spec now (we_role_cached_on old)); injection He as <-; cbn; split_and!; congruence || lia.
Qed.
Lemma merge_revoked now old e :
  merge_workspace_entry None old (we_revoke now old) = Ok e → revoked_entry now old e.
Proof.
  unfold merge_workspace_entry. cbn. rewrite bool_decide_eq_true_2 by done. cbn.
  rewrite Z.ltb_irrefl. unfold revoked_entry.
  destruct (decide (None = we_role old)) as [Hr|Hr], (Z.ltb_spec (we_role_cached_on old) now);
    intros [= <-]; cbn; split_and!; congruence.
Qed.

Lemma set_manifest_trusted man man' :
  triple (trusted_with man) (set_user_manifest user_manifest_id open_workspace man')
    (λ _, trusted_with man') (λ _, trusted_with man).
Proof.
  intros s [Ht Eman]. unfold set_user_manifest.
  destruct (load_workspaces_load open_workspace (we_id <$> lu_workspaces man') s) as (ws & E & _).
  rewrite (bind_Ok _ _ _ _ _ E). cbv beta. by case_bool_decide.
Qed.
(** The manifest is written, then events are sent. *)
Lemma write_then {B} man man' (f : unit → usM B) (P : LocalUserManifest → Prop) :
  P man' → (∀ x s, us_trustchain (f x s).1 = us_trustchain s ∧ us_manifest (f x s).1 = us_manifest s) →
  triple (trusted_with man) (set_user_manifest user_manifest_id open_workspace man' ≫= f)
    (λ _ s, user_trust s ∧ (us_manifest s = man ∨ P (us_manifest s)))
    (λ _ s, user_trust s ∧ (us_manifest s = man ∨ P (us_manifest s))).
Proof.
  intros HP Hf. eapply triple_bind.
  - eapply triple_conseq; [| | |apply set_manifest_trusted]; [done|intros a s Hs; exact Hs|].
    cbv beta. intros e s [? ?]. auto.
  - intros x s [Ht Em]. destruct (Hf x s) as [E1 E2]. unfold user_trust in *.
    destruct (f x s) as [s1 [|]]; cbn in *; rewrite E1, E2, Em; auto.
Qed.
Lemma trusted_kept man (P : LocalUserManifest → Prop) s :
  trusted_with man s → user_trust s ∧ (us_manifest s = man ∨ P (us_manifest s)).
Proof. intros [? ?]. auto. Qed.

Lemma entry_becomes_one now man w id P :
  NoDup (we_id <$> lu_workspaces man) → we_id w = id → P (find_entry (lu_workspaces man) id) w →
  entry_becomes man (evolve_workspaces_and_mark_updated now man [w]) id P.
Proof.
  intros Hnd Hid HP. destruct (update_workspaces_one _ w Hnd) as [_ Hf].
  split_and!; [|intros i Hi; cbn; by rewrite Hf, decide_False by congruence|done..].
  exists w. split; [|done]. cbn. by rewrite Hf, decide_True.
Qed.

Abbreviation changed man P := (λ s : UserFS Srv, user_trust s ∧ (us_manifest s = man ∨ P (us_manifest s)))
  (only parsing).

Lemma trusted_seq {A B} (m : usM A) (f : A → usM B) man (R : A → Prop) (P : LocalUserManifest → Prop) :
  triple (trusted_with man) m (λ a s, trusted_with man s ∧ R a) (λ _, trusted_with man) →
  (∀ a, R a → triple (trusted_with man) (f a) (λ _, changed man P) (λ _, changed man P)) →
  triple (trusted_with man) (m ≫= f) (λ _, changed man P) (λ _, changed man P).
Proof.
  intros Hm Hf. eapply triple_bind.
  - eapply triple_conseq; [| | |exact Hm]; [done|intros a s Hs; exact Hs|].
    cbv beta. intros e s [? ?]. auto.
  - intros a. apply triple_pure. apply Hf.
Qed.
Lemma trusted_ret {A} (a : A) man P : triple (trusted_with man) (mret a : usM A) (λ _, changed man P) (λ _, changed man P).
Proof. apply triple_ret'. intros s [? ?]. auto. Qed.
Lemma trusted_now man :
  triple (trusted_with man) (us_now clock) (λ a s, trusted_with man s ∧ True) (λ _, trusted_with man).
Proof. by intros s Hs. Qed.
Lemma trusted_get {B} man (f : LocalUserManifest → usM B) Q X :
  triple (trusted_with man) (f man) Q X →
  triple (trusted_with man) (m ← get_user_manifest; f m) Q X.
Proof. intros Hf s Hs. assert (us_manifest s = man) as <- by apply Hs. exact (Hf s Hs). Qed.
Lemma trusted_lift {A} (r : result FSExn A) man :
  triple (trusted_with man) (lift_result r) (λ a s, trusted_with man s ∧ r = Ok a) (λ _, trusted_with man).
Proof. by apply triple_lift_result. Qed.

Lemma granted_justified msg man :
  NoDup (we_id <$> lu_workspaces man) →
  let P := message_justifies (SharingGranted msg) man in
  triple (trusted_with man)
    (process_message_sharing_granted clock fuel device_id user_manifest_id open_workspace msg)
    (λ _, changed man P) (λ _, changed man P).
Proof.
  intros Hnd P. eapply trusted_seq; [apply current_roles_of_ok|].
  intros [roles|] Hroles; [|apply trusted_ret]. destruct (Hroles roles eq_refl) as [certifs Hh].
  eapply trusted_seq; [by apply triple_raise_if|]. cbv beta. intros _ Hauth%negb_false_iff.
  eapply trusted_seq; [apply trusted_now|]. intros now _. cbv zeta. apply trusted_get.
  set (old := lu_get_workspace_entry man (sm_id msg)).
  eapply trusted_seq; [apply trusted_lift|]. cbv beta. intros w Hw.
  eapply trusted_seq; [apply trusted_now|]. intros now' _. apply write_then.
  - exists certifs, roles, now. split_and!; [done| |].
    { apply role_in_spec in Hauth as (role & Hrole & Hin). rewrite Hrole. set_solver. }
    change old with (find_entry (lu_workspaces man) (sm_id msg)) in Hw.
    apply entry_becomes_one; [done| |]; revert Hw;
      destruct (find_entry _ (sm_id msg)) as [t|] eqn:Ht; [|by intros [= <-]| |by intros [= <-]].
    + intros [_ ->]%merge_granted. by apply find_entry_Some in Ht as [_ ?].
    + by intros [? _]%merge_granted.
  - intros _ s1. by destruct old.
Qed.

Lemma revoked_justified author ts id man :
  NoDup (we_id <$> lu_workspaces man) →
  let P := message_justifies (SharingRevoked author ts id) man in
  triple (trusted_with man)
    (process_message_sharing_revoked clock fuel user_manifest_id open_workspace id)
    (λ _, changed man P) (λ _, changed man P).
Proof.
  intros Hnd P. eapply trusted_seq; [apply current_roles_of_ok|].
  intros [roles|] _; [apply trusted_ret|].
  apply trusted_get. destruct (lu_get_workspace_entry man id) as [old|] eqn:Hold; [|apply trusted_ret].
  change (find_entry (lu_workspaces man) id = Some old) in Hold.
  eapply trusted_seq; [apply trusted_now|].
  intros now _. eapply trusted_seq; [apply trusted_lift|]. cbv beta. intros w Hw%merge_revoked.
  case_decide; [apply trusted_ret|].
  eapply trusted_seq; [apply trusted_now|]. intros now' _. apply write_then; [|done].
  exists now. apply entry_becomes_one; [done| |exists old; by rewrite Hold].
  destruct Hw as [-> _]. by apply find_entry_Some in Hold as [_ ?].
Qed.

(** C17: no message can forge an access: the user manifest only changes for a message
    that is decrypted with the private key of the user and signed by a device at
    the end of a chain of signatures from the root key, by the sender and at the
    date that the server says; the workspace of a sharing, or of a new key, must
    have a right history of roles in which the author is an owner or a manager.
    Then only the entry of that workspace changes: the role is the one of this
    history, the key is not replaced by one of an older revision, the name that the
    user gave is kept; and a revocation only takes the role away. *)
Theorem message_changes_justified sender expected_timestamp ciphered (s s' : UserFS Srv) r :
  user_trust s → NoDup (we_id <$> lu_workspaces (us_manifest s)) →
  process_message clock fuel device_id user_manifest_id open_workspace sender expected_timestamp
    ciphered s = (s', r) →
  user_trust s' ∧
  (us_manifest s' = us_manifest s ∨
   ∃ d msg, signed_device root d ∧ dc_device_id d = sender ∧
     decrypt_verify_and_load_for ciphered (dc_verify_key d) sender expected_timestamp = Ok msg ∧
     msg_author msg = sender ∧ msg_timestamp msg = expected_timestamp ∧
     message_justifies msg (us_manifest s) (us_manifest s')).
Proof.
  intros Ht Hnd Hr. set (man := us_manifest s) in *.
  set (P := λ man', ∃ d msg, signed_device root d ∧ dc_device_id d = sender ∧
     decrypt_verify_and_load_for ciphered (dc_verify_key d) sender expected_timestamp = Ok msg ∧
     msg_author msg = sender ∧ msg_timestamp msg = expected_timestamp ∧ message_justifies msg man man').
  assert (triple (trusted_with man) (process_message clock fuel device_id user_manifest_id
    open_workspace sender expected_timestamp ciphered) (λ _, changed man P) (λ _, changed man P)) as Htr.
  2:{ apply (triple_run _ _ _ _ _ _ _ Htr) in Hr; [by destruct r|done]. }
  eapply trusted_seq; [apply trusted_now|]. intros now _.
  eapply trusted_seq.
  { apply (on_user_loader_ok _ (λ d, dc_device_id d = sender ∧ signed_device root d)).
    apply (rl_get_device_ok verify_message). }
  intros d [Hid Hd]. eapply trusted_seq; [apply trusted_lift|]. cbv beta. intros msg Hmsg.
  destruct (decrypt_verify_and_load_for _ _ _ _) as [msg'|] eqn:Hm; [|done]. injection Hmsg as ->.
  assert (msg_author msg = sender ∧ msg_timestamp msg = expected_timestamp) as [Hau Hts].
  { unfold decrypt_verify_and_load_for in Hm. destruct (private_decrypt ciphered); [|done].
    apply verify_and_load_Ok in Hm as (raw & _ & _ & Ha & Hts). split; [by injection Ha|by apply Hts]. }
  assert (∀ (m : usM unit), triple (trusted_with man) m
      (λ _, changed man (message_justifies msg man)) (λ _, changed man (message_justifies msg man)) →
    triple (trusted_with man) m (λ _, changed man P) (λ _, changed man P)) as Hweak.
  { intros m. apply triple_conseq; [done|..]; cbv beta; intros a s1 [? [?|Hj]]; (split; [done|]);
      [by left|right; by exists d, msg|by left|right; by exists d, msg]. }
  destruct msg as [m|m|author ts id|author ts ping]; apply Hweak.
  - by apply granted_justified.
  - by apply granted_justified.
  - by apply revoked_justified.
  - intros s1 [Hs1 Em]. cbn. auto.
Qed.
End messages.

(** ** Witnesses *)

#[local] Instance ue_bob_loader : LoaderApi := ue_loader x42.
#[local] Instance ue_bob_messages : MessageApi := ue_messages [x62].

(** Bob reads the message of Alice, then makes a workspace of his own. *)
Definition ue_read : UserFS Backend :=
  (process_last_messages (H2 := server_cmds 4 cs_bob_ctx) (H4 := server_user_cmds 4 cs_bob_ctx)
     (λ _, 4) 9 cs_bob 99%N ue_open ue_bob).1.
Definition ue_created : UserFS Backend :=
  (workspace_create (λ _, 4) cs_bob 99%N ue_fresh (λ _, []) ue_open "mine" ue_read).1.
Lemma user_fs_invariant_witness :
  user_fs_ok 99%N ue_created ∧ user_fs_grows ue_bob ue_created ∧
  (we_id <$> lu_workspaces (us_manifest ue_created)) = [1%N; 7%N].
Proof.
  destruct (user_fs_invariant (H2 := server_cmds 4 cs_bob_ctx) (H3 := server_maintenance 4 cs_bob_ctx)
    (H4 := server_user_cmds 4 cs_bob_ctx) (λ _, 4) 9 9 cs_bob 99%N [] ue_fresh (λ _, []) ue_open
    (λ _, false) [] ue_order ue_items ue_bob ue_created) as [Hok Hgrows].
  - apply user_fs_start_ok.
  - eapply rtc_l; [|apply rtc_once].
    + eapply (StepProcessMessages _ _ _ _ _ _ _ _ _ _ _ _ _ ue_bob ue_read). apply surjective_pairing.
    + eapply (StepWorkspaceCreate _ _ _ _ _ _ _ _ _ _ _ _ _ ue_read ue_created "mine");
        [|apply surjective_pairing].
      vm_compute. by intros [[=]|[]%not_elem_of_nil]%elem_of_cons.
  - split; [exact Hok|]. split; [exact Hgrows|]. vm_compute. reflexivity.
Defined.

Lemma ue_bob_trusted : user_trust cs_root_key ue_bob.
Proof.
  assert (rdm_ok cs_root_key (cs_trustchain, us_server ue_shared)) as Hstart.
  { split; [reflexivity|]. split_and!; intros k t a; cbn; intros Hk; by apply lookup_empty_Some in Hk. }
  pose proof (rdm_get_device_ok (H1 := server_cmds 4 cs_bob_ctx) cs_message cs_root_key 4 9 cs_alice
    false _ Hstart) as Hd.
  unfold user_trust, ue_bob. cbn [us_trustchain]. unfold ue_bob_trustchain.
  destruct (rdm_get_device _ _ _ _ _) as [s' [d|e]]; [apply Hd|exact Hd].
Qed.
Lemma message_changes_justified_witness :
  ∃ body s' d msg, messages_of (us_server ue_bob) "org" "bob" = [(cs_alice, 3, body)] ∧
    process_message (H2 := server_cmds 4 cs_bob_ctx) (λ _, 4) 9 cs_bob 99%N ue_open cs_alice 3 body
      ue_bob = (s', Ok tt) ∧
    signed_device cs_root_key d ∧ dc_device_id d = cs_alice ∧
    message_justifies cs_root_key cs_bob msg (us_manifest ue_bob) (us_manifest s').
Proof.
  set (body := x62 :: cs_sign x41 [x73]).
  destruct (process_message (H2 := server_cmds 4 cs_bob_ctx) (λ _, 4) 9 cs_bob 99%N ue_open cs_alice 3
    body ue_bob) as [s' r] eqn:E.
  assert (r = Ok tt) as ->.
  { change r with ((s', r).2). rewrite <-E. vm_compute. reflexivity. }
  destruct (message_changes_justified (H2 := server_cmds 4 cs_bob_ctx) cs_message cs_root_key (λ _, 4) 9
    cs_bob 99%N ue_open cs_alice 3 body ue_bob s' (Ok tt)) as [_ [Hsame|(d & msg & Hd & Hid & _ & _ & _ & Hj)]].
  - exact ue_bob_trusted.
  - constructor.
  - exact E.
  - exfalso. assert (length (lu_workspaces (us_manifest s')) = 1%nat) as Hlen.
    { change s' with ((s', Ok tt : result FSExn unit).1). rewrite <-E. vm_compute. reflexivity. }
    by rewrite Hsame in Hlen.
  - exists body, s', d, msg. split; [vm_compute; reflexivity|]. split; [exact E|]. split; [exact Hd|]. split; [exact Hid|exact Hj].
Defined.
