(* ===== verification/SharingProperties.v ===== *)
(** The theorem on the sharing of a workspace, by two clients and the server
    together: [workspace_share], [api_realm_update_roles], [api_message_get] and
    [process_last_messages]. *)

From S2P Require Import Prelude Triples PyString Types ApiManifest Chunk LocalManifest.
From S2P Require Import FileOperations FileContent Storage FileTransactions FileRefinement Merging.
From S2P Require Import EntryTransactions SyncTransactions SyncProperties Backend Certif.
From S2P Require Import BackendUser BackendMessage BackendRealm BlockStore BackendBlock.
From S2P Require Import BackendOrganization BackendSystem BackendVlob BackendVlobProofs.
From S2P Require Import BackendRealmSpec BackendGrowth Trustchain TrustchainProperties.
From S2P Require Import RemoteDevices RemoteLoader RemoteLoaderProofs ClientServer.
From S2P Require Import ClientServerExample ClientServerProperties ReencryptionJob WorkspaceFS.
From S2P Require Import WorkspaceFSProofs UserFS UserExample UserFSProofs UserFSProperties.

Import Byte.

(** ** Calls that change nothing *)

Section calls.
Context {Srv : Type}.
Lemma set_us_remote_same (s : UserFS Srv) : set_us_remote (us_server s) (us_trustchain s) s = s.
Proof. by destruct s. Qed.
Lemma on_user_loader_same {A} (m : stM (Loader Srv) FSExn A) (s : UserFS Srv) r :
  let l := mkLoader (us_server s) (us_trustchain s) no_storage None None in
  m l = (l, r) → on_user_loader m s = (s, r).
Proof. cbn zeta. intros E. unfold on_user_loader. rewrite E. cbn. by rewrite set_us_remote_same. Qed.
Lemma user_cmd_served {A} (m : backendM (reply A)) (s : UserFS Backend) srv rep :
  m (us_server s) = (srv, Ok rep) →
  user_cmd (served m) s = (set_us_remote srv (us_trustchain s) s, Ok rep).
Proof.
  intros E. unfold user_cmd, user_request, served, mbind, stM_bind. by rewrite E.
Qed.
End calls.

(** ** The workspace is synchronized already *)

Section synced.
Context `{CertifApi, LoaderApi} {Srv : Type} `{BackendCmds Srv, MaintenanceCmds Srv}.
Context (clock : nat → DateTime) (fuel depth : nat) (device_id : DeviceID)
  (fresh : nat → UUID) (pattern_match : EntryName → bool) (block_key : SecretKey)
  (order : gset EntryID → list EntryID)
  (items : gmap EntryName EntryID → odict EntryName EntryID).

Lemma on_wf_storage_get (s : WorkspaceFS Srv) e m :
  wf_tree s e = Some m →
  ∃ ss, on_wf_storage (get_manifest e) s
      = (mkWorkspaceFS ss (wf_server s) (wf_trustchain s) (wf_role_cache s)
           (wf_role_cache_timestamp s) (wf_clock s), Ok m) ∧ sync_quiet (wf_transactions s) ss.
Proof.
  intros Hm. destruct (on_local_get_ok _ _ _ Hm) as (ss & E & Hq). exists ss. split; [|done].
  unfold on_wf_storage, on_transactions. by rewrite E.
Qed.

Lemma minimal_sync_synced workspace_id w force e m0 m (s : WorkspaceFS Srv) :
  wf_tree s workspace_id = Some m0 → lm_is_placeholder m0 = false →
  wf_tree s e = Some m → lm_is_placeholder m = false →
  ∃ ss, minimal_sync clock fuel depth device_id workspace_id w pattern_match force fresh block_key
      order items e s
    = (mkWorkspaceFS ss (wf_server s) (wf_trustchain s) (wf_role_cache s)
         (wf_role_cache_timestamp s) (S (wf_clock s)), Ok true).
Proof.
  intros Hm0 Hp0 Hm Hp. unfold minimal_sync.
  destruct (on_wf_storage_get s workspace_id m0 Hm0) as (s1 & E1 & Hq1).
  set (w1 := mkWorkspaceFS s1 (wf_server s) (wf_trustchain s) (wf_role_cache s)
    (wf_role_cache_timestamp s) (wf_clock s)).
  rewrite (bind_Ok _ _ s w1 tt).
  2:{ unfold create_realm_if_needed. rewrite (bind_Ok _ _ s w1 (Some m0)); [by rewrite Hp0|].
      unfold unless_missing, try_catch, mbind, stM_bind. by rewrite E1. }
  cbv beta.
  assert (sync_tree s1 e = Some m) as Hm1 by (rewrite <-Hm; by apply sync_tree_quiet).
  destruct (on_local_get_ok s1 e m Hm1) as (s2 & E2 & Hq2). exists s2.
  set (w2 := mkWorkspaceFS s2 (wf_server s) (wf_trustchain s) (wf_role_cache s)
    (wf_role_cache_timestamp s) (S (wf_clock s))).
  rewrite (bind_Ok _ _ w1 w2 (Some None)); [done|].
  unfold unless_missing, try_catch. rewrite (bind_Ok _ _ w1 w2 None); [done|].
  rewrite (bind_Ok _ _ w1 _ _ eq_refl). unfold on_transactions, get_minimal_remote_manifest.
  cbn [wf_transactions]. rewrite (bind_Ok _ _ _ _ _ E2). by rewrite Hp.
Qed.

Lemma workspace_minimal_sync_synced workspace_id w lw m (s : UserFS Srv) :
  find_entry (lu_workspaces (us_manifest s)) workspace_id = Some w →
  us_workspaces s !! workspace_id = Some lw →
  sync_tree (lw_transactions lw) workspace_id = Some m → lm_is_placeholder m = false →
  ∃ ws, workspace_minimal_sync clock fuel depth device_id fresh pattern_match block_key order items
      workspace_id s
    = (mkUserFS (us_manifest s) ws (us_server s) (us_trustchain s) (S (us_clock s)) (us_drawn s)
         (us_events s), Ok true).
Proof.
  intros Hw Hlw Hm Hp. unfold workspace_minimal_sync, on_workspace.
  rewrite (bind_Ok _ _ s s (lw, w)).
  2:{ unfold get_workspace, get_user_manifest, gets, of_option, mbind, stM_bind. rewrite Hlw.
      change (lu_get_workspace_entry (us_manifest s) workspace_id)
        with (find_entry (lu_workspaces (us_manifest s)) workspace_id). by rewrite Hw. }
  cbv beta iota. unfold run_workspace.
  edestruct (minimal_sync_synced workspace_id w false workspace_id m m
    (mkWorkspaceFS (lw_transactions lw) (us_server s) (us_trustchain s) (lw_role_cache lw)
       (lw_role_cache_timestamp lw) (us_clock s)) Hm Hp Hm Hp) as [ss E].
  rewrite E. by eexists.
Qed.
End synced.

(** ** The one who shares *)

Section share.
Context `{CertifApi, LoaderApi, MessageApi, MaintenanceCmds Backend}.
Context (now : DateTime) (ctx : ClientCtx).
Context (clock : nat → DateTime) (fuel depth : nat)
  (fresh : nat → UUID) (pattern_match : EntryName → bool) (block_key : SecretKey)
  (order : gset EntryID → list EntryID)
  (items : gmap EntryName EntryID → odict EntryName EntryID).
Context (workspace_id : EntryID) (recipient : UserID) (role : option RealmRole).
Abbreviation org := (cc_organization_id ctx).
Abbreviation me := (cc_device_id ctx).

(** The message, the certificate and the record that the server makes of it. *)
Definition share_message (t : DateTime) (w : WorkspaceEntry) : MessageContent :=
  match role with
  | Some _ => SharingGranted (sharing_message me t w)
  | None => SharingRevoked me t (we_id w)
  end.
Definition share_certif (t : DateTime) : RealmRoleCertificateContent :=
  mkRealmRoleCertificateContent me t workspace_id recipient role.
Definition share_record (t : DateTime) : RealmGrantedRole :=
  granted_role_of (device_sign (dumps_realm_role (share_certif t))) (share_certif t).

(** What the client that shares knows and has: the workspace, synchronized, the
    certificate of the recipient; and the server lets it grant the role. *)
Record can_share (s : UserFS Backend) (w : WorkspaceEntry) (recipient_user : UserCertificateContent)
    : Prop := {
  sh_not_self : user_id me ≠ recipient;
  sh_entry : find_entry (lu_workspaces (us_manifest s)) workspace_id = Some w;
  sh_loaded : ∃ lw m, us_workspaces s !! workspace_id = Some lw ∧
    sync_tree (lw_transactions lw) workspace_id = Some m ∧ lm_is_placeholder m = false;
  sh_user : tc_get_user (us_trustchain s) recipient (clock (S (us_clock s))) = Some recipient_user;
  sh_not_revoked : tc_get_revoked_user (us_trustchain s) recipient (clock (S (us_clock s))) = None;
  sh_encrypts p : is_Some (public_encrypt (uc_public_key recipient_user) p);
  sh_certif : let t := clock (S (S (us_clock s))) in
    verify_realm_role_certificate (device_sign (dumps_realm_role (share_certif t)))
      (cc_verify_key ctx) me = Ok (share_certif t);
  sh_ballpark : timestamps_in_the_ballpark (clock (S (S (us_clock s)))) now = true;
  sh_allowed : grant_allowed (us_server s) org (share_record (clock (S (S (us_clock s))))) }.

Lemma rl_get_user_cached (l : Loader Backend) u x t :
  tc_get_user (rl_trustchain l) u t = Some x → tc_get_revoked_user (rl_trustchain l) u t = None →
  rl_get_user (H1 := server_cmds now ctx) t fuel u false l = (l, Ok (x, None)).
Proof.
  intros Hu Hr. unfold rl_get_user, on_devices_manager, rdm_get_user, gets, mbind, stM_bind. cbn.
  rewrite Hu, Hr. by destruct l.
Qed.

Lemma workspace_share_ok (s : UserFS Backend) w recipient_user :
  can_share s w recipient_user →
  let t := clock (S (S (us_clock s))) in
  ∃ c srv ws,
    workspace_share (H2 := server_cmds now ctx) (H4 := server_user_cmds now ctx) clock fuel depth me
      fresh pattern_match block_key order items workspace_id recipient role s
    = (mkUserFS (us_manifest s) ws srv (us_trustchain s) (S (S (S (us_clock s)))) (us_drawn s)
         (us_events s), Ok true) ∧
    public_encrypt (uc_public_key recipient_user) (device_sign (dumps_message (share_message t w)))
      = Some c ∧
    update_roles org (share_record t) (Some c) (us_server s) = (srv, Ok tt).
Proof.
  intros [Hself Hw (lw & m & Hlw & Hm & Hp) Hu Hr Henc Hcert Hball Hok] t.
  destruct (Henc (device_sign (dumps_message (share_message t w)))) as [c Hc].
  assert (user_id (gr_granted_by (share_record t)) ≠ gr_user_id (share_record t)) as Hne by done.
  destruct (update_roles_allowed org (share_record t) (Some c) (us_server s) Hne Hok) as (srv & Hrun).
  edestruct (workspace_minimal_sync_synced (H1 := server_cmds now ctx) clock fuel depth me fresh
    pattern_match block_key order items workspace_id w lw m s Hw Hlw Hm Hp) as (ws & Esync).
  exists c, srv, ws. split_and!; [|done|done].
  unfold workspace_share. rewrite bool_decide_eq_false_2 by done.
  rewrite (bind_Ok _ _ s s tt) by done. cbv beta.
  rewrite (bind_Ok _ _ s s (us_manifest s)) by done. cbv beta.
  change (lu_get_workspace_entry (us_manifest s) workspace_id)
    with (find_entry (lu_workspaces (us_manifest s)) workspace_id). rewrite Hw.
  rewrite (bind_Ok _ _ s s w) by done. cbv beta.
  apply find_entry_Some in Hw as [_ Hwid]. rewrite Hwid, (bind_Ok _ _ _ _ _ Esync). cbn [negb].
  set (s1 := mkUserFS _ ws _ _ _ _ _).
  rewrite (bind_Ok _ _ s1 (us_tick s1) (clock (S (us_clock s)))) by done. cbv beta.
  rewrite (bind_Ok _ _ (us_tick s1) (us_tick s1) (recipient_user, None)).
  2:{ apply on_user_loader_same. by apply rl_get_user_cached. }
  cbv beta iota. rewrite bool_decide_eq_false_2 by (by intros [? [=]]).
  rewrite (bind_Ok _ _ (us_tick s1) (us_tick s1) tt) by done. cbv beta.
  rewrite (bind_Ok _ _ (us_tick s1) (us_tick (us_tick s1)) t) by done. cbv beta zeta.
  assert (match role with
          | Some _ => SharingGranted (sharing_message me t w)
          | None => SharingRevoked me t workspace_id
          end = share_message t w) as -> by (unfold share_message; by rewrite Hwid).
  unfold dump_sign_and_encrypt_for. rewrite Hc.
  rewrite (bind_Ok _ _ (us_tick (us_tick s1)) (us_tick (us_tick s1)) c) by done. cbv beta.
  erewrite bind_Ok; [|apply user_cmd_served with (srv := srv) (rep := RepOk tt)].
  { done. }
  cbn [us_server us_tick s1]. unfold api_realm_update_roles.
  change (mkRealmRoleCertificateContent me t workspace_id recipient role) with (share_certif t).
  cbv zeta in Hcert. fold t in Hcert, Hball. rewrite Hcert. cbn [rr_timestamp share_certif]. rewrite Hball. cbn [negb].
  change (granted_role_of _ (share_certif t)) with (share_record t).
  rewrite bool_decide_eq_false_2 by done.
  unfold reply_of, try_catch. by rewrite (bind_Ok _ _ _ srv tt Hrun).
Qed.
End share.

(** ** The one who is given the access *)

Section receive.
Context `{CertifApi, LoaderApi, MessageApi, MaintenanceCmds Backend}.
Context (verify_message : ∀ key signed raw,
  key_verify key signed = Some raw → raw = unsecure_unwrap signed).
Context (now : DateTime) (ctx : ClientCtx).
Context (clock : nat → DateTime) (fuel : nat) (user_manifest_id : EntryID)
  (open_workspace : EntryID → LocalWorkspace).
Abbreviation org := (cc_organization_id ctx).
Abbreviation me := (cc_device_id ctx).
Abbreviation granted := (process_message_sharing_granted (H2 := server_cmds now ctx) clock fuel me
  user_manifest_id open_workspace).

(** The roles of a realm that the user is in, from a log of roles. *)
Lemma current_roles_of_log (b : UserFS Backend) realm_id r :
  be_realms (us_server b) !! (org, realm_id) = Some r →
  has_role r (cc_user_id ctx) = true →
  role_log realm_id (r_granted_roles r) → StronglySorted by_date (r_granted_roles r) →
  authors_cached (clock (us_clock b)) (us_trustchain b) (r_granted_roles r) →
  current_roles_of (H2 := server_cmds now ctx) clock fuel user_manifest_id realm_id b
    = (us_tick b, Ok (Some (realm_roles r))).
Proof.
  intros Hr Hrole Hl Hs Hd. unfold current_roles_of.
  rewrite (bind_Ok _ _ b (us_tick b) (clock (us_clock b))) by done. cbv beta.
  unfold try_catch. rewrite (bind_Ok _ _ (us_tick b) (us_tick b) (realm_roles r)); [done|].
  apply on_user_loader_same. cbn [us_server us_trustchain us_tick].
  unfold load_realm_current_roles.
  rewrite (bind_Ok _ _ _ (mkLoader (us_server b) (us_trustchain b) no_storage None None)
    (certif_of <$> r_granted_roles r, realm_roles r)); [done|].
  exact (load_realm_roles_log verify_message (clock (us_clock b)) fuel ctx
    (mkLoader (us_server b) (us_trustchain b) no_storage None None) realm_id r user_manifest_id
    Hr Hrole Hl Hs Hd).
Qed.

(** Writing an entry. *)
Lemma set_entry_run t w (b : UserFS Backend) :
  um_id (lu_base (us_manifest b)) = user_manifest_id →
  NoDup (we_id <$> lu_workspaces (us_manifest b)) →
  ∃ ws, let man' := evolve_workspaces_and_mark_updated t (us_manifest b) [w] in
    set_user_manifest user_manifest_id open_workspace man' b
      = (set_us_manifest man' (set_us_workspaces (λ _, ws) b), Ok tt) ∧
    is_Some (ws !! we_id w) ∧
    find_entry (lu_workspaces man') (we_id w) = Some w.
Proof.
  intros Hid Hnd. destruct (update_workspaces_one _ w Hnd) as [_ Hf].
  assert (find_entry (lu_workspaces (evolve_workspaces_and_mark_updated t (us_manifest b) [w]))
    (we_id w) = Some w) as Hw by (cbn; by rewrite Hf, decide_True).
  destruct (set_user_manifest_eq user_manifest_id open_workspace
    (evolve_workspaces_and_mark_updated t (us_manifest b) [w]) b Hid) as (ws & E & Hl & _).
  exists ws. split_and!; [done| |done]. apply Hl. apply find_entry_is_Some. by exists w.
Qed.

Lemma granted_run msg (b : UserFS Backend) r :
  um_id (lu_base (us_manifest b)) = user_manifest_id →
  NoDup (we_id <$> lu_workspaces (us_manifest b)) →
  be_realms (us_server b) !! (org, sm_id msg) = Some r →
  has_role r (cc_user_id ctx) = true →
  role_log (sm_id msg) (r_granted_roles r) → StronglySorted by_date (r_granted_roles r) →
  authors_cached (clock (us_clock b)) (us_trustchain b) (r_granted_roles r) →
  role_in (role_of r (user_id (sm_author msg))) owner_or_manager = true →
  ∃ b' e t, granted msg b = (b', Ok tt) ∧ us_server b' = us_server b ∧
    lu_last_processed_message (us_manifest b') = lu_last_processed_message (us_manifest b) ∧
    um_id (lu_base (us_manifest b')) = user_manifest_id ∧
    is_Some (us_workspaces b' !! sm_id msg) ∧
    find_entry (lu_workspaces (us_manifest b')) (sm_id msg) = Some e ∧
    granted_entry me (realm_roles r) t msg
      (find_entry (lu_workspaces (us_manifest b)) (sm_id msg)) e.
Proof.
  intros Hid Hnd Hr Hrole Hl Hs Hd Hauth. set (b1 := us_tick b).
  unfold process_message_sharing_granted.
  rewrite (bind_Ok _ _ b b1 (Some (realm_roles r))) by (by apply current_roles_of_log). cbv beta iota.
  change (realm_roles r !! user_id (sm_author msg)) with (role_of r (user_id (sm_author msg))).
  change [OWNER; MANAGER] with owner_or_manager. rewrite Hauth.
  rewrite (bind_Ok _ _ b1 b1 tt) by done. cbv beta. set (t := clock (us_clock b1)).
  rewrite (bind_Ok _ _ b1 (us_tick b1) t) by done. cbv beta zeta.
  rewrite (bind_Ok _ _ (us_tick b1) (us_tick b1) (us_manifest b)) by done. cbv beta.
  change (lu_get_workspace_entry (us_manifest b) (sm_id msg))
    with (find_entry (lu_workspaces (us_manifest b)) (sm_id msg)).
  set (w0 := mkWorkspaceEntry _ _ _ _ _ _ _). set (old := find_entry _ (sm_id msg)).
  assert (∃ e, match old with
      | Some existing => merge_workspace_entry None w0 existing
      | None => Ok w0
      end = Ok e ∧ we_id e = sm_id msg ∧ granted_entry me (realm_roles r) t msg old e)
    as (e & Ee & Hide & He).
  { destruct old as [o|] eqn:Eo; [|by exists w0].
    apply find_entry_Some in Eo as [_ Ho].
    destruct (merge_workspace_entry_ok None w0 o) as (e & Ee & _); [by symmetry|done|].
    exists e. split; [done|]. apply merge_granted in Ee as [? ->]. by split. }
  rewrite Ee. rewrite (bind_Ok _ _ (us_tick b1) (us_tick b1) e) by done. cbv beta.
  set (b2 := us_tick (us_tick b1)). set (t' := clock (us_clock (us_tick b1))).
  rewrite (bind_Ok _ _ (us_tick b1) b2 t') by done. cbv beta.
  destruct (set_entry_run t' e b2) as (ws & Eset & Hws & Hf); [done|done|]. cbv zeta in Eset.
  change (us_manifest b2) with (us_manifest b) in Eset, Hf. rewrite Hide in Hws, Hf.
  rewrite (bind_Ok _ _ _ _ _ Eset). cbv beta.
  destruct old; (do 3 eexists; split_and!; [reflexivity|done|done|exact Hid|exact Hws|exact Hf|exact He]).
Qed.

(** The only message that was not read. *)
Lemma message_get_last (s : Backend) l author ts body :
  messages_of s org (cc_user_id ctx) = l ++ [(author, ts, body)] →
  api_message_get ctx (Z.of_nat (length l)) s
    = (s, Ok (RepOk [mkMessageRep (Z.of_nat (length l) + 1) body ts author])).
Proof.
  intros Hm. unfold api_message_get, message_get_req_valid.
  rewrite (proj2 (Z.leb_le _ _)) by lia. cbn [negb].
  unfold get_messages, gets, mbind, stM_bind. cbn [mret stM_ret]. rewrite Hm.
  rewrite py_slice_drop by lia. rewrite Nat2Z.id, drop_app_length. done.
Qed.

Lemma process_one_message (b : UserFS Backend) l author ts body d msg r :
  um_id (lu_base (us_manifest b)) = user_manifest_id →
  NoDup (we_id <$> lu_workspaces (us_manifest b)) →
  lu_last_processed_message (us_manifest b) = Z.of_nat (length l) →
  messages_of (us_server b) org (cc_user_id ctx) = l ++ [(author, ts, body)] →
  tc_get_device (us_trustchain b) author (clock (us_clock b)) = Some d →
  decrypt_verify_and_load_for body (dc_verify_key d) author ts = Ok (SharingGranted msg) →
  be_realms (us_server b) !! (org, sm_id msg) = Some r →
  has_role r (cc_user_id ctx) = true →
  role_log (sm_id msg) (r_granted_roles r) → StronglySorted by_date (r_granted_roles r) →
  authors_cached (clock (S (us_clock b))) (us_trustchain b) (r_granted_roles r) →
  role_in (role_of r (user_id (sm_author msg))) owner_or_manager = true →
  ∃ b' e t, process_last_messages (H2 := server_cmds now ctx) (H4 := server_user_cmds now ctx)
      clock fuel me user_manifest_id open_workspace b = (b', Ok []) ∧
    lu_last_processed_message (us_manifest b') = Z.of_nat (length l) + 1 ∧
    is_Some (us_workspaces b' !! sm_id msg) ∧
    find_entry (lu_workspaces (us_manifest b')) (sm_id msg) = Some e ∧
    granted_entry me (realm_roles r) t msg
      (find_entry (lu_workspaces (us_manifest b)) (sm_id msg)) e.
Proof.
  intros Hid Hnd Hlast Hmsgs Hdev Hmsg Hr Hrole Hl Hs Hd Hauth.
  destruct (granted_run msg (us_tick b) r) as (b1 & e & t & E & Hsrv & Hlp & Hid' & Hws & Hf & He);
    [done..|].
  unfold process_last_messages. rewrite (bind_Ok _ _ b b (us_manifest b)) by done. cbv beta zeta.
  rewrite Hlast. erewrite bind_Ok; [|apply user_cmd_served; by apply message_get_last].
  rewrite set_us_remote_same. cbv beta iota.
  rewrite (bind_Ok _ _ b b1 (Z.of_nat (length l) + 1, [])).
  2:{ cbn [process_messages]. rewrite (bind_Ok _ _ b b1 None); [done|].
      unfold try_catch. rewrite (bind_Ok _ _ b b1 tt); [done|]. unfold process_message.
      cbn [mp_sender mp_timestamp mp_body].
      rewrite (bind_Ok _ _ b (us_tick b) (clock (us_clock b))) by done. cbv beta.
      rewrite (bind_Ok _ _ (us_tick b) (us_tick b) d).
      2:{ apply on_user_loader_same. exact (rl_get_device_cached (clock (us_clock b)) fuel ctx
            (mkLoader (us_server b) (us_trustchain b) no_storage None None) author d Hdev). }
      cbv beta. rewrite Hmsg. rewrite (bind_Ok _ _ (us_tick b) (us_tick b) (SharingGranted msg)) by done.
      exact E. }
  cbv beta iota. rewrite (bind_Ok _ _ b1 b1 (us_manifest b1)) by done. cbv beta.
  rewrite Hlp. cbn [us_manifest us_tick]. rewrite Hlast, (proj2 (Z.ltb_lt _ _)) by lia.
  destruct (set_user_manifest_eq user_manifest_id open_workspace
    (lu_processed (clock (us_clock b1)) (Z.of_nat (length l) + 1) (us_manifest b1)) (us_tick b1) Hid')
    as (ws & Eset & Hl' & Hg').
  erewrite bind_Ok; [|rewrite (bind_Ok _ _ b1 (us_tick b1) (clock (us_clock b1))) by done; cbv beta;
    rewrite (bind_Ok _ _ _ _ _ Eset); reflexivity].
  do 3 eexists. split_and!; [reflexivity|done| |exact Hf|exact He]. by apply Hg'.
Qed.
End receive.

(** ** Both *)

Section sharing.
Context `{CertifApi, MaintenanceCmds Backend}.
Context (verify_message : ∀ key signed raw,
  key_verify key signed = Some raw → raw = unsecure_unwrap signed).
(** The libraries on the two devices; what is encrypted with the public key of the
    recipient is decrypted with its private key. *)
Context (alice_loader : LoaderApi) (alice_messages bob_messages : MessageApi)
  (bob_public_key : bytes)
  (decrypt_encrypt : ∀ p c, public_encrypt (MessageApi := alice_messages) bob_public_key p = Some c →
     private_decrypt (MessageApi := bob_messages) c = Some p).
Context (now now' : DateTime) (ctx ctx' : ClientCtx)
  (verify_sign : ∀ raw, key_verify (cc_verify_key ctx) (device_sign (LoaderApi := alice_loader) raw)
     = Some raw).
Context (clock clock' : nat → DateTime) (fuel depth : nat) (bob_manifest_id : EntryID)
  (fresh : nat → UUID) (pattern_match : EntryName → bool) (block_key : SecretKey)
  (order : gset EntryID → list EntryID)
  (items : gmap EntryName EntryID → odict EntryName EntryID)
  (open_workspace : EntryID → LocalWorkspace).
Context (workspace_id : EntryID) (role : RealmRole).
Abbreviation org := (cc_organization_id ctx).
Abbreviation alice := (cc_device_id ctx).
Abbreviation bob := (cc_device_id ctx').
Abbreviation record := (share_record (H0 := alice_loader) ctx workspace_id (user_id bob) (Some role)).

(** What the sharing makes of the realm. *)
Lemma grant_log_ok (s srv : Backend) t r c :
  reachable s → user_id alice ≠ user_id bob → certified (record t) →
  be_realms s !! (org, workspace_id) = Some r →
  StronglySorted by_date (r_granted_roles r) → (∀ x, x ∈ r_granted_roles r → gr_granted_on x ≤ t) →
  update_roles org (record t) (Some c) s = (srv, Ok tt) →
  let r' := r_grant r (record t) in
  be_realms srv !! (org, workspace_id) = Some r' ∧
  role_log workspace_id (r_granted_roles r') ∧ StronglySorted by_date (r_granted_roles r') ∧
  role_of r' (user_id bob) = Some role ∧
  role_in (role_of r' (user_id alice)) owner_or_manager = true ∧
  messages_of srv org (user_id bob) = messages_of s org (user_id bob) ++ [(alice, t, c)].
Proof.
  intros Hreach Hne Hcert Hr Hs Ht Hrun r'.
  pose proof (update_roles_messages _ _ _ _ _ (user_id bob) org Hrun) as Hm.
  rewrite bool_decide_eq_true_2 in Hm by done.
  apply update_roles_inv in Hrun as [[_ (e & [=] & _)]|(_ & user & realm & _ & _ & Hr' & _ & Hg & Hnew & E)];
    [|done].
  cbn [gr_realm_id record share_record granted_role_of share_certif rr_realm_id] in Hr'.
  rewrite Hr in Hr'. injection Hr' as <-.
  split_and!.
  - unfold same_but_messages in E. rewrite E. cbn. by rewrite lookup_insert_eq.
  - apply role_log_grant; [by eapply (reachable_role_logs _ Hreach)|done..].
  - apply StronglySorted_app_2; [|done|repeat constructor].
    intros x y Hx ->%list_elem_of_singleton. by apply Ht.
  - apply (role_of_grant r (record t)). intros x Hx _. by apply Ht.
  - unfold r'. rewrite role_of_grant_other by (cbn; congruence).
    destruct Hg as (role' & Hrole' & Hin). cbn in Hrole'. rewrite Hrole'. apply bool_decide_eq_true.
    unfold needed_roles in Hin. destruct (_ || _); set_solver.
  - exact Hm.
Qed.

(** C6: sharing works, end to end: when an owner or a manager, whose copy of the
    workspace is synchronized, shares it with a user, the server grants the role
    and keeps a message; and when this user, who has read the messages before,
    processes its messages, without any error, its user manifest has the workspace
    with the key and the revision of the author (its own if it is a newer one), the
    role that was granted, and the workspace is loaded. The roles were granted in
    the order of their dates, and both know the certificates of the others. *)
Theorem sharing_end_to_end (s : UserFS Backend) w recipient_user r :
  let t := clock (S (S (us_clock s))) in
  let msg := sharing_message alice t w in
  reachable (us_server s) →
  can_share (H0 := alice_loader) (H1 := alice_messages) now ctx clock workspace_id (user_id bob)
    (Some role) s w recipient_user →
  uc_public_key recipient_user = bob_public_key →
  loads_message (MessageApi := bob_messages) (dumps_message (MessageApi := alice_messages)
    (SharingGranted msg)) = Some (SharingGranted msg) →
  be_realms (us_server s) !! (org, workspace_id) = Some r →
  StronglySorted by_date (r_granted_roles r) → (∀ x, x ∈ r_granted_roles r → gr_granted_on x ≤ t) →
  cc_organization_id ctx' = org →
  ∃ s' r',
    workspace_share (H0 := alice_loader) (H1 := alice_messages) (H2 := server_cmds now ctx)
      (H4 := server_user_cmds now ctx) clock fuel depth alice fresh pattern_match block_key order
      items workspace_id (user_id bob) (Some role) s = (s', Ok true) ∧
    be_realms (us_server s') !! (org, workspace_id) = Some r' ∧
    role_of r' (user_id bob) = Some role ∧
    ∀ (b : UserFS Backend) d,
      us_server b = us_server s' →
      user_fs_ok bob_manifest_id b →
      lu_last_processed_message (us_manifest b)
        = Z.of_nat (length (messages_of (us_server s) org (user_id bob))) →
      tc_get_device (us_trustchain b) alice (clock' (us_clock b)) = Some d →
      dc_verify_key d = cc_verify_key ctx →
      authors_cached (clock' (S (us_clock b))) (us_trustchain b) (r_granted_roles r') →
      ∃ b' e t', process_last_messages (H1 := bob_messages) (H2 := server_cmds now' ctx')
          (H4 := server_user_cmds now' ctx') clock' fuel bob bob_manifest_id open_workspace b
          = (b', Ok []) ∧
        is_Some (us_workspaces b' !! workspace_id) ∧
        find_entry (lu_workspaces (us_manifest b')) workspace_id = Some e ∧
        granted_entry bob (realm_roles r') t' msg
          (find_entry (lu_workspaces (us_manifest b)) workspace_id) e ∧
        realm_roles r' !! user_id bob = Some role.
Proof.
  intros t msg Hreach Hcan Hpk Hloads Hr Hs Ht Horg. pose proof Hcan as [Hne Hw _ _ _ _ Hcert _ _].
  destruct (workspace_share_ok now ctx clock fuel depth fresh pattern_match block_key order items
    workspace_id (user_id bob) (Some role) s w recipient_user Hcan) as (c & srv & ws & Eshare & Hc & Hrun).
  fold t in Hcert, Hc, Hrun.
  edestruct (grant_log_ok (us_server s) srv t r c) as (Hr' & Hlog & Hs' & Hbob & Halice & Hmsgs);
    [done|done| |done..|].
  { exists (cc_verify_key ctx). exact Hcert. }
  eexists _, _. split_and!; [exact Eshare|exact Hr'|exact Hbob|].
  intros b d Hsrv [[Hid Hnd _] _] Hlast Hdev Hvk Hcached. cbn [us_server] in Hsrv.
  assert (sm_id msg = workspace_id) as Hsm by (by apply find_entry_Some in Hw as [_ ?]).
  destruct (process_one_message (H1 := bob_messages) verify_message now' ctx' clock'
    fuel bob_manifest_id open_workspace b (messages_of (us_server s) org (user_id bob)) alice t c d
    msg (r_grant r (record t)))
    as (b' & e & t' & E & _ & Hload & Hf & He); rewrite ?Hsm, ?Hsrv, ?Horg; try done.
  - unfold decrypt_verify_and_load_for. rewrite Hpk in Hc. rewrite (decrypt_encrypt _ _ Hc), Hvk.
    unfold verify_and_load. rewrite verify_sign. unfold loads.
    change (share_message ctx (Some role) t w) with (SharingGranted msg). rewrite Hloads. cbn.
    by rewrite !bool_decide_eq_false_2 by (intros Hn; by apply Hn).
  - unfold has_role, cc_user_id. by rewrite Hbob.
  - rewrite Hsm in *. exists b', e, t'. by split_and!.
Qed.
End sharing.

(** ** Witness *)

Lemma ue_can_share :
  can_share (H0 := ue_loader x41) (H1 := ue_messages [x61]) 3 cs_alice_ctx (λ _, 3) 1%N "bob"
    (Some READER) ue_alice cs_entry ue_bob_certificate.
Proof.
  constructor.
  - discriminate.
  - reflexivity.
  - exists ue_workspace, (LFolderish ue_root). by split_and!.
  - vm_compute. reflexivity.
  - vm_compute. reflexivity.
  - intros p. by eexists.
  - vm_compute. reflexivity.
  - reflexivity.
  - eexists _, _. split_and!; [vm_compute; reflexivity|discriminate|vm_compute; reflexivity
      |reflexivity| |vm_compute; discriminate].
    exists OWNER. split; [vm_compute; reflexivity|]. vm_compute. left.
Qed.

Lemma sharing_end_to_end_witness :
  ∃ b' e, process_last_messages (H1 := ue_messages [x62]) (H2 := server_cmds 4 cs_bob_ctx)
      (H4 := server_user_cmds 4 cs_bob_ctx) (λ _, 4) 9 cs_bob 99%N ue_open ue_bob = (b', Ok []) ∧
    is_Some (us_workspaces b' !! 1%N) ∧
    find_entry (lu_workspaces (us_manifest b')) 1%N = Some e ∧
    we_key e = cs_key ∧ we_role e = Some READER.
Proof.
  destruct (be_realms cs_realm !! ("org"%string, 1%N)) as [r|] eqn:Hr; [|by vm_compute in Hr].
  destruct (sharing_end_to_end cs_message (ue_loader x41) (ue_messages [x61]) (ue_messages [x62]) [x62])
    with (now := 3) (now' := 4) (ctx := cs_alice_ctx) (ctx' := cs_bob_ctx) (clock := λ _ : nat, 3)
      (clock' := λ _ : nat, 4) (fuel := 9%nat) (depth := 9%nat) (bob_manifest_id := 99%N) (fresh := ue_fresh)
      (pattern_match := λ _ : EntryName, false) (block_key := @nil byte) (order := ue_order)
      (items := ue_items) (open_workspace := ue_open) (workspace_id := 1%N) (role := READER)
      (s := ue_alice) (w := cs_entry) (recipient_user := ue_bob_certificate) (r := r)
    as (s' & r' & E & Hr' & Hrole & Hbob).
  - intros p c. cbn. by intros [= <-].
  - intros raw. cbn [key_verify cs_certif cs_alice_key device_sign ue_loader]. unfold cs_sign.
    cbn [cc_verify_key cs_alice_ctx cs_alice_key].
    rewrite (take_app_length' _ _ 64), (drop_app_length' _ _ 64) by done. by rewrite bool_decide_true.
  - exact cs_realm_reachable.
  - exact ue_can_share.
  - reflexivity.
  - vm_compute. reflexivity.
  - exact Hr.
  - vm_compute in Hr. injection Hr as <-. cbn. apply SSorted_cons; [apply SSorted_nil|apply Forall_nil_2].
  - vm_compute in Hr. injection Hr as <-. apply Forall_forall, Forall_singleton. cbn. lia.
  - reflexivity.
  - assert (s' = ue_shared) as -> by exact (eq_sym (f_equal fst E)).
    destruct (Hbob ue_bob ue_alice_device) as (b' & e & t' & Eb & Hl & Hf & He & Hrole').
    + reflexivity.
    + apply user_fs_start_ok.
    + vm_compute. reflexivity.
    + vm_compute. reflexivity.
    + reflexivity.
    + clear Hbob E Hr Hrole. vm_compute in Hr'. injection Hr' as <-. apply authors_cached_dec. by vm_compute.
    + exists b', e. split_and!; [exact Eb|exact Hl|exact Hf| |].
      * clear - He. cbn in He. by rewrite He.
      * clear - He Hrole'. cbn in He. rewrite He. exact Hrole'.
Defined.
