(* ===== verification/Url.v ===== *)
(** The parts of [urllib.parse], [base64] and [uuid] that the addresses use, as in
    Python 3.10. A string is the bytes of its UTF-8 encoding. *)

From Stdlib Require Import Ascii.
From S2P Require Import Prelude PyString Types BlockStore.

#[local] Open Scope string_scope.
#[local] Open Scope Z_scope.

(** ** Characters *)

Definition code (c : ascii) : Z := Z.of_N (N_of_ascii c).
Definition of_code (z : Z) : ascii := ascii_of_N (Z.to_N z).
Definition in_range (lo hi : Z) (c : ascii) : bool := (lo <=? code c) && (code c <=? hi).
Definition is_ascii : ascii → bool := in_range 0 127.
Definition is_digit : ascii → bool := in_range 48 57.
Definition is_upper : ascii → bool := in_range 65 90.
Definition is_lower : ascii → bool := in_range 97 122.
Definition is_alnum (c : ascii) : bool := is_digit c || is_upper c || is_lower c.
Definition one_of (l : string) (c : ascii) : bool := str_has c l.

Fixpoint str_all (p : ascii → bool) (s : string) : bool :=
  match s with EmptyString => true | String c s => p c && str_all p s end.
Fixpoint str_map (f : ascii → ascii) (s : string) : string :=
  match s with EmptyString => "" | String c s => String (f c) (str_map f s) end.
Fixpoint str_filter (p : ascii → bool) (s : string) : string :=
  match s with
  | EmptyString => ""
  | String c s => if p c then String c (str_filter p s) else str_filter p s
  end.
(** The longest prefix whose characters pass, and the rest. *)
Fixpoint str_span (p : ascii → bool) (s : string) : string * string :=
  match s with
  | EmptyString => ("", "")
  | String c s' => if p c then let '(a, b) := str_span p s' in (String c a, b) else ("", s)
  end.
(** [s.partition(c)], [None] when the character is not there. *)
Definition str_cut (c : ascii) (s : string) : option (string * string) :=
  match str_span (λ x, negb (bool_decide (x = c))) s with
  | (a, String _ b) => Some (a, b)
  | (_, EmptyString) => None
  end.
(** [s.rpartition(c)[2]] *)
Definition after_last (c : ascii) (s : string) : string := List.last (split_on c s) "".
(** [s.replace(p, "")] *)
Fixpoint str_delete (p : string) (skip : nat) (s : string) : string :=
  match s with
  | EmptyString => ""
  | String c s' =>
      match skip with
      | S skip => str_delete p skip s'
      | O =>
          if bool_decide (is_Some (strip_prefix p s)) then str_delete p (pred (String.length p)) s'
          else String c (str_delete p 0 s')
      end
  end.
Fixpoint str_rev (acc s : string) : string :=
  match s with EmptyString => acc | String c s => str_rev (String c acc) s end.
(** [s.lstrip], [s.rstrip] for a set of characters *)
Definition lstrip (p : ascii → bool) (s : string) : string := (str_span p s).2.
Definition rstrip (p : ascii → bool) (s : string) : string := str_rev "" (lstrip p (str_rev "" s)).
Definition lower_char (c : ascii) : ascii := if is_upper c then of_code (code c + 32) else c.

(** ** UTF-8 *)

Definition is_continuation : ascii → bool := in_range 128 191.
(** The second byte after a first one of three or of four bytes. *)
Definition second3 (a b : ascii) : bool :=
  if code a =? 224 then in_range 160 191 b
  else if code a =? 237 then in_range 128 159 b else is_continuation b.
Definition second4 (a b : ascii) : bool :=
  if code a =? 240 then in_range 144 191 b
  else if code a =? 244 then in_range 128 143 b else is_continuation b.
(** The characters of some bytes; [None] for each sequence that is replaced. *)
Fixpoint utf8 (s : string) : list (option string) :=
  match s with
  | EmptyString => []
  | String a s1 =>
      if is_ascii a then Some (String a "") :: utf8 s1
      else if in_range 194 223 a then
        match s1 with
        | String b s2 =>
            if is_continuation b then Some (String a (String b "")) :: utf8 s2 else None :: utf8 s1
        | EmptyString => [None]
        end
      else if in_range 224 239 a then
        match s1 with
        | String b s2 =>
            if second3 a b then
              match s2 with
              | String c s3 =>
                  if is_continuation c then Some (String a (String b (String c ""))) :: utf8 s3
                  else None :: utf8 s2
              | EmptyString => [None]
              end
            else None :: utf8 s1
        | EmptyString => [None]
        end
      else if in_range 240 244 a then
        match s1 with
        | String b s2 =>
            if second4 a b then
              match s2 with
              | String c s3 =>
                  if is_continuation c then
                    match s3 with
                    | String d s4 =>
                        if is_continuation d
                        then Some (String a (String b (String c (String d "")))) :: utf8 s4
                        else None :: utf8 s3
                    | EmptyString => [None]
                    end
                  else None :: utf8 s2
              | EmptyString => [None]
              end
            else None :: utf8 s1
        | EmptyString => [None]
        end
      else None :: utf8 s1
  end.
Definition utf8_valid (s : string) : bool := forallb (λ c, bool_decide (is_Some c)) (utf8 s).
(** [bytes.decode("utf-8", "replace")] *)
Definition REPLACEMENT : string :=
  String (of_code 239) (String (of_code 191) (String (of_code 189) "")).
Definition utf8_replace (s : string) : string := str_join "" (default REPLACEMENT <$> utf8 s).

(** ** Digits *)

(** The last [n] digits of a number, the highest one first. *)
Fixpoint digits_be (base : Z) (n : nat) (x : Z) : list Z :=
  match n with O => [] | S n => digits_be base n (x / base) ++ [x mod base] end.
Definition of_digits (base : Z) (l : list Z) : Z := foldl (λ acc d, acc * base + d) 0 l.
Definition hex_digit (upper : bool) (d : Z) : ascii :=
  of_code (if d <? 10 then 48 + d else (if upper then 55 else 87) + d).
Definition unhex (c : ascii) : option Z :=
  if is_digit c then Some (code c - 48)
  else if in_range 65 70 c then Some (code c - 55)
  else if in_range 97 102 c then Some (code c - 87)
  else None.

(** [str(n)], and [int(s)] for decimal digits *)
Definition str_of_int (n : Z) : string := pretty n.
Fixpoint int_of_digits (acc : Z) (s : string) : Z :=
  match s with EmptyString => acc | String c s => int_of_digits (10 * acc + (code c - 48)) s end.

(** ** [quote_plus], [unquote_plus] and the queries *)

Definition always_safe (c : ascii) : bool := is_alnum c || one_of "_.-~" c.
Fixpoint quote_plus (s : string) : string :=
  match s with
  | EmptyString => ""
  | String c s =>
      if always_safe c then String c (quote_plus s)
      else if bool_decide (c = " "%char) then String "+" (quote_plus s)
      else String "%" (String (hex_digit true (code c / 16))
             (String (hex_digit true (code c mod 16)) (quote_plus s)))
  end.
Fixpoint unquote_to_bytes (s : string) : string :=
  match s with
  | EmptyString => ""
  | String c s1 =>
      if bool_decide (c = "%"%char) then
        match s1 with
        | String a (String b s2) =>
            match unhex a, unhex b with
            | Some x, Some y => String (of_code (16 * x + y)) (unquote_to_bytes s2)
            | _, _ => String c (unquote_to_bytes s1)
            end
        | _ => String c (unquote_to_bytes s1)
        end
      else String c (unquote_to_bytes s1)
  end.
Definition plus_to_space (s : string) : string :=
  str_map (λ c, if bool_decide (c = "+"%char) then " "%char else c) s.
(** [unquote_plus], with [errors="replace"] or [errors="strict"]: [None] is the
    [UnicodeDecodeError]. *)
Definition unquote_plus (s : string) : string := utf8_replace (unquote_to_bytes (plus_to_space s)).
Definition unquote_strict (s : string) : option string :=
  let b := unquote_to_bytes (plus_to_space s) in if utf8_valid b then Some b else None.

(** [urlencode], without and with [doseq] *)
Definition urlencode (query : list (string * string)) : string :=
  str_join "&" ((λ '(k, v), quote_plus k +:+ "=" +:+ quote_plus v) <$> query).
Definition urlencode_doseq (query : odict string (list string)) : string :=
  urlencode (concat (List.map (λ kl, pair kl.1 <$> kl.2) query)).

(** [parse_qs]: [unquote] decodes a name or a value, [None] is a [ValueError]. *)
Definition add_value (d : odict string (list string)) (name value : string)
    : odict string (list string) :=
  od_set d name (default [] (od_get d name) ++ [value])%list.
Definition query_field (unquote : string → option string) (keep_blank_values strict_parsing : bool)
    (name_value : string) (d : odict string (list string)) : option (odict string (list string)) :=
  if bool_decide (name_value = "") && negb strict_parsing then Some d
  else
    match str_cut "=" name_value with
    | None =>
        if strict_parsing then None
        else if keep_blank_values then name ← unquote name_value; Some (add_value d name "")
        else Some d
    | Some (name, value) =>
        if bool_decide (value = "") && negb keep_blank_values then Some d
        else name ← unquote name; value ← unquote value; Some (add_value d name value)
    end.
Fixpoint query_fields (unquote : string → option string) (keep_blank_values strict_parsing : bool)
    (pairs : list string) (d : odict string (list string)) : option (odict string (list string)) :=
  match pairs with
  | [] => Some d
  | p :: pairs =>
      d ← query_field unquote keep_blank_values strict_parsing p d;
      query_fields unquote keep_blank_values strict_parsing pairs d
  end.
Definition parse_qs (unquote : string → option string) (keep_blank_values strict_parsing : bool)
    (qs : string) : option (odict string (list string)) :=
  if bool_decide (qs = "") then Some []
  else query_fields unquote keep_blank_values strict_parsing (split_on "&" qs) [].

(** ** [urlsplit] and [urlunsplit] *)

(** What the character tables say of a character that is not ASCII, and [lower] of a
    string that has one: a word character, a white space, a decimal digit; a network
    location that [_checknetloc] accepts. *)
Class Unicode := {
  unicode_word : string → bool;
  unicode_space : string → bool;
  unicode_digit : string → option Z;
  unicode_lower : string → string;
  netloc_normal : string → bool }.

Record SplitResult := mkSplitResult {
  sr_scheme : string; sr_netloc : string; sr_path : string; sr_query : string }.

Section split.
Context `{Unicode}.

Definition str_lower (s : string) : string :=
  if str_all is_ascii s then str_map lower_char s else unicode_lower s.
Definition scheme_char (c : ascii) : bool := is_alnum c || one_of "+-." c.
Definition split_scheme (url : string) : string * string :=
  match str_cut ":" url with
  | Some (scheme, rest) =>
      if negb (bool_decide (scheme = "")) && str_all scheme_char scheme
      then (str_map lower_char scheme, rest) else ("", url)
  | None => ("", url)
  end.
Definition brackets_match (netloc : string) : bool :=
  Bool.eqb (str_has "[" netloc) (str_has "]" netloc).
(** [urlsplit]; the fragment is cut off, the [ValueError] is [None]. *)
Definition urlsplit (url : string) : option SplitResult :=
  let url := str_filter (λ c, negb (one_of (String (of_code 9) (String (of_code 10) (String (of_code 13) ""))) c))
               (lstrip (in_range 0 32) url) in
  let '(scheme, url) := split_scheme url in
  let '(netloc, url) := match strip_prefix "//" url with
                        | Some rest => str_span (λ c, negb (one_of "/?#" c)) rest
                        | None => ("", url)
                        end in
  if negb (brackets_match netloc) then None
  else
    let url := match str_cut "#" url with Some (url, _) => url | None => url end in
    let '(path, query) := default (url, "") (str_cut "?" url) in
    if str_all is_ascii netloc || netloc_normal netloc
    then Some (mkSplitResult scheme netloc path query) else None.

(** The properties [hostname] and [port] of the result. *)
Definition hostinfo (netloc : string) : string * string :=
  let hostinfo := after_last "@" netloc in
  match str_cut "[" hostinfo with
  | Some (_, bracketed) =>
      let '(hostname, rest) := default (bracketed, "") (str_cut "]" bracketed) in
      (hostname, match str_cut ":" rest with Some (_, port) => port | None => "" end)
  | None => default (hostinfo, "") (str_cut ":" hostinfo)
  end.
Definition sr_hostname (r : SplitResult) : option string :=
  let hostname := (hostinfo (sr_netloc r)).1 in
  if bool_decide (hostname = "") then None
  else
    Some (match str_cut "%" hostname with
          | Some (name, zone) => str_lower name +:+ "%" +:+ zone
          | None => str_lower hostname
          end).
(** [None] is the [ValueError]. *)
Definition sr_port (r : SplitResult) : option (option Z) :=
  let port := (hostinfo (sr_netloc r)).2 in
  if bool_decide (port = "") then Some None
  else if str_all is_digit port && (int_of_digits 0 port <=? 65535)
  then Some (Some (int_of_digits 0 port)) else None.
End split.

Definition uses_netloc : list string :=
  [""; "ftp"; "http"; "gopher"; "nntp"; "telnet"; "imap"; "wais"; "file"; "mms"; "https"; "shttp";
   "snews"; "prospero"; "rtsp"; "rtspu"; "rsync"; "svn"; "svn+ssh"; "sftp"; "nfs"; "git"; "git+ssh";
   "ws"; "wss"].
Definition urlunsplit (scheme netloc path query : string) : string :=
  let url :=
    if negb (bool_decide (netloc = "")) ||
       (negb (bool_decide (scheme = "")) && bool_decide (scheme ∈ uses_netloc) &&
        negb (bool_decide (is_Some (strip_prefix "//" path))))
    then
      "//" +:+ netloc +:+
      (if bool_decide (path = "") || bool_decide (is_Some (strip_prefix "/" path)) then path
       else "/" +:+ path)
    else path in
  let url := if bool_decide (scheme = "") then url else scheme +:+ ":" +:+ url in
  if bool_decide (query = "") then url else url +:+ "?" +:+ query.

(** ** [base64.b32encode] and [base64.b32decode] *)

Definition b32alphabet : string := "ABCDEFGHIJKLMNOPQRSTUVWXYZ234567".
Definition b32symbol (d : Z) : ascii := default "A"%char (String.get (Z.to_nat d) b32alphabet).
Definition b32rev (c : ascii) : option Z :=
  if is_upper c then Some (code c - 65)
  else if in_range 50 55 c then Some (code c - 24) else None.
Fixpoint of_list (l : list ascii) : string :=
  match l with [] => "" | c :: l => String c (of_list l) end.
(** The eight symbols of five bytes; some bytes less, and the padding. *)
Definition b32group (b : bytes) : string :=
  of_list (b32symbol <$> digits_be 32 8 (from_bytes true b)).
Definition b32pad (n : nat) : nat :=
  match n with 1 => 6 | 2 => 4 | 3 => 3 | 4 => 1 | _ => 0 end%nat.
Definition b32last (b : bytes) : string :=
  let pad := b32pad (length b) in
  String.substring 0 (8 - pad) (b32group (b ++ replicate (5 - length b) Byte.x00))
  +:+ of_list (replicate pad "="%char).
Fixpoint b32encode (b : bytes) : string :=
  match b with
  | [] => ""
  | b1 :: b2 :: b3 :: b4 :: b5 :: rest => b32group [b1; b2; b3; b4; b5] +:+ b32encode rest
  | b => b32last b
  end.
Fixpoint b32groups (l : list Z) : bytes :=
  match l with
  | [] => []
  | d1 :: d2 :: d3 :: d4 :: d5 :: d6 :: d7 :: d8 :: l =>
      default [] (to_bytes true 5 (of_digits 32 [d1; d2; d3; d4; d5; d6; d7; d8])) ++ b32groups l
  | l =>
      let pad := (8 - length l)%nat in
      take ((43 - 5 * pad) / 8) (default [] (to_bytes true 5 (of_digits 32 l * 32 ^ Z.of_nat pad)))
  end.
(** [None] is the [binascii.Error]. *)
Definition b32decode (s : string) : option bytes :=
  let stripped := rstrip (λ c, bool_decide (c = "="%char)) s in
  let pad := (String.length s - String.length stripped)%nat in
  if negb (bool_decide (String.length s mod 8 = 0)%nat) || negb (bool_decide (pad ∈ [0; 1; 3; 4; 6]%nat))
  then None
  else b32groups <$> mapM b32rev (String.list_ascii_of_string stripped).

(** ** [uuid.UUID] *)

(** [u.hex] and [str(u)] *)
Definition uuid_hex (u : UUID) : string := of_list (hex_digit false <$> digits_be 16 32 (Z.of_N u)).
Definition uuid_str (u : UUID) : string :=
  let h := uuid_hex u in
  String.substring 0 8 h +:+ "-" +:+ String.substring 8 4 h +:+ "-" +:+ String.substring 12 4 h +:+ "-"
  +:+ String.substring 16 4 h +:+ "-" +:+ String.substring 20 12 h.
(** [int(s, 16)]: white spaces around, a sign, "0x" and single underscores between
    digits; [after_digit] says that an underscore may come. *)
Fixpoint hex_value (after_digit : bool) (acc : Z) (l : list ascii) : option Z :=
  match l with
  | [] => if after_digit then Some acc else None
  | c :: l =>
      if bool_decide (c = "_"%char) then if after_digit then hex_value false acc l else None
      else d ← unhex c; hex_value true (16 * acc + d) l
  end.
Definition hex_prefixed (l : list ascii) : option Z :=
  match l with
  | c :: x :: l' =>
      if bool_decide (c = "0"%char) && one_of "xX" x
      then hex_value true 0 l' ≫= λ n, if bool_decide (l' = []) then None else Some n
      else hex_value false 0 l
  | _ => hex_value false 0 l
  end.
Definition int_space (c : ascii) : bool := in_range 9 13 c || bool_decide (c = " "%char).
Fixpoint drop_spaces (l : list ascii) : list ascii :=
  match l with c :: l' => if int_space c then drop_spaces l' else l | [] => [] end.
Definition strip_spaces (l : list ascii) : list ascii :=
  reverse (drop_spaces (reverse (drop_spaces l))).
Definition int_16 (l : list ascii) : option Z :=
  match strip_spaces l with
  | c :: l' =>
      if bool_decide (c = "-"%char) then Z.opp <$> hex_prefixed l'
      else if bool_decide (c = "+"%char) then hex_prefixed l'
      else hex_prefixed (c :: l')
  | [] => None
  end.

Section uuid.
Context `{Unicode}.
(** What [int] reads of a character. *)
Definition int_char (c : option string) : ascii :=
  match c with
  | Some (String a "") => a
  | Some c =>
      if unicode_space c then " "%char
      else match unicode_digit c with Some d => of_code (48 + d) | None => "?"%char end
  | None => "?"%char
  end.
(** [UUID(hex)]; [None] is the [ValueError]. *)
Definition uuid_parse (hex : string) : option UUID :=
  let hex := str_delete "uuid:" 0 (str_delete "urn:" 0 hex) in
  let hex := str_delete "-" 0 (rstrip (one_of "{}") (lstrip (one_of "{}") hex)) in
  let chars := utf8 hex in
  if negb (bool_decide (length chars = 32%nat)) then None
  else
    n ← int_16 (int_char <$> chars);
    if (0 <=? n) && (n <? 2 ^ 128) then Some (Z.to_N n) else None.
End uuid.

(** * Lemmas

    The functions of [Url.v] that print and those that read are inverse. *)

(** ** Characters *)

(** A property of the 256 characters, by computing it. *)
Definition all_chars : list ascii := of_code <$> seqZ 0 256.
Lemma char_cases (p : ascii → bool) : forallb p all_chars = true → ∀ c, p c = true.
Proof.
  intros Hp c. rewrite forallb_forall in Hp. apply Hp, list_elem_of_In.
  pose proof (N_ascii_bounded c). apply list_elem_of_fmap. exists (code c). split.
  - unfold of_code, code. by rewrite N2Z.id, ascii_N_embedding.
  - apply elem_of_seqZ. unfold code. lia.
Qed.
Ltac by_chars := refine (char_cases (λ c, _) _); vm_compute; reflexivity.

Lemma str_all_app p (a b : string) : str_all p (a +:+ b) = str_all p a && str_all p b.
Proof. induction a as [|c a IH]; str_simpl; [done|]. by rewrite IH, andb_assoc. Qed.
Lemma str_all_impl (p q : ascii → bool) s :
  (∀ c, p c = true → q c = true) → str_all p s = true → str_all q s = true.
Proof.
  intros Hpq. induction s as [|c s IH]; cbn; [done|]. intros [Hc Hs]%andb_true_iff.
  by rewrite (Hpq _ Hc), IH.
Qed.
Lemma str_has_all p c s : str_all p s = true → p c = false → str_has c s = false.
Proof.
  intros Hs Hc. induction s as [|x s IH]; cbn in *; [done|].
  apply andb_true_iff in Hs as [Hx Hs]. rewrite bool_decide_eq_false_2 by (intros ->; congruence).
  by apply IH.
Qed.
Lemma str_filter_all p s : str_all p s = true → str_filter p s = s.
Proof. induction s as [|c s IH]; cbn; [done|]. intros [-> Hs]%andb_true_iff. by rewrite IH. Qed.
Lemma str_map_id f s : str_all (λ c, bool_decide (f c = c)) s = true → str_map f s = s.
Proof.
  induction s as [|c s IH]; cbn; [done|]. intros [Hc Hs]%andb_true_iff.
  apply bool_decide_eq_true in Hc. by rewrite Hc, IH.
Qed.
Lemma str_span_all p s : str_all p s = true → str_span p s = (s, "").
Proof. induction s as [|c s IH]; cbn; [done|]. intros [-> Hs]%andb_true_iff. by rewrite IH. Qed.
Lemma str_span_app p a c b :
  str_all p a = true → p c = false → str_span p (a +:+ String c b) = (a, String c b).
Proof.
  intros Ha Hc. induction a as [|x a IH]; str_simpl; [by rewrite Hc|].
  apply andb_true_iff in Ha as [-> Ha]. by rewrite IH.
Qed.
Lemma not_char_all c s : str_has c s = false → str_all (λ x, negb (bool_decide (x = c))) s = true.
Proof.
  induction s as [|x s IH]; cbn; [done|]. intros [Hx Hs]%orb_false_iff.
  rewrite bool_decide_eq_false in Hx. rewrite bool_decide_eq_false_2 by congruence. by rewrite IH.
Qed.
Lemma str_cut_none c s : str_has c s = false → str_cut c s = None.
Proof. intros Hs. unfold str_cut. by rewrite str_span_all by by apply not_char_all. Qed.
Lemma str_cut_app c a b : str_has c a = false → str_cut c (a +:+ String c b) = Some (a, b).
Proof.
  intros Ha. unfold str_cut. rewrite str_span_app; [done|by apply not_char_all|].
  by rewrite bool_decide_eq_true_2.
Qed.

(** ** UTF-8 *)

(** Valid bytes are the characters one after the other. *)
Lemma utf8_cons a s l :
  utf8 (String a s) = l →
  (∃ c s', String a s = c +:+ s' ∧ l = Some c :: utf8 s') ∨ (∃ l', l = None :: l').
Proof.
  intros <-. cbn [utf8]. destruct (is_ascii a); [left; by exists (String a ""), s|].
  destruct (in_range 194 223 a).
  { destruct s as [|b s]; [by right; eexists|]. destruct (is_continuation b); [|by right; eexists].
    left. by exists (String a (String b "")), s. }
  destruct (in_range 224 239 a).
  { destruct s as [|b s]; [by right; eexists|]. destruct (second3 a b); [|by right; eexists].
    destruct s as [|c s]; [by right; eexists|]. destruct (is_continuation c); [|by right; eexists].
    left. by exists (String a (String b (String c ""))), s. }
  destruct (in_range 240 244 a); [|by right; eexists].
  destruct s as [|b s]; [by right; eexists|]. destruct (second4 a b); [|by right; eexists].
  destruct s as [|c s]; [by right; eexists|]. destruct (is_continuation c); [|by right; eexists].
  destruct s as [|d s]; [by right; eexists|]. destruct (is_continuation d); [|by right; eexists].
  left. by exists (String a (String b (String c (String d "")))), s.
Qed.
Lemma str_join_empty_cons w l : str_join "" (w :: l) = w +:+ str_join "" l.
Proof. destruct l; [by rewrite str_app_nil_r|done]. Qed.
Lemma utf8_replace_valid s : utf8_valid s = true → utf8_replace s = s.
Proof.
  unfold utf8_valid, utf8_replace. remember (String.length s) as n eqn:Hn.
  revert s Hn. induction n as [n IH] using lt_wf_ind. intros s -> Hs.
  destruct s as [|a s]; [done|].
  destruct (utf8_cons a s _ eq_refl) as [(c & s' & E & El)|(l' & El)]; rewrite El in Hs |- *; [|done].
  cbn [fmap list_fmap]. rewrite str_join_empty_cons, E. cbn [default from_option id]. f_equal.
  apply (IH (String.length s')); [|done|done].
  destruct c as [|c0 c]; [str_simpl; subst s'; exfalso; clear -El|rewrite E; str_simpl; rewrite str_length_app; lia].
  pose proof (f_equal length El) as Hlen. cbn [length] in Hlen. lia.
Qed.
Lemma utf8_ascii s : str_all is_ascii s = true → utf8 s = (λ c, Some (String c "")) <$> String.list_ascii_of_string s.
Proof. induction s as [|c s IH]; cbn; [done|]. intros [-> Hs]%andb_true_iff. by rewrite IH. Qed.
Lemma utf8_valid_ascii s : str_all is_ascii s = true → utf8_valid s = true.
Proof.
  intros Hs. unfold utf8_valid. rewrite utf8_ascii by done. apply forallb_forall.
  intros x (c & <- & _)%in_map_iff. done.
Qed.

(** ** Quoting *)

Definition url_char (c : ascii) : bool := always_safe c || one_of "%+" c.
Lemma quoted_char c :
  (if always_safe c then negb (one_of "%+" c)
   else (bool_decide (c = " "%char) || bool_decide (unhex (hex_digit true (code c / 16)) = Some (code c / 16)
     ∧ unhex (hex_digit true (code c mod 16)) = Some (code c mod 16)
     ∧ of_code (16 * (code c / 16) + code c mod 16) = c
     ∧ always_safe (hex_digit true (code c / 16)) = true ∧ always_safe (hex_digit true (code c mod 16)) = true))) = true.
Proof. revert c. by_chars. Qed.
Lemma safe_not_plus c : always_safe c = true → c ≠ "+"%char ∧ c ≠ "%"%char.
Proof. intros Hc. split; intros ->; discriminate Hc. Qed.
Lemma plus_to_space_safe c s :
  always_safe c = true → plus_to_space (String c s) = String c (plus_to_space s).
Proof.
  intros [Hc _]%safe_not_plus. unfold plus_to_space. cbn [str_map]. by rewrite bool_decide_eq_false_2.
Qed.
Lemma unquote_quote s : unquote_to_bytes (plus_to_space (quote_plus s)) = s.
Proof.
  induction s as [|c s IH]; [done|]. cbn [quote_plus]. pose proof (quoted_char c) as Hq.
  destruct (always_safe c) eqn:Ec.
  - rewrite plus_to_space_safe by done. cbn [unquote_to_bytes].
    rewrite bool_decide_eq_false_2 by by apply safe_not_plus. by rewrite IH.
  - case_bool_decide as Hsp.
    { subst. change (plus_to_space (String "+" ?x)) with (String " " (plus_to_space x)).
      cbn [unquote_to_bytes]. rewrite bool_decide_eq_false_2 by discriminate. by rewrite IH. }
    cbn [orb] in Hq. apply bool_decide_eq_true in Hq as (H1 & H2 & H3 & H4 & H5).
    change (plus_to_space (String "%" ?x)) with (String "%" (plus_to_space x)).
    rewrite !plus_to_space_safe by done. cbn [unquote_to_bytes].
    rewrite (bool_decide_eq_true_2 ("%"%char = "%"%char)) by done. by rewrite H1, H2, H3, IH.
Qed.
Lemma unquote_strict_quote s : utf8_valid s = true → unquote_strict (quote_plus s) = Some s.
Proof. intros Hs. unfold unquote_strict. by rewrite unquote_quote, Hs. Qed.
Lemma unquote_plus_quote s : utf8_valid s = true → unquote_plus (quote_plus s) = s.
Proof. intros Hs. unfold unquote_plus. by rewrite unquote_quote, utf8_replace_valid. Qed.
Lemma url_char_safe c : always_safe c = true → url_char c = true.
Proof. unfold url_char. by intros ->. Qed.
Lemma quote_chars s : str_all url_char (quote_plus s) = true.
Proof.
  induction s as [|c s IH]; [done|]. cbn [quote_plus]. pose proof (quoted_char c) as Hq.
  destruct (always_safe c) eqn:Ec; [cbn [str_all]; by rewrite url_char_safe|].
  case_bool_decide as Hsp; [cbn [str_all]; by rewrite IH|].
  cbn [orb] in Hq. apply bool_decide_eq_true in Hq as (_ & _ & _ & H4 & H5).
  cbn [str_all]. by rewrite (url_char_safe _ H4), (url_char_safe _ H5), IH.
Qed.
Lemma quote_nonempty s : s ≠ "" → quote_plus s ≠ "".
Proof. destruct s as [|c s]; [done|]. intros _. cbn. by repeat case_match. Qed.

(** ** Queries *)

(** The fields of a query whose names are distinct come back, each with one value. *)
Definition single (query : list (string * string)) : odict string (list string) :=
  (λ kv, (kv.1, [kv.2])) <$> query.
Definition query_valid (query : list (string * string)) : Prop :=
  Forall (λ kv, utf8_valid kv.1 = true ∧ utf8_valid kv.2 = true) query.
Lemma quoted_no c s : url_char c = false → str_has c (quote_plus s) = false.
Proof. intros Hc. eapply str_has_all; [apply quote_chars|done]. Qed.
Lemma od_set_new {V} (d : odict string V) k v : k ∉ od_keys d → od_set d k v = (d ++ [(k, v)])%list.
Proof.
  induction d as [|[k' v'] d IH]; cbn; [done|]. intros Hk. rewrite decide_False by set_solver.
  rewrite IH by set_solver. done.
Qed.
Lemma od_get_new {V} (d : odict string V) k : k ∉ od_keys d → od_get d k = None.
Proof. intros Hk. by apply od_get_None. Qed.
Definition field (kv : string * string) : string := quote_plus kv.1 +:+ "=" +:+ quote_plus kv.2.
Lemma field_nonempty kv : field kv ≠ "".
Proof. unfold field. destruct (quote_plus kv.1); done. Qed.
Lemma field_no c kv : url_char c = false → c ≠ "="%char → str_has c (field kv) = false.
Proof.
  intros Hc Hne. unfold field. rewrite !str_has_app, !quoted_no by done. cbn.
  by rewrite bool_decide_eq_false_2.
Qed.
Lemma query_field_ok keep strict kv d :
  utf8_valid kv.1 = true → utf8_valid kv.2 = true → keep = true ∨ kv.2 ≠ "" → kv.1 ∉ od_keys d →
  query_field unquote_strict keep strict (field kv) d = Some (d ++ single [kv])%list ∧
  query_field (Some ∘ unquote_plus) keep strict (field kv) d = Some (d ++ single [kv])%list.
Proof.
  intros H1 H2 Hk Hnew. unfold query_field. rewrite bool_decide_eq_false_2 by apply field_nonempty.
  cbn [andb]. unfold field. change ("=" +:+ ?x) with (String "=" x).
  rewrite str_cut_app by by apply quoted_no.
  assert (bool_decide (quote_plus kv.2 = "") && negb keep = false) as ->.
  { destruct Hk as [->|Hk]; [by rewrite andb_false_r|].
    rewrite bool_decide_eq_false_2; [done|by apply quote_nonempty]. }
  rewrite !unquote_strict_quote by done. unfold compose. rewrite !unquote_plus_quote by done. cbn.
  unfold add_value. by rewrite od_get_new, od_set_new.
Qed.
Lemma single_keys query : od_keys (single query) = query.*1.
Proof. unfold od_keys, single. rewrite <-list_fmap_compose. done. Qed.
Lemma query_fields_ok keep strict query d :
  query_valid query → (keep = true ∨ Forall (λ kv, kv.2 ≠ "") query) →
  NoDup (od_keys d ++ query.*1)%list →
  query_fields unquote_strict keep strict (field <$> query) d = Some (d ++ single query)%list ∧
  query_fields (Some ∘ unquote_plus) keep strict (field <$> query) d = Some (d ++ single query)%list.
Proof.
  intros Hv. revert d. induction Hv as [|kv query [H1 H2] Hv IH]; intros d Hk Hn.
  { cbn. by rewrite app_nil_r. }
  destruct (query_field_ok keep strict kv d) as [E1 E2]; [done|done| | |].
  { destruct Hk as [?|Hk]; [by left|right]. by inversion Hk. }
  { intros Hin. apply NoDup_app in Hn as (_ & Hn & _). apply (Hn _ Hin). cbn. set_solver. }
  cbn [fmap list_fmap query_fields]. rewrite E1, E2. cbn [mbind option_bind].
  replace (d ++ single (kv :: query))%list with ((d ++ single [kv]) ++ single query)%list
    by by rewrite <-app_assoc.
  apply IH.
  - destruct Hk as [?|Hk]; [by left|right]. by inversion Hk.
  - unfold od_keys in *. rewrite fmap_app. rewrite <-app_assoc. exact Hn.
Qed.
Lemma urlencode_fields query : urlencode query = str_join "&" (field <$> query).
Proof. unfold urlencode. f_equal. apply list_fmap_ext. by intros ? [k v] _. Qed.
Lemma urlencode_nonempty query : query ≠ [] → urlencode query ≠ "".
Proof.
  rewrite urlencode_fields. destruct query as [|kv [|kv' query]]; [done| |]; intros _; cbn.
  - apply field_nonempty.
  - pose proof (field_nonempty kv) as Hf. by destruct (field kv).
Qed.
Lemma parse_qs_ok keep strict query :
  query_valid query → (keep = true ∨ Forall (λ kv, kv.2 ≠ "") query) → NoDup query.*1 →
  parse_qs unquote_strict keep strict (urlencode query) = Some (single query) ∧
  parse_qs (Some ∘ unquote_plus) keep strict (urlencode query) = Some (single query).
Proof.
  intros Hv Hk Hn. destruct query as [|kv query]; [done|]. unfold parse_qs.
  rewrite bool_decide_eq_false_2 by by apply urlencode_nonempty.
  rewrite urlencode_fields. change "&" with (String "&" ""). rewrite split_join; [|done|].
  - by apply query_fields_ok.
  - apply Forall_fmap, Forall_true. intros x. by apply field_no.
Qed.

(** ** Splitting *)

Definition printable : ascii → bool := in_range 33 126.
Definition netloc_char (c : ascii) : bool := printable c && negb (one_of "/?#[]" c).
Definition path_char (c : ascii) : bool := printable c && negb (one_of "?#" c).
Definition query_char (c : ascii) : bool := printable c && negb (one_of "#" c).
Lemma char_impl (p q : ascii → bool) :
  forallb (λ c, implb (p c) (q c)) all_chars = true → ∀ c, p c = true → q c = true.
Proof. intros H c Hc. pose proof (char_cases _ H c) as Hq. cbn in Hq. by rewrite Hc in Hq. Qed.
Ltac by_impl := refine (char_impl _ _ _); vm_compute; reflexivity.

Lemma lstrip_id p s : str_all (λ c, negb (p c)) s = true → lstrip p s = s.
Proof.
  unfold lstrip. destruct s as [|c s]; cbn; [done|]. intros [Hc _]%andb_true_iff.
  apply negb_true_iff in Hc. by rewrite Hc.
Qed.
Lemma printable_kept s :
  str_all printable s = true →
  str_filter (λ c, negb (one_of (String (of_code 9) (String (of_code 10) (String (of_code 13) ""))) c))
    (lstrip (in_range 0 32) s) = s.
Proof.
  intros Hs. rewrite lstrip_id.
  - apply str_filter_all. revert Hs. apply str_all_impl. by_impl.
  - revert Hs. apply str_all_impl. by_impl.
Qed.
Lemma split_scheme_ok scheme rest :
  scheme ≠ "" → str_all is_lower scheme = true →
  split_scheme (scheme +:+ String ":" rest) = (scheme, rest).
Proof.
  intros Hne Hs. unfold split_scheme. rewrite str_cut_app by by eapply str_has_all.
  rewrite bool_decide_eq_false_2 by done. cbn [negb andb].
  assert (str_all scheme_char scheme = true) as -> by (revert Hs; apply str_all_impl; by_impl).
  f_equal. apply str_map_id. revert Hs. apply str_all_impl. by_impl.
Qed.
(** The path as it is printed. *)
Definition rooted (path : string) : string :=
  if bool_decide (path = "") || bool_decide (is_Some (strip_prefix "/" path)) then path else "/" +:+ path.
Definition query_part (query : string) : string :=
  if bool_decide (query = "") then "" else "?" +:+ query.
Lemma rooted_cases path : rooted path = "" ∨ ∃ p, rooted path = String "/" p.
Proof.
  unfold rooted. destruct path as [|c p]; [by left|]. right. cbn.
  destruct (bool_decide ("/"%char = c)) eqn:E; cbn; [|by eexists].
  apply bool_decide_eq_true in E. subst. by eexists.
Qed.
Lemma rooted_all p path : p "/"%char = true → str_all p path = true → str_all p (rooted path) = true.
Proof. intros Hc Hp. unfold rooted. destruct (_ || _); [done|]. str_simpl. by rewrite Hc. Qed.
Lemma urlunsplit_eq scheme netloc path query :
  scheme ≠ "" → netloc ≠ "" →
  urlunsplit scheme netloc path query
  = scheme +:+ String ":" ("//" +:+ netloc +:+ rooted path +:+ query_part query).
Proof.
  intros Hs Hn. unfold urlunsplit. rewrite (bool_decide_eq_false_2 (netloc = "")) by done.
  rewrite (bool_decide_eq_false_2 (scheme = "")) by done. cbn [negb orb]. fold (rooted path).
  unfold query_part. case_bool_decide; [by rewrite str_app_nil_r|]. rewrite !str_app_assoc. done.
Qed.
Lemma urlsplit_print `{Unicode} scheme netloc path query :
  scheme ≠ "" → netloc ≠ "" → str_all is_lower scheme = true →
  str_all netloc_char netloc = true → str_all path_char path = true → str_all query_char query = true →
  urlsplit (urlunsplit scheme netloc path query) = Some (mkSplitResult scheme netloc (rooted path) query).
Proof.
  intros Hs Hn Hsc Hnc Hpc Hqc. rewrite urlunsplit_eq by done. unfold urlsplit.
  set (path' := rooted path).
  assert (str_all path_char path' = true) as Hpc' by by apply rooted_all.
  assert (str_all query_char (query_part query) = true) as Hqp.
  { unfold query_part. case_bool_decide; [done|]. by str_simpl. }
  assert (str_all printable netloc = true) as Hnp by (revert Hnc; apply str_all_impl; by_impl).
  assert (str_all printable path' = true) as Hpp by (revert Hpc'; apply str_all_impl; by_impl).
  assert (str_all printable (query_part query) = true) as Hqp' by (revert Hqp; apply str_all_impl; by_impl).
  rewrite printable_kept.
  2: { rewrite str_all_app. cbn [str_all]. rewrite !str_all_app, Hnp, Hpp, Hqp'.
       rewrite (str_all_impl is_lower printable) by (by_impl || done). done. }
  rewrite split_scheme_ok by done. rewrite strip_prefix_app.
  assert (str_span (λ c, negb (one_of "/?#" c)) (netloc +:+ path' +:+ query_part query)
    = (netloc, path' +:+ query_part query)) as ->.
  { assert (str_all (λ c, negb (one_of "/?#" c)) netloc = true) as Hnn
      by (revert Hnc; apply str_all_impl; by_impl).
    destruct (rooted_cases path) as [E|[p E]]; fold path' in E; rewrite E; str_simpl.
    - unfold query_part. case_bool_decide; [rewrite str_app_nil_r; by apply str_span_all|].
      str_simpl. by apply str_span_app.
    - by apply str_span_app. }
  assert (brackets_match netloc = true) as ->.
  { unfold brackets_match. by rewrite !(str_has_all netloc_char _ netloc) by done. }
  cbn [negb]. rewrite str_cut_none.
  2: { rewrite str_has_app, (str_has_all path_char), (str_has_all query_char) by done. done. }
  assert (str_all is_ascii netloc = true) as -> by (revert Hnp; apply str_all_impl; by_impl).
  cbn [orb]. unfold query_part. case_bool_decide as Hq.
  - subst query. rewrite str_app_nil_r, str_cut_none by by eapply (str_has_all path_char). done.
  - str_simpl. rewrite str_cut_app by by eapply (str_has_all path_char). done.
Qed.

(** The host and the port of a network location. *)
Definition host_char (c : ascii) : bool := netloc_char c && negb (one_of ":@%" c) && negb (is_upper c).
Lemma after_last_none c s : str_has c s = false → after_last c s = s.
Proof. intros Hs. unfold after_last. by rewrite split_on_none. Qed.
Lemma int_of_digits_go x s :
  int_of_digits 0 (pretty_N_go x s) = int_of_digits (Z.of_N x) s ∧
  (str_all is_digit s = true → str_all is_digit (pretty_N_go x s) = true) ∧
  (s ≠ "" ∨ (0 < x)%N → pretty_N_go x s ≠ "").
Proof.
  revert s. induction (N.lt_wf_0 x) as [x _ IH]; intros s.
  destruct (decide (x = 0%N)) as [->|Hx].
  { rewrite pretty_N_go_0. split_and!; [done|done|]. intros [?|?]; [done|lia]. }
  rewrite pretty_N_go_step by lia.
  assert ((x mod 10 < 10)%N) as Hm by (apply N.mod_lt; lia).
  assert (code (pretty_N_char (x mod 10)) = 48 + Z.of_N (x mod 10) ∧ is_digit (pretty_N_char (x mod 10)) = true)
    as [Hc Hd].
  { revert Hm. generalize (x mod 10)%N. clear. intros y Hy.
    assert (y = 0 ∨ y = 1 ∨ y = 2 ∨ y = 3 ∨ y = 4 ∨ y = 5 ∨ y = 6 ∨ y = 7 ∨ y = 8 ∨ y = 9)%N
      as Hc by lia. repeat destruct Hc as [->|Hc]; subst; split; reflexivity. }
  destruct (IH (x `div` 10)%N ltac:(by apply N.div_lt; lia) (String (pretty_N_char (x mod 10)) s)) as (H1 & H2 & H3).
  split_and!; [|intros Hs; apply H2; cbn; by rewrite Hd|intros _; apply H3; by left].
  rewrite H1. cbn [int_of_digits]. f_equal. rewrite Hc.
  pose proof (N.div_mod x 10 ltac:(lia)). lia.
Qed.
Lemma str_of_int_ok n :
  0 <= n → int_of_digits 0 (str_of_int n) = n ∧ str_all is_digit (str_of_int n) = true ∧ str_of_int n ≠ "".
Proof.
  intros Hn. assert (str_of_int n = pretty (Z.to_N n)) as -> by by destruct n.
  unfold pretty, pretty_N. case_decide as Hz; [by replace n with 0 by lia|].
  destruct (int_of_digits_go (Z.to_N n) "") as (H1 & H2 & H3). rewrite H1. cbn.
  split_and!; [lia|by apply H2|apply H3; lia].
Qed.

Section host.
Context `{Unicode} (scheme path query : string).
Lemma host_lower host : str_all host_char host = true → str_lower host = host.
Proof.
  intros Hh. unfold str_lower.
  assert (str_all is_ascii host = true) as -> by (revert Hh; apply str_all_impl; by_impl).
  apply str_map_id. revert Hh. apply str_all_impl. by_impl.
Qed.
Lemma hostinfo_host host : str_all host_char host = true → hostinfo host = (host, "").
Proof.
  intros Hh. unfold hostinfo. rewrite after_last_none by by eapply str_has_all.
  rewrite str_cut_none by by eapply str_has_all. by rewrite str_cut_none by by eapply str_has_all.
Qed.
Lemma hostinfo_port host port :
  str_all host_char host = true → str_all is_digit port = true →
  hostinfo (host +:+ String ":" port) = (host, port).
Proof.
  intros Hh Hp. unfold hostinfo. rewrite after_last_none.
  2: { rewrite str_has_app. cbn. by rewrite (str_has_all host_char), (str_has_all is_digit). }
  rewrite str_cut_none.
  2: { rewrite str_has_app. cbn. by rewrite (str_has_all host_char), (str_has_all is_digit). }
  by rewrite str_cut_app by by eapply (str_has_all host_char).
Qed.
Lemma host_read netloc host port :
  host ≠ "" → str_all host_char host = true → hostinfo netloc = (host, port) →
  sr_hostname (mkSplitResult scheme netloc path query) = Some host.
Proof.
  intros Hne Hh Hi. unfold sr_hostname. cbn. rewrite Hi. cbn. rewrite bool_decide_eq_false_2 by done.
  rewrite str_cut_none by by eapply (str_has_all host_char). by rewrite host_lower.
Qed.
Lemma port_none netloc host :
  hostinfo netloc = (host, "") → sr_port (mkSplitResult scheme netloc path query) = Some None.
Proof. intros Hi. unfold sr_port. cbn. by rewrite Hi. Qed.
Lemma port_read netloc host port :
  0 <= port <= 65535 → hostinfo netloc = (host, str_of_int port) →
  sr_port (mkSplitResult scheme netloc path query) = Some (Some port).
Proof.
  intros Hp Hi. destruct (str_of_int_ok port) as (H1 & H2 & H3); [lia|].
  unfold sr_port. cbn. rewrite Hi. cbn. rewrite bool_decide_eq_false_2 by done. rewrite H1, H2. cbn.
  by destruct (Z.leb_spec port 65535); [|lia].
Qed.
End host.

(** ** Digits *)

Lemma length_digits_be base n x : length (digits_be base n x) = n.
Proof. revert x. induction n as [|n IH]; intros x; cbn; [done|]. rewrite length_app, IH. cbn. lia. Qed.
Lemma digits_be_range base n x : 0 < base → Forall (λ d, 0 <= d < base) (digits_be base n x).
Proof.
  intros Hb. revert x. induction n as [|n IH]; intros x; cbn; [constructor|].
  apply Forall_app. split; [apply IH|]. constructor; [|constructor]. by apply Z.mod_pos_bound.
Qed.
Lemma of_digits_be base n x : 0 < base → of_digits base (digits_be base n x) = x mod base ^ Z.of_nat n.
Proof.
  intros Hb. revert x. induction n as [|n IH]; intros x.
  { cbn. by rewrite Z.mod_1_r. }
  cbn [digits_be]. unfold of_digits in *. rewrite foldl_app, IH. cbn [foldl].
  rewrite Nat2Z.inj_succ, Z.pow_succ_r, Z.rem_mul_r by lia. lia.
Qed.
Lemma take_digits_be base n m x :
  0 < base → take n (digits_be base (n + m) x) = digits_be base n (x / base ^ Z.of_nat m).
Proof.
  intros Hb. revert x. induction m as [|m IH]; intros x.
  { rewrite Nat.add_0_r, Z.div_1_r, take_ge; [done|]. by rewrite length_digits_be. }
  rewrite Nat.add_succ_r. cbn [digits_be]. rewrite take_app_le by (rewrite length_digits_be; lia).
  rewrite IH. f_equal. rewrite Nat2Z.inj_succ, Z.pow_succ_r by lia. by rewrite Z.div_div by lia.
Qed.
Lemma of_list_ascii l : String.list_ascii_of_string (of_list l) = l.
Proof. induction l as [|c l IH]; cbn; [done|by rewrite IH]. Qed.
Lemma length_of_list l : String.length (of_list l) = length l.
Proof. induction l as [|c l IH]; cbn; [done|by rewrite IH]. Qed.
Lemma of_list_app l l' : of_list (l ++ l') = of_list l +:+ of_list l'.
Proof. induction l as [|c l IH]; str_simpl; [done|by rewrite IH]. Qed.
Lemma substring_of_list n m l : String.substring n m (of_list l) = of_list (take m (drop n l)).
Proof.
  revert l m. induction n as [|n IH]; intros [|c l] m; cbn; [by destruct m| |by destruct m; rewrite ?take_nil|apply IH].
  revert c l. induction m as [|m IH]; intros c l; cbn; [done|]. f_equal.
  destruct l as [|c' l]; [by destruct m|]. apply (IH c' l).
Qed.
Lemma str_all_of_list p l : str_all p (of_list l) = forallb p l.
Proof. induction l as [|c l IH]; cbn; [done|by rewrite IH]. Qed.

(** ** Base 32 *)

Lemma b32symbol_ok d : 0 <= d < 32 → b32rev (b32symbol d) = Some d ∧ b32symbol d ≠ "="%char ∧ b32symbol d ≠ "s"%char
  ∧ is_ascii (b32symbol d) = true.
Proof.
  intros Hd. assert (d ∈ seqZ 0 32) as Hin by (apply elem_of_seqZ; lia). revert d Hd Hin.
  assert (forallb (λ d, bool_decide (b32rev (b32symbol d) = Some d ∧ b32symbol d ≠ "="%char ∧ b32symbol d ≠ "s"%char
    ∧ is_ascii (b32symbol d) = true)) (seqZ 0 32) = true) as H by (vm_compute; reflexivity).
  intros d _ Hin. rewrite forallb_forall in H. apply list_elem_of_In, H in Hin.
  by apply bool_decide_eq_true in Hin.
Qed.
Lemma b32groups_full ds l :
  length ds = 8%nat →
  b32groups (ds ++ l) = (default [] (to_bytes true 5 (of_digits 32 ds)) ++ b32groups l)%list.
Proof. intros Hl. do 8 (destruct ds as [|? ds]; [done|]). by destruct ds. Qed.
Lemma b32groups_last ds :
  (0 < length ds < 8)%nat →
  b32groups ds = take ((43 - 5 * (8 - length ds)) / 8)
    (default [] (to_bytes true 5 (of_digits 32 ds * 32 ^ Z.of_nat (8 - length ds)))).
Proof.
  intros Hl. destruct ds as [|? ds]; [cbn in Hl; lia|]. do 7 (destruct ds as [|? ds]; [reflexivity|]).
  cbn in Hl. lia.
Qed.
Lemma from_bytes_zeros b n : from_bytes true (b ++ replicate n Byte.x00) = from_bytes true b * 256 ^ Z.of_nat n.
Proof.
  unfold from_bytes. rewrite reverse_app, reverse_replicate.
  induction n as [|n IH]; [cbn; lia|]. rewrite Nat2Z.inj_succ, Z.pow_succ_r by lia.
  cbn [replicate app le_to_Z]. rewrite IH. cbn. lia.
Qed.
(** What is encoded: the digits and the padding. *)
Definition b32shape (b : bytes) (ds : list Z) (pad : nat) : Prop :=
  b32encode b = of_list (b32symbol <$> ds) +:+ of_list (replicate pad "="%char) ∧
  Forall (λ d, 0 <= d < 32) ds ∧ ((length ds + pad) mod 8 = 0)%nat ∧ pad ∈ [0; 1; 3; 4; 6]%nat ∧
  b32groups ds = b.
Lemma b32last_ok b : (0 < length b < 5)%nat → ∃ ds pad, b32last b = of_list (b32symbol <$> ds) +:+ of_list (replicate pad "="%char) ∧
  Forall (λ d, 0 <= d < 32) ds ∧ ((length ds + pad) mod 8 = 0)%nat ∧ pad ∈ [0; 1; 3; 4; 6]%nat ∧
  b32groups ds = b.
Proof.
  intros Hb. set (pad := b32pad (length b)). set (x := from_bytes true (b ++ replicate (5 - length b) Byte.x00)).
  assert (0 < pad < 8 ∧ pad ∈ [0; 1; 3; 4; 6] ∧ (43 - 5 * pad) / 8 = length b)%nat as (Hp & Hin & Hleft).
  { subst pad. destruct b as [|? [|? [|? [|? [|]]]]]; cbn in Hb; try lia; cbn; (split; [lia|]);
      (split; [set_solver|reflexivity]). }
  assert (0 <= x < 256 ^ 5) as Hx.
  { pose proof (from_bytes_bound true (b ++ replicate (5 - length b) Byte.x00)) as H.
    rewrite length_app, length_replicate in H. replace (length b + (5 - length b))%nat with 5%nat in H by lia. exact H. }
  exists (digits_be 32 (8 - pad) (x / 32 ^ Z.of_nat pad)), pad.
  split_and!; [|by apply digits_be_range|rewrite length_digits_be; by replace (8 - pad + pad)%nat with 8%nat by lia|done|].
  - unfold b32last. fold pad. f_equal. unfold b32group. fold x. rewrite substring_of_list, drop_0, <-fmap_take.
    do 2 f_equal. replace 8%nat with (8 - pad + pad)%nat at 2 by lia. by apply take_digits_be.
  - rewrite b32groups_last by (rewrite length_digits_be; lia). rewrite length_digits_be.
    replace (8 - (8 - pad))%nat with pad by lia. rewrite Hleft, of_digits_be by lia.
    assert (x = (x / 32 ^ Z.of_nat pad) * 32 ^ Z.of_nat pad) as Hdiv.
    { subst x. rewrite from_bytes_zeros.
      assert (∃ y, 256 ^ Z.of_nat (5 - length b) = y * 32 ^ Z.of_nat pad) as [y Hy].
      { subst pad. destruct b as [|? [|? [|? [|? [|]]]]]; cbn in Hb; try lia;
          cbn -[Z.pow]; [exists 4|exists 16|exists 2|exists 8]; reflexivity. }
      rewrite Hy, Z.mul_assoc, Z.div_mul by (apply Z.pow_nonzero; lia). done. }
    rewrite Z.mod_small.
    + rewrite <-Hdiv. pose proof (to_bytes_from_bytes true (b ++ replicate (5 - length b) Byte.x00)) as E.
      rewrite length_app, length_replicate in E. replace (length b + (5 - length b))%nat with 5%nat in E by lia.
      fold x in E. rewrite E. cbn [default from_option id]. by rewrite take_app_length.
    + split; [apply Z.div_pos; [lia|apply Z.pow_pos_nonneg; lia]|].
      apply Z.div_lt_upper_bound; [apply Z.pow_pos_nonneg; lia|].
      rewrite <-Z.pow_add_r by lia. replace (Z.of_nat pad + Z.of_nat (8 - pad)) with 8 by lia. exact (proj2 Hx).
Qed.
Lemma b32shape_ok b : ∃ ds pad, b32shape b ds pad.
Proof.
  remember (length b) as n eqn:Hn. revert b Hn. induction n as [n IH] using lt_wf_ind. intros b ->.
  destruct b as [|b1 b]; [by exists [], O; split_and!; try done; set_solver|].
  destruct b as [|b2 [|b3 [|b4 [|b5 b]]]];
    [apply (b32last_ok [_]); cbn; lia|apply (b32last_ok [_; _]); cbn; lia
    |apply (b32last_ok [_; _; _]); cbn; lia|apply (b32last_ok [_; _; _; _]); cbn; lia|].
  destruct (IH (length b) ltac:(cbn; lia) b eq_refl) as (ds & pad & E & Hr & Hl & Hp & Hg).
  set (g := [b1; b2; b3; b4; b5]). exists (digits_be 32 8 (from_bytes true g) ++ ds)%list, pad. split_and!.
  - cbn [b32encode]. fold g. rewrite E. unfold b32group. by rewrite fmap_app, of_list_app, str_app_assoc.
  - apply Forall_app. split; [by apply digits_be_range|done].
  - rewrite length_app, length_digits_be, <-Nat.add_assoc, Nat.add_comm.
    change 8%nat with (1 * 8)%nat at 1. by rewrite Nat.Div0.mod_add.
  - done.
  - rewrite b32groups_full by by rewrite length_digits_be. rewrite of_digits_be, Hg by lia.
    rewrite Z.mod_small by exact (from_bytes_bound true g).
    pose proof (to_bytes_from_bytes true g) as Et. change (length g) with 5%nat in Et. by rewrite Et.
Qed.
Lemma str_rev_app acc a b : str_rev acc (a +:+ b) = str_rev (str_rev acc a) b.
Proof. revert acc. induction a as [|c a IH]; intros acc; str_simpl; [done|apply IH]. Qed.
Lemma str_rev_acc acc s : str_rev acc s = str_rev "" s +:+ acc.
Proof.
  revert acc. induction s as [|c s IH]; intros acc; cbn; [done|].
  rewrite IH, (IH (String c "")), str_app_assoc. done.
Qed.
Lemma str_rev_rev acc s : str_rev "" (str_rev acc s) = str_rev s acc.
Proof. revert acc. induction s as [|c s IH]; intros acc; cbn; [done|]. by rewrite IH. Qed.
Lemma str_all_rev p acc s : str_all p (str_rev acc s) = str_all p acc && str_all p s.
Proof.
  revert acc. induction s as [|c s IH]; intros acc; cbn; [by rewrite andb_true_r|].
  rewrite IH. cbn. by destruct (p c), (str_all p acc), (str_all p s).
Qed.
Lemma rstrip_pad p s t :
  str_all (λ c, negb (p c)) s = true → str_all p t = true → rstrip p (s +:+ t) = s.
Proof.
  intros Hs Ht. unfold rstrip. rewrite str_rev_app, (str_rev_acc (str_rev "" s) t). unfold lstrip.
  assert (str_all p (str_rev "" t) = true) as Ht' by by rewrite str_all_rev.
  assert (str_all (λ c, negb (p c)) (str_rev "" s) = true) as Hs' by by rewrite str_all_rev.
  assert ((str_span p (str_rev "" t +:+ str_rev "" s)).2 = str_rev "" s) as ->.
  { destruct (str_rev "" s) as [|c r]; [by rewrite str_app_nil_r, str_span_all|].
    cbn in Hs'. apply andb_true_iff in Hs' as [Hc _]. by rewrite str_span_app by (done || by apply negb_true_iff). }
  by rewrite str_rev_rev.
Qed.
Lemma mapM_b32 ds : Forall (λ d, 0 <= d < 32) ds → mapM b32rev (b32symbol <$> ds) = Some ds.
Proof.
  induction 1 as [|d ds Hd _ IH]; [done|]. rewrite fmap_cons. cbn [mapM].
  by rewrite (proj1 (b32symbol_ok _ Hd)), IH.
Qed.
Lemma b32_body p ds : Forall (λ d, 0 <= d < 32) ds → (∀ d, 0 <= d < 32 → p (b32symbol d) = true) →
  str_all p (of_list (b32symbol <$> ds)) = true.
Proof.
  intros Hd Hp. rewrite str_all_of_list. apply forallb_forall. intros c (d & <- & Hin)%in_map_iff.
  apply Hp. rewrite Forall_forall in Hd. apply Hd. by apply list_elem_of_In.
Qed.
Lemma str_all_pad p n : p "="%char = true → str_all p (of_list (replicate n "="%char)) = true.
Proof. intros Hp. rewrite str_all_of_list. induction n as [|n IH]; cbn; [done|]. by rewrite Hp. Qed.
Lemma b32decode_encode b : b32decode (b32encode b) = Some b.
Proof.
  destruct (b32shape_ok b) as (ds & pad & E & Hr & Hl & Hp & Hg). unfold b32decode. rewrite E.
  rewrite rstrip_pad.
  2: { apply b32_body; [done|]. intros d Hd. destruct (b32symbol_ok d Hd) as (_ & Hne & _).
       by rewrite bool_decide_eq_false_2. }
  2: { by apply str_all_pad. }
  rewrite str_length_app, !length_of_list, length_fmap, length_replicate.
  replace (length ds + pad - length ds)%nat with pad by lia.
  rewrite !bool_decide_eq_true_2 by done. cbn [negb orb].
  rewrite of_list_ascii, mapM_b32 by done. cbn. by rewrite Hg.
Qed.

(** ** UUIDs *)

Lemma hex_digit_ok d :
  0 <= d < 16 → unhex (hex_digit false d) = Some d ∧
    (in_range 48 57 (hex_digit false d) || in_range 97 102 (hex_digit false d)) = true.
Proof.
  intros Hd. assert (d ∈ seqZ 0 16) as Hin by (apply elem_of_seqZ; lia).
  assert (forallb (λ d, bool_decide (unhex (hex_digit false d) = Some d ∧
    (in_range 48 57 (hex_digit false d) || in_range 97 102 (hex_digit false d)) = true)) (seqZ 0 16) = true)
    as H by (vm_compute; reflexivity).
  rewrite forallb_forall in H. apply list_elem_of_In, H in Hin. by apply bool_decide_eq_true in Hin.
Qed.
Definition hex_char (c : ascii) : bool := in_range 48 57 c || in_range 97 102 c.
Lemma uuid_hex_chars u : str_all hex_char (uuid_hex u) = true.
Proof.
  unfold uuid_hex. rewrite str_all_of_list. apply forallb_forall. intros c (d & <- & Hin)%in_map_iff.
  apply hex_digit_ok. pose proof (digits_be_range 16 32 (Z.of_N u) ltac:(lia)) as H.
  rewrite Forall_forall in H. apply H. by apply list_elem_of_In.
Qed.
Lemma str_delete_none p c s : str_has c s = false → str_delete (String c p) 0 s = s.
Proof.
  induction s as [|x s IH]; cbn; [done|]. intros [Hx Hs]%orb_false_iff. rewrite Hx.
  rewrite bool_decide_eq_false_2 by by intros [? ?]. by rewrite IH.
Qed.
Lemma str_delete_char c a b :
  str_delete (String c "") 0 (a +:+ b) = str_delete (String c "") 0 a +:+ str_delete (String c "") 0 b.
Proof.
  induction a as [|x a IH]; str_simpl; [done|]. destruct (bool_decide (c = x)); cbn.
  - exact IH.
  - by rewrite IH.
Qed.
Lemma hex_value_ok after acc ds :
  Forall (λ d, 0 <= d < 16) ds → after = true ∨ ds ≠ [] →
  hex_value after acc (hex_digit false <$> ds) = Some (foldl (λ acc d, acc * 16 + d) acc ds).
Proof.
  intros Hd. revert after acc. induction Hd as [|d ds Hd _ IH]; intros after acc Ha; cbn.
  { by destruct Ha as [->|?]. }
  destruct (hex_digit_ok d Hd) as [Hu Hc]. rewrite bool_decide_eq_false_2.
  2: { intros E. by rewrite E in Hc. }
  rewrite Hu. cbn. rewrite IH by by left. f_equal. f_equal. lia.
Qed.
Lemma drop_spaces_none l : Forall (λ c, int_space c = false) l → drop_spaces l = l.
Proof. destruct 1 as [|c l Hc _]; cbn; [done|by rewrite Hc]. Qed.
Lemma int_16_ok ds :
  (2 <= length ds)%nat → Forall (λ d, 0 <= d < 16) ds → int_16 (hex_digit false <$> ds) = Some (of_digits 16 ds).
Proof.
  intros Hl Hd. assert (∀ d, 0 <= d < 16 → hex_char (hex_digit false d) = true) as Hh
    by (intros d H; by apply hex_digit_ok).
  assert (Forall (λ c, int_space c = false) (hex_digit false <$> ds)) as Hs.
  { apply Forall_fmap. eapply Forall_impl; [exact Hd|]. intros d H%Hh. cbn.
    apply (char_impl hex_char (λ c, negb (int_space c))) in H; [|by vm_compute].
    by apply negb_true_iff. }
  unfold int_16, strip_spaces. rewrite (drop_spaces_none _ Hs).
  rewrite drop_spaces_none by by apply Forall_reverse. rewrite reverse_involutive.
  destruct ds as [|d1 [|d2 ds]]; [cbn in Hl; lia..|].
  pose proof (hex_value_ok false 0 _ Hd) as E. specialize (E ltac:(by right)).
  rewrite fmap_cons in E |- *. inversion Hd as [|? ? Hd1 Hd']; subst. inversion Hd' as [|? ? Hd2 _]; subst.
  apply Hh in Hd1. apply Hh in Hd2.
  rewrite bool_decide_eq_false_2 by (intros X; by rewrite X in Hd1).
  rewrite bool_decide_eq_false_2 by (intros X; by rewrite X in Hd1).
  unfold hex_prefixed. rewrite fmap_cons in E |- *.
  apply (char_impl hex_char (λ c, negb (one_of "xX" c))) in Hd2; [|by vm_compute].
  apply negb_true_iff in Hd2. rewrite Hd2, andb_false_r. exact E.
Qed.
Lemma hex_char_impl (p : ascii → bool) s :
  forallb (λ c, implb (hex_char c) (p c)) all_chars = true → str_all hex_char s = true → str_all p s = true.
Proof. intros H. apply str_all_impl. by apply char_impl. Qed.
Lemma forallb_drop {A} (p : A → bool) n l : forallb p l = true → forallb p (drop n l) = true.
Proof.
  revert n. induction l as [|x l IH]; intros [|n]; cbn; [done..|]. intros [_ Hl]%andb_true_iff. by apply IH.
Qed.
Lemma forallb_take {A} (p : A → bool) n l : forallb p l = true → forallb p (take n l) = true.
Proof.
  revert n. induction l as [|x l IH]; intros [|n]; cbn; [done..|]. intros [-> Hl]%andb_true_iff. by apply IH.
Qed.
Lemma str_all_substring p n m s : str_all p s = true → str_all p (String.substring n m s) = true.
Proof.
  intros Hs. assert (∃ l, s = of_list l) as [l ->].
  { clear. induction s as [|c s [l ->]]; [by exists []|by exists (c :: l)]. }
  rewrite substring_of_list, str_all_of_list. rewrite str_all_of_list in Hs.
  by apply forallb_take, forallb_drop.
Qed.

Section uuid.
Context `{Unicode}.
Lemma uuid_parse_print u : (u < 2 ^ 128)%N → uuid_parse (uuid_hex u) = Some u ∧ uuid_parse (uuid_str u) = Some u.
Proof.
  intros Hu. set (h := uuid_hex u). pose proof (uuid_hex_chars u) as Hh. fold h in Hh.
  assert (∀ c, hex_char c = false → str_has c h = false) as Hno
    by (intros c Hc; by eapply str_has_all).
  (* the rest of the parsing, once the dashes are gone *)
  assert (∀ s, str_all (λ c, hex_char c || one_of "-" c) s = true → str_delete "-" 0 s = h →
    uuid_parse s = Some u) as Hparse.
  { intros s Hs Hd. unfold uuid_parse.
    rewrite (str_delete_none "rn:" "u"%char) by by eapply str_has_all.
    rewrite (str_delete_none "uid:" "u"%char) by by eapply str_has_all.
    assert (rstrip (one_of "{}") (lstrip (one_of "{}") s) = s) as Hstrip.
    { rewrite lstrip_id by (revert Hs; apply str_all_impl; by_impl).
      rewrite <-(str_app_nil_r s) at 1. apply rstrip_pad; [|done]. revert Hs; apply str_all_impl; by_impl. }
    rewrite Hstrip, Hd.
    assert (str_all is_ascii h = true) as Ha by (revert Hh; apply hex_char_impl; by vm_compute).
    rewrite utf8_ascii by done. subst h. unfold uuid_hex. rewrite of_list_ascii.
    rewrite !length_fmap, length_digits_be. rewrite bool_decide_eq_true_2 by done. cbn [negb].
    rewrite <-list_fmap_compose. 
    rewrite (list_fmap_ext _ id) by done. rewrite list_fmap_id.
    rewrite int_16_ok; [|by rewrite length_digits_be; lia|by apply digits_be_range].
    rewrite of_digits_be, Z.mod_small by lia. cbn [mbind option_bind].
    replace ((0 <=? Z.of_N u) && (Z.of_N u <? 2 ^ 128)) with true by lia. by rewrite N2Z.id. }
  split; apply Hparse.
  - revert Hh. apply hex_char_impl. by vm_compute.
  - by apply str_delete_none, Hno.
  - unfold uuid_str. fold h. rewrite !str_all_app. cbn [str_all].
    assert (∀ n m, str_all (λ c, hex_char c || one_of "-" c) (String.substring n m h) = true) as Hpiece.
    { intros n m. apply str_all_substring. revert Hh. apply hex_char_impl. by vm_compute. }
    by rewrite !Hpiece.
  - unfold uuid_str. fold h.
    assert (∀ n m, str_has "-" (String.substring n m h) = false) as Hpiece.
    { intros n m. apply (str_has_all hex_char); [by apply str_all_substring|done]. }
    rewrite !str_delete_char, !(str_delete_none "" "-"%char _ (Hpiece _ _)). cbn [str_delete].
    change (str_delete "-" 0 "-") with "". rewrite !str_app_empty.
    unfold h, uuid_hex. rewrite !substring_of_list, <-!of_list_app. reflexivity.
Qed.
End uuid.
