(* ===== verification/BackendAddr.v ===== *)
(** The addresses of the servers, of the organizations, of the invitations and of the
    links to files: [guardata/client/types/backend_address.py], with the identifiers of
    [guardata/api/protocol/types.py] and the root key of [guardata/crypto/__init__.py]. *)

From Stdlib Require Import Ascii.
From S2P Require Import Prelude PyString Types Chunk EntryTransactions Backend Handshake Url.

#[local] Open Scope string_scope.
#[local] Open Scope Z_scope.

Inductive AddrExn := AddrValueError | AddrAssertionError.
#[export] Instance AddrExn_eq_dec : EqDecision AddrExn.
Proof. solve_decision. Defined.
Definition or_value_error {A} (o : option A) : result AddrExn A :=
  match o with Some a => Ok a | None => Err AddrValueError end.

(** What PyNaCl accepts as a verify key. *)
Class VerifyKeyApi := { verify_key_ok : bytes → bool }.

Section addresses.
Context `{Unicode, VerifyKeyApi}.

(** ** Identifiers *)

(** [[\w\-]] and [[\w\-]{1,32}] *)
Definition id_char (c : option string) : bool :=
  match c with
  | Some (String a "") => is_alnum a || one_of "_-" a
  | Some c => unicode_word c
  | None => false
  end.
Definition id_body (s : string) : bool :=
  forallb id_char (utf8 s) && (1 <=? length (utf8 s))%nat && (length (utf8 s) <=? 32)%nat.
(** [$] also matches before a last newline. *)
Fixpoint chomp (s : string) : string :=
  match s with
  | EmptyString => ""
  | String c "" => if bool_decide (c = of_code 10) then "" else s
  | String c s => String c (chomp s)
  end.
Definition id_match (s : string) : bool := id_body s || id_body (chomp s).
(** [OrganizationID(raw)], [UserID(raw)] and [DeviceName(raw)] *)
Definition organization_id_new (raw : string) : result AddrExn OrganizationID :=
  if negb (id_match raw) || (32 <? String.length raw)%nat then Err AddrValueError else Ok raw.
Definition user_id_new (raw : string) : result AddrExn UserID :=
  if negb (id_match raw) || (32 <? String.length raw)%nat then Err AddrValueError else Ok raw.
(** [DeviceID(raw)], in its two parts *)
Definition device_id_new (raw : string) : result AddrExn DeviceID :=
  match str_cut "@" raw with
  | Some (u, d) =>
      if negb (id_body u && id_match d) || (65 <? String.length raw)%nat then Err AddrValueError
      else Ok (mkDeviceID u d)
  | None => Err AddrValueError
  end.

(** ** The root key *)

Definition replace_char (a b c : ascii) : ascii := if bool_decide (c = a) then b else c.
Definition export_root_verify_key (key : VerifyKey) : string := str_map (replace_char "=" "s") (b32encode key).
Definition import_root_verify_key (raw : string) : result AddrExn VerifyKey :=
  key ← or_value_error (b32decode (str_map (replace_char "s" "=") raw));
  if verify_key_ok key then Ok key else Err AddrValueError.

(** ** [BackendAddr] *)

Definition PARSEC_SCHEME : string := "parsec".
Record BackendAddr := mkBackendAddr { ba_hostname : string; ba_port : Z; ba_use_ssl : bool }.
(** [_parse_port]: the port to use, and the one to add to the location. *)
Definition parse_port (port : option Z) (use_ssl : bool) : Z * option Z :=
  let default_port := if use_ssl then 443 else 80 in
  match port with
  | Some p => if bool_decide (p ≠ default_port) then (p, Some p) else (default_port, None)
  | None => (default_port, None)
  end.
(** [BackendAddr.__init__] *)
Definition backend_addr (hostname : string) (port : option Z) (use_ssl : bool) : result AddrExn BackendAddr :=
  if bool_decide (is_Some (strip_prefix "parsec://" hostname)) then Err AddrAssertionError
  else Ok (mkBackendAddr hostname (parse_port port use_ssl).1 use_ssl).

(** The classes, and their instances with the attributes of each one. *)
Inductive AddrClass :=
| CBackendAddr | CBackendOrganizationAddr | CBackendOrganizationBootstrapAddr
| CBackendOrganizationClaimUserAddr | CBackendOrganizationClaimDeviceAddr
| CBackendOrganizationFileLinkAddr | CBackendInvitationAddr.
Inductive Addr :=
| ABackendAddr (b : BackendAddr)
| BackendOrganizationAddr (b : BackendAddr) (organization_id : OrganizationID) (root_verify_key : VerifyKey)
| BackendOrganizationBootstrapAddr (b : BackendAddr) (organization_id : OrganizationID) (token : string)
| BackendOrganizationClaimUserAddr (b : BackendAddr) (organization_id : OrganizationID)
    (root_verify_key : VerifyKey) (user_id : UserID) (token : option string)
| BackendOrganizationClaimDeviceAddr (b : BackendAddr) (organization_id : OrganizationID)
    (root_verify_key : VerifyKey) (device_id : DeviceID) (token : option string)
| BackendOrganizationFileLinkAddr (b : BackendAddr) (organization_id : OrganizationID)
    (root_verify_key : VerifyKey) (workspace_id : EntryID) (path : FsPath)
| BackendInvitationAddr (b : BackendAddr) (organization_id : OrganizationID)
    (invitation_type : InvitationType) (token : UUID).
Definition addr_class (a : Addr) : AddrClass :=
  match a with
  | ABackendAddr _ => CBackendAddr
  | BackendOrganizationAddr _ _ _ => CBackendOrganizationAddr
  | BackendOrganizationBootstrapAddr _ _ _ => CBackendOrganizationBootstrapAddr
  | BackendOrganizationClaimUserAddr _ _ _ _ _ => CBackendOrganizationClaimUserAddr
  | BackendOrganizationClaimDeviceAddr _ _ _ _ _ => CBackendOrganizationClaimDeviceAddr
  | BackendOrganizationFileLinkAddr _ _ _ _ _ => CBackendOrganizationFileLinkAddr
  | BackendInvitationAddr _ _ _ _ => CBackendInvitationAddr
  end.
Definition addr_base (a : Addr) : BackendAddr :=
  match a with
  | ABackendAddr b | BackendOrganizationAddr b _ _ | BackendOrganizationBootstrapAddr b _ _
  | BackendOrganizationClaimUserAddr b _ _ _ _ | BackendOrganizationClaimDeviceAddr b _ _ _ _
  | BackendOrganizationFileLinkAddr b _ _ _ _ | BackendInvitationAddr b _ _ _ => b
  end.

(** *** Reading *)

(** The parameters of a query; a name is popped at most once. *)
Abbreviation Params := (odict string (list string)) (only parsing).
Definition params_pop (params : Params) (name : string) (default_value : list string) : list string :=
  default default_value (od_get params name).
Definition single_value (value : list string) : result AddrExn string :=
  match value with [v] => Ok v | _ => Err AddrValueError end.

(** [BackendAddr._from_url_parse_and_consume_params] *)
Definition use_ssl_param (params : Params) : result AddrExn bool :=
  value ← single_value (params_pop params "no_ssl" ["false"]);
  let value := str_lower value in
  if bool_decide (value = "false") then Ok true
  else if bool_decide (value = "true") then Ok false
  else Err AddrValueError.
(** [OrganizationParamsFixture._from_url_parse_and_consume_params] *)
Definition rvk_param (params : Params) : result AddrExn VerifyKey :=
  value ← single_value (params_pop params "rvk" []); import_root_verify_key value.
Definition action_param (params : Params) (action : string) : result AddrExn unit :=
  value ← single_value (params_pop params "action" []);
  if bool_decide (value ≠ action) then Err AddrValueError else Ok tt.
Definition token_param (params : Params) : option string := head (params_pop params "token" []).
(** [_from_url_parse_and_consume_params] of each class, after [use_ssl]: what it gives
    with the organization and the base. *)
Definition bootstrap_params (params : Params) : result AddrExn string :=
  _ ← action_param params "bootstrap_organization";
  token ← single_value (params_pop params "token" []);
  if bool_decide (token = "") then Err AddrValueError else Ok token.
Definition claim_user_params (params : Params) : result AddrExn (VerifyKey * UserID * option string) :=
  rvk ← rvk_param params;
  _ ← action_param params "claim_user";
  user_id ← single_value (params_pop params "user_id" []);
  user_id ← user_id_new user_id;
  mret (rvk, user_id, token_param params).
Definition claim_device_params (params : Params) : result AddrExn (VerifyKey * DeviceID * option string) :=
  rvk ← rvk_param params;
  _ ← action_param params "claim_device";
  device_id ← single_value (params_pop params "device_id" []);
  device_id ← device_id_new device_id;
  mret (rvk, device_id, token_param params).
Definition file_link_params (params : Params) : result AddrExn (VerifyKey * EntryID * FsPath) :=
  rvk ← rvk_param params;
  _ ← action_param params "file_link";
  workspace_id ← single_value (params_pop params "workspace_id" []);
  workspace_id ← or_value_error (uuid_parse workspace_id);
  path ← single_value (params_pop params "path" []);
  path ← match fs_path path with Ok path => Ok path | Err _ => Err AddrValueError end;
  mret (rvk, workspace_id, path).
Definition invitation_params (params : Params) : result AddrExn (InvitationType * UUID) :=
  action ← single_value (params_pop params "action" []);
  invitation_type ← (if bool_decide (action = "claim_user") then Ok USER_INVITATION
                     else if bool_decide (action = "claim_device") then Ok DEVICE_INVITATION
                     else Err AddrValueError);
  token ← single_value (params_pop params "token" []);
  token ← or_value_error (uuid_parse token);
  mret (invitation_type, token).
Definition consume_params (c : AddrClass) (params : Params)
    : result AddrExn (OrganizationID → BackendAddr → Addr) :=
  match c with
  | CBackendAddr => mret (λ _ b, ABackendAddr b)
  | CBackendOrganizationAddr => rvk ← rvk_param params; mret (λ org b, BackendOrganizationAddr b org rvk)
  | CBackendOrganizationBootstrapAddr =>
      token ← bootstrap_params params; mret (λ org b, BackendOrganizationBootstrapAddr b org token)
  | CBackendOrganizationClaimUserAddr =>
      '(rvk, user_id, token) ← claim_user_params params;
      mret (λ org b, BackendOrganizationClaimUserAddr b org rvk user_id token)
  | CBackendOrganizationClaimDeviceAddr =>
      '(rvk, device_id, token) ← claim_device_params params;
      mret (λ org b, BackendOrganizationClaimDeviceAddr b org rvk device_id token)
  | CBackendOrganizationFileLinkAddr =>
      '(rvk, workspace_id, path) ← file_link_params params;
      mret (λ org b, BackendOrganizationFileLinkAddr b org rvk workspace_id path)
  | CBackendInvitationAddr =>
      '(invitation_type, token) ← invitation_params params;
      mret (λ org b, BackendInvitationAddr b org invitation_type token)
  end.

(** [_from_url_parse_path]; [BackendAddr] has no organization. *)
Definition from_url_parse_path (c : AddrClass) (path : string) : result AddrExn OrganizationID :=
  match c with
  | CBackendAddr =>
      if bool_decide (path ∈ [""; "/"]) then Ok "" else Err AddrValueError
  | _ => organization_id_new (str_tail path)
  end.

(** [BackendAddr.from_url], for a class *)
Definition from_url (c : AddrClass) (url : string) : result AddrExn Addr :=
  split ← or_value_error (urlsplit url);
  if bool_decide (sr_scheme split ≠ PARSEC_SCHEME) then Err AddrValueError
  else
    hostname ← or_value_error (sr_hostname split);
    params ← (if bool_decide (sr_query split ≠ "")
              then or_value_error (parse_qs unquote_strict true true (sr_query split)) else Ok []);
    let path := unquote_plus (sr_path split) in
    use_ssl ← use_ssl_param params;
    make ← consume_params c params;
    organization_id ← from_url_parse_path c path;
    port ← or_value_error (sr_port split);
    b ← backend_addr hostname port use_ssl;
    mret (make organization_id b).
(** [BackendActionAddr.from_url]: the first class that takes the address; only a
    [ValueError] makes it go on. *)
Fixpoint first_of (l : list AddrClass) (url : string) : result AddrExn Addr :=
  match l with
  | [] => Err AddrValueError
  | c :: l =>
      match from_url c url with
      | Err AddrValueError => first_of l url
      | r => r
      end
  end.
Definition action_from_url (url : string) : result AddrExn Addr :=
  first_of [CBackendOrganizationBootstrapAddr; CBackendOrganizationClaimUserAddr;
            CBackendOrganizationClaimDeviceAddr; CBackendOrganizationFileLinkAddr;
            CBackendInvitationAddr] url.

(** *** Printing *)

(** [_to_url_get_path] and [_to_url_get_params] *)
Definition to_url_get_path (a : Addr) : string :=
  match a with
  | ABackendAddr _ => ""
  | BackendOrganizationAddr _ org _ | BackendOrganizationBootstrapAddr _ org _
  | BackendOrganizationClaimUserAddr _ org _ _ _ | BackendOrganizationClaimDeviceAddr _ org _ _ _
  | BackendOrganizationFileLinkAddr _ org _ _ _ | BackendInvitationAddr _ org _ _ => org
  end.
Definition no_ssl_params (b : BackendAddr) : list (string * string) :=
  if ba_use_ssl b then [] else [("no_ssl", "true")].
Definition rvk_params (b : BackendAddr) (rvk : VerifyKey) : list (string * string) :=
  (no_ssl_params b ++ [("rvk", export_root_verify_key rvk)])%list.
(** [if self._token: params.append(("token", self._token))] *)
Definition token_params (token : option string) : list (string * string) :=
  match token with
  | Some t => if bool_decide (t = "") then [] else [("token", t)]
  | None => []
  end.
Definition to_url_get_params (a : Addr) : list (string * string) :=
  match a with
  | ABackendAddr b => no_ssl_params b
  | BackendOrganizationAddr b _ rvk => rvk_params b rvk
  | BackendOrganizationBootstrapAddr b _ token =>
      ("action", "bootstrap_organization") :: ("token", token) :: no_ssl_params b
  | BackendOrganizationClaimUserAddr b _ rvk user_id token =>
      ("action", "claim_user") :: ("user_id", user_id) :: (token_params token ++ rvk_params b rvk)%list
  | BackendOrganizationClaimDeviceAddr b _ rvk device_id token =>
      ("action", "claim_device") :: ("device_id", device_id_str device_id)
        :: (token_params token ++ rvk_params b rvk)%list
  | BackendOrganizationFileLinkAddr b _ rvk workspace_id path =>
      ("action", "file_link") :: ("workspace_id", uuid_str workspace_id) :: ("path", path_str path)
        :: rvk_params b rvk
  | BackendInvitationAddr b _ invitation_type token =>
      ("action", if decide (invitation_type = USER_INVITATION) then "claim_user" else "claim_device")
        :: ("token", uuid_hex token) :: no_ssl_params b
  end.
(** [if custom_port]: a port 0 is not printed. *)
Definition truthy_port (port : option Z) : option Z :=
  match port with Some 0 => None | _ => port end.
Definition addr_netloc (b : BackendAddr) : string :=
  match truthy_port (parse_port (Some (ba_port b)) (ba_use_ssl b)).2 with
  | Some port => ba_hostname b +:+ ":" +:+ str_of_int port
  | None => ba_hostname b
  end.
(** [to_url] *)
Definition to_url (a : Addr) : string :=
  urlunsplit PARSEC_SCHEME (addr_netloc (addr_base a)) (quote_plus (to_url_get_path a))
    (urlencode (to_url_get_params a)).
(** [__eq__] *)
Definition addr_eq (a a' : Addr) : bool := bool_decide (to_url a = to_url a').

(** [to_http_redirection_url] of an invitation *)
Definition to_http_redirection_url (a : Addr) : string :=
  let b := addr_base a in
  let query := urlencode (filter (λ kv, kv.1 ≠ "no_ssl") (to_url_get_params a)) in
  let path := "/redirect/" +:+ quote_plus (to_url_get_path a) in
  urlunsplit (if ba_use_ssl b then "https" else "http") (addr_netloc b) path query.

(** *** Building *)

(** [BackendOrganizationAddr.build], which [generate_organization_addr] and
    [to_organization_addr] call *)
Definition build_organization_addr (backend_addr_ : BackendAddr) (organization_id : OrganizationID)
    (root_verify_key : VerifyKey) : result AddrExn Addr :=
  b ← backend_addr (ba_hostname backend_addr_) (Some (ba_port backend_addr_)) (ba_use_ssl backend_addr_);
  mret (BackendOrganizationAddr b organization_id root_verify_key).
Definition generate_organization_addr (a : Addr) (root_verify_key : VerifyKey) : result AddrExn Addr :=
  build_organization_addr (addr_base a) (to_url_get_path a) root_verify_key.
End addresses.
