(* ===== verification/BackendAddrProperties.v ===== *)
(** What is printed as an address is read as the same address, by its class and by
    [BackendActionAddr]. *)

From Stdlib Require Import Ascii.
From S2P Require Import Prelude PyString Types Chunk EntryTransactions EntryProperties Backend.
From S2P Require Import Handshake Url BackendAddr.

#[local] Open Scope string_scope.
#[local] Open Scope Z_scope.

#[local] Arguments export_root_verify_key : simpl never.
#[local] Arguments uuid_str : simpl never.
#[local] Arguments uuid_hex : simpl never.
#[local] Arguments path_str : simpl never.
#[local] Arguments device_id_str : simpl never.
#[local] Arguments utf8_valid : simpl never.

(** Looks the names of the parameters up. *)
Ltac params_cbn :=
  unfold consume_params, bootstrap_params, claim_user_params, claim_device_params, file_link_params,
    invitation_params, rvk_param, action_param, token_param, params_pop;
  cbn; unfold rvk_params, no_ssl_params, token_params; cbn;
  repeat (case_decide; try discriminate; try congruence; cbn);
  repeat (rewrite bool_decide_eq_true_2 by done || rewrite bool_decide_eq_false_2 by done); cbn.

Section addresses.
Context `{Unicode, VerifyKeyApi}.

(** ** Well-formed addresses *)

(** A host of printable ASCII in lower case that has none of the characters that end
    it, and a port of TCP. *)
Record base_ok (b : BackendAddr) : Prop := {
  bo_host : ba_hostname b ≠ "";
  bo_chars : str_all host_char (ba_hostname b) = true;
  bo_port : 0 < ba_port b <= 65535 }.
(** Python strings are valid, identifiers and keys were accepted, the optional tokens
    are not empty. *)
Definition token_ok (token : option string) : Prop :=
  match token with Some t => t ≠ "" ∧ utf8_valid t = true | None => True end.
Definition org_ok (org : OrganizationID) : Prop := organization_id_new org = Ok org ∧ utf8_valid org = true.
Definition extra_ok (a : Addr) : Prop :=
  match a with
  | ABackendAddr _ => True
  | BackendOrganizationAddr _ org rvk => org_ok org ∧ verify_key_ok rvk = true
  | BackendOrganizationBootstrapAddr _ org token => org_ok org ∧ token ≠ "" ∧ utf8_valid token = true
  | BackendOrganizationClaimUserAddr _ org rvk user_id token =>
      org_ok org ∧ verify_key_ok rvk = true ∧ (user_id_new user_id = Ok user_id ∧ utf8_valid user_id = true)
      ∧ token_ok token
  | BackendOrganizationClaimDeviceAddr _ org rvk device_id token =>
      org_ok org ∧ verify_key_ok rvk = true ∧
      (device_id_new (device_id_str device_id) = Ok device_id ∧ utf8_valid (device_id_str device_id) = true) ∧
      token_ok token
  | BackendOrganizationFileLinkAddr _ org rvk workspace_id path =>
      org_ok org ∧ verify_key_ok rvk = true ∧ (workspace_id < 2 ^ 128)%N ∧
      (Forall valid_name path ∧ utf8_valid (path_str path) = true)
  | BackendInvitationAddr _ org _ token => org_ok org ∧ (token < 2 ^ 128)%N
  end.
Definition addr_ok (a : Addr) : Prop := base_ok (addr_base a) ∧ extra_ok a.

(** ** The parts of an address *)

Lemma export_chars key : str_all (λ c, is_ascii c) (export_root_verify_key key) = true.
Proof.
  unfold export_root_verify_key. destruct (b32shape_ok key) as (ds & pad & -> & Hr & _).
  set (s := _ +:+ _). assert (str_all is_ascii s = true) as Hs.
  { subst s. rewrite str_all_app, str_all_pad by done. rewrite b32_body; [done|done|].
    intros d Hd. by apply b32symbol_ok. }
  clearbody s. induction s as [|c s IH]; cbn; [done|]. apply andb_true_iff in Hs as [Hc Hs].
  rewrite IH by done. unfold replace_char. case_bool_decide; [done|by rewrite Hc].
Qed.
Lemma str_map_app f (a b : string) : str_map f (a +:+ b) = str_map f a +:+ str_map f b.
Proof. induction a as [|c a IH]; str_simpl; [done|]. by rewrite IH. Qed.
Lemma str_map_map f g s : str_map f (str_map g s) = str_map (f ∘ g) s.
Proof. induction s as [|c s IH]; cbn; [done|]. by rewrite IH. Qed.
Lemma import_export key : verify_key_ok key = true → import_root_verify_key (export_root_verify_key key) = Ok key.
Proof.
  intros Hk. unfold import_root_verify_key, export_root_verify_key. rewrite str_map_map.
  rewrite str_map_id; [by rewrite b32decode_encode; cbn; rewrite Hk|].
  destruct (b32shape_ok key) as (ds & pad & -> & Hr & _). rewrite str_all_app.
  rewrite str_all_pad by done. rewrite b32_body; [done|done|]. intros d Hd.
  destruct (b32symbol_ok d Hd) as (_ & H1 & H2 & _). unfold compose, replace_char.
  rewrite (bool_decide_eq_false_2 (b32symbol d = "="%char)) by done.
  rewrite (bool_decide_eq_false_2 (b32symbol d = "s"%char)) by done. by apply bool_decide_eq_true.
Qed.
Lemma uuid_str_ascii u : str_all is_ascii (uuid_str u) = true ∧ str_all is_ascii (uuid_hex u) = true.
Proof.
  assert (str_all is_ascii (uuid_hex u) = true) as Hh
    by (generalize (uuid_hex_chars u); apply hex_char_impl; by vm_compute).
  split; [|done]. unfold uuid_str. rewrite !str_all_app, !str_all_substring by done. done.
Qed.

(** The parameters of a well-formed address. *)
Lemma params_valid a :
  extra_ok a → query_valid (to_url_get_params a) ∧ NoDup (to_url_get_params a).*1.
Proof.
  assert (∀ s, str_all is_ascii s = true → utf8_valid s = true) as Ha by apply utf8_valid_ascii.
  assert (∀ b, query_valid (no_ssl_params b)) as Hssl.
  { intros b. unfold no_ssl_params. destruct (ba_use_ssl b); repeat constructor. }
  assert (∀ b rvk, query_valid (rvk_params b rvk)) as Hrvk.
  { intros b rvk. apply Forall_app. split; [apply Hssl|]. constructor; [|constructor]. split; [done|].
    apply Ha, export_chars. }
  assert (∀ t, token_ok t → query_valid (token_params t)) as Htok.
  { intros [t|] Ht; [|constructor]. unfold token_params. destruct Ht.
    rewrite bool_decide_eq_false_2 by done. by repeat constructor. }
  intros Hx. split.
  - destruct a; cbn in Hx |- *; try (by apply Hssl || by apply Hrvk); destruct_and?;
      repeat (constructor; [split; [done|cbn; try done]|]); try (by apply Hssl || by apply Hrvk).
    all: try (apply Forall_app; split; [by apply Htok|by apply Hrvk]).
    all: try (apply Ha, uuid_str_ascii). by case_decide.
  - destruct a as [b|b ? ?|b ? ?|b ? ? ? t|b ? ? ? t|b ? ? ? ?|b ? ? ?]; cbn; unfold rvk_params, no_ssl_params;
      try destruct t as [t|]; cbn; try case_bool_decide; destruct (ba_use_ssl b); cbn;
      apply (bool_decide_unpack _); vm_compute; exact I.
Qed.
Lemma field_chars kv : str_all query_char (field kv) = true.
Proof.
  unfold field. assert (∀ s, str_all query_char (quote_plus s) = true) as Hq
    by (intros s; generalize (quote_chars s); apply str_all_impl; by_impl).
  by rewrite !str_all_app, !Hq.
Qed.
Lemma urlencode_chars query : str_all query_char (urlencode query) = true.
Proof.
  rewrite urlencode_fields. induction query as [|kv query IH]; [done|].
  cbn [fmap list_fmap]. destruct query as [|kv' query]; [cbn; apply field_chars|].
  rewrite str_join_cons by done. rewrite !str_all_app, field_chars. exact IH.
Qed.

(** The location is read back. *)
Lemma netloc_ok b (Hb : base_ok b) path query :
  let r := mkSplitResult PARSEC_SCHEME (addr_netloc b) path query in
  addr_netloc b ≠ "" ∧ str_all netloc_char (addr_netloc b) = true ∧
  sr_hostname r = Some (ba_hostname b) ∧
  ∃ port, sr_port r = Some port ∧ (parse_port port (ba_use_ssl b)).1 = ba_port b.
Proof.
  destruct Hb as [Hne Hch Hport]. destruct b as [host port ssl]. cbn in *. set (d := if ssl then 443 else 80).
  assert (str_all netloc_char host = true) as Hnc by (revert Hch; apply str_all_impl; by_impl).
  destruct (decide (port = d)) as [Hd|Hd].
  - assert (addr_netloc (mkBackendAddr host port ssl) = host) as ->.
    { unfold addr_netloc, parse_port. cbn. fold d. by rewrite bool_decide_eq_false_2 by tauto. }
    split_and!; [done|done| |].
    + eapply host_read; [done|done|]. by apply hostinfo_host.
    + exists None. split; [eapply port_none; by apply hostinfo_host|]. by cbn.
  - assert (addr_netloc (mkBackendAddr host port ssl) = host +:+ String ":" (str_of_int port)) as ->.
    { unfold addr_netloc, parse_port. cbn. fold d. rewrite bool_decide_eq_true_2 by done. destruct port; [lia|done|lia]. }
    destruct (str_of_int_ok port) as (_ & Hdig & _); [lia|]. split_and!.
    + by destruct host.
    + rewrite str_all_app, Hnc. cbn. revert Hdig. apply str_all_impl. by_impl.
    + eapply host_read; [done|done|]. by apply hostinfo_port.
    + exists (Some port). split.
      * eapply port_read; [lia|]. by apply hostinfo_port.
      * unfold parse_port. fold d. by rewrite bool_decide_eq_true_2.
Qed.
(** The path is read back. *)
Definition printed_path (org : string) : string := if bool_decide (org = "") then "" else "/" +:+ org.
Lemma unquote_rooted org : utf8_valid org = true → unquote_plus (rooted (quote_plus org)) = printed_path org.
Proof.
  intros Ho. destruct (decide (org = "")) as [->|He]; [reflexivity|].
  unfold rooted, printed_path. rewrite (bool_decide_eq_false_2 (org = "")) by done.
  assert (quote_plus org ≠ "") as Hq by by apply quote_nonempty.
  rewrite bool_decide_eq_false_2 by done.
  assert (bool_decide (is_Some (strip_prefix "/" (quote_plus org))) = false) as ->.
  { apply bool_decide_eq_false_2. intros [r E%strip_prefix_Some].
    pose proof (quote_chars org) as Hc. by rewrite E in Hc. }
  cbn [orb]. str_simpl. unfold unquote_plus.
  change (plus_to_space (String "/" ?x)) with (String "/" (plus_to_space x)).
  cbn [unquote_to_bytes]. rewrite bool_decide_eq_false_2 by discriminate. rewrite unquote_quote.
  apply utf8_replace_valid. revert Ho. unfold utf8_valid. cbn. done.
Qed.
Lemma base_built b port : base_ok b → (parse_port port (ba_use_ssl b)).1 = ba_port b →
  backend_addr (ba_hostname b) port (ba_use_ssl b) = Ok b.
Proof.
  intros [Hne Hch Hp] Hport. unfold backend_addr. rewrite bool_decide_eq_false_2.
  - rewrite Hport. by destruct b.
  - intros [r E%strip_prefix_Some]. by rewrite E in Hch.
Qed.
Lemma use_ssl_read a : use_ssl_param (single (to_url_get_params a)) = Ok (ba_use_ssl (addr_base a)).
Proof.
  unfold use_ssl_param.
  destruct a as [b|b ? ?|b ? ?|b ? ? ? t|b ? ? ? t|b ? ? ? ?|b ? ? ?]; cbn; unfold rvk_params, no_ssl_params;
    try destruct t as [t|]; cbn; try case_bool_decide; by destruct (ba_use_ssl b).
Qed.
(** A printed address is read back as its parameters and its path. *)
Lemma from_url_print c a (Hb : base_ok (addr_base a)) (Hpath : utf8_valid (to_url_get_path a) = true)
    (Hv : query_valid (to_url_get_params a)) (Hn : NoDup (to_url_get_params a).*1) :
  from_url c (to_url a) =
    (make ← consume_params c (single (to_url_get_params a));
     organization_id ← from_url_parse_path c (printed_path (to_url_get_path a));
     mret (make organization_id (addr_base a))).
Proof.
  set (params := to_url_get_params a) in *.
  destruct (netloc_ok _ Hb (rooted (quote_plus (to_url_get_path a))) (urlencode params)) as (H1 & H2 & H3 & port & H4 & H5).
  unfold from_url, to_url. fold params. rewrite urlsplit_print; [|done|done|done|done| |apply urlencode_chars].
  2: { generalize (quote_chars (to_url_get_path a)). apply str_all_impl. by_impl. }
  cbn [or_value_error mbind result_bind]. rewrite H3, H4. cbn [sr_scheme sr_query sr_path or_value_error mbind result_bind].
  rewrite bool_decide_eq_false_2 by by intros [].
  assert ((if bool_decide (urlencode params ≠ "")
      then or_value_error (parse_qs unquote_strict true true (urlencode params)) else Ok [])
    = Ok (single params)) as ->.
  { case_bool_decide as Hq.
    - by rewrite (proj1 (parse_qs_ok true true params Hv (or_introl eq_refl) Hn)).
    - destruct (decide (params = [])) as [->|Hp]; [done|]. by apply urlencode_nonempty in Hp. }
  cbn [mbind result_bind]. unfold params. rewrite use_ssl_read. cbn [mbind result_bind].
  rewrite unquote_rooted by done. destruct (consume_params c _) as [make|e]; [|done]. cbn [mbind result_bind].
  destruct (from_url_parse_path c _) as [org|e]; [|done]. cbn [mbind result_bind].
  by rewrite (base_built _ port Hb H5).
Qed.
Lemma from_url_eq c a (Ha : addr_ok a) :
  from_url c (to_url a) =
    (make ← consume_params c (single (to_url_get_params a));
     organization_id ← from_url_parse_path c (printed_path (to_url_get_path a));
     mret (make organization_id (addr_base a))).
Proof.
  destruct Ha as [Hb Hx]. destruct (params_valid a Hx) as [Hv Hn]. apply from_url_print; [done| |done|done].
  destruct a; cbn in Hx |- *; unfold org_ok in Hx; tauto.
Qed.

(** *** The parameters *)

Definition is_action (c : AddrClass) : bool :=
  match c with CBackendAddr | CBackendOrganizationAddr => false | _ => true end.
Lemma printed_organization org : str_tail (printed_path org) = org.
Proof. unfold printed_path. case_bool_decide; by subst. Qed.
(** The texts of the values do not matter, only what is read of them. *)
Ltac forget_texts :=
  repeat match goal with
  | Hk : verify_key_ok ?k = true |- _ =>
      generalize (import_export k Hk); clear Hk; generalize (export_root_verify_key k); intros ? ?
  | Hd : device_id_new (device_id_str ?d) = _ |- _ =>
      revert Hd; generalize (device_id_str d); intros ? ?
  | Hu : (?u < 2 ^ 128)%N |- _ =>
      destruct (uuid_parse_print u Hu) as [? ?]; clear Hu
  | Hu : uuid_parse (uuid_str ?u) = _ |- _ => revert Hu; generalize (uuid_str u); intros ? ?
  | Hu : uuid_parse (uuid_hex ?u) = _ |- _ => revert Hu; generalize (uuid_hex u); intros ? ?
  | Hp : Forall valid_name ?p |- _ =>
      generalize (proj1 fs_path_roundtrip p Hp); clear Hp; generalize (path_str p); intros ? ?
  end.
Lemma own_params a (Hx : extra_ok a) :
  ∃ make, consume_params (addr_class a) (single (to_url_get_params a)) = Ok make ∧
    make (to_url_get_path a) (addr_base a) = a.
Proof.
  destruct a as [b|b org rvk|b org token|b org rvk u t|b org rvk d t|b org rvk w p|b org i k]; cbn in Hx;
    destruct_and?; destruct b as [host port [|]]; cbn [to_url_get_params]; unfold rvk_params;
    try match type of t with option string => destruct t as [t|] end; try destruct i; forget_texts; params_cbn.
  all: try (match goal with Ht : token_ok (Some ?t), E : ?t = "" |- _ => by destruct Ht as [? _] end).
  all: repeat match goal with
              | E : import_root_verify_key _ = _ |- _ => rewrite E; clear E; cbn
              | E : user_id_new _ = _ |- _ => rewrite E; clear E; cbn
              | E : device_id_new _ = _ |- _ => rewrite E; clear E; cbn
              | E : uuid_parse ?s = _ |- context [uuid_parse ?s] => rewrite E; clear E; cbn
              | E : fs_path _ = _ |- _ => rewrite E; clear E; cbn
              end.
  all: by eexists.
Qed.
(** Another class of actions that is tried before refuses the parameters. *)
Definition tried_before (a : Addr) : list AddrClass :=
  match a with
  | BackendOrganizationClaimUserAddr _ _ _ _ _ => [CBackendOrganizationBootstrapAddr]
  | BackendOrganizationClaimDeviceAddr _ _ _ _ _ =>
      [CBackendOrganizationBootstrapAddr; CBackendOrganizationClaimUserAddr]
  | BackendOrganizationFileLinkAddr _ _ _ _ _ =>
      [CBackendOrganizationBootstrapAddr; CBackendOrganizationClaimUserAddr; CBackendOrganizationClaimDeviceAddr]
  | BackendInvitationAddr _ _ _ _ =>
      [CBackendOrganizationBootstrapAddr; CBackendOrganizationClaimUserAddr;
       CBackendOrganizationClaimDeviceAddr; CBackendOrganizationFileLinkAddr]
  | _ => []
  end.
Lemma other_params a c (Hx : extra_ok a) :
  c ∈ tried_before a → consume_params c (single (to_url_get_params a)) = Err AddrValueError.
Proof.
  intros Hc. destruct a as [b|b org rvk|b org token|b org rvk u t|b org rvk d t|b org rvk w p|b org i k]; cbn in Hx, Hc;
    rewrite ?elem_of_cons in Hc; destruct_or?; try (by apply not_elem_of_nil in Hc); subst c;
    destruct_and?; destruct b as [host port [|]];
    cbn [to_url_get_params]; unfold rvk_params;
    try match type of t with option string => destruct t as [t|] end; try destruct i; forget_texts; params_cbn.
  all: try (match goal with Ht : token_ok (Some ?t), E : ?t = "" |- _ => by destruct Ht as [? _] end).
  all: repeat match goal with E : import_root_verify_key _ = _ |- _ => rewrite E; clear E; cbn end.
  all: done.
Qed.

(** Shared with the pages of the server, which print such addresses. *)
Lemma printed_is_read a (Ha : addr_ok a) :
  from_url (addr_class a) (to_url a) = Ok a ∧
  (is_action (addr_class a) = true → action_from_url (to_url a) = Ok a).
Proof.
  assert (from_url (addr_class a) (to_url a) = Ok a) as Hself.
  { rewrite from_url_eq by done. destruct (own_params a (proj2 Ha)) as (make & -> & Hmake). cbn [mbind result_bind].
    assert (from_url_parse_path (addr_class a) (printed_path (to_url_get_path a)) = Ok (to_url_get_path a)) as ->.
    { destruct Ha as [_ Hx]. destruct a; cbn in Hx |- *; [done|..]; rewrite printed_organization; apply Hx. }
    cbn. by rewrite Hmake. }
  split; [done|]. intros Hact.
  assert (∀ c, c ∈ tried_before a → from_url c (to_url a) = Err AddrValueError) as Hothers.
  { intros c Hc. rewrite from_url_eq by done. by rewrite (other_params a c (proj2 Ha) Hc). }
  unfold action_from_url. destruct a; try discriminate Hact; cbn [tried_before addr_class first_of] in *;
    rewrite ?Hothers by (rewrite ?elem_of_cons; tauto); rewrite Hself; reflexivity.
Qed.
(** C38: an address that is printed is read as the same address: by [from_url] of its
    class, and by [BackendActionAddr.from_url] for the addresses of actions, which no
    class that is tried before takes for its own. The conditions: the host is not empty,
    of printable ASCII characters in lower case and without those that end a host (so it
    is no IPv6 address: [ipv6_is_lost]), the port is between 1 and 65535 (see
    [port_0_is_lost]), the identifiers, the keys and the names of a path are accepted by
    their classes, the texts are valid Unicode, and a token that is there is not empty. *)
Theorem addr_roundtrip a (Ha : addr_ok a) :
  from_url (addr_class a) (to_url a) = Ok a ∧
  (is_action (addr_class a) = true → action_from_url (to_url a) = Ok a).
Proof. by apply printed_is_read. Qed.
End addresses.

Module Example.
(** The characters of ASCII only, and keys of 32 bytes. *)
#[local] Instance ascii_only : Unicode :=
  {| unicode_word := λ _, false; unicode_space := λ _, false; unicode_digit := λ _, None;
     unicode_lower := λ c, c; netloc_normal := λ _, true |}.
#[local] Instance keys_of_32 : VerifyKeyApi := {| verify_key_ok := λ k, bool_decide (length k = 32%nat) |}.

Definition host : BackendAddr := mkBackendAddr "backend.local" 6888 false.
Definition rvk : VerifyKey := replicate 32 Byte.x07.
Definition file_link : Addr :=
  BackendOrganizationFileLinkAddr host "My-Org" rvk 42%N ["a folder"; "50 % & more"].
Example file_link_url :
  to_url file_link = "parsec://backend.local:6888/My-Org?action=file_link&workspace_id=00000000-0000-0000-0000-00000000002a&path=%2Fa+folder%2F50+%25+%26+more&no_ssl=true&rvk=A4DQOBYHA4DQOBYHA4DQOBYHA4DQOBYHA4DQOBYHA4DQOBYHA4DQssss".
Proof. vm_compute. reflexivity. Qed.
Lemma addr_roundtrip_witness :
  addr_ok file_link ∧ action_from_url (to_url file_link) = Ok file_link.
Proof.
  assert (addr_ok file_link) as Hok.
  { split; [split; [done|by vm_compute|done]|]. split_and!; try (by vm_compute).
    repeat constructor; by apply (bool_decide_unpack _); vm_compute. }
  split; [exact Hok|]. by apply (addr_roundtrip file_link Hok).
Defined.

(** A host between brackets is read without them and printed without them. *)
Example ipv6_is_lost :
  match from_url CBackendAddr "parsec://[::1]:4242" with
  | Ok a => to_url a = "parsec://::1:4242" ∧ from_url CBackendAddr (to_url a) = Err AddrValueError
  | Err _ => False
  end.
Proof. by vm_compute. Qed.
(** A last newline is taken for a part of the identifier. *)
Example newline_in_an_id :
  organization_id_new ("Org" +:+ String (of_code 10) "") = Ok ("Org" +:+ String (of_code 10) "").
Proof. by vm_compute. Qed.
(** The port 0 is not printed. *)
Example port_0_is_lost :
  match from_url CBackendAddr "parsec://host:0" with
  | Ok a => ba_port (addr_base a) = 0 ∧ to_url a = "parsec://host"
  | Err _ => False
  end.
Proof. by vm_compute. Qed.
End Example.
