(* ===== verification/HttpComponent.v ===== *)
(** The web pages of the server: [backendService/http.py], and the choice between a
    page and a websocket of [backendService/app.py]. *)

From Stdlib Require Import Ascii.
From S2P Require Import Prelude PyString Types Backend BackendOrganization Url BackendAddr.

#[local] Open Scope string_scope.
#[local] Open Scope Z_scope.

(** ** Bytes *)

(** [bytes.decode("ISO-8859-1")] *)
Fixpoint latin1_decode (b : string) : string :=
  match b with
  | EmptyString => ""
  | String c b =>
      if is_ascii c then String c (latin1_decode b)
      else String (of_code (192 + code c / 64)) (String (of_code (128 + code c mod 64)) (latin1_decode b))
  end.

(** [json.dumps] of a dict of strings, with [ensure_ascii]. *)
Definition QUOTE : string := String (of_code 34) "".
Definition json_hex4 (n : Z) : string := "\u" +:+ of_list (hex_digit false <$> digits_be 16 4 n).
(** The number of a character that takes more than a byte. *)
Definition code_point (c : string) : Z :=
  match String.list_ascii_of_string c with
  | a :: l => foldl (λ n b, 64 * n + code b mod 64) (code a mod (2 ^ (6 - Z.of_nat (length l)))) l
  | [] => 0
  end.
Definition json_ascii (a : ascii) : string :=
  if code a =? 34 then "\" +:+ QUOTE
  else if code a =? 92 then "\\"
  else if code a =? 10 then "\n"
  else if code a =? 13 then "\r"
  else if code a =? 9 then "\t"
  else if code a =? 12 then "\f"
  else if code a =? 8 then "\b"
  else if in_range 32 126 a then String a ""
  else json_hex4 (code a).
Definition json_char (c : option string) : string :=
  match c with
  | Some (String a "") => json_ascii a
  | Some c =>
      let n := code_point c in
      if n <? 65536 then json_hex4 n
      else json_hex4 (55296 + (n - 65536) / 1024) +:+ json_hex4 (56320 + (n - 65536) mod 1024)
  | None => ""
  end.
Definition json_string (s : string) : string := QUOTE +:+ str_join "" (json_char <$> utf8 s) +:+ QUOTE.
Definition json_dumps (d : odict string string) : string :=
  "{" +:+ str_join ", " ((λ kv, json_string kv.1 +:+ ": " +:+ json_string kv.2) <$> d) +:+ "}".

(** ** Requests and responses *)

(** A request of [h11]: bytes, the names of the headers in lower case. *)
Record H11Request := mkH11Request {
  hq_method : string;
  hq_target : string;
  hq_http_version : string;
  hq_headers : list (string * string) }.
Record HTTPRequest := mkHTTPRequest {
  req_method : string;
  req_path : string;
  req_query : odict string (list string);
  req_headers : odict string string }.
Record HTTPResponse := mkHTTPResponse {
  status_code : Z;
  rep_headers : list (string * string);
  rep_data : option string }.
Inductive HttpExn :=
| HttpValueError | HttpKeyError | HttpUnicodeError | HttpOSError | HttpBackend (e : BackendExn).

(** The template engine, the files of the package and the types that the system
    knows. *)
Class WebResources := {
  render_template : string → odict string string → string;
  read_binary : string → result HttpExn (option string);
  guess_type : string → option string }.
(** What [BackendConfig] has for the pages. *)
Record HttpConfig := mkHttpConfig {
  hc_backend_addr : option BackendAddr;
  hc_administration_token : string;
  hc_debug : bool }.

(** [STATUS_CODE_TO_REASON] and [reason] *)
Definition STATUS_CODE_TO_REASON : list (Z * string) :=
  [(200, "OK"); (302, "Found"); (400, "Bad Request"); (404, "Not Found");
   (405, "Method Not Allowed"); (501, "Not Implemented")].
Definition reason (rep : HTTPResponse) : string :=
  default "" (od_get STATUS_CODE_TO_REASON (status_code rep)).
(** [HTTPResponse.build]; [date] is [format_date_time(None)]. *)
Definition build (date : string) (status_code : Z) (headers : odict string string) (data : option string)
    : HTTPResponse :=
  let headers := match data with
                 | Some d => if bool_decide (d = "") then headers
                             else od_set headers "content-Length" (str_of_int (Z.of_nat (String.length d)))
                 | None => headers
                 end in
  mkHTTPResponse status_code (od_set headers "date" date) data.
Definition build_html (date : string) (status_code : Z) (data : string) : HTTPResponse :=
  build date status_code [("content-type", "text/html;charset=utf-8")] (Some data).

Definition ACAO_domain : string := "https://guardata.app".
(** [backendService/templates/texts.py] *)
Definition all_texts : odict string (odict string string) :=
  [("en",
    [("TRYTXT", "Try to open your invitation directly in the guardata client");
     ("OPENG", "Open in guardata");
     ("URLCOPY", "<b>or</b> copy and paste the following link in the First login menu (join an existing group)")]);
   ("fr",
    [("TRYTXT", "Essayez d'ouvrir cette invitation directement avec le client guardata");
     ("OPENG", "Ouvrir avec guardata");
     ("URLCOPY", "<b>ou</b> bien copiez et collez le lien suivant dans le menu Première connexion (joindre un groupe existant)")])].
Definition default_lang : string := "en".
(** [re.search("^([a-z]{2,3})", accept_language)] *)
Definition lang_group (accept_language : string) : option string :=
  let letters := (str_span is_lower accept_language).1 in
  if (String.length letters <? 2)%nat then None else Some (String.substring 0 3 letters).
Definition get_lang (req : HTTPRequest) : string :=
  match od_get (req_headers req) "accept-language" with
  | None => default_lang
  | Some accept_language =>
      match lang_group (latin1_decode accept_language) with
      | None => default_lang
      | Some lang => if od_mem all_texts lang then lang else default_lang
      end
  end.

(** ** The routes *)

(** [.*$] and [\w+$] after a prefix: [$] also matches before a last newline. *)
Definition any_group (s : string) : option string :=
  if str_has (of_code 10) (chomp s) then None else Some (chomp s).
Inductive Route :=
| RRoot | RRedirect (path : string) | RStatic (path : string) | RCreategroup (path : string)
| R400 | R404.
(** [^[a-zA-Z]{4,63}$] *)
Definition group_body (s : string) : bool :=
  str_all (λ c, is_upper c || is_lower c) s && (4 <=? String.length s)%nat && (String.length s <=? 63)%nat.
Definition group_name_ok (path : string) : bool := group_body (chomp path).

Section http.
Context `{Unicode, WebResources}.

Definition word_char (c : option string) : bool :=
  match c with
  | Some (String a "") => is_alnum a || bool_decide (a = "_"%char)
  | Some c => unicode_word c
  | None => false
  end.
Definition word_group (s : string) : option string :=
  let body := chomp s in
  if negb (bool_decide (body = "")) && forallb word_char (utf8 body) then Some body else None.
(** The first pattern of [ROUTE_MAPPING] that matches. *)
Definition match_route (path : string) : Route :=
  if bool_decide (chomp path ∈ [""; "/"]) then RRoot
  else
    match strip_prefix "/redirect" path ≫= any_group with
    | Some path => RRedirect path
    | None =>
        match strip_prefix "/static/" path ≫= any_group with
        | Some path => RStatic path
        | None =>
            match strip_prefix "/creategroup/" path ≫= word_group with
            | Some path => RCreategroup path
            | None => if bool_decide (chomp path = "/ws") then R400 else R404
            end
        end
    end.

(** [HTTPRequest.from_h11_req] *)
Definition from_h11_req (h11_req : H11Request) : result HttpExn HTTPRequest :=
  match urlsplit (latin1_decode (hq_target h11_req)) with
  | None => Err HttpValueError
  | Some target_split =>
      match parse_qs (Some ∘ unquote_plus) false false (sr_query target_split) with
      | None => Err HttpValueError
      | Some query_params =>
          if utf8_valid (hq_method h11_req) then
            Ok (mkHTTPRequest (hq_method h11_req) (sr_path target_split) query_params
                  (od_update [] (hq_headers h11_req)))
          else Err HttpUnicodeError
      end
  end.

(** ** [HTTPComponent] *)

Variable config : HttpConfig.
Variable date : string.
(** [token_hex(32)] *)
Variable org_token : string.
Abbreviation httpM := (stM Backend HttpExn) (only parsing).

Definition http_400 : HTTPResponse := build_html date 400 "".
Definition http_404 : HTTPResponse :=
  build_html date 404 (render_template "404.html" [("title", "not found")]).
Definition http_root : HTTPResponse :=
  build_html date 200 (render_template "index.html" [("title", "cloud server")]).
(** The location that the page of [_http_redirect] shows. *)
Definition location_url (req : HTTPRequest) (path : string) (addr : BackendAddr) : result HttpExn string :=
  match urlsplit (to_url (ABackendAddr addr)) with
  | None => Err HttpValueError
  | Some split =>
      match parse_qs (Some ∘ unquote_plus) false false (sr_query split) with
      | None => Err HttpValueError
      | Some backend_params =>
          let params := od_update (od_del (req_query req) "no_ssl") backend_params in
          Ok (urlunsplit (sr_scheme split) (sr_netloc split) path (urlencode_doseq params))
      end
  end.
Definition http_redirect (req : HTTPRequest) (path : string) : result HttpExn HTTPResponse :=
  match hc_backend_addr config with
  | None => Ok (build date 501 [] (Some "Url redirection is not available"))
  | Some addr =>
      url ← location_url req path addr;
      match od_get all_texts (get_lang req) with
      | None => Err HttpKeyError
      | Some text_dict =>
          let text k := default "" (od_get text_dict k) in
          Ok (build_html date 200 (render_template "redirect.html"
            [("parsecurl", url); ("title", "invitation"); ("trytxt", text "TRYTXT");
             ("openg", text "OPENG"); ("urlcopy", text "URLCOPY")]))
      end
  end.
(** [_http_static]; [read_binary] gives [None] for the exceptions that are caught. *)
Definition http_static (path : string) : result HttpExn HTTPResponse :=
  if bool_decide (path = "__init__.py") then Ok (build date 404 [] None)
  else
    match read_binary path with
    | Err e => Err e
    | Ok None => Ok (build date 404 [] None)
    | Ok (Some data) =>
        let headers := match guess_type path with
                       | Some t => if bool_decide (t = "") then [] else [("content-Type", t)]
                       | None => []
                       end in
        Ok (build date 200 headers (Some data))
    end.

Definition acao_headers : odict string string :=
  [("Access-Control-Allow-Origin", ACAO_domain); ("Access-Control-Allow-Methods", "GET");
   ("Access-Control-Allow-Headers", "Content-Type")].
Definition json_reply (status_code : Z) (dataj : odict string string) : HTTPResponse :=
  build date status_code (("content-Type", "application/json") :: acao_headers) (Some (json_dumps dataj)).
Definition groupURL (path : string) : string :=
  "parsec://cloud.guardata.app/" +:+ path +:+ "?action=bootstrap_organization&token=" +:+ org_token.
(** The check of the token: the status of the refusal. *)
Definition check_token (req : HTTPRequest) : option string :=
  match od_get (req_headers req) "token" with
  | None => Some "missing_token"
  | Some token =>
      if utf8_valid token && bool_decide (hc_administration_token config = token) then None
      else Some "wrong_token"
  end.
Definition http_creategroup (req : HTTPRequest) (path : string) : httpM HTTPResponse :=
  match check_token req with
  | Some status => mret (json_reply 400 [("status", status)])
  | None =>
      if negb (group_name_ok path) then mret (json_reply 400 [("status", "invalid_group_name")])
      else λ s,
        match organization_create path org_token None s with
        | (s', Ok _) =>
            (s', Ok (json_reply 200
              [("status", "ok"); ("CreatedGroup", path); ("groupURL", groupURL path)]))
        | (s', Err OrganizationAlreadyExistsError) =>
            (s', Ok (json_reply 400 [("status", "already_exists")]))
        | (s', Err e) => (s', Err (HttpBackend e))
        end
  end.

(** [handle_request] *)
Definition handle_request (req : HTTPRequest) : httpM HTTPResponse :=
  if bool_decide (req_method req = "OPTIONS") then mret (build date 204 acao_headers None)
  else if bool_decide (req_method req ≠ "GET") then mret (build date 405 [] None)
  else
    match match_route (req_path req) with
    | RRoot => mret http_root
    | RRedirect path => lift_result (http_redirect req path)
    | RStatic path => lift_result (http_static path)
    | RCreategroup path => http_creategroup req path
    | R400 => mret http_400
    | R404 => mret http_404
    end.

(** [BackendApp.handle_client_http], up to the sending of the response;
    [debug_header] names the versions of guardata and of [h11]. *)
Definition handle_client_http (debug_header : string) (event : H11Request) : httpM HTTPResponse :=
  req ← lift_result (from_h11_req event);
  rep ← handle_request req;
  let server_header := if hc_debug config then debug_header else "guardata" in
  mret (mkHTTPResponse (status_code rep)
    (rep_headers rep ++ [("server", server_header); ("connection", "close")])%list (rep_data rep)).

(** [_get_header]; [bytes.lower] only changes ASCII letters. *)
Definition get_header (headers : odict string string) (hkey : string) : string :=
  match od_get headers hkey with Some v => str_map lower_char v | None => "" end.
(** Whether [handle_client] goes to the websocket; [host_domain] is the configured
    host in the encoding of domain names. *)
Definition is_websocket (host_domain : option string) (disable_strict_auth_check : bool)
    (event : H11Request) : bool :=
  let headers := od_update [] (hq_headers event) in
  let host_rcvd := get_header headers "host" in
  bool_decide (hq_http_version event = "1.1") && bool_decide (hq_method event = "GET") &&
  bool_decide (hq_target event = "/ws") && bool_decide (get_header headers "connection" = "upgrade") &&
  bool_decide (get_header headers "upgrade" = "websocket") &&
  (((3 <? String.length host_rcvd)%nat && bool_decide (Some host_rcvd = host_domain))
   || disable_strict_auth_check).
End http.
