(* ===== verification/HttpProperties.v ===== *)
(** The pages of the server lead an invitation to the address that the client reads,
    and create groups for the administrator only. *)

From Stdlib Require Import Ascii.
From S2P Require Import Prelude PyString Types Backend BackendOrganization Handshake.
From S2P Require Import Url BackendAddr BackendAddrProperties HttpComponent.

#[local] Open Scope string_scope.
#[local] Open Scope Z_scope.

(** ** Requests *)

Lemma latin1_ascii s : str_all is_ascii s = true → latin1_decode s = s.
Proof. induction s as [|c s IH]; cbn; [done|]. intros [-> Hs]%andb_true_iff. by rewrite IH. Qed.
Lemma chomp_id s : str_has (of_code 10) s = false → chomp s = s.
Proof.
  induction s as [|c s IH]; cbn; [done|]. intros [Hc Hs]%orb_false_iff.
  rewrite bool_decide_eq_false in Hc. destruct s; [|by rewrite IH].
  rewrite bool_decide_eq_false_2 by congruence. done.
Qed.
Lemma no_newline p s : str_all p s = true → p (of_code 10) = false → chomp s = s ∧ str_has (of_code 10) s = false.
Proof. intros Hs Hp. split; [apply chomp_id|]; by eapply str_has_all. Qed.

Section http.
Context `{Unicode, VerifyKeyApi, WebResources}.

(** The target that a browser requests for an URL. *)
Definition target_of (url : string) : option string :=
  r ← urlsplit url; Some (sr_path r +:+ query_part (sr_query r)).

Lemma no_scheme p : split_scheme (String "/" p) = ("", String "/" p).
Proof.
  unfold split_scheme. destruct (str_cut ":" (String "/" p)) as [[scheme rest]|] eqn:E; [|done].
  unfold str_cut in E. cbn in E. destruct (str_span _ p) as [a [|x b]]; [done|].
  rewrite bool_decide_eq_false_2 in E by done. cbn in E. by injection E as <- <-.
Qed.
Lemma target_split p query :
  str_all path_char p = true → strip_prefix "/" p = None → str_all query_char query = true →
  urlsplit (String "/" p +:+ query_part query) = Some (mkSplitResult "" "" (String "/" p) query).
Proof.
  intros Hp Hs Hq. unfold urlsplit.
  assert (str_all query_char (query_part query) = true) as Hqp.
  { unfold query_part. case_bool_decide; [done|]. by str_simpl. }
  rewrite printable_kept.
  2: { rewrite str_all_app. cbn [str_all]. rewrite !(str_all_impl path_char printable), (str_all_impl query_char printable)
         by (by_impl || done). done. }
  rewrite str_app_cons, no_scheme.
  assert (strip_prefix "//" (String "/" (p +:+ query_part query)) = None) as ->.
  { cbn. destruct p as [|c p]; str_simpl.
    - unfold query_part. by destruct (bool_decide (query = "")).
    - cbn in Hs. by destruct (bool_decide ("/"%char = c)). }
  cbn [brackets_match str_has Bool.eqb negb]. rewrite str_cut_none.
  2: { cbn. rewrite str_has_app, (str_has_all path_char), (str_has_all query_char) by done. done. }
  cbn [str_all orb]. unfold query_part. case_bool_decide as Hne.
  - subst. rewrite str_app_nil_r, str_cut_none; [done|]. cbn. by rewrite (str_has_all path_char).
  - change (String "/" (p +:+ "?" +:+ query)) with (String "/" p +:+ String "?" query).
    rewrite str_cut_app; [done|]. cbn. by rewrite (str_has_all path_char).
Qed.

(** ** Invitations *)

Definition invitation_params_of (ity : InvitationType) (token : UUID) : list (string * string) :=
  [("action", if decide (ity = USER_INVITATION) then "claim_user" else "claim_device"); ("token", uuid_hex token)].
Lemma skip_no_ssl b ity token :
  filter (λ kv : string * string, kv.1 ≠ "no_ssl") (invitation_params_of ity token ++ no_ssl_params b)%list
  = invitation_params_of ity token.
Proof. unfold no_ssl_params. by destruct ity, (ba_use_ssl b). Qed.
Lemma invitation_params_ok b ity token :
  let params := (invitation_params_of ity token ++ no_ssl_params b)%list in
  query_valid params ∧ NoDup params.*1 ∧ Forall (λ kv, kv.2 ≠ "") params.
Proof.
  assert (utf8_valid (uuid_hex token) = true) as Hv by apply utf8_valid_ascii, uuid_str_ascii.
  assert (uuid_hex token ≠ "") as Hn.
  { intros E%(f_equal String.length). unfold uuid_hex in E.
    by rewrite length_of_list, length_fmap, length_digits_be in E. }
  unfold no_ssl_params, invitation_params_of. cbn -[uuid_hex]. destruct (ba_use_ssl b); destruct ity; split_and!;
    repeat constructor; try done; by apply (bool_decide_unpack _); vm_compute.
Qed.
Lemma url_chars_kept s : str_all url_char s = true → chomp s = s ∧ str_has (of_code 10) s = false.
Proof. intros Hs. by eapply no_newline. Qed.
Lemma redirect_route org :
  match_route ("/redirect/" +:+ quote_plus org) = RRedirect (String "/" (quote_plus org)).
Proof.
  assert (∀ p, str_has (of_code 10) p = false → chomp (p +:+ quote_plus org) = p +:+ quote_plus org ∧
    str_has (of_code 10) (p +:+ quote_plus org) = false) as Hc.
  { intros p Hp. assert (str_has (of_code 10) (p +:+ quote_plus org) = false) as Hn.
    { rewrite str_has_app, Hp. by eapply str_has_all; [apply quote_chars|]. }
    split; [by apply chomp_id|done]. }
  unfold match_route. rewrite (proj1 (Hc "/redirect/" eq_refl)).
  rewrite bool_decide_eq_false_2 by (intros Hin; rewrite !elem_of_cons, elem_of_nil in Hin; naive_solver).
  change ("/redirect/" +:+ quote_plus org) with ("/redirect" +:+ ("/" +:+ quote_plus org)).
  rewrite strip_prefix_app. cbn [mbind option_bind]. unfold any_group.
  destruct (Hc "/" eq_refl) as [-> ->]. by str_simpl.
Qed.
Lemma urlencode_single l : urlencode_doseq (single l) = urlencode l.
Proof.
  unfold urlencode_doseq, single. f_equal. induction l as [|[k v] l IH]; cbn; [done|]. f_equal. exact IH.
Qed.
Lemma netloc_printed b (Hb : base_ok b) : addr_netloc b ≠ "" ∧ str_all netloc_char (addr_netloc b) = true.
Proof. destruct (netloc_ok b Hb "" "") as (? & ? & _). done. Qed.
Lemma rooted_quoted org : org ≠ "" → rooted (String "/" (quote_plus org)) = rooted (quote_plus org).
Proof.
  intros Horg. assert (quote_plus org ≠ "") as Hq by by apply quote_nonempty.
  destruct (quote_plus org) as [|c q] eqn:E; [done|]. pose proof (quote_chars org) as Hcs. rewrite E in Hcs.
  apply andb_true_iff in Hcs as [Hcs _]. unfold rooted. cbn.
  by rewrite (bool_decide_eq_false_2 ("/"%char = c)) by by intros <-.
Qed.
(** The page shows the address of the invitation on the configured server. *)
Lemma invitation_location req b org ity token (Hb : base_ok b) :
  org ≠ "" → req_query req = single (invitation_params_of ity token) →
  location_url req (String "/" (quote_plus org)) b = Ok (to_url (BackendInvitationAddr b org ity token)).
Proof.
  intros Horg Hq. destruct (netloc_printed b Hb) as [Hn Hc]. unfold location_url, to_url.
  rewrite urlsplit_print; [|done|done|done|exact Hc|done|apply urlencode_chars].
  cbn [sr_query sr_scheme sr_netloc].
  assert (parse_qs (Some ∘ unquote_plus) false false (urlencode (to_url_get_params (ABackendAddr b)))
    = Some (single (no_ssl_params b))) as ->.
  { unfold to_url_get_params, no_ssl_params. by destruct (ba_use_ssl b). }
  cbn [mbind option_bind]. rewrite Hq. f_equal.
  assert (od_update (od_del (single (invitation_params_of ity token)) "no_ssl") (single (no_ssl_params b))
    = single (to_url_get_params (BackendInvitationAddr b org ity token))) as ->.
  { unfold to_url_get_params, no_ssl_params. by destruct ity, (ba_use_ssl b). }
  rewrite urlencode_single. rewrite !urlunsplit_eq by done. do 4 f_equal.
  by rewrite rooted_quoted.
Qed.
Lemma rooted_redirect p : rooted ("/redirect/" +:+ p) = "/redirect/" +:+ p.
Proof. unfold rooted. by str_simpl. Qed.
Lemma redirection_target b org ity token (Hb : base_ok b) :
  target_of (to_http_redirection_url (BackendInvitationAddr b org ity token))
  = Some (("/redirect/" +:+ quote_plus org) +:+ query_part (urlencode (invitation_params_of ity token))).
Proof.
  destruct (netloc_printed b Hb) as [Hn Hc]. unfold target_of, to_http_redirection_url. cbn [addr_base to_url_get_path].
  change (to_url_get_params (BackendInvitationAddr b org ity token))
    with (invitation_params_of ity token ++ no_ssl_params b)%list.
  rewrite skip_no_ssl. rewrite urlsplit_print; [|by destruct (ba_use_ssl b)|done|by destruct (ba_use_ssl b)|exact Hc| |].
  - cbn [mbind option_bind sr_path sr_query]. by rewrite rooted_redirect.
  - rewrite str_all_app. cbn. generalize (quote_chars org). apply str_all_impl. by_impl.
  - apply urlencode_chars.
Qed.
Lemma redirection_request ver headers org ity token :
  ∃ hs, from_h11_req (mkH11Request "GET"
      (("/redirect/" +:+ quote_plus org) +:+ query_part (urlencode (invitation_params_of ity token))) ver headers)
    = Ok (mkHTTPRequest "GET" ("/redirect/" +:+ quote_plus org) (single (invitation_params_of ity token)) hs).
Proof.
  eexists. unfold from_h11_req. cbn [hq_target hq_method hq_headers].
  assert (str_all path_char ("redirect/" +:+ quote_plus org) = true) as Hp.
  { rewrite str_all_app. cbn. generalize (quote_chars org). apply str_all_impl. by_impl. }
  assert (str_all query_char (query_part (urlencode (invitation_params_of ity token))) = true) as Hq.
  { unfold query_part. case_bool_decide; [done|]. rewrite str_all_app. apply andb_true_iff. split; [done|].
    apply urlencode_chars. }
  rewrite latin1_ascii.
  2: { rewrite str_all_app. apply andb_true_iff. split.
       - apply (str_all_impl path_char); [by_impl|exact Hp].
       - apply (str_all_impl query_char); [by_impl|exact Hq]. }
  change ("/redirect/" +:+ quote_plus org) with (String "/" ("redirect/" +:+ quote_plus org)).
  rewrite target_split; [|exact Hp|done|apply urlencode_chars]. cbn [sr_query sr_path].
  destruct (invitation_params_ok (mkBackendAddr "" 0 true) ity token) as (Hv & Hn & He).
  unfold no_ssl_params in Hv, Hn, He. cbn [ba_use_ssl] in Hv, Hn, He. rewrite app_nil_r in Hv, Hn, He.
  rewrite (proj2 (parse_qs_ok false false _ Hv (or_intror He) Hn)). reflexivity.
Qed.
Lemma lang_known req : is_Some (od_get all_texts (get_lang req)).
Proof.
  unfold get_lang. destruct (od_get (req_headers req) _); [|by eexists].
  destruct (lang_group _) as [lang|]; [|by eexists]. destruct (od_mem all_texts lang) eqn:E; [|by eexists].
  by apply od_mem_true.
Qed.

(** C39: the redirection address of an invitation, requested from the server, gives a
    page with an address that a client reads as this invitation on the configured
    server: same organization, type and token, the host, the port and the security of
    the configuration; the request changes nothing. *)
Theorem redirect_end_to_end config date org_token debug_header version headers b0 org ity token b s
    (Ha : addr_ok (BackendInvitationAddr b0 org ity token))
    (Hb : base_ok b) (Hconfig : hc_backend_addr config = Some b) :
  let addr := BackendInvitationAddr b org ity token in
  ∃ target texts rep,
    target_of (to_http_redirection_url (BackendInvitationAddr b0 org ity token)) = Some target ∧
    handle_client_http config date org_token debug_header (mkH11Request "GET" target version headers) s = (s, Ok rep) ∧
    status_code rep = 200 ∧
    rep_data rep = Some (render_template "redirect.html" (("parsecurl", to_url addr) :: texts)) ∧
    action_from_url (to_url addr) = Ok addr.
Proof.
  intros addr. destruct Ha as [Hb0 Hx]. assert (addr_ok addr) as Haddr by by split.
  assert (org ≠ "") as Horg by (intros ->; by destruct Hx as [[Hx _] _]).
  destruct (redirection_request version headers org ity token) as [hs Hreq].
  set (req := mkHTTPRequest "GET" ("/redirect/" +:+ quote_plus org) (single (invitation_params_of ity token)) hs).
  destruct (lang_known req) as [texts Htexts].
  assert (∃ more, handle_request config date org_token req s
    = (s, Ok (build_html date 200 (render_template "redirect.html" (("parsecurl", to_url addr) :: more))))) as [more Hrun].
  { eexists. unfold handle_request. cbn [req_method req req_path]. rewrite bool_decide_eq_false_2 by done.
    rewrite bool_decide_eq_false_2 by tauto.
    rewrite redirect_route. unfold http_redirect, lift_result. rewrite Hconfig.
    rewrite (invitation_location req b org ity token Hb Horg eq_refl). cbn [mbind result_bind]. by rewrite Htexts. }
  do 3 eexists. split; [by apply redirection_target|]. unfold handle_client_http, lift_result.
  unfold mbind at 1, stM_bind at 1. rewrite Hreq. fold req.
  rewrite (bind_Ok _ _ _ _ _ Hrun). split; [reflexivity|]. split_and!; [done|reflexivity|].
  by apply printed_is_read.
Qed.

(** ** Groups *)

Lemma chomp_cons c s : s ≠ "" → chomp (String c s) = String c (chomp s).
Proof. by destruct s. Qed.
Lemma chomp_app a b : b ≠ "" → chomp (a +:+ b) = a +:+ chomp b.
Proof.
  intros Hb. induction a as [|c a IH]; [done|]. rewrite !str_app_cons, chomp_cons, IH; [done|].
  by destruct a.
Qed.
Lemma chomp_inv s : s = chomp s ∨ s = chomp s +:+ String (of_code 10) "".
Proof.
  induction s as [|c s IH]; [by left|]. destruct (decide (s = "")) as [->|Hs].
  - cbn. case_bool_decide; [subst; by right|by left].
  - rewrite chomp_cons, str_app_cons by done. destruct IH as [IH|IH]; [left|right]; by rewrite <-IH.
Qed.
Lemma letters_ascii name : group_body name = true →
  str_all is_ascii name = true ∧ name ≠ "" ∧ str_all always_safe name = true.
Proof.
  unfold group_body. intros [[Hl H4]%andb_true_iff _]%andb_true_iff. split_and!.
  - revert Hl. apply str_all_impl. by_impl.
  - by intros ->.
  - revert Hl. apply str_all_impl. by_impl.
Qed.
Lemma letters_word name : group_body name = true → forallb word_char (utf8 name) = true.
Proof.
  intros Hn. destruct (letters_ascii name Hn) as (Ha & _ & _).
  assert (str_all (λ c, is_upper c || is_lower c) name = true) as Hl.
  { unfold group_body in Hn. by destruct (str_all _ name). }
  rewrite utf8_ascii by done. clear -Hl. induction name as [|c name IH]; cbn; [done|].
  apply andb_true_iff in Hl as [Hc Hl]. rewrite IH by done. unfold is_alnum.
  apply orb_true_iff in Hc as [-> | ->]; by rewrite ?orb_true_r.
Qed.
(** The requests that are routed to the creation of a group. *)
Lemma creategroup_route path name :
  group_body name = true →
  match_route path = RCreategroup name ↔ chomp path = "/creategroup/" +:+ name.
Proof.
  intros Hn. destruct (letters_ascii name Hn) as (Ha & Hne & _). unfold match_route. split.
  - repeat case_match; try done. intros [=<-].
    match goal with E : strip_prefix "/creategroup/" path ≫= _ = Some _ |- _ =>
      apply bind_Some in E as (rest & Hrest%strip_prefix_Some & Hw) end.
    unfold word_group in Hw. case_match; [|done]. injection Hw as <-. subst path. apply chomp_app. by intros ->.
  - intros Hp. rewrite Hp. rewrite bool_decide_eq_false_2
      by (intros Hin; rewrite !elem_of_cons, elem_of_nil in Hin; naive_solver).
    assert (∃ rest, path = "/creategroup/" +:+ rest ∧ chomp rest = name) as (rest & -> & Hrest).
    { destruct (chomp_inv path) as [E|E]; rewrite Hp in E; [exists name|exists (name +:+ String (of_code 10) "")].
      - split; [done|]. apply chomp_id. eapply (str_has_all (λ c, is_upper c || is_lower c)); [|done].
        unfold group_body in Hn. by destruct (str_all _ name).
      - split; [by rewrite E, str_app_assoc|]. rewrite chomp_app by done. cbn. by rewrite str_app_nil_r. }
    rewrite strip_prefix_app. change (strip_prefix "/redirect" ("/creategroup/" +:+ rest)) with (@None string).
    change (strip_prefix "/static/" ("/creategroup/" +:+ rest)) with (@None string). cbn [mbind option_bind].
    unfold word_group. rewrite Hrest. rewrite bool_decide_eq_false_2 by done. by rewrite letters_word.
Qed.

(** The address in the reply. *)
Definition cloud : BackendAddr := mkBackendAddr "cloud.guardata.app" 443 true.
Lemma cloud_ok : base_ok cloud.
Proof. by split; vm_compute. Qed.
Lemma quote_safe s : str_all always_safe s = true → quote_plus s = s.
Proof. induction s as [|c s IH]; cbn; [done|]. intros [-> Hs]%andb_true_iff. by rewrite IH. Qed.
Lemma groupURL_printed token name :
  group_body name = true → str_all always_safe token = true →
  groupURL token name = to_url (BackendOrganizationBootstrapAddr cloud name token).
Proof.
  intros Hn Ht. destruct (letters_ascii name Hn) as (_ & Hne & Hs). unfold to_url.
  rewrite urlunsplit_eq by done. cbn [to_url_get_path addr_base]. rewrite quote_safe by done.
  unfold groupURL, rooted. rewrite (bool_decide_eq_false_2 (name = "")) by done.
  assert (bool_decide (is_Some (strip_prefix "/" name)) = false) as ->.
  { destruct name as [|c name]; [done|]. apply andb_true_iff in Hs as [Hs _]. cbn.
    rewrite (bool_decide_eq_false_2 ("/"%char = c)) by by intros <-. done. }
  cbn [orb]. unfold to_url_get_params, no_ssl_params, cloud, urlencode. cbn [ba_use_ssl fmap list_fmap str_join].
  rewrite (quote_safe token) by done. reflexivity.
Qed.
Lemma letters_all name p : group_body name = true →
  forallb (λ c, implb (is_upper c || is_lower c) (p c)) all_chars = true → str_all p name = true.
Proof.
  unfold group_body. intros [[Hl _]%andb_true_iff _]%andb_true_iff Hp. revert Hl. apply str_all_impl. by apply char_impl.
Qed.
Lemma length_ascii s : length (String.list_ascii_of_string s) = String.length s.
Proof. induction s as [|c s IH]; cbn; [done|by rewrite IH]. Qed.
Lemma forallb_ascii (p : ascii → bool) s : forallb p (String.list_ascii_of_string s) = str_all p s.
Proof. induction s as [|c s IH]; cbn; [done|by rewrite IH]. Qed.
Lemma id_letters name : group_body name = true →
  organization_id_new name = if (String.length name <=? 32)%nat then Ok name else Err AddrValueError.
Proof.
  intros Hn. destruct (letters_ascii name Hn) as (Ha & Hne & _).
  assert (id_body name = (String.length name <=? 32)%nat) as Hb.
  { unfold id_body. rewrite utf8_ascii, length_fmap, length_ascii by done.
    assert (forallb id_char ((λ c, Some (String c "")) <$> String.list_ascii_of_string name) = true) as ->.
    { apply forallb_forall. intros x (c & <- & Hin)%in_map_iff.
      assert (str_all (λ c, is_alnum c || one_of "_-" c) name = true) as Hc by (by apply letters_all; [|vm_compute]).
      rewrite <-forallb_ascii, forallb_forall in Hc. by apply Hc. }
    destruct (Nat.leb_spec 1 (String.length name)); [done|]. destruct name; [done|cbn in *; lia]. }
  unfold organization_id_new, id_match. rewrite chomp_id, Hb, orb_diag.
  2: { eapply (str_has_all is_alnum); [|done]. by apply letters_all; [|vm_compute]. }
  destruct (Nat.leb_spec (String.length name) 32), (Nat.ltb_spec 32 (String.length name)); done || lia.
Qed.
Lemma group_url_read token name :
  group_body name = true → token ≠ "" → str_all always_safe token = true →
  action_from_url (groupURL token name) =
    if (String.length name <=? 32)%nat then Ok (BackendOrganizationBootstrapAddr cloud name token)
    else Err AddrValueError.
Proof.
  intros Hn Hne Ht. rewrite groupURL_printed by done. set (a := BackendOrganizationBootstrapAddr cloud name token).
  destruct (letters_ascii name Hn) as (Ha & _ & _).
  assert (∀ c, from_url c (to_url a) =
    (make ← consume_params c (single (to_url_get_params a));
     organization_id ← from_url_parse_path c (printed_path name);
     mret (make organization_id cloud))) as Hread.
  { intros c. apply from_url_print; [exact cloud_ok|by apply utf8_valid_ascii| |].
    - repeat constructor; cbn; try done. apply utf8_valid_ascii. revert Ht. apply str_all_impl. by_impl.
    - by apply (bool_decide_unpack _). }
  unfold action_from_url, first_of. rewrite !Hread. subst a. unfold to_url_get_params, no_ssl_params, cloud.
  cbn [ba_use_ssl]. params_cbn. rewrite printed_organization, id_letters by done.
  by destruct (_ <=? 32)%nat.
Qed.

(** A request of the administrator for a group of this name. *)
Record group_request (config : HttpConfig) (req : HTTPRequest) (s : Backend) (name : string) : Prop := {
  gr_method : req_method req = "GET";
  gr_path : chomp (req_path req) = "/creategroup/" +:+ name;
  gr_name : group_body name = true;
  gr_token : od_get (req_headers req) "token" = Some (hc_administration_token config);
  gr_valid : utf8_valid (hc_administration_token config) = true;
  gr_free : match be_organizations s !! name with Some o => is_bootstrapped o = false | None => True end }.

(** A word that is accepted as a name has no newline. *)
Lemma word_name rest name :
  word_group rest = Some name → group_name_ok name = true → group_body name = true.
Proof.
  unfold word_group, group_name_ok. case_match eqn:Hw; [|done]. intros [=<-] Hn.
  apply andb_true_iff in Hw as [_ Hw]. set (name := chomp rest) in *. clearbody name.
  destruct (chomp_inv name) as [E|E]; [by rewrite E|]. exfalso.
  destruct (letters_ascii _ Hn) as (Ha & _ & _).
  rewrite E, utf8_ascii in Hw by by rewrite str_all_app, Ha.
  rewrite forallb_forall in Hw. specialize (Hw (Some (String (of_code 10) ""))).
  discriminate Hw. apply in_map_iff. exists (of_code 10). split; [done|].
  clear. induction (chomp name) as [|c s IH]; [by left|]. by right.
Qed.
Lemma creategroup_word path name : match_route path = RCreategroup name → ∃ rest, word_group rest = Some name.
Proof.
  unfold match_route. repeat case_match; try done. intros [=<-].
  match goal with E : strip_prefix "/creategroup/" path ≫= _ = Some _ |- _ => apply bind_Some in E as (rest & _ & Hw) end.
  by exists rest.
Qed.

(** C40: only a request that shows the token of the administration changes the server,
    and only for a name of 4 to 63 letters that no bootstrapped organization has: it then has
    a new organization with the random token and without an expiration date. The
    address in the reply is read as the bootstrap address of this organization on
    cloud.guardata.app, for any name of at most 32 letters; it cannot be read for a
    longer one. *)
Theorem creategroup_correct config date token req s s' r
    (Htoken : token ≠ "" ∧ str_all always_safe token = true)
    (Hrun : handle_request config date token req s = (s', r)) :
  (s' ≠ s → ∃ name, group_request config req s name) ∧
  (∀ name, group_request config req s name →
    s' = set_organizations <[name := mkOrganization name token None None]> s ∧
    r = Ok (json_reply date 200 [("status", "ok"); ("CreatedGroup", name); ("groupURL", groupURL token name)]) ∧
    action_from_url (groupURL token name) =
      if (String.length name <=? 32)%nat then Ok (BackendOrganizationBootstrapAddr cloud name token)
      else Err AddrValueError).
Proof.
  split.
  - intros Hne. unfold handle_request in Hrun. case_bool_decide; [by injection Hrun as <- _|].
    case_bool_decide as Hget; [by injection Hrun as <- _|].
    destruct (match_route (req_path req)) as [|p|p|name| |] eqn:Hroute; try by injection Hrun as <- _.
    destruct (creategroup_word _ _ Hroute) as [rest Hword].
    unfold http_creategroup in Hrun. destruct (check_token config req) eqn:Htok; [by injection Hrun as <- _|].
    destruct (group_name_ok name) eqn:Hname; [|by injection Hrun as <- _]. cbn [negb] in Hrun.
    pose proof (word_name rest name Hword Hname) as Hbody. exists name.
    unfold check_token in Htok. destruct (od_get (req_headers req) "token") as [t|] eqn:Ht; [|done].
    destruct (utf8_valid t) eqn:Hv; [|done]. cbn [andb] in Htok. case_bool_decide as Heq; [|done].
    split; try done; [by apply creategroup_route|by rewrite Heq|by rewrite Heq|].
    destruct (be_organizations s !! name) as [o|] eqn:Ho; [|done]. destruct (is_bootstrapped o) eqn:Hb; [|done].
    exfalso. apply Hne. assert (organization_create name token None s = (s, Err OrganizationAlreadyExistsError)) as Hc.
    { unfold organization_create. rewrite (bind_Ok _ _ _ _ _ (gets_eq _ _)), Ho, Hb. done. }
    rewrite Hc in Hrun. by injection Hrun as <- _.
  - intros name [Hm Hp Hn Ht Hv Hf]. destruct Htoken as [Hne Hs].
    assert (group_name_ok name = true) as Hok.
    { unfold group_name_ok. rewrite chomp_id; [done|]. eapply (str_has_all is_alnum); [|done]. by apply letters_all; [|vm_compute]. }
    unfold handle_request in Hrun. rewrite Hm in Hrun. rewrite bool_decide_eq_false_2 in Hrun by done.
    rewrite bool_decide_eq_false_2 in Hrun by tauto.
    rewrite (proj2 (creategroup_route _ _ Hn) Hp) in Hrun. unfold http_creategroup, check_token in Hrun.
    rewrite Ht, Hv, bool_decide_eq_true_2, Hok in Hrun by done. cbn [andb negb] in Hrun.
    assert (organization_create name token None s
      = (set_organizations <[name := mkOrganization name token None None]> s, Ok tt)) as Hcreate.
    { unfold organization_create. rewrite (bind_Ok _ _ _ _ _ (gets_eq _ _)).
      destruct (be_organizations s !! name) as [o|]; [by rewrite Hf|done]. }
    rewrite Hcreate in Hrun. injection Hrun as <- <-. split_and!; [done|done|]. by apply group_url_read.
Qed.
End http.

Module HttpExample.
#[local] Instance ascii_only : Unicode :=
  {| unicode_word := λ _, false; unicode_space := λ _, false; unicode_digit := λ _, None;
     unicode_lower := λ c, c; netloc_normal := λ _, true |}.
#[local] Instance keys_of_32 : VerifyKeyApi := {| verify_key_ok := λ k, bool_decide (length k = 32%nat) |}.
(** Pages that show their parameters, and no file. *)
#[local] Instance plain_pages : WebResources :=
  {| render_template := λ _ params, json_dumps params; read_binary := λ _, Ok None; guess_type := λ _, None |}.

Definition config : HttpConfig := mkHttpConfig (Some (mkBackendAddr "example.com" 9999 false)) "s3cr3t" false.
Definition date : string := "Thu, 01 Jan 1970 00:00:00 GMT".
Definition get (target : string) (headers : list (string * string)) : H11Request :=
  mkH11Request "GET" target "1.1" headers.
Definition respond (event : H11Request) : Backend * result HttpExn HTTPResponse :=
  handle_client_http config date "00ff" "guardata/dev" event empty_backend.
Definition invitation : Addr :=
  BackendInvitationAddr (mkBackendAddr "proxy.local" 443 true) "My-Org" DEVICE_INVITATION 3%N.

Example invitation_url :
  to_http_redirection_url invitation
  = "https://proxy.local/redirect/My-Org?action=claim_device&token=00000000000000000000000000000003".
Proof. by vm_compute. Qed.
Lemma redirect_end_to_end_witness :
  addr_ok invitation ∧
  ∃ target texts rep, target_of (to_http_redirection_url invitation) = Some target ∧
    respond (get target []) = (empty_backend, Ok rep) ∧
    rep_data rep = Some (render_template "redirect.html"
      (("parsecurl", "parsec://example.com:9999/My-Org?action=claim_device&token=00000000000000000000000000000003&no_ssl=true") :: texts)).
Proof.
  assert (addr_ok invitation) as Ha by (split; [by split; vm_compute|by split_and!; vm_compute]).
  assert (base_ok (mkBackendAddr "example.com" 9999 false)) as Hb by by split; vm_compute.
  split; [exact Ha|].
  destruct (redirect_end_to_end config date "00ff" "guardata/dev" "1.1" [] _ "My-Org" DEVICE_INVITATION 3%N _ empty_backend Ha Hb eq_refl)
    as (target & texts & rep & Ht & Hr & _ & Hd & _).
  exists target, texts, rep. split; [exact Ht|]. split; [exact Hr|]. exact Hd.
Defined.

(** A creation with the token, and without it. *)
Definition creation (headers : odict string string) : HTTPRequest :=
  mkHTTPRequest "GET" "/creategroup/Friends" [] headers.
Lemma creategroup_witness :
  group_request config (creation [("token", "s3cr3t")]) empty_backend "Friends" ∧
  (handle_request config date "00ff" (creation [("token", "s3cr3t")]) empty_backend).1
    = set_organizations <["Friends" := mkOrganization "Friends" "00ff" None None]> empty_backend.
Proof.
  assert (group_request config (creation [("token", "s3cr3t")]) empty_backend "Friends") as Hg by by split; vm_compute.
  split; [exact Hg|].
  destruct (handle_request config date "00ff" (creation [("token", "s3cr3t")]) empty_backend) as [s' r] eqn:E.
  assert ("00ff" ≠ "" ∧ str_all always_safe "00ff" = true) as Htok by (split; [done|by vm_compute]).
  destruct (creategroup_correct _ _ _ _ _ _ _ Htok E) as [_ Hc]. by destruct (Hc _ Hg) as [-> _].
Defined.
Example no_token : (respond (get "/creategroup/Friends" [])).2 =
  Ok (mkHTTPResponse 400
    [("content-Type", "application/json"); ("Access-Control-Allow-Origin", "https://guardata.app");
     ("Access-Control-Allow-Methods", "GET"); ("Access-Control-Allow-Headers", "Content-Type");
     ("content-Length", "27"); ("date", date); ("server", "guardata"); ("connection", "close")]
    (Some ("{" +:+ QUOTE +:+ "status" +:+ QUOTE +:+ ": " +:+ QUOTE +:+ "missing_token" +:+ QUOTE +:+ "}"))).
Proof. by vm_compute. Qed.

(** The requests of the repository's tests. *)
Definition location (target : string) : result HttpExn string :=
  req ← from_h11_req (get target []);
  match match_route (req_path req) with
  | RRedirect path => location_url req path (mkBackendAddr "example.com" 9999 false)
  | _ => Err HttpKeyError
  end.
Example test_get_redirect : location "/redirect/foo/bar?a=1&b=2" = Ok "parsec://example.com:9999/foo/bar?a=1&b=2&no_ssl=true".
Proof. by vm_compute. Qed.
Example test_no_ssl_param_overwritten :
  location "/redirect/spam?no_ssl=false&a=1&b=2" = Ok "parsec://example.com:9999/spam?a=1&b=2&no_ssl=true".
Proof. by vm_compute. Qed.
(** A quote in the path is in the location, which the page has in a string of its
    script. *)
Example redirect_keeps_quotes : location "/redirect/x';alert(1);'" = Ok "parsec://example.com:9999/x';alert(1);'?no_ssl=true".
Proof. by vm_compute. Qed.
(** A target whose location has one bracket raises. *)
Example bracket_raises : from_h11_req (get "//[" []) = Err HttpValueError.
Proof. by vm_compute. Qed.
End HttpExample.
